(* ===== verification/_CoqProject ===== *)
-Q . S2P
Prelude.v
DList.v
Ring.v
HashTable.v
HeapSort.v
Timer.v
Malloc.v
PageAlloc.v
Paging.v
CString.v
Printk.v
Vma.v
TaskPaging.v
Space.v
Task.v
Sched.v
KHeap.v
MemFs.v
Path.v
FsTree.v
TmpFs.v
Vfs.v
FileCalls.v
Terminal.v
Interrupt.v
Keyboard.v
Elf.v
Loader.v
Packet.v
VirtioNet.v
NetDriver.v
ZeldaFs.v
Exec.v
Sleep.v
Pci.v
