(* ===== verification/Prelude.v ===== *)
(** * ZeldaOS: a verification library

    ZeldaOS is a kernel for 32-bit x86 written in C, with a runtime library and
    a few user programs.  This library models the kernel under src/ function by
    function and proves what makes the parts and their composition correct.

    ** The program

    - lib/: lists, trees, a binary heap, hash tables, rings and strings, the
      data structures everything else is made of;
    - memory/: the physical page allocators, the page tables of the kernel, its
      virtual memory areas and its heap;
    - kernel/: messages, timers, tasks with their states, signals, wait queues
      and address spaces, the scheduler and the system calls;
    - filesystem/: paths and mount points, directory trees, a file system in
      memory and the layer above all file systems;
    - x86/, device/, network/: the hardware; application/, runtime/: user code.

    ** The files

    Every file models the code its first comment names; a definition has the name
    of the function, macro or type it translates.

    - Prelude: what a C function does, as a state monad [M] with the faults
      [AssertFail] (a failing ASSERT halts the machine), [BadAccess] (an access
      through a pointer that points to no object) and [Diverge] (a loop that uses
      up its fuel); machine integers; stores; lenses from the state of a caller
      to that of a callee; the tactics that step through programs.
    - DList, Ring, HashTable, HeapSort, CString: lib/list.c, ring.h,
      hash_table.c, heap_sort.c, string.c.  Linked structures are stores from
      addresses to nodes, and the theorems relate them to sequences, finite maps
      and priority queues.
    - Timer: kernel/timer.c on the heap of HeapSort.
    - Malloc, KHeap: memory/malloc.c, and the class of laws the rest of the
      kernel knows of it, of which the allocator is an instance.
    - PageAlloc, Paging, Vma, TaskPaging: memory/paging.c, physical_memory.c,
      kernel_vma.c, kernel/userspace_vma.c and task_paging.c, on physical memory
      as a store of 32-bit words.
    - Printk: kernel/printk.c, formatting and the console.
    - Task, Sched: kernel/task.c, wait_queue.c, work_queue.c, task_signal.c and
      the calls of task_misc.c about signals: the states of a task, signals, the
      four task lists, the choice of the next task, the end of a task.
    - MemFs, Path, FsTree, TmpFs, Vfs: filesystem/memfs_blocking.c, the path
      functions of vfs.c, fs_hierarchy.c with lib/generic_tree.c, memfs.c, and
      the operations of vfs.c over tables of function pointers.
    - ZeldaFs: filesystem/zeldafs.c, devfs.c and dummyfs.c, the other file
      systems behind Vfs, and the image ZeldaDrive/hyrule.py writes.
    - FileCalls: the calls of kernel/task_misc.c on file descriptors.
    - Terminal, Keyboard: device/pseudo_terminal.c over the video memory of
      Printk, and device/keyboard.c with the terminals behind it.
    - Interrupt: x86/gdt.c, tss.c and interrupt.c, the tables the processor
      reads; kernel/system_call.c.
    - Elf: the check of program images and the command lines of kernel/elf.c,
      and the composition of command lines in task_misc.c.
    - Space, Loader: address spaces of several areas, and [load_static_elf32] of
      kernel/elf.c on the page tables, areas and tasks of the files above.  User
      memory is the physical memory behind the directory in CR3.
    - Sleep: [sleep] of kernel/task_misc.c and the clock interrupt of x86/pit.c,
      over Timer, Task and Sched.
    - Exec: [call_sys_execve] of kernel/task_misc.c, over ZeldaFs, Vfs, Elf and
      Loader.
    - Pci: device/pci.c and pci.h, over a bus of which the laws of the PCI
      specification are known.
    - Packet, VirtioNet, NetDriver: network/net_packet.c, virtio_net.c and
      ethernet_rx.c.  VirtioNet has the queues the driver shares with the card,
      NetDriver what driver and card do together, in any interleaving.

    ** The theorems

    - Refinement of an abstract object: lists are double-ended queues
      ([list_ops_refine_deque]), hash tables finite maps, the heap a priority
      queue, the page allocators sets of free frames, the console a log of
      lines, files in memory byte sequences ([tmpfs_refines_byte_files]), the
      directory tree and the file system finite trees of names
      ([hierarchy_names], [tmpfs_names], [vfs_serves_tmpfs]), file descriptors
      positions in shared byte sequences ([descriptors_refine_positions]), a
      task a transition system in which being stopped and being ready are
      independent ([task_refines_lts]), terminals texts of which the screen shows
      one ([terminals_share_screen]).
    - Invariants: the heap of the kernel has disjoint live blocks whatever is
      allocated and freed ([malloc_lifecycle]), mount points stay apart,
      reference counts count descriptors ([open_close_descriptors]).
    - Behaviour of an operation on all its branches: mapping, unmapping and
      faulting pages change exactly the translations they mean to, the scheduler
      is round robin over ready tasks and loses none but those that exit, a
      dying task gives back its frames, areas, files and heap blocks (page
      tables only as far as they become empty), timers fire once and in order, signals are delivered with
      the right frame, paths are canonicalized, strings formatted, keys become
      characters, a deleted file gives back exactly its memory
      ([tmpfs_delete_correct]), every device of the PCI bus is found and gets its
      driver ([pci_devices_found]).
    - Composition: [execve] of a file of the boot image makes a task with its
      segments and its arguments ([execve_runs_image_program]), from its parts:
      a program that is executed finds its arguments
      ([execve_passes_arguments]) and its segments in memory ([program_loaded]),
      a reader that sleeps gets the next key ([key_wakes_reader]), a task that
      sleeps is woken by the right clock interrupt whatever the other tasks do
      ([sleep_wakes]), a system call
      reaches the function of its number ([system_calls_dispatch]), the files of
      the boot image are read through the virtual file system ([image_served]).

    Where the code does not do what its comments or its purpose say, the theorem
    has the condition under which it does, and a theorem of its own shows the
    case it leaves out, for example [bss_not_cleared] (no code clears a frame),
    [elf_refuses_segment_at_end], [caps_shift_types_capital],
    [write_behind_end_shifts], [extend_left_wraps], [bridge_status_cleared].

    ** Fuel and bounds

    Loops over linked structures and loops without a counter are functions of a
    fuel that the caller takes from the size of the store or from the range of
    the counter.  The theorems show that it is enough: [Diverge] is a fault, and
    no theorem about a result excludes it by hypothesis.  Machine integers are
    values of [Z] with [u8], [u16], [u32] and [i32] where the code truncates.

    ** Not modelled

    - Code that only talks to hardware or only logs: ports, the
      disk, attaching the network card, the boot code in assembly, dumps.
    - The results of [malloc] in Loader are a given sequence of addresses
      (Malloc shows what they may be).
    - The switch of the processor between tasks: [schedule] returns the frame to
      resume, and a blocked function is split where it gives the processor up.
    - The user programs and the runtime library.
    - Memory below typed objects: a store holds objects of one type, so that an
      object can be read and written only as what it was made. *)

From stdpp Require Import prelude gmap list.
Open Scope Z_scope.

(** ** C outcomes

    A C function either returns, or stops the machine: an [ASSERT] that fails
    calls [panic] and halts ([KERNEL_LOGGING_LEVEL] is [LOG_INFO], so asserts
    are compiled in and enabled), an access to an address that holds no object
    of the expected type is a [BadAccess], and a loop that never terminates is
    [Diverge]. *)
Inductive fault := AssertFail | BadAccess | Diverge.

Inductive result (A : Type) := Ok (a : A) | Err (f : fault).
Arguments Ok {A} a.
Arguments Err {A} f.

(** A computation over the state [S]. *)
Definition M (S A : Type) : Type := S → result (A * S).

Declare Scope zelda_scope.
Delimit Scope zelda_scope with zelda.

#[global] Instance M_ret S : MRet (M S) := λ A a s, Ok (a, s).
#[global] Instance M_bind S : MBind (M S) := λ A B k m s,
  match m s with Ok (a, s') => k a s' | Err f => Err f end.

Definition fail {S A} (f : fault) : M S A := λ _, Err f.
Definition gets {S A} (f : S → A) : M S A := λ s, Ok (f s, s).
Definition modify {S} (f : S → S) : M S () := λ s, Ok ((), f s).

(** [ASSERT(cond)] of kernel/include/printk.h *)
Definition ASSERT {S} (b : bool) : M S () :=
  λ s, if b then Ok ((), s) else Err AssertFail.

Definition when {S} (b : bool) (m : M S ()) : M S () :=
  if b then m else mret ().

(** A typed object store: address to object. *)
Definition load {V} (a : Z) : M (gmap Z V) V :=
  λ σ, match σ !! a with Some v => Ok (v, σ) | None => Err BadAccess end.
Definition update {V} (a : Z) (f : V → V) : M (gmap Z V) () :=
  λ σ, match σ !! a with Some v => Ok ((), <[a := f v]> σ) | None => Err BadAccess end.

(** ** Lenses: a component's state inside a larger one *)
Record lens (S T : Type) := Lens { lget : S → T; lset : T → S → S }.
Arguments Lens {S T}.
Arguments lget {S T}.
Arguments lset {S T}.

Definition zoom {S T A} (L : lens S T) (m : M T A) : M S A :=
  λ s, match m (lget L s) with Ok (a, t) => Ok (a, lset L t s) | Err f => Err f end.

Class LensLaws {S T} (L : lens S T) : Prop := {
  lget_lset : ∀ s t, lget L (lset L t s) = t;
  lset_lget : ∀ s, lset L (lget L s) s = s;
  lset_lset : ∀ s t t', lset L t (lset L t' s) = lset L t s }.

(** ** Machine integers *)
Definition u8 (z : Z) : Z := z `mod` 256.
Definition u16 (z : Z) : Z := z `mod` 65536.
Definition u32 (z : Z) : Z := z `mod` 4294967296.
Definition u64 (z : Z) : Z := z `mod` 18446744073709551616.
(** two's complement reinterpretation of the low 32 bits *)
Definition i32 (z : Z) : Z :=
  let u := u32 z in if u <? 2147483648 then u else u - 4294967296.

Abbreviation NULL := 0 (only parsing).

(** C truth value of an integer or pointer *)
Definition ctrue (z : Z) : bool := negb (z =? 0).
Notation "! x" := (negb (ctrue x)) (at level 35, right associativity) : zelda_scope.

(** ** Arithmetic and arrays of C

    [a % b] of C: truncating, and a divide error for [b = 0]. *)
Definition crem {S} (a b : Z) : M S Z :=
  if b =? 0 then fail BadAccess else mret (Z.rem a b).

(** [a[i]] and [a[i] = v] of a C array that has exactly the cells of the list *)
Definition array_get {A} (l : list A) (i : Z) : option A :=
  if i <? 0 then None else l !! Z.to_nat i.

Definition array_set {A} (l : list A) (i : Z) (v : A) : option (list A) :=
  if (i <? 0) || (Z.of_nat (length l) <=? i) then None else Some (<[Z.to_nat i := v]> l).

Definition deref {S A} (o : option A) : M S A :=
  match o with Some v => mret v | None => fail BadAccess end.

(** ** Error codes: [enum errorcode] of kernel/include/zelda_posix.h *)
Definition OK : Z := 0.
Definition ERR_GENERIC : Z := 1.
Definition ERR_OUT_OF_MEMORY : Z := 2.
Definition ERR_OUT_OF_RESOURCE : Z := 3.
Definition ERR_INVALID_ARG : Z := 4.
Definition ERR_DEVICE_FAULT : Z := 5.
Definition ERR_PARTIAL : Z := 6.
Definition ERR_NOT_PRESENT : Z := 7.
Definition ERR_NOT_FOUND : Z := 8.
Definition ERR_NOT_SUPPORTED : Z := 9.
Definition ERR_BUSY : Z := 10.
Definition ERR_EXIST : Z := 11.
Definition ERR_IN_USE : Z := 12.
Definition ERR_INTERRUPTED : Z := 13.
Definition ERR_PROCESSED : Z := 14.

(** ** Page constants and rounding: lib/include/types.h *)
Definition PAGE_SIZE : Z := 4096.
Definition PAGE_MASK : Z := PAGE_SIZE - 1.

Definition page_round_addr (addr : Z) : Z :=
  if ctrue (Z.land addr PAGE_MASK)
  then u32 (PAGE_SIZE + u32 (Z.land addr (Z.lnot PAGE_MASK)))
  else addr.

(** ** Monad lemmas *)
Section monad.
Context {S : Type}.

Lemma bind_ok {A B} (m : M S A) (k : A → M S B) s a s' :
  m s = Ok (a, s') → (m ≫= k) s = k a s'.
Proof. unfold mbind, M_bind. by intros ->. Qed.

Lemma bind_err {A B} (m : M S A) (k : A → M S B) s f :
  m s = Err f → (m ≫= k) s = Err f.
Proof. unfold mbind, M_bind. by intros ->. Qed.

Lemma bind_Ok_inv {A B} (m : M S A) (k : A → M S B) s r :
  (m ≫= k) s = Ok r → ∃ a s', m s = Ok (a, s') ∧ k a s' = Ok r.
Proof. unfold mbind, M_bind. destruct (m s) as [[a s']|]; naive_solver. Qed.

Lemma ASSERT_true (b : bool) (s : S) : b = true → ASSERT b s = Ok ((), s).
Proof. by intros ->. Qed.
End monad.

Lemma load_ok {V} (σ : gmap Z V) a v : σ !! a = Some v → load a σ = Ok (v, σ).
Proof. unfold load. by intros ->. Qed.

Lemma update_ok {V} (σ : gmap Z V) a v f :
  σ !! a = Some v → update a f σ = Ok ((), <[a := f v]> σ).
Proof. unfold update. by intros ->. Qed.

Lemma zoom_ok {S T A} (L : lens S T) (m : M T A) s a t :
  m (lget L s) = Ok (a, t) → zoom L m s = Ok (a, lset L t s).
Proof. unfold zoom. by intros ->. Qed.

Lemma bind_assoc_run {S A B C} (m : M S A) (k : A → M S B) (k' : B → M S C) s :
  mbind k' (mbind k m) s = mbind (λ a, mbind k' (k a)) m s.
Proof. unfold mbind, M_bind. by destruct (m s) as [[a s']|]. Qed.

Lemma ret_run {S A} (a : A) (s : S) : (mret a : M S A) s = Ok (a, s).
Proof. done. Qed.

Lemma bind_ret_run {S A} (m : M S A) s : mbind mret m s = m s.
Proof. unfold mbind, M_bind. by destruct (m s) as [[a s']|]. Qed.

#[global] Arguments mbind _ _ _ _ _ _ : simpl never.
#[global] Arguments mret _ _ _ _ : simpl never.
#[global] Arguments M_bind _ _ _ _ _ _ : simpl never.
#[global] Arguments M_ret _ _ _ _ : simpl never.
#[global] Arguments load _ _ _ : simpl never.
#[global] Arguments update _ _ _ _ : simpl never.
#[global] Arguments ASSERT _ _ _ : simpl never.
#[global] Arguments gets _ _ _ _ : simpl never.
#[global] Arguments modify _ _ _ : simpl never.
#[global] Arguments when _ _ _ : simpl never.
#[global] Arguments fail _ _ _ _ : simpl never.
#[global] Arguments zoom _ _ _ _ _ _ : simpl never.
#[global] Arguments ctrue _ : simpl never.
#[global] Arguments u8 _ : simpl never.
#[global] Arguments u16 _ : simpl never.
#[global] Arguments u32 _ : simpl never.
#[global] Arguments u64 _ : simpl never.
#[global] Arguments i32 _ : simpl never.

(** ** Execution tactics

    [mstep] runs the first instruction of a block whose result is known: a
    store access whose lookup the context determines, an assert or a
    conditional whose condition the context decides, a [gets] or a [modify].
    [mrun] repeats it. *)
Create HintDb run.

(** List membership goals.  [mem_norm] splits the negative membership and
    duplicate-freeness facts of the context; [mem] closes (non-)membership and
    disequality goals from them. *)
Lemma NoDup_middle {A} (l1 l2 : list A) x :
  NoDup (l1 ++ x :: l2) ↔ (x ∉ l1) ∧ (x ∉ l2) ∧ NoDup (l1 ++ l2).
Proof.
  rewrite !NoDup_app, NoDup_cons. setoid_rewrite not_elem_of_cons.
  split; [|naive_solver]. intros (?&H&?&?). split_and!; try done.
  - intros Hx. by destruct (H x Hx).
  - intros y Hy. by destruct (H y Hy).
Qed.

Ltac mem_norm :=
  repeat match goal with
  | H : _ ∉ _ :: _ |- _ => apply not_elem_of_cons in H as [? ?]
  | H : _ ∉ _ ++ _ |- _ => apply not_elem_of_app in H as [? ?]
  | H : NoDup (_ :: _) |- _ => apply NoDup_cons in H as [? ?]
  | H : NoDup (_ ++ _ :: _) |- _ => apply NoDup_middle in H as (? & ? & ?)
  | H : NoDup (_ ++ []) |- _ => rewrite app_nil_r in H
  | H : NoDup ((_ ++ _) ++ _) |- _ => rewrite <-app_assoc in H; simpl in H
  | H : _ ∈ [] |- _ => exfalso; exact (not_elem_of_nil _ H)
  end.

Ltac mem :=
  intros; mem_norm;
  repeat match goal with
  | |- _ ∧ _ => split
  | |- _ ∉ _ :: _ => apply not_elem_of_cons
  | |- _ ∉ _ ++ _ => apply not_elem_of_app
  | |- _ ∉ [] => apply not_elem_of_nil
  | |- NoDup (_ ++ []) => rewrite app_nil_r
  | |- NoDup ((_ ++ _) ++ _) => rewrite <-app_assoc; simpl
  | |- NoDup (_ ++ _ :: _) => apply NoDup_middle
  | |- NoDup (_ :: _) => apply NoDup_cons
  | |- NoDup [] => apply NoDup_nil_2
  end;
  first [ assumption | congruence
        | repeat first [rewrite elem_of_cons | rewrite elem_of_app]; tauto ].

Ltac neq_solve :=
  first [ assumption | apply not_eq_sym; assumption | congruence | lia | by mem ].

Ltac mlookup :=
  lazymatch goal with
  | |- <[?a:=_]> _ !! ?a = _ => rewrite lookup_insert_eq; reflexivity
  | |- <[?a:=_]> _ !! _ = _ =>
      first [ rewrite lookup_insert_ne by neq_solve; mlookup
            | rewrite lookup_insert_eq; reflexivity ]
  | |- _ => first [ eassumption | reflexivity | solve [eauto with run] ]
  end.

(** decide a C condition *)
Ltac bsolve := first [ reflexivity | assumption | cbn; unfold ctrue; lia ].

Ltac mcond b := first [ replace b with true by (symmetry; bsolve)
                      | replace b with false by (symmetry; bsolve) ].

Ltac mstep :=
  lazymatch goal with
  | |- context [mbind ?k (mret ?a) ?s] =>
      rewrite (bind_ok (mret a) k s a s eq_refl)
  | |- context [mbind ?k (gets ?f) ?s] =>
      change (mbind k (gets f) s) with (k (f s) s)
  | |- context [mbind ?k (modify ?f) ?s] =>
      change (mbind k (modify f) s) with (k () (f s))
  | |- context [mbind ?k (load ?a) ?s] =>
      erewrite (bind_ok (load a) k s) by (apply load_ok; mlookup)
  | |- context [mbind ?k (update ?a ?f) ?s] =>
      erewrite (bind_ok (update a f) k s) by (apply update_ok; mlookup)
  | |- context [mbind ?k (ASSERT ?b) ?s] =>
      rewrite (bind_ok (ASSERT b) k s () s) by (apply ASSERT_true; bsolve)
  | |- context [mbind ?k (when true ?m) ?s] =>
      change (mbind k (when true m) s) with (mbind k m s)
  | |- context [mbind ?k (when false ?m) ?s] =>
      change (mbind k (when false m) s) with (k () s)
  | |- context [mbind ?k (when ?b ?m) ?s] => mcond b
  | |- context [mbind ?k (mbind ?k' ?m) ?s] =>
      rewrite (bind_assoc_run m k' k s)
  | |- context [mbind ?k (if ?b then ?m else ?m') ?s] => mcond b
  | |- context [(if ?b then ?m else ?m') ?s = _] => mcond b
  | |- context [when true ?m ?s = _] => change (when true m s) with (m s)
  | |- context [when false ?m ?s = _] => change (when false m s) with (Ok ((), s))
  | |- context [when ?b ?m ?s = _] => mcond b
  | |- context [update ?a ?f ?s = _] => erewrite (update_ok s a) by mlookup
  | |- context [mret ?a ?s] => rewrite ret_run
  end; cbn beta iota.

Ltac mrun := repeat (mstep; simpl).

(** ** Arithmetic facts *)
Lemma u32_small z : 0 ≤ z < 4294967296 → u32 z = z.
Proof. apply Z.mod_small. Qed.

Lemma u32_range z : 0 ≤ u32 z < 4294967296.
Proof. by apply Z.mod_pos_bound. Qed.

Lemma i32_small z : -2147483648 ≤ z < 2147483648 → i32 z = z.
Proof.
  intros Hz. unfold i32. destruct (Z.ltb_spec z 0).
  - assert (u32 z = z + 4294967296) as ->.
    { unfold u32. symmetry. apply (Z.mod_unique _ _ (-1)); lia. }
    destruct (_ <? _) eqn:E; lia.
  - rewrite u32_small by lia. destruct (_ <? _) eqn:E; lia.
Qed.

Lemma ctrue_true z : ctrue z = true ↔ z ≠ 0.
Proof. unfold ctrue. rewrite negb_true_iff, Z.eqb_neq. done. Qed.

Lemma ctrue_false z : ctrue z = false ↔ z = 0.
Proof. unfold ctrue. rewrite negb_false_iff, Z.eqb_eq. done. Qed.

Lemma crem_ok {S} a b (s : S) : 0 ≤ a → 0 < b → crem a b s = Ok (a `mod` b, s).
Proof.
  intros Ha Hb. unfold crem. rewrite (proj2 (Z.eqb_neq b 0)) by lia.
  rewrite ret_run. by rewrite Z.rem_mod_nonneg.
Qed.

Lemma mod_cases a b : 0 < b → 0 ≤ a < 2 * b → a `mod` b = if a <? b then a else a - b.
Proof.
  intros Hb Ha. destruct (Z.ltb_spec a b); [apply Z.mod_small; lia|].
  symmetry. apply (Z.mod_unique _ _ 1); lia.
Qed.

Lemma mod_cases_neg a b : 0 < b → - b ≤ a < b → a `mod` b = if a <? 0 then a + b else a.
Proof.
  intros Hb Ha. destruct (Z.ltb_spec a 0); [|apply Z.mod_small; lia].
  symmetry. apply (Z.mod_unique _ _ (-1)); lia.
Qed.

Lemma array_get_ok {A} (l : list A) i v : l !! Z.to_nat i = Some v → 0 ≤ i → array_get l i = Some v.
Proof. intros Hl Hi. unfold array_get. by rewrite (proj2 (Z.ltb_ge i 0)). Qed.

Lemma array_set_ok {A} (l : list A) i v :
  0 ≤ i < Z.of_nat (length l) → array_set l i v = Some (<[Z.to_nat i := v]> l).
Proof.
  intros Hi. unfold array_set.
  by rewrite (proj2 (Z.ltb_ge i 0)), (proj2 (Z.leb_gt _ i)) by lia.
Qed.

Lemma deref_ok {S A} (o : option A) (v : A) (s : S) : o = Some v → deref o s = Ok (v, s).
Proof. by intros ->. Qed.

Lemma Z_land_le_r a b : 0 ≤ a → 0 ≤ b → Z.land a b ≤ b.
Proof.
  intros Ha Hb. rewrite <-(Z2N.id a), <-(Z2N.id b), <-N2Z.inj_land by done.
  apply N2Z.inj_le, N.land_le_r.
Qed.

(** ** Byte sequences *)
Abbreviation lenZ l := (Z.of_nat (length l)).

(** [w] written over [d] from [off] on *)
Definition overlay (d : list Z) (off : Z) (w : list Z) : list Z :=
  take (Z.to_nat off) d ++ w ++ drop (Z.to_nat off + length w) d.

Lemma overlay_nil d off : overlay d off [] = d.
Proof. unfold overlay. simpl. rewrite Nat.add_0_r. apply take_drop. Qed.

Lemma overlay_end d w : overlay d (lenZ d) w = d ++ w.
Proof.
  unfold overlay. rewrite Nat2Z.id, take_ge, drop_ge, app_nil_r by lia. done.
Qed.

Lemma length_overlay d off w : 0 ≤ off ≤ lenZ d → lenZ (overlay d off w) = Z.max (lenZ d) (off + lenZ w).
Proof. intros H. unfold overlay. rewrite !length_app, length_take, length_drop. lia. Qed.

Lemma overlay_app d off w1 w2 :
  0 ≤ off ≤ lenZ d → overlay (overlay d off w1) (off + lenZ w1) w2 = overlay d off (w1 ++ w2).
Proof.
  intros H. unfold overlay. rewrite (app_assoc (take _ d)), length_app.
  assert (length (take (Z.to_nat off) d ++ w1) = Z.to_nat (off + lenZ w1)) as E by (rewrite length_app, length_take; lia).
  rewrite take_app_le, take_ge by lia. rewrite drop_app_ge by lia. rewrite E, drop_drop, <-!app_assoc.
  do 3 f_equal. f_equal. lia.
Qed.

Lemma overlay_mid x y z i w :
  0 ≤ i ≤ lenZ y → (z = [] ∨ i + lenZ w ≤ lenZ y) → overlay (x ++ y ++ z) (lenZ x + i) w = x ++ overlay y i w ++ z.
Proof.
  intros Hi Hz. unfold overlay. rewrite take_app_ge by lia. rewrite drop_app_ge by lia.
  replace (Z.to_nat (lenZ x + i) - length x)%nat with (Z.to_nat i) by lia.
  replace (Z.to_nat (lenZ x + i) + length w - length x)%nat with (Z.to_nat i + length w)%nat by lia.
  rewrite take_app_le by lia. rewrite <-!app_assoc. do 3 f_equal. destruct Hz as [->|Hz]; [by rewrite !app_nil_r|].
  by rewrite drop_app_le by lia.
Qed.

Lemma take_ge_0 (l : list Z) n : (n = 0)%nat → take n l = [].
Proof. by intros ->. Qed.

Lemma Forall2_weaken {B C} (P Q : B → C → Prop) l k :
  (∀ x y, x ∈ l → P x y → Q x y) → Forall2 P l k → Forall2 Q l k.
Proof.
  intros HPQ HF. induction HF as [|x y l k Hxy HF IH]; constructor; [apply HPQ; [by left|done]|].
  apply IH. intros a b Ha. apply HPQ. by right.
Qed.


Lemma array_get_mid (a : list Z) x b : array_get (a ++ x :: b) (lenZ a) = Some x.
Proof. apply array_get_ok; [|lia]. rewrite Nat2Z.id. by apply list_lookup_middle. Qed.

Lemma array_set_overlay l i v : 0 ≤ i < lenZ l → array_set l i v = Some (overlay l i [v]).
Proof.
  intros Hi. rewrite array_set_ok by done. f_equal. unfold overlay. rewrite insert_take_drop by lia.
  do 3 f_equal. simpl. lia.
Qed.

Lemma obind {A B} (x : A) (f : A → option B) : (Some x ≫= f) = f x.
Proof. done. Qed.

(** little-endian integers in memory *)
Definition le16 (mem : list Z) (off : Z) : option Z :=
  b0 ← array_get mem off; b1 ← array_get mem (off + 1); Some (b0 + 256 * b1).
Definition le32 (mem : list Z) (off : Z) : option Z :=
  w0 ← le16 mem off; w1 ← le16 mem (off + 2); Some (w0 + 65536 * w1).
Definition le_bytes (v : Z) : list Z := [v `mod` 256; (v / 256) `mod` 256; (v / 65536) `mod` 256; (v / 16777216) `mod` 256].

Lemma array_get_Some {A} (l : list A) i : 0 ≤ i < lenZ l → ∃ x, array_get l i = Some x ∧ l !! Z.to_nat i = Some x.
Proof.
  intros Hi. destruct (lookup_lt_is_Some_2 l (Z.to_nat i)) as [x Hx]; [lia|]. exists x. split; [|done].
  by apply array_get_ok; [|lia].
Qed.

Lemma le16_Some mem off : 0 ≤ off → off + 2 ≤ lenZ mem → is_Some (le16 mem off).
Proof.
  intros H1 H2. unfold le16. destruct (array_get_Some mem off) as (x & -> & _); [lia|].
  destruct (array_get_Some mem (off + 1)) as (y & -> & _); [lia|]. by eexists.
Qed.

Lemma le32_Some mem off : 0 ≤ off → off + 4 ≤ lenZ mem → is_Some (le32 mem off).
Proof.
  intros H1 H2. unfold le32. destruct (le16_Some mem off) as [x ->]; [lia|lia|].
  destruct (le16_Some mem (off + 2)) as [y ->]; [lia|lia|]. by eexists.
Qed.


(** an integer read back from its four bytes *)
Lemma le32_bytes a v b : 0 ≤ v < 4294967296 → le32 (a ++ le_bytes v ++ b) (lenZ a) = Some v.
Proof.
  intros Hv. assert (∀ k x, le_bytes v !! k = Some x → array_get (a ++ le_bytes v ++ b) (lenZ a + Z.of_nat k) = Some x) as Hget.
  { intros k x Hx. apply array_get_ok; [|lia]. rewrite lookup_app_r by lia. replace (Z.to_nat _ - length a)%nat with k by lia.
    by apply lookup_app_l_Some. }
  pose proof (Hget 0%nat _ eq_refl) as H0. pose proof (Hget 1%nat _ eq_refl) as H1.
  pose proof (Hget 2%nat _ eq_refl) as H2. pose proof (Hget 3%nat _ eq_refl) as H3.
  change (Z.of_nat 0) with 0 in H0. change (Z.of_nat 1) with 1 in H1. change (Z.of_nat 2) with 2 in H2. change (Z.of_nat 3) with 3 in H3.
  rewrite Z.add_0_r in H0. unfold le32, le16. rewrite H0, obind, H1, obind, obind. rewrite H2, obind.
  replace (lenZ a + 2 + 1) with (lenZ a + 3) by lia. rewrite H3, !obind. f_equal.
  pose proof (Z.div_mod v 256 ltac:(lia)). pose proof (Z.div_mod (v / 256) 256 ltac:(lia)). pose proof (Z.div_mod (v / 65536) 256 ltac:(lia)).
  pose proof (Z.div_div v 256 256 ltac:(lia) ltac:(lia)). pose proof (Z.div_div v 65536 256 ltac:(lia) ltac:(lia)).
  change (256 * 256) with 65536 in *. change (65536 * 256) with 16777216 in *.
  rewrite (Z.mod_small (v / 16777216)) by (split; [apply Z.div_pos|apply Z.div_lt_upper_bound]; lia). lia.
Qed.
