(* ===== verification/DList.v ===== *)
(** * Intrusive doubly linked lists: lib/list.c, lib/include/list.h

    [struct list_elem] objects live in a store from addresses to
    [{prev; next}]; NULL is address 0.  A list head is a [list_elem] too: its
    [next] is the first and its [prev] the last element, and the chain is
    terminated by NULL at both ends (the head is not part of the ring).
    [dlist σ h l] says that the head at [h] anchors exactly the elements [l]. *)

From stdpp Require Import gmap list.
From S2P Require Import Prelude.
Open Scope Z_scope.
Open Scope zelda_scope.

Record list_elem := mk_elem { prev : Z; next : Z }.

#[global] Instance list_elem_eq_dec : EqDecision list_elem.
Proof. solve_decision. Defined.

Definition set_prev (p : Z) (e : list_elem) : list_elem := mk_elem p (next e).
Definition set_next (n : Z) (e : list_elem) : list_elem := mk_elem (prev e) n.

Abbreviation lstore := (gmap Z list_elem).

(** ** Operations *)

(** [list_init(head)] *)
Definition list_init (head : Z) : M lstore () :=
  update head (set_prev NULL) ;;
  update head (set_next NULL).

(** [list_empty(head)] *)
Definition list_empty (head : Z) : M lstore bool :=
  h ← load head;
  mret (! next h).

(** [list_node_detached(head, node)] *)
Definition list_node_detached (head node : Z) : M lstore bool :=
  n ← load node;
  h ← load head;
  mret ((! prev n) && (! next n) && negb (next h =? node)).

Definition list_append (head elem : Z) : M lstore () :=
  e ← load elem;
  ASSERT (! prev e) ;;
  ASSERT (! next e) ;;
  h ← load head;
  when (! next h) (update head (set_next elem)) ;;
  h ← load head;
  when (ctrue (prev h)) (
    update elem (set_prev (prev h)) ;;
    update (prev h) (set_next elem)) ;;
  update head (set_prev elem).

Definition list_prepend (head elem : Z) : M lstore () :=
  e ← load elem;
  ASSERT (! prev e) ;;
  ASSERT (! next e) ;;
  h ← load head;
  when (ctrue (next h)) (
    update elem (set_next (next h)) ;;
    update (next h) (set_prev elem)) ;;
  update head (set_next elem) ;;
  h ← load head;
  when (! prev h) (update head (set_prev elem)).

Definition list_pop (head : Z) : M lstore Z :=
  empty ← list_empty head;
  if empty : bool then mret NULL else
  h ← load head;
  ASSERT (ctrue (prev h)) ;;
  let _elem := prev h in
  e ← load _elem;
  update head (set_prev (prev e)) ;;
  (if ctrue (prev e)
   then update (prev e) (set_next NULL)
   else update head (set_next NULL)) ;;
  update _elem (set_prev NULL) ;;
  e ← load _elem;
  ASSERT (! next e) ;;
  mret _elem.

Definition list_fetch (head : Z) : M lstore Z :=
  empty ← list_empty head;
  if empty : bool then mret NULL else
  h ← load head;
  ASSERT (ctrue (prev h)) ;;
  let _elem := next h in
  e ← load _elem;
  update head (set_next (next e)) ;;
  (if ctrue (next e)
   then update (next e) (set_prev NULL)
   else update head (set_prev NULL)) ;;
  update _elem (set_next NULL) ;;
  e ← load _elem;
  ASSERT (! prev e) ;;
  mret _elem.

(** The [LIST_FOREACH] search loop "find [elem], else walk to the end".  The
    walk follows [next] without changing the store; it is cut after [fuel]
    elements, and a walk longer than the number of objects in the store has
    visited one of them twice and never ends. *)
Fixpoint foreach_find (fuel : nat) (found : Z → bool) (cur : Z) : M lstore Z :=
  match fuel with
  | O => fail Diverge
  | S fuel =>
      if ctrue cur then
        e ← load cur;
        if found cur then mret cur else foreach_find fuel found (next e)
      else mret NULL
  end.

Definition list_search (head : Z) (found : Z → bool) : M lstore Z :=
  h ← load head;
  fuel ← gets (λ σ, S (size σ));
  foreach_find fuel found (next h).

Definition list_delete (head elem : Z) : M lstore () :=
  r ← list_search head (Z.eqb elem);
  ASSERT (ctrue r) ;;
  h ← load head;
  when (prev h =? elem) (
    e ← load elem;
    ASSERT (! next e) ;;
    update head (set_prev (prev e))) ;;
  h ← load head;
  when (next h =? elem) (
    e ← load elem;
    ASSERT (! prev e) ;;
    update head (set_next (next e))) ;;
  e ← load elem;
  when (ctrue (next e)) (update (next e) (set_prev (prev e))) ;;
  e ← load elem;
  when (ctrue (prev e)) (update (prev e) (set_next (next e))) ;;
  update elem (set_prev NULL) ;;
  update elem (set_next NULL).

Definition element_in_list (head elem : Z) : M lstore bool :=
  e ← load elem;
  h ← load head;
  if (! next e) && (! prev e) && negb (next h =? elem) && negb (prev h =? elem)
  then mret false
  else r ← list_search head (Z.eqb elem); mret (ctrue r).

(** ** Representation predicate *)

(** [dseg σ p l n]: the elements [l] are chained in order, the first one's
    [prev] is [p] and the last one's [next] is [n]. *)
Fixpoint dseg (σ : lstore) (p : Z) (l : list Z) (n : Z) : Prop :=
  match l with
  | [] => True
  | x :: l' => σ !! x = Some (mk_elem p (default n (head l'))) ∧ dseg σ x l' n
  end.

Record dlist (σ : lstore) (h : Z) (l : list Z) : Prop := {
  dlist_head : σ !! h = Some (mk_elem (default NULL (last l)) (default NULL (head l)));
  dlist_seg : dseg σ NULL l NULL;
  dlist_nodup : NoDup (h :: l);
  dlist_nonnull : NULL ∉ l }.

(** [σ'] agrees with [σ] outside [A]. *)
Definition same_outside (A : list Z) (σ σ' : lstore) : Prop :=
  ∀ a, a ∉ A → σ' !! a = σ !! a.

Lemma head_app {A} (l k : list A) :
  head (l ++ k) = match head l with Some x => Some x | None => head k end.
Proof. by destruct l. Qed.

Lemma last_app_some {A} (l k : list A) :
  last (l ++ k) = match last k with Some x => Some x | None => last l end.
Proof. apply last_app. Qed.

Lemma dseg_app σ p l1 l2 n :
  dseg σ p (l1 ++ l2) n ↔
  dseg σ p l1 (default n (head l2)) ∧ dseg σ (default p (last l1)) l2 n.
Proof.
  revert p. induction l1 as [|x l1 IH]; intros p; [naive_solver|].
  simpl. rewrite IH, head_app.
  assert (default x (last l1) = default p (last (x :: l1))) as ->
    by (rewrite last_cons; by destruct (last l1)).
  destruct l1; naive_solver.
Qed.

Lemma dseg_ext σ σ' p l n :
  (∀ a, a ∈ l → σ' !! a = σ !! a) → dseg σ p l n → dseg σ' p l n.
Proof.
  revert p. induction l as [|x l IH]; intros p Heq; [done|].
  intros [Hx Hl]. split; [rewrite Heq; [done|set_solver]|].
  apply IH; [set_solver|done].
Qed.

Lemma dseg_insert σ p l n a e : a ∉ l → dseg σ p l n → dseg (<[a:=e]> σ) p l n.
Proof.
  intros Ha. apply dseg_ext. intros b Hb. rewrite lookup_insert_ne; [done|set_solver].
Qed.

Lemma dseg_lookup σ p l n a : dseg σ p l n → a ∈ l → is_Some (σ !! a).
Proof.
  revert p. induction l as [|x l IH]; intros p; [set_solver|].
  intros [Hx Hl] Ha. set_unfold in Ha. destruct Ha as [->|Ha]; eauto.
Qed.

Lemma dlist_frame σ σ' h l A :
  same_outside A σ σ' → h ∉ A → l ## A → dlist σ h l → dlist σ' h l.
Proof.
  intros Hs Hh Hl [H1 H2 H3 H4]. split; [|..|done|done].
  - by rewrite Hs.
  - eapply dseg_ext; [|done]. intros a Ha. apply Hs. set_solver.
Qed.

Lemma same_outside_refl A σ : same_outside A σ σ.
Proof. by intros a. Qed.

Lemma same_outside_insert A σ σ' a e :
  a ∈ A → same_outside A σ σ' → same_outside A σ (<[a:=e]> σ').
Proof. intros Ha H b Hb. rewrite lookup_insert_ne; [by apply H|set_solver]. Qed.

Lemma same_outside_trans A σ1 σ2 σ3 :
  same_outside A σ1 σ2 → same_outside A σ2 σ3 → same_outside A σ1 σ3.
Proof. intros H1 H2 a Ha. rewrite H2, H1; done. Qed.

Lemma same_outside_weaken A B σ σ' :
  A ⊆ B → same_outside A σ σ' → same_outside B σ σ'.
Proof. intros HAB H a Ha. apply H. set_solver. Qed.

#[export] Hint Resolve same_outside_refl : run.

(** ** Every operation on a well-formed list

    The tactics close the side conditions of an explicit final store. *)
Ltac lookups := repeat (first [ rewrite lookup_insert_eq | rewrite lookup_insert_ne by neq_solve ]).
Ltac segs := repeat (apply dseg_insert; [mem|]); first [assumption | done].
Ltac outside := repeat (apply same_outside_insert; [mem|]); apply same_outside_refl.
Ltac finish := eexists; split; [reflexivity|split; [split|outside]].

Lemma list_append_ok σ h l e :
  dlist σ h l → σ !! e = Some (mk_elem NULL NULL) → e ≠ NULL → e ∉ h :: l →
  ∃ σ', list_append h e σ = Ok ((), σ') ∧ dlist σ' h (l ++ [e]) ∧
        same_outside (h :: e :: l) σ σ'.
Proof.
  intros [Hh Hseg Hnd Hnn] He Hen Hel.
  unfold list_append. apply NoDup_cons in Hnd as [Hhl Hnd].
  apply not_elem_of_cons in Hel as [Heh Hel].
  destruct l as [|z l _] using rev_ind.
  - simpl in *. mrun. finish; simpl; lookups; try done; mem.
  - rewrite last_snoc in Hh. apply dseg_app in Hseg as [Hs1 [Hz _]]. simpl in *.
    assert (default 0 (head (l ++ [z])) ≠ 0) by (destruct l; simpl in *; mem).
    assert (z ≠ 0 ∧ z ≠ h ∧ z ≠ e) as (?&?&?) by mem.
    mrun. finish.
    + lookups. rewrite last_snoc, <-app_assoc, !head_app. by destruct l.
    + rewrite <-app_assoc. apply dseg_app. simpl. lookups. split; [segs|done].
    + mem.
    + mem.
Qed.

Lemma list_prepend_ok σ h l e :
  dlist σ h l → σ !! e = Some (mk_elem NULL NULL) → e ≠ NULL → e ∉ h :: l →
  ∃ σ', list_prepend h e σ = Ok ((), σ') ∧ dlist σ' h (e :: l) ∧
        same_outside (h :: e :: l) σ σ'.
Proof.
  intros [Hh Hseg Hnd Hnn] He Hen Hel.
  unfold list_prepend. apply NoDup_cons in Hnd as [Hhl Hnd].
  apply not_elem_of_cons in Hel as [Heh Hel].
  destruct l as [|z l].
  - simpl in *. mrun. finish; simpl; lookups; try done; mem.
  - destruct Hseg as [Hz Hs]. simpl in *. rewrite last_cons in Hh.
    assert (default z (last l) ≠ 0).
    { destruct (last l) as [w|] eqn:Hw; simpl; [|mem].
      apply last_Some_elem_of in Hw. mem. }
    assert (z ≠ 0 ∧ z ≠ h ∧ z ≠ e) as (?&?&?) by mem.
    apply NoDup_cons in Hnd as [Hzl Hnd].
    destruct (last l) as [w|] eqn:Hw; simpl in *.
    all: mrun; finish.
    all: try (rewrite !last_cons, Hw); simpl; lookups; try done.
    all: try (split_and!; try done; segs).
    all: mem.
Qed.

Lemma list_pop_ok σ h l e :
  dlist σ h (l ++ [e]) →
  ∃ σ', list_pop h σ = Ok (e, σ') ∧ dlist σ' h l ∧
        same_outside (h :: e :: l) σ σ' ∧ σ' !! e = Some (mk_elem NULL NULL).
Proof.
  intros [Hh Hseg Hnd Hnn].
  unfold list_pop, list_empty. apply NoDup_cons in Hnd as [Hhl Hnd].
  apply dseg_app in Hseg as [Hs1 [Hz _]].
  rewrite last_snoc, head_app in Hh. simpl in *.
  assert (e ≠ 0 ∧ e ≠ h) as [??] by mem.
  destruct l as [|z l _] using rev_ind.
  - simpl in *. mrun. eexists; split_and!; [reflexivity|split|outside|]; simpl; lookups; try done.
    all: mem.
  - assert (default e (head (l ++ [z])) ≠ 0) by (destruct l; simpl in *; mem).
    rewrite last_snoc in Hz. apply dseg_app in Hs1 as [Hs1 [Hz' _]]. simpl in *.
    assert (e ≠ z ∧ z ≠ 0 ∧ z ≠ h) as (?&?&?) by mem.
    destruct (head (l ++ [z])) as [w|] eqn:Hw; [|by destruct l]. simpl in *.
    mrun. eexists; split_and!; [reflexivity|split|outside|]; simpl; lookups; try done.
    + by rewrite last_snoc, Hw.
    + apply dseg_app. split; [segs|]. simpl. by lookups.
    + mem.
    + mem.
Qed.

Lemma list_fetch_ok σ h l e :
  dlist σ h (e :: l) →
  ∃ σ', list_fetch h σ = Ok (e, σ') ∧ dlist σ' h l ∧
        same_outside (h :: e :: l) σ σ' ∧ σ' !! e = Some (mk_elem NULL NULL).
Proof.
  intros [Hh [He Hs] Hnd Hnn].
  unfold list_fetch, list_empty. apply NoDup_cons in Hnd as [Hhl Hnd].
  apply NoDup_cons in Hnd as [Hel Hnd]. simpl in *. rewrite last_cons in Hh.
  assert (default e (last l) ≠ 0).
  { destruct (last l) as [w|] eqn:Hw; simpl; [|mem].
    apply last_Some_elem_of in Hw. mem. }
  assert (e ≠ 0 ∧ e ≠ h) as [??] by mem.
  destruct l as [|z l].
  - simpl in *. mrun. eexists; split_and!; [reflexivity|split|outside|]; simpl; lookups; try done.
    all: mem.
  - destruct Hs as [Hz Hs]. simpl in *.
    assert (e ≠ z ∧ z ≠ 0 ∧ z ≠ h) as (?&?&?) by mem.
    apply NoDup_cons in Hnd as [Hzl Hnd]. rewrite last_cons in *.
    destruct (last l) as [w|] eqn:Hw; simpl in *.
    all: mrun; eexists; split_and!; [reflexivity|split|outside|]; simpl; lookups; try done.
    all: try (by rewrite last_cons, Hw).
    all: try (split_and!; try done; segs).
    all: mem.
Qed.

Lemma list_empty_ok σ h l :
  dlist σ h l → list_empty h σ = Ok (bool_decide (l = []), σ).
Proof.
  intros [Hh _ _ Hnn]. unfold list_empty. mrun. do 2 f_equal.
  destruct l as [|x l]; simpl; [done|].
  assert (x ≠ 0) by mem. by rewrite (proj2 (ctrue_true x)).
Qed.

Lemma list_fetch_nil σ h : dlist σ h [] → list_fetch h σ = Ok (NULL, σ).
Proof. intros [Hh _ _ _]. unfold list_fetch, list_empty. simpl in *. by mrun. Qed.

Lemma list_pop_nil σ h : dlist σ h [] → list_pop h σ = Ok (NULL, σ).
Proof. intros [Hh _ _ _]. unfold list_pop, list_empty. simpl in *. by mrun. Qed.

Lemma dlist_length_size σ h l : dlist σ h l → (length l < size σ)%nat.
Proof.
  intros [Hh Hseg Hnd _].
  assert (list_to_set (h :: l) ⊆@{gset Z} dom σ) as Hsub.
  { intros a Ha. apply elem_of_list_to_set, elem_of_cons in Ha as [->|Ha].
    - apply elem_of_dom. eauto.
    - apply elem_of_dom. by eapply dseg_lookup. }
  apply subseteq_size in Hsub. rewrite size_list_to_set, size_dom in Hsub by done.
  simpl in Hsub. lia.
Qed.

Lemma foreach_find_seg σ p l fnd fuel :
  dseg σ p l NULL → NULL ∉ l → (length l < fuel)%nat →
  foreach_find fuel fnd (default NULL (head l)) σ =
  Ok (default NULL (head (filter (λ x, fnd x = true) l)), σ).
Proof.
  revert p fuel. induction l as [|x l IH]; intros p fuel Hs Hn Hf.
  - destruct fuel; [simpl in Hf; lia|]. simpl. by mrun.
  - destruct fuel; [simpl in Hf; lia|]. destruct Hs as [Hx Hs]. simpl in *.
    assert (x ≠ 0) by mem. mrun. rewrite filter_cons.
    destruct (fnd x) eqn:Hfx; simpl; [done|].
    eapply IH; [done|mem|lia].
Qed.

Lemma list_search_ok σ h l fnd :
  dlist σ h l →
  list_search h fnd σ = Ok (default NULL (head (filter (λ x, fnd x = true) l)), σ).
Proof.
  intros Hd. pose proof (dlist_length_size _ _ _ Hd). destruct Hd as [Hh Hs _ Hnn].
  unfold list_search. do 2 mstep. eapply foreach_find_seg; [done..|lia].
Qed.

Lemma filter_eq_head (l : list Z) e :
  e ∈ l → head (filter (λ x, (e =? x) = true) l) = Some e.
Proof.
  induction l as [|x l IH]; [mem|]. intros Hin. rewrite filter_cons.
  case_decide as Hx; simpl; [f_equal; lia|]. apply IH.
  apply elem_of_cons in Hin as [->|]; [lia|done].
Qed.

Lemma filter_eq_nil (l : list Z) e :
  e ∉ l → filter (λ x, (e =? x) = true) l = [].
Proof.
  induction l as [|x l IH]; [done|]. intros Hin. mem_norm. rewrite filter_cons.
  case_decide; [lia|auto].
Qed.

Lemma element_in_list_ok σ h l e :
  dlist σ h l → is_Some (σ !! e) → e ≠ NULL →
  element_in_list h e σ = Ok (bool_decide (e ∈ l), σ).
Proof.
  intros Hd [[pe ne] He] Hen. unfold element_in_list.
  pose proof (list_search_ok _ _ _ (Z.eqb e) Hd) as Hf.
  destruct Hd as [Hh Hs Hnd Hnn]. mrun.
  destruct (_ && _) eqn:Hc.
  - mrun. rewrite bool_decide_eq_false_2; [done|]. intros Hin.
    apply list_elem_of_split in Hin as (l1 & l2 & ->).
    apply dseg_app in Hs as [_ [He' _]]. rewrite He' in He. simplify_eq.
    rewrite !andb_true_iff in Hc. destruct Hc as [[[_ Hc1] Hc2] _].
    destruct l1 as [|x l1 _] using rev_ind; simpl in *; [lia|].
    rewrite last_snoc in Hc1. simpl in Hc1.
    assert (x ≠ 0) by mem. unfold ctrue in Hc1. lia.
  - erewrite bind_ok by done. cbn beta. mrun. do 2 f_equal.
    case_bool_decide as Hin.
    + rewrite filter_eq_head by done. by apply ctrue_true.
    + by rewrite filter_eq_nil.
Qed.

Lemma last_cons_default (l : list Z) a d : default d (last (a :: l)) = default a (last l).
Proof. rewrite last_cons. by destruct (last l). Qed.

Lemma head_app_default (l k : list Z) d :
  default d (head (l ++ k)) = default (default d (head k)) (head l).
Proof. by destruct l. Qed.

Lemma last_default_ne (l : list Z) e y : e ∉ l → y ≠ e → default y (last l) ≠ e.
Proof.
  intros He Hy. destruct (last l) as [w|] eqn:Hw; simpl; [|done].
  apply last_Some_elem_of in Hw. intros ->. done.
Qed.

Lemma head_default_ne (l : list Z) e y : e ∉ l → y ≠ e → default y (head l) ≠ e.
Proof. intros He Hy. destruct l; simpl; [done|]. mem_norm. congruence. Qed.

Lemma last_mid_default (l1 l2 : list Z) e d :
  default d (last (l1 ++ e :: l2)) = default e (last l2).
Proof. rewrite last_app_some, last_cons. by destruct (last l2). Qed.

Lemma list_delete_ok σ h l1 l2 e :
  dlist σ h (l1 ++ e :: l2) →
  ∃ σ', list_delete h e σ = Ok ((), σ') ∧ dlist σ' h (l1 ++ l2) ∧
        same_outside (h :: l1 ++ e :: l2) σ σ' ∧ σ' !! e = Some (mk_elem NULL NULL).
Proof.
  intros Hd. unfold list_delete.
  rewrite (bind_ok _ _ _ _ _ (list_search_ok _ _ _ (Z.eqb e) Hd)).
  rewrite filter_eq_head by mem.
  destruct Hd as [Hh Hs Hnd Hnn]. cbn beta.
  apply dseg_app in Hs as [Hs1 [He Hs2]].
  rewrite head_app_default, last_mid_default in Hh. simpl in *.
  assert (e ≠ 0 ∧ e ≠ h) as [??] by mem.
  assert (NoDup (h :: l1 ++ l2)) as Hnd' by mem.
  destruct l1 as [|x l1 _] using rev_ind; destruct l2 as [|y l2]; simpl in *.
  - mrun. eexists; split_and!; [reflexivity|split|outside|]; simpl; lookups; try done.
    all: mem.
  - destruct Hs2 as [Hy Hs2]. 
    assert (default y (last l2) ≠ e) by (apply last_default_ne; mem).
    assert (y ≠ 0 ∧ y ≠ h ∧ y ≠ e) as (?&?&?) by mem.
    rewrite last_cons_default in Hh.
    mrun. eexists; split_and!; [reflexivity|split|outside|]; simpl; lookups; try done.
    + by rewrite last_cons_default.
    + split; [done|]. mem_norm. segs.
    + mem.
  - rewrite last_snoc in He. apply dseg_app in Hs1 as [Hs1 [Hx _]].
    rewrite head_app_default in Hh.
    assert (default x (head l1) ≠ e) by (apply head_default_ne; mem).
    assert (x ≠ 0 ∧ x ≠ h ∧ x ≠ e) as (?&?&?) by mem. simpl in *.
    mrun. eexists; split_and!; [reflexivity|split|outside|]; simpl; lookups; try done.
    all: rewrite ?app_nil_r, ?last_snoc, ?head_app_default; try done.
    + apply dseg_app. simpl. lookups. split; [mem_norm; segs|done].
    + mem.
  - rewrite last_snoc in He. apply dseg_app in Hs1 as [Hs1 [Hx _]].
    destruct Hs2 as [Hy Hs2]. rewrite head_app_default in Hh.
    assert (default x (head l1) ≠ e) by (apply head_default_ne; mem).
    assert (default y (last l2) ≠ e) by (apply last_default_ne; mem).
    assert (x ≠ 0 ∧ x ≠ h ∧ x ≠ e ∧ x ≠ y) as (?&?&?&?) by mem.
    assert (y ≠ 0 ∧ y ≠ h ∧ y ≠ e) as (?&?&?) by mem. simpl in *.
    rewrite last_cons_default in Hh.
    mrun. eexists; split_and!; [reflexivity|split|outside|]; simpl; lookups; try done.
    + by rewrite last_mid_default, !head_app_default.
    + rewrite dseg_app, dseg_app, last_snoc. simpl. lookups.
      mem_norm. split_and!; try done; segs.
    + mem.
Qed.

(** ** The list as an abstract double-ended queue *)

Inductive list_op :=
  | OpAppend (e : Z) | OpPrepend (e : Z) | OpPop | OpFetch | OpDelete (e : Z).

(** What the header promises of an operation on the element sequence [l]; the
    second component is the element handed back (NULL when there is none).
    [None]: the operation is outside the contract (the element to insert is
    already in the list, or the element to delete is not). *)
Definition spec_op (op : list_op) (l : list Z) : option (Z * list Z) :=
  match op with
  | OpAppend e => if decide (e ∈ l) then None else Some (NULL, l ++ [e])
  | OpPrepend e => if decide (e ∈ l) then None else Some (NULL, e :: l)
  | OpPop => match last l with Some e => Some (e, removelast l) | None => Some (NULL, l) end
  | OpFetch => match l with e :: l' => Some (e, l') | [] => Some (NULL, l) end
  | OpDelete e => if decide (e ∈ l) then Some (NULL, filter (λ x, x ≠ e) l) else None
  end.

Definition exec_op (h : Z) (op : list_op) : M lstore Z :=
  match op with
  | OpAppend e => list_append h e ;; mret NULL
  | OpPrepend e => list_prepend h e ;; mret NULL
  | OpPop => list_pop h
  | OpFetch => list_fetch h
  | OpDelete e => list_delete h e ;; mret NULL
  end.

Fixpoint spec_ops (ops : list list_op) (l : list Z) : option (list Z * list Z) :=
  match ops with
  | [] => Some ([], l)
  | op :: ops => '(r, l') ← spec_op op l; '(rs, l'') ← spec_ops ops l'; Some (r :: rs, l'')
  end.

Fixpoint exec_ops (h : Z) (ops : list list_op) : M lstore (list Z) :=
  match ops with
  | [] => mret []
  | op :: ops => r ← exec_op h op; rs ← exec_ops h ops; mret (r :: rs)
  end.

Definition op_elem (op : list_op) : list Z :=
  match op with OpAppend e | OpPrepend e | OpDelete e => [e] | _ => [] end.

(** A pool [P] of objects of which those in [l] are linked and the others are
    detached ([prev] and [next] NULL). *)
Record pool (σ : lstore) (h : Z) (P l : list Z) : Prop := {
  pool_list : dlist σ h l;
  pool_sub : l ⊆ P;
  pool_head : h ∉ P;
  pool_nonnull : NULL ∉ P;
  pool_detached : ∀ e, e ∈ P → e ∉ l → σ !! e = Some (mk_elem NULL NULL) }.
Lemma filter_ne_id (l : list Z) e : e ∉ l → filter (λ x, x ≠ e) l = l.
Proof.
  induction l as [|x l IH]; [done|]. intros H. mem_norm.
  rewrite filter_cons_True by congruence. f_equal. auto.
Qed.

Lemma filter_ne_middle (l1 l2 : list Z) e :
  e ∉ l1 → e ∉ l2 → filter (λ x, x ≠ e) (l1 ++ e :: l2) = l1 ++ l2.
Proof.
  intros H1 H2. rewrite filter_app, filter_cons_False by tauto.
  by rewrite !filter_ne_id.
Qed.

Lemma pool_step σ σ' h P l l' A :
  pool σ h P l → dlist σ' h l' → l' ⊆ P → same_outside A σ σ' →
  (∀ e, e ∈ P → e ∉ l' → e ∈ A → σ' !! e = Some (mk_elem NULL NULL)) →
  (∀ e, e ∈ P → e ∉ l' → e ∉ A → e ∉ l) →
  pool σ' h P l'.
Proof.
  intros [Hd Hs Hh Hn Hdet] Hd' Hs' Hout HA HnA. split; try done.
  intros e HP Hl. destruct (decide (e ∈ A)) as [He|He]; [by apply HA|].
  rewrite Hout by done. apply Hdet; [done|]. by apply HnA.
Qed.

Lemma exec_op_refines σ h P l op r l' :
  pool σ h P l → op_elem op ⊆ P → spec_op op l = Some (r, l') →
  ∃ σ', exec_op h op σ = Ok (r, σ') ∧ pool σ' h P l'.
Proof.
  intros Hp Hop Hspec. pose proof Hp as [Hd Hs Hh Hn Hdet].
  destruct op as [e|e| | |e]; simpl in *.
  - case_decide as Hel; simplify_eq. assert (e ∈ P) by set_solver.
    destruct (list_append_ok σ h l e) as (σ' & Hrun & Hd' & Hout); [done|by apply Hdet|set_solver..|].
    exists σ'. rewrite (bind_ok _ _ _ _ _ Hrun). split; [done|].
    eapply pool_step; [done..|set_solver|done|set_solver|set_solver].
  - case_decide as Hel; simplify_eq. assert (e ∈ P) by set_solver.
    destruct (list_prepend_ok σ h l e) as (σ' & Hrun & Hd' & Hout); [done|by apply Hdet|set_solver..|].
    exists σ'. rewrite (bind_ok _ _ _ _ _ Hrun). split; [done|].
    eapply pool_step; [done..|set_solver|done|set_solver|set_solver].
  - destruct l as [|e l _] using rev_ind; simpl in Hspec; simplify_eq.
    { eexists. split; [by apply list_pop_nil|done]. }
    rewrite last_snoc, removelast_last in Hspec. simplify_eq.
    destruct (list_pop_ok σ h l' r Hd) as (σ' & Hrun & Hd' & Hout & He).
    exists σ'. split; [done|]. eapply pool_step; [done..|set_solver|done| |set_solver].
    intros e HeP Hel HeA. by assert (e = r) as -> by set_solver.
  - destruct l as [|e l]; simplify_eq.
    { eexists. split; [by apply list_fetch_nil|done]. }
    destruct (list_fetch_ok σ h l' r Hd) as (σ' & Hrun & Hd' & Hout & He).
    exists σ'. split; [done|]. eapply pool_step; [done..|set_solver|done| |set_solver].
    intros e HeP Hel HeA. by assert (e = r) as -> by set_solver.
  - case_decide as Hel; simplify_eq.
    apply list_elem_of_split in Hel as (l1 & l2 & ->).
    destruct (list_delete_ok σ h l1 l2 e Hd) as (σ' & Hrun & Hd' & Hout & He).
    exists σ'. rewrite (bind_ok _ _ _ _ _ Hrun). split; [done|].
    destruct Hd as [_ _ Hnd _]. mem_norm. rewrite filter_ne_middle by done.
    eapply pool_step; [done..|set_solver|done| |set_solver].
    intros e' HeP Hel HeA. by assert (e' = e) as -> by set_solver.
Qed.

(** C31. Linked lists implement double-ended queues.  Starting from a head that
    anchors [l] and a pool of otherwise detached elements, any sequence of
    [list_append], [list_prepend], [list_pop], [list_fetch] and [list_delete]
    calls that stays inside the contract runs to completion without a failed
    assertion or a bad access, hands back the elements the abstract queue hands
    back, and leaves a well-formed list of the abstract queue's contents with
    every other pool element detached. *)
Theorem list_ops_refine_deque σ h P l ops rs l' :
  pool σ h P l → Forall (λ op, op_elem op ⊆ P) ops → spec_ops ops l = Some (rs, l') →
  ∃ σ', exec_ops h ops σ = Ok (rs, σ') ∧ pool σ' h P l'.
Proof.
  revert σ l rs. induction ops as [|op ops IH]; intros σ l rs Hp Hops Hspec; simpl in *.
  { simplify_eq. by exists σ. }
  apply Forall_cons in Hops as [Hop Hops].
  apply bind_Some in Hspec as ([r l1] & Hr & Hspec).
  apply bind_Some in Hspec as ([rs' l2] & Hrs & Hspec). simplify_eq.
  destruct (exec_op_refines _ _ _ _ _ _ _ Hp Hop Hr) as (σ1 & H1 & Hp1).
  destruct (IH _ _ _ Hp1 Hops Hrs) as (σ2 & H2 & Hp2).
  exists σ2. by rewrite (bind_ok _ _ _ _ _ H1), (bind_ok _ _ _ _ _ H2).
Qed.

(** A head at 100 and three detached objects. *)
Definition demo_store : lstore :=
  list_to_map (map (λ a, (a, mk_elem NULL NULL)) [100; 8; 16; 24]).
Definition demo_ops : list list_op :=
  [OpAppend 8; OpPrepend 16; OpAppend 24; OpDelete 8; OpPop; OpFetch; OpFetch].

Lemma list_ops_refine_deque_witness :
  ∃ σ', exec_ops 100 demo_ops demo_store = Ok ([0; 0; 0; 0; 24; 16; 0], σ') ∧
        pool σ' 100 [8; 16; 24] [].
Proof.
  apply (list_ops_refine_deque demo_store 100 [8; 16; 24] [] demo_ops).
  - split; [split; try done; mem|set_solver..|].
    intros e He _. set_unfold in He. destruct He as [->|[->|[->|[]]]]; reflexivity.
  - repeat (apply Forall_cons; split; [set_solver|]); apply Forall_nil_2.
  - reflexivity.
Defined.
