(* ===== verification/Ring.v ===== *)
(** * Byte rings: lib/include/ring.h

    [struct ring] is a circular byte queue in a fixed array, one slot of which
    stays unused to tell the full ring from the empty one.  The terminals and
    the serial line queue their input in such rings. *)

From stdpp Require Import gmap list.
From S2P Require Import Prelude.
Open Scope Z_scope.
Open Scope zelda_scope.

Record ring := mk_ring {
  ring_size : Z;
  front : Z;
  rear : Z;
  buffer : list Z }.

Definition set_front (f : Z) (r : ring) : ring :=
  mk_ring (ring_size r) f (rear r) (buffer r).
Definition set_rear (x : Z) (r : ring) : ring :=
  mk_ring (ring_size r) (front r) x (buffer r).
Definition set_buffer (b : list Z) (r : ring) : ring :=
  mk_ring (ring_size r) (front r) (rear r) b.

(** ** Operations *)

Definition ring_reset : M ring () :=
  modify (set_front 0) ;;
  modify (set_rear 0).

Definition ring_empty : M ring bool :=
  gets (λ r, front r =? rear r).

Definition ring_full : M ring bool :=
  r ← gets id;
  x ← crem (rear r + 1) (ring_size r);
  mret (x =? front r).

Definition ring_length : M ring Z :=
  r ← gets id;
  crem (i32 (i32 (rear r + ring_size r) - front r)) (ring_size r).

(** The loop of [write_ring]; [n] is the local [left], which counts down to 0, [result] up. *)
Fixpoint write_loop (ptr : list Z) (n : nat) (result : Z) : M ring Z :=
  match n with
  | O => mret result
  | S n =>
      full ← ring_full;
      if full : bool then mret result else
      v ← deref (array_get ptr result);
      r ← gets id;
      b ← deref (array_set (buffer r) (rear r) v);
      modify (set_buffer b) ;;
      x ← crem (rear r + 1) (ring_size r);
      modify (set_rear x) ;;
      write_loop ptr n (result + 1)
  end.

Definition write_ring (ptr : list Z) (size : Z) : M ring Z :=
  write_loop ptr (Z.to_nat size) 0.

(** [read_ring] fills the caller's buffer [ptr] from index 0. *)
Fixpoint read_loop (ptr : list Z) (n : nat) (result : Z) : M ring (Z * list Z) :=
  match n with
  | O => mret (result, ptr)
  | S n =>
      empty ← ring_empty;
      if empty : bool then mret (result, ptr) else
      r ← gets id;
      v ← deref (array_get (buffer r) (front r));
      ptr ← deref (array_set ptr result v);
      x ← crem (front r + 1) (ring_size r);
      modify (set_front x) ;;
      read_loop ptr n (result + 1)
  end.

Definition read_ring (ptr : list Z) (size : Z) : M ring (Z * list Z) :=
  read_loop ptr (Z.to_nat size) 0.

Definition ring_enqueue (value : Z) : M ring Z := write_ring [value] 1.

(** returns the result code and the byte stored through [value] *)
Definition ring_dequeue (value : Z) : M ring (Z * list Z) := read_ring [value] 1.

(** ** Contents *)

Record ring_wf (r : ring) : Prop := {
  wf_size : 0 < ring_size r < 1073741824;
  wf_front : 0 ≤ front r < ring_size r;
  wf_rear : 0 ≤ rear r < ring_size r;
  wf_buffer : Z.of_nat (length (buffer r)) = ring_size r }.

Definition ring_len (r : ring) : Z := (rear r - front r) `mod` ring_size r.

(** the bytes of the ring, oldest first *)
Definition contents (r : ring) : list Z :=
  (λ k, buffer r !!! Z.to_nat ((front r + k) `mod` ring_size r)) <$> seqZ 0 (ring_len r).

(** free slots *)
Definition ring_room (r : ring) : Z := ring_size r - 1 - ring_len r.

(** ** Loop lemmas *)

Lemma contents_length r : ring_wf r → Z.of_nat (length (contents r)) = ring_len r.
Proof.
  intros [Hs _ _ _]. unfold contents. rewrite length_fmap, length_seqZ.
  pose proof (Z.mod_pos_bound (rear r - front r) (ring_size r)). unfold ring_len. lia.
Qed.

Lemma ring_len_bound r : ring_wf r → 0 ≤ ring_len r < ring_size r.
Proof. intros [Hs _ _ _]. apply Z.mod_pos_bound. lia. Qed.

Lemma ring_full_ok r :
  ring_wf r → ring_full r = Ok (bool_decide (ring_room r = 0), r).
Proof.
  intros [Hs Hf Hr _]. unfold ring_full. mstep.
  erewrite bind_ok by (apply crem_ok; unfold id; lia). cbn beta.
  rewrite ret_run. do 2 f_equal. unfold id, ring_room, ring_len.
  rewrite mod_cases, mod_cases_neg by lia.
  apply eq_true_iff_eq. rewrite bool_decide_eq_true, Z.eqb_eq.
  destruct (Z.ltb_spec (rear r + 1) (ring_size r)), (Z.ltb_spec (rear r - front r) 0); lia.
Qed.

Lemma ring_length_ok r : ring_wf r → ring_length r = Ok (ring_len r, r).
Proof.
  intros [Hs Hf Hr _]. unfold ring_length. mstep. unfold id.
  rewrite (i32_small (rear r + ring_size r)), i32_small by lia. rewrite crem_ok by lia. do 2 f_equal. unfold ring_len.
  replace (rear r + ring_size r - front r) with (rear r - front r + 1 * ring_size r) by lia. apply Z.mod_add. lia.
Qed.

(** one byte in *)
Definition push (v : Z) (r : ring) : ring :=
  set_rear ((rear r + 1) `mod` ring_size r) (set_buffer (<[Z.to_nat (rear r) := v]> (buffer r)) r).

(** one byte out *)
Definition pull (r : ring) : ring := set_front ((front r + 1) `mod` ring_size r) r.

Lemma push_wf v r : ring_wf r → ring_wf (push v r).
Proof.
  intros [Hs Hf Hr Hb]. split; simpl; try done.
  - apply Z.mod_pos_bound; lia.
  - by rewrite length_insert.
Qed.

Lemma pull_wf r : ring_wf r → ring_wf (pull r).
Proof. intros [Hs Hf Hr Hb]. split; simpl; try done. apply Z.mod_pos_bound; lia. Qed.

Lemma push_len v r : ring_wf r → ring_room r ≠ 0 → ring_len (push v r) = ring_len r + 1.
Proof.
  intros [Hs Hf Hr Hb]. unfold ring_room, ring_len; simpl. rewrite Zminus_mod_idemp_l.
  rewrite (mod_cases_neg (rear r - front r)) by lia. intros Hroom.
  rewrite mod_cases_neg by (destruct (Z.ltb_spec (rear r - front r) 0); lia).
  destruct (Z.ltb_spec (rear r - front r) 0), (Z.ltb_spec (rear r + 1 - front r) 0); lia.
Qed.
Lemma pull_len r : ring_wf r → ring_len r ≠ 0 → ring_len (pull r) = ring_len r - 1.
Proof.
  intros [Hs Hf Hr Hb]. unfold ring_len; simpl. rewrite Zminus_mod_idemp_r.
  rewrite (mod_cases_neg (rear r - front r)) by lia. intros Hl.
  rewrite mod_cases_neg by (destruct (Z.ltb_spec (rear r - front r) 0); lia).
  destruct (Z.ltb_spec (rear r - front r) 0), (Z.ltb_spec (rear r - (front r + 1)) 0); lia.
Qed.

Lemma push_contents v r :
  ring_wf r → ring_room r ≠ 0 → contents (push v r) = contents r ++ [v].
Proof.
  intros Hwf Hroom. pose proof (ring_len_bound r Hwf) as Hb.
  unfold contents. rewrite (push_len v r) by done.
  rewrite seqZ_app, fmap_app by lia. pose proof Hwf as [Hs Hf Hr Hbuf]. f_equal.
  - apply list_fmap_ext. intros i x Hx. apply lookup_seqZ in Hx as [-> Hi]. simpl.
    rewrite list_lookup_total_insert_ne; [done|].
    unfold ring_room, ring_len in *. rewrite mod_cases_neg in * by lia.
    rewrite mod_cases by (destruct (Z.ltb_spec (rear r - front r) 0); lia).
    destruct (Z.ltb_spec (rear r - front r) 0), (Z.ltb_spec (front r + (0 + Z.of_nat i)) (ring_size r)); lia.
  - rewrite Z.add_0_l. change (seqZ (ring_len r) 1) with [0 + ring_len r].
    rewrite Z.add_0_l. simpl. f_equal.
    assert ((front r + ring_len r) `mod` ring_size r = rear r) as ->.
    { unfold ring_len. rewrite Zplus_mod_idemp_r. rewrite Z.mod_small; lia. }
    rewrite list_lookup_total_insert_eq; [done|lia].
Qed.

Lemma pull_contents r :
  ring_wf r → ring_len r ≠ 0 →
  contents r = (buffer r !!! Z.to_nat (front r)) :: contents (pull r).
Proof.
  intros Hwf Hlen. pose proof (ring_len_bound r Hwf) as Hb. pose proof Hwf as [Hs Hf Hr Hbuf].
  unfold contents. rewrite pull_len by done.
  rewrite seqZ_cons by lia. simpl. f_equal.
  - do 2 f_equal. rewrite Z.mod_small; lia.
  - replace (Z.succ 0) with (1 + 0) by lia.
    rewrite <-fmap_add_seqZ, <-list_fmap_compose.
    replace (Z.pred (ring_len r)) with (ring_len r - 1) by lia.
    apply list_fmap_ext. intros i x Hx. simpl. do 2 f_equal.
    rewrite Zplus_mod_idemp_l. f_equal. lia.
Qed.

Lemma write_step ptr n result v r :
  ring_wf r → ring_room r ≠ 0 → ptr !! Z.to_nat result = Some v → 0 ≤ result →
  write_loop ptr (S n) result r = write_loop ptr n (result + 1) (push v r).
Proof.
  intros Hwf Hroom Hv Hres. pose proof Hwf as [Hs Hf Hr Hb]. simpl.
  rewrite (bind_ok _ _ _ _ _ (ring_full_ok r Hwf)), bool_decide_eq_false_2 by done.
  cbn beta iota. erewrite bind_ok by (apply deref_ok, array_get_ok; eassumption). cbn beta.
  mstep. unfold id. erewrite bind_ok by (apply deref_ok, array_set_ok; lia). cbn beta.
  mstep. erewrite bind_ok by (apply crem_ok; lia). cbn beta. by mstep.
Qed.

Lemma read_step ptr n result r :
  ring_wf r → ring_len r ≠ 0 → 0 ≤ result < Z.of_nat (length ptr) →
  read_loop ptr (S n) result r =
  read_loop (<[Z.to_nat result := buffer r !!! Z.to_nat (front r)]> ptr) n (result + 1) (pull r).
Proof.
  intros Hwf Hlen Hres. pose proof Hwf as [Hs Hf Hr Hb]. simpl.
  unfold ring_empty. mstep.
  rewrite (proj2 (Z.eqb_neq (front r) (rear r))).
  2: { intros He. apply Hlen. unfold ring_len. rewrite He, Z.sub_diag. apply Z.mod_0_l; lia. }
  mstep. unfold id.
  erewrite bind_ok.
  2: { apply deref_ok, array_get_ok; [|lia].
       apply list_lookup_lookup_total_lt. lia. }
  cbn beta. erewrite bind_ok by (apply deref_ok, array_set_ok; lia). cbn beta.
  erewrite bind_ok by (apply crem_ok; lia). cbn beta. by mstep.
Qed.

Lemma write_loop_ok ptr n result r :
  ring_wf r → 0 ≤ result → result + Z.of_nat n ≤ Z.of_nat (length ptr) →
  let k := Z.min (Z.of_nat n) (ring_room r) in
  ∃ r', write_loop ptr n result r = Ok (result + k, r') ∧ ring_wf r' ∧
        ring_size r' = ring_size r ∧
        contents r' = contents r ++ take (Z.to_nat k) (drop (Z.to_nat result) ptr).
Proof.
  revert result r. induction n as [|n IH]; intros result r Hwf Hres Hlen k.
  - pose proof (ring_len_bound r Hwf). exists r. subst k. unfold ring_room. simpl.
    rewrite Z.min_l, ret_run, Z.add_0_r, app_nil_r by lia. done.
  - pose proof (ring_len_bound r Hwf) as Hb.
    destruct (decide (ring_room r = 0)) as [H0|H0].
    + exists r. subst k. simpl. rewrite (bind_ok _ _ _ _ _ (ring_full_ok r Hwf)), bool_decide_eq_true_2 by done.
      rewrite ret_run, H0, Z.min_r, Z.add_0_r, app_nil_r by lia. done.
    + assert (is_Some (ptr !! Z.to_nat result)) as [v Hv] by (apply lookup_lt_is_Some; lia).
      rewrite (write_step _ _ _ v) by done.
      destruct (IH (result + 1) (push v r)) as (r' & Hrun & Hwf' & Hsz & Hc);
        [by apply push_wf|lia..|].
      exists r'. rewrite Hrun, Hc, push_contents by done.
      assert (ring_room (push v r) = ring_room r - 1) as Hroom.
      { unfold ring_room. rewrite push_len by done. simpl. lia. }
      rewrite Hroom in *. unfold ring_room in *. split_and!; [do 2 f_equal; lia|done|done|].
      rewrite <-app_assoc. f_equal.
      rewrite (drop_S _ _ _ Hv). subst k.
      replace (Z.to_nat (Z.min (Z.of_nat (S n)) (ring_size r - 1 - ring_len r)))
        with (S (Z.to_nat (Z.min (Z.of_nat n) (ring_size r - 1 - ring_len r - 1)))) by lia.
      simpl. do 3 f_equal. lia.
Qed.

Lemma read_loop_ok ptr n result r :
  ring_wf r → 0 ≤ result → result + Z.of_nat n ≤ Z.of_nat (length ptr) →
  let k := Z.min (Z.of_nat n) (ring_len r) in
  ∃ ptr' r', read_loop ptr n result r = Ok ((result + k, ptr'), r') ∧ ring_wf r' ∧
        ring_size r' = ring_size r ∧
        contents r' = drop (Z.to_nat k) (contents r) ∧
        ptr' = take (Z.to_nat result) ptr ++ take (Z.to_nat k) (contents r)
               ++ drop (Z.to_nat (result + k)) ptr.
Proof.
  revert ptr result r. induction n as [|n IH]; intros ptr result r Hwf Hres Hlen k.
  - pose proof (ring_len_bound r Hwf). exists ptr, r. subst k. simpl.
    rewrite Z.min_l, ret_run, Z.add_0_r by lia. split_and!; try done. simpl. by rewrite take_drop.
  - pose proof (ring_len_bound r Hwf) as Hb.
    destruct (decide (ring_len r = 0)) as [H0|H0].
    + exists ptr, r. subst k. simpl. unfold ring_empty. mstep.
      assert (front r = rear r) as Hfr.
      { destruct Hwf as [Hs Hf Hr _]. unfold ring_len in H0. rewrite mod_cases_neg in H0 by lia.
        destruct (Z.ltb_spec (rear r - front r) 0); lia. }
      rewrite (proj2 (Z.eqb_eq (front r) (rear r))) by done.
      rewrite ret_run, H0, Z.min_r, Z.add_0_r by lia. split_and!; try done. simpl. by rewrite take_drop.
    + rewrite read_step by (done || lia).
      destruct (IH (<[Z.to_nat result := buffer r !!! Z.to_nat (front r)]> ptr) (result + 1) (pull r))
        as (ptr' & r' & Hrun & Hwf' & Hsz & Hc & Hp); [by apply pull_wf|lia|rewrite length_insert; lia|].
      exists ptr', r'. rewrite Hrun, Hc. rewrite (pull_contents r) at 1 2 by done. subst ptr'.
      rewrite pull_len in * by done. subst k. split_and!; [do 3 f_equal; lia|done|done|..].
      * replace (Z.to_nat (Z.min (Z.of_nat (S n)) (ring_len r)))
          with (S (Z.to_nat (Z.min (Z.of_nat n) (ring_len r - 1)))) by lia. done.
      * replace (Z.to_nat (Z.min (Z.of_nat (S n)) (ring_len r)))
          with (S (Z.to_nat (Z.min (Z.of_nat n) (ring_len r - 1)))) by lia.
        simpl. rewrite drop_insert_lt by lia.
        replace (Z.to_nat (result + 1)) with (S (Z.to_nat result)) by lia.
        rewrite (take_S_r _ _ (buffer r !!! Z.to_nat (front r))).
        2: { apply list_lookup_insert_eq. lia. }
        rewrite take_insert_ge by lia. rewrite <-app_assoc. simpl.
        replace (result + 1 + Z.min (Z.of_nat n) (ring_len r - 1))
          with (result + Z.min (Z.of_nat (S n)) (ring_len r)) by lia. done.
Qed.

(** ** The ring as a bounded first-in first-out queue *)

(** [write_ring] and [read_ring] implement a bounded byte FIFO: writing
    [size] bytes appends exactly the first [min size room] of them and reports
    that count; reading [size] bytes removes exactly the [min size length]
    oldest bytes, reports that count, stores them in order at the start of the
    caller's buffer and leaves the rest of that buffer alone.  Both keep the
    ring well formed and neither faults. *)
Theorem ring_fifo r ptr size :
  ring_wf r → 0 ≤ size ≤ Z.of_nat (length ptr) →
  (let k := Z.min size (ring_room r) in
   ∃ r', write_ring ptr size r = Ok (k, r') ∧ ring_wf r' ∧
         contents r' = contents r ++ take (Z.to_nat k) ptr) ∧
  (let k := Z.min size (ring_len r) in
   ∃ r', read_ring ptr size r =
           Ok ((k, take (Z.to_nat k) (contents r) ++ drop (Z.to_nat k) ptr), r') ∧
         ring_wf r' ∧ contents r' = drop (Z.to_nat k) (contents r)).
Proof.
  intros Hwf Hsz. unfold write_ring, read_ring. split.
  - destruct (write_loop_ok ptr (Z.to_nat size) 0 r) as (r' & Hrun & Hwf' & _ & Hc); [done|lia..|].
    rewrite Z2Nat.id in * by lia. exists r'. by rewrite Hrun, Hc.
  - destruct (read_loop_ok ptr (Z.to_nat size) 0 r) as (p' & r' & Hrun & Hwf' & _ & Hc & Hp); [done|lia..|].
    rewrite Z2Nat.id in * by lia. exists r'. by rewrite Hrun, Hc, Hp.
Qed.

Definition demo_ring : ring := mk_ring 4 2 3 [9; 9; 7; 9].

Lemma ring_fifo_witness :
  (∃ r', write_ring [1; 2; 3] 3 demo_ring = Ok (2, r') ∧ ring_wf r' ∧ contents r' = [7; 1; 2]) ∧
  (∃ r', read_ring [0; 0; 0] 3 demo_ring = Ok ((1, [7; 0; 0]), r') ∧ ring_wf r' ∧ contents r' = []).
Proof.
  assert (ring_wf demo_ring) as Hwf by (split; simpl; lia).
  split.
  - exact (proj1 (ring_fifo demo_ring [1; 2; 3] 3 Hwf ltac:(simpl; lia))).
  - exact (proj2 (ring_fifo demo_ring [0; 0; 0] 3 Hwf ltac:(simpl; lia))).
Defined.

(** Whatever is queued byte by byte into a ring with room for it comes
    back unchanged and in order, and the ring is empty again: the terminals'
    input path loses, reorders and invents nothing. *)
Theorem ring_roundtrip r bytes :
  ring_wf r → contents r = [] → Z.of_nat (length bytes) < ring_size r →
  ∃ r1 r2, write_ring bytes (Z.of_nat (length bytes)) r = Ok (Z.of_nat (length bytes), r1) ∧
    read_ring (replicate (length bytes) 0) (Z.of_nat (length bytes)) r1 =
      Ok ((Z.of_nat (length bytes), bytes), r2) ∧
    contents r2 = [].
Proof.
  intros Hwf Hemp Hlen. unfold write_ring, read_ring.
  pose proof (contents_length r Hwf) as Hl. rewrite Hemp in Hl. simpl in Hl.
  destruct (write_loop_ok bytes (length bytes) 0 r) as (r1 & H1 & Hwf1 & Hs & Hc1); [done|lia..|].
  rewrite Hemp in Hc1. unfold ring_room in *. rewrite Z.min_l in * by lia.
  rewrite Nat2Z.id in *. simpl in Hc1. rewrite drop_0, firstn_all in Hc1.
  pose proof (contents_length r1 Hwf1) as Hl1. rewrite Hc1 in Hl1.
  destruct (read_loop_ok (replicate (length bytes) 0) (length bytes) 0 r1)
    as (p' & r2 & H2 & _ & _ & Hc2 & Hp); [done|lia|rewrite length_replicate; lia|].
  rewrite Z.min_l in * by lia. rewrite Hc1, Nat2Z.id in *.
  exists r1, r2. rewrite H1, H2. split_and!; [done| |].
  - subst p'. simpl. rewrite firstn_all, drop_ge, app_nil_r; [done|].
    rewrite length_replicate. lia.
  - by rewrite Hc2, drop_all.
Qed.

Lemma ring_roundtrip_witness :
  ∃ r1 r2, write_ring [3; 1; 2] 3 (mk_ring 4 3 3 [0; 0; 0; 0]) = Ok (3, r1) ∧
    read_ring [0; 0; 0] 3 r1 = Ok ((3, [3; 1; 2]), r2) ∧ contents r2 = [].
Proof.
  apply (ring_roundtrip (mk_ring 4 3 3 [0; 0; 0; 0]) [3; 1; 2]).
  - split; simpl; lia.
  - reflexivity.
  - simpl. lia.
Defined.
