(* ===== verification/HashTable.v ===== *)
(** * Chained hash tables: lib/hash_table.c, lib/include/hash_table.h

    A table is an array of list heads ([struct hash_node] is [list_elem], eight
    bytes each) indexed by the masked hash value.  [hash] and [identity] are
    the caller's function pointers: they are section variables, as is the key
    [key n] stored in the object around node [n], of which [identity] is the
    comparison. *)

From stdpp Require Import gmap list.
From S2P Require Import Prelude DList.
Open Scope Z_scope.
Open Scope zelda_scope.

Record hash_stub := mk_stub { stub_mask : Z; heads : Z }.

Section hash_table.
Context `{Countable Blob}.
Variable hash : Blob → Z.
Variable identity : Z → Blob → bool.
Variable stub : hash_stub.

Definition hash_index (blob : Blob) : Z := Z.land (hash blob) (u32 (stub_mask stub)).
(** [&stub->heads[i]] *)
Definition head_addr (i : Z) : Z := heads stub + 8 * i.

Definition search_hash_node (blob : Blob) : M lstore Z :=
  let hash_value := hash_index blob in
  let head := head_addr hash_value in
  list_search head (λ _node, identity _node blob).

Definition add_hash_node (blob : Blob) (node : Z) : M lstore Z :=
  ASSERT (identity node blob) ;;
  target_node ← search_hash_node blob;
  if ctrue target_node then mret (- ERR_EXIST) else
  let hash_value := hash_index blob in
  let head := head_addr hash_value in
  list_append head node ;;
  target_node ← search_hash_node blob;
  ASSERT (ctrue target_node) ;;
  mret OK.

Definition delete_hash_node (blob : Blob) : M lstore Z :=
  target_node ← search_hash_node blob;
  if ! target_node then mret (- ERR_NOT_PRESENT) else
  let hash_value := hash_index blob in
  let head := head_addr hash_value in
  list_delete head target_node ;;
  detached ← list_node_detached head target_node;
  ASSERT detached ;;
  target_node ← search_hash_node blob;
  ASSERT (! target_node) ;;
  mret OK.

(** ** The table as a finite map *)

Variable key : Z → Blob.
Hypothesis identity_key : ∀ n b, identity n b = bool_decide (key n = b).
Hypothesis hash_nonneg : ∀ b, 0 ≤ hash b.

Definition in_range (i : Z) : Prop := 0 ≤ i ≤ u32 (stub_mask stub).

(** [B i] is the chain of bucket [i]. *)
Record buckets (σ : lstore) (B : Z → list Z) : Prop := {
  bk_list : ∀ i, in_range i → dlist σ (head_addr i) (B i);
  bk_disj : ∀ i j, in_range i → in_range j → i ≠ j → B i ## B j;
  bk_heads : ∀ i j, in_range i → in_range j → head_addr i ∉ B j;
  bk_hash : ∀ i n, in_range i → n ∈ B i → hash_index (key n) = i;
  bk_inj : ∀ i n n', in_range i → n ∈ B i → n' ∈ B i → key n = key n' → n = n' }.

(** the map from keys to nodes that the buckets hold *)
Definition represents (σ : lstore) (m : gmap Blob Z) : Prop :=
  ∃ B, buckets σ B ∧ ∀ b n, m !! b = Some n ↔ n ∈ B (hash_index b) ∧ key n = b.

Lemma hash_index_range b : in_range (hash_index b).
Proof.
  unfold in_range, hash_index. pose proof (u32_range (stub_mask stub)). split.
  - apply Z.land_nonneg. auto with lia.
  - apply Z_land_le_r; [auto|lia].
Qed.

Lemma head_addr_inj i j : i ≠ j → head_addr i ≠ head_addr j.
Proof. unfold head_addr. lia. Qed.

Lemma filter_identity (l : list Z) b :
  filter (λ x, identity x b = true) l = filter (λ x, key x = b) l.
Proof.
  induction l as [|x l IH]; [done|]. rewrite !filter_cons.
  pose proof (identity_key x b) as Hi.
  destruct (decide (key x = b)) as [E|E].
  - rewrite bool_decide_eq_true_2 in Hi by done. rewrite decide_True by done. by f_equal.
  - rewrite bool_decide_eq_false_2 in Hi by done. rewrite decide_False by congruence. done.
Qed.

Lemma head_filter_key (l : list Z) b n :
  (∀ x y, x ∈ l → y ∈ l → key x = key y → x = y) → n ∈ l → key n = b →
  head (filter (λ x, key x = b) l) = Some n.
Proof.
  induction l as [|x l IH]; intros Hinj Hn Hk; [mem|]. rewrite filter_cons.
  case_decide as Hx.
  - simpl. f_equal. apply Hinj; [mem|done|congruence].
  - apply IH; [|apply elem_of_cons in Hn as [->|]; done|done].
    intros y z Hy Hz. apply Hinj; mem.
Qed.

Lemma head_filter_key_none (l : list Z) b :
  (∀ x, x ∈ l → key x ≠ b) → filter (λ x, key x = b) l = [].
Proof.
  induction l as [|x l IH]; intros Hno; [done|].
  rewrite filter_cons_False by (apply Hno; mem). apply IH. intros y Hy. apply Hno. mem.
Qed.

Lemma search_represents σ m b :
  represents σ m → search_hash_node b σ = Ok (default NULL (m !! b), σ).
Proof.
  intros (B & HB & Hm). pose proof (hash_index_range b) as Hr. unfold search_hash_node.
  rewrite (list_search_ok _ _ _ _ (bk_list _ _ HB _ Hr)), filter_identity. do 2 f_equal.
  destruct (m !! b) as [n|] eqn:Hb; simpl.
  - apply Hm in Hb as [Hn Hk].
    rewrite (head_filter_key _ _ n); [done| |done|done].
    intros x y Hx Hy. eapply bk_inj; eauto.
  - rewrite head_filter_key_none; [done|]. intros x Hx Hk.
    assert (m !! b = Some x) by (by apply Hm). congruence.
Qed.

Lemma represents_nonnull σ m b n : represents σ m → m !! b = Some n → n ≠ NULL.
Proof.
  intros (B & HB & Hm) Hb. apply Hm in Hb as [Hn _].
  destruct (bk_list _ _ HB _ (hash_index_range b)) as [_ _ _ Hnn]. by intros ->.
Qed.

(** changing one bucket *)
Lemma buckets_update σ σ' B i l' A :
  buckets σ B → in_range i → dlist σ' (head_addr i) l' → same_outside A σ σ' →
  A ⊆ head_addr i :: l' ++ B i →
  (∀ j, in_range j → j ≠ i → l' ## B j) →
  (∀ j, in_range j → head_addr j ∉ l') →
  (∀ n, n ∈ l' → hash_index (key n) = i) →
  (∀ n n', n ∈ l' → n' ∈ l' → key n = key n' → n = n') →
  buckets σ' (λ j, if decide (j = i) then l' else B j).
Proof.
  intros HB Hi Hd Hout HA Hdj Hh Hha Hinj. split.
  - intros j Hj. case_decide as Hji; [by subst|].
    eapply dlist_frame; [exact Hout|..|by apply (bk_list _ _ HB)].
    + intros HjA%HA. apply elem_of_cons in HjA as [E|HjA].
      * by apply (head_addr_inj j i).
      * apply elem_of_app in HjA as [?|?]; [by eapply Hh|by eapply (bk_heads _ _ HB j i)].
    + intros x Hx HxA%HA. apply elem_of_cons in HxA as [->|HxA].
      * by eapply (bk_heads _ _ HB i j).
      * apply elem_of_app in HxA as [HxA|HxA].
        -- by eapply (Hdj j); [..|exact HxA|exact Hx].
        -- by eapply (bk_disj _ _ HB j i); [..|exact Hx|exact HxA].
  - intros j k Hj Hk Hjk. repeat case_decide; subst; try done.
    + by apply Hdj.
    + intros x Hx Hx'. by eapply (Hdj j); [..|exact Hx'|exact Hx].
    + by apply (bk_disj _ _ HB).
  - intros j k Hj Hk. case_decide; [by apply Hh|by apply (bk_heads _ _ HB)].
  - intros j n Hj. case_decide; [subst; apply Hha|by apply (bk_hash _ _ HB)].
  - intros j n n' Hj. case_decide; [apply Hinj|by apply (bk_inj _ _ HB)].
Qed.

(** a detached node that is no bucket head and in no chain *)
Definition fresh_node (σ : lstore) (m : gmap Blob Z) (node : Z) : Prop :=
  σ !! node = Some (mk_elem NULL NULL) ∧ node ≠ NULL ∧
  (∀ i, in_range i → node ≠ head_addr i) ∧ (∀ b, m !! b ≠ Some node).

Lemma add_represents σ m b node :
  represents σ m → m !! b = None → key node = b → fresh_node σ m node →
  ∃ σ', list_append (head_addr (hash_index b)) node σ = Ok ((), σ') ∧
        represents σ' (<[b := node]> m).
Proof.
  intros (B & HB & Hm) Hb Hk (Hσ & Hnn & Hnh & Hnm).
  pose proof (hash_index_range b) as Hr. set (i := hash_index b) in *.
  assert (∀ j, in_range j → node ∉ B j) as Hfresh.
  { intros j Hj Hin. apply (Hnm b). apply Hm. split; [|done].
    pose proof (bk_hash _ _ HB _ _ Hj Hin) as Hh. rewrite Hk in Hh. fold i in Hh. by subst j. }
  destruct (list_append_ok σ (head_addr i) (B i) node) as (σ' & Hrun & Hd & Hout);
    [by apply (bk_list _ _ HB)|done|done| |].
  { apply not_elem_of_cons. auto. }
  exists σ'. split; [done|]. exists (λ j, if decide (j = i) then B i ++ [node] else B j). split.
  - eapply (buckets_update σ); [done..| | | | |].
    + intros x. rewrite !elem_of_cons, !elem_of_app, list_elem_of_singleton. tauto.
    + intros j Hj Hji x. rewrite elem_of_app, list_elem_of_singleton. intros [Hx| ->] Hx'.
      * by eapply (bk_disj _ _ HB i j); [..|exact Hx|exact Hx'].
      * by eapply Hfresh.
    + intros j Hj. apply not_elem_of_app. split; [by apply (bk_heads _ _ HB)|].
      rewrite list_elem_of_singleton. intros E. by eapply Hnh.
    + intros n. rewrite elem_of_app, list_elem_of_singleton. intros [Hn| ->].
      * by apply (bk_hash _ _ HB).
      * by rewrite Hk.
    + assert (∀ n, n ∈ B i → key n = b → False) as Hno.
      { intros n Hn E. assert (m !! b = Some n) by by apply Hm. congruence. }
      intros n n'. rewrite !elem_of_app, !list_elem_of_singleton.
      intros [Hn| ->] [Hn'| ->] E; [by eapply (bk_inj _ _ HB i)|..|done];
        exfalso; eapply Hno; [exact Hn|congruence|exact Hn'|congruence].
  - intros b' n. destruct (decide (b' = b)) as [->|Hne].
    + rewrite lookup_insert_eq. fold i. rewrite decide_True by done.
      rewrite elem_of_app, list_elem_of_singleton. split.
      * intros [= <-]. auto.
      * intros [[Hn| ->] E]; [|done]. assert (m !! b = Some n) by by apply Hm. congruence.
    + rewrite lookup_insert_ne by done. rewrite Hm.
      case_decide as E; [|done]. rewrite elem_of_app, list_elem_of_singleton, E.
      split; [naive_solver|]. intros [[?| ->] ?]; [done|congruence].
Qed.

Lemma delete_represents σ m b n :
  represents σ m → m !! b = Some n →
  ∃ σ', list_delete (head_addr (hash_index b)) n σ = Ok ((), σ') ∧
        list_node_detached (head_addr (hash_index b)) n σ' = Ok (true, σ') ∧
        represents σ' (delete b m) ∧ σ' !! n = Some (mk_elem NULL NULL).
Proof.
  intros (B & HB & Hm) Hb. pose proof (hash_index_range b) as Hr. set (i := hash_index b) in *.
  pose proof (proj1 (Hm _ _) Hb) as [Hn Hk].
  pose proof (bk_list _ _ HB i Hr) as Hd.
  fold i in Hn. apply list_elem_of_split in Hn as (l1 & l2 & HBi). rewrite HBi in Hd.
  destruct (list_delete_ok _ _ _ _ _ Hd) as (σ' & Hrun & Hd' & Hout & Hσn).
  assert (n ∉ l1 ++ l2) as Hnl by (destruct Hd as [_ _ Hnd _]; mem).
  exists σ'. split_and!; [done| | |done].
  - destruct Hd' as [Hh _ Hnd' _]. unfold list_node_detached. mrun. do 2 f_equal.
    rewrite negb_true_iff. apply Z.eqb_neq.
    rewrite head_app_default. destruct Hd as [_ _ Hnd Hnn]. destruct l1; simpl in *.
    + destruct l2; simpl in *; mem.
    + mem.
  - exists (λ j, if decide (j = i) then l1 ++ l2 else B j).
    assert (∀ x, x ∈ l1 ++ l2 → x ∈ B i) as Hsub by (intros x; rewrite HBi; set_solver).
    split.
    + eapply (buckets_update σ); [done..| | | | |].
      * rewrite HBi. set_solver.
      * intros j Hj Hji x Hx%Hsub Hx'.
        by eapply (bk_disj _ _ HB i j); [..|exact Hx|exact Hx'].
      * intros j Hj Hx%Hsub. by eapply (bk_heads _ _ HB j i).
      * intros x Hx%Hsub. by apply (bk_hash _ _ HB).
      * intros x y Hx%Hsub Hy%Hsub. by apply (bk_inj _ _ HB i).
    + intros b' x. destruct (decide (b' = b)) as [->|Hne].
      * rewrite lookup_delete_eq. fold i. rewrite decide_True by done. split; [done|].
        intros [Hx E]. assert (x = n) as ->; [|done].
        apply (bk_inj _ _ HB i); [done|auto| |congruence]. rewrite HBi. mem.
      * rewrite lookup_delete_ne by done. rewrite Hm. case_decide as E; [|done].
        rewrite E, HBi. split; intros [Hx Hk']; (split; [|done]).
        -- assert (x ≠ n) by congruence. set_solver.
        -- set_solver.
Qed.

(** C32. A hash table implements a finite map from keys to nodes.  On a table
    that represents [m]: [search_hash_node] returns the node stored under the
    key or NULL and changes nothing; [add_hash_node] of a detached node refuses
    a key that is present with [-ERR_EXIST] and no change, and otherwise makes
    the table represent [<[b:=node]> m]; [delete_hash_node] refuses an absent
    key with [-ERR_NOT_PRESENT] and no change, and otherwise makes the table
    represent [delete b m] with the removed node detached.  None of the
    post-condition assertions in the code can fail. *)
Theorem hash_table_refines_map σ m b node :
  represents σ m → key node = b → fresh_node σ m node →
  search_hash_node b σ = Ok (default NULL (m !! b), σ) ∧
  match m !! b with
  | Some n =>
      add_hash_node b node σ = Ok (- ERR_EXIST, σ) ∧
      ∃ σ', delete_hash_node b σ = Ok (OK, σ') ∧ represents σ' (delete b m) ∧
            σ' !! n = Some (mk_elem NULL NULL)
  | None =>
      delete_hash_node b σ = Ok (- ERR_NOT_PRESENT, σ) ∧
      ∃ σ', add_hash_node b node σ = Ok (OK, σ') ∧ represents σ' (<[b := node]> m)
  end.
Proof.
  intros Hrep Hk Hfresh. pose proof (search_represents _ _ b Hrep) as Hs.
  split; [done|]. unfold add_hash_node, delete_hash_node.
  rewrite identity_key, bool_decide_eq_true_2 by done.
  destruct (m !! b) as [n|] eqn:Hb; simpl in Hs.
  - pose proof (represents_nonnull _ _ _ _ Hrep Hb) as Hn. split.
    + mstep. rewrite (bind_ok _ _ _ _ _ Hs). by mrun.
    + destruct (delete_represents _ _ _ _ Hrep Hb) as (σ' & H1 & H2 & Hrep' & Hdet).
      pose proof (search_represents _ _ b Hrep') as Hs'. rewrite lookup_delete_eq in Hs'.
      exists σ'. rewrite (bind_ok _ _ _ _ _ Hs). cbn beta. mstep.
      rewrite (bind_ok _ _ _ _ _ H1), (bind_ok _ _ _ _ _ H2). cbn beta. mstep.
      rewrite (bind_ok _ _ _ _ _ Hs'). by mrun.
  - split.
    + rewrite (bind_ok _ _ _ _ _ Hs). by mrun.
    + destruct (add_represents _ _ _ node Hrep Hb Hk Hfresh) as (σ' & H1 & Hrep').
      pose proof (search_represents _ _ b Hrep') as Hs'. rewrite lookup_insert_eq in Hs'. simpl in Hs'.
      destruct Hfresh as (_ & Hnn & _).
      exists σ'. mstep. rewrite (bind_ok _ _ _ _ _ Hs). cbn beta. mstep.
      rewrite (bind_ok _ _ _ _ _ H1). cbn beta.
      rewrite (bind_ok _ _ _ _ _ Hs'). by mrun.
Qed.

End hash_table.

(** Two buckets at 100 and 108, a node at 8 whose object has key 1. *)
Definition demo_stub : hash_stub := mk_stub 1 100.
Definition demo_key (n : Z) : N := if n =? 8 then 1%N else 0%N.
Definition demo_table : lstore :=
  list_to_map (map (λ a, (a, mk_elem NULL NULL)) [100; 108; 8]).

Lemma hash_table_refines_map_witness :
  search_hash_node Z.of_N (λ n b, bool_decide (demo_key n = b)) demo_stub 1%N demo_table
    = Ok (NULL, demo_table) ∧
  delete_hash_node Z.of_N (λ n b, bool_decide (demo_key n = b)) demo_stub 1%N demo_table
    = Ok (- ERR_NOT_PRESENT, demo_table) ∧
  ∃ σ', add_hash_node Z.of_N (λ n b, bool_decide (demo_key n = b)) demo_stub 1%N 8 demo_table
    = Ok (OK, σ') ∧ represents Z.of_N demo_stub demo_key σ' {[1%N := 8]}.
Proof.
  assert (represents Z.of_N demo_stub demo_key demo_table ∅) as Hrep.
  { assert (u32 (stub_mask demo_stub) = 1) as Hm by reflexivity.
    exists (λ _, []). split; [split|]; try set_solver.
    intros i Hi. unfold in_range in Hi. rewrite Hm in Hi.
    assert (i = 0 ∨ i = 1) as [->| ->] by lia; split; try done; mem. }
  assert (fresh_node demo_stub demo_table (∅ : gmap N Z) 8) as Hfresh.
  { split_and!; [done|done| |set_solver].
    intros i Hi. unfold head_addr, in_range in *. simpl in *. lia. }
  pose proof (hash_table_refines_map Z.of_N (λ n b, bool_decide (demo_key n = b)) demo_stub
    demo_key (λ _ _, eq_refl) N2Z.is_nonneg demo_table ∅ 1%N 8 Hrep eq_refl Hfresh) as W.
  rewrite !lookup_empty in W. exact W.
Defined.
