(* ===== verification/HeapSort.v ===== *)
(** * Pointer-based binary min-heap: lib/heap_sort.c, lib/include/heap_sort.h

    Nodes ([struct binary_tree_node]) carry [parent]/[left]/[right] pointers and
    an embedded list element (offset 12) that the breadth-first searches use as
    queue link.  The state is the heap stub, the store of nodes and the store of
    list elements.  Address 0 may hold an object too: the kernel maps the low
    1 MB read-write, so a store through NULL hits memory instead of faulting. *)

From Stdlib Require Import ZifyNat Sorted.
From stdpp Require Import gmap list.
From S2P Require Import Prelude DList.
Open Scope Z_scope.
Open Scope zelda_scope.

(** lib/include/generic_tree.h *)
Record bt_node := mk_bt { parent : Z; left : Z; right : Z }.

Definition set_parent (v : Z) (n : bt_node) : bt_node := mk_bt v (left n) (right n).
Definition set_left (v : Z) (n : bt_node) : bt_node := mk_bt (parent n) v (right n).
Definition set_right (v : Z) (n : bt_node) : bt_node := mk_bt (parent n) (left n) v.

(** lib/include/heap_sort.h; [last_parent] and [last_node] are never used *)
Record heap_stub := mk_heap { root : Z; last_parent : Z; last_node : Z }.

Record hstate := mk_hstate {
  heap : heap_stub;
  nodes : gmap Z bt_node;
  lists : lstore }.

Definition nodes_l : lens hstate (gmap Z bt_node) :=
  Lens nodes (λ n s, mk_hstate (heap s) n (lists s)).
Definition lists_l : lens hstate lstore :=
  Lens lists (λ l s, mk_hstate (heap s) (nodes s) l).

Definition get_node (a : Z) : M hstate bt_node := zoom nodes_l (load a).
Definition upd_node (a : Z) (f : bt_node → bt_node) : M hstate () := zoom nodes_l (update a f).
Definition get_root : M hstate Z := gets (λ s, root (heap s)).
Definition set_root (v : Z) : M hstate () :=
  modify (λ s, mk_hstate (mk_heap v (last_parent (heap s)) (last_node (heap s))) (nodes s) (lists s)).

(** [&node->list] and [CONTAINER_OF(list, struct binary_tree_node, list)] *)
Definition list_of (node : Z) : Z := node + 12.
Definition node_of (list : Z) : Z := list - 12.

Section heap.
(** the address of the local [struct list_elem queue] *)
Variable queue : Z.
(** the caller's comparison callback *)
Variable compare : Z → Z → Z.

(** [if (child) { list_init(&child->list); list_append(&queue, &child->list); }] *)
Definition enqueue_child (child : Z) : M hstate () :=
  when (ctrue child) (
    zoom lists_l (list_init (list_of child)) ;;
    zoom lists_l (list_append queue (list_of child))).

Fixpoint last_node_loop (fuel : nat) (target_node : Z) : M hstate Z :=
  match fuel with
  | O => fail Diverge
  | S fuel =>
      _list ← zoom lists_l (list_fetch queue);
      if ctrue _list then
        let _node := node_of _list in
        n ← get_node _node;
        enqueue_child (left n) ;;
        enqueue_child (right n) ;;
        last_node_loop fuel _node
      else mret target_node
  end.

Definition search_last_node (root : Z) : M hstate Z :=
  zoom lists_l (list_init queue) ;;
  if ! root then mret NULL else
  zoom lists_l (list_init (list_of root)) ;;
  zoom lists_l (list_append queue (list_of root)) ;;
  fuel ← gets (λ s, S (size (nodes s)));
  target_node ← last_node_loop fuel NULL;
  ASSERT (ctrue target_node) ;;
  n ← get_node target_node;
  ASSERT (! left n) ;;
  ASSERT (! right n) ;;
  mret target_node.

Fixpoint last_parent_loop (fuel : nat) : M hstate Z :=
  match fuel with
  | O => fail Diverge
  | S fuel =>
      _list ← zoom lists_l (list_fetch queue);
      if ctrue _list then
        let _node := node_of _list in
        n ← get_node _node;
        if (! left n) || (! right n) then
          ASSERT (negb ((! left n) && ctrue (right n))) ;;   (* __not_reach() *)
          mret _node
        else
          enqueue_child (left n) ;;
          enqueue_child (right n) ;;
          last_parent_loop fuel
      else mret NULL
  end.

Definition search_last_parent (root : Z) : M hstate Z :=
  zoom lists_l (list_init queue) ;;
  if ! root then mret NULL else
  zoom lists_l (list_init (list_of root)) ;;
  zoom lists_l (list_append queue (list_of root)) ;;
  fuel ← gets (λ s, S (size (nodes s)));
  target_node ← last_parent_loop fuel;
  when (ctrue target_node) (
    n ← get_node target_node;
    ASSERT (! right n)) ;;
  mret target_node.

(** The third assertion of [swap_nodes] is the assignment
    [child->parent = parent], as in the source; [p] and [c] are the parameters
    [parent] and [child]. *)
Definition swap_nodes (p c : Z) : M hstate () :=
  rt ← get_root;
  ASSERT (ctrue rt) ;;
  ASSERT (ctrue c && ctrue p) ;;
  upd_node c (set_parent p) ;;
  ASSERT (ctrue p) ;;
  cn ← get_node c;
  let left_of_child := left cn in
  let right_of_child := right cn in
  pn ← get_node p;
  let is_left_child := c =? left pn in
  upd_node c (set_parent (parent pn)) ;;
  when (ctrue (parent pn)) (
    gp ← get_node (parent pn);
    if left gp =? p then upd_node (parent pn) (set_left c)
    else
      ASSERT (right gp =? p) ;;
      upd_node (parent pn) (set_right c)) ;;
  (if is_left_child then
     upd_node c (set_left p) ;;
     pn ← get_node p;
     upd_node c (set_right (right pn)) ;;
     cn ← get_node c;
     upd_node (right cn) (set_parent c)
   else
     upd_node c (set_right p) ;;
     pn ← get_node p;
     upd_node c (set_left (left pn)) ;;
     cn ← get_node c;
     upd_node (left cn) (set_parent c)) ;;
  upd_node p (set_parent c) ;;
  upd_node p (set_left left_of_child) ;;
  upd_node p (set_right right_of_child) ;;
  pn ← get_node p;
  when (ctrue (left pn)) (upd_node (left pn) (set_parent p)) ;;
  pn ← get_node p;
  when (ctrue (right pn)) (upd_node (right pn) (set_parent p)) ;;
  rt ← get_root;
  when (rt =? p) (set_root c).

(** the common test of both adjust loops: (left_is_smaller, right_is_smaller) *)
Definition compare_children (cur : Z) : M hstate (bool * bool) :=
  n ← get_node cur;
  let left_is_smaller := ctrue (left n) && (compare (left n) cur <? 0) in
  if ctrue (right n) then
    ASSERT (ctrue (left n)) ;;
    mret (left_is_smaller,
          if left_is_smaller then compare (right n) (left n) <? 0
          else compare (right n) cur <? 0)
  else mret (left_is_smaller, false).

(** The loop of [attach_heap_node]: up towards the root. *)
Fixpoint attach_loop (fuel : nat) (current_node : Z) : M hstate () :=
  match fuel with
  | O => fail Diverge
  | S fuel =>
      if ctrue current_node then
        smaller ← compare_children current_node;
        n ← get_node current_node;
        let '(left_is_smaller, right_is_smaller) := smaller in
        if right_is_smaller : bool then
          swap_nodes current_node (right n) ;;
          n ← get_node current_node;
          ASSERT (ctrue (parent n)) ;;
          up ← get_node (parent n);
          attach_loop fuel (parent up)
        else if left_is_smaller : bool then
          swap_nodes current_node (left n) ;;
          n ← get_node current_node;
          ASSERT (ctrue (parent n)) ;;
          up ← get_node (parent n);
          attach_loop fuel (parent up)
        else mret ()
      else mret ()
  end.

Definition attach_heap_node (node : Z) : M hstate () :=
  n ← get_node node;
  ASSERT (! parent n) ;;
  ASSERT (! left n) ;;
  ASSERT (! right n) ;;
  rt ← get_root;
  last_parent ← search_last_parent rt;
  if ! last_parent then
    rt ← get_root;
    ASSERT (! rt) ;;
    set_root node
  else
    lp ← get_node last_parent;
    ASSERT (! right lp) ;;
    (if ! left lp then upd_node last_parent (set_left node)
     else upd_node last_parent (set_right node)) ;;
    upd_node node (set_parent last_parent) ;;
    fuel ← gets (λ s, S (size (nodes s)));
    attach_loop fuel last_parent.

(** The loop of [adjust_heap_node]: down towards the leaves. *)
Fixpoint adjust_loop (fuel : nat) (current_node : Z) : M hstate () :=
  match fuel with
  | O => fail Diverge
  | S fuel =>
      if ctrue current_node then
        smaller ← compare_children current_node;
        n ← get_node current_node;
        let '(left_is_smaller, right_is_smaller) := smaller in
        if right_is_smaller : bool then
          swap_nodes current_node (right n) ;;
          n ← get_node current_node;
          ASSERT (ctrue (parent n)) ;;
          adjust_loop fuel current_node
        else if left_is_smaller : bool then
          swap_nodes current_node (left n) ;;
          n ← get_node current_node;
          ASSERT (ctrue (parent n)) ;;
          adjust_loop fuel current_node
        else mret ()
      else mret ()
  end.

Definition adjust_heap_node (node : Z) : M hstate () :=
  fuel ← gets (λ s, S (size (nodes s)));
  adjust_loop fuel node.

(** "Detach the last node" of [detach_heap_node] and "Remove the last node" of
    [delete_heap_node] *)
Definition unlink_last (last_node : Z) : M hstate () :=
  ln ← get_node last_node;
  if ! parent ln then
    rt ← get_root;
    ASSERT (rt =? last_node) ;;
    set_root NULL
  else
    lp ← get_node (parent ln);
    if left lp =? last_node then
      ASSERT (! right lp) ;;
      upd_node (parent ln) (set_left NULL) ;;
      upd_node last_node (set_parent NULL)
    else
      ASSERT (right lp =? last_node) ;;
      upd_node (parent ln) (set_right NULL) ;;
      upd_node last_node (set_parent NULL).

Definition detach_heap_node : M hstate Z :=
  rt ← get_root;
  if ! rt then mret NULL else
  last_node ← search_last_node rt;
  ASSERT (ctrue last_node) ;;
  ln ← get_node last_node;
  ASSERT ((! left ln) && (! right ln)) ;;
  unlink_last last_node ;;
  rt ← get_root;
  detached_node ←
    (if ! rt then mret last_node
     else
       let detached_node := rt in
       d ← get_node detached_node;
       when (ctrue (left d)) (upd_node (left d) (set_parent last_node)) ;;
       when (ctrue (right d)) (upd_node (right d) (set_parent last_node)) ;;
       d ← get_node detached_node;
       upd_node last_node (set_left (left d)) ;;
       upd_node last_node (set_right (right d)) ;;
       set_root last_node ;;
       upd_node detached_node (set_left NULL) ;;
       upd_node detached_node (set_right NULL) ;;
       d ← get_node detached_node;
       ASSERT (! parent d) ;;
       mret detached_node);
  rt ← get_root;
  adjust_heap_node rt ;;
  mret detached_node.

(** [for (; n && n->parent; n = n->parent);] *)
Fixpoint climb (fuel : nat) (current_node : Z) : M hstate Z :=
  match fuel with
  | O => fail Diverge
  | S fuel =>
      if ctrue current_node then
        n ← get_node current_node;
        if ctrue (parent n) then climb fuel (parent n) else mret current_node
      else mret current_node
  end.

Definition delete_heap_node (node : Z) : M hstate () :=
  fuel ← gets (λ s, S (size (nodes s)));
  current_node ← climb fuel node;
  rt ← get_root;
  if (! rt) || negb (rt =? current_node) then mret () else
  last_node ← search_last_node rt;
  ASSERT (ctrue last_node) ;;
  ln ← get_node last_node;
  ASSERT ((! left ln) && (! right ln)) ;;
  unlink_last last_node ;;
  rt ← get_root;
  (if ctrue rt && negb (node =? last_node) then
     nn ← get_node node;
     upd_node last_node (set_left (left nn)) ;;
     upd_node last_node (set_right (right nn)) ;;
     when (ctrue (left nn)) (upd_node (left nn) (set_parent last_node)) ;;
     nn ← get_node node;
     when (ctrue (right nn)) (
       ASSERT (ctrue (left nn)) ;;
       upd_node (right nn) (set_parent last_node)) ;;
     nn ← get_node node;
     (if ! parent nn then
        rt ← get_root;
        ASSERT (rt =? node) ;;
        upd_node last_node (set_parent NULL) ;;
        set_root last_node
      else
        upd_node last_node (set_parent (parent nn)) ;;
        pp ← get_node (parent nn);
        if left pp =? node then upd_node (parent nn) (set_left last_node)
        else
          ASSERT (right pp =? node) ;;
          upd_node (parent nn) (set_right last_node)) ;;
     adjust_heap_node last_node
   else ASSERT (node =? last_node)) ;;
  upd_node node (set_parent NULL) ;;
  upd_node node (set_left NULL) ;;
  upd_node node (set_right NULL).

(** [heap_node_detached(stub, node)] *)
Definition heap_node_detached (node : Z) : M hstate bool :=
  n ← get_node node;
  rt ← get_root;
  mret ((! left n) && (! right n) && (! parent n) && negb (rt =? node)).

End heap.

(** ** The heap as an array

    A complete binary tree is the array [xs] of its nodes in level order: the
    children of index [i] are [2i+1] and [2i+2], its parent is [(i-1)/2]. *)
Open Scope nat_scope.
#[local] Arguments Nat.div : simpl never.
#[local] Arguments Nat.mul : simpl never.
#[local] Arguments Nat.add : simpl never.
#[local] Ltac Zify.zify_post_hook ::= Z.to_euclidean_division_equations.

Definition at0 (xs : list Z) (i : nat) : Z := default 0%Z (xs !! i).
Definition par0 (xs : list Z) (i : nat) : Z :=
  match i with 0 => 0%Z | S _ => at0 xs ((i - 1) / 2) end.
Definition node_at (xs : list Z) (i : nat) : bt_node :=
  mk_bt (par0 xs i) (at0 xs (2 * i + 1)) (at0 xs (2 * i + 2)).

Record harr (s : hstate) (xs : list Z) : Prop := {
  ha_root : root (heap s) = at0 xs 0;
  ha_node : ∀ i a, xs !! i = Some a → nodes s !! a = Some (node_at xs i);
  ha_nodup : NoDup xs;
  ha_nonnull : 0%Z ∉ xs;
  ha_null : is_Some (nodes s !! 0%Z) }.

(** every node's embedded list element and the search queue are list objects *)
Record hlinks (queue : Z) (s : hstate) (xs : list Z) : Prop := {
  hl_list : ∀ a, a ∈ xs → is_Some (lists s !! list_of a);
  hl_queue : is_Some (lists s !! queue);
  hl_fresh : ∀ a, a ∈ xs → queue ≠ list_of a;
  hl_nonnull : ∀ a, a ∈ xs → list_of a ≠ 0%Z }.

Lemma at0_lookup xs i a : xs !! i = Some a → at0 xs i = a.
Proof. unfold at0. by intros ->. Qed.

Lemma at0_lt xs i : i < length xs → xs !! i = Some (at0 xs i).
Proof. intros Hi. destruct (lookup_lt_is_Some_2 xs i Hi) as [a Ha]. by rewrite (at0_lookup _ _ _ Ha). Qed.

Lemma at0_ge xs i : length xs ≤ i → at0 xs i = 0%Z.
Proof. intros Hi. unfold at0. by rewrite lookup_ge_None_2. Qed.

Lemma at0_elem xs i : i < length xs → at0 xs i ∈ xs.
Proof. intros Hi. eapply list_elem_of_lookup_2, at0_lt, Hi. Qed.

Lemma at0_nonzero xs i : 0%Z ∉ xs → i < length xs → at0 xs i ≠ 0%Z.
Proof. intros Hn Hi E. apply Hn. rewrite <-E. by apply at0_elem. Qed.

Lemma at0_ctrue xs i : 0%Z ∉ xs → ctrue (at0 xs i) = bool_decide (i < length xs).
Proof.
  intros Hn. case_bool_decide as Hi.
  - apply ctrue_true. by apply at0_nonzero.
  - rewrite at0_ge by lia. done.
Qed.

(** the nodes determine the array *)
Lemma harr_unique s xs ys : harr s xs → harr s ys → xs = ys.
Proof.
  intros [Rx Nx _ Zx _] [Ry Ny _ Zy _].
  assert (∀ i, at0 xs i = at0 ys i) as E.
  { intros i. induction (lt_wf i) as [i _ IH]. destruct (decide (i = 0)) as [->|Hi]; [congruence|].
    specialize (IH ((i - 1) / 2) ltac:(lia)). set (p := (i - 1) / 2) in *.
    destruct (decide (p < length xs)) as [Hx|Hx].
    - assert (p < length ys) as Hy.
      { destruct (decide (p < length ys)); [done|]. rewrite (at0_ge ys) in IH by lia. by apply at0_nonzero in IH. }
      pose proof (Nx _ _ (at0_lt _ _ Hx)) as E1. rewrite IH, (Ny _ _ (at0_lt _ _ Hy)) in E1. injection E1 as _ El Er.
      assert (i = 2 * p + 1 ∨ i = 2 * p + 2) as [E2|E2] by (unfold p; lia); rewrite E2; congruence.
    - assert (length ys ≤ p) by (destruct (decide (p < length ys)) as [Hy|]; [|lia]; rewrite (at0_ge xs) in IH by lia; by apply (at0_nonzero ys p) in Hy).
      rewrite !at0_ge; [done|unfold p in *; lia..]. }
  apply list_eq. intros i. specialize (E i). unfold at0 in E.
  destruct (xs !! i) as [a|] eqn:Ea, (ys !! i) as [b|] eqn:Eb; cbn in E; subst; try done.
  - destruct Zx. by eapply list_elem_of_lookup_2.
  - destruct Zy. by eapply list_elem_of_lookup_2.
Qed.

Lemma at0_inj xs i j :
  NoDup xs → i < length xs → j < length xs → at0 xs i = at0 xs j → i = j.
Proof.
  intros Hnd Hi Hj E. eapply NoDup_lookup; [done|by apply at0_lt|].
  rewrite E. by apply at0_lt.
Qed.

Lemma harr_node s xs i : harr s xs → i < length xs → nodes s !! at0 xs i = Some (node_at xs i).
Proof. intros H Hi. eapply ha_node; [done|by apply at0_lt]. Qed.

Lemma harr_size s xs : harr s xs → length xs < size (nodes s).
Proof.
  intros H.
  assert (list_to_set (0%Z :: xs) ⊆@{gset Z} dom (nodes s)) as Hsub.
  { intros a Ha. apply elem_of_list_to_set, elem_of_cons in Ha as [->|Ha].
    - apply elem_of_dom, H.
    - apply elem_of_dom. apply list_elem_of_lookup in Ha as [i Hi].
      eexists. by eapply ha_node. }
  apply subseteq_size in Hsub.
  rewrite size_list_to_set, size_dom in Hsub by (apply NoDup_cons; split; apply H).
  simpl in Hsub. lia.
Qed.

(** ** Breadth-first searches *)

(** [s'] differs from [s] in list links only *)
Definition only_links (s s' : hstate) : Prop := heap s' = heap s ∧ nodes s' = nodes s.

Lemma only_links_refl s : only_links s s.
Proof. done. Qed.

Lemma only_links_trans s1 s2 s3 : only_links s1 s2 → only_links s2 s3 → only_links s1 s3.
Proof. unfold only_links. intros [-> ->] [-> ->]. done. Qed.

Lemma harr_links s s' xs : only_links s s' → harr s xs → harr s' xs.
Proof. intros [Hh Hn] [??? ??]. split; rewrite ?Hh, ?Hn; done. Qed.

Lemma get_node_ok s a n : nodes s !! a = Some n → get_node a s = Ok (n, s).
Proof.
  intros Hn. unfold get_node. rewrite (zoom_ok _ _ _ n (nodes s)) by (by apply load_ok).
  by destruct s.
Qed.

Lemma upd_node_ok s a n f :
  nodes s !! a = Some n →
  upd_node a f s = Ok ((), mk_hstate (heap s) (<[a := f n]> (nodes s)) (lists s)).
Proof.
  intros Hn. unfold upd_node. erewrite zoom_ok by (by apply update_ok). done.
Qed.

Definition with_lists (s : hstate) (σ : lstore) : hstate := mk_hstate (heap s) (nodes s) σ.

Section search.
Variable queue : Z.

(** the queue holds the nodes [l] *)
Record queued (s : hstate) (xs l : list Z) : Prop := {
  qd_list : dlist (lists s) queue (list_of <$> l);
  qd_links : hlinks queue s xs }.

Lemma list_of_inj a b : list_of a = list_of b → a = b.
Proof. unfold list_of. lia. Qed.

Lemma list_of_elem a (l : list Z) : list_of a ∈ list_of <$> l → a ∈ l.
Proof.
  intros H. apply list_elem_of_fmap in H as (b & E & Hb).
  by apply list_of_inj in E as ->.
Qed.

Lemma hlinks_frame s σ xs A :
  hlinks queue s xs → same_outside A (lists s) σ → (∀ a, a ∈ A → is_Some (σ !! a)) →
  hlinks queue (with_lists s σ) xs.
Proof.
  intros [H1 H2 H3 H4] Hout HA. split; [| |done|done].
  - intros a Ha. destruct (decide (list_of a ∈ A)); [by apply HA|]. simpl. rewrite Hout; auto.
  - destruct (decide (queue ∈ A)); [by apply HA|]. simpl. by rewrite Hout.
Qed.

Lemma dlist_dom σ h l a : dlist σ h l → a ∈ h :: l → is_Some (σ !! a).
Proof.
  intros [Hh Hs _ _] Ha. apply elem_of_cons in Ha as [->|Ha]; [eauto|by eapply dseg_lookup].
Qed.

Lemma enqueue_child_ok s xs l c :
  queued s xs l → c ∈ xs → c ≠ 0%Z → c ∉ l →
  ∃ s', enqueue_child queue c s = Ok ((), s') ∧ only_links s s' ∧ queued s' xs (l ++ [c]).
Proof.
  intros [Hd Hl] Hc Hc0 Hcl. unfold enqueue_child.
  rewrite (proj2 (ctrue_true c)) by done. unfold when.
  pose proof Hl as [H1 H2 H3 H4]. destruct (H1 c Hc) as [e He].
  assert (list_init (list_of c) (lists s) = Ok ((), <[list_of c := mk_elem 0 0]> (lists s))) as Hi.
  { unfold list_init. mrun. by rewrite insert_insert_eq. }
  assert (list_of c ∉ queue :: (list_of <$> l)) as Hnin.
  { apply not_elem_of_cons. split; [by apply not_eq_sym, H3|]. intros ?%list_of_elem. done. }
  destruct (list_append_ok (<[list_of c := mk_elem 0 0]> (lists s)) queue (list_of <$> l) (list_of c))
    as (σ' & Ha & Hd' & Hout); [|by rewrite lookup_insert_eq|by apply H4|done|].
  { eapply (dlist_frame (lists s) _ _ _ [list_of c]); [|mem| |done].
    - apply same_outside_insert; [mem|apply same_outside_refl].
    - intros x Hx. rewrite list_elem_of_singleton. intros ->. mem. }
  exists (with_lists s σ').
  rewrite (bind_ok _ _ s () (with_lists s (<[list_of c := mk_elem 0 0]> (lists s)))) by (by apply (zoom_ok lists_l)).
  rewrite (zoom_ok lists_l _ _ () σ') by done. split_and!; [done..|]. split.
  - simpl. by rewrite fmap_app.
  - eapply (hlinks_frame s _ _ (queue :: list_of c :: (list_of <$> l))); [done| |].
    + eapply same_outside_trans; [|exact Hout]. apply same_outside_insert; [mem|apply same_outside_refl].
    + intros a Ha'. apply (dlist_dom _ _ _ _ Hd'). set_solver.
Qed.

Lemma fetch_node_ok s xs c l :
  queued s xs (c :: l) → c ∈ xs →
  ∃ s', zoom lists_l (list_fetch queue) s = Ok (list_of c, s') ∧ only_links s s' ∧ queued s' xs l.
Proof.
  intros [Hd Hl] Hc. destruct (list_fetch_ok _ _ _ _ Hd) as (σ' & Hf & Hd' & Hout & Hs).
  exists (with_lists s σ'). rewrite (zoom_ok lists_l _ _ _ _ Hf). split_and!; [done..|]. split; [done|].
  eapply hlinks_frame; [done|exact Hout|].
  intros a Ha. apply elem_of_cons in Ha as [->|Ha]; [by apply (dlist_dom _ _ _ _ Hd'); mem|].
  apply elem_of_cons in Ha as [->|Ha]; [eauto|]. apply (dlist_dom _ _ _ _ Hd'). mem.
Qed.

Lemma fetch_empty_ok s xs :
  queued s xs [] → zoom lists_l (list_fetch queue) s = Ok (0%Z, s).
Proof.
  intros [Hd _]. rewrite (zoom_ok lists_l _ _ _ _ (list_fetch_nil _ _ Hd)). by destruct s.
Qed.

(** the queue after [k] nodes have been taken out *)
Definition bfs_queue (xs : list Z) (k : nat) : list Z := drop k (take (2 * k + 1) xs).

Lemma bfs_queue_head xs k :
  k < length xs → bfs_queue xs k = at0 xs k :: drop (S k) (take (2 * k + 1) xs).
Proof.
  intros Hk. unfold bfs_queue. apply drop_S. rewrite lookup_take_lt by lia. by apply at0_lt.
Qed.

Lemma drop_take_snoc (xs : list Z) k m :
  k ≤ m → m < length xs → drop k (take (S m) xs) = drop k (take m xs) ++ [at0 xs m].
Proof.
  intros Hk Hm. rewrite (take_S_r _ _ (at0 xs m)) by by apply at0_lt.
  rewrite drop_app_le; [done|]. rewrite length_take. lia.
Qed.

(** enqueueing index [m] when it exists *)
Lemma enqueue_index_ok s P xs k m :
  xs ⊆ P → queued s P (drop k (take m xs)) → NoDup xs → 0%Z ∉ xs → k ≤ m →
  ∃ s', enqueue_child queue (at0 xs m) s = Ok ((), s') ∧ only_links s s' ∧
        queued s' P (drop k (take (S m) xs)).
Proof.
  intros Hsub Hq Hnd Hnn Hk. destruct (decide (m < length xs)) as [Hm|Hm].
  - rewrite drop_take_snoc by done. apply enqueue_child_ok; [done|by apply Hsub, at0_elem|by apply at0_nonzero|].
    intros Hin. apply list_elem_of_lookup in Hin as [i Hi].
    rewrite lookup_drop in Hi. apply lookup_take_Some in Hi as [Hi Hlt].
    pose proof (NoDup_lookup _ _ _ _ Hnd Hi (at0_lt _ _ Hm)). lia.
  - exists s. unfold enqueue_child. rewrite at0_ge by lia. split_and!; [done..|].
    by rewrite take_ge in * by lia.
Qed.

Lemma node_of_list_of a : node_of (list_of a) = a.
Proof. unfold node_of, list_of. lia. Qed.

(** taking node [k] out of the queue and putting its children in *)
Lemma bfs_step s P xs k :
  xs ⊆ P → harr s xs → queued s P (bfs_queue xs k) → k < length xs →
  ∃ s1, zoom lists_l (list_fetch queue) s = Ok (list_of (at0 xs k), s1) ∧ only_links s s1 ∧
    get_node (at0 xs k) s1 = Ok (node_at xs k, s1) ∧
    ∃ s2 s3, enqueue_child queue (left (node_at xs k)) s1 = Ok ((), s2) ∧
      enqueue_child queue (right (node_at xs k)) s2 = Ok ((), s3) ∧
      only_links s s3 ∧ queued s3 P (bfs_queue xs (S k)).
Proof.
  intros Hsub Hh Hq Hk. pose proof Hh as [_ _ Hnd Hnn _]. rewrite bfs_queue_head in Hq by done.
  destruct (fetch_node_ok _ _ _ _ Hq) as (s1 & H1 & Hl1 & Hq1); [by apply Hsub, at0_elem|].
  exists s1. split_and!; [done|done|apply get_node_ok, harr_node; [by eapply harr_links|done]|].
  destruct (enqueue_index_ok s1 P xs (S k) (2 * k + 1)) as (s2 & H2 & Hl2 & Hq2); [done..|lia|].
  destruct (enqueue_index_ok s2 P xs (S k) (S (2 * k + 1))) as (s3 & H3 & Hl3 & Hq3); [done..|lia|].
  exists s2, s3. simpl in *. replace (2 * k + 2) with (S (2 * k + 1)) by lia.
  split_and!; [done|done|by eauto using only_links_trans|].
  unfold bfs_queue. by replace (2 * S k + 1) with (S (S (2 * k + 1))) by lia.
Qed.

Lemma last_node_loop_ok fuel s P xs k t :
  xs ⊆ P → harr s xs → queued s P (bfs_queue xs k) → k ≤ length xs → length xs - k < fuel →
  (k = length xs → t = at0 xs (length xs - 1)) →
  ∃ s', last_node_loop queue fuel t s = Ok (at0 xs (length xs - 1), s') ∧
        only_links s s' ∧ hlinks queue s' P.
Proof.
  revert s k t. induction fuel as [|fuel IH]; intros s k t Hsub Hh Hq Hk Hf Ht; [lia|]. simpl.
  destruct (decide (k = length xs)) as [->|Hne].
  - assert (bfs_queue xs (length xs) = []) as Hnil.
    { unfold bfs_queue. rewrite take_ge, drop_ge by lia. done. }
    rewrite Hnil in Hq. rewrite (bind_ok _ _ _ _ _ (fetch_empty_ok _ _ Hq)).
    exists s. rewrite Ht by done. split_and!; [done|done|apply Hq].
  - pose proof Hh as [_ _ Hnd Hnn _].
    destruct (bfs_step s P xs k) as (s1 & H1 & Hl1 & H2 & s2 & s3 & H3 & H4 & Hl3 & Hq3); [done..|lia|].
    assert (list_of (at0 xs k) ≠ 0%Z) by (apply Hq, Hsub, at0_elem; lia).
    rewrite (bind_ok _ _ _ _ _ H1), (proj2 (ctrue_true _)), node_of_list_of by done.
    cbv zeta. rewrite (bind_ok _ _ _ _ _ H2), (bind_ok _ _ _ _ _ H3), (bind_ok _ _ _ _ _ H4).
    destruct (IH s3 (S k) (at0 xs k)) as (s' & Hr & Hl & Hli); [done|by eapply harr_links|done|lia|lia| |].
    { intros E. f_equal. lia. }
    exists s'. split_and!; [done|by eauto using only_links_trans|done].
Qed.

Lemma last_parent_loop_ok fuel s P xs k :
  xs ⊆ P → harr s xs → queued s P (bfs_queue xs k) → 0 < length xs → k ≤ (length xs - 1) / 2 →
  length xs - k < fuel →
  ∃ s', last_parent_loop queue fuel s = Ok (at0 xs ((length xs - 1) / 2), s') ∧
        only_links s s' ∧ hlinks queue s' P.
Proof.
  revert s k. induction fuel as [|fuel IH]; intros s k Hsub Hh Hq Hpos Hk Hf; [lia|]. simpl.
  pose proof Hh as [_ _ Hnd Hnn _].
  assert (k < length xs) by lia.
  destruct (bfs_step s P xs k) as (s1 & H1 & Hl1 & H2 & s2 & s3 & H3 & H4 & Hl3 & Hq3); [done..|].
  assert (list_of (at0 xs k) ≠ 0%Z) by (apply Hq, Hsub, at0_elem; lia).
  rewrite (bind_ok _ _ _ _ _ H1), (proj2 (ctrue_true _)), node_of_list_of by done.
  cbv zeta. rewrite (bind_ok _ _ _ _ _ H2). simpl. rewrite !at0_ctrue by done.
  destruct (decide (k = (length xs - 1) / 2)) as [->|Hne].
  - rewrite (bool_decide_eq_false_2 (_ + 2 < _)) by lia. simpl.
    rewrite orb_true_r, andb_false_r. mstep. exists s1. split_and!; [done|done|].
    rewrite bfs_queue_head in Hq by done.
    destruct (fetch_node_ok s P _ _ Hq) as (s1' & H1' & _ & Hq'); [by apply Hsub, at0_elem|].
    rewrite H1 in H1'. simplify_eq. apply Hq'.
  - rewrite !bool_decide_eq_true_2 by lia. simpl.
    simpl in H3, H4. rewrite (bind_ok _ _ _ _ _ H3), (bind_ok _ _ _ _ _ H4).
    destruct (IH s3 (S k)) as (s' & Hr & Hl & Hli); [done|by eapply harr_links|done|lia..|].
    exists s'. split_and!; [done|by eauto using only_links_trans|done].
Qed.

(** both searches start by queueing the root *)
Lemma search_start s P xs :
  xs ⊆ P → harr s xs → hlinks queue s P → 0 < length xs →
  ∃ s1 s2 s3, zoom lists_l (list_init queue) s = Ok ((), s1) ∧
    zoom lists_l (list_init (list_of (at0 xs 0))) s1 = Ok ((), s2) ∧
    zoom lists_l (list_append queue (list_of (at0 xs 0))) s2 = Ok ((), s3) ∧
    only_links s s3 ∧ queued s3 P (bfs_queue xs 0).
Proof.
  intros Hsub Hh [H1 [q Hq] H3 H4] Hpos. pose proof Hh as [_ _ Hnd Hnn _].
  assert (list_init queue (lists s) = Ok ((), <[queue := mk_elem 0 0]> (lists s))) as Hi.
  { unfold list_init. mrun. by rewrite insert_insert_eq. }
  set (s1 := with_lists s (<[queue := mk_elem 0 0]> (lists s))).
  assert (queued s1 P []) as Hq1.
  { split; [split; simpl; [by rewrite lookup_insert_eq|done|apply NoDup_singleton|mem]|].
    eapply (hlinks_frame s _ _ [queue]); [by split|apply same_outside_insert; [mem|apply same_outside_refl]|].
    intros a Ha. apply list_elem_of_singleton in Ha as ->. rewrite lookup_insert_eq. eauto. }
  destruct (enqueue_child_ok s1 P [] (at0 xs 0)) as (s3 & H5 & Hl3 & Hq3);
    [done|by apply Hsub, at0_elem|by apply at0_nonzero|mem|].
  unfold enqueue_child in H5. rewrite at0_ctrue, bool_decide_eq_true_2 in H5 by done.
  apply bind_Ok_inv in H5 as ([] & s2 & H5 & H6).
  exists s1, s2, s3. split_and!; [by apply (zoom_ok lists_l)|done|done|by eapply only_links_trans|].
  destruct xs; [simpl in Hpos; lia|]. exact Hq3.
Qed.

Lemma search_last_node_ok s P xs :
  xs ⊆ P → harr s xs → hlinks queue s P → 0 < length xs →
  ∃ s', search_last_node queue (at0 xs 0) s = Ok (at0 xs (length xs - 1), s') ∧
        only_links s s' ∧ hlinks queue s' P.
Proof.
  intros Hsub Hh Hl Hpos. pose proof Hh as [_ _ Hnd Hnn _].
  destruct (search_start s P xs) as (s1 & s2 & s3 & H1 & H2 & H3 & Hl3 & Hq3); [done..|].
  unfold search_last_node. rewrite (bind_ok _ _ _ _ _ H1), at0_ctrue, bool_decide_eq_true_2 by done.
  simpl. rewrite (bind_ok _ _ _ _ _ H2), (bind_ok _ _ _ _ _ H3). mstep.
  assert (harr s3 xs) as Hh3 by by eapply harr_links.
  destruct (last_node_loop_ok (S (size (nodes s3))) s3 P xs 0 0%Z) as (s' & Hr & Hl' & Hli);
    [done..|lia|pose proof (harr_size _ _ Hh3); lia|lia|].
  rewrite (bind_ok _ _ _ _ _ Hr), at0_ctrue, bool_decide_eq_true_2 by (done || lia). mstep.
  assert (harr s' xs) as Hh' by (by eapply harr_links).
  rewrite (bind_ok _ _ _ _ _ (get_node_ok _ _ _ (harr_node s' xs (length xs - 1) Hh' ltac:(lia)))).
  simpl. rewrite !at0_ctrue, !bool_decide_eq_false_2 by (done || lia). do 2 mstep.
  exists s'. split_and!; [done|by eauto using only_links_trans|done].
Qed.

Lemma search_last_parent_ok s P xs :
  xs ⊆ P → harr s xs → hlinks queue s P → 0 < length xs →
  ∃ s', search_last_parent queue (at0 xs 0) s = Ok (at0 xs ((length xs - 1) / 2), s') ∧
        only_links s s' ∧ hlinks queue s' P.
Proof.
  intros Hsub Hh Hl Hpos. pose proof Hh as [_ _ Hnd Hnn _].
  destruct (search_start s P xs) as (s1 & s2 & s3 & H1 & H2 & H3 & Hl3 & Hq3); [done..|].
  unfold search_last_parent. rewrite (bind_ok _ _ _ _ _ H1), at0_ctrue, bool_decide_eq_true_2 by done.
  simpl. rewrite (bind_ok _ _ _ _ _ H2), (bind_ok _ _ _ _ _ H3). mstep.
  assert (harr s3 xs) as Hh3 by by eapply harr_links.
  destruct (last_parent_loop_ok (S (size (nodes s3))) s3 P xs 0) as (s' & Hr & Hl' & Hli);
    [done..|lia|pose proof (harr_size _ _ Hh3); lia|].
  rewrite (bind_ok _ _ _ _ _ Hr), at0_ctrue, bool_decide_eq_true_2 by (done || lia). mstep. mstep.
  assert (harr s' xs) as Hh' by (by eapply harr_links).
  rewrite (bind_ok _ _ _ _ _ (get_node_ok _ _ _ (harr_node s' xs ((length xs - 1) / 2) Hh' ltac:(lia)))).
  simpl. rewrite !at0_ctrue, !bool_decide_eq_false_2 by (done || lia). mstep.
  exists s'. split_and!; [done|by eauto using only_links_trans|done].
Qed.

Lemma search_empty s xs :
  hlinks queue s xs →
  ∃ s', search_last_parent queue 0 s = Ok (0%Z, s') ∧ only_links s s' ∧ hlinks queue s' xs.
Proof.
  intros Hl. destruct (hl_queue _ _ _ Hl) as [q Hq].
  assert (list_init queue (lists s) = Ok ((), <[queue := mk_elem 0 0]> (lists s))) as Hi.
  { unfold list_init. mrun. by rewrite insert_insert_eq. }
  exists (with_lists s (<[queue := mk_elem 0 0]> (lists s))). unfold search_last_parent.
  rewrite (bind_ok _ _ _ _ _ (zoom_ok lists_l _ _ _ _ Hi)). split_and!; [done..|].
  eapply (hlinks_frame s _ _ [queue]); [done|apply same_outside_insert; [mem|apply same_outside_refl]|].
  intros a Ha. apply list_elem_of_singleton in Ha as ->. rewrite lookup_insert_eq. eauto.
Qed.

End search.

(** ** Exchanging a node with its child *)

Definition alter_opt (a : Z) (f : bt_node → bt_node) (ns : gmap Z bt_node) : gmap Z bt_node :=
  if ctrue a then alter f a ns else ns.

Definition relink (p c : Z) (g : bt_node) : bt_node :=
  if (left g =? p)%Z then set_left c g else set_right c g.

(** the node store after [swap_nodes p c], [pn] and [cn] being their contents *)
Definition swap_ns (p c : Z) (pn cn : bt_node) (ns : gmap Z bt_node) : gmap Z bt_node :=
  let ns := alter (set_parent (parent pn)) c (alter (set_parent p) c ns) in
  let ns := alter_opt (parent pn) (relink p c) ns in
  let ns := if (c =? left pn)%Z
            then alter (set_parent c) (right pn) (alter (set_right (right pn)) c (alter (set_left p) c ns))
            else alter (set_parent c) (left pn) (alter (set_left (left pn)) c (alter (set_right p) c ns)) in
  let ns := alter (set_right (right cn)) p (alter (set_left (left cn)) p (alter (set_parent c) p ns)) in
  alter_opt (right cn) (set_parent p) (alter_opt (left cn) (set_parent p) ns).

Definition with_nodes (s : hstate) (ns : gmap Z bt_node) : hstate := mk_hstate (heap s) ns (lists s).

Lemma alter_look_eq (ns : gmap Z bt_node) f a n :
  ns !! a = Some n → alter f a ns !! a = Some (f n).
Proof. intros Hn. by rewrite lookup_alter_eq, Hn. Qed.

Lemma alter_opt_look_eq ns f a n :
  a ≠ 0%Z → ns !! a = Some n → alter_opt a f ns !! a = Some (f n).
Proof. intros Ha Hn. unfold alter_opt. rewrite (proj2 (ctrue_true a)) by done. by apply alter_look_eq. Qed.

Lemma alter_opt_look_ne ns f a b o :
  a ≠ b → ns !! b = o → alter_opt a f ns !! b = o.
Proof. intros Ha Hn. unfold alter_opt. destruct (ctrue a); [by rewrite lookup_alter_ne|done]. Qed.

Lemma alter_look_ne (ns : gmap Z bt_node) f a b o : a ≠ b → ns !! b = o → alter f a ns !! b = o.
Proof. intros Ha Hn. by rewrite lookup_alter_ne. Qed.

Lemma alter_is_some (ns : gmap Z bt_node) f a b :
  is_Some (ns !! b) → is_Some (alter f a ns !! b).
Proof. by rewrite lookup_alter_is_Some. Qed.

Lemma alter_opt_is_some ns f a b : is_Some (ns !! b) → is_Some (alter_opt a f ns !! b).
Proof. unfold alter_opt. destruct (ctrue a); [by apply alter_is_some|done]. Qed.

Ltac neqs := first [ assumption | apply not_eq_sym; assumption | congruence ].

(** computes a lookup in a chain of node updates *)
Ltac nlook :=
  lazymatch goal with
  | |- alter _ ?a _ !! ?b = _ =>
      first [ constr_eq a b; eapply alter_look_eq; nlook
            | apply alter_look_ne; [neqs|nlook]
            | eapply alter_look_eq; nlook ]
  | |- alter_opt ?a _ _ !! ?b = _ =>
      first [ apply alter_opt_look_ne; [neqs|nlook]
            | eapply alter_opt_look_eq; [neqs|nlook] ]
  | |- _ => first [ eassumption | reflexivity ]
  end.

Lemma get_node_run {A} s a n (k : bt_node → M hstate A) :
  nodes s !! a = Some n → mbind k (get_node a) s = k n s.
Proof. intros Hn. apply bind_ok. by apply get_node_ok. Qed.

Lemma upd_node_run {A} s a f (k : () → M hstate A) :
  is_Some (nodes s !! a) →
  mbind k (upd_node a f) s = k () (with_nodes s (alter f a (nodes s))).
Proof.
  intros [n Hn]. apply bind_ok. rewrite (upd_node_ok _ _ n) by done. unfold with_nodes.
  do 3 f_equal. apply map_eq. intros b. destruct (decide (a = b)) as [->|Hne].
  - by rewrite lookup_insert_eq, lookup_alter_eq, Hn.
  - by rewrite lookup_insert_ne, lookup_alter_ne.
Qed.

Lemma upd_opt_run {A} s a f (k : () → M hstate A) :
  (a ≠ 0%Z → is_Some (nodes s !! a)) →
  mbind k (when (ctrue a) (upd_node a f)) s = k () (with_nodes s (alter_opt a f (nodes s))).
Proof.
  intros Hn. unfold alter_opt. destruct (ctrue a) eqn:Ha.
  - apply ctrue_true in Ha. unfold when. by apply upd_node_run, Hn.
  - destruct s. done.
Qed.

Lemma relink_run {A} s g p c (k : () → M hstate A) :
  (g ≠ 0%Z → ∃ gn, nodes s !! g = Some gn ∧ (left gn = p ∨ right gn = p)) →
  mbind k (when (ctrue g) (
    gp ← get_node g;
    if (left gp =? p)%Z then upd_node g (set_left c)
    else ASSERT (right gp =? p)%Z ;; upd_node g (set_right c))) s =
  k () (with_nodes s (alter_opt g (relink p c) (nodes s))).
Proof.
  intros Hg. unfold alter_opt. destruct (ctrue g) eqn:Hc; [|by destruct s].
  apply ctrue_true in Hc. destruct (Hg Hc) as (gn & Hgn & Hlr). unfold when.
  rewrite bind_assoc_run, (get_node_run _ _ gn) by done.
  assert (∀ f, f gn = relink p c gn → alter f g (nodes s) = alter (relink p c) g (nodes s)) as Halt.
  { intros f Hf. apply map_eq. intros b. destruct (decide (g = b)) as [->|Hne].
    - rewrite !lookup_alter_eq, Hgn. simpl. by rewrite Hf.
    - by rewrite !lookup_alter_ne. }
  destruct (left gn =? p)%Z eqn:El.
  - rewrite upd_node_run by eauto. do 2 f_equal. apply Halt. unfold relink. by rewrite El.
  - assert ((right gn =? p)%Z = true) as Er by lia. rewrite Er. mstep. mstep.
    rewrite upd_node_run by eauto. do 2 f_equal. apply Halt. unfold relink. by rewrite El.
Qed.

Ltac isome :=
  cbn [nodes with_nodes];
  repeat first [ apply alter_is_some | apply alter_opt_is_some ]; eauto.

Ltac hstep :=
  cbn [nodes heap lists with_nodes];
  first
  [ erewrite get_node_run by (cbn [nodes with_nodes]; nlook)
  | rewrite upd_node_run by isome
  | rewrite upd_opt_run by (let H := fresh in intros H; isome)
  | mstep ]; cbn [parent left right set_parent set_left set_right].

Lemma swap_nodes_run s p c pn cn sn :
  nodes s !! p = Some pn → nodes s !! c = Some cn →
  p ≠ 0%Z → c ≠ 0%Z → root (heap s) ≠ 0%Z → p ≠ c →
  (c = left pn ∧ nodes s !! right pn = Some sn ∧ right pn ≠ p ∧ right pn ≠ c ∨
   c ≠ left pn ∧ nodes s !! left pn = Some sn ∧ left pn ≠ p ∧ left pn ≠ c) →
  parent pn ≠ p → parent pn ≠ c →
  (parent pn ≠ 0%Z → ∃ gn, nodes s !! parent pn = Some gn ∧ (left gn = p ∨ right gn = p)) →
  left cn ≠ p → left cn ≠ c → right cn ≠ p → right cn ≠ c →
  (left cn ≠ 0%Z → is_Some (nodes s !! left cn)) →
  (right cn ≠ 0%Z → is_Some (nodes s !! right cn)) →
  swap_nodes p c s =
  Ok ((), mk_hstate (if (root (heap s) =? p)%Z then mk_heap c (last_parent (heap s)) (last_node (heap s)) else heap s)
            (swap_ns p c pn cn (nodes s)) (lists s)).
Proof.
  intros Hp Hc Hp0 Hc0 Hr Hpc Hsib Hgp Hgc Hg Hlp Hlc Hrp Hrc Hl Hr'.
  unfold swap_nodes, get_root. mstep. mstep. mstep. hstep. mstep. hstep. hstep. hstep.
  erewrite relink_run; cbn [nodes with_nodes heap lists].
  2: { intros Hg0. destruct (Hg Hg0) as (gn & Hgn & Hlr). exists gn. split; [nlook|done]. }
  unfold swap_ns.
  destruct Hsib as [(Hcl & Hsn & Hsp & Hsc)|(Hcl & Hsn & Hsp & Hsc)].
  - rewrite (proj2 (Z.eqb_eq c (left pn))) by done. cbv zeta iota.
    do 4 (rewrite bind_assoc_run; hstep). repeat hstep. cbn [heap with_nodes].
    destruct (root (heap s) =? p)%Z; reflexivity.
  - rewrite (proj2 (Z.eqb_neq c (left pn))) by done. cbv zeta iota.
    do 4 (rewrite bind_assoc_run; hstep). repeat hstep. cbn [heap with_nodes].
    destruct (root (heap s) =? p)%Z; reflexivity.
Qed.

(** ** Exchanging indices *)

Definition swap (xs : list Z) (i j : nat) : list Z := <[i := at0 xs j]> (<[j := at0 xs i]> xs).

Lemma length_swap xs i j : length (swap xs i j) = length xs.
Proof. unfold swap. by rewrite !length_insert. Qed.

Lemma at0_swap xs i j k :
  i < length xs → j < length xs →
  at0 (swap xs i j) k = if decide (k = i) then at0 xs j else if decide (k = j) then at0 xs i else at0 xs k.
Proof.
  intros Hi Hj. unfold swap, at0 at 1. repeat case_decide; subst.
  - rewrite list_lookup_insert_eq; [done|by rewrite length_insert].
  - rewrite list_lookup_insert_ne, list_lookup_insert_eq by done. done.
  - by rewrite !list_lookup_insert_ne by done.
Qed.

Lemma swap_perm xs i j : i < length xs → j < length xs → swap xs i j ≡ₚ xs.
Proof.
  intros Hi Hj. apply Permutation_insert_swap; by apply at0_lt.
Qed.

Lemma at0_ne xs k k' :
  NoDup xs → 0%Z ∉ xs → k < length xs → k ≠ k' → at0 xs k ≠ at0 xs k'.
Proof.
  intros Hnd Hnn Hk Hne E. destruct (decide (k' < length xs)) as [Hk'|Hk'].
  - by apply Hne, (at0_inj xs).
  - rewrite (at0_ge xs k') in E by lia. by eapply at0_nonzero.
Qed.

Lemma par0_ne xs k i :
  NoDup xs → 0%Z ∉ xs → k < length xs → i < length xs → k ≠ (i - 1) / 2 ∨ i = 0 → at0 xs k ≠ par0 xs i.
Proof.
  intros Hnd Hnn Hk Hi Hne. destruct i as [|i]; [by apply at0_nonzero|].
  apply at0_ne; [done|done|done|lia].
Qed.

Lemma par0_swap xs i j k :
  i < length xs → j < length xs → (k = 0 ∨ (k - 1) / 2 ≠ i ∧ (k - 1) / 2 ≠ j) →
  par0 (swap xs i j) k = par0 xs k.
Proof.
  intros Hi Hj Hk. destruct k as [|k]; [done|]. unfold par0. rewrite at0_swap by done.
  destruct Hk as [?|[??]]; [done|]. by rewrite !decide_False.
Qed.

Lemma par0_at xs k m : k ≠ 0 → m = (k - 1) / 2 → par0 xs k = at0 xs m.
Proof. intros Hk ->. by destruct k. Qed.

Lemma bt_eq a b c a' b' c' : a = a' → b = b' → c = c' → mk_bt a b c = mk_bt a' b' c'.
Proof. by intros -> -> ->. Qed.

(** the hypotheses of [swap_nodes_run] for indices [i] and a child [j] of it *)
Lemma swap_harr_run s xs i j :
  harr s xs → j < length xs → (j = 2 * i + 1 ∨ j = 2 * i + 2) →
  swap_nodes (at0 xs i) (at0 xs j) s =
  Ok ((), mk_hstate (if (root (heap s) =? at0 xs i)%Z then mk_heap (at0 xs j) (last_parent (heap s)) (last_node (heap s)) else heap s)
            (swap_ns (at0 xs i) (at0 xs j) (node_at xs i) (node_at xs j) (nodes s)) (lists s)).
Proof.
  intros Hh Hj Hij. pose proof Hh as [Hr Hn Hnd Hnn [n0 Hn0]].
  assert (i < length xs) as Hi by lia.
  assert (∀ m, ∃ n, nodes s !! at0 xs m = Some n) as Hany.
  { intros m. destruct (decide (m < length xs)); [eexists; by apply harr_node|].
    rewrite at0_ge by lia. eauto. }
  destruct (Hany (if decide (j = 2 * i + 1) then 2 * i + 2 else 2 * i + 1)) as [sn Hsn].
  apply (swap_nodes_run s _ _ _ _ sn);
    [by apply harr_node|by apply harr_node|by apply at0_nonzero|by apply at0_nonzero| | | | | | | | | | | |].
  - rewrite Hr. apply at0_nonzero; [done|lia].
  - apply at0_ne; [done..|lia].
  - simpl. destruct Hij as [->| ->].
    + left. rewrite decide_True in Hsn by done. split_and!; [done|done|..]; apply not_eq_sym, at0_ne; (done || lia).
    + right. rewrite decide_False in Hsn by lia. split_and!; [apply at0_ne; (done||lia)|done|..]; apply not_eq_sym, at0_ne; (done || lia).
  - simpl. apply not_eq_sym, par0_ne; (done || lia).
  - simpl. apply not_eq_sym, par0_ne; (done || lia).
  - simpl. destruct i as [|i]; [done|]. intros _. exists (node_at xs ((S i - 1) / 2)). split.
    + by apply harr_node; [|lia].
    + simpl. destruct (decide (S i = 2 * ((S i - 1) / 2) + 1)) as [E|E];
        [left|right]; f_equal; lia.
  - simpl. apply not_eq_sym, at0_ne; (done || lia).
  - simpl. apply not_eq_sym, at0_ne; (done || lia).
  - simpl. apply not_eq_sym, at0_ne; (done || lia).
  - simpl. apply not_eq_sym, at0_ne; (done || lia).
  - intros _. apply Hany.
  - intros _. apply Hany.
Qed.

Ltac ane := first [ apply at0_ne; [assumption|assumption|lia|lia]
                  | apply not_eq_sym, at0_ne; [assumption|assumption|lia|lia]
                  | apply par0_ne; [assumption|assumption|lia|lia|lia]
                  | apply not_eq_sym, par0_ne; [assumption|assumption|lia|lia|lia] ].

(** [a ≠ at0 xs k] for an index [k] in range *)
Ltac ane' :=
  apply not_eq_sym;
  lazymatch goal with
  | |- _ ≠ par0 _ _ => apply par0_ne; [assumption|assumption|first [assumption|lia]|assumption|lia]
  | |- _ => apply at0_ne; [assumption|assumption|first [assumption|lia]|lia]
  end.

Ltac alook :=
  lazymatch goal with
  | |- alter _ ?a _ !! ?b = _ =>
      tryif constr_eq a b then (eapply alter_look_eq; alook)
      else (apply alter_look_ne; [ane'|alook])
  | |- alter_opt ?a _ _ !! ?b = _ =>
      tryif constr_eq a b then (eapply alter_opt_look_eq; [by apply at0_nonzero; [assumption|lia]|alook])
      else (apply alter_opt_look_ne; [ane'|alook])
  | |- _ => apply harr_node; [eassumption|first [assumption|lia]]
  end.

Ltac atswap :=
  rewrite ?at0_swap by (assumption || lia);
  repeat first [ rewrite decide_True by lia | rewrite decide_False by lia ].

Lemma swap_ns_lookup s xs i j k :
  harr s xs → j < length xs → (j = 2 * i + 1 ∨ j = 2 * i + 2) → k < length xs →
  swap_ns (at0 xs i) (at0 xs j) (node_at xs i) (node_at xs j) (nodes s) !! at0 (swap xs i j) k
  = Some (node_at (swap xs i j) k).
Proof.
  intros Hh Hj Hij Hk. pose proof Hh as [Hr Hn Hnd Hnn [n0 Hn0]].
  assert (i < length xs) as Hi by lia.
  unfold swap_ns. cbn [parent left right node_at].
  assert ((at0 xs j =? at0 xs (2 * i + 1))%Z = bool_decide (j = 2 * i + 1)) as ->.
  { case_bool_decide as E; [subst; apply Z.eqb_refl|]. apply Z.eqb_neq. ane. }
  rewrite (at0_swap _ _ _ k) by lia.
  destruct (decide (k = i)) as [->|Hki]; [|destruct (decide (k = j)) as [->|Hkj]].
  - destruct Hij as [->| ->].
    + rewrite bool_decide_eq_true_2 by done. etrans; [alook|]. unfold node_at, set_parent, set_left, set_right; cbn [parent left right]; f_equal.
      apply bt_eq; [rewrite par0_swap; (done || lia)|by atswap..].
    + rewrite bool_decide_eq_false_2 by lia. etrans; [alook|]. unfold node_at, set_parent, set_left, set_right; cbn [parent left right]; f_equal.
      apply bt_eq; [rewrite par0_swap; (done || lia)|by atswap..].
  - case_bool_decide; (etrans; [alook|]); unfold node_at, set_parent, set_left, set_right; cbn [parent left right]; f_equal;
      (apply bt_eq; [rewrite (par0_at (swap xs i j) _ i) by lia; by atswap|by atswap..]).
  - destruct (decide (i ≠ 0 ∧ k = (i - 1) / 2)) as [[Hi0 Hkg]|Hkg].
    { rewrite (par0_at xs i k) by done.
      assert (relink (at0 xs i) (at0 xs j) (node_at xs k) = node_at (swap xs i j) k) as Hre.
      { unfold relink, node_at. cbn. destruct (decide (i = 2 * k + 1)) as [E|E].
        - rewrite <-E, Z.eqb_refl. unfold set_left. cbn.
          apply bt_eq; [rewrite par0_swap; (done || lia)|by atswap..].
        - rewrite (proj2 (Z.eqb_neq _ _)) by ane. unfold set_right. cbn.
          apply bt_eq; [rewrite par0_swap; (done || lia)|by atswap..]. }
      case_bool_decide; (etrans; [alook|]); by rewrite <-Hre. }
    destruct (decide (k = 2 * i + 1 ∨ k = 2 * i + 2)) as [Hks|Hks].
    { case_bool_decide.
      - assert (k = 2 * i + 2) as -> by lia. (etrans; [alook|]). unfold node_at, set_parent, set_left, set_right; cbn [parent left right]; f_equal.
        apply bt_eq; [rewrite (par0_at (swap xs i j) _ i) by lia; by atswap|by atswap..].
      - assert (k = 2 * i + 1) as -> by lia. (etrans; [alook|]). unfold node_at, set_parent, set_left, set_right; cbn [parent left right]; f_equal.
        apply bt_eq; [rewrite (par0_at (swap xs i j) _ i) by lia; by atswap|by atswap..]. }
    destruct (decide (k = 2 * j + 1)) as [->|Hk1].
    { case_bool_decide; (etrans; [alook|]); unfold node_at, set_parent, set_left, set_right; cbn [parent left right]; f_equal;
        (apply bt_eq; [rewrite (par0_at (swap xs i j) _ j) by lia; by atswap|by atswap..]). }
    destruct (decide (k = 2 * j + 2)) as [->|Hk2].
    { case_bool_decide; (etrans; [alook|]); unfold node_at, set_parent, set_left, set_right; cbn [parent left right]; f_equal;
        (apply bt_eq; [rewrite (par0_at (swap xs i j) _ j) by lia; by atswap|by atswap..]). }
    case_bool_decide; (etrans; [alook|]); unfold node_at, set_parent, set_left, set_right; cbn [parent left right]; f_equal;
      (apply bt_eq; [rewrite par0_swap; (done || lia)|by atswap..]).
Qed.

(** ** One exchange on the array *)

(** the node objects outside the heap array are untouched; NULL is scratch *)
Definition frame_nodes (xs : list Z) (s s' : hstate) : Prop :=
  ∀ a, a ∉ xs → a ≠ 0%Z → nodes s' !! a = nodes s !! a.

Lemma swap_ns_other p c pn cn ns a :
  a ≠ p → a ≠ c → a ≠ parent pn → a ≠ left pn → a ≠ right pn → a ≠ left cn → a ≠ right cn →
  swap_ns p c pn cn ns !! a = ns !! a.
Proof.
  intros. unfold swap_ns. destruct (c =? left pn)%Z.
  all: repeat first [ apply alter_opt_look_ne; [congruence|] | apply alter_look_ne; [congruence|] ]; done.
Qed.

Lemma at0_not_in xs k a : a ∉ xs → a ≠ 0%Z → a ≠ at0 xs k.
Proof.
  intros Ha H0 ->. destruct (decide (k < length xs)); [by apply Ha, at0_elem|].
  apply H0, at0_ge. lia.
Qed.

Lemma par0_not_in xs k a : a ∉ xs → a ≠ 0%Z → a ≠ par0 xs k.
Proof. intros Ha H0. destruct k; [done|]. by apply at0_not_in. Qed.

Lemma swap_ok s xs i j :
  harr s xs → j < length xs → (j = 2 * i + 1 ∨ j = 2 * i + 2) →
  ∃ s', swap_nodes (at0 xs i) (at0 xs j) s = Ok ((), s') ∧ harr s' (swap xs i j) ∧
        lists s' = lists s ∧ frame_nodes xs s s'.
Proof.
  intros Hh Hj Hij. eexists. split; [by apply swap_harr_run|].
  pose proof Hh as [Hr Hn Hnd Hnn [n0 Hn0]]. assert (i < length xs) as Hi by lia.
  split_and!; [split|done|]; simpl.
  - rewrite at0_swap by lia. rewrite Hr. destruct (decide (0 = i)) as [<-|Hi0].
    + by rewrite Z.eqb_refl.
    + rewrite (proj2 (Z.eqb_neq _ _)) by ane. rewrite decide_False by lia. done.
  - intros k a Ha. pose proof (lookup_lt_Some _ _ _ Ha) as Hk. rewrite length_swap in Hk.
    rewrite <-(at0_lookup _ _ _ Ha). by apply swap_ns_lookup.
  - by rewrite swap_perm.
  - by rewrite swap_perm.
  - unfold swap_ns. destruct (_ =? _)%Z; isome.
  - intros a Ha Ha0. apply swap_ns_other; simpl; first [by apply at0_not_in|by apply par0_not_in].
Qed.

(** ** Heap order

    [rank] abstracts what the comparison callback compares. *)
Section order.
Variable queue : Z.
Variable compare : Z → Z → Z.
Variable rank : Z → Z.
Hypothesis compare_rank : ∀ a b, (compare a b <? 0)%Z = (rank a <? rank b)%Z.

Definition rk (xs : list Z) (i : nat) : Z := rank (at0 xs i).

Definition heap_ordered (xs : list Z) : Prop :=
  ∀ j, 0 < j → j < length xs → (rk xs ((j - 1) / 2) ≤ rk xs j)%Z.

(** ordered but for the pair (parent of [j], [j]) *)
Definition up_inv (xs : list Z) (j : nat) : Prop :=
  (∀ k, 0 < k → k < length xs → k ≠ j → (rk xs ((k - 1) / 2) ≤ rk xs k)%Z) ∧
  (∀ k, k < length xs → 0 < j → k = 2 * j + 1 ∨ k = 2 * j + 2 → (rk xs ((j - 1) / 2) ≤ rk xs k)%Z).

(** ordered but for the pairs ([i], child of [i]) *)
Definition down_inv (xs : list Z) (i : nat) : Prop :=
  (∀ k, 0 < k → k < length xs → (k - 1) / 2 ≠ i → (rk xs ((k - 1) / 2) ≤ rk xs k)%Z) ∧
  (∀ k, k < length xs → 0 < i → k = 2 * i + 1 ∨ k = 2 * i + 2 → (rk xs ((i - 1) / 2) ≤ rk xs k)%Z).

(** the child the adjust loops exchange with index [i] *)
Definition left_smaller (xs : list Z) (i : nat) : bool :=
  bool_decide (2 * i + 1 < length xs) && (rk xs (2 * i + 1) <? rk xs i)%Z.
Definition right_smaller (xs : list Z) (i : nat) : bool :=
  bool_decide (2 * i + 2 < length xs) &&
  (rk xs (2 * i + 2) <? rk xs (if left_smaller xs i then 2 * i + 1 else i))%Z.
Definition pick (xs : list Z) (i : nat) : option nat :=
  if right_smaller xs i then Some (2 * i + 2)
  else if left_smaller xs i then Some (2 * i + 1) else None.

Lemma pick_Some xs i j :
  pick xs i = Some j →
  (j = 2 * i + 1 ∨ j = 2 * i + 2) ∧ j < length xs ∧ (rk xs j < rk xs i)%Z ∧
  (∀ k, k < length xs → k = 2 * i + 1 ∨ k = 2 * i + 2 → (rk xs j ≤ rk xs k)%Z).
Proof.
  unfold pick, right_smaller, left_smaller. intros E.
  destruct (rk xs (2 * i + 1) <? rk xs i)%Z eqn:?;
  repeat case_bool_decide; simpl in E; repeat (case_match; simplify_eq); simplify_eq;
    (split_and!; [lia..|]); intros k Hk [->| ->]; lia.
Qed.

Lemma pick_None xs i :
  pick xs i = None →
  ∀ k, k < length xs → k = 2 * i + 1 ∨ k = 2 * i + 2 → (rk xs i ≤ rk xs k)%Z.
Proof.
  unfold pick, right_smaller, left_smaller. intros E.
  destruct (rk xs (2 * i + 1) <? rk xs i)%Z eqn:?;
  repeat case_bool_decide; simpl in E; repeat (case_match; simplify_eq); simplify_eq;
    intros k Hk [->| ->]; lia.
Qed.

Lemma compare_children_ok s xs i :
  harr s xs → i < length xs →
  compare_children compare (at0 xs i) s = Ok ((left_smaller xs i, right_smaller xs i), s).
Proof.
  intros Hh Hi. pose proof Hh as [_ _ _ Hnn _]. unfold compare_children.
  rewrite (get_node_run _ _ _ _ (harr_node _ _ _ Hh Hi)). cbn [left right node_at].
  rewrite !at0_ctrue, !compare_rank by done.
  unfold right_smaller, left_smaller, rk.
  destruct (decide (2 * i + 2 < length xs)) as [H2|H2].
  - rewrite !bool_decide_eq_true_2 by lia. simpl. mstep. mstep.
    do 3 f_equal. by destruct (_ <? _)%Z.
  - rewrite (bool_decide_eq_false_2 (2 * i + 2 < _)) by lia. done.
Qed.

Lemma rk_swap xs i j k :
  i < length xs → j < length xs →
  rk (swap xs i j) k = if decide (k = i) then rk xs j else if decide (k = j) then rk xs i else rk xs k.
Proof. intros Hi Hj. unfold rk. rewrite at0_swap by done. by repeat case_decide. Qed.

Lemma up_inv_pick xs j :
  up_inv xs j → 0 < j → j < length xs →
  pick xs ((j - 1) / 2) = Some j ∨
  pick xs ((j - 1) / 2) = None ∧ heap_ordered xs.
Proof.
  intros [H1 H2] Hj Hn. destruct (pick xs ((j - 1) / 2)) as [k|] eqn:E.
  - left. apply pick_Some in E as (Hk & Hkn & Hlt & _). f_equal.
    destruct (decide (k = j)) as [|Hne]; [done|].
    specialize (H1 k ltac:(lia) Hkn Hne).
    replace ((k - 1) / 2) with ((j - 1) / 2) in H1 by lia. lia.
  - right. split; [done|]. intros k Hk Hkn. destruct (decide (k = j)) as [->|]; [|by apply H1].
    apply (pick_None _ _ E); lia.
Qed.

Lemma up_inv_swap xs j :
  up_inv xs j → 0 < j → j < length xs → pick xs ((j - 1) / 2) = Some j →
  up_inv (swap xs ((j - 1) / 2) j) ((j - 1) / 2).
Proof.
  intros [H1 H2] Hj Hn (_ & _ & Hlt & Hmin)%pick_Some. set (i := (j - 1) / 2) in *.
  assert (i < length xs) by lia.
  assert (j = 2 * i + 1 ∨ j = 2 * i + 2) as Hij by lia.
  split; rewrite length_swap.
  - intros k Hk Hkn Hki. rewrite !rk_swap by done.
    destruct (decide (k = i)) as [|_]; [done|].
    destruct (decide (k = j)) as [->|Hkj].
    { rewrite decide_True by done. lia. }
    destruct (decide ((k - 1) / 2 = i)) as [E|E]; [apply Hmin; lia|].
    destruct (decide ((k - 1) / 2 = j)) as [E'|E']; [apply H2; lia|]. by apply H1.
  - intros k Hkn Hi Hk. rewrite !rk_swap by done.
    rewrite (decide_False (P := (i - 1) / 2 = i)), (decide_False (P := (i - 1) / 2 = j)) by lia.
    rewrite (decide_False (P := k = i)) by lia. 
    pose proof (H1 i ltac:(lia) ltac:(lia) ltac:(lia)).
    destruct (decide (k = j)) as [->|Hkj]; [done|].
    pose proof (H1 k ltac:(lia) ltac:(lia) ltac:(lia)) as Hik.
    replace ((k - 1) / 2) with i in Hik by lia. lia.
Qed.

Lemma down_inv_ordered xs i : down_inv xs i → pick xs i = None → heap_ordered xs.
Proof.
  intros [H1 _] Hp k Hk Hkn. destruct (decide ((k - 1) / 2 = i)) as [E|E]; [|by apply H1].
  rewrite E. apply (pick_None _ _ Hp); lia.
Qed.

Lemma down_inv_swap xs i j :
  down_inv xs i → pick xs i = Some j → down_inv (swap xs i j) j.
Proof.
  intros [H1 H2] (Hij & Hj & Hlt & Hmin)%pick_Some.
  assert (i < length xs) by lia. split; rewrite length_swap.
  - intros k Hk Hkn Hkj. rewrite !rk_swap by done.
    rewrite (decide_False (P := (k - 1) / 2 = j)) by done.
    destruct (decide (k = i)) as [->|Hki].
    { rewrite decide_False by lia. apply H2; lia. }
    destruct (decide ((k - 1) / 2 = i)) as [E|E].
    + case_decide; [lia|]. apply Hmin; lia.
    + rewrite decide_False by lia. by apply H1.
  - intros k Hkn _ Hk. replace ((j - 1) / 2) with i by lia. rewrite !rk_swap by done.
    rewrite decide_True, !decide_False by lia.
    pose proof (H1 k ltac:(lia) ltac:(lia) ltac:(lia)) as Hjk.
    by replace ((k - 1) / 2) with j in Hjk by lia.
Qed.

(** ** The adjust loops *)

(** what both loops leave unchanged, from the array [xs] to [xs'] *)
Definition rearranged (xs : list Z) (s : hstate) (xs' : list Z) (s' : hstate) : Prop :=
  harr s' xs' ∧ xs' ≡ₚ xs ∧ lists s' = lists s ∧ frame_nodes xs s s'.

Lemma rearranged_refl xs s : harr s xs → rearranged xs s xs s.
Proof. intros H. by split_and!. Qed.

Lemma rearranged_trans xs s xs1 s1 xs2 s2 :
  rearranged xs s xs1 s1 → rearranged xs1 s1 xs2 s2 → rearranged xs s xs2 s2.
Proof.
  intros (H1 & P1 & L1 & F1) (H2 & P2 & L2 & F2). split_and!; [done|by rewrite P2|congruence|].
  intros a Ha H0. rewrite F2, F1; [done..| |done]. by rewrite P1.
Qed.

(** one round of either loop: exchange with the picked child *)
Lemma swap_round s xs i j :
  harr s xs → pick xs i = Some j →
  ∃ s', swap_nodes (at0 xs i) (at0 xs j) s = Ok ((), s') ∧ rearranged xs s (swap xs i j) s' ∧
        nodes s' !! at0 xs i = Some (node_at (swap xs i j) j) ∧
        parent (node_at (swap xs i j) j) = at0 xs j ∧
        nodes s' !! at0 xs j = Some (node_at (swap xs i j) i) ∧ at0 xs j ≠ 0%Z.
Proof.
  intros Hh (Hij & Hj & _)%pick_Some. assert (i < length xs) as Hi by lia.
  destruct (swap_ok s xs i j) as (s' & Hs & Hh' & Hl & Hf); [done..|].
  exists s'. split_and!; [done|split_and!; [done|by apply swap_perm|done|done]|..].
  - pose proof (harr_node s' (swap xs i j) j Hh' ltac:(by rewrite length_swap)) as Hn.
    rewrite at0_swap, decide_False, decide_True in Hn by lia. done.
  - cbn [parent node_at]. rewrite (par0_at _ _ i), at0_swap, decide_True by lia. done.
  - pose proof (harr_node s' (swap xs i j) i Hh' ltac:(by rewrite length_swap)) as Hn.
    by rewrite at0_swap, decide_True in Hn by lia.
  - by apply at0_nonzero; [apply Hh|].
Qed.

Lemma attach_loop_ok fuel s xs j :
  harr s xs → up_inv xs j → j < length xs → j < fuel →
  ∃ s' xs', attach_loop compare fuel (par0 xs j) s = Ok ((), s') ∧
            rearranged xs s xs' s' ∧ heap_ordered xs'.
Proof.
  revert s xs j. induction fuel as [|fuel IH]; intros s xs j Hh Hup Hj Hf; [lia|].
  destruct (decide (j = 0)) as [->|Hj0].
  { exists s, xs. split_and!; [done|by apply rearranged_refl|].
    intros k Hk Hkn. apply Hup; [done..|lia]. }
  rewrite (par0_at _ _ ((j - 1) / 2)) by lia. pose proof Hh as [_ _ _ Hnn _].
  assert ((j - 1) / 2 < length xs) as Hi by lia. simpl.
  rewrite at0_ctrue, bool_decide_eq_true_2 by done.
  rewrite (bind_ok _ _ _ _ _ (compare_children_ok _ _ _ Hh Hi)).
  rewrite (get_node_run _ _ _ _ (harr_node _ _ _ Hh Hi)). cbn [left right node_at].
  destruct (up_inv_pick xs j) as [Hp|[Hp Hord]]; [done|lia|done|..].
  - pose proof (swap_round _ _ _ _ Hh Hp) as (s1 & Hs & Hr & Hn1 & Hpar & Hn2 & Hnz).
    assert (up_inv (swap xs ((j - 1) / 2) j) ((j - 1) / 2)) as Hup' by (apply up_inv_swap; (done || lia)).
    destruct (IH s1 (swap xs ((j - 1) / 2) j) ((j - 1) / 2)) as (s' & xs' & Hrun & Hr' & Hord);
      [apply Hr|done|by rewrite length_swap|lia|].
    exists s', xs'. split_and!; [|by eapply rearranged_trans|done].
    unfold pick in Hp. destruct (right_smaller _ _); [|destruct (left_smaller _ _); [|done]];
      simplify_eq Hp; intros Hp'; rewrite Hp'; rewrite (bind_ok _ _ _ _ _ Hs);
      rewrite (get_node_run _ _ _ _ Hn1), Hpar; mstep; by rewrite (get_node_run _ _ _ _ Hn2).
  - unfold pick in Hp. destruct (right_smaller _ _); [done|]. destruct (left_smaller _ _); [done|].
    exists s, xs. split_and!; [done|by apply rearranged_refl|done].
Qed.

Lemma adjust_loop_ok fuel s xs i :
  harr s xs → i < length xs → length xs - i < fuel →
  ∃ s' xs', adjust_loop compare fuel (at0 xs i) s = Ok ((), s') ∧
            rearranged xs s xs' s' ∧ (down_inv xs i → heap_ordered xs').
Proof.
  revert s xs i. induction fuel as [|fuel IH]; intros s xs i Hh Hi Hf; [lia|].
  pose proof Hh as [_ _ _ Hnn _]. simpl.
  rewrite at0_ctrue, bool_decide_eq_true_2 by done.
  rewrite (bind_ok _ _ _ _ _ (compare_children_ok _ _ _ Hh Hi)).
  rewrite (get_node_run _ _ _ _ (harr_node _ _ _ Hh Hi)). cbn [left right node_at].
  destruct (pick xs i) as [j|] eqn:Hp.
  - pose proof (swap_round _ _ _ _ Hh Hp) as (s1 & Hs & Hr & Hn1 & Hpar & Hn2 & Hnz).
    pose proof (pick_Some _ _ _ Hp) as (Hij & Hj & _).
    destruct (IH s1 (swap xs i j) j) as (s' & xs' & Hrun & Hr' & Hord);
      [apply Hr|by rewrite length_swap|rewrite length_swap; lia|].
    rewrite at0_swap, decide_False, decide_True in Hrun by lia.
    exists s', xs'. split_and!; [|by eapply rearranged_trans|by eauto using down_inv_swap].
    clear Hr Hr' Hn2 IH. unfold pick in Hp. destruct (right_smaller _ _); [|destruct (left_smaller _ _); [|done]];
      simplify_eq Hp; intros Hp'; rewrite Hp'; rewrite (bind_ok _ _ _ _ _ Hs);
      rewrite (get_node_run _ _ _ _ Hn1), Hpar; by mstep.
  - exists s, xs. split_and!; [|by apply rearranged_refl|intros; by eapply down_inv_ordered].
    unfold pick in Hp. destruct (right_smaller _ _); [done|]. by destruct (left_smaller _ _).
Qed.

Lemma adjust_heap_node_ok s xs i :
  harr s xs → i < length xs →
  ∃ s' xs', adjust_heap_node compare (at0 xs i) s = Ok ((), s') ∧
            rearranged xs s xs' s' ∧ (down_inv xs i → heap_ordered xs').
Proof.
  intros Hh Hi. unfold adjust_heap_node. mstep. apply adjust_loop_ok; [done..|].
  pose proof (harr_size _ _ Hh). lia.
Qed.

Lemma adjust_heap_node_null s : adjust_heap_node compare 0 s = Ok ((), s).
Proof. done. Qed.

(** ** Growing, shrinking and patching the array *)

Lemma at0_snoc xs a k : at0 (xs ++ [a]) k = if decide (k = length xs) then a else at0 xs k.
Proof.
  unfold at0. case_decide as E; [subst; by rewrite list_lookup_middle|].
  destruct (decide (k < length xs)); [by rewrite lookup_app_l|].
  rewrite !(lookup_ge_None_2 _ k); [done|lia|rewrite length_app; simpl; lia].
Qed.

Lemma at0_snoc_old xs a k : k ≠ length xs → at0 (xs ++ [a]) k = at0 xs k.
Proof. intros. by rewrite at0_snoc, decide_False. Qed.

Lemma at0_snoc_last xs a : at0 (xs ++ [a]) (length xs) = a.
Proof. by rewrite at0_snoc, decide_True. Qed.

Lemma par0_snoc xs a k : k ≤ length xs → par0 (xs ++ [a]) k = par0 xs k.
Proof. intros. destruct k; [done|]. unfold par0. apply at0_snoc_old. lia. Qed.

Lemma harr_intro s xs :
  root (heap s) = at0 xs 0 → NoDup xs → 0%Z ∉ xs → is_Some (nodes s !! 0%Z) →
  (∀ k, k < length xs → nodes s !! at0 xs k = Some (node_at xs k)) → harr s xs.
Proof.
  intros Hr Hnd Hnn H0 Hk. split; try done. intros i a Ha.
  rewrite <-(at0_lookup _ _ _ Ha). apply Hk. by eapply lookup_lt_Some.
Qed.

Ltac btsplit :=
  unfold node_at, set_parent, set_left, set_right; cbn [parent left right];
  f_equal; apply bt_eq.

(** hanging [node] under the last parent *)
Lemma link_ok s xs node :
  harr s xs → 0 < length xs → nodes s !! node = Some (mk_bt 0 0 0) → node ∉ xs → node ≠ 0%Z →
  let lp := at0 xs ((length xs - 1) / 2) in
  harr (with_nodes s (alter (set_parent lp) node
         (alter (if ! left (node_at xs ((length xs - 1) / 2)) then set_left node else set_right node)
            lp (nodes s)))) (xs ++ [node]).
Proof.
  intros Hh Hpos Hn Hnin Hnz lp. pose proof Hh as [Hr _ Hnd Hnn H0].
  cbn [left node_at]. rewrite at0_ctrue by done.
  set (m := (length xs - 1) / 2) in *. assert (m < length xs) by lia.
  assert (∀ k, at0 xs k ≠ node) as Hne.
  { intros k. by apply not_eq_sym, at0_not_in. }
  apply harr_intro; cbn [heap nodes with_nodes].
  - rewrite Hr, at0_snoc_old by lia. done.
  - apply NoDup_app. split_and!; [done| |apply NoDup_singleton]. intros x Hx ->%list_elem_of_singleton. done.
  - rewrite elem_of_app, list_elem_of_singleton. naive_solver.
  - by apply alter_is_some, alter_is_some.
  - intros k Hk. rewrite length_app in Hk. simpl in Hk.
    destruct (decide (k = length xs)) as [->|Hkn].
    { rewrite at0_snoc_last. etrans; [eapply alter_look_eq, alter_look_ne; [apply Hne|done]|].
      btsplit; [|rewrite at0_snoc_old, at0_ge by lia; done..].
      rewrite (par0_at _ _ m), at0_snoc_old by lia. done. }
    rewrite at0_snoc_old by done. assert (k < length xs) as Hk' by lia.
    destruct (decide (k = m)) as [->|Hkm].
    + etrans; [apply alter_look_ne; [by apply not_eq_sym, Hne|eapply alter_look_eq; by apply harr_node]|].
      case_bool_decide as Hl; cbn [negb]; btsplit.
      * by rewrite par0_snoc by lia.
      * by rewrite at0_snoc_old by lia.
      * rewrite at0_snoc, decide_True by lia. done.
      * by rewrite par0_snoc by lia.
      * rewrite at0_snoc, decide_True by lia. done.
      * by rewrite at0_snoc_old by lia.
    + etrans; [apply alter_look_ne; [by apply not_eq_sym, Hne|apply alter_look_ne; [by apply at0_ne|by apply harr_node]]|].
      btsplit; [by rewrite par0_snoc by lia|by rewrite at0_snoc_old by lia..].
Qed.

Lemma unlink_last_ok s xs l :
  harr s (xs ++ [l]) →
  ∃ s', unlink_last l s = Ok ((), s') ∧ harr s' xs ∧ nodes s' !! l = Some (mk_bt 0 0 0) ∧
        lists s' = lists s ∧ frame_nodes (xs ++ [l]) s s'.
Proof.
  intros Hh. pose proof Hh as [Hr _ Hnd Hnn H0].
  assert (nodes s !! l = Some (node_at (xs ++ [l]) (length xs))) as Hl.
  { apply Hh. by apply list_lookup_middle. }
  assert (l ≠ 0%Z ∧ l ∉ xs) as [Hlz Hlin].
  { split; [intros ->; apply Hnn; rewrite elem_of_app, list_elem_of_singleton; auto|].
    apply NoDup_app in Hnd as (_ & Hd & _). intros Hx. by apply (Hd l Hx), list_elem_of_singleton. }
  apply NoDup_app in Hnd as (Hnd & _ & _). apply not_elem_of_app in Hnn as [Hnn _].
  unfold unlink_last. rewrite (get_node_run _ _ _ _ Hl). cbn [parent node_at]. unfold get_root, set_root.
  destruct (decide (xs = [])) as [->|Hne].
  { simpl. mstep. rewrite Hr. unfold at0. cbn [lookup list_lookup default app]. rewrite Z.eqb_refl. mstep. eexists. split_and!; [done| |done..].
    apply harr_intro; [done..|simpl; lia]. }
  assert (0 < length xs) by (destruct xs; simpl; [done|lia]).
  set (m := (length xs - 1) / 2). assert (m < length xs) by lia.
  rewrite (par0_at _ _ m) by lia. rewrite at0_snoc_old by lia.
  rewrite at0_ctrue, bool_decide_eq_true_2 by done. cbn [negb].
  assert (∀ k, at0 xs k ≠ l) as Hnel.
  { intros k. by apply not_eq_sym, at0_not_in. }
  assert (nodes s !! at0 xs m = Some (node_at (xs ++ [l]) m)) as Hm.
  { rewrite <-(at0_snoc_old xs l m) by lia. apply harr_node; [done|]. rewrite length_app. lia. }
  rewrite (get_node_run _ _ _ _ Hm). cbn [left right node_at].
  set (f := if decide (length xs = 2 * m + 1) then set_left 0 else set_right 0).
  exists (with_nodes s (alter (set_parent 0) l (alter f (at0 xs m) (nodes s)))). split_and!.
  - rewrite !at0_snoc. unfold f. destruct (decide (length xs = 2 * m + 1)) as [E|E].
    + rewrite decide_True, Z.eqb_refl by lia. rewrite decide_False, (at0_ge xs (2 * m + 2)) by lia.
      mstep. rewrite upd_node_run by eauto.
      rewrite <-(bind_ret_run (upd_node _ _)), upd_node_run by isome. done.
    + rewrite decide_False by lia. rewrite (proj2 (Z.eqb_neq _ _)) by done.
      rewrite decide_True, Z.eqb_refl by lia. mstep. rewrite upd_node_run by eauto.
      rewrite <-(bind_ret_run (upd_node _ _)), upd_node_run by isome. done.
  - apply harr_intro; cbn [heap nodes with_nodes]; [by rewrite Hr, at0_snoc_old by lia|done|done|isome|].
    intros k Hk. assert (nodes s !! at0 xs k = Some (node_at (xs ++ [l]) k)) as Hnk.
    { rewrite <-(at0_snoc_old xs l k) by lia. apply harr_node; [done|]. rewrite length_app. lia. }
    destruct (decide (k = m)) as [->|Hkm].
    + etrans; [apply alter_look_ne; [by apply not_eq_sym, Hnel|eapply alter_look_eq; exact Hnk]|].
      unfold f. case_decide; btsplit.
      * by rewrite par0_snoc by lia.
      * by rewrite at0_ge by lia.
      * by rewrite at0_snoc_old by lia.
      * by rewrite par0_snoc by lia.
      * by rewrite at0_snoc_old by lia.
      * by rewrite at0_ge by lia.
    + etrans; [apply alter_look_ne; [by apply not_eq_sym, Hnel|apply alter_look_ne; [by apply at0_ne|exact Hnk]]|].
      btsplit; [by rewrite par0_snoc by lia|by rewrite at0_snoc_old by lia..].
  - cbn [nodes with_nodes]. etrans; [eapply alter_look_eq, alter_look_ne; [apply Hnel|exact Hl]|].
    btsplit; [done|rewrite at0_snoc_old, at0_ge by lia; done..].
  - done.
  - intros a Ha Ha0. apply not_elem_of_app in Ha as [Ha Hal]. rewrite list_elem_of_singleton in Hal.
    cbn [nodes with_nodes]. apply alter_look_ne; [done|]. apply alter_look_ne; [|done].
    by apply not_eq_sym, at0_not_in.
Qed.

Lemma at0_insert xs i l k :
  i < length xs → at0 (<[i := l]> xs) k = if decide (k = i) then l else at0 xs k.
Proof.
  intros Hi. unfold at0. case_decide as E; [subst; by rewrite list_lookup_insert_eq|].
  by rewrite list_lookup_insert_ne.
Qed.

Lemma par0_insert xs i l k :
  i < length xs → (k = 0 ∨ (k - 1) / 2 ≠ i) → par0 (<[i := l]> xs) k = par0 xs k.
Proof. intros Hi Hk. destruct k as [|k]; [done|]. unfold par0. rewrite at0_insert, decide_False by lia. done. Qed.

Lemma insert_fresh xs i l :
  i < length xs → NoDup xs → 0%Z ∉ xs → l ∉ xs → l ≠ 0%Z →
  NoDup (<[i := l]> xs) ∧ (0%Z ∉ <[i := l]> xs) ∧ (at0 xs i ∉ <[i := l]> xs) ∧
  at0 xs i :: <[i := l]> xs ≡ₚ l :: xs.
Proof.
  intros Hi Hnd Hnn Hl Hl0. pose proof (at0_lt xs i Hi) as Hx. revert Hx. generalize (at0 xs i). intros x Hx.
  apply list_elem_of_split_length in Hx as (l1 & l2 & -> & ->).
  rewrite (insert_app_r_alt _ _ _ _ (Nat.le_refl _)), Nat.sub_diag. simpl.
  split_and!; [mem..|]. rewrite <-!Permutation_middle. constructor.
Qed.

(** a store in which [l] has taken the place of index [i] *)
Lemma harr_replace s s' xs i l :
  harr s xs → i < length xs → l ∉ xs → l ≠ 0%Z →
  root (heap s') = (if decide (i = 0) then l else at0 xs 0) → is_Some (nodes s' !! 0%Z) →
  nodes s' !! l = Some (node_at xs i) →
  (∀ k, k < length xs → k = 2 * i + 1 ∨ k = 2 * i + 2 →
     nodes s' !! at0 xs k = Some (set_parent l (node_at xs k))) →
  (0 < i → nodes s' !! at0 xs ((i - 1) / 2) = Some (relink (at0 xs i) l (node_at xs ((i - 1) / 2)))) →
  (∀ k, k < length xs → k ≠ i → k ≠ 2 * i + 1 → k ≠ 2 * i + 2 → (i = 0 ∨ k ≠ (i - 1) / 2) →
     nodes s' !! at0 xs k = Some (node_at xs k)) →
  harr s' (<[i := l]> xs).
Proof.
  intros Hh Hi Hl Hl0 Hr H0 HL HC HP HO. pose proof Hh as [_ _ Hnd Hnn _].
  destruct (insert_fresh xs i l) as (Hnd' & Hnn' & _); [done..|].
  apply harr_intro; [|done|done|done|].
  { rewrite Hr, at0_insert by done. by repeat case_decide. }
  rewrite length_insert. intros k Hk. rewrite at0_insert by done.
  destruct (decide (k = i)) as [->|Hki]; [rewrite HL; btsplit; by rewrite ?par0_insert, ?at0_insert, ?decide_False by lia|].
  destruct (decide (k = 2 * i + 1 ∨ k = 2 * i + 2)) as [Hc|Hc].
  { rewrite HC by done. btsplit; [|by rewrite at0_insert, decide_False by lia..].
    rewrite (par0_at _ _ i), at0_insert, decide_True by lia. done. }
  destruct (decide (0 < i ∧ k = (i - 1) / 2)) as [[Hi0 ->]|Hp].
  { rewrite HP by done. unfold relink. cbn [left node_at].
    destruct (decide (i = 2 * ((i - 1) / 2) + 1)) as [E|E].
    - rewrite <-E, Z.eqb_refl. btsplit; [by rewrite par0_insert by lia|..].
      + rewrite at0_insert, decide_True by lia. done.
      + rewrite at0_insert, decide_False by lia. done.
    - rewrite (proj2 (Z.eqb_neq _ _)) by (apply at0_ne; (done || lia)). btsplit; [by rewrite par0_insert by lia|..].
      + rewrite at0_insert, decide_False by lia. done.
      + rewrite at0_insert, decide_True by lia. done. }
  rewrite HO by lia. btsplit; [by rewrite par0_insert by lia|..];
    by rewrite at0_insert, decide_False by lia.
Qed.

Ltac rne :=
  first [ apply at0_not_in; assumption | apply not_eq_sym, at0_not_in; assumption
        | apply par0_not_in; assumption | apply not_eq_sym, par0_not_in; assumption | ane' ].

Ltac rlook :=
  lazymatch goal with
  | |- alter _ ?a _ !! ?b = _ =>
      tryif constr_eq a b then (eapply alter_look_eq; rlook)
      else (apply alter_look_ne; [rne|rlook])
  | |- alter_opt ?a _ _ !! ?b = _ =>
      tryif constr_eq a b then (eapply alter_opt_look_eq; [by apply at0_nonzero; [assumption|lia]|rlook])
      else (apply alter_opt_look_ne; [rne|rlook])
  | |- _ => first [ eassumption | apply harr_node; [eassumption|first [assumption|lia]] ]
  end.

(** the block of [detach_heap_node] that puts [l] in place of the root *)
Lemma replace_root_ok s xs l :
  harr s xs → 0 < length xs → l ∉ xs → l ≠ 0%Z → nodes s !! l = Some (mk_bt 0 0 0) →
  let d := at0 xs 0 in
  ∃ s', (∀ A (k : Z → M hstate A), mbind k (
       dn ← get_node d;
       when (ctrue (left dn)) (upd_node (left dn) (set_parent l)) ;;
       when (ctrue (right dn)) (upd_node (right dn) (set_parent l)) ;;
       dn ← get_node d;
       upd_node l (set_left (left dn)) ;;
       upd_node l (set_right (right dn)) ;;
       set_root l ;;
       upd_node d (set_left NULL) ;;
       upd_node d (set_right NULL) ;;
       dn ← get_node d;
       ASSERT (! parent dn) ;;
       mret d) s = k d s') ∧
    harr s' (<[0 := l]> xs) ∧ nodes s' !! d = Some (mk_bt 0 0 0) ∧
    lists s' = lists s ∧ frame_nodes (l :: xs) s s'.
Proof.
  intros Hh Hpos Hl Hl0 Hln d. pose proof Hh as [Hr Hn Hnd Hnn [n0 Hn0]].
  assert (∀ m, is_Some (nodes s !! at0 xs m)) as Hany.
  { intros m. destruct (decide (m < length xs)); [eexists; by apply harr_node|].
    rewrite at0_ge by lia. eauto. }
  unfold d, set_root. eexists. split.
  { intros A k. rewrite bind_assoc_run. rewrite (get_node_run _ _ _ _ (harr_node _ _ _ Hh Hpos)). cbn [left right node_at].
    rewrite bind_assoc_run. rewrite upd_opt_run by (intros; apply Hany).
    rewrite bind_assoc_run. rewrite upd_opt_run by (intros; isome).
    rewrite bind_assoc_run. cbn [nodes with_nodes].
    erewrite get_node_run by (cbn [nodes with_nodes]; rlook). cbn [left right node_at].
    rewrite bind_assoc_run. rewrite upd_node_run by isome.
    rewrite bind_assoc_run. rewrite upd_node_run by isome.
    do 2 mstep. cbn [nodes with_nodes heap lists].
    rewrite bind_assoc_run. rewrite upd_node_run by isome.
    rewrite bind_assoc_run. rewrite upd_node_run by isome.
    rewrite bind_assoc_run. cbn [nodes with_nodes heap lists].
    erewrite get_node_run by (cbn [nodes with_nodes]; rlook). cbn [left right parent node_at set_left set_right par0].
    do 3 mstep. reflexivity. }
  cbn [nodes with_nodes heap lists]. split_and!; [|etrans; [rlook|]; done|done|].
  - apply (harr_replace s _ _ 0); cbn [nodes with_nodes heap lists root]; try done; [isome|..].
    + etrans; [rlook|]. done.
    + intros k' Hk' [->| ->]; rlook.
    + lia.
    + intros k' Hk' ????. rlook.
  - intros a Ha Ha0. apply not_elem_of_cons in Ha as [Hal Ha]. cbn [nodes with_nodes].
    repeat first [ apply alter_look_ne; [|] | apply alter_opt_look_ne; [|] ]; try done;
      by apply not_eq_sym, at0_not_in.
Qed.

(** the block of [delete_heap_node] that puts [l] in place of index [i] *)
Lemma replace_node_ok s xs i l :
  harr s xs → i < length xs → l ∉ xs → l ≠ 0%Z → nodes s !! l = Some (mk_bt 0 0 0) →
  let node := at0 xs i in
  ∃ s', (nn ← get_node node;
         upd_node l (set_left (left nn)) ;;
         upd_node l (set_right (right nn)) ;;
         when (ctrue (left nn)) (upd_node (left nn) (set_parent l)) ;;
         nn ← get_node node;
         when (ctrue (right nn)) (
           ASSERT (ctrue (left nn)) ;;
           upd_node (right nn) (set_parent l)) ;;
         nn ← get_node node;
         (if ! parent nn then
            rt ← get_root;
            ASSERT (rt =? node)%Z ;;
            upd_node l (set_parent NULL) ;;
            set_root l
          else
            upd_node l (set_parent (parent nn)) ;;
            pp ← get_node (parent nn);
            if (left pp =? node)%Z then upd_node (parent nn) (set_left l)
            else
              ASSERT (right pp =? node)%Z ;;
              upd_node (parent nn) (set_right l)) ;;
         adjust_heap_node compare l) s = adjust_heap_node compare l s' ∧
    harr s' (<[i := l]> xs) ∧ lists s' = lists s ∧ frame_nodes (l :: xs) s s' ∧
    nodes s' !! node = Some (node_at xs i).
Proof.
  intros Hh Hi Hl Hl0 Hln node. pose proof Hh as [Hr Hn Hnd Hnn [n0 Hn0]].
  assert (∀ m, is_Some (nodes s !! at0 xs m)) as Hany.
  { intros m. destruct (decide (m < length xs)); [eexists; by apply harr_node|].
    rewrite at0_ge by lia. eauto. }
  set (ns := alter_opt (at0 xs (2 * i + 2)) (set_parent l) (alter_opt (at0 xs (2 * i + 1)) (set_parent l)
        (alter (set_right (at0 xs (2 * i + 2))) l (alter (set_left (at0 xs (2 * i + 1))) l (nodes s))))).
  set (s' := mk_hstate
         (if decide (i = 0) then mk_heap l (last_parent (heap s)) (last_node (heap s)) else heap s)
         (alter_opt (par0 xs i) (relink node l) (alter (set_parent (par0 xs i)) l ns)) (lists s)).
  exists s'.
  assert (nodes (with_nodes s ns) !! node = Some (node_at xs i)) as Hnode.
  { unfold ns, node. cbn [nodes with_nodes]. rlook. }
  split_and!.
  - rewrite (get_node_run _ _ _ _ (harr_node _ _ _ Hh Hi)). cbn [left right node_at].
    rewrite upd_node_run by eauto. rewrite upd_node_run by isome.
    rewrite upd_opt_run by (intros; isome). cbn [nodes with_nodes].
    erewrite get_node_run by (cbn [nodes with_nodes]; unfold node; rlook). cbn [left right node_at].
    trans ((nn ← get_node node; (if ! parent nn then
            rt ← get_root;
            ASSERT (rt =? node)%Z ;;
            upd_node l (set_parent NULL) ;;
            set_root l
          else
            upd_node l (set_parent (parent nn)) ;;
            pp ← get_node (parent nn);
            if (left pp =? node)%Z then upd_node (parent nn) (set_left l)
            else
              ASSERT (right pp =? node)%Z ;;
              upd_node (parent nn) (set_right l)) ;;
         adjust_heap_node compare l) (with_nodes s ns)).
    { destruct (decide (2 * i + 2 < length xs)) as [H2|H2].
      - rewrite (at0_ctrue xs (2 * i + 2)), (at0_ctrue xs (2 * i + 1)) by done.
        rewrite !bool_decide_eq_true_2 by lia. do 3 mstep. rewrite upd_node_run by isome.
        unfold ns at 1, alter_opt. rewrite !at0_ctrue, !bool_decide_eq_true_2 by (done || lia). done.
      - rewrite (at0_ctrue xs (2 * i + 2)), bool_decide_eq_false_2 by (done || lia). mstep.
        unfold ns at 1. rewrite (at0_ge xs (2 * i + 2)) by lia. done. }
    rewrite (get_node_run _ _ _ _ Hnode). cbn [parent node_at]. unfold s'.
    destruct (decide (i = 0)) as [->|Hi0].
    + cbn [par0]. change (ctrue 0) with false. cbn [negb]. unfold get_root, set_root. do 2 mstep.
      cbn [heap with_nodes]. rewrite Hr, Z.eqb_refl. do 2 mstep.
      rewrite bind_assoc_run, upd_node_run by (unfold ns; isome). by mstep.
    + assert (ctrue (par0 xs i) = true) as Hpc.
      { rewrite (par0_at _ _ ((i - 1) / 2)), at0_ctrue, bool_decide_eq_true_2 by (done || lia). done. }
      assert (nodes (with_nodes s (alter (set_parent (par0 xs i)) l ns)) !! par0 xs i =
              Some (node_at xs ((i - 1) / 2))) as Hpn.
      { rewrite (par0_at _ _ ((i - 1) / 2)) by lia. cbn [nodes with_nodes]. unfold ns. rlook. }
      rewrite Hpc. cbn [negb]. rewrite bind_assoc_run, upd_node_run by (unfold ns; isome).
      pose proof (λ H, relink_run (with_nodes s (alter (set_parent (par0 xs i)) l ns)) (par0 xs i) node l
                    (λ _, adjust_heap_node compare l) H) as Hre.
      rewrite Hpc in Hre. unfold when in Hre. etrans; [|apply Hre]; [done|].
      intros _. eexists. split; [exact Hpn|]. cbn [left right node_at]. unfold node.
      destruct (decide (i = 2 * ((i - 1) / 2) + 1)); [left|right]; f_equal; lia.
  - apply (harr_replace s); try done; unfold s'; cbn [nodes heap].
    + by destruct (decide (i = 0)).
    + unfold ns. isome.
    + unfold ns. etrans; [rlook|]. done.
    + unfold ns. intros k Hk [->| ->]; rlook.
    + intros Hi0. unfold ns. rewrite (par0_at _ _ ((i - 1) / 2)) by lia. etrans; [rlook|]. done.
    + unfold ns. intros k Hk ????. rlook.
  - done.
  - intros a Ha Ha0. apply not_elem_of_cons in Ha as [Hal Ha]. unfold s', ns. cbn [nodes].
    repeat first [ apply alter_look_ne; [|] | apply alter_opt_look_ne; [|] ]; try done;
      first [by apply not_eq_sym, at0_not_in|by apply not_eq_sym, par0_not_in].
  - unfold s'. cbn [nodes]. apply alter_opt_look_ne; [unfold node; rne|].
    apply alter_look_ne; [unfold node; rne|]. exact Hnode.
Qed.

(** ** The heap as a priority queue

    [pool] are all node objects the callers own; those not in the heap are
    detached (all three links NULL). *)
Record heap_ok (s : hstate) (pool xs : list Z) : Prop := {
  ho_arr : harr s xs;
  ho_sub : xs ⊆ pool;
  ho_links : hlinks queue s pool;
  ho_detached : ∀ a, a ∈ pool → a ∉ xs → nodes s !! a = Some (mk_bt 0 0 0);
  ho_nonnull : 0%Z ∉ pool }.

Lemma hlinks_lists s s' P : lists s' = lists s → hlinks queue s P → hlinks queue s' P.
Proof. intros E [????]. split; rewrite ?E; done. Qed.

Lemma heap_ok_links s s' P xs :
  heap_ok s P xs → only_links s s' → hlinks queue s' P → heap_ok s' P xs.
Proof.
  intros [H1 H2 H3 H4 H5] Hl Hl'. split; try done; [by eapply harr_links|].
  destruct Hl as [_ ->]. done.
Qed.

Lemma root_min xs i : heap_ordered xs → i < length xs → (rk xs 0 ≤ rk xs i)%Z.
Proof.
  intros Ho. induction (lt_wf i) as [i _ IH]. intros Hi.
  destruct (decide (i = 0)) as [->|Hi0]; [done|].
  specialize (IH ((i - 1) / 2) ltac:(lia) ltac:(lia)). specialize (Ho i ltac:(lia) Hi). lia.
Qed.

Lemma attach_ok s P xs node :
  heap_ok s P xs → heap_ordered xs → node ∈ P → node ∉ xs →
  ∃ s' xs', attach_heap_node queue compare node s = Ok ((), s') ∧
            heap_ok s' P xs' ∧ heap_ordered xs' ∧ xs' ≡ₚ node :: xs.
Proof.
  intros Hok Hord Hin Hnin. pose proof Hok as [Hh Hsub Hl Hdet Hnz].
  assert (node ≠ 0%Z) as Hn0 by congruence.
  unfold attach_heap_node. rewrite (get_node_run _ _ _ _ (Hdet _ Hin Hnin)). cbn [parent left right].
  unfold get_root, set_root. do 4 mstep. rewrite (ha_root _ _ Hh).
  destruct (decide (xs = [])) as [->|Hne].
  { destruct (search_empty queue s P Hl) as (s1 & H1 & Hl1 & Hli).
    rewrite (bind_ok _ _ _ _ _ H1). pose proof (heap_ok_links _ _ _ _ Hok Hl1 Hli) as [Hh1 _ _ Hd1 _].
    change (ctrue 0) with false. cbn [negb]. mstep. rewrite (ha_root _ _ Hh1). mstep.
    eexists _, [node]. split_and!; [done| | |done].
    - split; [|set_solver| |intros a Ha Hane; apply Hd1; [done|set_solver]|done].
      + apply harr_intro; [done|apply NoDup_singleton|set_solver|apply Hh1|].
        simpl. intros k Hk. assert (k = 0) as -> by lia. cbn. rewrite Hd1; [done..|set_solver].
      + by eapply hlinks_lists; [|exact Hli].
    - intros j Hj Hj'. simpl in Hj'. lia. }
  assert (0 < length xs) as Hpos by (destruct xs; simpl; [done|lia]).
  destruct (search_last_parent_ok queue s P xs) as (s1 & H1 & Hl1 & Hli); [done..|].
  rewrite (bind_ok _ _ _ _ _ H1). pose proof (heap_ok_links _ _ _ _ Hok Hl1 Hli) as [Hh1 _ _ Hd1 _].
  set (m := (length xs - 1) / 2). assert (m < length xs) as Hm by lia. pose proof Hh as [_ _ _ Hnn _].
  rewrite (at0_ctrue xs m), bool_decide_eq_true_2 by done. cbn [negb].
  rewrite (get_node_run _ _ _ _ (harr_node _ _ _ Hh1 Hm)). cbn [left right node_at].
  rewrite (at0_ctrue xs (2 * m + 2)), bool_decide_eq_false_2 by (done || lia). mstep.
  pose proof (link_ok s1 xs node Hh1 Hpos (Hd1 _ Hin Hnin) Hnin Hn0) as Hh2.
  fold m in Hh2. cbn [left node_at] in Hh2. cbv zeta in Hh2.
  set (s2 := with_nodes _ _) in Hh2.
  destruct (attach_loop_ok (S (size (nodes s2))) s2 (xs ++ [node]) (length xs)) as (s' & xs' & Hr & Hre & Hord').
  { done. }
  { split; rewrite length_app; simpl; [|intros; lia]. intros k Hk Hkn Hkj.
    unfold rk. rewrite !at0_snoc_old by lia. apply Hord; lia. }
  { rewrite length_app. simpl. lia. }
  { pose proof (harr_size _ _ Hh2) as Hsz. rewrite length_app in Hsz. cbn [length] in Hsz. lia. }
  rewrite (par0_at _ _ m), at0_snoc_old in Hr by lia.
  exists s', xs'. split_and!; [|split| |].
  - rewrite <-Hr. unfold s2.
    destruct (ctrue (at0 xs (2 * m + 1))); cbn [negb];
      (rewrite upd_node_run by (eexists; by apply harr_node));
      (rewrite upd_node_run by (cbn [nodes with_nodes]; apply alter_is_some; eexists; by apply Hd1)); done.
  - apply Hre.
  - destruct Hre as (_ & -> & _). set_solver.
  - destruct Hre as (_ & _ & E & _). by eapply hlinks_lists; [|exact Hli].
  - destruct Hre as (_ & HP & _ & Hf). intros a Ha Hna. rewrite HP in Hna.
    assert ((a ∉ xs) ∧ a ≠ node) as [Hax Han] by set_solver.
    assert (a ≠ 0%Z) by congruence. rewrite Hf by done. unfold s2. cbn [nodes with_nodes].
    apply alter_look_ne; [done|]. apply alter_look_ne; [by apply not_eq_sym, at0_not_in|]. by apply Hd1.
  - done.
  - done.
  - destruct Hre as (_ & -> & _). by rewrite <-Permutation_cons_append.
Qed.

(** removing the last node of a non-empty heap: the common start of
    [detach_heap_node] and [delete_heap_node] *)
Lemma remove_last_ok s P ys l :
  heap_ok s P (ys ++ [l]) →
  ∃ s', (∀ A (k : Z → M hstate A),
        (last_node ← search_last_node queue (at0 (ys ++ [l]) 0);
         ASSERT (ctrue last_node) ;;
         ln ← get_node last_node;
         ASSERT ((! left ln) && (! right ln)) ;;
         unlink_last last_node ;; k last_node) s = k l s') ∧
        heap_ok s' P ys ∧ l ∈ P ∧ (l ∉ ys) ∧ l ≠ 0%Z.
Proof.
  intros Hok. pose proof Hok as [Hh Hsub Hl Hdet Hnz]. pose proof Hh as [_ _ Hnd Hnn _].
  assert (0 < length (ys ++ [l])) as Hpos by (rewrite length_app; simpl; lia).
  destruct (search_last_node_ok queue s P (ys ++ [l])) as (s1 & H1 & Hl1 & Hli); [done..|].
  rewrite length_app in H1. replace (length ys + length [l] - 1) with (length ys) in H1 by (simpl; lia).
  rewrite at0_snoc_last in H1.
  assert (l ∈ P ∧ (l ∉ ys) ∧ l ≠ 0%Z) as (HlP & Hlys & Hlz).
  { split_and!; [set_solver| |set_solver]. intros Hx.
    apply NoDup_app in Hnd as (_ & Hd & _). apply (Hd _ Hx). set_solver. }
  pose proof (heap_ok_links _ _ _ _ Hok Hl1 Hli) as [Hh1 _ _ Hd1 _].
  assert (nodes s1 !! l = Some (node_at (ys ++ [l]) (length ys))) as Hln.
  { apply Hh1. by apply list_lookup_middle. }
  destruct (unlink_last_ok s1 ys l Hh1) as (s2 & H2 & Hh2 & Hl2 & HE & Hf).
  exists s2. split; [|split_and!; try done; split; try done].
  - intros A k. rewrite (bind_ok _ _ _ _ _ H1). mstep.
    rewrite (get_node_run _ _ _ _ Hln). cbn [left right node_at].
    rewrite !at0_ctrue, !bool_decide_eq_false_2 by (done || rewrite ?length_app; simpl; lia).
    mstep. by rewrite (bind_ok _ _ _ _ _ H2).
  - set_solver.
  - by eapply hlinks_lists.
  - intros a Ha Hna. destruct (decide (a = l)) as [->|Hal]; [done|].
    rewrite Hf by set_solver. apply Hd1; set_solver.
Qed.

Lemma down_inv_replace ys l i :
  heap_ordered (ys ++ [l]) → i < length ys → (i = 0 ∨ (rk ys ((i - 1) / 2) ≤ rank l)%Z) →
  down_inv (<[i := l]> ys) i.
Proof.
  intros Ho Hi Hpar. split; rewrite length_insert; unfold rk.
  - intros k Hk Hkn Hki. rewrite !at0_insert, (decide_False (P := (k - 1) / 2 = i)) by done.
    destruct (decide (k = i)) as [->|Hne]; [naive_solver lia|].
    pose proof (Ho k Hk ltac:(rewrite length_app; simpl; lia)) as Hok. unfold rk in Hok.
    by rewrite !at0_snoc_old in Hok by lia.
  - intros k Hkn Hi0 Hk. rewrite !at0_insert, !decide_False by (done || lia).
    pose proof (Ho k ltac:(lia) ltac:(rewrite length_app; simpl; lia)) as H1.
    pose proof (Ho i ltac:(lia) ltac:(rewrite length_app; simpl; lia)) as H2.
    replace ((k - 1) / 2) with i in H1 by lia. unfold rk in *.
    rewrite !at0_snoc_old in H1, H2 by lia. lia.
Qed.

(** after [l] has taken the place of index [i], the adjust pass *)
Lemma adjust_replaced s s1 P ys i l :
  heap_ok s P ys → i < length ys → l ∈ P → l ∉ ys → l ≠ 0%Z →
  harr s1 (<[i := l]> ys) → lists s1 = lists s → frame_nodes (l :: ys) s s1 →
  ∃ s' xs', adjust_heap_node compare l s1 = Ok ((), s') ∧ rearranged (<[i := l]> ys) s1 xs' s' ∧
    (at0 ys i :: xs' ≡ₚ ys ++ [l]) ∧ (at0 ys i ∉ xs') ∧ xs' ⊆ P ∧ hlinks queue s' P ∧
    (∀ a, a ∈ P → a ∉ xs' → a ≠ at0 ys i → nodes s' !! a = Some (mk_bt 0 0 0)) ∧
    (down_inv (<[i := l]> ys) i → heap_ordered xs').
Proof.
  intros [Hh Hsub Hl Hdet Hnz] Hi HlP Hlin Hl0 Hh1 HE Hf. pose proof Hh as [_ _ Hnd Hnn _].
  destruct (insert_fresh ys i l) as (_ & _ & Hni & Hperm); [done..|].
  destruct (adjust_heap_node_ok s1 (<[i := l]> ys) i) as (s' & xs' & Hr & Hre & Hord);
    [done|by rewrite length_insert|].
  rewrite at0_insert, decide_True in Hr by done.
  pose proof Hre as (Hh' & HP & HE' & Hf').
  assert (at0 ys i :: xs' ≡ₚ ys ++ [l]) as Hperm'.
  { by rewrite HP, Hperm, Permutation_cons_append. }
  assert (∀ a, a ∈ xs' → a ∈ ys ∨ a = l) as Hmem.
  { intros a Ha. assert (a ∈ ys ++ [l]) by (rewrite <-Hperm'; by right). set_solver. }
  exists s', xs'. split_and!; try done.
  - by rewrite HP.
  - intros a [?| ->]%Hmem; auto.
  - eapply hlinks_lists; [|exact Hl]. congruence.
  - intros a Ha Hna Hne. assert (a ∉ ys ++ [l]) as Hnin.
    { rewrite <-Hperm'. apply not_elem_of_cons. done. }
    apply not_elem_of_app in Hnin as [Hny Hnl]. rewrite list_elem_of_singleton in Hnl.
    assert (a ≠ 0%Z) by congruence. rewrite Hf', Hf; [by apply Hdet|by apply not_elem_of_cons|done| |done].
    rewrite <-HP. done.
Qed.

Lemma detach_ok s P xs :
  heap_ok s P xs → xs ≠ [] →
  ∃ d s' xs', detach_heap_node queue compare s = Ok (d, s') ∧ heap_ok s' P xs' ∧
    xs ≡ₚ d :: xs' ∧ d = at0 xs 0 ∧ (heap_ordered xs → heap_ordered xs').
Proof.
  intros Hok Hne. destruct (exists_last Hne) as (ys & l & ->).
  unfold detach_heap_node, get_root. mstep. rewrite (ha_root _ _ (ho_arr _ _ _ Hok)).
  pose proof (ho_arr _ _ _ Hok) as [_ _ _ Hnn _].
  rewrite (at0_ctrue _ 0), bool_decide_eq_true_2 by (done || rewrite ?length_app; simpl; lia). cbn [negb].
  destruct (remove_last_ok s P ys l) as (s1 & H1 & Hok1 & HlP & Hlys & Hlz); [done|].
  rewrite H1. clear H1. mstep. pose proof Hok1 as [Hh1 Hsub1 Hl1 Hd1 Hnz].
  rewrite (ha_root _ _ Hh1). pose proof Hh1 as [_ _ Hnd1 Hnn1 _].
  destruct (decide (ys = [])) as [->|Hys].
  { change (at0 [] 0) with 0%Z. change (ctrue 0) with false. cbn [negb]. do 2 mstep.
    rewrite (ha_root _ _ Hh1). change (at0 [] 0) with 0%Z.
    rewrite (bind_ok _ _ _ _ _ (adjust_heap_node_null s1)). rewrite ret_run.
    exists l, s1, []. split_and!; try done. intros _ j ?. simpl. lia. }
  assert (0 < length ys) as Hpos by (destruct ys; simpl; [done|lia]).
  rewrite (at0_ctrue ys 0), bool_decide_eq_true_2 by done. cbn [negb]. cbv zeta.
  destruct (replace_root_ok s1 ys l) as (s2 & H2 & Hh2 & Hdn & HE & Hf); [done..|by apply Hd1|].
  rewrite H2. clear H2. mstep.
  destruct (adjust_replaced s1 s2 P ys 0 l) as (s' & xs' & Hr & Hre & Hperm & Hnin & Hsub & Hli & Hdet & Hord);
    [done..|].
  rewrite (ha_root _ _ Hh2), at0_insert, decide_True, (bind_ok _ _ _ _ _ Hr), ret_run by done.
  rewrite at0_snoc_old by lia.
  exists (at0 ys 0), s', xs'. split_and!; try done.
  - split; try done; [apply Hre|]. intros a Ha Hna.
    destruct (decide (a = at0 ys 0)) as [->|Hne']; [|by apply Hdet].
    destruct Hre as (_ & HP & _ & Hf'). rewrite Hf'; [done| |by apply at0_nonzero]. by rewrite <-HP.
  - intros Ho. apply Hord, down_inv_replace; [done|done|by left].
Qed.

Lemma climb_ok fuel s xs i :
  harr s xs → i < length xs → i < fuel → climb fuel (at0 xs i) s = Ok (at0 xs 0, s).
Proof.
  revert i. induction fuel as [|fuel IH]; intros i Hh Hi Hf; [lia|]. simpl.
  pose proof Hh as [_ _ _ Hnn _]. rewrite at0_ctrue, bool_decide_eq_true_2 by done.
  rewrite (get_node_run _ _ _ _ (harr_node _ _ _ Hh Hi)). cbn [parent node_at].
  destruct (decide (i = 0)) as [->|Hi0]; [done|].
  rewrite (par0_at _ _ ((i - 1) / 2)), at0_ctrue, bool_decide_eq_true_2 by (done || lia).
  apply IH; (done || lia).
Qed.

(** [node->parent = NULL; node->left = NULL; node->right = NULL;] *)
Lemma reset_node_ok s P xs node :
  harr s xs → xs ⊆ P → hlinks queue s P → 0%Z ∉ P → node ∈ P → node ∉ xs → is_Some (nodes s !! node) →
  (∀ a, a ∈ P → a ∉ xs → a ≠ node → nodes s !! a = Some (mk_bt 0 0 0)) →
  ∃ s', (upd_node node (set_parent NULL) ;; upd_node node (set_left NULL) ;;
         upd_node node (set_right NULL)) s = Ok ((), s') ∧ heap_ok s' P xs.
Proof.
  intros Hh Hsub Hl Hnz Hin Hnin [n Hn] Hdet. eexists. split.
  { rewrite upd_node_run by eauto. rewrite upd_node_run by isome.
    rewrite <-(bind_ret_run (upd_node _ _)), upd_node_run by isome. reflexivity. }
  pose proof Hh as [Hr Hnode Hnd Hnn H0].
  split; [apply harr_intro|..]; cbn [nodes with_nodes heap]; try done; [isome| |eapply hlinks_lists; [|exact Hl]; done|].
  - intros k Hk. do 3 (apply alter_look_ne; [intros ->; by apply Hnin, at0_elem|]). by apply harr_node.
  - intros a Ha Hna. destruct (decide (a = node)) as [->|Hne].
    + etrans; [do 3 eapply alter_look_eq; exact Hn|]. done.
    + do 3 (apply alter_look_ne; [done|]). by apply Hdet.
Qed.

Lemma delete_absent s P xs node :
  heap_ok s P xs → node ∈ P → node ∉ xs → delete_heap_node queue compare node s = Ok ((), s).
Proof.
  intros [Hh Hsub Hl Hdet Hnz] Hin Hnin. assert (node ≠ 0%Z) by congruence.
  assert (climb (S (size (nodes s))) node s = Ok (node, s)) as Hc.
  { simpl. rewrite (proj2 (ctrue_true node)) by done. by rewrite (get_node_run _ _ _ _ (Hdet _ Hin Hnin)). }
  unfold delete_heap_node, get_root. mstep. rewrite (bind_ok _ _ _ _ _ Hc). mstep.
  rewrite (ha_root _ _ Hh). rewrite (proj2 (Z.eqb_neq (at0 xs 0) node)) by (by apply not_eq_sym, at0_not_in).
  by rewrite orb_true_r.
Qed.

Lemma delete_ok s P xs i :
  heap_ok s P xs → i < length xs →
  ∃ s' xs', delete_heap_node queue compare (at0 xs i) s = Ok ((), s') ∧ heap_ok s' P xs' ∧
    xs ≡ₚ at0 xs i :: xs' ∧
    (heap_ordered xs → (i = 0 ∨ (rk xs ((i - 1) / 2) ≤ rk xs (length xs - 1))%Z) → heap_ordered xs').
Proof.
  intros Hok Hi. pose proof (ho_arr _ _ _ Hok) as Hh. pose proof Hh as [_ _ Hnd Hnn _].
  unfold delete_heap_node, get_root. mstep.
  erewrite bind_ok by (apply (climb_ok _ s xs i); [done..|pose proof (harr_size _ _ Hh); lia]). cbn beta. mstep.
  rewrite (ha_root _ _ Hh), (at0_ctrue xs 0), bool_decide_eq_true_2, Z.eqb_refl by (done || lia). cbn [negb orb].
  assert (xs ≠ []) as Hne by (intros ->; simpl in Hi; lia).
  destruct (exists_last Hne) as (ys & l & ->). clear Hne. rewrite length_app in Hi; cbn [length] in Hi.
  destruct (remove_last_ok s P ys l) as (s1 & H1 & Hok1 & HlP & Hlys & Hlz); [done|].
  rewrite H1. clear H1. mstep. pose proof Hok1 as [Hh1 Hsub1 Hl1 Hd1 Hnz].
  rewrite (ha_root _ _ Hh1). pose proof Hh1 as [_ _ Hnd1 Hnn1 _].
  rewrite (at0_ctrue ys 0) by done.
  destruct (decide (i = length ys)) as [->|Hil].
  - rewrite at0_snoc_last, Z.eqb_refl, andb_false_r. mstep.
    destruct (reset_node_ok s1 P ys l) as (s' & Hr & Hok'); try done; [by eexists; apply Hd1|by auto|].
    exists s', ys. split_and!; [done|done|by rewrite <-Permutation_cons_append|].
    intros Ho _ j Hj Hjn. pose proof (Ho j Hj ltac:(rewrite length_app; simpl; lia)) as H'.
    unfold rk in *. by rewrite !at0_snoc_old in H' by lia.
  - rewrite !(at0_snoc_old ys l i) by done.
    rewrite bool_decide_eq_true_2, (proj2 (Z.eqb_neq _ _)) by (lia || by apply not_eq_sym, at0_not_in).
    cbn [negb andb].
    destruct (replace_node_ok s1 ys i l) as (s2 & H2 & Hh2 & HE & Hf & Hnode); [done|lia|done|done|by apply Hd1|].
    destruct (adjust_replaced s1 s2 P ys i l) as (s3 & xs' & Hr & Hre & Hperm & Hnin & Hsub & Hli & Hdet & Hord);
      [done|lia|done..|].
    rewrite Hr in H2. rewrite (bind_ok _ _ _ _ _ H2). clear H2.
    destruct (reset_node_ok s3 P xs' (at0 ys i)) as (s' & Hrs & Hok'); try done.
    + apply Hre.
    + apply Hsub1, at0_elem. lia.
    + destruct Hre as (_ & HP & _ & Hf'). rewrite Hf'; [eauto|by rewrite <-HP|apply at0_nonzero; (done || lia)].
    + exists s', xs'. split_and!; [done|done|done|]. intros Ho Hpar. apply Hord, down_inv_replace; [done|lia|].
      destruct Hpar as [?|Hpar]; [by left|right]. unfold rk in Hpar.
      rewrite length_app in Hpar. cbn [length] in Hpar.
      replace (length ys + 1 - 1) with (length ys) in Hpar by lia.
      by rewrite at0_snoc_last, at0_snoc_old in Hpar by lia.
Qed.

(** ** Correctness *)

Inductive pq_op := PAttach (node : Z) | PDetach.

Definition exec_pq (op : pq_op) : M hstate Z :=
  match op with
  | PAttach node => attach_heap_node queue compare node ;; mret 0%Z
  | PDetach => detach_heap_node queue compare
  end.

Fixpoint exec_pqs (ops : list pq_op) : M hstate (list Z) :=
  match ops with
  | [] => mret []
  | op :: ops => v ← exec_pq op; vs ← exec_pqs ops; mret (v :: vs)
  end.

(** the abstract priority queue: a bag of nodes; taking out yields any node of
    least rank, and NULL from the empty queue *)
Inductive pq_step : list Z → pq_op → Z → list Z → Prop :=
| pq_attach bag bag' node :
    node ∉ bag → bag' ≡ₚ node :: bag → pq_step bag (PAttach node) 0 bag'
| pq_detach_empty : pq_step [] PDetach 0 []
| pq_detach bag bag' d :
    bag ≡ₚ d :: bag' → (∀ b, b ∈ bag → (rank d ≤ rank b)%Z) → pq_step bag PDetach d bag'.

Inductive pq_run : list Z → list pq_op → list Z → list Z → Prop :=
| pq_nil bag : pq_run bag [] [] bag
| pq_cons bag op v bag1 ops vs bag2 :
    pq_step bag op v bag1 → pq_run bag1 ops vs bag2 → pq_run bag (op :: ops) (v :: vs) bag2.

Definition attached (ops : list pq_op) : list Z :=
  omap (λ op, match op with PAttach n => Some n | PDetach => None end) ops.

Lemma root_least xs b : heap_ordered xs → b ∈ xs → (rank (at0 xs 0) ≤ rank b)%Z.
Proof.
  intros Ho [i Hi]%list_elem_of_lookup. rewrite <-(at0_lookup _ _ _ Hi).
  apply root_min; [done|by eapply lookup_lt_Some].
Qed.

Lemma detach_empty s P : heap_ok s P [] → detach_heap_node queue compare s = Ok (0%Z, s).
Proof.
  intros [Hh _ _ _ _]. unfold detach_heap_node, get_root. mstep. by rewrite (ha_root _ _ Hh).
Qed.

(** [while ((node = detach_heap_node(heap))) ...] *)
Fixpoint drain (fuel : nat) : M hstate (list Z) :=
  match fuel with
  | O => fail Diverge
  | S fuel =>
      d ← detach_heap_node queue compare;
      if ctrue d then ds ← drain fuel; mret (d :: ds) else mret []
  end.

Fixpoint attach_all (ns : list Z) : M hstate () :=
  match ns with
  | [] => mret ()
  | n :: ns => attach_heap_node queue compare n ;; attach_all ns
  end.

Lemma attach_all_ok s P xs ns :
  heap_ok s P xs → heap_ordered xs → NoDup (ns ++ xs) → ns ⊆ P →
  ∃ s' xs', attach_all ns s = Ok ((), s') ∧ heap_ok s' P xs' ∧ heap_ordered xs' ∧ xs' ≡ₚ ns ++ xs.
Proof.
  revert s xs. induction ns as [|n ns IH]; intros s xs Hok Ho Hnd Hsub; [by exists s, xs|].
  simpl in Hnd. apply NoDup_cons in Hnd as [Hn Hnd]. rewrite elem_of_app in Hn.
  destruct (attach_ok s P xs n) as (s1 & xs1 & H1 & Hok1 & Ho1 & HP1); [done|done|set_solver|tauto|].
  destruct (IH s1 xs1) as (s' & xs' & H2 & Hok2 & Ho2 & HP2); [done|done| |set_solver|].
  { rewrite HP1. apply NoDup_middle. naive_solver. }
  exists s', xs'. split_and!; [|done|done|].
  - simpl. by rewrite (bind_ok _ _ _ _ _ H1).
  - rewrite HP2, HP1. by rewrite <-Permutation_middle.
Qed.

Lemma drain_ok fuel s P xs :
  heap_ok s P xs → heap_ordered xs → length xs < fuel →
  ∃ ds s', drain fuel s = Ok (ds, s') ∧ heap_ok s' P [] ∧ ds ≡ₚ xs ∧
           StronglySorted (λ a b, (rank a ≤ rank b)%Z) ds.
Proof.
  revert s xs. induction fuel as [|fuel IH]; intros s xs Hok Ho Hf; [lia|]. simpl.
  destruct (decide (xs = [])) as [->|Hne].
  { rewrite (bind_ok _ _ _ _ _ (detach_empty _ _ Hok)). exists [], s. split_and!; [done..|constructor]. }
  destruct (detach_ok s P xs) as (d & s1 & xs1 & H1 & Hok1 & HP1 & Hd & Ho1); [done..|].
  assert (length xs = S (length xs1)) as Hlen by (by rewrite HP1).
  destruct (IH s1 xs1) as (ds & s' & H2 & Hok2 & HP2 & Hs2); [done|by apply Ho1|lia|].
  assert (d ≠ 0%Z) as Hd0. { subst d. apply at0_nonzero; [apply Hok|lia]. }
  rewrite (bind_ok _ _ _ _ _ H1), (proj2 (ctrue_true d)), (bind_ok _ _ _ _ _ H2) by done.
  exists (d :: ds), s'. split_and!; [done|done|by rewrite HP1, HP2|].
  constructor; [done|]. apply Forall_forall. intros b Hb. subst d. apply root_least; [done|].
  rewrite HP1, <-HP2. by right.
Qed.

(** C28. Any sequence of attachments of fresh nodes and detachments runs without
    a failed assertion or a wild access and behaves as a priority queue:
    [detach_heap_node] returns a node of least rank among those in the heap
    (NULL from the empty heap), and the tree stays a complete, ordered heap
    over exactly the nodes of the abstract queue. *)
Theorem heap_refines_priority_queue ops : ∀ s P xs,
  heap_ok s P xs → heap_ordered xs → NoDup (attached ops ++ xs) → attached ops ⊆ P →
  ∃ vs s' xs', exec_pqs ops s = Ok (vs, s') ∧ pq_run xs ops vs xs' ∧
               heap_ok s' P xs' ∧ heap_ordered xs'.
Proof.
  induction ops as [|[n|] ops IH]; intros s P xs Hok Ho Hnd Hsub.
  - exists [], s, xs. split_and!; [done|constructor|done|done].
  - simpl in Hnd, Hsub. apply NoDup_cons in Hnd as [Hn Hnd]. rewrite elem_of_app in Hn.
    destruct (attach_ok s P xs n) as (s1 & xs1 & H1 & Hok1 & Ho1 & HP1); [done|done|set_solver|tauto|].
    destruct (IH s1 P xs1) as (vs & s' & xs' & H2 & Hr & Hok' & Ho'); [done|done| |set_solver|].
    { rewrite HP1. apply NoDup_middle. naive_solver. }
    exists (0%Z :: vs), s', xs'. split_and!; [|econstructor; [constructor; [tauto|done]|done]|done|done].
    simpl. rewrite bind_assoc_run, (bind_ok _ _ _ _ _ H1). mstep. by rewrite (bind_ok _ _ _ _ _ H2).
  - simpl in Hnd, Hsub. destruct (decide (xs = [])) as [->|Hne].
    + destruct (IH s P []) as (vs & s' & xs' & H2 & Hr & Hok' & Ho'); [done..|].
      exists (0%Z :: vs), s', xs'. split_and!; [|econstructor; [constructor|done]|done|done].
      simpl. by rewrite (bind_ok _ _ _ _ _ (detach_empty _ _ Hok)), (bind_ok _ _ _ _ _ H2).
    + destruct (detach_ok s P xs) as (d & s1 & xs1 & H1 & Hok1 & HP1 & Hd & Ho1); [done..|].
      destruct (IH s1 P xs1) as (vs & s' & xs' & H2 & Hr & Hok' & Ho'); [done|by apply Ho1| |done|].
      { rewrite HP1, <-Permutation_middle in Hnd. by apply NoDup_cons in Hnd as [_ ?]. }
      exists (d :: vs), s', xs'. split_and!; [|econstructor; [|done]|done|done].
      * simpl. by rewrite (bind_ok _ _ _ _ _ H1), (bind_ok _ _ _ _ _ H2).
      * constructor; [done|]. intros b Hb. subst d. by apply root_least.
Qed.

(** Heap sort: attaching distinct nodes to an empty heap and detaching until
    NULL terminates, and yields exactly those nodes in ascending rank. *)
Theorem heap_sort_sorts s P ns :
  heap_ok s P [] → NoDup ns → ns ⊆ P →
  ∃ ds s', (attach_all ns ;; drain (S (length ns))) s = Ok (ds, s') ∧
           ds ≡ₚ ns ∧ StronglySorted (λ a b, (rank a ≤ rank b)%Z) ds ∧ heap_ok s' P [].
Proof.
  intros Hok Hnd Hsub.
  destruct (attach_all_ok s P [] ns) as (s1 & xs & H1 & Hok1 & Ho1 & HP1);
    [done|intros j ??; simpl in *; lia|by rewrite app_nil_r|done|].
  rewrite app_nil_r in HP1.
  destruct (drain_ok (S (length ns)) s1 P xs) as (ds & s' & H2 & Hok2 & HP2 & Hs);
    [done|done|by rewrite HP1; lia|].
  exists ds, s'. rewrite (bind_ok _ _ _ _ _ H1). split_and!; [done|by rewrite HP2|done|done].
Qed.

(** [delete_heap_node] takes exactly the given node out and leaves a
    complete tree over the others, all assertions holding; a node that is not in
    the heap is left alone.  The heap order survives when the deleted node is
    the root or its parent's rank is at most that of the last node of the tree
    (the node that takes its place). *)
Theorem delete_heap_node_correct s P xs node :
  heap_ok s P xs → node ∈ P →
  ∃ s' xs', delete_heap_node queue compare node s = Ok ((), s') ∧ heap_ok s' P xs' ∧
    (node ∉ xs → s' = s ∧ xs' = xs) ∧
    (node ∈ xs → xs ≡ₚ node :: xs') ∧
    (heap_ordered xs →
     (∀ i, xs !! i = Some node → i = 0 ∨ (rk xs ((i - 1) / 2) ≤ rk xs (length xs - 1))%Z) →
     heap_ordered xs').
Proof.
  intros Hok Hin. destruct (decide (node ∈ xs)) as [Hx|Hx].
  - apply list_elem_of_lookup in Hx as [i Hi]. rewrite <-(at0_lookup _ _ _ Hi).
    destruct (delete_ok s P xs i) as (s' & xs' & H & Hok' & HP & Ho); [done|by eapply lookup_lt_Some|].
    exists s', xs'. split_and!; [done|done| |done|].
    + intros []. apply at0_elem. by eapply lookup_lt_Some.
    + intros Hord Hpar. apply Ho; [done|]. apply Hpar. by rewrite (at0_lookup _ _ _ Hi).
  - exists s, xs. rewrite (delete_absent s P xs) by done. by split_and!.
Qed.
End order.

(** ** Concrete runs: seven nodes, ranked by their address *)
Module HeapExample.
Definition pool : list Z := [10; 20; 30; 40; 50; 60; 70]%Z.
Definition queue : Z := 4.
Definition compare (a b : Z) : Z := (a - b)%Z.
Definition start : hstate :=
  mk_hstate (mk_heap 0 0 0)
    (list_to_map ((λ a, (a, mk_bt 0 0 0)) <$> (0%Z :: pool)))
    (list_to_map ((λ a, (a, mk_elem 0 0)) <$> (queue :: (list_of <$> pool)))).

Lemma compare_rank a b : (compare a b <? 0)%Z = (id a <? id b)%Z.
Proof. unfold compare, id. lia. Qed.

Lemma heap_start_ok : heap_ok queue start pool [].
Proof.
  assert (∀ Q : Z → Prop, Forall Q pool → ∀ a, a ∈ pool → Q a) as Hall.
  { intros Q H. by apply Forall_forall. }
  split; [apply harr_intro|..].
  - reflexivity.
  - apply NoDup_nil_2.
  - set_solver.
  - eexists. reflexivity.
  - simpl. lia.
  - set_solver.
  - split; [apply Hall|eexists; reflexivity|apply Hall|apply Hall];
      repeat (apply Forall_cons; split; [first [by eexists; vm_compute|done]|]); apply Forall_nil_2.
  - intros a Ha _. revert a Ha. apply Hall.
    repeat (apply Forall_cons; split; [reflexivity|]); apply Forall_nil_2.
  - unfold pool. set_solver.
Qed.

Lemma heap_refines_priority_queue_witness :
  let ops := [PAttach 30; PAttach 10; PAttach 20; PDetach; PDetach; PDetach; PDetach]%Z in
  ∃ vs s' xs', exec_pqs queue compare ops start = Ok (vs, s') ∧ pq_run id [] ops vs xs' ∧
               heap_ok queue s' pool xs' ∧ heap_ordered id xs'.
Proof.
  apply (heap_refines_priority_queue queue compare id compare_rank).
  - apply heap_start_ok.
  - intros j ??. simpl in *. lia.
  - simpl. mem.
  - unfold pool. simpl. set_solver.
Defined.

Lemma heap_sort_sorts_witness :
  ∃ ds s', (attach_all queue compare [40; 60; 50; 30]%Z ;; drain queue compare 5) start = Ok (ds, s') ∧
           ds ≡ₚ [40; 60; 50; 30]%Z ∧ StronglySorted (λ a b, (id a ≤ id b)%Z) ds ∧ heap_ok queue s' pool [].
Proof.
  apply (heap_sort_sorts queue compare id compare_rank start pool [40; 60; 50; 30]%Z).
  - apply heap_start_ok.
  - mem.
  - unfold pool. set_solver.
Defined.

(** the heap 10, (20, 30) *)
Definition three : hstate :=
  mk_hstate (mk_heap 10 0 0)
    (<[10%Z := mk_bt 0 20 30]> (<[20%Z := mk_bt 10 0 0]> (<[30%Z := mk_bt 10 0 0]> (nodes start)))) (lists start).

Lemma three_ok : heap_ok queue three pool [10; 20; 30]%Z.
Proof.
  destruct heap_start_ok as [H1 H2 H3 H4 H5]. split; [apply harr_intro|..].
  - reflexivity.
  - mem.
  - set_solver.
  - eexists. reflexivity.
  - intros [|[|[|k]]] Hk; [reflexivity..|simpl in Hk; lia].
  - unfold pool. set_solver.
  - by apply (hlinks_lists queue start).
  - intros a Ha Hna. unfold three. cbn [nodes].
    rewrite !lookup_insert_ne by set_solver. apply H4; [done|mem].
  - exact H5.
Qed.

Lemma delete_heap_node_correct_witness :
  let xs := [10; 20; 30]%Z in
  ∃ s' xs', delete_heap_node queue compare 20%Z three = Ok ((), s') ∧ heap_ok queue s' pool xs' ∧
    (20%Z ∉ xs → s' = three ∧ xs' = xs) ∧
    (20%Z ∈ xs → xs ≡ₚ 20%Z :: xs') ∧
    (heap_ordered id xs →
     (∀ i, xs !! i = Some 20%Z → i = 0 ∨ (rk id xs ((i - 1) / 2) ≤ rk id xs (length xs - 1))%Z) →
     heap_ordered id xs').
Proof.
  apply (delete_heap_node_correct queue compare id compare_rank three pool [10; 20; 30]%Z 20%Z).
  - apply three_ok.
  - unfold pool. set_solver.
Defined.

(** [delete_heap_node] only sifts the replacement down, so it can leave a
    node above one of smaller rank: after the deletion of 60 from this
    well-formed heap, detaching until NULL yields 40 before 30. *)
Theorem delete_breaks_drain_order :
  ∃ s', (attach_all queue compare [40; 60; 50; 30; 70; 20; 10]%Z ;;
         delete_heap_node queue compare 60%Z ;;
         drain queue compare 7) start = Ok ([10; 20; 40; 30; 50; 70]%Z, s').
Proof. eexists. vm_compute. reflexivity. Qed.

(** [swap_nodes] writes through NULL when the exchanged left child has no
    sibling: attaching a second, smaller node stores its address in the
    [parent] field of the object at address 0. *)
Theorem swap_writes_through_null :
  ∃ s', attach_all queue compare [20; 10]%Z start = Ok ((), s') ∧
        nodes start !! 0%Z = Some (mk_bt 0 0 0) ∧ nodes s' !! 0%Z = Some (mk_bt 10 0 0).
Proof. eexists. split_and!; vm_compute; reflexivity. Qed.
End HeapExample.
