(* ===== verification/Timer.v ===== *)
(** * Kernel timers: kernel/timer.c, kernel/include/timer.h

    A [struct timer_entry] starts with its heap node, so the entry and the node
    have the same address.  Its other fields are in the store [timers]; the heap
    of scheduled timers is the state of HeapSort.  A callback acts on the rest
    of the kernel ([world]): the only callback the kernel installs,
    [sleep_callback], wakes a task up. *)

From Stdlib Require Import ZifyNat Sorted.
From stdpp Require Import gmap list.
From S2P Require Import Prelude DList HeapSort.
Open Scope Z_scope.
Open Scope zelda_scope.

Inductive timer_state := timer_state_idle | timer_state_scheduled.

#[global] Instance timer_state_eq_dec : EqDecision timer_state.
Proof. solve_decision. Defined.

Record timer_entry := mk_timer {
  state : timer_state;
  time_to_expire : Z;
  callback : Z;      (* address of the function, 0 when unset *)
  priv : Z }.

Definition set_state (v : timer_state) (t : timer_entry) : timer_entry :=
  mk_timer v (time_to_expire t) (callback t) (priv t).

Definition expiry (ts : gmap Z timer_entry) (a : Z) : Z := from_option time_to_expire 0 (ts !! a).

Definition timer_compare (ts : gmap Z timer_entry) (node0 node1 : Z) : Z :=
  if expiry ts node0 <? expiry ts node1 then -1
  else if expiry ts node0 >? expiry ts node1 then 1 else 0.

Lemma timer_compare_rank ts a b : (timer_compare ts a b <? 0) = (expiry ts a <? expiry ts b).
Proof. unfold timer_compare. repeat case_match; lia. Qed.

Set Default Proof Using "Type".
Section timer.
Context {W : Type}.
(** the function at an address, called with (entry, priv) *)
Variable call : Z → Z → Z → W → W.
(** the address of the local queue head of the heap searches *)
Variable queue : Z.

Record tstate := mk_tstate {
  timer_heap : hstate;
  timers : gmap Z timer_entry;
  jiffies : Z;
  world : W }.

Definition timer_heap_l : lens tstate hstate :=
  Lens timer_heap (λ h s, mk_tstate h (timers s) (jiffies s) (world s)).
Definition timers_l : lens tstate (gmap Z timer_entry) :=
  Lens timers (λ t s, mk_tstate (timer_heap s) t (jiffies s) (world s)).
Definition world_l : lens tstate W :=
  Lens world (λ w s, mk_tstate (timer_heap s) (timers s) (jiffies s) w).

Definition timer_detached (timer : Z) : M tstate bool :=
  zoom timer_heap_l (heap_node_detached timer).

Definition assert_detached_links (entry : Z) : M tstate () :=
  n ← zoom timer_heap_l (get_node entry);
  ASSERT (! left n) ;;
  ASSERT (! right n) ;;
  ASSERT (! parent n).

Definition register_timer (entry : Z) : M tstate () :=
  assert_detached_links entry ;;
  zoom timers_l (update entry (set_state timer_state_scheduled)) ;;
  ts ← gets timers;
  zoom timer_heap_l (attach_heap_node queue (timer_compare ts) entry).

Definition cancel_timer (entry : Z) : M tstate () :=
  ts ← gets timers;
  zoom timer_heap_l (delete_heap_node queue (timer_compare ts) entry) ;;
  zoom timers_l (update entry (set_state timer_state_idle)) ;;
  assert_detached_links entry.

Definition is_scheduled (t : timer_entry) : bool := bool_decide (state t = timer_state_scheduled).

Fixpoint schedule_loop (fuel : nat) : M tstate () :=
  match fuel with
  | O => fail Diverge
  | S fuel =>
      current_node ← zoom timer_heap_l get_root;
      if ctrue current_node then
        timer ← zoom timers_l (load current_node);
        ASSERT (is_scheduled timer) ;;
        now ← gets jiffies;
        if time_to_expire timer >? now then mret () else
        ts ← gets timers;
        current_node ← zoom timer_heap_l (detach_heap_node queue (timer_compare ts));
        ASSERT (ctrue current_node) ;;
        timer ← zoom timers_l (load current_node);
        now ← gets jiffies;
        ASSERT (time_to_expire timer <=? now) ;;
        ASSERT (is_scheduled timer) ;;
        ASSERT (ctrue (callback timer)) ;;
        zoom world_l (modify (call (callback timer) current_node (priv timer))) ;;
        schedule_loop fuel
      else mret ()
  end.

Definition schedule_timer : M tstate () :=
  fuel ← gets (λ s, S (size (nodes (timer_heap s))));
  schedule_loop fuel.

Definition timer_init : M tstate () :=
  modify (λ s, mk_tstate (mk_hstate (mk_heap 0 0 0) (nodes (timer_heap s)) (lists (timer_heap s)))
                 (timers s) (jiffies s) (world s)).

(** ** Invariant *)

(** [xs] are the scheduled timers of the pool, in the heap's level order *)
Record timers_ok (s : tstate) (P xs : list Z) : Prop := {
  to_heap : heap_ok queue (timer_heap s) P xs;
  to_order : heap_ordered (expiry (timers s)) xs;
  to_entry : ∀ a, a ∈ P → is_Some (timers s !! a);
  to_scheduled : ∀ a t, a ∈ xs → timers s !! a = Some t →
                 state t = timer_state_scheduled ∧ callback t ≠ 0 }.

(** the effect of firing the timer at [a] *)
Definition fire (ts : gmap Z timer_entry) (w : W) (a : Z) : W :=
  match ts !! a with Some t => call (callback t) a (priv t) w | None => w end.

Lemma zoom_get_root s xs :
  harr (timer_heap s) xs → zoom timer_heap_l get_root s = Ok (at0 xs 0, s).
Proof.
  intros Hh. rewrite (zoom_ok _ _ _ (at0 xs 0) (timer_heap s)); [by destruct s|].
  unfold get_root, gets. simpl. by rewrite (ha_root _ _ Hh).
Qed.

Lemma load_timer s a t : timers s !! a = Some t → zoom timers_l (load a) s = Ok (t, s).
Proof. intros Ht. rewrite (zoom_ok _ _ _ t (timers s)); [by destruct s|by apply load_ok]. Qed.

Lemma expiry_lookup ts a t : ts !! a = Some t → expiry ts a = time_to_expire t.
Proof. unfold expiry. by intros ->. Qed.

Lemma is_scheduled_true t : state t = timer_state_scheduled → is_scheduled t = true.
Proof. intros H. by apply bool_decide_eq_true_2. Qed.

Lemma schedule_loop_ok fuel s P xs :
  timers_ok s P xs → (length xs < fuel)%nat →
  ∃ s' ds xs', schedule_loop fuel s = Ok ((), s') ∧ timers_ok s' P xs' ∧ xs ≡ₚ ds ++ xs' ∧
    Forall (λ a, expiry (timers s) a ≤ jiffies s) ds ∧
    Forall (λ a, jiffies s < expiry (timers s) a) xs' ∧
    StronglySorted (λ a b, expiry (timers s) a ≤ expiry (timers s) b) ds ∧
    timers s' = timers s ∧ jiffies s' = jiffies s ∧
    world s' = foldl (fire (timers s)) (world s) ds.
Proof.
  revert s xs. induction fuel as [|fuel IH]; intros s xs Hok Hf; [lia|]. simpl.
  pose proof Hok as [Hh Ho He Hs]. pose proof (ho_arr _ _ _ _ Hh) as Harr.
  rewrite (bind_ok _ _ _ _ _ (zoom_get_root _ _ Harr)).
  destruct (decide (xs = [])) as [->|Hne].
  { exists s, [], []. split_and!; [done|done|done|constructor|constructor|constructor|done..]. }
  assert (0 < length xs)%nat as Hpos by (destruct xs; simpl; [done|lia]).
  rewrite at0_ctrue, bool_decide_eq_true_2 by (apply Harr || done).
  destruct (He (at0 xs 0)) as [t Ht]; [by apply Hh, at0_elem|].
  destruct (Hs (at0 xs 0) t) as [Hst Hcb]; [by apply at0_elem|done|].
  rewrite (bind_ok _ _ _ _ _ (load_timer _ _ _ Ht)), is_scheduled_true by done. do 2 mstep.
  rewrite <-(expiry_lookup _ _ _ Ht).
  destruct (expiry (timers s) (at0 xs 0) >? jiffies s) eqn:Hexp.
  { exists s, [], xs. split_and!; [done|done|done|constructor| |constructor|done..].
    apply Forall_forall. intros b Hb.
    pose proof (root_least (expiry (timers s)) xs b Ho Hb). lia. }
  mstep. destruct (detach_ok queue (timer_compare (timers s)) (expiry (timers s)) (timer_compare_rank _)
    (timer_heap s) P xs) as (d & h1 & xs1 & H1 & Hok1 & HP1 & Hd & Ho1); [done..|].
  rewrite (bind_ok _ _ _ _ _ (zoom_ok timer_heap_l _ _ _ _ H1)).
  assert (d ≠ 0) as Hd0. { subst d. apply at0_nonzero; [apply Harr|done]. }
  rewrite <-Hd in Ht, Hexp. mstep. erewrite bind_ok by (apply load_timer; exact Ht). cbn beta. mstep.
  rewrite <-(expiry_lookup _ _ _ Ht). simpl. mstep.
  rewrite is_scheduled_true by done. do 2 mstep.
  set (s1 := mk_tstate h1 (timers s) (jiffies s) (call (callback t) d (priv t) (world s))).
  rewrite (bind_ok _ _ _ () s1) by reflexivity.
  destruct (IH s1 xs1) as (s' & ds & xs' & Hr & Hok' & HP' & Hle & Hgt & Hsort & Et & Ej & Ew).
  { split; [done|by apply Ho1|done|]. intros a t' Ha. apply Hs. rewrite HP1. by right. }
  { assert (length xs = S (length xs1)) by (by rewrite HP1). lia. }
  exists s', (d :: ds), xs'. split_and!; try done.
  - by rewrite HP1, HP'.
  - constructor; [lia|done].
  - constructor; [done|]. apply Forall_forall. intros b Hb. rewrite Hd. apply root_least; [done|].
    rewrite HP1, HP'. right. apply elem_of_app. by left.
  - rewrite Ew. simpl. unfold fire at 3. by rewrite Ht.
Qed.

Lemma schedule_timer_ok s P xs :
  timers_ok s P xs →
  ∃ s' ds xs', schedule_timer s = Ok ((), s') ∧ timers_ok s' P xs' ∧ xs ≡ₚ ds ++ xs' ∧
    Forall (λ a, expiry (timers s) a ≤ jiffies s) ds ∧
    Forall (λ a, jiffies s < expiry (timers s) a) xs' ∧
    StronglySorted (λ a b, expiry (timers s) a ≤ expiry (timers s) b) ds ∧
    timers s' = timers s ∧ jiffies s' = jiffies s ∧
    world s' = foldl (fire (timers s)) (world s) ds.
Proof.
  intros Hok. unfold schedule_timer. mstep. apply schedule_loop_ok; [done|].
  pose proof (harr_size _ _ (ho_arr _ _ _ _ (to_heap _ _ _ Hok))). lia.
Qed.


Lemma assert_detached_ok s P xs entry :
  heap_ok queue (timer_heap s) P xs → entry ∈ P → entry ∉ xs →
  assert_detached_links entry s = Ok ((), s).
Proof.
  intros Hh Hin Hnin. unfold assert_detached_links.
  pose proof (get_node_ok _ _ _ (ho_detached _ _ _ _ Hh _ Hin Hnin)) as Hg.
  rewrite (bind_ok _ _ _ _ _ (zoom_ok timer_heap_l _ _ _ _ Hg)). destruct s. by do 2 mstep.
Qed.

Lemma timer_detached_ok s P xs entry :
  heap_ok queue (timer_heap s) P xs → entry ∈ P → entry ∉ xs → timer_detached entry s = Ok (true, s).
Proof.
  intros Hh Hin Hnin. unfold timer_detached, heap_node_detached.
  rewrite (zoom_ok _ _ _ true (timer_heap s)); [by destruct s|]. simpl.
  rewrite (get_node_run _ _ _ _ (ho_detached _ _ _ _ Hh _ Hin Hnin)). unfold get_root. mstep. mstep.
  rewrite (ha_root _ _ (ho_arr _ _ _ _ Hh)).
  assert (entry ≠ 0) by (intros ->; by apply (ho_nonnull _ _ _ _ Hh)).
  rewrite (proj2 (Z.eqb_neq _ _)); [done|]. by apply not_eq_sym, at0_not_in.
Qed.

Lemma register_timer_ok s P xs entry t :
  timers_ok s P xs → entry ∈ P → entry ∉ xs → timers s !! entry = Some t → callback t ≠ 0 →
  ∃ h1 xs1, register_timer entry s = Ok ((), mk_tstate h1 (<[entry := set_state timer_state_scheduled t]> (timers s)) (jiffies s) (world s)) ∧
    timers_ok (mk_tstate h1 (<[entry := set_state timer_state_scheduled t]> (timers s)) (jiffies s) (world s)) P xs1 ∧ xs1 ≡ₚ entry :: xs.
Proof.
  intros [Hh Ho He Hs] Hin Hnin Ht Hcb. set (ts1 := <[entry := set_state timer_state_scheduled t]> (timers s)).
  assert (∀ a, expiry ts1 a = expiry (timers s) a) as Hexp.
  { intros a. unfold expiry, ts1. destruct (decide (a = entry)) as [->|]; [by rewrite lookup_insert_eq, Ht|by rewrite lookup_insert_ne]. }
  destruct (attach_ok queue (timer_compare ts1) (expiry ts1) (timer_compare_rank _) (timer_heap s) P xs entry)
    as (h1 & xs1 & H1 & Hok1 & Ho1 & HP1); [done| |done|done|].
  { intros j Hj Hjn. unfold rk. rewrite !Hexp. by apply Ho. }
  exists h1, xs1. split_and!; [|split; [done|done| |]|done].
  - unfold register_timer. rewrite (bind_ok _ _ _ _ _ (assert_detached_ok _ _ _ _ Hh Hin Hnin)).
    rewrite (bind_ok _ _ _ _ _ (zoom_ok timers_l _ s _ _ (update_ok (timers s) _ _ _ Ht))). mstep.
    exact (zoom_ok timer_heap_l _ (mk_tstate (timer_heap s) ts1 (jiffies s) (world s)) _ _ H1).
  - intros a Ha. simpl. unfold ts1. destruct (decide (a = entry)) as [->|]; [rewrite lookup_insert_eq; eauto|].
    rewrite lookup_insert_ne by done. by apply He.
  - intros a t' Ha. simpl. unfold ts1. destruct (decide (a = entry)) as [->|Hne]; [rewrite lookup_insert_eq; by intros [= <-]|].
    rewrite lookup_insert_ne by done. apply Hs. rewrite HP1 in Ha. by apply elem_of_cons in Ha as [?|?].
Qed.

(** a timer that is not in the heap, because it fired, is only marked *)
Lemma delete_detached h P xs entry ts :
  heap_ok queue h P xs → entry ∈ P → entry ∉ xs → delete_heap_node queue (timer_compare ts) entry h = Ok ((), h).
Proof.
  intros Hh Hin Hnin. assert (entry ≠ 0) as Hn by (intros ->; by apply (ho_nonnull _ _ _ _ Hh)).
  unfold delete_heap_node. mstep. cbn [climb]. rewrite (proj2 (ctrue_true entry) Hn).
  rewrite (bind_ok _ _ _ entry h) by (by rewrite (get_node_run _ _ _ _ (ho_detached _ _ _ _ Hh _ Hin Hnin))).
  unfold get_root. mstep. rewrite (ha_root _ _ (ho_arr _ _ _ _ Hh)).
  assert (at0 xs 0 ≠ entry) as Hr by (by apply not_eq_sym, at0_not_in). by rewrite (proj2 (Z.eqb_neq _ _) Hr), orb_true_r.
Qed.

Lemma cancel_timer_ok s P xs entry t :
  heap_ok queue (timer_heap s) P xs → entry ∈ P → timers s !! entry = Some t →
  ∃ h2 xs2, cancel_timer entry s = Ok ((), mk_tstate h2 (<[entry := set_state timer_state_idle t]> (timers s)) (jiffies s) (world s)) ∧
    heap_ok queue h2 P xs2 ∧ (entry ∉ xs2) ∧ ((entry ∈ xs ∧ xs ≡ₚ entry :: xs2) ∨ ((entry ∉ xs) ∧ xs2 = xs ∧ h2 = timer_heap s)).
Proof.
  intros Hh Hin Ht.
  assert (∃ h2 xs2, delete_heap_node queue (timer_compare (timers s)) entry (timer_heap s) = Ok ((), h2) ∧ heap_ok queue h2 P xs2 ∧
    (entry ∉ xs2) ∧ ((entry ∈ xs ∧ xs ≡ₚ entry :: xs2) ∨ ((entry ∉ xs) ∧ xs2 = xs ∧ h2 = timer_heap s))) as (h2 & xs2 & H2 & Hok2 & Hnin2 & Hcase).
  { destruct (decide (entry ∈ xs)) as [Hx|Hx].
    - pose proof Hx as [i Hi]%list_elem_of_lookup.
      destruct (delete_ok queue (timer_compare (timers s)) (expiry (timers s)) (timer_compare_rank _) (timer_heap s) P xs i)
        as (h2 & xs2 & H2 & Hok2 & HP2 & _); [done|by eapply lookup_lt_Some|].
      rewrite (at0_lookup _ _ _ Hi) in H2, HP2. exists h2, xs2. split_and!; [done|done| |by left].
      pose proof (ha_nodup _ _ (ho_arr _ _ _ _ Hh)) as Hnd. rewrite HP2 in Hnd. by apply NoDup_cons in Hnd as [? _].
    - exists (timer_heap s), xs. split_and!; [by eapply delete_detached|done|done|by right]. }
  exists h2, xs2. split_and!; [|done|done|done].
  unfold cancel_timer. mstep. rewrite (bind_ok _ _ _ _ _ (zoom_ok timer_heap_l _ s _ _ H2)).
  rewrite (bind_ok _ _ _ _ _ (zoom_ok timers_l _ (mk_tstate h2 (timers s) (jiffies s) (world s)) _ _ (update_ok (timers s) _ _ _ Ht))).
  by apply (assert_detached_ok _ P xs2).
Qed.

(** Registering a detached timer schedules it and keeps the timer
    invariant; cancelling it afterwards takes exactly it out of the heap and
    leaves it idle and detached, which is the postcondition [sleep] asserts. *)
Theorem register_cancel_timer s P xs entry t :
  timers_ok s P xs → entry ∈ P → entry ∉ xs → timers s !! entry = Some t → callback t ≠ 0 →
  ∃ s1 xs1 s2 xs2,
    register_timer entry s = Ok ((), s1) ∧ timers_ok s1 P xs1 ∧ xs1 ≡ₚ entry :: xs ∧
    cancel_timer entry s1 = Ok ((), s2) ∧ heap_ok queue (timer_heap s2) P xs2 ∧ xs2 ≡ₚ xs ∧
    timers s2 = <[entry := set_state timer_state_idle t]> (timers s) ∧
    timer_detached entry s2 = Ok (true, s2).
Proof.
  intros Hok Hin Hnin Ht Hcb. destruct (register_timer_ok s P xs entry t Hok Hin Hnin Ht Hcb) as (h1 & xs1 & H1 & Hok1 & HP1).
  destruct (cancel_timer_ok _ P xs1 entry (set_state timer_state_scheduled t) (to_heap _ _ _ Hok1) Hin (lookup_insert_eq _ _ _))
    as (h2 & xs2 & H2 & Hok2 & Hn2 & Hcase). cbn [timers jiffies world] in H2. rewrite insert_insert_eq in H2.
  eexists _, xs1, _, xs2. split_and!; [exact H1|done|done|exact H2|done| |done|by apply (timer_detached_ok _ P xs2)].
  destruct Hcase as [[_ HP2]|(Hno & _)]; [rewrite HP1 in HP2; by apply Permutation_cons_inv in HP2|destruct Hno; rewrite HP1; by left].
Qed.
End timer.
Arguments tstate : clear implicits.

(** ** Concrete run: the world is the trace of callbacks *)
Module TimerExample.
Definition call (cb timer priv : Z) (w : list (Z * Z)) : list (Z * Z) := w ++ [(timer, priv)].
Definition start : tstate (list (Z * Z)) :=
  mk_tstate HeapExample.three
    (list_to_map ((λ a, (a, mk_timer timer_state_scheduled (10 * a) 4096 (a + 1))) <$> HeapExample.pool))
    250 [].

Lemma timer_start_ok : timers_ok HeapExample.queue start HeapExample.pool [10; 20; 30].
Proof.
  assert (∀ Q : Z → Prop, Forall Q HeapExample.pool → ∀ a, a ∈ HeapExample.pool → Q a) as Hall.
  { intros Q H. by apply Forall_forall. }
  split.
  - apply HeapExample.three_ok.
  - intros [|[|[|j]]] H1 H2; [lia|vm_compute; done|vm_compute; done|simpl in H2; lia].
  - apply Hall. repeat (apply Forall_cons; split; [by eexists; vm_compute|]); apply Forall_nil_2.
  - intros a t Ha. assert (a ∈ HeapExample.pool) as Hp by (unfold HeapExample.pool; set_solver).
    clear Ha. revert t. pattern a. apply Hall; [|done]. clear.
    repeat (apply Forall_cons; split; [intros t Ht; vm_compute in Ht; by simplify_eq|]); apply Forall_nil_2.
Qed.


Lemma register_cancel_timer_witness :
  let t := mk_timer timer_state_scheduled 400 4096 41 in
  ∃ s1 xs1 s2 xs2,
    register_timer HeapExample.queue 40 start = Ok ((), s1) ∧
    timers_ok HeapExample.queue s1 HeapExample.pool xs1 ∧ xs1 ≡ₚ 40 :: [10; 20; 30] ∧
    cancel_timer HeapExample.queue 40 s1 = Ok ((), s2) ∧
    heap_ok HeapExample.queue (timer_heap s2) HeapExample.pool xs2 ∧ xs2 ≡ₚ [10; 20; 30] ∧
    timers s2 = <[40 := set_state timer_state_idle t]> (timers start) ∧
    timer_detached 40 s2 = Ok (true, s2).
Proof.
  apply (register_cancel_timer HeapExample.queue start HeapExample.pool [10; 20; 30] 40).
  - apply timer_start_ok.
  - unfold HeapExample.pool. set_solver.
  - set_solver.
  - reflexivity.
  - simpl. lia.
Defined.
End TimerExample.
