(* ===== verification/Malloc.v ===== *)
(** * Kernel heap allocator: memory/malloc.c, memory/include/malloc.h

    Chunk headers ([struct malloc_header], 16 bytes) and padding headers
    ([struct padding_header], 4 bytes) live in two typed stores.  The recycle
    bins are headers at [bins + 16 * i].  Address 0 may hold a header too: when
    a chunk is not split, [__malloc] calls [__free(NULL)], which reads and
    writes the words at addresses 0 to 15 (mapped low memory). *)

From Stdlib Require Import ZifyNat.
From stdpp Require Import gmap list.
From S2P Require Import Prelude.
Open Scope Z_scope.
Open Scope zelda_scope.

Definition KERNEL_HEAP_BOTTOM : Z := 0x8000000.
Definition KERNEL_HEAP_TOP : Z := 0x1F000000.
Definition MALLOC_MAGIC : Z := 0x5555.
Definition RECYCLE_BIN_SIZE : Z := 12 + 1.
Definition MISC_BIN : Z := RECYCLE_BIN_SIZE - 1.

Record malloc_header := mk_hdr {
  prev : Z; next : Z; size : Z; padding : Z; hfree : bool; magic : Z }.

Record padding_header := mk_pad { ppadding : Z; pfree : bool; pmagic : Z }.

(** [sizeof(struct malloc_header)], [sizeof(struct padding_header)] *)
Definition HDR : Z := 16.
Definition PAD : Z := 4.

Definition set_prev (v : Z) (h : malloc_header) := mk_hdr v (next h) (size h) (padding h) (hfree h) (magic h).
Definition set_next (v : Z) (h : malloc_header) := mk_hdr (prev h) v (size h) (padding h) (hfree h) (magic h).
Definition set_size (v : Z) (h : malloc_header) := mk_hdr (prev h) (next h) v (padding h) (hfree h) (magic h).
Definition set_padding (v : Z) (h : malloc_header) := mk_hdr (prev h) (next h) (size h) v (hfree h) (magic h).
Definition set_free (v : bool) (h : malloc_header) := mk_hdr (prev h) (next h) (size h) (padding h) v (magic h).

Abbreviation hstore := (gmap Z malloc_header).

Record mstate := mk_mstate { hdrs : hstore; pads : gmap Z padding_header }.

Definition hdrs_l : lens mstate hstore := Lens hdrs (λ h s, mk_mstate h (pads s)).

Definition get_hdr (a : Z) : M mstate malloc_header := zoom hdrs_l (load a).
Definition upd_hdr (a : Z) (f : malloc_header → malloc_header) : M mstate () := zoom hdrs_l (update a f).
(** stores that turn raw memory into a header *)
Definition put_hdr (a : Z) (h : malloc_header) : M mstate () :=
  modify (λ s, mk_mstate (<[a := h]> (hdrs s)) (pads s)).
Definition put_pad (a : Z) (p : padding_header) : M mstate () :=
  modify (λ s, mk_mstate (hdrs s) (<[a := p]> (pads s))).
Definition get_pad (a : Z) : M mstate padding_header :=
  p ← gets (λ s, pads s !! a); deref p.

(** [LENGTH_TO_RECYCLE_BIN_INDEX(len)]: a signed comparison *)
Definition _bin_len : list Z :=
  [0x10; 0x20; 0x40; 0x80; 0x100; 0x200; 0x400; 0x800; 0x1000; 0x2000; 0x4000; 0x8000].
Fixpoint bin_scan (lens : list Z) (idx : Z) (len : Z) : Z :=
  match lens with
  | [] => idx
  | b :: lens => if len <=? b then idx else bin_scan lens (idx + 1) len
  end.
Definition LENGTH_TO_RECYCLE_BIN_INDEX (len : Z) : Z := bin_scan _bin_len 0 len.

(** [VALIDATE_ALIGNMENT(align)] *)
Fixpoint validate_loop (n : nat) (idx : Z) (align : Z) : M mstate () :=
  match n with
  | O => mret ()
  | S n =>
      if ctrue (Z.land align (i32 (Z.shiftl 1 idx)))
      then ASSERT (align =? i32 (Z.shiftl 1 idx))
      else validate_loop n (idx + 1) align
  end.
Definition VALIDATE_ALIGNMENT (align : Z) : M mstate () :=
  ASSERT (ctrue align) ;;
  validate_loop 32 0 align.

Section malloc.
(** the address of [_recycle_bins] *)
Variable bins : Z.

Definition bin (i : Z) : Z := bins + HDR * i.

(** [NEXT_BLOCK(hdr)] *)
Definition NEXT_BLOCK (hdr : Z) : M mstate Z :=
  h ← get_hdr hdr;
  mret (if u32 (size h + hdr) <? KERNEL_HEAP_TOP then u32 (size h + hdr) else NULL).

(** the unlinking of a chunk from its bin, in [__malloc] (4th step) and in
    [__free] (of the next block) *)
Definition detach_chunk (hdr : Z) : M mstate () :=
  h ← get_hdr hdr;
  ASSERT (ctrue (prev h)) ;;
  upd_hdr (prev h) (set_next (next h)) ;;
  when (ctrue (next h)) (upd_hdr (next h) (set_prev (prev h))).

(** the first chunk of the bin that is at least as large as [hsize] *)
Fixpoint find_larger (fuel : nat) (hsize : Z) (_ptr : Z) : M mstate Z :=
  match fuel with
  | O => fail Diverge
  | S fuel =>
      if ctrue _ptr then
        p ← get_hdr _ptr;
        if size p >=? hsize then mret _ptr else find_larger fuel hsize (next p)
      else mret NULL
  end.

(** [for (; _ptr->next; _ptr = _ptr->next);] *)
Fixpoint find_tail (fuel : nat) (_ptr : Z) : M mstate Z :=
  match fuel with
  | O => fail Diverge
  | S fuel =>
      p ← get_hdr _ptr;
      if ctrue (next p) then find_tail fuel (next p) else mret _ptr
  end.

(** the second half of [__free]: into its bin, before the first chunk that is
    at least as large *)
Definition insert_chunk (hdr : Z) : M mstate () :=
  h ← get_hdr hdr;
  let avail_size := i32 (size h - HDR - PAD) in
  let bin_index := LENGTH_TO_RECYCLE_BIN_INDEX avail_size in
  b ← get_hdr (bin bin_index);
  fuel ← gets (λ s, S (base.size (hdrs s)));
  _ptr ← find_larger fuel (size h) (next b);
  upd_hdr hdr (set_free true) ;;
  upd_hdr hdr (set_padding 0) ;;
  if ctrue _ptr then
    p ← get_hdr _ptr;
    upd_hdr hdr (set_prev (prev p)) ;;
    upd_hdr hdr (set_next _ptr) ;;
    upd_hdr _ptr (set_prev hdr) ;;
    h ← get_hdr hdr;
    upd_hdr (prev h) (set_next hdr)
  else
    _ptr ← find_tail fuel (bin bin_index);
    upd_hdr hdr (set_prev _ptr) ;;
    upd_hdr hdr (set_next NULL) ;;
    upd_hdr _ptr (set_next hdr).

Definition __free (hdr : Z) : M mstate () :=
  next_hdr ← NEXT_BLOCK hdr;
  h ← get_hdr hdr;
  ASSERT (HDR <=? size h) ;;
  when (ctrue next_hdr) (
    nh ← get_hdr next_hdr;
    when (hfree nh) (
      ASSERT (magic nh =? MALLOC_MAGIC) ;;
      detach_chunk next_hdr ;;
      upd_hdr hdr (λ h, set_size (u32 (size h + size nh)) h))) ;;
  insert_chunk hdr.

(** padding in front of the user pointer *)
Definition padding_of (hdr align : Z) : Z :=
  let mask := u32 (align - 1) in
  let usr_ptr := u32 (hdr + HDR + PAD) in
  if ctrue (Z.land usr_ptr mask) then u32 (align - Z.land usr_ptr mask) else 0.

Definition __malloc (hdr len align : Z) : M mstate Z :=
  let mask := u32 (align - 1) in
  h ← get_hdr hdr;
  ASSERT (hfree h) ;;
  ASSERT (magic h =? MALLOC_MAGIC) ;;
  VALIDATE_ALIGNMENT align ;;
  if u32 (len + HDR + PAD) >? size h then mret NULL else
  let padding := padding_of hdr align in
  let usr_ptr := u32 (u32 (hdr + HDR + PAD) + padding) in
  ASSERT (! Z.land usr_ptr mask) ;;
  if u32 (len + HDR + PAD + padding) >? size h then mret NULL else
  let left := u32 (size h - HDR - PAD - padding - len) in
  detach_chunk hdr ;;
  hdr1 ← (if left >? HDR + PAD then
            h ← get_hdr hdr;
            let hdr1 := u32 (hdr + size h - left) in
            put_hdr hdr1 (mk_hdr 0 0 left 0 true MALLOC_MAGIC) ;;
            upd_hdr hdr (λ h, set_size (u32 (size h - left)) h) ;;
            mret hdr1
          else mret NULL);
  upd_hdr hdr (set_prev 0) ;;
  upd_hdr hdr (set_next 0) ;;
  upd_hdr hdr (set_padding (u16 padding)) ;;
  upd_hdr hdr (set_free false) ;;
  put_pad (u32 (hdr + HDR + padding)) (mk_pad (u16 padding) false MALLOC_MAGIC) ;;
  __free hdr1 ;;
  mret usr_ptr.

(** the inner loop of [malloc_align]: the chunks of one bin *)
Fixpoint bin_loop (fuel : nat) (len align free_chunk_addr : Z) : M mstate Z :=
  match fuel with
  | O => fail Diverge
  | S fuel =>
      if ctrue free_chunk_addr then
        user_ptr ← __malloc free_chunk_addr len align;
        if ctrue user_ptr then mret user_ptr else
        h ← get_hdr free_chunk_addr;
        bin_loop fuel len align (next h)
      else mret NULL
  end.

(** the outer loop: [n] bins from [bin_idx] *)
Fixpoint bins_loop (n : nat) (len align bin_idx : Z) : M mstate Z :=
  match n with
  | O => mret NULL
  | S n =>
      b ← get_hdr (bin bin_idx);
      fuel ← gets (λ s, S (base.size (hdrs s)));
      user_ptr ← bin_loop fuel len align (next b);
      if ctrue user_ptr then mret user_ptr else bins_loop n len align (bin_idx + 1)
  end.

Definition malloc_align (len align : Z) : M mstate Z :=
  let bin_idx := LENGTH_TO_RECYCLE_BIN_INDEX len in
  bins_loop (Z.to_nat (RECYCLE_BIN_SIZE - bin_idx)) len align bin_idx.

Definition malloc (len : Z) : M mstate Z := malloc_align len 1.

Definition free (mem : Z) : M mstate () :=
  let pad := u32 (mem - PAD) in
  padding_hdr ← get_pad pad;
  ASSERT (pmagic padding_hdr =? MALLOC_MAGIC) ;;
  let malloc_hdr := u32 (pad - ppadding padding_hdr - HDR) in
  h ← get_hdr malloc_hdr;
  if hfree h then mret () else __free malloc_hdr.

(** [memset(_recycle_bins, 0, ..)] and the single chunk in the last bin *)
Definition zero_hdr : malloc_header := mk_hdr 0 0 0 0 false 0.
Definition clear_bins (h : hstore) : hstore :=
  foldr (λ i h, <[bin (Z.of_nat i) := zero_hdr]> h) h (seq 0 13).

Definition malloc_init : M mstate () :=
  modify (λ s, mk_mstate (clear_bins (hdrs s)) (pads s)) ;;
  put_hdr KERNEL_HEAP_BOTTOM
    (mk_hdr 0 0 (KERNEL_HEAP_TOP - KERNEL_HEAP_BOTTOM) 0 true MALLOC_MAGIC) ;;
  upd_hdr KERNEL_HEAP_BOTTOM (set_prev (bin MISC_BIN)) ;;
  upd_hdr (bin MISC_BIN) (set_next KERNEL_HEAP_BOTTOM).
End malloc.

(** ** Field access *)

Definition nxt (σ : hstore) (a : Z) : Z := from_option next 0 (σ !! a).
Definition prv (σ : hstore) (a : Z) : Z := from_option prev 0 (σ !! a).

(** everything but the links of a header *)
Definition data (h : malloc_header) : Z * Z * bool * Z := (size h, padding h, hfree h, magic h).
Definition same_data (σ σ' : hstore) : Prop := ∀ a, data <$> σ' !! a = data <$> σ !! a.

Lemma get_hdr_ok s a h : hdrs s !! a = Some h → get_hdr a s = Ok (h, s).
Proof.
  intros Hh. unfold get_hdr. rewrite (zoom_ok _ _ _ h (hdrs s)); [by destruct s|by apply load_ok].
Qed.

Lemma get_hdr_run {A} s a h (k : malloc_header → M mstate A) :
  hdrs s !! a = Some h → mbind k (get_hdr a) s = k h s.
Proof. intros Hh. apply bind_ok. by apply get_hdr_ok. Qed.

Lemma upd_hdr_ok s a f :
  is_Some (hdrs s !! a) → upd_hdr a f s = Ok ((), mk_mstate (alter f a (hdrs s)) (pads s)).
Proof.
  intros [h Hh]. unfold upd_hdr. erewrite zoom_ok by (by apply update_ok). simpl.
  do 3 f_equal. apply map_eq. intros b. destruct (decide (a = b)) as [->|Hne].
  - by rewrite lookup_insert_eq, lookup_alter_eq, Hh.
  - by rewrite lookup_insert_ne, lookup_alter_ne.
Qed.

Lemma upd_hdr_run {A} s a f (k : () → M mstate A) :
  is_Some (hdrs s !! a) →
  mbind k (upd_hdr a f) s = k () (mk_mstate (alter f a (hdrs s)) (pads s)).
Proof. intros Hh. apply bind_ok. by apply upd_hdr_ok. Qed.

Lemma alter_some (σ : hstore) f a b : is_Some (σ !! b) → is_Some (alter f a σ !! b).
Proof. rewrite <-!elem_of_dom, dom_alter. done. Qed.

Lemma nxt_alter σ f a b :
  nxt (alter f a σ) b = if decide (a = b) then from_option (λ h, next (f h)) 0 (σ !! b) else nxt σ b.
Proof.
  unfold nxt. case_decide as E; [subst; rewrite lookup_alter_eq; by destruct (σ !! b)|].
  by rewrite lookup_alter_ne.
Qed.

Lemma prv_alter σ f a b :
  prv (alter f a σ) b = if decide (a = b) then from_option (λ h, prev (f h)) 0 (σ !! b) else prv σ b.
Proof.
  unfold prv. case_decide as E; [subst; rewrite lookup_alter_eq; by destruct (σ !! b)|].
  by rewrite lookup_alter_ne.
Qed.

Lemma same_data_alter (σ : hstore) f a : (∀ h, data (f h) = data h) → same_data σ (alter f a σ).
Proof.
  intros Hf b. destruct (decide (a = b)) as [->|]; [|by rewrite lookup_alter_ne].
  rewrite lookup_alter_eq. destruct (σ !! b); simpl; by rewrite ?Hf.
Qed.

Lemma same_data_refl σ : same_data σ σ.
Proof. done. Qed.

Lemma same_data_trans σ1 σ2 σ3 : same_data σ1 σ2 → same_data σ2 σ3 → same_data σ1 σ3.
Proof. intros H1 H2 a. by rewrite H2, H1. Qed.

Lemma same_data_some σ σ' a : same_data σ σ' → is_Some (σ !! a) → is_Some (σ' !! a).
Proof. intros H [h Hh]. specialize (H a). rewrite Hh in H. destruct (σ' !! a); [eauto|done]. Qed.

Lemma same_data_lookup σ σ' a h :
  same_data σ σ' → σ !! a = Some h → ∃ h', σ' !! a = Some h' ∧ data h' = data h.
Proof.
  intros H Hh. specialize (H a). rewrite Hh in H. destruct (σ' !! a) as [h'|]; [|done].
  exists h'. split; [done|]. by apply (inj Some).
Qed.

(** ** Bin lists *)

(** the chunks [l] linked from the header at [p] *)
Fixpoint chain (σ : hstore) (p : Z) (l : list Z) : Prop :=
  match l with
  | [] => nxt σ p = 0
  | x :: l => nxt σ p = x ∧ prv σ x = p ∧ chain σ x l
  end.

Lemma chain_ext σ σ' p l :
  (∀ a, a ∈ p :: l → nxt σ' a = nxt σ a) → (∀ a, a ∈ l → prv σ' a = prv σ a) →
  chain σ p l → chain σ' p l.
Proof.
  revert p. induction l as [|x l IH]; intros p Hn Hp; simpl.
  - intros <-. apply Hn. by left.
  - intros (H1 & H2 & H3). split_and!.
    + rewrite <-H1. apply Hn. by left.
    + rewrite <-H2. apply Hp. by left.
    + apply IH; [|intros a Ha; apply Hp; by right|done].
      intros a Ha. apply Hn. by right.
Qed.

(** the last of [p :: l] *)
Fixpoint lastp (p : Z) (l : list Z) : Z := match l with [] => p | x :: l => lastp x l end.

Lemma lastp_elem p l : lastp p l ∈ p :: l.
Proof. revert p. induction l as [|x l IH]; intros p; [by left|]. right. apply IH. Qed.

Lemma chain_app σ p l1 x l2 :
  chain σ p (l1 ++ x :: l2) → nxt σ (lastp p l1) = x ∧ prv σ x = lastp p l1 ∧ chain σ x l2.
Proof. revert p. induction l1 as [|y l1 IH]; intros p; simpl; [done|]. intros (_ & _ & H). by apply IH. Qed.

Lemma chain_nxt σ p l1 l2 : chain σ p (l1 ++ l2) → nxt σ (lastp p l1) = default 0 (head l2).
Proof.
  destruct l2 as [|x l2]; simpl; [|by intros (? & _)%chain_app].
  rewrite app_nil_r. revert p. induction l1 as [|y l1 IH]; intros p; simpl; [done|].
  intros (_ & _ & H). by apply IH.
Qed.

(** replacing what follows the first part of a chain *)
Lemma chain_cut σ σ' p l1 l2 l :
  NoDup (p :: l1 ++ l2) → chain σ p (l1 ++ l2) →
  (∀ a, a ∈ p :: l1 → a ≠ lastp p l1 → nxt σ' a = nxt σ a) →
  (∀ a, a ∈ l1 → prv σ' a = prv σ a) →
  chain σ' (lastp p l1) l → chain σ' p (l1 ++ l).
Proof.
  revert p. induction l1 as [|x l1 IH]; intros p Hnd Hc Hn Hp Hl; [done|].
  simpl in Hc, Hnd, Hn, Hl. destruct Hc as (H1 & H2 & H3). apply NoDup_cons in Hnd as [Hpn Hnd].
  simpl. split_and!.
  - rewrite <-H1. apply Hn; [by left|]. intros E. apply Hpn. rewrite E.
    pose proof (lastp_elem x l1) as Hel. rewrite elem_of_cons, elem_of_app in *. tauto.
  - rewrite <-H2. apply Hp. by left.
  - apply IH; [done|done| |  |done].
    + intros a Ha. apply Hn. by right.
    + intros a Ha. apply Hp. by right.
Qed.

(** unlinking [x] *)
Lemma chain_remove σ σ' p l1 x l2 :
  NoDup (p :: l1 ++ x :: l2) → chain σ p (l1 ++ x :: l2) →
  (∀ a, a ∈ p :: l1 ++ l2 → nxt σ' a = if decide (a = lastp p l1) then nxt σ x else nxt σ a) →
  (∀ a, a ∈ l1 ++ l2 → prv σ' a = if decide (head l2 = Some a) then lastp p l1 else prv σ a) →
  chain σ' p (l1 ++ l2).
Proof.
  intros Hnd Hc Hn Hp. pose proof (chain_app _ _ _ _ _ Hc) as (E1 & E2 & Hc2).
  pose proof (lastp_elem p l1) as Hlast.
  apply (chain_cut σ _ p l1 (x :: l2)); [done|done| | |].
  - intros a Ha Hne. rewrite Hn, decide_False; [done|done|]. rewrite elem_of_cons, elem_of_app in *. tauto.
  - intros a Ha. rewrite Hp by (apply elem_of_app; by left). rewrite decide_False; [done|].
    destruct l2 as [|y l2]; [done|]. intros [= ->]. apply NoDup_cons in Hnd as [_ Hnd].
    apply NoDup_app in Hnd as (_ & Hd & _). apply (Hd _ Ha). right. by left.
  - assert (∀ a, a ∈ l2 → a ≠ lastp p l1) as Hne.
    { intros a Ha ->. change (p :: l1 ++ x :: l2) with ((p :: l1) ++ x :: l2) in Hnd.
      apply NoDup_app in Hnd as (_ & Hd & _). apply (Hd _ Hlast). by right. }
    assert (lastp p l1 ∈ p :: l1 ++ l2) by (rewrite elem_of_cons, elem_of_app in *; tauto).
    destruct l2 as [|y l2]; simpl in Hc2 |- *; [by rewrite Hn, decide_True by done|].
    destruct Hc2 as (F1 & F2 & F3). split_and!.
    + by rewrite Hn, decide_True by done.
    + rewrite Hp by (apply elem_of_app; right; by left). by rewrite decide_True.
    + eapply chain_ext; [| |exact F3].
      * intros a Ha. rewrite Hn, decide_False; [done|by apply Hne|].
        right. apply elem_of_app. by right.
      * intros a Ha. rewrite Hp by (apply elem_of_app; right; by right).
        rewrite decide_False; [done|]. simpl. intros [= ->].
        apply NoDup_cons in Hnd as [_ Hnd]. apply NoDup_app in Hnd as (_ & _ & Hnd).
        apply NoDup_cons in Hnd as [_ Hnd]. by apply NoDup_cons in Hnd as [? _].
Qed.

(** linking [x] in *)
Lemma chain_insert σ σ' p l1 x l2 :
  NoDup (p :: l1 ++ x :: l2) → chain σ p (l1 ++ l2) →
  (∀ a, a ∈ p :: l1 ++ l2 → nxt σ' a = if decide (a = lastp p l1) then x else nxt σ a) →
  (∀ a, a ∈ l1 ++ l2 → prv σ' a = if decide (head l2 = Some a) then x else prv σ a) →
  nxt σ' x = default 0 (head l2) → prv σ' x = lastp p l1 →
  chain σ' p (l1 ++ x :: l2).
Proof.
  intros Hnd Hc Hn Hp Hnx Hpx. pose proof (lastp_elem p l1) as Hlast.
  assert (NoDup (p :: l1 ++ l2)) as Hnd'.
  { change (p :: l1 ++ x :: l2) with ((p :: l1) ++ x :: l2) in Hnd. by apply NoDup_middle in Hnd as (_ & _ & ?). }
  apply (chain_cut σ _ p l1 l2); [done|done| | |].
  - intros a Ha Hne. rewrite Hn, decide_False; [done|done|]. rewrite elem_of_cons, elem_of_app in *. tauto.
  - intros a Ha. rewrite Hp by (apply elem_of_app; by left). rewrite decide_False; [done|].
    destruct l2 as [|y l2]; [done|]. intros [= ->]. apply NoDup_cons in Hnd' as [_ Hnd'].
    apply NoDup_app in Hnd' as (_ & Hd & _). apply (Hd _ Ha). by left.
  - simpl. split_and!; [|done|].
    { rewrite Hn, decide_True; [done|done|]. rewrite elem_of_cons, elem_of_app in *. tauto. }
    assert (∀ a, a ∈ l2 → a ≠ lastp p l1) as Hne.
    { intros a Ha ->. change (p :: l1 ++ l2) with ((p :: l1) ++ l2) in Hnd'.
      apply NoDup_app in Hnd' as (_ & Hd & _). by apply (Hd _ Hlast). }
    destruct l2 as [|y l2]; simpl in *; [done|].
    apply chain_app in Hc as (F1 & F2 & F3). split_and!; [done| |].
    + rewrite Hp by (apply elem_of_app; right; by left). by rewrite decide_True.
    + eapply chain_ext; [| |exact F3].
      * intros a Ha. rewrite Hn, decide_False; [done|by apply Hne|].
        right. apply elem_of_app. by right.
      * intros a Ha. rewrite Hp by (apply elem_of_app; right; by right).
        rewrite decide_False; [done|]. simpl. intros [= ->].
        apply NoDup_cons in Hnd' as [_ Hnd']. apply NoDup_app in Hnd' as (_ & _ & Hnd').
        by apply NoDup_cons in Hnd' as [? _].
Qed.

(** ** The recycle bins *)

Lemma concat_insert (L : list (list Z)) i l :
  L !! i = Some l →
  ∃ rest, concat L ≡ₚ l ++ rest ∧ (∀ l', concat (<[i := l']> L) ≡ₚ l' ++ rest) ∧
          (∀ j l', L !! j = Some l' → j ≠ i → l' ⊆ rest).
Proof.
  intros H. apply list_elem_of_split_length in H as (L1 & L2 & -> & ->).
  exists (concat L1 ++ concat L2). split_and!.
  - rewrite concat_app. simpl. by rewrite Permutation_app_swap_app.
  - intros l'. rewrite (insert_app_r_alt _ _ _ _ (Nat.le_refl _)), Nat.sub_diag. simpl.
    rewrite concat_app. simpl. by rewrite Permutation_app_swap_app.
  - intros j l' Hj Hne a Ha. apply elem_of_app. rewrite !list_elem_of_In, !in_concat.
    destruct (decide (j < length L1)%nat) as [Hlt|Hge].
    + left. rewrite lookup_app_l in Hj by done. exists l'. rewrite <-!list_elem_of_In.
      split; [by eapply list_elem_of_lookup_2|done].
    + right. rewrite lookup_app_r in Hj by lia. destruct (j - length L1)%nat eqn:E; [lia|].
      simpl in Hj. exists l'. rewrite <-!list_elem_of_In. split; [by eapply list_elem_of_lookup_2|done].
Qed.

Section bins.
Variable bins : Z.
Hypothesis bins_place : 0 < bins ∧ bins + 208 ≤ KERNEL_HEAP_BOTTOM.
Abbreviation head_of i := (bin bins (Z.of_nat i)).

(** [L !! i] are the free chunks linked in bin [i] *)
Record bins_ok (σ : hstore) (L : list (list Z)) : Prop := {
  bk_len : length L = 13%nat;
  bk_chain : ∀ i l, L !! i = Some l → chain σ (head_of i) l;
  bk_nodup : NoDup (concat L);
  bk_range : ∀ a, a ∈ concat L → KERNEL_HEAP_BOTTOM ≤ a;
  bk_dom : ∀ a, a ∈ concat L → is_Some (σ !! a);
  bk_heads : ∀ i, (i < 13)%nat → is_Some (σ !! head_of i) }.

Lemma head_of_inj i j : head_of i = head_of j → i = j.
Proof. unfold bin, HDR. lia. Qed.

Lemma head_of_range i : (i < 13)%nat → 0 < head_of i < KERNEL_HEAP_BOTTOM.
Proof. unfold bin, HDR. lia. Qed.

Lemma bins_elem σ L i l a : bins_ok σ L → L !! i = Some l → a ∈ l → a ∈ concat L.
Proof.
  intros _ Hi Ha. rewrite list_elem_of_In, in_concat. exists l. rewrite <-!list_elem_of_In.
  split; [by eapply list_elem_of_lookup_2|done].
Qed.

Lemma bins_head_nodup σ L i l : bins_ok σ L → L !! i = Some l → NoDup (head_of i :: l).
Proof.
  intros Hok Hi. destruct (concat_insert L i l Hi) as (rest & HP & _).
  pose proof (lookup_lt_Some _ _ _ Hi) as Hlt. rewrite (bk_len _ _ Hok) in Hlt.
  constructor.
  - intros Ha. pose proof (bk_range _ _ Hok _ (bins_elem _ _ _ _ _ Hok Hi Ha)).
    pose proof (head_of_range i Hlt). lia.
  - pose proof (bk_nodup _ _ Hok) as Hnd. rewrite HP in Hnd. by apply NoDup_app in Hnd as [? _].
Qed.

(** changing one bin *)
Lemma bins_ok_change σ σ' L i l l' :
  bins_ok σ L → L !! i = Some l → same_data σ σ' →
  chain σ' (head_of i) l' →
  NoDup l' → (∀ a, a ∈ l' → KERNEL_HEAP_BOTTOM ≤ a ∧ is_Some (σ !! a) ∧ (a ∈ concat L → a ∈ l)) →
  (∀ a, a ∉ head_of i :: l ++ l' → nxt σ' a = nxt σ a ∧ prv σ' a = prv σ a) →
  bins_ok σ' (<[i := l']> L).
Proof.
  intros Hok Hi Hsd Hc Hnd Hl' Hframe. destruct (concat_insert L i l Hi) as (rest & HP & HP' & Hsub).
  pose proof (lookup_lt_Some _ _ _ Hi) as Hlt. pose proof Hok as [Hlen Hch Hnd0 Hrange Hdom Hheads].
  rewrite Hlen in Hlt. rewrite HP in Hnd0. apply NoDup_app in Hnd0 as (Hndl & Hdis & Hndr).
  assert (∀ a, a ∈ rest → a ∈ concat L) as Hrest.
  { intros a Ha. rewrite HP. apply elem_of_app. by right. }
  assert (∀ a, a ∈ rest → a ∉ l') as Hdis'.
  { intros a Ha Hal. apply (Hdis a); [|done]. apply Hl'; [done|]. by apply Hrest. }
  split.
  - by rewrite length_insert.
  - intros j lj Hj. destruct (decide (i = j)) as [<-|Hne].
    { rewrite list_lookup_insert_eq in Hj by lia. by simplify_eq. }
    rewrite list_lookup_insert_ne in Hj by done. pose proof (lookup_lt_Some _ _ _ Hj) as Hjlt.
    rewrite Hlen in Hjlt. pose proof (Hsub j lj Hj (not_eq_sym Hne)) as Hsubj.
    assert (∀ a, a ∈ head_of j :: lj → a ∉ head_of i :: l ++ l') as Hout.
    { intros a Ha. pose proof (head_of_range i Hlt). pose proof (head_of_range j Hjlt).
      rewrite elem_of_cons, elem_of_app. apply elem_of_cons in Ha as [->|Ha].
      - intros [E|[Ha|Ha]].
        + by apply head_of_inj in E.
        + pose proof (Hrange _ (bins_elem _ _ _ _ _ Hok Hi Ha)). lia.
        + pose proof (proj1 (Hl' _ Ha)). lia.
      - pose proof (Hrange _ (bins_elem _ _ _ _ _ Hok Hj Ha)). intros [E|[Hal|Hal]]; [lia|..].
        + by apply (Hdis a Hal), Hsubj.
        + by apply (Hdis' a (Hsubj _ Ha)). }
    eapply chain_ext; [| |by apply Hch].
    + intros a Ha. by apply Hframe, Hout.
    + intros a Ha. apply Hframe, Hout. by right.
  - rewrite HP'. apply NoDup_app. split_and!; [done| |done]. intros a Ha Hr. by apply (Hdis' a).
  - intros a. rewrite HP', elem_of_app. intros [Ha|Ha]; [by apply Hl'|by apply Hrange, Hrest].
  - intros a. rewrite HP', elem_of_app. intros [Ha|Ha]; eapply same_data_some; try done; [by apply Hl'|by apply Hdom, Hrest].
  - intros j Hj. eapply same_data_some; [done|by apply Hheads].
Qed.

(** changes to headers outside the links keep the bins *)
Lemma bins_ok_frame σ σ' L :
  bins_ok σ L → (∀ a, is_Some (σ !! a) → is_Some (σ' !! a)) →
  (∀ a, a ∈ concat L ∨ 0 < a < KERNEL_HEAP_BOTTOM → nxt σ' a = nxt σ a ∧ prv σ' a = prv σ a) →
  bins_ok σ' L.
Proof.
  intros Hok Hdom' Hlinks. pose proof Hok as [Hlen Hch Hnd Hrange Hdom Hheads].
  split; [done| |done|done|by eauto|by eauto].
  intros i l Hi. pose proof (lookup_lt_Some _ _ _ Hi) as Hlt. rewrite Hlen in Hlt.
  eapply chain_ext; [| |by apply Hch].
  - intros a Ha. apply Hlinks. apply elem_of_cons in Ha as [->|Ha].
    + right. by apply head_of_range.
    + left. by eapply bins_elem.
  - intros a Ha. apply Hlinks. left. by eapply bins_elem.
Qed.

Lemma prv_lookup σ a h : σ !! a = Some h → prev h = prv σ a.
Proof. unfold prv. by intros ->. Qed.
Lemma nxt_lookup σ a h : σ !! a = Some h → next h = nxt σ a.
Proof. unfold nxt. by intros ->. Qed.

Lemma lastp_dom σ L i l1 l2 :
  bins_ok σ L → L !! i = Some (l1 ++ l2) →
  is_Some (σ !! lastp (head_of i) l1) ∧ 0 < lastp (head_of i) l1.
Proof.
  intros Hok Hi. pose proof (lookup_lt_Some _ _ _ Hi) as Hlt. rewrite (bk_len _ _ Hok) in Hlt.
  pose proof (lastp_elem (head_of i) l1) as [->|Ha]%elem_of_cons.
  - split; [by apply (bk_heads _ _ Hok)|by apply head_of_range].
  - assert (lastp (head_of i) l1 ∈ concat L) as Hin.
    { eapply bins_elem; [done..|]. apply elem_of_app. by left. }
    split; [by apply (bk_dom _ _ Hok)|]. apply (bk_range _ _ Hok) in Hin. unfold KERNEL_HEAP_BOTTOM in *. lia.
Qed.

Lemma detach_chunk_ok s L i l1 x l2 :
  bins_ok (hdrs s) L → L !! i = Some (l1 ++ x :: l2) →
  ∃ σ', detach_chunk x s = Ok ((), mk_mstate σ' (pads s)) ∧ same_data (hdrs s) σ' ∧
        bins_ok σ' (<[i := l1 ++ l2]> L).
Proof.
  intros Hok Hi. pose proof Hok as [Hlen Hch Hnd Hrange Hdom Hheads].
  pose proof (Hch _ _ Hi) as Hc. pose proof (bins_head_nodup _ _ _ _ Hok Hi) as Hndi.
  pose proof (chain_app _ _ _ _ _ Hc) as (E1 & E2 & Hc2).
  pose proof (lastp_dom _ _ _ _ _ Hok Hi) as [Hld Hlp].
  assert (∀ a, a ∈ l1 ++ x :: l2 → a ∈ concat L) as Hin by (intros a Ha; by eapply bins_elem).
  destruct (Hdom x) as [h Hh]; [apply Hin, elem_of_app; right; by left|].
  set (p := head_of i) in *.
  set (σ1 := alter (set_next (next h)) (lastp p l1) (hdrs s)).
  set (σ2 := if ctrue (next h) then alter (set_prev (lastp p l1)) (next h) σ1 else σ1).
  assert (next h = default 0 (head l2)) as Enext.
  { rewrite (nxt_lookup _ _ _ Hh). by apply (chain_nxt _ x []). }
  assert (∀ y, head l2 = Some y → y ∈ l2 ∧ y ≠ 0) as Hy.
  { destruct l2 as [|y l2]; [done|]. simpl. intros ? [= <-]. split; [by left|].
    assert (y ∈ concat L) as Hyc by (apply Hin, elem_of_app; right; right; by left).
    apply Hrange in Hyc. unfold KERNEL_HEAP_BOTTOM in *. lia. }
  assert (ctrue (next h) = bool_decide (is_Some (head l2))) as Ect.
  { rewrite Enext. destruct (head l2) as [y|] eqn:E; [|done].
    rewrite bool_decide_eq_true_2 by eauto. apply ctrue_true. by apply Hy. }
  exists σ2. split_and!.
  - unfold detach_chunk. rewrite (get_hdr_run _ _ _ _ Hh).
    rewrite (prv_lookup _ _ _ Hh), E2. mstep. rewrite upd_hdr_run by done.
    unfold σ2. destruct (ctrue (next h)) eqn:Ec; [|done]. unfold when.
    rewrite upd_hdr_ok; [done|]. apply alter_some. rewrite Enext.
    apply ctrue_true in Ec. rewrite Enext in Ec. destruct (head l2) as [y|] eqn:Ey; [|done]. simpl.
    apply Hdom, Hin, elem_of_app. right. right. by apply Hy.
  - unfold σ2, σ1. destruct (ctrue (next h)).
    + eapply same_data_trans; apply same_data_alter; done.
    + by apply same_data_alter.
  - assert (∀ a, nxt σ2 a = if decide (lastp p l1 = a) then next h else nxt (hdrs s) a) as Hn.
    { intros a. transitivity (nxt σ1 a).
      - unfold σ2. destruct (ctrue (next h)); [|done]. rewrite nxt_alter. case_decide; [|done].
        subst. unfold nxt. by destruct (σ1 !! _).
      - unfold σ1. rewrite nxt_alter. case_decide; [|done]. subst. destruct Hld as [h' ->]. done. }
    assert (∀ a, prv σ2 a = if decide (head l2 = Some a) then lastp p l1 else prv (hdrs s) a) as Hp.
    { intros a. unfold σ2. rewrite Ect. destruct (head l2) as [y|] eqn:Ey.
      - rewrite bool_decide_eq_true_2 by eauto. rewrite Enext. simpl. rewrite prv_alter. case_decide as E.
        + subst y. rewrite decide_True by done.
          assert (is_Some (σ1 !! a)) as [h' ->]; [|done]. apply alter_some, Hdom, Hin, elem_of_app.
          right. right. by apply Hy.
        + rewrite decide_False by congruence. unfold σ1. rewrite prv_alter. case_decide; [|done].
          subst. unfold prv. by destruct (hdrs s !! _).
      - rewrite bool_decide_eq_false_2 by (by intros [? ?]). rewrite decide_False by done.
        unfold σ1. rewrite prv_alter. case_decide; [|done]. subst. unfold prv. by destruct (hdrs s !! _). }
    eapply (bins_ok_change (hdrs s)); [done|exact Hi| | | | |].
    + unfold σ2, σ1. destruct (ctrue (next h)).
      * eapply same_data_trans; apply same_data_alter; done.
      * by apply same_data_alter.
    + fold p. eapply (chain_remove (hdrs s)); [exact Hndi|exact Hc| |].
      * intros a Ha. rewrite Hn. rewrite (nxt_lookup _ _ _ Hh). by repeat case_decide; subst.
      * intros a Ha. apply Hp.
    + apply NoDup_cons in Hndi as [_ Hndi]. by apply NoDup_middle in Hndi as (_ & _ & ?).
    + intros a Ha. assert (a ∈ l1 ++ x :: l2) as Ha' by (rewrite elem_of_app, elem_of_cons in *; tauto).
      split_and!; [by apply Hrange, Hin|by apply Hdom, Hin|done].
    + intros a Ha. rewrite elem_of_cons, !elem_of_app in Ha. fold p in Ha. split.
      * rewrite Hn, decide_False; [done|]. intros <-.
        pose proof (lastp_elem p l1) as Hle. rewrite elem_of_cons in Hle. tauto.
      * rewrite Hp, decide_False; [done|]. intros E. destruct (Hy a E). tauto.
Qed.

Definition hsize (σ : hstore) (a : Z) : Z := from_option size 0 (σ !! a).

Lemma hsize_lookup σ a h : σ !! a = Some h → size h = hsize σ a.
Proof. unfold hsize. by intros ->. Qed.

Lemma find_larger_ok fuel s n p l :
  chain (hdrs s) p l → (∀ a, a ∈ l → a ≠ 0 ∧ is_Some (hdrs s !! a)) → (length l < fuel)%nat →
  ∃ l1 l2, l = l1 ++ l2 ∧ find_larger fuel n (nxt (hdrs s) p) s = Ok (default 0 (head l2), s) ∧
    (∀ y, y ∈ l1 → hsize (hdrs s) y < n) ∧ (∀ y, head l2 = Some y → n ≤ hsize (hdrs s) y).
Proof.
  revert p l. induction fuel as [|fuel IH]; intros p l Hc Hl Hf; [lia|]. simpl.
  destruct l as [|x l]; simpl in Hc.
  { rewrite Hc. exists [], []. split_and!; [done|done|by intros ? ?%not_elem_of_nil|done]. }
  destruct Hc as (-> & _ & Hc). destruct (Hl x) as [Hx [h Hh]]; [by left|].
  rewrite (proj2 (ctrue_true x)), (get_hdr_run _ _ _ _ Hh), (hsize_lookup _ _ _ Hh) by done.
  destruct (hsize (hdrs s) x >=? n) eqn:E.
  - exists [], (x :: l). split_and!; [done|done|by intros ? ?%not_elem_of_nil|]. intros ? [= <-]. lia.
  - rewrite (nxt_lookup _ _ _ Hh).
    destruct (IH x l) as (l1 & l2 & -> & Hr & H1 & H2);
      [done|intros a Ha; apply Hl; by right|simpl in Hf; lia|].
    exists (x :: l1), l2. split_and!; [done|done| |done].
    intros y [->|Hy]%elem_of_cons; [lia|by apply H1].
Qed.

Lemma find_tail_ok fuel s p l :
  chain (hdrs s) p l → is_Some (hdrs s !! p) → (∀ a, a ∈ l → a ≠ 0 ∧ is_Some (hdrs s !! a)) →
  (length l < fuel)%nat → find_tail fuel p s = Ok (lastp p l, s).
Proof.
  revert p l. induction fuel as [|fuel IH]; intros p l Hc [h Hh] Hl Hf; [lia|]. simpl.
  rewrite (get_hdr_run _ _ _ _ Hh), (nxt_lookup _ _ _ Hh).
  destruct l as [|x l]; simpl in Hc; [by rewrite Hc|].
  destruct Hc as (-> & _ & Hc). destruct (Hl x) as [Hx Hsx]; [by left|].
  rewrite (proj2 (ctrue_true x)) by done.
  apply (IH x l); [done|done|intros a Ha; apply Hl; by right|simpl in Hf; lia].
Qed.

Lemma bins_fuel σ L i l : bins_ok σ L → L !! i = Some l → (length l < S (base.size σ))%nat.
Proof.
  intros Hok Hi. assert (list_to_set l ⊆@{gset Z} dom σ) as Hsub.
  { intros a Ha. apply elem_of_list_to_set in Ha. apply elem_of_dom.
    eapply (bk_dom _ _ Hok), bins_elem; done. }
  apply subseteq_size in Hsub. pose proof (bins_head_nodup _ _ _ _ Hok Hi) as [_ Hnd]%NoDup_cons.
  rewrite size_list_to_set, size_dom in Hsub by done. lia.
Qed.

Lemma bins_nonnull σ L a : bins_ok σ L → a ∈ concat L → a ≠ 0.
Proof. intros Hok Ha. apply (bk_range _ _ Hok) in Ha. unfold KERNEL_HEAP_BOTTOM in *. lia. Qed.

(** the link updates of [insert_chunk], in either branch *)
Lemma link_chunk_ok σ L i l1 l2 x :
  bins_ok σ L → L !! i = Some (l1 ++ l2) → x ∉ concat L → KERNEL_HEAP_BOTTOM ≤ x → is_Some (σ !! x) →
  let p := lastp (head_of i) l1 in
  let σ1 := alter (set_next (default 0 (head l2))) x (alter (set_prev p) x σ) in
  let σ2 := match head l2 with Some y => alter (set_prev x) y σ1 | None => σ1 end in
  let σ3 := alter (set_next x) p σ2 in
  same_data σ σ3 ∧ bins_ok σ3 (<[i := l1 ++ x :: l2]> L).
Proof.
  intros Hok Hi Hx Hxr Hxd p σ1 σ2 σ3. pose proof Hok as [Hlen Hch Hnd Hrange Hdom Hheads].
  pose proof (lookup_lt_Some _ _ _ Hi) as Hlt. rewrite Hlen in Hlt. pose proof (head_of_range i Hlt) as Hhd.
  pose proof (lastp_elem (head_of i) l1) as Hlast. fold p in Hlast.
  pose proof (bins_head_nodup _ _ _ _ Hok Hi) as Hndi.
  assert (∀ a, a ∈ l1 ++ l2 → a ∈ concat L) as Hin by (intros a Ha; by eapply bins_elem).
  assert (∀ y, head l2 = Some y → y ∈ l2) as Hy by (destruct l2; intros ? [= <-]; by left).
  assert (p ≠ x) as Hpx.
  { intros ->. apply elem_of_cons in Hlast as [E|Ha]; [lia|]. apply Hx, Hin, elem_of_app. by left. }
  assert (∀ y, head l2 = Some y → y ≠ x ∧ y ≠ p) as Hyx.
  { intros y Ey%Hy. split; [intros ->; apply Hx, Hin, elem_of_app; by right|].
    intros ->. apply NoDup_cons in Hndi as [Hn Hndi]. apply elem_of_cons in Hlast as [E|Ha].
    - apply Hn. rewrite <-E. apply elem_of_app. by right.
    - apply NoDup_app in Hndi as (_ & Hd & _). by apply (Hd _ Ha). }
  pose proof (lastp_dom _ _ _ _ _ Hok Hi) as [Hpd _]. fold p in Hpd.
  assert (same_data σ σ1) as Hsd1 by (eapply same_data_trans; apply same_data_alter; done).
  assert (same_data σ1 σ2) as Hsd2.
  { unfold σ2. destruct (head l2); [by apply same_data_alter|done]. }
  assert (same_data σ σ3) as Hsd.
  { eapply same_data_trans; [exact Hsd1|]. eapply same_data_trans; [exact Hsd2|]. by apply same_data_alter. }
  split; [done|].
  assert (∀ a, nxt σ3 a = if decide (p = a) then x else if decide (x = a) then default 0 (head l2) else nxt σ a) as Hn.
  { intros a. unfold σ3. rewrite nxt_alter. case_decide as E.
    - subst a. assert (is_Some (σ2 !! p)) as [h' ->]; [|done]. by eapply same_data_some, same_data_some.
    - transitivity (nxt σ1 a).
      + unfold σ2. destruct (head l2) as [y|]; [|done]. rewrite nxt_alter. case_decide; [|done].
        subst. unfold nxt. by destruct (σ1 !! _).
      + unfold σ1. rewrite nxt_alter. case_decide as E'.
        * subst a. assert (is_Some (alter (set_prev p) x σ !! x)) as [h' ->]; [by apply alter_some|done].
        * rewrite nxt_alter. by rewrite decide_False. }
  assert (∀ a, prv σ3 a = if decide (head l2 = Some a) then x else if decide (x = a) then p else prv σ a) as Hp.
  { intros a. transitivity (prv σ2 a).
    { unfold σ3. rewrite prv_alter. case_decide; [|done]. subst. unfold prv. by destruct (σ2 !! _). }
    assert (prv σ1 a = if decide (x = a) then p else prv σ a) as H1.
    { unfold σ1. rewrite prv_alter, prv_alter. case_decide; [|done]. subst a.
      destruct Hxd as [h' Hh']. rewrite lookup_alter_eq, Hh'. done. }
    unfold σ2. destruct (head l2) as [y|] eqn:Ey; [|by rewrite decide_False].
    rewrite prv_alter. destruct (decide (y = a)) as [->|E].
    - rewrite decide_True by done.
      assert (is_Some (σ1 !! a)) as [h' ->]; [|done]. eapply same_data_some; [done|].
      apply Hdom, Hin, elem_of_app. right. by apply Hy.
    - rewrite decide_False by congruence. done. }
  assert (NoDup (l1 ++ x :: l2)) as Hndx.
  { apply NoDup_middle. apply NoDup_cons in Hndi as [_ Hndi]. split_and!; [..|done].
    - intros Ha. apply Hx, Hin, elem_of_app. by left.
    - intros Ha. apply Hx, Hin, elem_of_app. by right. }
  eapply (bins_ok_change σ); [done|exact Hi|done| |done| |].
  - apply (chain_insert σ); [|by apply Hch|..].
    + constructor; [|done]. intros Ha. rewrite elem_of_app, elem_of_cons in Ha.
      apply NoDup_cons in Hndi as [Hn' _]. rewrite elem_of_app in Hn'. 
      destruct Ha as [Ha|[Ha|Ha]]; [tauto|lia|tauto].
    + intros a Ha. rewrite Hn. fold p. destruct (decide (p = a)) as [->|Hne]; [by rewrite decide_True|].
      rewrite (decide_False (P := a = p)) by done. rewrite decide_False; [done|]. intros <-.
      apply elem_of_cons in Ha as [Ha|Ha]; [lia|]. by apply Hx, Hin.
    + intros a Ha. rewrite Hp. case_decide; [done|]. rewrite decide_False; [done|]. intros <-. by apply Hx, Hin.
    + by rewrite Hn, decide_False, decide_True by done.
    + rewrite Hp, decide_False, decide_True; [done|done|]. intros E. by destruct (Hyx _ E).
  - intros a Ha. rewrite elem_of_app, elem_of_cons in Ha. destruct (decide (a = x)) as [->|Hne].
    + split_and!; [done|done|done].
    + assert (a ∈ l1 ++ l2) as Ha' by (rewrite elem_of_app; tauto).
      split_and!; [by apply Hrange, Hin|by apply Hdom, Hin|done].
  - intros a Ha. rewrite elem_of_cons, !elem_of_app, elem_of_cons in Ha. split.
    + rewrite Hn, !decide_False; [done| |]; intros <-; [tauto|]. rewrite elem_of_cons in Hlast. tauto.
    + rewrite Hp, !decide_False; [done| |]; [intros <-; tauto|]. intros E%Hy. tauto.
Qed.

Lemma bin_scan_range lens idx len : idx ≤ bin_scan lens idx len ≤ idx + Z.of_nat (length lens).
Proof.
  revert idx. induction lens as [|b lens IH]; intros idx; simpl; [lia|].
  case_match; [lia|]. specialize (IH (idx + 1)). lia.
Qed.

Lemma bin_index_range len : 0 ≤ LENGTH_TO_RECYCLE_BIN_INDEX len ≤ 12.
Proof. apply (bin_scan_range _bin_len 0 len). Qed.

Lemma bin_scan_mono lens idx len len' :
  len ≤ len' → bin_scan lens idx len ≤ bin_scan lens idx len'.
Proof.
  intros Hle. revert idx. induction lens as [|b lens IH]; intros idx; simpl; [lia|].
  destruct (len <=? b) eqn:E.
  - case_match; [lia|]. pose proof (bin_scan_range lens (idx + 1) len'). lia.
  - rewrite (proj2 (Z.leb_gt len' b)) by lia. apply IH.
Qed.

(** the bin of a chunk of [n] bytes *)
Definition bin_of (n : Z) : nat := Z.to_nat (LENGTH_TO_RECYCLE_BIN_INDEX (n - 20)).

Lemma bin_of_head n : 0 ≤ LENGTH_TO_RECYCLE_BIN_INDEX (n - 20) →
  bin bins (LENGTH_TO_RECYCLE_BIN_INDEX (n - 20)) = head_of (bin_of n).
Proof. intros. unfold bin_of. by rewrite Z2Nat.id. Qed.

Lemma insert_chunk_ok s L x h :
  bins_ok (hdrs s) L → x ∉ concat L → KERNEL_HEAP_BOTTOM ≤ x → hdrs s !! x = Some h →
  20 ≤ size h < 2147483648 →
  ∃ l1 l2 σ', L !! bin_of (size h) = Some (l1 ++ l2) ∧
    insert_chunk bins x s = Ok ((), mk_mstate σ' (pads s)) ∧
    bins_ok σ' (<[bin_of (size h) := l1 ++ x :: l2]> L) ∧
    data <$> σ' !! x = Some (size h, 0, true, magic h) ∧
    (∀ a, a ≠ x → data <$> σ' !! a = data <$> hdrs s !! a).
Proof.
  intros Hok Hx Hxr Hh Hsz. pose proof (bin_index_range (size h - 20)) as Hidx.
  assert (bin_of (size h) < 13)%nat as Hi by (unfold bin_of; lia).
  destruct (lookup_lt_is_Some_2 L (bin_of (size h))) as [l Hl]; [by rewrite (bk_len _ _ Hok)|].
  assert (∀ a, a ∈ l → a ≠ 0 ∧ is_Some (hdrs s !! a)) as Hld.
  { intros a Ha. pose proof (bins_elem _ _ _ _ _ Hok Hl Ha) as Hc.
    split; [by eapply bins_nonnull|by apply (bk_dom _ _ Hok)]. }
  destruct (bk_heads _ _ Hok _ Hi) as [b Hb].
  destruct (find_larger_ok (S (base.size (hdrs s))) s (size h) (head_of (bin_of (size h))) l)
    as (l1 & l2 & -> & Hfind & _ & _); [by apply (bk_chain _ _ Hok)|done|by eapply bins_fuel|].
  set (σ0 := alter (set_padding 0) x (alter (set_free true) x (hdrs s))).
  assert (∀ a, nxt σ0 a = nxt (hdrs s) a ∧ prv σ0 a = prv (hdrs s) a) as Hlinks0.
  { intros a. unfold σ0, nxt, prv. destruct (decide (a = x)) as [->|].
    - by rewrite !lookup_alter_eq, Hh.
    - by rewrite !lookup_alter_ne. }
  assert (∀ a, is_Some (hdrs s !! a) → is_Some (σ0 !! a)) as Hd0 by (intros; by do 2 apply alter_some).
  assert (bins_ok σ0 L) as Hok0 by (eapply bins_ok_frame; [done|done|by intros]).
  destruct (link_chunk_ok σ0 L (bin_of (size h)) l1 l2 x) as [Hsd Hok3]; [done|done|done|done|by apply Hd0|].
  pose proof (lastp_dom _ _ _ _ _ Hok0 Hl) as [Hpd _].
  set (p := lastp (head_of (bin_of (size h))) l1) in *.
  match type of Hsd with same_data _ ?σ => set (σ3 := σ) in * end.
  exists l1, l2, σ3. split_and!; [done| |done| |].
  - unfold insert_chunk. rewrite (get_hdr_run _ _ _ _ Hh). cbv zeta.
    change (size h - HDR - PAD) with (size h - 16 - 4).
    replace (size h - 16 - 4) with (size h - 20) by lia. rewrite i32_small by lia.
    rewrite bin_of_head by lia. rewrite (get_hdr_run _ _ _ _ Hb), (nxt_lookup _ _ _ Hb). mstep.
    rewrite (bind_ok _ _ _ _ _ Hfind).
    rewrite upd_hdr_run by eauto. rewrite upd_hdr_run by (apply alter_some; eauto). cbn [hdrs pads]. fold σ0.
    generalize (eq_refl (default 0 (head l2))). generalize (default 0 (head l2)) at 1 3. intros q Eq.
    destruct l2 as [|y l2]; simpl in Eq; subst q.
    + change (ctrue 0) with false. cbv iota. rewrite app_nil_r in *.
      rewrite (bind_ok _ _ _ _ _ (find_tail_ok (S (base.size (hdrs s))) (mk_mstate σ0 (pads s)) _ l1
        (bk_chain _ _ Hok0 _ _ Hl) (bk_heads _ _ Hok0 _ Hi)
        (λ a Ha, conj (proj1 (Hld a Ha)) (Hd0 _ (proj2 (Hld a Ha)))) (bins_fuel _ _ _ _ Hok Hl))).
      fold p. rewrite upd_hdr_run by (apply Hd0; eauto).
      rewrite upd_hdr_run by (apply alter_some, Hd0; eauto).
      rewrite upd_hdr_ok; [done|]. by do 2 apply alter_some.
    + assert (y ∈ l1 ++ y :: l2) as Hy by (apply elem_of_app; right; by left).
      destruct (Hld y Hy) as [Hy0 Hyd]. rewrite (proj2 (ctrue_true y)) by done.
      destruct (Hd0 _ Hyd) as [hy Hhy].
      erewrite get_hdr_run by (simpl; exact Hhy). rewrite (prv_lookup _ _ _ Hhy).
      pose proof (chain_app _ _ _ _ _ (bk_chain _ _ Hok0 _ _ Hl)) as (_ & -> & _). fold p.
      rewrite upd_hdr_run by (apply Hd0; eauto).
      rewrite upd_hdr_run by (apply alter_some, Hd0; eauto).
      assert (x ≠ y) by (intros ->; apply Hx; by eapply bins_elem).
      rewrite upd_hdr_run by (do 2 apply alter_some; by apply Hd0). cbn [hdrs pads].
      destruct (Hd0 x) as [hx Hhx]; [eauto|].
      erewrite get_hdr_run by (simpl; rewrite lookup_alter_ne, !lookup_alter_eq, Hhx by done; reflexivity).
      simpl prev. rewrite upd_hdr_ok; [done|]. by do 3 apply alter_some.
  - rewrite (Hsd x). unfold σ0. by rewrite !lookup_alter_eq, Hh.
  - intros a Ha. rewrite (Hsd a). unfold σ0. by rewrite !lookup_alter_ne by done.
Qed.

(** ** Blocks

    The heap area is tiled by blocks; [bf] says that the block is linked in a
    recycle bin. *)
Record block := mk_blk { ba : Z; bs : Z; bf : bool }.

Fixpoint tiles (lo : Z) (B : list block) (hi : Z) : Prop :=
  match B with
  | [] => lo = hi
  | b :: B => ba b = lo ∧ 20 ≤ bs b ∧ tiles (lo + bs b) B hi
  end.

Lemma tiles_app lo B1 B2 hi :
  tiles lo (B1 ++ B2) hi ↔ ∃ mid, tiles lo B1 mid ∧ tiles mid B2 hi.
Proof.
  revert lo. induction B1 as [|b B1 IH]; intros lo; simpl; [naive_solver|].
  rewrite IH. naive_solver.
Qed.

Lemma tiles_le lo B hi : tiles lo B hi → lo ≤ hi.
Proof. revert lo. induction B as [|b B IH]; intros lo; simpl; [lia|]. intros (_ & ? & ?%IH). lia. Qed.

Lemma tiles_range lo B hi b : tiles lo B hi → b ∈ B → lo ≤ ba b ∧ ba b + bs b ≤ hi ∧ 20 ≤ bs b.
Proof.
  revert lo. induction B as [|c B IH]; intros lo; simpl; [by intros _ ?%not_elem_of_nil|].
  intros (E & Hs & Ht) [->|Hb]%elem_of_cons.
  - apply tiles_le in Ht. lia.
  - destruct (IH _ Ht Hb) as (? & ? & ?). lia.
Qed.

(** blocks do not overlap *)
Lemma tiles_disjoint lo B hi b c :
  tiles lo B hi → b ∈ B → c ∈ B → b = c ∨ ba b + bs b ≤ ba c ∨ ba c + bs c ≤ ba b.
Proof.
  revert lo. induction B as [|d B IH]; intros lo; simpl; [by intros _ ?%not_elem_of_nil|].
  intros (E & Hs & Ht) [->|Hb]%elem_of_cons [->|Hc]%elem_of_cons; [by left| | |by eapply IH].
  - destruct (tiles_range _ _ _ _ Ht Hc). lia.
  - destruct (tiles_range _ _ _ _ Ht Hb). lia.
Qed.

Lemma tiles_inj lo B hi b c : tiles lo B hi → b ∈ B → c ∈ B → ba b = ba c → b = c.
Proof.
  intros Ht Hb Hc E. destruct (tiles_disjoint _ _ _ _ _ Ht Hb Hc) as [?|Hd]; [done|].
  pose proof (tiles_range _ _ _ _ Ht Hb). pose proof (tiles_range _ _ _ _ Ht Hc). lia.
Qed.

(** no second block of that name around a block *)
Lemma tiles_fresh lo B1 b B2 hi c :
  tiles lo (B1 ++ b :: B2) hi → c ∈ B1 ++ B2 → ba c ≠ ba b.
Proof.
  intros (mid & H1 & (E & Hs & H2))%tiles_app Hc. apply elem_of_app in Hc as [Hc|Hc].
  - destruct (tiles_range _ _ _ _ H1 Hc) as (? & ? & ?). lia.
  - destruct (tiles_range _ _ _ _ H2 Hc) as (? & ? & ?). lia.
Qed.

Lemma elem_of_middle {A} (B1 B2 : list A) b c : c ∈ B1 ++ b :: B2 ↔ c = b ∨ c ∈ B1 ++ B2.
Proof. rewrite !elem_of_app, elem_of_cons. tauto. Qed.

(** the padding header in front of the user pointer of an allocated block *)
Definition pad_ok (s : mstate) (b : block) (h : malloc_header) : Prop :=
  0 ≤ padding h < 65536 ∧ padding h + 20 ≤ bs b ∧
  pads s !! (ba b + 16 + padding h) = Some (mk_pad (padding h) false MALLOC_MAGIC).

Definition hdr_ok (ex : option Z) (s : mstate) (b : block) : Prop :=
  ∃ h, hdrs s !! ba b = Some h ∧ size h = bs b ∧ magic h = MALLOC_MAGIC ∧
       (ex ≠ Some (ba b) → hfree h = bf b ∧ (bf b = false → pad_ok s b h)).

(** [ex] is the block on its way into a bin: its own header's flag and padding
    are out of date *)
Record heap_inv_ex (ex : option Z) (s : mstate) (B : list block) (L : list (list Z)) : Prop := {
  hi_tiles : tiles KERNEL_HEAP_BOTTOM B KERNEL_HEAP_TOP;
  hi_bins : bins_ok (hdrs s) L;
  hi_free : ∀ a, a ∈ concat L ↔ ∃ n, mk_blk a n true ∈ B;
  hi_bin : ∀ i l a n, L !! i = Some l → a ∈ l → mk_blk a n true ∈ B → i = bin_of n;
  hi_hdr : ∀ b, b ∈ B → hdr_ok ex s b;
  hi_null : ∃ h0, hdrs s !! 0 = Some h0 ∧ KERNEL_HEAP_TOP ≤ size h0 < 4294967296 }.

Definition heap_inv := heap_inv_ex None.

(** data of the headers but [x]'s is unchanged, so are the padding headers *)
Lemma hdr_ok_frame ex s s' b :
  hdr_ok ex s b → data <$> hdrs s' !! ba b = data <$> hdrs s !! ba b →
  (∀ a p, pads s !! a = Some p → ba b ≤ a < ba b + bs b → pads s' !! a = Some p) →
  hdr_ok ex s' b.
Proof.
  intros (h & Hh & Hs & Hm & Hex) Hd Hp. rewrite Hh in Hd.
  destruct (hdrs s' !! ba b) as [h'|] eqn:Hh'; [|done]. apply (inj Some) in Hd.
  unfold data in Hd. injection Hd as E1 E2 E3 E4.
  exists h'. split_and!; [done|congruence|congruence|]. intros Hne. destruct (Hex Hne) as [Hf Hpad].
  split; [congruence|]. intros Hb. destruct (Hpad Hb) as (Hr & Hle & Hpp). unfold pad_ok. rewrite E2.
  split_and!; [lia|lia|lia|]. apply Hp; [done|lia].
Qed.

Lemma null_frame (σ σ' : hstore) x :
  (∃ h0, σ !! 0 = Some h0 ∧ KERNEL_HEAP_TOP ≤ size h0 < 4294967296) → x ≠ 0 →
  (∀ a, a ≠ x → data <$> σ' !! a = data <$> σ !! a) →
  ∃ h0, σ' !! 0 = Some h0 ∧ KERNEL_HEAP_TOP ≤ size h0 < 4294967296.
Proof.
  intros (h0 & Hh & Hs) Hx Hd. specialize (Hd 0 (not_eq_sym Hx)). rewrite Hh in Hd.
  destruct (σ' !! 0) as [h'|]; [|done]. exists h'. split; [done|].
  apply (inj Some) in Hd. unfold data in Hd. injection Hd as E1 _ _ _. lia.
Qed.

Lemma heap_inv_bins_elem ex s B L b :
  heap_inv_ex ex s B L → b ∈ B → bf b = true → ∃ l1 l2, L !! bin_of (bs b) = Some (l1 ++ ba b :: l2).
Proof.
  intros Hinv Hb Hf. destruct b as [a n f]; simpl in *; subst f.
  assert (a ∈ concat L) as Ha by (apply (hi_free _ _ _ _ Hinv); eauto).
  rewrite list_elem_of_In, in_concat in Ha. destruct Ha as (l & Hl & Ha).
  rewrite <-list_elem_of_In in Hl. rewrite <-list_elem_of_In in Ha. apply list_elem_of_lookup in Hl as [i Hi].
  pose proof (hi_bin _ _ _ _ Hinv i l a n Hi Ha Hb) as ->.
  apply list_elem_of_split in Ha as (l1 & l2 & ->). eauto.
Qed.

(** membership in the bins after taking [a] out of bin [i], or putting it in *)
Lemma concat_remove (L : list (list Z)) i l1 a l2 c :
  L !! i = Some (l1 ++ a :: l2) → NoDup (concat L) →
  c ∈ concat (<[i := l1 ++ l2]> L) ↔ c ∈ concat L ∧ c ≠ a.
Proof.
  intros Hi Hnd. destruct (concat_insert _ _ _ Hi) as (rest & HP & HP' & _).
  rewrite HP in Hnd. rewrite HP', HP. rewrite <-app_assoc in Hnd. simpl in Hnd.
  apply NoDup_middle in Hnd as (Hn1 & Hn2 & _). rewrite elem_of_app in Hn2.
  rewrite !elem_of_app, elem_of_cons. split; [|tauto].
  intros Hc. split; [tauto|]. intros ->. tauto.
Qed.

Lemma concat_add (L : list (list Z)) i l1 a l2 c :
  L !! i = Some (l1 ++ l2) → c ∈ concat (<[i := l1 ++ a :: l2]> L) ↔ c ∈ concat L ∨ c = a.
Proof.
  intros Hi. destruct (concat_insert _ _ _ Hi) as (rest & HP & HP' & _).
  rewrite HP', HP, !elem_of_app, elem_of_cons. tauto.
Qed.

(** a chunk of another bin, or of what remains of this one *)
Lemma bin_after (L : list (list Z)) i l l' j lj c :
  <[i := l']> L !! j = Some lj → L !! i = Some l → c ∈ lj → (c ∈ l' → c ∈ l) →
  ∃ lj', L !! j = Some lj' ∧ c ∈ lj'.
Proof.
  intros Hj Hi Hc Himp. destruct (decide (i = j)) as [<-|Hne].
  - rewrite list_lookup_insert_eq in Hj by (by eapply lookup_lt_Some). simplify_eq. eauto.
  - rewrite list_lookup_insert_ne in Hj by done. eauto.
Qed.

Lemma take_chunk_ok ex s B L y m :
  heap_inv_ex ex s B L → mk_blk y m true ∈ B →
  ∃ σ' L', detach_chunk y s = Ok ((), mk_mstate σ' (pads s)) ∧ same_data (hdrs s) σ' ∧
    bins_ok σ' L' ∧ (∀ c, c ∈ concat L' ↔ c ∈ concat L ∧ c ≠ y) ∧
    (∀ i l a, L' !! i = Some l → a ∈ l → ∃ l', L !! i = Some l' ∧ a ∈ l').
Proof.
  intros Hinv Hb. destruct (heap_inv_bins_elem _ _ _ _ _ Hinv Hb eq_refl) as (l1 & l2 & Hl). simpl in Hl.
  pose proof (hi_bins _ _ _ _ Hinv) as Hok.
  destruct (detach_chunk_ok _ _ _ _ _ _ Hok Hl) as (σ' & Hr & Hsd & Hok').
  exists σ', (<[bin_of m := l1 ++ l2]> L). split_and!; [done|done|done| |].
  - intros c. apply concat_remove; [done|apply Hok].
  - intros i l a Hi Ha. eapply bin_after; [done|done|done|]. intros Hin.
    rewrite elem_of_app, elem_of_cons in *. tauto.
Qed.

Lemma same_data_null σ σ' :
  (∃ h0, σ !! 0 = Some h0 ∧ KERNEL_HEAP_TOP ≤ size h0 < 4294967296) → same_data σ σ' →
  ∃ h0, σ' !! 0 = Some h0 ∧ KERNEL_HEAP_TOP ≤ size h0 < 4294967296.
Proof. intros H Hd. apply (null_frame σ σ' 1); [done|done|]. intros a _. apply Hd. Qed.

Lemma hdr_ok_same ex s σ' b : hdr_ok ex s b → same_data (hdrs s) σ' → hdr_ok ex (mk_mstate σ' (pads s)) b.
Proof. intros H Hd. eapply hdr_ok_frame; [done|apply Hd|done]. Qed.

Lemma hdr_ok_weaken ex s b : hdr_ok None s b → hdr_ok ex s b.
Proof. intros (h & ? & ? & ? & H). exists h. split_and!; [done..|]. intros _. by apply H. Qed.

(** merging the next block, as [__free] does *)
Lemma coalesce_ok s B1 x n y m B2 L :
  heap_inv_ex (Some x) s (B1 ++ mk_blk x n false :: mk_blk y m true :: B2) L →
  ∃ s' L', (detach_chunk y ;; upd_hdr x (λ h, set_size (u32 (size h + m)) h)) s = Ok ((), s') ∧
    pads s' = pads s ∧ heap_inv_ex (Some x) s' (B1 ++ mk_blk x (n + m) false :: B2) L' ∧
    (∀ c, c ≠ x → data <$> hdrs s' !! c = data <$> hdrs s !! c).
Proof.
  intros Hinv. pose proof Hinv as [Ht Hok Hfree Hbin Hhdr Hnull].
  assert (∀ b, b ∈ B1 ++ B2 → b ∈ B1 ++ mk_blk x n false :: mk_blk y m true :: B2) as Hsub.
  { intros b. rewrite !elem_of_app, !elem_of_cons. tauto. }
  assert (mk_blk y m true ∈ B1 ++ mk_blk x n false :: mk_blk y m true :: B2) as Hy.
  { rewrite !elem_of_app, !elem_of_cons. tauto. }
  assert (mk_blk x n false ∈ B1 ++ mk_blk x n false :: mk_blk y m true :: B2) as Hx.
  { rewrite !elem_of_app, !elem_of_cons. tauto. }
  destruct (take_chunk_ok _ _ _ _ _ _ Hinv Hy) as (σ' & L' & Hr & Hsd & Hok' & Hmem & Hsubl).
  pose proof (tiles_range _ _ _ _ Ht Hx) as (Hx1 & Hx2 & Hx3). simpl in Hx1, Hx2, Hx3.
  pose proof (tiles_range _ _ _ _ Ht Hy) as (Hy1 & Hy2 & Hy3). simpl in Hy1, Hy2, Hy3.
  assert (tiles KERNEL_HEAP_BOTTOM (B1 ++ mk_blk x (n + m) false :: B2) KERNEL_HEAP_TOP ∧ y = x + n) as [Ht' Ey].
  { apply tiles_app in Ht as (mid & T1 & E1 & ? & E2 & ? & T2). simpl in *. split; [|lia].
    apply tiles_app. exists mid. split; [done|]. simpl. split_and!; [done|lia|].
    by replace (mid + (n + m)) with (mid + n + m) by lia. }
  assert (x ∉ concat L) as Hxnin.
  { intros (k & Hk)%Hfree. pose proof (tiles_inj _ _ _ _ _ Ht Hx Hk eq_refl). done. }
  assert (KERNEL_HEAP_BOTTOM = 134217728 ∧ KERNEL_HEAP_TOP = 520093696) as [EB ET] by done.
  destruct (Hhdr _ Hx) as (h & Hh & Hs & Hm & _). simpl in Hh, Hs.
  destruct (same_data_lookup _ _ _ _ Hsd Hh) as (h' & Hh' & Hd').
  unfold data in Hd'. injection Hd' as D1 D2 D3 D4.
  exists (mk_mstate (alter (λ h, set_size (u32 (size h + m)) h) x σ') (pads s)), L'.
  split_and!; [|done| |].
  { rewrite (bind_ok _ _ _ _ _ Hr). rewrite upd_hdr_ok by (simpl; eauto). done. }
  2: { intros c Hc. cbn [hdrs]. rewrite lookup_alter_ne by done. apply Hsd. }
  split; [done| | | | |].
  - eapply bins_ok_frame; [done|intros; by apply alter_some|]. intros a Ha. unfold nxt, prv. cbn [hdrs].
    destruct (decide (a = x)) as [->|]; [|by rewrite lookup_alter_ne].
    rewrite lookup_alter_eq, Hh'. done.
  - intros a. rewrite Hmem, Hfree. setoid_rewrite elem_of_middle. split.
    + intros [(k & [?|Hk]) Hne]; [done|]. exists k. right. rewrite elem_of_middle in Hk.
      destruct Hk as [?|?]; [by simplify_eq|done].
    + intros (k & [?|Hk]); [done|]. split; [exists k; right; apply elem_of_middle; by right|].
      intros ->. pose proof (tiles_fresh KERNEL_HEAP_BOTTOM (B1 ++ [mk_blk x n false]) (mk_blk y m true) B2 KERNEL_HEAP_TOP (mk_blk y k true)) as F.
      rewrite <-app_assoc in F. simpl in F. apply F; [done| |done]. apply elem_of_app in Hk.
      rewrite !elem_of_app. tauto.
  - intros i l a k Hi Ha Hk. destruct (Hsubl _ _ _ Hi Ha) as (l' & Hi' & Ha').
    apply elem_of_middle in Hk as [?|Hk]; [done|]. by eapply Hbin, Hsub.
  - intros b [->|Hb]%elem_of_middle.
    + exists (set_size (u32 (size h' + m)) h'). split_and!; simpl.
      * by rewrite lookup_alter_eq, Hh'.
      * rewrite D1, Hs. apply u32_small. lia.
      * congruence.
      * done.
    + eapply hdr_ok_frame; [apply Hhdr, Hsub, Hb| |done]. simpl.
      rewrite lookup_alter_ne; [apply Hsd|]. apply not_eq_sym.
      by eapply (tiles_fresh _ B1 (mk_blk x (n + m) false) B2).
  - apply (null_frame σ' _ x); [by eapply same_data_null|lia|].
    intros a Ha. cbn [hdrs]. by rewrite lookup_alter_ne by done.
Qed.

(** putting a block into its bin *)
Lemma insert_block_ok s B1 x n B2 L :
  heap_inv_ex (Some x) s (B1 ++ mk_blk x n false :: B2) L →
  ∃ s' L', insert_chunk bins x s = Ok ((), s') ∧ pads s' = pads s ∧
           heap_inv s' (B1 ++ mk_blk x n true :: B2) L' ∧
           (∀ c, c ≠ x → data <$> hdrs s' !! c = data <$> hdrs s !! c).
Proof.
  intros Hinv. pose proof Hinv as [Ht Hok Hfree Hbin Hhdr Hnull].
  assert (mk_blk x n false ∈ B1 ++ mk_blk x n false :: B2) as Hx by (apply elem_of_middle; by left).
  pose proof (tiles_range _ _ _ _ Ht Hx) as (Hx1 & Hx2 & Hx3). simpl in Hx1, Hx2, Hx3.
  assert (x ∉ concat L) as Hxnin.
  { intros (k & Hk)%Hfree. pose proof (tiles_inj _ _ _ _ _ Ht Hx Hk eq_refl). done. }
  destruct (Hhdr _ Hx) as (h & Hh & Hs & Hm & _). simpl in Hh, Hs.
  assert (KERNEL_HEAP_BOTTOM = 134217728 ∧ KERNEL_HEAP_TOP = 520093696) as [EB ET] by done.
  destruct (insert_chunk_ok s L x h) as (l1 & l2 & σ' & Hl & Hr & Hok' & Hd & Hd'); [done..|lia|].
  rewrite Hs in *. exists (mk_mstate σ' (pads s)), (<[bin_of n := l1 ++ x :: l2]> L).
  split_and!; [done|done| |done]. split; [|done| | | |].
  - apply tiles_app in Ht as (mid & T1 & T2). apply tiles_app. by exists mid.
  - intros a. rewrite (concat_add L (bin_of n)) by done. rewrite Hfree. setoid_rewrite elem_of_middle. split.
    + intros [(k & [?|Hk])| ->]; [done|by eauto|by eauto].
    + intros (k & [?|Hk]); [right; by simplify_eq|left; by eauto].
  - intros i l a k Hi Ha Hk. apply elem_of_middle in Hk as [E|Hk].
    + injection E as -> ->. destruct (decide (bin_of n = i)) as [|Hne]; [done|].
      rewrite list_lookup_insert_ne in Hi by done. exfalso. apply Hxnin. by eapply bins_elem.
    + assert (a ≠ x) as Hax. { by eapply (tiles_fresh _ B1 (mk_blk x n false) B2 _ (mk_blk a k true)). }
      destruct (bin_after _ _ _ _ _ _ _ Hi Hl Ha) as (l' & Hi' & Ha').
      { rewrite !elem_of_app, elem_of_cons. tauto. }
      eapply Hbin; [done|done|]. apply elem_of_middle. by right.
  - intros b [->|Hb]%elem_of_middle.
    + simpl in Hd. destruct (σ' !! x) as [h'|] eqn:Hh'; [|done]. apply (inj Some) in Hd.
      unfold data in Hd. injection Hd as D1 D2 D3 D4. exists h'. simpl. split_and!; [done|done|congruence|].
      intros _. done.
    + destruct (Hhdr b) as (hb & Hb1 & Hb2 & Hb3 & Hb4); [apply elem_of_middle; by right|].
      assert (ba b ≠ x) as Hbx by (by eapply (tiles_fresh _ B1 (mk_blk x n false) B2)).
      apply (hdr_ok_frame None s); [|by apply Hd'|done]. exists hb. split_and!; [done..|].
      intros _. apply Hb4. congruence.
  - apply (null_frame (hdrs s) _ x); [done|lia|done].
Qed.

(** what [__free] makes of the block [x] and the blocks behind it *)
Definition coalesced (x n : Z) (B2 : list block) : list block :=
  match B2 with
  | b :: B2' => if bf b then mk_blk x (n + bs b) true :: B2' else mk_blk x n true :: B2
  | [] => [mk_blk x n true]
  end.

Lemma free_block_ok s B1 x n B2 L :
  heap_inv_ex (Some x) s (B1 ++ mk_blk x n false :: B2) L →
  ∃ s' L', __free bins x s = Ok ((), s') ∧ pads s' = pads s ∧
           heap_inv s' (B1 ++ coalesced x n B2) L' ∧
           (∀ c, c ≠ x → data <$> hdrs s' !! c = data <$> hdrs s !! c).
Proof.
  intros Hinv. pose proof Hinv as [Ht Hok Hfree Hbin Hhdr Hnull].
  assert (mk_blk x n false ∈ B1 ++ mk_blk x n false :: B2) as Hx by (apply elem_of_middle; by left).
  pose proof (tiles_range _ _ _ _ Ht Hx) as (Hx1 & Hx2 & Hx3). simpl in Hx1, Hx2, Hx3.
  destruct (Hhdr _ Hx) as (h & Hh & Hs & Hm & _). simpl in Hh, Hs.
  assert (KERNEL_HEAP_BOTTOM = 134217728 ∧ KERNEL_HEAP_TOP = 520093696) as [EB ET] by done.
  unfold __free, NEXT_BLOCK. rewrite bind_assoc_run, (get_hdr_run _ _ _ _ Hh). mstep.
  rewrite (get_hdr_run _ _ _ _ Hh), Hs, (u32_small (n + x)) by lia.
  rewrite (bind_ok (ASSERT _) _ s () s) by (apply ASSERT_true; unfold HDR; lia).
  destruct B2 as [|b B2].
  { apply tiles_app in Ht as (mid & T1 & E1 & ? & E2). simpl in *.
    rewrite (proj2 (Z.ltb_ge (n + x) KERNEL_HEAP_TOP)) by lia. change (ctrue 0) with false.
    mstep. by eapply insert_block_ok. }
  assert (ba b = x + n ∧ x + n < KERNEL_HEAP_TOP) as [Eb Hlt].
  { apply tiles_app in Ht as (mid & T1 & E1 & ? & E2 & ? & T2). simpl in *.
    apply tiles_le in T2. lia. }
  assert (b ∈ B1 ++ mk_blk x n false :: b :: B2) as Hb by (rewrite elem_of_app, !elem_of_cons; tauto).
  destruct (Hhdr b Hb) as (hb & Hb1 & Hb2 & Hb3 & Hb4). destruct Hb4 as [Hbf _].
  { rewrite Eb. intros [= E]. lia. }
  rewrite (proj2 (Z.ltb_lt (n + x) KERNEL_HEAP_TOP)) by lia.
  replace (n + x) with (ba b) by lia. mstep. mstep. rewrite bind_assoc_run, (get_hdr_run _ _ _ _ Hb1).
  rewrite Hbf, Hb3, Hb2. simpl. destruct b as [y m [|]]; simpl in *.
  - destruct (coalesce_ok s B1 x n y m B2 L Hinv) as (s1 & L1 & Hr1 & Hp1 & Hinv1 & Hd1).
    apply bind_Ok_inv in Hr1 as ([] & s0 & Hd & Hu).
    mstep. mstep. mstep. mstep. rewrite (bind_ok _ _ _ _ _ Hd), (bind_ok _ _ _ _ _ Hu).
    rewrite <-Hp1. destruct (insert_block_ok _ _ _ _ _ _ Hinv1) as (s' & L' & Hr2 & Hp2 & Hinv2 & Hd2).
    exists s', L'. split_and!; [done..|]. intros c Hc. by rewrite Hd2, Hd1.
  - mstep. by eapply insert_block_ok.
Qed.

(** [__free(NULL)]: with the word at address 8 above the heap, only the memory
    at addresses 0 to 15 changes *)
Lemma free_null_ok s B L :
  heap_inv s B L → ∃ s', __free bins 0 s = Ok ((), s') ∧ pads s' = pads s ∧ heap_inv s' B L ∧
    (∀ c, c ≠ 0 → hdrs s' !! c = hdrs s !! c).
Proof.
  intros Hinv. pose proof Hinv as [Ht Hok Hfree Hbin Hhdr (h0 & Hh & Hs)].
  assert (KERNEL_HEAP_BOTTOM = 134217728 ∧ KERNEL_HEAP_TOP = 520093696) as [EB ET] by done.
  set (idx := LENGTH_TO_RECYCLE_BIN_INDEX (i32 (size h0 - HDR - PAD))).
  pose proof (bin_index_range (i32 (size h0 - HDR - PAD))) as Hidx. fold idx in Hidx.
  assert (bin bins idx = head_of (Z.to_nat idx)) as Ehd by (by rewrite Z2Nat.id by lia).
  assert (Z.to_nat idx < 13)%nat as Hi by lia.
  destruct (lookup_lt_is_Some_2 L (Z.to_nat idx)) as [l Hl]; [by rewrite (bk_len _ _ Hok)|].
  assert (∀ a, a ∈ l → a ≠ 0 ∧ is_Some (hdrs s !! a)) as Hld.
  { intros a Ha. pose proof (bins_elem _ _ _ _ _ Hok Hl Ha) as Hc.
    split; [by eapply bins_nonnull|by apply (bk_dom _ _ Hok)]. }
  destruct (bk_heads _ _ Hok _ Hi) as [b Hb].
  destruct (find_larger_ok (S (base.size (hdrs s))) s (size h0) (head_of (Z.to_nat idx)) l)
    as (l1 & l2 & El & Hfind & _ & Hbig); [by apply (bk_chain _ _ Hok)|done|by eapply bins_fuel|].
  destruct l2 as [|y l2].
  2: { exfalso. specialize (Hbig y eq_refl).
    assert (y ∈ concat L) as Hy. { eapply bins_elem; [done..|]. rewrite El. apply elem_of_middle. by left. }
    apply Hfree in Hy as (n & Hn). pose proof (tiles_range _ _ _ _ Ht Hn) as (? & ? & ?). simpl in *.
    destruct (Hhdr _ Hn) as (hy & Hy1 & Hy2 & _). simpl in *. rewrite <-(hsize_lookup _ _ _ Hy1) in Hbig. lia. }
  rewrite app_nil_r in El. subst l1. set (p := lastp (head_of (Z.to_nat idx)) l).
  rewrite <-(app_nil_r l) in Hl. pose proof (lastp_dom _ _ _ _ _ Hok Hl) as [Hpd Hp0]. rewrite app_nil_r in Hl.
  fold p in Hpd, Hp0.
  set (σ0 := alter (set_padding 0) 0 (alter (set_free true) 0 (hdrs s))).
  assert (∀ a, is_Some (hdrs s !! a) → is_Some (σ0 !! a)) as Hd0 by (intros; by do 2 apply alter_some).
  assert (∀ a, a ≠ 0 → σ0 !! a = hdrs s !! a) as Hσ0.
  { intros a Ha. unfold σ0. by rewrite !lookup_alter_ne by done. }
  assert (bins_ok σ0 L) as Hok0.
  { eapply bins_ok_frame; [done|done|]. intros a Ha. unfold nxt, prv. rewrite Hσ0; [done|].
    destruct Ha as [Ha|Ha]; [by eapply bins_nonnull|lia]. }
  set (σ3 := alter (set_next 0) p (alter (set_next 0) 0 (alter (set_prev p) 0 σ0))).
  assert (nxt (hdrs s) p = 0) as Hpn.
  { pose proof (bk_chain _ _ Hok _ _ Hl) as Hc. rewrite <-(app_nil_r l) in Hc. by apply chain_nxt in Hc. }
  assert (∀ a, a ≠ 0 → σ3 !! a = hdrs s !! a) as Hσ3.
  { intros a Ha. unfold σ3. destruct (decide (a = p)) as [->|Hap].
    - rewrite lookup_alter_eq, !lookup_alter_ne, Hσ0 by done. destruct Hpd as [hp Hhp].
      rewrite Hhp. simpl. f_equal. rewrite <-(nxt_lookup _ _ _ Hhp) in Hpn. destruct hp; simpl in *. by subst.
    - by rewrite !lookup_alter_ne, Hσ0 by done. }
  exists (mk_mstate σ3 (pads s)). split_and!; [|done| |done].
  - unfold __free, NEXT_BLOCK. rewrite bind_assoc_run, (get_hdr_run _ _ _ _ Hh). mstep.
    rewrite Z.add_0_r, u32_small, (proj2 (Z.ltb_ge _ _)) by lia.
    rewrite (get_hdr_run _ _ _ _ Hh). change (ctrue 0) with false.
    rewrite (bind_ok (ASSERT _) _ s () s) by (apply ASSERT_true; unfold HDR; lia). mstep.
    unfold insert_chunk. rewrite (get_hdr_run _ _ _ _ Hh). cbv zeta. fold idx. rewrite Ehd.
    rewrite (get_hdr_run _ _ _ _ Hb), (nxt_lookup _ _ _ Hb). mstep. rewrite (bind_ok _ _ _ _ _ Hfind).
    rewrite upd_hdr_run by eauto. rewrite upd_hdr_run by (apply alter_some; eauto). cbn [hdrs pads]. fold σ0.
    change (default 0 (head [])) with 0. change (ctrue 0) with false. cbv iota.
    rewrite (bind_ok _ _ _ _ _ (find_tail_ok (S (base.size (hdrs s))) (mk_mstate σ0 (pads s)) _ l
        (bk_chain _ _ Hok0 _ _ Hl) (bk_heads _ _ Hok0 _ Hi)
        (λ a Ha, conj (proj1 (Hld a Ha)) (Hd0 _ (proj2 (Hld a Ha)))) (bins_fuel _ _ _ _ Hok Hl))).
    fold p. rewrite upd_hdr_run by (apply Hd0; eauto).
    rewrite upd_hdr_run by (apply alter_some, Hd0; eauto).
    rewrite upd_hdr_ok; [done|]. by do 2 apply alter_some; apply Hd0.
  - split; [done| |done|done| |].
    + apply (bins_ok_frame (hdrs s)); [done|intros; do 3 apply alter_some; by apply Hd0|]. intros a Ha. unfold nxt, prv.
      cbn [hdrs]. rewrite Hσ3; [done|]. destruct Ha as [Ha|Ha]; [by eapply bins_nonnull|lia].
    + intros c Hc. eapply hdr_ok_frame; [by apply Hhdr| |done]. cbn [hdrs]. rewrite Hσ3; [done|].
      destruct (tiles_range _ _ _ _ Ht Hc) as (? & ? & ?). lia.
    + exists (set_next 0 (set_prev p (set_padding 0 (set_free true h0)))). split; [|done].
      cbn [hdrs]. unfold σ3, σ0. rewrite lookup_alter_ne by lia. by rewrite !lookup_alter_eq, Hh.
Qed.

(** ** Alignment *)

Lemma validate_ok k s : (k ≤ 16)%nat → VALIDATE_ALIGNMENT (2 ^ Z.of_nat k) s = Ok ((), s).
Proof. intros Hk. do 17 (destruct k as [|k]; [reflexivity|]). lia. Qed.

Lemma pow_range k : (k ≤ 16)%nat → 1 ≤ 2 ^ Z.of_nat k ≤ 65536.
Proof. intros Hk. do 17 (destruct k as [|k]; [vm_compute; split; done|]). lia. Qed.

Lemma mask_land u k : (k ≤ 16)%nat → Z.land u (u32 (2 ^ Z.of_nat k - 1)) = u `mod` 2 ^ Z.of_nat k.
Proof.
  intros Hk. pose proof (pow_range k Hk). rewrite u32_small by lia.
  rewrite <-Z.land_ones by lia. by rewrite Z.ones_equiv, Z.sub_1_r.
Qed.

Lemma padding_of_ok a k :
  (k ≤ 16)%nat → 0 ≤ a < KERNEL_HEAP_TOP →
  let p := padding_of a (2 ^ Z.of_nat k) in
  0 ≤ p < 2 ^ Z.of_nat k ∧ (a + 20 + p) `mod` 2 ^ Z.of_nat k = 0.
Proof.
  intros Hk Ha p. pose proof (pow_range k Hk) as Hpow. unfold p, padding_of, HDR, PAD.
  unfold KERNEL_HEAP_TOP in Ha. replace (a + 16 + 4) with (a + 20) by lia.
  rewrite (u32_small (a + 20)), mask_land by lia.
  pose proof (Z.mod_pos_bound (a + 20) (2 ^ Z.of_nat k) ltac:(lia)) as Hm.
  destruct (ctrue ((a + 20) `mod` 2 ^ Z.of_nat k)) eqn:E.
  - apply ctrue_true in E. rewrite u32_small by lia. split; [lia|].
    rewrite Z.add_comm. rewrite (Z.div_mod (a + 20) (2 ^ Z.of_nat k)) at 2 by lia.
    replace (_ - _ + _) with (((a + 20) / 2 ^ Z.of_nat k + 1) * 2 ^ Z.of_nat k) by lia.
    apply Z.mod_mul. lia.
  - apply ctrue_false in E. split; [lia|]. by rewrite Z.add_0_r.
Qed.

(** ** Allocation *)

(** what [__malloc] makes of the block at [a] of [n] bytes, of which it uses [used] *)
Definition carved (a n used : Z) (B2 : list block) : list block :=
  if n - used >? 20 then mk_blk a used false :: coalesced (a + used) (n - used) B2
  else mk_blk a n false :: B2.

Lemma taken_inv s B1 a n B2 L :
  heap_inv s (B1 ++ mk_blk a n true :: B2) L →
  ∃ σ' L', detach_chunk a s = Ok ((), mk_mstate σ' (pads s)) ∧ same_data (hdrs s) σ' ∧
    heap_inv_ex (Some a) (mk_mstate σ' (pads s)) (B1 ++ mk_blk a n false :: B2) L'.
Proof.
  intros Hinv. pose proof Hinv as [Ht Hok Hfree Hbin Hhdr Hnull].
  assert (mk_blk a n true ∈ B1 ++ mk_blk a n true :: B2) as Ha by (apply elem_of_middle; by left).
  destruct (take_chunk_ok _ _ _ _ _ _ Hinv Ha) as (σ' & L' & Hr & Hsd & Hok' & Hmem & Hsubl).
  exists σ', L'. split_and!; [done|done|]. split; [|done| | | |by eapply same_data_null].
  - apply tiles_app in Ht as (mid & T1 & T2). apply tiles_app. by exists mid.
  - intros c. rewrite Hmem, Hfree. setoid_rewrite elem_of_middle. split.
    + intros [(k & [E|Hk]) Hne]; [by simplify_eq|eauto].
    + intros (k & [?|Hk]); [done|]. split; [eauto|].
      by eapply (tiles_fresh _ B1 (mk_blk a n true) B2 _ (mk_blk c k true)).
  - intros i l c k Hi Hc [?|Hk]%elem_of_middle; [done|].
    destruct (Hsubl _ _ _ Hi Hc) as (l' & Hi' & Hc'). eapply Hbin; [done|done|]. apply elem_of_middle. by right.
  - intros b [->|Hb]%elem_of_middle.
    + destruct (Hhdr _ Ha) as (h & Hh & Hs & Hm & _). destruct (same_data_lookup _ _ _ _ Hsd Hh) as (h' & Hh' & Hd).
      unfold data in Hd. injection Hd as D1 D2 D3 D4. exists h'. simpl in *. split_and!; [done|congruence|congruence|done].
    + apply hdr_ok_same; [|done]. apply hdr_ok_weaken, Hhdr, elem_of_middle. by right.
Qed.

(** the chunk's header after the 5th step *)
Definition settled (a pad : Z) (h : malloc_header) : malloc_header := mk_hdr 0 0 (size h) pad false (magic h).

Lemma settle_run {A} s a pad h (k : () → M mstate A) :
  hdrs s !! a = Some h → 0 ≤ pad < 65536 → 0 ≤ a + 16 + pad < 4294967296 →
  (upd_hdr a (set_prev 0) ;; upd_hdr a (set_next 0) ;; upd_hdr a (set_padding (u16 pad)) ;;
   upd_hdr a (set_free false) ;;
   mbind k (put_pad (u32 (a + 16 + pad)) (mk_pad (u16 pad) false MALLOC_MAGIC))) s =
  k () (mk_mstate (<[a := settled a pad h]> (hdrs s)) (<[a + 16 + pad := mk_pad pad false MALLOC_MAGIC]> (pads s))).
Proof.
  intros Hh Hp Ha. rewrite upd_hdr_run by eauto. rewrite upd_hdr_run by (apply alter_some; eauto).
  rewrite upd_hdr_run by (do 2 apply alter_some; eauto). rewrite upd_hdr_run by (do 3 apply alter_some; eauto).
  unfold put_pad. mstep. cbn [hdrs pads].
  rewrite u32_small by lia. assert (u16 pad = pad) as -> by (apply Z.mod_small; lia).
  do 2 f_equal. apply map_eq. intros b. destruct (decide (a = b)) as [<-|].
  - rewrite !lookup_alter_eq, lookup_insert_eq, Hh. done.
  - by rewrite !lookup_alter_ne, lookup_insert_ne by done.
Qed.

(** after the 5th step, without a split *)
Lemma settled_inv s B1 a n B2 L pad h :
  heap_inv_ex (Some a) s (B1 ++ mk_blk a n false :: B2) L → hdrs s !! a = Some h →
  0 ≤ pad < 65536 → pad + 20 ≤ n →
  heap_inv (mk_mstate (<[a := settled a pad h]> (hdrs s))
             (<[a + 16 + pad := mk_pad pad false MALLOC_MAGIC]> (pads s))) (B1 ++ mk_blk a n false :: B2) L.
Proof.
  intros [Ht Hok Hfree Hbin Hhdr Hnull] Hh Hp Hn.
  assert (mk_blk a n false ∈ B1 ++ mk_blk a n false :: B2) as Ha by (apply elem_of_middle; by left).
  destruct (tiles_range _ _ _ _ Ht Ha) as (R1 & R2 & R3). simpl in R1, R2, R3.
  assert (KERNEL_HEAP_BOTTOM = 134217728 ∧ KERNEL_HEAP_TOP = 520093696) as [EB ET] by done.
  assert (a ∉ concat L) as Hnin.
  { intros (k & Hk)%Hfree. pose proof (tiles_inj _ _ _ _ _ Ht Ha Hk eq_refl). done. }
  destruct (Hhdr _ Ha) as (h' & Hh' & Hs & Hm & _). simpl in Hh', Hs. rewrite Hh in Hh'. injection Hh' as <-.
  split; [done| |done|done| |].
  - apply (bins_ok_frame (hdrs s)); [done| |]; cbn [hdrs].
    + intros b Hb. rewrite lookup_insert_is_Some. destruct (decide (a = b)); [by left|by right].
    + intros b Hb. unfold nxt, prv. rewrite lookup_insert_ne; [done|]. intros <-.
      destruct Hb as [Hb|Hb]; [done|lia].
  - intros b [->|Hb]%elem_of_middle.
    + exists (settled a pad h). cbn [hdrs pads ba bs bf]. rewrite lookup_insert_eq. split_and!; [done..|].
      intros _. split; [done|]. intros _. unfold pad_ok. cbn [pads ba bs padding settled]. rewrite lookup_insert_eq.
      split_and!; (done || lia).
    + assert (ba b ≠ a) as Hne by (by eapply (tiles_fresh _ B1 (mk_blk a n false) B2)).
      destruct (Hhdr b) as (hb & Hb1 & Hb2 & Hb3 & Hb4); [apply elem_of_middle; by right|].
      apply (hdr_ok_frame None s).
      * exists hb. split_and!; [done..|]. intros _. apply Hb4. congruence.
      * cbn [hdrs]. by rewrite lookup_insert_ne.
      * intros q p' Hq Hr. cbn [pads]. rewrite lookup_insert_ne; [done|].
        destruct (tiles_disjoint _ _ _ b (mk_blk a n false) Ht) as [->|Hd];
          [apply elem_of_middle; by right|done|done|]. simpl in Hd. lia.
  - apply (null_frame (hdrs s) _ a); [done|lia|]. intros b Hb. cbn [hdrs]. by rewrite lookup_insert_ne by done.
Qed.

(** after the 5th step, with a second block carved off *)
Lemma split_inv s B1 a n B2 L pad used m :
  heap_inv_ex (Some a) s (B1 ++ mk_blk a n false :: B2) L →
  0 ≤ pad < 65536 → pad + 20 ≤ used → 20 ≤ n - used → m = MALLOC_MAGIC →
  heap_inv_ex (Some (a + used))
    (mk_mstate (<[a := mk_hdr 0 0 used pad false m]>
                 (<[a + used := mk_hdr 0 0 (n - used) 0 true MALLOC_MAGIC]> (hdrs s)))
       (<[a + 16 + pad := mk_pad pad false MALLOC_MAGIC]> (pads s)))
    ((B1 ++ [mk_blk a used false]) ++ mk_blk (a + used) (n - used) false :: B2) L.
Proof.
  intros [Ht Hok Hfree Hbin Hhdr Hnull] Hp Hu Hn Hmm. rewrite <-app_assoc. simpl.
  assert (mk_blk a n false ∈ B1 ++ mk_blk a n false :: B2) as Ha by (apply elem_of_middle; by left).
  destruct (tiles_range _ _ _ _ Ht Ha) as (R1 & R2 & R3). simpl in R1, R2, R3.
  assert (KERNEL_HEAP_BOTTOM = 134217728 ∧ KERNEL_HEAP_TOP = 520093696) as [EB ET] by done.
  set (x := a + used) in *. assert (∀ b, b ∈ B1 ++ B2 → b ∈ B1 ++ mk_blk a n false :: B2) as Hsub.
  { intros b Hb. apply elem_of_middle. by right. }
  assert (∀ b, b ∈ B1 ++ B2 → ba b + bs b ≤ a ∨ a + n ≤ ba b) as Hdisj.
  { intros b Hb. destruct (tiles_disjoint _ _ _ b (mk_blk a n false) Ht) as [E|Hd]; [by apply Hsub|done| |done].
    by destruct (tiles_fresh _ B1 (mk_blk a n false) B2 _ b Ht Hb); rewrite E. }
  assert (∀ b, b ∈ B1 ++ B2 → ba b ≠ a ∧ ba b ≠ x) as Hne.
  { intros b Hb. pose proof (Hdisj b Hb). pose proof (tiles_range _ _ _ _ Ht (Hsub _ Hb)). lia. }
  assert (∀ c, c ∈ concat L → c ≠ a ∧ c ≠ x) as Hnin.
  { intros c (k & Hk)%Hfree. apply elem_of_middle in Hk as [?|Hk]; [done|]. by apply (Hne _ Hk). }
  split.
  - apply tiles_app in Ht as (mid & T1 & E1 & ? & T2). simpl in *. apply tiles_app. exists mid.
    split; [done|]. simpl. split_and!; [done|lia|lia|lia|]. by replace (mid + used + (n - used)) with (mid + n) by lia.
  - apply (bins_ok_frame (hdrs s)); [done| |]; cbn [hdrs].
    + intros b Hb. rewrite !lookup_insert_is_Some.
      destruct (decide (a = b)); [by left|right; split; [done|]]. destruct (decide (x = b)); [by left|by right].
    + intros b Hb. unfold nxt, prv. rewrite !lookup_insert_ne; [done|..]; intros <-.
      * destruct Hb as [Hb|Hb]; [by destruct (Hnin _ Hb)|lia].
      * destruct Hb as [Hb|Hb]; [by destruct (Hnin _ Hb)|lia].
  - intros c. rewrite Hfree. setoid_rewrite elem_of_middle. setoid_rewrite elem_of_middle. naive_solver.
  - intros i l c k Hi Hc [?|[?|Hk]%elem_of_middle]%elem_of_middle; [done|done|]. by eapply Hbin, Hsub.
  - intros b [->|[->|Hb]%elem_of_middle]%elem_of_middle.
    + eexists. cbn [hdrs ba]. rewrite lookup_insert_eq. split_and!; [done|done|done|].
      intros _. split; [done|]. intros _. unfold pad_ok. cbn [pads ba bs padding]. rewrite lookup_insert_eq.
      split_and!; (done || lia).
    + eexists. cbn [hdrs ba]. rewrite lookup_insert_ne by lia. rewrite lookup_insert_eq. by split_and!.
    + destruct (Hne _ Hb) as [N1 N2]. destruct (Hhdr _ (Hsub _ Hb)) as (hb & Hb1 & Hb2 & Hb3 & Hb4).
      apply (hdr_ok_frame _ s).
      * exists hb. split_and!; [done..|]. intros _. apply Hb4. congruence.
      * cbn [hdrs]. by rewrite !lookup_insert_ne by done.
      * intros q p' Hq Hr. cbn [pads]. rewrite lookup_insert_ne; [done|]. pose proof (Hdisj _ Hb). lia.
  - apply (null_frame (<[x := mk_hdr 0 0 (n - used) 0 true MALLOC_MAGIC]> (hdrs s)) _ a); [|lia|].
    + apply (null_frame (hdrs s) _ x); [done|lia|]. intros b Hb. by rewrite lookup_insert_ne by done.
    + intros b Hb. cbn [hdrs]. by rewrite (lookup_insert_ne _ a) by done.
Qed.

Lemma malloc_chunk_ok s B1 a n B2 L len k :
  heap_inv s (B1 ++ mk_blk a n true :: B2) L → 0 ≤ len < 2147483648 → (k ≤ 16)%nat →
  let align := 2 ^ Z.of_nat k in
  let pad := padding_of a align in
  let used := 20 + pad + len in
  if used <=? n
  then ∃ s' L', __malloc bins a len align s = Ok (a + 20 + pad, s') ∧
       pads s' = <[a + 16 + pad := mk_pad pad false MALLOC_MAGIC]> (pads s) ∧
       heap_inv s' (B1 ++ carved a n used B2) L' ∧ padding <$> hdrs s' !! a = Some pad ∧
       (∀ c, c ≠ 0 → c ≠ a → (used < n → c ≠ a + used) → data <$> hdrs s' !! c = data <$> hdrs s !! c)
  else __malloc bins a len align s = Ok (0, s).
Proof.
  intros Hinv Hlen Hk align pad used. pose proof Hinv as [Ht _ _ _ Hhdr _].
  assert (mk_blk a n true ∈ B1 ++ mk_blk a n true :: B2) as Ha by (apply elem_of_middle; by left).
  destruct (tiles_range _ _ _ _ Ht Ha) as (R1 & R2 & R3). simpl in R1, R2, R3.
  assert (KERNEL_HEAP_BOTTOM = 134217728 ∧ KERNEL_HEAP_TOP = 520093696) as [EB ET] by done.
  destruct (Hhdr _ Ha) as (h & Hh & Hs & Hm & Hf). simpl in Hh, Hs, Hf. destruct Hf as [Hf _]; [done|].
  pose proof (padding_of_ok a k Hk ltac:(lia)) as [Hpr Hpm]. fold align pad in Hpr, Hpm.
  pose proof (pow_range k Hk) as Hpow. fold align in Hpow.
  unfold __malloc. cbv zeta. rewrite (get_hdr_run _ _ _ _ Hh), Hf, Hm. mstep. mstep.
  rewrite (bind_ok _ _ _ _ _ (validate_ok k s Hk)). fold align pad.
  unfold HDR, PAD. rewrite Hs.
  rewrite (u32_small (len + 16 + 4)), (u32_small (a + 16 + 4)) by lia.
  rewrite (u32_small (a + 16 + 4 + pad)), (u32_small (len + 16 + 4 + pad)) by lia.
  assert (Z.land (a + 20 + pad) (u32 (align - 1)) = 0) as Hland by (unfold align; by rewrite mask_land).
  replace (a + 16 + 4 + pad) with (a + 20 + pad) by lia. rewrite Hland. change (ctrue 0) with false. simpl negb.
  destruct (len + 16 + 4 >? n) eqn:E1.
  { rewrite (proj2 (Z.leb_gt used n)) by lia. done. }
  mstep. destruct (len + 16 + 4 + pad >? n) eqn:E2.
  { rewrite (proj2 (Z.leb_gt used n)) by lia. done. }
  rewrite (proj2 (Z.leb_le used n)) by lia. rewrite (u32_small (n - 16 - 4 - pad - len)) by lia.
  replace (n - 16 - 4 - pad - len) with (n - used) by lia.
  destruct (taken_inv _ _ _ _ _ _ Hinv) as (σ1 & L1 & Hr & Hsd & Hinv1).
  rewrite (bind_ok _ _ _ _ _ Hr). destruct (same_data_lookup _ _ _ _ Hsd Hh) as (h1 & Hh1 & Hd).
  unfold data in Hd. injection Hd as D1 D2 D3 D4. rewrite Hs in D1. rewrite Hm in D4.
  unfold carved. change (16 + 4) with 20.
  destruct (n - used >? 20) eqn:E3.
  - rewrite bind_assoc_run. erewrite get_hdr_run by (cbn [hdrs]; exact Hh1). rewrite D1.
    replace (a + n - (n - used)) with (a + used) by lia. rewrite (u32_small (a + used)) by lia.
    unfold put_hdr. mstep. mstep. mstep. cbn [hdrs pads].
    rewrite upd_hdr_run by (cbn [hdrs]; rewrite lookup_insert_ne by lia; eauto). cbn [hdrs pads]. mstep.
    erewrite settle_run; [|cbn [hdrs]; rewrite lookup_alter_eq, lookup_insert_ne, Hh1 by lia; reflexivity|lia|lia].
    cbn [hdrs pads].
    replace (<[a := settled a pad (set_size (u32 (size h1 - (n - used))) h1)]> _) with
      (<[a := mk_hdr 0 0 used pad false (magic h1)]>
        (<[a + used := mk_hdr 0 0 (n - used) 0 true MALLOC_MAGIC]> σ1)).
    2: { unfold settled. simpl. rewrite D1. replace (n - (n - used)) with used by lia.
         rewrite (u32_small used) by lia. apply map_eq. intros b. destruct (decide (a = b)) as [<-|].
         - by rewrite !lookup_insert_eq.
         - by rewrite lookup_insert_ne, (lookup_insert_ne (alter _ _ _)), lookup_alter_ne by done. }
    pose proof (split_inv _ B1 a n B2 L1 pad used (magic h1) Hinv1 ltac:(lia) ltac:(lia) ltac:(lia) D4) as Hinv2.
    destruct (free_block_ok _ _ _ _ _ _ Hinv2) as (s' & L' & Hfr & Hp' & Hinv3 & Hd').
    rewrite (bind_ok _ _ _ _ _ Hfr). exists s', L'. split_and!; [done|done|by rewrite <-app_assoc in Hinv3| |].
    + specialize (Hd' a ltac:(lia)). cbn [hdrs] in Hd'. rewrite lookup_insert_eq in Hd'.
      destruct (hdrs s' !! a) as [h'|]; [|done]. apply (inj Some) in Hd'. unfold data in Hd'.
      injection Hd' as _ E _ _. simpl. by rewrite E.
    + intros c _ Hca Hcu. rewrite Hd' by (apply Hcu; lia). specialize (Hcu ltac:(lia)). cbn [hdrs]. rewrite !lookup_insert_ne by done. apply Hsd.
  - mstep. erewrite settle_run; [|cbn [hdrs]; exact Hh1|lia|lia]. cbn [hdrs pads].
    pose proof (settled_inv _ _ _ _ _ _ pad h1 Hinv1 ltac:(cbn [hdrs]; exact Hh1) ltac:(lia) ltac:(lia)) as Hinv2.
    destruct (free_null_ok _ _ _ Hinv2) as (s' & Hfr & Hp' & Hinv3 & Hd').
    rewrite (bind_ok _ _ _ _ _ Hfr). exists s', L1. split_and!; [done|done|done| |].
    + rewrite Hd' by lia. cbn [hdrs]. by rewrite lookup_insert_eq.
    + intros c Hc0 Hca _. rewrite Hd' by done. cbn [hdrs]. rewrite lookup_insert_ne by done. apply Hsd.
Qed.

(** ** Correctness *)

(** the user pointer of an allocated block *)
Definition user_ptr (s : mstate) (b : block) (p : Z) : Prop :=
  bf b = false ∧ ∃ h, hdrs s !! ba b = Some h ∧ p = ba b + 20 + padding h.

Definition fits (len align : Z) (b : block) : Prop := 20 + padding_of (ba b) align + len ≤ bs b.

(** a successful allocation out of the free block (a, n) *)
Definition allocated (s : mstate) (B : list block) (len align p : Z) (s' : mstate) : Prop :=
  ∃ B1 a n B2 L', B = B1 ++ mk_blk a n true :: B2 ∧ fits len align (mk_blk a n true) ∧
    p = a + 20 + padding_of a align ∧
    heap_inv s' (B1 ++ carved a n (20 + padding_of a align + len) B2) L' ∧
    padding <$> hdrs s' !! a = Some (padding_of a align) ∧
    (∀ c, c ≠ 0 → c ≠ a →
       (20 + padding_of a align + len < n → c ≠ a + (20 + padding_of a align + len)) →
       data <$> hdrs s' !! c = data <$> hdrs s !! c).

Lemma bin_loop_ok fuel s B L len k p l :
  heap_inv s B L → 0 ≤ len < 2147483648 → (k ≤ 16)%nat →
  chain (hdrs s) p l → l ⊆ concat L → (length l < fuel)%nat →
  let align := 2 ^ Z.of_nat k in
  (∃ q s', bin_loop bins fuel len align (nxt (hdrs s) p) s = Ok (q, s') ∧ q ≠ 0 ∧ allocated s B len align q s') ∨
  (bin_loop bins fuel len align (nxt (hdrs s) p) s = Ok (0, s) ∧
   ∀ a n, a ∈ l → mk_blk a n true ∈ B → ¬ fits len align (mk_blk a n true)).
Proof.
  intros Hinv Hlen Hk. revert p l. induction fuel as [|fuel IH]; intros p l Hc Hsub Hf align; [lia|]. simpl.
  destruct l as [|x l]; simpl in Hc.
  { rewrite Hc. right. split; [done|]. by intros ? ? ?%not_elem_of_nil. }
  destruct Hc as (-> & _ & Hc). pose proof (hi_bins _ _ _ _ Hinv) as Hok.
  assert (x ∈ concat L) as Hx by (apply Hsub; by left).
  rewrite (proj2 (ctrue_true x)) by (by eapply bins_nonnull).
  apply (hi_free _ _ _ _ Hinv) in Hx as (n & Hn).
  pose proof (tiles_range _ _ _ _ (hi_tiles _ _ _ _ Hinv) Hn) as (R1 & R2 & R3). simpl in R1, R2, R3.
  destruct (bk_dom _ _ Hok x) as [h Hh]; [apply Hsub; by left|].
  pose proof Hn as Hn'. apply list_elem_of_split in Hn as (B1 & B2 & EB).
  assert (heap_inv s (B1 ++ mk_blk x n true :: B2) L) as Hinv' by (by rewrite <-EB).
  pose proof (malloc_chunk_ok s B1 x n B2 L len k Hinv' Hlen Hk) as HM.
  cbv zeta in HM. fold align in HM. destruct (_ <=? n) eqn:E.
  - left. destruct HM as (s' & L' & Hr & Hp & Hi & Hpad & Hd). exists (x + 20 + padding_of x align), s'.
    assert (KERNEL_HEAP_BOTTOM = 134217728 ∧ KERNEL_HEAP_TOP = 520093696) as [EBo ETo] by done.
    pose proof (padding_of_ok x k Hk ltac:(lia)) as [Hpr _].
    assert (x + 20 + padding_of x align ≠ 0) as Hnz by (unfold align; lia).
    rewrite (bind_ok _ _ _ _ _ Hr), (proj2 (ctrue_true _)) by done. split_and!; [done|done|].
    exists B1, x, n, B2, L'. split_and!; try done. unfold fits. simpl. lia.
  - rewrite (bind_ok _ _ _ _ _ HM). change (ctrue 0) with false. cbv iota.
    rewrite (get_hdr_run _ _ _ _ Hh), (nxt_lookup _ _ _ Hh).
    destruct (IH x l Hc) as [HL|[HL Hno]]; [set_solver|simpl in Hf; lia|by left|right].
    split; [done|]. intros a m [->|Ha]%elem_of_cons Hb; [|by apply Hno].
    pose proof (tiles_inj _ _ _ _ _ (hi_tiles _ _ _ _ Hinv) Hb Hn' eq_refl) as E'. injection E' as ->.
    unfold fits. simpl. lia.
Qed.

Lemma bins_loop_ok m s B L len k i :
  heap_inv s B L → 0 ≤ len < 2147483648 → (k ≤ 16)%nat → (i + m = 13)%nat →
  let align := 2 ^ Z.of_nat k in
  (∃ q s', bins_loop bins m len align (Z.of_nat i) s = Ok (q, s') ∧ q ≠ 0 ∧ allocated s B len align q s') ∨
  (bins_loop bins m len align (Z.of_nat i) s = Ok (0, s) ∧
   ∀ j l a n, L !! j = Some l → (i ≤ j)%nat → a ∈ l → mk_blk a n true ∈ B → ¬ fits len align (mk_blk a n true)).
Proof.
  intros Hinv Hlen Hk. revert i. induction m as [|m IH]; intros i Him align; simpl.
  { right. split; [done|]. intros j l a n Hj Hij. apply lookup_lt_Some in Hj.
    rewrite (bk_len _ _ (hi_bins _ _ _ _ Hinv)) in Hj. lia. }
  pose proof (hi_bins _ _ _ _ Hinv) as Hok. assert (i < 13)%nat as Hi by lia.
  destruct (bk_heads _ _ Hok _ Hi) as [b Hb]. rewrite (get_hdr_run _ _ _ _ Hb), (nxt_lookup _ _ _ Hb). mstep.
  destruct (lookup_lt_is_Some_2 L i) as [l Hl]; [by rewrite (bk_len _ _ Hok)|].
  destruct (bin_loop_ok (S (base.size (hdrs s))) s B L len k (head_of i) l) as [(q & s' & Hr & Hq & Ha)|[Hr Hno]];
    [done|done|done|by apply (bk_chain _ _ Hok)|intros a Ha; by eapply bins_elem|by eapply bins_fuel|..].
  - left. exists q, s'. fold align in Hr. rewrite (bind_ok _ _ _ _ _ Hr), (proj2 (ctrue_true q)) by done. done.
  - fold align in Hr. rewrite (bind_ok _ _ _ _ _ Hr). change (ctrue 0) with false. cbv iota.
    replace (Z.of_nat i + 1) with (Z.of_nat (S i)) by lia.
    destruct (IH (S i)) as [HL|[HL Hno']]; [lia|by left|right]. split; [done|].
    intros j l' a n Hj Hij Ha. destruct (decide (i = j)) as [<-|]; [|eapply Hno'; [done|lia|done]].
    rewrite Hl in Hj. simplify_eq. by apply Hno.
Qed.

Lemma carved_block s B1 a n used B2 L pad :
  heap_inv s (B1 ++ carved a n used B2) L → padding <$> hdrs s !! a = Some pad → used ≤ n →
  ∃ b, b ∈ B1 ++ carved a n used B2 ∧ ba b = a ∧ used ≤ bs b ≤ n ∧ user_ptr s b (a + 20 + pad).
Proof.
  intros Hinv Hp Hu. destruct (hdrs s !! a) as [h|] eqn:Hh; [|done]. simpl in Hp. injection Hp as Hp.
  unfold carved in *. destruct (n - used >? 20).
  - exists (mk_blk a used false). split; [apply elem_of_middle; by left|]. split; [done|]. split; [simpl; lia|]. split; [done|].
    exists h. simpl. split; [done|lia].
  - exists (mk_blk a n false). split; [apply elem_of_middle; by left|]. split; [done|]. split; [simpl; lia|]. split; [done|].
    exists h. simpl. split; [done|lia].
Qed.

Lemma coalesced_keeps x n B2 c : c ∈ B2 → bf c = false → c ∈ coalesced x n B2.
Proof.
  destruct B2 as [|b B2]; simpl; [by intros ?%not_elem_of_nil|]. intros [->|Hc]%elem_of_cons Hf.
  - rewrite Hf. right. by left.
  - destruct (bf b); right; [done|by right].
Qed.

Lemma carved_keeps B1 a n used B2 c :
  c ∈ B1 ++ mk_blk a n true :: B2 → bf c = false → c ∈ B1 ++ carved a n used B2.
Proof.
  intros [->|[Hc|Hc]%elem_of_app]%elem_of_middle Hf; [done|apply elem_of_app; by left|].
  apply elem_of_app. right. unfold carved. destruct (_ >? _); right; [by apply coalesced_keeps|done].
Qed.

Lemma user_ptr_frame s s' b p :
  user_ptr s b p → data <$> hdrs s' !! ba b = data <$> hdrs s !! ba b → user_ptr s' b p.
Proof.
  intros (Hf & h & Hh & ->) Hd. rewrite Hh in Hd. destruct (hdrs s' !! ba b) as [h'|] eqn:Hh'; [|done].
  apply (inj Some) in Hd. unfold data in Hd. injection Hd as _ E _ _.
  split; [done|]. exists h'. by rewrite E.
Qed.

(** the contract of [malloc_align] *)
Lemma malloc_align_ok s B L len k :
  heap_inv s B L → 0 ≤ len < 2147483648 → (k ≤ 16)%nat →
  let align := 2 ^ Z.of_nat k in
  ∃ p s' B' L', malloc_align bins len align s = Ok (p, s') ∧ heap_inv s' B' L' ∧
    (p = 0 ∧ s' = s ∧ B' = B ∧ (∀ b, b ∈ B → bf b = true → ¬ fits len align b) ∨
     p ≠ 0 ∧ p `mod` align = 0 ∧
     (∃ c, c ∈ B ∧ bf c = true ∧ fits len align c ∧ ba c + 20 ≤ p ∧ p + len ≤ ba c + bs c) ∧
     (∃ b, b ∈ B' ∧ (b ∉ B) ∧ user_ptr s' b p ∧ p + len ≤ ba b + bs b) ∧
     (∀ c q, c ∈ B → user_ptr s c q →
        c ∈ B' ∧ user_ptr s' c q ∧ (ba c + bs c ≤ p ∨ p + len ≤ ba c))).
Proof.
  intros Hinv Hlen Hk align. unfold malloc_align.
  pose proof (bin_index_range len) as Hidx. set (i := Z.to_nat (LENGTH_TO_RECYCLE_BIN_INDEX len)).
  replace (LENGTH_TO_RECYCLE_BIN_INDEX len) with (Z.of_nat i) by lia.
  assert (i + Z.to_nat (RECYCLE_BIN_SIZE - Z.of_nat i) = 13)%nat as Hi13 by (unfold RECYCLE_BIN_SIZE; lia).
  pose proof (bins_loop_ok _ s B L len k i Hinv Hlen Hk Hi13) as HB. cbv zeta in HB. fold align in HB.
  destruct HB as [(q & s' & Hr & Hq & Hal)|[Hr Hno]].
  - destruct Hal as (B1 & a & n & B2 & L' & EB & Hfit & Ep & Hinv' & Hpad & Hd).
    set (pad := padding_of a align) in *. set (used := 20 + pad + len) in *.
    assert (mk_blk a n true ∈ B) as Hb by (rewrite EB; apply elem_of_middle; by left).
    pose proof (tiles_range _ _ _ _ (hi_tiles _ _ _ _ Hinv) Hb) as (R1 & R2 & R3). simpl in R1, R2, R3.
    assert (KERNEL_HEAP_BOTTOM = 134217728 ∧ KERNEL_HEAP_TOP = 520093696) as [EBo ETo] by done.
    pose proof (padding_of_ok a k Hk ltac:(lia)) as [Hpr Hpm]. fold align in Hpr, Hpm. fold pad in Hpr, Hpm.
    unfold fits in Hfit. simpl in Hfit. fold pad in Hfit.
    destruct (carved_block _ _ _ _ _ _ _ _ Hinv' Hpad) as (b & Hbin & Eba & Hbs & Hup); [lia|].
    exists q, s', (B1 ++ carved a n used B2), L'. split_and!; [done|done|]. right. subst q. split_and!.
    + done.
    + done.
    + exists (mk_blk a n true). unfold fits. cbn [ba bs bf]. fold pad. split_and!; [done|done|lia|lia|].
      unfold used in *. lia.
    + exists b. split_and!; [done| |done|lia]. intros HbB.
      pose proof (tiles_inj _ _ _ _ _ (hi_tiles _ _ _ _ Hinv) HbB Hb Eba) as ->. by destruct Hup.
    + intros c r Hc Hu. assert (c ∈ B1 ++ carved a n used B2) as Hc'.
      { apply carved_keeps; [by rewrite <-EB|apply Hu]. }
      assert (c ≠ mk_blk a n true) as Hne by (intros ->; by destruct Hu).
      destruct (tiles_disjoint _ _ _ _ _ (hi_tiles _ _ _ _ Hinv) Hc Hb) as [?|Hdis]; [done|]. simpl in Hdis.
      pose proof (tiles_range _ _ _ _ (hi_tiles _ _ _ _ Hinv) Hc) as (C1 & C2 & C3).
      split_and!; [done| |lia]. eapply user_ptr_frame; [done|]. apply Hd; lia.
  - exists 0, s, B, L. split_and!; [done|done|]. left. split_and!; [done..|].
    intros b Hb Hf Hfit. destruct (heap_inv_bins_elem _ _ _ _ _ Hinv Hb Hf) as (l1 & l2 & Hl).
    destruct b as [a n f]; simpl in *; subst f.
    apply (Hno (bin_of n) (l1 ++ a :: l2) a n Hl); [|apply elem_of_middle; by left|done|done].
    unfold i, bin_of. apply Z2Nat.inj_le; [lia|apply bin_index_range|]. apply bin_scan_mono.
    unfold fits in Hfit. simpl in Hfit.
    pose proof (tiles_range _ _ _ _ (hi_tiles _ _ _ _ Hinv) Hb) as (R1 & R2 & R3). simpl in R1, R2, R3.
    assert (KERNEL_HEAP_BOTTOM = 134217728 ∧ KERNEL_HEAP_TOP = 520093696) as [EBo ETo] by done.
    pose proof (padding_of_ok a k Hk ltac:(lia)) as [Hpr _]. fold align in Hpr. lia.
Qed.

(** the contract of [free] *)
Lemma free_ok s B L b p :
  heap_inv s B L → b ∈ B → user_ptr s b p →
  ∃ s' B' L', free bins p s = Ok ((), s') ∧ heap_inv s' B' L' ∧
    (∃ n, mk_blk (ba b) n true ∈ B' ∧ bs b ≤ n) ∧
    (∀ c q, c ∈ B → c ≠ b → user_ptr s c q → c ∈ B' ∧ user_ptr s' c q).
Proof.
  intros Hinv Hb (Hbf & h & Hh & ->). pose proof Hinv as [Ht Hok Hfree Hbin Hhdr Hnull].
  destruct (Hhdr _ Hb) as (h' & Hh' & Hs & Hm & Hex). rewrite Hh in Hh'. injection Hh' as <-.
  destruct Hex as [Hf Hpad]; [done|]. destruct (Hpad Hbf) as (Hpr & Hpl & Hpp).
  pose proof (tiles_range _ _ _ _ Ht Hb) as (R1 & R2 & R3).
  assert (KERNEL_HEAP_BOTTOM = 134217728 ∧ KERNEL_HEAP_TOP = 520093696) as [EBo ETo] by done.
  pose proof Hb as Hb'. apply list_elem_of_split in Hb as (B1 & B2 & EB). destruct b as [a n f]; simpl in *; subst f.
  assert (heap_inv_ex (Some a) s (B1 ++ mk_blk a n false :: B2) L) as Hinv'.
  { rewrite <-EB. split; try done. intros c Hc. by apply hdr_ok_weaken, Hhdr. }
  destruct (free_block_ok _ _ _ _ _ _ Hinv') as (s' & L' & Hr & Hp & Hinv2 & Hd).
  exists s', (B1 ++ coalesced a n B2), L'. split_and!; [|done| |].
  - unfold free, PAD, HDR. cbv zeta. rewrite (u32_small (a + 20 + padding h - 4)) by lia.
    replace (a + 20 + padding h - 4) with (a + 16 + padding h) by lia.
    unfold get_pad. rewrite bind_assoc_run. mstep. rewrite Hpp. simpl. mstep. mstep. cbn [ppadding].
    replace (a + 16 + padding h - padding h - 16) with a by lia. rewrite (u32_small a) by lia.
    rewrite (get_hdr_run _ _ _ _ Hh), Hf. done.
  - unfold coalesced. destruct B2 as [|c B2].
    + exists n. split; [apply elem_of_middle; by left|simpl; lia].
    + destruct (bf c) eqn:Ec; [|exists n; split; [apply elem_of_middle; by left|simpl; lia]].
      exists (n + bs c). split; [apply elem_of_middle; by left|].
      destruct (tiles_range _ _ _ c Ht) as (? & ? & ?); [rewrite EB, elem_of_app, !elem_of_cons; tauto|]. simpl. lia.
  - intros c q Hc Hne Hu. assert (ba c ≠ a) as Hnea.
    { intros E. apply Hne. by eapply (tiles_inj _ _ _ _ _ Ht). }
    split; [|eapply user_ptr_frame; [done|by apply Hd]]. rewrite EB in Hc.
    apply elem_of_middle in Hc as [?|[Hc|Hc]%elem_of_app]; [done|apply elem_of_app; by left|].
    apply elem_of_app. right. apply coalesced_keeps; [done|apply Hu].
Qed.

(** ** Initialisation *)

Lemma clear_bins_lookup σ i :
  (i < 13)%nat → clear_bins bins σ !! head_of i = Some zero_hdr.
Proof.
  intros Hi. unfold clear_bins.
  assert (∀ n m, (m ≤ i < m + n)%nat → foldr (λ i h, <[bin bins (Z.of_nat i) := zero_hdr]> h) σ (seq m n) !! head_of i = Some zero_hdr) as H.
  { intros n. induction n as [|n IH]; intros m Hm; simpl; [lia|].
    destruct (decide (m = i)) as [->|Hne]; [by rewrite lookup_insert_eq|].
    rewrite lookup_insert_ne; [apply IH; lia|]. intros E%head_of_inj. done. }
  apply H. lia.
Qed.

Lemma clear_bins_other σ a : (∀ i, (i < 13)%nat → a ≠ head_of i) → clear_bins bins σ !! a = σ !! a.
Proof.
  intros Ha. unfold clear_bins.
  assert (∀ l, Forall (λ i, i < 13)%nat l → foldr (λ i h, <[bin bins (Z.of_nat i) := zero_hdr]> h) σ l !! a = σ !! a) as H.
  { induction 1 as [|i l Hi _ IH]; simpl; [done|]. rewrite lookup_insert_ne; [done|]. apply not_eq_sym. by apply Ha. }
  apply H. apply Forall_forall. intros i Hi%elem_of_seq. lia.
Qed.

(** one free chunk that spans the whole kernel heap, in the last bin *)
Lemma malloc_init_ok s h0 :
  hdrs s !! 0 = Some h0 → KERNEL_HEAP_TOP ≤ size h0 < 4294967296 →
  ∃ s', malloc_init bins s = Ok ((), s') ∧
    heap_inv s' [mk_blk KERNEL_HEAP_BOTTOM (KERNEL_HEAP_TOP - KERNEL_HEAP_BOTTOM) true]
      (replicate 12 [] ++ [[KERNEL_HEAP_BOTTOM]]).
Proof.
  intros H0 Hs0. assert (KERNEL_HEAP_BOTTOM = 134217728 ∧ KERNEL_HEAP_TOP = 520093696) as [EB ET] by done.
  unfold malloc_init, put_hdr. mstep. mstep. cbn [hdrs pads].
  set (hd := mk_hdr 0 0 (KERNEL_HEAP_TOP - KERNEL_HEAP_BOTTOM) 0 true MALLOC_MAGIC).
  change (bin bins MISC_BIN) with (head_of 12%nat).
  assert (∀ i, (i < 13)%nat → head_of i ≠ KERNEL_HEAP_BOTTOM) as Hne by (intros i Hi; pose proof (head_of_range i Hi); lia).
  rewrite upd_hdr_run by (cbn [hdrs]; rewrite lookup_insert_eq; eauto). cbn [hdrs pads].
  rewrite upd_hdr_ok.
  2: { cbn [hdrs]. apply alter_some. rewrite lookup_insert_ne by (apply not_eq_sym, Hne; lia).
       rewrite clear_bins_lookup by lia. eauto. }
  cbn [hdrs pads]. eexists. split; [reflexivity|]. set (σ := alter _ _ _).
  assert (σ !! KERNEL_HEAP_BOTTOM = Some (set_prev (head_of 12%nat) hd)) as Hbot.
  { unfold σ. rewrite lookup_alter_ne by (apply Hne; lia). rewrite lookup_alter_eq, lookup_insert_eq. done. }
  assert (∀ i, (i < 13)%nat → σ !! head_of i = Some (if decide (i = 12%nat) then set_next KERNEL_HEAP_BOTTOM zero_hdr else zero_hdr)) as Hhd.
  { intros i Hi. unfold σ. case_decide as E.
    - subst i. rewrite lookup_alter_eq, lookup_alter_ne by (apply not_eq_sym, Hne; lia).
      rewrite lookup_insert_ne, clear_bins_lookup by (try apply not_eq_sym, Hne; lia). done.
    - rewrite lookup_alter_ne by (intros E'%head_of_inj; lia).
      rewrite lookup_alter_ne by (apply not_eq_sym, Hne; lia).
      rewrite lookup_insert_ne, clear_bins_lookup by (try apply not_eq_sym, Hne; lia). done. }
  assert (concat (replicate 12 [] ++ [[KERNEL_HEAP_BOTTOM]]) = [KERNEL_HEAP_BOTTOM]) as EL by done.
  split; [simpl; lia|split| | | |]; cbn [hdrs pads]; rewrite ?EL.
  - done.
  - intros i l Hi. pose proof (lookup_lt_Some _ _ _ Hi) as Hlt. simpl in Hlt.
    destruct (decide (i = 12%nat)) as [->|Hi12].
    + simpl in Hi. simplify_eq. simpl. unfold nxt, prv. rewrite Hhd, decide_True, Hbot by lia. done.
    + assert (l = []) as ->.
      { rewrite lookup_app_l in Hi by (simpl; lia). by apply lookup_replicate in Hi as [? _]. }
      simpl. unfold nxt. rewrite Hhd, decide_False by lia. done.
  - apply NoDup_singleton.
  - intros a ->%list_elem_of_singleton. lia.
  - intros a ->%list_elem_of_singleton. eauto.
  - intros i Hi. rewrite Hhd by done. eauto.
  - intros a. rewrite list_elem_of_singleton. setoid_rewrite list_elem_of_singleton. split.
    + intros ->. eauto.
    + intros (n & ?). by simplify_eq.
  - intros i l a n Hi Ha ?%list_elem_of_singleton. simplify_eq.
    pose proof (lookup_lt_Some _ _ _ Hi) as Hlt. simpl in Hlt. destruct (decide (i = 12%nat)) as [->|Hi12]; [done|].
    rewrite lookup_app_l in Hi by (simpl; lia). apply lookup_replicate in Hi as [-> _]. by apply not_elem_of_nil in Ha.
  - intros b ->%list_elem_of_singleton. eexists. cbn [hdrs ba bs bf]. split_and!; [exact Hbot|done..].
  - exists h0. split; [|done]. unfold σ.
    rewrite lookup_alter_ne by (pose proof (head_of_range 12); lia). rewrite lookup_alter_ne by lia.
    rewrite lookup_insert_ne by lia. rewrite clear_bins_other; [done|]. intros i Hi. pose proof (head_of_range i Hi). lia.
Qed.

(** [malloc_align] never fails an assertion or touches a wild address.  If
    some free chunk can hold [len] bytes behind its headers and alignment
    padding it returns an aligned pointer to at least [len] bytes of such a
    chunk, disjoint from every block allocated before, all of which stay
    allocated with their user pointers; otherwise it returns NULL and changes
    nothing.  The heap invariant (tiling, bins, headers) is preserved. *)
Theorem malloc_align_correct s B L len k :
  heap_inv s B L → 0 ≤ len < 2147483648 → (k ≤ 16)%nat →
  let align := 2 ^ Z.of_nat k in
  ∃ p s' B' L', malloc_align bins len align s = Ok (p, s') ∧ heap_inv s' B' L' ∧
    (p = 0 ∧ s' = s ∧ B' = B ∧ (∀ b, b ∈ B → bf b = true → ¬ fits len align b) ∨
     p ≠ 0 ∧ p `mod` align = 0 ∧
     (∃ c, c ∈ B ∧ bf c = true ∧ fits len align c ∧ ba c + 20 ≤ p ∧ p + len ≤ ba c + bs c) ∧
     (∃ b, b ∈ B' ∧ (b ∉ B) ∧ user_ptr s' b p ∧ p + len ≤ ba b + bs b) ∧
     (∀ c q, c ∈ B → user_ptr s c q →
        c ∈ B' ∧ user_ptr s' c q ∧ (ba c + bs c ≤ p ∨ p + len ≤ ba c))).
Proof. apply malloc_align_ok. Qed.

(** [free] of a user pointer returns its block, merged with the following
    block when that one is free, to the recycle bins; every other allocated
    block keeps its place and pointer and the heap invariant is preserved. *)
Theorem free_correct s B L b p :
  heap_inv s B L → b ∈ B → user_ptr s b p →
  ∃ s' B' L', free bins p s = Ok ((), s') ∧ heap_inv s' B' L' ∧
    (∃ n, mk_blk (ba b) n true ∈ B' ∧ bs b ≤ n) ∧
    (∀ c q, c ∈ B → c ≠ b → user_ptr s c q → c ∈ B' ∧ user_ptr s' c q).
Proof. apply free_ok. Qed.

(** ** Programs of allocations and releases *)

Inductive mop := OMalloc (len : Z) (k : nat) | OFree (i : nat).

(** a pointer returned, with the length and the alignment 2^k asked for *)
Record request := mk_request { r_ptr : Z; r_len : Z; r_align : nat }.

(** [live] are the requests served and not yet freed; [OFree i] frees the i-th *)
Fixpoint exec_mops (ops : list mop) (live : list request) : M mstate (list request) :=
  match ops with
  | [] => mret live
  | OMalloc len k :: ops =>
      p ← malloc_align bins len (2 ^ Z.of_nat k);
      exec_mops ops (if ctrue p then mk_request p len k :: live else live)
  | OFree i :: ops =>
      match live !! i with
      | Some r => free bins (r_ptr r) ;; exec_mops ops (delete i live)
      | None => exec_mops ops live
      end
  end.

Definition valid_mop (op : mop) : Prop :=
  match op with OMalloc len k => 0 ≤ len < 2147483648 ∧ (k ≤ 16)%nat | OFree _ => True end.

(** each live pointer belongs to an allocated block of its own *)
Definition live_ok (s : mstate) (B : list block) (live : list Z) : Prop :=
  ∃ bl, NoDup bl ∧ bl ⊆ B ∧ Forall2 (user_ptr s) bl live.

Lemma live_ok_mono s s' B' bl live :
  (∀ c q, c ∈ bl → user_ptr s c q → c ∈ B' ∧ user_ptr s' c q) →
  NoDup bl → Forall2 (user_ptr s) bl live →
  NoDup bl ∧ bl ⊆ B' ∧ Forall2 (user_ptr s') bl live.
Proof.
  intros H Hnd HF. split_and!; [done| |].
  - intros c Hc. apply list_elem_of_lookup in Hc as [i Hi].
    destruct (Forall2_lookup_l _ _ _ _ _ HF Hi) as (q & _ & Hq).
    apply (H c q); [by eapply list_elem_of_lookup_2|done].
  - apply Forall2_same_length_lookup_2; [by eapply Forall2_length|]. intros i c q Hc Hq.
    apply (H c q); [by eapply list_elem_of_lookup_2|]. by eapply Forall2_lookup_lr.
Qed.

(** the block of a request holds all bytes asked for, at the right place *)
Definition serves (s : mstate) (b : block) (r : request) : Prop :=
  user_ptr s b (r_ptr r) ∧ r_ptr r + r_len r ≤ ba b + bs b ∧ r_ptr r `mod` 2 ^ Z.of_nat (r_align r) = 0.

Definition served (s : mstate) (B : list block) (live : list request) : Prop :=
  ∃ bl, NoDup bl ∧ bl ⊆ B ∧ Forall2 (serves s) bl live.

Lemma served_mono s s' B' bl live :
  (∀ c q, c ∈ bl → user_ptr s c q → c ∈ B' ∧ user_ptr s' c q) →
  NoDup bl → Forall2 (serves s) bl live → NoDup bl ∧ bl ⊆ B' ∧ Forall2 (serves s') bl live.
Proof.
  intros H Hnd HF. split_and!; [done| |].
  - intros c [i Hi]%list_elem_of_lookup. destruct (Forall2_lookup_l _ _ _ _ _ HF Hi) as (r & _ & Hq & _).
    apply (H c (r_ptr r)); [by eapply list_elem_of_lookup_2|done].
  - apply Forall2_same_length_lookup_2; [by eapply Forall2_length|]. intros i c r Hc Hr.
    destruct (Forall2_lookup_lr _ _ _ _ _ _ HF Hc Hr) as (Hq & Hrest). split; [|done].
    apply (H c (r_ptr r)); [by eapply list_elem_of_lookup_2|done].
Qed.

Lemma exec_mops_ok ops : ∀ s B L live,
  Forall valid_mop ops → heap_inv s B L → served s B live →
  ∃ live' s' B' L', exec_mops ops live s = Ok (live', s') ∧ heap_inv s' B' L' ∧ served s' B' live'.
Proof.
  induction ops as [|[len k|i] ops IH]; intros s B L live Hv Hinv Hlive; simpl.
  - by exists live, s, B, L.
  - apply Forall_cons in Hv as [[Hlen Hk] Hv]. destruct Hlive as (bl & Hnd & Hsub & HF).
    destruct (malloc_align_ok s B L len k) as (p & s1 & B1 & L1 & Hr & Hinv1 & Hcase); [done..|].
    rewrite (bind_ok _ _ _ _ _ Hr). eapply IH; [done|done|].
    destruct Hcase as [(-> & -> & -> & _)|(Hp & Hmod & _ & (b & Hb & HbB & Hub & Hbl) & Hkeep)].
    + by exists bl.
    + rewrite (proj2 (ctrue_true p)) by done.
      destruct (served_mono s s1 B1 bl live) as (Hnd1 & Hsub1 & HF1); [|done|done|].
      { intros c q Hc Hq. destruct (Hkeep c q) as (? & ? & _); [by apply Hsub|done|done]. }
      exists (b :: bl). split_and!; [|set_solver|by constructor]. constructor; [|done]. intros Hin. by apply HbB, Hsub.
  - apply Forall_cons in Hv as [_ Hv]. destruct (live !! i) as [r|] eqn:Hi; [|by eapply IH].
    destruct Hlive as (bl & Hnd & Hsub & HF). destruct (Forall2_lookup_r _ _ _ _ _ HF Hi) as (b & Hb & Hub & _).
    destruct (free_ok s B L b (r_ptr r)) as (s1 & B1 & L1 & Hr & Hinv1 & _ & Hkeep);
      [done|apply Hsub; by eapply list_elem_of_lookup_2|done|].
    rewrite (bind_ok _ _ _ _ _ Hr). eapply IH; [done|done|].
    pose proof (delete_Permutation _ _ _ Hb) as HP. rewrite HP in Hnd. apply NoDup_cons in Hnd as [Hbn Hnd].
    exists (delete i bl). apply (served_mono s); [|done|by apply Forall2_delete].
    intros c q Hc Hq. apply Hkeep; [apply Hsub; rewrite HP; by right|by intros ->|done].
Qed.

(** the bytes of the requests lie in the heap, aligned, and do not overlap *)
Definition apart (live : list request) : Prop :=
  (∀ r, r ∈ live → KERNEL_HEAP_BOTTOM < r_ptr r ∧ r_ptr r + r_len r ≤ KERNEL_HEAP_TOP ∧ r_ptr r `mod` 2 ^ Z.of_nat (r_align r) = 0) ∧
  (∀ i j r q, i ≠ j → live !! i = Some r → live !! j = Some q → r_ptr r + r_len r ≤ r_ptr q ∨ r_ptr q + r_len q ≤ r_ptr r).

Lemma serves_range s B L b r :
  heap_inv s B L → b ∈ B → serves s b r → KERNEL_HEAP_BOTTOM ≤ ba b ∧ ba b < r_ptr r ∧ r_ptr r + r_len r ≤ ba b + bs b ∧ ba b + bs b ≤ KERNEL_HEAP_TOP.
Proof.
  intros Hinv Hb ((Hf & h & Hh & E) & Hlen & _). destruct (hi_hdr _ _ _ _ Hinv b Hb) as (h' & Hh' & _ & _ & Hex).
  rewrite Hh in Hh'. injection Hh' as <-. destruct Hex as [_ Hpad]; [done|]. destruct (Hpad Hf) as (Hr & _).
  pose proof (tiles_range _ _ _ _ (hi_tiles _ _ _ _ Hinv) Hb). lia.
Qed.

Lemma served_apart s B L live : heap_inv s B L → served s B live → apart live.
Proof.
  intros Hinv (bl & Hnd & Hsub & HF). split.
  - intros r [i Hi]%list_elem_of_lookup. destruct (Forall2_lookup_r _ _ _ _ _ HF Hi) as (b & Hb & Hs).
    pose proof (serves_range _ _ _ _ _ Hinv (Hsub _ (list_elem_of_lookup_2 _ _ _ Hb)) Hs). destruct Hs as (_ & _ & ?). lia.
  - intros i j r q Hij Hi Hj. destruct (Forall2_lookup_r _ _ _ _ _ HF Hi) as (b & Hb & Hs). destruct (Forall2_lookup_r _ _ _ _ _ HF Hj) as (c & Hc & Ht).
    assert (b ≠ c) as Hne by (intros ->; by apply Hij, (NoDup_lookup bl i j c)).
    pose proof (serves_range _ _ _ _ _ Hinv (Hsub _ (list_elem_of_lookup_2 _ _ _ Hb)) Hs).
    pose proof (serves_range _ _ _ _ _ Hinv (Hsub _ (list_elem_of_lookup_2 _ _ _ Hc)) Ht).
    destruct (tiles_disjoint _ _ _ b c (hi_tiles _ _ _ _ Hinv) (Hsub _ (list_elem_of_lookup_2 _ _ _ Hb)) (Hsub _ (list_elem_of_lookup_2 _ _ _ Hc))) as [?|[?|?]]; [done|lia|lia].
Qed.

(** C2. After [malloc_init], every program of [malloc_align] (lengths below 2^31,
    alignments 2^k up to 65536) and [free] of live pointers runs without a
    failed assertion, a wild access or a diverging search; at its end the heap
    is well formed, every live pointer is aligned as asked for, and the bytes
    [p .. p + len) of the live pointers lie inside the heap and do not overlap.
    The word at address 8 must be at least [KERNEL_HEAP_TOP], as in the
    interrupt table the BIOS leaves there: [__malloc] calls [__free(NULL)] for a
    block it does not split, and [__free] asserts on that word. *)
Theorem malloc_lifecycle s h0 ops :
  hdrs s !! 0 = Some h0 → KERNEL_HEAP_TOP ≤ size h0 < 4294967296 → Forall valid_mop ops →
  ∃ live s' B L, (malloc_init bins ;; exec_mops ops []) s = Ok (live, s') ∧
                 heap_inv s' B L ∧ served s' B live ∧ apart live.
Proof.
  intros H0 Hs0 Hv. destruct (malloc_init_ok s h0 H0 Hs0) as (s1 & Hr & Hinv).
  rewrite (bind_ok _ _ _ _ _ Hr).
  destruct (exec_mops_ok ops s1 _ _ [] Hv Hinv) as (live & s' & B & L & Hr' & Hinv' & Hs).
  { exists []. split_and!; [apply NoDup_nil_2|set_solver|constructor]. }
  exists live, s', B, L. split_and!; [done|done|done|by eapply served_apart].
Qed.
End bins.

(** ** Concrete runs *)
Module MallocExample.
Definition bins : Z := 0x100000.
(** the interrupt vector table of the BIOS at address 0 *)
Definition boot (w8 : Z) : mstate := mk_mstate {[0 := mk_hdr 0 0 w8 0 false 0]} ∅.

Lemma bins_place : 0 < bins ∧ bins + 208 ≤ KERNEL_HEAP_BOTTOM.
Proof. by vm_compute. Qed.

Lemma malloc_lifecycle_witness :
  let ops := [OMalloc 100 0; OMalloc 30 10; OFree 1; OMalloc 70 2] in
  ∃ live s' B L, (malloc_init bins ;; exec_mops bins ops []) (boot 0xF000E2C3) = Ok (live, s') ∧
                 heap_inv bins s' B L ∧ served s' B live ∧ apart live.
Proof.
  apply (malloc_lifecycle bins bins_place (boot 0xF000E2C3) (mk_hdr 0 0 0xF000E2C3 0 false 0)).
  - reflexivity.
  - by vm_compute.
  - repeat (apply Forall_cons; split; [simpl; lia|]); apply Forall_nil_2.
Defined.

Lemma malloc_align_correct_witness :
  ∃ s B L, heap_inv bins s B L ∧
  let align := 2 ^ Z.of_nat 10 in
  ∃ p s' B' L', malloc_align bins 300 align s = Ok (p, s') ∧ heap_inv bins s' B' L' ∧
    (p = 0 ∧ s' = s ∧ B' = B ∧ (∀ b, b ∈ B → bf b = true → ¬ fits 300 align b) ∨
     p ≠ 0 ∧ p `mod` align = 0 ∧
     (∃ c, c ∈ B ∧ bf c = true ∧ fits 300 align c ∧ ba c + 20 ≤ p ∧ p + 300 ≤ ba c + bs c) ∧
     (∃ b, b ∈ B' ∧ (b ∉ B) ∧ user_ptr s' b p ∧ p + 300 ≤ ba b + bs b) ∧
     (∀ c q, c ∈ B → user_ptr s c q →
        c ∈ B' ∧ user_ptr s' c q ∧ (ba c + bs c ≤ p ∨ p + 300 ≤ ba c))).
Proof.
  destruct (malloc_init_ok bins bins_place (boot 0xF000E2C3) (mk_hdr 0 0 0xF000E2C3 0 false 0)) as (s & _ & Hinv);
    [reflexivity|by vm_compute|].
  eexists s, _, _. split; [exact Hinv|].
  apply (malloc_align_correct bins bins_place s _ _ 300 10 Hinv); lia.
Defined.

Lemma free_correct_witness :
  ∃ s B L b p, heap_inv bins s B L ∧ b ∈ B ∧ user_ptr s b p ∧
  ∃ s' B' L', free bins p s = Ok ((), s') ∧ heap_inv bins s' B' L' ∧
    (∃ n, mk_blk (ba b) n true ∈ B' ∧ bs b ≤ n) ∧
    (∀ c q, c ∈ B → c ≠ b → user_ptr s c q → c ∈ B' ∧ user_ptr s' c q).
Proof.
  destruct (malloc_init_ok bins bins_place (boot 0xF000E2C3) (mk_hdr 0 0 0xF000E2C3 0 false 0)) as (s0 & Hr0 & Hinv0);
    [reflexivity|by vm_compute|].
  destruct (malloc_align_ok bins bins_place s0 _ _ 300 10 Hinv0) as (p & s & B & L & Hr & Hinv & Hcase); [lia..|].
  destruct Hcase as [(_ & _ & _ & Hno)|(_ & _ & _ & (b & Hb & _ & Hu & _) & _)].
  { exfalso. eapply Hno; [by left|done|]. by vm_compute. }
  exists s, B, L, b, p. split_and!; [done|done|done|]. by apply (free_correct bins bins_place s B L b p).
Defined.

(** An allocation that leaves no room to split calls [__free(NULL)].  With
    a zero word at address 8 its size assertion fails and the machine stops;
    with the usual interrupt vector there the allocation succeeds. *)
Theorem malloc_unsplit_frees_null :
  let len := KERNEL_HEAP_TOP - KERNEL_HEAP_BOTTOM - 20 in
  (malloc_init bins ;; malloc bins len) (boot 0) = Err AssertFail ∧
  ∃ s', (malloc_init bins ;; malloc bins len) (boot 0xF000E2C3) = Ok (KERNEL_HEAP_BOTTOM + 20, s').
Proof. split; [by vm_compute|]. eexists. vm_compute. reflexivity. Qed.
End MallocExample.
