(* ===== verification/PageAlloc.v ===== *)
(** * Physical page allocators: memory/paging.c, memory/physical_memory.c

    Two bitmaps with one bit per 4 KB frame: [free_page_bitmap] for all of
    physical memory and [free_base_page_bitmap] for the page inventory
    (PAGE_SPACE), the pages page tables are made of.  A bitmap is a map from
    byte index to byte; a byte that was never written is 0 (both are memset in
    [paging_init]).  Each allocator keeps a cursor ([fast_*_addr]) from which
    the next search starts. *)

From Stdlib Require Import ZifyNat.
From stdpp Require Import gmap list.
From S2P Require Import Prelude.
Open Scope Z_scope.
Open Scope zelda_scope.

Definition PAGE_SPACE_BOTTOM : Z := 0x4000000.
Definition PAGE_SPACE_TOP : Z := 0x8000000.
Definition LOW_MEMORY_DELIMITER : Z := 0x100000.
Definition FREE_PAGE_BITMAP_SIZE : Z := Z.shiftr (Z.shiftl 1 20) 3.

Abbreviation bitmap := (gmap Z Z).
Definition byte_at (bm : bitmap) (i : Z) : Z := default 0 (bm !! i).

Definition AT_BYTE (fn : Z) : Z := Z.shiftr fn 3.
Definition AT_BIT (fn : Z) : Z := Z.land fn 7.

Definition IS_PAGE_FREE (bm : bitmap) (pg_fn : Z) : bool :=
  let _pg_fn := Z.shiftr (u32 pg_fn) 12 in
  ! Z.land (Z.shiftr (byte_at bm (AT_BYTE _pg_fn)) (AT_BIT _pg_fn)) 1.

Definition MARK_PAGE_AS_OCCUPIED (pg_fn : Z) (bm : bitmap) : bitmap :=
  let _pg_fn := Z.shiftr (u32 pg_fn) 12 in
  let _mask := u8 (Z.shiftl 1 (AT_BIT _pg_fn)) in
  <[AT_BYTE _pg_fn := Z.lor (byte_at bm (AT_BYTE _pg_fn)) _mask]> bm.

Definition MAKR_PAGE_AS_FREE (pg_fn : Z) (bm : bitmap) : bitmap :=
  let _pg_fn := Z.shiftr (u32 pg_fn) 12 in
  let _mask := u8 (Z.lnot (u8 (Z.shiftl 1 (AT_BIT _pg_fn)))) in
  <[AT_BYTE _pg_fn := Z.land (byte_at bm (AT_BYTE _pg_fn)) _mask]> bm.

Record palloc := mk_palloc {
  free_page_bitmap : bitmap;
  free_base_page_bitmap : bitmap;
  fast_page_addr : Z;
  fast_base_page_addr : Z;
  physical_memory_length : Z }.

Definition set_bitmap (b : bitmap) (s : palloc) :=
  mk_palloc b (free_base_page_bitmap s) (fast_page_addr s) (fast_base_page_addr s) (physical_memory_length s).
Definition set_base_bitmap (b : bitmap) (s : palloc) :=
  mk_palloc (free_page_bitmap s) b (fast_page_addr s) (fast_base_page_addr s) (physical_memory_length s).
Definition set_fast (a : Z) (s : palloc) :=
  mk_palloc (free_page_bitmap s) (free_base_page_bitmap s) a (fast_base_page_addr s) (physical_memory_length s).
Definition set_fast_base (a : Z) (s : palloc) :=
  mk_palloc (free_page_bitmap s) (free_base_page_bitmap s) (fast_page_addr s) a (physical_memory_length s).
Definition set_length (n : Z) (s : palloc) :=
  mk_palloc (free_page_bitmap s) (free_base_page_bitmap s) (fast_page_addr s) (fast_base_page_addr s) n.

Definition mark_occupied (a : Z) : M palloc () :=
  modify (λ s, set_bitmap (MARK_PAGE_AS_OCCUPIED a (free_page_bitmap s)) s).
Definition mark_free (a : Z) : M palloc () :=
  modify (λ s, set_bitmap (MAKR_PAGE_AS_FREE a (free_page_bitmap s)) s).
Definition is_page_free (a : Z) : M palloc bool := gets (λ s, IS_PAGE_FREE (free_page_bitmap s) a).

(** enough iterations to walk the pages of [lo, hi) *)
Definition frames (lo hi : Z) : nat := S (S (Z.to_nat ((hi - lo) / PAGE_SIZE))).

(** ** Physical memory size *)
Record multiboot_mmap := mk_mmap { baseaddr_low : Z; length_low : Z }.

Section palloc.
(** the linker symbol [_kernel_bss_end] *)
Variable kernel_bss_end : Z.

Definition get_system_memory_boundary : M palloc Z := gets physical_memory_length.
Definition get_system_memory_start : Z := page_round_addr kernel_bss_end.

(** the memory map walk and the final check; the rest of the function prints *)
Definition probe_physical_memory (mmap : list multiboot_mmap) : M palloc () :=
  modify (λ s, foldl (λ s m, if LOW_MEMORY_DELIMITER =? baseaddr_low m
                             then set_length (u32 (baseaddr_low m + length_low m)) s else s) s mmap) ;;
  ASSERT (kernel_bss_end <=? PAGE_SPACE_BOTTOM).

(** ** Ordinary pages *)

(** the inner loop of [get_pages]: how many pages from [addr] on are free, at
    most [nr_pages]; the result is the loop variable [idx] *)
Fixpoint count_free (n : nat) (idx nr_pages addr : Z) : M palloc Z :=
  match n with
  | O => mret idx
  | S n =>
      if idx <? nr_pages then
        free ← is_page_free (addr + idx * PAGE_SIZE);
        if free : bool then count_free n (idx + 1) nr_pages addr else mret idx
      else mret idx
  end.

(** the search loop of [get_pages]: [Some addr] when [match] is set *)
Fixpoint search_pages (fuel : nat) (nr_pages boundary addr : Z) : M palloc (option Z) :=
  match fuel with
  | O => fail Diverge
  | S fuel =>
      if addr <? boundary then
        if u32 (addr + PAGE_SIZE * nr_pages) >=? boundary then mret None else
        idx ← count_free (Z.to_nat nr_pages) 0 nr_pages addr;
        if idx =? nr_pages then mret (Some addr)
        else search_pages fuel nr_pages boundary (u32 (addr + PAGE_SIZE * (idx + 1)))
      else mret None
  end.

(** the marking loop of [get_pages] *)
Fixpoint occupy_pages (n : nat) (idx addr : Z) : M palloc () :=
  match n with
  | O => mret ()
  | S n =>
      free ← is_page_free (addr + idx * PAGE_SIZE);
      ASSERT free ;;
      mark_occupied (addr + idx * PAGE_SIZE) ;;
      free ← is_page_free (addr + idx * PAGE_SIZE);
      ASSERT (negb free) ;;
      occupy_pages n (idx + 1) addr
  end.

Definition get_pages (nr_pages : Z) : M palloc Z :=
  let addr := get_system_memory_start in
  boundary ← get_system_memory_boundary;
  ASSERT (! Z.land addr PAGE_MASK) ;;
  found ← search_pages (frames addr boundary) nr_pages boundary addr;
  match found with
  | Some addr => occupy_pages (Z.to_nat nr_pages) 0 addr ;; mret addr
  | None => mret 0
  end.

Fixpoint page_fast_loop (fuel : nat) (boundary : Z) : M palloc Z :=
  match fuel with
  | O => fail Diverge
  | S fuel =>
      a ← gets fast_page_addr;
      if a <? boundary then
        free ← is_page_free a;
        if free : bool then
          mark_occupied a ;;
          free ← is_page_free a;
          ASSERT (negb free) ;;
          modify (set_fast (u32 (a + PAGE_SIZE))) ;;
          mret a
        else
          modify (set_fast (u32 (a + PAGE_SIZE))) ;;
          page_fast_loop fuel boundary
      else mret 0
  end.

Definition get_page_fast : M palloc Z :=
  let addr := get_system_memory_start in
  boundary ← get_system_memory_boundary;
  fast ← gets fast_page_addr;
  when ((fast <? addr) || (fast >=? boundary)) (modify (set_fast addr)) ;;
  page_fast_loop (frames addr boundary) boundary.

Definition get_page : M palloc Z :=
  _page ← get_page_fast;
  if ! _page then get_pages 1 else mret _page.

Fixpoint free_pages_loop (n : nat) (idx pg_addr : Z) : M palloc () :=
  match n with
  | O => mret ()
  | S n => mark_free (pg_addr + PAGE_SIZE * idx) ;; free_pages_loop n (idx + 1) pg_addr
  end.

Definition free_pages (pg_addr nr_pages : Z) : M palloc () :=
  free_pages_loop (Z.to_nat nr_pages) 0 pg_addr.

Definition free_page (pg_addr : Z) : M palloc () := free_pages pg_addr 1.

(** ** Base pages *)

(** [byte_idx] and [bit_set_mask] of a page of the inventory *)
Definition base_byte (_page : Z) : Z := Z.shiftr (Z.shiftr (_page - PAGE_SPACE_BOTTOM) 12) 3.
Definition base_mask (_page : Z) : Z := u8 (Z.shiftl 1 (Z.land (Z.shiftr (_page - PAGE_SPACE_BOTTOM) 12) 7)).

Definition base_page_used (_page : Z) : M palloc bool :=
  gets (λ s, ctrue (Z.land (byte_at (free_base_page_bitmap s) (base_byte _page)) (base_mask _page))).
Definition use_base_page (_page : Z) : M palloc () :=
  modify (λ s, let bm := free_base_page_bitmap s in
               set_base_bitmap (<[base_byte _page := Z.lor (byte_at bm (base_byte _page)) (base_mask _page)]> bm) s).

Fixpoint base_fast_loop (fuel : nat) : M palloc Z :=
  match fuel with
  | O => fail Diverge
  | S fuel =>
      a ← gets fast_base_page_addr;
      if a <? PAGE_SPACE_TOP then
        used ← base_page_used a;
        if used : bool then modify (set_fast_base (a + PAGE_SIZE)) ;; base_fast_loop fuel
        else use_base_page a ;; mret a
      else mret 0
  end.

Definition get_base_page_fast : M palloc Z :=
  a ← gets fast_base_page_addr;
  when ((a <? PAGE_SPACE_BOTTOM) || (a >=? PAGE_SPACE_TOP)) (modify (set_fast_base PAGE_SPACE_BOTTOM)) ;;
  base_fast_loop (frames PAGE_SPACE_BOTTOM PAGE_SPACE_TOP).

Fixpoint base_slow_loop (fuel : nat) (_page : Z) : M palloc Z :=
  match fuel with
  | O => fail Diverge
  | S fuel =>
      if _page <? PAGE_SPACE_TOP then
        used ← base_page_used _page;
        if used : bool then base_slow_loop fuel (_page + PAGE_SIZE)
        else use_base_page _page ;; mret _page
      else mret 0
  end.

Definition get_base_page_slow : M palloc Z :=
  base_slow_loop (frames PAGE_SPACE_BOTTOM PAGE_SPACE_TOP) PAGE_SPACE_BOTTOM.

Definition get_base_page : M palloc Z :=
  target_page ← get_base_page_fast;
  if ! target_page then get_base_page_slow else mret target_page.

Definition free_base_page (_page : Z) : M palloc () :=
  if (_page <? PAGE_SPACE_BOTTOM) || (_page >=? PAGE_SPACE_TOP) then mret () else
  modify (λ s, let bm := free_base_page_bitmap s in
               set_base_bitmap (<[base_byte _page :=
                 Z.land (byte_at bm (base_byte _page)) (u8 (Z.lnot (base_mask _page)))]> bm) s).
End palloc.

(** ** Bits *)
#[local] Ltac Zify.zify_post_hook ::= Z.to_euclidean_division_equations.

(** frame [fn] is marked *)
Definition occupied (bm : bitmap) (fn : Z) : bool := Z.testbit (byte_at bm (fn / 8)) (fn mod 8).

Lemma ctrue_bit z : ctrue (Z.land z 1) = Z.testbit z 0.
Proof.
  change 1 with (Z.ones 1). rewrite Z.land_ones by lia. change (2 ^ 1) with 2.
  rewrite Z.bit0_odd, Zmod_odd. by destruct (Z.odd z).
Qed.

Lemma u8_testbit z i : 0 ≤ i < 8 → Z.testbit (u8 z) i = Z.testbit z i.
Proof. intros Hi. unfold u8. change 256 with (2 ^ 8). apply Z.mod_pow2_bits_low; lia. Qed.

Lemma mask_testbit b i : 0 ≤ b < 8 → 0 ≤ i < 8 → Z.testbit (u8 (Z.shiftl 1 b)) i = (i =? b).
Proof.
  intros Hb Hi. rewrite u8_testbit, Z.shiftl_spec by lia.
  destruct (Z.eqb_spec i b) as [->|Hne]; [by rewrite Z.sub_diag|].
  destruct (Z.ltb_spec (i - b) 0); [by apply Z.testbit_neg_r|].
  apply (Z.testbit_false 1 (i - b)); [lia|]. rewrite Z.div_small; [done|].
  split; [lia|]. apply Z.pow_gt_1; lia.
Qed.

Lemma bit_test z b : 0 ≤ b < 8 → ctrue (Z.land z (u8 (Z.shiftl 1 b))) = Z.testbit z b.
Proof.
  intros Hb. assert (u8 (Z.shiftl 1 b) = 2 ^ b) as ->.
  { rewrite Z.shiftl_1_l. apply Z.mod_small. split; [lia|]. change 256 with (2 ^ 8). apply Z.pow_lt_mono_r; lia. }
  destruct (Z.testbit z b) eqn:E.
  - apply ctrue_true. intros H. apply (f_equal (λ w, Z.testbit w b)) in H.
    rewrite Z.land_spec, E, Z.pow2_bits_true, Z.bits_0 in H by lia. done.
  - apply ctrue_false. apply Z.bits_inj'. intros i Hi. rewrite Z.land_spec, Z.bits_0.
    destruct (Z.eqb_spec i b) as [->|Hne]; [by rewrite E|].
    rewrite Z.pow2_bits_false by lia. apply andb_false_r.
Qed.

Lemma byte_at_insert bm i v j : byte_at (<[i := v]> bm) j = if i =? j then v else byte_at bm j.
Proof.
  unfold byte_at. destruct (Z.eqb_spec i j) as [->|Hne]; [by rewrite lookup_insert_eq|].
  by rewrite lookup_insert_ne.
Qed.

(** setting and clearing the bit of frame [f] *)
Lemma occupied_set bm f fn :
  occupied (<[f / 8 := Z.lor (byte_at bm (f / 8)) (u8 (Z.shiftl 1 (f mod 8)))]> bm) fn
  = (fn =? f) || occupied bm fn.
Proof.
  unfold occupied. rewrite byte_at_insert. destruct (Z.eqb_spec (f / 8) (fn / 8)) as [E|Hne].
  - rewrite Z.lor_spec, mask_testbit, E, orb_comm by (apply Z.mod_pos_bound; lia). f_equal.
    destruct (Z.eqb_spec (fn mod 8) (f mod 8)), (Z.eqb_spec fn f); lia.
  - rewrite (proj2 (Z.eqb_neq fn f)) by congruence. done.
Qed.

Lemma occupied_clear bm f fn :
  occupied (<[f / 8 := Z.land (byte_at bm (f / 8)) (u8 (Z.lnot (u8 (Z.shiftl 1 (f mod 8)))))]> bm) fn
  = negb (fn =? f) && occupied bm fn.
Proof.
  pose proof (Z.mod_pos_bound fn 8 ltac:(lia)). pose proof (Z.mod_pos_bound f 8 ltac:(lia)).
  unfold occupied. rewrite byte_at_insert. destruct (Z.eqb_spec (f / 8) (fn / 8)) as [E|Hne].
  - rewrite Z.land_spec, u8_testbit, Z.lnot_spec, mask_testbit, E, andb_comm by lia. do 2 f_equal.
    destruct (Z.eqb_spec (fn mod 8) (f mod 8)), (Z.eqb_spec fn f); lia.
  - rewrite (proj2 (Z.eqb_neq fn f)) by congruence. done.
Qed.

(** the frame of an address *)
Definition fn_of (a : Z) : Z := a / 4096.

Lemma at_byte_bit f : AT_BYTE f = f / 8 ∧ AT_BIT f = f mod 8.
Proof.
  unfold AT_BYTE, AT_BIT. rewrite Z.shiftr_div_pow2 by lia. change 7 with (Z.ones 3).
  rewrite Z.land_ones by lia. done.
Qed.

Lemma shiftr_12 a : Z.shiftr a 12 = fn_of a.
Proof. unfold fn_of. by rewrite Z.shiftr_div_pow2 by lia. Qed.

Lemma IS_PAGE_FREE_spec bm a : 0 ≤ a < 4294967296 → IS_PAGE_FREE bm a = negb (occupied bm (fn_of a)).
Proof.
  intros Ha. unfold IS_PAGE_FREE. rewrite u32_small, shiftr_12 by done.
  destruct (at_byte_bit (fn_of a)) as [-> ->]. rewrite ctrue_bit, Z.shiftr_spec by lia. done.
Qed.

Lemma MARK_spec bm a fn :
  0 ≤ a < 4294967296 →
  occupied (MARK_PAGE_AS_OCCUPIED a bm) fn = (fn =? fn_of a) || occupied bm fn.
Proof.
  intros Ha. unfold MARK_PAGE_AS_OCCUPIED. rewrite u32_small, shiftr_12 by done.
  destruct (at_byte_bit (fn_of a)) as [-> ->]. apply occupied_set.
Qed.

Lemma MAKR_FREE_spec bm a fn :
  0 ≤ a < 4294967296 →
  occupied (MAKR_PAGE_AS_FREE a bm) fn = negb (fn =? fn_of a) && occupied bm fn.
Proof.
  intros Ha. unfold MAKR_PAGE_AS_FREE. rewrite u32_small, shiftr_12 by done.
  destruct (at_byte_bit (fn_of a)) as [-> ->]. apply occupied_clear.
Qed.

(** page-aligned addresses and their frames *)
Definition aligned (a : Z) : Prop := a mod 4096 = 0.

Lemma aligned_fn a : aligned a → a = 4096 * fn_of a.
Proof. unfold aligned, fn_of. lia. Qed.

Lemma fn_of_add a i : fn_of (a + i * 4096) = fn_of a + i.
Proof. unfold fn_of. lia. Qed.

Lemma aligned_add a i : aligned a → aligned (a + i * 4096).
Proof. unfold aligned. lia. Qed.

(** ** Searching *)

(** [n] free frames from [f] on *)
Definition run_free (bm : bitmap) (f n : Z) : Prop := ∀ j, 0 ≤ j < n → occupied bm (f + j) = false.

Lemma is_page_free_run {A} s f (k : bool → M palloc A) :
  0 ≤ 4096 * f < 4294967296 →
  mbind k (is_page_free (4096 * f)) s = k (negb (occupied (free_page_bitmap s) f)) s.
Proof.
  intros Hf. unfold is_page_free. mstep. rewrite IS_PAGE_FREE_spec by done.
  do 3 f_equal. unfold fn_of. lia.
Qed.

Lemma count_free_ok n idx nr f s :
  Z.of_nat n = nr - idx → 0 ≤ idx → 0 ≤ f → 4096 * (f + nr) < 4294967296 →
  run_free (free_page_bitmap s) f idx →
  ∃ r, count_free n idx nr (4096 * f) s = Ok (r, s) ∧ idx ≤ r ≤ nr ∧
       run_free (free_page_bitmap s) f r ∧ (r < nr → occupied (free_page_bitmap s) (f + r) = true).
Proof.
  revert idx. induction n as [|n IH]; intros idx Hn Hi Hf Hb Hrun; simpl.
  { exists idx. split_and!; [done|lia|lia|done|lia]. }
  rewrite (proj2 (Z.ltb_lt idx nr)) by lia.
  replace (4096 * f + idx * PAGE_SIZE) with (4096 * (f + idx)) by (unfold PAGE_SIZE; lia).
  rewrite is_page_free_run by lia. destruct (occupied _ (f + idx)) eqn:E; simpl.
  - exists idx. split_and!; [done|lia|lia|done|done].
  - destruct (IH (idx + 1)) as (r & Hr & Hle & Hrun' & Hocc); [lia|lia|lia|lia| |].
    + intros j Hj. destruct (decide (j = idx)) as [->|]; [done|]. apply Hrun. lia.
    + exists r. split_and!; [done|lia|lia|done|done].
Qed.

(** a free run of [nr] frames that [get_pages] may return *)
Definition candidate (bm : bitmap) (boundary nr g : Z) : Prop :=
  4096 * (g + nr) < boundary ∧ run_free bm g nr.

Lemma search_pages_ok fuel nr boundary f s :
  1 ≤ nr → 0 ≤ f → boundary + 4096 * nr ≤ 4294963200 →
  boundary / 4096 - f + 1 < Z.of_nat fuel → 0 < Z.of_nat fuel →
  (∃ g, search_pages fuel nr boundary (4096 * f) s = Ok (Some (4096 * g), s) ∧ f ≤ g ∧
        candidate (free_page_bitmap s) boundary nr g) ∨
  (search_pages fuel nr boundary (4096 * f) s = Ok (None, s) ∧
   ∀ g, f ≤ g → ¬ candidate (free_page_bitmap s) boundary nr g).
Proof.
  intros Hnr. revert f. induction fuel as [|fuel IH]; intros f Hf Hbd Hfuel Hpos; [lia|]. simpl.
  destruct (Z.ltb_spec (4096 * f) boundary) as [Hlt|Hge].
  2: { right. split; [done|]. intros g Hg [Hc _]. lia. }
  unfold PAGE_SIZE. rewrite (u32_small (4096 * f + 4096 * nr)) by lia.
  destruct (Z.geb_spec (4096 * f + 4096 * nr) boundary) as [Hge|Hlt'].
  { right. split; [done|]. intros g Hg [Hc _]. lia. }
  destruct (count_free_ok (Z.to_nat nr) 0 nr f s) as (r & Hr & Hle & Hrun & Hocc);
    [lia|lia|lia|lia|intros j Hj; lia|].
  rewrite (bind_ok _ _ _ _ _ Hr). destruct (Z.eqb_spec r nr) as [->|Hne].
  - left. exists f. split_and!; [done|lia|]. split; [lia|done].
  - replace (4096 * f + 4096 * (r + 1)) with (4096 * (f + r + 1)) by lia. rewrite u32_small by lia.
    assert (∀ g, f ≤ g → g < f + r + 1 → ¬ candidate (free_page_bitmap s) boundary nr g) as Hskip.
    { intros g H1 H2 [_ Hg]. specialize (Hg (f + r - g) ltac:(lia)).
      replace (g + (f + r - g)) with (f + r) in Hg by lia. rewrite Hocc in Hg by lia. done. }
    destruct (IH (f + r + 1)) as [(g & Hg & Hle' & Hc)|[Hg Hno]]; [lia|lia|lia|lia| |].
    + left. exists g. split_and!; [done|lia|done].
    + right. split; [done|]. intros g Hg1. destruct (decide (g < f + r + 1)); [by apply Hskip|apply Hno; lia].
Qed.

(** the frames [f, f+n) become occupied, nothing else changes *)
Definition occupies (bm bm' : bitmap) (f n : Z) : Prop :=
  ∀ g, occupied bm' g = ((f <=? g) && (g <? f + n)) || occupied bm g.

(** only the bitmap of ordinary pages and its cursor may differ *)
Definition same_base (s s' : palloc) : Prop :=
  free_base_page_bitmap s' = free_base_page_bitmap s ∧
  fast_base_page_addr s' = fast_base_page_addr s ∧
  physical_memory_length s' = physical_memory_length s.

Lemma same_base_trans s1 s2 s3 : same_base s1 s2 → same_base s2 s3 → same_base s1 s3.
Proof. unfold same_base. intros (-> & -> & ->) (-> & -> & ->). done. Qed.

Lemma mark_occupied_run {A} s f (k : () → M palloc A) :
  mbind k (mark_occupied (4096 * f)) s =
  k () (set_bitmap (MARK_PAGE_AS_OCCUPIED (4096 * f) (free_page_bitmap s)) s).
Proof. done. Qed.

Lemma fn_of_frame f : fn_of (4096 * f) = f.
Proof. unfold fn_of. lia. Qed.

Lemma occupy_pages_ok n idx nr f s :
  Z.of_nat n = nr - idx → 0 ≤ idx → 0 ≤ f → 4096 * (f + nr) < 4294967296 →
  (∀ j, idx ≤ j < nr → occupied (free_page_bitmap s) (f + j) = false) →
  ∃ s', occupy_pages n idx (4096 * f) s = Ok ((), s') ∧
        occupies (free_page_bitmap s) (free_page_bitmap s') (f + idx) (nr - idx) ∧
        same_base s s' ∧ fast_page_addr s' = fast_page_addr s.
Proof.
  revert idx s. induction n as [|n IH]; intros idx s Hn Hi Hf Hb Hrun; simpl.
  { exists s. split_and!; try done. intros g.
    destruct (Z.leb_spec (f + idx) g), (Z.ltb_spec g (f + idx + (nr - idx))); simpl; (done || lia). }
  replace (4096 * f + idx * PAGE_SIZE) with (4096 * (f + idx)) by (unfold PAGE_SIZE; lia).
  rewrite is_page_free_run, Hrun by lia. simpl. mstep. rewrite mark_occupied_run, is_page_free_run by lia.
  cbn [free_page_bitmap set_bitmap].
  rewrite MARK_spec, fn_of_frame, Z.eqb_refl by lia. simpl. mstep.
  set (s1 := set_bitmap _ s).
  assert (∀ g, occupied (free_page_bitmap s1) g = (g =? f + idx) || occupied (free_page_bitmap s) g) as Hs1.
  { intros g. unfold s1. cbn [free_page_bitmap set_bitmap]. by rewrite MARK_spec, fn_of_frame by lia. }
  destruct (IH (idx + 1) s1) as (s' & Hr & Hocc & Hsb & Hfast); [lia|lia|lia|lia| |].
  { intros j Hj. rewrite Hs1, (proj2 (Z.eqb_neq (f + j) (f + idx))), Hrun by lia. done. }
  exists s'. split_and!; [done| |apply Hsb..|done].
  intros g. rewrite Hocc, Hs1.
  destruct (Z.eqb_spec g (f + idx)), (Z.leb_spec (f + idx) g), (Z.leb_spec (f + (idx + 1)) g),
    (Z.ltb_spec g (f + idx + (nr - idx))), (Z.ltb_spec g (f + (idx + 1) + (nr - (idx + 1))));
    simpl; try done; lia.
Qed.

Lemma page_round_aligned a :
  0 ≤ a < 4294963200 → aligned (page_round_addr a) ∧ a ≤ page_round_addr a < a + 4096.
Proof.
  intros Ha. unfold page_round_addr, PAGE_MASK, PAGE_SIZE, aligned. change (4096 - 1) with (Z.ones 12).
  rewrite Z.land_ones by lia. change (2 ^ 12) with 4096.
  assert (Z.land a (Z.lnot (Z.ones 12)) = a - a mod 4096) as ->.
  { rewrite <-Z.ldiff_land, Z.ldiff_ones_r by lia. rewrite Z.shiftl_mul_pow2, Z.shiftr_div_pow2 by lia.
    change (2 ^ 12) with 4096. lia. }
  destruct (ctrue (a mod 4096)) eqn:E.
  - apply ctrue_true in E. rewrite (u32_small (a - a mod 4096)), u32_small by lia. lia.
  - apply ctrue_false in E. lia.
Qed.

Lemma land_mask_aligned a : aligned a → Z.land a PAGE_MASK = 0.
Proof. intros Ha. unfold PAGE_MASK, PAGE_SIZE. change (4096 - 1) with (Z.ones 12). by rewrite Z.land_ones by lia. Qed.

(** ** Ordinary pages *)
Section pages.
Variable kernel_bss_end : Z.
Hypothesis bss_place : 0 < kernel_bss_end ≤ PAGE_SPACE_BOTTOM.

Abbreviation start := (get_system_memory_start kernel_bss_end).
(** the first frame behind the kernel image *)
Definition first_frame : Z := fn_of start.

Lemma start_frame : start = 4096 * first_frame ∧ 0 < first_frame.
Proof.
  destruct (page_round_aligned kernel_bss_end) as [Ha Hr]; [unfold PAGE_SPACE_BOTTOM in *; lia|].
  unfold first_frame, get_system_memory_start. pose proof (aligned_fn _ Ha). lia.
Qed.

(** memory ends below 4 GB, the cursor is page aligned *)
Record palloc_ok (s : palloc) : Prop := {
  po_boundary : physical_memory_length s ≤ 4294959104;
  po_fast : aligned (fast_page_addr s) ∧ 0 ≤ fast_page_addr s }.

Lemma frames_enough lo hi : hi / 4096 - lo / 4096 + 1 ≤ Z.of_nat (frames lo hi).
Proof. unfold frames, PAGE_SIZE. lia. Qed.

Lemma get_pages_run s nr :
  1 ≤ nr → physical_memory_length s + 4096 * nr ≤ 4294963200 →
  (∃ g s', get_pages kernel_bss_end nr s = Ok (4096 * g, s') ∧ first_frame ≤ g ∧
     candidate (free_page_bitmap s) (physical_memory_length s) nr g ∧
     occupies (free_page_bitmap s) (free_page_bitmap s') g nr ∧
     same_base s s' ∧ fast_page_addr s' = fast_page_addr s) ∨
  (get_pages kernel_bss_end nr s = Ok (0, s) ∧
   ∀ g, first_frame ≤ g → ¬ candidate (free_page_bitmap s) (physical_memory_length s) nr g).
Proof.
  intros Hnr Hb. destruct start_frame as [Hs Hf]. unfold get_pages, get_system_memory_boundary.
  cbv zeta. mstep. rewrite land_mask_aligned.
  2: { rewrite Hs. unfold aligned. lia. }
  change (ctrue 0) with false. mstep. rewrite Hs.
  assert (physical_memory_length s / 4096 - first_frame + 1 <
          Z.of_nat (frames (4096 * first_frame) (physical_memory_length s))) as Hfuel.
  { unfold frames, PAGE_SIZE. lia. }
  destruct (search_pages_ok (frames (4096 * first_frame) (physical_memory_length s)) nr
    (physical_memory_length s) first_frame s) as [(g & Hg & Hle & Hc)|[Hg Hno]]; [lia|lia|lia|done|unfold frames; lia|..].
  - left. rewrite (bind_ok _ _ _ _ _ Hg). destruct Hc as [Hc1 Hc2].
    destruct (occupy_pages_ok (Z.to_nat nr) 0 nr g s) as (s' & Hr & Hocc & Hsb & Hfast); [lia|lia|lia|lia|done|].
    rewrite Z.add_0_r, Z.sub_0_r in Hocc.
    exists g, s'. rewrite (bind_ok _ _ _ _ _ Hr). by split_and!.
  - right. rewrite (bind_ok _ _ _ _ _ Hg). by split.
Qed.

Lemma page_fast_loop_ok fuel boundary s f :
  fast_page_addr s = 4096 * f → 0 ≤ f → boundary ≤ 4294959104 →
  boundary / 4096 - f + 1 < Z.of_nat fuel → 0 < Z.of_nat fuel →
  (∃ g s', page_fast_loop fuel boundary s = Ok (4096 * g, s') ∧ f ≤ g ∧ 4096 * g < boundary ∧
     occupied (free_page_bitmap s) g = false ∧
     occupies (free_page_bitmap s) (free_page_bitmap s') g 1 ∧ same_base s s' ∧
     fast_page_addr s' = 4096 * (g + 1)) ∨
  (∃ s' f', page_fast_loop fuel boundary s = Ok (0, s') ∧
     free_page_bitmap s' = free_page_bitmap s ∧ same_base s s' ∧ fast_page_addr s' = 4096 * f' ∧ 0 ≤ f' ∧
     ∀ g, f ≤ g → 4096 * g < boundary → occupied (free_page_bitmap s) g = true).
Proof.
  revert s f. induction fuel as [|fuel IH]; intros s f Hfast Hf Hb Hfuel Hpos; [lia|]. simpl.
  mstep. rewrite Hfast. destruct (Z.ltb_spec (4096 * f) boundary) as [Hlt|Hge].
  2: { right. exists s, f. split_and!; try done. intros. lia. }
  rewrite is_page_free_run by lia. unfold PAGE_SIZE.
  replace (4096 * f + 4096) with (4096 * (f + 1)) by lia. rewrite (u32_small (4096 * (f + 1))) by lia.
  destruct (occupied (free_page_bitmap s) f) eqn:E; simpl.
  - mstep. set (s1 := set_fast _ s).
    destruct (IH s1 (f + 1)) as [(g & s' & H1 & H2 & H3 & H4 & H5 & H6 & H7)|(s' & f' & H1 & H2 & H3 & H4 & H5 & H6)];
      [done|lia|lia|lia|lia|..].
    + left. exists g, s'. split_and!; [done|lia|done|done|done|apply H6..|done].
    + right. exists s', f'. split_and!; [done|done|apply H3..|done|done|]. intros g Hg Hgb.
      destruct (decide (g = f)) as [->|]; [done|]. apply H6; lia.
  - left. rewrite mark_occupied_run, is_page_free_run by lia. cbn [free_page_bitmap set_bitmap].
    rewrite MARK_spec, fn_of_frame, Z.eqb_refl by lia. simpl. mstep. mstep.
    eexists f, _. split_and!; [done|lia|done|done| |done|done].
    cbn [free_page_bitmap set_bitmap set_fast]. intros g. rewrite MARK_spec, fn_of_frame by lia.
    destruct (Z.eqb_spec g f), (Z.leb_spec f g), (Z.ltb_spec g (f + 1)); simpl; (done || lia).
Qed.

(** the outcome of [get_page] *)
Lemma get_page_ok s :
  palloc_ok s →
  ∃ r s', get_page kernel_bss_end s = Ok (r, s') ∧ palloc_ok s' ∧ same_base s s' ∧
    ((r = 0 ∧ free_page_bitmap s' = free_page_bitmap s ∧
      ∀ g, first_frame ≤ g → 4096 * g < physical_memory_length s →
           occupied (free_page_bitmap s) g = true) ∨
     (∃ g, r = 4096 * g ∧ first_frame ≤ g ∧ r < physical_memory_length s ∧
           occupied (free_page_bitmap s) g = false ∧
           occupies (free_page_bitmap s) (free_page_bitmap s') g 1)).
Proof.
  intros [Hb [Ha Hf0]]. destruct start_frame as [Hs Hff]. set (B := physical_memory_length s) in *.
  assert (∃ s0 f0, get_page_fast kernel_bss_end s = page_fast_loop (frames start B) B s0 ∧
            fast_page_addr s0 = 4096 * f0 ∧ first_frame ≤ f0 ∧ (4096 * f0 < B ∨ f0 = first_frame) ∧
            free_page_bitmap s0 = free_page_bitmap s ∧ same_base s s0) as (s0 & f0 & E0 & Hf & Hle & Hlt & Hbm & Hsb).
  { unfold get_page_fast, get_system_memory_boundary. cbv zeta. mstep. mstep.
    destruct ((fast_page_addr s <? start) || (fast_page_addr s >=? physical_memory_length s)) eqn:E.
    - mstep. mstep. eexists _, first_frame. split_and!; [done|simpl; lia|lia|by right|done|done].
    - mstep. exists s, (fn_of (fast_page_addr s)). pose proof (aligned_fn _ Ha).
      apply orb_false_iff in E as [E1 E2]. split_and!; try done; [|left; unfold B]; lia. }
  assert (B / 4096 - f0 + 1 < Z.of_nat (frames start B)) as Hfuel.
  { unfold frames, PAGE_SIZE. rewrite Hs. lia. }
  unfold get_page. 
  destruct (page_fast_loop_ok (frames start B) B s0 f0) as
    [(g & s' & H1 & H2 & H3 & H4 & H5 & H6 & H7)|(s' & f' & H1 & H2 & H3 & H4 & H5 & H6)];
    [done|lia|lia|done|unfold frames; lia|..]; rewrite <-E0 in H1; rewrite (bind_ok _ _ _ _ _ H1).
  - rewrite (proj2 (ctrue_true (4096 * g))) by lia. simpl. exists (4096 * g), s'. rewrite Hbm in *.
    split_and!; [done| |by eapply same_base_trans|].
    + destruct H6 as (_ & _ & El). destruct Hsb as (_ & _ & El0). split; [rewrite El, El0; lia|].
      rewrite H7. unfold aligned. lia.
    + right. exists g. split_and!; (done || lia).
  - change (ctrue 0) with false. simpl. rewrite Hbm in *.
    assert (physical_memory_length s' = B) as EB.
    { destruct H3 as (_ & _ & ?), Hsb as (_ & _ & ?). unfold B. congruence. }
    destruct (get_pages_run s' 1) as [(g & s2 & G1 & G2 & G3 & G4 & G5 & G6)|[G1 G2]]; [lia|lia|..].
    + exists (4096 * g), s2. rewrite EB, H2 in G3. rewrite H2 in G4. destruct G3 as [G3 G3'].
      split_and!; [done| |by eauto using same_base_trans|].
      * destruct G5 as (_ & _ & El). split; [rewrite El, EB; lia|]. rewrite G6, H4. unfold aligned. lia.
      * right. exists g. split_and!; [done|done|lia| |done]. specialize (G3' 0 ltac:(lia)). by rewrite Z.add_0_r in G3'.
    + exists 0, s'. rewrite EB, H2 in G2. split_and!; [done| |by eauto using same_base_trans|].
      * split; [rewrite EB; lia|]. rewrite H4. unfold aligned. lia.
      * left. split_and!; [done|done|]. intros g Hg1 Hg2. destruct (decide (f0 ≤ g)); [apply H6; lia|].
        destruct (occupied (free_page_bitmap s) g) eqn:Eo; [done|]. exfalso. apply (G2 g Hg1).
        split; [lia|]. intros j Hj. by replace (g + j) with g by lia.
Qed.

Lemma free_page_run s g :
  0 ≤ 4096 * g < 4294967296 →
  free_page (4096 * g) s = Ok ((), set_bitmap (MAKR_PAGE_AS_FREE (4096 * g) (free_page_bitmap s)) s).
Proof.
  intros Hg. unfold free_page, free_pages. simpl. unfold mark_free.
  replace (4096 * g + PAGE_SIZE * 0) with (4096 * g) by lia. done.
Qed.

(** ** The allocator as a set of free frames *)
Inductive pg_op := PGet | PFree (g : Z).

Definition exec_pg (op : pg_op) : M palloc Z :=
  match op with
  | PGet => get_page kernel_bss_end
  | PFree g => free_page (4096 * g) ;; mret 0
  end.

Fixpoint exec_pgs (ops : list pg_op) : M palloc (list Z) :=
  match ops with
  | [] => mret []
  | op :: ops => v ← exec_pg op; vs ← exec_pgs ops; mret (v :: vs)
  end.

(** the frames behind the kernel image and below the memory boundary that are
    not marked *)
Definition free_frames (s : palloc) (g : Z) : Prop :=
  first_frame ≤ g ∧ 4096 * g < physical_memory_length s ∧ occupied (free_page_bitmap s) g = false.

Inductive pg_step (F : Z → Prop) : pg_op → Z → (Z → Prop) → Prop :=
| pg_get g (F' : Z → Prop) : F g → (∀ h, F' h ↔ F h ∧ h ≠ g) → pg_step F PGet (4096 * g) F'
| pg_none (F' : Z → Prop) : (∀ g, ¬ F g) → (∀ h, F' h ↔ F h) → pg_step F PGet 0 F'
| pg_free g (F' : Z → Prop) : (∀ h, F' h ↔ F h ∨ h = g) → pg_step F (PFree g) 0 F'.

Inductive pg_run : (Z → Prop) → list pg_op → list Z → (Z → Prop) → Prop :=
| pg_done F : pg_run F [] [] F
| pg_more F op v F1 ops vs F2 : pg_step F op v F1 → pg_run F1 ops vs F2 → pg_run F (op :: ops) (v :: vs) F2.

(** a freed frame lies in the managed range *)
Definition pg_valid (boundary : Z) (op : pg_op) : Prop :=
  match op with PGet => True | PFree g => first_frame ≤ g ∧ 4096 * g < boundary end.

Lemma exec_pg_ok s op :
  palloc_ok s → pg_valid (physical_memory_length s) op →
  ∃ v s', exec_pg op s = Ok (v, s') ∧ palloc_ok s' ∧ pg_step (free_frames s) op v (free_frames s') ∧
          physical_memory_length s' = physical_memory_length s.
Proof.
  intros Hok Hv. destruct start_frame as [_ Hff]. destruct op as [|g]; simpl in *.
  - destruct (get_page_ok s Hok) as (r & s' & Hr & Hok' & (_ & _ & El) & Hcase).
    exists r, s'. split_and!; [done|done| |done]. destruct Hcase as [(-> & Ebm & Hall)|(g & -> & Hg & Hlt & Hfree & Hocc)].
    + apply pg_none; [|intros h; unfold free_frames; by rewrite Ebm, El].
      intros g (H1 & H2 & H3). rewrite Hall in H3 by done. done.
    + apply pg_get; [by split_and!|]. intros h. unfold free_frames. rewrite El, Hocc.
      destruct (Z.leb_spec g h), (Z.ltb_spec h (g + 1)); simpl; try (split; [naive_solver lia|intros [? ?]; naive_solver]).
      split; [naive_solver|]. intros [_ Hne]. lia.
  - destruct Hv as [Hv1 Hv2]. pose proof (po_boundary _ Hok) as Hb.
    eexists 0, _. split; [rewrite (bind_ok _ _ _ _ _ (free_page_run s g ltac:(lia))); reflexivity|].
    split_and!; [by destruct Hok| |done]. apply pg_free. intros h. unfold free_frames.
    cbn [free_page_bitmap set_bitmap physical_memory_length]. rewrite MAKR_FREE_spec, fn_of_frame by lia.
    destruct (Z.eqb_spec h g) as [->|Hne]; simpl; [naive_solver|].
    split; [naive_solver|]. intros [H|H]; [done|lia].
Qed.

(** C30. The page allocator refines a set of free frames: over any sequence of
    [get_page] and [free_page] calls, [get_page] returns the address of a frame
    that is free at that moment and takes it out of the set, and returns 0 only
    when no frame between the kernel image and the memory boundary is free. *)
Theorem pages_refine_set ops : ∀ s,
  palloc_ok s → Forall (pg_valid (physical_memory_length s)) ops →
  ∃ vs s', exec_pgs ops s = Ok (vs, s') ∧ palloc_ok s' ∧ pg_run (free_frames s) ops vs (free_frames s').
Proof.
  induction ops as [|op ops IH]; intros s Hok Hv; simpl.
  - exists [], s. split_and!; [done|done|constructor].
  - apply Forall_cons in Hv as [Hv Hvs].
    destruct (exec_pg_ok s op Hok Hv) as (v & s1 & H1 & Hok1 & Hstep & El).
    destruct (IH s1 Hok1) as (vs & s2 & H2 & Hok2 & Hrun); [by rewrite El|].
    exists (v :: vs), s2. rewrite (bind_ok _ _ _ _ _ H1), (bind_ok _ _ _ _ _ H2).
    split_and!; [done|done|by econstructor].
Qed.

(** [get_pages(n)] returns the first page of [n] contiguous pages that were
    all free, and marks exactly these; it returns 0 and changes nothing exactly
    when no run of [n] free pages ends strictly below the memory boundary. *)
Theorem get_pages_correct s nr :
  1 ≤ nr → physical_memory_length s + 4096 * nr ≤ 4294963200 →
  ∃ r s', get_pages kernel_bss_end nr s = Ok (r, s') ∧
    ((∃ g, r = 4096 * g ∧ r ≠ 0 ∧ first_frame ≤ g ∧ r + 4096 * nr < physical_memory_length s ∧
       run_free (free_page_bitmap s) g nr ∧
       occupies (free_page_bitmap s) (free_page_bitmap s') g nr) ∨
     (r = 0 ∧ s' = s ∧
      ∀ g, first_frame ≤ g → 4096 * g + 4096 * nr < physical_memory_length s →
           ¬ run_free (free_page_bitmap s) g nr)).
Proof.
  intros Hnr Hb. destruct start_frame as [_ Hff].
  destruct (get_pages_run s nr Hnr Hb) as [(g & s' & Hr & Hg & [Hc1 Hc2] & Hocc & _)|[Hr Hno]].
  - exists (4096 * g), s'. split; [done|]. left. exists g. split_and!; (done || lia).
  - exists 0, s. split; [done|]. right. split_and!; [done|done|]. intros g Hg Hlt Hrun.
    apply (Hno g Hg). split; [lia|done].
Qed.
End pages.

(** ** Base pages *)

(** base page number [i] is in use *)
Definition base_used (s : palloc) (i : Z) : bool := occupied (free_base_page_bitmap s) i.
Definition base_page (i : Z) : Z := PAGE_SPACE_BOTTOM + 4096 * i.

Lemma base_page_bits i : base_byte (base_page i) = i / 8 ∧ base_mask (base_page i) = u8 (Z.shiftl 1 (i mod 8)).
Proof.
  unfold base_byte, base_mask, base_page. replace (PAGE_SPACE_BOTTOM + 4096 * i - PAGE_SPACE_BOTTOM) with (4096 * i) by lia.
  rewrite shiftr_12, fn_of_frame. split; [apply at_byte_bit|]. change (Z.land i 7) with (AT_BIT i).
  by rewrite (proj2 (at_byte_bit i)).
Qed.

Lemma base_page_used_run {A} s i (k : bool → M palloc A) :
  mbind k (base_page_used (base_page i)) s = k (base_used s i) s.
Proof.
  unfold base_page_used. mstep. destruct (base_page_bits i) as [-> ->].
  rewrite bit_test by (apply Z.mod_pos_bound; lia). done.
Qed.

(** [i] becomes used, nothing else of the allocator but the base cursor changes *)
Definition takes_base (s s' : palloc) (i : Z) : Prop :=
  (∀ j, base_used s' j = (j =? i) || base_used s j) ∧
  free_page_bitmap s' = free_page_bitmap s ∧ fast_page_addr s' = fast_page_addr s ∧
  physical_memory_length s' = physical_memory_length s.

Lemma use_base_page_ok s i : ∃ s', use_base_page (base_page i) s = Ok ((), s') ∧ takes_base s s' i ∧
  fast_base_page_addr s' = fast_base_page_addr s.
Proof.
  eexists. split; [reflexivity|]. split_and!; [|done]. split_and!; [|done..].
  intros j. unfold base_used. cbn [free_base_page_bitmap set_base_bitmap].
  destruct (base_page_bits i) as [-> ->]. apply occupied_set.
Qed.

Definition BASE_PAGES : Z := (PAGE_SPACE_TOP - PAGE_SPACE_BOTTOM) / 4096.

Lemma base_page_lt i : (base_page i <? PAGE_SPACE_TOP) = (i <? BASE_PAGES).
Proof.
  change BASE_PAGES with 16384. unfold base_page, PAGE_SPACE_BOTTOM, PAGE_SPACE_TOP.
  destruct (Z.ltb_spec i 16384); lia.
Qed.

Lemma base_slow_loop_ok fuel s i :
  0 ≤ i ≤ BASE_PAGES → BASE_PAGES - i < Z.of_nat fuel →
  (∃ j s', base_slow_loop fuel (base_page i) s = Ok (base_page j, s') ∧ i ≤ j < BASE_PAGES ∧
     base_used s j = false ∧ takes_base s s' j ∧ fast_base_page_addr s' = fast_base_page_addr s) ∨
  (base_slow_loop fuel (base_page i) s = Ok (0, s) ∧ ∀ j, i ≤ j < BASE_PAGES → base_used s j = true).
Proof.
  revert i. induction fuel as [|fuel IH]; intros i Hi Hf; [lia|]. simpl. rewrite base_page_lt.
  destruct (Z.ltb_spec i BASE_PAGES) as [Hlt|Hge]; [|right; split; [done|lia]].
  rewrite base_page_used_run. destruct (base_used s i) eqn:E.
  - replace (base_page i + PAGE_SIZE) with (base_page (i + 1)) by (unfold base_page, PAGE_SIZE; lia).
    destruct (IH (i + 1)) as [(j & s' & H1 & H2 & H3)|[H1 H2]]; [lia|lia|..].
    + left. exists j, s'. split_and!; [done|lia|lia|apply H3..].
    + right. split; [done|]. intros j Hj. destruct (decide (j = i)) as [->|]; [done|]. apply H2. lia.
  - left. destruct (use_base_page_ok s i) as (s' & H1 & H2 & H3). exists i, s'.
    rewrite (bind_ok _ _ _ _ _ H1). split_and!; [done|lia|done|done|done|done].
Qed.

(** the base cursor points at a base page (or behind the last one) *)
Definition base_cursor (s : palloc) (i : Z) : Prop :=
  fast_base_page_addr s = base_page i ∧ 0 ≤ i ≤ BASE_PAGES.

Lemma base_fast_loop_ok fuel s i :
  base_cursor s i → BASE_PAGES - i < Z.of_nat fuel →
  (∃ j s', base_fast_loop fuel s = Ok (base_page j, s') ∧ 0 ≤ j < BASE_PAGES ∧
     base_used s j = false ∧ takes_base s s' j ∧ base_cursor s' j) ∨
  (∃ s', base_fast_loop fuel s = Ok (0, s') ∧ base_cursor s' BASE_PAGES ∧ s' = set_fast_base (base_page BASE_PAGES) s).
Proof.
  revert s i. induction fuel as [|fuel IH]; intros s i [Hc Hi] Hf; [lia|]. simpl. mstep. rewrite Hc, base_page_lt.
  destruct (Z.ltb_spec i BASE_PAGES) as [Hlt|Hge].
  2: { right. exists s. assert (i = BASE_PAGES) as -> by lia. split_and!; [done|by split|]. destruct s; simpl in *. by rewrite Hc. }
  rewrite base_page_used_run. destruct (base_used s i) eqn:E.
  - mstep. replace (base_page i + PAGE_SIZE) with (base_page (i + 1)) by (unfold base_page, PAGE_SIZE; lia).
    set (s1 := set_fast_base _ s).
    destruct (IH s1 (i + 1)) as [(j & s' & H1 & H2 & H3 & H4 & H5)|(s' & H1 & H2 & ->)]; [split; [done|lia]|lia|..].
    + left. exists j, s'. split_and!; [done|lia|lia|done|apply H4|done].
    + right. eexists. split_and!; [done|done|done].
  - left. destruct (use_base_page_ok s i) as (s' & H1 & H2 & H3). exists i, s'.
    rewrite (bind_ok _ _ _ _ _ H1). split_and!; [done|lia|lia|done|done|]. split; [congruence|lia].
Qed.

(** the cursor is 0 before the first call *)
Definition base_ok (s : palloc) : Prop :=
  fast_base_page_addr s = 0 ∨ ∃ i, base_cursor s i.

Lemma get_base_page_ok s :
  base_ok s →
  ∃ r s', get_base_page s = Ok (r, s') ∧ base_ok s' ∧
    ((r = 0 ∧ (free_base_page_bitmap s' = free_base_page_bitmap s ∧
       free_page_bitmap s' = free_page_bitmap s ∧ fast_page_addr s' = fast_page_addr s ∧
       physical_memory_length s' = physical_memory_length s) ∧
      ∀ j, 0 ≤ j < BASE_PAGES → base_used s j = true) ∨
     (∃ j, r = base_page j ∧ 0 ≤ j < BASE_PAGES ∧ base_used s j = false ∧ takes_base s s' j)).
Proof.
  intros Hok.
  assert (∃ s0 i, get_base_page_fast s = base_fast_loop (frames PAGE_SPACE_BOTTOM PAGE_SPACE_TOP) s0 ∧ base_cursor s0 i ∧
    free_base_page_bitmap s0 = free_base_page_bitmap s ∧ free_page_bitmap s0 = free_page_bitmap s ∧
    fast_page_addr s0 = fast_page_addr s ∧ physical_memory_length s0 = physical_memory_length s)
    as (s0 & i & E0 & Hc & B1 & B2 & B3 & B4).
  { unfold get_base_page_fast. mstep.
    destruct ((fast_base_page_addr s <? PAGE_SPACE_BOTTOM) || (fast_base_page_addr s >=? PAGE_SPACE_TOP)) eqn:E.
    - mstep. mstep. eexists _, 0. split_and!; [done| |done..]. split; [done|]. change BASE_PAGES with 16384. lia.
    - destruct Hok as [H0|(i & Hc)].
      + rewrite H0 in E. done.
      + mstep. by exists s, i. }
  assert (∀ k, 0 ≤ k → BASE_PAGES - k < Z.of_nat (frames PAGE_SPACE_BOTTOM PAGE_SPACE_TOP)) as Hfuel.
  { intros k Hk. unfold frames, PAGE_SIZE, BASE_PAGES. lia. }
  assert (∀ j, base_used s0 j = base_used s j) as Hu by (intros j; unfold base_used; by rewrite B1).
  unfold get_base_page.
  destruct (base_fast_loop_ok _ s0 i Hc (Hfuel i (proj1 (proj2 Hc)))) as [(j & s' & H1 & H2 & H3 & H4 & H5)|(s' & H1 & H2 & ->)];
    rewrite <-E0 in H1; rewrite (bind_ok _ _ _ _ _ H1).
  - rewrite (proj2 (ctrue_true (base_page j))) by (unfold base_page, PAGE_SPACE_BOTTOM; lia). simpl.
    exists (base_page j), s'. split_and!; [done|right; by exists j|]. right. exists j. rewrite <-Hu.
    destruct H4 as (G1 & G2 & G3 & G4). split_and!; [done|lia|lia|done|]. split_and!; [|congruence..].
    intros k. by rewrite G1, Hu.
  - change (ctrue 0) with false. simpl. unfold get_base_page_slow.
    change PAGE_SPACE_BOTTOM with (base_page 0) at 2. set (s1 := set_fast_base _ s0) in *.
    destruct (base_slow_loop_ok (frames PAGE_SPACE_BOTTOM PAGE_SPACE_TOP) s1 0) as [(j & s' & G1 & G2 & G3 & G4 & G5)|[G1 G2]];
      [change BASE_PAGES with 16384; lia|by apply Hfuel|..].
    + exists (base_page j), s'. split_and!; [done|right; exists BASE_PAGES; destruct H2; split; [congruence|done]|].
      right. exists j. destruct G4 as (F1 & F2 & F3 & F4). rewrite <-Hu.
      split_and!; [done|lia|lia|done|]. split_and!; [|by etrans..]. intros k. rewrite F1. by rewrite <-Hu.
    + exists 0, s1. split_and!; [done|right; by exists BASE_PAGES|]. left.
      split_and!; [done|done|done|done|done|]. intros j Hj. rewrite <-Hu. by apply G2.
Qed.

(** [free_base_page] of a base page *)
Lemma free_base_page_ok s i :
  0 ≤ i < BASE_PAGES →
  ∃ s', free_base_page (base_page i) s = Ok ((), s') ∧
    (∀ j, base_used s' j = negb (j =? i) && base_used s j) ∧
    free_page_bitmap s' = free_page_bitmap s ∧ fast_page_addr s' = fast_page_addr s ∧
    fast_base_page_addr s' = fast_base_page_addr s ∧ physical_memory_length s' = physical_memory_length s.
Proof.
  intros Hi. unfold free_base_page. pose proof (base_page_lt i) as Hlt.
  rewrite (proj2 (Z.ltb_lt i BASE_PAGES)) in Hlt by lia.
  rewrite (proj2 (Z.ltb_ge (base_page i) PAGE_SPACE_BOTTOM)) by (unfold base_page; lia).
  assert ((base_page i >=? PAGE_SPACE_TOP) = false) as -> by lia. simpl.
  eexists. split; [reflexivity|]. split_and!; [|done..].
  intros j. unfold base_used. cbn [free_base_page_bitmap set_base_bitmap].
  destruct (base_page_bits i) as [-> ->]. apply occupied_clear.
Qed.

(** ** Concrete runs: a kernel image of three pages, five pages of memory *)
Module PageExample.
Definition bss_end : Z := 0x2800.
Definition start : palloc := mk_palloc ∅ ∅ 0 0 0x5000.

Lemma bss_place : 0 < bss_end ≤ PAGE_SPACE_BOTTOM.
Proof. by vm_compute. Qed.

Lemma page_start_ok : palloc_ok start.
Proof. by vm_compute. Qed.

Lemma pages_refine_set_witness :
  let ops := [PGet; PGet; PGet; PFree 3; PGet] in
  ∃ vs s', exec_pgs bss_end ops start = Ok (vs, s') ∧ palloc_ok s' ∧
           pg_run (free_frames bss_end start) ops vs (free_frames bss_end s').
Proof.
  apply (pages_refine_set bss_end bss_place).
  - apply page_start_ok.
  - repeat (apply Forall_cons; split; [by vm_compute|]); apply Forall_nil_2.
Defined.

Lemma get_pages_correct_witness :
  ∃ r s', get_pages bss_end 1 start = Ok (r, s') ∧
    ((∃ g, r = 4096 * g ∧ r ≠ 0 ∧ first_frame bss_end ≤ g ∧ r + 4096 * 1 < physical_memory_length start ∧
       run_free (free_page_bitmap start) g 1 ∧
       occupies (free_page_bitmap start) (free_page_bitmap s') g 1) ∨
     (r = 0 ∧ s' = start ∧
      ∀ g, first_frame bss_end ≤ g → 4096 * g + 4096 * 1 < physical_memory_length start →
           ¬ run_free (free_page_bitmap start) g 1)).
Proof. apply (get_pages_correct bss_end bss_place start 1); by vm_compute. Defined.

(** [get_pages] compares with the boundary by [>=], so it never uses the
    last page: two free pages remain, [get_page] can hand both out, but
    [get_pages(2)] fails. *)
Theorem get_pages_skips_last_page :
  (∃ s', get_pages bss_end 2 start = Ok (0, s')) ∧
  (∃ s', exec_pgs bss_end [PGet; PGet; PGet] start = Ok ([0x3000; 0x4000; 0], s')).
Proof. split; eexists; vm_compute; reflexivity. Qed.
End PageExample.
