(* ===== verification/Paging.v ===== *)
(** * Page tables: memory/paging.c, memory/include/paging.h, enable_task_paging of
    kernel/task_paging.c

    Physical memory is a store of 32-bit words.  A page directory or page table
    is 1024 words at a page-aligned address; the pages for them come from the
    base-page allocator of PageAlloc.  Page table entries are [struct pte32] and
    [struct pde32] values with their packed encodings. *)

From Stdlib Require Import ZifyNat.
From stdpp Require Import gmap list.
From S2P Require Import Prelude PageAlloc.
Open Scope Z_scope.
Open Scope zelda_scope.

Definition USERSPACE_BOTTOM : Z := 0x40000000.

Definition PAGE_PERMISSION_READ_ONLY : Z := 0.
Definition PAGE_PERMISSION_READ_WRITE : Z := 1.
Definition PAGE_PERMISSION_USER : Z := 1.
Definition PAGE_PERMISSION_SUPERVISOR : Z := 0.
Definition PAGE_WRITETHROUGH : Z := 1.
Definition PAGE_WRITEBACK : Z := 0.
Definition PAGE_CACHE_DISABLED : Z := 1.
Definition PAGE_CACHE_ENABLED : Z := 0.

(** ** Entries *)
Record pde32 := mk_pde {
  pd_present : Z; pd_write_permission : Z; pd_supervisor_permission : Z;
  pd_page_writethrough : Z; pd_page_cachedisable : Z; pd_accessed : Z;
  pd_reserved0 : Z; pd_page_size : Z; pd_reserved1 : Z; pt_frame : Z }.

Record pte32 := mk_pte {
  present : Z; write_permission : Z; supervisor_permission : Z;
  page_writethrough : Z; page_cachedisable : Z; accessed : Z;
  dirty : Z; pat : Z; global : Z; reserved : Z; pg_frame : Z }.

(** a bit field of [w] bits at bit [i] *)
Definition field (v i w : Z) : Z := Z.shiftl (v mod 2 ^ w) i.
Definition get_field (d i w : Z) : Z := (Z.shiftr d i) mod 2 ^ w.

Definition PDE32_TO_DWORD (e : pde32) : Z :=
  field (pd_present e) 0 1 + field (pd_write_permission e) 1 1 + field (pd_supervisor_permission e) 2 1 +
  field (pd_page_writethrough e) 3 1 + field (pd_page_cachedisable e) 4 1 + field (pd_accessed e) 5 1 +
  field (pd_reserved0 e) 6 1 + field (pd_page_size e) 7 1 + field (pd_reserved1 e) 8 4 + field (pt_frame e) 12 20.

Definition PTE32_TO_DWORD (e : pte32) : Z :=
  field (present e) 0 1 + field (write_permission e) 1 1 + field (supervisor_permission e) 2 1 +
  field (page_writethrough e) 3 1 + field (page_cachedisable e) 4 1 + field (accessed e) 5 1 +
  field (dirty e) 6 1 + field (pat e) 7 1 + field (global e) 8 1 + field (reserved e) 9 3 + field (pg_frame e) 12 20.

(** the struct at a word *)
Definition PDE32_PTR (d : Z) : pde32 :=
  mk_pde (get_field d 0 1) (get_field d 1 1) (get_field d 2 1) (get_field d 3 1) (get_field d 4 1)
    (get_field d 5 1) (get_field d 6 1) (get_field d 7 1) (get_field d 8 4) (get_field d 12 20).
Definition PTE32_PTR (d : Z) : pte32 :=
  mk_pte (get_field d 0 1) (get_field d 1 1) (get_field d 2 1) (get_field d 3 1) (get_field d 4 1)
    (get_field d 5 1) (get_field d 6 1) (get_field d 7 1) (get_field d 8 1) (get_field d 9 3) (get_field d 12 20).

Definition create_pte32 (write_permission supervisor_permission page_writethrough page_cachedisable pg_frame : Z) : Z :=
  PTE32_TO_DWORD (mk_pte 1 write_permission supervisor_permission page_writethrough page_cachedisable
                    0 0 0 0 0 (Z.shiftr pg_frame 12)).

Definition create_pde32 (write_permission supervisor_permission page_writethrough page_cachedisable pt_frame : Z) : Z :=
  PDE32_TO_DWORD (mk_pde 1 write_permission supervisor_permission page_writethrough page_cachedisable
                    0 0 0 0 (Z.shiftr pt_frame 12)).

(** ** State *)
Record pstate := mk_pstate {
  pal : palloc;
  mem : gmap Z Z;
  kernel_page_directory : Z;
  cr3 : Z }.

Definition pal_l : lens pstate palloc :=
  Lens pal (λ p s, mk_pstate p (mem s) (kernel_page_directory s) (cr3 s)).
Definition mem_l : lens pstate (gmap Z Z) :=
  Lens mem (λ m s, mk_pstate (pal s) m (kernel_page_directory s) (cr3 s)).

Definition read_word (a : Z) : M pstate Z := zoom mem_l (load a).
Definition write_word (a v : Z) : M pstate () := zoom mem_l (update a (λ _, v)).

(** [memset((void * )page, 0x0, PAGE_SIZE)] *)
Definition clear_page (m : gmap Z Z) (page : Z) : gmap Z Z :=
  foldr (λ i m, <[page + 4 * Z.of_nat i := 0]> m) m (seq 0 1024).
Definition memset_page (page : Z) : M pstate () :=
  modify (λ s, mk_pstate (pal s) (clear_page (mem s) page) (kernel_page_directory s) (cr3 s)).

Definition pd_index (virt_addr : Z) : Z := Z.land (Z.shiftr virt_addr 22) 0x3ff.
Definition pt_index (virt_addr : Z) : Z := Z.land (Z.shiftr virt_addr 12) 0x3ff.

Definition PAGE_ALIGN (addr : Z) : Z := Z.land addr (Z.lnot PAGE_MASK).

Definition get_kernel_page_directory : M pstate Z := gets kernel_page_directory.

(** the part [kernel_map_page] and [userspace_map_page] share: the page table
    of directory [pd] for [virt_addr], allocated when absent; [None] when no
    base page is left *)
Definition page_table_of (pd virt_addr supervisor : Z) : M pstate (option Z) :=
  d ← read_word (pd + 4 * pd_index virt_addr);
  if ! pd_present (PDE32_PTR d) then
    page_table ← zoom pal_l get_base_page;
    if ! page_table then mret None else
    memset_page page_table ;;
    write_word (pd + 4 * pd_index virt_addr)
      (create_pde32 PAGE_PERMISSION_READ_WRITE supervisor PAGE_WRITEBACK PAGE_CACHE_ENABLED page_table) ;;
    d ← read_word (pd + 4 * pd_index virt_addr);
    ASSERT (ctrue (pd_present (PDE32_PTR d))) ;;
    mret (Some (Z.shiftl (pt_frame (PDE32_PTR d)) 12))
  else
    ASSERT (ctrue (pd_present (PDE32_PTR d))) ;;
    mret (Some (Z.shiftl (pt_frame (PDE32_PTR d)) 12)).

(** storing the entry and the two checks behind it *)
Definition put_entry (page_table virt_addr phy_addr entry : Z) : M pstate () :=
  write_word (page_table + 4 * pt_index virt_addr) entry ;;
  d ← read_word (page_table + 4 * pt_index virt_addr);
  ASSERT (ctrue (present (PTE32_PTR d))) ;;
  ASSERT (Z.shiftl (pg_frame (PTE32_PTR d)) 12 =? PAGE_ALIGN phy_addr).

Definition kernel_map_page (virt_addr phy_addr write_permission page_writethrough page_cachedisable : Z) : M pstate () :=
  pd ← get_kernel_page_directory;
  page_table ← page_table_of pd virt_addr PAGE_PERMISSION_SUPERVISOR;
  match page_table with
  | None => fail AssertFail
  | Some page_table =>
      put_entry page_table virt_addr phy_addr
        (create_pte32 write_permission PAGE_PERMISSION_SUPERVISOR page_writethrough page_cachedisable phy_addr)
  end.

Definition virt2phy (page_directory virt_addr : Z) : M pstate Z :=
  d ← read_word (page_directory + 4 * pd_index virt_addr);
  if ! pd_present (PDE32_PTR d) then mret 0 else
  e ← read_word (Z.shiftl (pt_frame (PDE32_PTR d)) 12 + 4 * pt_index virt_addr);
  if ! present (PTE32_PTR e) then mret 0 else
  mret (Z.lor (Z.shiftl (pg_frame (PTE32_PTR e)) 12) (Z.land virt_addr PAGE_MASK)).

Definition page_present (page_directory virt_addr : Z) : M pstate Z :=
  d ← read_word (page_directory + 4 * pd_index virt_addr);
  if ! pd_present (PDE32_PTR d) then mret (u32 (- ERR_NOT_PRESENT)) else
  e ← read_word (Z.shiftl (pt_frame (PDE32_PTR d)) 12 + 4 * pt_index virt_addr);
  if ! present (PTE32_PTR e) then mret (u32 (- ERR_NOT_PRESENT)) else
  mret OK.

(** the directory entries above the kernel's gigabyte *)
Definition directory_index_top : Z := Z.shiftr (Z.shiftr USERSPACE_BOTTOM 12) 10.

Fixpoint copy_entries (n : nat) (idx src dst : Z) : M pstate () :=
  match n with
  | O => mret ()
  | S n =>
      v ← (if ctrue src then read_word (src + 4 * idx) else mret 0);
      write_word (dst + 4 * idx) v ;;
      copy_entries n (idx + 1) src dst
  end.

Definition load_cr3 (pd : Z) : M pstate () :=
  modify (λ s, mk_pstate (pal s) (mem s) (kernel_page_directory s) pd).

Definition enable_kernel_paging : M pstate () :=
  pd ← get_kernel_page_directory;
  copy_entries (Z.to_nat (1024 - directory_index_top)) directory_index_top NULL pd ;;
  load_cr3 pd.

(** [enable_task_paging(task)], given [task->page_directory] *)
Definition enable_task_paging (page_directory : Z) : M pstate Z :=
  pd ← get_kernel_page_directory;
  copy_entries (Z.to_nat (1024 - directory_index_top)) directory_index_top page_directory pd ;;
  load_cr3 pd ;;
  mret OK.

(** ** Initialisation *)
Section init.
Variables kernel_text_start kernel_data_start kernel_bss_end : Z.

Definition occupy (a : Z) : M pstate () :=
  zoom pal_l (mark_occupied a) ;;
  free ← zoom pal_l (is_page_free a);
  ASSERT (negb free).

(** [for (a = lo; a < hi; a += PAGE_SIZE) body(a)] *)
Fixpoint for_pages (fuel : nat) (a hi : Z) (body : Z → M pstate ()) : M pstate () :=
  match fuel with
  | O => fail Diverge
  | S fuel =>
      if a <? hi then body a ;; for_pages fuel (a + PAGE_SIZE) hi body else mret ()
  end.

(** [for (idx = lo; idx < hi; idx++) bitmap[idx] = 0xff] *)
Definition fill_bytes (lo hi : Z) (bm : bitmap) : bitmap :=
  foldr (λ i bm, <[lo + Z.of_nat i := 0xff]> bm) bm (seq 0 (Z.to_nat (hi - lo))).

Definition paging_init : M pstate () :=
  let sys_mem_start := get_system_memory_start kernel_bss_end in
  sys_mem_boundary ← zoom pal_l get_system_memory_boundary;
  zoom pal_l (modify (λ p, set_base_bitmap ∅ (set_bitmap
    (fill_bytes (AT_BYTE (Z.shiftr sys_mem_boundary 12)) FREE_PAGE_BITMAP_SIZE ∅) p))) ;;
  for_pages (frames 0 kernel_bss_end) 0 kernel_bss_end occupy ;;
  pd ← zoom pal_l get_base_page;
  modify (λ s, mk_pstate (pal s) (mem s) pd (cr3 s)) ;;
  memset_page pd ;;
  for_pages (frames PAGE_SPACE_BOTTOM PAGE_SPACE_TOP) PAGE_SPACE_BOTTOM PAGE_SPACE_TOP occupy ;;
  for_pages (frames PAGE_SPACE_BOTTOM PAGE_SPACE_TOP) PAGE_SPACE_BOTTOM PAGE_SPACE_TOP (λ a,
    kernel_map_page a a PAGE_PERMISSION_READ_WRITE PAGE_WRITEBACK PAGE_CACHE_ENABLED) ;;
  for_pages (frames 0 sys_mem_start) 0 sys_mem_start (λ a,
    kernel_map_page a a
      (if (kernel_text_start <=? a) && (a <? kernel_data_start)
       then PAGE_PERMISSION_READ_ONLY else PAGE_PERMISSION_READ_WRITE)
      PAGE_WRITEBACK PAGE_CACHE_ENABLED) ;;
  load_cr3 pd.
End init.

(** ** Encoding *)

Ltac bits :=
  unfold PTE32_TO_DWORD, PDE32_TO_DWORD, PTE32_PTR, PDE32_PTR, field, get_field;
  cbn [pd_present pd_write_permission pd_supervisor_permission pd_page_writethrough pd_page_cachedisable
       pd_accessed pd_reserved0 pd_page_size pd_reserved1 pt_frame present write_permission
       supervisor_permission page_writethrough page_cachedisable accessed dirty pat global reserved pg_frame];
  rewrite ?Z.shiftl_mul_pow2, ?Z.shiftr_div_pow2 by lia;
  change (2 ^ 0) with 1; change (2 ^ 1) with 2; change (2 ^ 2) with 4; change (2 ^ 3) with 8;
  change (2 ^ 4) with 16; change (2 ^ 5) with 32; change (2 ^ 6) with 64;
  change (2 ^ 7) with 128; change (2 ^ 8) with 256; change (2 ^ 9) with 512;
  change (2 ^ 12) with 4096; change (2 ^ 20) with 1048576.

Ltac opaque_div :=
  repeat match goal with
  | |- context [?a mod ?b] => let x := fresh "x" in set (x := a mod b) in *; clearbody x
  | H : context [?a mod ?b] |- _ => let x := fresh "x" in set (x := a mod b) in *; clearbody x
  end;
  repeat match goal with
  | |- context [?a / ?b] => let x := fresh "x" in set (x := a / b) in *; clearbody x
  | H : context [?a / ?b] |- _ => let x := fresh "x" in set (x := a / b) in *; clearbody x
  end.

(** the bits of [d] from [a] on are those of the field and the rest *)
Lemma split_field d a w b : 0 < a → 0 < w → b = a * w → d / a = (d / a) mod w + w * (d / b).
Proof.
  intros Ha Hw ->. rewrite <-Z.div_div by lia. pose proof (Z.div_mod (d / a) w ltac:(lia)). lia.
Qed.

(** Reading a 32-bit word as [struct pte32] and packing it again gives the
    word back, and so for [struct pde32]. *)
Theorem entry_roundtrip d :
  0 ≤ d < 4294967296 → PTE32_TO_DWORD (PTE32_PTR d) = d ∧ PDE32_TO_DWORD (PDE32_PTR d) = d.
Proof.
  intros Hd. split; revert Hd; bits; intros Hd.
  all: rewrite ?Z.div_1_r; rewrite !Z.mod_mod by done.
  all: pose proof (split_field d 1 2 2 eq_refl eq_refl eq_refl).
  all: pose proof (split_field d 2 2 4 eq_refl eq_refl eq_refl).
  all: pose proof (split_field d 4 2 8 eq_refl eq_refl eq_refl).
  all: pose proof (split_field d 8 2 16 eq_refl eq_refl eq_refl).
  all: pose proof (split_field d 16 2 32 eq_refl eq_refl eq_refl).
  all: pose proof (split_field d 32 2 64 eq_refl eq_refl eq_refl).
  all: pose proof (split_field d 64 2 128 eq_refl eq_refl eq_refl).
  all: pose proof (split_field d 128 2 256 eq_refl eq_refl eq_refl).
  all: pose proof (split_field d 256 2 512 eq_refl eq_refl eq_refl).
  all: pose proof (split_field d 512 8 4096 eq_refl eq_refl eq_refl).
  all: pose proof (split_field d 256 16 4096 eq_refl eq_refl eq_refl).
  all: pose proof (split_field d 4096 1048576 4294967296 eq_refl eq_refl eq_refl).
  all: pose proof (Z.div_small d 4294967296 Hd).
  all: rewrite Z.div_1_r in *; opaque_div; lia.
Qed.

Lemma mod2_cases z : z mod 2 = 0 ∨ z mod 2 = 1.
Proof. pose proof (Z.mod_pos_bound z 2 ltac:(lia)). lia. Qed.

Ltac flag z := let H := fresh in destruct (mod2_cases z) as [H|H]; rewrite !H.

Ltac low_div := lazymatch goal with |- (?a | 4096) => exists (4096 / a); reflexivity end.

(** field [w] at [a] of a word [low + 4096 * F] *)
Lemma low_field low F a w : 0 < a → 0 < w → (a * w | 4096) → 0 ≤ low < 4096 →
  ((low + F * 4096) / a) mod w = (low / a) mod w.
Proof.
  intros Ha Hw [q Hq] Hl. rewrite Hq. replace (F * (q * (a * w))) with (F * q * w * a) by ring.
  rewrite Z.div_add by lia. rewrite Z.mod_add by lia. done.
Qed.

Lemma high_field low F : 0 ≤ low < 4096 → (low + F * 4096) / 4096 = F.
Proof. intros Hl. rewrite Z.div_add, Z.div_small by lia. lia. Qed.

Lemma create_pte32_fields w s wt cd f :
  0 ≤ f < 4294967296 →
  PTE32_PTR (create_pte32 w s wt cd f) =
  mk_pte 1 (w mod 2) (s mod 2) (wt mod 2) (cd mod 2) 0 0 0 0 0 (f / 4096).
Proof.
  intros Hf. unfold create_pte32. bits. rewrite (Z.mod_small (f / 4096) 1048576).
  2: { split; [apply Z.div_pos; lia|]. apply Z.div_lt_upper_bound; lia. }
  assert (0 ≤ f / 4096 < 1048576) by (split; [apply Z.div_pos; lia|apply Z.div_lt_upper_bound; lia]).
  flag w; flag s; flag wt; flag cd; rewrite !Zmod_0_l; change (1 mod 2) with 1;
    rewrite !low_field by (done || low_div); rewrite high_field by done;
    rewrite (Z.mod_small (f / 4096)) by lia; reflexivity.
Qed.

Lemma create_pde32_fields w s wt cd f :
  0 ≤ f < 4294967296 →
  PDE32_PTR (create_pde32 w s wt cd f) =
  mk_pde 1 (w mod 2) (s mod 2) (wt mod 2) (cd mod 2) 0 0 0 0 (f / 4096).
Proof.
  intros Hf. unfold create_pde32. bits. rewrite (Z.mod_small (f / 4096) 1048576).
  2: { split; [apply Z.div_pos; lia|]. apply Z.div_lt_upper_bound; lia. }
  assert (0 ≤ f / 4096 < 1048576) by (split; [apply Z.div_pos; lia|apply Z.div_lt_upper_bound; lia]).
  flag w; flag s; flag wt; flag cd; rewrite !Zmod_0_l; change (1 mod 2) with 1;
    rewrite !low_field by (done || low_div); rewrite high_field by done;
    rewrite (Z.mod_small (f / 4096)) by lia; reflexivity.
Qed.

(** ** Page directories *)
#[local] Ltac Zify.zify_post_hook ::= Z.to_euclidean_division_equations.

(** the page table behind entry [k] of directory [pd] *)
Definition table (m : gmap Z Z) (pd k : Z) : option Z :=
  match m !! (pd + 4 * k) with
  | Some d => if ctrue (pd_present (PDE32_PTR d)) then Some (Z.shiftl (pt_frame (PDE32_PTR d)) 12) else None
  | None => None
  end.

(** the present page table entry that maps [va], if any *)
Definition translate (m : gmap Z Z) (pd va : Z) : option Z :=
  match table m pd (pd_index va) with
  | Some t =>
      match m !! (t + 4 * pt_index va) with
      | Some e => if ctrue (present (PTE32_PTR e)) then Some e else None
      | None => None
      end
  | None => None
  end.

Definition has_page (m : gmap Z Z) (p : Z) : Prop := ∀ k, 0 ≤ k < 1024 → is_Some (m !! (p + 4 * k)).

(** a base page that is in use and whose words are memory *)
Definition table_page (s : pstate) (p : Z) : Prop :=
  ∃ j, p = base_page j ∧ 0 ≤ j < BASE_PAGES ∧ base_used (pal s) j = true ∧ has_page (mem s) p.

(** [pd] is a directory with page tables of its own *)
Record dir_ok (s : pstate) (pd : Z) : Prop := {
  do_pd : table_page s pd;
  do_table : ∀ k t, 0 ≤ k < 1024 → table (mem s) pd k = Some t → table_page s t ∧ t ≠ pd;
  do_inj : ∀ k1 k2 t, 0 ≤ k1 < 1024 → 0 ≤ k2 < 1024 →
           table (mem s) pd k1 = Some t → table (mem s) pd k2 = Some t → k1 = k2 }.

Lemma read_word_run {A} s a v (k : Z → M pstate A) :
  mem s !! a = Some v → mbind k (read_word a) s = k v s.
Proof.
  intros Hv. apply bind_ok. unfold read_word. rewrite (zoom_ok _ _ _ v (mem s)); [by destruct s|by apply load_ok].
Qed.

Definition set_word (s : pstate) (a v : Z) : pstate :=
  mk_pstate (pal s) (<[a := v]> (mem s)) (kernel_page_directory s) (cr3 s).

Lemma write_word_run {A} s a v (k : () → M pstate A) :
  is_Some (mem s !! a) → mbind k (write_word a v) s = k () (set_word s a v).
Proof.
  intros [w Hw]. apply bind_ok. unfold write_word. erewrite zoom_ok by (by apply update_ok). done.
Qed.

Lemma index_range va : 0 ≤ pd_index va < 1024 ∧ 0 ≤ pt_index va < 1024.
Proof.
  unfold pd_index, pt_index. change 0x3ff with (Z.ones 10). rewrite !Z.land_ones by lia.
  split; apply Z.mod_pos_bound; lia.
Qed.

(** the page number of an address is given by its two indices *)
Lemma page_indices va va' :
  0 ≤ va < 4294967296 → 0 ≤ va' < 4294967296 →
  pd_index va = pd_index va' → pt_index va = pt_index va' → va / 4096 = va' / 4096.
Proof.
  unfold pd_index, pt_index. change 0x3ff with (Z.ones 10). rewrite !Z.land_ones, !Z.shiftr_div_pow2 by lia.
  change (2 ^ 22) with 4194304. change (2 ^ 12) with 4096. change (2 ^ 10) with 1024. lia.
Qed.

Lemma base_page_words i j k k' :
  0 ≤ k < 1024 → 0 ≤ k' < 1024 → base_page i + 4 * k = base_page j + 4 * k' → i = j ∧ k = k'.
Proof. unfold base_page. lia. Qed.

Lemma base_page_inj i j : base_page i = base_page j → i = j.
Proof. unfold base_page. lia. Qed.

Lemma base_page_range j : 0 ≤ j < BASE_PAGES → PAGE_SPACE_BOTTOM ≤ base_page j < PAGE_SPACE_TOP ∧ aligned (base_page j).
Proof.
  change BASE_PAGES with 16384. unfold base_page, PAGE_SPACE_BOTTOM, PAGE_SPACE_TOP, aligned. lia.
Qed.

Lemma clear_page_in m p k : 0 ≤ k < 1024 → clear_page m p !! (p + 4 * k) = Some 0.
Proof.
  intros Hk. unfold clear_page.
  assert (∀ n b, Z.of_nat b ≤ k < Z.of_nat (b + n) →
    foldr (λ i m, <[p + 4 * Z.of_nat i := 0]> m) m (seq b n) !! (p + 4 * k) = Some 0) as H.
  { induction n as [|n IH]; intros b Hb; [lia|]. cbn [seq foldr].
    destruct (decide (k = Z.of_nat b)) as [->|]; [by rewrite lookup_insert_eq|].
    rewrite lookup_insert_ne by lia. apply IH. lia. }
  apply H. lia.
Qed.

Lemma clear_page_out m p a : (∀ k, 0 ≤ k < 1024 → a ≠ p + 4 * k) → clear_page m p !! a = m !! a.
Proof.
  intros Ha. unfold clear_page.
  assert (∀ l, Forall (λ i, i < 1024)%nat l → foldr (λ i m, <[p + 4 * Z.of_nat i := 0]> m) m l !! a = m !! a) as H.
  { induction 1 as [|i l Hi _ IH]; cbn [foldr]; [done|]. rewrite lookup_insert_ne; [done|].
    apply not_eq_sym, Ha. lia. }
  apply H, Forall_forall. intros i Hi%elem_of_seq. lia.
Qed.

Lemma clear_page_other m j p' k :
  p' ≠ base_page j → (∃ i, p' = base_page i) → 0 ≤ k < 1024 →
  clear_page m (base_page j) !! (p' + 4 * k) = m !! (p' + 4 * k).
Proof.
  intros Hne [i ->] Hk. apply clear_page_out. intros k' Hk' E.
  apply base_page_words in E as [-> _]; done.
Qed.

Lemma has_page_clear m p p' : has_page m p' → has_page (clear_page m p) p'.
Proof.
  intros H k Hk. unfold clear_page. generalize (seq 0 1024). intros l.
  induction l as [|i l IH]; cbn [foldr]; [by apply H|]. apply lookup_insert_is_Some'. by right.
Qed.

Lemma has_page_insert m p a v : has_page m p → has_page (<[a := v]> m) p.
Proof. intros H k Hk. apply lookup_insert_is_Some'. right. by apply H. Qed.

Lemma table_page_base s p : table_page s p → ∃ i, p = base_page i.
Proof. intros (i & ? & _). eauto. Qed.

(** what mapping operations leave alone *)
Definition same_control (s s' : pstate) : Prop :=
  kernel_page_directory s' = kernel_page_directory s ∧ cr3 s' = cr3 s ∧
  free_page_bitmap (pal s') = free_page_bitmap (pal s) ∧
  fast_page_addr (pal s') = fast_page_addr (pal s) ∧
  physical_memory_length (pal s') = physical_memory_length (pal s).

Lemma same_control_refl s : same_control s s.
Proof. by split_and!. Qed.

Lemma base_entry j : 0 ≤ j < BASE_PAGES → ∀ sup,
  let e := create_pde32 PAGE_PERMISSION_READ_WRITE sup PAGE_WRITEBACK PAGE_CACHE_ENABLED (base_page j) in
  pd_present (PDE32_PTR e) = 1 ∧ Z.shiftl (pt_frame (PDE32_PTR e)) 12 = base_page j.
Proof.
  intros Hj sup e. destruct (base_page_range j Hj) as [[H1 H2] H3]. unfold aligned, PAGE_SPACE_BOTTOM, PAGE_SPACE_TOP in *.
  unfold e. rewrite create_pde32_fields by lia. cbn [pd_present pt_frame].
  rewrite Z.shiftl_mul_pow2 by lia. change (2 ^ 12) with 4096. lia.
Qed.

Lemma table_lookup m pd k d :
  m !! (pd + 4 * k) = Some d →
  table m pd k = if ctrue (pd_present (PDE32_PTR d)) then Some (Z.shiftl (pt_frame (PDE32_PTR d)) 12) else None.
Proof. unfold table. by intros ->. Qed.

(** installing the fresh table [base_page j] at entry [i] *)
Lemma new_table m pd i j e k :
  pd ≠ base_page j → (∃ i, pd = base_page i) → 0 ≤ i < 1024 → 0 ≤ k < 1024 →
  pd_present (PDE32_PTR e) = 1 → Z.shiftl (pt_frame (PDE32_PTR e)) 12 = base_page j →
  table (<[pd + 4 * i := e]> (clear_page m (base_page j))) pd k =
  if decide (k = i) then Some (base_page j) else table m pd k.
Proof.
  intros Hne Hpd Hi Hk He1 He2. unfold table. case_decide as E.
  - subst k. by rewrite lookup_insert_eq, He1, He2.
  - rewrite lookup_insert_ne by lia. by rewrite clear_page_other.
Qed.

Lemma page_table_of_ok s pd va sup :
  dir_ok s pd → base_ok (pal s) →
  ∃ r s', page_table_of pd va sup s = Ok (r, s') ∧ base_ok (pal s') ∧ same_control s s' ∧
    (∀ j, base_used (pal s) j = true → base_used (pal s') j = true) ∧
    (∀ j, base_used (pal s') j = true → base_used (pal s) j = true ∨ r = Some (base_page j)) ∧
    (∀ k t, 0 ≤ k < 1024 → table (mem s) pd k = Some t → table (mem s') pd k = Some t) ∧
    ((r = None ∧ mem s' = mem s ∧ (∀ j, 0 ≤ j < BASE_PAGES → base_used (pal s) j = true)) ∨
     (∃ t, r = Some t ∧ dir_ok s' pd ∧ table (mem s') pd (pd_index va) = Some t ∧
           ∀ va', translate (mem s') pd va' = translate (mem s) pd va')).
Proof.
  intros Hdir Hbase. pose proof Hdir as [Hpd Htab Hinj]. destruct (index_range va) as [Hi _].
  set (i := pd_index va) in *. pose proof Hpd as (i0 & Epd & Hi0 & Hu0 & Hw0).
  destruct (Hw0 i Hi) as [d Hd]. unfold page_table_of. fold i.
  rewrite (read_word_run _ _ _ _ Hd). destruct (ctrue (pd_present (PDE32_PTR d))) eqn:Hp; cbn [negb].
  { mstep. eexists _, s. split_and!; [done|done|apply same_control_refl|done|by left|done|]. right. eexists. split_and!; [done|done| |done].
    rewrite (table_lookup _ _ _ _ Hd), Hp. done. }
  destruct (get_base_page_ok (pal s) Hbase) as (r & p' & Hr & Hbase' & Hcase).
  rewrite (bind_ok _ _ _ _ _ (zoom_ok pal_l _ s _ _ Hr)).
  destruct Hcase as [(-> & (Ebm & Ef & Efa & Epl) & Hall)|(j & -> & Hj & Hunused & Hbits & Ef & Efa & Epl)].
  { change (ctrue 0) with false. cbn [negb]. eexists _, _.
    split_and!; [done|done|by split_and!| | |done|left; by split_and!].
    - intros j. simpl. unfold base_used. by rewrite Ebm.
    - intros j. simpl. unfold base_used. rewrite Ebm. by left. }
  destruct (base_page_range j Hj) as [[Hr1 Hr2] _]. destruct (base_entry j Hj sup) as [He1 He2].
  set (e := create_pde32 _ sup _ _ (base_page j)) in *.
  rewrite (proj2 (ctrue_true (base_page j))) by (unfold PAGE_SPACE_BOTTOM in *; lia). cbn [negb].
  assert (∀ p, table_page s p → p ≠ base_page j) as Hfresh.
  { intros p (k & -> & _ & Hu & _) E%base_page_inj. congruence. }
  assert (pd ≠ base_page j) as Hpdj by (by apply Hfresh).
  unfold memset_page. mstep. cbn [lset pal_l pal mem kernel_page_directory cr3].
  rewrite write_word_run by (cbn [mem]; apply has_page_clear; [exact Hw0|done]).
  unfold set_word. cbn [pal mem kernel_page_directory cr3].
  erewrite read_word_run by (cbn [mem]; apply lookup_insert_eq). rewrite He1, He2. mstep. mstep.
  set (m' := <[pd + 4 * i := e]> (clear_page (mem s) (base_page j))).
  set (s' := mk_pstate p' m' (kernel_page_directory s) (cr3 s)).
  assert (∀ k, 0 ≤ k < 1024 → table m' pd k = if decide (k = i) then Some (base_page j) else table (mem s) pd k) as Htab'.
  { intros k Hk. apply new_table; try done. by eapply table_page_base. }
  assert (table (mem s) pd i = None) as Hnone by (by rewrite (table_lookup _ _ _ _ Hd), Hp).
  assert (∀ p, table_page s p → table_page s' p) as Hkeep.
  { intros p (k & -> & Hk & Hu & Hw). exists k. split_and!; [done|lia|lia| |].
    - simpl. rewrite Hbits, Hu. apply orb_true_r.
    - by apply has_page_insert, has_page_clear. }
  exists (Some (base_page j)), s'. split_and!; [done|done|by split_and!| | | |].
  { intros k Hk. simpl. rewrite Hbits, Hk. apply orb_true_r. }
  { intros k. simpl. rewrite Hbits. intros [->%Z.eqb_eq|Hk]%orb_true_iff; [by right|by left]. }
  { intros k t Hk Ht. simpl mem. rewrite Htab' by done. case_decide; [|done]. subst k. congruence. }
  right. exists (base_page j). split_and!; [done| | |].
  - split; [by apply Hkeep| |].
    + intros k t Hk. simpl mem. rewrite Htab' by done. case_decide as E.
      * intros [= <-]. split; [|done]. exists j. split_and!; [done|lia|lia| |].
        -- simpl. by rewrite Hbits, Z.eqb_refl.
        -- apply has_page_insert. intros k' Hk'. rewrite clear_page_in by done. eauto.
      * intros Ht. destruct (Htab k t Hk Ht) as [? ?]. split; [by apply Hkeep|done].
    + intros k1 k2 t Hk1 Hk2. simpl mem. rewrite !Htab' by done. repeat case_decide; subst; try done.
      * intros [= <-] Ht. destruct (Htab k2 _ Hk2 Ht) as [Ht' _]. by destruct (Hfresh _ Ht').
      * intros Ht [= <-]. destruct (Htab k1 _ Hk1 Ht) as [Ht' _]. by destruct (Hfresh _ Ht').
      * by apply Hinj.
  - simpl mem. by rewrite Htab', decide_True.
  - intros va'. simpl mem. unfold translate. destruct (index_range va') as [Hi' Hk'].
    rewrite Htab' by done. case_decide as E.
    + rewrite E, Hnone. unfold m'. rewrite lookup_insert_ne.
      * rewrite clear_page_in by done. done.
      * rewrite Epd. intros E'. apply base_page_words in E' as [-> _]; [|done|done]. done.
    + destruct (table (mem s) pd (pd_index va')) as [t|] eqn:Et; [|done].
      destruct (Htab _ _ Hi' Et) as [Ht Htpd]. unfold m'. rewrite lookup_insert_ne.
      * rewrite clear_page_other; [done|by apply Hfresh|by eapply table_page_base|done].
      * destruct Ht as (k & -> & _). rewrite Epd. intros E'. apply base_page_words in E' as [-> _]; done.
Qed.

(** [s'] comes from [s] by mapping in [pd]: no base page is given back, the new
    tables of [pd] lie in base pages that were free, and no word is lost *)
Record extends (pd : Z) (s s' : pstate) : Prop := {
  ex_base : ∀ j, base_used (pal s) j = true → base_used (pal s') j = true;
  ex_tables : ∀ k t, 0 ≤ k < 1024 → table (mem s') pd k = Some t →
    table (mem s) pd k = Some t ∨ ∃ j, t = base_page j ∧ base_used (pal s) j = false;
  ex_words : ∀ a, is_Some (mem s !! a) → is_Some (mem s' !! a) }.

Lemma extends_refl pd s : extends pd s s.
Proof. split; auto. Qed.

Lemma extends_trans pd s1 s2 s3 : extends pd s1 s2 → extends pd s2 s3 → extends pd s1 s3.
Proof.
  intros [H1 H2 H3] [H1' H2' H3']. split; auto. intros k t Hk Ht.
  destruct (H2' k t Hk Ht) as [H|(j & -> & Hj)]; [by apply H2|]. right. exists j. split; [done|].
  destruct (base_used (pal s1) j) eqn:E; [|done]. rewrite H1 in Hj; done.
Qed.

(** only the allocator of ordinary pages differs *)
Lemma extends_pal pd s s' :
  mem s' = mem s → (∀ j, base_used (pal s') j = base_used (pal s) j) → extends pd s s'.
Proof. intros Em Hb. split; [intros j; by rewrite Hb|rewrite Em; by left|by rewrite Em]. Qed.

Lemma is_Some_clear_page m p a : is_Some (m !! a) → is_Some (clear_page m p !! a).
Proof.
  intros H. unfold clear_page. induction (seq 0 1024) as [|i l IH]; cbn [foldr]; [done|].
  apply lookup_insert_is_Some'. by right.
Qed.

Lemma page_table_of_extends s pd va sup r s' :
  dir_ok s pd → base_ok (pal s) → page_table_of pd va sup s = Ok (r, s') → extends pd s s'.
Proof.
  intros Hdir Hbase. pose proof Hdir as [Hpd _ _]. destruct (index_range va) as [Hi _].
  pose proof Hpd as (i0 & Epd & Hi0 & Hu0 & Hw0). destruct (Hw0 _ Hi) as [d Hd]. unfold page_table_of.
  rewrite (read_word_run _ _ _ _ Hd). destruct (ctrue (pd_present (PDE32_PTR d))) eqn:Hp; cbn [negb].
  { mstep. rewrite ret_run. intros [= <- <-]. apply extends_refl. }
  destruct (get_base_page_ok (pal s) Hbase) as (q & p' & Hr & _ & Hcase).
  rewrite (bind_ok _ _ _ _ _ (zoom_ok pal_l _ s _ _ Hr)).
  destruct Hcase as [(-> & (Ebm & _) & _)|(j & -> & Hj & Hunused & Hbits & _)].
  { change (ctrue 0) with false. cbn [negb]. rewrite ret_run. intros [= <- <-]. apply extends_pal; [done|].
    intros j. simpl. unfold base_used. by rewrite Ebm. }
  destruct (base_page_range j Hj) as [[Hr1 Hr2] _]. destruct (base_entry j Hj sup) as [He1 He2].
  set (e := create_pde32 _ sup _ _ (base_page j)) in *.
  rewrite (proj2 (ctrue_true (base_page j))) by (unfold PAGE_SPACE_BOTTOM in *; lia). cbn [negb].
  unfold memset_page. mstep. cbn [lset pal_l pal mem kernel_page_directory cr3].
  rewrite write_word_run by (cbn [mem]; apply has_page_clear; [exact Hw0|done]).
  unfold set_word. cbn [pal mem kernel_page_directory cr3].
  erewrite read_word_run by (cbn [mem]; apply lookup_insert_eq). rewrite He1, He2. mstep. mstep.
  intros [= <- <-]. split; cbn [pal mem].
  - intros k Hk. rewrite Hbits, Hk. apply orb_true_r.
  - intros k t Hk. rewrite new_table; [|intros E; rewrite E in Epd; apply base_page_inj in Epd; congruence|by exists i0|done..].
    case_decide; [|by left]. intros [= <-]. right. by exists j.
  - intros a Ha. apply lookup_insert_is_Some'. right. by apply is_Some_clear_page.
Qed.

(** storing a word at the entry of [va] in its table *)
Lemma set_entry_ok s pd va t e :
  dir_ok s pd → table (mem s) pd (pd_index va) = Some t →
  let s' := set_word s (t + 4 * pt_index va) e in
  is_Some (mem s !! (t + 4 * pt_index va)) ∧ dir_ok s' pd ∧
  translate (mem s') pd va = (if ctrue (present (PTE32_PTR e)) then Some e else None) ∧
  (∀ va', pd_index va' ≠ pd_index va ∨ pt_index va' ≠ pt_index va →
          translate (mem s') pd va' = translate (mem s) pd va') ∧
  (∀ k, 0 ≤ k < 1024 → table (mem s') pd k = table (mem s) pd k).
Proof.
  intros [Hpd Htab Hinj] Ht s'. destruct (index_range va) as [Hi Hk].
  destruct (Htab _ _ Hi Ht) as [Htp Htne]. pose proof Htp as (j & Ej & Hj & Hu & Hw).
  pose proof Hpd as (i0 & Epd & Hi0 & Hu0 & Hw0).
  assert (∀ k, 0 ≤ k < 1024 → table (mem s') pd k = table (mem s) pd k) as Htab'.
  { intros k Hk'. unfold table, s'. cbn [mem set_word]. rewrite lookup_insert_ne; [done|].
    rewrite Epd, Ej. intros E. apply base_page_words in E as [-> _]; [|done|done]. congruence. }
  assert (∀ p, table_page s p → table_page s' p) as Hkeep.
  { intros p (k & -> & ? & ? & ?). exists k. split_and!; [done|lia|lia|done|]. by apply has_page_insert. }
  split_and!; [by apply Hw| | | |done].
  - split; [by apply Hkeep| |].
    + intros k t' Hk'. rewrite Htab' by done. intros Ht'. destruct (Htab _ _ Hk' Ht'). split; [by apply Hkeep|done].
    + intros k1 k2 t' Hk1 Hk2. rewrite !Htab' by done. by apply Hinj.
  - unfold translate. rewrite Htab', Ht by done. unfold s'. cbn [mem set_word]. by rewrite lookup_insert_eq.
  - intros va' Hne. unfold translate. destruct (index_range va') as [Hi' Hk']. rewrite Htab' by done.
    destruct (table (mem s) pd (pd_index va')) as [t'|] eqn:Et'; [|done]. unfold s'. cbn [mem set_word].
    rewrite lookup_insert_ne; [done|]. destruct (Htab _ _ Hi' Et') as [(j' & -> & _) _].
    rewrite Ej. intros E. apply base_page_words in E as [-> E]; [|done|done].
    destruct Hne as [Hne|Hne]; [|congruence]. apply Hne. symmetry. eapply Hinj; [done|done|exact Ht|]. by rewrite Ej.
Qed.

(** writing the entry of [va] into its table *)
Lemma put_entry_ok s pd va pa t w sup wt cd :
  dir_ok s pd → table (mem s) pd (pd_index va) = Some t → 0 ≤ pa < 4294967296 →
  let e := create_pte32 w sup wt cd pa in
  let s' := set_word s (t + 4 * pt_index va) e in
  put_entry t va pa e s = Ok ((), s') ∧ dir_ok s' pd ∧ translate (mem s') pd va = Some e ∧
  (∀ va', pd_index va' ≠ pd_index va ∨ pt_index va' ≠ pt_index va →
          translate (mem s') pd va' = translate (mem s) pd va').
Proof.
  intros Hdir Ht Hpa e s'. destruct (set_entry_ok s pd va t e Hdir Ht) as (Hw & Hdir' & Htr & Hother & _).
  assert (present (PTE32_PTR e) = 1 ∧ pg_frame (PTE32_PTR e) = pa / 4096) as [He1 He2].
  { unfold e. by rewrite create_pte32_fields. }
  rewrite He1 in Htr. split_and!; [|done|done|done].
  unfold put_entry. rewrite write_word_run by done.
  erewrite read_word_run by (apply lookup_insert_eq). rewrite He1, He2. mstep.
  apply ASSERT_true. apply Z.eqb_eq. unfold PAGE_ALIGN, PAGE_MASK, PAGE_SIZE. change (4096 - 1) with (Z.ones 12).
  rewrite <-Z.ldiff_land, Z.ldiff_ones_r by lia. by rewrite Z.shiftr_div_pow2 by lia.
Qed.

(** ** Translation *)

Definition phys_of (e va : Z) : Z := Z.lor (Z.shiftl (pg_frame (PTE32_PTR e)) 12) (Z.land va PAGE_MASK).

Lemma virt2phy_ok s pd va :
  dir_ok s pd →
  virt2phy pd va s = Ok (match translate (mem s) pd va with Some e => phys_of e va | None => 0 end, s).
Proof.
  intros [Hpd Htab _]. destruct (index_range va) as [Hi Hk]. pose proof Hpd as (i0 & _ & _ & _ & Hw0).
  destruct (Hw0 _ Hi) as [d Hd]. unfold virt2phy, translate. rewrite (read_word_run _ _ _ _ Hd).
  pose proof (table_lookup _ _ _ _ Hd) as Ht. destruct (ctrue (pd_present (PDE32_PTR d))); [|by rewrite Ht]. cbn [negb].
  destruct (Htab _ _ Hi Ht) as [(j & _ & _ & _ & Hw) _]. destruct (Hw _ Hk) as [e He].
  rewrite (read_word_run _ _ _ _ He), Ht, He. by destruct (ctrue (present (PTE32_PTR e))).
Qed.

Lemma page_present_ok s pd va :
  dir_ok s pd →
  page_present pd va s = Ok (match translate (mem s) pd va with Some _ => OK | None => u32 (- ERR_NOT_PRESENT) end, s).
Proof.
  intros [Hpd Htab _]. destruct (index_range va) as [Hi Hk]. pose proof Hpd as (i0 & _ & _ & _ & Hw0).
  destruct (Hw0 _ Hi) as [d Hd]. unfold page_present, translate. rewrite (read_word_run _ _ _ _ Hd).
  pose proof (table_lookup _ _ _ _ Hd) as Ht. destruct (ctrue (pd_present (PDE32_PTR d))); [|by rewrite Ht]. cbn [negb].
  destruct (Htab _ _ Hi Ht) as [(j & _ & _ & _ & Hw) _]. destruct (Hw _ Hk) as [e He].
  rewrite (read_word_run _ _ _ _ He), Ht, He. by destruct (ctrue (present (PTE32_PTR e))).
Qed.

(** the physical address of [va] when its page is mapped to the frame of [pa] *)
Lemma phys_of_create w s wt cd pa va :
  0 ≤ pa < 4294967296 → phys_of (create_pte32 w s wt cd pa) va = pa - pa mod 4096 + va mod 4096.
Proof.
  intros Hpa. unfold phys_of. rewrite create_pte32_fields by done. cbn [pg_frame].
  unfold PAGE_MASK, PAGE_SIZE. change (4096 - 1) with (Z.ones 12). rewrite Z.land_ones by lia.
  rewrite Z.shiftl_mul_pow2 by lia. rewrite <-Z.lxor_lor.
  - rewrite <-Z.add_nocarry_lxor; [change (2 ^ 12) with 4096; lia|].
    apply Z.bits_inj'. intros n Hn. rewrite Z.land_spec, Z.bits_0.
    destruct (Z.ltb_spec n 12).
    + by rewrite Z.mul_pow2_bits_low by lia.
    + rewrite Z.mod_pow2_bits_high by lia. apply andb_false_r.
  - apply Z.bits_inj'. intros n Hn. rewrite Z.land_spec, Z.bits_0.
    destruct (Z.ltb_spec n 12).
    + by rewrite Z.mul_pow2_bits_low by lia.
    + rewrite Z.mod_pow2_bits_high by lia. apply andb_false_r.
Qed.

(** every base page in use belongs to [pd] *)
Definition tables_only (s : pstate) (pd : Z) : Prop :=
  ∀ j, 0 ≤ j < BASE_PAGES → base_used (pal s) j = true →
       base_page j = pd ∨ ∃ k, 0 ≤ k < 1024 ∧ table (mem s) pd k = Some (base_page j).

Lemma base_page_left s pd : tables_only s pd → ∃ j, 0 ≤ j < BASE_PAGES ∧ base_used (pal s) j = false.
Proof.
  intros Hto. destruct (decide (Exists (λ n, base_used (pal s) (Z.of_nat n) = false) (seq 0 1026))) as [He|Hne].
  - apply Exists_exists in He as (n & Hn%elem_of_seq & Hu). exists (Z.of_nat n).
    change BASE_PAGES with 16384. split; [lia|done].
  - exfalso. apply not_Exists_Forall in Hne; [|intros n; apply _].
    set (l := pd :: ((λ n, default 0 (table (mem s) pd (Z.of_nat n))) <$> seq 0 1024)).
    assert (((λ n, base_page (Z.of_nat n)) <$> seq 0 1026) ⊆ l) as Hsub.
    { intros p Hp. apply list_elem_of_fmap in Hp as (n & -> & Hn). rewrite Forall_forall in Hne.
      specialize (Hne n Hn). simpl in Hne. apply not_false_is_true in Hne.
      apply elem_of_seq in Hn. destruct (Hto (Z.of_nat n)) as [E|(k & Hk & Ht)];
        [change BASE_PAGES with 16384; lia|done|rewrite E; by left|].
      right. apply list_elem_of_fmap. exists (Z.to_nat k). rewrite Z2Nat.id, Ht by lia. split; [done|].
      apply elem_of_seq. lia. }
    assert (NoDup ((λ n, base_page (Z.of_nat n)) <$> seq 0 1026)) as Hnd.
    { apply NoDup_fmap_2; [|apply NoDup_seq]. intros n m E%base_page_inj. lia. }
    pose proof (submseteq_length _ _ (NoDup_submseteq _ _ Hnd Hsub)) as Hlen. unfold l in Hlen.
    rewrite length_cons, !length_fmap, !length_seq in Hlen. lia.
Qed.

Lemma dir_ok_mono s s' pd :
  mem s' = mem s → (∀ j, base_used (pal s) j = true → base_used (pal s') j = true) → dir_ok s pd → dir_ok s' pd.
Proof.
  intros Em Hmono [Hpd Htab Hinj].
  assert (∀ q, table_page s q → table_page s' q) as Hq.
  { intros q (j & -> & Hj & Hu & Hw). exists j. split_and!; [done|lia|lia|by apply Hmono|by rewrite Em]. }
  split; rewrite ?Em; [by apply Hq| |done]. intros k t Hk Ht. destruct (Htab k t Hk Ht). split; [by apply Hq|done].
Qed.

(** mapping a page in directory [pd], given its table entry's user/supervisor bits *)
Lemma map_in_directory s pd va pa sup e w wt cd :
  dir_ok s pd → base_ok (pal s) → 0 ≤ pa < 4294967296 → e = create_pte32 w sup wt cd pa →
  ∃ r s1, page_table_of pd va sup s = Ok (r, s1) ∧
    match r with
    | None => mem s1 = mem s ∧ same_control s s1 ∧ base_ok (pal s1) ∧ dir_ok s1 pd ∧
              (∀ j, 0 ≤ j < BASE_PAGES → base_used (pal s) j = true)
    | Some t =>
        ∃ s', put_entry t va pa e s1 = Ok ((), s') ∧ dir_ok s' pd ∧ base_ok (pal s') ∧ same_control s s' ∧
          (tables_only s pd → tables_only s' pd) ∧
          translate (mem s') pd va = Some e ∧
          (∀ va', 0 ≤ va < 4294967296 → 0 ≤ va' < 4294967296 → va' / 4096 ≠ va / 4096 →
             translate (mem s') pd va' = translate (mem s) pd va')
    end.
Proof.
  intros Hdir Hbase Hpa ->. destruct (page_table_of_ok s pd va sup Hdir Hbase)
    as (r & s1 & Hr & Hbase1 & Hctl & Hmono & Hnew & Htabs & Hcase).
  exists r, s1. split; [done|]. destruct Hcase as [(-> & Em & Hall)|(t & -> & Hdir1 & Ht & Htr)].
  { split_and!; [done|done|done| |done]. by apply (dir_ok_mono s). }
  destruct (put_entry_ok s1 pd va pa t w sup wt cd Hdir1 Ht Hpa) as (Hp & Hdir2 & Htr2 & Hother).
  eexists. split_and!; [done|done|done|done| |done|].
  - intros Hto j Hj Hu. cbn [pal set_word] in Hu. destruct (index_range va) as [Hi Hk].
    assert (∀ k, 0 ≤ k < 1024 → table (mem (set_word s1 (t + 4 * pt_index va) (create_pte32 w sup wt cd pa))) pd k
            = table (mem s1) pd k) as Hsame.
    { intros k Hk'. unfold table. cbn [mem set_word]. rewrite lookup_insert_ne; [done|].
      destruct (do_pd _ _ Hdir1) as (i0 & Epd & _). destruct (do_table _ _ Hdir1 _ _ Hi Ht) as [(j' & Ej' & _) Hne].
      subst t. rewrite Epd in *. intros E. apply base_page_words in E as [-> _]; done. }
    destruct (Hnew j Hu) as [Hold|[= ->]].
    + destruct (Hto j Hj Hold) as [?|(k & Hk' & Htk)]; [by left|]. right. exists k. split; [done|].
      rewrite Hsame by done. by apply Htabs.
    + right. exists (pd_index va). split; [done|]. by rewrite Hsame.
  - intros va' Hva Hva' Hne. rewrite Hother, Htr; [done|].
    destruct (decide (pd_index va' = pd_index va)) as [E1|]; [|by left]. right. intros E2.
    apply Hne. by apply page_indices.
Qed.

(** C29. [kernel_map_page] maps exactly one page: afterwards [virt2phy] takes
    every address of the page of [virt_addr] to the same offset in the frame of
    [phy_addr] and [page_present] reports it, with the requested permission
    bits and as a supervisor page; every other page's mapping is unchanged and
    the directory stays well formed.  When a page table is needed and no base
    page is left the kernel stops by its assertion. *)
Theorem kernel_map_page_correct s va pa w wt cd :
  let pd := kernel_page_directory s in
  dir_ok s pd → base_ok (pal s) → 0 ≤ va < 4294967296 → 0 ≤ pa < 4294967296 →
  (kernel_map_page va pa w wt cd s = Err AssertFail ∧
   table (mem s) pd (pd_index va) = None ∧ ∀ j, 0 ≤ j < BASE_PAGES → base_used (pal s) j = true) ∨
  (∃ s', kernel_map_page va pa w wt cd s = Ok ((), s') ∧
    kernel_page_directory s' = pd ∧ dir_ok s' pd ∧ base_ok (pal s') ∧
    (∀ a, 0 ≤ a < 4294967296 → a / 4096 = va / 4096 →
       virt2phy pd a s' = Ok (pa - pa mod 4096 + a mod 4096, s') ∧ page_present pd a s' = Ok (OK, s')) ∧
    (∃ e, translate (mem s') pd va = Some e ∧
       PTE32_PTR e = mk_pte 1 (w mod 2) 0 (wt mod 2) (cd mod 2) 0 0 0 0 0 (pa / 4096)) ∧
    (∀ a, 0 ≤ a < 4294967296 → a / 4096 ≠ va / 4096 →
       translate (mem s') pd a = translate (mem s) pd a)).
Proof.
  intros pd Hdir Hbase Hva Hpa. unfold kernel_map_page, get_kernel_page_directory. mstep. fold pd.
  destruct (map_in_directory s pd va pa PAGE_PERMISSION_SUPERVISOR _ w wt cd Hdir Hbase Hpa eq_refl)
    as (r & s1 & Hr & Hcase). rewrite (bind_ok _ _ _ _ _ Hr). destruct r as [t|].
  - right. destruct Hcase as (s' & Hp & Hdir' & Hbase' & Hctl & _ & Htr & Hother). exists s'.
    assert (∀ a, 0 ≤ a < 4294967296 → a / 4096 = va / 4096 → translate (mem s') pd a = translate (mem s') pd va) as Hsame.
    { intros a Ha E. unfold translate. assert (pd_index a = pd_index va ∧ pt_index a = pt_index va) as [-> ->]; [|done].
      unfold pd_index, pt_index. rewrite !Z.shiftr_div_pow2 by lia. change (2 ^ 22) with (4096 * 1024).
      change (2 ^ 12) with 4096. rewrite <-!Z.div_div by lia. by rewrite E. }
    split_and!; [done|apply Hctl|done|done| | |].
    + intros a Ha E. rewrite virt2phy_ok, page_present_ok, Hsame, Htr by done. split; [|done].
      by rewrite phys_of_create.
    + eexists. split; [done|]. by rewrite create_pte32_fields.
    + intros a Ha Hne. by apply Hother.
  - left. destruct Hcase as (Em & _ & _ & _ & Hall). split_and!; [done| |done].
    unfold page_table_of in Hr. destruct (index_range va) as [Hi _].
    destruct (do_pd _ _ Hdir) as (i0 & _ & _ & _ & Hw0). destruct (Hw0 _ Hi) as [d Hd].
    rewrite (read_word_run _ _ _ _ Hd) in Hr. rewrite (table_lookup _ _ _ _ Hd).
    destruct (ctrue (pd_present (PDE32_PTR d))); [|done]. cbn [negb] in Hr.
    rewrite (bind_ok (ASSERT true) _ s () s eq_refl) in Hr. done.
Qed.

(** ** Switching address spaces *)

Lemma copy_entries_ok n idx src dst s :
  (∃ i, dst = base_page i) → has_page (mem s) dst →
  (src = 0 ∨ (∃ i, src = base_page i) ∧ src ≠ dst ∧ has_page (mem s) src) →
  0 ≤ idx → idx + Z.of_nat n ≤ 1024 →
  ∃ m', copy_entries n idx src dst s = Ok ((), mk_pstate (pal s) m' (kernel_page_directory s) (cr3 s)) ∧
    (∀ k, idx ≤ k < idx + Z.of_nat n →
       m' !! (dst + 4 * k) = if ctrue src then mem s !! (src + 4 * k) else Some 0) ∧
    (∀ a, (∀ k, idx ≤ k < idx + Z.of_nat n → a ≠ dst + 4 * k) → m' !! a = mem s !! a).
Proof.
  intros Hdst. revert idx s. induction n as [|n IH]; intros idx s Hd Hsrc Hidx Hn; simpl.
  { exists (mem s). destruct s; simpl. split_and!; [done|lia|done]. }
  assert (∃ v, (if ctrue src then read_word (src + 4 * idx) else mret 0) s = Ok (v, s) ∧
               Some v = if ctrue src then mem s !! (src + 4 * idx) else Some 0) as (v & Hv & Ev).
  { destruct (ctrue src) eqn:Hc; [|by exists 0]. apply ctrue_true in Hc.
    destruct Hsrc as [->|(_ & _ & Hs)]; [done|]. destruct (Hs idx ltac:(lia)) as [v Hv]. exists v.
    split; [|done]. rewrite <-(bind_ret_run (read_word _)). by rewrite (read_word_run _ _ _ _ Hv). }
  rewrite (bind_ok _ _ _ _ _ Hv). rewrite write_word_run by (apply Hd; lia).
  set (s1 := set_word s (dst + 4 * idx) v).
  destruct (IH (idx + 1) s1) as (m' & Hr & Hin & Hout); [by apply has_page_insert| |lia|lia|].
  { destruct Hsrc as [?|(? & ? & ?)]; [by left|right]. split_and!; [done|done|by apply has_page_insert]. }
  assert (∀ k, 0 ≤ k < 1024 → ctrue src = true → src + 4 * k ≠ dst + 4 * idx) as Hne.
  { intros k Hk Hc E. apply ctrue_true in Hc. destruct Hsrc as [?|([i Ei] & Hsd & _)]; [done|].
    destruct Hdst as [j Ej]. rewrite Ei, Ej in *. apply base_page_words in E as [-> _]; (done || lia). }
  exists m'. split_and!; [done| |].
  - intros k Hk. destruct (decide (k = idx)) as [->|Hki].
    + rewrite Hout by (intros; lia). unfold s1. cbn [mem set_word]. by rewrite lookup_insert_eq.
    + rewrite Hin by lia. destruct (ctrue src) eqn:Hc; [|done]. unfold s1. cbn [mem set_word].
      rewrite lookup_insert_ne; [done|]. apply not_eq_sym, Hne; [lia|done].
  - intros a Ha. rewrite Hout by (intros k Hk; apply Ha; lia). unfold s1. cbn [mem set_word].
    rewrite lookup_insert_ne; [done|]. apply not_eq_sym, Ha. lia.
Qed.

Lemma pd_index_user va : 0 ≤ va < 4294967296 → (256 ≤ pd_index va ↔ USERSPACE_BOTTOM ≤ va).
Proof.
  intros Hva. unfold pd_index, USERSPACE_BOTTOM. change 0x3ff with (Z.ones 10).
  rewrite Z.land_ones, Z.shiftr_div_pow2 by lia. change (2 ^ 22) with 4194304. change (2 ^ 10) with 1024. lia.
Qed.

(** [enable_task_paging] gives the CPU the address space of the task:
    through the loaded directory every user address translates as in the task's
    directory and every kernel address as before. *)
Theorem enable_task_paging_switches s tpd :
  let kpd := kernel_page_directory s in
  dir_ok s kpd → dir_ok s tpd → tpd ≠ kpd →
  (∀ k t, 0 ≤ k < 1024 → table (mem s) tpd k = Some t → t ≠ kpd) →
  ∃ s', enable_task_paging tpd s = Ok (OK, s') ∧ cr3 s' = kpd ∧
    ∀ va, 0 ≤ va < 4294967296 →
      translate (mem s') (cr3 s') va =
      if USERSPACE_BOTTOM <=? va then translate (mem s) tpd va else translate (mem s) kpd va.
Proof.
  intros kpd Hk Ht Hne Hown. pose proof (do_pd _ _ Hk) as (ki & Eki & _ & _ & Hkw).
  pose proof (do_pd _ _ Ht) as (ti & Eti & Hti & _ & Htw).
  assert (ctrue tpd = true) as Hct.
  { apply ctrue_true. destruct (base_page_range _ Hti) as [[? ?] _]. rewrite Eti. unfold PAGE_SPACE_BOTTOM in *. lia. }
  destruct (copy_entries_ok 768 256 tpd kpd s) as (m' & Hr & Hin & Hout);
    [by exists ki|done|right; split_and!; [by exists ti|done|done]|lia|lia|].
  rewrite Hct in Hin.
  exists (mk_pstate (pal s) m' (kernel_page_directory s) kpd). split; [|split; [reflexivity|]].
  { unfold enable_task_paging, get_kernel_page_directory. mstep. fold kpd.
    change (Z.to_nat (1024 - directory_index_top)) with 768%nat. change directory_index_top with 256.
    rewrite (bind_ok _ _ _ _ _ Hr). unfold load_cr3. mstep. reflexivity. }
  cbn [mem cr3]. intros va Hva. destruct (index_range va) as [Hi Hj].
  (* table words are outside the kernel directory *)
  assert (∀ t, table_page s t → t ≠ kpd → ∀ k, 0 ≤ k < 1024 → m' !! (t + 4 * k) = mem s !! (t + 4 * k)) as Hwords.
  { intros t (j & Ej & _) Htk k Hk'. apply Hout. intros k2 Hk2 E. subst t. rewrite Eki in *.
    apply base_page_words in E as [-> _]; (done || lia). }
  assert (table m' kpd (pd_index va) = table (mem s) (if USERSPACE_BOTTOM <=? va then tpd else kpd) (pd_index va)) as Htab.
  { unfold table. destruct (Z.leb_spec USERSPACE_BOTTOM va) as [Hu|Hu].
    - apply pd_index_user in Hu; [|done]. rewrite Hin by lia. done.
    - assert (pd_index va < 256) by (pose proof (pd_index_user va Hva); lia).
      rewrite Hout; [done|]. intros k Hk' E. lia. }
  unfold translate. rewrite Htab. destruct (USERSPACE_BOTTOM <=? va).
  - destruct (table (mem s) tpd (pd_index va)) as [t|] eqn:Et; [|done].
    destruct (do_table _ _ Ht _ _ Hi Et) as [Htp _]. by rewrite (Hwords t Htp (Hown _ _ Hi Et)).
  - destruct (table (mem s) kpd (pd_index va)) as [t|] eqn:Et; [|done].
    destruct (do_table _ _ Hk _ _ Hi Et) as [Htp Htne]. by rewrite Hwords.
Qed.

(** ** Initialisation *)

Lemma for_pages_ok (P : Z → pstate → Prop) fuel a hi body s :
  (∀ a s, a < hi → P a s → ∃ s', body a s = Ok ((), s') ∧ P (a + 4096) s') →
  P a s → (hi - a) / 4096 + 1 < Z.of_nat fuel → 0 < Z.of_nat fuel →
  ∃ a' s', for_pages fuel a hi body s = Ok ((), s') ∧ P a' s' ∧ hi ≤ a'.
Proof.
  intros Hbody. revert a s. induction fuel as [|fuel IH]; intros a s HP Hf Hpos; [lia|]. simpl.
  destruct (Z.ltb_spec a hi) as [Hlt|Hge]; [|by exists a, s].
  destruct (Hbody a s Hlt HP) as (s1 & Hr & HP1). rewrite (bind_ok _ _ _ _ _ Hr).
  apply IH; [done|unfold PAGE_SIZE; lia|lia].
Qed.

Section init_proof.
Variables kernel_text_start kernel_data_start kernel_bss_end : Z.
Hypothesis bss_place : 0 < kernel_bss_end ≤ PAGE_SPACE_BOTTOM.

(** all pages of [lo, a) are mapped to themselves *)
Definition identity (s : pstate) (pd lo a : Z) : Prop :=
  ∀ va, lo ≤ va < a → ∃ e, translate (mem s) pd va = Some e ∧ phys_of e va = va.

Record init_inv (pd : Z) (s : pstate) : Prop := {
  ii_pd : kernel_page_directory s = pd;
  ii_dir : dir_ok s pd;
  ii_base : base_ok (pal s);
  ii_only : tables_only s pd }.

Lemma map_identity pd s a w :
  init_inv pd s → 0 ≤ a → a + 4096 ≤ 4294967296 → aligned a →
  ∃ s', kernel_map_page a a w PAGE_WRITEBACK PAGE_CACHE_ENABLED s = Ok ((), s') ∧ init_inv pd s' ∧
    (∀ va, a ≤ va < a + 4096 → ∃ e, translate (mem s') pd va = Some e ∧ phys_of e va = va ∧
       write_permission (PTE32_PTR e) = w mod 2) ∧
    (∀ va, 0 ≤ va < 4294967296 → va < a ∨ a + 4096 ≤ va → translate (mem s') pd va = translate (mem s) pd va).
Proof.
  intros [Epd Hdir Hbase Hto] Ha0 Ha Hal. unfold aligned in Hal.
  unfold kernel_map_page, get_kernel_page_directory. mstep. rewrite Epd.
  destruct (map_in_directory s pd a a PAGE_PERMISSION_SUPERVISOR _ w PAGE_WRITEBACK PAGE_CACHE_ENABLED
              Hdir Hbase ltac:(lia) eq_refl) as (r & s1 & Hr & Hcase).
  rewrite (bind_ok _ _ _ _ _ Hr). destruct r as [t|].
  2: { exfalso. destruct Hcase as (_ & _ & _ & _ & Hall). destruct (base_page_left s pd Hto) as (j & Hj & Hu).
       rewrite Hall in Hu by done. done. }
  destruct Hcase as (s' & Hp & Hdir' & Hbase' & Hctl & Hto' & Htr & Hother). exists s'.
  split_and!; [done| | |].
  - split; [destruct Hctl; congruence|done|done|by apply Hto'].
  - intros va Hva. eexists. split_and!.
    + rewrite <-Htr. unfold translate.
      assert (pd_index va = pd_index a ∧ pt_index va = pt_index a) as [-> ->]; [|done].
      unfold pd_index, pt_index. rewrite !Z.shiftr_div_pow2 by lia. change (2 ^ 22) with (4096 * 1024).
      change (2 ^ 12) with 4096. rewrite <-!Z.div_div by lia. replace (va / 4096) with (a / 4096) by lia. done.
    + rewrite phys_of_create by lia. lia.
    + by rewrite create_pte32_fields by lia.
  - intros va Hva Hne. apply Hother; lia.
Qed.

(** marking a frame touches nothing but the bitmap of ordinary pages *)
Lemma occupy_ok s a :
  0 ≤ a < 4294967296 →
  ∃ bm, occupy a s = Ok ((), mk_pstate (set_bitmap bm (pal s)) (mem s) (kernel_page_directory s) (cr3 s)).
Proof.
  intros Ha. exists (MARK_PAGE_AS_OCCUPIED a (free_page_bitmap (pal s))). unfold occupy.
  rewrite (bind_ok _ _ _ () (mk_pstate (set_bitmap (MARK_PAGE_AS_OCCUPIED a (free_page_bitmap (pal s))) (pal s))
    (mem s) (kernel_page_directory s) (cr3 s))) by reflexivity.
  match goal with |- _ ?s1 = _ => rewrite (bind_ok (zoom pal_l (is_page_free a)) _ s1 false s1); [done|] end.
  rewrite (zoom_ok pal_l _ _ false (set_bitmap (MARK_PAGE_AS_OCCUPIED a (free_page_bitmap (pal s))) (pal s))); [done|].
  unfold is_page_free, gets. cbn [lget pal_l pal]. do 2 f_equal.
  cbn [free_page_bitmap set_bitmap]. by rewrite IS_PAGE_FREE_spec, MARK_spec, Z.eqb_refl.
Qed.

(** [s'] differs from [s] in the bitmap of ordinary pages only *)
Definition same_but_bitmap (s s' : pstate) : Prop :=
  ∃ bm, s' = mk_pstate (set_bitmap bm (pal s)) (mem s) (kernel_page_directory s) (cr3 s).

Lemma occupy_all_ok lo hi s :
  0 ≤ lo → aligned lo → hi ≤ PAGE_SPACE_TOP →
  ∃ s', for_pages (frames lo hi) lo hi occupy s = Ok ((), s') ∧ same_but_bitmap s s'.
Proof.
  intros Hlo Hal Hhi. unfold PAGE_SPACE_TOP in Hhi.
  destruct (for_pages_ok (λ a s', 0 ≤ a ∧ same_but_bitmap s s') (frames lo hi) lo hi occupy s)
    as (a' & s' & Hr & [_ Hs] & _).
  - intros a s1 Ha [Ha0 [bm ->]]. destruct (occupy_ok (mk_pstate (set_bitmap bm (pal s)) (mem s) (kernel_page_directory s) (cr3 s)) a)
      as (bm' & Hr); [lia|]. eexists. split; [done|]. split; [lia|]. by exists bm'.
  - split; [done|]. exists (free_page_bitmap (pal s)). by destruct s as [[] ? ? ?].
  - unfold frames, PAGE_SIZE. lia.
  - unfold frames. lia.
  - by exists s'.
Qed.

Lemma init_inv_bitmap pd s s' : init_inv pd s → same_but_bitmap s s' → init_inv pd s'.
Proof.
  intros [E [Hpd Htab Hinj] Hb Hto] [bm ->]. split; [done|split|done|done]; done.
Qed.

Lemma PTE32_zero : PTE32_PTR 0 = mk_pte 0 0 0 0 0 0 0 0 0 0 0.
Proof. done. Qed.

(** an empty directory in a fresh base page *)
Lemma empty_directory s p' j :
  (∀ i, base_used (pal s) i = false) → takes_base (pal s) p' j → 0 ≤ j < BASE_PAGES → base_ok p' →
  init_inv (base_page j) (mk_pstate p' (clear_page (mem s) (base_page j)) (base_page j) (cr3 s)).
Proof.
  intros Hnone (Hbits & _) Hj Hbase.
  assert (∀ k, 0 ≤ k < 1024 → table (clear_page (mem s) (base_page j)) (base_page j) k = None) as Htab.
  { intros k Hk. unfold table. by rewrite clear_page_in. }
  split; [done|split|done|].
  - exists j. split_and!; [done|lia|lia| |].
    + simpl. by rewrite Hbits, Z.eqb_refl.
    + intros k Hk. simpl. rewrite clear_page_in by done. eauto.
  - intros k t Hk. simpl. by rewrite Htab.
  - intros k1 k2 t Hk1 _. simpl. by rewrite Htab.
  - intros i Hi. simpl. rewrite Hbits, Hnone, orb_false_r. intros ->%Z.eqb_eq. by left.
Qed.

(** the permission [paging_init] gives a low page *)
Definition low_permission (a : Z) : Z :=
  if (kernel_text_start <=? a) && (a <? kernel_data_start) then PAGE_PERMISSION_READ_ONLY else PAGE_PERMISSION_READ_WRITE.

Definition mapped_low (s : pstate) (pd hi : Z) : Prop :=
  ∀ va, 0 ≤ va < hi → ∃ e, translate (mem s) pd va = Some e ∧ phys_of e va = va ∧
    write_permission (PTE32_PTR e) = low_permission (va - va mod 4096).

(** the loop over the page inventory *)
Lemma map_inventory_ok pd s4 : init_inv pd s4 →
  ∃ s5, for_pages (frames PAGE_SPACE_BOTTOM PAGE_SPACE_TOP) PAGE_SPACE_BOTTOM PAGE_SPACE_TOP
      (λ a, kernel_map_page a a PAGE_PERMISSION_READ_WRITE PAGE_WRITEBACK PAGE_CACHE_ENABLED) s4 = Ok ((), s5) ∧
    init_inv pd s5 ∧ identity s5 pd PAGE_SPACE_BOTTOM PAGE_SPACE_TOP.
Proof.
  intros Hinv.
  destruct (for_pages_ok (λ a s, init_inv pd s ∧ aligned a ∧ PAGE_SPACE_BOTTOM ≤ a ∧ identity s pd PAGE_SPACE_BOTTOM a)
    (frames PAGE_SPACE_BOTTOM PAGE_SPACE_TOP) PAGE_SPACE_BOTTOM PAGE_SPACE_TOP
    (λ a, kernel_map_page a a PAGE_PERMISSION_READ_WRITE PAGE_WRITEBACK PAGE_CACHE_ENABLED) s4)
    as (a5 & s5 & Hr5 & (Hinv5 & _ & _ & Hid5) & Ha5).
  { intros a s' Ha (Hi & Hal & Hlo & Hid). unfold PAGE_SPACE_BOTTOM, PAGE_SPACE_TOP in Ha, Hlo, Hid.
    destruct (map_identity pd s' a PAGE_PERMISSION_READ_WRITE Hi) as (s'' & Hr & Hi' & Hnew & Hold); [lia|lia|done|].
    exists s''. split_and!; [done|done|by apply (aligned_add a 1)|unfold PAGE_SPACE_BOTTOM; lia|].
    intros va Hva. unfold PAGE_SPACE_BOTTOM in Hva. destruct (decide (va < a)) as [Hlt|Hge].
    - destruct (Hid va) as (e & He & Hp); [unfold PAGE_SPACE_BOTTOM; lia|]. exists e. split; [|done]. rewrite Hold; [done|lia|lia].
    - destruct (Hnew va) as (e & He & Hp & _); [lia|]. by exists e. }
  { split_and!; [done|done|done|]. intros va Hva. lia. }
  { unfold frames, PAGE_SIZE. lia. }
  { unfold frames. lia. }
  exists s5. split_and!; [done|done|]. intros va Hva. apply Hid5. lia.
Qed.

(** the loop over the low pages *)
Lemma map_low_ok pd s5 start : start ≤ PAGE_SPACE_BOTTOM → init_inv pd s5 → identity s5 pd PAGE_SPACE_BOTTOM PAGE_SPACE_TOP →
  ∃ s6, for_pages (frames 0 start) 0 start (λ a, kernel_map_page a a (low_permission a) PAGE_WRITEBACK PAGE_CACHE_ENABLED) s5 = Ok ((), s6) ∧
    init_inv pd s6 ∧ identity s6 pd PAGE_SPACE_BOTTOM PAGE_SPACE_TOP ∧ mapped_low s6 pd start.
Proof.
  intros Hstart Hinv5 Hid5.
  destruct (for_pages_ok (λ a s, init_inv pd s ∧ aligned a ∧ 0 ≤ a ∧ identity s pd PAGE_SPACE_BOTTOM PAGE_SPACE_TOP ∧ mapped_low s pd a)
    (frames 0 start) 0 start (λ a, kernel_map_page a a (low_permission a) PAGE_WRITEBACK PAGE_CACHE_ENABLED) s5)
    as (a6 & s6 & Hr6 & (Hinv6 & _ & _ & Hid6 & Hlow6) & Ha6).
  { intros a s' Ha (Hi & Hal & Hlo & Hid & Hlow). unfold PAGE_SPACE_BOTTOM in Hstart. pose proof Hal as Hal'. unfold aligned in Hal'.
    destruct (map_identity pd s' a (low_permission a) Hi) as (s'' & Hr & Hi' & Hnew & Hold); [lia|lia|done|].
    exists s''. split_and!; [done|done|by apply (aligned_add a 1)|lia| |].
    - intros va Hva. destruct (Hid va Hva) as (e & He & Hp). exists e. split; [|done].
      unfold PAGE_SPACE_BOTTOM, PAGE_SPACE_TOP in Hva. rewrite Hold; [done|lia|lia].
    - intros va Hva. destruct (decide (va < a)) as [Hlt|Hge].
      + destruct (Hlow va) as (e & He & Hp & Hw); [lia|]. exists e. split_and!; [|done|done]. rewrite Hold; [done|lia|lia].
      + destruct (Hnew va) as (e & He & Hp & Hw); [lia|]. exists e. split_and!; [done|done|]. rewrite Hw.
        replace (va - va mod 4096) with a by lia. unfold low_permission. by destruct (_ && _). }
  { split_and!; [done|done|done| |].
    - exact Hid5.
    - intros va Hva. lia. }
  { unfold frames, PAGE_SIZE. lia. }
  { unfold frames. lia. }
  exists s6. split_and!; [done|done|done|]. intros va Hva. apply Hlow6. lia.
Qed.

(** [paging_init] runs to completion and turns paging on with a well-formed
    kernel directory in which the kernel image, the low megabyte and the page
    inventory are mapped to themselves, the pages of the text section
    read-only and the other low pages writable. *)
Theorem paging_init_identity s :
  fast_base_page_addr (pal s) = 0 →
  ∃ s', paging_init kernel_text_start kernel_data_start kernel_bss_end s = Ok ((), s') ∧
    cr3 s' = kernel_page_directory s' ∧ dir_ok s' (cr3 s') ∧ base_ok (pal s') ∧
    (∀ va, 0 ≤ va < get_system_memory_start kernel_bss_end ∨ PAGE_SPACE_BOTTOM ≤ va < PAGE_SPACE_TOP →
       virt2phy (cr3 s') va s' = Ok (va, s')) ∧
    (∀ va, 0 ≤ va < get_system_memory_start kernel_bss_end →
       ∃ e, translate (mem s') (cr3 s') va = Some e ∧
            write_permission (PTE32_PTR e) = low_permission (va - va mod 4096)).
Proof.
  intros Hfast. unfold paging_init. cbv zeta.
  destruct (start_frame kernel_bss_end bss_place) as [Est Hff]. set (start := get_system_memory_start kernel_bss_end) in *.
  assert (start ≤ PAGE_SPACE_BOTTOM) as Hstart.
  { destruct (page_round_aligned kernel_bss_end) as [_ Hr]; [unfold PAGE_SPACE_BOTTOM in *; lia|].
    unfold start, get_system_memory_start, PAGE_SPACE_BOTTOM in *. lia. }
  erewrite bind_ok by reflexivity. cbn beta.
  match goal with |- context [modify ?f] => set (upd := f) end.
  set (s1 := mk_pstate (upd (pal s)) (mem s) (kernel_page_directory s) (cr3 s)).
  rewrite (bind_ok _ _ _ () s1) by reflexivity.
  destruct (occupy_all_ok 0 kernel_bss_end s1) as (s2 & Hr2 & [bm2 ->]);
    [lia|done|unfold PAGE_SPACE_BOTTOM, PAGE_SPACE_TOP in *; lia|].
  rewrite (bind_ok _ _ _ _ _ Hr2). clear Hr2. cbn [pal mem kernel_page_directory cr3 s1].
  set (p2 := set_bitmap bm2 (upd (pal s))).
  destruct (get_base_page_ok p2) as (r & p3 & Hr3 & Hbase3 & Hcase); [by left|].
  assert (∀ i, base_used p2 i = false) as Hnone by (intros i; unfold base_used, occupied; by rewrite Z.testbit_0_l).
  destruct Hcase as [(_ & _ & Hall)|(j & -> & Hj & _ & Htakes)].
  { exfalso. specialize (Hall 0 ltac:(change BASE_PAGES with 16384; lia)). by rewrite Hnone in Hall. }
  erewrite bind_ok by (apply (zoom_ok pal_l); exact Hr3). cbn beta. mstep. unfold memset_page. mstep.
  cbn [lset pal_l pal mem kernel_page_directory cr3].
  pose proof (empty_directory (mk_pstate p2 (mem s) 0 (cr3 s)) p3 j Hnone Htakes Hj Hbase3) as Hinv. cbn [mem cr3] in Hinv.
  set (pd := base_page j) in *. set (s3 := mk_pstate p3 (clear_page (mem s) pd) pd (cr3 s)) in *.
  destruct (occupy_all_ok PAGE_SPACE_BOTTOM PAGE_SPACE_TOP s3) as (s4 & Hr4 & Hs4); [done|done|done|].
  rewrite (bind_ok _ _ _ _ _ Hr4). apply (init_inv_bitmap _ _ s4) in Hinv; [|done]. clear Hr4 Hs4.
  destruct (map_inventory_ok pd s4 Hinv) as (s5 & Hr5 & Hinv5 & Hid5). rewrite (bind_ok _ _ _ _ _ Hr5). clear Hr5.
  destruct (map_low_ok pd s5 start Hstart Hinv5 Hid5) as (s6 & Hr6 & Hinv6 & Hid6 & Hlow6).
  unfold low_permission in Hr6. rewrite (bind_ok _ _ _ _ _ Hr6). unfold load_cr3.
  eexists. split; [reflexivity|]. cbn [cr3 kernel_page_directory pal mem]. destruct Hinv6 as [Epd Hdir Hb _].
  assert (∀ va e s, dir_ok s pd → translate (mem s) pd va = Some e → phys_of e va = va → virt2phy pd va s = Ok (va, s)) as Hv.
  { intros va e s' Hd He Hp. by rewrite virt2phy_ok, He, Hp. }
  split_and!; [done|by destruct Hdir; split|done| |].
  - intros va [Hva|Hva].
    + destruct (Hlow6 va) as (e & He & Hp & _); [lia|]. eapply Hv; [by destruct Hdir; split|done|done].
    + destruct (Hid6 va Hva) as (e & He & Hp). eapply Hv; [by destruct Hdir; split|done|done].
  - intros va Hva. destruct (Hlow6 va) as (e & He & Hp & Hw); [lia|]. by exists e.
Qed.
End init_proof.

(** ** Examples *)
Module PagingExample.
#[local] Opaque clear_page base_page.
(** a machine whose base pages 0 and 1 hold an empty kernel directory and an
    empty task directory *)
Definition start : pstate :=
  mk_pstate (mk_palloc ∅ {[0 := 3]} 0 0 0x8000000)
    (clear_page (clear_page ∅ (base_page 1)) (base_page 0)) (base_page 0) 0.

Lemma start_words j k : (j = 0 ∨ j = 1) → 0 ≤ k < 1024 → mem start !! (base_page j + 4 * k) = Some 0.
Proof.
  intros Hj Hk. unfold start. cbn [mem]. destruct Hj as [->| ->]; [by apply clear_page_in|].
  rewrite clear_page_other; [by apply clear_page_in|intros E%base_page_inj; lia|by exists 1|done].
Qed.

Lemma start_dir j : (j = 0 ∨ j = 1) → dir_ok start (base_page j).
Proof.
  intros Hj. assert (∀ k, 0 ≤ k < 1024 → table (mem start) (base_page j) k = None) as Htab.
  { intros k Hk. unfold table. by rewrite start_words. }
  split.
  - exists j. split_and!; [done|lia|change BASE_PAGES with 16384; lia|by destruct Hj as [->| ->]|].
    intros k Hk. rewrite start_words by done. eauto.
  - intros k t Hk E. rewrite Htab in E by done. discriminate E.
  - intros k1 k2 t Hk1 _ E. rewrite Htab in E by done. discriminate E.
Qed.

Lemma entry_roundtrip_witness :
  PTE32_TO_DWORD (PTE32_PTR 0x12345063) = 0x12345063 ∧ PDE32_TO_DWORD (PDE32_PTR 0x12345063) = 0x12345063.
Proof. apply (entry_roundtrip 0x12345063). by vm_compute. Defined.

Lemma kernel_map_page_correct_witness :
  let s := start in let pd := kernel_page_directory s in
  let va := 0x2345678 in let pa := 0x9abc123 in
  (kernel_map_page va pa 1 0 0 s = Err AssertFail ∧
   table (mem s) pd (pd_index va) = None ∧ ∀ j, 0 ≤ j < BASE_PAGES → base_used (pal s) j = true) ∨
  (∃ s', kernel_map_page va pa 1 0 0 s = Ok ((), s') ∧
    kernel_page_directory s' = pd ∧ dir_ok s' pd ∧ base_ok (pal s') ∧
    (∀ a, 0 ≤ a < 4294967296 → a / 4096 = va / 4096 →
       virt2phy pd a s' = Ok (pa - pa mod 4096 + a mod 4096, s') ∧ page_present pd a s' = Ok (OK, s')) ∧
    (∃ e, translate (mem s') pd va = Some e ∧
       PTE32_PTR e = mk_pte 1 (1 mod 2) 0 (0 mod 2) (0 mod 2) 0 0 0 0 0 (pa / 4096)) ∧
    (∀ a, 0 ≤ a < 4294967296 → a / 4096 ≠ va / 4096 →
       translate (mem s') pd a = translate (mem s) pd a)).
Proof.
  apply (kernel_map_page_correct start 0x2345678 0x9abc123 1 0 0);
    [apply start_dir; by left|by left|by vm_compute|by vm_compute].
Defined.

Lemma enable_task_paging_switches_witness :
  ∃ s', enable_task_paging (base_page 1) start = Ok (OK, s') ∧ cr3 s' = base_page 0 ∧
    ∀ va, 0 ≤ va < 4294967296 →
      translate (mem s') (cr3 s') va =
      if USERSPACE_BOTTOM <=? va then translate (mem start) (base_page 1) va else translate (mem start) (base_page 0) va.
Proof.
  apply (enable_task_paging_switches start (base_page 1)); [apply start_dir; by left|apply start_dir; by right|intros E%base_page_inj; lia|].
  intros k t Hk E. unfold table in E. rewrite start_words in E; [discriminate E|by right|done].
Defined.

Lemma paging_init_identity_witness :
  ∃ s', paging_init 0x100000 0x120000 0x140800 start = Ok ((), s') ∧
    cr3 s' = kernel_page_directory s' ∧ dir_ok s' (cr3 s') ∧ base_ok (pal s') ∧
    (∀ va, 0 ≤ va < get_system_memory_start 0x140800 ∨ PAGE_SPACE_BOTTOM ≤ va < PAGE_SPACE_TOP →
       virt2phy (cr3 s') va s' = Ok (va, s')) ∧
    (∀ va, 0 ≤ va < get_system_memory_start 0x140800 →
       ∃ e, translate (mem s') (cr3 s') va = Some e ∧
            write_permission (PTE32_PTR e) = low_permission 0x100000 0x120000 (va - va mod 4096)).
Proof. apply (paging_init_identity 0x100000 0x120000 0x140800); by vm_compute. Defined.
End PagingExample.
