(* ===== verification/CString.v ===== *)
(** * C strings and byte buffers: lib/string.c

    A pointer into a byte array is the list of the bytes from it to the end of
    the array.  [None] is an access beyond the end.  Source and destination are
    different arrays, as the comment on [memcpy] asks. *)

From stdpp Require Import list.
From S2P Require Import Prelude.
Open Scope Z_scope.
Open Scope zelda_scope.

Fixpoint memset_bytes (n : nat) (dst : list Z) (target : Z) : option (list Z) :=
  match n, dst with
  | O, _ => Some dst
  | S n, _ :: dst => cons target <$> memset_bytes n dst target
  | S n, [] => None
  end.
Definition memset (dst : list Z) (target size : Z) : option (list Z) :=
  memset_bytes (Z.to_nat size) dst (u8 target).

Fixpoint memcpy_bytes (n : nat) (dst src : list Z) : option (list Z) :=
  match n, dst, src with
  | O, _, _ => Some dst
  | S n, _ :: dst, x :: src => cons x <$> memcpy_bytes n dst src
  | S n, _, _ => None
  end.
Definition memcpy (dst src : list Z) (length : Z) : option (list Z) :=
  memcpy_bytes (Z.to_nat length) dst src.

Fixpoint strcmp (str1 str2 : list Z) : option Z :=
  match str1, str2 with
  | x :: str1, y :: str2 =>
      if ctrue x && ctrue y && (x =? y) then strcmp str1 str2 else Some (x - y)
  | _, _ => None
  end.

Fixpoint strcpy (dst src : list Z) : option (list Z) :=
  match dst, src with
  | _ :: dst, x :: src => cons x <$> (if ctrue x then strcpy dst src else Some dst)
  | _, _ => None
  end.

(** [for (; idx < max_size && (dst[idx] = src[idx]); idx++);] with [n] bytes left *)
Fixpoint strcpy_bytes (n : nat) (dst src : list Z) : option (list Z) :=
  match n, dst, src with
  | O, _, _ => Some dst
  | S n, _ :: dst, x :: src => cons x <$> (if ctrue x then strcpy_bytes n dst src else Some dst)
  | S n, _, _ => None
  end.
Definition strcpy_safe (dst src : list Z) (max_size : Z) : option (list Z) :=
  strcpy_bytes (Z.to_nat max_size) dst src.

Fixpoint strlen_from (iptr : Z) (str : list Z) : option Z :=
  match str with
  | x :: str => if ctrue x then strlen_from (u32 (iptr + 1)) str else Some iptr
  | [] => None
  end.
Definition strlen (str : list Z) : option Z := strlen_from 0 str.

Fixpoint strchr_from (idx : Z) (str : list Z) (target : Z) : option Z :=
  match str with
  | x :: str =>
      if ctrue x then if x =? target then Some idx else strchr_from (idx + 1) str target
      else Some (-1)
  | [] => None
  end.
Definition strchr (str : list Z) (target : Z) : option Z := strchr_from 0 str target.

Fixpoint start_with (target sub : list Z) {struct sub} : option Z :=
  match sub with
  | y :: sub' =>
      if ctrue y then
        match target with
        | x :: target => if x =? y then start_with target sub' else Some y
        | [] => None
        end
      else Some y
  | [] => None
  end.

(** ** Specification *)

(** [b] holds the string [s] *)
Definition holds (b s : list Z) : Prop := Forall (λ x, x ≠ 0) s ∧ ∃ r, b = s ++ 0 :: r.

(** the string in a buffer: the bytes in front of the first NUL *)
Fixpoint text (b : list Z) : list Z :=
  match b with
  | [] => []
  | x :: b => if ctrue x then x :: text b else []
  end.

Lemma holds_text b s : holds b s → text b = s.
Proof.
  intros [Hs [r ->]]. induction Hs as [|x s Hx _ IH]; [done|]. simpl.
  rewrite (proj2 (ctrue_true x) Hx). by f_equal.
Qed.

Lemma text_nonzero b : Forall (λ x, x ≠ 0) (text b).
Proof.
  induction b as [|x b IH]; simpl; [done|]. destruct (ctrue x) eqn:E; [|done].
  apply Forall_cons. split; [by apply ctrue_true|done].
Qed.

Lemma holds_cons x s b : holds b s → x ≠ 0 → holds (x :: b) (x :: s).
Proof. intros [Hs [r ->]] Hx. split; [by apply Forall_cons|by exists r]. Qed.

Lemma holds_ind (P : list Z → list Z → Prop) :
  (∀ r, P (0 :: r) []) → (∀ x b s, x ≠ 0 → holds b s → P b s → P (x :: b) (x :: s)) →
  ∀ b s, holds b s → P b s.
Proof.
  intros H0 Hs b s [Hnz [r ->]]. induction Hnz as [|x s Hx Hnz IH]; [apply H0|].
  apply Hs; [done|by split; [|exists r]|done].
Qed.

Lemma strlen_from_ok b s i :
  holds b s → 0 ≤ i → i + Z.of_nat (length s) < 4294967296 → strlen_from i b = Some (i + Z.of_nat (length s)).
Proof.
  intros Hb. revert b s Hb i. refine (holds_ind _ _ _); [intros r i ? ?; simpl; f_equal; lia|].
  intros x b s Hx _ IH i Hi Hlen. simpl in *. rewrite (proj2 (ctrue_true x) Hx), u32_small, IH by lia. f_equal. lia.
Qed.

Lemma strcmp_ok b1 s1 b2 s2 :
  holds b1 s1 → holds b2 s2 → ∃ d, strcmp b1 b2 = Some d ∧ (d = 0 ↔ s1 = s2).
Proof.
  intros H1. revert b1 s1 H1 b2 s2. refine (holds_ind _ _ _).
  - intros r b2 s2 [Hnz [r2 ->]]. destruct s2 as [|y s2]; simpl.
    + exists 0. done.
    + apply Forall_cons in Hnz as [Hy _]. exists (0 - y). split; [done|]. split; [lia|done].
  - intros x b1 s1 Hx _ IH b2 s2 [Hnz [r2 ->]]. destruct s2 as [|y s2]; simpl.
    + exists (x - 0). rewrite (proj2 (ctrue_true x) Hx). split; [done|]. split; [lia|done].
    + apply Forall_cons in Hnz as [Hy Hnz]. rewrite (proj2 (ctrue_true x) Hx), (proj2 (ctrue_true y) Hy). simpl.
      destruct (Z.eqb_spec x y) as [->|Hne].
      * destruct (IH (s2 ++ 0 :: r2) s2) as (d & Hd & E); [by split; [|exists r2]|]. exists d. split; [done|].
        rewrite E. naive_solver.
      * exists (x - y). split; [done|]. split; [lia|naive_solver].
Qed.

Lemma strcpy_bytes_ok n b s dst :
  holds b s → (n ≤ length dst)%nat →
  strcpy_bytes n dst b =
  Some (if decide (length s < n)%nat then s ++ 0 :: drop (S (length s)) dst else take n s ++ drop n dst).
Proof.
  intros Hb. revert b s Hb n dst. refine (holds_ind _ _ _).
  - intros r n dst Hn. destruct n as [|n]; simpl; [done|]. destruct dst; simpl in *; [lia|done].
  - intros x b s Hx _ IH n dst Hn. destruct n as [|n]; simpl; [done|]. destruct dst as [|y dst]; simpl in *; [lia|].
    rewrite (proj2 (ctrue_true x) Hx), IH by lia. simpl. f_equal.
    repeat case_decide; (lia || done).
Qed.

Lemma strcpy_ok b s dst :
  holds b s → (length s < length dst)%nat → strcpy dst b = Some (s ++ 0 :: drop (S (length s)) dst).
Proof.
  intros Hb. revert b s Hb dst. refine (holds_ind _ _ _).
  - intros r dst Hn. destruct dst; simpl in *; [lia|done].
  - intros x b s Hx _ IH dst Hn. destruct dst as [|y dst]; simpl in *; [lia|].
    rewrite (proj2 (ctrue_true x) Hx), IH by lia. done.
Qed.

Lemma strchr_from_ok b s t i :
  holds b s → strchr_from i b t = Some (match list_find (λ x, x = t) s with Some (k, _) => i + Z.of_nat k | None => -1 end).
Proof.
  intros Hb. revert b s Hb i. refine (holds_ind _ _ _); [done|]. intros x b s Hx _ IH i. simpl.
  rewrite (proj2 (ctrue_true x) Hx). destruct (Z.eqb_spec x t) as [->|Hne].
  - rewrite decide_True by done. f_equal. lia.
  - rewrite decide_False, IH by done. f_equal. destruct (list_find _ s) as [[k ?]|]; simpl; lia.
Qed.

Lemma start_with_ok b s c t :
  holds b s → holds c t → ∃ d, start_with b c = Some d ∧ (d = 0 ↔ t `prefix_of` s).
Proof.
  intros Hb Hc. revert c t Hc b s Hb. refine (holds_ind _ _ _).
  - intros r b s Hb. exists 0. split; [by destruct b|]. split; [intros _; apply prefix_nil|done].
  - intros y c t Hy _ IH b s [Hnz [r ->]]. cbn [start_with]. rewrite (proj2 (ctrue_true y) Hy).
    destruct s as [|x s]; cbn [app].
    + rewrite (proj2 (Z.eqb_neq 0 y)) by lia. exists y. split; [done|]. split; [done|].
      intros [k E]; discriminate.
    + apply Forall_cons in Hnz as [Hx Hnz]. destruct (Z.eqb_spec x y) as [->|Hne].
      * destruct (IH (s ++ 0 :: r) s) as (d & Hd & E); [by split; [|exists r]|]. exists d. split; [done|].
        rewrite E. split; [apply prefix_cons|apply prefix_cons_inv_2].
      * exists y. split; [done|]. split; [done|]. intros [k [= E _]]. congruence.
Qed.

Lemma memset_bytes_ok n dst t :
  (n ≤ length dst)%nat → memset_bytes n dst t = Some (replicate n t ++ drop n dst).
Proof.
  revert dst. induction n as [|n IH]; intros [|x dst] Hn; simpl in *; try (done || lia).
  by rewrite IH by lia.
Qed.

Lemma memcpy_bytes_ok n dst src :
  (n ≤ length dst)%nat → (n ≤ length src)%nat → memcpy_bytes n dst src = Some (take n src ++ drop n dst).
Proof.
  revert dst src. induction n as [|n IH]; intros [|x dst] [|y src] Hn Hm; simpl in *; try (done || lia).
  by rewrite IH by lia.
Qed.

(** On buffers that hold C strings: [strlen] is the length, [strcmp]
    returns zero exactly for equal strings, [start_with] exactly for a prefix,
    [strchr] is the index of the first occurrence or -1, and [strcpy_safe]
    never writes beyond [max_size]: it copies the terminated string when that
    fits and otherwise the first [max_size] bytes, without a terminator. *)
Theorem cstring_functions b s c t dst max ch :
  holds b s → holds c t → Z.of_nat (length s) < 4294967296 → 0 ≤ max ≤ Z.of_nat (length dst) →
  strlen b = Some (Z.of_nat (length s)) ∧
  (∃ d, strcmp b c = Some d ∧ (d = 0 ↔ s = t)) ∧
  (∃ d, start_with b c = Some d ∧ (d = 0 ↔ t `prefix_of` s)) ∧
  strchr b ch = Some (match list_find (λ x, x = ch) s with Some (k, _) => Z.of_nat k | None => -1 end) ∧
  strcpy_safe dst b max =
    Some (if Z.of_nat (length s) <? max then s ++ 0 :: drop (S (length s)) dst
          else take (Z.to_nat max) s ++ drop (Z.to_nat max) dst).
Proof.
  intros Hb Hc Hlen Hmax. split_and!.
  - unfold strlen. by rewrite (strlen_from_ok _ s) by (done || lia).
  - by apply strcmp_ok.
  - by apply start_with_ok.
  - unfold strchr. rewrite (strchr_from_ok _ s) by done. do 2 f_equal.
  - unfold strcpy_safe. rewrite (strcpy_bytes_ok _ _ s) by (done || lia). f_equal.
    destruct (Z.ltb_spec (Z.of_nat (length s)) max), (decide (length s < Z.to_nat max)%nat); (lia || done).
Qed.

Lemma cstring_functions_witness :
  let b := [104; 105; 0; 7] in let c := [104; 0] in
  strlen b = Some 2 ∧
  (∃ d, strcmp b c = Some d ∧ (d = 0 ↔ [104; 105] = [104])) ∧
  (∃ d, start_with b c = Some d ∧ (d = 0 ↔ [104] `prefix_of` [104; 105])) ∧
  strchr b 105 = Some 1 ∧
  strcpy_safe [1; 2] b 2 = Some [104; 105].
Proof.
  apply (cstring_functions [104; 105; 0; 7] [104; 105] [104; 0] [104] [1; 2] 2 105).
  - split; [by repeat constructor|by exists [7]].
  - split; [by repeat constructor|by exists []].
  - done.
  - done.
Defined.
