(* ===== verification/Printk.v ===== *)
(** * Kernel messages: kernel/printk.c

    Formatting writes through a function for one byte, [func], which is
    [sprintf_lambda_func] for [sprintf] and [vga_enqueue_byte] for [printk]; it
    acts on an arbitrary state.  The console is the ring of rows in
    [vga_shadow_memory] and the video memory.  The copy of every byte to the
    serial line (SERIAL_OUTPUT) is left out.

    The specification of a format is the relation [renders]; of the console, the
    lines that a sequence of bytes makes ([lines]), of which the last 25 are
    shown. *)

From Stdlib Require Import ZifyNat.
From stdpp Require Import list.
From S2P Require Import Prelude CString.
Open Scope Z_scope.
Open Scope zelda_scope.

Definition VGA_MAX_ROW : Z := 25.
Definition VGA_MAX_COL : Z := 80.
Definition DEFAULT_STACK_SIZE : Z := 64.
Definition NEWLINE : Z := 10.

(** [for (idx = i; idx < i + n; idx++) body] *)
Fixpoint for_up {S} (n : nat) (idx : Z) (body : Z → M S ()) : M S () :=
  match n with O => mret () | S n => body idx ;; for_up n (idx + 1) body end.

(** ** Formatting *)
Section format.
Context {S : Type}.
Variable func : Z → M S ().

(** the digits of [val] pushed on [stack], whose top is the head of the list *)
Fixpoint decimal_stack (n : nat) (val : Z) (stack : list Z) : list Z :=
  match n with
  | O => stack
  | Datatypes.S n => if ctrue val then decimal_stack n (Z.quot val 10) (u8 (Z.rem val 10 + 48) :: stack) else stack
  end.

(** [while(iptr > 0) func(stack[--iptr], ...)] *)
Fixpoint unwind (stack : list Z) : M S () :=
  match stack with [] => mret () | c :: stack => func c ;; unwind stack end.

Definition resolve_decimal (val : Z) : M S () :=
  when (val <? 0) (func 45) ;;
  let val := if val <? 0 then i32 (- val) else val in
  let stack := decimal_stack (Z.to_nat DEFAULT_STACK_SIZE) val [] in
  unwind (if ctrue val then stack else 48 :: stack).

Definition lower : list Z := [48; 49; 50; 51; 52; 53; 54; 55; 56; 57; 97; 98; 99; 100; 101; 102].
Definition upper : list Z := [48; 49; 50; 51; 52; 53; 54; 55; 56; 57; 65; 66; 67; 68; 69; 70].

Fixpoint hex_stack (table : list Z) (n : nat) (val : Z) (stack : list Z) : M S (list Z) :=
  match n with
  | O => mret stack
  | Datatypes.S n =>
      if ctrue val then
        c ← deref (array_get table (Z.land val 0xf));
        hex_stack table n (Z.shiftr val 4) (c :: stack)
      else mret stack
  end.

Definition resolve_hexdecimal (_val : Z) (lowcase : bool) : M S () :=
  let val := Z.land _val 0xffffffff in
  stack ← hex_stack (if lowcase then lower else upper) (Z.to_nat DEFAULT_STACK_SIZE) val [];
  unwind (if ctrue val then stack else 48 :: stack).

(** an argument behind the format: a pointer to bytes or an integer *)
Inductive arg := ArgS (str_arg : list Z) | ArgI (int_arg : Z).

Fixpoint put_string (str_arg : list Z) : M S () :=
  match str_arg with
  | [] => fail BadAccess
  | c :: str_arg => if ctrue c then func c ;; put_string str_arg else mret ()
  end.

(** [va_arg(arg_ptr, ...)] of an argument that is not there or of another kind
    is undefined *)
Definition next_int (args : list arg) : M S (Z * list arg) :=
  match args with ArgI n :: args => mret (n, args) | _ => fail BadAccess end.
Definition next_string (args : list arg) : M S (list Z * list arg) :=
  match args with ArgS s :: args => mret (s, args) | _ => fail BadAccess end.

(** the body of the [switch] for the conversion [c] *)
Definition convert (c : Z) (args : list arg) : M S (list arg) :=
  if c =? 115 (* s *) then
    '(str_arg, args) ← next_string args; put_string str_arg ;; mret args
  else if c =? 99 (* c *) then
    '(int_arg, args) ← next_int args; func (u8 int_arg) ;; mret args
  else if (c =? 100) || (c =? 104) (* d, h *) then
    '(int_arg, args) ← next_int args; resolve_decimal int_arg ;; mret args
  else if c =? 120 (* x *) then
    '(int_arg, args) ← next_int args; resolve_hexdecimal int_arg true ;; mret args
  else if c =? 88 (* X *) then
    '(int_arg, args) ← next_int args; resolve_hexdecimal int_arg false ;; mret args
  else if c =? 108 (* l *) then
    '(int_arg, args) ← next_int args; resolve_hexdecimal int_arg false ;;
    '(int_arg, args) ← next_int args; resolve_hexdecimal int_arg false ;; mret args
  else mret args.

(** [for(; *ptr; ptr++)] over the format; a [%] in front of the NUL runs behind it *)
Fixpoint format_loop (ptr : list Z) (args : list arg) : M S () :=
  match ptr with
  | [] => fail BadAccess
  | c :: ptr =>
      if ! c then mret () else
      if negb (c =? 37) then func c ;; format_loop ptr args else
      match ptr with
      | [] => fail BadAccess
      | c :: ptr => args ← convert c args; format_loop ptr args
      end
  end.
End format.

(** [dst[*pindex] = c; *pindex += 1] *)
Definition sprintf_lambda_func (c : Z) : M (list Z * Z) () :=
  '(dst, pindex) ← gets id;
  dst ← deref (array_set dst pindex c);
  modify (λ _, (dst, pindex + 1)).

(** the result and the new contents of [dst], [None] for an access outside of a buffer *)
Definition sprintf (dst format : list Z) (args : list arg) : option (Z * list Z) :=
  match (format_loop sprintf_lambda_func format args ;; sprintf_lambda_func 0) (dst, 0) with
  | Ok (_, (dst, ret)) => Some (ret, dst)
  | Err _ => None
  end.

(** ** The console *)
Record console := mk_console {
  __log_level : Z;
  vga_row_front : Z; vga_row_idx : Z; vga_col_idx : Z;
  vga_shadow_memory : list (list Z); vga_memory : list (list Z);
  default_console_hidden : bool }.

Definition set_level (x : Z) (c : console) : console := mk_console x (vga_row_front c) (vga_row_idx c) (vga_col_idx c) (vga_shadow_memory c) (vga_memory c) (default_console_hidden c).
Definition set_front (x : Z) (c : console) : console := mk_console (__log_level c) x (vga_row_idx c) (vga_col_idx c) (vga_shadow_memory c) (vga_memory c) (default_console_hidden c).
Definition set_row (x : Z) (c : console) : console := mk_console (__log_level c) (vga_row_front c) x (vga_col_idx c) (vga_shadow_memory c) (vga_memory c) (default_console_hidden c).
Definition set_col (x : Z) (c : console) : console := mk_console (__log_level c) (vga_row_front c) (vga_row_idx c) x (vga_shadow_memory c) (vga_memory c) (default_console_hidden c).
Definition set_shadow (x : list (list Z)) (c : console) : console := mk_console (__log_level c) (vga_row_front c) (vga_row_idx c) (vga_col_idx c) x (vga_memory c) (default_console_hidden c).
Definition set_vga (x : list (list Z)) (c : console) : console := mk_console (__log_level c) (vga_row_front c) (vga_row_idx c) (vga_col_idx c) (vga_shadow_memory c) x (default_console_hidden c).
Definition set_hidden (x : bool) (c : console) : console := mk_console (__log_level c) (vga_row_front c) (vga_row_idx c) (vga_col_idx c) (vga_shadow_memory c) (vga_memory c) x.

(** [m[i][j]] and [m[i][j] = v] *)
Definition get2 (m : list (list Z)) (i j : Z) : option Z :=
  if i <? 0 then None else r ← m !! Z.to_nat i; array_get r j.
Definition set2 (m : list (list Z)) (i j v : Z) : option (list (list Z)) :=
  if i <? 0 then None else r ← m !! Z.to_nat i; r' ← array_set r j v; Some (<[Z.to_nat i := r']> m).

Definition set_log_level (level : Z) : M console () := modify (set_level level).

Definition reset_video_buffer : M console () :=
  for_up (Z.to_nat VGA_MAX_ROW) 0 (λ idx_row, for_up (Z.to_nat VGA_MAX_COL) 0 (λ idx_col,
    v ← gets vga_memory;
    x ← deref (get2 v idx_row idx_col);
    v ← deref (set2 v idx_row idx_col (Z.land x 0xff00));
    modify (set_vga v))).

(** [vga_shadow_memory[row][idx] = x] *)
Definition put_shadow (row idx x : Z) : M console () :=
  v ← gets vga_shadow_memory;
  v ← deref (set2 v row idx x);
  modify (set_shadow v).

(** [KERNEL_LOGGING_LEVEL] is the level [level] *)
Definition printk_init (level : Z) : M console () :=
  for_up (Z.to_nat (VGA_MAX_ROW + 1)) 0 (λ idx_row, for_up (Z.to_nat VGA_MAX_COL) 0 (λ idx_col, put_shadow idx_row idx_col 0)) ;;
  set_log_level level.

Definition vga_enqueue_byte (target : Z) : M console () :=
  c ← gets id;
  when (negb (target =? NEWLINE)) (put_shadow (vga_row_idx c) (vga_col_idx c) target) ;;
  modify (set_col (vga_col_idx c + 1)) ;;
  when ((vga_col_idx c + 1 =? VGA_MAX_COL) || (target =? NEWLINE)) (
    modify (set_col 0) ;;
    row ← crem (vga_row_idx c + 1) (VGA_MAX_ROW + 1);
    modify (set_row row) ;;
    next ← crem (row + 1) (VGA_MAX_ROW + 1);
    when (next =? vga_row_front c) (
      for_up (Z.to_nat VGA_MAX_COL) 0 (λ idx, put_shadow (vga_row_front c) idx 0) ;;
      front ← crem (vga_row_front c + 1) (VGA_MAX_ROW + 1);
      modify (set_front front))).

Definition flush_row (idx real_row_idx : Z) : M console () :=
  for_up (Z.to_nat VGA_MAX_COL) 0 (λ tmp_idx,
    c ← gets id;
    x ← deref (get2 (vga_memory c) real_row_idx tmp_idx);
    y ← deref (get2 (vga_shadow_memory c) idx tmp_idx);
    v ← deref (set2 (vga_memory c) real_row_idx tmp_idx (Z.lor (Z.land x 0xff00) y));
    modify (set_vga v)).

(** the rows of the ring come round after 26 steps *)
Fixpoint flush_loop (fuel : nat) (idx real_row_idx : Z) : M console () :=
  match fuel with
  | O => fail Diverge
  | S fuel =>
      row ← gets vga_row_idx;
      stop ← crem (row + 1) (VGA_MAX_ROW + 1);
      if negb (stop =? idx) then
        flush_row idx real_row_idx ;;
        idx ← crem (idx + 1) (VGA_MAX_ROW + 1);
        flush_loop fuel idx (real_row_idx + 1)
      else mret ()
  end.

Definition printk_flush : M console () :=
  c ← gets id;
  if default_console_hidden c then mret () else
  flush_loop (Z.to_nat (VGA_MAX_ROW + 2)) (vga_row_front c) 0.

Definition hide_default_console : M console () :=
  modify (set_hidden true) ;; reset_video_buffer.
Definition expose_default_console : M console () :=
  modify (set_hidden false) ;; reset_video_buffer ;; printk_flush.

Definition printk (format : list Z) (args : list arg) : M console () :=
  format_loop vga_enqueue_byte format args ;;
  printk_flush.

(** ** Numerals *)
Definition value (b : Z) (ds : list Z) : Z := foldl (λ n d, n * b + d) 0 ds.

(** [s] is the numeral of [n] in the digits of [table], without leading zeros *)
Definition numeral (table : list Z) (n : Z) (s : list Z) : Prop :=
  ∃ ds, Forall (λ d, 0 ≤ d < lenZ table) ds ∧ value (lenZ table) ds = n ∧
    s = (λ d, nth (Z.to_nat d) table 0) <$> ds ∧ (n = 0 → ds = [0]) ∧ (n ≠ 0 → ∃ d ds', ds = d :: ds' ∧ d ≠ 0).

Definition decimal : list Z := take 10 lower.

Lemma value_snoc b ds d : value b (ds ++ [d]) = value b ds * b + d.
Proof. unfold value. by rewrite foldl_app. Qed.

(** the digits a stack of [n] places can hold *)
Fixpoint dig (b : Z) (n : nat) (val : Z) : list Z :=
  match n with O => [] | S n => if ctrue val then dig b n (val `div` b) ++ [val `mod` b] else [] end.

Lemma dig_ok b n val :
  2 ≤ b → 0 ≤ val < 2 ^ Z.of_nat n →
  Forall (λ d, 0 ≤ d < b) (dig b n val) ∧ value b (dig b n val) = val ∧ (val ≠ 0 → ∃ d ds, dig b n val = d :: ds ∧ d ≠ 0).
Proof.
  intros Hb. revert val. induction n as [|n IH]; intros val Hval; cbn [dig].
  { change (2 ^ Z.of_nat 0) with 1 in Hval. assert (val = 0) as -> by lia. by split_and!. }
  destruct (ctrue val) eqn:E; [|apply ctrue_false in E as ->; by split_and!]. apply ctrue_true in E.
  assert (0 ≤ val `div` b < 2 ^ Z.of_nat n) as Hdiv.
  { split; [apply Z.div_pos; lia|]. apply Z.div_lt_upper_bound; [lia|]. rewrite Nat2Z.inj_succ, Z.pow_succ_r in Hval by lia.
    assert (0 < 2 ^ Z.of_nat n) by (apply Z.pow_pos_nonneg; lia). nia. }
  pose proof (Z.mod_pos_bound val b ltac:(lia)) as Hmod. destruct (IH _ Hdiv) as (HF & Hv & Hhd). split_and!.
  - apply Forall_app. split; [done|]. by apply Forall_singleton.
  - rewrite value_snoc, Hv. pose proof (Z.div_mod val b ltac:(lia)). lia.
  - intros _. destruct (decide (val `div` b = 0)) as [E0|E0].
    + assert (val `mod` b ≠ 0) by (pose proof (Z.div_mod val b ltac:(lia)); lia).
      rewrite E0. destruct n; cbn [dig]; by eexists _, [].
    + destruct (Hhd E0) as (d & ds & -> & Hd). by exists d, (ds ++ [val `mod` b]).
Qed.

Lemma dig_numeral table n val :
  2 ≤ lenZ table → 0 ≤ val < 2 ^ Z.of_nat n →
  numeral table val ((λ d, nth (Z.to_nat d) table 0) <$> (if ctrue val then dig (lenZ table) n val else [0])).
Proof.
  intros Hb Hval. destruct (dig_ok (lenZ table) n val Hb Hval) as (HF & Hv & Hhd). eexists. split_and!; [| |done| |];
    destruct (ctrue val) eqn:E; try apply ctrue_true in E; try (apply ctrue_false in E as ->); try done.
  apply Forall_singleton. lia.
Qed.

Section emit.
Context {S : Type}.
Variable func : Z → M S ().

Implicit Types s : S.

Lemma unwind_app a b s : unwind func (a ++ b) s = (unwind func a ;; unwind func b) s.
Proof.
  revert s. induction a as [|x a IH]; intros s; cbn [app unwind]; [done|]. rewrite bind_assoc_run.
  unfold mbind, M_bind. destruct (func x s) as [[? s']|]; [|done]. apply IH.
Qed.

Lemma decimal_stack_dig n val stack :
  0 ≤ val → decimal_stack n val stack = ((λ d, nth (Z.to_nat d) decimal 0) <$> dig 10 n val) ++ stack.
Proof.
  revert val stack. induction n as [|n IH]; intros val stack Hval; cbn [decimal_stack dig]; [done|].
  destruct (ctrue val); [|done]. rewrite Z.quot_div_nonneg, Z.rem_mod_nonneg by lia. rewrite IH by (apply Z.div_pos; lia).
  rewrite fmap_app, <-app_assoc. cbn [fmap list_fmap app]. do 2 f_equal.
  pose proof (Z.mod_pos_bound val 10 ltac:(lia)) as Hm. generalize dependent (val `mod` 10). intros d Hd.
  assert (d = 0 ∨ d = 1 ∨ d = 2 ∨ d = 3 ∨ d = 4 ∨ d = 5 ∨ d = 6 ∨ d = 7 ∨ d = 8 ∨ d = 9) as Hcase by lia.
  by destruct_or! Hcase; subst d.
Qed.

Lemma hex_stack_dig table n val stack s :
  lenZ table = 16 → 0 ≤ val → hex_stack table n val stack s = Ok (((λ d, nth (Z.to_nat d) table 0) <$> dig 16 n val) ++ stack, s).
Proof.
  intros Ht. revert val stack. induction n as [|n IH]; intros val stack Hval; cbn [hex_stack dig]; [done|].
  destruct (ctrue val); [|done]. change 15 with (Z.ones 4). rewrite Z.land_ones, Z.shiftr_div_pow2 by lia. change (2 ^ 4) with 16.
  pose proof (Z.mod_pos_bound val 16 ltac:(lia)) as Hm.
  destruct (lookup_lt_is_Some_2 table (Z.to_nat (val `mod` 16))) as [c Hc]; [lia|].
  rewrite (bind_ok _ _ _ c s) by (apply deref_ok, array_get_ok; [done|lia]). rewrite IH by (apply Z.div_pos; lia).
  rewrite fmap_app, <-app_assoc. cbn [fmap list_fmap app]. by rewrite (nth_lookup_Some _ _ _ _ Hc).
Qed.

Lemma land_u32 n : Z.land n 0xffffffff = u32 n.
Proof. change 0xffffffff with (Z.ones 32). by rewrite Z.land_ones. Qed.

Lemma resolve_decimal_ok (val : Z) s :
  -2147483648 < val < 2147483648 →
  ∃ num, numeral decimal (Z.abs val) num ∧ resolve_decimal func val s = unwind func ((if val <? 0 then [45] else []) ++ num) s.
Proof.
  intros Hval. eexists. split.
  { apply (dig_numeral decimal 64); [done|]. change (2 ^ Z.of_nat 64) with 18446744073709551616. lia. }
  assert ((if val <? 0 then i32 (- val) else val) = Z.abs val) as E.
  { destruct (Z.ltb_spec val 0); [|lia]. unfold i32. rewrite u32_small by lia. rewrite (proj2 (Z.ltb_lt _ _)) by lia. lia. }
  unfold resolve_decimal. rewrite E, unwind_app. clear E.
  assert (∀ k, (when (val <? 0) (func 45) ;; k) s = (unwind func (if val <? 0 then [45] else []) ;; k) s) as ->.
  { intros k. destruct (val <? 0); [|done]. cbn [unwind]. rewrite bind_assoc_run. unfold when, mbind, M_bind. by destruct (func 45 s) as [[[] s']|]. }
  unfold mbind, M_bind. destruct (unwind func (if val <? 0 then [45] else []) s) as [[? s']|]; [|done]. cbv zeta.
  rewrite decimal_stack_dig by lia. rewrite app_nil_r. by destruct (ctrue (Z.abs val)) eqn:E; [|apply ctrue_false in E as ->].
Qed.

Lemma resolve_hexdecimal_ok (val : Z) (lowcase : bool) s :
  ∃ num, numeral (if lowcase then lower else upper) (u32 val) num ∧ resolve_hexdecimal func val lowcase s = unwind func num s.
Proof.
  eexists. assert (lenZ (if lowcase then lower else upper) = 16) as Ht by (by destruct lowcase). split.
  { apply (dig_numeral _ 64); [lia|]. pose proof (u32_range val). change (2 ^ Z.of_nat 64) with 18446744073709551616. lia. }
  unfold resolve_hexdecimal. cbv zeta. rewrite land_u32. pose proof (u32_range val).
  rewrite (bind_ok _ _ _ _ _ (hex_stack_dig _ _ _ [] s Ht (proj1 (u32_range val)))), app_nil_r, Ht.
  destruct (ctrue (u32 val)) eqn:E; [done|]. apply ctrue_false in E as ->. by destruct lowcase.
Qed.
End emit.

(** ** What a format means *)
Inductive renders : list Z → list arg → list Z → Prop :=
  | renders_end args : renders [] args []
  | renders_char c f args out : c ≠ 37 → renders f args out → renders (c :: f) args (c :: out)
  | renders_s b s f args out : holds b s → renders f args out → renders (37 :: 115 :: f) (ArgS b :: args) (s ++ out)
  | renders_c n f args out : renders f args out → renders (37 :: 99 :: f) (ArgI n :: args) (u8 n :: out)
  | renders_d c n num f args out : c = 100 ∨ c = 104 → numeral decimal (Z.abs n) num → renders f args out →
      renders (37 :: c :: f) (ArgI n :: args) ((if n <? 0 then [45] else []) ++ num ++ out)
  | renders_x n num f args out : numeral lower (u32 n) num → renders f args out →
      renders (37 :: 120 :: f) (ArgI n :: args) (num ++ out)
  | renders_X n num f args out : numeral upper (u32 n) num → renders f args out →
      renders (37 :: 88 :: f) (ArgI n :: args) (num ++ out)
  | renders_l n1 n2 num1 num2 f args out : numeral upper (u32 n1) num1 → numeral upper (u32 n2) num2 → renders f args out →
      renders (37 :: 108 :: f) (ArgI n1 :: ArgI n2 :: args) (num1 ++ num2 ++ out)
  | renders_other c f args out : c ∉ [115; 99; 100; 104; 120; 88; 108] → renders f args out → renders (37 :: c :: f) args out.

Lemma renders_s_inv f b args out :
  renders (37 :: 115 :: f) (ArgS b :: args) out → ∃ t out', holds b t ∧ out = t ++ out' ∧ renders f args out'.
Proof.
  intros Hr. inversion Hr as [|c' f' args' out' Hc Hr'|b' t f' args' out' Ht Hr'| | | | | |c' f' args' out' Hc Hr']; subst; [done|by eexists _, _|].
  destruct Hc. by left.
Qed.

Lemma renders_d_inv f n args out :
  renders (37 :: 100 :: f) (ArgI n :: args) out → 0 ≤ n → ∃ num out', numeral decimal n num ∧ out = num ++ out' ∧ renders f args out'.
Proof.
  intros Hr Hn. inversion Hr as [|c' f' args' out' Hc Hr'| | |c' n' num f' args' out' Hc Hnum Hr'| | | |c' f' args' out' Hc Hr']; subst; [done| |].
  - rewrite Z.abs_eq in Hnum by done. rewrite (proj2 (Z.ltb_ge n 0)) by done. by eexists _, _.
  - destruct Hc. by repeat constructor.
Qed.

Lemma renders_char_inv c f args out : c ≠ 37 → renders (c :: f) args out → ∃ out', out = c :: out' ∧ renders f args out'.
Proof. intros Hc Hr. inversion Hr; subst; [by eexists|done..]. Qed.

Lemma renders_nil_inv args out : renders [] args out → out = [].
Proof. by inversion 1. Qed.

(** a conversion finds its arguments; the least integer has no decimal numeral here *)
Definition takes (c : Z) (args : list arg) : option (list arg) :=
  if c =? 115 then match args with ArgS b :: rest => if bool_decide (0 ∈ b) then Some rest else None | _ => None end
  else if (c =? 99) || (c =? 120) || (c =? 88) then match args with ArgI _ :: rest => Some rest | _ => None end
  else if (c =? 100) || (c =? 104) then
    match args with ArgI n :: rest => if (-2147483648 <? n) && (n <? 2147483648) then Some rest else None | _ => None end
  else if c =? 108 then match args with ArgI _ :: ArgI _ :: rest => Some rest | _ => None end
  else Some args.

Fixpoint typed (f : list Z) (args : list arg) : Prop :=
  match f with
  | [] => True
  | c :: f => if c =? 37 then match f with [] => False | c :: f => ∃ rest, takes c args = Some rest ∧ typed f rest end else typed f args
  end.

Section emit_format.
Context {S : Type}.
Variable func : Z → M S ().
Implicit Types s : S.

Lemma put_string_ok b t s : holds b t → put_string func b s = unwind func t s.
Proof.
  intros [Ht [r ->]]. revert s. induction Ht as [|x t Hx Ht IH]; intros s; cbn [app put_string unwind]; [done|].
  rewrite (proj2 (ctrue_true x) Hx). unfold mbind, M_bind. destruct (func x s) as [[? s']|]; [|done]. apply IH.
Qed.

Lemma terminated_holds b : 0 ∈ b → ∃ t, holds b t.
Proof.
  induction b as [|x b IH]; [by intros ?%not_elem_of_nil|]. intros Hin. destruct (decide (x = 0)) as [->|Hx].
  - exists []. split; [constructor|by exists b].
  - destruct IH as (t & Ht & r & ->); [by apply elem_of_cons in Hin as [?|?]|]. exists (x :: t). split; [by constructor|by exists r].
Qed.

(** the run of [m] is the output of [num] and then [k] *)
Lemma then_ok {B} (m : M S ()) (k : M S B) num s : m s = unwind func num s → (m ;; k) s = (unwind func num ;; k) s.
Proof. intros E. unfold mbind, M_bind. by rewrite E. Qed.

(** one conversion: what it writes is the front of every rendering *)
Lemma convert_ok c args rest s :
  takes c args = Some rest →
  ∃ num, convert func c args s = (unwind func num ;; mret rest) s ∧
    ∀ f out, renders f rest out → renders (37 :: c :: f) args (num ++ out).
Proof.
  unfold takes, convert. intros Ht.
  destruct (Z.eqb_spec c 115) as [->|N1].
  { destruct args as [|[b|n] args]; try done. case_bool_decide; [|done]. injection Ht as <-. destruct (terminated_holds b) as [t Hb]; [done|].
    exists t. split; [|intros; by constructor]. unfold next_string. mstep. by apply then_ok, put_string_ok. }
  destruct (Z.eqb_spec c 99) as [->|N2].
  { destruct args as [|[b|n] args]; try done. injection Ht as <-. exists [u8 n]. split; [|intros; by constructor].
    unfold next_int. mstep. apply then_ok. cbn [unwind]. unfold mbind, M_bind. by destruct (func (u8 n) s) as [[[] s']|]. }
  destruct (Z.eqb_spec c 120) as [->|N3].
  { destruct args as [|[b|n] args]; try done. injection Ht as <-. destruct (resolve_hexdecimal_ok func n true s) as (num & Hn & Hr).
    exists num. split; [|intros; by constructor]. unfold next_int. cbn. mstep. by apply then_ok. }
  destruct (Z.eqb_spec c 88) as [->|N4].
  { destruct args as [|[b|n] args]; try done. injection Ht as <-. destruct (resolve_hexdecimal_ok func n false s) as (num & Hn & Hr).
    exists num. split; [|intros; by constructor]. unfold next_int. cbn. mstep. by apply then_ok. }
  cbn [orb] in Ht. destruct ((c =? 100) || (c =? 104)) eqn:E5.
  { destruct args as [|[b|n] args]; try done. destruct (_ && _) eqn:Er in Ht; [|done]. injection Ht as <-.
    destruct (resolve_decimal_ok func n s) as (num & Hn & Hr); [lia|]. exists ((if n <? 0 then [45] else []) ++ num).
    split; [unfold next_int; mstep; by apply then_ok|]. intros. rewrite <-app_assoc. apply renders_d; [lia|done|done]. }
  destruct (Z.eqb_spec c 108) as [->|N6].
  { destruct args as [|[b|n1] [|[b2|n2] args]]; try done. injection Ht as <-.
    destruct (resolve_hexdecimal_ok func n1 false s) as (num1 & Hn1 & Hr1). unfold next_int. mstep.
    setoid_rewrite (then_ok _ _ _ _ Hr1). destruct (unwind func num1 s) as [[[] s1]|] eqn:E1.
    - destruct (resolve_hexdecimal_ok func n2 false s1) as (num2 & Hn2 & Hr2). exists (num1 ++ num2).
      split; [|intros; rewrite <-app_assoc; by constructor]. rewrite (bind_ok _ _ _ _ _ E1). mstep. rewrite (then_ok _ _ _ _ Hr2).
      unfold mbind, M_bind. rewrite unwind_app. unfold mbind, M_bind. by rewrite E1.
    - destruct (resolve_hexdecimal_ok func n2 false s) as (num2 & Hn2 & _). exists (num1 ++ num2).
      split; [|intros; rewrite <-app_assoc; by constructor]. rewrite (bind_err _ _ _ _ E1). symmetry. apply bind_err.
      rewrite unwind_app. by apply bind_err. }
  injection Ht as <-. exists []. split; [done|]. intros. apply renders_other; [|done]. 
  rewrite !not_elem_of_cons. split_and!; try done; [lia..|apply not_elem_of_nil].
Qed.

Lemma format_loop_ok f args s r :
  Forall (λ c, c ≠ 0) f → typed f args → ∃ out, renders f args out ∧ format_loop func (f ++ 0 :: r) args s = unwind func out s.
Proof.
  remember (length f) as n eqn:Hn. assert (length f ≤ n)%nat as Hle by lia. clear Hn.
  revert f args s Hle. induction n as [|n IH]; intros f args s Hle Hnz Ht.
  { destruct f; [|simpl in Hle; lia]. exists []. split; [constructor|done]. }
  destruct f as [|c f]; [exists []; split; [constructor|done]|]. apply Forall_cons in Hnz as [Hc Hnz]. simpl in Hle.
  cbn [app format_loop typed] in *. rewrite (proj2 (ctrue_true c) Hc). cbn [negb]. destruct (Z.eqb_spec c 37) as [->|Hc37]; cbn [negb].
  - destruct f as [|d f]; [done|]. apply Forall_cons in Hnz as [Hd Hnz]. destruct Ht as (rest & Hrest & Ht). cbn [app].
    destruct (convert_ok d args rest s Hrest) as (num & Hrun & Hren). simpl in Hle.
    destruct (unwind func num s) as [[[] s1]|] eqn:E.
    + rewrite (bind_ok _ _ _ _ _ E) in Hrun. destruct (IH f rest s1) as (out & Hout & Hr); [lia|done|done|].
      exists (num ++ out). split; [by apply Hren|]. rewrite (bind_ok _ _ _ _ _ Hrun), Hr, unwind_app. by rewrite (bind_ok _ _ _ _ _ E).
    + rewrite (bind_err _ _ _ _ E) in Hrun. destruct (IH f rest s) as (out & Hout & _); [lia|done|done|].
      exists (num ++ out). split; [by apply Hren|]. rewrite (bind_err _ _ _ _ Hrun), unwind_app. by rewrite (bind_err _ _ _ _ E).
  - destruct (func c s) as [[[] s1]|] eqn:E.
    + destruct (IH f args s1) as (out & Hout & Hr); [lia|done|done|]. exists (c :: out). split; [by constructor|].
      cbn [unwind]. by rewrite !(bind_ok _ _ _ _ _ E).
    + destruct (IH f args s) as (out & Hout & _); [lia|done|done|]. exists (c :: out). split; [by constructor|].
      cbn [unwind]. by rewrite !(bind_err _ _ _ _ E).
Qed.
End emit_format.

(** ** [sprintf] *)
Lemma lambda_run c dst i :
  sprintf_lambda_func c (dst, i) = match array_set dst i c with Some d => Ok ((), (d, i + 1)) | None => Err BadAccess end.
Proof. unfold sprintf_lambda_func, mbind, M_bind, gets. cbn. by destruct (array_set dst i c). Qed.

Lemma unwind_sprintf out dst i :
  0 ≤ i ≤ lenZ dst → unwind sprintf_lambda_func out (dst, i) =
    if i + lenZ out <=? lenZ dst then Ok ((), (overlay dst i out, i + lenZ out)) else Err BadAccess.
Proof.
  revert dst i. induction out as [|c out IH]; intros dst i Hi; cbn [unwind].
  { rewrite overlay_nil, Z.add_0_r, (proj2 (Z.leb_le _ _)) by lia. done. }
  destruct (Z.leb_spec (i + 1) (lenZ dst)) as [Hlt|Hge].
  - rewrite (bind_ok _ _ _ () (overlay dst i [c], i + 1)) by (rewrite lambda_run, array_set_overlay by lia; done).
    pose proof (length_overlay dst i [c] Hi) as Hlen. cbn [length] in Hlen. rewrite IH by lia. cbn [length]. rewrite Hlen.
    replace (i + 1) with (i + lenZ [c]) by done. rewrite overlay_app by lia. cbn [app length].
    destruct (Z.leb_spec (i + Z.of_nat 1 + lenZ out) (Z.max (lenZ dst) (i + Z.of_nat 1)));
      [rewrite (proj2 (Z.leb_le _ _)) by lia|rewrite (proj2 (Z.leb_gt _ _)) by lia]; [|done]. do 3 f_equal. lia.
  - rewrite (proj2 (Z.leb_gt _ _)) by (cbn [length]; lia). apply bind_err. rewrite lambda_run. unfold array_set.
    by rewrite (proj2 (Z.leb_le (lenZ dst) i)), orb_true_r by lia.
Qed.

Lemma sprintf_ok dst f b args :
  holds b f → typed f args → ∃ out, renders f args out ∧
    sprintf dst b args = if lenZ out <? lenZ dst then Some (lenZ out + 1, overlay dst 0 (out ++ [0])) else None.
Proof.
  intros [Hf [r ->]] Ht. destruct (format_loop_ok sprintf_lambda_func f args (dst, 0) r Hf Ht) as (out & Hout & Hr).
  exists out. split; [done|]. unfold sprintf.
  assert ((format_loop sprintf_lambda_func (f ++ 0 :: r) args ;; sprintf_lambda_func 0) (dst, 0) =
    unwind sprintf_lambda_func (out ++ [0]) (dst, 0)) as ->.
  { rewrite unwind_app. unfold mbind, M_bind. rewrite Hr. destruct (unwind sprintf_lambda_func out (dst, 0)) as [[[] s1]|]; [|done].
    cbn [unwind]. unfold mbind, M_bind. by destruct (sprintf_lambda_func 0 s1) as [[[] s2]|]. }
  rewrite unwind_sprintf by lia. rewrite length_app. cbn [length].
  destruct (Z.ltb_spec (lenZ out) (lenZ dst)); [rewrite (proj2 (Z.leb_le _ _)) by lia|rewrite (proj2 (Z.leb_gt _ _)) by lia; done].
  do 2 f_equal. lia.
Qed.

(** ** Two-dimensional arrays *)
#[local] Ltac Zify.zify_post_hook ::= Z.to_euclidean_division_equations.

Definition dims (r c : Z) (m : list (list Z)) : Prop := lenZ m = r ∧ Forall (λ row, lenZ row = c) m.

Lemma get2_some r c m i j : dims r c m → 0 ≤ i < r → 0 ≤ j < c → ∃ x, get2 m i j = Some x.
Proof.
  intros [Hm HF] Hi Hj. unfold get2. rewrite (proj2 (Z.ltb_ge i 0)) by lia.
  destruct (lookup_lt_is_Some_2 m (Z.to_nat i)) as [row Hr]; [lia|]. rewrite Hr, obind.
  rewrite Forall_lookup in HF. specialize (HF _ _ Hr). destruct (lookup_lt_is_Some_2 row (Z.to_nat j)) as [x Hx]; [lia|].
  exists x. apply array_get_ok; [done|lia].
Qed.

Lemma array_get_insert {A} (l : list A) i j v : 0 ≤ i < lenZ l → array_get (<[Z.to_nat i := v]> l) j = if decide (j = i) then Some v else array_get l j.
Proof.
  intros Hi. unfold array_get. destruct (Z.ltb_spec j 0); [by rewrite decide_False by lia|]. destruct (decide (j = i)) as [->|Hne].
  - apply list_lookup_insert_eq. lia.
  - apply list_lookup_insert_ne. lia.
Qed.

Lemma set2_ok r c m i j v :
  dims r c m → 0 ≤ i < r → 0 ≤ j < c →
  ∃ m', set2 m i j v = Some m' ∧ dims r c m' ∧ ∀ i' j', get2 m' i' j' = if decide (i' = i ∧ j' = j) then Some v else get2 m i' j'.
Proof.
  intros [Hm HF] Hi Hj. unfold set2. rewrite (proj2 (Z.ltb_ge i 0)) by lia.
  destruct (lookup_lt_is_Some_2 m (Z.to_nat i)) as [row Hr]; [lia|]. rewrite Hr, obind.
  pose proof (proj1 (Forall_lookup _ _) HF _ _ Hr) as Hrow. cbv beta in Hrow. rewrite array_set_ok, obind by lia.
  eexists. split; [done|]. split.
  - split; [by rewrite length_insert|]. apply Forall_insert; [done|]. by rewrite length_insert.
  - intros i' j'. unfold get2. destruct (Z.ltb_spec i' 0); [by rewrite decide_False by lia|]. destruct (decide (i' = i)) as [->|Hne].
    + rewrite list_lookup_insert_eq by lia. rewrite Hr, !obind, array_get_insert by lia.
      by destruct (decide (j' = j)); [rewrite decide_True|rewrite decide_False by tauto].
    + rewrite list_lookup_insert_ne by lia. rewrite decide_False by tauto. done.
Qed.

Lemma for_up_ok {S} (I : Z → S → Prop) n i (body : Z → M S ()) s :
  I i s → (∀ j s, i ≤ j < i + Z.of_nat n → I j s → ∃ s', body j s = Ok ((), s') ∧ I (j + 1) s') →
  ∃ s', for_up n i body s = Ok ((), s') ∧ I (i + Z.of_nat n) s'.
Proof.
  revert i s. induction n as [|n IH]; intros i s Hi Hstep; cbn [for_up].
  { exists s. split; [done|]. by rewrite Z.add_0_r. }
  destruct (Hstep i s) as (s1 & Hr & H1); [lia|done|]. rewrite (bind_ok _ _ _ _ _ Hr).
  destruct (IH (i + 1) s1 H1) as (s2 & Hr2 & H2); [intros j s'; intros; apply Hstep; [lia|done]|].
  exists s2. split; [done|]. by replace (i + Z.of_nat (Datatypes.S n)) with (i + 1 + Z.of_nat n) by lia.
Qed.

(** ** The ring of rows *)

(** the byte at column [j] of line [k] *)
Definition cell (W : list (list Z)) (k j : Z) : Z := nth (Z.to_nat j) (nth (Z.to_nat k) W []) 0.

(** the lines [P] and the last line [cur] are in the ring *)
Record rows (c : console) (P : list (list Z)) (cur : list Z) : Prop := {
  rr_dims : dims 26 80 (vga_shadow_memory c);
  rr_front : 0 ≤ vga_row_front c < 26;
  rr_row : vga_row_idx c = (vga_row_front c + lenZ P) `mod` 26;
  rr_height : lenZ P ≤ 24;
  rr_cells : ∀ k j, 0 ≤ k < 26 → 0 ≤ j < 80 → get2 (vga_shadow_memory c) ((vga_row_front c + k) `mod` 26) j = Some (cell (P ++ [cur]) k j) }.
Definition ring_rows (c : console) (P : list (list Z)) (cur : list Z) : Prop := rows c P cur ∧ vga_col_idx c = lenZ cur ∧ lenZ cur < 80.

Lemma cell_put P cur t k j :
  0 ≤ k → 0 ≤ j → cell (P ++ [cur ++ [t]]) k j = if decide (k = lenZ P ∧ j = lenZ cur) then t else cell (P ++ [cur]) k j.
Proof.
  intros Hk Hj. unfold cell. destruct (decide (k < lenZ P)) as [Hlt|Hge].
  { rewrite !app_nth1 by lia. by rewrite decide_False by lia. }
  rewrite !(app_nth2 P) by lia. destruct (decide (k = lenZ P)) as [->|Hne].
  - rewrite Nat2Z.id, Nat.sub_diag. cbn [nth]. destruct (decide (j = lenZ cur)) as [->|Hj2].
    + rewrite decide_True by done. by rewrite Nat2Z.id, nth_middle.
    + rewrite decide_False by tauto. destruct (decide (j < lenZ cur)); [by rewrite app_nth1 by lia|].
      by rewrite !nth_overflow by (rewrite ?length_app; cbn [length]; lia).
  - rewrite decide_False by tauto. destruct (Z.to_nat k - length P)%nat as [|n] eqn:E; [lia|]. cbn [nth]. by destruct n.
Qed.

Lemma cell_new Q k j : cell (Q ++ [[]]) k j = cell Q k j.
Proof.
  unfold cell. destruct (decide (Z.to_nat k < length Q)%nat); [by rewrite app_nth1|]. rewrite app_nth2 by lia.
  rewrite (nth_overflow Q) by lia. destruct (Z.to_nat k - length Q)%nat as [|[|?]]; by destruct (Z.to_nat j).
Qed.

Lemma cell_drop Q k j : 0 ≤ k → cell (drop 1 Q) k j = cell Q (k + 1) j.
Proof.
  intros Hk. unfold cell. replace (Z.to_nat (k + 1)) with (S (Z.to_nat k)) by lia. destruct Q as [|x Q]; [by destruct (Z.to_nat k)|done].
Qed.

Lemma cell_beyond Q k j : lenZ Q ≤ k → cell Q k j = 0.
Proof. intros Hk. unfold cell. rewrite (nth_overflow Q) by lia. by destruct (Z.to_nat j). Qed.

Lemma put_shadow_ok c i j v :
  dims 26 80 (vga_shadow_memory c) → 0 ≤ i < 26 → 0 ≤ j < 80 →
  ∃ m, put_shadow i j v c = Ok ((), set_shadow m c) ∧ dims 26 80 m ∧
    ∀ i' j', get2 m i' j' = if decide (i' = i ∧ j' = j) then Some v else get2 (vga_shadow_memory c) i' j'.
Proof.
  intros Hd Hi Hj. destruct (set2_ok 26 80 _ i j v Hd Hi Hj) as (m & Hs & Hd' & Hg). exists m. split; [|done].
  unfold put_shadow. mstep. by rewrite (bind_ok _ _ _ _ _ (deref_ok _ _ _ Hs)).
Qed.

(** a row is cleared *)
Lemma clear_row_ok c i :
  dims 26 80 (vga_shadow_memory c) → 0 ≤ i < 26 →
  ∃ m, for_up (Z.to_nat VGA_MAX_COL) 0 (λ idx, put_shadow i idx 0) c = Ok ((), set_shadow m c) ∧ dims 26 80 m ∧
    ∀ i' j', 0 ≤ j' < 80 → get2 m i' j' = if decide (i' = i) then Some 0 else get2 (vga_shadow_memory c) i' j'.
Proof.
  intros Hd Hi.
  destruct (for_up_ok (λ n c', ∃ m, c' = set_shadow m c ∧ dims 26 80 m ∧
      ∀ i' j', 0 ≤ j' → get2 m i' j' = if decide (i' = i ∧ j' < n) then Some 0 else get2 (vga_shadow_memory c) i' j')
    (Z.to_nat VGA_MAX_COL) 0 (λ idx, put_shadow i idx 0) c) as (c' & Hr & m & -> & Hd' & Hm).
  - exists (vga_shadow_memory c). split; [by destruct c|]. split; [done|]. intros. by rewrite decide_False by lia.
  - intros j c1 Hj (m & -> & Hd1 & Hm). change (Z.of_nat (Z.to_nat VGA_MAX_COL)) with 80 in Hj.
    destruct (put_shadow_ok (set_shadow m c) i j 0) as (m' & Hr & Hd' & Hm'); [done|done|lia|].
    exists (set_shadow m' c). split; [exact Hr|]. exists m'. split; [done|]. split; [done|]. intros i' j' Hj'. rewrite Hm'. cbn. rewrite Hm by done.
    repeat case_decide; try done; lia.
  - exists m. split; [exact Hr|]. split; [done|]. intros i' j' Hj'. rewrite Hm by lia.
    change (0 + Z.of_nat (Z.to_nat VGA_MAX_COL)) with 80. repeat case_decide; try done; lia.
Qed.

(** ** The lines of a log *)

(** the finished lines and the line that is being written *)
Definition put_line (W : list (list Z) * list Z) (t : Z) : list (list Z) * list Z :=
  let cur := if t =? NEWLINE then W.2 else W.2 ++ [t] in
  if (lenZ cur =? VGA_MAX_COL) || (t =? NEWLINE) then (W.1 ++ [cur], []) else (W.1, cur).
Definition lines (log : list Z) : list (list Z) * list Z := foldl put_line ([], []) log.

(** the last 24 finished lines *)
Definition recent (P : list (list Z)) : list (list Z) := drop (length P - 24) P.

Lemma recent_snoc P x :
  recent (P ++ [x]) = if lenZ (recent P) <? 24 then recent P ++ [x] else drop 1 (recent P ++ [x]).
Proof.
  unfold recent. rewrite length_app, length_drop. cbn [length].
  destruct (Z.ltb_spec (Z.of_nat (length P - (length P - 24))) 24) as [H|H].
  - replace (length P - 24)%nat with 0%nat by lia. by replace (length P + 1 - 24)%nat with 0%nat by lia.
  - rewrite <-(drop_app_le P [x]) by lia. rewrite drop_drop. f_equal. lia.
Qed.

(** nothing but the shadow of the screen changes *)
Definition same_screen (c c' : console) : Prop :=
  vga_memory c' = vga_memory c ∧ default_console_hidden c' = default_console_hidden c ∧ __log_level c' = __log_level c.

Lemma same_screen_trans c1 c2 c3 : same_screen c1 c2 → same_screen c2 c3 → same_screen c1 c3.
Proof. intros (? & ? & ?) (? & ? & ?). split_and!; congruence. Qed.

(** the line feed at the end of a line: the top row goes when the ring is full *)
Lemma line_feed_ok c W cur :
  rows c W cur →
  ∃ c', (modify (set_col 0) ;; row ← crem (vga_row_idx c + 1) (VGA_MAX_ROW + 1); modify (set_row row) ;;
      next ← crem (row + 1) (VGA_MAX_ROW + 1);
      when (next =? vga_row_front c) (for_up (Z.to_nat VGA_MAX_COL) 0 (λ idx, put_shadow (vga_row_front c) idx 0) ;;
        front ← crem (vga_row_front c + 1) (VGA_MAX_ROW + 1); modify (set_front front))) c = Ok ((), c') ∧
    ring_rows c' (if lenZ W <? 24 then W ++ [cur] else drop 1 (W ++ [cur])) [] ∧ same_screen c c'.
Proof.
  intros [Hd Hf Hrow Hh Hcells]. change (VGA_MAX_ROW + 1) with 26. mstep. set (row := (vga_row_idx c + 1) `mod` 26).
  rewrite (bind_ok _ _ _ row (set_col 0 c)) by (apply crem_ok; lia). mstep.
  set (c1 := set_row row (set_col 0 c)). rewrite (bind_ok _ _ _ ((row + 1) `mod` 26) c1) by (apply crem_ok; lia).
  assert (row = (vga_row_front c + (lenZ W + 1)) `mod` 26) as Hrow' by (unfold row; rewrite Hrow; lia).
  destruct (Z.ltb_spec (lenZ W) 24) as [Hlt|Hge].
  - rewrite (proj2 (Z.eqb_neq _ _)) by lia. exists c1. split; [done|]. split; [|done]. split; [|done].
    split; cbn; try done; [by rewrite length_app; cbn [length]; rewrite Nat2Z.inj_add|rewrite length_app; cbn [length]; lia|].
    intros k j Hk Hj. rewrite Hcells by done. by rewrite cell_new.
  - assert (lenZ W = 24) as HW by lia. rewrite (proj2 (Z.eqb_eq _ _)) by lia. unfold when.
    destruct (clear_row_ok c1 (vga_row_front c)) as (m & Hr & Hd' & Hm); [done|done|]. cbn in Hm.
    rewrite (bind_ok _ _ _ _ _ Hr). rewrite (bind_ok _ _ _ ((vga_row_front c + 1) `mod` 26) (set_shadow m c1)) by (apply crem_ok; lia).
    eexists. split; [done|]. split; [|done]. split; [|done].
    split; cbn; try done; [lia| |rewrite length_drop, length_app; cbn [length]; lia|].
    + rewrite length_drop, length_app. cbn [length]. rewrite Hrow'. lia.
    + intros k j Hk Hj. rewrite Hm by done. rewrite cell_new, cell_drop by lia. case_decide as Hz.
      * rewrite cell_beyond; [done|]. rewrite length_app. cbn [length]. lia.
      * replace (((vga_row_front c + 1) `mod` 26 + k) `mod` 26) with ((vga_row_front c + (k + 1)) `mod` 26) by lia.
        apply Hcells; lia.
Qed.

Lemma enqueue_ok c P cur t :
  ring_rows c (recent P) cur →
  ∃ c', vga_enqueue_byte t c = Ok ((), c') ∧ ring_rows c' (recent (put_line (P, cur) t).1) (put_line (P, cur) t).2 ∧ same_screen c c'.
Proof.
  intros (Hrows & Hcol & Hcur). pose proof Hrows as [Hd Hf Hrow Hh Hcells]. unfold vga_enqueue_byte. mstep. cbn [id]. unfold put_line. cbn [fst snd].
  destruct (Z.eqb_spec t NEWLINE) as [->|Ht]; cbn [negb].
  - rewrite !orb_true_r. unfold when at 1. mstep. mstep. unfold when at 1. cbn [fst snd]. rewrite recent_snoc.
    destruct (line_feed_ok (set_col (vga_col_idx c + 1) c) (recent P) cur) as (c' & Hr & Hrep' & Hs); [by destruct Hrows|]. exists c'. done.
  - unfold when at 1. destruct (put_shadow_ok c (vga_row_idx c) (vga_col_idx c) t) as (m & Hp & Hdm & Hm); [done|lia|lia|].
    rewrite (bind_ok _ _ _ _ _ Hp). mstep. rewrite !orb_false_r, length_app. cbn [length]. rewrite Hcol.
    set (c1 := set_col (lenZ cur + 1) (set_shadow m c)).
    assert (rows c1 (recent P) (cur ++ [t])) as Hrows1.
    { split; cbn; try done. intros k j Hk Hj. rewrite Hm, cell_put, Hcells by lia. repeat case_decide; try done; lia. }
    change VGA_MAX_COL with 80. replace (Z.of_nat (length cur + 1)) with (lenZ cur + 1) by lia.
    destruct (Z.eqb_spec (lenZ cur + 1) 80) as [E|E]; cbn [fst snd].
    + destruct (line_feed_ok c1 (recent P) (cur ++ [t]) Hrows1) as (c' & Hr & Hrep' & Hs). exists c'. by rewrite recent_snoc.
    + exists c1. split; [done|]. split; [|done]. split; [done|]. cbn. rewrite length_app. cbn [length]. lia.
Qed.

Lemma unwind_console out c P cur :
  ring_rows c (recent P) cur →
  ∃ c', unwind vga_enqueue_byte out c = Ok ((), c') ∧
    ring_rows c' (recent (foldl put_line (P, cur) out).1) (foldl put_line (P, cur) out).2 ∧ same_screen c c'.
Proof.
  revert c P cur. induction out as [|t out IH]; intros c P cur Hrep; cbn [unwind foldl]; [by exists c|].
  destruct (enqueue_ok c P cur t Hrep) as (c1 & Hr & Hrep1 & Hs1). rewrite (bind_ok _ _ _ _ _ Hr).
  destruct (put_line (P, cur) t) as [P1 cur1]. destruct (IH c1 P1 cur1 Hrep1) as (c2 & Hr2 & Hrep2 & Hs2).
  exists c2. split; [done|]. split; [done|]. by eapply same_screen_trans.
Qed.

(** ** The screen *)
Definition mix (x y : Z) : Z := Z.lor (Z.land x 0xff00) y.

(** a loop over the cells of the video memory: every cell becomes [f] of itself *)
Lemma screen_row_ok c r (body : Z → M console ()) (f : Z → Z → Z) :
  dims 25 80 (vga_memory c) → 0 ≤ r < 25 →
  (∀ v j x, dims 25 80 v → 0 ≤ j < 80 → get2 v r j = Some x → ∃ v', body j (set_vga v c) = Ok ((), set_vga v' c) ∧ set2 v r j (f j x) = Some v') →
  ∃ v, for_up (Z.to_nat VGA_MAX_COL) 0 body c = Ok ((), set_vga v c) ∧ dims 25 80 v ∧
    ∀ i j, 0 ≤ j < 80 → get2 v i j = if decide (i = r) then f j <$> get2 (vga_memory c) i j else get2 (vga_memory c) i j.
Proof.
  intros Hd Hr Hbody.
  destruct (for_up_ok (λ n c', ∃ v, c' = set_vga v c ∧ dims 25 80 v ∧
      ∀ i j, 0 ≤ j < 80 → get2 v i j = if decide (i = r ∧ j < n) then f j <$> get2 (vga_memory c) i j else get2 (vga_memory c) i j)
    (Z.to_nat VGA_MAX_COL) 0 body c) as (c' & Hrun & v & -> & Hd' & Hv).
  - exists (vga_memory c). split; [by destruct c|]. split; [done|]. intros. by rewrite decide_False by lia.
  - intros j c1 Hj (v & -> & Hd1 & Hv). change (Z.of_nat (Z.to_nat VGA_MAX_COL)) with 80 in Hj.
    destruct (get2_some 25 80 v r j) as [x Hx]; [done|done|lia|]. destruct (Hbody v j x) as (v' & Hrun & Hset); [done|lia|done|].
    destruct (set2_ok 25 80 v r j (f j x)) as (v2 & Hset2 & Hd2 & Hv2); [done|done|lia|]. rewrite Hset in Hset2. injection Hset2 as <-.
    exists (set_vga v' c). split; [done|]. exists v'. split; [done|]. split; [done|]. intros i j' Hj'. rewrite Hv2.
    assert (get2 (vga_memory c) r j = Some x) as Hx0 by (rewrite <-Hx, Hv by lia; by rewrite decide_False by lia).
    destruct (decide (i = r ∧ j' = j)) as [[-> ->]|Hne].
    + rewrite decide_True by lia. by rewrite Hx0.
    + rewrite Hv by done. repeat case_decide; try done; lia.
  - exists v. split; [exact Hrun|]. split; [done|]. intros i j Hj. rewrite Hv by done.
    change (0 + Z.of_nat (Z.to_nat VGA_MAX_COL)) with 80. repeat case_decide; try done; lia.
Qed.

Lemma flush_row_ok c idx r :
  dims 25 80 (vga_memory c) → dims 26 80 (vga_shadow_memory c) → 0 ≤ idx < 26 → 0 ≤ r < 25 →
  ∃ v, flush_row idx r c = Ok ((), set_vga v c) ∧ dims 25 80 v ∧
    ∀ i j, 0 ≤ j < 80 → get2 v i j =
      if decide (i = r) then (λ x, mix x (default 0 (get2 (vga_shadow_memory c) idx j))) <$> get2 (vga_memory c) i j else get2 (vga_memory c) i j.
Proof.
  intros Hd Hds Hi Hr. unfold flush_row.
  apply (screen_row_ok c r _ (λ j x, mix x (default 0 (get2 (vga_shadow_memory c) idx j))) Hd Hr). intros v j x Hdv Hj Hx.
  destruct (get2_some 26 80 _ idx j Hds Hi Hj) as [y Hy]. destruct (set2_ok 25 80 v r j (mix x y)) as (v' & Hset & _); [done..|].
  exists v'. rewrite Hy. split; [|done]. mstep. cbn [id]. rewrite (bind_ok _ _ _ _ _ (deref_ok _ _ _ Hx)).
  rewrite (bind_ok _ _ _ _ _ (deref_ok _ _ _ Hy)). by rewrite (bind_ok _ _ _ _ _ (deref_ok _ _ _ Hset)).
Qed.

Lemma flush_loop_ok fuel c P cur k :
  rows c P cur → dims 25 80 (vga_memory c) → 0 ≤ k ≤ lenZ P + 1 → lenZ P + 1 - k < Z.of_nat fuel →
  ∃ v, flush_loop fuel ((vga_row_front c + k) `mod` 26) k c = Ok ((), set_vga v c) ∧ dims 25 80 v ∧
    ∀ i j, 0 ≤ j < 80 → get2 v i j =
      if decide (k ≤ i ≤ lenZ P) then (λ x, mix x (cell (P ++ [cur]) i j)) <$> get2 (vga_memory c) i j else get2 (vga_memory c) i j.
Proof.
  revert c k. induction fuel as [|fuel IH]; intros c k Hrows Hd Hk Hfuel; [lia|]. pose proof Hrows as [Hds Hf Hrow Hh Hcells].
  cbn [flush_loop]. mstep. change (VGA_MAX_ROW + 1) with 26.
  rewrite (bind_ok _ _ _ ((vga_row_idx c + 1) `mod` 26) c) by (apply crem_ok; lia).
  destruct (Z.eqb_spec ((vga_row_idx c + 1) `mod` 26) ((vga_row_front c + k) `mod` 26)) as [E|E]; cbn [negb].
  - assert (k = lenZ P + 1) as -> by lia. exists (vga_memory c). split; [by destruct c|]. split; [done|]. intros.
    by rewrite decide_False by lia.
  - assert (k ≤ lenZ P) as Hk2 by (destruct (decide (k = lenZ P + 1)) as [->|]; lia).
    destruct (flush_row_ok c ((vga_row_front c + k) `mod` 26) k) as (v & Hr & Hdv & Hv); [done|done|lia|lia|].
    rewrite (bind_ok _ _ _ _ _ Hr). rewrite (bind_ok _ _ _ ((vga_row_front c + (k + 1)) `mod` 26) (set_vga v c)).
    2:{ rewrite crem_ok by lia. do 2 f_equal. lia. }
    destruct (IH (set_vga v c) (k + 1)) as (v' & Hr' & Hd' & Hv'); [by destruct Hrows|done|lia|lia|].
    exists v'. split; [exact Hr'|]. split; [done|]. intros i j Hj. rewrite Hv' by done. cbn. rewrite Hv by done.
    rewrite (Hcells k j) by lia. repeat case_decide; try done; try lia. by subst.
Qed.

(** what the flush leaves on the screen: the lines [W] from the top, over the attributes [v0] *)
Definition shows (v0 v : list (list Z)) (W : list (list Z)) : Prop :=
  ∀ k j, 0 ≤ k < 25 → 0 ≤ j < 80 → ∃ x, get2 v0 k j = Some x ∧ get2 v k j = Some (if k <? lenZ W then mix x (cell W k j) else x).

Lemma flush_ok c P cur :
  rows c P cur → dims 25 80 (vga_memory c) →
  ∃ c', printk_flush c = Ok ((), c') ∧ rows c' P cur ∧ vga_col_idx c' = vga_col_idx c ∧ dims 25 80 (vga_memory c') ∧
    default_console_hidden c' = default_console_hidden c ∧
    if default_console_hidden c then c' = c else shows (vga_memory c) (vga_memory c') (P ++ [cur]).
Proof.
  intros Hrows Hd. unfold printk_flush. mstep. cbn [id]. destruct (default_console_hidden c) eqn:Eh; [by exists c|].
  pose proof Hrows as [_ Hf _ Hh _]. destruct (flush_loop_ok (Z.to_nat (VGA_MAX_ROW + 2)) c P cur 0) as (v & Hr & Hdv & Hv); [done|done|lia|unfold VGA_MAX_ROW; lia|].
  rewrite Z.add_0_r, (Z.mod_small (vga_row_front c)) in Hr by lia. exists (set_vga v c). split; [done|].
  split; [by destruct Hrows|]. split; [done|]. split; [done|]. split; [done|].
  intros k j Hk Hj. destruct (get2_some 25 80 (vga_memory c) k j Hd Hk Hj) as [x Hx]. exists x. split; [done|]. cbn. rewrite Hv by done.
  rewrite length_app. cbn [length]. rewrite Hx. case_decide; [rewrite (proj2 (Z.ltb_lt _ _)) by lia|rewrite (proj2 (Z.ltb_ge _ _)) by lia]; done.
Qed.

Lemma reset_ok c :
  dims 25 80 (vga_memory c) →
  ∃ v, reset_video_buffer c = Ok ((), set_vga v c) ∧ dims 25 80 v ∧
    ∀ i j, 0 ≤ i < 25 → 0 ≤ j < 80 → get2 v i j = (λ x, Z.land x 0xff00) <$> get2 (vga_memory c) i j.
Proof.
  intros Hd. unfold reset_video_buffer.
  destruct (for_up_ok (λ n c', ∃ v, c' = set_vga v c ∧ dims 25 80 v ∧
      ∀ i j, 0 ≤ i < 25 → 0 ≤ j < 80 → get2 v i j = if decide (i < n) then (λ x, Z.land x 0xff00) <$> get2 (vga_memory c) i j else get2 (vga_memory c) i j)
    (Z.to_nat VGA_MAX_ROW) 0 (λ idx_row, for_up (Z.to_nat VGA_MAX_COL) 0 (λ idx_col,
    v ← gets vga_memory; x ← deref (get2 v idx_row idx_col); v ← deref (set2 v idx_row idx_col (Z.land x 0xff00)); modify (set_vga v))) c)
    as (c' & Hrun & v & -> & Hd' & Hv).
  - exists (vga_memory c). split; [by destruct c|]. split; [done|]. intros. by rewrite decide_False by lia.
  - intros r c1 Hr (v & -> & Hdv & Hv). change (Z.of_nat (Z.to_nat VGA_MAX_ROW)) with 25 in Hr.
    destruct (screen_row_ok (set_vga v c) r (λ idx_col, v ← gets vga_memory; x ← deref (get2 v r idx_col); v ← deref (set2 v r idx_col (Z.land x 0xff00)); modify (set_vga v))
      (λ _ x, Z.land x 0xff00)) as (v' & Hrun & Hd' & Hv'); [done|lia| |].
    { intros w j x Hdw Hj Hx. destruct (set2_ok 25 80 w r j (Z.land x 0xff00)) as (w' & Hset & _); [done|lia|done|]. exists w'. split; [|done].
      mstep. rewrite (bind_ok _ _ _ _ _ (deref_ok _ _ _ Hx)). by rewrite (bind_ok _ _ _ _ _ (deref_ok _ _ _ Hset)). }
    exists (set_vga v' c). split; [exact Hrun|]. exists v'. split; [done|]. split; [done|]. intros i j Hi Hj. rewrite Hv' by done. cbn. rewrite Hv by done.
    repeat case_decide; try done; lia.
  - exists v. split; [exact Hrun|]. split; [done|]. intros i j Hi Hj. rewrite Hv by done.
    by rewrite decide_True by (change (0 + Z.of_nat (Z.to_nat VGA_MAX_ROW)) with 25; lia).
Qed.

(** ** Claims *)

(** the console has printed [log] *)
Definition console_ok (c : console) (log : list Z) : Prop :=
  ring_rows c (recent (lines log).1) (lines log).2 ∧ dims 25 80 (vga_memory c).

(** the lines that fit on the screen *)
Definition window (log : list Z) : list (list Z) := recent (lines log).1 ++ [(lines log).2].

Lemma printk_init_ok c level :
  dims 26 80 (vga_shadow_memory c) → dims 25 80 (vga_memory c) → vga_row_front c = 0 → vga_row_idx c = 0 → vga_col_idx c = 0 →
  ∃ c', printk_init level c = Ok ((), c') ∧ console_ok c' [] ∧ __log_level c' = level ∧ default_console_hidden c' = default_console_hidden c.
Proof.
  intros Hds Hd Hf Hr Hcol. unfold printk_init.
  destruct (for_up_ok (λ n c', ∃ m, c' = set_shadow m c ∧ dims 26 80 m ∧ ∀ i j, 0 ≤ i < n → 0 ≤ j < 80 → get2 m i j = Some 0)
    (Z.to_nat (VGA_MAX_ROW + 1)) 0 (λ idx_row, for_up (Z.to_nat VGA_MAX_COL) 0 (λ idx_col, put_shadow idx_row idx_col 0)) c)
    as (c' & Hrun & m & -> & Hd' & Hm).
  - exists (vga_shadow_memory c). split; [by destruct c|]. split; [done|]. lia.
  - intros r c1 Hr' (m & -> & Hdm & Hm). change (Z.of_nat (Z.to_nat (VGA_MAX_ROW + 1))) with 26 in Hr'.
    destruct (clear_row_ok (set_shadow m c) r) as (m' & Hrun & Hd' & Hm'); [done|lia|]. exists (set_shadow m' c). split; [exact Hrun|].
    exists m'. split; [done|]. split; [done|]. intros i j Hi Hj. rewrite Hm' by done. case_decide; [done|]. cbn. apply Hm; [lia|done].
  - change (0 + Z.of_nat (Z.to_nat (VGA_MAX_ROW + 1))) with 26 in Hm. rewrite (bind_ok _ _ _ _ _ Hrun). exists (set_level level (set_shadow m c)). split; [done|]. split; [|done]. split; [|done].
    split; [|done]. split; cbn; rewrite ?Hf, ?Hr; try done. intros k j Hk Hj. rewrite Hm by (done || lia). f_equal.
    unfold cell. destruct (Z.to_nat k) as [|[|?]]; by destruct (Z.to_nat j).
Qed.

Lemma printk_ok c log b f args :
  console_ok c log → holds b f → typed f args →
  ∃ out c', renders f args out ∧ printk b args c = Ok ((), c') ∧ console_ok c' (log ++ out) ∧
    default_console_hidden c' = default_console_hidden c ∧
    if default_console_hidden c then vga_memory c' = vga_memory c else shows (vga_memory c) (vga_memory c') (window (log ++ out)).
Proof.
  intros [Hring Hd] [Hf [r ->]] Ht. destruct (format_loop_ok vga_enqueue_byte f args c r Hf Ht) as (out & Hout & Hr).
  destruct (unwind_console out c _ _ Hring) as (c1 & Hr1 & [Hrows1 Hcol1] & Hs1 & Hs2 & Hs3).
  assert (foldl put_line ((lines log).1, (lines log).2) out = lines (log ++ out)) as El.
  { unfold lines. rewrite foldl_app. by destruct (foldl put_line ([], []) log). }
  rewrite El in Hrows1, Hcol1. exists out. rewrite <-Hs1 in Hd.
  destruct (flush_ok c1 _ _ Hrows1 Hd) as (c2 & Hr2 & Hrows2 & Hcol2 & Hd2 & Hh2 & Hshow). exists c2. split; [done|].
  split; [unfold printk; by rewrite (bind_ok _ _ _ () c1) by congruence|]. split; [split; [split; [done|by rewrite Hcol2]|done]|].
  split; [congruence|]. rewrite Hs2 in Hshow. destruct (default_console_hidden c); [by subst|]. by rewrite <-Hs1.
Qed.

Lemma expose_ok c log :
  console_ok c log →
  ∃ c', expose_default_console c = Ok ((), c') ∧ console_ok c' log ∧ default_console_hidden c' = false ∧
    ∀ k j, 0 ≤ k < 25 → 0 ≤ j < 80 → ∃ x, get2 (vga_memory c) k j = Some x ∧ get2 (vga_memory c') k j = Some (mix x (cell (window log) k j)).
Proof.
  intros [[Hrows Hcol] Hd]. unfold expose_default_console. mstep.
  destruct (reset_ok (set_hidden false c) Hd) as (v & Hr & Hdv & Hv). rewrite (bind_ok _ _ _ _ _ Hr).
  destruct (flush_ok (set_vga v (set_hidden false c)) (recent (lines log).1) (lines log).2) as (c2 & Hr2 & Hrows2 & Hcol2 & Hd2 & Hh2 & Hshow);
    [destruct Hrows; by split|done|]. cbn in Hshow. exists c2. split; [done|]. split; [split; [split; [done|by rewrite Hcol2]|done]|]. split; [done|].
  intros k j Hk Hj. destruct (Hshow k j Hk Hj) as (x & Hx & Hc2). rewrite Hv in Hx by done. cbn in Hx.
  destruct (get2 (vga_memory c) k j) as [y|] eqn:Ey; [|done]. injection Hx as <-. exists y. split; [done|]. rewrite Hc2. f_equal. unfold mix, window.
  destruct (Z.ltb_spec k (lenZ (recent (lines log).1 ++ [(lines log).2]))) as [_|Hge].
  - by rewrite <-Z.land_assoc.
  - by rewrite cell_beyond, Z.lor_0_r by done.
Qed.

Lemma hide_ok c log :
  console_ok c log →
  ∃ c', hide_default_console c = Ok ((), c') ∧ console_ok c' log ∧ default_console_hidden c' = true ∧
    ∀ k j, 0 ≤ k < 25 → 0 ≤ j < 80 → ∃ x, get2 (vga_memory c) k j = Some x ∧ get2 (vga_memory c') k j = Some (Z.land x 0xff00).
Proof.
  intros [[Hrows Hcol] Hd]. unfold hide_default_console. mstep.
  destruct (reset_ok (set_hidden true c) Hd) as (v & Hr & Hdv & Hv). exists (set_vga v (set_hidden true c)).
  split; [exact Hr|]. split; [split; [split; [destruct Hrows; by split|exact Hcol]|exact Hdv]|]. split; [done|].
  intros k j Hk Hj. cbn [vga_memory set_vga]. rewrite Hv by done. cbn [vga_memory set_hidden].
  destruct (get2_some 25 80 (vga_memory c) k j Hd Hk Hj) as [x Hx]. exists x. by rewrite Hx.
Qed.

(** C33. [sprintf] writes exactly what its format means: the characters of the
    format, strings, bytes, and integers as numerals (decimal with a sign, or
    hexadecimal of the 32-bit word) whose value is the argument and which have
    no leading zeros.  It returns the number of bytes with the NUL; it leaves
    the rest of the buffer alone, and a buffer that is too short is overrun.
    The most negative integer is excluded. *)
Theorem sprintf_renders dst f b args :
  holds b f → typed f args → ∃ out, renders f args out ∧
    sprintf dst b args = if lenZ out <? lenZ dst then Some (lenZ out + 1, overlay dst 0 (out ++ [0])) else None.
Proof. apply sprintf_ok. Qed.

(** C34. The console shows the end of the log.  [printk_init] starts an empty log;
    [printk] appends what its format means, stays inside the ring of rows and
    the video memory, and unless the console is hidden leaves on the screen the
    last 25 lines of the log from the top (a line ends at a line feed or after
    80 characters), keeping the colours of the cells.
    [hide_default_console] blanks the screen and from then on [printk] leaves it
    alone, though the log grows; [expose_default_console] shows the last lines
    again and blanks the others. *)
Theorem console_shows_log c log b f args level :
  console_ok c log → holds b f → typed f args →
  (∃ out c', renders f args out ∧ printk b args c = Ok ((), c') ∧ console_ok c' (log ++ out) ∧
     default_console_hidden c' = default_console_hidden c ∧
     if default_console_hidden c then vga_memory c' = vga_memory c else shows (vga_memory c) (vga_memory c') (window (log ++ out))) ∧
  (∃ c', hide_default_console c = Ok ((), c') ∧ console_ok c' log ∧ default_console_hidden c' = true ∧
     ∀ k j, 0 ≤ k < 25 → 0 ≤ j < 80 → ∃ x, get2 (vga_memory c) k j = Some x ∧ get2 (vga_memory c') k j = Some (Z.land x 0xff00)) ∧
  (∃ c', expose_default_console c = Ok ((), c') ∧ console_ok c' log ∧ default_console_hidden c' = false ∧
     ∀ k j, 0 ≤ k < 25 → 0 ≤ j < 80 → ∃ x, get2 (vga_memory c) k j = Some x ∧ get2 (vga_memory c') k j = Some (mix x (cell (window log) k j))) ∧
  (∀ c0, dims 26 80 (vga_shadow_memory c0) → dims 25 80 (vga_memory c0) → vga_row_front c0 = 0 → vga_row_idx c0 = 0 → vga_col_idx c0 = 0 →
     ∃ c', printk_init level c0 = Ok ((), c') ∧ console_ok c' [] ∧ __log_level c' = level ∧ default_console_hidden c' = default_console_hidden c0).
Proof.
  intros Hc Hb Ht. split; [by apply printk_ok|]. split; [by apply hide_ok|]. split; [by apply expose_ok|]. intros c0. apply printk_init_ok.
Qed.

(** ** Examples *)
Module PrintkExample.
(** "%s/%d%c" *)
Definition fmt : list Z := [37; 115; 47; 37; 100; 37; 99].
Definition args : list arg := [ArgS [47; 97; 0; 9]; ArgI (-120); ArgI 10].

Lemma fmt_holds : holds (fmt ++ [0]) fmt.
Proof. split; [by repeat constructor|by exists []]. Qed.
Lemma fmt_typed : typed fmt args.
Proof.
  eexists. split; [done|]. eexists. split; [done|]. eexists. split; done.
Qed.

Lemma sprintf_renders_witness : ∃ out, renders fmt args out ∧
  sprintf (replicate 16 7) (fmt ++ [0]) args = (if lenZ out <? 16 then Some (lenZ out + 1, overlay (replicate 16 7) 0 (out ++ [0])) else None).
Proof. apply (sprintf_renders (replicate 16 7) fmt (fmt ++ [0]) args); [apply fmt_holds|apply fmt_typed]. Defined.

Example sprintf_run : sprintf (replicate 12 7) (fmt ++ [0]) args = Some (9, [47; 97; 47; 45; 49; 50; 48; 10; 0; 7; 7; 7]).
Proof. vm_compute. reflexivity. Qed.

Definition blank : console := mk_console 0 0 0 0 (replicate 26 (replicate 80 0)) (replicate 25 (replicate 80 0x700)) false.

Lemma dims_replicate r c x : dims (Z.of_nat r) (Z.of_nat c) (replicate r (replicate c x)).
Proof. split; [by rewrite length_replicate|]. apply Forall_replicate. by rewrite length_replicate. Qed.

Definition started : console := match printk_init 0 blank with Ok (_, c) => c | Err _ => blank end.

Lemma started_ok : console_ok started [] ∧ default_console_hidden started = false.
Proof.
  destruct (printk_init_ok blank 0) as (c & Hr & Hc & _ & Hh); [apply (dims_replicate 26 80)|apply (dims_replicate 25 80)|done|done|done|].
  unfold started. rewrite Hr. split; [exact Hc|exact Hh].
Qed.

Lemma console_shows_log_witness :
  ∃ out c', renders fmt args out ∧ printk (fmt ++ [0]) args started = Ok ((), c') ∧ console_ok c' ([] ++ out) ∧
    shows (vga_memory started) (vga_memory c') (window ([] ++ out)).
Proof.
  destruct started_ok as [Hok Hh].
  destruct (console_shows_log started [] (fmt ++ [0]) fmt args 0 Hok fmt_holds fmt_typed) as ((out & c' & Hr & Hp & Hc & _ & Hs) & _).
  rewrite Hh in Hs. exists out, c'. split; [exact Hr|]. split; [exact Hp|]. split; [exact Hc|exact Hs].
Defined.

(** The least integer: its negation overflows, and the digits come out as
    characters in front of the digits: "-./,),(-*,(" *)
Theorem least_integer_garbled :
  sprintf (replicate 12 7) [37; 100; 0] [ArgI (-2147483648)] = Some (12, [45; 46; 47; 44; 41; 44; 40; 45; 42; 44; 40; 0]).
Proof. vm_compute. reflexivity. Qed.
End PrintkExample.
