(* ===== verification/Vma.v ===== *)
(** * Virtual memory areas: memory/kernel_vma.c, kernel/userspace_vma.c

    The kernel's areas are an array of [struct kernel_vma]; the areas of a task
    are [struct vm_area] objects on the list [task->vma_list], given by the
    sequence of their addresses (the list operations are those of DList). *)

From Stdlib Require Import ZifyNat Ascii String.
From stdpp Require Import gmap list.
From S2P Require Import Prelude CString PageAlloc Paging.
Open Scope Z_scope.
Open Scope zelda_scope.

Definition KERNEL_VMA_ARRAY_LENGTH : Z := 1024.
Definition KERNEL_VMA_NAME_SIZE : Z := 64.
Definition KERNEL_HEAP_BOTTOM : Z := PAGE_SPACE_TOP.
Definition KERNEL_HEAP_TOP : Z := 0x1F000000.

(** the bytes of a string literal *)
Definition literal (s : string) : list Z :=
  ((λ c, Z.of_N (N_of_ascii c)) <$> list_ascii_of_string s) ++ [0].

(** ** Kernel areas *)
Record kernel_vma := mk_kvma {
  k_name : list Z;
  k_present : Z; k_exact : Z; k_write_permission : Z; k_page_writethrough : Z; k_page_cachedisable : Z;
  k_premap : Z; k_virt_addr : Z; k_phy_addr : Z; k_length : Z }.

Record vstate := mk_vstate { kvmas : list kernel_vma; vps : pstate }.
Definition kvmas_l : lens vstate (list kernel_vma) := Lens kvmas (λ t s, mk_vstate t (vps s)).
Definition vps_l : lens vstate pstate := Lens vps (λ p s, mk_vstate (kvmas s) p).

Definition zero_vma : kernel_vma := mk_kvma (replicate 64 0) 0 0 0 0 0 0 0 0 0.

(** [_vma->virt_addr + _vma->length], a 32-bit sum *)
Definition k_end (v : kernel_vma) : Z := u32 (k_virt_addr v + k_length v).

(** the inner loop of [search_free_kernel_virtual_address] *)
Fixpoint nearest_vma (l : list kernel_vma) (idx_tmp idx vaddr_free_start : Z)
    (vma_nearest : option kernel_vma) : option kernel_vma :=
  match l with
  | [] => vma_nearest
  | vma_tmp :: l =>
      nearest_vma l (idx_tmp + 1) idx vaddr_free_start
        (if idx_tmp =? idx then vma_nearest
         else if ! k_present vma_tmp then vma_nearest
         else if vaddr_free_start <=? k_virt_addr vma_tmp then
           match vma_nearest with
           | None => Some vma_tmp
           | Some n => if k_virt_addr vma_tmp <=? k_virt_addr n then Some vma_tmp else vma_nearest
           end
         else vma_nearest)
  end.

Fixpoint search_free_loop (l : list kernel_vma) (idx length : Z) : M vstate Z :=
  match l with
  | [] => mret 0
  | vma :: l =>
      if ! k_present vma then search_free_loop l (idx + 1) length else
      let vaddr_free_start := k_end vma in
      t ← gets kvmas;
      let vaddr_free_end :=
        match nearest_vma t 0 idx vaddr_free_start None with
        | Some n => k_virt_addr n
        | None => USERSPACE_BOTTOM
        end in
      ASSERT (ctrue vaddr_free_end) ;;
      if length <? u64 (vaddr_free_end - vaddr_free_start) then mret vaddr_free_start
      else search_free_loop l (idx + 1) length
  end.

Definition search_free_kernel_virtual_address (length : Z) : M vstate Z :=
  let length := if ctrue (Z.land length PAGE_MASK)
                then u32 (Z.land length (Z.lnot PAGE_MASK) + PAGE_SIZE) else length in
  t ← gets kvmas;
  search_free_loop t 0 length.

Fixpoint search_kernel_vma_in (l : list kernel_vma) (virt_addr : Z) : option kernel_vma :=
  match l with
  | [] => None
  | v :: l =>
      if ! k_present v then search_kernel_vma_in l virt_addr
      else if (k_virt_addr v <=? virt_addr) && (virt_addr <? k_end v) then Some v
      else search_kernel_vma_in l virt_addr
  end.
Definition search_kernel_vma (virt_addr : Z) : M vstate (option kernel_vma) :=
  gets (λ s, search_kernel_vma_in (kvmas s) virt_addr).

(** the scan of [register_kernel_vma]: an overlap, or the first free slot *)
Fixpoint register_scan (l : list kernel_vma) (idx target_index virt_addr : Z) : option Z :=
  match l with
  | [] => Some target_index
  | v :: l =>
      if ! k_present v then
        register_scan l (idx + 1) (if target_index =? -1 then idx else target_index) virt_addr
      else if (k_virt_addr v <=? virt_addr) && (virt_addr <? k_end v) then None
      else register_scan l (idx + 1) target_index virt_addr
  end.

Section kernel.
Variable kernel_bss_end : Z.

(** the [premap] loop *)
Fixpoint premap_loop (fuel : nat) (v : kernel_vma) (linear_address : Z) : M vstate () :=
  match fuel with
  | O => fail Diverge
  | S fuel =>
      if linear_address <? k_end v then
        phy_address ← (if ctrue (k_exact v)
                       then mret (u32 (linear_address - k_virt_addr v + k_phy_addr v))
                       else zoom vps_l (zoom pal_l (get_page kernel_bss_end)));
        ASSERT (ctrue phy_address) ;;
        zoom vps_l (kernel_map_page linear_address phy_address (k_write_permission v)
                      (k_page_writethrough v) (k_page_cachedisable v)) ;;
        premap_loop fuel v (u32 (linear_address + PAGE_SIZE))
      else mret ()
  end.

Definition register_kernel_vma (vma : kernel_vma) : M vstate Z :=
  t ← gets kvmas;
  match register_scan t 0 (-1) (k_virt_addr vma) with
  | None => mret (- ERR_INVALID_ARG)
  | Some target_index =>
      if target_index =? -1 then mret (- ERR_OUT_OF_RESOURCE) else
      old ← deref (t !! Z.to_nat target_index);
      name ← deref (strcpy_safe (k_name old) (k_name vma) KERNEL_VMA_NAME_SIZE);
      let v := mk_kvma name 1 (k_exact vma) (k_write_permission vma) (k_page_writethrough vma)
                 (k_page_cachedisable vma) (k_premap old) (k_virt_addr vma) (k_phy_addr vma) (k_length vma) in
      zoom kvmas_l (modify (<[Z.to_nat target_index := v]>)) ;;
      when (ctrue (k_premap v)) (premap_loop (frames (k_virt_addr v) (k_end v)) v (k_virt_addr v)) ;;
      mret OK
  end.

Definition kernel_map_vma (vma_name : list Z) (exact premap phy_addr length write_permission
    page_writethrough page_cachedisable : Z) : M vstate Z :=
  virt_addr ← search_free_kernel_virtual_address length;
  if ! virt_addr then mret virt_addr else
  name ← deref (strcpy_safe (k_name zero_vma) vma_name KERNEL_VMA_NAME_SIZE);
  let vma := mk_kvma name 0 1 (write_permission mod 2) (page_writethrough mod 2) (page_cachedisable mod 2)
               (premap mod 2) virt_addr phy_addr length in
  rc ← register_kernel_vma vma;
  ASSERT (! rc) ;;
  mret virt_addr.

(** one block of [kernel_vma_init]; [_vma] is the stack variable *)
Definition init_area (_vma : kernel_vma) (name : string) (exact virt_addr phy_addr length : Z) : M vstate kernel_vma :=
  n ← deref (strcpy_safe (k_name _vma) (literal name) KERNEL_VMA_NAME_SIZE);
  let _vma := mk_kvma n (k_present _vma) exact PAGE_PERMISSION_READ_WRITE PAGE_WRITEBACK PAGE_CACHE_ENABLED
                0 virt_addr phy_addr length in
  rc ← register_kernel_vma _vma;
  ASSERT (rc =? OK) ;;
  mret _vma.

Definition kernel_vma_init (_vma : kernel_vma) : M vstate () :=
  let sys_mem_start := get_system_memory_start kernel_bss_end in
  zoom kvmas_l (modify (λ _, replicate (Z.to_nat KERNEL_VMA_ARRAY_LENGTH) zero_vma)) ;;
  _vma ← init_area _vma "Low1MB" 1 0 0 0x100000;
  _vma ← init_area _vma "KernelImage" 1 0x100000 0x100000 (u32 (sys_mem_start - 0x100000));
  _vma ← init_area _vma "PageInventory" 1 PAGE_SPACE_BOTTOM PAGE_SPACE_BOTTOM (PAGE_SPACE_TOP - PAGE_SPACE_BOTTOM);
  init_area _vma "KernelHeap" 0 KERNEL_HEAP_BOTTOM 0 (KERNEL_HEAP_TOP - KERNEL_HEAP_BOTTOM) ;;
  mret ().
End kernel.

(** ** Areas of a task *)
Record vm_area := mk_area {
  a_name : list Z;
  a_kernel_vma : Z; a_pre_map : Z; a_exact : Z; a_write_permission : Z; a_page_writethrough : Z;
  a_page_cachedisable : Z; a_executable : Z;
  a_virt_addr : Z; a_phy_addr : Z; a_length : Z }.

(** [_vma->virt_addr + _vma->length], a 64-bit sum *)
Definition a_end (v : vm_area) : Z := u64 (a_virt_addr v + a_length v).

Abbreviation areas := (gmap Z vm_area).

Definition VMA_EXTEND_UPWARD : Z := 1.
Definition VMA_EXTEND_DOWNWARD : Z := 2.

Fixpoint search_userspace_vma_loop (l : list Z) (vma_name : list Z) (_vma : Z) : M areas Z :=
  match l with
  | [] => mret _vma
  | a :: l =>
      v ← load a;
      c ← deref (strcmp vma_name (a_name v));
      if ! c then mret a else search_userspace_vma_loop l vma_name a
  end.
Definition search_userspace_vma (head : list Z) (vma_name : list Z) : M areas Z :=
  search_userspace_vma_loop head vma_name NULL.

Fixpoint search_userspace_vma_by_addr (head : list Z) (vaddr : Z) : M areas Z :=
  match head with
  | [] => mret NULL
  | a :: l =>
      v ← load a;
      if (a_virt_addr v <=? vaddr) && (vaddr <? a_end v) then mret a
      else search_userspace_vma_by_addr l vaddr
  end.

Definition __extend_vm_area (_vma direction length : Z) : M areas Z :=
  (if direction =? VMA_EXTEND_UPWARD then mret ()
   else if direction =? VMA_EXTEND_DOWNWARD then
     update _vma (λ v, mk_area (a_name v) (a_kernel_vma v) (a_pre_map v) (a_exact v) (a_write_permission v)
       (a_page_writethrough v) (a_page_cachedisable v) (a_executable v) (u64 (a_virt_addr v - length))
       (if ctrue (a_exact v) then u64 (a_phy_addr v - length) else a_phy_addr v) (a_length v))
   else ASSERT false) ;;
  update _vma (λ v, mk_area (a_name v) (a_kernel_vma v) (a_pre_map v) (a_exact v) (a_write_permission v)
    (a_page_writethrough v) (a_page_cachedisable v) (a_executable v) (a_virt_addr v) (a_phy_addr v)
    (u64 (a_length v + length))) ;;
  mret OK.

(** the loop over the areas: [None] for a conflict, else the value of [found] *)
Fixpoint extend_scan (l : list Z) (target_vma extended_start extended_end found : Z) : M areas (option Z) :=
  match l with
  | [] => mret (Some found)
  | a :: l =>
      if a =? target_vma then extend_scan l target_vma extended_start extended_end 1 else
      v ← load a;
      if (a_virt_addr v <? extended_start) && (extended_start <? a_end v) then mret None else
      if (a_virt_addr v <? extended_end) && (extended_end <? a_end v) then mret None else
      extend_scan l target_vma extended_start extended_end found
  end.

Definition extend_vm_area (vmas_head : list Z) (target_vma direction length : Z) : M areas Z :=
  ASSERT ((direction =? VMA_EXTEND_UPWARD) || (direction =? VMA_EXTEND_DOWNWARD)) ;;
  t ← load target_vma;
  let extended_start := if direction =? VMA_EXTEND_UPWARD then a_virt_addr t else u64 (a_virt_addr t - length) in
  let extended_end := if direction =? VMA_EXTEND_UPWARD then u64 (a_end t + length) else a_end t in
  found ← extend_scan vmas_head target_vma extended_start extended_end 0;
  match found with
  | None => mret (- ERR_INVALID_ARG)
  | Some found => if ! found then mret (- ERR_INVALID_ARG) else __extend_vm_area target_vma direction length
  end.

(** ** The kernel's table *)
Definition area_ok (v : kernel_vma) : Prop :=
  0 ≤ k_virt_addr v ∧ 0 < k_length v ∧ k_virt_addr v + k_length v ≤ USERSPACE_BOTTOM.

(** slot [i] of the table holds the area [v] *)
Definition area_at (t : list kernel_vma) (i : nat) (v : kernel_vma) : Prop :=
  t !! i = Some v ∧ ctrue (k_present v) = true.

Definition disjoint_areas (v w : kernel_vma) : Prop :=
  k_virt_addr v + k_length v ≤ k_virt_addr w ∨ k_virt_addr w + k_length w ≤ k_virt_addr v.

Record table_ok (t : list kernel_vma) : Prop := {
  to_area : ∀ i v, area_at t i v → area_ok v;
  to_disjoint : ∀ i j v w, area_at t i v → area_at t j w → i ≠ j → disjoint_areas v w;
  to_slot : ∀ i v, t !! i = Some v → length (k_name v) = 64%nat ∧ k_premap v = 0 }.

Lemma k_end_ok v : area_ok v → k_end v = k_virt_addr v + k_length v.
Proof. intros (? & ? & ?). unfold k_end, USERSPACE_BOTTOM in *. apply u32_small. lia. Qed.

(** an area the inner loop considers, [j] being the index of the head of [l] *)
Definition candidate_area (l : list kernel_vma) (j idx start : Z) (v : kernel_vma) : Prop :=
  ∃ i, area_at l i v ∧ j + Z.of_nat i ≠ idx ∧ start ≤ k_virt_addr v.

Lemma candidate_area_cons x l j idx start v :
  candidate_area (x :: l) j idx start v ↔
  (v = x ∧ ctrue (k_present x) = true ∧ j ≠ idx ∧ start ≤ k_virt_addr x) ∨ candidate_area l (j + 1) idx start v.
Proof.
  split.
  - intros ([|i] & [Hi Hp] & Hj & Hs); simpl in Hi.
    + left. simplify_eq. split_and!; [done|done|lia|done].
    + right. exists i. split_and!; [by split|lia|done].
  - intros [(-> & Hp & Hj & Hs)|(i & [Hi Hp] & Hj & Hs)].
    + exists 0%nat. split_and!; [by split|lia|done].
    + exists (S i). split_and!; [by split|lia|done].
Qed.

(** the inner loop finds the lowest candidate *)
Lemma nearest_vma_ok l j idx start acc :
  match nearest_vma l j idx start acc with
  | None => acc = None ∧ ∀ v, ¬ candidate_area l j idx start v
  | Some n =>
      (acc = Some n ∨ candidate_area l j idx start n) ∧
      (∀ v, acc = Some v ∨ candidate_area l j idx start v → k_virt_addr n ≤ k_virt_addr v)
  end.
Proof.
  revert j acc. induction l as [|x l IH]; intros j acc; simpl.
  { destruct acc as [n|].
    - split; [by left|]. intros v [[= ->]|([|?] & [? _] & _)]; (done || lia).
    - split; [done|]. intros v ([|?] & [? _] & _); done. }
  match goal with |- context [nearest_vma l (j + 1) idx start ?a] => set (acc' := a); specialize (IH (j + 1) acc') end.
  assert (∀ v, acc' = Some v → acc = Some v ∨ (v = x ∧ ctrue (k_present x) = true ∧ j ≠ idx ∧ start ≤ k_virt_addr x)) as Hfrom.
  { intros v. unfold acc'. destruct (Z.eqb_spec j idx); [by left|]. destruct (ctrue (k_present x)); simpl; [|by left].
    destruct (Z.leb_spec start (k_virt_addr x)); [|by left]. destruct acc as [a|]; [destruct (_ <=? _)|]; naive_solver. }
  assert (∀ v, acc = Some v ∨ (v = x ∧ ctrue (k_present x) = true ∧ j ≠ idx ∧ start ≤ k_virt_addr x) →
            ∃ a, acc' = Some a ∧ k_virt_addr a ≤ k_virt_addr v) as Hto.
  { intros v Hv. unfold acc'. destruct Hv as [->|(-> & -> & Hj & Hs)].
    - destruct (Z.eqb_spec j idx); [by exists v|]. destruct (ctrue (k_present x)); simpl; [|by exists v].
      destruct (Z.leb_spec start (k_virt_addr x)); [|by exists v].
      destruct (Z.leb_spec (k_virt_addr x) (k_virt_addr v)); [by exists x|by exists v].
    - rewrite (proj2 (Z.eqb_neq j idx)), (proj2 (Z.leb_le _ _)) by done. simpl. destruct acc as [a|]; [|by exists x].
      destruct (Z.leb_spec (k_virt_addr x) (k_virt_addr a)); [by exists x|]. exists a. split; [done|lia]. }
  destruct (nearest_vma l (j + 1) idx start acc') as [n|].
  - destruct IH as [Hn Hmin]. split.
    + rewrite candidate_area_cons. destruct Hn as [Hn|Hn]; [apply Hfrom in Hn|]; tauto.
    + intros v. rewrite candidate_area_cons. intros Hv.
      assert (candidate_area l (j + 1) idx start v ∨ ∃ a, acc' = Some a ∧ k_virt_addr a ≤ k_virt_addr v) as [Hc|(a & Ha & Hle)].
      { destruct Hv as [Hv|[Hv|Hv]]; [right; apply Hto; tauto|right; apply Hto; tauto|by left]. }
      * apply Hmin. by right.
      * specialize (Hmin a (or_introl Ha)). lia.
  - destruct IH as [Hn Hno]. split.
    + destruct acc as [a|]; [|done]. destruct (Hto a) as (? & ? & _); [by left|]. congruence.
    + intros v. rewrite candidate_area_cons. intros [Hv|Hv]; [|by eapply Hno].
      destruct (Hto v) as (? & ? & _); [by right|]. congruence.
Qed.

(** the free address range behind the area in slot [i] *)
Definition gap_end (t : list kernel_vma) (i : nat) (v : kernel_vma) : Z :=
  match nearest_vma t 0 (Z.of_nat i) (k_end v) None with
  | Some n => k_virt_addr n
  | None => USERSPACE_BOTTOM
  end.

Lemma gap_end_ok t i v :
  table_ok t → area_at t i v →
  k_end v ≤ gap_end t i v ≤ USERSPACE_BOTTOM ∧
  (∀ j w, area_at t j w → k_virt_addr w + k_length w ≤ k_end v ∨ gap_end t i v ≤ k_virt_addr w) ∧
  (gap_end t i v = USERSPACE_BOTTOM ∨ ∃ j w, area_at t j w ∧ k_virt_addr w = gap_end t i v).
Proof.
  intros Ht Hi. pose proof (to_area _ Ht _ _ Hi) as Hok. pose proof (k_end_ok _ Hok) as Eend.
  unfold gap_end. pose proof (nearest_vma_ok t 0 (Z.of_nat i) (k_end v) None) as Hn.
  assert (∀ j w, area_at t j w → k_virt_addr w + k_length w ≤ k_end v ∨ candidate_area t 0 (Z.of_nat i) (k_end v) w) as Hcase.
  { intros j w Hj. destruct (decide (j = i)) as [->|Hne].
    - left. destruct Hi as [Hi _], Hj as [Hj _]. simplify_eq. lia.
    - destruct (to_disjoint _ Ht _ _ _ _ Hj Hi Hne) as [Hd|Hd].
      + left. destruct Hok as (? & ? & ?). lia.
      + right. exists j. split_and!; [done|lia|lia]. }
  destruct (nearest_vma t 0 (Z.of_nat i) (k_end v) None) as [n|].
  - destruct Hn as [[?|(j & Hj & Hne & Hle)] Hmin]; [done|]. pose proof (to_area _ Ht _ _ Hj) as (? & ? & ?). split_and!.
    + done.
    + lia.
    + intros j' w Hw. destruct (Hcase _ _ Hw); [by left|right]. apply Hmin. by right.
    + right. eauto.
  - destruct Hn as [_ Hno]. destruct Hok as (? & ? & ?). split_and!; [lia|lia| |by left].
    intros j w Hw. destruct (Hcase _ _ Hw) as [?|Hc]; [by left|]. by apply Hno in Hc.
Qed.

Lemma search_free_loop_ok s pre l len :
  table_ok (kvmas s) → kvmas s = pre ++ l → 0 ≤ len →
  ∃ r, search_free_loop l (Z.of_nat (length pre)) len s = Ok (r, s) ∧
    ((r = 0 ∧ ∀ i v, area_at (kvmas s) i v → (length pre ≤ i)%nat → gap_end (kvmas s) i v - k_end v ≤ len) ∨
     (∃ i v, area_at (kvmas s) i v ∧ r = k_end v ∧ len < gap_end (kvmas s) i v - r)).
Proof.
  intros Ht. revert pre. induction l as [|v l IH]; intros pre Epre Hlen; simpl.
  { exists 0. split; [done|]. left. split; [done|]. intros i w [Hi _] Hge.
    rewrite Epre, app_nil_r in Hi. apply lookup_lt_Some in Hi. lia. }
  destruct (IH (pre ++ [v])) as (r & Hr & Hcase); [by rewrite <-app_assoc|done|].
  rewrite length_app in Hr, Hcase. cbn [length] in Hr, Hcase.
  replace (Z.of_nat (length pre + 1)) with (Z.of_nat (length pre) + 1) in Hr by lia.
  assert (kvmas s !! length pre = Some v) as Hv by (rewrite Epre; by apply list_lookup_middle).
  destruct (ctrue (k_present v)) eqn:Hp; simpl.
  2: { exists r. split; [done|]. destruct Hcase as [[-> Hall]|?]; [left|by right]. split; [done|].
       intros i w Hi Hge. destruct (decide (i = length pre)) as [->|]; [|apply Hall; (done || lia)].
       destruct Hi as [Hi Hpi]. simplify_eq. congruence. }
  assert (area_at (kvmas s) (length pre) v) as Hat by done.
  destruct (gap_end_ok _ _ _ Ht Hat) as ([Hle Hub] & _ & _).
  pose proof (to_area _ Ht _ _ Hat) as Hok. pose proof (k_end_ok _ Hok) as Eend. destruct Hok as (? & ? & ?).
  mstep. fold (gap_end (kvmas s) (length pre) v). unfold USERSPACE_BOTTOM in *.
  rewrite (bind_ok (ASSERT _) _ s () s) by (apply ASSERT_true, ctrue_true; lia).
  unfold u64. rewrite Z.mod_small by lia.
  destruct (Z.ltb_spec len (gap_end (kvmas s) (length pre) v - k_end v)) as [Hlt|Hge].
  - exists (k_end v). split; [done|]. right. by exists (length pre), v.
  - exists r. split; [done|]. destruct Hcase as [[-> Hall]|?]; [left|by right]. split; [done|].
    intros i w Hi Hge'. destruct (decide (i = length pre)) as [->|]; [|apply Hall; (done || lia)].
    destruct Hi as [Hi Hpi]. simplify_eq. lia.
Qed.

(** the length [search_free_kernel_virtual_address] looks for *)
Definition rounded (length : Z) : Z := (length + 4095) / 4096 * 4096.

Lemma round_length len : 0 ≤ len ≤ 4294963200 →
  (if ctrue (Z.land len PAGE_MASK) then u32 (Z.land len (Z.lnot PAGE_MASK) + PAGE_SIZE) else len) = rounded len
  ∧ len ≤ rounded len.
Proof.
  intros Hlen. unfold rounded. pose proof (Z.div_mod len 4096 ltac:(lia)) as Hdm.
  pose proof (Z.mod_pos_bound len 4096 ltac:(lia)).
  assert (Z.land len PAGE_MASK = len mod 4096) as -> by (change PAGE_MASK with (Z.ones 12); by rewrite Z.land_ones).
  assert (Z.land len (Z.lnot PAGE_MASK) = 4096 * (len / 4096)) as ->.
  { change PAGE_MASK with (Z.ones 12).
    rewrite <-Z.ldiff_land, Z.ldiff_ones_r, Z.shiftl_mul_pow2, Z.shiftr_div_pow2 by lia. change (2 ^ 12) with 4096. lia. }
  destruct (ctrue (len mod 4096)) eqn:E.
  - apply ctrue_true in E. assert ((len + 4095) / 4096 = len / 4096 + 1) as ->.
    { symmetry. apply (Z.div_unique _ _ _ (len mod 4096 - 1)); lia. }
    unfold PAGE_SIZE. rewrite u32_small; lia.
  - apply ctrue_false in E. assert ((len + 4095) / 4096 = len / 4096) as ->.
    { symmetry. apply (Z.div_unique _ _ _ 4095); lia. }
    lia.
Qed.

Lemma register_scan_ok l idx ti va :
  match register_scan l idx ti va with
  | None => ∃ i v, area_at l i v ∧ k_virt_addr v ≤ va < k_end v
  | Some r =>
      (∀ i v, area_at l i v → ¬ k_virt_addr v ≤ va < k_end v) ∧
      if decide (ti = -1) then
        (r = -1 ∧ ∀ i v, l !! i = Some v → ctrue (k_present v) = true) ∨
        (∃ i v, r = idx + Z.of_nat i ∧ l !! i = Some v ∧ ctrue (k_present v) = false)
      else r = ti
  end.
Proof.
  revert idx ti. induction l as [|x l IH]; intros idx ti; simpl.
  { split; [by intros ? ? [? _]|]. case_decide; [by left|done]. }
  destruct (ctrue (k_present x)) eqn:Hp; simpl.
  - destruct ((k_virt_addr x <=? va) && (va <? k_end x)) eqn:Hin.
    { exists 0%nat, x. apply andb_true_iff in Hin as [?%Z.leb_le ?%Z.ltb_lt]. done. }
    specialize (IH (idx + 1) ti). destruct (register_scan l (idx + 1) ti va) as [r|].
    + destruct IH as [Hno Hcase]. split.
      * intros [|i] v [Hi Hpi]; simpl in Hi; [simplify_eq; lia|]. by apply (Hno i).
      * case_decide; [|done]. destruct Hcase as [[-> Hall]|(i & v & -> & Hi & Hpi)].
        -- left. split; [done|]. intros [|i] v Hi; simpl in Hi; [by simplify_eq|by eapply Hall].
        -- right. exists (S i), v. split_and!; [lia|done|done].
    + destruct IH as (i & v & [Hi Hpi] & Hr). by exists (S i), v.
  - specialize (IH (idx + 1) (if ti =? -1 then idx else ti)). destruct (register_scan l (idx + 1) _ va) as [r|].
    + destruct IH as [Hno Hcase]. split.
      * intros [|i] v [Hi Hpi]; simpl in Hi; [simplify_eq; congruence|]. by apply (Hno i).
      * destruct (Z.eqb_spec ti (-1)) as [->|Hne].
        -- rewrite decide_True by done. right. destruct (decide (idx = -1)) as [E|E].
           ++ destruct Hcase as [[-> _]|(i & v & -> & Hi & Hpi)]; [exists 0%nat, x; split_and!; [lia|done|done]|].
              exists (S i), v. split_and!; [lia|done|done].
           ++ subst r. exists 0%nat, x. split_and!; [lia|done|done].
        -- rewrite decide_False in * by done. done.
    + destruct IH as (i & v & [Hi Hpi] & Hr). by exists (S i), v.
Qed.

Lemma strcpy_bytes_some n dst src :
  (n ≤ length dst)%nat → (n ≤ length src)%nat ∨ (0 ∈ src) →
  ∃ r, strcpy_bytes n dst src = Some r ∧ length r = length dst.
Proof.
  revert dst src. induction n as [|n IH]; intros dst src Hd Hs; simpl; [by exists dst|].
  destruct dst as [|y dst]; simpl in *; [lia|]. destruct src as [|x src].
  { destruct Hs as [Hs|Hs]; [simpl in Hs; lia|]. by apply not_elem_of_nil in Hs. }
  destruct (ctrue x) eqn:E.
  - destruct (IH dst src) as (r & -> & Hr); [lia| |].
    + destruct Hs as [Hs|Hs]; [left; simpl in Hs; lia|right]. apply ctrue_true in E.
      apply elem_of_cons in Hs as [<-|?]; done.
    + exists (x :: r). simpl. by rewrite Hr.
  - exists (x :: dst). done.
Qed.

(** a name that fits a name array *)
Definition name_ok (n : list Z) : Prop := (64 ≤ length n)%nat ∨ 0 ∈ n.

Definition registered (v : kernel_vma) (name : list Z) : kernel_vma :=
  mk_kvma name 1 (k_exact v) (k_write_permission v) (k_page_writethrough v) (k_page_cachedisable v) 0
    (k_virt_addr v) (k_phy_addr v) (k_length v).

Lemma register_kernel_vma_ok bss s vma :
  table_ok (kvmas s) → name_ok (k_name vma) →
  ∃ rc s', register_kernel_vma bss vma s = Ok (rc, s') ∧
    ((rc = - ERR_INVALID_ARG ∧ s' = s ∧ ∃ i v, area_at (kvmas s) i v ∧ k_virt_addr v ≤ k_virt_addr vma < k_end v) ∨
     (rc = - ERR_OUT_OF_RESOURCE ∧ s' = s ∧ ∀ i v, kvmas s !! i = Some v → ctrue (k_present v) = true) ∨
     (∃ i old name, rc = OK ∧ kvmas s !! i = Some old ∧ ctrue (k_present old) = false ∧ length name = 64%nat ∧
        (∀ j v, area_at (kvmas s) j v → ¬ k_virt_addr v ≤ k_virt_addr vma < k_end v) ∧
        s' = mk_vstate (<[i := registered vma name]> (kvmas s)) (vps s))).
Proof.
  intros Ht Hname. unfold register_kernel_vma. mstep.
  pose proof (register_scan_ok (kvmas s) 0 (-1) (k_virt_addr vma)) as Hscan.
  destruct (register_scan (kvmas s) 0 (-1) (k_virt_addr vma)) as [r|].
  2: { destruct Hscan as (i & v & Hi & Hin). exists (- ERR_INVALID_ARG), s. split; [done|]. left. eauto 10. }
  rewrite decide_True in Hscan by done. destruct Hscan as [Hno [[-> Hall]|(i & old & -> & Hi & Hp)]].
  { exists (- ERR_OUT_OF_RESOURCE), s. split; [done|]. right. left. done. }
  rewrite (proj2 (Z.eqb_neq _ (-1))) by lia. rewrite Z.add_0_l, Nat2Z.id.
  destruct (to_slot _ Ht _ _ Hi) as [Hlen Hpre].
  rewrite (bind_ok _ _ _ old s) by (by apply deref_ok).
  destruct (strcpy_bytes_some 64 (k_name old) (k_name vma)) as (name & Hn & Hnl); [lia|done|].
  rewrite (bind_ok _ _ _ name s) by (by apply deref_ok).
  exists OK. eexists. split.
  - cbv zeta. erewrite (bind_ok (zoom _ _)) by reflexivity. cbn beta. cbn [k_premap]. rewrite Hpre. reflexivity.
  - right. right. exists i, old, name. split_and!; [done|done|done|lia|done|].
    done.
Qed.

(** registering an area that is disjoint from the others *)
Lemma table_ok_insert t i old vma name :
  table_ok t → t !! i = Some old → ctrue (k_present old) = false → length name = 64%nat →
  area_ok vma → (∀ j v, area_at t j v → disjoint_areas v vma) →
  table_ok (<[i := registered vma name]> t).
Proof.
  intros Ht Hi Hp Hname Hok Hdis.
  assert (∀ j v, area_at (<[i := registered vma name]> t) j v →
            (j = i ∧ v = registered vma name) ∨ (j ≠ i ∧ area_at t j v)) as Hat.
  { intros j v [Hj Hpj]. destruct (decide (j = i)) as [->|Hne].
    - rewrite list_lookup_insert_eq in Hj by (by eapply lookup_lt_Some). left. split; congruence.
    - rewrite list_lookup_insert_ne in Hj by done. by right. }
  split.
  - intros j v [[-> ->]|[_ Hj]]%Hat; [done|by eapply to_area].
  - intros j k v w [[-> ->]|[Hji Hj]]%Hat [[-> ->]|[Hki Hk]]%Hat Hne; [done| | |].
    + destruct (Hdis _ _ Hk) as [?|?]; [right|left]; done.
    + by apply (Hdis j).
    + by eapply to_disjoint.
  - intros j v Hj. destruct (decide (j = i)) as [->|Hne].
    + rewrite list_lookup_insert_eq in Hj by (by eapply lookup_lt_Some). injection Hj as <-. done.
    + rewrite list_lookup_insert_ne in Hj by done. by eapply to_slot.
Qed.

(** [kernel_map_vma] reserves an unused range of kernel addresses: it
    returns the end [va] of an existing area such that the pages of
    [va, va + length) and one byte more lie below user space and meet no other
    area, records the new area in a free slot of the table, and leaves every
    other area and the page tables as they were.  It returns 0 only when the
    gap behind every area is too small, and stops by its assertion only when
    the table is full. *)
Theorem kernel_map_vma_correct bss s name exact premap pa len w wt cd :
  table_ok (kvmas s) → name_ok name → 0 < len ≤ 4294963200 →
  (kernel_map_vma bss name exact premap pa len w wt cd s = Err AssertFail ∧
   ∀ i v, kvmas s !! i = Some v → ctrue (k_present v) = true) ∨
  (kernel_map_vma bss name exact premap pa len w wt cd s = Ok (0, s) ∧
   ∀ i v, area_at (kvmas s) i v → gap_end (kvmas s) i v - k_end v ≤ rounded len) ∨
  (∃ va s' i v, kernel_map_vma bss name exact premap pa len w wt cd s = Ok (va, s') ∧ va ≠ 0 ∧
     kvmas s' = <[i := v]> (kvmas s) ∧ vps s' = vps s ∧ table_ok (kvmas s') ∧
     (∃ old, kvmas s !! i = Some old ∧ ctrue (k_present old) = false) ∧
     ctrue (k_present v) = true ∧ k_virt_addr v = va ∧ k_phy_addr v = pa ∧ k_length v = len ∧
     k_exact v = 1 ∧ k_write_permission v = w mod 2 ∧
     va + rounded len < USERSPACE_BOTTOM ∧
     ∀ j u, area_at (kvmas s) j u →
       k_virt_addr u + k_length u ≤ va ∨ va + rounded len < k_virt_addr u).
Proof.
  intros Ht Hname Hlen. unfold kernel_map_vma, search_free_kernel_virtual_address.
  destruct (round_length len) as [-> Hge]; [lia|]. rewrite bind_assoc_run. mstep.
  destruct (search_free_loop_ok s [] (kvmas s) (rounded len) Ht eq_refl) as (r & Hr & Hcase); [lia|].
  rewrite (bind_ok _ _ _ _ _ Hr). destruct Hcase as [[-> Hall]|(i & v & Hi & -> & Hgap)].
  { right. left. split; [done|]. intros i v Hi. apply Hall; [done|simpl; lia]. }
  pose proof (to_area _ Ht _ _ Hi) as Hok. pose proof (k_end_ok _ Hok) as Eend. destruct Hok as (? & ? & ?).
  destruct (gap_end_ok _ _ _ Ht Hi) as (Hub & Hfree & _).
  rewrite (proj2 (ctrue_true _)) by lia. cbn [negb].
  destruct (strcpy_bytes_some 64 (k_name zero_vma) name) as (nm & Hn & Hnl); [by vm_compute|done|].
  rewrite (bind_ok _ _ _ nm s) by (by apply deref_ok).
  set (vma := mk_kvma nm 0 1 (w mod 2) (wt mod 2) (cd mod 2) (premap mod 2) (k_end v) pa len).
  assert (∀ j u, area_at (kvmas s) j u → k_virt_addr u + k_length u ≤ k_end v ∨ k_end v + rounded len < k_virt_addr u) as Hsep.
  { intros j u Hu. destruct (Hfree _ _ Hu); [by left|right; lia]. }
  destruct (register_kernel_vma_ok bss s vma Ht) as (rc & s' & Hreg & Hrc); [left; change (64 ≤ length nm)%nat; rewrite Hnl; by vm_compute|].
  rewrite (bind_ok _ _ _ _ _ Hreg). destruct Hrc as [(_ & _ & j & u & Hu & Hin)|[(-> & _ & Hfull)|(j & old & n2 & -> & Hj & Hp & Hl & _ & ->)]].
  - exfalso. simpl in Hin. rewrite (k_end_ok u) in Hin by (by eapply to_area). destruct (Hsep _ _ Hu); lia.
  - left. split; [done|done].
  - right. right. exists (k_end v), (mk_vstate (<[j:=registered vma n2]> (kvmas s)) (vps s)), j, (registered vma n2).
    split_and!; try done; try lia; [|eauto].
    apply (table_ok_insert _ _ old); try done.
    + split_and!; simpl; lia.
    + intros k u Hu. unfold disjoint_areas. simpl. destruct (Hsep _ _ Hu); lia.
Qed.

(** the area [vma] may be registered in [t] *)
Lemma init_area_ok bss s _vma name exact va pa len :
  table_ok (kvmas s) → length (k_name _vma) = 64%nat → area_ok (mk_kvma [] 1 exact 1 0 0 0 va pa len) →
  (∀ j v, area_at (kvmas s) j v → disjoint_areas v (mk_kvma [] 1 exact 1 0 0 0 va pa len)) →
  (∃ i v, kvmas s !! i = Some v ∧ ctrue (k_present v) = false) →
  ∃ _vma' s' i v, init_area bss _vma name exact va pa len s = Ok (_vma', s') ∧ length (k_name _vma') = 64%nat ∧
    table_ok (kvmas s') ∧ vps s' = vps s ∧ (∃ old, kvmas s !! i = Some old ∧ ctrue (k_present old) = false) ∧
    kvmas s' = <[i := v]> (kvmas s) ∧ ctrue (k_present v) = true ∧
    k_exact v = exact ∧ k_virt_addr v = va ∧ k_phy_addr v = pa ∧ k_length v = len.
Proof.
  intros Ht Hname Hok Hdis (fi & fv & Hfi & Hfv). unfold init_area.
  destruct (strcpy_bytes_some 64 (k_name _vma) (literal name)) as (n & Hn & Hnl); [lia| |].
  { right. unfold literal. apply elem_of_app. right. by left. }
  rewrite (bind_ok _ _ _ n s) by (by apply deref_ok). cbv zeta.
  set (vma := mk_kvma n (k_present _vma) exact PAGE_PERMISSION_READ_WRITE PAGE_WRITEBACK PAGE_CACHE_ENABLED 0 va pa len).
  destruct (register_kernel_vma_ok bss s vma Ht) as (rc & s' & Hreg & Hrc); [left; change (64 ≤ length n)%nat; lia|].
  rewrite (bind_ok _ _ _ _ _ Hreg). destruct Hrc as [(_ & _ & j & u & Hu & Hin)|[(_ & _ & Hfull)|(j & old & n2 & -> & Hj & Hp & Hl & _ & ->)]].
  - exfalso. pose proof (to_area _ Ht _ _ Hu) as Ha. rewrite k_end_ok in Hin by done. specialize (Hdis _ _ Hu).
    unfold disjoint_areas in Hdis. destruct Hok as (_ & Hpos & _). simpl in *. lia.
  - exfalso. rewrite (Hfull _ _ Hfi) in Hfv. done.
  - exists vma, (mk_vstate (<[j:=registered vma n2]> (kvmas s)) (vps s)), j, (registered vma n2).
    split_and!; try done; [simpl; lia| |eauto]. by apply (table_ok_insert _ _ old).
Qed.

(** [v] is an area of table [t] *)
Definition has_area (t : list kernel_vma) (exact va pa len : Z) : Prop :=
  ∃ i v, area_at t i v ∧ k_exact v = exact ∧ k_virt_addr v = va ∧ k_phy_addr v = pa ∧ k_length v = len.

Lemma has_area_insert t i old v exact va pa len :
  t !! i = Some old → ctrue (k_present old) = false → has_area t exact va pa len → has_area (<[i := v]> t) exact va pa len.
Proof.
  intros Hi Hp (j & w & [Hj Hpj] & H). exists j, w. split; [|done]. split; [|done].
  destruct (decide (j = i)) as [->|]; [congruence|]. by rewrite list_lookup_insert_ne.
Qed.

Lemma has_area_new t i old v :
  t !! i = Some old → ctrue (k_present v) = true → has_area (<[i := v]> t) (k_exact v) (k_virt_addr v) (k_phy_addr v) (k_length v).
Proof.
  intros Hi Hp. exists i, v. split_and!; [split; [|done]|done..].
  rewrite list_lookup_insert_eq; [done|by eapply lookup_lt_Some].
Qed.

(** every area of [t] lies below [hi] *)
Definition below (t : list kernel_vma) (hi : Z) : Prop := ∀ i v, area_at t i v → k_virt_addr v + k_length v ≤ hi.

(** at most [n] slots are taken *)
Definition free_slots (t : list kernel_vma) (n : nat) : Prop :=
  ∃ ks, NoDup ks ∧ (n ≤ length ks)%nat ∧ ∀ k, k ∈ ks → ∃ v, t !! k = Some v ∧ ctrue (k_present v) = false.

Lemma free_slots_some t n : free_slots t (S n) → ∃ i v, t !! i = Some v ∧ ctrue (k_present v) = false.
Proof. intros ([|k ks] & _ & Hn & Hk); simpl in Hn; [lia|]. exists k. apply Hk. by left. Qed.

Lemma filter_keeps {A} (P : A → Prop) `{∀ x, Decision (P x)} (l : list A) : (∀ x, x ∈ l → P x) → filter P l = l.
Proof.
  induction l as [|x l IH]; intros Hl; [done|]. rewrite filter_cons_True by (apply Hl; by left).
  f_equal. apply IH. intros y Hy. apply Hl. by right.
Qed.

Lemma free_slots_insert t n i v : free_slots t (S n) → free_slots (<[i := v]> t) n.
Proof.
  intros (ks & Hnd & Hn & Hk). exists (filter (λ k, k ≠ i) ks). split_and!.
  - by apply NoDup_filter.
  - clear Hk. revert n Hn. induction ks as [|k ks IH]; intros n Hn; simpl in *; [lia|].
    apply NoDup_cons in Hnd as [Hk Hnd]. rewrite filter_cons. destruct (decide (k ≠ i)) as [Hne|He]; simpl.
    + destruct n as [|n]; [lia|]. apply le_n_S, IH; [done|lia].
    + apply dec_stable in He as ->. rewrite (filter_keeps (λ k, k ≠ i) ks); [lia|]. intros x Hx ->. done.
  - intros k [Hki Hin]%list_elem_of_filter. destruct (Hk k Hin) as (w & Hw & Hp). exists w.
    by rewrite list_lookup_insert_ne by done.
Qed.

(** one more area above all the others *)
Lemma init_area_above bss s _vma name exact va pa len hi n :
  table_ok (kvmas s) → length (k_name _vma) = 64%nat → below (kvmas s) hi → free_slots (kvmas s) (S n) →
  0 ≤ va → hi ≤ va → 0 < len → va + len ≤ USERSPACE_BOTTOM →
  ∃ _vma' s', init_area bss _vma name exact va pa len s = Ok (_vma', s') ∧ length (k_name _vma') = 64%nat ∧
    table_ok (kvmas s') ∧ vps s' = vps s ∧ below (kvmas s') (va + len) ∧ free_slots (kvmas s') n ∧
    has_area (kvmas s') exact va pa len ∧
    (∀ e v p l, has_area (kvmas s) e v p l → has_area (kvmas s') e v p l).
Proof.
  intros Ht Hname Hbelow Hfree Hva Hhi Hlen Htop.
  destruct (init_area_ok bss s _vma name exact va pa len) as
    (_vma' & s' & i & v & Hr & Hn' & Ht' & Hvps & (old & Hi & Hp) & Ekv & Hpv & <- & <- & <- & <-); try done.
  { intros j w Hj. left. specialize (Hbelow _ _ Hj). simpl. lia. }
  { by eapply free_slots_some. }
  exists _vma', s'. rewrite Ekv in *. split_and!; try done.
  - intros j w [Hj Hpj]. destruct (decide (j = i)) as [->|Hne].
    + rewrite list_lookup_insert_eq in Hj by (by eapply lookup_lt_Some). injection Hj as <-. lia.
    + rewrite list_lookup_insert_ne in Hj by done. specialize (Hbelow j w (conj Hj Hpj)). lia.
  - by apply free_slots_insert.
  - by eapply has_area_new.
  - intros e a p l. by eapply has_area_insert.
Qed.

(** [kernel_vma_init] succeeds and leaves a table of disjoint areas below
    user space that has the low megabyte, the kernel image, the page inventory
    (all three mapped exactly) and the demand-mapped kernel heap. *)
Theorem kernel_vma_init_layout bss s _vma :
  0x100000 < bss ≤ PAGE_SPACE_BOTTOM → length (k_name _vma) = 64%nat →
  ∃ s', kernel_vma_init bss _vma s = Ok ((), s') ∧ table_ok (kvmas s') ∧ vps s' = vps s ∧
    has_area (kvmas s') 1 0 0 0x100000 ∧
    has_area (kvmas s') 1 0x100000 0x100000 (get_system_memory_start bss - 0x100000) ∧
    has_area (kvmas s') 1 PAGE_SPACE_BOTTOM PAGE_SPACE_BOTTOM (PAGE_SPACE_TOP - PAGE_SPACE_BOTTOM) ∧
    has_area (kvmas s') 0 KERNEL_HEAP_BOTTOM 0 (KERNEL_HEAP_TOP - KERNEL_HEAP_BOTTOM).
Proof.
  intros Hbss Hname. unfold kernel_vma_init. cbv zeta.
  assert (bss ≤ get_system_memory_start bss ≤ PAGE_SPACE_BOTTOM) as Hstart.
  { destruct (page_round_aligned bss) as [Hal Hr]; [unfold PAGE_SPACE_BOTTOM in *; lia|].
    unfold get_system_memory_start, PAGE_SPACE_BOTTOM, aligned in *. lia. }
  unfold PAGE_SPACE_BOTTOM in *. rewrite u32_small by lia.
  set (t0 := replicate (Z.to_nat KERNEL_VMA_ARRAY_LENGTH) zero_vma).
  rewrite (bind_ok _ _ _ () (mk_vstate t0 (vps s))) by reflexivity.
  assert (∀ i v, t0 !! i = Some v → v = zero_vma) as Hz by (intros i v [-> _]%lookup_replicate; done).
  assert (table_ok t0) as Ht0.
  { split.
    - intros i v [->%Hz Hp]. done.
    - intros i j v w [->%Hz Hp]. done.
    - intros i v ->%Hz. done. }
  assert (free_slots t0 4) as Hf0.
  { exists [0; 1; 2; 3]%nat. split_and!; [by repeat (constructor; [set_solver|]); constructor|simpl; lia|].
    intros k Hk. exists zero_vma. split; [|done]. apply lookup_replicate. split; [done|].
    change (Z.to_nat KERNEL_VMA_ARRAY_LENGTH) with 1024%nat.
    repeat (apply elem_of_cons in Hk as [->|Hk]; [lia|]). by apply not_elem_of_nil in Hk. }
  assert (below t0 0) as Hb0 by (by intros i v [->%Hz Hp]).
  destruct (init_area_above bss (mk_vstate t0 (vps s)) _vma "Low1MB" 1 0 0 0x100000 0 3)
    as (m1 & s1 & Hr1 & Hn1 & Ht1 & Hv1 & Hb1 & Hf1 & Ha1 & _); try done.
  rewrite (bind_ok _ _ _ _ _ Hr1).
  destruct (init_area_above bss s1 m1 "KernelImage" 1 0x100000 0x100000 (get_system_memory_start bss - 0x100000) (0 + 0x100000) 2)
    as (m2 & s2 & Hr2 & Hn2 & Ht2 & Hv2 & Hb2 & Hf2 & Ha2 & Hk2); try done; [lia|unfold USERSPACE_BOTTOM; lia|].
  rewrite (bind_ok _ _ _ _ _ Hr2).
  destruct (init_area_above bss s2 m2 "PageInventory" 1 0x4000000 0x4000000 (PAGE_SPACE_TOP - 0x4000000)
     (0x100000 + (get_system_memory_start bss - 0x100000)) 1)
    as (m3 & s3 & Hr3 & Hn3 & Ht3 & Hv3 & Hb3 & Hf3 & Ha3 & Hk3); try done; [lia|].
  rewrite (bind_ok _ _ _ _ _ Hr3).
  destruct (init_area_above bss s3 m3 "KernelHeap" 0 KERNEL_HEAP_BOTTOM 0 (KERNEL_HEAP_TOP - KERNEL_HEAP_BOTTOM)
     (0x4000000 + (PAGE_SPACE_TOP - 0x4000000)) 0)
    as (m4 & s4 & Hr4 & Hn4 & Ht4 & Hv4 & Hb4 & Hf4 & Ha4 & Hk4); try done.
  rewrite (bind_ok _ _ _ _ _ Hr4). exists s4. split_and!; [done|done|by rewrite Hv4, Hv3, Hv2, Hv1|auto..].
Qed.

(** ** The areas of a task *)
Definition uarea_ok (v : vm_area) : Prop :=
  0 ≤ a_virt_addr v ∧ 0 ≤ a_length v ∧ a_virt_addr v + a_length v ≤ 4294967296.

Definition inside (v : vm_area) (va : Z) : Prop := a_virt_addr v ≤ va < a_virt_addr v + a_length v.

Definition disjoint_uareas (v w : vm_area) : Prop :=
  a_virt_addr v + a_length v ≤ a_virt_addr w ∨ a_virt_addr w + a_length w ≤ a_virt_addr v.

Record uareas_ok (σ : areas) (l : list Z) : Prop := {
  ua_nodup : NoDup l;
  ua_null : NULL ∉ l;
  ua_area : ∀ a, a ∈ l → ∃ v, σ !! a = Some v ∧ uarea_ok v;
  ua_disjoint : ∀ a b v w, a ∈ l → b ∈ l → a ≠ b → σ !! a = Some v → σ !! b = Some w → disjoint_uareas v w }.

Lemma a_end_ok v : uarea_ok v → a_end v = a_virt_addr v + a_length v.
Proof. intros (? & ? & ?). unfold a_end, u64. apply Z.mod_small. lia. Qed.

(** a look-up by address finds the area that contains it *)
Lemma search_by_addr_ok σ l va :
  (∀ a, a ∈ l → ∃ v, σ !! a = Some v ∧ uarea_ok v) →
  ∃ r, search_userspace_vma_by_addr l va σ = Ok (r, σ) ∧
    ((r = NULL ∧ ∀ a v, a ∈ l → σ !! a = Some v → ¬ inside v va) ∨
     (r ∈ l ∧ ∃ v, σ !! r = Some v ∧ uarea_ok v ∧ inside v va)).
Proof.
  induction l as [|a l IH]; intros Hl; simpl.
  { exists NULL. split; [done|]. left. split; [done|]. intros a v Ha. by apply not_elem_of_nil in Ha. }
  destruct (Hl a) as (v & Hv & Hok); [by left|]. mstep. rewrite (a_end_ok v Hok).
  destruct ((a_virt_addr v <=? va) && (va <? a_virt_addr v + a_length v)) eqn:Hin.
  - exists a. split; [done|]. right. split; [by left|]. exists v. split_and!; [done|done|unfold inside; lia..].
  - destruct IH as (r & Hr & Hcase); [intros b Hb; apply Hl; by right|]. exists r. split; [done|].
    destruct Hcase as [[-> Hno]|[Hrl Hin']]; [left|right; split; [by right|done]]. split; [done|].
    intros b w [->|Hb]%elem_of_cons Hw; [simplify_eq; unfold inside; lia|by apply (Hno b)].
Qed.

Lemma search_by_addr_unique σ l a v va :
  uareas_ok σ l → a ∈ l → σ !! a = Some v → inside v va → search_userspace_vma_by_addr l va σ = Ok (a, σ).
Proof.
  intros Hok Ha Hv Hin. destruct (search_by_addr_ok σ l va (ua_area _ _ Hok)) as (r & Hr & [[-> Hno]|(Hrl & w & Hw & _ & Hin')]).
  - by destruct (Hno a v Ha Hv).
  - rewrite Hr. destruct (decide (a = r)) as [->|Hne]; [done|].
    pose proof (ua_disjoint _ _ Hok a r v w Ha Hrl Hne Hv Hw) as Hd. unfold disjoint_uareas, inside in *. lia.
Qed.

Lemma extend_scan_ok σ l t st en f :
  (∀ a, a ∈ l → ∃ v, σ !! a = Some v ∧ uarea_ok v) →
  ∃ r, extend_scan l t st en f σ = Ok (r, σ) ∧
    match r with
    | Some r => r = (if decide (t ∈ l) then 1 else f) ∧
        ∀ a v, a ∈ l → a ≠ t → σ !! a = Some v →
          ¬ (a_virt_addr v < st < a_virt_addr v + a_length v) ∧ ¬ (a_virt_addr v < en < a_virt_addr v + a_length v)
    | None => ∃ a v, a ∈ l ∧ a ≠ t ∧ σ !! a = Some v ∧
        (a_virt_addr v < st < a_virt_addr v + a_length v ∨ a_virt_addr v < en < a_virt_addr v + a_length v)
    end.
Proof.
  revert f. induction l as [|a l IH]; intros f Hl; cbn [extend_scan].
  { exists (Some f). split; [done|]. split; [by rewrite decide_False by apply not_elem_of_nil|].
    intros a v Ha. by apply not_elem_of_nil in Ha. }
  assert (∀ a, a ∈ l → ∃ v, σ !! a = Some v ∧ uarea_ok v) as Hl' by (intros b Hb; apply Hl; by right).
  pose proof (λ f, IH f Hl') as IH'. clear IH.
  destruct (Z.eqb_spec a t) as [->|Hne].
  - destruct (IH' 1) as (r & Hr & Hcase). exists r. split; [done|]. destruct r as [r|].
    + destruct Hcase as [-> Hno]. split; [rewrite (decide_True (P := t ∈ t :: l)) by (by left); by destruct (decide _)|].
      intros b w [->|Hb]%elem_of_cons Hbt; [done|by apply (Hno b)].
    + destruct Hcase as (b & w & Hb & ?). exists b, w. split; [by right|done].
  - destruct (Hl a) as (v & Hv & Hok); [by left|]. mstep. rewrite (a_end_ok v Hok).
    destruct ((a_virt_addr v <? st) && (st <? a_virt_addr v + a_length v)) eqn:H1.
    { exists None. split; [done|]. exists a, v. split_and!; [by left|done|done|lia]. }
    destruct ((a_virt_addr v <? en) && (en <? a_virt_addr v + a_length v)) eqn:H2.
    { exists None. split; [done|]. exists a, v. split_and!; [by left|done|done|lia]. }
    destruct (IH' f) as (r & Hr & Hcase). exists r. split; [done|]. destruct r as [r|].
    + destruct Hcase as [-> Hno]. split.
      * destruct (decide (t ∈ l)) as [Hin|Hnin]; [by rewrite decide_True by (by right)|].
        rewrite decide_False; [done|]. by intros [?|?]%elem_of_cons.
      * intros b w [->|Hb]%elem_of_cons Hbt Hw; [simplify_eq; lia|by apply (Hno b)].
    + destruct Hcase as (b & w & Hb & ?). exists b, w. split; [by right|done].
Qed.

(** area [v] grown by [len] *)
Definition grown (v : vm_area) (dir len : Z) : vm_area :=
  mk_area (a_name v) (a_kernel_vma v) (a_pre_map v) (a_exact v) (a_write_permission v) (a_page_writethrough v)
    (a_page_cachedisable v) (a_executable v)
    (if dir =? VMA_EXTEND_UPWARD then a_virt_addr v else a_virt_addr v - len)
    (if dir =? VMA_EXTEND_UPWARD then a_phy_addr v else if ctrue (a_exact v) then u64 (a_phy_addr v - len) else a_phy_addr v)
    (a_length v + len).

Lemma u64_small z : 0 ≤ z < 18446744073709551616 → u64 z = z.
Proof. apply Z.mod_small. Qed.

Lemma __extend_ok σ t v dir len :
  σ !! t = Some v → dir = VMA_EXTEND_UPWARD ∨ dir = VMA_EXTEND_DOWNWARD →
  uarea_ok v → 0 ≤ len → uarea_ok (grown v dir len) →
  __extend_vm_area t dir len σ = Ok (OK, <[t := grown v dir len]> σ).
Proof.
  intros Hv Hdir (? & ? & ?) Hlen (G1 & G2 & G3). unfold __extend_vm_area, grown in *.
  destruct Hdir as [-> | ->]; simpl in *; mstep; mstep; simpl.
  - do 3 f_equal. rewrite u64_small by lia. done.
  - mstep. rewrite insert_insert_eq. simpl. rewrite (u64_small (a_virt_addr v - len)), (u64_small (a_length v + len)) by lia. done.
Qed.

(** [extend_vm_area] grows the target by [length] bytes in the given
    direction, or returns [-ERR_INVALID_ARG] and changes nothing.  It fails
    only if the target is not on the list or another area has the new boundary
    strictly inside.  When it succeeds the areas stay disjoint and every
    address of the grown area is found in it, provided no other area lies
    wholly within the added range. *)
Theorem extend_vm_area_correct σ l t v dir len :
  uareas_ok σ l → σ !! t = Some v → uarea_ok v → 0 < a_length v →
  dir = VMA_EXTEND_UPWARD ∨ dir = VMA_EXTEND_DOWNWARD → 0 < len →
  uarea_ok (grown v dir len) →
  (extend_vm_area l t dir len σ = Ok (- ERR_INVALID_ARG, σ) ∧
   (t ∉ l ∨ ∃ a w, a ∈ l ∧ a ≠ t ∧ σ !! a = Some w ∧ ¬ disjoint_uareas (grown v dir len) w)) ∨
  (extend_vm_area l t dir len σ = Ok (OK, <[t := grown v dir len]> σ) ∧ t ∈ l ∧
   ((∀ a w, a ∈ l → a ≠ t → σ !! a = Some w →
       ¬ (a_virt_addr (grown v dir len) ≤ a_virt_addr w ∧
          a_virt_addr w + a_length w ≤ a_virt_addr (grown v dir len) + a_length (grown v dir len))) →
    uareas_ok (<[t := grown v dir len]> σ) l ∧
    ∀ va, inside (grown v dir len) va →
      search_userspace_vma_by_addr l va (<[t := grown v dir len]> σ) = Ok (t, <[t := grown v dir len]> σ))).
Proof.
  intros Hok Hv Hvok Hpos Hdir Hlen Hg. unfold extend_vm_area.
  rewrite (bind_ok (ASSERT _) _ σ () σ) by (apply ASSERT_true; by destruct Hdir as [-> | ->]). mstep.
  set (st := if dir =? VMA_EXTEND_UPWARD then _ else _). set (en := if dir =? VMA_EXTEND_UPWARD then u64 _ else _).
  assert (st = a_virt_addr (grown v dir len) ∧ en = a_virt_addr (grown v dir len) + a_length (grown v dir len)) as [Est Een].
  { unfold st, en. rewrite a_end_ok by done. destruct Hvok as (? & ? & ?), Hg as (? & ? & ?).
    unfold grown in *. destruct Hdir as [-> | ->]; simpl in *; rewrite ?u64_small; lia. }
  destruct (extend_scan_ok σ l t st en 0 (ua_area _ _ Hok)) as (r & Hr & Hcase).
  rewrite (bind_ok _ _ _ _ _ Hr). destruct r as [r|].
  2: { left. split; [done|]. right. destruct Hcase as (a & w & Ha & Hne & Hw & Hin). exists a, w. split_and!; [done..|].
       unfold disjoint_uareas. destruct (ua_area _ _ Hok a Ha) as (w' & Hw' & (? & ? & ?)). simplify_eq.
       unfold grown in *. destruct Hdir as [-> | ->]; simpl in *; lia. }
  destruct Hcase as [-> Hno]. destruct (decide (t ∈ l)) as [Hin|Hnin]; [|left; split; [done|by left]].
  right. change (! 1)%zelda with false. cbn iota. rewrite (__extend_ok σ t v) by (done || lia).
  split_and!; [done|done|]. intros Hcont.
  assert (uareas_ok (<[t := grown v dir len]> σ) l) as Hok'.
  { assert (∀ a w, a ∈ l → a ≠ t → σ !! a = Some w → disjoint_uareas (grown v dir len) w) as Hd.
    { intros a w Ha Hne Hw. destruct (Hno a w Ha Hne Hw) as [N1 N2].
      pose proof (ua_disjoint _ _ Hok a t w v Ha Hin Hne Hw Hv) as Hd0.
      specialize (Hcont a w Ha Hne Hw). destruct (ua_area _ _ Hok a Ha) as (w' & Hw' & (? & ? & ?)). simplify_eq.
      unfold disjoint_uareas, grown in *. destruct Hdir as [-> | ->]; simpl in *; lia. }
    split; [apply Hok|apply Hok| |].
    - intros a Ha. destruct (decide (a = t)) as [->|Hne].
      + rewrite lookup_insert_eq. eauto.
      + rewrite lookup_insert_ne by done. by apply (ua_area _ _ Hok).
    - intros a b w u Ha Hb Hab Hw Hu.
      destruct (decide (a = t)) as [->|Hat], (decide (b = t)) as [->|Hbt]; [done|..].
      + rewrite lookup_insert_eq in Hw. rewrite lookup_insert_ne in Hu by done. simplify_eq. by apply (Hd b).
      + rewrite lookup_insert_eq in Hu. rewrite lookup_insert_ne in Hw by done. simplify_eq.
        destruct (Hd a w Ha Hat Hw); [by right|by left].
      + rewrite lookup_insert_ne in Hw, Hu by done. by apply (ua_disjoint _ _ Hok a b). }
  split; [done|]. intros va Hva. apply (search_by_addr_unique _ _ _ (grown v dir len)); [done|done|by rewrite lookup_insert_eq|done].
Qed.

(** ** Examples *)
Module VmaExample.
Definition low : kernel_vma := mk_kvma (replicate 64 0) 1 1 1 0 0 0 0 0 0x100000.
Definition heap : kernel_vma := mk_kvma (replicate 64 0) 1 0 1 0 0 0 0x200000 0 0x100000.
Definition start : vstate := mk_vstate [low; heap; zero_vma] (mk_pstate (mk_palloc ∅ ∅ 0 0 0) ∅ 0 0).

Lemma vma_start_ok : table_ok (kvmas start).
Proof.
  assert (∀ i v, area_at (kvmas start) i v → (i = 0%nat ∧ v = low) ∨ (i = 1%nat ∧ v = heap)) as H.
  { intros [|[|[|i]]] v [Hi Hp]; simpl in Hi; try discriminate Hi; injection Hi as <-; [by left|by right|done]. }
  split.
  - intros i v [[_ ->]|[_ ->]]%H; by vm_compute.
  - intros i j v w [[-> ->]|[-> ->]]%H [[-> ->]|[-> ->]]%H Hne; [done|left|right|done]; by vm_compute.
  - intros [|[|[|i]]] v Hi; simpl in Hi; try discriminate Hi; injection Hi as <-; by vm_compute.
Qed.

Lemma kernel_map_vma_correct_witness :
  let s := start in let len := 0x1800 in
  (kernel_map_vma 0x140000 (literal "dev") 1 1 0xfe000000 len 1 0 1 s = Err AssertFail ∧
   ∀ i v, kvmas s !! i = Some v → ctrue (k_present v) = true) ∨
  (kernel_map_vma 0x140000 (literal "dev") 1 1 0xfe000000 len 1 0 1 s = Ok (0, s) ∧
   ∀ i v, area_at (kvmas s) i v → gap_end (kvmas s) i v - k_end v ≤ rounded len) ∨
  (∃ va s' i v, kernel_map_vma 0x140000 (literal "dev") 1 1 0xfe000000 len 1 0 1 s = Ok (va, s') ∧ va ≠ 0 ∧
     kvmas s' = <[i := v]> (kvmas s) ∧ vps s' = vps s ∧ table_ok (kvmas s') ∧
     (∃ old, kvmas s !! i = Some old ∧ ctrue (k_present old) = false) ∧
     ctrue (k_present v) = true ∧ k_virt_addr v = va ∧ k_phy_addr v = 0xfe000000 ∧ k_length v = len ∧
     k_exact v = 1 ∧ k_write_permission v = 1 mod 2 ∧
     va + rounded len < USERSPACE_BOTTOM ∧
     ∀ j u, area_at (kvmas s) j u →
       k_virt_addr u + k_length u ≤ va ∨ va + rounded len < k_virt_addr u).
Proof.
  apply (kernel_map_vma_correct 0x140000 start (literal "dev") 1 1 0xfe000000 0x1800 1 0 1);
    [apply vma_start_ok|right; vm_compute; set_solver|by vm_compute].
Defined.

Lemma kernel_vma_init_layout_witness :
  ∃ s', kernel_vma_init 0x140800 zero_vma start = Ok ((), s') ∧ table_ok (kvmas s') ∧ vps s' = vps start ∧
    has_area (kvmas s') 1 0 0 0x100000 ∧
    has_area (kvmas s') 1 0x100000 0x100000 (get_system_memory_start 0x140800 - 0x100000) ∧
    has_area (kvmas s') 1 PAGE_SPACE_BOTTOM PAGE_SPACE_BOTTOM (PAGE_SPACE_TOP - PAGE_SPACE_BOTTOM) ∧
    has_area (kvmas s') 0 KERNEL_HEAP_BOTTOM 0 (KERNEL_HEAP_TOP - KERNEL_HEAP_BOTTOM).
Proof. apply (kernel_vma_init_layout 0x140800 start zero_vma); by vm_compute. Defined.

(** The overlap check of [register_kernel_vma] looks at the start address only:
    an area that begins below another one and covers it is accepted. *)
Theorem register_accepts_overlap :
  ∃ s' w, register_kernel_vma 0x140000 (mk_kvma (literal "wide") 0 1 1 0 0 0 0x180000 0 0x200000) start = Ok (OK, s') ∧
    kvmas s' !! 1%nat = Some heap ∧ kvmas s' !! 2%nat = Some w ∧ ctrue (k_present w) = true ∧ ¬ disjoint_areas heap w.
Proof.
  eexists _, _. split_and!; [vm_compute; reflexivity|reflexivity|reflexivity|reflexivity|].
  intros [H|H]; vm_compute in H; by apply H.
Qed.

(** user areas at 1, 2 and 3 *)
Definition text_area : vm_area := mk_area (literal "text") 0 0 0 0 0 0 1 0x40000000 0 0x4000.
Definition heap_area : vm_area := mk_area (literal "heap") 0 0 0 1 0 0 0 0x40004000 0 0x1000.
Definition stack_area : vm_area := mk_area (literal "stack") 0 0 0 1 0 0 0 0x40008000 0 0x1000.
Definition user : areas := {[1 := text_area; 2 := heap_area; 3 := stack_area]}.

Lemma user_ok : uareas_ok user [1; 2; 3].
Proof.
  assert (∀ a v, a ∈ [1; 2; 3] → user !! a = Some v →
            (a = 1 ∧ v = text_area) ∨ (a = 2 ∧ v = heap_area) ∨ (a = 3 ∧ v = stack_area)) as H.
  { intros a v Ha Hv. repeat (apply elem_of_cons in Ha as [->|Ha]; [vm_compute in Hv; naive_solver|]).
    by apply not_elem_of_nil in Ha. }
  split.
  - mem.
  - mem.
  - intros a Ha. repeat (apply elem_of_cons in Ha as [->|Ha]; [eexists; split; [reflexivity|by vm_compute]|]).
    by apply not_elem_of_nil in Ha.
  - intros a b v w Ha Hb Hne Hv Hw. apply H in Hv; [|done]. apply H in Hw; [|done].
    destruct Hv as [[-> ->]|[[-> ->]|[-> ->]]], Hw as [[-> ->]|[[-> ->]|[-> ->]]];
      first [done | left; by vm_compute | right; by vm_compute].
Qed.

Lemma extend_vm_area_correct_witness :
  let σ := user in let l := [1; 2; 3] in let v' := grown heap_area VMA_EXTEND_UPWARD 0x2000 in
  (extend_vm_area l 2 VMA_EXTEND_UPWARD 0x2000 σ = Ok (- ERR_INVALID_ARG, σ) ∧
   (2 ∉ l ∨ ∃ a w, a ∈ l ∧ a ≠ 2 ∧ σ !! a = Some w ∧ ¬ disjoint_uareas v' w)) ∨
  (extend_vm_area l 2 VMA_EXTEND_UPWARD 0x2000 σ = Ok (OK, <[2 := v']> σ) ∧ 2 ∈ l ∧
   ((∀ a w, a ∈ l → a ≠ 2 → σ !! a = Some w →
       ¬ (a_virt_addr v' ≤ a_virt_addr w ∧ a_virt_addr w + a_length w ≤ a_virt_addr v' + a_length v')) →
    uareas_ok (<[2 := v']> σ) l ∧
    ∀ va, inside v' va → search_userspace_vma_by_addr l va (<[2 := v']> σ) = Ok (2, <[2 := v']> σ))).
Proof.
  apply (extend_vm_area_correct user [1; 2; 3] 2 heap_area VMA_EXTEND_UPWARD 0x2000);
    [apply user_ok|done|by vm_compute|by vm_compute|by left|by vm_compute|by vm_compute].
Defined.

(** An area wholly inside the added range is not noticed by [extend_vm_area]. *)
Theorem extend_swallows_area :
  ∃ σ', extend_vm_area [1; 2; 3] 2 VMA_EXTEND_UPWARD 0x10000 user = Ok (OK, σ') ∧
    ∃ v w, σ' !! 2 = Some v ∧ σ' !! 3 = Some w ∧ ¬ disjoint_uareas v w.
Proof.
  eexists. split; [vm_compute; reflexivity|]. eexists _, _. split_and!; [reflexivity|reflexivity|].
  intros [H|H]; vm_compute in H; by apply H.
Qed.

(** [search_userspace_vma] returns the last area when no area has the name. *)
Theorem search_missing_name_returns_last :
  search_userspace_vma [1; 2; 3] (literal "mmap") user = Ok (3, user).
Proof. vm_compute. reflexivity. Qed.
End VmaExample.
