(* ===== verification/TaskPaging.v ===== *)
(** * User address spaces: kernel/task_paging.c

    The page directory of a task and its list of areas are arguments; the state
    is that of the page tables and page allocators (Paging) and the store of
    the areas (Vma). *)

From Stdlib Require Import ZifyNat.
From stdpp Require Import gmap list.
From S2P Require Import Prelude PageAlloc Paging Vma.
Open Scope Z_scope.
Open Scope zelda_scope.

Definition DPL_0 : Z := 0.
Definition DPL_3 : Z := 3.

Record tpstate := mk_tp { tps : pstate; tareas : areas }.
Definition tps_l : lens tpstate pstate := Lens tps (λ p s, mk_tp p (tareas s)).
Definition tareas_l : lens tpstate areas := Lens tareas (λ a s, mk_tp (tps s) a).
Definition on_ps {A} (m : M pstate A) : M tpstate A := zoom tps_l m.
Definition on_pal {A} (m : M palloc A) : M tpstate A := zoom tps_l (zoom pal_l m).

(** [vma_in_task(task, vma)], given [task->vma_list] *)
Definition vma_in_task (vma_list : list Z) (vma : Z) : bool := bool_decide (vma ∈ vma_list).

Definition userspace_map_page (page_directory virt_addr phy_addr write_permission page_writethrough
    page_cachedisable : Z) : M pstate Z :=
  ASSERT (ctrue page_directory) ;;
  if virt_addr <? USERSPACE_BOTTOM then mret (- ERR_INVALID_ARG) else
  page_table ← page_table_of page_directory virt_addr PAGE_PERMISSION_USER;
  match page_table with
  | None => mret (- ERR_OUT_OF_MEMORY)
  | Some page_table =>
      put_entry page_table virt_addr phy_addr
        (create_pte32 (u8 write_permission) PAGE_PERMISSION_USER (u8 page_writethrough) (u8 page_cachedisable) phy_addr) ;;
      mret OK
  end.

(** is an entry from [idx] on present? *)
Fixpoint table_in_use (n : nat) (idx page_table_ptr : Z) : M pstate bool :=
  match n with
  | O => mret false
  | S n =>
      e ← read_word (page_table_ptr + 4 * idx);
      if ctrue (present (PTE32_PTR e)) then mret true else table_in_use n (idx + 1) page_table_ptr
  end.

Definition reclaim_page_table (page_directory virt_addr : Z) : M pstate Z :=
  ASSERT (ctrue page_directory) ;;
  d ← read_word (page_directory + 4 * pd_index virt_addr);
  if ! pd_present (PDE32_PTR d) then mret (- ERR_NOT_PRESENT) else
  let page_table_ptr := Z.shiftl (pt_frame (PDE32_PTR d)) 12 in
  non_empty ← table_in_use 1024 0 page_table_ptr;
  if non_empty : bool then mret (- ERR_BUSY) else
  zoom pal_l (free_base_page page_table_ptr) ;;
  write_word (page_directory + 4 * pd_index virt_addr) 0 ;;
  mret OK.

Definition userspace_evict_page (page_directory : Z) (vma_list : list Z) (virt_addr : Z)
    (_reclaim_page_table : bool) : M tpstate Z :=
  ASSERT (ctrue page_directory) ;;
  _vma ← zoom tareas_l (search_userspace_vma_by_addr vma_list virt_addr);
  if ! _vma then mret (- ERR_NOT_PRESENT) else
  d ← on_ps (read_word (page_directory + 4 * pd_index virt_addr));
  if ! pd_present (PDE32_PTR d) then mret (- ERR_NOT_PRESENT) else
  let page_table_ptr := Z.shiftl (pt_frame (PDE32_PTR d)) 12 in
  e ← on_ps (read_word (page_table_ptr + 4 * pt_index virt_addr));
  if ! present (PTE32_PTR e) then mret (- ERR_NOT_PRESENT) else
  let phy_page := Z.shiftl (pg_frame (PTE32_PTR e)) 12 in
  v ← zoom tareas_l (load _vma);
  when (! a_exact v) (on_pal (free_page phy_page)) ;;
  on_ps (write_word (page_table_ptr + 4 * pt_index virt_addr) 0) ;;
  when _reclaim_page_table (on_ps (reclaim_page_table page_directory virt_addr) ;; mret ()) ;;
  mret OK.

(** the loop of [userspace_evict_vma] *)
Fixpoint evict_loop (fuel : nat) (page_directory : Z) (vma_list : list Z) (vma : vm_area) (addr : Z) : M tpstate () :=
  match fuel with
  | O => fail Diverge
  | S fuel =>
      if addr <? a_end vma then
        let current_page_directory := pd_index (u32 addr) in
        let next_page_directory := pd_index (u32 (PAGE_SIZE + u32 addr)) in
        userspace_evict_page page_directory vma_list (u32 addr)
          (if a_end vma <=? u64 (addr + PAGE_SIZE) then true
           else negb (current_page_directory =? next_page_directory)) ;;
        evict_loop fuel page_directory vma_list vma (u64 (addr + PAGE_SIZE))
      else mret ()
  end.

Definition userspace_evict_vma (page_directory : Z) (vma_list : list Z) (vma : Z) : M tpstate Z :=
  if negb (vma_in_task vma_list vma) then mret (- ERR_NOT_FOUND) else
  v ← zoom tareas_l (load vma);
  if ctrue (a_kernel_vma v) then mret (- ERR_INVALID_ARG) else
  evict_loop (frames (a_virt_addr v) (a_end v)) page_directory vma_list v (a_virt_addr v) ;;
  mret OK.

Fixpoint remap_loop (fuel : nat) (page_directory : Z) (vma : vm_area) (addr : Z) : M pstate () :=
  match fuel with
  | O => fail Diverge
  | S fuel =>
      if addr <? a_end vma then
        d ← read_word (page_directory + 4 * pd_index addr);
        ASSERT (ctrue (pd_present (PDE32_PTR d))) ;;
        let page_table_ptr := Z.shiftl (pt_frame (PDE32_PTR d)) 12 in
        e ← read_word (page_table_ptr + 4 * pt_index addr);
        ASSERT (ctrue (present (PTE32_PTR e))) ;;
        write_word (page_table_ptr + 4 * pt_index addr)
          (create_pte32 (a_write_permission vma) PAGE_PERMISSION_USER (a_page_writethrough vma)
             (a_page_cachedisable vma) (Z.shiftl (pg_frame (PTE32_PTR e)) 12)) ;;
        remap_loop fuel page_directory vma (u64 (addr + PAGE_SIZE))
      else mret ()
  end.

Definition userspace_remap_vm_area (page_directory vma : Z) : M tpstate Z :=
  v ← zoom tareas_l (load vma);
  on_ps (remap_loop (frames (a_virt_addr v) (a_end v)) page_directory v (a_virt_addr v)) ;;
  mret OK.

Section alloc.
Variable kernel_bss_end : Z.

(** the loop of [userspace_map_vm_area] *)
Fixpoint map_area_loop (fuel : nat) (page_directory : Z) (vma : vm_area) (addr : Z) (partially_mapped : bool) : M pstate Z :=
  match fuel with
  | O => fail Diverge
  | S fuel =>
      if addr <? a_end vma then
        let v_addr := u32 addr in
        p_addr ← (if ! a_exact vma then zoom pal_l (get_page kernel_bss_end)
                  else mret (u32 (a_phy_addr vma + addr - a_virt_addr vma)));
        if ! a_exact vma && ! p_addr then
          mret (if partially_mapped then - ERR_PARTIAL else - ERR_OUT_OF_MEMORY)
        else
        rc ← userspace_map_page page_directory v_addr p_addr (a_write_permission vma)
               (a_page_writethrough vma) (a_page_cachedisable vma);
        if negb (rc =? OK) then
          when (! a_exact vma) (zoom pal_l (free_page p_addr)) ;;
          mret (if partially_mapped then - ERR_PARTIAL else - ERR_OUT_OF_MEMORY)
        else map_area_loop fuel page_directory vma (u64 (addr + PAGE_SIZE)) true
      else mret OK
  end.

Definition userspace_map_vm_area (page_directory : Z) (vma_list : list Z) (vma : Z) : M tpstate Z :=
  if negb (vma_in_task vma_list vma) then mret (- ERR_INVALID_ARG) else
  v ← zoom tareas_l (load vma);
  on_ps (map_area_loop (frames (a_virt_addr v) (a_end v)) page_directory v (a_virt_addr v) false).

Definition handle_userspace_page_fault (page_directory privilege_level : Z) (vma_list : list Z)
    (linear_addr : Z) : M tpstate Z :=
  ASSERT (ctrue page_directory) ;;
  ASSERT (privilege_level =? DPL_3) ;;
  ASSERT (USERSPACE_BOTTOM <=? linear_addr) ;;
  vma ← zoom tareas_l (search_userspace_vma_by_addr vma_list linear_addr);
  if ! vma then mret (u32 (- ERR_NOT_FOUND)) else
  v ← zoom tareas_l (load vma);
  paddr ← (if ctrue (a_exact v) then mret (u32 (a_phy_addr v + linear_addr - a_virt_addr v))
           else on_pal (get_page kernel_bss_end));
  if ! a_exact v && ! paddr then mret (u32 (- ERR_OUT_OF_RESOURCE)) else
  result ← on_ps (userspace_map_page page_directory linear_addr paddr (a_write_permission v)
                    (a_page_writethrough v) (a_page_cachedisable v));
  if negb (result =? OK) then
    when (! a_exact v) (on_pal (free_page paddr)) ;;
    mret (u32 result)
  else mret OK.
End alloc.

(** ** Directories *)
#[local] Ltac Zify.zify_post_hook ::= Z.to_euclidean_division_equations.

Lemma dir_nonnull s pd : dir_ok s pd → ctrue pd = true.
Proof.
  intros [(j & -> & Hj & _) _ _]. apply ctrue_true. destruct (base_page_range j Hj) as [[? ?] _].
  unfold PAGE_SPACE_BOTTOM in *. lia.
Qed.

(** a directory does not depend on the bitmap of ordinary pages *)
Lemma dir_ok_pal s p pd :
  (∀ j, base_used p j = base_used (pal s) j) → dir_ok s pd →
  dir_ok (mk_pstate p (mem s) (kernel_page_directory s) (cr3 s)) pd.
Proof. intros Hp. apply dir_ok_mono; [done|]. intros j. simpl. by rewrite Hp. Qed.

(** different pages have different entries *)
Lemma other_page va va' :
  0 ≤ va < 4294967296 → 0 ≤ va' < 4294967296 → va' / 4096 ≠ va / 4096 →
  pd_index va' ≠ pd_index va ∨ pt_index va' ≠ pt_index va.
Proof.
  intros Hva Hva' Hne. destruct (decide (pd_index va' = pd_index va)) as [E1|]; [|by left].
  right. intros E2. apply Hne. by apply page_indices.
Qed.

Lemma same_page va va' : va' / 4096 = va / 4096 → pd_index va' = pd_index va ∧ pt_index va' = pt_index va.
Proof.
  intros E. unfold pd_index, pt_index. rewrite !Z.shiftr_div_pow2 by lia. change (2 ^ 22) with (4096 * 1024).
  change (2 ^ 12) with 4096. rewrite <-!Z.div_div by lia. by rewrite E.
Qed.

Lemma translate_same_page m pd va va' : va' / 4096 = va / 4096 → translate m pd va' = translate m pd va.
Proof. intros E. unfold translate. by destruct (same_page va va' E) as [-> ->]. Qed.

Lemma frame_range e : 0 ≤ pg_frame (PTE32_PTR e) < 1048576.
Proof. unfold PTE32_PTR, get_field. cbn [pg_frame]. apply Z.mod_pos_bound. done. Qed.

Lemma frame_addr e : Z.shiftl (pg_frame (PTE32_PTR e)) 12 = 4096 * pg_frame (PTE32_PTR e).
Proof. rewrite Z.shiftl_mul_pow2 by lia. change (2 ^ 12) with 4096. lia. Qed.

(** ** Reclaiming page tables *)
Lemma table_in_use_ok n idx t s :
  has_page (mem s) t → 0 ≤ idx → idx + Z.of_nat n ≤ 1024 →
  ∃ b, table_in_use n idx t s = Ok (b, s) ∧
    (b = false → ∀ k e, idx ≤ k < idx + Z.of_nat n → mem s !! (t + 4 * k) = Some e → ctrue (present (PTE32_PTR e)) = false) ∧
    (b = true → ∃ k e, idx ≤ k < idx + Z.of_nat n ∧ mem s !! (t + 4 * k) = Some e ∧ ctrue (present (PTE32_PTR e)) = true).
Proof.
  intros Ht. revert idx. induction n as [|n IH]; intros idx Hi Hn; cbn [table_in_use].
  { exists false. split_and!; [done|intros; lia|done]. }
  destruct (Ht idx ltac:(lia)) as [e He]. rewrite (read_word_run _ _ _ _ He).
  destruct (ctrue (present (PTE32_PTR e))) eqn:Hp.
  { exists true. split_and!; [done|done|]. intros _. exists idx, e. split_and!; [lia|lia|done|done]. }
  destruct (IH (idx + 1)) as (b & Hb & H1 & H2); [lia|lia|]. exists b. split_and!; [done| |].
  - intros -> k e' Hk He'. destruct (decide (k = idx)) as [->|]; [congruence|]. apply (H1 eq_refl k e'); [lia|done].
  - intros ->. destruct (H2 eq_refl) as (k & e' & Hk & He' & Hp'). exists k, e'. split_and!; [lia|lia|done|done].
Qed.

(** ** What a change of one directory leaves alone *)

(** base page [j] holds the directory [pd] or one of its page tables *)
Definition page_of (s : pstate) (pd j : Z) : Prop :=
  base_page j = pd ∨ ∃ k, 0 ≤ k < 1024 ∧ table (mem s) pd k = Some (base_page j).

(** [s'] is [s] with words of [pd] and its tables changed and some of its
    tables given back *)
Record trims (pd : Z) (s s' : pstate) : Prop := {
  tr_words : ∀ a, is_Some (mem s !! a) → is_Some (mem s' !! a);
  tr_tables : ∀ k t, 0 ≤ k < 1024 → table (mem s') pd k = Some t → table (mem s) pd k = Some t;
  tr_rest : ∀ a, (∀ j k, page_of s pd j → 0 ≤ k < 1024 → a ≠ base_page j + 4 * k) → mem s' !! a = mem s !! a;
  tr_bases : ∀ j, base_used (pal s') j = base_used (pal s) j ∨ page_of s pd j }.

Lemma trims_refl pd s : trims pd s s.
Proof. split; auto. Qed.

Lemma trims_page_of pd s s' j : trims pd s s' → page_of s' pd j → page_of s pd j.
Proof. intros H [?|(k & Hk & Ht)]; [by left|right]. exists k. split; [done|]. by apply (tr_tables _ _ _ H). Qed.

Lemma trims_trans pd s1 s2 s3 : trims pd s1 s2 → trims pd s2 s3 → trims pd s1 s3.
Proof.
  intros H12 H23. split.
  - intros a Ha. by apply (tr_words _ _ _ H23), (tr_words _ _ _ H12).
  - intros k t Hk Ht. by apply (tr_tables _ _ _ H12), (tr_tables _ _ _ H23).
  - intros a Ha. rewrite (tr_rest _ _ _ H23), (tr_rest _ _ _ H12); [done|done|]. intros j k Hj. apply Ha. by apply (trims_page_of _ _ _ _ H12).
  - intros j. destruct (tr_bases _ _ _ H23 j) as [->|Hj]; [apply (tr_bases _ _ _ H12)|right]. by apply (trims_page_of _ _ _ _ H12).
Qed.

(** two directories without a common page *)
Definition apart_dirs (s : pstate) (pd pd' : Z) : Prop := ∀ j, page_of s pd j → page_of s pd' j → False.

(** a well-formed directory without a common page stays as it was *)
Lemma trims_other pd pd' s s' :
  trims pd s s' → apart_dirs s pd pd' → dir_ok s pd' →
  dir_ok s' pd' ∧ (∀ k, 0 ≤ k < 1024 → table (mem s') pd' k = table (mem s) pd' k) ∧
  ∀ va, translate (mem s') pd' va = translate (mem s) pd' va.
Proof.
  intros Htr Hap [Hpd Htab Hinj].
  assert (∀ j k, page_of s pd' j → 0 ≤ k < 1024 → mem s' !! (base_page j + 4 * k) = mem s !! (base_page j + 4 * k)) as Hw.
  { intros j k Hj Hk. apply (tr_rest _ _ _ Htr). intros j' k' Hj' Hk' E. apply base_page_words in E as [-> _]; [|done|done]. by apply (Hap j'). }
  assert (∀ q, table_page s q → (∀ j, q = base_page j → page_of s pd' j) → table_page s' q) as Hq.
  { intros q (j & -> & Hj & Hu & Hp) Hof. exists j. specialize (Hof j eq_refl). split_and!; [done|lia|lia| |].
    - destruct (tr_bases _ _ _ Htr j) as [->|Hj']; [done|by destruct (Hap j)].
    - intros k Hk. by apply (tr_words _ _ _ Htr), Hp. }
  pose proof Hpd as (i & Epd & _).
  assert (∀ k, 0 ≤ k < 1024 → table (mem s') pd' k = table (mem s) pd' k) as Ht.
  { intros k Hk. unfold table. rewrite Epd, Hw; [done|by left|done]. }
  split_and!; [split|done|].
  - apply Hq; [done|]. intros j ->. by left.
  - intros k t Hk. rewrite Ht by done. intros E. destruct (Htab _ _ Hk E) as [Htp ?]. split; [|done].
    apply Hq; [done|]. intros j ->. right. eauto.
  - intros k1 k2 t Hk1 Hk2. rewrite !Ht by done. by apply Hinj.
  - intros va. destruct (index_range va) as [Hi Hk]. unfold translate. rewrite Ht by done.
    destruct (table (mem s) pd' (pd_index va)) as [t|] eqn:E; [|done]. destruct (Htab _ _ Hi E) as [(j & -> & _) _].
    rewrite Hw; [done| |done]. right. eauto.
Qed.

Lemma apart_sym s pd pd' : apart_dirs s pd pd' → apart_dirs s pd' pd.
Proof. intros H j Hj Hj'. by apply (H j). Qed.

(** storing a word of a page of the directory *)
Lemma trims_entry pd s p' t k w :
  dir_ok s pd → (∃ i, 0 ≤ i < 1024 ∧ table (mem s) pd i = Some t) → 0 ≤ k < 1024 →
  (∀ j, base_used p' j = base_used (pal s) j) →
  trims pd s (mk_pstate p' (<[t + 4 * k := w]> (mem s)) (kernel_page_directory s) (cr3 s)).
Proof.
  intros [(i0 & Epd & _) Htab _] (i & Hi & Ht) Hk Hu. destruct (Htab _ _ Hi Ht) as [(j & -> & _) Hne]. split; cbn [mem pal].
  - intros a Ha. apply lookup_insert_is_Some'. by right.
  - intros k' t' Hk'. unfold table. rewrite lookup_insert_ne; [done|]. rewrite Epd. intros E.
    apply base_page_words in E as [-> _]; [|done|done]. congruence.
  - intros a Ha. apply lookup_insert_ne, not_eq_sym, Ha; [|done]. right. eauto.
  - intros j'. left. apply Hu.
Qed.

(** the table at entry [k] holds a present entry *)
Definition table_used (m : gmap Z Z) (t : Z) : Prop :=
  ∃ k e, 0 ≤ k < 1024 ∧ m !! (t + 4 * k) = Some e ∧ ctrue (present (PTE32_PTR e)) = true.

Lemma reclaim_page_table_ok s pd va :
  dir_ok s pd → base_ok (pal s) →
  ∃ rc s', reclaim_page_table pd va s = Ok (rc, s') ∧ dir_ok s' pd ∧ base_ok (pal s') ∧ same_control s s' ∧
    (∀ va', translate (mem s') pd va' = translate (mem s) pd va') ∧
    trims pd s s' ∧
    (∀ k, 0 ≤ k < 1024 → k ≠ pd_index va → table (mem s') pd k = table (mem s) pd k) ∧
    ((s' = s ∧ ∀ t, table (mem s) pd (pd_index va) = Some t → table_used (mem s) t) ∨
     (table (mem s') pd (pd_index va) = None ∧ rc = OK ∧
      ∃ j, table (mem s) pd (pd_index va) = Some (base_page j) ∧
           ∀ i, base_used (pal s') i = negb (i =? j) && base_used (pal s) i)).
Proof.
  intros Hdir Hbase. pose proof Hdir as [Hpd Htab Hinj]. destruct (index_range va) as [Hi _]. set (i := pd_index va) in *.
  pose proof Hpd as (i0 & Epd & Hi0 & Hu0 & Hw0). destruct (Hw0 i Hi) as [d Hd].
  unfold reclaim_page_table. rewrite (dir_nonnull _ _ Hdir). mstep. fold i. rewrite (read_word_run _ _ _ _ Hd).
  pose proof (table_lookup _ _ _ _ Hd) as Ht. destruct (ctrue (pd_present (PDE32_PTR d))) eqn:Hp; cbn [negb].
  2: { eexists _, s. split_and!; [done|done|done|apply same_control_refl|done|apply trims_refl|done|]. left. split; [done|].
       intros t. rewrite Ht. done. }
  set (t := Z.shiftl (pt_frame (PDE32_PTR d)) 12) in *. destruct (Htab _ _ Hi Ht) as [(j & Ej & Hj & Huj & Hwj) Hne].
  destruct (table_in_use_ok 1024 0 t s Hwj) as (b & Hb & Hfree & Hused); [lia|lia|].
  rewrite (bind_ok _ _ _ _ _ Hb). destruct b.
  { eexists _, s. split_and!; [done|done|done|apply same_control_refl|done|apply trims_refl|done|]. left. split; [done|].
    intros t'. rewrite Ht. intros [= <-]. destruct (Hused eq_refl) as (k & e & Hk & ?). exists k, e.
    split; [lia|done]. }
  specialize (Hfree eq_refl). destruct (free_base_page_ok (pal s) j Hj) as (p' & Hp' & Hbits & E1 & E2 & E3 & E4).
  rewrite Ej. rewrite (bind_ok _ _ _ _ _ (zoom_ok pal_l _ s _ _ Hp')).
  rewrite write_word_run by (by apply Hw0). cbn [lset pal_l]. unfold set_word. cbn [pal mem kernel_page_directory cr3].
  set (s' := mk_pstate p' (<[pd + 4 * i := 0]> (mem s)) (kernel_page_directory s) (cr3 s)).
  assert (∀ k, 0 ≤ k < 1024 → table (mem s') pd k = if decide (k = i) then None else table (mem s) pd k) as Htab'.
  { intros k Hk. unfold table, s'. cbn [mem]. destruct (decide (k = i)) as [->|Hki]; [by rewrite lookup_insert_eq|].
    rewrite lookup_insert_ne by lia. done. }
  assert (∀ k t', 0 ≤ k < 1024 → k ≠ i → table (mem s) pd k = Some t' → t' ≠ t) as Hother.
  { intros k t' Hk Hki Ht' ->. apply Hki. by eapply Hinj. }
  assert (∀ q, table_page s q → q ≠ t → table_page s' q) as Hkeep.
  { intros q (q0 & -> & Hq & Hu & Hw) Hqt. exists q0. split_and!; [done|lia|lia| |by apply has_page_insert].
    simpl. rewrite Hbits, Hu, (proj2 (Z.eqb_neq q0 j)); [done|]. intros ->. by rewrite Ej in Hqt. }
  exists OK, s'. split_and!.
  - done.
  - split; [apply Hkeep; [done|done]| |].
    + intros k t' Hk. rewrite Htab' by done. destruct (decide (k = i)) as [|Hki]; [done|]. intros Ht'.
      destruct (Htab _ _ Hk Ht'). split; [apply Hkeep; [done|by eapply Hother]|done].
    + intros k1 k2 t' Hk1 Hk2. rewrite !Htab' by done. destruct (decide (k1 = i)), (decide (k2 = i)); [done|done|done|].
      by apply Hinj.
  - change (pal s') with p'. unfold base_ok, base_cursor in *. by rewrite E3.
  - by split_and!.
  - intros va'. unfold translate. destruct (index_range va') as [Hi' Hk']. rewrite Htab' by done.
    destruct (decide (pd_index va' = i)) as [E|Hne'].
    + rewrite E, Ht. destruct (mem s !! (t + 4 * pt_index va')) as [e|] eqn:He; [|done].
      by rewrite (Hfree (pt_index va') e ltac:(lia) He).
    + destruct (table (mem s) pd (pd_index va')) as [t'|] eqn:Et'; [|done].
      destruct (Htab _ _ Hi' Et') as [(j' & -> & _) Hnepd]. unfold s'. cbn [mem].
      rewrite lookup_insert_ne; [done|]. rewrite Epd in *. intros E. apply base_page_words in E as [-> _]; done.
  - split; cbn [mem pal s'].
    + intros a Ha. apply lookup_insert_is_Some'. by right.
    + intros k t' Hk. change (<[pd + 4 * i := 0]> (mem s)) with (mem s'). rewrite Htab' by done. by destruct (decide (k = i)).
    + intros a Ha. apply lookup_insert_ne. rewrite Epd. apply not_eq_sym, Ha; [by left|done].
    + intros q. rewrite Hbits. destruct (Z.eqb_spec q j) as [->|]; [right; right|by left]. exists i. by rewrite Ht, Ej.
  - intros k Hk Hki. by rewrite Htab', decide_False.
  - right. split_and!; [by rewrite Htab', decide_True|done|]. exists j. split; [by rewrite Ht, Ej|done].
Qed.

(** ** Evicting pages *)

(** frame [fn] is given back when the page behind [e] leaves area [v] *)
Definition gives_back (v : vm_area) (e : option Z) (fn : Z) : bool :=
  match e with Some e => ! a_exact v && (fn =? pg_frame (PTE32_PTR e)) | None => false end.

(** [p'] is [p] with the page of [va] evicted *)
Record evicted (v : vm_area) (pd va : Z) (p p' : pstate) : Prop := {
  ev_dir : dir_ok p' pd;
  ev_base : base_ok (pal p');
  ev_kernel : kernel_page_directory p' = kernel_page_directory p;
  ev_cr3 : cr3 p' = cr3 p;
  ev_trims : trims pd p p';
  ev_pages : ∀ va', 0 ≤ va' < 4294967296 → translate (mem p') pd va' =
    if decide (va' / 4096 = va / 4096) then None else translate (mem p) pd va';
  ev_frames : ∀ fn, occupied (free_page_bitmap (pal p')) fn =
    negb (gives_back v (translate (mem p) pd va) fn) && occupied (free_page_bitmap (pal p)) fn }.

Lemma evicted_absent v pd va p :
  dir_ok p pd → base_ok (pal p) → translate (mem p) pd va = None → evicted v pd va p p.
Proof.
  intros Hd Hb Hnone. split; try done; [apply trims_refl| |].
  - intros va' Hva'. destruct (decide _) as [E|]; [|done]. by rewrite (translate_same_page _ _ _ _ E).
  - intros fn. by rewrite Hnone.
Qed.

(** the frame of a page of an area that owns its frames is freed *)
Definition free_frame (v : vm_area) (f : Z) (p : pstate) : pstate :=
  mk_pstate (set_bitmap (if ! a_exact v then MAKR_PAGE_AS_FREE (4096 * f) (free_page_bitmap (pal p))
                         else free_page_bitmap (pal p)) (pal p)) (mem p) (kernel_page_directory p) (cr3 p).

Lemma free_frame_run v f p σ :
  0 ≤ f < 1048576 → when (! a_exact v) (on_pal (free_page (4096 * f))) (mk_tp p σ) = Ok ((), mk_tp (free_frame v f p) σ).
Proof.
  intros Hf. unfold free_frame, when. destruct (! a_exact v).
  - unfold on_pal. erewrite (zoom_ok tps_l); [|apply (zoom_ok pal_l), free_page_run; lia]. done.
  - rewrite ret_run. by destruct p as [[] ? ? ?].
Qed.

Lemma free_frame_occupied v e p fn :
  occupied (free_page_bitmap (pal (free_frame v (pg_frame (PTE32_PTR e)) p))) fn =
  negb (gives_back v (Some e) fn) && occupied (free_page_bitmap (pal p)) fn.
Proof.
  pose proof (frame_range e). unfold free_frame, gives_back. cbn [pal free_page_bitmap set_bitmap].
  destruct (! a_exact v); [|done]. rewrite MAKR_FREE_spec by lia. by rewrite fn_of_frame.
Qed.

Lemma read_tp {A} ps σ a d (k : Z → M tpstate A) :
  mem ps !! a = Some d → mbind k (on_ps (read_word a)) (mk_tp ps σ) = k d (mk_tp ps σ).
Proof.
  intros Hd. apply bind_ok, (zoom_ok tps_l). rewrite <-(bind_ret_run (read_word _)). exact (read_word_run ps a d mret Hd).
Qed.

Lemma write_tp {A} ps σ a w (k : () → M tpstate A) :
  is_Some (mem ps !! a) → mbind k (on_ps (write_word a w)) (mk_tp ps σ) = k () (mk_tp (set_word ps a w) σ).
Proof.
  intros Hd. apply bind_ok, (zoom_ok tps_l). rewrite <-(bind_ret_run (write_word _ _)). exact (write_word_run ps a w mret Hd).
Qed.

(** clearing the entry and reclaiming the table *)
Lemma clear_entry_ok v pd va e p t flag σ :
  dir_ok p pd → base_ok (pal p) → table (mem p) pd (pd_index va) = Some t → translate (mem p) pd va = Some e →
  0 ≤ va < 4294967296 →
  let p1 := free_frame v (pg_frame (PTE32_PTR e)) p in let p2 := set_word p1 (t + 4 * pt_index va) 0 in
  ∃ p', when flag (on_ps (reclaim_page_table pd va) ;; mret ()) (mk_tp p2 σ) = Ok ((), mk_tp p' σ) ∧ evicted v pd va p p'.
Proof.
  intros Hdir Hbase Ht Htr Hva p1 p2. assert (dir_ok p1 pd) as Hdir1 by (by apply dir_ok_pal).
  destruct (set_entry_ok p1 pd va t 0 Hdir1 Ht) as (_ & Hdir2 & Htr2 & Hother & _). fold p2 in Hdir2, Htr2, Hother.
  assert (∃ p3, when flag (on_ps (reclaim_page_table pd va) ;; mret ()) (mk_tp p2 σ) = Ok ((), mk_tp p3 σ) ∧
    dir_ok p3 pd ∧ base_ok (pal p3) ∧ same_control p2 p3 ∧ (∀ va', translate (mem p3) pd va' = translate (mem p2) pd va') ∧
    trims pd p2 p3)
    as (p3 & Hr3 & Hdir3 & Hbase3 & (Hc1 & Hc2 & Hcb & _) & Htr3 & Hw3).
  { unfold when. destruct flag; [|exists p2; split_and!; try done; apply trims_refl].
    destruct (reclaim_page_table_ok p2 pd va Hdir2) as (rc & s3 & Hr & Hd3 & Hb3 & Hc & Htr3 & Hw3 & _); [done|].
    exists s3. split_and!; try done. by rewrite (bind_ok _ _ _ _ _ (zoom_ok tps_l _ (mk_tp p2 σ) _ _ Hr)). }
  exists p3. split; [done|]. split; try done.
  - eapply trims_trans; [|exact Hw3]. destruct (index_range va) as [Hi Hk]. apply (trims_entry pd p (pal p1)); [done|by eauto|done|done].
  - intros va' Hva'. rewrite Htr3. destruct (decide (va' / 4096 = va / 4096)) as [E|Hne'].
    + by rewrite (translate_same_page _ _ _ _ E), Htr2.
    + rewrite Hother by (by apply other_page). done.
  - intros fn. rewrite Hcb, Htr. apply free_frame_occupied.
Qed.

Lemma evict_page_ok p σ pd l a v va flag :
  dir_ok p pd → base_ok (pal p) → uareas_ok σ l →
  a ∈ l → σ !! a = Some v → inside v va → 0 ≤ va < 4294967296 →
  ∃ rc p', userspace_evict_page pd l va flag (mk_tp p σ) = Ok (rc, mk_tp p' σ) ∧ evicted v pd va p p'.
Proof.
  intros Hdir Hbase Hua Ha Hv Hin Hva.
  assert (ctrue a = true) as Hca by (apply ctrue_true; intros ->; by destruct (ua_null _ _ Hua)).
  pose proof Hdir as [Hpd Htab _]. destruct (index_range va) as [Hi Hk]. pose proof Hpd as (i0 & Epd & _ & _ & Hw0).
  destruct (Hw0 _ Hi) as [d Hd]. pose proof (table_lookup _ _ _ _ Hd) as Ht.
  unfold userspace_evict_page. rewrite (dir_nonnull _ _ Hdir). mstep.
  rewrite (bind_ok _ _ _ a (mk_tp p σ)) by (apply (zoom_ok tareas_l); by apply (search_by_addr_unique _ _ _ v)).
  rewrite Hca. cbn [negb]. rewrite (read_tp _ _ _ _ _ Hd). destruct (ctrue (pd_present (PDE32_PTR d))) eqn:Hp; cbn [negb].
  2: { eexists _, p. split; [done|]. apply evicted_absent; [done|done|]. unfold translate. by rewrite Ht. }
  set (t := Z.shiftl (pt_frame (PDE32_PTR d)) 12) in *. destruct (Htab _ _ Hi Ht) as [(j & Ej & Hj & Huj & Hwj) Hne].
  destruct (Hwj _ Hk) as [e He]. rewrite (read_tp _ _ _ _ _ He). destruct (ctrue (present (PTE32_PTR e))) eqn:Hpe; cbn [negb].
  2: { eexists _, p. split; [done|]. apply evicted_absent; [done|done|]. unfold translate. by rewrite Ht, He, Hpe. }
  rewrite (bind_ok _ _ _ v (mk_tp p σ)) by (apply (zoom_ok tareas_l); by apply load_ok).
  rewrite frame_addr, (bind_ok _ _ _ _ _ (free_frame_run v _ p σ (frame_range e))).
  rewrite write_tp by (by exists e).
  destruct (clear_entry_ok v pd va e p t flag σ) as (p' & Hr & Hev); try done.
  { unfold translate. by rewrite Ht, He, Hpe. }
  exists OK, p'. split; [|done]. by rewrite (bind_ok _ _ _ _ _ Hr).
Qed.

(** [p] is [p0] with the pages of area [v] below [hi] evicted *)
Record swept (v : vm_area) (pd hi : Z) (p0 p : pstate) : Prop := {
  sw_dir : dir_ok p pd;
  sw_base : base_ok (pal p);
  sw_kernel : kernel_page_directory p = kernel_page_directory p0;
  sw_cr3 : cr3 p = cr3 p0;
  sw_trims : trims pd p0 p;
  sw_pages : ∀ va, 0 ≤ va < 4294967296 → translate (mem p) pd va =
    if decide (a_virt_addr v ≤ va < hi) then None else translate (mem p0) pd va;
  sw_freed : ∀ fn va, a_virt_addr v ≤ va < hi → gives_back v (translate (mem p0) pd va) fn = true →
    occupied (free_page_bitmap (pal p)) fn = false;
  sw_kept : ∀ fn, (∀ va, a_virt_addr v ≤ va < hi → gives_back v (translate (mem p0) pd va) fn = false) →
    occupied (free_page_bitmap (pal p)) fn = occupied (free_page_bitmap (pal p0)) fn }.

Lemma swept_start v pd p : dir_ok p pd → base_ok (pal p) → swept v pd (a_virt_addr v) p p.
Proof.
  intros Hd Hb. split; try done; [apply trims_refl| |].
  - intros va Hva. rewrite decide_False; [done|lia].
  - intros fn va Hva. lia.
Qed.

Lemma swept_step v pd hi p0 p p' :
  uarea_ok v → aligned (a_virt_addr v) → aligned hi → a_virt_addr v ≤ hi → hi < 4294967296 →
  swept v pd hi p0 p → evicted v pd hi p p' → swept v pd (hi + 4096) p0 p'.
Proof.
  intros (H0 & _ & _) Hal1 Hal2 Hlo Hhi Hs He. unfold aligned in *.
  assert (translate (mem p) pd hi = translate (mem p0) pd hi) as Ehi.
  { rewrite (sw_pages _ _ _ _ _ Hs) by lia. rewrite decide_False; [done|lia]. }
  assert (∀ va, hi ≤ va < hi + 4096 → translate (mem p0) pd va = translate (mem p0) pd hi) as Hpage.
  { intros va Hva. apply translate_same_page. lia. }
  split.
  - by eapply ev_dir.
  - by eapply ev_base.
  - rewrite (ev_kernel _ _ _ _ _ He). by eapply sw_kernel.
  - rewrite (ev_cr3 _ _ _ _ _ He). by eapply sw_cr3.
  - eapply trims_trans; [by eapply sw_trims|by eapply ev_trims].
  - intros va Hva. rewrite (ev_pages _ _ _ _ _ He) by done. destruct (decide (va / 4096 = hi / 4096)).
    + rewrite decide_True; [done|lia].
    + rewrite (sw_pages _ _ _ _ _ Hs) by done.
      destruct (decide (a_virt_addr v ≤ va < hi)), (decide (a_virt_addr v ≤ va < hi + 4096)); (done || lia).
  - intros fn va Hva Hg. rewrite (ev_frames _ _ _ _ _ He), Ehi. destruct (decide (va < hi)) as [Hlt|Hge].
    + rewrite (sw_freed _ _ _ _ _ Hs fn va); [apply andb_false_r|lia|done].
    + rewrite Hpage in Hg by lia. by rewrite Hg.
  - intros fn Hno. rewrite (ev_frames _ _ _ _ _ He), Ehi, Hno by lia. cbn [negb andb].
    apply (sw_kept _ _ _ _ _ Hs). intros va Hva. apply Hno. lia.
Qed.

Lemma evict_loop_ok fuel pd l a v p0 p σ addr :
  uareas_ok σ l → a ∈ l → σ !! a = Some v → aligned (a_virt_addr v) → aligned addr →
  a_virt_addr v ≤ addr → addr < a_end v + 4096 → swept v pd addr p0 p →
  (a_end v - addr) / 4096 + 1 < Z.of_nat fuel → 0 < Z.of_nat fuel →
  ∃ hi p', evict_loop fuel pd l v addr (mk_tp p σ) = Ok ((), mk_tp p' σ) ∧ swept v pd hi p0 p' ∧
    aligned hi ∧ a_end v ≤ hi ∧ (hi = addr ∨ hi < a_end v + 4096).
Proof.
  intros Hua Ha Hv Hal. revert addr p. destruct (ua_area _ _ Hua a Ha) as (v' & Hv' & Hok). simplify_eq.
  pose proof (a_end_ok _ Hok) as Eend. pose proof Hok as (H0 & H1 & H2).
  induction fuel as [|fuel IH]; intros addr p Hal2 Hlo Hub Hs Hf Hpos; [lia|]. cbn [evict_loop].
  destruct (Z.ltb_spec addr (a_end v)) as [Hlt|Hge].
  2: { exists addr, p. split_and!; [done|done|done|done|by left]. }
  rewrite Eend in *. assert (u32 addr = addr) as Eu by (apply u32_small; lia). rewrite Eu.
  destruct (evict_page_ok p σ pd l a v addr (if a_virt_addr v + a_length v <=? u64 (addr + PAGE_SIZE) then true
     else negb (pd_index addr =? pd_index (u32 (PAGE_SIZE + addr))))) as (rc & p' & Hr & He); try done.
  { by eapply sw_dir. } { by eapply sw_base. } { lia. }
  rewrite (bind_ok _ _ _ _ _ Hr). unfold PAGE_SIZE in *. rewrite u64_small by lia. unfold aligned in *.
  destruct (IH (addr + 4096) p') as (hi & p'' & Hr' & Hs' & Hal' & Hge' & Hcase);
    [lia|lia|lia|eapply swept_step; (done || lia)|lia|lia|].
  exists hi, p''. split_and!; [done|done|done|done|]. right. lia.
Qed.

Lemma evict_vma_ok p σ pd l a v :
  dir_ok p pd → base_ok (pal p) → uareas_ok σ l → a ∈ l → σ !! a = Some v →
  a_kernel_vma v = 0 → aligned (a_virt_addr v) →
  ∃ p', userspace_evict_vma pd l a (mk_tp p σ) = Ok (OK, mk_tp p' σ) ∧
    swept v pd (a_virt_addr v + rounded (a_length v)) p p'.
Proof.
  intros Hdir Hbase Hua Ha Hv Hk Hal. destruct (ua_area _ _ Hua a Ha) as (v' & Hv' & Hok). simplify_eq.
  pose proof (a_end_ok _ Hok) as Eend. pose proof Hok as (H0 & H1 & H2).
  unfold userspace_evict_vma, vma_in_task. rewrite bool_decide_true by done. cbn [negb].
  rewrite (bind_ok _ _ _ v (mk_tp p σ)) by (apply (zoom_ok tareas_l); by apply load_ok).
  rewrite Hk. change (ctrue 0) with false. cbn iota.
  destruct (evict_loop_ok (frames (a_virt_addr v) (a_end v)) pd l a v p p σ (a_virt_addr v))
    as (hi & p' & Hr & Hs & Hal' & Hge & Hcase); try done.
  { lia. } { by apply swept_start. } { unfold frames, PAGE_SIZE. lia. }
  exists p'. rewrite (bind_ok _ _ _ _ _ Hr). split; [done|].
  replace (a_virt_addr v + rounded (a_length v)) with hi; [done|]. unfold rounded, aligned in *. lia.
Qed.

(** ** Mapping pages *)
Definition user_entry (v : vm_area) (pa : Z) : Z :=
  create_pte32 (u8 (a_write_permission v)) PAGE_PERMISSION_USER (u8 (a_page_writethrough v)) (u8 (a_page_cachedisable v)) pa.

Lemma userspace_map_page_ok p pd va pa v :
  dir_ok p pd → base_ok (pal p) → USERSPACE_BOTTOM ≤ va < 4294967296 → 0 ≤ pa < 4294967296 →
  ∃ rc p', userspace_map_page pd va pa (a_write_permission v) (a_page_writethrough v) (a_page_cachedisable v) p = Ok (rc, p') ∧
    dir_ok p' pd ∧ base_ok (pal p') ∧ same_control p p' ∧
    ((rc = - ERR_OUT_OF_MEMORY ∧ mem p' = mem p ∧ ∀ j, 0 ≤ j < BASE_PAGES → base_used (pal p) j = true) ∨
     (rc = OK ∧ ∀ va', 0 ≤ va' < 4294967296 → translate (mem p') pd va' =
        if decide (va' / 4096 = va / 4096) then Some (user_entry v pa) else translate (mem p) pd va')).
Proof.
  intros Hdir Hbase Hva Hpa. unfold USERSPACE_BOTTOM in Hva. unfold userspace_map_page.
  rewrite (dir_nonnull _ _ Hdir). mstep.
  rewrite (proj2 (Z.ltb_ge va USERSPACE_BOTTOM)) by (unfold USERSPACE_BOTTOM; lia).
  destruct (map_in_directory p pd va pa PAGE_PERMISSION_USER (user_entry v pa) (u8 (a_write_permission v))
              (u8 (a_page_writethrough v)) (u8 (a_page_cachedisable v)) Hdir Hbase Hpa eq_refl) as (r & s1 & Hr & Hcase).
  rewrite (bind_ok _ _ _ _ _ Hr). destruct r as [t|].
  - destruct Hcase as (p' & Hp & Hdir' & Hbase' & Hctl & _ & Htr & Hother). exists OK, p'.
    rewrite (bind_ok _ _ _ _ _ Hp). split_and!; [done|done|done|done|]. right. split; [done|].
    intros va' Hva'. destruct (decide (va' / 4096 = va / 4096)) as [E|Hne].
    + by rewrite (translate_same_page _ _ _ _ E).
    + apply Hother; (done || lia).
  - destruct Hcase as (Em & Hctl & Hbase' & Hdir' & Hall). eexists _, s1. split_and!; [done|done|done|done|]. by left.
Qed.

Lemma userspace_map_page_extends p pd va pa w wt cd rc p' :
  dir_ok p pd → base_ok (pal p) → 0 ≤ pa < 4294967296 → userspace_map_page pd va pa w wt cd p = Ok (rc, p') → extends pd p p'.
Proof.
  intros Hdir Hbase Hpa. unfold userspace_map_page. rewrite (dir_nonnull _ _ Hdir). mstep.
  destruct (va <? USERSPACE_BOTTOM); [rewrite ret_run; intros [= <- <-]; apply extends_refl|].
  destruct (page_table_of_ok p pd va PAGE_PERMISSION_USER Hdir Hbase) as (r & s1 & Hr & _ & _ & _ & _ & _ & Hcase).
  rewrite (bind_ok _ _ _ _ _ Hr). pose proof (page_table_of_extends _ _ _ _ _ _ Hdir Hbase Hr) as Hx.
  destruct Hcase as [(-> & _)|(t & -> & Hdir1 & Ht & _)]; [rewrite ret_run; by intros [= <- <-]|].
  destruct (put_entry_ok s1 pd va pa t (u8 w) PAGE_PERMISSION_USER (u8 wt) (u8 cd) Hdir1 Ht Hpa) as (Hput & _).
  rewrite (bind_ok _ _ _ _ _ Hput), ret_run. intros [= <- <-]. eapply extends_trans; [exact Hx|].
  destruct (set_entry_ok s1 pd va t (create_pte32 (u8 w) PAGE_PERMISSION_USER (u8 wt) (u8 cd) pa) Hdir1 Ht) as (_ & _ & _ & _ & Htab).
  split; [done|intros k t' Hk; rewrite Htab by done; by left|].
  intros a Ha. cbn [mem set_word]. apply lookup_insert_is_Some'. by right.
Qed.

Section fault.
Variable kernel_bss_end : Z.
Hypothesis bss_place : 0 < kernel_bss_end ≤ PAGE_SPACE_BOTTOM.

(** the frame a page of area [v] gets: its own of an exact area, else a free one *)
Definition new_frame (v : vm_area) (va : Z) (bm bm' : bitmap) (f : Z) : Prop :=
  if ctrue (a_exact v)
  then f = u32 (a_phy_addr v + va - a_virt_addr v) / 4096 ∧ ∀ g, occupied bm' g = occupied bm g
  else occupied bm f = false ∧ f ≠ 0 ∧ ∀ g, occupied bm' g = (g =? f) || occupied bm g.

(** the frame for a page of [v]: [None] when an area that is not exact finds no free frame *)
Lemma frame_for_ok v p va :
  palloc_ok (pal p) →
  ∃ pa q, (if ! a_exact v then zoom pal_l (get_page kernel_bss_end)
           else mret (u32 (a_phy_addr v + va - a_virt_addr v))) p =
          Ok (pa, mk_pstate q (mem p) (kernel_page_directory p) (cr3 p)) ∧
    palloc_ok q ∧ same_base (pal p) q ∧ 0 ≤ pa < 4294967296 ∧
    if ! a_exact v && ! pa
    then free_page_bitmap q = free_page_bitmap (pal p) ∧
         ∀ g, first_frame kernel_bss_end ≤ g → 4096 * g < physical_memory_length (pal p) →
              occupied (free_page_bitmap (pal p)) g = true
    else new_frame v va (free_page_bitmap (pal p)) (free_page_bitmap q) (pa / 4096) ∧
         (ctrue (a_exact v) = false → pa mod 4096 = 0).
Proof.
  intros Hp. unfold new_frame. destruct (ctrue (a_exact v)) eqn:Hex; cbn [negb andb].
  { pose proof (u32_range (a_phy_addr v + va - a_virt_addr v)). exists (u32 (a_phy_addr v + va - a_virt_addr v)), (pal p).
    destruct p; simpl. split_and!; (done || lia). }
  destruct (get_page_ok kernel_bss_end bss_place (pal p) Hp) as (r & q & Hr & Hq & Hsb & Hcase).
  pose proof (po_boundary _ Hp). destruct (start_frame kernel_bss_end bss_place) as [_ Hff].
  exists r, q. rewrite (zoom_ok pal_l _ _ _ _ Hr).
  destruct Hcase as [(-> & Ebm & Hall)|(g & -> & Hg1 & Hg2 & Hfree & Hocc)].
  - change (! 0)%zelda with true. cbn iota. split_and!; (done || lia).
  - rewrite (proj2 (ctrue_true (4096 * g))) by lia. cbn [negb]. rewrite Z.mul_comm, Z.div_mul by lia.
    split_and!; try (done || lia). intros g'. rewrite Hocc.
    destruct (Z.leb_spec g g'), (Z.ltb_spec g' (g + 1)), (Z.eqb_spec g' g); (done || lia).
Qed.

(** giving an unused frame back restores the set of free frames *)
Lemma frame_back v q va f bm bm' :
  0 ≤ f < 1048576 → free_page_bitmap (pal q) = bm' → new_frame v va bm bm' f →
  ∀ g, occupied (free_page_bitmap (pal (free_frame v f q))) g = occupied bm g.
Proof.
  intros Hf <- Hnew g. unfold free_frame. cbn [pal free_page_bitmap set_bitmap].
  unfold new_frame in Hnew. destruct (ctrue (a_exact v)) eqn:Hex; cbn [negb].
  - apply Hnew.
  - destruct Hnew as (Hfree & _ & Hocc). rewrite MAKR_FREE_spec, fn_of_frame, Hocc by lia.
    destruct (Z.eqb_spec g f) as [->|]; [by rewrite Hfree|done].
Qed.

Lemma free_frame_addr v f pa q :
  (ctrue (a_exact v) = false → pa mod 4096 = 0) → f = pa / 4096 → 0 ≤ pa < 4294967296 →
  when (! a_exact v) (zoom pal_l (free_page pa)) q = Ok ((), free_frame v f q).
Proof.
  intros Hal -> Hpa. unfold free_frame, when. destruct (ctrue (a_exact v)); cbn [negb].
  - rewrite ret_run. by destruct q as [[] ? ? ?].
  - specialize (Hal eq_refl). replace pa with (4096 * (pa / 4096)) at 1 by lia.
    by rewrite (zoom_ok pal_l _ _ _ _ (free_page_run (pal q) (pa / 4096) ltac:(lia))).
Qed.

(** putting a page of area [v] into the directory: mapped, or refused with nothing changed *)
Record placed (v : vm_area) (pd va rc : Z) (p p' : pstate) : Prop := {
  pl_dir : dir_ok p' pd;
  pl_base : base_ok (pal p');
  pl_pal : palloc_ok (pal p');
  pl_kernel : kernel_page_directory p' = kernel_page_directory p;
  pl_cr3 : cr3 p' = cr3 p;
  pl_ext : extends pd p p';
  pl_result :
    (rc = OK ∧ ∃ pa, 0 ≤ pa < 4294967296 ∧
       new_frame v va (free_page_bitmap (pal p)) (free_page_bitmap (pal p')) (pa / 4096) ∧
       ∀ va', 0 ≤ va' < 4294967296 → translate (mem p') pd va' =
         if decide (va' / 4096 = va / 4096) then Some (user_entry v pa) else translate (mem p) pd va') ∨
    (rc ≠ OK ∧ (∀ va', 0 ≤ va' < 4294967296 → translate (mem p') pd va' = translate (mem p) pd va') ∧
     ∀ g, occupied (free_page_bitmap (pal p')) g = occupied (free_page_bitmap (pal p)) g) }.

Lemma palloc_ok_same p q :
  palloc_ok p → physical_memory_length q = physical_memory_length p → fast_page_addr q = fast_page_addr p → palloc_ok q.
Proof. intros [H1 H2] E1 E2. split; by rewrite ?E1, ?E2. Qed.

(** the frame is taken, then mapped, or given back when there is no page table *)
Lemma place_ok v p pd va pa q :
  dir_ok p pd → base_ok (pal p) → USERSPACE_BOTTOM ≤ va < 4294967296 → 0 ≤ pa < 4294967296 →
  palloc_ok q → same_base (pal p) q →
  new_frame v va (free_page_bitmap (pal p)) (free_page_bitmap q) (pa / 4096) →
  (ctrue (a_exact v) = false → pa mod 4096 = 0) →
  let p1 := mk_pstate q (mem p) (kernel_page_directory p) (cr3 p) in
  ∃ rc p', userspace_map_page pd va pa (a_write_permission v) (a_page_writethrough v) (a_page_cachedisable v) p1 = Ok (rc, p') ∧
    ((rc = OK ∧ placed v pd va OK p p') ∨
     (rc = - ERR_OUT_OF_MEMORY ∧ placed v pd va (- ERR_OUT_OF_MEMORY) p (free_frame v (pa / 4096) p') ∧
      when (! a_exact v) (zoom pal_l (free_page pa)) p' = Ok ((), free_frame v (pa / 4096) p'))).
Proof.
  intros Hdir Hbase Hva Hpa Hq (Eb & Ef & El) Hnew Hal p1.
  assert (dir_ok p1 pd) as Hdir1 by (apply dir_ok_pal; [intros j; unfold base_used; by rewrite Eb|done]).
  assert (base_ok (pal p1)) as Hbase1 by (unfold p1, base_ok, base_cursor in *; cbn [pal]; by rewrite Ef).
  destruct (userspace_map_page_ok p1 pd va pa v Hdir1 Hbase1 Hva Hpa) as (rc & p' & Hr & Hdir' & Hbase' & (C1 & C2 & C3 & C4 & C5) & Hcase).
  exists rc, p'. split; [done|]. assert (palloc_ok (pal p')) as Hpal by (by apply (palloc_ok_same q)).
  assert (extends pd p p') as Hx.
  { apply (extends_trans _ _ p1); [|exact (userspace_map_page_extends _ _ _ _ _ _ _ _ _ Hdir1 Hbase1 Hpa Hr)]. apply extends_pal; [done|].
    intros j. unfold base_used. simpl. by rewrite Eb. }
  destruct Hcase as [(-> & Em & Hall)|(-> & Htr)]; [right|left].
  - split_and!; [done| |by apply free_frame_addr]. split; try done.
    + apply dir_ok_pal; [done|done].
    + by apply (palloc_ok_same (pal p')).
    + eapply extends_trans; [exact Hx|]. by apply extends_pal.
    + right. split_and!; [done|intros va' Hva'; simpl; by rewrite Em|]. by eapply frame_back; [lia|..].
  - split; [done|]. split; try done. left. split; [done|]. exists pa. split_and!; [lia|lia|by rewrite C3|done].
Qed.

(** C4. [handle_userspace_page_fault] resolves a fault of a task at a user
    address.  With no area at the address it returns [-ERR_NOT_FOUND] and
    changes nothing.  Otherwise it returns [OK] and the page of the address is
    mapped as a user page with the area's permissions, to the area's own
    physical page if it is exact and else to a frame that was free and is now
    taken; or it returns an error because frames or page tables ran out, and
    then no translation and no frame has changed.  Every other page keeps its
    translation in all cases. *)
Theorem handle_userspace_page_fault_correct p σ pd l la :
  dir_ok p pd → base_ok (pal p) → palloc_ok (pal p) → uareas_ok σ l → USERSPACE_BOTTOM ≤ la < 4294967296 →
  ∃ rc p', handle_userspace_page_fault kernel_bss_end pd DPL_3 l la (mk_tp p σ) = Ok (rc, mk_tp p' σ) ∧
    ((rc = u32 (- ERR_NOT_FOUND) ∧ p' = p ∧ ∀ a v, a ∈ l → σ !! a = Some v → ¬ inside v la) ∨
     (∃ a v, a ∈ l ∧ σ !! a = Some v ∧ inside v la ∧ placed v pd la rc p p' ∧
        (rc = OK ∨ rc = u32 (- ERR_OUT_OF_RESOURCE) ∨ rc = u32 (- ERR_OUT_OF_MEMORY)))).
Proof.
  intros Hdir Hbase Hpal Hua Hla. unfold handle_userspace_page_fault. rewrite (dir_nonnull _ _ Hdir).
  change (DPL_3 =? DPL_3) with true. rewrite (proj2 (Z.leb_le _ _)) by lia. mstep. mstep. mstep.
  destruct (search_by_addr_ok σ l la (ua_area _ _ Hua)) as (r & Hr & Hcase).
  rewrite (bind_ok _ _ _ r (mk_tp p σ)) by (by apply (zoom_ok tareas_l)).
  destruct Hcase as [[-> Hno]|(Hrl & v & Hv & Hok & Hin)].
  { eexists _, p. split; [done|]. by left. }
  rewrite (proj2 (ctrue_true r)) by (intros ->; by destruct (ua_null _ _ Hua)). cbn [negb].
  rewrite (bind_ok _ _ _ v (mk_tp p σ)) by (apply (zoom_ok tareas_l); by apply load_ok).
  destruct (frame_for_ok v p la Hpal) as (pa & q & Hpa & Hq & Hsb & Hrng & Hframe).
  set (p1 := mk_pstate q (mem p) (kernel_page_directory p) (cr3 p)) in *.
  rewrite (bind_ok _ _ _ pa (mk_tp p1 σ)).
  2: { destruct (ctrue (a_exact v)); cbn [negb] in Hpa.
       - assert (Ok (u32 (a_phy_addr v + la - a_virt_addr v), p) = Ok (pa, p1)) as Hpa' by exact Hpa.
         injection Hpa' as <- E. by rewrite <-E.
       - by apply (zoom_ok tps_l _ (mk_tp p σ)). }
  destruct (! a_exact v && ! pa).
  { destruct Hframe as [Ebm _], Hsb as (Eb & Ef & El). eexists _, p1. split; [done|]. right. exists r, v.
    split_and!; try done; [|by right; left]. split; try done.
    - apply dir_ok_pal; [intros j; unfold base_used; by rewrite Eb|done].
    - unfold p1, base_ok, base_cursor in *. cbn [pal]. by rewrite Ef.
    - apply extends_pal; [done|]. intros j. unfold base_used. simpl. by rewrite Eb.
    - right. split_and!; [done|done|]. unfold p1. cbn [pal]. by rewrite Ebm. }
  destruct Hframe as [Hnew Hal].
  destruct (place_ok v p pd la pa q Hdir Hbase Hla Hrng Hq Hsb Hnew Hal) as (rc & p' & Hr' & Hcase). fold p1 in Hr'.
  rewrite (bind_ok _ _ _ rc (mk_tp p' σ)) by (by apply (zoom_ok tps_l _ (mk_tp p1 σ))).
  destruct Hcase as [[-> Hpl]|(-> & Hpl & Hback)].
  - exists OK, p'. split; [done|]. right. exists r, v. split_and!; try done. by left.
  - exists (u32 (- ERR_OUT_OF_MEMORY)), (free_frame v (pa / 4096) p'). split.
    + change (negb (- ERR_OUT_OF_MEMORY =? OK)) with true. cbn iota. unfold on_pal.
      rewrite (bind_ok _ _ _ () (mk_tp (free_frame v (pa / 4096) p') σ)); [done|].
      unfold when in *. destruct (! a_exact v).
      * by apply (zoom_ok tps_l _ (mk_tp p' σ)).
      * assert (Ok ((), p') = Ok ((), free_frame v (pa / 4096) p')) as Hback' by exact Hback.
        injection Hback' as E. by rewrite <-E.
    + right. exists r, v. split_and!; try done; [|by right; right]. destruct Hpl as [? ? ? ? ? ? [[? _]|(_ & ? & ?)]]; [done|].
      split; try done. by right.
Qed.

(** [p] is [p0] with the pages of area [v] below [hi] mapped *)
Record filled (v : vm_area) (pd hi : Z) (p0 p : pstate) : Prop := {
  fi_dir : dir_ok p pd;
  fi_base : base_ok (pal p);
  fi_pal : palloc_ok (pal p);
  fi_kernel : kernel_page_directory p = kernel_page_directory p0;
  fi_cr3 : cr3 p = cr3 p0;
  fi_ext : extends pd p0 p;
  fi_mapped : ∀ va, a_virt_addr v ≤ va < hi → ∃ pa, 0 ≤ pa < 4294967296 ∧ translate (mem p) pd va = Some (user_entry v pa) ∧
    (ctrue (a_exact v) = true → pa / 4096 = u32 (a_phy_addr v + (va - va mod 4096) - a_virt_addr v) / 4096);
  fi_other : ∀ va, 0 ≤ va < 4294967296 → ¬ a_virt_addr v ≤ va < hi → translate (mem p) pd va = translate (mem p0) pd va;
  fi_fresh : ∀ fn va, a_virt_addr v ≤ va < hi → gives_back v (translate (mem p) pd va) fn = true →
    occupied (free_page_bitmap (pal p0)) fn = false;
  fi_kept : ∀ fn, (∀ va, a_virt_addr v ≤ va < hi → gives_back v (translate (mem p) pd va) fn = false) →
    occupied (free_page_bitmap (pal p)) fn = occupied (free_page_bitmap (pal p0)) fn;
  fi_used : ∀ fn va, a_virt_addr v ≤ va < hi → gives_back v (translate (mem p) pd va) fn = true →
    occupied (free_page_bitmap (pal p)) fn = true;
  fi_inj : ∀ fn va va', a_virt_addr v ≤ va < hi → a_virt_addr v ≤ va' < hi →
    gives_back v (translate (mem p) pd va) fn = true → gives_back v (translate (mem p) pd va') fn = true → va / 4096 = va' / 4096 }.

Lemma filled_start v pd p : dir_ok p pd → base_ok (pal p) → palloc_ok (pal p) → filled v pd (a_virt_addr v) p p.
Proof. intros Hd Hb Hp. split; try done; [apply extends_refl|intros; lia..]. Qed.

Lemma user_entry_frame v pa : 0 ≤ pa < 4294967296 → pg_frame (PTE32_PTR (user_entry v pa)) = pa / 4096.
Proof. intros Hpa. unfold user_entry. by rewrite create_pte32_fields. Qed.

(** is [fn] the frame of a page of the area below [hi]? *)
Lemma gives_back_dec v pd p hi fn :
  (∃ va, a_virt_addr v ≤ va < hi ∧ gives_back v (translate (mem p) pd va) fn = true) ∨
  (∀ va, a_virt_addr v ≤ va < hi → gives_back v (translate (mem p) pd va) fn = false).
Proof.
  set (P := λ n : nat, gives_back v (translate (mem p) pd (a_virt_addr v + Z.of_nat n)) fn = true).
  destruct (decide (Exists P (seq 0 (Z.to_nat (hi - a_virt_addr v))))) as [He|Hn].
  - left. apply Exists_exists in He as (n & Hn%elem_of_seq & HP). exists (a_virt_addr v + Z.of_nat n). split; [lia|done].
  - right. intros va Hva. apply not_Exists_Forall in Hn; [|intros n; apply _]. rewrite Forall_forall in Hn.
    specialize (Hn (Z.to_nat (va - a_virt_addr v))). unfold P, compose in Hn. cbn beta in Hn.
    rewrite Z2Nat.id in Hn by lia. replace (a_virt_addr v + (va - a_virt_addr v)) with va in Hn by lia.
    apply not_true_is_false, Hn. apply elem_of_seq. lia.
Qed.

Lemma new_frame_keeps v va bm bm' f : new_frame v va bm bm' f → ∀ g, occupied bm g = true → occupied bm' g = true.
Proof.
  unfold new_frame. destruct (ctrue (a_exact v)); [intros [_ H] g; by rewrite H|].
  intros (_ & _ & H) g Hg. by rewrite H, Hg, orb_true_r.
Qed.

(** a page more *)
Lemma filled_step v pd hi p0 p p' :
  0 ≤ a_virt_addr v → aligned (a_virt_addr v) → aligned hi → a_virt_addr v ≤ hi → hi + 4096 ≤ 4294967296 →
  filled v pd hi p0 p → placed v pd hi OK p p' → filled v pd (hi + 4096) p0 p'.
Proof.
  intros H0 Hal1 Hal2 Hlo Hhi Hf Hp. unfold aligned in *.
  destruct (pl_result _ _ _ _ _ _ Hp) as [(_ & pa & Hpa & Hnew & Htr)|[? _]]; [|done].
  assert (∀ va, a_virt_addr v ≤ va < hi → translate (mem p') pd va = translate (mem p) pd va) as Hold.
  { intros va Hva. rewrite Htr by lia. rewrite decide_False; [done|lia]. }
  assert (∀ va, hi ≤ va < hi + 4096 → translate (mem p') pd va = Some (user_entry v pa)) as Hcur.
  { intros va Hva. rewrite Htr by lia. rewrite decide_True; [done|lia]. }
  assert (∀ fn, gives_back v (Some (user_entry v pa)) fn = ! a_exact v && (fn =? pa / 4096)) as Hg.
  { intros fn. unfold gives_back. by rewrite user_entry_frame. }
  split; try by apply Hp.
  - rewrite (pl_kernel _ _ _ _ _ _ Hp). by eapply fi_kernel.
  - rewrite (pl_cr3 _ _ _ _ _ _ Hp). by eapply fi_cr3.
  - eapply extends_trans; [by eapply fi_ext|by eapply pl_ext].
  - intros va Hva. destruct (decide (va < hi)).
    + rewrite Hold by lia. apply (fi_mapped _ _ _ _ _ Hf). lia.
    + exists pa. rewrite Hcur by lia. split_and!; [lia|lia|done|]. intros Hex. unfold new_frame in Hnew. rewrite Hex in Hnew.
      destruct Hnew as [-> _]. by replace (va - va mod 4096) with hi by lia.
  - intros va Hva Hn. rewrite Htr by done. rewrite decide_False by lia. apply (fi_other _ _ _ _ _ Hf); [done|lia].
  - intros fn va Hva. destruct (decide (va < hi)).
    + rewrite Hold by lia. apply (fi_fresh _ _ _ _ _ Hf). lia.
    + rewrite Hcur, Hg by lia. unfold new_frame in Hnew. destruct (ctrue (a_exact v)); cbn [negb andb]; [done|].
      intros ->%Z.eqb_eq. destruct Hnew as (Hfree & _ & _).
      destruct (occupied (free_page_bitmap (pal p0)) (pa / 4096)) eqn:E; [|done].
      (* a frame in use at the start is still in use *)
      destruct (gives_back_dec v pd p hi (pa / 4096)) as [(va' & Hva' & Hgb)|Hno].
      * by rewrite (fi_fresh _ _ _ _ _ Hf _ va' Hva' Hgb) in E.
      * rewrite <-(fi_kept _ _ _ _ _ Hf) in E; [congruence|done].
  - intros fn Hno. rewrite <-(fi_kept _ _ _ _ _ Hf fn).
    2: { intros va Hva. rewrite <-Hold by lia. apply Hno. lia. }
    specialize (Hno hi ltac:(lia)). rewrite Hcur, Hg in Hno by lia. unfold new_frame in Hnew.
    destruct (ctrue (a_exact v)); cbn [negb andb] in Hno; [apply Hnew|].
    destruct Hnew as (_ & _ & ->). by rewrite Hno.
  - intros fn va Hva. destruct (decide (va < hi)) as [Hlt|Hge].
    + rewrite Hold by lia. intros Hg'. pose proof (fi_used _ _ _ _ _ Hf fn va ltac:(lia) Hg') as Hu.
      by apply (new_frame_keeps _ _ _ _ _ Hnew).
    + rewrite Hcur, Hg by lia. intros [Hex ->%Z.eqb_eq]%andb_true_iff. apply negb_true_iff in Hex.
      unfold new_frame in Hnew. rewrite Hex in Hnew. destruct Hnew as (_ & _ & ->). by rewrite Z.eqb_refl.
  - assert (∀ fn va, a_virt_addr v ≤ va < hi → gives_back v (translate (mem p) pd va) fn = true →
      gives_back v (Some (user_entry v pa)) fn = true → False) as Hdiff.
    { intros fn va Hva H1 H2. rewrite Hg in H2. apply andb_true_iff in H2 as [Hex ->%Z.eqb_eq]. apply negb_true_iff in Hex.
      unfold new_frame in Hnew. rewrite Hex in Hnew. destruct Hnew as (Hfree & _ & _).
      pose proof (fi_used _ _ _ _ _ Hf _ _ Hva H1). congruence. }
    intros fn va va' Hva Hva'. destruct (decide (va < hi)), (decide (va' < hi)).
    + rewrite !Hold by lia. apply (fi_inj _ _ _ _ _ Hf); lia.
    + rewrite Hold, Hcur by lia. intros H1 H2. exfalso. eapply Hdiff; [|exact H1|exact H2]. lia.
    + rewrite Hcur, Hold by lia. intros H1 H2. exfalso. eapply Hdiff; [|exact H2|exact H1]. lia.
    + intros _ _. lia.
Qed.

(** a refused page *)
Lemma filled_refused v pd hi rc p0 p p' :
  0 ≤ a_virt_addr v → hi ≤ 4294967296 → rc ≠ OK → filled v pd hi p0 p → placed v pd hi rc p p' → filled v pd hi p0 p'.
Proof.
  intros H0 Hhi Hrc Hf Hp. destruct (pl_result _ _ _ _ _ _ Hp) as [[? _]|(_ & Htr & Hocc)]; [done|].
  split; try by apply Hp.
  - rewrite (pl_kernel _ _ _ _ _ _ Hp). by eapply fi_kernel.
  - rewrite (pl_cr3 _ _ _ _ _ _ Hp). by eapply fi_cr3.
  - eapply extends_trans; [by eapply fi_ext|by eapply pl_ext].
  - intros va Hva. rewrite Htr by lia. by apply (fi_mapped _ _ _ _ _ Hf).
  - intros va Hva Hn. rewrite Htr by lia. by apply (fi_other _ _ _ _ _ Hf).
  - intros fn va Hva. rewrite Htr by lia. by apply (fi_fresh _ _ _ _ _ Hf).
  - intros fn Hno. rewrite Hocc. apply (fi_kept _ _ _ _ _ Hf). intros va Hva. rewrite <-Htr by lia. by apply Hno.
  - intros fn va Hva. rewrite Htr, Hocc by lia. by apply (fi_used _ _ _ _ _ Hf).
  - intros fn va va' Hva Hva'. rewrite !Htr by lia. by apply (fi_inj _ _ _ _ _ Hf).
Qed.

Lemma map_area_loop_ok fuel pd v p0 p addr part :
  uarea_ok v → USERSPACE_BOTTOM ≤ a_virt_addr v → aligned (a_virt_addr v) → aligned addr → a_virt_addr v ≤ addr →
  addr < a_end v + 4096 → filled v pd addr p0 p → (a_end v - addr) / 4096 + 1 < Z.of_nat fuel → 0 < Z.of_nat fuel →
  ∃ rc hi p', map_area_loop kernel_bss_end fuel pd v addr part p = Ok (rc, p') ∧ filled v pd hi p0 p' ∧
    aligned hi ∧ hi < a_end v + 4096 ∧ (rc = OK ∧ a_end v ≤ hi ∨ rc = - ERR_PARTIAL ∨ rc = - ERR_OUT_OF_MEMORY).
Proof.
  intros Hok Hus Hal. pose proof (a_end_ok _ Hok) as Eend. pose proof Hok as (H0 & H1 & H2). rewrite Eend.
  revert addr p part. induction fuel as [|fuel IH]; intros addr p part Hal2 Hlo Hub Hfi Hf Hpos; [lia|]. cbn [map_area_loop].
  rewrite Eend. destruct (Z.ltb_spec addr (a_virt_addr v + a_length v)) as [Hlt|Hge].
  2: { exists OK, addr, p. split_and!; [done|done|done|lia|]. left. lia. }
  rewrite (u32_small addr) by lia.
  assert (∀ b : bool, (if b then - ERR_PARTIAL else - ERR_OUT_OF_MEMORY) = OK ∧ a_virt_addr v + a_length v ≤ addr ∨
    (if b then - ERR_PARTIAL else - ERR_OUT_OF_MEMORY) = - ERR_PARTIAL ∨
    (if b then - ERR_PARTIAL else - ERR_OUT_OF_MEMORY) = - ERR_OUT_OF_MEMORY) as Hrc by (intros []; auto).
  destruct (frame_for_ok v p addr (fi_pal _ _ _ _ _ Hfi)) as (pa & q & Hpa & Hq & Hsb & Hrng & Hframe).
  rewrite (bind_ok _ _ _ _ _ Hpa). destruct (! a_exact v && ! pa).
  { destruct Hframe as [Ebm _], Hsb as (Eb & Ef & El). eexists _, addr, _. split_and!; [done| |done|lia|apply Hrc].
    destruct Hfi. split; cbn [pal mem kernel_page_directory cr3]; rewrite ?Ebm; try done.
    - apply dir_ok_pal; [intros j; unfold base_used; by rewrite Eb|done].
    - unfold base_ok, base_cursor in *. by rewrite Ef.
    - eapply extends_trans; [done|]. apply extends_pal; [done|]. intros j. unfold base_used. simpl. by rewrite Eb. }
  destruct Hframe as [Hnew Hmod]. unfold aligned in *.
  destruct (place_ok v p pd addr pa q) as (rc & p' & Hr & Hcase); try done;
    [by eapply fi_dir|by eapply fi_base|lia|]. cbv zeta in Hr.
  rewrite (bind_ok _ _ _ _ _ Hr). destruct Hcase as [[-> Hpl]|(-> & Hpl & Hback)].
  - cbn [negb]. change (negb (OK =? OK)) with false. cbn iota. unfold PAGE_SIZE. rewrite u64_small by lia.
    apply IH; [lia|lia|lia| |lia|lia]. eapply filled_step; (done || lia).
  - change (negb (- ERR_OUT_OF_MEMORY =? OK)) with true. cbn iota. rewrite (bind_ok _ _ _ _ _ Hback).
    eexists _, addr, _. split_and!; [done| |done|lia|apply Hrc]. eapply (filled_refused _ _ _ (- ERR_OUT_OF_MEMORY)); [lia|lia|done|done|done].
Qed.

Lemma map_vm_area_ok p σ pd l a v :
  dir_ok p pd → base_ok (pal p) → palloc_ok (pal p) → uareas_ok σ l → a ∈ l → σ !! a = Some v →
  USERSPACE_BOTTOM ≤ a_virt_addr v → aligned (a_virt_addr v) →
  ∃ rc hi p', userspace_map_vm_area kernel_bss_end pd l a (mk_tp p σ) = Ok (rc, mk_tp p' σ) ∧ filled v pd hi p p' ∧
    aligned hi ∧ hi < a_end v + 4096 ∧ (rc = OK ∧ a_end v ≤ hi ∨ rc = - ERR_PARTIAL ∨ rc = - ERR_OUT_OF_MEMORY).
Proof.
  intros Hdir Hbase Hpal Hua Ha Hv Hus Hal. destruct (ua_area _ _ Hua a Ha) as (v' & Hv' & Hok). simplify_eq.
  pose proof (a_end_ok _ Hok) as Eend. pose proof Hok as (H0 & H1 & H2).
  unfold userspace_map_vm_area, vma_in_task. rewrite bool_decide_true by done. cbn [negb].
  rewrite (bind_ok _ _ _ v (mk_tp p σ)) by (apply (zoom_ok tareas_l); by apply load_ok).
  destruct (map_area_loop_ok (frames (a_virt_addr v) (a_end v)) pd v p p (a_virt_addr v) false)
    as (rc & hi & p' & Hr & Hfi & Hhial & Hhi & Hcase); try done; [lia|by apply filled_start|unfold frames, PAGE_SIZE; lia|].
  exists rc, hi, p'. split_and!; [|done|done|done|done]. by apply (zoom_ok tps_l _ (mk_tp p σ)).
Qed.

(** C15. Mapping an unmapped area and evicting it again restores every
    translation and the set of free frames, also when the mapping failed half
    way; when it succeeded, every page of the area was mapped in between as a
    user page with the area's permissions. *)
Theorem map_evict_roundtrip p σ pd l a v :
  dir_ok p pd → base_ok (pal p) → palloc_ok (pal p) → uareas_ok σ l → a ∈ l → σ !! a = Some v →
  USERSPACE_BOTTOM ≤ a_virt_addr v → aligned (a_virt_addr v) → a_kernel_vma v = 0 →
  (∀ va, a_virt_addr v ≤ va < a_virt_addr v + rounded (a_length v) → translate (mem p) pd va = None) →
  ∃ rc p1 p2,
    userspace_map_vm_area kernel_bss_end pd l a (mk_tp p σ) = Ok (rc, mk_tp p1 σ) ∧
    (rc = OK → ∀ va, inside v va → ∃ pa, translate (mem p1) pd va = Some (user_entry v pa)) ∧
    userspace_evict_vma pd l a (mk_tp p1 σ) = Ok (OK, mk_tp p2 σ) ∧
    (∀ va, 0 ≤ va < 4294967296 → translate (mem p2) pd va = translate (mem p) pd va) ∧
    (∀ fn, occupied (free_page_bitmap (pal p2)) fn = occupied (free_page_bitmap (pal p)) fn).
Proof.
  intros Hdir Hbase Hpal Hua Ha Hv Hus Hal Hk Hnone. destruct (ua_area _ _ Hua a Ha) as (v' & Hv' & Hok). simplify_eq.
  pose proof (a_end_ok _ Hok) as Eend. pose proof Hok as (H0 & H1 & H2).
  destruct (map_vm_area_ok p σ pd l a v) as (rc & hi & p1 & Hr & Hfi & Hhial & Hhi & Hcase); try done.
  destruct (evict_vma_ok p1 σ pd l a v) as (p2 & Hr2 & Hsw); try done; [by eapply fi_dir|by eapply fi_base|].
  set (top := a_virt_addr v + rounded (a_length v)) in *.
  assert (a_end v ≤ top) as Htop by (unfold top, rounded; lia).
  (* pages above those mapped are empty *)
  assert (∀ va, a_virt_addr v ≤ va < top → va < 4294967296 → ¬ va < hi → translate (mem p1) pd va = None) as Hempty.
  { intros va Hva Hlt Hge. rewrite (fi_other _ _ _ _ _ Hfi) by lia. by apply Hnone. }
  exists rc, p1, p2. split_and!; [done| |done| |].
  - intros -> va Hin. destruct Hcase as [[_ Hle]|[?|?]]; [|done|done]. unfold inside in Hin.
    destruct (fi_mapped _ _ _ _ _ Hfi va) as (pa & _ & Hpa & _); [lia|]. by exists pa.
  - intros va Hva. rewrite (sw_pages _ _ _ _ _ Hsw) by done. destruct (decide _) as [Hin|Hout].
    + symmetry. by apply Hnone.
    + destruct (decide (a_virt_addr v ≤ va < hi)) as [Hin|]; [|by apply (fi_other _ _ _ _ _ Hfi)].
      exfalso. apply Hout. unfold top, rounded, aligned in *. lia.
  - intros fn. destruct (gives_back_dec v pd p1 hi fn) as [(va & Hva & Hg)|Hno].
    + rewrite (fi_fresh _ _ _ _ _ Hfi fn va Hva Hg). apply (sw_freed _ _ _ _ _ Hsw fn va); [|done].
      unfold top, rounded, aligned in *. lia.
    + rewrite <-(fi_kept _ _ _ _ _ Hfi fn Hno). apply (sw_kept _ _ _ _ _ Hsw). intros va Hva.
      destruct (decide (va < hi)) as [Hlt|Hge]; [by apply Hno; lia|].
      rewrite Hempty; [done|done|unfold top, rounded, aligned in *; lia|done].
Qed.
End fault.

(** [userspace_evict_vma] unmaps a whole area: it returns [OK], afterwards
    no page of the area translates and every other page translates as before;
    the frames behind an area that owns its frames are free again and all other
    frames keep their state; the directory stays well formed. *)
Theorem userspace_evict_vma_correct p σ pd l a v :
  dir_ok p pd → base_ok (pal p) → uareas_ok σ l → a ∈ l → σ !! a = Some v →
  a_kernel_vma v = 0 → aligned (a_virt_addr v) →
  ∃ p', userspace_evict_vma pd l a (mk_tp p σ) = Ok (OK, mk_tp p' σ) ∧
    swept v pd (a_virt_addr v + rounded (a_length v)) p p'.
Proof. apply evict_vma_ok. Qed.

(** ** Examples *)
Module TaskPagingExample.
#[local] Opaque clear_page base_page.
Import PagingExample VmaExample.

Lemma start_pal_ok : palloc_ok (pal PagingExample.start).
Proof. by vm_compute. Qed.

Lemma handle_userspace_page_fault_correct_witness :
  let p := PagingExample.start in let pd := base_page 1 in let la := 0x40004123 in
  ∃ rc p', handle_userspace_page_fault 0x140000 pd DPL_3 [1; 2; 3] la (mk_tp p user) = Ok (rc, mk_tp p' user) ∧
    ((rc = u32 (- ERR_NOT_FOUND) ∧ p' = p ∧ ∀ a v, a ∈ [1; 2; 3] → user !! a = Some v → ¬ inside v la) ∨
     (∃ a v, a ∈ [1; 2; 3] ∧ user !! a = Some v ∧ inside v la ∧ placed v pd la rc p p' ∧
        (rc = OK ∨ rc = u32 (- ERR_OUT_OF_RESOURCE) ∨ rc = u32 (- ERR_OUT_OF_MEMORY)))).
Proof.
  apply (handle_userspace_page_fault_correct 0x140000 ltac:(by vm_compute) PagingExample.start user (base_page 1) [1; 2; 3] 0x40004123);
    [apply start_dir; by right|by left|apply start_pal_ok|apply user_ok|by vm_compute].
Defined.

Lemma userspace_evict_vma_correct_witness :
  ∃ p', userspace_evict_vma (base_page 1) [1; 2; 3] 2 (mk_tp PagingExample.start user) = Ok (OK, mk_tp p' user) ∧
    swept heap_area (base_page 1) (a_virt_addr heap_area + rounded (a_length heap_area)) PagingExample.start p'.
Proof.
  apply (userspace_evict_vma_correct PagingExample.start user (base_page 1) [1; 2; 3] 2 heap_area);
    [apply start_dir; by right|by left|apply user_ok|by right; left|done|done|by vm_compute].
Defined.

Lemma map_evict_roundtrip_witness :
  let p := PagingExample.start in let pd := base_page 1 in
  ∃ rc p1 p2,
    userspace_map_vm_area 0x140000 pd [1; 2; 3] 1 (mk_tp p user) = Ok (rc, mk_tp p1 user) ∧
    (rc = OK → ∀ va, inside text_area va → ∃ pa, translate (mem p1) pd va = Some (user_entry text_area pa)) ∧
    userspace_evict_vma pd [1; 2; 3] 1 (mk_tp p1 user) = Ok (OK, mk_tp p2 user) ∧
    (∀ va, 0 ≤ va < 4294967296 → translate (mem p2) pd va = translate (mem p) pd va) ∧
    (∀ fn, occupied (free_page_bitmap (pal p2)) fn = occupied (free_page_bitmap (pal p)) fn).
Proof.
  apply (map_evict_roundtrip 0x140000 ltac:(by vm_compute) PagingExample.start user (base_page 1) [1; 2; 3] 1 text_area);
    [apply start_dir; by right|by left|apply start_pal_ok|apply user_ok|by left|done|by vm_compute|by vm_compute|done|].
  intros va _. unfold translate, table. destruct (index_range va) as [Hi _]. rewrite start_words; [reflexivity|by right|done].
Defined.

#[local] Transparent clear_page base_page.

(** [userspace_evict_page] reclaims the page table only when the page it was
    called for is present, and [userspace_evict_vma] asks for the reclaim only
    at the last page of an area or of a page table.  Evicting a two-page area
    whose second page was never touched leaves an empty page table allocated. *)
Definition two_pages : vm_area := mk_area (a_name heap_area) 0 0 0 1 0 0 0 0x50000000 0 0x2000.

Theorem evict_leaks_page_table :
  match (on_ps (userspace_map_page (base_page 1) 0x50000000 0x300000 1 0 0) ;;
         userspace_evict_vma (base_page 1) [1] 1) (mk_tp PagingExample.start {[1 := two_pages]}) with
  | Ok (rc, s) =>
      rc = OK ∧ translate (mem (tps s)) (base_page 1) 0x50000000 = None ∧
      table (mem (tps s)) (base_page 1) (pd_index 0x50000000) = Some (base_page 2) ∧ base_used (pal (tps s)) 2 = true
  | Err _ => False
  end.
Proof. vm_compute. by split_and!. Qed.
End TaskPagingExample.
