(* ===== verification/Space.v ===== *)
(** * Address spaces of several areas

    Mapping the areas of a new task (part 2 of [load_static_elf32],
    kernel/elf.c) with the operations of TaskPaging: with enough memory every
    page of every area gets a frame of its own; the directory on the CPU; and
    remapping an area with other permissions, which keeps its frames. *)

From Stdlib Require Import ZifyNat.
From stdpp Require Import gmap list.
From S2P Require Import Prelude PageAlloc Paging Vma TaskPaging.
Open Scope Z_scope.
Open Scope zelda_scope.

Section premap.
Variable kernel_bss_end : Z.

(** mapping the areas with [pre_map] set *)
Fixpoint premap_areas (page_directory : Z) (vma_list l : list Z) : M tpstate Z :=
  match l with
  | [] => mret OK
  | a :: l =>
      v ← zoom tareas_l (load a);
      if ! a_pre_map v then premap_areas page_directory vma_list l else
      rc ← userspace_map_vm_area kernel_bss_end page_directory vma_list a;
      if negb (rc =? OK) then mret rc else premap_areas page_directory vma_list l
  end.

End premap.

(** ** Enough memory *)
#[local] Ltac Zify.zify_post_hook ::= Z.to_euclidean_division_equations.

Lemma length_remove {A} `{EqDecision A} (x : A) (l : list A) : NoDup l → (length l ≤ S (length (filter (λ y, y ≠ x) l)))%nat.
Proof.
  induction 1 as [|y l Hy Hnd IH]; [simpl; lia|]. destruct (decide (y = x)) as [->|Hne].
  - rewrite filter_cons_False by (by intros ?). rewrite filter_keeps by (by intros z Hz ->). simpl. lia.
  - rewrite filter_cons_True by done. simpl. lia.
Qed.

(** [n] elements satisfy [P]; an operation that spoils one leaves [n - 1] *)
Definition at_least {A} (n : nat) (P : A → Prop) : Prop := ∃ l, NoDup l ∧ (n ≤ length l)%nat ∧ ∀ x, x ∈ l → P x.

Lemma at_least_some {A} n (P : A → Prop) : at_least (S n) P → ∃ x, P x.
Proof. intros ([|x l] & _ & Hl & H); [simpl in Hl; lia|]. exists x. apply H. by left. Qed.

Lemma at_least_spoil {A} `{EqDecision A} n (P Q : A → Prop) x :
  at_least (S n) P → (∀ y, P y → y ≠ x → Q y) → at_least n Q.
Proof.
  intros (l & Hnd & Hl & H) HQ. exists (filter (λ y, y ≠ x) l). split_and!.
  - by apply NoDup_filter.
  - pose proof (length_remove x l Hnd). lia.
  - intros y [Hy Hin]%list_elem_of_filter. apply HQ; [by apply H|done].
Qed.

Lemma at_least_weaken {A} n n' (P Q : A → Prop) : (n' ≤ n)%nat → (∀ x, P x → Q x) → at_least n P → at_least n' Q.
Proof. intros Hn HPQ (l & Hnd & Hl & H). exists l. split_and!; [done|lia|]. intros x Hx. by apply HPQ, H. Qed.

Lemma userspace_map_page_uses p pd va pa w wt cd rc p' :
  dir_ok p pd → base_ok (pal p) → 0 ≤ pa < 4294967296 → userspace_map_page pd va pa w wt cd p = Ok (rc, p') →
  ∃ j0, ∀ j, base_used (pal p') j = true → base_used (pal p) j = true ∨ j = j0.
Proof.
  intros Hdir Hbase Hpa. unfold userspace_map_page. rewrite (dir_nonnull _ _ Hdir). mstep.
  destruct (va <? USERSPACE_BOTTOM); [rewrite ret_run; intros [= <- <-]; exists 0; by left|].
  destruct (page_table_of_ok p pd va PAGE_PERMISSION_USER Hdir Hbase) as (r & s1 & Hr & _ & _ & _ & Huse & _ & Hcase).
  rewrite (bind_ok _ _ _ _ _ Hr).
  destruct Hcase as [(-> & _)|(t & -> & Hdir1 & Ht & _)].
  { rewrite ret_run. intros [= <- <-]. exists 0. intros j Hj. destruct (Huse j Hj) as [?|?]; [by left|done]. }
  destruct (put_entry_ok s1 pd va pa t (u8 w) PAGE_PERMISSION_USER (u8 wt) (u8 cd) Hdir1 Ht Hpa) as (Hput & _).
  rewrite (bind_ok _ _ _ _ _ Hput), ret_run. intros [= <- <-]. cbn [pal set_word].
  destruct (do_table _ _ Hdir1 _ _ (proj1 (index_range va)) Ht) as [(j0 & -> & _) _]. exists j0. intros j Hj.
  destruct (Huse j Hj) as [?|[= E]]; [by left|]. right. symmetry. by apply base_page_inj.
Qed.

Section space.
Variable kernel_bss_end : Z.
Hypothesis bss_place : 0 < kernel_bss_end ≤ PAGE_SPACE_BOTTOM.

Definition free_frame_at (p : pstate) (f : Z) : Prop :=
  first_frame kernel_bss_end ≤ f ∧ 4096 * f < physical_memory_length (pal p) ∧ occupied (free_page_bitmap (pal p)) f = false.
Definition free_base_at (p : pstate) (j : Z) : Prop := 0 ≤ j < BASE_PAGES ∧ base_used (pal p) j = false.

(** frames and page tables for [n] more pages *)
Definition spare (n : nat) (p : pstate) : Prop := at_least n (free_frame_at p) ∧ at_least n (free_base_at p).

Lemma spare_weaken n n' p : (n' ≤ n)%nat → spare n p → spare n' p.
Proof. intros Hn [H1 H2]. split; by eapply at_least_weaken. Qed.

(** a page is mapped when there is memory for it *)
Lemma map_one_ok v p pd va n pa q :
  dir_ok p pd → base_ok (pal p) → palloc_ok (pal p) → USERSPACE_BOTTOM ≤ va < 4294967296 → ctrue (a_exact v) = false →
  spare (S n) p →
  zoom pal_l (get_page kernel_bss_end) p = Ok (pa, q) →
  ctrue pa = true ∧ ∃ p', userspace_map_page pd va pa (a_write_permission v) (a_page_writethrough v) (a_page_cachedisable v) q = Ok (OK, p') ∧
    placed v pd va OK p p' ∧ spare n p'.
Proof.
  intros Hdir Hbase Hpal Hva Hex [Hsf Hsb] Hget.
  pose proof (frame_for_ok kernel_bss_end bss_place v p va Hpal) as (pa' & q' & Hpa & Hq & Hsame & Hrng & Hframe).
  rewrite Hex in Hpa. cbn [negb] in Hpa. rewrite Hpa in Hget. injection Hget as -> <-.
  rewrite Hex in Hframe. cbn [negb andb] in Hframe. destruct (ctrue pa) eqn:Epa; cbn [negb] in Hframe.
  2: { destruct Hframe as [_ Hall]. destruct (at_least_some _ _ Hsf) as (f & Hf1 & Hf2 & Hf3). rewrite Hall in Hf3; done. }
  split; [done|]. destruct Hframe as [Hnew Hmod]. specialize (Hmod eq_refl).
  destruct (place_ok v p pd va pa q' Hdir Hbase Hva Hrng Hq Hsame Hnew ltac:(done)) as (rc & p' & Hr & Hcase).
  set (q1 := mk_pstate q' (mem p) (kernel_page_directory p) (cr3 p)) in *. pose proof Hsame as (Eb & Ef & El).
  assert (dir_ok q1 pd) as Hdir1 by (apply dir_ok_pal; [intros j; unfold base_used; by rewrite Eb|done]).
  assert (base_ok (pal q1)) as Hbase1 by (unfold q1, base_ok, base_cursor in *; cbn [pal]; by rewrite Ef).
  destruct (userspace_map_page_ok q1 pd va pa v Hdir1 Hbase1 Hva Hrng) as (rc' & p2 & Hr' & _ & _ & Hctl & Hcase').
  rewrite Hr in Hr'. injection Hr' as <- <-.
  assert (rc = OK) as ->.
  { destruct Hcase' as [(-> & _ & Hall)|[? _]]; [|done]. destruct (at_least_some _ _ Hsb) as (j & Hj & Hf).
    specialize (Hall j Hj). unfold q1, base_used in Hall. cbn [pal] in Hall. rewrite Eb in Hall. unfold base_used in Hf. congruence. }
  destruct Hcase as [[_ Hpl]|[? _]]; [|done]. exists p'. split_and!; [done|done|].
  destruct Hctl as (_ & _ & C3 & _ & C5). unfold new_frame in Hnew. rewrite Hex in Hnew. destruct Hnew as (_ & _ & Hocc).
  split.
  - apply (at_least_spoil n _ _ (pa / 4096) Hsf). intros f (H1 & H2 & H3) Hne. split_and!; [done|by rewrite C5; cbn [q1 pal]; rewrite El|].
    rewrite C3. cbn [q1 pal]. rewrite Hocc, H3. apply orb_false_iff. split; [by apply Z.eqb_neq|done].
  - destruct (userspace_map_page_uses q1 pd va pa _ _ _ _ p' Hdir1 Hbase1 Hrng Hr) as (j0 & Hj0).
    apply (at_least_spoil n _ _ j0 Hsb). intros j (H1 & H2) Hne. split; [done|].
    destruct (base_used (pal p') j) eqn:E; [|done]. destruct (Hj0 j E) as [E'|?]; [|done].
    unfold q1, base_used in E'. cbn [pal] in E'. rewrite Eb in E'. unfold base_used in H2. congruence.
Qed.

Lemma map_area_loop_spare fuel pd v p addr part n :
  uarea_ok v → USERSPACE_BOTTOM ≤ a_virt_addr v → ctrue (a_exact v) = false → aligned addr → a_virt_addr v ≤ addr →
  dir_ok p pd → base_ok (pal p) → palloc_ok (pal p) →
  (a_end v - addr) / 4096 + 1 < Z.of_nat fuel → 0 < Z.of_nat fuel →
  spare (n + Z.to_nat ((a_end v - addr + 4095) / 4096)) p →
  ∃ p', map_area_loop kernel_bss_end fuel pd v addr part p = Ok (OK, p') ∧ spare n p'.
Proof.
  intros Hok Hus Hex. pose proof (a_end_ok _ Hok) as Eend. pose proof Hok as (H0 & H1 & H2). rewrite Eend. unfold aligned.
  revert addr p part. induction fuel as [|fuel IH]; intros addr p part Hal Hlo Hdir Hbase Hpal Hf Hpos Hsp; [lia|].
  cbn [map_area_loop]. rewrite Eend. destruct (Z.ltb_spec addr (a_virt_addr v + a_length v)) as [Hlt|Hge].
  2: { exists p. split; [done|]. eapply spare_weaken; [|exact Hsp]. lia. }
  rewrite (u32_small addr) by lia. rewrite Hex. cbn [negb andb].
  destruct (frame_for_ok kernel_bss_end bss_place v p addr Hpal) as (pa & q & Hpa & _). rewrite Hex in Hpa. cbn [negb] in Hpa.
  rewrite (bind_ok _ _ _ _ _ Hpa).
  set (k := Z.to_nat ((a_virt_addr v + a_length v - (addr + 4096) + 4095) / 4096)).
  assert (spare (S (n + k)) p) as Hsp' by (eapply spare_weaken; [|exact Hsp]; lia).
  destruct (map_one_ok v p pd addr (n + k) pa _ Hdir Hbase Hpal ltac:(lia) Hex Hsp' Hpa) as (Epa & p' & Hr & Hpl & Hsp1).
  rewrite Epa. cbn [negb]. rewrite (bind_ok _ _ _ _ _ Hr). change (negb (OK =? OK)) with false. cbn iota.
  unfold PAGE_SIZE. rewrite u64_small by lia.
  apply IH; [lia|lia|by eapply pl_dir|by eapply pl_base|by eapply pl_pal|lia|lia|done].
Qed.
End space.

(** ** An address space of several areas *)
Definition frame_of (p : pstate) (pd va : Z) : option Z := (λ e, pg_frame (PTE32_PTR e)) <$> translate (mem p) pd va.

(** an area of whole user pages with frames of its own *)
Record user_pages (v : vm_area) : Prop := {
  up_ok : uarea_ok v;
  up_user : USERSPACE_BOTTOM ≤ a_virt_addr v;
  up_aligned : aligned (a_virt_addr v);
  up_length : a_length v mod 4096 = 0;
  up_own : ctrue (a_exact v) = false }.

(** the pages of the areas [vs] are mapped in [pd], each to a frame of its own *)
Record space (pd : Z) (vs : list vm_area) (p0 p : pstate) : Prop := {
  sp_dir : dir_ok p pd;
  sp_base : base_ok (pal p);
  sp_pal : palloc_ok (pal p);
  sp_kernel : kernel_page_directory p = kernel_page_directory p0;
  sp_cr3 : cr3 p = cr3 p0;
  sp_ext : extends pd p0 p;
  sp_page : ∀ v va, v ∈ vs → inside v va → ∃ pa, 0 ≤ pa < 4294967296 ∧ translate (mem p) pd va = Some (user_entry v pa);
  sp_used : ∀ v va f, v ∈ vs → inside v va → frame_of p pd va = Some f → occupied (free_page_bitmap (pal p)) f = true;
  sp_fresh : ∀ v va f, v ∈ vs → inside v va → frame_of p pd va = Some f → occupied (free_page_bitmap (pal p0)) f = false;
  sp_mono : ∀ f, occupied (free_page_bitmap (pal p0)) f = true → occupied (free_page_bitmap (pal p)) f = true;
  sp_inj : ∀ v w va wa f, v ∈ vs → w ∈ vs → inside v va → inside w wa →
    frame_of p pd va = Some f → frame_of p pd wa = Some f → va / 4096 = wa / 4096 }.

Lemma space_nil pd p : dir_ok p pd → base_ok (pal p) → palloc_ok (pal p) → space pd [] p p.
Proof.
  intros Hd Hb Hp. split; try done; [apply extends_refl|..]; intros; by match goal with H : _ ∈ [] |- _ => apply not_elem_of_nil in H end.
Qed.

Lemma gives_back_frame v pd p va f : ctrue (a_exact v) = false → gives_back v (translate (mem p) pd va) f = true ↔ frame_of p pd va = Some f.
Proof.
  intros Hex. unfold gives_back, frame_of. rewrite Hex. destruct (translate (mem p) pd va) as [e|]; simpl; [|done].
  rewrite Z.eqb_eq. split; [by intros ->|by intros [= ->]].
Qed.

(** one more area *)
Lemma space_step pd vs v p0 p p' :
  user_pages v → (∀ w, w ∈ vs → user_pages w ∧ disjoint_uareas v w) →
  space pd vs p0 p → filled v pd (a_virt_addr v + a_length v) p p' → space pd (vs ++ [v]) p0 p'.
Proof.
  intros [Hok Hus Hal Hlen Hown] Hvs Hs Hf. pose proof Hok as (H0 & H1 & H2). set (hi := a_virt_addr v + a_length v) in *.
  assert (∀ w va, w ∈ vs → inside w va → translate (mem p') pd va = translate (mem p) pd va) as Hold.
  { intros w va Hw Hin. destruct (Hvs w Hw) as [[Hokw _ _ _ _] Hd]. destruct Hokw as (W0 & W1 & W2). unfold inside, disjoint_uareas in *.
    apply (fi_other _ _ _ _ _ Hf); lia. }
  assert (∀ w va f, w ∈ vs → inside w va → frame_of p' pd va = Some f → occupied (free_page_bitmap (pal p)) f = true) as Hoccold.
  { intros w va f Hw Hin Hfr. eapply (sp_used _ _ _ _ Hs); [exact Hw|exact Hin|]. unfold frame_of in *. by rewrite <-(Hold w). }
  assert (∀ va f, inside v va → frame_of p' pd va = Some f → occupied (free_page_bitmap (pal p)) f = false) as Hfresh.
  { intros va f Hin Hfr. apply (fi_fresh _ _ _ _ _ Hf f va); [exact Hin|]. by apply gives_back_frame. }
  assert (∀ f, occupied (free_page_bitmap (pal p)) f = true → occupied (free_page_bitmap (pal p')) f = true) as Hmono.
  { intros f Hocc. destruct (gives_back_dec v pd p' hi f) as [(va & Hva & Hg)|Hno].
    - by rewrite (fi_fresh _ _ _ _ _ Hf f va Hva Hg) in Hocc.
    - by rewrite (fi_kept _ _ _ _ _ Hf f Hno). }
  split; try (by apply Hf).
  - rewrite (fi_kernel _ _ _ _ _ Hf). apply Hs.
  - rewrite (fi_cr3 _ _ _ _ _ Hf). apply Hs.
  - eapply extends_trans; [apply Hs|apply Hf].
  - intros w va [Hw|Hw%list_elem_of_singleton]%elem_of_app Hin.
    + rewrite (Hold w) by done. by apply (sp_page _ _ _ _ Hs).
    + subst w. destruct (fi_mapped _ _ _ _ _ Hf va) as (pa & Hpa & Htr & _); [done|]. by exists pa.
  - intros w va f [Hw|Hw%list_elem_of_singleton]%elem_of_app Hin Hfr.
    + apply Hmono. by eapply Hoccold.
    + subst w. apply (fi_used _ _ _ _ _ Hf f va); [done|]. by apply gives_back_frame.
  - intros w va f [Hw|Hw%list_elem_of_singleton]%elem_of_app Hin Hfr.
    + eapply (sp_fresh _ _ _ _ Hs w va f); [done..|]. unfold frame_of in *. by rewrite <-(Hold w va).
    + subst w. pose proof (Hfresh va f Hin Hfr) as Hno. destruct (occupied (free_page_bitmap (pal p0)) f) eqn:E; [|done].
      by rewrite (sp_mono _ _ _ _ Hs f E) in Hno.
  - intros f Hocc. by apply Hmono, (sp_mono _ _ _ _ Hs).
  - intros w w' va wa f [Hw|Hw%list_elem_of_singleton]%elem_of_app [Hw'|Hw'%list_elem_of_singleton]%elem_of_app Hin Hin' Hfr Hfr'; subst.
    + eapply (sp_inj _ _ _ _ Hs w w' va wa f); [done..| |]; unfold frame_of in *;
        [by rewrite <-(Hold w va)|by rewrite <-(Hold w' wa)].
    + pose proof (Hoccold w va f Hw Hin Hfr). pose proof (Hfresh wa f Hin' Hfr'). congruence.
    + pose proof (Hoccold w' wa f Hw' Hin' Hfr'). pose proof (Hfresh va f Hin Hfr). congruence.
    + apply (fi_inj _ _ _ _ _ Hf f); [done|done|by apply gives_back_frame..].
Qed.

(** the areas of [l] that are to be mapped at once *)
Definition premapped (σ : areas) (l : list Z) : list vm_area :=
  omap (λ a, match σ !! a with Some v => if ctrue (a_pre_map v) then Some v else None | None => None end) l.

Lemma premapped_cons σ a l v :
  σ !! a = Some v → premapped σ (a :: l) = if ctrue (a_pre_map v) then v :: premapped σ l else premapped σ l.
Proof. intros Hv. unfold premapped. cbn [omap list_omap]. rewrite Hv. by destruct (ctrue (a_pre_map v)). Qed.

Lemma premapped_elem σ l v : v ∈ premapped σ l → ∃ a, a ∈ l ∧ σ !! a = Some v.
Proof.
  intros (a & Ha & E)%list_elem_of_omap. exists a. split; [done|]. destruct (σ !! a) as [w|]; [|done].
  destruct (ctrue (a_pre_map w)); [|done]. congruence.
Qed.

Definition page_count (v : vm_area) : nat := Z.to_nat (a_length v / 4096).

Lemma premap_areas_ok bss σ pd l0 l vs p0 p n :
  0 < bss ≤ PAGE_SPACE_BOTTOM → uareas_ok σ l0 → (∀ a, a ∈ l → a ∈ l0) → NoDup l →
  (∀ v, v ∈ premapped σ l → user_pages v) →
  (∀ v w, v ∈ vs → w ∈ premapped σ l → disjoint_uareas w v) → (∀ v, v ∈ vs → user_pages v) →
  space pd vs p0 p → spare bss (n + sum_list (page_count <$> premapped σ l)) p →
  ∃ p', premap_areas bss pd l0 l (mk_tp p σ) = Ok (OK, mk_tp p' σ) ∧ space pd (vs ++ premapped σ l) p0 p' ∧ spare bss n p'.
Proof.
  intros Hbss Hua. revert vs p. induction l as [|a l IH]; intros vs p Hin Hnd Hup Hdis Hvs Hs Hsp; cbn [premap_areas].
  { exists p. rewrite app_nil_r. split_and!; [done|done|]. eapply spare_weaken; [|exact Hsp]. simpl. lia. }
  destruct (ua_area _ _ Hua a) as (v & Hv & Hok); [apply Hin; by left|]. apply NoDup_cons in Hnd as [Hna Hnd].
  rewrite (bind_ok _ _ _ v (mk_tp p σ)) by (apply (zoom_ok tareas_l); by apply load_ok).
  rewrite (premapped_cons _ _ _ _ Hv) in Hup, Hdis, Hsp |- *. destruct (ctrue (a_pre_map v)) eqn:Epre; cbn [negb].
  2: { apply IH; [intros b Hb; apply Hin; by right|done..]. }
  assert (user_pages v) as Hupv by (apply Hup; by left). pose proof Hupv as [_ Hus Hal Hlen Hown].
  pose proof Hok as (H0 & H1 & H2). pose proof (a_end_ok _ Hok) as Eend.
  destruct (map_vm_area_ok bss Hbss p σ pd l0 a v) as (rc & hi & p1 & Hr & Hfi & Hhial & Hhi & Hcase); try done;
    [apply Hs|apply Hs|apply Hs|apply Hin; by left|].
  rewrite fmap_cons in Hsp. cbn [sum_list] in Hsp.
  destruct (map_area_loop_spare bss Hbss (frames (a_virt_addr v) (a_end v)) pd v p (a_virt_addr v) false
              (n + sum_list (page_count <$> premapped σ l))) as (p2 & Hr2 & Hsp2); try done; try apply Hs; try lia.
  { unfold frames, PAGE_SIZE. assert (0 ≤ (a_end v - a_virt_addr v) / 4096) by (apply Z.div_pos; lia). lia. }
  { eapply spare_weaken; [|exact Hsp]. unfold page_count at 2. rewrite Eend. simpl. lia. }
  assert (rc = OK ∧ p1 = p2) as [-> ->].
  { unfold userspace_map_vm_area, vma_in_task in Hr. rewrite bool_decide_true in Hr by (apply Hin; by left). cbn [negb] in Hr.
    rewrite (bind_ok _ _ _ v (mk_tp p σ)) in Hr by (apply (zoom_ok tareas_l); by apply load_ok).
    unfold on_ps in Hr. rewrite (zoom_ok tps_l _ (mk_tp p σ) _ _ Hr2) in Hr. by injection Hr as <- <-. }
  rewrite (bind_ok _ _ _ _ _ Hr). change (negb (OK =? OK)) with false. cbn iota.
  destruct Hcase as [[_ Hge]|[?|?]]; [|done|done].
  assert (hi = a_virt_addr v + a_length v) as -> by (unfold aligned in *; lia).
  destruct (IH (vs ++ [v]) p2) as (p' & Hr' & Hs' & Hsp').
  - intros b Hb. apply Hin. by right.
  - done.
  - intros w Hw. apply Hup. by right.
  - intros w w' [Hw|Hw%list_elem_of_singleton]%elem_of_app Hw'; [apply Hdis; [done|by right]|].
    subst w. apply premapped_elem in Hw' as (b & Hb & Eb).
    apply (ua_disjoint _ _ Hua b a w' v); [apply Hin; by right|apply Hin; by left|by intros ->|done|done].
  - intros w [Hw|Hw%list_elem_of_singleton]%elem_of_app; [by apply Hvs|by subst w].
  - apply (space_step _ _ _ _ p); [done| |done|done]. intros w Hw. split; [by apply Hvs|]. apply Hdis; [done|by left].
  - done.
  - exists p'. rewrite Hr', <-app_assoc in *. done.
Qed.

(** ** The address space on the CPU *)
Definition kernel_words (s : pstate) : Prop := (∃ i, kernel_page_directory s = base_page i) ∧ has_page (mem s) (kernel_page_directory s).

(** a directory [enable_task_paging] can copy: none, or the words of another base page *)
Definition copyable (s : pstate) (src : Z) : Prop :=
  src = 0 ∨ (∃ i, src = base_page i) ∧ src ≠ kernel_page_directory s ∧ has_page (mem s) src.

Lemma copy_directory_ok s src :
  kernel_words s → copyable s src →
  let kpd := kernel_page_directory s in
  ∃ m', copy_entries (Z.to_nat (1024 - directory_index_top)) directory_index_top src kpd s = Ok ((), mk_pstate (pal s) m' kpd (cr3 s)) ∧
    (∀ k, 256 ≤ k < 1024 → m' !! (kpd + 4 * k) = if ctrue src then mem s !! (src + 4 * k) else Some 0) ∧
    (∀ a, (∀ k, 256 ≤ k < 1024 → a ≠ kpd + 4 * k) → m' !! a = mem s !! a) ∧
    (∀ a, is_Some (mem s !! a) → is_Some (m' !! a)).
Proof.
  intros [Hk Hw] Hsrc kpd. change (Z.to_nat (1024 - directory_index_top)) with 768%nat. change directory_index_top with 256.
  destruct (copy_entries_ok 768 256 src kpd s Hk Hw Hsrc) as (m' & Hr & Hin & Hout); [lia|lia|].
  exists m'. split_and!; [done|intros k Hk'; apply Hin; lia|intros a Ha; apply Hout; intros k Hk'; apply Ha; lia|].
  intros a Ha. destruct (decide (256 ≤ (a - kpd) / 4 < 1024 ∧ (a - kpd) mod 4 = 0)) as [Hk'|Hno].
  - replace a with (kpd + 4 * ((a - kpd) / 4)) by lia. rewrite Hin by lia. destruct (ctrue src) eqn:E; [|by eexists]. apply ctrue_true in E.
    destruct Hsrc as [->|(_ & _ & Hs)]; [done|]. apply Hs. lia.
  - rewrite Hout; [done|]. intros k Hk' ->. apply Hno. lia.
Qed.

Lemma enable_task_paging_run s src :
  kernel_words s → copyable s src → ∃ m', enable_task_paging src s = Ok (OK, mk_pstate (pal s) m' (kernel_page_directory s) (kernel_page_directory s)) ∧
    let kpd := kernel_page_directory s in
    (∀ k, 256 ≤ k < 1024 → m' !! (kpd + 4 * k) = if ctrue src then mem s !! (src + 4 * k) else Some 0) ∧
    (∀ a, (∀ k, 256 ≤ k < 1024 → a ≠ kpd + 4 * k) → m' !! a = mem s !! a) ∧
    (∀ a, is_Some (mem s !! a) → is_Some (m' !! a)).
Proof.
  intros Hk Hsrc. destruct (copy_directory_ok s src Hk Hsrc) as (m' & Hr & H). exists m'. split; [|exact H].
  unfold enable_task_paging, get_kernel_page_directory. mstep. rewrite (bind_ok _ _ _ _ _ Hr). unfold load_cr3. by mstep.
Qed.

Lemma enable_kernel_paging_run s :
  kernel_words s → ∃ m', enable_kernel_paging s = Ok ((), mk_pstate (pal s) m' (kernel_page_directory s) (kernel_page_directory s)) ∧
    let kpd := kernel_page_directory s in
    (∀ a, (∀ k, 256 ≤ k < 1024 → a ≠ kpd + 4 * k) → m' !! a = mem s !! a) ∧
    (∀ a, is_Some (mem s !! a) → is_Some (m' !! a)).
Proof.
  intros Hk. destruct (copy_directory_ok s 0 Hk) as (m' & Hr & _ & H2 & H3); [by left|]. exists m'. split; [|by split].
  unfold enable_kernel_paging, get_kernel_page_directory. mstep. rewrite (bind_ok _ _ _ _ _ Hr). done.
Qed.

(** a directory whose tables are not the kernel directory *)
Record separate (s : pstate) (pd : Z) : Prop := {
  sep_dir : dir_ok s pd;
  sep_kernel : kernel_words s;
  sep_ne : pd ≠ kernel_page_directory s;
  sep_tables : ∀ k t, 0 ≤ k < 1024 → table (mem s) pd k = Some t → t ≠ kernel_page_directory s }.

(** writing to the kernel directory changes no word of a separate one *)
Lemma separate_words s pd (m' : gmap Z Z) :
  separate s pd → (∀ a, (∀ k, 256 ≤ k < 1024 → a ≠ kernel_page_directory s + 4 * k) → m' !! a = mem s !! a) →
  (∀ k, 0 ≤ k < 1024 → m' !! (pd + 4 * k) = mem s !! (pd + 4 * k)) ∧
  (∀ i t k, 0 ≤ i < 1024 → 0 ≤ k < 1024 → table (mem s) pd i = Some t → m' !! (t + 4 * k) = mem s !! (t + 4 * k)).
Proof.
  intros [Hdir [[ki Eki] _] Hne Htab] Hout. rewrite Eki in *.
  assert (∀ j k, 0 ≤ k < 1024 → base_page j ≠ base_page ki → m' !! (base_page j + 4 * k) = mem s !! (base_page j + 4 * k)) as H.
  { intros j k Hk Hj. apply Hout. intros k' Hk' E. apply base_page_words in E as [-> _]; (done || lia). }
  split.
  - intros k Hk. destruct (table_page_base _ _ (do_pd _ _ Hdir)) as [j ->]. by apply H.
  - intros i t k Hi Hk Ht. destruct (do_table _ _ Hdir _ _ Hi Ht) as [Htp _]. destruct (table_page_base _ _ Htp) as [j ->].
    apply H; [done|]. by apply (Htab i).
Qed.

Lemma separate_kept s pd (m' : gmap Z Z) c :
  separate s pd → (∀ a, (∀ k, 256 ≤ k < 1024 → a ≠ kernel_page_directory s + 4 * k) → m' !! a = mem s !! a) →
  (∀ a, is_Some (mem s !! a) → is_Some (m' !! a)) →
  let s' := mk_pstate (pal s) m' (kernel_page_directory s) c in
  separate s' pd ∧ (∀ k, 0 ≤ k < 1024 → table m' pd k = table (mem s) pd k) ∧ ∀ va, translate m' pd va = translate (mem s) pd va.
Proof.
  intros Hsep Hout Hsome s'. destruct (separate_words s pd m' Hsep Hout) as [Hpd Htw]. destruct Hsep as [Hdir Hk Hne Htab].
  assert (∀ k, 0 ≤ k < 1024 → table m' pd k = table (mem s) pd k) as Htab'.
  { intros k Hk'. unfold table. by rewrite Hpd. }
  assert (∀ q, table_page s q → table_page s' q) as Hkeep.
  { intros q (j & -> & Hj & Hu & Hw). exists j. split_and!; [done|lia|lia|done|]. intros k Hk'. by apply Hsome, Hw. }
  split_and!; [split|done|].
  - destruct Hdir as [H1 H2 H3]. split; [by apply Hkeep| |].
    + intros k t Hk'. cbn [mem s']. rewrite Htab' by done. intros Ht. destruct (H2 _ _ Hk' Ht). split; [by apply Hkeep|done].
    + intros k1 k2 t Hk1 Hk2. cbn [mem s']. rewrite !Htab' by done. by apply H3.
  - destruct Hk as [? Hw]. split; [done|]. intros k Hk'. by apply Hsome, Hw.
  - done.
  - intros k t Hk'. cbn [mem s']. rewrite Htab' by done. by apply Htab.
  - intros va. unfold translate. destruct (index_range va) as [Hi Hj]. rewrite Htab' by done.
    destruct (table (mem s) pd (pd_index va)) as [t|] eqn:Et; [|done]. by rewrite (Htw _ _ _ Hi Hj Et).
Qed.

(** [pd] is the user part of the directory in CR3 *)
Record on_cpu (s : pstate) (pd : Z) : Prop := {
  oc_sep : separate s pd;
  oc_cr3 : cr3 s = kernel_page_directory s;
  oc_shared : ∀ k, 256 ≤ k < 1024 → table (mem s) (cr3 s) k = table (mem s) pd k }.

Lemma on_cpu_translate s pd va :
  on_cpu s pd → USERSPACE_BOTTOM ≤ va < 4294967296 → translate (mem s) (cr3 s) va = translate (mem s) pd va.
Proof.
  intros [_ _ Hsh] Hva. unfold translate. destruct (index_range va) as [Hi _].
  rewrite Hsh; [done|]. assert (256 ≤ pd_index va) by (apply pd_index_user; unfold USERSPACE_BOTTOM in *; lia). lia.
Qed.

Lemma task_switch_ok s pd :
  separate s pd → ∃ s', enable_task_paging pd s = Ok (OK, s') ∧ on_cpu s' pd ∧ pal s' = pal s ∧
    kernel_page_directory s' = kernel_page_directory s ∧ (∀ va, translate (mem s') pd va = translate (mem s) pd va) ∧
    (∀ a, is_Some (mem s !! a) → is_Some (mem s' !! a)).
Proof.
  intros Hsep. pose proof Hsep as [Hdir Hk Hne Htab]. pose proof (do_pd _ _ Hdir) as (i & Ei & Hi & Hu & Hw).
  assert (copyable s pd) as Hc by (right; split_and!; [by exists i|done|done]).
  destruct (enable_task_paging_run s pd Hk Hc) as (m' & Hr & Hin & Hout & Hsome).
  rewrite (dir_nonnull _ _ Hdir) in Hin. set (kpd := kernel_page_directory s) in *.
  destruct (separate_kept s pd m' kpd Hsep Hout Hsome) as (Hsep' & Ht & Htr).
  destruct (separate_words s pd m' Hsep Hout) as [Hpd _].
  eexists. split; [exact Hr|]. cbn [mem pal cr3 kernel_page_directory]. split_and!; [|done|done|done|done].
  split; [done|done|]. intros k Hk'. cbn [mem cr3]. rewrite Ht by lia. unfold table. by rewrite Hin.
Qed.

(** a write into a page table of [pd] *)
Lemma on_cpu_write s pd va t e :
  on_cpu s pd → table (mem s) pd (pd_index va) = Some t → on_cpu (set_word s (t + 4 * pt_index va) e) pd.
Proof.
  intros [[Hdir [[ki Eki] Hw] Hne Htab] Hcr3 Hsh] Ht. destruct (index_range va) as [Hi Hj].
  destruct (set_entry_ok s pd va t e Hdir Ht) as (_ & Hdir' & _ & _ & Ht').
  destruct (do_table _ _ Hdir _ _ Hi Ht) as [Htp _]. destruct (table_page_base _ _ Htp) as [j Ej].
  assert (∀ k, 0 ≤ k < 1024 → table (mem (set_word s (t + 4 * pt_index va) e)) (cr3 s) k = table (mem s) (cr3 s) k) as Hk.
  { intros k Hk. unfold table. cbn [mem set_word]. rewrite lookup_insert_ne; [done|]. rewrite Hcr3, Eki, Ej. intros E.
    apply base_page_words in E as [-> _]; [|lia|lia]. apply (Htab _ _ Hi Ht). by rewrite Ej. }
  split; [split|done|].
  - done.
  - split; [by exists ki|]. cbn [mem set_word]. by apply has_page_insert.
  - done.
  - intros k t' Hk'. rewrite Ht' by done. by apply Htab.
  - intros k Hk'. cbn [cr3 set_word]. rewrite Hk, Ht' by lia. by apply Hsh.
Qed.

(** ** Remapping an area *)
Definition reperm (v : vm_area) (e : Z) : Z := user_entry v (4096 * pg_frame (PTE32_PTR e)).

(** the flags of an area are single bits *)
Definition flags_ok (v : vm_area) : Prop :=
  0 ≤ a_write_permission v < 2 ∧ 0 ≤ a_page_writethrough v < 2 ∧ 0 ≤ a_page_cachedisable v < 2.

Lemma remap_entry v e :
  flags_ok v →
  create_pte32 (a_write_permission v) PAGE_PERMISSION_USER (a_page_writethrough v) (a_page_cachedisable v)
    (Z.shiftl (pg_frame (PTE32_PTR e)) 12) = reperm v e.
Proof.
  intros (H1 & H2 & H3). unfold reperm, user_entry. rewrite frame_addr. unfold u8. by rewrite !Z.mod_small by lia.
Qed.

Lemma reperm_present v e : present (PTE32_PTR (reperm v e)) = 1 ∧ pg_frame (PTE32_PTR (reperm v e)) = pg_frame (PTE32_PTR e).
Proof.
  pose proof (frame_range e). unfold reperm, user_entry. rewrite create_pte32_fields by lia. cbn [present pg_frame]. split; [done|].
  rewrite Z.mul_comm, Z.div_mul by lia. done.
Qed.

Lemma remap_loop_ok fuel pd v p addr :
  uarea_ok v → USERSPACE_BOTTOM ≤ a_virt_addr v → aligned (a_virt_addr v) → a_length v mod 4096 = 0 → flags_ok v →
  aligned addr → a_virt_addr v ≤ addr → on_cpu p pd →
  (∀ va, addr ≤ va < a_virt_addr v + a_length v → is_Some (translate (mem p) pd va)) →
  (a_end v - addr) / 4096 + 1 < Z.of_nat fuel → 0 < Z.of_nat fuel →
  ∃ p', remap_loop fuel pd v addr p = Ok ((), p') ∧ on_cpu p' pd ∧ pal p' = pal p ∧ kernel_page_directory p' = kernel_page_directory p ∧
    (∀ va, 0 ≤ va < 4294967296 → translate (mem p') pd va =
       if decide (addr ≤ va < a_virt_addr v + a_length v) then reperm v <$> translate (mem p) pd va else translate (mem p) pd va) ∧
    (∀ a, is_Some (mem p !! a) → is_Some (mem p' !! a)).
Proof.
  intros Hok Hus Hal Hlen Hfl. pose proof (a_end_ok _ Hok) as Eend. pose proof Hok as (H0 & H1 & H2). rewrite Eend.
  set (hi := a_virt_addr v + a_length v) in *. unfold aligned in *. unfold USERSPACE_BOTTOM in Hus.
  revert addr p. induction fuel as [|fuel IH]; intros addr p Hala Hlo Hoc Hpres Hf Hpos; [lia|]. cbn [remap_loop]. rewrite Eend.
  destruct (Z.ltb_spec addr hi) as [Hlt|Hge].
  2: { exists p. split_and!; try done. intros va Hva. by rewrite decide_False by lia. }
  destruct (Hpres addr) as [e He]; [lia|]. pose proof Hoc as [[Hdir _ _ _] _ _]. destruct (index_range addr) as [Hi Hj].
  pose proof (do_pd _ _ Hdir) as (i0 & Epd & _ & _ & Hw). destruct (Hw _ Hi) as [d Hd]. rewrite (read_word_run _ _ _ _ Hd).
  unfold translate in He. pose proof (table_lookup _ _ _ _ Hd) as Ht. destruct (ctrue (pd_present (PDE32_PTR d))); [|by rewrite Ht in He].
  rewrite Ht in He. set (t := Z.shiftl (pt_frame (PDE32_PTR d)) 12) in *. destruct (mem p !! (t + 4 * pt_index addr)) as [e'|] eqn:Ee; [|done].
  destruct (ctrue (present (PTE32_PTR e'))) eqn:Epr; [|done]. injection He as ->. mstep. rewrite (read_word_run _ _ _ _ Ee), Epr. mstep.
  rewrite (remap_entry v e Hfl). destruct (set_entry_ok p pd addr t (reperm v e) Hdir Ht) as (Hsome & Hdir1 & Htr1 & Hoth1 & _).
  rewrite write_word_run by done. set (p1 := set_word p (t + 4 * pt_index addr) (reperm v e)) in *.
  rewrite (proj1 (reperm_present v e)) in Htr1. change (ctrue 1) with true in Htr1. cbn iota in Htr1.
  assert (∀ va, 0 ≤ va < 4294967296 → translate (mem p1) pd va =
    if decide (va / 4096 = addr / 4096) then reperm v <$> translate (mem p) pd va else translate (mem p) pd va) as Htr.
  { intros va Hva. case_decide as E.
    - rewrite !(translate_same_page _ _ _ _ E), Htr1. unfold translate. rewrite Ht, Ee, Epr. done.
    - apply Hoth1. apply other_page; (lia || done). }
  unfold PAGE_SIZE. rewrite u64_small by lia.
  destruct (IH (addr + 4096) p1) as (p' & Hr & Hoc' & Hpal & Hkpd & Htr' & Hk).
  - lia.
  - lia.
  - by apply on_cpu_write.
  - intros va Hva. rewrite Htr by lia. case_decide; [apply fmap_is_Some|]; apply Hpres; lia.
  - lia.
  - lia.
  - exists p'. split_and!; [done|done|done|done| |].
    + intros va Hva. rewrite Htr', Htr by lia. repeat case_decide; (done || lia).
    + intros a Ha. apply Hk. cbn [mem set_word p1]. apply lookup_insert_is_Some'. by right.
Qed.


Definition no_area : vm_area := mk_area [] 0 0 0 0 0 0 0 0 0 0.

Lemma phys_of_frame e va : phys_of e va = 4096 * pg_frame (PTE32_PTR e) + va mod 4096.
Proof.
  pose proof (frame_range e). destruct (reperm_present no_area e) as [_ E].
  assert (phys_of e va = phys_of (reperm no_area e) va) as -> by (unfold phys_of; by rewrite E).
  unfold reperm, user_entry. rewrite phys_of_create by lia. lia.
Qed.

