(* ===== verification/Task.v ===== *)
(** * Tasks: states, wait queues and signals

    kernel/task.c (states, task table), kernel/wait_queue.c, kernel/work_queue.c,
    kernel/task_signal.c and the system calls of kernel/task_misc.c that send or
    catch signals.

    A task is a record in a store from addresses to tasks.  The linked lists a
    task can be on are sequences of addresses (DList shows that the list
    operations implement them); the hash table of tasks is a map from task id to
    address (HashTable).  [yield_cpu] hands the CPU over: an operation that
    yields ends there, and what it does when the task runs again is a second
    definition.  Calls of [free] are recorded in [heap_frees]. *)

From stdpp Require Import gmap list.
From S2P Require Import Prelude PageAlloc Paging Vma TaskPaging.
Open Scope Z_scope.
Open Scope zelda_scope.

Inductive task_state :=
  TASK_STATE_ZOMBIE | TASK_STATE_RUNNING | TASK_STATE_INTERRUPTIBLE
| TASK_STATE_UNINTERRUPTIBLE | TASK_STATE_EXITING.

#[global] Instance task_state_eq_dec : EqDecision task_state.
Proof. solve_decision. Defined.

(** [valid], [signaled] and [overridable] are one-bit fields, tested for truth only *)
Record signal_entry := mk_sig {
  valid : bool; signaled : bool; overridable : bool; action : Z; user_entry_point : Z }.

Definition SIG_ACTION_EXIT : Z := 0.
Definition SIG_ACTION_IGNORE : Z := 1.
Definition SIG_ACTION_STOP : Z := 2.
Definition SIG_ACTION_CONTINUE : Z := 3.
Definition SIG_ACTION_USER : Z := 4.

Definition SIG_INVALID : Z := 0.
Definition SIGHUP : Z := 1.
Definition SIGINT : Z := 2.
Definition SIGQUIT : Z := 3.
Definition SIGILL : Z := 4.
Definition SIGFPE : Z := 8.
Definition SIGKILL : Z := 9.
Definition SIGSEGV : Z := 11.
Definition SIGSYS : Z := 12.
Definition SIGPIPE : Z := 13.
Definition SIGALARM : Z := 14.
Definition SIGTERM : Z := 15.
Definition SIGUSR1 : Z := 16.
Definition SIGUSR2 : Z := 17.
Definition SIGSTOP : Z := 23.
Definition SIGTSTP : Z := 24.
Definition SIGCONT : Z := 25.
Definition SIGTTIN : Z := 26.
Definition SIGTTOU : Z := 27.
Definition SIG_MAX : Z := 28.

Record file_entry := mk_fe { fe_file : Z; fe_offset : Z; fe_valid : bool; fe_writable : bool }.

Record x86_cpustate := mk_cpu {
  edi : Z; esi : Z; ebp : Z; ebx : Z; edx : Z; ecx : Z; eax : Z; gs : Z; fs : Z; es : Z; ds : Z;
  vector : Z; errorcode : Z; eip : Z; cs : Z; eflags : Z; esp : Z; ss : Z }.
(** [sizeof(struct x86_cpustate)] *)
Definition CPUSTATE_SIZE : Z := 72.

(** the length of [file_entries] *)
Definition MAX_FILE_DESCRIPTR_PER_TASK : Z := 256.

Record task := mk_task {
  task_id : Z;
  state : task_state;
  non_stop_state : task_state;
  interrupt_depth : Z;
  cpu : Z;
  signaled_cpu : Z;
  signal_scheduled : Z;
  signal_pending : Z;
  schedule_counter : Z;
  exit_code : Z;
  sig_entries : list signal_entry;
  wq_termination : list Z;
  file_entries : list file_entry;
  vma_list : list Z;
  page_directory : Z;
  privilege_level : Z;
  privilege_level0_stack : Z;
  signaled_privilege_level0_stack : Z;
  privilege_level0_stack_top : Z;
  signaled_privilege_level0_stack_top : Z;
  entry : Z }.

Definition set_state (x : task_state) (t : task) : task :=
  mk_task (task_id t) x (non_stop_state t) (interrupt_depth t) (cpu t) (signaled_cpu t) (signal_scheduled t)
    (signal_pending t) (schedule_counter t) (exit_code t) (sig_entries t) (wq_termination t) (file_entries t)
    (vma_list t) (page_directory t) (privilege_level t) (privilege_level0_stack t) (signaled_privilege_level0_stack t)
    (privilege_level0_stack_top t) (signaled_privilege_level0_stack_top t) (entry t).
Definition set_non_stop_state (x : task_state) (t : task) : task :=
  mk_task (task_id t) (state t) x (interrupt_depth t) (cpu t) (signaled_cpu t) (signal_scheduled t) (signal_pending t)
    (schedule_counter t) (exit_code t) (sig_entries t) (wq_termination t) (file_entries t) (vma_list t)
    (page_directory t) (privilege_level t) (privilege_level0_stack t) (signaled_privilege_level0_stack t)
    (privilege_level0_stack_top t) (signaled_privilege_level0_stack_top t) (entry t).
Definition set_interrupt_depth (x : Z) (t : task) : task :=
  mk_task (task_id t) (state t) (non_stop_state t) x (cpu t) (signaled_cpu t) (signal_scheduled t) (signal_pending t)
    (schedule_counter t) (exit_code t) (sig_entries t) (wq_termination t) (file_entries t) (vma_list t)
    (page_directory t) (privilege_level t) (privilege_level0_stack t) (signaled_privilege_level0_stack t)
    (privilege_level0_stack_top t) (signaled_privilege_level0_stack_top t) (entry t).
Definition set_cpu (x : Z) (t : task) : task :=
  mk_task (task_id t) (state t) (non_stop_state t) (interrupt_depth t) x (signaled_cpu t) (signal_scheduled t)
    (signal_pending t) (schedule_counter t) (exit_code t) (sig_entries t) (wq_termination t) (file_entries t)
    (vma_list t) (page_directory t) (privilege_level t) (privilege_level0_stack t) (signaled_privilege_level0_stack t)
    (privilege_level0_stack_top t) (signaled_privilege_level0_stack_top t) (entry t).
Definition set_signaled_cpu (x : Z) (t : task) : task :=
  mk_task (task_id t) (state t) (non_stop_state t) (interrupt_depth t) (cpu t) x (signal_scheduled t)
    (signal_pending t) (schedule_counter t) (exit_code t) (sig_entries t) (wq_termination t) (file_entries t)
    (vma_list t) (page_directory t) (privilege_level t) (privilege_level0_stack t) (signaled_privilege_level0_stack t)
    (privilege_level0_stack_top t) (signaled_privilege_level0_stack_top t) (entry t).
Definition set_signal_scheduled (x : Z) (t : task) : task :=
  mk_task (task_id t) (state t) (non_stop_state t) (interrupt_depth t) (cpu t) (signaled_cpu t) x (signal_pending t)
    (schedule_counter t) (exit_code t) (sig_entries t) (wq_termination t) (file_entries t) (vma_list t)
    (page_directory t) (privilege_level t) (privilege_level0_stack t) (signaled_privilege_level0_stack t)
    (privilege_level0_stack_top t) (signaled_privilege_level0_stack_top t) (entry t).
Definition set_signal_pending (x : Z) (t : task) : task :=
  mk_task (task_id t) (state t) (non_stop_state t) (interrupt_depth t) (cpu t) (signaled_cpu t) (signal_scheduled t) x
    (schedule_counter t) (exit_code t) (sig_entries t) (wq_termination t) (file_entries t) (vma_list t)
    (page_directory t) (privilege_level t) (privilege_level0_stack t) (signaled_privilege_level0_stack t)
    (privilege_level0_stack_top t) (signaled_privilege_level0_stack_top t) (entry t).
Definition set_schedule_counter (x : Z) (t : task) : task :=
  mk_task (task_id t) (state t) (non_stop_state t) (interrupt_depth t) (cpu t) (signaled_cpu t) (signal_scheduled t)
    (signal_pending t) x (exit_code t) (sig_entries t) (wq_termination t) (file_entries t) (vma_list t)
    (page_directory t) (privilege_level t) (privilege_level0_stack t) (signaled_privilege_level0_stack t)
    (privilege_level0_stack_top t) (signaled_privilege_level0_stack_top t) (entry t).
Definition set_exit_code (x : Z) (t : task) : task :=
  mk_task (task_id t) (state t) (non_stop_state t) (interrupt_depth t) (cpu t) (signaled_cpu t) (signal_scheduled t)
    (signal_pending t) (schedule_counter t) x (sig_entries t) (wq_termination t) (file_entries t) (vma_list t)
    (page_directory t) (privilege_level t) (privilege_level0_stack t) (signaled_privilege_level0_stack t)
    (privilege_level0_stack_top t) (signaled_privilege_level0_stack_top t) (entry t).
Definition set_sig_entries (x : list signal_entry) (t : task) : task :=
  mk_task (task_id t) (state t) (non_stop_state t) (interrupt_depth t) (cpu t) (signaled_cpu t) (signal_scheduled t)
    (signal_pending t) (schedule_counter t) (exit_code t) x (wq_termination t) (file_entries t) (vma_list t)
    (page_directory t) (privilege_level t) (privilege_level0_stack t) (signaled_privilege_level0_stack t)
    (privilege_level0_stack_top t) (signaled_privilege_level0_stack_top t) (entry t).
Definition set_wq_termination (x : list Z) (t : task) : task :=
  mk_task (task_id t) (state t) (non_stop_state t) (interrupt_depth t) (cpu t) (signaled_cpu t) (signal_scheduled t)
    (signal_pending t) (schedule_counter t) (exit_code t) (sig_entries t) x (file_entries t) (vma_list t)
    (page_directory t) (privilege_level t) (privilege_level0_stack t) (signaled_privilege_level0_stack t)
    (privilege_level0_stack_top t) (signaled_privilege_level0_stack_top t) (entry t).
Definition set_file_entries (x : list file_entry) (t : task) : task :=
  mk_task (task_id t) (state t) (non_stop_state t) (interrupt_depth t) (cpu t) (signaled_cpu t) (signal_scheduled t)
    (signal_pending t) (schedule_counter t) (exit_code t) (sig_entries t) (wq_termination t) x (vma_list t)
    (page_directory t) (privilege_level t) (privilege_level0_stack t) (signaled_privilege_level0_stack t)
    (privilege_level0_stack_top t) (signaled_privilege_level0_stack_top t) (entry t).
Definition set_vma_list (x : list Z) (t : task) : task :=
  mk_task (task_id t) (state t) (non_stop_state t) (interrupt_depth t) (cpu t) (signaled_cpu t) (signal_scheduled t)
    (signal_pending t) (schedule_counter t) (exit_code t) (sig_entries t) (wq_termination t) (file_entries t) x
    (page_directory t) (privilege_level t) (privilege_level0_stack t) (signaled_privilege_level0_stack t)
    (privilege_level0_stack_top t) (signaled_privilege_level0_stack_top t) (entry t).

(** the state of the kernel's task management *)
Record kst := mk_kst {
  tasks : gmap Z task;
  run_queue : list Z;
  exit_queue : list Z;
  zombie_queue : list Z;
  blocking_queue : list Z;
  current : Z;
  __ready_to_schedule : Z;
  kernel_idle_task : Z;
  waits : gmap Z Z;
  esp0 : Z;
  cpus : gmap Z x86_cpustate;
  uwords : gmap Z Z;
  task_table : gmap Z Z;
  refer_count : gmap Z Z;
  heap_frees : list Z;
  paging : tpstate }.

Definition tasks_l : lens kst (gmap Z task) := Lens tasks (λ x s,
  mk_kst x (run_queue s) (exit_queue s) (zombie_queue s) (blocking_queue s) (current s) (__ready_to_schedule s)
    (kernel_idle_task s) (waits s) (esp0 s) (cpus s) (uwords s) (task_table s) (refer_count s) (heap_frees s)
    (paging s)).
Definition run_queue_l : lens kst (list Z) := Lens run_queue (λ x s,
  mk_kst (tasks s) x (exit_queue s) (zombie_queue s) (blocking_queue s) (current s) (__ready_to_schedule s)
    (kernel_idle_task s) (waits s) (esp0 s) (cpus s) (uwords s) (task_table s) (refer_count s) (heap_frees s)
    (paging s)).
Definition exit_queue_l : lens kst (list Z) := Lens exit_queue (λ x s,
  mk_kst (tasks s) (run_queue s) x (zombie_queue s) (blocking_queue s) (current s) (__ready_to_schedule s)
    (kernel_idle_task s) (waits s) (esp0 s) (cpus s) (uwords s) (task_table s) (refer_count s) (heap_frees s)
    (paging s)).
Definition zombie_queue_l : lens kst (list Z) := Lens zombie_queue (λ x s,
  mk_kst (tasks s) (run_queue s) (exit_queue s) x (blocking_queue s) (current s) (__ready_to_schedule s)
    (kernel_idle_task s) (waits s) (esp0 s) (cpus s) (uwords s) (task_table s) (refer_count s) (heap_frees s)
    (paging s)).
Definition blocking_queue_l : lens kst (list Z) := Lens blocking_queue (λ x s,
  mk_kst (tasks s) (run_queue s) (exit_queue s) (zombie_queue s) x (current s) (__ready_to_schedule s)
    (kernel_idle_task s) (waits s) (esp0 s) (cpus s) (uwords s) (task_table s) (refer_count s) (heap_frees s)
    (paging s)).
Definition current_l : lens kst (Z) := Lens current (λ x s,
  mk_kst (tasks s) (run_queue s) (exit_queue s) (zombie_queue s) (blocking_queue s) x (__ready_to_schedule s)
    (kernel_idle_task s) (waits s) (esp0 s) (cpus s) (uwords s) (task_table s) (refer_count s) (heap_frees s)
    (paging s)).
Definition waits_l : lens kst (gmap Z Z) := Lens waits (λ x s,
  mk_kst (tasks s) (run_queue s) (exit_queue s) (zombie_queue s) (blocking_queue s) (current s)
    (__ready_to_schedule s) (kernel_idle_task s) x (esp0 s) (cpus s) (uwords s) (task_table s) (refer_count s)
    (heap_frees s) (paging s)).
Definition esp0_l : lens kst (Z) := Lens esp0 (λ x s,
  mk_kst (tasks s) (run_queue s) (exit_queue s) (zombie_queue s) (blocking_queue s) (current s)
    (__ready_to_schedule s) (kernel_idle_task s) (waits s) x (cpus s) (uwords s) (task_table s) (refer_count s)
    (heap_frees s) (paging s)).
Definition cpus_l : lens kst (gmap Z x86_cpustate) := Lens cpus (λ x s,
  mk_kst (tasks s) (run_queue s) (exit_queue s) (zombie_queue s) (blocking_queue s) (current s)
    (__ready_to_schedule s) (kernel_idle_task s) (waits s) (esp0 s) x (uwords s) (task_table s) (refer_count s)
    (heap_frees s) (paging s)).
Definition uwords_l : lens kst (gmap Z Z) := Lens uwords (λ x s,
  mk_kst (tasks s) (run_queue s) (exit_queue s) (zombie_queue s) (blocking_queue s) (current s)
    (__ready_to_schedule s) (kernel_idle_task s) (waits s) (esp0 s) (cpus s) x (task_table s) (refer_count s)
    (heap_frees s) (paging s)).
Definition task_table_l : lens kst (gmap Z Z) := Lens task_table (λ x s,
  mk_kst (tasks s) (run_queue s) (exit_queue s) (zombie_queue s) (blocking_queue s) (current s)
    (__ready_to_schedule s) (kernel_idle_task s) (waits s) (esp0 s) (cpus s) (uwords s) x (refer_count s)
    (heap_frees s) (paging s)).
Definition refer_count_l : lens kst (gmap Z Z) := Lens refer_count (λ x s,
  mk_kst (tasks s) (run_queue s) (exit_queue s) (zombie_queue s) (blocking_queue s) (current s)
    (__ready_to_schedule s) (kernel_idle_task s) (waits s) (esp0 s) (cpus s) (uwords s) (task_table s) x
    (heap_frees s) (paging s)).
Definition heap_frees_l : lens kst (list Z) := Lens heap_frees (λ x s,
  mk_kst (tasks s) (run_queue s) (exit_queue s) (zombie_queue s) (blocking_queue s) (current s)
    (__ready_to_schedule s) (kernel_idle_task s) (waits s) (esp0 s) (cpus s) (uwords s) (task_table s)
    (refer_count s) x (paging s)).
Definition paging_l : lens kst (tpstate) := Lens paging (λ x s,
  mk_kst (tasks s) (run_queue s) (exit_queue s) (zombie_queue s) (blocking_queue s) (current s)
    (__ready_to_schedule s) (kernel_idle_task s) (waits s) (esp0 s) (cpus s) (uwords s) (task_table s)
    (refer_count s) (heap_frees s) x).

Definition load_task (a : Z) : M kst task := zoom tasks_l (load a).
Definition update_task (a : Z) (f : task → task) : M kst () := zoom tasks_l (update a f).

(** ** States *)
Definition transition_table (prev_state target_state : task_state) : bool :=
  match prev_state, target_state with
  | TASK_STATE_ZOMBIE, TASK_STATE_ZOMBIE
  | TASK_STATE_RUNNING, TASK_STATE_RUNNING
  | TASK_STATE_EXITING, TASK_STATE_EXITING
  | TASK_STATE_INTERRUPTIBLE, TASK_STATE_INTERRUPTIBLE
  | TASK_STATE_UNINTERRUPTIBLE, TASK_STATE_UNINTERRUPTIBLE
  | TASK_STATE_RUNNING, TASK_STATE_INTERRUPTIBLE
  | TASK_STATE_RUNNING, TASK_STATE_UNINTERRUPTIBLE
  | TASK_STATE_RUNNING, TASK_STATE_EXITING
  | TASK_STATE_INTERRUPTIBLE, TASK_STATE_RUNNING
  | TASK_STATE_INTERRUPTIBLE, TASK_STATE_UNINTERRUPTIBLE
  | TASK_STATE_UNINTERRUPTIBLE, TASK_STATE_RUNNING
  | TASK_STATE_UNINTERRUPTIBLE, TASK_STATE_INTERRUPTIBLE => true
  | _, _ => false
  end.

Definition transit_state (task : Z) (target_state : task_state) : M kst () :=
  t ← load_task task;
  update_task task (set_state target_state) ;;
  ASSERT (transition_table (state t) target_state).

Definition raw_task_wake_up (task : Z) : M kst () :=
  t ← load_task task;
  match state t with
  | TASK_STATE_RUNNING => mret ()
  | TASK_STATE_INTERRUPTIBLE => transit_state task TASK_STATE_RUNNING
  | TASK_STATE_UNINTERRUPTIBLE =>
      ASSERT (bool_decide (non_stop_state t = TASK_STATE_RUNNING) ||
              bool_decide (non_stop_state t = TASK_STATE_INTERRUPTIBLE)) ;;
      update_task task (set_non_stop_state TASK_STATE_RUNNING)
  | _ => ASSERT false
  end.

(** ** Wait queues: a head is the sequence of its entries *)
Definition initialize_wait_queue_head : list Z := [].

Definition initialize_wait_queue_entry (entry task : Z) : M kst () :=
  zoom waits_l (modify (<[entry := task]>)).

Definition add_wait_queue_entry (head : list Z) (entry : Z) : list Z :=
  if bool_decide (entry ∈ head) then head else head ++ [entry].

Definition remove_wait_queue_entry (head : list Z) (entry : Z) : list Z :=
  if bool_decide (entry ∈ head) then filter (λ e, e ≠ entry) head else head.

Fixpoint wake_up (head : list Z) : M kst () :=
  match head with
  | [] => mret ()
  | entry :: head =>
      task ← zoom waits_l (load entry);
      ASSERT (ctrue task) ;;
      raw_task_wake_up task ;;
      wake_up head
  end.

(** ** Signals *)
Definition no_signal : signal_entry := mk_sig false false false 0 0.

(** the assignments of [task_signal_init]: signal, overridable, action *)
Definition signal_defaults : list (Z * bool * Z) :=
  [(SIGHUP, false, SIG_ACTION_EXIT); (SIGINT, true, SIG_ACTION_EXIT); (SIGQUIT, false, SIG_ACTION_EXIT);
   (SIGILL, false, SIG_ACTION_EXIT); (SIGFPE, false, SIG_ACTION_EXIT); (SIGKILL, false, SIG_ACTION_EXIT);
   (SIGSEGV, false, SIG_ACTION_EXIT); (SIGSYS, false, SIG_ACTION_EXIT); (SIGPIPE, true, SIG_ACTION_EXIT);
   (SIGALARM, true, SIG_ACTION_IGNORE); (SIGTERM, false, SIG_ACTION_EXIT); (SIGUSR1, true, SIG_ACTION_IGNORE);
   (SIGUSR2, true, SIG_ACTION_IGNORE); (SIGSTOP, false, SIG_ACTION_STOP); (SIGTSTP, false, SIG_ACTION_STOP);
   (SIGCONT, false, SIG_ACTION_CONTINUE); (SIGTTIN, false, SIG_ACTION_STOP); (SIGTTOU, false, SIG_ACTION_STOP)].

Definition initial_signals : list signal_entry :=
  foldl (λ l '(sig, o, a), <[Z.to_nat sig := mk_sig true false o a 0]> l)
    (replicate (Z.to_nat SIG_MAX) no_signal) signal_defaults.

Definition task_signal_init (task : Z) : M kst () := update_task task (set_sig_entries initial_signals).

Definition set_signaled (b : bool) (e : signal_entry) : signal_entry :=
  mk_sig (valid e) b (overridable e) (action e) (user_entry_point e).

Definition update_signal (task sig : Z) (f : signal_entry → signal_entry) : M kst () :=
  update_task task (λ t, set_sig_entries (alter f (Z.to_nat sig) (sig_entries t)) t).

Definition signal_task (task sig : Z) : M kst Z :=
  ASSERT ((SIG_INVALID <? sig) && (sig <? SIG_MAX)) ;;
  t ← load_task task;
  e ← deref (sig_entries t !! Z.to_nat sig);
  if negb (valid e) then mret (- ERR_NOT_SUPPORTED) else
  if action e =? SIG_ACTION_STOP then
    when (bool_decide (state t = TASK_STATE_INTERRUPTIBLE) || bool_decide (state t = TASK_STATE_RUNNING)) (
      update_task task (set_non_stop_state (state t)) ;;
      transit_state task TASK_STATE_UNINTERRUPTIBLE) ;;
    mret OK
  else if action e =? SIG_ACTION_CONTINUE then
    when (bool_decide (state t = TASK_STATE_UNINTERRUPTIBLE)) (
      transit_state task (non_stop_state t) ;;
      update_task task (set_non_stop_state TASK_STATE_ZOMBIE)) ;;
    mret OK
  else
  update_signal task sig (set_signaled true) ;;
  update_task task (set_signal_pending 1) ;;
  raw_task_wake_up task ;;
  mret OK.

Definition set_tss_privilege_level0_stack (x : Z) : M kst () := zoom esp0_l (modify (λ _, x)).

(** returns the error code; [*p_esp] is replaced by the second component *)
Definition return_from_pl3_signal_context (p_esp : Z) : M kst (Z * Z) :=
  c ← gets current;
  ASSERT (ctrue c) ;;
  t ← load_task c;
  ASSERT (ctrue (signal_scheduled t)) ;;
  ASSERT (signaled_cpu t =? p_esp) ;;
  update_task c (set_signal_scheduled 0) ;;
  set_tss_privilege_level0_stack (privilege_level0_stack_top t) ;;
  mret (OK, cpu t).

Definition USERSPACE_SIGNAL_STACK_TOP : Z := 0xA0000000 + 1024 * 1024.
Definition USER_CODE_SELECTOR : Z := 0x1b.
Definition USER_DATA_SELECTOR : Z := 0x23.
Definition EFLAGS_ONE : Z := 0x2.
Definition EFLAGS_INTERRUPT : Z := 0x200.
Definition EFLAGS_PL3_IOPL : Z := 0x3000.

Section signal.
(** the address of [return_from_pl3_signal_context] *)
Variable return_address : Z.

Definition prepare_signal_context (task signal : Z) : M kst Z :=
  t ← load_task task;
  ASSERT (privilege_level t =? DPL_3) ;;
  ASSERT ((SIG_INVALID <? signal) && (signal <? SIG_MAX)) ;;
  e ← deref (sig_entries t !! Z.to_nat signal);
  ASSERT (valid e) ;;
  ASSERT (action e =? SIG_ACTION_USER) ;;
  ASSERT (ctrue (user_entry_point e)) ;;
  let pl3_stack := USERSPACE_SIGNAL_STACK_TOP - 0x100 in
  ASSERT (! Z.land pl3_stack 3) ;;
  zoom uwords_l (modify (<[pl3_stack - 4 := signal]>)) ;;
  zoom uwords_l (modify (<[pl3_stack - 8 := return_address]>)) ;;
  let pl3_stack := pl3_stack - 8 in
  let c := u32 (signaled_privilege_level0_stack_top t - CPUSTATE_SIZE) in
  ASSERT (! Z.land pl3_stack 3) ;;
  zoom cpus_l (modify (<[c := mk_cpu 0 0 0 0 0 0 0 USER_DATA_SELECTOR USER_DATA_SELECTOR USER_DATA_SELECTOR
    USER_DATA_SELECTOR 0 0 (user_entry_point e) USER_CODE_SELECTOR
    (Z.lor (Z.lor EFLAGS_ONE EFLAGS_INTERRUPT) EFLAGS_PL3_IOPL) pl3_stack USER_DATA_SELECTOR]>)) ;;
  update_task task (set_signaled_cpu c) ;;
  mret OK.

(** the first valid and signaled entry, [l] starting at number [idx] *)
Fixpoint first_signaled (l : list signal_entry) (idx : Z) : Z :=
  match l with
  | [] => SIG_INVALID
  | e :: l => if negb (valid e) || negb (signaled e) then first_signaled l (idx + 1) else idx
  end.

(** how an operation ends: it returns a stack pointer, or hands the CPU over for good *)
Inductive outcome := Resume (esp : Z) | Yield.

(** the label [out] of [task_process_signal] *)
Definition process_signal_out (cpu : Z) : M kst outcome :=
  c ← gets current;
  if ! c then mret (Resume cpu) else
  t ← load_task c;
  if ctrue (signal_scheduled t) then
    set_tss_privilege_level0_stack (signaled_privilege_level0_stack_top t) ;;
    mret (Resume (signaled_cpu t))
  else mret (Resume cpu).

Definition task_process_signal (cpu : Z) : M kst outcome :=
  c ← gets current;
  if ! c then process_signal_out cpu else
  t ← load_task c;
  if negb (privilege_level t =? DPL_3) then process_signal_out cpu else
  if negb (interrupt_depth t =? 1) then process_signal_out cpu else
  ASSERT (bool_decide (state t = TASK_STATE_RUNNING) || bool_decide (state t = TASK_STATE_UNINTERRUPTIBLE)) ;;
  if negb ((! signal_scheduled t) && ctrue (signal_pending t)) then process_signal_out cpu else
  let signal := first_signaled (drop 1 (sig_entries t)) 1 in
  if signal =? SIG_INVALID then
    update_task c (set_signal_pending 0) ;; process_signal_out cpu
  else
  e ← deref (sig_entries t !! Z.to_nat signal);
  ASSERT (signaled e) ;;
  update_signal c signal (set_signaled false) ;;
  when (first_signaled (drop (Z.to_nat (signal + 1)) (sig_entries t)) (signal + 1) =? SIG_INVALID)
    (update_task c (set_signal_pending 0)) ;;
  if action e =? SIG_ACTION_IGNORE then process_signal_out cpu
  else if action e =? SIG_ACTION_EXIT then
    transit_state c TASK_STATE_EXITING ;; mret Yield
  else if action e =? SIG_ACTION_USER then
    prepare_signal_context c signal ;;
    update_task c (set_signal_scheduled 1) ;;
    process_signal_out cpu
  else ASSERT false ;; process_signal_out cpu.
End signal.

Definition call_sys_signal (signal handler : Z) : M kst Z :=
  c ← gets current;
  ASSERT (ctrue c) ;;
  if (signal <=? SIG_INVALID) || (SIG_MAX <=? signal) then mret (- ERR_INVALID_ARG) else
  t ← load_task c;
  e ← deref (sig_entries t !! Z.to_nat signal);
  if negb (valid e) || negb (overridable e) then mret (- ERR_NOT_SUPPORTED) else
  update_signal c signal (λ e, mk_sig (valid e) (signaled e) (overridable e) SIG_ACTION_USER handler) ;;
  mret OK.

Definition call_sys_exit (code : Z) : M kst Z :=
  c ← gets current;
  ASSERT (ctrue c) ;;
  update_task c (set_exit_code code) ;;
  signal_task c SIGCONT ;;
  signal_task c SIGQUIT ;;
  mret OK.

Definition search_task_by_id (id : Z) : M kst Z := gets (λ s, default NULL (task_table s !! id)).

Definition call_sys_kill (task_id signal : Z) : M kst Z :=
  c ← gets current;
  if (signal <=? SIG_INVALID) || (SIG_MAX <=? signal) then mret (- ERR_INVALID_ARG) else
  task ← (if 0 <=? i32 task_id then search_task_by_id task_id else mret c);
  t ← load_task task;
  if privilege_level t =? 0 then mret (- ERR_NOT_SUPPORTED) else
  if ! task then mret (- ERR_NOT_FOUND) else
  when (signal =? SIGQUIT) (signal_task task SIGCONT ;; mret ()) ;;
  signal_task task signal ;;
  mret OK.

(** ** Waiting for a task: [call_sys_wait0] up to its [yield_cpu], and behind it *)
Definition call_sys_wait0 (target_task_id wait : Z) : M kst (option Z) :=
  task ← search_task_by_id target_task_id;
  if ! task then mret (Some OK) else
  t ← load_task task;
  if bool_decide (state t = TASK_STATE_EXITING) then mret (Some OK) else
  c ← gets current;
  initialize_wait_queue_entry wait c ;;
  update_task task (λ t, set_wq_termination (add_wait_queue_entry (wq_termination t) wait) t) ;;
  transit_state c TASK_STATE_INTERRUPTIBLE ;;
  mret None.

Definition call_sys_wait0_resumed (target_task_id wait : Z) : M kst Z :=
  c ← gets current;
  t ← load_task c;
  let result := if ctrue (signal_pending t) then - ERR_INTERRUPTED else OK in
  task ← search_task_by_id target_task_id;
  when (ctrue task) (update_task task (λ t, set_wq_termination (remove_wait_queue_entry (wq_termination t) wait) t)) ;;
  mret result.

(** ** Interrupt entry and exit *)
Definition task_pre_interrupt_handler (cpu : Z) : M kst () :=
  c ← gets current;
  when (ctrue c) (
    update_task c (λ t, set_interrupt_depth (u32 (interrupt_depth t + 1)) t) ;;
    t ← load_task c;
    if ctrue (signal_scheduled t) then update_task c (set_signaled_cpu cpu) else update_task c (set_cpu cpu)).

Definition task_post_interrupt_handler (cpu : Z) : M kst () :=
  c ← gets current;
  when (ctrue c) (
    update_task c (λ t, set_interrupt_depth (u32 (interrupt_depth t - 1)) t) ;;
    t ← load_task c;
    ASSERT (0 <=? i32 (interrupt_depth t))).

(** [interrupt_handler] of x86/interrupt.c, given the handler in [handlers[vector]] *)
Definition interrupt_handler (return_address : Z) (handlers : Z → option (Z → M kst Z)) (cpu : Z) : M kst outcome :=
  f ← zoom cpus_l (load cpu);
  ASSERT ((0 <=? vector f) && (vector f <? 256)) ;;
  task_pre_interrupt_handler cpu ;;
  ESP ← (match handlers (vector f) with None => mret cpu | Some h => h cpu end);
  r ← task_process_signal return_address ESP;
  match r with
  | Yield => mret Yield
  | Resume ESP => task_post_interrupt_handler ESP ;; mret (Resume ESP)
  end.

(** ** Work queues *)
Record work_queue := mk_wq { to_terminate : Z; wq_head : list Z }.

Definition notify_work_queue (w : work_queue) : M kst Z :=
  if ctrue (to_terminate w) then mret (u32 (- ERR_BUSY)) else
  wake_up (wq_head w) ;;
  mret OK.

Definition terminate_work_queue (w : work_queue) : M kst (Z * work_queue) :=
  if ctrue (to_terminate w) then mret (u32 (- ERR_BUSY), w) else
  r ← notify_work_queue w;
  ASSERT (! r) ;;
  mret (OK, mk_wq 1 (wq_head w)).

(** [work_queue_top_level_body]: the top of the loop, up to [yield_cpu]; [Yield] when the task waits *)
Definition work_queue_loop (w : work_queue) : M kst () :=
  c ← gets current;
  if ctrue (to_terminate w) then
    signal_task c SIGCONT ;; signal_task c SIGQUIT ;; mret ()
  else transit_state c TASK_STATE_INTERRUPTIBLE.

Definition work_queue_start (w : work_queue) (priv wait : Z) : M kst work_queue :=
  c ← gets current;
  ASSERT (ctrue c) ;;
  ASSERT (ctrue priv) ;;
  initialize_wait_queue_entry wait c ;;
  let w := mk_wq (to_terminate w) (add_wait_queue_entry (wq_head w) wait) in
  work_queue_loop w ;;
  mret w.

(** the part behind [yield_cpu] *)
Definition work_queue_resumed (w : work_queue) (do_work : M kst ()) : M kst () :=
  c ← gets current;
  if ctrue (to_terminate w) then
    signal_task c SIGCONT ;; signal_task c SIGQUIT ;; mret ()
  else do_work ;; work_queue_loop w.

(** ** Running task operations *)

(** [s] with task [a] replaced *)
Definition put_task (s : kst) (a : Z) (t : task) : kst := lset tasks_l (<[a := t]> (tasks s)) s.

Lemma put_task_lookup s a t : tasks (put_task s a t) !! a = Some t.
Proof. simpl. apply lookup_insert_eq. Qed.

Lemma put_put s a t t' : put_task (put_task s a t) a t' = put_task s a t'.
Proof. unfold put_task. simpl. by rewrite insert_insert_eq. Qed.

Lemma put_same s a t : tasks s !! a = Some t → put_task s a t = s.
Proof. intros Ht. unfold put_task. simpl. rewrite insert_id by done. by destruct s. Qed.

Lemma load_task_run {A} s a t (k : task → M kst A) :
  tasks s !! a = Some t → mbind k (load_task a) s = k t s.
Proof.
  intros Ht. apply bind_ok. unfold load_task. rewrite (zoom_ok tasks_l _ _ _ _ (load_ok (tasks s) a t Ht)). by destruct s.
Qed.

Lemma update_task_ok s a t f : tasks s !! a = Some t → update_task a f s = Ok ((), put_task s a (f t)).
Proof. intros Ht. unfold update_task. by rewrite (zoom_ok tasks_l _ _ _ _ (update_ok (tasks s) a t f Ht)). Qed.

Lemma update_task_run {A} s a t f (k : () → M kst A) :
  tasks s !! a = Some t → mbind k (update_task a f) s = k () (put_task s a (f t)).
Proof. intros Ht. by apply bind_ok, update_task_ok. Qed.

Lemma transit_ok s a t st :
  tasks s !! a = Some t → transition_table (state t) st = true →
  transit_state a st s = Ok ((), put_task s a (set_state st t)).
Proof.
  intros Ht Htab. unfold transit_state. rewrite (load_task_run _ _ t), (update_task_run _ _ t) by done. by rewrite Htab.
Qed.

Lemma current_put s a t : current (put_task s a t) = current s.
Proof. done. Qed.

(** ** Tasks as a labelled transition system

    A live task is either stopped or not, and, independently, ready to run or
    blocked. *)
Definition live (t : task) : Prop :=
  (state t = TASK_STATE_RUNNING ∨ state t = TASK_STATE_INTERRUPTIBLE ∨
   state t = TASK_STATE_UNINTERRUPTIBLE ∧
     (non_stop_state t = TASK_STATE_RUNNING ∨ non_stop_state t = TASK_STATE_INTERRUPTIBLE)) ∧
  length (sig_entries t) = Z.to_nat SIG_MAX.

Record abstract_task := mk_abs { stopped : bool; ready : bool; pending : list bool }.

Definition abs (t : task) : abstract_task :=
  let st := bool_decide (state t = TASK_STATE_UNINTERRUPTIBLE) in
  mk_abs st (bool_decide ((if st then non_stop_state t else state t) = TASK_STATE_RUNNING)) (signaled <$> sig_entries t).

(** what happens to a task: a signal, a wake-up, or it blocks itself *)
Inductive task_event := EvSignal (sig : Z) | EvWake | EvBlock.

Definition exec_event (a : Z) (ev : task_event) : M kst () :=
  match ev with
  | EvSignal sig => signal_task a sig ;; mret ()
  | EvWake => raw_task_wake_up a
  | EvBlock => transit_state a TASK_STATE_INTERRUPTIBLE
  end.

Fixpoint exec_events (a : Z) (evs : list task_event) : M kst () :=
  match evs with
  | [] => mret ()
  | ev :: evs => exec_event a ev ;; exec_events a evs
  end.

(** the specification; [None]: only a running task blocks itself, and signal numbers are in range *)
Definition abs_step (sigs : list signal_entry) (ev : task_event) (t : abstract_task) : option abstract_task :=
  match ev with
  | EvSignal sig =>
      if (SIG_INVALID <? sig) && (sig <? SIG_MAX) then
        match sigs !! Z.to_nat sig with
        | None => None
        | Some e =>
            Some (if negb (valid e) then t
                  else if action e =? SIG_ACTION_STOP then mk_abs true (ready t) (pending t)
                  else if action e =? SIG_ACTION_CONTINUE then mk_abs false (ready t) (pending t)
                  else mk_abs (stopped t) true (<[Z.to_nat sig := true]> (pending t)))
        end
      else None
  | EvWake => Some (mk_abs (stopped t) true (pending t))
  | EvBlock => if ready t && negb (stopped t) then Some (mk_abs (stopped t) false (pending t)) else None
  end.

Fixpoint abs_steps (sigs : list signal_entry) (evs : list task_event) (t : abstract_task) : option abstract_task :=
  match evs with
  | [] => Some t
  | ev :: evs => t' ← abs_step sigs ev t; abs_steps sigs evs t'
  end.

(** the dispositions, which no event changes *)
Definition dispositions (l : list signal_entry) : list (bool * bool * Z * Z) :=
  (λ e, (valid e, overridable e, action e, user_entry_point e)) <$> l.

Lemma dispositions_alter l i b : dispositions (alter (set_signaled b) i l) = dispositions l.
Proof.
  revert i. induction l as [|e l IH]; intros [|i]; try done. cbn. f_equal. apply IH.
Qed.

Lemma signaled_alter (l : list signal_entry) (i : nat) b : signaled <$> alter (set_signaled b) i l = <[i := b]> (signaled <$> l).
Proof. revert i. induction l as [|e l IH]; intros [|i]; try done. cbn. f_equal. apply IH. Qed.

Lemma abs_step_dispositions l l' ev t : dispositions l = dispositions l' → abs_step l ev t = abs_step l' ev t.
Proof.
  intros E. destruct ev as [sig| |]; simpl; [|done|done]. destruct (_ && _); [|done].
  assert ((λ e, (valid e, overridable e, action e, user_entry_point e)) <$> l !! Z.to_nat sig =
          (λ e, (valid e, overridable e, action e, user_entry_point e)) <$> l' !! Z.to_nat sig) as E'.
  { rewrite <-!list_lookup_fmap. unfold dispositions in E. by rewrite E. }
  destruct (l !! Z.to_nat sig) as [e|], (l' !! Z.to_nat sig) as [e'|]; simpl in E'; try done.
  injection E' as -> _ -> _. done.
Qed.

Lemma wake_up_ok s a t :
  tasks s !! a = Some t → live t →
  ∃ t', raw_task_wake_up a s = Ok ((), put_task s a t') ∧ live t' ∧ sig_entries t' = sig_entries t ∧
        signal_pending t' = signal_pending t ∧ abs t' = mk_abs (stopped (abs t)) true (pending (abs t)).
Proof.
  intros Ht [Hst Hlen]. unfold raw_task_wake_up. rewrite (load_task_run _ _ t) by done.
  destruct Hst as [Hst|[Hst|[Hst Hns]]]; rewrite Hst.
  - exists t. rewrite put_same by done. split_and!; try done; [by split; [left|]|]. unfold abs. by rewrite Hst.
  - exists (set_state TASK_STATE_RUNNING t). split_and!; try done.
    + apply transit_ok; [done|by rewrite Hst].
    + by split; [left|].
    + unfold abs. simpl. by rewrite Hst.
  - exists (set_non_stop_state TASK_STATE_RUNNING t). split_and!; try done.
    + rewrite (bind_ok (ASSERT _) _ s () s) by (apply ASSERT_true; destruct Hns as [-> | ->]; reflexivity).
      by apply update_task_ok.
    + split; [|done]. right. right. simpl. rewrite Hst. split; [done|by left].
    + unfold abs. simpl. by rewrite Hst.
Qed.

Lemma set_signaled_live t i : live t → live (set_signal_pending 1 (set_sig_entries (alter (set_signaled true) i (sig_entries t)) t)).
Proof. intros [Hst Hlen]. split; [done|]. simpl. by rewrite length_alter. Qed.

(** sending a signal to a live task *)
Lemma signal_task_ok s a t sig e :
  tasks s !! a = Some t → live t → SIG_INVALID < sig < SIG_MAX → sig_entries t !! Z.to_nat sig = Some e →
  ∃ rc t', signal_task a sig s = Ok (rc, put_task s a t') ∧ live t' ∧
    dispositions (sig_entries t') = dispositions (sig_entries t) ∧
    abs_step (sig_entries t) (EvSignal sig) (abs t) = Some (abs t') ∧
    rc = (if valid e then OK else - ERR_NOT_SUPPORTED) ∧
    signal_pending t' = (if valid e && negb (action e =? SIG_ACTION_STOP) && negb (action e =? SIG_ACTION_CONTINUE)
                         then 1 else signal_pending t).
Proof.
  intros Ht Hlive Hsig He. pose proof Hlive as [Hst Hlen]. unfold signal_task, abs_step.
  assert ((SIG_INVALID <? sig) && (sig <? SIG_MAX) = true) as -> by (apply andb_true_iff; split; apply Z.ltb_lt; lia).
  mstep. rewrite (load_task_run _ _ t) by done. rewrite (bind_ok _ _ _ e s) by (by apply deref_ok). rewrite He.
  destruct (valid e) eqn:Hv; cbn [negb andb].
  2: { eexists _, t. rewrite put_same by done. split_and!; done. }
  destruct (action e =? SIG_ACTION_STOP); cbn [negb andb].
  { destruct Hst as [Hst|[Hst|[Hst Hns]]]; rewrite Hst.
    1,2: exists OK, (set_state TASK_STATE_UNINTERRUPTIBLE (set_non_stop_state (state t) t)); split_and!; try done.
    1,4: unfold when; simpl; rewrite bind_assoc_run, (update_task_run _ _ t) by done;
         erewrite bind_ok by (eapply transit_ok; [apply put_task_lookup|by simpl; rewrite Hst]); by rewrite put_put, Hst.
    1,3: split; [right; right; simpl; rewrite Hst; auto|done].
    1,2: unfold abs; simpl; by rewrite Hst.
    exists OK, t. rewrite put_same by done. split_and!; try done. unfold abs. by rewrite Hst. }
  destruct (action e =? SIG_ACTION_CONTINUE); cbn [negb andb].
  { destruct Hst as [Hst|[Hst|[Hst Hns]]]; rewrite Hst.
    1,2: exists OK, t; rewrite put_same by done; split_and!; try done; unfold abs; by rewrite Hst.
    exists OK, (set_non_stop_state TASK_STATE_ZOMBIE (set_state (non_stop_state t) t)). split_and!; try done.
    - unfold when. simpl. rewrite bind_assoc_run.
      rewrite (bind_ok _ _ _ _ _ (transit_ok _ _ t (non_stop_state t) Ht ltac:(by rewrite Hst; destruct Hns as [-> | ->]))).
      rewrite (update_task_run _ _ (set_state (non_stop_state t) t)) by apply put_task_lookup. by rewrite put_put.
    - split; [|done]. simpl. destruct Hns as [-> | ->]; auto.
    - unfold abs. simpl. rewrite Hst. simpl. by destruct Hns as [-> | ->]. }
  unfold update_signal. rewrite (update_task_run _ _ t) by done.
  rewrite (update_task_run _ _ _ _ _ (put_task_lookup _ _ _)), put_put.
  set (t1 := set_signal_pending 1 (set_sig_entries _ t)).
  destruct (wake_up_ok (put_task s a t1) a t1) as (t' & Hr & Hl' & Es & Ep & Ea);
    [apply put_task_lookup|by apply set_signaled_live|].
  rewrite (bind_ok _ _ _ _ _ Hr), put_put. exists OK, t'. split_and!; try done.
  - rewrite Es. apply dispositions_alter.
  - rewrite Ea. unfold t1, abs. simpl. by rewrite signaled_alter.
Qed.

Lemma exec_event_ok s a t ev t2 :
  tasks s !! a = Some t → live t → abs_step (sig_entries t) ev (abs t) = Some t2 →
  ∃ t', exec_event a ev s = Ok ((), put_task s a t') ∧ live t' ∧ abs t' = t2 ∧
        dispositions (sig_entries t') = dispositions (sig_entries t).
Proof.
  intros Ht Hlive Hstep. destruct ev as [sig| |]; cbn [exec_event].
  - pose proof Hstep as Hdef. unfold abs_step in Hdef. destruct ((SIG_INVALID <? sig) && (sig <? SIG_MAX)) eqn:Hr; [|done]. apply andb_true_iff in Hr as [?%Z.ltb_lt ?%Z.ltb_lt].
    destruct (sig_entries t !! Z.to_nat sig) as [e|] eqn:He; [|done].
    destruct (signal_task_ok s a t sig e) as (rc & t' & Hrun & Hl' & Hd & Habs & _ & _); try done.
    exists t'. split_and!; try done.
    + by rewrite (bind_ok _ _ _ _ _ Hrun).
    + congruence.
  - destruct (wake_up_ok s a t Ht Hlive) as (t' & Hr & Hl' & Es & _ & Ea). exists t'. split_and!; try done.
    + cbn [abs_step] in Hstep. congruence.
    + by rewrite Es.
  - destruct Hlive as [Hst Hlen]. unfold abs in Hstep |- *. simpl in *.
    destruct Hst as [Hst|[Hst|[Hst _]]]; rewrite Hst in Hstep; simpl in Hstep; [|done|by rewrite andb_false_r in Hstep].
    exists (set_state TASK_STATE_INTERRUPTIBLE t). split_and!; try done.
    + apply transit_ok; [done|by rewrite Hst].
    + split; [by right; left|done].
    + simpl. congruence.
Qed.

(** C6. Tasks implement the labelled transition system: for every sequence of
    signals, wake-ups and blocking of a live task no assertion fails (all state
    changes are in the transition table), the task stays live, and stopping and
    continuing never touch whether the task is ready, so a wake-up or signal
    that arrives while the task is stopped takes effect when it is continued. *)
Theorem task_refines_lts evs : ∀ s a t t2,
  tasks s !! a = Some t → live t → abs_steps (sig_entries t) evs (abs t) = Some t2 →
  ∃ t', exec_events a evs s = Ok ((), put_task s a t') ∧ live t' ∧ abs t' = t2 ∧
        dispositions (sig_entries t') = dispositions (sig_entries t).
Proof.
  induction evs as [|ev evs IH]; intros s a t t2 Ht Hlive Hsteps; simpl in *.
  { exists t. rewrite put_same by done. simplify_eq. done. }
  destruct (abs_step (sig_entries t) ev (abs t)) as [t1|] eqn:Hstep; [|done]. simpl in Hsteps.
  destruct (exec_event_ok s a t ev t1) as (u & Hr & Hl & <- & Hd); try done.
  rewrite (bind_ok _ _ _ _ _ Hr).
  assert (∀ evs x, abs_steps (sig_entries u) evs x = abs_steps (sig_entries t) evs x) as Hsig.
  { induction evs0 as [|ev' evs' IH']; intros x; simpl; [done|]. rewrite (abs_step_dispositions _ (sig_entries t)) by done.
    destruct (abs_step _ ev' x); simpl; [apply IH'|done]. }
  destruct (IH (put_task s a u) a u t2) as (t' & Hr' & Hl' & E & Hd');
    [apply put_task_lookup|done|by rewrite Hsig|].
  exists t'. rewrite put_put in Hr'. split_and!; [done|done|done|]. by rewrite Hd'.
Qed.

(** ** Delivering signals *)
Definition deliverable (e : signal_entry) : bool := valid e && signaled e.
Definition pending_at (l : list signal_entry) (i : nat) : Prop := ∃ e, l !! i = Some e ∧ deliverable e = true.

Lemma pending_at_cons e l i : pending_at (e :: l) (S i) ↔ pending_at l i.
Proof. done. Qed.

Lemma first_signaled_none l idx : (∀ i, ¬ pending_at l i) → first_signaled l idx = SIG_INVALID.
Proof.
  revert idx. induction l as [|e l IH]; intros idx Hno; simpl; [done|].
  destruct (deliverable e) eqn:Hd.
  { exfalso. apply (Hno 0%nat). by exists e. }
  unfold deliverable in Hd. destruct (valid e), (signaled e); try done; simpl; (apply IH; intros i Hi; by apply (Hno (S i))).
Qed.

Lemma first_signaled_some l idx i :
  pending_at l i → (∀ j, (j < i)%nat → ¬ pending_at l j) → first_signaled l idx = idx + Z.of_nat i.
Proof.
  revert idx i. induction l as [|e l IH]; intros idx i Hi Hmin; simpl; [by destruct Hi as (? & ? & _)|].
  destruct i as [|i].
  - destruct Hi as (e' & [= <-] & Hd). unfold deliverable in Hd. destruct (valid e), (signaled e); try done. simpl. lia.
  - assert (deliverable e = false) as Hd.
    { destruct (deliverable e) eqn:E; [|done]. exfalso. apply (Hmin 0%nat); [lia|]. by exists e. }
    unfold deliverable in Hd. rewrite (IH (idx + 1) i Hi).
    + destruct (valid e), (signaled e); try done; simpl; lia.
    + intros j Hj Hp. apply (Hmin (S j)); [lia|done].
Qed.

Lemma first_signaled_cases l idx :
  0 < idx →
  (first_signaled l idx = SIG_INVALID ∧ ∀ i, ¬ pending_at l i) ∨ (0 < first_signaled l idx ∧ ∃ i, pending_at l i).
Proof.
  intros Hidx. revert idx Hidx. induction l as [|e l IH]; intros idx Hidx; simpl.
  { left. split; [done|]. by intros i (? & ? & _). }
  destruct (negb (valid e) || negb (signaled e)) eqn:Hd.
  - destruct (IH (idx + 1)) as [[-> Hno]|[Hp (i & Hi)]]; [lia|left|right].
    + split; [done|]. intros [|i] Hi; [|by apply (Hno i)]. destruct Hi as (e' & [= <-] & Hdel). unfold deliverable in Hdel.
      by destruct (valid e), (signaled e).
    + split; [done|]. by exists (S i).
  - right. split; [done|]. exists 0%nat, e. split; [done|]. unfold deliverable. by destruct (valid e), (signaled e).
Qed.

Lemma pending_at_drop l n i : pending_at (drop n l) i ↔ pending_at l (n + i).
Proof. unfold pending_at. by setoid_rewrite lookup_drop. Qed.

Lemma pending_at_clear l n i : pending_at (alter (set_signaled false) n l) i ↔ i ≠ n ∧ pending_at l i.
Proof.
  unfold pending_at. destruct (decide (i = n)) as [->|Hne].
  - split; [|by intros [? _]]. intros (e & He & Hd). rewrite list_lookup_alter_eq in He.
    destruct (l !! n) as [e'|]; simpl in He; simplify_eq. unfold deliverable in Hd. simpl in Hd. by rewrite andb_false_r in Hd.
  - rewrite list_lookup_alter_ne by done. naive_solver.
Qed.

(** the state in which [task_process_signal] looks for a signal *)
Record ready_for_signal (s : kst) (c : Z) (t : task) : Prop := {
  rs_current : current s = c;
  rs_nonnull : c ≠ NULL;
  rs_task : tasks s !! c = Some t;
  rs_user : privilege_level t = DPL_3;
  rs_depth : interrupt_depth t = 1;
  rs_running : state t = TASK_STATE_RUNNING;
  rs_entries : length (sig_entries t) = Z.to_nat SIG_MAX;
  rs_idle : signal_scheduled t = 0;
  rs_pending : signal_pending t ≠ 0 }.

(** entry 0 stands for no signal *)
Definition no_zero (l : list signal_entry) : Prop := ∀ e, l !! 0%nat = Some e → valid e = false.

Lemma process_signal_found ra s c t cpu n e :
  ready_for_signal s c t → no_zero (sig_entries t) → (0 < n)%nat → sig_entries t !! n = Some e → deliverable e = true →
  (∀ j, (j < n)%nat → ¬ pending_at (sig_entries t) j) →
  ∃ p, (p = 0 ↔ ∀ i, ¬ pending_at (alter (set_signaled false) n (sig_entries t)) i) ∧
  let t1 := set_signal_pending p (set_sig_entries (alter (set_signaled false) n (sig_entries t)) t) in
  task_process_signal ra cpu s =
  (if action e =? SIG_ACTION_IGNORE then process_signal_out cpu
   else if action e =? SIG_ACTION_EXIT then transit_state c TASK_STATE_EXITING ;; mret Yield
   else if action e =? SIG_ACTION_USER then
     prepare_signal_context ra c (Z.of_nat n) ;; update_task c (set_signal_scheduled 1) ;; process_signal_out cpu
   else ASSERT false ;; process_signal_out cpu) (put_task s c t1).
Proof.
  intros [Hc Hnn Ht Hu Hd Hst Hlen Hid Hp] Hz Hn He Hdel Hmin. unfold deliverable in Hdel. apply andb_true_iff in Hdel as [Hv Hs].
  assert (pending_at (sig_entries t) n) as Hpend by (exists e; split; [done|]; unfold deliverable; by rewrite Hv, Hs).
  unfold task_process_signal. mstep. rewrite Hc, (proj2 (ctrue_true c)) by done. cbn [negb].
  rewrite (load_task_run _ _ t) by done. rewrite Hu, Hd, Hst, Hid. simpl. mstep.
  rewrite (proj2 (ctrue_true _) Hp). simpl.
  assert (first_signaled (drop 1 (sig_entries t)) 1 = Z.of_nat n) as ->.
  { rewrite (first_signaled_some _ _ (n - 1)).
    - lia.
    - rewrite pending_at_drop. by replace (1 + (n - 1))%nat with n by lia.
    - intros j Hj Hpj. rewrite pending_at_drop in Hpj. by apply (Hmin (1 + j)%nat); [lia|]. }
  rewrite (proj2 (Z.eqb_neq _ SIG_INVALID)) by (unfold SIG_INVALID; lia). rewrite Nat2Z.id.
  rewrite (bind_ok _ _ _ e s) by (by apply deref_ok). rewrite Hs. mstep.
  unfold update_signal. rewrite Nat2Z.id, (update_task_run _ _ t) by done.
  assert (∀ i, pending_at (alter (set_signaled false) n (sig_entries t)) i ↔ (n < i)%nat ∧ pending_at (sig_entries t) i) as Hiff.
  { intros i. rewrite pending_at_clear. split; [|intros [? ?]; split; [lia|done]]. intros [Hne Hi]. split; [|done].
    destruct (decide (i < n)%nat) as [Hlt|]; [by destruct (Hmin i Hlt)|lia]. }
  replace (Z.to_nat (Z.of_nat n + 1)) with (S n) by lia.
  destruct (first_signaled_cases (drop (S n) (sig_entries t)) (Z.of_nat n + 1)) as [[-> Hno]|[Hpos (i & Hi)]]; [lia| |].
  - exists 0. split.
    + split; [|done]. intros _ i [Hlt Hi]%Hiff. apply (Hno (i - S n)%nat). rewrite pending_at_drop.
      by replace (S n + (i - S n))%nat with i by lia.
    + simpl. unfold when. simpl. by rewrite (update_task_run _ _ _ _ _ (put_task_lookup _ _ _)), put_put.
  - exists (signal_pending t). split.
    + split; [done|]. intros Hno. exfalso. apply (Hno (S n + i)%nat), Hiff. split; [lia|by apply pending_at_drop].
    + rewrite (proj2 (Z.eqb_neq (first_signaled _ _) SIG_INVALID)) by (unfold SIG_INVALID; lia). unfold when. mstep. by destruct t.
Qed.

Lemma process_signal_out_ok s c t cpu :
  current s = c → c ≠ NULL → tasks s !! c = Some t →
  process_signal_out cpu s =
  if ctrue (signal_scheduled t)
  then Ok (Resume (signaled_cpu t), lset esp0_l (signaled_privilege_level0_stack_top t) s)
  else Ok (Resume cpu, s).
Proof.
  intros Hc Hnn Ht. unfold process_signal_out. mstep. rewrite Hc, (proj2 (ctrue_true c)) by done. cbn [negb].
  rewrite (load_task_run _ _ t) by done. by destruct (ctrue (signal_scheduled t)).
Qed.

Lemma return_from_ok s c t :
  current s = c → c ≠ NULL → tasks s !! c = Some t → ctrue (signal_scheduled t) = true →
  return_from_pl3_signal_context (signaled_cpu t) s =
  Ok ((OK, cpu t), lset esp0_l (privilege_level0_stack_top t) (put_task s c (set_signal_scheduled 0 t))).
Proof.
  intros Hc Hnn Ht Hs. unfold return_from_pl3_signal_context. mstep. rewrite Hc, (proj2 (ctrue_true c)) by done. mstep.
  rewrite (load_task_run _ _ t) by done. rewrite Hs, Z.eqb_refl. mstep. mstep. by rewrite (update_task_run _ _ t).
Qed.

(** the stack frame at the handler's entry *)
Definition handler_frame (entry : Z) : x86_cpustate :=
  mk_cpu 0 0 0 0 0 0 0 USER_DATA_SELECTOR USER_DATA_SELECTOR USER_DATA_SELECTOR USER_DATA_SELECTOR 0 0 entry
    USER_CODE_SELECTOR (Z.lor (Z.lor EFLAGS_ONE EFLAGS_INTERRUPT) EFLAGS_PL3_IOPL)
    (USERSPACE_SIGNAL_STACK_TOP - 0x100 - 8) USER_DATA_SELECTOR.

Lemma prepare_signal_context_ok ra s c t n e :
  tasks s !! c = Some t → privilege_level t = DPL_3 → SIG_INVALID < Z.of_nat n < SIG_MAX → sig_entries t !! n = Some e →
  valid e = true → action e = SIG_ACTION_USER → user_entry_point e ≠ 0 →
  let f := u32 (signaled_privilege_level0_stack_top t - CPUSTATE_SIZE) in
  ∃ s', prepare_signal_context ra c (Z.of_nat n) s = Ok (OK, s') ∧
    tasks s' = <[c := set_signaled_cpu f t]> (tasks s) ∧ current s' = current s ∧
    cpus s' !! f = Some (handler_frame (user_entry_point e)) ∧
    uwords s' !! (USERSPACE_SIGNAL_STACK_TOP - 0x100 - 8) = Some ra ∧
    uwords s' !! (USERSPACE_SIGNAL_STACK_TOP - 0x100 - 8 + 4) = Some (Z.of_nat n).
Proof.
  intros Ht Hu Hn He Hv Ha Hne f. unfold prepare_signal_context. rewrite (load_task_run _ _ t) by done.
  rewrite Hu. mstep.
  assert ((SIG_INVALID <? Z.of_nat n) && (Z.of_nat n <? SIG_MAX) = true) as -> by (apply andb_true_iff; split; apply Z.ltb_lt; lia).
  mstep. rewrite (bind_ok _ _ _ e s) by (apply deref_ok; by rewrite Nat2Z.id).
  rewrite Hv, Ha, (proj2 (ctrue_true _) Hne). mstep. mstep. mstep. cbv zeta. mstep.
  rewrite (bind_ok _ _ s () (lset uwords_l (<[USERSPACE_SIGNAL_STACK_TOP - 0x100 - 4 := Z.of_nat n]> (uwords s)) s)) by reflexivity.
  erewrite (bind_ok (zoom uwords_l _)) by reflexivity. cbn beta. mstep.
  erewrite (bind_ok (zoom cpus_l _)) by reflexivity. cbn beta.
  erewrite update_task_run by exact Ht. eexists. split; [reflexivity|]. split_and!; [reflexivity|reflexivity| | |].
  - apply lookup_insert_eq.
  - apply lookup_insert_eq.
  - unfold USERSPACE_SIGNAL_STACK_TOP. simpl uwords. rewrite lookup_insert_ne by lia. apply lookup_insert_eq.
Qed.

(** C16. On the way back to user mode the lowest-numbered pending signal of the
    current task is delivered, and only that one; [signal_pending] stays set
    exactly if other signals are pending.  An ignored signal resumes the task,
    an exit signal makes it leave through the scheduler in state EXITING, and a
    caught signal resumes in the handler: the interrupt frame has the handler's
    address, the user signal stack holds the signal number and the return
    address, and the signal's kernel stack is in use.  When the handler is
    left, [return_from_pl3_signal_context] gives back the interrupted context
    and its kernel stack. *)
Theorem task_process_signal_delivers ra s c t cpu0 n e :
  ready_for_signal s c t → no_zero (sig_entries t) →
  SIG_INVALID < Z.of_nat n < SIG_MAX → sig_entries t !! n = Some e → deliverable e = true →
  (∀ j, (j < n)%nat → ¬ pending_at (sig_entries t) j) →
  action e = SIG_ACTION_IGNORE ∨ action e = SIG_ACTION_EXIT ∨ action e = SIG_ACTION_USER ∧ user_entry_point e ≠ 0 →
  ∃ r s' t', task_process_signal ra cpu0 s = Ok (r, s') ∧ tasks s' = <[c := t']> (tasks s) ∧
    sig_entries t' = alter (set_signaled false) n (sig_entries t) ∧
    (signal_pending t' = 0 ↔ ∀ i, ¬ pending_at (sig_entries t') i) ∧
    ((action e = SIG_ACTION_IGNORE ∧ r = Resume cpu0 ∧ state t' = TASK_STATE_RUNNING ∧ signal_scheduled t' = 0) ∨
     (action e = SIG_ACTION_EXIT ∧ r = Yield ∧ state t' = TASK_STATE_EXITING) ∨
     (action e = SIG_ACTION_USER ∧ r = Resume (signaled_cpu t') ∧ state t' = TASK_STATE_RUNNING ∧
      signal_scheduled t' = 1 ∧ esp0 s' = signaled_privilege_level0_stack_top t ∧
      (∃ f, cpus s' !! signaled_cpu t' = Some f ∧ eip f = user_entry_point e ∧ cs f = USER_CODE_SELECTOR ∧
            uwords s' !! esp f = Some ra ∧ uwords s' !! (esp f + 4) = Some (Z.of_nat n)) ∧
      ∃ s'', return_from_pl3_signal_context (signaled_cpu t') s' = Ok ((OK, cpu t), s'') ∧
        tasks s'' = <[c := set_signal_scheduled 0 t']> (tasks s) ∧ esp0 s'' = privilege_level0_stack_top t)).
Proof.
  intros Hr Hz Hn He Hd Hmin Hact. pose proof Hr as [Hc Hnn Ht Hu Hdep Hst Hlen Hid Hp].
  destruct (process_signal_found ra s c t cpu0 n e) as (p & Hp' & Hrun); try done; [unfold SIG_INVALID in Hn; lia|].
  cbv zeta in Hrun. set (t1 := set_signal_pending p _) in Hrun. rewrite Hrun. clear Hrun.
  destruct Hact as [Ha|[Ha|[Ha Hne]]]; rewrite Ha; simpl (_ =? _); cbn iota.
  - exists (Resume cpu0), (put_task s c t1), t1.
    rewrite (process_signal_out_ok _ c t1); [|by rewrite current_put|done|apply put_task_lookup].
    change (signal_scheduled t1) with (signal_scheduled t). rewrite Hid. split_and!; try done. left. by split_and!.
  - exists Yield, (put_task s c (set_state TASK_STATE_EXITING t1)), (set_state TASK_STATE_EXITING t1). split_and!; try done.
    + rewrite (bind_ok _ _ _ _ _ (transit_ok _ _ t1 TASK_STATE_EXITING (put_task_lookup _ _ _) ltac:(simpl; by rewrite Hst))).
      rewrite put_put. done.
    + by right; left.
  - destruct (prepare_signal_context_ok ra (put_task s c t1) c t1 n (set_signaled false e))
      as (s2 & Hr2 & Et2 & Ec2 & Hf2 & Hu2 & Hu2'); try done.
    { apply put_task_lookup. }
    { simpl. by rewrite list_lookup_alter_eq, He. }
    { simpl. unfold deliverable in Hd. by apply andb_true_iff in Hd as [? _]. }
    rewrite (bind_ok _ _ _ _ _ Hr2). set (t2 := set_signaled_cpu _ t1) in Et2.
    assert (tasks s2 !! c = Some t2) as Ht2 by (rewrite Et2; apply lookup_insert_eq).
    rewrite (update_task_run _ _ t2) by done. set (t3 := set_signal_scheduled 1 t2).
    rewrite (process_signal_out_ok _ c t3); [|by rewrite current_put, Ec2|done|apply put_task_lookup].
    change (ctrue (signal_scheduled t3)) with true. cbn iota.
    assert (<[c := t3]> (tasks s2) = <[c := t3]> (tasks s)) as Etasks.
    { rewrite Et2. simpl. by rewrite !insert_insert_eq. }
    eexists _, _, t3. split; [done|]. split; [exact Etasks|]. split_and!; [done|done|]. right. right. split_and!; try done.
    { exists (handler_frame (user_entry_point e)). split_and!; try done. }
    eexists. split.
    + apply (return_from_ok _ c t3); [simpl; by rewrite Ec2|done|simpl; apply lookup_insert_eq|done].
    + simpl. rewrite Et2. simpl. rewrite !insert_insert_eq. done.
Qed.

(** ** Waking the tasks of a queue *)
Definition roused (t : task) : task :=
  match state t with
  | TASK_STATE_INTERRUPTIBLE => set_state TASK_STATE_RUNNING t
  | TASK_STATE_UNINTERRUPTIBLE => set_non_stop_state TASK_STATE_RUNNING t
  | _ => t
  end.

Lemma roused_live t : live t → live (roused t).
Proof.
  intros [Hst Hl]. unfold roused. destruct Hst as [Hst|[Hst|[Hst Hns]]]; rewrite Hst; split; cbn; try done; auto.
Qed.

Lemma raw_wake_ok K a t : tasks K !! a = Some t → live t → raw_task_wake_up a K = Ok ((), put_task K a (roused t)).
Proof.
  intros Ht [Hst _]. unfold raw_task_wake_up, roused. rewrite (load_task_run _ _ t) by done. destruct Hst as [Hst|[Hst|[Hst Hns]]]; rewrite Hst.
  - by rewrite put_same.
  - apply transit_ok; [done|by rewrite Hst].
  - rewrite (bind_ok (ASSERT _) _ K () K) by (apply ASSERT_true; destruct Hns as [-> | ->]; reflexivity). by apply update_task_ok.
Qed.

(** the tasks that wait on a queue are alive *)
Definition waiting (K : kst) (q : list Z) : Prop := ∀ e, e ∈ q → ∃ a t, waits K !! e = Some a ∧ a ≠ NULL ∧ tasks K !! a = Some t ∧ live t.
(** [K'] is [K] with the tasks in [W] possibly woken up *)
Definition woken (W : list Z) (K K' : kst) : Prop :=
  K' = lset tasks_l (tasks K') K ∧ ∀ a, tasks K' !! a = tasks K !! a ∨ a ∈ W ∧ tasks K' !! a = roused <$> tasks K !! a.
Definition waiters (K : kst) (q : list Z) : list Z := omap (λ e, waits K !! e) q.

Lemma woken_refl W K : woken W K K.
Proof. split; [by destruct K|]. intros. by left. Qed.

Lemma roused_idem t : roused (roused t) = roused t.
Proof. unfold roused. destruct (state t) eqn:E; cbn; rewrite ?E; done. Qed.

Lemma woken_trans W K1 K2 K3 : woken W K1 K2 → woken W K2 K3 → woken W K1 K3.
Proof.
  intros [E1 H1] [E2 H2]. split; [rewrite E2, E1 at 1; done|]. intros a. destruct (H1 a) as [E|[Ha E]], (H2 a) as [E'|[Ha' E']]; rewrite E in E'; auto.
  right. split; [done|]. rewrite E'. destruct (tasks K1 !! a); [cbn; by rewrite roused_idem|done].
Qed.

Lemma woken_weaken W W' K K' : (∀ a, a ∈ W → a ∈ W') → woken W K K' → woken W' K K'.
Proof. intros Hsub [E H]. split; [done|]. intros a. destruct (H a) as [?|[? ?]]; auto. Qed.

Lemma woken_waiting W K K' q : woken W K K' → waiting K q → waiting K' q.
Proof.
  intros [E H] Hw e He. destruct (Hw e He) as (a & t & Hwa & Ha & Ht & Hl). rewrite E. cbn. exists a. destruct (H a) as [Hsame|[_ Hr]].
  - exists t. split_and!; try done. congruence.
  - exists (roused t). rewrite Ht in Hr. split_and!; try done. by apply roused_live.
Qed.

Lemma wake_queue_ok q K :
  waiting K q → ∃ K', wake_up q K = Ok ((), K') ∧ woken (waiters K q) K K' ∧ ∀ a, a ∈ waiters K q → tasks K' !! a = roused <$> tasks K !! a.
Proof.
  revert K. induction q as [|e q IH]; intros K Hw; cbn [wake_up].
  { exists K. split; [done|]. split; [apply woken_refl|]. intros a Ha. by apply elem_of_nil in Ha. }
  destruct (Hw e ltac:(by left)) as (a & t & Hwa & Ha & Ht & Hl).
  rewrite (bind_ok _ _ _ _ _ (zoom_ok waits_l _ K _ _ (load_ok _ _ _ Hwa))). replace (lset waits_l (waits K) K) with K by (by destruct K).
  rewrite (proj2 (ctrue_true a) Ha). mstep. rewrite (bind_ok _ _ _ _ _ (raw_wake_ok K a t Ht Hl)). set (K1 := put_task K a (roused t)).
  assert (woken (waiters K (e :: q)) K K1) as Hw1.
  { split; [done|]. intros b. cbn. rewrite Hwa. destruct (decide (b = a)) as [->|Hne]; [right; split; [by left|by rewrite lookup_insert_eq, Ht]|left; by rewrite lookup_insert_ne]. }
  destruct (IH K1) as (K' & Hr & Hw2 & Hall).
  { eapply woken_waiting; [exact Hw1|]. intros x Hx. apply Hw. by right. }
  assert (waiters K1 q = waiters K q) as Eq by done. rewrite Eq in *.
  assert (waiters K (e :: q) = a :: waiters K q) as Eeq by (cbn; by rewrite Hwa). exists K'. split; [exact Hr|]. split.
  - eapply woken_trans; [exact Hw1|]. eapply woken_weaken; [|exact Hw2]. intros b Hb. rewrite Eeq. by right.
  - intros b Hb. rewrite Eeq in Hb. destruct (decide (b ∈ waiters K q)) as [Hin|Hnin].
    + rewrite Hall by done. cbn. destruct (decide (b = a)) as [->|Hne]; [rewrite lookup_insert_eq, Ht; cbn; by rewrite roused_idem|by rewrite lookup_insert_ne].
    + apply elem_of_cons in Hb as [->|Hb]; [|done]. destruct Hw2 as [_ H2]. destruct (H2 a) as [->|[? _]]; [cbn; by rewrite lookup_insert_eq, Ht|done].
Qed.

Lemma add_fresh q wait : wait ∉ q → add_wait_queue_entry q wait = q ++ [wait].
Proof. intros H. unfold add_wait_queue_entry. by rewrite bool_decide_false. Qed.

Lemma remove_added q wait : wait ∉ q → remove_wait_queue_entry (q ++ [wait]) wait = q.
Proof.
  intros H. unfold remove_wait_queue_entry. rewrite bool_decide_true by (apply elem_of_app; right; by left). rewrite filter_app.
  rewrite (filter_cons_False _ wait) by tauto. rewrite filter_nil, app_nil_r. clear -H. induction q as [|x q IH]; [done|].
  rewrite filter_cons_True by (intros ->; apply H; by left). f_equal. apply IH. intros Hq. apply H. by right.
Qed.

(** ** Examples *)
Module TaskExample.
Definition user_task (st : task_state) (sigs : list signal_entry) (pend : Z) : task :=
  mk_task 5 st TASK_STATE_ZOMBIE 1 0x9000 0 0 pend 0 0 sigs [] [] [] 0x4001000 DPL_3 0x8000 0xa000 0xa000 0xc000 0x40000000.
Definition kernel (t : task) : kst :=
  mk_kst {[1 := t]} [] [] [] [] 1 1 2 ∅ 0 ∅ ∅ {[5 := 1]} ∅ [] (mk_tp (mk_pstate (mk_palloc ∅ ∅ 0 0 0) ∅ 0 0) ∅).
Definition running : task := user_task TASK_STATE_RUNNING initial_signals 0.

Lemma task_refines_lts_witness :
  let evs := [EvSignal SIGSTOP; EvSignal SIGINT; EvSignal SIGCONT; EvBlock; EvSignal SIGTSTP; EvWake; EvSignal SIGCONT] in
  ∃ t', exec_events 1 evs (kernel running) = Ok ((), put_task (kernel running) 1 t') ∧ live t' ∧
        abs t' = mk_abs false true (<[2%nat := true]> (replicate 28 false)) ∧
        dispositions (sig_entries t') = dispositions initial_signals.
Proof.
  apply (task_refines_lts [EvSignal SIGSTOP; EvSignal SIGINT; EvSignal SIGCONT; EvBlock; EvSignal SIGTSTP; EvWake; EvSignal SIGCONT]
    (kernel running) 1 running); [reflexivity|split; [by left|reflexivity]|reflexivity].
Defined.

(** SIGINT caught by a handler at 0x40001000, and pending *)
Definition caught : task :=
  user_task TASK_STATE_RUNNING (<[2%nat := mk_sig true true true SIG_ACTION_USER 0x40001000]> initial_signals) 1.

Lemma task_process_signal_delivers_witness :
  let s := kernel caught in let e := mk_sig true true true SIG_ACTION_USER 0x40001000 in
  ∃ r s' t', task_process_signal 0x101234 0x9000 s = Ok (r, s') ∧ tasks s' = <[1 := t']> (tasks s) ∧
    sig_entries t' = alter (set_signaled false) 2%nat (sig_entries caught) ∧
    (signal_pending t' = 0 ↔ ∀ i, ¬ pending_at (sig_entries t') i) ∧
    ((action e = SIG_ACTION_IGNORE ∧ r = Resume 0x9000 ∧ state t' = TASK_STATE_RUNNING ∧ signal_scheduled t' = 0) ∨
     (action e = SIG_ACTION_EXIT ∧ r = Yield ∧ state t' = TASK_STATE_EXITING) ∨
     (action e = SIG_ACTION_USER ∧ r = Resume (signaled_cpu t') ∧ state t' = TASK_STATE_RUNNING ∧
      signal_scheduled t' = 1 ∧ esp0 s' = signaled_privilege_level0_stack_top caught ∧
      (∃ f, cpus s' !! signaled_cpu t' = Some f ∧ eip f = user_entry_point e ∧ cs f = USER_CODE_SELECTOR ∧
            uwords s' !! esp f = Some 0x101234 ∧ uwords s' !! (esp f + 4) = Some (Z.of_nat 2)) ∧
      ∃ s'', return_from_pl3_signal_context (signaled_cpu t') s' = Ok ((OK, cpu caught), s'') ∧
        tasks s'' = <[1 := set_signal_scheduled 0 t']> (tasks s) ∧ esp0 s'' = privilege_level0_stack_top caught)).
Proof.
  apply (task_process_signal_delivers 0x101234 (kernel caught) 1 caught 0x9000 2 (mk_sig true true true SIG_ACTION_USER 0x40001000));
    [by split|by intros e [= <-]|by vm_compute|reflexivity|reflexivity| |by right; right].
  intros [|[|j]] Hj (e & He & Hd); [vm_compute in He; injection He as <-; done..|lia].
Defined.

(** A signal to a task that is already exiting but not yet reclaimed stops the
    kernel: [raw_task_wake_up] has no case for it. *)
Theorem kill_exiting_task_panics :
  call_sys_kill 5 SIGTERM (kernel (user_task TASK_STATE_EXITING initial_signals 0)) = Err AssertFail.
Proof. vm_compute. reflexivity. Qed.

(** [call_sys_kill] reads the task's privilege level before it tests the
    pointer: an unknown task id is a NULL access. *)
Theorem kill_unknown_task_reads_null : call_sys_kill 77 SIGTERM (kernel running) = Err BadAccess.
Proof. vm_compute. reflexivity. Qed.

(** [call_sys_signal] accepts a null handler; the next delivery stops the kernel. *)
Theorem null_handler_panics :
  (r ← call_sys_signal SIGINT 0; signal_task 1 SIGINT ;; task_process_signal 0x101234 0x9000) (kernel running) = Err AssertFail.
Proof. vm_compute. reflexivity. Qed.

(** An exit signal that is delivered while the task is stopped stops the kernel:
    UNINTERRUPTIBLE to EXITING is not in the transition table, although the
    assertion at the start of [task_process_signal] admits a stopped task. *)
Theorem exit_signal_while_stopped_panics :
  (signal_task 1 SIGTERM ;; signal_task 1 SIGSTOP ;; task_process_signal 0x101234 0x9000) (kernel running) = Err AssertFail.
Proof. vm_compute. reflexivity. Qed.

(** A work queue task is a kernel task, whose signal entries are all invalid:
    the signals with which it means to end itself are refused and the thread
    function returns with the task still running. *)
Theorem work_queue_task_never_exits :
  let t := user_task TASK_STATE_RUNNING (replicate 28 no_signal) 0 in
  work_queue_loop (mk_wq 1 []) (kernel t) = Ok ((), kernel t).
Proof. vm_compute. reflexivity. Qed.
End TaskExample.
