(* ===== verification/Sched.v ===== *)
(** * The scheduler and the end of a task: kernel/task.c

    The four task lists are sequences of task addresses, at most one of which a
    task is on (a task has a single [list] node).  An operation outside the
    contract of the list operations (DList) is a fault. *)

From stdpp Require Import gmap list.
From S2P Require Import Prelude PageAlloc Paging Vma TaskPaging Task.
Open Scope Z_scope.
Open Scope zelda_scope.

(** ** Task lists *)

(** all list nodes in use *)
Definition queued (s : kst) : list Z := run_queue s ++ exit_queue s ++ zombie_queue s ++ blocking_queue s.

(** [list_append(head, &task->list)] *)
Definition append_to (q : lens kst (list Z)) (a : Z) : M kst () :=
  λ s, if bool_decide (a ∈ queued s) then Err BadAccess else Ok ((), lset q (lget q s ++ [a]) s).

(** [list_fetch(head)] *)
Definition fetch_from (q : lens kst (list Z)) : M kst Z :=
  λ s, match lget q s with [] => Ok (NULL, s) | a :: l => Ok (a, lset q l s) end.

(** [list_delete(head, &task->list)] *)
Definition delete_from (q : lens kst (list Z)) (a : Z) : M kst () :=
  λ s, if bool_decide (a ∈ lget q s) then Ok ((), lset q (filter (λ x, x ≠ a) (lget q s)) s) else Err AssertFail.

Definition task_put (_task : Z) : M kst () := append_to run_queue_l _task.
Definition task_get : M kst Z := fetch_from run_queue_l.

(** [LIST_FOREACH] over the blocking list: the body unlinks at most the current element *)
Fixpoint blocking_loop (l : list Z) : M kst () :=
  match l with
  | [] => mret ()
  | a :: l =>
      t ← load_task a;
      match state t with
      | TASK_STATE_RUNNING | TASK_STATE_EXITING => delete_from blocking_queue_l a ;; task_put a
      | TASK_STATE_INTERRUPTIBLE | TASK_STATE_UNINTERRUPTIBLE => mret ()
      | TASK_STATE_ZOMBIE => delete_from blocking_queue_l a ;; append_to zombie_queue_l a
      end ;;
      blocking_loop l
  end.

Definition process_blocking_task_list : M kst () :=
  l ← gets blocking_queue;
  blocking_loop l.

(** ** The end of a task *)
Definition kfree (a : Z) : M kst () := zoom heap_frees_l (modify (λ l, l ++ [a])).

(** the eviction of all user areas *)
Fixpoint evict_areas (page_directory : Z) (vma_list l : list Z) : M tpstate () :=
  match l with
  | [] => mret ()
  | a :: l =>
      v ← zoom tareas_l (load a);
      when (! a_kernel_vma v) (userspace_evict_vma page_directory vma_list a ;; mret ()) ;;
      evict_areas page_directory vma_list l
  end.

(** freeing the areas: [list_pop] takes them from the end *)
Fixpoint free_areas (l : list Z) : M kst () :=
  match l with
  | [] => mret ()
  | a :: l => zoom paging_l (zoom tareas_l (modify (delete a))) ;; kfree a ;; free_areas l
  end.

Definition do_vfs_close (file : Z) : M kst Z :=
  zoom refer_count_l (update file (λ n, u32 (n - 1))) ;;
  mret OK.

Definition closed_entry : file_entry := mk_fe NULL 0 false false.

(** the loop over the descriptors from [idx] on *)
Fixpoint close_files (a : Z) (idx : nat) (l : list file_entry) : M kst () :=
  match l with
  | [] => mret ()
  | e :: l =>
      when (fe_valid e) (
        ASSERT (ctrue (fe_file e)) ;;
        do_vfs_close (fe_file e) ;;
        update_task a (λ t, set_file_entries (<[idx := closed_entry]> (file_entries t)) t)) ;;
      close_files a (S idx) l
  end.

Definition unregister_task_from_task_table (a : Z) : M kst Z :=
  t ← load_task a;
  tab ← gets task_table;
  match tab !! task_id t with
  | None => mret (- ERR_NOT_PRESENT)
  | Some _ => zoom task_table_l (modify (delete (task_id t))) ;; mret OK
  end.

Definition register_task_in_task_table (a : Z) : M kst Z :=
  t ← load_task a;
  tab ← gets task_table;
  match tab !! task_id t with
  | Some _ => mret (- ERR_EXIST)
  | None => zoom task_table_l (modify (<[task_id t := a]>)) ;; mret OK
  end.

Definition free_task (a : Z) : M kst () :=
  when (ctrue a) (
    t ← load_task a;
    when (ctrue (privilege_level0_stack t)) (kfree (privilege_level0_stack t)) ;;
    kfree a ;;
    zoom tasks_l (modify (delete a))).

Definition reclaim_task (a : Z) : M kst Z :=
  q ← gets queued;
  ASSERT (negb (bool_decide (a ∈ q))) ;;
  t ← load_task a;
  zoom paging_l (evict_areas (page_directory t) (vma_list t) (vma_list t)) ;;
  when (ctrue (page_directory t)) (zoom paging_l (on_pal (free_base_page (page_directory t)))) ;;
  free_areas (rev (vma_list t)) ;;
  update_task a (set_vma_list []) ;;
  close_files a 0 (file_entries t) ;;
  when (ctrue (privilege_level0_stack t)) (kfree (privilege_level0_stack t)) ;;
  when (ctrue (signaled_privilege_level0_stack t)) (kfree (signaled_privilege_level0_stack t)) ;;
  rc ← unregister_task_from_task_table a;
  ASSERT (rc =? OK) ;;
  free_task a ;;
  mret OK.

(** [while ((_list = list_fetch(&task_exit_list_head)))] *)
Fixpoint exit_loop (fuel : nat) : M kst () :=
  match fuel with
  | O => fail Diverge
  | S fuel =>
      a ← fetch_from exit_queue_l;
      if ! a then mret () else
      t ← load_task a;
      ASSERT (bool_decide (state t = TASK_STATE_EXITING)) ;;
      wake_up (wq_termination t) ;;
      reclaim_task a ;;
      exit_loop fuel
  end.

Definition process_exit_task_list : M kst () :=
  n ← gets (λ s, length (exit_queue s));
  exit_loop (S n).

(** ** Picking the next task *)
Fixpoint pick_loop (fuel : nat) : M kst Z :=
  match fuel with
  | O => fail Diverge
  | S fuel =>
      _next_task ← task_get;
      if ! _next_task then mret NULL else
      t ← load_task _next_task;
      match state t with
      | TASK_STATE_EXITING => append_to exit_queue_l _next_task ;; pick_loop fuel
      | TASK_STATE_RUNNING => mret _next_task
      | TASK_STATE_ZOMBIE => append_to zombie_queue_l _next_task ;; pick_loop fuel
      | TASK_STATE_INTERRUPTIBLE | TASK_STATE_UNINTERRUPTIBLE =>
          append_to blocking_queue_l _next_task ;; pick_loop fuel
      end
  end.

Definition set_current (a : Z) : M kst () := zoom current_l (modify (λ _, a)).

Definition schedule (cpu0 : Z) : M kst Z :=
  c ← gets current;
  idle ← gets kernel_idle_task;
  when (ctrue c) (
    when (negb (c =? idle)) (task_put c) ;;
    set_current NULL) ;;
  process_blocking_task_list ;;
  process_exit_task_list ;;
  n ← gets (λ s, length (run_queue s));
  _next_task ← pick_loop (S n);
  let next := if ctrue _next_task then _next_task else idle in
  t ← load_task next;
  set_current next ;;
  ASSERT (ctrue next) ;;
  update_task next (λ t, set_schedule_counter (u32 (schedule_counter t + 1)) t) ;;
  zoom paging_l (on_ps (enable_task_paging (page_directory t))) ;;
  set_tss_privilege_level0_stack (privilege_level0_stack_top t) ;;
  mret (cpu t).

(** [cpu_yield_handler] of kernel/task_misc.c *)
Definition cpu_yield_handler (cpu0 : Z) : M kst Z :=
  r ← gets __ready_to_schedule;
  if ctrue r then schedule cpu0 else mret cpu0.

(** ** Queues *)

(** [s] with other task lists *)
Definition with_queues (s : kst) (r e z b : list Z) : kst :=
  lset run_queue_l r (lset exit_queue_l e (lset zombie_queue_l z (lset blocking_queue_l b s))).

Lemma with_queues_id s : with_queues s (run_queue s) (exit_queue s) (zombie_queue s) (blocking_queue s) = s.
Proof. by destruct s. Qed.

(** the addresses of [l] whose task's state satisfies [P] *)
Definition in_state (σ : gmap Z task) (P : task_state → bool) (a : Z) : bool :=
  match σ !! a with Some t => P (state t) | None => false end.
Definition select (σ : gmap Z task) (P : task_state → bool) (l : list Z) : list Z := filter (λ a, in_state σ P a) l.

Definition runnable (st : task_state) : bool :=
  match st with TASK_STATE_RUNNING | TASK_STATE_EXITING => true | _ => false end.
Definition blocked (st : task_state) : bool :=
  match st with TASK_STATE_INTERRUPTIBLE | TASK_STATE_UNINTERRUPTIBLE => true | _ => false end.
Definition zombie (st : task_state) : bool := bool_decide (st = TASK_STATE_ZOMBIE).
Definition exiting (st : task_state) : bool := bool_decide (st = TASK_STATE_EXITING).
Definition running (st : task_state) : bool := bool_decide (st = TASK_STATE_RUNNING).

Lemma select_cons σ P a l t :
  σ !! a = Some t → select σ P (a :: l) = if P (state t) then a :: select σ P l else select σ P l.
Proof.
  intros Ht. unfold select. assert (in_state σ P a = P (state t)) as E by (unfold in_state; by rewrite Ht).
  destruct (P (state t)).
  - by rewrite filter_cons_True by (by rewrite E).
  - rewrite filter_cons_False; [done|]. rewrite E. by intros [].
Qed.

Definition tasks_exist (σ : gmap Z task) (l : list Z) : Prop := ∀ a, a ∈ l → a ≠ NULL ∧ is_Some (σ !! a).

Lemma tasks_exist_cons σ a l : tasks_exist σ (a :: l) → a ≠ NULL ∧ (∃ t, σ !! a = Some t) ∧ tasks_exist σ l.
Proof.
  intros H. destruct (H a) as [? [t ?]]; [by left|]. split_and!; [done|by exists t|]. intros b Hb. apply H. by right.
Qed.

Lemma append_run s r e z b a :
  (a ∉ r ++ e ++ z ++ b) → append_to run_queue_l a (with_queues s r e z b) = Ok ((), with_queues s (r ++ [a]) e z b).
Proof. intros Ha. unfold append_to, queued. simpl. by rewrite bool_decide_false. Qed.
Lemma append_exit s r e z b a :
  (a ∉ r ++ e ++ z ++ b) → append_to exit_queue_l a (with_queues s r e z b) = Ok ((), with_queues s r (e ++ [a]) z b).
Proof. intros Ha. unfold append_to, queued. simpl. by rewrite bool_decide_false. Qed.
Lemma append_zombie s r e z b a :
  (a ∉ r ++ e ++ z ++ b) → append_to zombie_queue_l a (with_queues s r e z b) = Ok ((), with_queues s r e (z ++ [a]) b).
Proof. intros Ha. unfold append_to, queued. simpl. by rewrite bool_decide_false. Qed.
Lemma append_blocking s r e z b a :
  (a ∉ r ++ e ++ z ++ b) → append_to blocking_queue_l a (with_queues s r e z b) = Ok ((), with_queues s r e z (b ++ [a])).
Proof. intros Ha. unfold append_to, queued. simpl. by rewrite bool_decide_false. Qed.

Lemma filter_ne_absent {A} `{EqDecision A} (a : A) (l : list A) : (a ∉ l) → filter (λ x, x ≠ a) l = l.
Proof. intros Ha. apply filter_keeps. by intros x Hx ->. Qed.

Lemma delete_blocking s r e z b1 b2 a :
  (a ∉ b1) → (a ∉ b2) →
  delete_from blocking_queue_l a (with_queues s r e z (b1 ++ a :: b2)) = Ok ((), with_queues s r e z (b1 ++ b2)).
Proof.
  intros H1 H2. unfold delete_from. simpl. rewrite bool_decide_true by (apply elem_of_app; right; by left).
  do 3 f_equal. rewrite filter_app, filter_cons_False by (by intros ?). by rewrite !filter_ne_absent.
Qed.

(** the pass over the blocking list *)
Lemma blocking_loop_ok s r e z keep l :
  tasks_exist (tasks s) l → NoDup (r ++ e ++ z ++ keep ++ l) →
  blocking_loop l (with_queues s r e z (keep ++ l)) =
  Ok ((), with_queues s (r ++ select (tasks s) runnable l) e (z ++ select (tasks s) zombie l) (keep ++ select (tasks s) blocked l)).
Proof.
  revert r z keep. induction l as [|a l IH]; intros r z keep Hex Hnd; cbn [blocking_loop].
  { unfold select. rewrite !filter_nil, !app_nil_r. done. }
  apply tasks_exist_cons in Hex as (_ & (t & Ht) & Hex).
  assert ((a ∉ r) ∧ (a ∉ e) ∧ (a ∉ z) ∧ (a ∉ keep) ∧ (a ∉ l)) as (N1 & N2 & N3 & N4 & N5).
  { rewrite !app_assoc in Hnd. apply NoDup_middle in Hnd as (Ha & Hl & _). rewrite !not_elem_of_app in Ha. tauto. }
  assert (NoDup (r ++ e ++ z ++ keep ++ l)) as Hnd'.
  { rewrite !app_assoc in Hnd |- *. by apply NoDup_middle in Hnd as (_ & _ & ?). }
  rewrite (load_task_run _ _ t) by done. rewrite !(select_cons _ _ _ _ _ Ht).
  assert (∀ l1 l2, l1 ++ l2 = r ++ e ++ z ++ keep ++ l → NoDup (l1 ++ a :: l2)) as Hins.
  { intros l1 l2 E. apply NoDup_middle. rewrite E. split_and!; [| |done].
    - intros Hin. assert (a ∈ r ++ e ++ z ++ keep ++ l) as H by (rewrite <-E; apply elem_of_app; by left).
      revert H. rewrite !elem_of_app. tauto.
    - intros Hin. assert (a ∈ r ++ e ++ z ++ keep ++ l) as H by (rewrite <-E; apply elem_of_app; by right).
      revert H. rewrite !elem_of_app. tauto. }
  assert (a ∉ r ++ e ++ z ++ keep ++ l) as Hout by (rewrite !elem_of_app; tauto).
  destruct (state t) eqn:Hst; simpl.
  1,2,5: rewrite bind_assoc_run, (bind_ok _ _ _ _ _ (delete_blocking _ _ _ _ _ _ _ N4 N5)).
  - rewrite (bind_ok _ _ _ _ _ (append_zombie s r e z (keep ++ l) a Hout)), IH; [by rewrite <-app_assoc|done|].
    replace (r ++ e ++ (z ++ [a]) ++ keep ++ l) with ((r ++ e ++ z) ++ a :: (keep ++ l)) by (by rewrite <-!app_assoc).
    apply Hins. by rewrite <-!app_assoc.
  - unfold task_put. rewrite (bind_ok _ _ _ _ _ (append_run s r e z (keep ++ l) a Hout)), IH; [by rewrite <-app_assoc|done|].
    replace ((r ++ [a]) ++ e ++ z ++ keep ++ l) with (r ++ a :: (e ++ z ++ keep ++ l)) by (by rewrite <-!app_assoc).
    by apply Hins.
  - unfold task_put. rewrite (bind_ok _ _ _ _ _ (append_run s r e z (keep ++ l) a Hout)), IH; [by rewrite <-app_assoc|done|].
    replace ((r ++ [a]) ++ e ++ z ++ keep ++ l) with (r ++ a :: (e ++ z ++ keep ++ l)) by (by rewrite <-!app_assoc).
    by apply Hins.
  - mstep. specialize (IH r z (keep ++ [a])). rewrite <-!app_assoc in IH. by apply IH.
  - mstep. specialize (IH r z (keep ++ [a])). rewrite <-!app_assoc in IH. by apply IH.
Qed.

(** no task of [l] runs *)
Definition none_running (σ : gmap Z task) (l : list Z) : Prop := ∀ a, a ∈ l → in_state σ running a = false.

Lemma pick_loop_ok s fuel r e z b :
  tasks_exist (tasks s) r → NoDup (r ++ e ++ z ++ b) → (length r < fuel)%nat →
  ∃ a pre post, pick_loop fuel (with_queues s r e z b) =
    Ok (a, with_queues s post (e ++ select (tasks s) exiting pre) (z ++ select (tasks s) zombie pre)
             (b ++ select (tasks s) blocked pre)) ∧
    none_running (tasks s) pre ∧
    ((a = NULL ∧ r = pre ∧ post = []) ∨ (r = pre ++ a :: post ∧ in_state (tasks s) running a = true ∧ a ≠ NULL)).
Proof.
  revert fuel e z b. induction r as [|a r IH]; intros fuel e z b Hex Hnd Hf; (destruct fuel as [|fuel]; [simpl in Hf; lia|]).
  { exists NULL, [], []. unfold select. rewrite !filter_nil, !app_nil_r. split_and!; [done| |by left].
    intros a Ha. by apply not_elem_of_nil in Ha. }
  apply tasks_exist_cons in Hex as (Hnn & (t & Ht) & Hex). cbn [pick_loop]. unfold task_get.
  rewrite (bind_ok _ _ _ a (with_queues s r e z b)) by reflexivity. rewrite (proj2 (ctrue_true a)) by done. cbn [negb].
  rewrite (load_task_run _ _ t) by done.
  assert ((a ∉ r ++ e ++ z ++ b) ∧ NoDup (r ++ e ++ z ++ b)) as [Hout Hnd'] by (simpl in Hnd; by apply NoDup_cons in Hnd).
  assert (∀ l1 l2, l1 ++ l2 = r ++ e ++ z ++ b → NoDup (l1 ++ a :: l2)) as Hins.
  { intros l1 l2 E. apply NoDup_middle. rewrite E. rewrite <-E in Hout. apply not_elem_of_app in Hout. tauto. }
  assert (∀ pre, none_running (tasks s) pre → state t ≠ TASK_STATE_RUNNING → none_running (tasks s) (a :: pre)) as Hnone.
  { intros pre Hp Hst b' [->|Hb]%elem_of_cons; [|by apply Hp]. unfold in_state. rewrite Ht. unfold running. by rewrite bool_decide_false. }
  destruct (state t) eqn:Hst.
  2: { exists a, [], r. unfold select. rewrite !filter_nil, !app_nil_r. split_and!; [done| |].
       - intros b' Hb. by apply not_elem_of_nil in Hb.
       - right. split_and!; [done| |done]. unfold in_state. by rewrite Ht, Hst. }
  1: rewrite (bind_ok _ _ _ _ _ (append_zombie s r e z b a Hout));
     destruct (IH fuel e (z ++ [a]) b) as (x & pre & post & Hr & Hn & Hc);
       [done|rewrite <-!app_assoc; rewrite (app_assoc r), (app_assoc (r ++ e)); apply Hins; by rewrite <-!app_assoc|simpl in Hf; lia|].
  4: rewrite (bind_ok _ _ _ _ _ (append_exit s r e z b a Hout));
     destruct (IH fuel (e ++ [a]) z b) as (x & pre & post & Hr & Hn & Hc);
       [done|rewrite <-!app_assoc; rewrite (app_assoc r); apply Hins; by rewrite <-!app_assoc|simpl in Hf; lia|].
  2,3: rewrite (bind_ok _ _ _ _ _ (append_blocking s r e z b a Hout));
     destruct (IH fuel e z (b ++ [a])) as (x & pre & post & Hr & Hn & Hc);
       [done|rewrite !app_assoc; apply Hins; by rewrite app_nil_r, <-!app_assoc|simpl in Hf; lia|].
  all: exists x, (a :: pre), post; rewrite Hr, !(select_cons _ _ _ _ _ Ht), Hst; rewrite <-?app_assoc; split_and!;
    [done|by apply Hnone|destruct Hc as [(-> & -> & ->)|(-> & ? & ?)]; [by left|by right]].
Qed.

(** ** The scheduler's invariant *)

(** the task on the CPU, unless it is the idle task *)
Definition held (s : kst) : list Z := if ctrue (current s) && negb (current s =? kernel_idle_task s) then [current s] else [].

Record sched_ok (s : kst) : Prop := {
  so_nodup : NoDup (queued s ++ held s);
  so_tasks : tasks_exist (tasks s) (queued s ++ held s);
  so_not_idle : kernel_idle_task s ∉ queued s;
  so_idle : kernel_idle_task s ≠ NULL ∧ is_Some (tasks s !! kernel_idle_task s) }.

(** the task directories [enable_task_paging] may be given *)
Record spaces_ok (s : kst) : Prop := {
  sp_kernel : ∃ i, kernel_page_directory (tps (paging s)) = base_page i;
  sp_words : has_page (mem (tps (paging s))) (kernel_page_directory (tps (paging s)));
  sp_tasks : ∀ a t, tasks s !! a = Some t →
    page_directory t = 0 ∨
    (∃ i, page_directory t = base_page i) ∧ page_directory t ≠ kernel_page_directory (tps (paging s)) ∧
    has_page (mem (tps (paging s))) (page_directory t) }.

Lemma enable_task_paging_runs p pd :
  (∃ i, kernel_page_directory p = base_page i) → has_page (mem p) (kernel_page_directory p) →
  (pd = 0 ∨ (∃ i, pd = base_page i) ∧ pd ≠ kernel_page_directory p ∧ has_page (mem p) pd) →
  ∃ p', enable_task_paging pd p = Ok (OK, p') ∧ cr3 p' = kernel_page_directory p.
Proof.
  intros Hk Hkw Hpd. destruct (copy_entries_ok 768 256 pd (kernel_page_directory p) p) as (m' & Hr & _); try done.
  exists (mk_pstate (pal p) m' (kernel_page_directory p) (kernel_page_directory p)). split; [|done].
  unfold enable_task_paging, get_kernel_page_directory. mstep.
  change (Z.to_nat (1024 - directory_index_top)) with 768%nat. change directory_index_top with 256.
  by rewrite (bind_ok _ _ _ _ _ Hr).
Qed.

Lemma select_parts σ l :
  tasks_exist σ l → l ≡ₚ select σ runnable l ++ select σ zombie l ++ select σ blocked l.
Proof.
  induction l as [|a l IH]; intros Hex; [done|]. apply tasks_exist_cons in Hex as (_ & (t & Ht) & Hex).
  rewrite !(select_cons _ _ _ _ _ Ht). destruct (state t); simpl; rewrite <-?Permutation_middle; by rewrite <-IH.
Qed.

Lemma select_stopped σ l :
  tasks_exist σ l → none_running σ l → l ≡ₚ select σ exiting l ++ select σ zombie l ++ select σ blocked l.
Proof.
  induction l as [|a l IH]; intros Hex Hn; [done|]. apply tasks_exist_cons in Hex as (_ & (t & Ht) & Hex).
  assert (in_state σ running a = false) as Ha by (apply Hn; by left). unfold in_state in Ha. rewrite Ht in Ha.
  assert (none_running σ l) as Hn' by (intros b Hb; apply Hn; by right).
  rewrite !(select_cons _ _ _ _ _ Ht). destruct (state t); simpl; try done; rewrite <-?Permutation_middle; by rewrite <-IH.
Qed.

(** permutations of appends, by counting occurrences *)
Lemma perm_count (l1 l2 : list Z) : (∀ x, count_occ Z.eq_dec l1 x = count_occ Z.eq_dec l2 x) → l1 ≡ₚ l2.
Proof. apply (Permutation_count_occ Z.eq_dec). Qed.

Lemma count_perm (l1 l2 : list Z) x : l1 ≡ₚ l2 → count_occ Z.eq_dec l1 x = count_occ Z.eq_dec l2 x.
Proof. intros H. by apply (Permutation_count_occ Z.eq_dec). Qed.

Ltac perm :=
  apply perm_count; let x := fresh "x" in intros x;
  repeat match goal with H : _ ≡ₚ _ |- _ => apply (count_perm _ _ x) in H end;
  rewrite ?count_occ_app in *; lia.

Lemma NoDup_perm {A} (l1 l2 : list A) : NoDup l1 → l2 ≡ₚ l1 → NoDup l2.
Proof. intros H Hp. by rewrite Hp. Qed.

(** [schedule] up to the choice of the next task: the current task goes to the
    end of the run queue *)
Lemma put_current_ok s :
  sched_ok s →
  when (ctrue (current s)) (when (negb (current s =? kernel_idle_task s)) (task_put (current s)) ;; set_current NULL) s =
  Ok ((), with_queues (lset current_l NULL s) (run_queue s ++ held s) (exit_queue s) (zombie_queue s) (blocking_queue s)).
Proof.
  intros [Hnd _ _ _]. unfold held in *. destruct (ctrue (current s)) eqn:Hc; cbn [andb] in *.
  - unfold when at 1. destruct (negb (current s =? kernel_idle_task s)).
    + unfold when, task_put, append_to. unfold mbind, M_bind. rewrite bool_decide_false; [by destruct s|].
      apply NoDup_app in Hnd as (_ & H & _). intros Hin. apply (H _ Hin). by left.
    + rewrite app_nil_r. by destruct s.
  - apply ctrue_false in Hc. rewrite app_nil_r. destruct s. simpl in *. by subst.
Qed.

(** ** The end of a task *)
#[local] Ltac Zify.zify_post_hook ::= Z.to_euclidean_division_equations.

(** the user areas of a list *)
Definition user_area (σ : areas) (a : Z) : option vm_area :=
  match σ !! a with Some v => if ctrue (a_kernel_vma v) then None else Some v | None => None end.
Lemma user_area_some σ a v : user_area σ a = Some v ↔ σ !! a = Some v ∧ a_kernel_vma v = 0.
Proof.
  unfold user_area. destruct (σ !! a) as [w|]; [|by split; [done|intros [? _]]].
  destruct (ctrue (a_kernel_vma w)) eqn:Hk; [apply ctrue_true in Hk|apply ctrue_false in Hk]; split; [done|by intros [[= ->] ?]|by intros [= ->]|by intros [[= ->] _]].
Qed.

Definition covers (v : vm_area) (va : Z) : Prop := a_virt_addr v ≤ va < a_virt_addr v + rounded (a_length v).
#[global] Instance covers_dec v va : Decision (covers v va) := _.
Definition covered (vs : list vm_area) (va : Z) : Prop := Exists (λ v, covers v va) vs.
#[global] Instance covered_dec vs va : Decision (covered vs va) := _.

(** [p] is [p0] with all pages of the areas [vs] evicted *)
Record all_swept (vs : list vm_area) (pd : Z) (p0 p : pstate) : Prop := {
  as_dir : dir_ok p pd;
  as_base : base_ok (pal p);
  as_kernel : kernel_page_directory p = kernel_page_directory p0;
  as_cr3 : cr3 p = cr3 p0;
  as_trims : trims pd p0 p;
  as_pages : ∀ va, 0 ≤ va < 4294967296 → translate (mem p) pd va =
    if decide (covered vs va) then None else translate (mem p0) pd va;
  as_freed : ∀ fn v va, v ∈ vs → covers v va → gives_back v (translate (mem p0) pd va) fn = true →
    occupied (free_page_bitmap (pal p)) fn = false;
  as_kept : ∀ fn, (∀ v va, v ∈ vs → covers v va → gives_back v (translate (mem p0) pd va) fn = false) →
    occupied (free_page_bitmap (pal p)) fn = occupied (free_page_bitmap (pal p0)) fn }.

Lemma all_swept_start pd p : dir_ok p pd → base_ok (pal p) → all_swept [] pd p p.
Proof.
  intros Hd Hb. split; try done; [apply trims_refl|]. intros fn v va Hv. by apply not_elem_of_nil in Hv.
Qed.

Lemma rounded_disjoint v w va :
  aligned (a_virt_addr v) → aligned (a_virt_addr w) → disjoint_uareas v w → covers v va → covers w va → False.
Proof. unfold aligned, disjoint_uareas, covers, rounded. intros. lia. Qed.

Lemma covers_range v va : uarea_ok v → aligned (a_virt_addr v) → covers v va → 0 ≤ va < 4294967296.
Proof. unfold uarea_ok, covers, rounded, aligned. intros. lia. Qed.

Lemma all_swept_step vs v pd p0 p p' :
  all_swept vs pd p0 p → swept v pd (a_virt_addr v + rounded (a_length v)) p p' → uarea_ok v → aligned (a_virt_addr v) →
  (∀ w, w ∈ vs → aligned (a_virt_addr w) ∧ disjoint_uareas w v) → all_swept (vs ++ [v]) pd p0 p'.
Proof.
  intros Has Hsw Hok Hal Hdis.
  assert (∀ va, covers v va → translate (mem p) pd va = translate (mem p0) pd va) as Hsame.
  { intros va Hc. rewrite (as_pages _ _ _ _ Has) by (by eapply covers_range). rewrite decide_False; [done|].
    intros (w & Hw & Hcw)%Exists_exists. destruct (Hdis w Hw). by apply (rounded_disjoint w v va). }
  split; [apply (sw_dir _ _ _ _ _ Hsw)|apply (sw_base _ _ _ _ _ Hsw)| | | | | |].
  - rewrite (sw_kernel _ _ _ _ _ Hsw). apply Has.
  - rewrite (sw_cr3 _ _ _ _ _ Hsw). apply Has.
  - eapply trims_trans; [by eapply as_trims|by eapply sw_trims].
  - intros va Hva. rewrite (sw_pages _ _ _ _ _ Hsw) by done. unfold covered. rewrite (as_pages _ _ _ _ Has) by done.
    destruct (decide (_ ≤ va < _)) as [Hc|Hc].
    + rewrite decide_True; [done|]. apply Exists_app. right. by left.
    + apply decide_ext. unfold covered. rewrite Exists_app, Exists_cons, Exists_nil. unfold covers at 3. tauto.
  - intros fn w va [Hw|Hw]%elem_of_app Hc Hg.
    + pose proof (as_freed _ _ _ _ Has fn w va Hw Hc Hg) as Hf.
      destruct (gives_back_dec v pd p (a_virt_addr v + rounded (a_length v)) fn) as [(va' & Hva' & Hg')|Hno].
      * by apply (sw_freed _ _ _ _ _ Hsw fn va').
      * by rewrite (sw_kept _ _ _ _ _ Hsw).
    + apply list_elem_of_singleton in Hw as ->. apply (sw_freed _ _ _ _ _ Hsw fn va Hc). by rewrite Hsame.
  - intros fn Hno. rewrite (sw_kept _ _ _ _ _ Hsw).
    + apply (as_kept _ _ _ _ Has). intros w va Hw. apply Hno. apply elem_of_app. by left.
    + intros va Hva. rewrite Hsame by done. apply Hno; [|done]. apply elem_of_app. right. by left.
Qed.

Lemma evict_areas_ok σ pd l done_ rest p0 p :
  uareas_ok σ l → l = done_ ++ rest →
  (∀ a v, a ∈ l → user_area σ a = Some v → aligned (a_virt_addr v)) →
  all_swept (omap (user_area σ) done_) pd p0 p →
  ∃ p', evict_areas pd l rest (mk_tp p σ) = Ok ((), mk_tp p' σ) ∧ all_swept (omap (user_area σ) l) pd p0 p'.
Proof.
  intros Hua El Hal. revert done_ El p. induction rest as [|a rest IH]; intros done_ El p Hs; cbn [evict_areas].
  { rewrite app_nil_r in El. subst. by exists p. }
  assert (a ∈ l) as Ha by (subst l; apply elem_of_app; right; by left).
  destruct (ua_area _ _ Hua a Ha) as (v & Hv & Hok).
  rewrite (bind_ok _ _ _ v (mk_tp p σ)) by (apply (zoom_ok tareas_l); by apply load_ok).
  assert (l = (done_ ++ [a]) ++ rest) as El' by (by rewrite <-app_assoc).
  assert (user_area σ a = if ctrue (a_kernel_vma v) then None else Some v) as Eu by (unfold user_area; by rewrite Hv).
  destruct (ctrue (a_kernel_vma v)) eqn:Hk; cbn [negb]; unfold when.
  - mstep. apply (IH _ El'). rewrite omap_app. simpl. rewrite Eu. by rewrite app_nil_r.
  - apply ctrue_false in Hk. assert (aligned (a_virt_addr v)) as Hav by (by apply (Hal a)).
    destruct (evict_vma_ok p σ pd l a v) as (p' & Hr & Hsw); [by eapply as_dir|by eapply as_base|done..|].
    rewrite bind_assoc_run, (bind_ok _ _ _ _ _ Hr). mstep. apply (IH _ El'). rewrite omap_app. simpl. rewrite Eu.
    apply (all_swept_step _ _ _ _ p); try done.
    intros w (b & Hb & Hw)%list_elem_of_omap. assert (b ∈ l) as Hbl by (subst l; apply elem_of_app; by left).
    split; [by eapply Hal; [exact Hbl|exact Hw]|]. apply user_area_some in Hw as [Hw _]. apply (ua_disjoint _ _ Hua b a); try done.
    intros ->. pose proof (ua_nodup _ _ Hua) as Hnd. subst l. apply NoDup_app in Hnd as (_ & Hnd & _). apply (Hnd a Hb). by left.
Qed.

Definition drop_areas (l : list Z) (σ : areas) : areas := foldl (λ σ a, delete a σ) σ l.

Lemma drop_areas_lookup l (σ : areas) b : drop_areas l σ !! b = if decide (b ∈ l) then None else σ !! b.
Proof.
  revert σ. induction l as [|a l IH]; intros σ; [by rewrite decide_False by (apply not_elem_of_nil)|].
  change (drop_areas (a :: l) σ) with (drop_areas l (delete a σ)). rewrite IH.
  destruct (decide (b ∈ l)); [rewrite decide_True; [done|by right]|].
  destruct (decide (a = b)) as [->|]; [rewrite decide_True by (by left); apply lookup_delete_eq|].
  rewrite decide_False by (rewrite elem_of_cons; naive_solver). by apply lookup_delete_ne.
Qed.

Lemma free_areas_ok l s :
  free_areas l s = Ok ((), lset heap_frees_l (heap_frees s ++ l)
    (lset paging_l (mk_tp (tps (paging s)) (drop_areas l (tareas (paging s)))) s)).
Proof.
  revert s. induction l as [|a l IH]; intros s; cbn [free_areas].
  { rewrite app_nil_r. by destruct s as [???????????????[]]. }
  rewrite (bind_ok _ _ _ () (lset paging_l (mk_tp (tps (paging s)) (delete a (tareas (paging s)))) s)) by done.
  rewrite (bind_ok _ _ _ () (lset heap_frees_l (heap_frees s ++ [a])
    (lset paging_l (mk_tp (tps (paging s)) (delete a (tareas (paging s)))) s))) by done.
  rewrite IH. simpl. by rewrite <-app_assoc.
Qed.

(** the reference counts after closing the descriptors of [l] *)
Definition close_counts (l : list file_entry) (rc : gmap Z Z) : gmap Z Z :=
  foldl (λ rc e, if fe_valid e then alter (λ n, u32 (n - 1)) (fe_file e) rc else rc) rc l.
Definition opens (f : Z) (l : list file_entry) : Z :=
  Z.of_nat (length (filter (λ e, fe_valid e ∧ fe_file e = f) l)).

Lemma close_counts_lookup l rc f n :
  rc !! f = Some n → 0 ≤ n < 4294967296 → close_counts l rc !! f = Some (u32 (n - opens f l)).
Proof.
  revert rc n. induction l as [|e l IH]; intros rc n Hf Hn.
  { change (close_counts [] rc) with rc. rewrite Hf. f_equal. change (opens f []) with 0. rewrite Z.sub_0_r. symmetry. by apply Z.mod_small. }
  change (close_counts (e :: l) rc) with (close_counts l (if fe_valid e then alter (λ n, u32 (n - 1)) (fe_file e) rc else rc)).
  unfold opens. destruct (decide (fe_valid e ∧ fe_file e = f)) as [[Hv He]|Hno].
  - rewrite filter_cons_True by done. destruct (fe_valid e); [|done].
    rewrite (IH _ (u32 (n - 1))); [|subst f; by rewrite lookup_alter_eq, Hf|unfold u32; lia].
    f_equal. unfold opens, u32. simpl. rewrite Zminus_mod_idemp_l. f_equal. lia.
  - rewrite filter_cons_False by done. apply (IH _ n); [|done]. destruct (fe_valid e); [|done].
    rewrite lookup_alter_ne; [done|]. intros E. by apply Hno.
Qed.

Lemma close_counts_absent l rc f : rc !! f = None → close_counts l rc !! f = None.
Proof.
  revert rc. induction l as [|e l IH]; intros rc Hf; [done|].
  change (close_counts (e :: l) rc) with (close_counts l (if fe_valid e then alter (λ n, u32 (n - 1)) (fe_file e) rc else rc)).
  apply IH. destruct (fe_valid e); [|done]. by apply lookup_alter_None.
Qed.

Lemma alter_as_insert (f : Z → Z) (m : gmap Z Z) k v : m !! k = Some v → alter f k m = <[k := f v]> m.
Proof.
  intros Hk. apply map_eq. intros j. destruct (decide (j = k)) as [->|].
  - by rewrite lookup_alter_eq, lookup_insert_eq, Hk.
  - by rewrite lookup_alter_ne, lookup_insert_ne.
Qed.

Definition closable (rc : gmap Z Z) (l : list file_entry) : Prop :=
  ∀ e, e ∈ l → fe_valid e → fe_file e ≠ NULL ∧ is_Some (rc !! fe_file e).

Lemma close_files_ok l s a t idx :
  tasks s !! a = Some t → closable (refer_count s) l →
  ∃ fes, close_files a idx l s =
    Ok ((), put_task (lset refer_count_l (close_counts l (refer_count s)) s) a (set_file_entries fes t)).
Proof.
  revert s t idx. induction l as [|e l IH]; intros s t idx Ht Hc; cbn [close_files].
  { exists (file_entries t). change (close_counts [] (refer_count s)) with (refer_count s).
    replace (set_file_entries (file_entries t) t) with t by (by destruct t). rewrite put_same by done. by destruct s. }
  assert (closable (refer_count s) l) as Hc' by (intros b Hb; apply Hc; by right).
  destruct (fe_valid e) eqn:Hv; unfold when.
  - destruct (Hc e) as [Hnn [n Hn]]; [by left|by rewrite Hv|]. rewrite (proj2 (ctrue_true _) Hnn).
    set (s1 := lset refer_count_l (alter (λ n, u32 (n - 1)) (fe_file e) (refer_count s)) s).
    set (t1 := set_file_entries (<[idx:=closed_entry]> (file_entries t)) t).
    rewrite (bind_ok _ _ _ () (put_task s1 a t1)).
    + destruct (IH (put_task s1 a t1) t1 (S idx)) as (fes & Hr).
      * apply put_task_lookup.
      * intros b Hb Hvb. destruct (Hc' b Hb Hvb) as [? [m Hm]]. split; [done|]. simpl.
        apply lookup_alter_is_Some. eauto.
      * exists fes. rewrite Hr. unfold t1. simpl. unfold close_counts at 2. simpl. rewrite Hv.
        f_equal. f_equal. unfold put_task. simpl. by rewrite insert_insert_eq.
    + mstep. unfold do_vfs_close. rewrite bind_assoc_run. rewrite (bind_ok _ _ _ () s1). 2:{ unfold s1.
        rewrite (zoom_ok refer_count_l _ _ () (<[fe_file e := u32 (n - 1)]> (refer_count s))); [|exact (update_ok (refer_count s) (fe_file e) n (λ n, u32 (n - 1)) Hn)].
        by rewrite <-(alter_as_insert (λ n, u32 (n - 1)) _ _ _ Hn). }
      mstep. exact (update_task_ok s1 a t (λ t, set_file_entries (<[idx := closed_entry]> (file_entries t)) t) Ht).
  - mstep. destruct (IH s t (S idx) Ht Hc') as (fes & Hr). exists fes. rewrite Hr. unfold close_counts at 2. simpl. by rewrite Hv.
Qed.

(** the blocks [reclaim_task] gives to [free], in order *)
Definition freed_blocks (a : Z) (t : task) : list Z :=
  rev (vma_list t) ++
  (if ctrue (privilege_level0_stack t) then [privilege_level0_stack t] else []) ++
  (if ctrue (signaled_privilege_level0_stack t) then [signaled_privilege_level0_stack t] else []) ++
  (if ctrue (privilege_level0_stack t) then [privilege_level0_stack t] else []) ++ [a].

Lemma when_kfree b s : when (ctrue b) (kfree b) s = Ok ((), lset heap_frees_l (heap_frees s ++ if ctrue b then [b] else []) s).
Proof. unfold when. destruct (ctrue b); [done|]. rewrite app_nil_r. by destruct s. Qed.

Lemma free_task_ok s a t :
  a ≠ NULL → tasks s !! a = Some t →
  free_task a s = Ok ((), lset tasks_l (delete a (tasks s)) (lset heap_frees_l
    (heap_frees s ++ (if ctrue (privilege_level0_stack t) then [privilege_level0_stack t] else []) ++ [a]) s)).
Proof.
  intros Ha Ht. unfold free_task. rewrite (proj2 (ctrue_true a) Ha).
  change (when true ?m s) with (m s). rewrite (load_task_run _ _ t), (bind_ok _ _ _ _ _ (when_kfree _ _)) by done.
  unfold kfree. simpl. rewrite app_assoc. done.
Qed.

(** a user task that can be reclaimed: it is on no list, registered, its
    directory and areas are well formed and its open files exist *)
Record reclaimable (s : kst) (a : Z) (t : task) : Prop := {
  rc_task : a ≠ NULL ∧ tasks s !! a = Some t;
  rc_alone : a ∉ queued s;
  rc_table : task_table s !! task_id t = Some a;
  rc_dir : dir_ok (tps (paging s)) (page_directory t);
  rc_base : base_ok (pal (tps (paging s)));
  rc_areas : uareas_ok (tareas (paging s)) (vma_list t);
  rc_aligned : ∀ b v, b ∈ vma_list t → user_area (tareas (paging s)) b = Some v → aligned (a_virt_addr v);
  rc_files : closable (refer_count s) (file_entries t);
  rc_counts : ∀ f n, refer_count s !! f = Some n → 0 ≤ n < 4294967296 }.

(** the state after [reclaim_task] *)
Record reclaimed (s : kst) (a : Z) (t : task) (s' : kst) : Prop := {
  rd_tasks : tasks s' = delete a (tasks s);
  rd_table : task_table s' = delete (task_id t) (task_table s);
  rd_queues : run_queue s' = run_queue s ∧ exit_queue s' = exit_queue s ∧
    zombie_queue s' = zombie_queue s ∧ blocking_queue s' = blocking_queue s;
  rd_current : current s' = current s;
  rd_areas : ∀ b, tareas (paging s') !! b = if decide (b ∈ vma_list t) then None else tareas (paging s) !! b;
  rd_swept : ∃ p i, page_directory t = base_page i ∧
    all_swept (omap (user_area (tareas (paging s))) (vma_list t)) (page_directory t) (tps (paging s)) p ∧
    mem (tps (paging s')) = mem p ∧ free_page_bitmap (pal (tps (paging s'))) = free_page_bitmap (pal p) ∧
    ∀ j, base_used (pal (tps (paging s'))) j = negb (j =? i) && base_used (pal p) j;
  rd_control : kernel_page_directory (tps (paging s')) = kernel_page_directory (tps (paging s)) ∧
    cr3 (tps (paging s')) = cr3 (tps (paging s));
  rd_base : base_ok (pal (tps (paging s')));
  rd_trims : trims (page_directory t) (tps (paging s)) (tps (paging s'));
  rd_others : ∀ pd', dir_ok (tps (paging s)) pd' → apart_dirs (tps (paging s)) (page_directory t) pd' →
    dir_ok (tps (paging s')) pd' ∧ ∀ va, translate (mem (tps (paging s'))) pd' va = translate (mem (tps (paging s))) pd' va;
  rd_counts : ∀ f, refer_count s' !! f = (λ n, u32 (n - opens f (file_entries t))) <$> refer_count s !! f;
  rd_rest : kernel_idle_task s' = kernel_idle_task s ∧ __ready_to_schedule s' = __ready_to_schedule s ∧ waits s' = waits s ∧
    esp0 s' = esp0 s ∧ cpus s' = cpus s ∧ uwords s' = uwords s;
  rd_frees : heap_frees s' = heap_frees s ++ freed_blocks a t }.

Lemma reclaim_task_ok s a t : reclaimable s a t → ∃ s', reclaim_task a s = Ok (OK, s') ∧ reclaimed s a t s'.
Proof.
  intros [[Hnn Ht] Hq Htab Hdir Hbase Hua Hal Hfiles Hcounts].
  destruct (evict_areas_ok (tareas (paging s)) (page_directory t) (vma_list t) [] (vma_list t) (tps (paging s)) (tps (paging s)))
    as (p & Hev & Hsw); [done|done|done|by apply all_swept_start|].
  destruct (as_dir _ _ _ _ Hsw) as [(i & Epd & Hi & _) _ _].
  destruct (free_base_page_ok (pal p) i Hi) as (q & Hfree & Hused & Hfb & _ & Hcur & _).
  unfold reclaim_task. mstep. rewrite bool_decide_false by done. mstep.
  rewrite (load_task_run _ _ t) by done.
  set (s1 := lset paging_l (mk_tp p (tareas (paging s))) s).
  rewrite (bind_ok _ _ _ () s1). 2: { apply (zoom_ok paging_l). simpl. rewrite <-Hev. by destruct (paging s). }
  set (p2 := mk_pstate q (mem p) (kernel_page_directory p) (cr3 p)).
  set (s2 := lset paging_l (mk_tp p2 (tareas (paging s))) s).
  assert (trims (page_directory t) (tps (paging s)) p2) as Htrims.
  { eapply trims_trans; [exact (as_trims _ _ _ _ Hsw)|]. split; cbn [mem pal p2]; auto.
    intros j. rewrite Hused. destruct (Z.eqb_spec j i) as [->|]; [right; by left|by left]. }
  rewrite (dir_nonnull _ _ Hdir).
  rewrite (bind_ok _ _ _ () s2). 2: {
    unfold when. apply (zoom_ok paging_l _ s1 () (mk_tp p2 (tareas (paging s)))), (zoom_ok tps_l _ (paging s1) () p2), (zoom_ok pal_l _ p () q).
    by rewrite Epd. }
  rewrite (bind_ok _ _ _ _ _ (free_areas_ok _ _)). set (s3 := lset heap_frees_l _ _).
  rewrite (update_task_run _ _ t) by done.
  set (t1 := set_vma_list [] t).
  destruct (close_files_ok (file_entries t) (put_task s3 a t1) a t1 0 (put_task_lookup _ _ _) Hfiles) as (fes & Hcl).
  rewrite (bind_ok _ _ _ _ _ Hcl). set (s4 := put_task _ a _).
  rewrite (bind_ok _ _ _ _ _ (when_kfree _ _)), (bind_ok _ _ _ _ _ (when_kfree _ _)). set (s5 := lset heap_frees_l _ _).
  assert (tasks s5 !! a = Some (set_file_entries fes t1)) as Ht5 by apply put_task_lookup.
  set (s6 := lset task_table_l (delete (task_id t) (task_table s)) s5).
  pose proof (free_task_ok s6 a (set_file_entries fes t1) Hnn Ht5) as Hft.
  rewrite (bind_ok _ _ _ OK s6).
  2: { unfold unregister_task_from_task_table. rewrite (load_task_run _ _ _ _ Ht5). mstep. simpl. by rewrite Htab. }
  change (OK =? OK) with true. mstep. rewrite (bind_ok _ _ _ _ _ Hft). eexists. split; [reflexivity|]. split.
  - simpl. by rewrite !delete_insert_eq.
  - done.
  - done.
  - done.
  - intros b. simpl. rewrite drop_areas_lookup. apply decide_ext. by rewrite list_elem_of_In, <-in_rev, <-list_elem_of_In.
  - exists p, i. done.
  - simpl. split; apply Hsw.
  - simpl. pose proof (as_base _ _ _ _ Hsw) as Hb. unfold base_ok, base_cursor in *. by rewrite Hcur.
  - exact Htrims.
  - intros pd' Hd' Hap. destruct (trims_other _ _ _ _ Htrims Hap Hd') as (? & _ & ?). done.
  - intros f. simpl. destruct (refer_count s !! f) as [n|] eqn:Hf; [|by apply close_counts_absent].
    simpl. apply close_counts_lookup; [done|by apply (Hcounts f)].
  - done.
  - simpl. unfold freed_blocks. by rewrite <-!app_assoc.
Qed.

(** ** The exit list *)

(** the tasks that wait for the end of a task in [es] *)
Definition mourners (s : kst) (es : list Z) : list Z :=
  es ≫= λ a, match tasks s !! a with Some t => waiters s (wq_termination t) | None => [] end.

Lemma mourners_cons s a es t : tasks s !! a = Some t → mourners s (a :: es) = waiters s (wq_termination t) ++ mourners s es.
Proof. intros Ht. unfold mourners. rewrite bind_cons. by rewrite Ht. Qed.

(** the tasks [es] of the exit list: each is EXITING and, once off the list,
    can be reclaimed; the tasks that wait for its end are alive; no two share
    an area or a page of their directories *)
Record exits_ok (s : kst) (es : list Z) : Prop := {
  ex_tasks : ∀ a, a ∈ es → ∃ t, reclaimable (with_queues s [] [] [] []) a t ∧ state t = TASK_STATE_EXITING ∧
    waiting s (wq_termination t);
  ex_apart : ∀ a b t u, a ∈ es → b ∈ es → a ≠ b → tasks s !! a = Some t → tasks s !! b = Some u →
    apart_dirs (tps (paging s)) (page_directory t) (page_directory u) ∧ ∀ x, x ∈ vma_list t → x ∉ vma_list u }.

Lemma exits_ok_nil s : exits_ok s [].
Proof. split; intros a; intros; by (exfalso; eapply not_elem_of_nil). Qed.

Lemma reclaimable_queues s s' a t :
  reclaimable (with_queues s [] [] [] []) a t → s' = with_queues s (run_queue s') (exit_queue s') (zombie_queue s') (blocking_queue s') →
  (a ∉ queued s') → reclaimable s' a t.
Proof. intros [] E Hq. split; try done; by rewrite E. Qed.

Lemma roused_exiting t : state t = TASK_STATE_EXITING → roused t = t.
Proof. unfold roused. by intros ->. Qed.

Lemma roused_directory t : page_directory (roused t) = page_directory t.
Proof. unfold roused. by destruct (state t). Qed.

Lemma woken_exiting W s s1 a t : woken W s s1 → tasks s !! a = Some t → state t = TASK_STATE_EXITING → tasks s1 !! a = Some t.
Proof.
  intros [_ H] Ht Hst. destruct (H a) as [->|[_ ->]]; [done|]. rewrite Ht. simpl. by rewrite roused_exiting.
Qed.

Lemma spaces_ok_woken W s s1 : woken W s s1 → spaces_ok s → spaces_ok s1.
Proof.
  intros [E H] [H1 H2 H3]. rewrite E. split; [done|done|]. intros a t Ht. cbn in Ht.
  destruct (H a) as [Ea|[_ Ea]]; rewrite Ea in Ht; [by apply (H3 a)|].
  destruct (tasks s !! a) as [u|] eqn:Hu; [|done]. injection Ht as <-. rewrite roused_directory. by apply (H3 a).
Qed.

Lemma spaces_ok_reclaimed s a t s' : reclaimed s a t s' → spaces_ok s → spaces_ok s'.
Proof.
  intros Hr [H1 H2 H3]. destruct (rd_control _ _ _ _ Hr) as [Ek _]. pose proof (tr_words _ _ _ (rd_trims _ _ _ _ Hr)) as Hw.
  split; rewrite ?Ek; [done|intros k Hk; by apply Hw, H2|]. intros b u Hu. rewrite (rd_tasks _ _ _ _ Hr) in Hu.
  apply lookup_delete_Some in Hu as [_ Hu]. destruct (H3 b u Hu) as [|(? & ? & Hp)]; [by left|right]. split_and!; [done|done|].
  intros k Hk. by apply Hw, Hp.
Qed.

Lemma uareas_ok_ext σ σ' l : (∀ a, a ∈ l → σ' !! a = σ !! a) → uareas_ok σ l → uareas_ok σ' l.
Proof.
  intros E [H1 H2 H3 H4]. split; [done|done| |].
  - intros a Ha. rewrite E by done. by apply H3.
  - intros a b v w Ha Hb Hne. rewrite !E by done. by apply H4.
Qed.

(** another task that can be reclaimed still can after one was *)
Lemma reclaimable_kept s a t b u s' :
  reclaimed s a t s' → task_table s !! task_id t = Some a → a ≠ b → reclaimable (with_queues s [] [] [] []) b u →
  apart_dirs (tps (paging s)) (page_directory t) (page_directory u) → (∀ x, x ∈ vma_list t → x ∉ vma_list u) →
  reclaimable (with_queues s' [] [] [] []) b u.
Proof.
  intros Hr Hta Hne [[Hb Hu] _ Htb Hdir _ Hua Hal Hfi Hcn] Hap Hdis.
  assert (∀ x, x ∈ vma_list u → tareas (paging s') !! x = tareas (paging s) !! x) as Hsame.
  { intros x Hx. rewrite (rd_areas _ _ _ _ Hr). rewrite decide_False; [done|]. intros Hx'. by apply (Hdis x). }
  split; simpl in *.
  - split; [done|]. rewrite (rd_tasks _ _ _ _ Hr). by rewrite lookup_delete_ne.
  - apply not_elem_of_nil.
  - rewrite (rd_table _ _ _ _ Hr). rewrite lookup_delete_ne; [done|]. congruence.
  - by apply (rd_others _ _ _ _ Hr).
  - by apply (rd_base _ _ _ _ Hr).
  - by apply (uareas_ok_ext (tareas (paging s))).
  - intros x v Hx. unfold user_area. rewrite Hsame by done. by apply Hal.
  - intros e He Hv. destruct (Hfi e He Hv) as [? [n Hn]]. split; [done|]. rewrite (rd_counts _ _ _ _ Hr), Hn. eauto.
  - intros f n. rewrite (rd_counts _ _ _ _ Hr). destruct (refer_count s !! f); [|done]. simpl. intros [= <-]. unfold u32. lia.
Qed.

Lemma page_of_same s s' pd j :
  (∀ k, 0 ≤ k < 1024 → table (mem s') pd k = table (mem s) pd k) → page_of s' pd j → page_of s pd j.
Proof. intros T [?|(k & Hk & E)]; [by left|right]. exists k. by rewrite <-T. Qed.

(** the rest of the list after its first task has been woken for and reclaimed *)
Lemma exits_ok_step s a t es s1 s2 W :
  exits_ok s (a :: es) → (a ∉ es) → tasks s !! a = Some t → state t = TASK_STATE_EXITING → task_table s !! task_id t = Some a →
  woken W s s1 → reclaimed s1 a t s2 → exits_ok s2 es.
Proof.
  intros [Hex Hap] Hae Ht Hst Htab Hw Hr. pose proof Hw as [E1 _]. destruct (rd_rest _ _ _ _ Hr) as (_ & _ & Ew & _).
  assert (∀ b, b ∈ es → a ≠ b) as Hne by (intros b Hb ->; done).
  assert (∀ b u, b ∈ es → tasks s2 !! b = Some u → tasks s !! b = Some u) as Hback.
  { intros b u Hb. rewrite (rd_tasks _ _ _ _ Hr), lookup_delete_ne by (by apply Hne). destruct (Hex b) as (u' & Hu' & Hst' & _); [by right|].
    destruct (rc_task _ _ _ Hu') as [_ Hb']. rewrite (woken_exiting _ _ _ _ _ Hw Hb' Hst'). by rewrite <-Hb'. }
  split.
  - intros b Hb. destruct (Hex b) as (u & Hu & Hstu & Hwu); [by right|]. destruct (rc_task _ _ _ Hu) as [Hbn Htu]. cbn in Htu.
    exists u. destruct (Hap a b t u) as [Hd Hl]; [by left|by right|by apply Hne|done|done|]. split_and!; [|done|].
    + eapply reclaimable_kept; [exact Hr|by rewrite E1|by apply Hne| |by rewrite E1|done].
      destruct Hu as [[? ?] ? ? ? ? ? ? ? ?]. rewrite E1. split; try done. split; [done|]. cbn. by eapply woken_exiting.
    + intros e He. destruct (woken_waiting _ _ _ _ Hw Hwu e He) as (x & tx & Hx & Hxn & Htx & Hl').
      exists x, tx. rewrite Ew. split_and!; try done. rewrite (rd_tasks _ _ _ _ Hr), lookup_delete_ne; [done|]. intros ->.
      rewrite (woken_exiting _ _ _ _ _ Hw Ht Hst) in Htx. injection Htx as ->. destruct Hl' as [Hl' _]. rewrite Hst in Hl'. naive_solver.
  - intros b c u w Hb Hc Hbc Hu Hw'. pose proof (Hback b u Hb Hu) as Hu0. pose proof (Hback c w Hc Hw') as Hw0.
    destruct (Hap b c u w) as [Hd Hl]; [by right|by right|done|done|done|]. split; [|done].
    destruct (Hex b) as (u' & Hru & _); [by right|]. destruct (Hex c) as (w' & Hrw & _); [by right|].
    pose proof (rc_task _ _ _ Hru) as [_ Eu]. pose proof (rc_task _ _ _ Hrw) as [_ Ew']. cbn in Eu, Ew'. simplify_eq.
    destruct (Hap a b t u) as [Hau _]; [by left|by right|by apply Hne|done|done|].
    destruct (Hap a c t w) as [Haw _]; [by left|by right|by apply Hne|done|done|].
    pose proof (rd_trims _ _ _ _ Hr) as Htr. rewrite E1 in Htr. cbn in Htr.
    destruct (trims_other _ _ _ _ Htr Hau (rc_dir _ _ _ Hru)) as (_ & T1 & _). destruct (trims_other _ _ _ _ Htr Haw (rc_dir _ _ _ Hrw)) as (_ & T2 & _).
    intros j Hj Hj'. apply (Hd j); eapply page_of_same; [|exact Hj| |exact Hj']; done.
Qed.

(** the state after the exit list has been processed *)
Record exited (s : kst) (es : list Z) (s' : kst) : Prop := {
  xd_tasks : ∀ b, tasks s' !! b = if decide (b ∈ es) then None else
    if decide (b ∈ mourners s es) then roused <$> tasks s !! b else tasks s !! b;
  xd_queues : run_queue s' = run_queue s ∧ exit_queue s' = [] ∧ zombie_queue s' = zombie_queue s ∧ blocking_queue s' = blocking_queue s;
  xd_idle : current s' = current s ∧ kernel_idle_task s' = kernel_idle_task s;
  xd_spaces : spaces_ok s' }.

Lemma mourners_kept s s2 a es t s1 W :
  exits_ok s (a :: es) → (a ∉ es) → woken W s s1 → reclaimed s1 a t s2 → mourners s2 es = mourners s es.
Proof.
  intros [Hex _] Hae Hw Hr. unfold mourners. apply Forall_bind_ext, Forall_forall. intros b Hb. destruct (Hex b) as (u & Hu & Hst & _); [by right|].
  destruct (rc_task _ _ _ Hu) as [_ Htu]. cbn in Htu. rewrite (rd_tasks _ _ _ _ Hr), lookup_delete_ne by (intros ->; done).
  rewrite (woken_exiting _ _ _ _ _ Hw Htu Hst), Htu. unfold waiters. destruct (rd_rest _ _ _ _ Hr) as (_ & _ & -> & _).
  destruct Hw as [-> _]. done.
Qed.

Lemma exits_ok_queue s es l : exits_ok s l → exits_ok (lset exit_queue_l es s) l.
Proof. intros [H1 H2]. by split. Qed.

Lemma reclaimable_woken W s s1 a t :
  reclaimable (with_queues s [] [] [] []) a t → state t = TASK_STATE_EXITING → woken W s s1 → (a ∉ queued s) → reclaimable s1 a t.
Proof.
  intros [[Hn Ht] ? ? ? ? ? ? ? ?] Hst Hw Hq. pose proof (woken_exiting _ _ _ _ _ Hw Ht Hst). destruct Hw as [E _].
  split; try done; by rewrite E.
Qed.

(** one round of the loop *)
Lemma exit_round_ok s a es t :
  exits_ok s (a :: es) → (a ∉ queued s) → (a ∉ es) → tasks s !! a = Some t → spaces_ok s →
  state t = TASK_STATE_EXITING ∧ ∃ s1 s2, wake_up (wq_termination t) s = Ok ((), s1) ∧ reclaim_task a s1 = Ok (OK, s2) ∧ exits_ok s2 es ∧ spaces_ok s2 ∧
    mourners s2 es = mourners s es ∧ queued s2 = queued s ∧
    run_queue s2 = run_queue s ∧ exit_queue s2 = exit_queue s ∧ zombie_queue s2 = zombie_queue s ∧ blocking_queue s2 = blocking_queue s ∧
    current s2 = current s ∧ kernel_idle_task s2 = kernel_idle_task s ∧
    ∀ b, tasks s2 !! b = if decide (b = a) then None else
      if decide (b ∈ waiters s (wq_termination t)) then roused <$> tasks s !! b else tasks s !! b.
Proof.
  intros Hex Hq Hae Ht Hsp. destruct (ex_tasks _ _ Hex a) as (t' & Hrc & Hst & Hwt); [by left|].
  pose proof (rc_task _ _ _ Hrc) as [_ Ht']. cbn in Ht'. assert (t' = t) as -> by congruence. split; [done|].
  destruct (wake_queue_ok _ _ Hwt) as (s1 & Hwk & Hw & Hall).
  destruct (reclaim_task_ok s1 a t) as (s2 & Hrt & Hrd); [by eapply reclaimable_woken|].
  destruct (rd_queues _ _ _ _ Hrd) as (Q1 & Q2 & Q3 & Q4). destruct (rd_rest _ _ _ _ Hrd) as (R1 & _). pose proof (rd_current _ _ _ _ Hrd) as C1.
  pose proof Hw as [E Hcase]. rewrite E in Q1, Q2, Q3, Q4, R1, C1. cbn in Q1, Q2, Q3, Q4, R1, C1.
  exists s1, s2. split_and!; try done.
  - eapply exits_ok_step; [exact Hex|done|done|done| |done|done]. exact (rc_table _ _ _ Hrc).
  - eapply spaces_ok_reclaimed, spaces_ok_woken; done.
  - by eapply mourners_kept.
  - unfold queued. by rewrite Q1, Q2, Q3, Q4.
  - intros b. rewrite (rd_tasks _ _ _ _ Hrd). destruct (decide (b = a)) as [->|Hne]; [by rewrite lookup_delete_eq|].
    rewrite lookup_delete_ne by done. destruct (decide (b ∈ _)) as [Hin|Hout]; [by apply Hall|]. destruct (Hcase b) as [?|[? _]]; done.
Qed.

Lemma exit_loop_ok es s fuel :
  exit_queue s = es → exits_ok s es → NoDup (queued s) → spaces_ok s → (length es < fuel)%nat →
  ∃ s', exit_loop fuel s = Ok ((), s') ∧ exited s es s'.
Proof.
  revert s fuel. induction es as [|a es IH]; intros s fuel Eq Hex Hnd Hsp Hf; (destruct fuel as [|fuel]; [simpl in Hf; lia|]); cbn [exit_loop].
  { exists s. split; [unfold fetch_from; unfold mbind, M_bind; simpl; by rewrite Eq|]. split; [|done|done|done].
    intros b. by rewrite !decide_False by (by apply not_elem_of_nil). }
  set (s0 := lset exit_queue_l es s). rewrite (bind_ok _ _ _ a s0) by (unfold fetch_from; simpl; by rewrite Eq).
  destruct (ex_tasks _ _ Hex a) as (t & Hrc & _); [by left|]. destruct (rc_task _ _ _ Hrc) as [Hn Ht]. cbn in Ht.
  assert (NoDup (queued s0) ∧ (a ∉ queued s0) ∧ (a ∉ es)) as (Hnd0 & Hq0 & Hae).
  { unfold queued in Hnd |- *. rewrite Eq in Hnd. cbn in Hnd |- *. apply NoDup_middle in Hnd as (? & H & ?). rewrite !elem_of_app in *. tauto. }
  rewrite (proj2 (ctrue_true a) Hn). cbn [negb]. rewrite (load_task_run _ _ t) by done.
  destruct (exit_round_ok s0 a es t) as (Hst & s1 & s2 & Hwk & Hrt & Hex2 & Hsp2 & Em & Eqs & Q1 & Q2 & Q3 & Q4 & C & I & Htk);
    [by apply exits_ok_queue|done|done|done|by destruct Hsp|].
  rewrite bool_decide_true by done. mstep. rewrite (bind_ok _ _ _ _ _ Hwk), (bind_ok _ _ _ _ _ Hrt).
  destruct (IH s2 fuel) as (s' & Hr & [X1 (X2 & X3 & X4 & X5) [X6 X7] X8]); [done|done|by rewrite Eqs|done|simpl in Hf; lia|].
  exists s'. split; [done|]. split; [|by rewrite X2, X3, X4, X5, Q1, Q3, Q4|by rewrite X6, X7, C, I|done].
  intros b. rewrite X1, Htk, Em, (mourners_cons s a es t Ht).
  change (mourners s0 es) with (mourners s es). change (waiters s0 (wq_termination t)) with (waiters s (wq_termination t)).
  change (tasks s0) with (tasks s).
  destruct (decide (b = a)) as [->|Hne].
  { rewrite (decide_True (P := a ∈ a :: es)) by (by left). by repeat case_decide. }
  destruct (decide (b ∈ es)); [by rewrite (decide_True (P := b ∈ a :: es)) by (by right)|].
  rewrite (decide_False (P := b ∈ a :: es)) by (by rewrite elem_of_cons; naive_solver).
  destruct (decide (b ∈ mourners s es)), (decide (b ∈ waiters s _)).
  - rewrite decide_True by (apply elem_of_app; by left). destruct (tasks s !! b); [simpl; by rewrite roused_idem|done].
  - rewrite decide_True by (apply elem_of_app; by right). done.
  - rewrite decide_True by (apply elem_of_app; by left). done.
  - rewrite decide_False by (rewrite elem_of_app; tauto). done.
Qed.

Lemma process_exit_ok s :
  exits_ok s (exit_queue s) → NoDup (queued s) → spaces_ok s →
  ∃ s', process_exit_task_list s = Ok ((), s') ∧ exited s (exit_queue s) s'.
Proof.
  intros Hex Hnd Hsp. unfold process_exit_task_list. mstep. apply exit_loop_ok; try done. lia.
Qed.

(** ** Choosing the next task *)

(** the tasks among which the next one is chosen, in order *)
Definition candidates (s : kst) : list Z :=
  run_queue s ++ held s ++ select (tasks s) runnable (blocking_queue s).

(** the lists when the exit list is processed *)
Definition settled (s : kst) : kst :=
  with_queues (lset current_l NULL s) (candidates s) (exit_queue s)
    (zombie_queue s ++ select (tasks s) zombie (blocking_queue s)) (select (tasks s) blocked (blocking_queue s)).

(** the tasks after it: those on it are gone, those that waited for them awake *)
Definition survivors (s : kst) : gmap Z task :=
  map_imap (λ a t, if decide (a ∈ exit_queue s) then None else
    Some (if decide (a ∈ mourners s (exit_queue s)) then roused t else t)) (tasks s).

Lemma survivors_exited s s' : exited (settled s) (exit_queue s) s' → tasks s' = survivors s.
Proof.
  intros H. apply map_eq. intros b. rewrite (xd_tasks _ _ _ H). unfold survivors. rewrite map_lookup_imap.
  change (mourners (settled s)) with (mourners s). change (tasks (settled s)) with (tasks s).
  destruct (decide (b ∈ exit_queue s)); [by destruct (tasks s !! b)|]. by destruct (tasks s !! b), (decide (b ∈ mourners _ _)).
Qed.

Lemma survivors_exist s l : tasks_exist (tasks s) l → (∀ a, a ∈ l → a ∉ exit_queue s) → tasks_exist (survivors s) l.
Proof.
  intros H Hout a Ha. destruct (H a Ha) as [Hn [t Ht]]. split; [done|]. unfold survivors. rewrite map_lookup_imap, Ht.
  specialize (Hout a Ha). cbn. destruct (decide (a ∈ exit_queue s)); [done|eauto].
Qed.

Lemma survivors_all s : exit_queue s = [] → survivors s = tasks s.
Proof.
  intros E. apply map_eq. intros a. unfold survivors. rewrite map_lookup_imap, E. by destruct (tasks s !! a).
Qed.

Lemma settled_perm s : sched_ok s → queued (settled s) ≡ₚ queued s ++ held s.
Proof.
  intros [_ Htk _ _]. unfold queued, settled, candidates. simpl.
  pose proof (select_parts (tasks s) (blocking_queue s)) as Hp. specialize (Hp ltac:(intros a Ha; apply Htk; unfold queued; rewrite !elem_of_app; tauto)).
  perm.
Qed.

Lemma exits_ok_settled s es : exits_ok s es → exits_ok (settled s) es.
Proof.
  intros [H1 H2]. split; [|done]. intros a Ha. destruct (H1 a Ha) as (t & [] & ? & ?). exists t. by split_and!.
Qed.

(** [schedule] up to the exit list, up to the loop that picks the next task,
    and up to and including this loop *)
Definition settle (c idle : Z) : M kst () :=
  when (ctrue c) (when (negb (c =? idle)) (task_put c) ;; set_current NULL) ;;
  process_blocking_task_list.
Definition choose (c idle : Z) : M kst Z :=
  settle c idle ;; process_exit_task_list ;;
  n ← gets (λ s, length (run_queue s)); pick_loop (S n).

Lemma settle_ok s : sched_ok s → settle (current s) (kernel_idle_task s) s = Ok ((), settled s).
Proof.
  intros Hok. pose proof Hok as [Hnd Htk _ _]. unfold settle. rewrite (bind_ok _ _ _ _ _ (put_current_ok s Hok)).
  unfold process_blocking_task_list. mstep. simpl blocking_queue.
  etransitivity; [apply (blocking_loop_ok (lset current_l NULL s) (run_queue s ++ held s) (exit_queue s) (zombie_queue s) [] (blocking_queue s))|].
  3: { unfold settled, candidates. by rewrite <-app_assoc. }
  - intros a Ha. apply Htk. unfold queued. rewrite !elem_of_app. tauto.
  - apply (NoDup_perm _ _ Hnd). unfold queued. simpl. perm.
Qed.

Lemma choose_ok s :
  sched_ok s → spaces_ok s → exits_ok s (exit_queue s) →
  ∃ a pre post s1 s2, process_exit_task_list (settled s) = Ok ((), s1) ∧ exited (settled s) (exit_queue s) s1 ∧
    choose (current s) (kernel_idle_task s) s = Ok (a, s2) ∧
    (∃ e z b, s2 = with_queues s1 post e z b) ∧
    none_running (survivors s) pre ∧
    ((a = NULL ∧ candidates s = pre ∧ post = []) ∨
     (candidates s = pre ++ a :: post ∧ in_state (survivors s) running a = true ∧ a ≠ NULL)) ∧
    queued s2 ++ (if ctrue a then [a] else []) ++ exit_queue s ≡ₚ queued s ++ held s.
Proof.
  intros Hok Hsp Hex. pose proof Hok as [Hnd Htk _ _]. pose proof (settled_perm s Hok) as Hperm.
  assert (NoDup (queued (settled s))) as Hnd1 by (by rewrite Hperm).
  destruct (process_exit_ok (settled s)) as (s1 & Hp1 & Hx); [by apply exits_ok_settled|done|destruct Hsp; by split|].
  pose proof (survivors_exited s s1 Hx) as Et. destruct (xd_queues _ _ _ Hx) as (Q1 & Q2 & Q3 & Q4). cbn in Q1, Q3, Q4.
  unfold choose. rewrite (bind_ok _ _ _ _ _ (settle_ok s Hok)), (bind_ok _ _ _ _ _ Hp1). mstep. rewrite Q1.
  set (z := zombie_queue s ++ _) in *. set (b := select (tasks s) blocked (blocking_queue s)) in *.
  assert (queued (settled s) = candidates s ++ exit_queue s ++ z ++ b) as Eqs by done.
  assert (tasks_exist (tasks s1) (candidates s)) as Htc.
  { rewrite Et. apply survivors_exist.
    - intros a Ha. apply Htk. rewrite <-Hperm, Eqs. apply elem_of_app. by left.
    - intros a Ha Ha'. rewrite Eqs in Hnd1. apply NoDup_app in Hnd1 as (_ & H & _). apply (H a Ha). apply elem_of_app. by left. }
  replace s1 with (with_queues s1 (candidates s) [] z b) by (rewrite <-Q1, <-Q2, <-Q3, <-Q4; apply with_queues_id).
  destruct (pick_loop_ok s1 (S (length (candidates s))) (candidates s) [] z b) as (a & pre & post & Hr & Hn & Hc); [done| |lia|].
  { rewrite Eqs in Hnd1. apply NoDup_app in Hnd1 as (N1 & N2 & N3). apply NoDup_app in N3 as (_ & _ & N3).
    simpl. apply NoDup_app. split_and!; [done| |done]. intros x Hx' Hin. apply (N2 x Hx'), elem_of_app. by right. }
  exists a, pre, post, (with_queues s1 (candidates s) [] z b). eexists. rewrite <-Et.
  split_and!; [by rewrite <-Q1, <-Q2, <-Q3, <-Q4, with_queues_id|by rewrite <-Q1, <-Q2, <-Q3, <-Q4, with_queues_id|exact Hr|by eexists _, _, _|done|done|].
  rewrite <-Hperm, Eqs. unfold queued. simpl. pose proof (select_stopped (tasks s1) pre) as Hstop.
  destruct Hc as [(-> & Epre & ->)|(Epre & _ & Hnn)].
  - specialize (Hstop ltac:(rewrite <-Epre; exact Htc) Hn). rewrite Epre. simpl. rewrite ?app_nil_r. clear -Hstop. perm.
  - rewrite (proj2 (ctrue_true a) Hnn). assert (tasks_exist (tasks s1) pre) as Htp.
    { intros x Hx'. apply Htc. rewrite Epre. apply elem_of_app. by left. }
    specialize (Hstop Htp Hn). rewrite Epre. change (a :: post) with ([a] ++ post). clear -Hstop. perm.
Qed.

(** the rest of [schedule]: switch to the task chosen *)
Definition switch_to (next : Z) : M kst Z :=
  t ← load_task next;
  set_current next ;;
  ASSERT (ctrue next) ;;
  update_task next (λ t, set_schedule_counter (u32 (schedule_counter t + 1)) t) ;;
  zoom paging_l (on_ps (enable_task_paging (page_directory t))) ;;
  set_tss_privilege_level0_stack (privilege_level0_stack_top t) ;;
  mret (cpu t).

Lemma schedule_split cpu0 s :
  schedule cpu0 s =
  (choose (current s) (kernel_idle_task s) ≫= λ a, switch_to (if ctrue a then a else kernel_idle_task s)) s.
Proof.
  unfold schedule, choose, settle. mstep. mstep. unfold mbind, M_bind.
  destruct (when _ _ s) as [[[] s1]|]; [|done]. destruct (process_blocking_task_list s1) as [[[] s2]|]; [|done].
  by destruct (process_exit_task_list s2) as [[[] s3]|].
Qed.

Lemma switch_to_ok s a t :
  spaces_ok s → a ≠ NULL → tasks s !! a = Some t →
  ∃ p, enable_task_paging (page_directory t) (tps (paging s)) = Ok (OK, p) ∧
    switch_to a s = Ok (cpu t,
      lset esp0_l (privilege_level0_stack_top t)
        (lset paging_l (lset tps_l p (paging s))
          (put_task (lset current_l a s) a (set_schedule_counter (u32 (schedule_counter t + 1)) t)))).
Proof.
  intros [Hk Hw Hts] Ha Ht. destruct (enable_task_paging_runs (tps (paging s)) (page_directory t) Hk Hw (Hts a t Ht)) as (p & Hp & _).
  exists p. split; [done|]. unfold switch_to. rewrite (load_task_run _ _ t) by done.
  rewrite (bind_ok _ _ _ () (lset current_l a s)) by done. rewrite (proj2 (ctrue_true a) Ha).
  rewrite (bind_ok _ _ _ () (lset current_l a s)) by done.
  rewrite (update_task_run _ _ t) by done.
  rewrite (bind_ok _ _ _ OK (lset paging_l (lset tps_l p (paging s))
          (put_task (lset current_l a s) a (set_schedule_counter (u32 (schedule_counter t + 1)) t)))); [done|].
  apply (zoom_ok paging_l), (zoom_ok tps_l). exact Hp.
Qed.

(** the first RUNNING task of [l], or the idle task when there is none *)
Definition first_running (σ : gmap Z task) (l : list Z) (idle c : Z) (rest : list Z) : Prop :=
  (∃ pre, l = pre ++ c :: rest ∧ none_running σ pre ∧ in_state σ running c = true) ∨
  (c = idle ∧ none_running σ l ∧ rest = []).

Lemma tasks_exist_put σ a t l : tasks_exist σ l → tasks_exist (<[a := t]> σ) l.
Proof. intros H b Hb. destruct (H b Hb) as [? Hs]. split; [done|]. apply lookup_insert_is_Some'. by right. Qed.

Lemma idle_not_held s : sched_ok s → kernel_idle_task s ∉ queued s ++ held s.
Proof.
  intros [_ _ Hni _]. rewrite not_elem_of_app. split; [done|]. unfold held.
  destruct (ctrue (current s)); [|by apply not_elem_of_nil]. destruct (current s =? kernel_idle_task s) eqn:E; [by apply not_elem_of_nil|].
  apply Z.eqb_neq in E. simpl. rewrite list_elem_of_singleton. congruence.
Qed.

Lemma schedule_ok s cpu0 :
  sched_ok s → spaces_ok s → exits_ok s (exit_queue s) →
  ∃ c t s1 s', process_exit_task_list (settled s) = Ok ((), s1) ∧ exited (settled s) (exit_queue s) s1 ∧
    schedule cpu0 s = Ok (cpu t, s') ∧
    survivors s !! c = Some t ∧ first_running (survivors s) (candidates s) (kernel_idle_task s) c (run_queue s') ∧ current s' = c ∧
    tasks s' = <[c := set_schedule_counter (u32 (schedule_counter t + 1)) t]> (survivors s) ∧
    esp0 s' = privilege_level0_stack_top t ∧
    enable_task_paging (page_directory t) (tps (paging s1)) = Ok (OK, tps (paging s')) ∧
    queued s' ++ held s' ++ exit_queue s ≡ₚ queued s ++ held s ∧ sched_ok s'.
Proof.
  intros Hok Hsp Hex. destruct (choose_ok s Hok Hsp Hex) as (a & pre & post & s1 & s2 & Hp1 & Hx & Hr & (e & z & b & Es2) & Hn & Hc & Hp).
  pose proof Hok as [Hnd Htk Hni [Hid Hti]]. pose proof (survivors_exited s s1 Hx) as Et.
  set (c := if ctrue a then a else kernel_idle_task s).
  assert (∀ x, x ∈ queued s2 ++ (if ctrue a then [a] else []) → x ∉ exit_queue s) as Hout.
  { rewrite app_assoc in Hp. assert (NoDup ((queued s2 ++ (if ctrue a then [a] else [])) ++ exit_queue s)) as H by (by rewrite Hp).
    apply NoDup_app in H as (_ & H & _). exact H. }
  assert (tasks_exist (survivors s) (queued s2 ++ (if ctrue a then [a] else []))) as Htk2.
  { apply survivors_exist; [|done]. intros x Hx'. apply Htk. rewrite <-Hp, app_assoc. apply elem_of_app. by left. }
  assert (tasks_exist (survivors s) [kernel_idle_task s]) as Hti2.
  { apply survivors_exist; intros x Hx'%list_elem_of_singleton; subst x; [done|]. intros Hin. apply Hni. unfold queued. rewrite !elem_of_app. tauto. }
  assert (spaces_ok s2) as Hsp2 by (rewrite Es2; destruct (xd_spaces _ _ _ Hx); by split).
  assert (tasks s2 = survivors s) as Et2 by (by rewrite Es2).
  assert (c ≠ NULL ∧ ∃ t, survivors s !! c = Some t) as [Hcn [t Ht]].
  { unfold c. destruct (ctrue a); [apply Htk2; apply elem_of_app; right; by left|]. apply Hti2. by left. }
  destruct (switch_to_ok s2 c t) as (p & Hen & Hsw); [done|done|by rewrite Et2|].
  set (s' := lset esp0_l _ _) in Hsw. exists c, t, s1, s'.
  assert (queued s' = queued s2) as Eq by by destruct s2.
  assert (kernel_idle_task s' = kernel_idle_task s) as Ei.
  { transitivity (kernel_idle_task s1); [unfold s'; by rewrite Es2|apply (xd_idle _ _ _ Hx)]. }
  assert (held s' = if ctrue a then [a] else []) as Eh.
  { unfold held. replace (current s') with c by done. rewrite Ei, (proj2 (ctrue_true c) Hcn). unfold c. destruct (ctrue a) eqn:Ea; simpl.
    - rewrite (proj2 (Z.eqb_neq a (kernel_idle_task s))); [done|]. intros ->. apply (idle_not_held s Hok). rewrite <-Hp, !elem_of_app. right. left. by left.
    - by rewrite Z.eqb_refl. }
  rewrite <-Eq, <-Eh in Hp. rewrite <-Eq, <-Eh in Htk2.
  assert (tasks s' = <[c := set_schedule_counter (u32 (schedule_counter t + 1)) t]> (survivors s)) as Ets by (by rewrite <-Et2).
  split_and!; [done|done| |done| |done|done|done|rewrite Es2 in Hen; exact Hen|done|].
  - rewrite schedule_split, (bind_ok _ _ _ _ _ Hr). exact Hsw.
  - replace (run_queue s') with post by (unfold s'; by rewrite Es2). unfold first_running, c.
    destruct Hc as [(-> & -> & ->)|(Epre & Hrun & Hann)]; [by right|]. rewrite (proj2 (ctrue_true a) Hann). left. by exists pre.
  - split.
    + rewrite app_assoc in Hp. assert (NoDup ((queued s' ++ held s') ++ exit_queue s)) as H by (by rewrite Hp). by apply NoDup_app in H as (? & _).
    + rewrite Ets. by apply tasks_exist_put.
    + rewrite Ei. intros Hin. apply (idle_not_held s Hok). rewrite <-Hp. apply elem_of_app. by left.
    + rewrite Ei, Ets. destruct (Hti2 (kernel_idle_task s)) as [? ?]; [by left|]. split; [done|]. apply lookup_insert_is_Some'. by right.
Qed.

(** with an empty exit list only the tasks' lists and one counter change *)
Lemma schedule_no_exits s cpu0 :
  sched_ok s → spaces_ok s → exit_queue s = [] →
  ∃ c t s', schedule cpu0 s = Ok (cpu t, s') ∧ tasks s !! c = Some t ∧
    tasks s' = <[c := set_schedule_counter (u32 (schedule_counter t + 1)) t]> (tasks s).
Proof.
  intros Hok Hsp Hex. destruct (schedule_ok s cpu0 Hok Hsp) as (c & t & s1 & s' & _ & _ & Hr & Ht & _ & _ & Hts & _);
    [rewrite Hex; apply exits_ok_nil|]. rewrite survivors_all in Ht, Hts by done. by exists c, t, s'.
Qed.


(** C13. [reclaim_task] ends a user task that is on no list.  All pages of its
    user areas are unmapped and the frames behind the areas that own their
    frames are free; every other frame keeps its state.  The base page of its
    directory is free; the pages of its page tables only as far as the eviction
    of the areas emptied and gave back the tables ([rd_trims] says no more, and
    [evict_leaks_page_table] shows a table that stays).  Its area descriptors
    are gone, each file loses as many references as the task had descriptors on
    it, and the task leaves the task table and the task store.  The rest of the
    kernel state is unchanged: the other tasks, areas and table entries, the
    lists, the current and the idle task, the wait entries, the saved CPU
    states, CR3 and every other directory without a common page.  The blocks
    handed to [free] are those of [freed_blocks] in this order; the PL0 stack is
    among them twice ([reclaim_frees_stack_twice]). *)
Theorem reclaim_task_correct s a t :
  reclaimable s a t → ∃ s', reclaim_task a s = Ok (OK, s') ∧ reclaimed s a t s'.
Proof. apply reclaim_task_ok. Qed.

(** ** Examples *)
Module SchedExample.
#[local] Opaque clear_page base_page.
Import PagingExample VmaExample.

(** a user task, its directory at base page 1 *)
Definition a_task (id : Z) (st : task_state) (pd : Z) (files : list file_entry) (areas : list Z) : task :=
  mk_task id st TASK_STATE_ZOMBIE 1 (0x9000 + id) 0 0 0 0 0 initial_signals [] files areas pd DPL_3
    (0x8000 + id) (0xa000 + id) (0xa000 + id) (0xc000 + id) 0x40000000.

(** the idle task 1; task 5 on the CPU; task 6 on the run queue, asleep until
    task 9 ends; task 7 awake on the blocking list; task 9 on the exit list with
    three areas, and a file open twice *)
Definition exiting_task : task :=
  set_wq_termination [0x6000] (a_task 9 TASK_STATE_EXITING (base_page 1)
    [mk_fe 0x700 0 true true; mk_fe 0 0 false false; mk_fe 0x700 4 true false] [1; 2; 3]).
Definition machine : kst :=
  mk_kst {[1 := a_task 0 TASK_STATE_RUNNING 0 [] [];
           5 := a_task 5 TASK_STATE_RUNNING 0 [] [];
           6 := a_task 6 TASK_STATE_INTERRUPTIBLE 0 [] [];
           7 := a_task 7 TASK_STATE_RUNNING 0 [] [];
           9 := exiting_task]}
    [6] [9] [] [7] 5 1 1 {[0x6000 := 6]} 0 ∅ ∅ {[9 := 9]} {[0x700 := 3]} [] (mk_tp PagingExample.start user).

Lemma machine_tasks a t : tasks machine !! a = Some t →
  a ∈ [1; 5; 6; 7; 9] ∧ (page_directory t = 0 ∨ page_directory t = base_page 1).
Proof.
  intros Ht. unfold machine in Ht. cbn [tasks] in Ht.
  repeat (apply lookup_insert_Some in Ht as [[<- <-]|[_ Ht]];
    [split; [repeat (by left) || right; by left|by (left + right)]|]).
  apply lookup_singleton_Some in Ht as [<- <-]. split; [by repeat ((by left) || right)|by right].
Qed.

Lemma machine_sched : sched_ok machine.
Proof.
  split.
  - change (NoDup [6; 9; 7; 5]). repeat constructor; rewrite ?elem_of_cons, ?elem_of_nil; lia.
  - change (tasks_exist (tasks machine) [6; 9; 7; 5]). intros a Ha.
    repeat (apply elem_of_cons in Ha as [->|Ha]; [split; [done|vm_compute; eauto]|]). by apply not_elem_of_nil in Ha.
  - change (1 ∉ [6; 9; 7]). rewrite !elem_of_cons, elem_of_nil. lia.
  - split; [done|vm_compute; eauto].
Qed.

Lemma machine_spaces : spaces_ok machine.
Proof.
  split.
  - by exists 0.
  - intros k Hk. change (mem (tps (paging machine))) with (mem PagingExample.start).
    change (kernel_page_directory _) with (base_page 0). rewrite start_words; eauto.
  - intros a t [_ [->| ->]]%machine_tasks; [by left|right]. split_and!; [by exists 1| |].
    + intros E%base_page_inj; done.
    + intros k Hk. rewrite start_words; eauto.
Qed.

Definition ending : kst := with_queues machine [] [] [] [].

Lemma ending_reclaimable : reclaimable ending 9 exiting_task.
Proof.
  split.
  - done.
  - apply not_elem_of_nil.
  - done.
  - apply start_dir. by right.
  - by left.
  - apply user_ok.
  - intros b v Hb Hv. apply user_area_some in Hv as [Hv _]. change (vma_list exiting_task) with [1; 2; 3] in Hb.
    repeat (apply elem_of_cons in Hb as [->|Hb]; [by vm_compute in Hv; injection Hv as <-|]). by apply not_elem_of_nil in Hb.
  - intros e He Hv. change (file_entries exiting_task) with [mk_fe 0x700 0 true true; mk_fe 0 0 false false; mk_fe 0x700 4 true false] in He.
    repeat (apply elem_of_cons in He as [->|He]; [by (split; [|vm_compute; eauto])|]). by apply not_elem_of_nil in He.
  - intros f n Hf. change (refer_count ending) with ({[0x700 := 3]} : gmap Z Z) in Hf. apply lookup_singleton_Some in Hf as [_ <-]. lia.
Qed.

Lemma machine_exits : exits_ok machine (exit_queue machine).
Proof.
  change (exit_queue machine) with [9]. split.
  - intros a ->%list_elem_of_singleton. exists exiting_task. split_and!; [apply ending_reclaimable|done|].
    intros e He. change (wq_termination exiting_task) with [0x6000] in He. apply list_elem_of_singleton in He as ->.
    exists 6, (a_task 6 TASK_STATE_INTERRUPTIBLE 0 [] []). split_and!; [done|done|done|]. split; [by right; left|done].
  - intros a b t u ->%list_elem_of_singleton ->%list_elem_of_singleton. done.
Qed.


Lemma reclaim_task_correct_witness : ∃ s', reclaim_task 9 ending = Ok (OK, s') ∧ reclaimed ending 9 exiting_task s'.
Proof. apply (reclaim_task_correct ending 9 exiting_task), ending_reclaimable. Defined.

(** The PL0 stack of a reclaimed task is freed twice: by [reclaim_task] and
    again by [free_task]. *)
Theorem reclaim_frees_stack_twice : freed_blocks 9 exiting_task = [3; 2; 1; 0x8009; 0xa009; 0x8009; 9].
Proof. reflexivity. Qed.
End SchedExample.
