(* ===== verification/KHeap.v ===== *)
(** * The kernel heap as the rest of the kernel sees it

    What a client of [malloc_align] and [free] relies on, as a class of
    operations and a class of laws over the set of live pointers.  The allocator
    of Malloc is an instance. *)

From stdpp Require Import gmap list.
From S2P Require Import Prelude Malloc.
Open Scope Z_scope.
Open Scope zelda_scope.

Class KHeap (A : Type) := {
  heap_malloc_align : Z → Z → M A Z;
  heap_free : Z → M A () }.

(** [heap_live L s]: the heap is well formed and the pointers [L] are live *)
Class KHeapLaws (A : Type) `{KHeap A} := {
  heap_live : list Z → A → Prop;
  heap_live_nodup : ∀ L s, heap_live L s → NoDup L ∧ NULL ∉ L;
  heap_live_above : ∀ L s p, heap_live L s → p ∈ L → KERNEL_HEAP_BOTTOM < p;
  heap_live_perm : ∀ L L' s, L ≡ₚ L' → heap_live L s → heap_live L' s;
  heap_malloc_law : ∀ L s len k,
    heap_live L s → 0 ≤ len < 2147483648 → (k ≤ 16)%nat →
    ∃ p s', heap_malloc_align len (2 ^ Z.of_nat k) s = Ok (p, s') ∧
      heap_live (if ctrue p then p :: L else L) s';
  heap_free_law : ∀ L s p,
    heap_live (p :: L) s → ∃ s', heap_free p s = Ok ((), s') ∧ heap_live L s' }.

(** the heap after [n] allocations of [len] bytes, if none of them fails *)
Section allocate.
Context {A : Type} `{KHeap A} (len align : Z).

Fixpoint heap_allocate (n : nat) (h : A) : option A :=
  match n with
  | O => Some h
  | S n =>
      match heap_malloc_align len align h with
      | Ok (p, h) => if ctrue p then heap_allocate n h else None
      | Err _ => None
      end
  end.

Lemma allocate_add n m h : heap_allocate (n + m) h = h' ← heap_allocate n h; heap_allocate m h'.
Proof.
  revert h. induction n as [|n IH]; intros h; [done|]. cbn [heap_allocate Nat.add].
  destruct (heap_malloc_align len align h) as [[p h']|]; [|done]. destruct (ctrue p); [apply IH|done].
Qed.

Lemma allocate_none n m h : heap_allocate n h = None → (n ≤ m)%nat → heap_allocate m h = None.
Proof. intros E Hn. by rewrite <-(Nat.sub_add n m), Nat.add_comm, allocate_add, E by done. Qed.

Lemma allocate_one p h h' :
  heap_malloc_align len align h = Ok (p, h') → heap_allocate 1 h = if ctrue p then Some h' else None.
Proof. intros E. cbn [heap_allocate]. by rewrite E. Qed.
End allocate.

(** [free] of several pointers, one after the other *)
Section release.
Context {A : Type} `{KHeap A}.

Fixpoint heap_free_all (ps : list Z) : M A () :=
  match ps with [] => mret () | p :: ps => heap_free p ;; heap_free_all ps end.

Lemma heap_free_all_app ps qs h h' h'' :
  heap_free_all ps h = Ok ((), h') → heap_free_all qs h' = Ok ((), h'') → heap_free_all (ps ++ qs) h = Ok ((), h'').
Proof.
  revert h. induction ps as [|p ps IH]; intros h Hps Hqs; cbn [heap_free_all app] in *; [by injection Hps as ->|].
  unfold mbind, M_bind in *. destruct (heap_free p h) as [[[] h1]|]; [|done]. by apply IH.
Qed.

Lemma heap_free_all_one p h h' : heap_free p h = Ok ((), h') → heap_free_all [p] h = Ok ((), h').
Proof. intros E. cbn [heap_free_all]. by rewrite (bind_ok _ _ _ _ _ E). Qed.
End release.

(** ** The allocator of memory/malloc.c *)
Section malloc.
Variable bins : Z.
Hypothesis Hbins : 0 < bins ∧ bins + 208 ≤ KERNEL_HEAP_BOTTOM.

Definition malloc_heap : KHeap mstate := {|
  heap_malloc_align := malloc_align bins;
  heap_free := free bins |}.

Definition malloc_live (L : list Z) (s : mstate) : Prop := ∃ B Bs, heap_inv bins s B Bs ∧ live_ok s B L.

Lemma user_ptr_range s B Bs b p :
  heap_inv bins s B Bs → b ∈ B → user_ptr s b p → ba b < p ≤ ba b + bs b ∧ KERNEL_HEAP_BOTTOM ≤ ba b.
Proof.
  intros Hinv Hb (Hf & h & Hh & ->). destruct (hi_hdr _ _ _ _ _ Hinv b Hb) as (h' & Hh' & Hs & _ & Hex).
  rewrite Hh in Hh'. injection Hh' as <-. destruct Hex as [_ Hpad]; [done|]. destruct (Hpad Hf) as (Hr & Hl & _).
  pose proof (tiles_range _ _ _ _ (hi_tiles _ _ _ _ _ Hinv) Hb) as (R1 & _).
  assert (KERNEL_HEAP_BOTTOM = 134217728) as EB by done. lia.
Qed.

Lemma user_ptr_inj s B Bs b c p :
  heap_inv bins s B Bs → b ∈ B → c ∈ B → user_ptr s b p → user_ptr s c p → b = c.
Proof.
  intros Hinv Hb Hc Hub Huc. destruct (user_ptr_range _ _ _ _ _ Hinv Hb Hub). destruct (user_ptr_range _ _ _ _ _ Hinv Hc Huc).
  destruct (tiles_disjoint _ _ _ _ _ (hi_tiles _ _ _ _ _ Hinv) Hb Hc) as [?|[?|?]]; [done|lia|lia].
Qed.

Lemma malloc_live_nodup L s : malloc_live L s → NoDup L ∧ NULL ∉ L.
Proof.
  intros (B & Bs & Hinv & bl & Hnd & Hsub & HF). split.
  - apply NoDup_alt. intros i j p Hi Hj.
    destruct (Forall2_lookup_r _ _ _ _ _ HF Hi) as (b & Hb & Hub). destruct (Forall2_lookup_r _ _ _ _ _ HF Hj) as (c & Hc & Huc).
    assert (b = c) as <-.
    { eapply user_ptr_inj; [done|apply Hsub; by eapply list_elem_of_lookup_2|apply Hsub; by eapply list_elem_of_lookup_2|done|done]. }
    by eapply NoDup_lookup.
  - intros [i Hi]%list_elem_of_lookup. destruct (Forall2_lookup_r _ _ _ _ _ HF Hi) as (b & Hb & Hub).
    destruct (user_ptr_range s B Bs b NULL Hinv) as [? R]; [apply Hsub; by eapply list_elem_of_lookup_2|done|].
    change KERNEL_HEAP_BOTTOM with 134217728 in R. lia.
Qed.

Lemma malloc_live_above L s p : malloc_live L s → p ∈ L → KERNEL_HEAP_BOTTOM < p.
Proof.
  intros (B & Bs & Hinv & bl & Hnd & Hsub & HF) [i Hi]%list_elem_of_lookup.
  destruct (Forall2_lookup_r _ _ _ _ _ HF Hi) as (b & Hb & Hub).
  destruct (user_ptr_range s B Bs b p Hinv); [apply Hsub; by eapply list_elem_of_lookup_2|done|lia].
Qed.

Lemma malloc_live_perm L L' s : L ≡ₚ L' → malloc_live L s → malloc_live L' s.
Proof.
  intros HP (B & Bs & Hinv & bl & Hnd & Hsub & HF). exists B, Bs. split; [done|].
  apply Forall2_flip in HF. destruct (Permutation_Forall2 HP HF) as (bl' & HP' & HF').
  exists bl'. split_and!; [by rewrite <-HP'|intros b Hb; apply Hsub; by rewrite HP'|by apply Forall2_flip].
Qed.

Lemma malloc_live_malloc L s len k :
  malloc_live L s → 0 ≤ len < 2147483648 → (k ≤ 16)%nat →
  ∃ p s', malloc_align bins len (2 ^ Z.of_nat k) s = Ok (p, s') ∧ malloc_live (if ctrue p then p :: L else L) s'.
Proof.
  intros (B & Bs & Hinv & bl & Hnd & Hsub & HF) Hlen Hk.
  destruct (malloc_align_ok bins Hbins s B Bs len k) as (p & s' & B' & Bs' & Hr & Hinv' & Hcase); [done..|].
  exists p, s'. split; [done|]. destruct Hcase as [(-> & -> & -> & _)|(Hp & _ & _ & (b & Hb & HbB & Hub & _) & Hkeep)].
  { exists B, Bs. split; [done|]. by exists bl. }
  rewrite (proj2 (ctrue_true p) Hp). exists B', Bs'. split; [done|].
  destruct (live_ok_mono s s' B' bl L) as (_ & Hsub' & HF'); [|done|done|].
  { intros c q Hc Hq. destruct (Hkeep c q) as (? & ? & _); [by apply Hsub|done|done]. }
  exists (b :: bl). split_and!; [|intros c [->|Hc]%elem_of_cons; [done|by apply Hsub']|by constructor].
  apply NoDup_cons. split; [|done]. intros Hin. by apply HbB, Hsub.
Qed.

Lemma malloc_live_free L s p :
  malloc_live (p :: L) s → ∃ s', free bins p s = Ok ((), s') ∧ malloc_live L s'.
Proof.
  intros (B & Bs & Hinv & bl & Hnd & Hsub & HF). apply Forall2_cons_inv_r in HF as (b & bl' & Hub & HF & ->).
  apply NoDup_cons in Hnd as [Hb Hnd].
  destruct (free_ok bins Hbins s B Bs b p) as (s' & B' & Bs' & Hr & Hinv' & _ & Hkeep); [done|apply Hsub; by left|done|].
  exists s'. split; [done|]. exists B', Bs'. split; [done|]. exists bl'.
  apply (live_ok_mono s); [|done|done]. intros c q Hc Hq. apply Hkeep; [apply Hsub; by right|by intros ->|done].
Qed.

Definition malloc_heap_laws : @KHeapLaws mstate malloc_heap :=
  @Build_KHeapLaws mstate malloc_heap malloc_live malloc_live_nodup malloc_live_above malloc_live_perm malloc_live_malloc malloc_live_free.
End malloc.
