(* ===== verification/MemFs.v ===== *)
(** * Files in memory: filesystem/memfs_blocking.c and the file operations of
    filesystem/memfs.c

    A file is a header ([struct mem_block_hdr] whose [nr_used] is the size of
    the file) and the list of its blocks, a sequence of addresses.  Blocks come
    from the kernel heap (KHeap); what a fresh block holds is left over from its
    previous use and is given by [residue]. *)

From Stdlib Require Import ZifyNat.
From stdpp Require Import gmap list.
From S2P Require Import Prelude CString Malloc KHeap.
Open Scope Z_scope.
Open Scope zelda_scope.

Definition MEM_BLOCK_SIZE : Z := PAGE_SIZE.
Definition MEM_BLOCK_ALIGN : Z := PAGE_SIZE.
(** [MEM_BLOCK_SIZE - sizeof(struct mem_block_hdr)] *)
Definition BLOCK_AVAIL_SIZE : Z := 4084.

(** a block: [nr_used] and [content] of [struct mem_block_hdr] *)
Record mem_block := mk_block { nr_used : Z; content : list Z }.
Definition set_nr_used (n : Z) (b : mem_block) : mem_block := mk_block n (content b).
Definition set_content (c : list Z) (b : mem_block) : mem_block := mk_block (nr_used b) c.

(** the header of a file: its [list] and [nr_used] *)
Record mem_head := mk_head { chain : list Z; total : Z }.
Definition set_chain (l : list Z) (h : mem_head) : mem_head := mk_head l (total h).
Definition set_total (n : Z) (h : mem_head) : mem_head := mk_head (chain h) n.

(** [MIN(a, b)] where [b] is unsigned: the comparison is unsigned *)
Definition MIN (a b : Z) : Z := if u32 a <? u32 b then a else b.

(** [memcpy(dst + doff, src + soff, n)] on arrays *)
Definition copy_at (dst : list Z) (doff : Z) (src : list Z) (soff n : Z) : option (list Z) :=
  if (doff <? 0) || (soff <? 0) || (Z.of_nat (length dst) <? doff) || (Z.of_nat (length src) <? soff) then None else
  c ← memcpy (drop (Z.to_nat doff) dst) (drop (Z.to_nat soff) src) n;
  Some (take (Z.to_nat doff) dst ++ c).

Section memfs.
Context {A : Type} `{KHeap A}.
Variable residue : Z → A → list Z.

Record mstore := mk_mstore { mheap : A; mblocks : gmap Z mem_block; mheads : gmap Z mem_head }.
Definition mheap_l : lens mstore A := Lens mheap (λ x s, mk_mstore x (mblocks s) (mheads s)).
Definition mblocks_l : lens mstore (gmap Z mem_block) := Lens mblocks (λ x s, mk_mstore (mheap s) x (mheads s)).
Definition mheads_l : lens mstore (gmap Z mem_head) := Lens mheads (λ x s, mk_mstore (mheap s) (mblocks s) x).

Definition get_block (a : Z) : M mstore mem_block := zoom mblocks_l (load a).
Definition upd_block (a : Z) (f : mem_block → mem_block) : M mstore () := zoom mblocks_l (update a f).
Definition get_head (a : Z) : M mstore mem_head := zoom mheads_l (load a).
Definition upd_head (a : Z) (f : mem_head → mem_head) : M mstore () := zoom mheads_l (update a f).

Definition get_mem_block : M mstore Z :=
  hdr ← zoom mheap_l (heap_malloc_align MEM_BLOCK_SIZE MEM_BLOCK_ALIGN);
  if ctrue hdr then
    c ← gets (λ s, residue hdr (mheap s));
    zoom mblocks_l (modify (<[hdr := mk_block 0 c]>)) ;;
    mret hdr
  else mret NULL.

(** the links of a block are NULL exactly when it is on no list *)
Definition on_no_list (a : Z) (heads : gmap Z mem_head) : bool := bool_decide (map_Forall (λ _ h, a ∉ chain h) heads).

Definition put_mem_block (hdr : Z) : M mstore () :=
  heads ← gets mheads;
  ASSERT (on_no_list hdr heads) ;;
  zoom mblocks_l (modify (delete hdr)) ;;
  zoom mheap_l (heap_free hdr).

(** [list_append(&hdr->list, &_block->list)] *)
Definition append_block (hdr _block : Z) : M mstore () := upd_head hdr (λ h, set_chain (chain h ++ [_block]) h).

(** [list_last_elem] *)
Definition last_block (hdr : Z) : M mstore Z := h ← get_head hdr; mret (default NULL (last (chain h))).

(** one block appended to the file [hdr]; NULL when there is no memory *)
Definition new_block (hdr : Z) : M mstore Z :=
  _block ← get_mem_block;
  if ! _block then mret NULL else append_block hdr _block ;; mret _block.

Fixpoint write_sequential_loop (fuel : nat) (hdr : Z) (buffer : list Z) (left result : Z) : M mstore Z :=
  match fuel with
  | O => fail Diverge
  | S fuel =>
      if left >? 0 then
        last_elem ← last_block hdr;
        last_elem ← (if ! last_elem then new_block hdr else mret last_elem);
        if ! last_elem then mret result else
        b ← get_block last_elem;
        ASSERT (0 <=? i32 (BLOCK_AVAIL_SIZE - nr_used b)) ;;
        _block ← (if ! i32 (BLOCK_AVAIL_SIZE - nr_used b) then new_block hdr else mret last_elem);
        if ! _block then mret result else
        b ← get_block _block;
        ASSERT (0 <? i32 (BLOCK_AVAIL_SIZE - nr_used b)) ;;
        let nr_bytes_to_write := Z.min (i32 (BLOCK_AVAIL_SIZE - nr_used b)) left in
        c ← deref (copy_at (content b) (nr_used b) buffer result nr_bytes_to_write);
        upd_block _block (set_content c) ;;
        upd_block _block (set_nr_used (u32 (nr_used b + nr_bytes_to_write))) ;;
        ASSERT (u32 (nr_used b + nr_bytes_to_write) <=? BLOCK_AVAIL_SIZE) ;;
        write_sequential_loop fuel hdr buffer (left - nr_bytes_to_write) (result + nr_bytes_to_write)
      else mret result
  end.

Definition mem_block_raw_write_sequential (hdr : Z) (buffer : list Z) (size : Z) : M mstore Z :=
  ASSERT (0 <=? size) ;;
  if size =? 0 then mret 0 else
  write_sequential_loop (S (Z.to_nat size)) hdr buffer size 0.

(** the search for the block at an offset, in [mem_block_raw_write_random] and
    [mem_block_raw_truncate]: [limit] is how many bytes a block counts for.  The
    result is [offset_left], [block_iptr] and [current_block]. *)
Fixpoint skip_blocks (limit : mem_block → Z) (l : list Z) (offset_left : Z) (block_iptr : Z) : M mstore (Z * Z * Z) :=
  match l with
  | [] => mret (offset_left, block_iptr, NULL)
  | _block :: l =>
      b ← get_block _block;
      let ignored := if ctrue offset_left then MIN offset_left (limit b) else 0 in
      let offset_left := i32 (offset_left - ignored) in
      if ! offset_left then mret (offset_left, ignored, _block)
      else skip_blocks limit l offset_left ignored
  end.

(** blocks for the part of the offset beyond the last block *)
Fixpoint extend_blocks (fuel : nat) (hdr offset_left block_iptr current_block : Z) : M mstore (Z * Z * Z) :=
  match fuel with
  | O => fail Diverge
  | S fuel =>
      if offset_left >? 0 then
        _block ← get_mem_block;
        if ! _block then mret (offset_left, block_iptr, current_block) else
        let ignored := MIN BLOCK_AVAIL_SIZE offset_left in
        upd_block _block (set_nr_used ignored) ;;
        let offset_left := offset_left - ignored in
        append_block hdr _block ;;
        if ! offset_left then mret (offset_left, ignored, _block)
        else extend_blocks fuel hdr offset_left block_iptr current_block
      else mret (offset_left, block_iptr, current_block)
  end.

(** [_block->list.next] *)
Fixpoint next_block (a : Z) (l : list Z) : Z :=
  match l with
  | [] => NULL
  | b :: l => if b =? a then default NULL (head l) else next_block a l
  end.

Fixpoint write_random_loop (fuel : nat) (hdr : Z) (buffer : list Z) (left result block_iptr current_block : Z) : M mstore Z :=
  match fuel with
  | O => fail Diverge
  | S fuel =>
      if left >? 0 then
        if ctrue current_block then
          let nr_bytes_to_write := Z.min (i32 (BLOCK_AVAIL_SIZE - block_iptr)) left in
          b ← get_block current_block;
          c ← deref (copy_at (content b) block_iptr buffer result nr_bytes_to_write);
          upd_block current_block (set_content c) ;;
          let left := left - nr_bytes_to_write in
          let result := result + nr_bytes_to_write in
          when (nr_used b <? block_iptr + nr_bytes_to_write)
            (upd_block current_block (set_nr_used (block_iptr + nr_bytes_to_write))) ;;
          if ! left then mret result else
          h ← get_head hdr;
          write_random_loop fuel hdr buffer left result 0 (next_block current_block (chain h))
        else
          _block ← get_mem_block;
          if ! _block then mret result else
          upd_block _block (set_nr_used 0) ;;
          append_block hdr _block ;;
          write_random_loop fuel hdr buffer left result 0 _block
      else mret result
  end.

Definition mem_block_raw_write_random (hdr offset : Z) (buffer : list Z) (size : Z) : M mstore Z :=
  h ← get_head hdr;
  '(offset_left, block_iptr, current_block) ← skip_blocks nr_used (chain h) (i32 offset) 0;
  '(offset_left, block_iptr, current_block) ←
    extend_blocks (S (Z.to_nat offset_left)) hdr offset_left block_iptr current_block;
  if ctrue offset_left then mret 0 else
  write_random_loop (Z.to_nat (2 * size + 3)) hdr buffer size 0 block_iptr current_block.

Fixpoint read_loop (l : list Z) (buffer : list Z) (offset_left left result : Z) : M mstore (Z * list Z) :=
  match l with
  | [] => mret (result, buffer)
  | _block :: l =>
      ASSERT (0 <=? left) ;;
      if ! left then mret (result, buffer) else
      b ← get_block _block;
      let block_left := i32 (nr_used b) in
      let ignored := if ctrue offset_left then Z.min block_left offset_left else 0 in
      let block_left := block_left - ignored in
      let offset_left := offset_left - ignored in
      if ! block_left then read_loop l buffer offset_left left result else
      let nr_bytes_to_read := Z.min block_left left in
      ASSERT (ctrue nr_bytes_to_read) ;;
      buffer ← deref (copy_at buffer result (content b) ignored nr_bytes_to_read);
      read_loop l buffer offset_left (left - nr_bytes_to_read) (result + nr_bytes_to_read)
  end.

(** the bytes read go to [buffer], which is returned with the result *)
Definition mem_block_raw_read (hdr offset : Z) (buffer : list Z) (size : Z) : M mstore (Z * list Z) :=
  h ← get_head hdr;
  read_loop (chain h) buffer (i32 offset) size 0.

(** the blocks from [a] on *)
Fixpoint blocks_from (a : Z) (l : list Z) : list Z :=
  match l with [] => [] | b :: l' => if b =? a then l else blocks_from a l' end.

(** delete all blocks from the current one to the last; [l] are those *)
Fixpoint shrink_blocks (hdr : Z) (l : list Z) : M mstore () :=
  match l with
  | [] => mret ()
  | current_block :: l =>
      upd_head hdr (λ h, set_chain (filter (λ x, x ≠ current_block) (chain h)) h) ;;
      put_mem_block current_block ;;
      shrink_blocks hdr l
  end.

Definition mem_block_raw_truncate (hdr offset : Z) : M mstore Z :=
  h ← get_head hdr;
  '(offset_left, block_iptr, current_block) ← skip_blocks (λ _, BLOCK_AVAIL_SIZE) (chain h) (i32 offset) 0;
  '(offset_left, block_iptr, current_block) ←
    extend_blocks (S (Z.to_nat offset_left)) hdr offset_left block_iptr current_block;
  if offset_left >? 0 then mret (- ERR_OUT_OF_MEMORY) else
  current_block ←
    (if ctrue current_block then
       upd_block current_block (set_nr_used block_iptr) ;;
       h ← get_head hdr;
       mret (if ctrue block_iptr then next_block current_block (chain h) else current_block)
     else mret NULL);
  h ← get_head hdr;
  shrink_blocks hdr (if ctrue current_block then blocks_from current_block (chain h) else []) ;;
  mret OK.

(** [while (!list_empty)] { [list_fetch]; [put_mem_block] } *)
Definition mem_block_raw_reclaim (hdr : Z) : M mstore () :=
  h ← get_head hdr;
  shrink_blocks hdr (chain h).

(** ** The file operations of memfs.c; [priv] is [file->priv] *)
Definition tmpfs_read_file (priv offset : Z) (buffer : list Z) (size : Z) : M mstore (Z * list Z) :=
  if ! priv then mret (- ERR_GENERIC, buffer) else
  mem_block_raw_read priv offset buffer size.

Definition tmpfs_write_file (priv offset : Z) (buffer : list Z) (size : Z) : M mstore Z :=
  if ! priv then mret (- ERR_GENERIC) else
  h ← get_head priv;
  result ← (if total h =? offset then mem_block_raw_write_sequential priv buffer size
            else mem_block_raw_write_random priv offset buffer size);
  when (0 <=? result) (
    let end_index := u32 (offset + result) in
    h ← get_head priv;
    upd_head priv (set_total (Z.max end_index (total h)))) ;;
  mret result.

Definition tmpfs_file_size (priv : Z) : M mstore Z :=
  if ctrue priv then h ← get_head priv; mret (i32 (total h)) else mret 0.

Definition tmpfs_file_truncate (priv offset : Z) : M mstore Z :=
  if ! priv then mret (- ERR_GENERIC) else
  result ← mem_block_raw_truncate priv offset;
  if negb (result =? OK) then mret (- ERR_GENERIC) else
  upd_head priv (set_total (u32 offset)) ;;
  mret OK.
End memfs.
Arguments mstore : clear implicits.

#[local] Ltac Zify.zify_post_hook ::= Z.to_euclidean_division_equations.
(** ** Blocks *)
Definition block_ok (b : mem_block) : Prop := lenZ (content b) = BLOCK_AVAIL_SIZE ∧ 0 ≤ nr_used b ≤ BLOCK_AVAIL_SIZE.
Definition used (b : mem_block) : list Z := take (Z.to_nat (nr_used b)) (content b).
Definition bytes (bs : list mem_block) : list Z := concat (used <$> bs).
Definition full (b : mem_block) : Prop := nr_used b = BLOCK_AVAIL_SIZE.

(** all blocks but the last are full *)
Fixpoint compact (bs : list mem_block) : Prop :=
  match bs with [] => True | b :: bs => (bs = [] ∨ full b) ∧ compact bs end.

Lemma compact_app pre post : compact (pre ++ post) ↔ (post = [] ∧ compact pre) ∨ (Forall full pre ∧ compact post).
Proof.
  induction pre as [|b pre IH]; simpl; [naive_solver|]. rewrite IH, Forall_cons.
  destruct post as [|c post]; [rewrite app_nil_r; naive_solver|]. split; [|naive_solver].
  intros [[E|Hf] [[? ?]|[? ?]]]; try done; [by destruct pre|naive_solver].
Qed.

Lemma length_used b : block_ok b → lenZ (used b) = nr_used b.
Proof. intros [Hl Hn]. unfold used. rewrite length_take. lia. Qed.

Lemma bytes_app pre post : bytes (pre ++ post) = bytes pre ++ bytes post.
Proof. unfold bytes. by rewrite fmap_app, concat_app. Qed.

Lemma bytes_cons b bs : bytes (b :: bs) = used b ++ bytes bs.
Proof. done. Qed.

Lemma copy_at_ok dst doff src soff n :
  0 ≤ doff → 0 ≤ soff → 0 ≤ n → doff + n ≤ lenZ dst → soff + n ≤ lenZ src →
  copy_at dst doff src soff n = Some (overlay dst doff (take (Z.to_nat n) (drop (Z.to_nat soff) src))).
Proof.
  intros H1 H2 H3 H4 H5. unfold copy_at.
  replace ((doff <? 0) || (soff <? 0) || (lenZ dst <? doff) || (lenZ src <? soff)) with false by lia.
  unfold memcpy. rewrite memcpy_bytes_ok by (rewrite length_drop; lia). unfold mbind, option_bind.
  f_equal. unfold overlay. rewrite drop_drop. do 3 f_equal. rewrite length_take, length_drop. lia.
Qed.

Lemma write_block_ok b i w :
  block_ok b → 0 ≤ i ≤ nr_used b → i + lenZ w ≤ BLOCK_AVAIL_SIZE →
  let b' := mk_block (Z.max (nr_used b) (i + lenZ w)) (overlay (content b) i w) in
  block_ok b' ∧ used b' = overlay (used b) i w.
Proof.
  intros [Hl Hn] Hi Hw b'. split.
  - split; [unfold b'; cbn [content]; rewrite length_overlay by lia; lia|unfold b'; cbn [nr_used]; lia].
  - unfold used, b'. cbn [nr_used content]. unfold overlay.
    rewrite take_app_ge by (rewrite length_take; lia). rewrite take_app_ge by (rewrite !length_take; lia).
    rewrite take_take, Nat.min_l by lia. f_equal. f_equal. rewrite skipn_firstn_comm, length_take.
    destruct (decide (nr_used b ≤ i + lenZ w)); [rewrite !take_ge_0; [done|lia|lia]|f_equal; lia].
Qed.

(** ** Files in the store *)
Section proofs.
Context {A : Type} `{!KHeap A, !KHeapLaws A}.
Variable residue : Z → A → list Z.
Hypothesis residue_length : ∀ a s, lenZ (residue a s) = BLOCK_AVAIL_SIZE.

(** all blocks are live in the heap, apart from the pointers [K] other parts of
    the kernel hold *)
Variable K : list Z.
Definition store_ok (s : mstore A) : Prop :=
  ∃ L, heap_live (L ++ K) (mheap s) ∧ ∀ a, is_Some (mblocks s !! a) → a ∈ L.

(** the file [hdr] of size [n] with the blocks [bs] at [l] *)
Record file_at (s : mstore A) (hdr : Z) (l : list Z) (bs : list mem_block) (n : Z) : Prop := {
  fa_head : mheads s !! hdr = Some (mk_head l n);
  fa_blocks : Forall2 (λ a b, mblocks s !! a = Some b) l bs;
  fa_nodup : NoDup l;
  fa_null : NULL ∉ l;
  fa_ok : Forall block_ok bs;
  fa_compact : compact bs }.

(** an operation on file [hdr] leaves the others alone *)
Record only_file (hdr : Z) (l l' : list Z) (s s' : mstore A) : Prop := {
  of_heads : ∀ h, h ≠ hdr → mheads s' !! h = mheads s !! h;
  of_blocks : ∀ a, (a ∉ l) → is_Some (mblocks s !! a) → mblocks s' !! a = mblocks s !! a;
  of_chain : ∀ a, a ∈ l' → a ∈ l ∨ mblocks s !! a = None }.

Lemma only_file_refl hdr l s : only_file hdr l l s s.
Proof. split; [done|done|]. intros a Ha. by left. Qed.

Lemma only_file_trans hdr l l1 l2 s s1 s2 :
  only_file hdr l l1 s s1 → only_file hdr l1 l2 s1 s2 → only_file hdr l l2 s s2.
Proof.
  intros [H1 B1 C1] [H2 B2 C2].
  assert (∀ a, (a ∉ l) → is_Some (mblocks s !! a) → a ∉ l1) as Hno.
  { intros a Ha [b Hb] Hin. destruct (C1 a Hin) as [?|E]; [done|]. by rewrite Hb in E. }
  split.
  - intros h Hh. rewrite H2, H1 by done. done.
  - intros a Ha Hs. rewrite B2; [by apply B1|by apply Hno|by rewrite B1].
  - intros a Ha. destruct (C2 a Ha) as [Hin|E]; [by apply C1|]. destruct (decide (a ∈ l)); [by left|right].
    destruct (mblocks s !! a) as [b|] eqn:Eb; [|done]. rewrite B1, Eb in E; [done|done|by eexists].
Qed.

(** one of the next [n] allocations of a block fails *)
Definition no_blocks (n : nat) (h : A) : Prop := heap_allocate MEM_BLOCK_SIZE MEM_BLOCK_ALIGN n h = None.
(** the blocks of a file of [n] bytes *)
Definition blocks_for (n : Z) : nat := Z.to_nat ((n + BLOCK_AVAIL_SIZE - 1) / BLOCK_AVAIL_SIZE).
(** the heap gave the blocks by which the list grew, and nothing else *)
Definition grew (l l' : list Z) (s s' : mstore A) : Prop :=
  (length l ≤ length l')%nat ∧ heap_allocate MEM_BLOCK_SIZE MEM_BLOCK_ALIGN (length l' - length l) (mheap s) = Some (mheap s').

Lemma grew_refl l s s' : mheap s' = mheap s → grew l l s s'.
Proof. intros E. split; [done|]. by rewrite Nat.sub_diag, <-E. Qed.
Lemma grew_same l l' s s1 s2 : grew l l' s s1 → mheap s2 = mheap s1 → grew l l' s s2.
Proof. unfold grew. by intros H ->. Qed.
Lemma grew_trans l l1 l2 s s1 s2 : grew l l1 s s1 → grew l1 l2 s1 s2 → grew l l2 s s2.
Proof.
  intros [L1 E1] [L2 E2]. split; [lia|]. replace (length l2 - length l)%nat with ((length l1 - length l) + (length l2 - length l1))%nat by lia.
  by rewrite allocate_add, E1.
Qed.
Lemma no_blocks_grew n l l1 s s1 : grew l l1 s s1 → no_blocks (n - length l1) (mheap s1) → no_blocks (n - length l) (mheap s).
Proof.
  intros [L1 E1] E2. destruct (decide (length l1 ≤ n)%nat) as [Hn|Hn]; [|by replace (n - length l1)%nat with 0%nat in E2 by lia].
  unfold no_blocks. replace (n - length l)%nat with ((length l1 - length l) + (n - length l1))%nat by lia. by rewrite allocate_add, E1.
Qed.

Lemma full_bytes bs : Forall block_ok bs → Forall full bs → lenZ (bytes bs) = BLOCK_AVAIL_SIZE * lenZ bs.
Proof.
  intros Hok Hf. induction bs as [|b bs IH]; [done|]. apply Forall_cons in Hok as [Hb Hok]. apply Forall_cons in Hf as [Hf1 Hf].
  rewrite bytes_cons, length_app. specialize (IH Hok Hf). pose proof (length_used b Hb) as Hu. unfold full in Hf1. cbn [length]. lia.
Qed.

Lemma blocks_for_more n w : 0 ≤ n → 0 < w → (Z.to_nat n < blocks_for (BLOCK_AVAIL_SIZE * n + w))%nat.
Proof. intros Hn Hw. unfold blocks_for, BLOCK_AVAIL_SIZE. lia. Qed.

Lemma get_mem_block_ok s :
  store_ok s →
  ∃ p s', get_mem_block residue s = Ok (p, s') ∧ store_ok s' ∧ mheads s' = mheads s ∧
    ((p = NULL ∧ mblocks s' = mblocks s ∧ no_blocks 1 (mheap s)) ∨
     (p ≠ NULL ∧ mblocks s !! p = None ∧ heap_allocate MEM_BLOCK_SIZE MEM_BLOCK_ALIGN 1 (mheap s) = Some (mheap s') ∧ ∃ c, lenZ c = BLOCK_AVAIL_SIZE ∧ mblocks s' = <[p := mk_block 0 c]> (mblocks s))).
Proof.
  intros (L & HL & Hdom). destruct (heap_malloc_law (L ++ K) (mheap s) MEM_BLOCK_SIZE 12 HL) as (p & h' & Hr & HL'); [done|lia|].
  change (2 ^ Z.of_nat 12) with MEM_BLOCK_ALIGN in Hr. unfold get_mem_block. erewrite bind_ok; [|apply (zoom_ok mheap_l); exact Hr].
  destruct (ctrue p) eqn:Hp.
  - apply ctrue_true in Hp. mstep. eexists p, _. split; [reflexivity|].
    destruct (heap_live_nodup _ _ HL') as [Hnd _]. apply NoDup_cons in Hnd as [Hpn _].
    split_and!; [|done|].
    + exists (p :: L). split; [done|]. simpl. intros a [->|[_ Ha]]%lookup_insert_is_Some; [by left|right; by apply Hdom].
    + right. split_and!; [done| |by rewrite (allocate_one _ _ _ _ _ Hr), (proj2 (ctrue_true p) Hp)|by eexists].
      destruct (mblocks s !! p) eqn:E; [|done]. destruct Hpn. apply elem_of_app. left. apply Hdom. by eexists.
  - apply ctrue_false in Hp as ->. eexists NULL, _. split; [reflexivity|]. split_and!; [by exists L|done|].
    left. split_and!; [done|done|]. exact (allocate_one _ _ _ _ _ Hr).
Qed.

Lemma get_block_run {B} s a b (k : mem_block → M (mstore A) B) :
  mblocks s !! a = Some b → mbind k (get_block a) s = k b s.
Proof. intros Hb. apply bind_ok. unfold get_block. rewrite (zoom_ok mblocks_l _ _ _ _ (load_ok _ _ _ Hb)). by destruct s. Qed.

Definition put_block (s : mstore A) (a : Z) (b : mem_block) : mstore A := mk_mstore (mheap s) (<[a := b]> (mblocks s)) (mheads s).
Definition put_head (s : mstore A) (a : Z) (h : mem_head) : mstore A := mk_mstore (mheap s) (mblocks s) (<[a := h]> (mheads s)).

Lemma upd_block_ok s a b f : mblocks s !! a = Some b → upd_block a f s = Ok ((), put_block s a (f b)).
Proof. intros Hb. unfold upd_block. by rewrite (zoom_ok mblocks_l _ _ _ _ (update_ok _ _ _ f Hb)). Qed.
Lemma upd_block_run {B} s a b f (k : () → M (mstore A) B) :
  mblocks s !! a = Some b → mbind k (upd_block a f) s = k () (put_block s a (f b)).
Proof. intros Hb. by apply bind_ok, upd_block_ok. Qed.

Lemma get_head_run {B} s a h (k : mem_head → M (mstore A) B) :
  mheads s !! a = Some h → mbind k (get_head a) s = k h s.
Proof. intros Hb. apply bind_ok. unfold get_head. rewrite (zoom_ok mheads_l _ _ _ _ (load_ok _ _ _ Hb)). by destruct s. Qed.
Lemma upd_head_ok s a h f : mheads s !! a = Some h → upd_head a f s = Ok ((), put_head s a (f h)).
Proof. intros Hb. unfold upd_head. by rewrite (zoom_ok mheads_l _ _ _ _ (update_ok _ _ _ f Hb)). Qed.
Lemma upd_head_run {B} s a h f (k : () → M (mstore A) B) :
  mheads s !! a = Some h → mbind k (upd_head a f) s = k () (put_head s a (f h)).
Proof. intros Hb. by apply bind_ok, upd_head_ok. Qed.

Lemma put_block_twice s a b b' : put_block (put_block s a b) a b' = put_block s a b'.
Proof. unfold put_block. simpl. by rewrite insert_insert_eq. Qed.

Lemma put_block_lookup s a b : mblocks (put_block s a b) !! a = Some b.
Proof. apply lookup_insert_eq. Qed.

Lemma store_ok_put s a b b' : store_ok s → mblocks s !! a = Some b → store_ok (put_block s a b').
Proof.
  intros (L & HL & Hdom) Hb. exists L. split; [done|]. simpl.
  intros x [->|[_ Hx]]%lookup_insert_is_Some; apply Hdom; [by eexists|done].
Qed.

Lemma chain_split s hdr lpre a lpost bs n :
  file_at s hdr (lpre ++ a :: lpost) bs n →
  ∃ pre b post, bs = pre ++ b :: post ∧ length pre = length lpre ∧ mblocks s !! a = Some b ∧ block_ok b ∧
    (a ∉ lpre) ∧ (a ∉ lpost) ∧ a ≠ NULL.
Proof.
  intros [_ HF Hnd Hnull Hok _]. apply Forall2_app_inv_l in HF as (pre & post & H1 & H2 & ->).
  apply Forall2_cons_inv_l in H2 as (b & post' & Hb & H2 & ->). exists pre, b, post'.
  apply NoDup_middle in Hnd as (? & ? & _). apply Forall_app in Hok as [_ Hok]. apply Forall_cons in Hok as [? _].
  split_and!; try done; [by apply Forall2_length in H1|]. intros ->. apply Hnull, elem_of_app. right. by left.
Qed.

(** a chain of blocks, not necessarily compact *)
Record chain_at (s : mstore A) (hdr : Z) (l : list Z) (bs : list mem_block) (n : Z) : Prop := {
  ca_head : mheads s !! hdr = Some (mk_head l n);
  ca_blocks : Forall2 (λ a b, mblocks s !! a = Some b) l bs;
  ca_nodup : NoDup l;
  ca_null : NULL ∉ l;
  ca_ok : Forall block_ok bs }.

Lemma file_at_chain s hdr l bs n : file_at s hdr l bs n ↔ chain_at s hdr l bs n ∧ compact bs.
Proof. split; [intros []; by split|intros [[] ?]; by split]. Qed.

(** a block of the chain replaced *)
Lemma chain_put_block s hdr lpre a lpost pre b post n b' :
  chain_at s hdr (lpre ++ a :: lpost) (pre ++ b :: post) n → length pre = length lpre → store_ok s → block_ok b' →
  chain_at (put_block s a b') hdr (lpre ++ a :: lpost) (pre ++ b' :: post) n ∧ store_ok (put_block s a b') ∧
  only_file hdr (lpre ++ a :: lpost) (lpre ++ a :: lpost) s (put_block s a b').
Proof.
  intros [Hh HF Hnd Hnull Hok] Hlen Hst Hb'.
  apply Forall2_app_inv in HF as [H1 H2]; [|done]. apply Forall2_cons in H2 as [Hb H2].
  pose proof Hnd as Hnd'. apply NoDup_middle in Hnd' as (N1 & N2 & _).
  assert (∀ x (c : mem_block), x ≠ a → mblocks s !! x = Some c → mblocks (put_block s a b') !! x = Some c) as Hother.
  { intros x c Hx Hxc. simpl. by rewrite lookup_insert_ne. }
  split_and!; [split| |split]; try done.
  - apply Forall2_app; [|constructor].
    + eapply Forall2_weaken; [|exact H1]. intros x c Hx Hxc. apply Hother; [by intros ->|done].
    + apply put_block_lookup.
    + eapply Forall2_weaken; [|exact H2]. intros x c Hx Hxc. apply Hother; [by intros ->|done].
  - apply Forall_app in Hok as [? Hok]. apply Forall_cons in Hok as [_ ?]. apply Forall_app. split; [done|by constructor].
  - by eapply store_ok_put.
  - intros x Hx _. simpl. rewrite lookup_insert_ne; [done|]. intros ->. apply Hx, elem_of_app. right. by left.
  - intros x Hx. by left.
Qed.

Lemma file_put_block s hdr lpre a lpost pre b post n b' :
  file_at s hdr (lpre ++ a :: lpost) (pre ++ b :: post) n → length pre = length lpre → store_ok s →
  block_ok b' → (post = [] ∨ full b') →
  file_at (put_block s a b') hdr (lpre ++ a :: lpost) (pre ++ b' :: post) n ∧ store_ok (put_block s a b') ∧
  only_file hdr (lpre ++ a :: lpost) (lpre ++ a :: lpost) s (put_block s a b').
Proof.
  rewrite !file_at_chain. intros [Hch Hc] Hlen Hst Hb' Hfull.
  destruct (chain_put_block s hdr lpre a lpost pre b post n b') as (? & ? & ?); try done. split_and!; try done.
  apply compact_app in Hc as [[? _]|[Hpre [_ Hpost]]]; [done|]. apply compact_app. right. by split.
Qed.

(** bytes written into a block *)
Lemma file_write_block s hdr lpre a lpost pre b post n i w :
  file_at s hdr (lpre ++ a :: lpost) (pre ++ b :: post) n → length pre = length lpre → store_ok s →
  0 ≤ i ≤ nr_used b → i + lenZ w ≤ BLOCK_AVAIL_SIZE →
  let b' := mk_block (Z.max (nr_used b) (i + lenZ w)) (overlay (content b) i w) in
  let s' := put_block s a b' in
  file_at s' hdr (lpre ++ a :: lpost) (pre ++ b' :: post) n ∧ store_ok s' ∧
  only_file hdr (lpre ++ a :: lpost) (lpre ++ a :: lpost) s s' ∧
  bytes (pre ++ b' :: post) = overlay (bytes (pre ++ b :: post)) (lenZ (bytes pre) + i) w.
Proof.
  intros Hf Hlen Hst Hi Hw b' s'. pose proof Hf as [_ _ _ _ Hok Hc].
  apply Forall_app in Hok as [_ Hok]. apply Forall_cons in Hok as [Hb _].
  apply compact_app in Hc as [[? _]|[_ [Hpost _]]]; [done|].
  destruct (write_block_ok b i w Hb Hi Hw) as [Hb' Eu]. fold b' in Hb', Eu.
  destruct (file_put_block s hdr lpre a lpost pre b post n b') as (? & ? & ?); try done.
  { destruct Hpost as [->|Hfb]; [by left|right]. unfold full, b' in *. simpl. lia. }
  split_and!; try done. rewrite !bytes_app. unfold bytes at 2 4. cbn [fmap list_fmap concat]. rewrite Eu.
  rewrite overlay_mid; [done|by rewrite length_used|]. rewrite length_used by done.
  destruct Hpost as [->|Hfb]; [by left|right]. unfold full in Hfb. lia.
Qed.

(** a block appended to a file whose blocks are full *)
Lemma add_block_ok s hdr l bs n :
  file_at s hdr l bs n → store_ok s → Forall full bs →
  ∃ p s1, get_mem_block residue s = Ok (p, s1) ∧
    ((p = NULL ∧ file_at s1 hdr l bs n ∧ store_ok s1 ∧ only_file hdr l l s s1 ∧ no_blocks 1 (mheap s)) ∨
     (p ≠ NULL ∧ mheads s1 !! hdr = Some (mk_head l n) ∧ ∃ c, let b := mk_block 0 c in let s2 := put_head s1 hdr (mk_head (l ++ [p]) n) in
        mblocks s1 !! p = Some b ∧ block_ok b ∧ file_at s2 hdr (l ++ [p]) (bs ++ [b]) n ∧ store_ok s2 ∧ only_file hdr l (l ++ [p]) s s2 ∧ grew l (l ++ [p]) s s2)).
Proof.
  intros [Hh HF Hnd Hnull Hok Hc] Hst Hfull. destruct (get_mem_block_ok s Hst) as (p & s1 & Hr & Hst1 & Eh & Hcase).
  exists p, s1. split; [done|]. destruct Hcase as [(-> & Eb & Hoom)|(Hp & Hfresh & Hal & c & Hlc & Eb)].
  { left. split_and!; [done|split; rewrite ?Eh, ?Eb; done|done| |done]. split; intros; rewrite ?Eh, ?Eb; [done|done|by left]. }
  right. split_and!; [done|by rewrite Eh|]. exists c. cbv zeta.
  assert (∀ x b, mblocks s !! x = Some b → mblocks s1 !! x = Some b) as Hold.
  { intros x b Hx. rewrite Eb, lookup_insert_ne; [done|]. intros ->. by rewrite Hfresh in Hx. }
  assert (p ∉ l) as Hpl.
  { intros Hin. apply list_elem_of_lookup in Hin as [i Hi]. destruct (Forall2_lookup_l _ _ _ _ _ HF Hi) as (b & _ & Hb).
    by rewrite Hfresh in Hb. }
  assert (block_ok (mk_block 0 c)) as Hbok by (split; [done|cbn [nr_used]; unfold BLOCK_AVAIL_SIZE; lia]).
  assert (mblocks s1 !! p = Some (mk_block 0 c)) as Hp1 by (by rewrite Eb, lookup_insert_eq).
  split_and!; [done|done| | | |].
  4:{ split; rewrite length_app; cbn [length]; [lia|]. by replace (length l + 1 - length l)%nat with 1%nat by lia. }
  - split; simpl.
    + by rewrite lookup_insert_eq.
    + apply Forall2_app; [|by repeat constructor]. eapply Forall2_impl; [exact HF|]. intros x b. apply Hold.
    + apply NoDup_app. split_and!; [done| |apply NoDup_singleton]. intros x Hx ->%list_elem_of_singleton. done.
    + rewrite elem_of_app, list_elem_of_singleton. intros [?|?]; [done|congruence].
    + apply Forall_app. split; [done|by repeat constructor].
    + apply compact_app. right. split; [done|]. split; [by left|done].
  - destruct Hst1 as (L & HL & Hdom). by exists L.
  - split; simpl.
    + intros h Hhd. by rewrite lookup_insert_ne, Eh.
    + intros a _ [b Hb]. rewrite Hb. by apply Hold.
    + intros a [Ha|Ha]%elem_of_app; [by left|]. apply list_elem_of_singleton in Ha as ->. by right.
Qed.

Lemma new_block_ok s hdr l bs n :
  file_at s hdr l bs n → store_ok s → Forall full bs →
  ∃ p s', new_block residue hdr s = Ok (p, s') ∧ store_ok s' ∧
    ((p = NULL ∧ file_at s' hdr l bs n ∧ only_file hdr l l s s' ∧ no_blocks 1 (mheap s)) ∨
     (p ≠ NULL ∧ ∃ c, let b := mk_block 0 c in mblocks s' !! p = Some b ∧ block_ok b ∧
        file_at s' hdr (l ++ [p]) (bs ++ [b]) n ∧ only_file hdr l (l ++ [p]) s s' ∧ grew l (l ++ [p]) s s')).
Proof.
  intros Hf Hst Hfull. destruct (add_block_ok s hdr l bs n Hf Hst Hfull) as (p & s1 & Hr & Hcase).
  unfold new_block. rewrite (bind_ok _ _ _ _ _ Hr).
  destruct Hcase as [(-> & Hf1 & Hst1 & Ho1 & Hoom)|(Hp & Hh1 & c & Hb1 & Hbok & Hf2 & Hst2 & Ho2 & Hg2)].
  { exists NULL, s1. split_and!; [done|done|]. by left. }
  rewrite (proj2 (ctrue_true p) Hp). cbn [negb]. unfold append_block. rewrite (upd_head_run _ _ _ _ _ Hh1).
  eexists p, _. split_and!; [reflexivity|done|]. right. split; [done|]. by exists c.
Qed.

(** the outcome of writing [w] at [off]: [k] bytes are written, all unless the
    heap is exhausted *)
Definition wrote (s : mstore A) (hdr : Z) (l : list Z) (bs : list mem_block) (n off : Z) (w : list Z) (k : Z) (s' : mstore A) : Prop :=
  ∃ l' bs', file_at s' hdr l' bs' n ∧ store_ok s' ∧ only_file hdr l l' s s' ∧ 0 ≤ k ≤ lenZ w ∧
    (k = lenZ w ∧ grew l l' s s' ∨ no_blocks (blocks_for (off + lenZ w) - length l) (mheap s)) ∧
    bytes bs' = overlay (bytes bs) off (take (Z.to_nat k) w).

(** the next byte needs a new block *)
Lemma no_block_left s hdr l bs n (w : list Z) :
  file_at s hdr l bs n → Forall full bs → 0 < lenZ w → no_blocks 1 (mheap s) →
  no_blocks (blocks_for (lenZ (bytes bs) + lenZ w) - length l) (mheap s).
Proof.
  intros Hf Hfull Hw Hno. eapply allocate_none; [exact Hno|]. rewrite (full_bytes bs (fa_ok _ _ _ _ _ Hf) Hfull).
  pose proof (blocks_for_more (lenZ bs) (lenZ w) ltac:(lia) Hw) as H. pose proof (Forall2_length _ _ _ (fa_blocks _ _ _ _ _ Hf)). lia.
Qed.

(** first [w1] at [off], then [w2] behind it *)
Lemma wrote_app s hdr l bs n off w1 w2 s1 l1 bs1 k s' :
  0 ≤ off ≤ lenZ (bytes bs) →
  only_file hdr l l1 s s1 → grew l l1 s s1 → bytes bs1 = overlay (bytes bs) off w1 →
  wrote s1 hdr l1 bs1 n (off + lenZ w1) w2 k s' → wrote s hdr l bs n off (w1 ++ w2) (lenZ w1 + k) s'.
Proof.
  intros Hoff Ho1 Hg E1 (l' & bs' & Hf & Hs & Ho2 & Hk & Hfull & E2). exists l', bs'.
  rewrite length_app. split_and!; try done; [by eapply only_file_trans|lia|lia| |].
  { destruct Hfull as [[-> Hg']|Hno]; [left; split; [lia|by eapply grew_trans]|right]. eapply no_blocks_grew; [exact Hg|].
    by replace (off + Z.of_nat (length w1 + length w2)) with (off + lenZ w1 + lenZ w2) by lia. }
  rewrite E2, E1, overlay_app by done. f_equal. rewrite firstn_app, (take_ge w1) by lia. f_equal. f_equal. lia.
Qed.

Lemma wrote_none s hdr l bs n off w s' :
  file_at s' hdr l bs n → store_ok s' → only_file hdr l l s s' →
  (w = [] ∧ mheap s' = mheap s ∨ no_blocks (blocks_for (off + lenZ w) - length l) (mheap s)) → wrote s hdr l bs n off w 0 s'.
Proof.
  intros Hf Hs Ho Hw. exists l, bs. split_and!; try done; [lia|destruct Hw as [[-> ?]|?]; [left; split; [done|by apply grew_refl]|by right]|].
  symmetry. apply overlay_nil.
Qed.

Lemma take_split (w : list Z) n : 0 ≤ n ≤ lenZ w → ∃ w1 w2, w = w1 ++ w2 ∧ lenZ w1 = n.
Proof.
  intros Hn. exists (take (Z.to_nat n) w), (drop (Z.to_nat n) w). split; [by rewrite take_drop|]. rewrite length_take. lia.
Qed.

Lemma file_length s hdr l bs n : file_at s hdr l bs n → length bs = length l.
Proof. intros Hf. symmetry. eapply Forall2_length, fa_blocks, Hf. Qed.

Lemma avail_left n : 0 ≤ n ≤ BLOCK_AVAIL_SIZE → i32 (BLOCK_AVAIL_SIZE - n) = BLOCK_AVAIL_SIZE - n.
Proof. unfold BLOCK_AVAIL_SIZE. intros Hn. unfold i32, u32. rewrite Z.mod_small by lia. by rewrite (proj2 (Z.ltb_lt _ _)) by lia. Qed.

Lemma bytes_snoc_length pre b : block_ok b → lenZ (bytes (pre ++ [b])) = lenZ (bytes pre) + nr_used b.
Proof. intros Hb. rewrite bytes_app, length_app. unfold bytes at 2. simpl. rewrite app_nil_r, Nat2Z.inj_add, length_used; done. Qed.

(** the last block of the file takes as many of the bytes [w] as it has room for *)
Lemma fill_block_run {B} s a b buf w r (k : Z → M (mstore A) B) :
  mblocks s !! a = Some b → block_ok b → nr_used b < BLOCK_AVAIL_SIZE → drop (Z.to_nat r) buf = w → 0 ≤ r → 0 < lenZ w →
  let m := Z.min (BLOCK_AVAIL_SIZE - nr_used b) (lenZ w) in
  (b ← get_block a;
   ASSERT (0 <? i32 (BLOCK_AVAIL_SIZE - nr_used b)) ;;
   let nr_bytes_to_write := Z.min (i32 (BLOCK_AVAIL_SIZE - nr_used b)) (lenZ w) in
   c ← deref (copy_at (content b) (nr_used b) buf r nr_bytes_to_write);
   upd_block a (set_content c) ;;
   upd_block a (set_nr_used (u32 (nr_used b + nr_bytes_to_write))) ;;
   ASSERT (u32 (nr_used b + nr_bytes_to_write) <=? BLOCK_AVAIL_SIZE) ;;
   k nr_bytes_to_write) s =
  k m (put_block s a (mk_block (Z.max (nr_used b) (nr_used b + m)) (overlay (content b) (nr_used b) (take (Z.to_nat m) w)))).
Proof.
  intros Hb [Hlen Hnu] Hroom Ew Hr Hw m. rewrite (get_block_run _ _ b) by done. rewrite avail_left by done. cbv zeta. fold m.
  assert (lenZ (drop (Z.to_nat r) buf) = lenZ w) as El by (by rewrite Ew). rewrite length_drop in El.
  rewrite (bind_ok _ _ _ () s) by (apply ASSERT_true; lia).
  cbv beta. rewrite copy_at_ok by lia. rewrite Ew. rewrite (bind_ok _ _ _ (overlay (content b) (nr_used b) (take (Z.to_nat m) w)) s) by done.
  rewrite (upd_block_run _ _ b) by done. rewrite (upd_block_run _ _ (set_content (overlay (content b) (nr_used b) (take (Z.to_nat m) w)) b)) by apply put_block_lookup.
  rewrite put_block_twice. rewrite u32_small by (unfold BLOCK_AVAIL_SIZE in *; lia).
  rewrite (bind_ok _ _ _ () (put_block s a (set_nr_used (nr_used b + m) (set_content (overlay (content b) (nr_used b) (take (Z.to_nat m) w)) b))))
    by (apply ASSERT_true; lia).
  rewrite Z.max_r by lia. done.
Qed.

(** ... which appends them to the file *)
Lemma fill_block_file s hdr lpre a bs n w :
  file_at s hdr (lpre ++ [a]) bs n → store_ok s →
  ∃ b, mblocks s !! a = Some b ∧ block_ok b ∧ (nr_used b = BLOCK_AVAIL_SIZE → Forall full bs) ∧
    let m := Z.min (BLOCK_AVAIL_SIZE - nr_used b) (lenZ w) in
    let s' := put_block s a (mk_block (Z.max (nr_used b) (nr_used b + m)) (overlay (content b) (nr_used b) (take (Z.to_nat m) w))) in
    ∃ bs', file_at s' hdr (lpre ++ [a]) bs' n ∧ store_ok s' ∧ only_file hdr (lpre ++ [a]) (lpre ++ [a]) s s' ∧
      bytes bs' = overlay (bytes bs) (lenZ (bytes bs)) (take (Z.to_nat m) w).
Proof.
  intros Hf Hst. destruct (chain_split _ _ _ _ _ _ _ Hf) as (pre & b & post & -> & Hlen & Hb & Hbok & _).
  assert (post = []) as -> by (apply file_length in Hf; rewrite !length_app in Hf; simpl in Hf; apply nil_length_inv; lia).
  exists b. pose proof Hbok as [Hl Hn]. split_and!; [done|done| |].
  { intros Hfb. pose proof (fa_compact _ _ _ _ _ Hf) as [[? _]|[Hp _]]%compact_app; [done|]. apply Forall_app. split; [done|].
    by repeat constructor. }
  intros m s'. exists (pre ++ [mk_block (Z.max (nr_used b) (nr_used b + m)) (overlay (content b) (nr_used b) (take (Z.to_nat m) w))]).
  assert (lenZ (take (Z.to_nat m) w) = m) as Em by (rewrite length_take; lia).
  destruct (file_write_block s hdr lpre a [] pre b [] n (nr_used b) (take (Z.to_nat m) w)) as (H1 & H2 & H3 & H4); try done; [lia|lia|].
  rewrite Em in *. split_and!; try done. by rewrite bytes_snoc_length.
Qed.

Lemma list_cases_snoc {B} (l : list B) : l = [] ∨ ∃ pre a, l = pre ++ [a].
Proof. destruct l using rev_ind; [by left|right; eauto]. Qed.

(** the loop of [mem_block_raw_write_sequential]: [w] is what is left to write *)
Lemma write_sequential_loop_ok fuel s hdr l bs n buf w r :
  file_at s hdr l bs n → store_ok s → drop (Z.to_nat r) buf = w → 0 ≤ r → lenZ w < Z.of_nat fuel →
  ∃ k s', write_sequential_loop residue fuel hdr buf (lenZ w) r s = Ok (r + k, s') ∧
    wrote s hdr l bs n (lenZ (bytes bs)) w k s'.
Proof.
  revert s l bs w r. induction fuel as [|fuel IH]; intros s l bs w r Hf Hst Ew Hr Hfuel; [lia|].
  cbn [write_sequential_loop]. destruct (lenZ w >? 0) eqn:Hw.
  2: { exists 0, s. rewrite Z.add_0_r. split; [done|]. apply wrote_none; [done|done|apply only_file_refl|left].
       split; [|done]. apply nil_length_inv. lia. }
  (* once the last block has room *)
  assert (∀ s1 lpre a b bs1, file_at s1 hdr (lpre ++ [a]) bs1 n → store_ok s1 → mblocks s1 !! a = Some b →
    nr_used b < BLOCK_AVAIL_SIZE → only_file hdr l (lpre ++ [a]) s s1 → grew l (lpre ++ [a]) s s1 → bytes bs1 = bytes bs →
    let m := Z.min (BLOCK_AVAIL_SIZE - nr_used b) (lenZ w) in
    let s' := put_block s1 a (mk_block (Z.max (nr_used b) (nr_used b + m)) (overlay (content b) (nr_used b) (take (Z.to_nat m) w))) in
    ∃ k s2, write_sequential_loop residue fuel hdr buf (lenZ w - m) (r + m) s' = Ok (r + k, s2) ∧
      wrote s hdr l bs n (lenZ (bytes bs)) w k s2) as Hstep.
  { intros s1 lpre a b bs1 Hf1 Hst1 Hb Hroom Ho Hg Eb m s'.
    destruct (fill_block_file s1 hdr lpre a bs1 n w Hf1 Hst1) as (b0 & Hb0 & [_ Hn0] & _ & bs' & Hf' & Hst' & Ho' & Eb').
    rewrite Hb in Hb0. injection Hb0 as <-. fold m s' in Hf', Hst', Ho', Eb'.
    destruct (take_split w m) as (w1 & w2 & Ew12 & El1); [lia|].
    assert (lenZ w = m + lenZ w2) as Elw by (rewrite Ew12, length_app; lia).
    replace (take (Z.to_nat m) w) with w1 in Eb' by (rewrite Ew12, firstn_app, (take_ge w1), take_ge_0, app_nil_r by lia; done).
    destruct (IH s' (lpre ++ [a]) bs' w2 (r + m)) as (k & s2 & Hrun & Hwr); [done|done| |lia|lia|].
    { rewrite Z2Nat.inj_add, <-drop_drop, Ew, Ew12 by lia. by rewrite drop_app_length' by lia. }
    exists (m + k), s2. split; [rewrite Elw, Z.add_simpl_l, Z.add_assoc; exact Hrun|].
    rewrite Ew12, <-El1. eapply wrote_app; [lia|by eapply only_file_trans|by eapply grew_same|by rewrite Eb', Eb|].
    rewrite Eb', overlay_end, length_app, Eb, Nat2Z.inj_add in Hwr. exact Hwr. }
  cbv iota. pose proof (fa_head _ _ _ _ _ Hf) as Hh. unfold last_block. rewrite bind_assoc_run, (get_head_run _ _ _ _ Hh). mstep.
  cbn [chain]. destruct (list_cases_snoc l) as [->|(lpre & a & ->)].
  - (* no block yet *)
    assert (bs = []) as -> by (apply file_length in Hf; by apply nil_length_inv). change (default NULL (last (@nil Z))) with NULL.
    change (! NULL) with true. cbv iota.
    destruct (new_block_ok s hdr [] [] n Hf Hst) as (p & s1 & Hr1 & Hst1 & Hcase); [by constructor|].
    rewrite (bind_ok _ _ _ _ _ Hr1). destruct Hcase as [(-> & Hf1 & Ho1 & Hoom)|(Hp & c & Hb1 & Hbok & Hf1 & Ho1 & Hg1)].
    { exists 0, s1. rewrite Z.add_0_r. split; [done|]. apply wrote_none; [done..|right]. apply (no_block_left s hdr [] [] n); [done|constructor|lia|done]. }
    rewrite (proj2 (ctrue_true p) Hp). cbn [negb]. rewrite (get_block_run _ _ _ _ Hb1).
    rewrite (bind_ok _ _ _ () s1) by done. change (! i32 (BLOCK_AVAIL_SIZE - nr_used (mk_block 0 c))) with false. cbv iota. mstep.
    rewrite (proj2 (ctrue_true p) Hp). cbn [negb].
    rewrite (fill_block_run s1 p (mk_block 0 c) buf w r (λ m, write_sequential_loop residue fuel hdr buf (lenZ w - m) (r + m))) by (done || lia).
    apply (Hstep s1 [] p (mk_block 0 c) [mk_block 0 c]); try done.
  - rewrite last_snoc. change (default NULL (Some a)) with a.
    destruct (chain_split _ _ _ _ _ _ _ Hf) as (_ & _ & _ & _ & _ & _ & _ & _ & _ & Hann).
    rewrite (proj2 (ctrue_true a) Hann). cbn [negb]. mstep. rewrite (proj2 (ctrue_true a) Hann). cbn [negb].
    destruct (fill_block_file s hdr lpre a bs n w Hf Hst) as (b & Hb & Hbok & Hfull & _). pose proof Hbok as [_ Hnu].
    rewrite (get_block_run _ _ _ _ Hb), avail_left by done. rewrite (bind_ok _ _ _ () s) by (apply ASSERT_true; lia).
    destruct (decide (nr_used b = BLOCK_AVAIL_SIZE)) as [Efull|Hroom].
    + (* the last block is full *)
      rewrite (proj2 (ctrue_false (BLOCK_AVAIL_SIZE - nr_used b))) by lia. cbn [negb].
      destruct (new_block_ok s hdr _ _ n Hf Hst) as (p & s1 & Hr1 & Hst1 & Hcase); [by apply Hfull|].
      rewrite (bind_ok _ _ _ _ _ Hr1). destruct Hcase as [(-> & Hf1 & Ho1 & Hoom)|(Hp & c & Hb1 & Hbok1 & Hf1 & Ho1 & Hg1)].
      { exists 0, s1. rewrite Z.add_0_r. split; [done|]. apply wrote_none; [done..|right]. eapply no_block_left; [done|by apply Hfull|lia|done]. }
      rewrite (proj2 (ctrue_true p) Hp). cbn [negb]. rewrite (fill_block_run s1 p (mk_block 0 c) buf w r (λ m, write_sequential_loop residue fuel hdr buf (lenZ w - m) (r + m))) by (done || lia).
      apply (Hstep s1 (lpre ++ [a]) p (mk_block 0 c) (bs ++ [mk_block 0 c])); try done.
      rewrite bytes_app. unfold bytes at 2. simpl. by rewrite app_nil_r.
    + rewrite (proj2 (ctrue_true (BLOCK_AVAIL_SIZE - nr_used b))) by lia. cbn [negb]. mstep.
      rewrite (proj2 (ctrue_true a) Hann). cbn [negb]. rewrite (fill_block_run s a b buf w r (λ m, write_sequential_loop residue fuel hdr buf (lenZ w - m) (r + m))) by (done || lia).
      apply (Hstep s lpre a b bs); try done; [lia|apply only_file_refl|by apply grew_refl].
Qed.

Lemma next_block_mid lpre a lpost : (a ∉ lpre) → next_block a (lpre ++ a :: lpost) = default NULL (head lpost).
Proof.
  induction lpre as [|x lpre IH]; intros Ha; simpl; [by rewrite Z.eqb_refl|].
  apply not_elem_of_cons in Ha as [? ?]. rewrite (proj2 (Z.eqb_neq x a)) by done. by apply IH.
Qed.

(** where the loop of [mem_block_raw_write_random] stands: at byte [off] of the
    file, in block [cur] at [iptr], or behind the last, full, block *)
Definition stands (s : mstore A) (l : list Z) (bs : list mem_block) (off iptr cur : Z) : Prop :=
  (cur = NULL ∧ iptr = 0 ∧ off = lenZ (bytes bs) ∧ Forall full bs) ∨
  ∃ lpre lpost pre b post, l = lpre ++ cur :: lpost ∧ bs = pre ++ b :: post ∧ length pre = length lpre ∧ cur ≠ NULL ∧
    mblocks s !! cur = Some b ∧ 0 ≤ iptr ≤ nr_used b ∧ off = lenZ (bytes pre) + iptr.

(** rounds of the loop still to come *)
Definition rounds (left iptr cur : Z) : Z :=
  2 * left + (if ctrue cur then if iptr =? BLOCK_AVAIL_SIZE then 2 else 0 else 1).

Lemma write_current_run {B} s a b buf w r i (k : () → M (mstore A) B) :
  mblocks s !! a = Some b → block_ok b → 0 ≤ i ≤ nr_used b → drop (Z.to_nat r) buf = w → 0 ≤ r → 0 < lenZ w →
  let m := Z.min (BLOCK_AVAIL_SIZE - i) (lenZ w) in
  (b ← get_block a;
   c ← deref (copy_at (content b) i buf r m);
   upd_block a (set_content c) ;;
   when (nr_used b <? i + m) (upd_block a (set_nr_used (i + m))) ;;
   k ()) s =
  k () (put_block s a (mk_block (Z.max (nr_used b) (i + m)) (overlay (content b) i (take (Z.to_nat m) w)))).
Proof.
  intros Hb [Hlen Hnu] Hi Ew Hr Hw m. rewrite (get_block_run _ _ b) by done.
  assert (lenZ (drop (Z.to_nat r) buf) = lenZ w) as El by (by rewrite Ew). rewrite length_drop in El.
  rewrite copy_at_ok by lia. rewrite Ew. rewrite (bind_ok _ _ _ (overlay (content b) i (take (Z.to_nat m) w)) s) by done.
  rewrite (upd_block_run _ _ b) by done. unfold when. destruct (nr_used b <? i + m) eqn:E.
  - rewrite (upd_block_run _ _ (set_content (overlay (content b) i (take (Z.to_nat m) w)) b)) by apply put_block_lookup.
    rewrite put_block_twice. unfold set_nr_used, set_content. cbn [content nr_used]. by rewrite Z.max_r by lia.
  - mstep. unfold set_content. by rewrite Z.max_l by lia.
Qed.

(** behind a full block stands the next one *)
Lemma next_stands s hdr lpre a lpost pre b post n off :
  file_at s hdr (lpre ++ a :: lpost) (pre ++ b :: post) n → length pre = length lpre → full b →
  off = lenZ (bytes (pre ++ [b])) →
  stands s (lpre ++ a :: lpost) (pre ++ b :: post) off 0 (default NULL (head lpost)).
Proof.
  intros Hf Hlen Hb ->. pose proof (file_length _ _ _ _ _ Hf) as El. rewrite !length_app in El. simpl in El.
  destruct lpost as [|c lpost], post as [|d post]; simpl in El; try lia.
  - left. split_and!; try done. pose proof (fa_compact _ _ _ _ _ Hf) as [[? _]|[Hp _]]%compact_app; [done|].
    apply Forall_app. split; [done|by repeat constructor].
  - right. exists (lpre ++ [a]), lpost, (pre ++ [b]), d, post. rewrite <-!app_assoc.
    assert (lpre ++ a :: c :: lpost = (lpre ++ [a]) ++ c :: lpost) as E by (by rewrite <-app_assoc).
    rewrite E in Hf. destruct (chain_split _ _ _ _ _ _ _ Hf) as (pre' & d' & post' & E' & Hlen' & Hd & [_ ?] & _ & _ & Hn).
    assert (pre ++ b :: d :: post = (pre ++ [b]) ++ d :: post) as E2 by (by rewrite <-app_assoc).
    rewrite E2 in E'. apply app_inj_1 in E' as [<- [= <- <-]]; [|rewrite length_app in Hlen'; rewrite length_app; simpl in *; lia].
    split_and!; try done; rewrite ?length_app; simpl; lia.
Qed.

Lemma write_random_loop_ok fuel s hdr l bs n buf w r off iptr cur :
  file_at s hdr l bs n → store_ok s → drop (Z.to_nat r) buf = w → 0 ≤ r → stands s l bs off iptr cur →
  rounds (lenZ w) iptr cur < Z.of_nat fuel →
  ∃ k s', write_random_loop residue fuel hdr buf (lenZ w) r iptr cur s = Ok (r + k, s') ∧ wrote s hdr l bs n off w k s'.
Proof.
  revert s l bs w r off iptr cur. induction fuel as [|fuel IH]; intros s l bs w r off iptr cur Hf Hst Ew Hr Hs Hfuel.
  { unfold rounds in Hfuel. destruct (ctrue cur); [destruct (iptr =? BLOCK_AVAIL_SIZE)|]; lia. }
  cbn [write_random_loop]. destruct (lenZ w >? 0) eqn:Hw.
  2: { exists 0, s. rewrite Z.add_0_r. split; [done|]. apply wrote_none; [done|done|apply only_file_refl|left].
       split; [|done]. apply nil_length_inv. lia. }
  cbv iota. destruct Hs as [(-> & -> & -> & Hfull)|(lpre & lpost & pre & b & post & -> & -> & Hlen & Hcur & Hb & Hi & ->)].
  - (* a new block *)
    change (ctrue NULL) with false. cbv iota.
    destruct (add_block_ok s hdr l bs n Hf Hst Hfull) as (p & s1 & Hr1 & Hcase). rewrite (bind_ok _ _ _ _ _ Hr1).
    destruct Hcase as [(-> & Hf1 & Hst1 & Ho1 & Hoom)|(Hp & Hh1 & c & Hb1 & Hbok & Hf2 & Hst2 & Ho2 & Hg2)].
    { exists 0, s1. rewrite Z.add_0_r. split; [done|]. apply wrote_none; [done..|right]. eapply no_block_left; [done|done|lia|done]. }
    rewrite (proj2 (ctrue_true p) Hp). cbn [negb]. rewrite (upd_block_run _ _ _ _ _ Hb1).
    change (set_nr_used 0 (mk_block 0 c)) with (mk_block 0 c).
    replace (put_block s1 p (mk_block 0 c)) with s1 by (destruct s1; unfold put_block; simpl in *; by rewrite insert_id).
    unfold append_block. rewrite (upd_head_run _ _ _ _ _ Hh1).
    change (set_chain (chain (mk_head l n) ++ [p]) (mk_head l n)) with (mk_head (l ++ [p]) n).
    set (s2 := put_head s1 hdr (mk_head (l ++ [p]) n)) in *.
    assert (bytes (bs ++ [mk_block 0 c]) = bytes bs) as Eb by (rewrite bytes_app; unfold bytes at 2; simpl; by rewrite app_nil_r).
    destruct (IH s2 (l ++ [p]) (bs ++ [mk_block 0 c]) w r (lenZ (bytes bs)) 0 p) as (k & s' & Hrun & Hwr); try done.
    + right. exists l, [], bs, (mk_block 0 c), []. split_and!; try done; [by apply file_length in Hf|lia].
    + unfold rounds in *. rewrite (proj2 (ctrue_true p) Hp). change (ctrue NULL) with false in Hfuel. simpl in *. lia.
    + exists k, s'. split; [done|]. replace k with (lenZ (@nil Z) + k) by done. change w with ([] ++ w).
      eapply wrote_app; [lia|exact Ho2|exact Hg2|by rewrite Eb, overlay_nil|]. simpl. by rewrite Z.add_0_r.
  - rewrite (proj2 (ctrue_true cur) Hcur).
    destruct (chain_split _ _ _ _ _ _ _ Hf) as (_ & b0 & _ & _ & _ & Hb0 & Hbok & Hnpre & Hnpost & _).
    rewrite Hb in Hb0. injection Hb0 as <-. pose proof Hbok as [Hlc Hnu].
    cbv iota zeta. rewrite avail_left by lia. set (m := Z.min (BLOCK_AVAIL_SIZE - iptr) (lenZ w)).
    destruct (take_split w m) as (w1 & w2 & Ew12 & El1); [lia|].
    assert (take (Z.to_nat m) w = w1) as Et by (rewrite Ew12, firstn_app, (take_ge w1), take_ge_0, app_nil_r by lia; done).
    assert (lenZ w = m + lenZ w2) as Elw by (rewrite Ew12, length_app; lia).
    destruct (file_write_block s hdr lpre cur lpost pre b post n iptr w1) as (Hf1 & Hst1 & Ho1 & Eb1); try done; [lia|].
    set (s1 := put_block s cur _) in *.
    assert (off_ok : 0 ≤ lenZ (bytes pre) + iptr ≤ lenZ (bytes (pre ++ b :: post))).
    { rewrite bytes_app, bytes_cons, !length_app. pose proof (length_used b Hbok). lia. }
    set (cont := λ _ : (), if ! (lenZ w - m) then mret (r + m) else
          h ← get_head hdr;
          write_random_loop residue fuel hdr buf (lenZ w - m) (r + m) 0 (next_block cur (chain h))).
    pose proof (write_current_run s cur b buf w r iptr cont Hb Hbok Hi Ew Hr ltac:(lia)) as Hcr. cbv zeta in Hcr. fold m in Hcr.
    rewrite Et, <-El1 in Hcr. fold s1 in Hcr. rewrite El1 in Hcr.
    match goal with |- ∃ k s', ?x = _ ∧ _ => replace x with (cont () s1) by (symmetry; exact Hcr) end.
    unfold cont. clear cont Hcr. destruct (ctrue (lenZ w - m)) eqn:Hleft; cbn [negb].
    2: { apply ctrue_false in Hleft. exists m, s1. split; [done|].
         assert (w2 = []) as -> by (apply nil_length_inv; lia). replace m with (lenZ w1 + 0) by lia. rewrite Ew12.
         eapply wrote_app; [done|exact Ho1|by apply grew_refl|exact Eb1|]. apply wrote_none; [done|done|apply only_file_refl|by left]. }
    apply ctrue_true in Hleft. assert (m = BLOCK_AVAIL_SIZE - iptr) as Em by lia.
    rewrite (get_head_run _ _ _ _ (fa_head _ _ _ _ _ Hf1)). cbn [chain]. rewrite next_block_mid by done.
    set (b1 := mk_block _ _) in *. assert (full b1) as Hfull1 by (unfold full, b1; cbn [nr_used]; lia).
    destruct (IH s1 (lpre ++ cur :: lpost) (pre ++ b1 :: post) w2 (r + m) (lenZ (bytes pre) + iptr + lenZ w1) 0 (default NULL (head lpost)))
      as (k & s' & Hrun & Hwr); [done|done| |lia| | |].
    + rewrite Z2Nat.inj_add, <-drop_drop, Ew, Ew12 by lia. by rewrite drop_app_length' by lia.
    + unfold stands. apply (next_stands _ hdr lpre cur lpost pre b1 post n (lenZ (bytes pre) + iptr + lenZ w1)); try done.
      pose proof (fa_ok _ _ _ _ _ Hf1) as [_ [Hb1ok _]%Forall_cons]%Forall_app. unfold full in Hfull1.
      rewrite bytes_snoc_length by done. lia.
    + unfold rounds in *. rewrite (proj2 (ctrue_true cur) Hcur) in Hfuel. change (0 =? BLOCK_AVAIL_SIZE) with false.
      destruct (Z.eqb_spec iptr BLOCK_AVAIL_SIZE), (ctrue (default NULL (head lpost))); lia.
    + exists (m + k), s'. split; [rewrite Z.add_assoc, <-Hrun; f_equal; lia|].
      rewrite Ew12, <-El1. eapply wrote_app; [done|exact Ho1|by apply grew_refl|exact Eb1|exact Hwr].
Qed.

(** the search for the block at [off] *)
Lemma skip_blocks_ok limit (s : mstore A) l bs off i0 :
  (∀ b, limit b = nr_used b ∨ limit b = BLOCK_AVAIL_SIZE) →
  Forall2 (λ a b, mblocks s !! a = Some b) l bs → Forall block_ok bs → compact bs → 0 ≤ off ≤ lenZ (bytes bs) → off < 2147483648 →
  ∃ iptr cur, skip_blocks limit l off i0 s = Ok ((0, iptr, cur), s) ∧
    ((l = [] ∧ bs = [] ∧ cur = NULL ∧ iptr = i0 ∧ off = 0) ∨
     ∃ lpre lpost pre b post, l = lpre ++ cur :: lpost ∧ bs = pre ++ b :: post ∧ length pre = length lpre ∧
       mblocks s !! cur = Some b ∧ 0 ≤ iptr ≤ nr_used b ∧ off = lenZ (bytes pre) + iptr ∧ (iptr = 0 → pre = [])).
Proof.
  intros Hlim HF. revert off i0. induction HF as [|a b l bs Hb HF IH]; intros off i0 Hok Hc Hoff Hlt; cbn [skip_blocks].
  { exists i0, NULL. unfold bytes in Hoff. simpl in Hoff. assert (off = 0) as -> by lia. split; [done|by left]. }
  apply Forall_cons in Hok as [Hbok Hok]. destruct Hc as [Hfull Hc]. pose proof Hbok as [_ Hn]. unfold BLOCK_AVAIL_SIZE in Hn.
  rewrite (get_block_run _ _ _ _ Hb). rewrite bytes_cons, length_app, Nat2Z.inj_add, (length_used b Hbok) in Hoff.
  set (ign := if ctrue off then _ else _).
  destruct (decide (off ≤ nr_used b)) as [Hle|Hgt].
  - assert (ign = off) as ->.
    { unfold ign. destruct (ctrue off) eqn:E; [|apply ctrue_false in E; lia]. unfold MIN.
      destruct (Hlim b) as [->| ->]; unfold BLOCK_AVAIL_SIZE; rewrite !u32_small by lia;
        destruct (Z.ltb_spec off (nr_used b)), (Z.ltb_spec off 4084); lia. }
    rewrite Z.sub_diag. change (i32 0) with 0. change (! 0) with true. cbv iota. exists off, a. split; [done|]. right.
    exists [], l, [], b, bs. split_and!; try done; lia.
  - assert (bs ≠ []) as Hbs by (intros ->; unfold bytes in Hoff; simpl in Hoff; lia).
    destruct Hfull as [?|Hfull]; [done|]. unfold full, BLOCK_AVAIL_SIZE in Hfull.
    assert (ign = 4084) as ->.
    { unfold ign. rewrite (proj2 (ctrue_true off)) by lia. unfold MIN, BLOCK_AVAIL_SIZE in *.
      destruct (Hlim b) as [->| ->]; rewrite ?Hfull, !u32_small by lia; destruct (Z.ltb_spec off 4084); lia. }
    assert (i32 (off - 4084) = off - 4084) as -> by (unfold i32, u32; rewrite Z.mod_small by lia; by rewrite (proj2 (Z.ltb_lt _ _)) by lia).
    rewrite (proj2 (ctrue_true (off - 4084))) by lia. cbn [negb].
    destruct (IH (off - 4084) 4084) as (iptr & cur & Hrun & Hcase); [done|done|lia|lia|].
    exists iptr, cur. split; [done|]. right.
    destruct Hcase as [(-> & ? & _ & _ & ?)|(lpre & lpost & pre & b' & post & -> & -> & Hlen & Hb' & Hi & Eoff & Hz)]; [lia|].
    exists (a :: lpre), lpost, (b :: pre), b', post. split_and!; try done; [simpl; lia|lia|lia| |].
    + rewrite bytes_cons, length_app, Nat2Z.inj_add, length_used by done. lia.
    + intros ->. rewrite Hz in Eoff by done. unfold bytes in Eoff. simpl in Eoff. lia.
Qed.

Lemma extend_blocks_none fuel hdr iptr cur (s : mstore A) : extend_blocks residue (S fuel) hdr 0 iptr cur s = Ok ((0, iptr, cur), s).
Proof. done. Qed.

Lemma raw_write_random_ok s hdr l bs n off buf :
  file_at s hdr l bs n → store_ok s → 0 ≤ off ≤ lenZ (bytes bs) → off < 2147483648 →
  ∃ k s', mem_block_raw_write_random residue hdr off buf (lenZ buf) s = Ok (k, s') ∧ wrote s hdr l bs n off buf k s'.
Proof.
  intros Hf Hst Hoff Hlt. pose proof Hf as [Hh HF Hnd Hnull Hok Hc]. unfold mem_block_raw_write_random.
  rewrite (get_head_run _ _ _ _ Hh). cbn [chain]. rewrite i32_small by lia.
  destruct (skip_blocks_ok nr_used s l bs off 0) as (iptr & cur & Hrun & Hcase); try done; [by left|].
  rewrite (bind_ok _ _ _ _ _ Hrun), (bind_ok _ _ _ _ _ (extend_blocks_none _ _ _ _ _)). change (ctrue 0) with false. cbv iota.
  destruct (write_random_loop_ok (Z.to_nat (2 * lenZ buf + 3)) s hdr l bs n buf buf 0 off iptr cur) as (k & s' & Hr & Hw); try done.
  - destruct Hcase as [(-> & -> & -> & -> & ->)|(lpre & lpost & pre & b & post & -> & -> & Hlen & Hb & Hi & Eoff & _)].
    + left. split_and!; try done.
    + right. exists lpre, lpost, pre, b, post. split_and!; try done; [|lia|lia].
      intros ->. apply Hnull, elem_of_app. right. by left.
  - unfold rounds. destruct (ctrue cur); [destruct (iptr =? BLOCK_AVAIL_SIZE)|]; lia.
  - exists k, s'. by rewrite Z.add_0_l in Hr.
Qed.

Lemma raw_write_sequential_ok s hdr l bs n buf :
  file_at s hdr l bs n → store_ok s →
  ∃ k s', mem_block_raw_write_sequential residue hdr buf (lenZ buf) s = Ok (k, s') ∧ wrote s hdr l bs n (lenZ (bytes bs)) buf k s'.
Proof.
  intros Hf Hst. unfold mem_block_raw_write_sequential. rewrite (proj2 (Z.leb_le 0 (lenZ buf))) by lia. mstep.
  destruct (Z.eqb_spec (lenZ buf) 0) as [E|].
  - exists 0, s. split; [done|]. apply wrote_none; [done|done|apply only_file_refl|left; split; [apply nil_length_inv; lia|done]].
  - destruct (write_sequential_loop_ok (S (Z.to_nat (lenZ buf))) s hdr l bs n buf buf 0) as (k & s' & Hr & Hw); try done; [lia|].
    exists k, s'. by rewrite Z.add_0_l in Hr.
Qed.

Lemma take_app_min (x y : list Z) n m : 0 ≤ n → m = Z.min (lenZ x) n →
  take (Z.to_nat n) (x ++ y) = take (Z.to_nat m) x ++ take (Z.to_nat (n - m)) y.
Proof.
  intros Hn ->. rewrite firstn_app. destruct (decide (n ≤ lenZ x)).
  - replace (Z.min (lenZ x) n) with n by lia. f_equal. rewrite !take_ge_0 by lia. done.
  - replace (Z.min (lenZ x) n) with (lenZ x) by lia. rewrite !(take_ge x) by lia. f_equal. f_equal. lia.
Qed.

Lemma read_blocks_ok (s : mstore A) l bs buf off left r :
  Forall2 (λ a b, mblocks s !! a = Some b) l bs → Forall block_ok bs → 0 ≤ off → 0 ≤ left → 0 ≤ r → r + left ≤ lenZ buf →
  let w := take (Z.to_nat left) (drop (Z.to_nat off) (bytes bs)) in
  read_loop l buf off left r s = Ok ((r + lenZ w, overlay buf r w), s).
Proof.
  intros HF. revert buf off left r. induction HF as [|a b l bs Hb HF IH]; intros buf off left r Hok Hoff Hleft Hr Hbuf w; cbn [read_loop].
  { unfold w, bytes. simpl. rewrite drop_nil, take_nil, overlay_nil. simpl. by rewrite Z.add_0_r. }
  apply Forall_cons in Hok as [Hbok Hok]. pose proof Hbok as [Hlc Hn]. pose proof (length_used b Hbok) as Hlu.
  unfold BLOCK_AVAIL_SIZE in Hn, Hlc. rewrite (proj2 (Z.leb_le 0 left)) by lia. mstep.
  destruct (ctrue left) eqn:El; cbn [negb].
  2: { apply ctrue_false in El as ->. unfold w. simpl. by rewrite overlay_nil, Z.add_0_r. }
  apply ctrue_true in El. rewrite (get_block_run _ _ _ _ Hb), i32_small by lia.
  replace (if ctrue off then Z.min (nr_used b) off else 0) with (Z.min (nr_used b) off)
    by (destruct (ctrue off) eqn:E; [done|apply ctrue_false in E; lia]).
  destruct (decide (nr_used b ≤ off)) as [Hge|Hlt].
  - (* the block lies in front of the offset *)
    rewrite Z.min_l by lia. rewrite Z.sub_diag. change (! 0) with true. cbv iota.
    rewrite IH by (done || lia). unfold w. rewrite bytes_cons, drop_app_ge by lia.
    replace (Z.to_nat off - length (used b))%nat with (Z.to_nat (off - nr_used b)) by lia. done.
  - rewrite Z.min_r, Z.sub_diag by lia. rewrite (proj2 (ctrue_true (nr_used b - off))) by lia. cbn [negb].
    set (m := Z.min (nr_used b - off) left). rewrite (proj2 (ctrue_true m)) by lia. mstep.
    rewrite copy_at_ok by lia. set (w1 := take (Z.to_nat m) (drop (Z.to_nat off) (content b))).
    rewrite (bind_ok _ _ _ (overlay buf r w1) s) by done.
    assert (lenZ w1 = m) as Ew1 by (unfold w1; rewrite length_take, length_drop; lia).
    rewrite IH; [|done|lia|lia|lia|rewrite length_overlay; lia]. change (Z.to_nat 0) with O. rewrite drop_0.
    assert (w = w1 ++ take (Z.to_nat (left - m)) (bytes bs)) as ->.
    { unfold w. rewrite bytes_cons, drop_app_le by lia. rewrite (take_app_min _ _ _ m) by (rewrite ?length_drop; lia). f_equal.
      unfold w1, used. rewrite skipn_firstn_comm, take_take. f_equal. lia. }
    replace (r + m) with (r + lenZ w1) by lia. rewrite overlay_app by lia. rewrite length_app, Nat2Z.inj_add. by rewrite Z.add_assoc.
Qed.

Lemma raw_read_ok s hdr l bs n off buf size :
  file_at s hdr l bs n → 0 ≤ off < 2147483648 → 0 ≤ size ≤ lenZ buf →
  let w := take (Z.to_nat size) (drop (Z.to_nat off) (bytes bs)) in
  mem_block_raw_read hdr off buf size s = Ok ((lenZ w, overlay buf 0 w), s).
Proof.
  intros [Hh HF _ _ Hok _] Hoff Hsize w. unfold mem_block_raw_read. rewrite (get_head_run _ _ _ _ Hh). cbn [chain].
  rewrite i32_small by lia. rewrite (read_blocks_ok s l bs buf off size 0 HF Hok) by lia. done.
Qed.

(** no other file has blocks of the chain *)
Definition alone (s : mstore A) (hdr : Z) (l : list Z) : Prop :=
  ∀ h c a, h ≠ hdr → mheads s !! h = Some c → a ∈ chain c → a ∉ l.

Lemma put_mem_block_ok s a b :
  store_ok s → mblocks s !! a = Some b → on_no_list a (mheads s) = true → ∃ h, put_mem_block a s = Ok ((), mk_mstore h (delete a (mblocks s)) (mheads s)) ∧
    store_ok (mk_mstore h (delete a (mblocks s)) (mheads s)).
Proof.
  intros (L & HL & Hdom) Hb Hun. assert (a ∈ L) as Ha by (apply Hdom; by eexists).
  apply elem_of_Permutation in Ha as [L' HP].
  assert (heap_live (a :: L' ++ K) (mheap s)) as HL1 by (eapply heap_live_perm; [|exact HL]; by rewrite HP).
  destruct (heap_free_law (L' ++ K) (mheap s) a HL1) as (h & Hr & HL').
  exists h. unfold put_mem_block. rewrite (bind_ok _ _ s (mheads s) s) by done. rewrite Hun. mstep. rewrite (bind_ok _ _ _ () (mk_mstore (mheap s) (delete a (mblocks s)) (mheads s))) by done. split.
  - exact (zoom_ok mheap_l _ (mk_mstore (mheap s) (delete a (mblocks s)) (mheads s)) () h Hr).
  - exists L'. split; [done|]. simpl. intros x [Hxa Hx]%lookup_delete_is_Some. specialize (Hdom x Hx). rewrite HP in Hdom.
    by apply elem_of_cons in Hdom as [->|?].
Qed.

Lemma filter_ne_gone (a : Z) (l : list Z) : (a ∉ l) → filter (λ x, x ≠ a) l = l.
Proof.
  induction l as [|x l IH]; intros Ha; [done|]. apply not_elem_of_cons in Ha as [? ?].
  rewrite filter_cons_True by done. by rewrite IH.
Qed.

(** the blocks [lsuf] deleted from the end of a chain *)
Lemma shrink_blocks_ok s hdr lpre lsuf pre suf n :
  chain_at s hdr (lpre ++ lsuf) (pre ++ suf) n → length pre = length lpre → store_ok s → alone s hdr (lpre ++ lsuf) →
  ∃ s', shrink_blocks hdr lsuf s = Ok ((), s') ∧ chain_at s' hdr lpre pre n ∧ store_ok s' ∧
    only_file hdr (lpre ++ lsuf) lpre s s'.
Proof.
  revert s suf. induction lsuf as [|a lsuf IH]; intros s suf Hf Hlen Hst Hal; cbn [shrink_blocks].
  { assert (suf = []) as ->.
    { pose proof (Forall2_length _ _ _ (ca_blocks _ _ _ _ _ Hf)) as E. rewrite !length_app in E. simpl in E. apply nil_length_inv. lia. }
    rewrite !app_nil_r in *. exists s. split_and!; [done|done|done|apply only_file_refl]. }
  destruct Hf as [Hh HF Hnd Hnull Hok]. apply Forall2_app_inv in HF as [HF1 HF2]; [|done].
  apply Forall2_cons_inv_l in HF2 as (b & post & Hb & HF2 & ->).
  pose proof Hnd as (Hn1 & Hn2 & Hnd')%NoDup_middle. apply Forall_app in Hok as [Hok1 [_ Hok2]%Forall_cons].
  rewrite (upd_head_run _ _ _ _ _ Hh). unfold set_chain at 1. cbn [chain total].
  rewrite filter_app, filter_cons_False, !filter_ne_gone by (done || by intros ?).
  destruct (put_mem_block_ok (put_head s hdr (mk_head (lpre ++ lsuf) n)) a b) as (h & Hp & Hst1); [|done| |].
  { destruct Hst as (L & HL & Hdom). by exists L. }
  { apply bool_decide_eq_true. intros x c Hx. cbn [put_head mheads] in Hx. apply lookup_insert_Some in Hx as [[<- <-]|[Hne Hc]]; cbn; [by intros [?|?]%elem_of_app|].
    intros Hin. apply (Hal x c a (not_eq_sym Hne) Hc Hin). apply elem_of_app. right. by left. }
  rewrite (bind_ok _ _ _ _ _ Hp). set (s1 := mk_mstore h _ _) in *.
  assert (chain_at s1 hdr (lpre ++ lsuf) (pre ++ post) n) as Hf1.
  { split; simpl.
    - by rewrite lookup_insert_eq.
    - apply Forall2_app; (eapply Forall2_weaken; [|eassumption]); intros x y Hx Hxy; rewrite lookup_delete_ne; try done; by intros <-.
    - done.
    - intros Hin. apply Hnull. rewrite elem_of_app in *. rewrite elem_of_cons. tauto.
    - by apply Forall_app. }
  assert (alone s1 hdr (lpre ++ lsuf)) as Hal1.
  { intros x c y Hne Hc Hy Hin. cbn in Hc. rewrite lookup_insert_ne in Hc by done. apply (Hal x c y Hne Hc Hy).
    rewrite elem_of_app in *. rewrite elem_of_cons. tauto. }
  destruct (IH s1 post Hf1 Hlen Hst1 Hal1) as (s' & Hr & Hf' & Hst' & Ho). exists s'. split_and!; try done.
  apply (only_file_trans _ _ (lpre ++ lsuf) _ _ s1); [|done]. split; simpl.
  - intros x Hx. by rewrite lookup_insert_ne.
  - intros x Hx _. rewrite lookup_delete_ne; [done|]. intros <-. apply Hx, elem_of_app. right. by left.
  - intros x Hx. left. rewrite elem_of_app in *. rewrite elem_of_cons. tauto.
Qed.

(** every block goes back to the heap *)
Lemma shrink_blocks_frees hdr l s s' : shrink_blocks hdr l s = Ok ((), s') → heap_free_all l (mheap s) = Ok ((), mheap s').
Proof.
  revert s. induction l as [|a l IH]; intros s; cbn [shrink_blocks heap_free_all]; [by intros [= ->]|].
  intros ([] & s1 & E1 & ([] & s2 & E2 & Hr)%bind_Ok_inv)%bind_Ok_inv. apply IH in Hr.
  unfold upd_head, zoom in E1. destruct (update hdr _ _) as [[[] m]|]; [|done]. injection E1 as <-.
  unfold put_mem_block in E2. apply bind_Ok_inv in E2 as (heads & s3 & [= <- <-] & ([] & s3 & E3 & E2)%bind_Ok_inv).
  cbn [mheads mblocks mheap lset mheads_l] in *. destruct (on_no_list a m); [|done]. injection E3 as <-.
  apply bind_Ok_inv in E2 as ([] & s4 & [= <-] & E2). unfold zoom in E2. cbn [lget mheap_l mheap mblocks_l lset] in E2.
  destruct (heap_free a (mheap s)) as [[[] h]|] eqn:Eh; [|done]. injection E2 as <-. by rewrite (bind_ok _ _ _ _ _ Eh).
Qed.

Lemma blocks_from_mid lpre a lpost : (a ∉ lpre) → blocks_from a (lpre ++ a :: lpost) = a :: lpost.
Proof.
  induction lpre as [|x lpre IH]; intros Ha; simpl; [by rewrite Z.eqb_refl|].
  apply not_elem_of_cons in Ha as [? ?]. rewrite (proj2 (Z.eqb_neq x a)) by done. by apply IH.
Qed.

Lemma raw_truncate_ok s hdr l bs n off :
  file_at s hdr l bs n → store_ok s → alone s hdr l → 0 ≤ off ≤ lenZ (bytes bs) → off < 2147483648 →
  ∃ s' l' bs', mem_block_raw_truncate residue hdr off s = Ok (OK, s') ∧ file_at s' hdr l' bs' n ∧ store_ok s' ∧
    only_file hdr l l' s s' ∧ bytes bs' = take (Z.to_nat off) (bytes bs).
Proof.
  intros Hf Hst Hal Hoff Hlt. pose proof Hf as [Hh HF Hnd Hnull Hok Hc]. unfold mem_block_raw_truncate.
  rewrite (get_head_run _ _ _ _ Hh). cbn [chain]. rewrite i32_small by lia.
  destruct (skip_blocks_ok (λ _, BLOCK_AVAIL_SIZE) s l bs off 0) as (iptr & cur & Hrun & Hcase); try done; [by right|].
  rewrite (bind_ok _ _ _ _ _ Hrun), (bind_ok _ _ _ _ _ (extend_blocks_none _ _ _ _ _)). change (0 >? 0) with false. cbv iota.
  destruct Hcase as [(-> & -> & -> & -> & ->)|(lpre & lpost & pre & b & post & -> & -> & Hlen & Hb & Hi & Eoff & Hz)].
  { change (ctrue NULL) with false. cbv iota. mstep. rewrite (get_head_run _ _ _ _ Hh). cbv iota.
    exists s, [], []. split_and!; try done. apply only_file_refl. }
  destruct (chain_split _ _ _ _ _ _ _ Hf) as (_ & b0 & _ & _ & _ & Hb0 & Hbok & Hn1 & Hn2 & Hcur).
  rewrite Hb in Hb0. injection Hb0 as <-. pose proof Hbok as [Hlc Hnu].
  rewrite (proj2 (ctrue_true cur) Hcur). rewrite bind_assoc_run, (upd_block_run _ _ _ _ _ Hb).
  set (b1 := set_nr_used iptr b). set (s1 := put_block s cur b1).
  rewrite bind_assoc_run, (get_head_run s1 hdr _ _ Hh). mstep. rewrite (get_head_run s1 hdr _ _ Hh). cbn [chain].
  assert (block_ok b1) as Hb1 by (split; [done|simpl; lia]).
  assert (used b1 = take (Z.to_nat iptr) (used b)) as Eu1 by (unfold used, b1; simpl; rewrite take_take; f_equal; lia).
  assert (take (Z.to_nat off) (bytes (pre ++ b :: post)) = bytes pre ++ used b1) as Etake.
  { rewrite bytes_app, bytes_cons, Eu1, take_app_ge by lia. f_equal. pose proof (length_used b Hbok).
    rewrite take_app_le by lia. f_equal. lia. }
  assert (only_file hdr (lpre ++ cur :: lpost) (lpre ++ cur :: lpost) s s1) as Ho1.
  { split; [done| |by left]. intros x Hx _. simpl. rewrite lookup_insert_ne; [done|]. intros ->. apply Hx, elem_of_app. right. by left. }
  assert (store_ok s1) as Hst1 by (by eapply store_ok_put).
  assert (chain_at s1 hdr (lpre ++ cur :: lpost) (pre ++ b1 :: post) n) as Hch.
  { destruct (chain_put_block s hdr lpre cur lpost pre b post n b1) as (? & _); [by apply file_at_chain in Hf as [? _]|done..]. }
  assert (Forall full pre) as Hfp by (apply compact_app in Hc as [[? _]|[? _]]; done).
  destruct (ctrue iptr) eqn:Ei.
  - (* keep the block *)
    rewrite next_block_mid by done.
    replace (if ctrue (default NULL (head lpost)) then blocks_from (default NULL (head lpost)) (lpre ++ cur :: lpost) else []) with lpost.
    2: { destruct lpost as [|c lpost]; [done|]. simpl.
         rewrite (proj2 (ctrue_true c)) by (intros ->; apply Hnull; rewrite elem_of_app, !elem_of_cons; tauto).
         change (lpre ++ cur :: c :: lpost) with (lpre ++ [cur] ++ c :: lpost). rewrite app_assoc, blocks_from_mid; [done|].
         rewrite elem_of_app, list_elem_of_singleton. intros [Hin| ->].
         - apply NoDup_app in Hnd as (_ & Hnd & _). apply (Hnd c Hin). right. by left.
         - apply Hn2. by left. }
    destruct (shrink_blocks_ok s1 hdr (lpre ++ [cur]) lpost (pre ++ [b1]) post n) as (s2 & Hr & Hf2 & Hst2 & Ho2); try done.
    { by rewrite <-!app_assoc. } { rewrite !length_app; simpl; lia. } { by rewrite <-app_assoc. }
    rewrite <-app_assoc in Ho2. rewrite (bind_ok _ _ _ _ _ Hr). exists s2, (lpre ++ [cur]), (pre ++ [b1]). split_and!; try done.
    + apply file_at_chain. split; [done|]. apply compact_app. right. split; [done|]. by split; [left|].
    + by eapply only_file_trans.
    + rewrite Etake, bytes_app. unfold bytes at 2. simpl. by rewrite app_nil_r.
  - apply ctrue_false in Ei. specialize (Hz Ei). subst pre. destruct lpre; [|simpl in Hlen; lia]. clear Hlen.
    rewrite (proj2 (ctrue_true cur) Hcur), blocks_from_mid by done.
    destruct (shrink_blocks_ok s1 hdr [] (cur :: lpost) [] (b1 :: post) n) as (s2 & Hr & Hf2 & Hst2 & Ho2); try done.
    rewrite (bind_ok _ _ _ _ _ Hr). exists s2, [], []. split_and!; try done.
    + by apply file_at_chain.
    + by eapply only_file_trans.
    + rewrite Etake, Eu1, Ei. done.
Qed.

(** ** Files as byte sequences *)

(** [F] gives the contents of every file, by the address of its header *)
Record represents (s : mstore A) (F : gmap Z (list Z)) : Prop := {
  rp_store : store_ok s;
  rp_file : ∀ hdr d, F !! hdr = Some d → hdr ≠ NULL ∧ ∃ l bs, file_at s hdr l bs (lenZ d) ∧ bytes bs = d;
  rp_apart : ∀ h1 h2 l1 l2 n1 n2 a, h1 ≠ h2 → is_Some (F !! h1) → is_Some (F !! h2) →
    mheads s !! h1 = Some (mk_head l1 n1) → mheads s !! h2 = Some (mk_head l2 n2) → a ∈ l1 → a ∉ l2;
  rp_rest : ∀ h c, mheads s !! h = Some c → is_Some (F !! h) ∨ chain c = [] }.

Lemma represents_alone s F hdr l bs n : represents s F → is_Some (F !! hdr) → file_at s hdr l bs n → alone s hdr l.
Proof.
  intros [_ _ Hap Hrest] HF Hf h c a Hne Hc Ha. destruct (Hrest h c Hc) as [Hh|E]; [|by rewrite E in Ha; apply not_elem_of_nil in Ha].
  destruct c as [lc nc]. by apply (Hap h hdr lc l nc n a Hne Hh HF Hc (fa_head _ _ _ _ _ Hf)).
Qed.

Lemma file_at_frame hdr hdr' l l' lx bsx n s s' :
  only_file hdr l l' s s' → hdr' ≠ hdr → (∀ a, a ∈ lx → a ∉ l) → file_at s hdr' lx bsx n → file_at s' hdr' lx bsx n.
Proof.
  intros [H1 H2 _] Hne Hap [Hh HF Hnd Hnull Hok Hc]. split; try done; [by rewrite H1|].
  eapply Forall2_weaken; [|exact HF]. intros a b Ha Hb. rewrite H2; [done|by apply Hap|by rewrite Hb; eexists].
Qed.

Lemma represents_step s s' F hdr l l' bs bs' d d' :
  represents s F → F !! hdr = Some d → file_at s hdr l bs (lenZ d) → only_file hdr l l' s s' → store_ok s' →
  file_at s' hdr l' bs' (lenZ d') → bytes bs' = d' → represents s' (<[hdr := d']> F).
Proof.
  intros [Hst Hfile Hap Hrest] HF Hf Ho Hst' Hf' Ed. pose proof (fa_head _ _ _ _ _ Hf) as Hh. pose proof (fa_head _ _ _ _ _ Hf') as Hh'.
  assert (∀ h lx nx, h ≠ hdr → is_Some (F !! h) → mheads s !! h = Some (mk_head lx nx) → ∀ a, a ∈ lx → (a ∉ l) ∧ is_Some (mblocks s !! a)) as Hother.
  { intros h lx nx Hne [dx Hdx] Hhx a Ha. split; [exact (Hap h hdr lx l nx (lenZ d) a Hne (mk_is_Some _ _ Hdx) (mk_is_Some _ _ HF) Hhx Hh Ha)|].
    destruct (Hfile h dx Hdx) as (_ & ly & bsy & Hy & _). pose proof (fa_head _ _ _ _ _ Hy) as Hhy. rewrite Hhx in Hhy. injection Hhy as <- _.
    apply list_elem_of_lookup in Ha as [i Hi]. destruct (Forall2_lookup_l _ _ _ _ _ (fa_blocks _ _ _ _ _ Hy) Hi) as (b & _ & Hb). by eexists. }
  split; [done| | |].
  - intros h dx [[<- <-]|[Hne Hdx]]%lookup_insert_Some.
    + split; [by destruct (Hfile hdr d HF)|]. by exists l', bs'.
    + destruct (Hfile h dx Hdx) as (? & lx & bsx & Hx & Ex). split; [done|]. exists lx, bsx. split; [|done].
      eapply file_at_frame; [done|done| |done]. intros a Ha.
      exact (proj1 (Hother h lx (lenZ dx) (not_eq_sym Hne) (mk_is_Some _ _ Hdx) (fa_head _ _ _ _ _ Hx) a Ha)).
  - assert (∀ h lx nx, h ≠ hdr → is_Some (F !! h) → mheads s' !! h = Some (mk_head lx nx) → ∀ a, a ∈ lx → a ∉ l') as Hnew.
    { intros h lx nx Hne Hs Hhx a Ha Hin. rewrite (of_heads _ _ _ _ _ Ho) in Hhx by done.
      destruct (Hother h lx nx Hne Hs Hhx a Ha) as [Hno [b Hb]].
      destruct (of_chain _ _ _ _ _ Ho a Hin) as [?|E]; [done|]. by rewrite Hb in E. }
    intros h1 h2 l1 l2 n1 n2 a Hne H1 H2 Hh1 Hh2 Ha.
    destruct (decide (h1 = hdr)) as [->|N1], (decide (h2 = hdr)) as [->|N2]; [done|..].
    + rewrite lookup_insert_ne in H2 by done. rewrite Hh' in Hh1. injection Hh1 as <- <-. intros Hin.
      by apply (Hnew h2 l2 n2 N2 H2 Hh2 a Hin).
    + rewrite lookup_insert_ne in H1 by done. rewrite Hh' in Hh2. injection Hh2 as <- <-. by apply (Hnew h1 l1 n1).
    + rewrite lookup_insert_ne in H1, H2 by done. rewrite !(of_heads _ _ _ _ _ Ho) in Hh1, Hh2 by done. by apply (Hap h1 h2 l1 l2 n1 n2).
  - intros h c Hc. destruct (decide (h = hdr)) as [->|Hne]; [left; rewrite lookup_insert_eq; by eexists|].
    rewrite lookup_insert_ne by done. rewrite (of_heads _ _ _ _ _ Ho) in Hc by done. by apply Hrest.
Qed.

(** the file [hdr] leaves, the others stay *)
Lemma represents_drop s s' F hdr l n bs n' :
  represents s F → is_Some (F !! hdr) → file_at s hdr l bs n → only_file hdr l [] s s' → store_ok s' →
  mheads s' !! hdr = Some (mk_head [] n') → represents s' (delete hdr F).
Proof.
  intros [Hst Hfile Hap Hrest] HF Hf Ho Hst' Hh'. pose proof (fa_head _ _ _ _ _ Hf) as Hh. split; [done| | |].
  - intros h d [Hne Hd]%lookup_delete_Some. destruct (Hfile h d Hd) as (Hn & lx & bx & Hfx & Eb). split; [done|]. exists lx, bx. split; [|done].
    eapply file_at_frame; [exact Ho|done| |done]. intros a Ha.
    exact (Hap h hdr lx l _ n a (not_eq_sym Hne) (mk_is_Some _ _ Hd) HF (fa_head _ _ _ _ _ Hfx) Hh Ha).
  - intros h1 h2 l1 l2 n1 n2 a Hne [N1 H1]%lookup_delete_is_Some [N2 H2]%lookup_delete_is_Some Hh1 Hh2.
    rewrite (of_heads _ _ _ _ _ Ho) in Hh1, Hh2 by done. by apply (Hap h1 h2 l1 l2 n1 n2).
  - intros h c Hc. destruct (decide (h = hdr)) as [->|Hne]; [right; rewrite Hh' in Hc; by injection Hc as <-|].
    rewrite lookup_delete_ne by done. rewrite (of_heads _ _ _ _ _ Ho) in Hc by done. by apply Hrest.
Qed.

Lemma raw_reclaim_ok s F hdr :
  represents s F → is_Some (F !! hdr) →
  ∃ s', mem_block_raw_reclaim hdr s = Ok ((), s') ∧ represents s' (delete hdr F) ∧
    (∀ h, h ≠ hdr → mheads s' !! h = mheads s !! h) ∧ is_Some (mheads s' !! hdr).
Proof.
  intros Hrep [d HF]. destruct (rp_file _ _ Hrep hdr d HF) as (_ & l & bs & Hf & _). pose proof Hf as [Hc _]%file_at_chain.
  destruct (shrink_blocks_ok s hdr [] l [] bs (lenZ d)) as (s' & Hr & Hc' & Hst' & Ho); [done|done|by destruct Hrep|by eapply represents_alone; [|eexists|]|].
  exists s'. unfold mem_block_raw_reclaim. rewrite (get_head_run _ _ _ _ (fa_head _ _ _ _ _ Hf)). split_and!; [done| | |].
  - eapply represents_drop; [done|by eexists|done|exact Ho|done|apply (ca_head _ _ _ _ _ Hc')].
  - apply (of_heads _ _ _ _ _ Ho).
  - rewrite (ca_head _ _ _ _ _ Hc'). by eexists.
Qed.

Inductive fop := FRead (hdr off size : Z) | FWrite (hdr off : Z) (buf : list Z) | FTruncate (hdr off : Z) | FSize (hdr : Z).
Inductive fres := RData (d : list Z) | RInt (z : Z).

Definition exec_fop (o : fop) : M (mstore A) fres :=
  match o with
  | FRead hdr off size =>
      '(k, buf) ← tmpfs_read_file hdr off (replicate (Z.to_nat size) 0) size;
      mret (RData (take (Z.to_nat k) buf))
  | FWrite hdr off buf => k ← tmpfs_write_file residue hdr off buf (lenZ buf); mret (RInt k)
  | FTruncate hdr off => k ← tmpfs_file_truncate residue hdr off; mret (RInt k)
  | FSize hdr => k ← tmpfs_file_size hdr; mret (RInt k)
  end.

Fixpoint exec_fops (os : list fop) : M (mstore A) (list fres) :=
  match os with
  | [] => mret []
  | o :: os => r ← exec_fop o; rs ← exec_fops os; mret (r :: rs)
  end.

(** what the operations mean, when [h] is the heap *)
Definition abs_fop (h : A) (F : gmap Z (list Z)) (o : fop) (r : fres) (F' : gmap Z (list Z)) : Prop :=
  match o with
  | FRead hdr off size => ∃ d, F !! hdr = Some d ∧ r = RData (take (Z.to_nat size) (drop (Z.to_nat off) d)) ∧ F' = F
  | FWrite hdr off buf => ∃ d k, F !! hdr = Some d ∧ r = RInt k ∧ 0 ≤ k ≤ lenZ buf ∧ (k = lenZ buf ∨ no_blocks (blocks_for (off + lenZ buf)) h) ∧
      F' = <[hdr := overlay d off (take (Z.to_nat k) buf)]> F
  | FTruncate hdr off => ∃ d, F !! hdr = Some d ∧ r = RInt OK ∧ F' = <[hdr := take (Z.to_nat off) d]> F
  | FSize hdr => ∃ d, F !! hdr = Some d ∧ r = RInt (lenZ d) ∧ F' = F
  end.

(** inside the contract: the file exists, offsets do not lie behind its end, sizes are below 2 GB *)
Definition fop_ok (F : gmap Z (list Z)) (o : fop) : Prop :=
  match o with
  | FRead hdr off size => is_Some (F !! hdr) ∧ 0 ≤ off < 2147483648 ∧ 0 ≤ size
  | FWrite hdr off buf => ∃ d, F !! hdr = Some d ∧ 0 ≤ off ≤ lenZ d ∧ off + lenZ buf < 2147483648 ∧ lenZ d < 2147483648
  | FTruncate hdr off => ∃ d, F !! hdr = Some d ∧ 0 ≤ off ≤ lenZ d ∧ lenZ d < 2147483648
  | FSize hdr => ∃ d, F !! hdr = Some d ∧ lenZ d < 2147483648
  end.
Fixpoint fops_ok (F : gmap Z (list Z)) (os : list fop) : Prop :=
  match os with [] => True | o :: os => fop_ok F o ∧ ∀ h r F', abs_fop h F o r F' → fops_ok F' os end.
(** the heap before every operation of a program *)
Fixpoint heaps (os : list fop) (s : mstore A) : list A :=
  match os with
  | [] => []
  | o :: os => mheap s :: match exec_fop o s with Ok (_, s') => heaps os s' | Err _ => [] end
  end.
Fixpoint abs_fops (hs : list A) (F : gmap Z (list Z)) (os : list fop) (rs : list fres) (F' : gmap Z (list Z)) : Prop :=
  match hs, os, rs with
  | [], [], [] => F' = F
  | h :: hs, o :: os, r :: rs => ∃ F1, abs_fop h F o r F1 ∧ abs_fops hs F1 os rs F'
  | _, _, _ => False
  end.

(** the header's size after an operation on the blocks *)
Lemma set_total_ok s s1 F hdr l l' bs bs' d d' n :
  represents s F → F !! hdr = Some d → file_at s hdr l bs (lenZ d) → only_file hdr l l' s s1 → store_ok s1 →
  file_at s1 hdr l' bs' n → bytes bs' = d' →
  represents (put_head s1 hdr (mk_head l' (lenZ d'))) (<[hdr := d']> F).
Proof.
  intros Hrep HF Hf Ho Hst Hf1 Ed. apply (represents_step s _ F hdr l l' bs bs' d d'); try done.
  - eapply only_file_trans; [exact Ho|]. split; simpl; [|done|by left]. intros h Hh. by rewrite lookup_insert_ne.
  - destruct Hf1 as [? HB ? ? ? ?]. split; try done. simpl. by rewrite lookup_insert_eq.
Qed.

(** no header comes or goes *)
Definition same_heads (s s' : mstore A) : Prop := ∀ h, is_Some (mheads s' !! h) ↔ is_Some (mheads s !! h).

Lemma put_head_same s s1 hdr l l' h0 x : only_file hdr l l' s s1 → mheads s !! hdr = Some h0 → same_heads s (put_head s1 hdr x).
Proof.
  intros Ho Hh h. simpl. destruct (decide (h = hdr)) as [->|Hne].
  - rewrite lookup_insert_eq, Hh. split; intros _; by eexists.
  - rewrite lookup_insert_ne by done. by rewrite (of_heads _ _ _ _ _ Ho).
Qed.

Lemma exec_fop_ok o s F :
  represents s F → fop_ok F o → ∃ r s' F', exec_fop o s = Ok (r, s') ∧ abs_fop (mheap s) F o r F' ∧ represents s' F' ∧ same_heads s s'.
Proof.
  intros Hrep Hok. pose proof Hrep as [Hst Hfile _ _]. destruct o as [hdr off size|hdr off buf|hdr off|hdr]; cbn [exec_fop fop_ok] in *.
  - destruct Hok as ([d HF] & Hoff & Hsize). destruct (Hfile hdr d HF) as (Hnn & l & bs & Hf & Ed).
    unfold tmpfs_read_file. rewrite (proj2 (ctrue_true hdr) Hnn). cbn [negb].
    pose proof (raw_read_ok s hdr l bs _ off (replicate (Z.to_nat size) 0) size Hf Hoff ltac:(rewrite length_replicate; lia)) as Hrd.
    rewrite Ed in Hrd. rewrite (bind_ok _ _ _ _ _ Hrd). set (w := take (Z.to_nat size) (drop (Z.to_nat off) d)).
    exists (RData w), s, F. split_and!; [|by exists d|done|done].
    unfold overlay. simpl. rewrite Nat2Z.id. by rewrite take_app_length.
  - destruct Hok as (d & HF & Hoff & Hlim & Hd). destruct (Hfile hdr d HF) as (Hnn & l & bs & Hf & Ed).
    pose proof (fa_head _ _ _ _ _ Hf) as Hh. unfold tmpfs_write_file. rewrite (proj2 (ctrue_true hdr) Hnn). cbn [negb].
    rewrite bind_assoc_run, (get_head_run _ _ _ _ Hh). cbn [total].
    assert (∃ k s1, (if lenZ d =? off then mem_block_raw_write_sequential residue hdr buf (lenZ buf)
       else mem_block_raw_write_random residue hdr off buf (lenZ buf)) s = Ok (k, s1) ∧ wrote s hdr l bs (lenZ d) off buf k s1)
      as (k & s1 & Hr & l' & bs' & Hf' & Hst' & Ho & Hk & Hfull & Eb).
    { destruct (Z.eqb_spec (lenZ d) off) as [<-|_].
      { replace (wrote s hdr l bs (lenZ d) (lenZ d) buf) with (wrote s hdr l bs (lenZ d) (lenZ (bytes bs)) buf) by (by rewrite Ed).
        by apply raw_write_sequential_ok. }
      apply raw_write_random_ok; [done|done|by rewrite Ed|lia]. }
    rewrite bind_assoc_run, (bind_ok _ _ _ _ _ Hr). rewrite (proj2 (Z.leb_le 0 k)) by lia.
    set (d' := overlay d off (take (Z.to_nat k) buf)). assert (lenZ d' = Z.max (lenZ d) (off + k)) as Ed'.
    { unfold d'. rewrite length_overlay, length_take by done. lia. }
    exists (RInt k), (put_head s1 hdr (mk_head l' (lenZ d'))), (<[hdr := d']> F). split_and!.
    + rewrite bind_assoc_run. unfold when. rewrite bind_assoc_run, (get_head_run _ _ _ _ (fa_head _ _ _ _ _ Hf')).
      rewrite (upd_head_run _ _ _ _ _ (fa_head _ _ _ _ _ Hf')). unfold set_total. cbn [chain total].
      rewrite u32_small by lia. by rewrite Z.max_comm, <-Ed'.
    + exists d, k. split_and!; try (done || lia). destruct Hfull as [[? _]|Hno]; [by left|right]. eapply allocate_none; [exact Hno|lia].
    + apply (set_total_ok s s1 F hdr l l' bs bs' d d' (lenZ d)); try done. by rewrite Eb, Ed.
    + eapply put_head_same; [exact Ho|exact (fa_head _ _ _ _ _ Hf)].
  - destruct Hok as (d & HF & Hoff & Hd). destruct (Hfile hdr d HF) as (Hnn & l & bs & Hf & Ed).
    unfold tmpfs_file_truncate. rewrite (proj2 (ctrue_true hdr) Hnn). cbn [negb].
    destruct (raw_truncate_ok s hdr l bs (lenZ d) off) as (s1 & l' & bs' & Hr & Hf' & Hst' & Ho & Eb); [done|done|by eapply represents_alone; [|eexists|]|by rewrite Ed|lia|].
    rewrite bind_assoc_run, (bind_ok _ _ _ _ _ Hr). change (negb (OK =? OK)) with false. cbv iota.
    set (d' := take (Z.to_nat off) d). assert (lenZ d' = off) as Ed' by (unfold d'; rewrite length_take; lia).
    exists (RInt OK), (put_head s1 hdr (mk_head l' (lenZ d'))), (<[hdr := d']> F). split_and!.
    + rewrite bind_assoc_run, (upd_head_run _ _ _ _ _ (fa_head _ _ _ _ _ Hf')). unfold set_total. cbn [chain total].
      rewrite u32_small by lia. by rewrite <-Ed'.
    + by exists d.
    + apply (set_total_ok s s1 F hdr l l' bs bs' d d' (lenZ d)); try done. by rewrite Eb, Ed.
    + eapply put_head_same; [exact Ho|exact (fa_head _ _ _ _ _ Hf)].
  - destruct Hok as (d & HF & Hd). destruct (Hfile hdr d HF) as (Hnn & l & bs & Hf & Ed).
    unfold tmpfs_file_size. rewrite (proj2 (ctrue_true hdr) Hnn).
    rewrite bind_assoc_run, (get_head_run _ _ _ _ (fa_head _ _ _ _ _ Hf)). cbn [total]. rewrite i32_small by lia.
    exists (RInt (lenZ d)), s, F. split_and!; [done|by exists d|done|done].
Qed.

Lemma exec_fops_ok os s F :
  represents s F → fops_ok F os → ∃ rs s' F', exec_fops os s = Ok (rs, s') ∧ abs_fops (heaps os s) F os rs F' ∧ represents s' F'.
Proof.
  revert s F. induction os as [|o os IH]; intros s F Hrep Hok; cbn [exec_fops].
  { exists [], s, F. done. }
  destruct Hok as [Ho Hok]. destruct (exec_fop_ok o s F Hrep Ho) as (r & s1 & F1 & Hr & Ha & Hrep1 & _).
  destruct (IH s1 F1 Hrep1 (Hok _ r F1 Ha)) as (rs & s2 & F2 & Hrs & Has & Hrep2).
  rewrite (bind_ok _ _ _ _ _ Hr), (bind_ok _ _ _ _ _ Hrs). exists (r :: rs), s2, F2. cbn [heaps]. rewrite Hr. split_and!; [done|by exists F1|done].
Qed.

(** C10. Files in memory are byte sequences: any program of reads, writes,
    truncations and size queries on any number of files, with writes and
    truncations at offsets inside the file, runs without fault on the block
    lists and does what it means on the sequences.  A read returns the bytes
    between its offset and the end of the file, a write replaces or appends
    all its bytes (fewer only when the heap, as it is then, cannot give as many
    blocks as the file would have), a truncation
    cuts the file, and no operation touches another file. *)
Theorem tmpfs_refines_byte_files os s F :
  represents s F → fops_ok F os → ∃ rs s' F', exec_fops os s = Ok (rs, s') ∧ abs_fops (heaps os s) F os rs F' ∧ represents s' F'.
Proof. apply exec_fops_ok. Qed.
End proofs.

(** ** Examples *)
Module MemFsExample.
Import MallocExample.
#[local] Instance kernel_heap : KHeap mstate := malloc_heap bins.
#[local] Instance kernel_heap_laws : KHeapLaws mstate := malloc_heap_laws bins bins_place.

(** what is left over in a block *)
Definition residue (a : Z) (s : mstate) : list Z := replicate (Z.to_nat BLOCK_AVAIL_SIZE) 7.

Lemma residue_size a s : lenZ (residue a s) = BLOCK_AVAIL_SIZE.
Proof. unfold residue. rewrite length_replicate. done. Qed.

Definition booted : mstate :=
  match malloc_init bins (boot 0xF000E2C3) with Ok (_, s) => s | Err _ => boot 0 end.
Definition empty_file : mstore mstate := mk_mstore booted ∅ {[0x700 := mk_head [] 0]}.

Lemma empty_file_rep : represents [] empty_file {[0x700 := []]}.
Proof.
  split.
  - exists []. split; [|intros a [b Hb]; change (mblocks empty_file) with (∅ : gmap Z mem_block) in Hb; by rewrite lookup_empty in Hb].
    destruct (malloc_init_ok bins bins_place (boot 0xF000E2C3) (mk_hdr 0 0 0xF000E2C3 0 false 0)) as (s1 & Hr & Hinv);
      [reflexivity|by vm_compute|].
    unfold empty_file, booted. rewrite Hr. simpl. eexists _, _. split; [exact Hinv|].
    exists []. split_and!; [apply NoDup_nil_2|by intros ? ?%not_elem_of_nil|constructor].
  - intros hdr d [<- <-]%lookup_singleton_Some. split; [done|]. exists [], []. split; [|done].
    split; try done; [apply NoDup_nil_2|apply not_elem_of_nil].
  - intros h1 h2 l1 l2 n1 n2 a Hne [d1 [<- _]%lookup_singleton_Some] [d2 [<- _]%lookup_singleton_Some]. done.
  - intros h c Hc. change (mheads empty_file) with ({[0x700 := mk_head [] 0]} : gmap Z mem_head) in Hc.
    apply lookup_singleton_Some in Hc as [_ <-]. by right.
Qed.

Lemma tmpfs_refines_byte_files_witness :
  let os := [FWrite 0x700 0 [1; 2; 3]; FRead 0x700 0 3; FTruncate 0x700 0; FSize 0x700] in
  ∃ rs s' F', exec_fops residue os empty_file = Ok (rs, s') ∧ abs_fops (heaps residue os empty_file) {[0x700 := []]} os rs F' ∧ represents [] s' F'.
Proof.
  apply (tmpfs_refines_byte_files residue residue_size [] [FWrite 0x700 0 [1; 2; 3]; FRead 0x700 0 3; FTruncate 0x700 0; FSize 0x700]
    empty_file {[0x700 := []]}); [apply empty_file_rep|].
  cbn [fops_ok fop_ok]. split; [exists []; split_and!; by vm_compute|].
  intros h1 r1 F1 (d & k & Hd & -> & Hk & _ & ->). vm_compute in Hd. injection Hd as <-.
  set (d1 := overlay [] 0 _). assert (lenZ d1 < 2147483648) as Hd1.
  { unfold d1. rewrite length_overlay, length_take by (simpl; lia). cbn [length]. lia. }
  rewrite insert_singleton_eq. split; [split_and!; [by rewrite lookup_singleton_eq; eexists|lia..]|].
  intros h2 r2 F2 (_ & _ & _ & ->). split; [exists d1; rewrite lookup_singleton_eq; split_and!; (done || lia)|].
  intros h3 r3 F3 (d & Hd & _ & ->). rewrite insert_singleton_eq. split; [|by intros h4 r4 F4 _].
  eexists. rewrite lookup_singleton_eq. split; [done|]. rewrite length_take. simpl. lia.
Defined.

(** bytes of a file of the store *)
Definition contents (s : mstore mstate) (hdr : Z) : option (list Z) :=
  h ← mheads s !! hdr; bytes <$> mapM (λ a, mblocks s !! a) (chain h).

(** Growing a file by [truncate] beyond its partly filled last block leaves that
    block as it was: the size is 5000, but there are only 10 + 916 bytes. *)
Theorem truncate_grows_wrong :
  match (tmpfs_write_file residue 0x700 0 (replicate 10 1) 10 ;; tmpfs_file_truncate residue 0x700 5000) empty_file with
  | Ok (r, s) => r = OK ∧ total <$> mheads s !! 0x700 = Some 5000 ∧ length <$> contents s 0x700 = Some 926%nat
  | Err _ => False
  end.
Proof. vm_compute. done. Qed.

(** After a write behind the end of the file a partly filled block stays in the
    middle, and a later write over it inserts bytes: 35 bytes in a file of size 25. *)
Theorem write_behind_end_shifts :
  match (tmpfs_write_file residue 0x700 0 (replicate 10 1) 10 ;; tmpfs_write_file residue 0x700 20 (replicate 5 2) 5 ;;
         tmpfs_write_file residue 0x700 0 (replicate 20 3) 20) empty_file with
  | Ok (r, s) => r = 20 ∧ total <$> mheads s !! 0x700 = Some 25 ∧ length <$> contents s 0x700 = Some 35%nat
  | Err _ => False
  end.
Proof. vm_compute. done. Qed.

(** A read of a negative size from a file that has a block stops the kernel. *)
Theorem read_negative_size_panics :
  match tmpfs_write_file residue 0x700 0 [1] 1 empty_file with
  | Ok (_, s) => tmpfs_read_file 0x700 0 [] (-1) s = Err AssertFail
  | Err _ => False
  end.
Proof. vm_compute. done. Qed.
End MemFsExample.
