(* ===== verification/Path.v ===== *)
(** * Paths and mount points: the path functions of filesystem/vfs.c

    Paths are NUL-terminated strings in byte buffers (CString).  [None] is an
    access outside a buffer.  The mount table is a list of entries, a file
    system the number that stands for its address.  The specification is in
    terms of the words of a path; [canonical] is the path the code promises,
    [best_fit] the mount point it looks for. *)

From Stdlib Require Import ZifyNat.
From stdpp Require Import gmap list strings.
From S2P Require Import Prelude CString Vma.
Open Scope Z_scope.
Open Scope zelda_scope.

Definition MAX_PATH : Z := 256.
Definition MOUNT_ENTRY_SIZE : Z := 256.
Definition SLASH : Z := 47.
Definition DOT : Z := 46.
Definition BLANK : Z := 32.

(** ** [canonicalize_path_name] *)

(** [index_stack[index_ptr++] = word_start] on [int16_t index_stack[256]] *)
Definition push_index (st : list Z) (word_start : Z) : option (list Z) :=
  if (length st <? 256)%nat then Some (st ++ [word_start]) else None.

(** the first loop, from [idx] on with [n] rounds left: [inl] is a returned
    error, [inr] the stack of word indices (its length is [index_ptr]) *)
Fixpoint scan_words (n : nat) (src : list Z) (idx word_start : Z) (st : list Z) : option (Z + list Z) :=
  match n with
  | O => Some (inr st)
  | S n =>
      c ← array_get src idx;
      if c =? BLANK then Some (inl (- ERR_INVALID_ARG)) else
      if negb (c =? SLASH) && ctrue c then scan_words n src (idx + 1) word_start st else
      if (word_start =? -1) && ctrue c then scan_words n src (idx + 1) idx st else
      if (word_start =? -1) && ! c then Some (inr st) else
      let word_len := idx - word_start in
      '(word_start, st) ←
        (if word_len =? 1 then
           if ! c && bool_decide (st = [])
           then st ← push_index st word_start; Some (word_start, st)
           else Some (idx, st)
         else
         c1 ← array_get src (idx - 1);
         if (word_len =? 2) && (c1 =? DOT) then Some (idx, st) else
         c2 ← (if word_len =? 3 then array_get src (idx - 2) else Some 0);
         if (word_len =? 3) && (c1 =? DOT) && (c2 =? DOT) then Some (idx, take (pred (length st)) st) else
         st ← push_index st word_start; Some (idx, st));
      if ! c then Some (inr st) else scan_words n src (idx + 1) word_start st
  end.

(** the end of the word that starts at [word_start]: 0 when there is none *)
Fixpoint find_word_end (n : nat) (src : list Z) (idx1 : Z) : option Z :=
  match n with
  | O => Some 0
  | S n =>
      c ← array_get src idx1;
      if c =? SLASH then Some idx1 else
      if ! c then Some (idx1 + 1) else find_word_end n src (idx1 + 1)
  end.

(** [for(idx1 = word_start; idx1 < word_end; idx1++) dst[iptr++] = src[idx1];] *)
Fixpoint copy_word (n : nat) (dst src : list Z) (iptr idx1 : Z) : option (list Z * Z) :=
  match n with
  | O => Some (dst, iptr)
  | S n =>
      c ← array_get src idx1;
      dst ← array_set dst iptr c;
      copy_word n dst src (iptr + 1) (idx1 + 1)
  end.

Fixpoint reform_path (st : list Z) (dst src : list Z) (iptr : Z) : option (list Z * Z) :=
  match st with
  | [] => Some (dst, iptr)
  | word_start :: st =>
      word_end ← find_word_end (Z.to_nat (MAX_PATH - (word_start + 1))) src (word_start + 1);
      '(dst, iptr) ← copy_word (Z.to_nat (word_end - word_start)) dst src iptr word_start;
      reform_path st dst src iptr
  end.

(** the result and the new contents of [dst] *)
Definition canonicalize_path_name (dst src : list Z) : option (Z * list Z) :=
  r ← scan_words (Z.to_nat MAX_PATH) src 0 (-1) [];
  match r with
  | inl e => Some (e, dst)
  | inr st =>
      '(dst, iptr) ← reform_path st dst src 0;
      dst ← array_set dst iptr 0;
      Some (OK, dst)
  end.

(** ** Mount points *)
Record mount_entry := mk_mount { mount_point : list Z; mount_fs : Z; mount_valid : bool }.

Definition zero_path : list Z := replicate (Z.to_nat MAX_PATH) 0.
Definition no_mount : mount_entry := mk_mount zero_path 0 false.
(** [vfs_pre_init] *)
Definition vfs_pre_init : list mount_entry := replicate (Z.to_nat MOUNT_ENTRY_SIZE) no_mount.

(** the first index from [iptr] on at which [str] has a NUL, [None] outside the buffer *)
Fixpoint nul_index (n : nat) (str : list Z) (iptr : Z) : option (option Z) :=
  match n with
  | O => Some None
  | S n => c ← array_get str iptr; if ! c then Some (Some iptr) else nul_index n str (iptr + 1)
  end.

(** the loop of [search_mount_entry]; [degree_tmp] keeps its value when no NUL is found *)
Fixpoint search_mount_loop (es : list mount_entry) (idx best_fit_index best_fit_degree degree_tmp : Z) (c_name : list Z) :
    option Z :=
  match es with
  | [] => Some best_fit_index
  | e :: es =>
      if negb (mount_valid e) then search_mount_loop es (idx + 1) best_fit_index best_fit_degree degree_tmp c_name else
      r ← start_with c_name (mount_point e);
      if ctrue r then search_mount_loop es (idx + 1) best_fit_index best_fit_degree degree_tmp c_name else
      o ← nul_index (Z.to_nat MAX_PATH) (mount_point e) 0;
      let degree_tmp := default degree_tmp o in
      if (best_fit_index =? -1) || (best_fit_degree <? degree_tmp)
      then search_mount_loop es (idx + 1) idx degree_tmp degree_tmp c_name
      else search_mount_loop es (idx + 1) best_fit_index best_fit_degree degree_tmp c_name
  end.

(** the index of the entry, or -1; a path that is not canonicalizable fails the assertion *)
Definition search_mount_entry (path : list Z) : M (list mount_entry) Z :=
  '(rc, c_name) ← deref (canonicalize_path_name zero_path path);
  ASSERT (! rc) ;;
  es ← gets id;
  deref (search_mount_loop es 0 (-1) 0 0 c_name).

(** the loop of [register_file_system]: [inl] is the conflict *)
Fixpoint register_loop (es : list mount_entry) (idx target_index : Z) (c_name : list Z) : option (Z + Z) :=
  match es with
  | [] => Some (inr target_index)
  | e :: es =>
      if negb (mount_valid e) then register_loop es (idx + 1) (if target_index =? -1 then idx else target_index) c_name else
      r ← start_with (mount_point e) c_name;
      if ctrue r then register_loop es (idx + 1) target_index c_name else
      iptr ← strlen c_name;
      c ← array_get (mount_point e) iptr;
      if ! c || (c =? SLASH) then Some (inl (- ERR_INVALID_ARG))
      else register_loop es (idx + 1) target_index c_name
  end.

Definition register_file_system (path : list Z) (fs : Z) : M (list mount_entry) Z :=
  '(rc, c_name) ← deref (canonicalize_path_name zero_path path);
  ASSERT (! rc) ;;
  es ← gets id;
  r ← deref (register_loop es 0 (-1) c_name);
  match r with
  | inl e => mret e
  | inr target_index =>
      if target_index <? 0 then mret (- ERR_OUT_OF_RESOURCE) else
      ASSERT (target_index <? MOUNT_ENTRY_SIZE) ;;
      mp ← deref (strcpy_safe zero_path c_name MAX_PATH);
      modify (<[Z.to_nat target_index := mk_mount mp fs true]>) ;;
      mret OK
  end.

(** ** [resolve_subpath] *)
Fixpoint common_length (n : nat) (iptr : Z) (a b : list Z) : option Z :=
  match n with
  | O => Some iptr
  | S n =>
      x ← array_get a iptr; y ← array_get b iptr;
      if negb (x =? y) then Some iptr else common_length n (iptr + 1) a b
  end.

Fixpoint copy_rest (n : nat) (iptr iptr_dst : Z) (c_name sub_path : list Z) : option (list Z) :=
  match n with
  | O => Some sub_path
  | S n =>
      c ← array_get c_name iptr;
      if ! c then Some sub_path else
      sub_path ← array_set sub_path iptr_dst c;
      copy_rest n (iptr + 1) (iptr_dst + 1) c_name sub_path
  end.

Definition resolve_subpath (sub_path full_path : list Z) (entry : mount_entry) : option (list Z) :=
  '(_, c_name) ← canonicalize_path_name zero_path full_path;
  iptr ← common_length (Z.to_nat MAX_PATH) 0 c_name (mount_point entry);
  sub_path ← copy_rest (Z.to_nat (MAX_PATH - iptr)) iptr 0 c_name sub_path;
  c ← array_get sub_path 0;
  if ! c then
    sub_path ← array_set sub_path 0 SLASH;
    array_set sub_path 1 0
  else Some sub_path.

(** ** [split_path]

    The words are the indices at which they start; the slashes behind them are
    overwritten with NUL. *)
Fixpoint word_span (n : nat) (path : list Z) (ptr : Z) : option Z :=
  match n with
  | O => None
  | S n => c ← array_get path ptr; if ctrue c && negb (c =? SLASH) then word_span n path (ptr + 1) else Some ptr
  end.

Fixpoint split_loop (n : nat) (path : list Z) (ptr : Z) (array : list Z) : option (list Z * list Z) :=
  match n with
  | O => None
  | S n =>
      c ← array_get path ptr;
      if ! c then Some (path, array) else
      ptr_end ← word_span (S (length path)) path ptr;
      if ptr_end - ptr =? 0 then split_loop n path (ptr + 1) array else
      let array := array ++ [ptr] in
      e ← array_get path ptr_end;
      if ! e then Some (path, array) else
      path ← array_set path ptr_end 0;
      split_loop n path (ptr_end + 1) array
  end.
Definition split_path (path : list Z) : option (list Z * list Z) := split_loop (S (length path)) path 0 [].


(** ** Words *)
Definition word_char (c : Z) : Prop := c ≠ 0 ∧ c ≠ SLASH ∧ c ≠ BLANK.
Definition word_ok (w : list Z) : Prop := Forall word_char w.

(** an absolute path from its words, which may be empty *)
Definition join (ws : list (list Z)) : list Z := concat (cons SLASH <$> ws).

Lemma join_cons w ws : join (w :: ws) = SLASH :: w ++ join ws.
Proof. done. Qed.
Lemma join_app ws ws' : join (ws ++ ws') = join ws ++ join ws'.
Proof. unfold join. by rewrite fmap_app, concat_app. Qed.

(** one word: empty words and [.] are dropped, [..] takes the word before it *)
Definition norm_step (st : list (list Z)) (w : list Z) : list (list Z) :=
  if decide (w = []) then st else
  if decide (w = [DOT]) then st else
  if decide (w = [DOT; DOT]) then take (pred (length st)) st else st ++ [w].
Definition norm (ws : list (list Z)) : list (list Z) := foldl norm_step [] ws.

(** the canonical path: the root is kept only when the path ends in a slash *)
Definition canonical (ws : list (list Z)) : list Z :=
  match norm ws with
  | [] => if decide (last ws = Some []) then [SLASH] else []
  | ws' => join ws'
  end.

(** the same with the index of every word, as [scan_words] builds it *)
Definition index_step (is_last : bool) (st : list (Z * list Z)) (pos : Z) (w : list Z) : list (Z * list Z) :=
  if decide (w = []) then (if is_last && bool_decide (st = []) then [(pos, w)] else st) else
  if decide (w = [DOT]) then st else
  if decide (w = [DOT; DOT]) then take (pred (length st)) st else st ++ [(pos, w)].
Fixpoint index_words (pos : Z) (ws : list (list Z)) (st : list (Z * list Z)) : list (Z * list Z) :=
  match ws with
  | [] => st
  | w :: ws => index_words (pos + 1 + lenZ w) ws (index_step (bool_decide (ws = [])) st pos w)
  end.

Lemma scan_chars n src a w b ws st :
  src = a ++ w ++ b → word_ok w →
  scan_words (length w + n) src (lenZ a) ws st = scan_words n src (lenZ a + lenZ w) ws st.
Proof.
  intros -> Hw. revert a. induction Hw as [|c w (Hc0 & Hcs & Hcb) Hw IH]; intros a; [simpl; by rewrite Z.add_0_r|].
  cbn [length Nat.add scan_words app]. rewrite array_get_mid. rewrite obind.
  rewrite (proj2 (Z.eqb_neq c BLANK)), (proj2 (Z.eqb_neq c SLASH)), (proj2 (ctrue_true c)) by done. cbn [negb andb].
  change (a ++ c :: w ++ b) with (a ++ [c] ++ w ++ b). rewrite app_assoc.
  replace (lenZ a + 1) with (lenZ (a ++ [c])) by (rewrite length_app; simpl; lia). rewrite IH. f_equal. rewrite length_app. simpl. lia.
Qed.

(** the end of a word: [c] is the slash or NUL behind it *)
Lemma scan_end n src a w c b st :
  src = a ++ SLASH :: w ++ c :: b → word_ok w → c = SLASH ∨ c = 0 → (length st < 256)%nat →
  let st' := index_step (bool_decide (c = 0)) st (lenZ a) w in
  scan_words (S n) src (lenZ a + 1 + lenZ w) (lenZ a) (fst <$> st) =
  if bool_decide (c = 0) then Some (inr (fst <$> st'))
  else scan_words n src (lenZ a + 1 + lenZ w + 1) (lenZ a + 1 + lenZ w) (fst <$> st').
Proof.
  intros Es Hw Hc Hlen st'. set (idx := lenZ a + 1 + lenZ w).
  assert (array_get src idx = Some c) as Hget.
  { rewrite Es. change (SLASH :: w ++ c :: b) with ([SLASH] ++ w ++ c :: b). rewrite !app_assoc.
    replace idx with (lenZ ((a ++ [SLASH]) ++ w)) by (rewrite !length_app; simpl; lia). apply array_get_mid. }
  cbn [scan_words]. rewrite Hget. rewrite obind.
  replace (c =? BLANK) with false by (unfold BLANK, SLASH in *; lia).
  replace (negb (c =? SLASH) && ctrue c) with false by (destruct Hc as [->| ->]; done).
  rewrite (proj2 (Z.eqb_neq (lenZ a) (-1))) by lia. cbn [andb].
  replace (idx - lenZ a) with (1 + lenZ w) by lia.
  assert (push_index (fst <$> st) (lenZ a) = Some (fst <$> (st ++ [(lenZ a, w)]))) as Hpush.
  { unfold push_index. rewrite length_fmap, (proj2 (Nat.ltb_lt _ _)) by done. by rewrite fmap_app. }
  assert (∀ st1 : list (Z * list Z), (if ! c then Some (inr (fst <$> st1)) else scan_words n src (idx + 1) idx (fst <$> st1)) =
    if bool_decide (c = 0) then Some (inr (fst <$> st1)) else scan_words n src (idx + 1) idx (fst <$> st1)) as Hcont.
  { intros st1. by destruct Hc as [->| ->]. }
  assert (∀ y w0 w1, w = w0 ++ y :: w1 → array_get src (idx - 1 - lenZ w1) = Some y) as Hchar.
  { intros y w0 w1 ->. rewrite Es. replace (a ++ SLASH :: (w0 ++ y :: w1) ++ c :: b) with ((a ++ SLASH :: w0) ++ y :: w1 ++ c :: b)
      by (by rewrite <-!app_assoc).
    replace (idx - 1 - lenZ w1) with (lenZ (a ++ SLASH :: w0)); [apply array_get_mid|]. unfold idx. rewrite !length_app. simpl. lia. }
  unfold st', index_step. destruct w as [|x w'].
  { rewrite decide_True by done. change (1 + lenZ []) with 1. simpl (1 =? 1). cbv iota.
    destruct Hc as [->| ->]; [done|]. by destruct st. }
  rewrite decide_False by done. rewrite (proj2 (Z.eqb_neq (1 + lenZ (x :: w')) 1)) by (simpl; lia).
  destruct w' as [|y w'].
  { pose proof (Hchar x [] [] eq_refl) as H1. simpl in H1. rewrite Z.sub_0_r in H1. rewrite H1, obind. change (1 + lenZ [x]) with 2.
    change (2 =? 2) with true. change (2 =? 3) with false. destruct (Z.eqb_spec x DOT) as [->|Hx]; cbn [andb].
    - rewrite decide_True, obind by done. apply Hcont.
    - rewrite decide_False by congruence. rewrite decide_False by done. rewrite !obind. rewrite Hpush, !obind. apply Hcont. }
  rewrite decide_False by done. destruct w' as [|z w'].
  { pose proof (Hchar y [x] [] eq_refl) as H1. pose proof (Hchar x [] [y] eq_refl) as H2. simpl in H1, H2. rewrite Z.sub_0_r in H1.
    replace (idx - 1 - Z.of_nat 1) with (idx - 2) in H2 by lia. rewrite H1, obind. change (1 + lenZ [x; y]) with 3.
    change (3 =? 2) with false. change (3 =? 3) with true. cbn [andb]. rewrite H2, obind.
    destruct (Z.eqb_spec y DOT) as [->|Hy], (Z.eqb_spec x DOT) as [->|Hx]; cbn [andb].
    - rewrite decide_True by done. rewrite obind, length_fmap, <-fmap_take. apply Hcont.
    - rewrite decide_False by congruence. rewrite Hpush, !obind. apply Hcont.
    - rewrite decide_False by congruence. rewrite Hpush, !obind. apply Hcont.
    - rewrite decide_False by congruence. rewrite Hpush, !obind. apply Hcont. }
  rewrite decide_False by done. assert (∃ c1, array_get src (idx - 1) = Some c1) as [c1 H1].
  { destruct (exists_last (l := x :: y :: z :: w')) as (w0 & c1 & E); [done|]. exists c1.
    pose proof (Hchar c1 w0 [] E) as H1. simpl in H1. by rewrite Z.sub_0_r in H1. }
  rewrite H1, obind. rewrite (proj2 (Z.eqb_neq (1 + lenZ (x :: y :: z :: w')) 2)) by (simpl; lia).
  rewrite (proj2 (Z.eqb_neq (1 + lenZ (x :: y :: z :: w')) 3)) by (simpl; lia). cbn [andb].
  rewrite !obind. rewrite Hpush, !obind. apply Hcont.
Qed.

Lemma length_index_step b st pos w : (length (index_step b st pos w) ≤ S (length st))%nat.
Proof.
  unfold index_step. repeat case_decide; try rewrite length_take; try rewrite length_app; simpl; try lia.
  destruct b, st; simpl; lia.
Qed.

Lemma length_join ws : lenZ (join ws) = lenZ ws + lenZ (concat ws).
Proof. induction ws as [|w ws IH]; [done|]. rewrite join_cons. simpl. rewrite !length_app. lia. Qed.

(** the first loop finds the words, from behind the first slash on *)
Lemma scan_join ws n src a b st :
  src = a ++ join ws ++ 0 :: b → ws ≠ [] → Forall word_ok ws → (length (join ws) ≤ n)%nat → (length st + length ws ≤ 256)%nat →
  scan_words n src (lenZ a + 1) (lenZ a) (fst <$> st) = Some (inr (fst <$> index_words (lenZ a) ws st)).
Proof.
  intros Es Hne Hok. revert n a st Es. induction Hok as [|w ws Hw Hok IH]; [done|]. clear Hne. intros n a st Es Hn Hst.
  rewrite join_cons in Es, Hn. cbn [app length] in Es, Hn. rewrite length_app in Hn. rewrite <-app_assoc in Es.
  replace n with (length w + S (pred (n - length w)))%nat by lia.
  replace (lenZ a + 1) with (lenZ (a ++ [SLASH])) by (rewrite length_app; simpl; lia).
  rewrite (scan_chars _ src (a ++ [SLASH]) w (join ws ++ 0 :: b)) by (rewrite ?Es, <-?app_assoc; done).
  rewrite length_app. replace (Z.of_nat (length a + length [SLASH])) with (lenZ a + 1) by (simpl; lia).
  cbn [index_words length] in *. pose proof (length_index_step (bool_decide (ws = [])) st (lenZ a) w).
  destruct ws as [|w' ws].
  - rewrite (scan_end _ src a w 0 b) by (exact Es || exact Hw || (simpl in *; lia) || auto).
    by rewrite !bool_decide_true by done.
  - rewrite (scan_end _ src a w SLASH (w' ++ join ws ++ 0 :: b)); [|by rewrite Es, join_cons; cbn [app]; rewrite <-app_assoc|done|by left|simpl in *; lia].
    rewrite !bool_decide_false by done. replace (lenZ a + 1 + lenZ w) with (lenZ (a ++ SLASH :: w)) by (rewrite length_app; simpl; lia).
    rewrite <-(IH ltac:(done) (pred (n - length w)) (a ++ SLASH :: w)); [|by rewrite Es, <-app_assoc|simpl in *; lia|simpl in *; lia].
    done.
Qed.

Lemma last_cons_ne {A} (x : A) l : l ≠ [] → last (x :: l) = last l.
Proof. by destruct l. Qed.

Lemma index_step_norm b st pos w :
  b = false ∨ w ≠ [] → snd <$> index_step b st pos w = norm_step (snd <$> st) w.
Proof.
  intros H. unfold index_step, norm_step.
  destruct (decide (w = [])) as [->|]; [by destruct H as [->|]|]. destruct (decide (w = [DOT])); [done|].
  destruct (decide (w = [DOT; DOT])); [by rewrite fmap_take, length_fmap|by rewrite fmap_app].
Qed.

Lemma index_words_norm ws pos st :
  snd <$> index_words pos ws st =
  let r := foldl norm_step (snd <$> st) ws in if decide (r = [] ∧ last ws = Some []) then [[]] else r.
Proof.
  revert pos st. induction ws as [|w ws IH]; intros pos st.
  - simpl. rewrite decide_False; [done|by intros [_ ?]].
  - cbn [index_words foldl]. rewrite IH. destruct ws as [|w' ws].
    + rewrite bool_decide_true by done. cbn [foldl]. rewrite (decide_False (P := _ ∧ last [] = _)) by (by intros [_ ?]).
      cbn zeta. destruct (decide (w = [])) as [->|Hw].
      * destruct st as [|e st]; [done|]. by rewrite decide_False by (by intros [? _]).
      * rewrite (decide_False (P := _ ∧ last [w] = _)) by (by intros [_ [= ?]]). apply index_step_norm. by right.
    + rewrite (last_cons_ne w (w' :: ws)) by done. rewrite bool_decide_false by done.
      by rewrite index_step_norm by (by left).
Qed.

(** ** The second loop copies the words *)

(** [e] is the index of a word of [src] that is followed by [c] *)
Definition at_word (src : list Z) (c : Z) (e : Z * list Z) : Prop :=
  word_ok e.2 ∧ e.1 + 1 + lenZ e.2 < MAX_PATH ∧ ∃ a b, src = a ++ SLASH :: e.2 ++ c :: b ∧ lenZ a = e.1.

(** all words but the last are followed by a slash *)
Definition at_words (src : list Z) (st : list (Z * list Z)) : Prop :=
  ∃ st0 tl, st = st0 ++ tl ∧ Forall (at_word src SLASH) st0 ∧ (tl = [] ∨ ∃ e, tl = [e] ∧ at_word src 0 e).

Lemma index_step_at src c b st pos w :
  Forall (at_word src SLASH) st → at_word src c (pos, w) → c = SLASH ∨ c = 0 →
  (c = SLASH → Forall (at_word src SLASH) (index_step b st pos w)) ∧ at_words src (index_step b st pos w).
Proof.
  intros Hst Hw Hc.
  assert (∀ st', Forall (at_word src SLASH) st' → (c = SLASH → Forall (at_word src SLASH) st') ∧ at_words src st') as Hplain.
  { intros st' H. split; [done|]. exists st', []. rewrite app_nil_r. auto. }
  assert (∀ st', Forall (at_word src SLASH) st' →
    (c = SLASH → Forall (at_word src SLASH) (st' ++ [(pos, w)])) ∧ at_words src (st' ++ [(pos, w)])) as Hpush.
  { intros st' H. split; [intros ->; by apply Forall_app_2; [|apply Forall_singleton]|].
    destruct Hc as [->| ->].
    - exists (st' ++ [(pos, w)]), []. rewrite app_nil_r. split_and!; [done|by apply Forall_app_2; [|apply Forall_singleton]|auto].
    - exists st', [(pos, w)]. split_and!; [done|done|right; by exists (pos, w)]. }
  unfold index_step. repeat case_decide; auto using Forall_take.
  destruct b, st; simpl; auto. by apply (Hpush []).
Qed.

Lemma index_words_at ws src a b st :
  src = a ++ join ws ++ 0 :: b → Forall word_ok ws → lenZ a + lenZ (join ws) < MAX_PATH →
  Forall (at_word src SLASH) st → at_words src (index_words (lenZ a) ws st).
Proof.
  intros Es Hok. revert a st Es. induction Hok as [|w ws Hw Hok IH]; intros a st Es Hlen Hst.
  - exists st, []. rewrite app_nil_r. simpl. auto.
  - rewrite join_cons in Es, Hlen. cbn [app length] in Es, Hlen. rewrite length_app in Hlen. rewrite <-app_assoc in Es.
    cbn [index_words]. destruct ws as [|w' ws].
    + eapply (index_step_at src 0); [done| |by right]. split_and!; [done|simpl; lia|]. exists a, b. done.
    + replace (lenZ a + 1 + lenZ w) with (lenZ (a ++ SLASH :: w)) by (rewrite length_app; simpl; lia). apply IH.
      * by rewrite Es, <-app_assoc.
      * rewrite length_app. simpl in *. lia.
      * eapply (index_step_at src SLASH); [done| |by left|done]. split_and!; [done|simpl; lia|].
        exists a, (w' ++ join ws ++ 0 :: b). split; [|done]. rewrite Es, join_cons. simpl. by rewrite <-app_assoc.
Qed.

Lemma length_index_words ws pos st :
  lenZ (join (snd <$> index_words pos ws st)) ≤ lenZ (join (snd <$> st)) + lenZ (join ws).
Proof.
  revert pos st. induction ws as [|w ws IH]; intros pos st; [simpl; lia|]. cbn [index_words]. etrans; [apply IH|].
  rewrite (join_cons w). cbn [length]. rewrite length_app.
  assert (lenZ (join (snd <$> index_step (bool_decide (ws = [])) st pos w)) ≤ lenZ (join (snd <$> st)) + 1 + lenZ w); [|lia].
  unfold index_step. repeat case_decide; subst; try (simpl; lia).
  - destruct (bool_decide _), st; simpl; lia.
  - rewrite <-(take_drop (pred (length st)) st) at 3. rewrite fmap_app, join_app, length_app. lia.
  - rewrite fmap_app, join_app, length_app. unfold join at 2. simpl. rewrite app_nil_r. lia.
Qed.

Lemma find_word_end_ok n src a w c b :
  src = a ++ w ++ c :: b → word_ok w → c = SLASH ∨ c = 0 → (length w < n)%nat →
  find_word_end n src (lenZ a) = Some (lenZ a + lenZ w + (if ! c then 1 else 0)).
Proof.
  intros Es Hw Hc. revert n a Es. induction Hw as [|x w (Hx0 & Hxs & _) Hw IH]; intros [|n] a Es Hn; try (simpl in Hn; lia);
    cbn [find_word_end].
  - assert (array_get src (lenZ a) = Some c) as -> by (rewrite Es; apply array_get_mid). rewrite obind.
    destruct Hc as [->| ->]; simpl; f_equal; lia.
  - assert (array_get src (lenZ a) = Some x) as -> by (rewrite Es; apply array_get_mid). rewrite obind.
    rewrite (proj2 (Z.eqb_neq x SLASH)), (proj2 (ctrue_true x)) by done. cbn [negb].
    replace (lenZ a + 1) with (lenZ (a ++ [x])) by (rewrite length_app; simpl; lia).
    rewrite IH; [|by rewrite Es, <-app_assoc|simpl in Hn; lia]. f_equal. rewrite length_app. simpl. lia.
Qed.

Lemma copy_word_ok w src a b dst iptr :
  src = a ++ w ++ b → 0 ≤ iptr → iptr + lenZ w ≤ lenZ dst →
  copy_word (length w) dst src iptr (lenZ a) = Some (overlay dst iptr w, iptr + lenZ w).
Proof.
  revert a dst iptr. induction w as [|x w IH]; intros a dst iptr Es Hi Hd; cbn [length copy_word].
  - by rewrite overlay_nil, Z.add_0_r.
  - assert (array_get src (lenZ a) = Some x) as -> by (rewrite Es; apply array_get_mid). rewrite obind. simpl in Hd.
    rewrite array_set_overlay by lia. rewrite obind.
    replace (lenZ a + 1) with (lenZ (a ++ [x])) by (rewrite length_app; simpl; lia).
    rewrite IH; [|by rewrite Es, <-app_assoc|lia|rewrite length_overlay; simpl; lia].
    replace (iptr + 1) with (iptr + lenZ [x]) by done. rewrite overlay_app by lia. simpl. do 2 f_equal. lia.
Qed.

(** one round of the second loop *)
Lemma reform_word src c e st dst iptr :
  at_word src c e → c = SLASH ∨ c = 0 → 0 ≤ iptr →
  let out := (SLASH :: e.2) ++ (if ! c then [0] else []) in
  iptr + lenZ out ≤ lenZ dst →
  reform_path (e.1 :: st) dst src iptr = reform_path st (overlay dst iptr out) src (iptr + lenZ out).
Proof.
  destruct e as [p w]. intros (Hw & Hp & a & b & Es & Ha) Hc Hi out Hd. cbn [fst snd reform_path] in *. subst p.
  replace (lenZ a + 1) with (lenZ (a ++ [SLASH])) by (rewrite length_app; simpl; lia).
  rewrite (find_word_end_ok _ src _ w c b); [|by rewrite Es, <-app_assoc|done|done|rewrite length_app; simpl; lia].
  rewrite obind. assert (∃ b', src = a ++ out ++ b') as [b' Es'].
  { unfold out. destruct Hc as [->| ->]; simpl; [exists (SLASH :: b)|exists b]; rewrite Es; [by rewrite app_nil_r|by rewrite <-app_assoc]. }
  replace (Z.to_nat _) with (length out).
  - by rewrite (copy_word_ok out src a b' dst iptr Es' Hi Hd).
  - unfold out. rewrite !length_app. destruct (! c); simpl; lia.
Qed.

Lemma reform_words src st dst iptr :
  Forall (at_word src SLASH) st → 0 ≤ iptr → iptr + lenZ (join (snd <$> st)) ≤ lenZ dst →
  ∀ tl, reform_path ((fst <$> st) ++ tl) dst src iptr =
        reform_path tl (overlay dst iptr (join (snd <$> st))) src (iptr + lenZ (join (snd <$> st))).
Proof.
  intros Hst. revert dst iptr. induction Hst as [|e st He Hst IH]; intros dst iptr Hi Hd tl.
  - simpl. by rewrite overlay_nil, Z.add_0_r.
  - cbn [fmap list_fmap] in *. rewrite join_cons in *. cbn [app length] in *. rewrite length_app in *.
    rewrite (reform_word src SLASH e) by (done || (by left) || (simpl; rewrite app_nil_r; simpl; lia)).
    cbn [negb ctrue]. change (! SLASH) with false. cbv iota. rewrite app_nil_r.
    rewrite IH; [|simpl; lia|rewrite length_overlay; simpl; lia].
    rewrite overlay_app by lia. f_equal. simpl. lia.
Qed.

Lemma reform_all src st dst :
  at_words src st → lenZ (join (snd <$> st)) + 2 ≤ lenZ dst →
  ∃ z, (z = [] ∨ z = [0]) ∧
    reform_path (fst <$> st) dst src 0 = Some (overlay dst 0 (join (snd <$> st) ++ z), lenZ (join (snd <$> st) ++ z)).
Proof.
  intros (st0 & tl & -> & Hst & Htl) Hd. rewrite !fmap_app, join_app in *. rewrite length_app in Hd.
  rewrite reform_words by (done || lia). destruct Htl as [->|(e & -> & He)].
  - exists []. split; [by left|]. simpl. by rewrite !app_nil_r.
  - exists [0]. split; [by right|]. cbn [fmap list_fmap] in *. unfold join in Hd at 2. simpl in Hd. rewrite app_nil_r in Hd.
    rewrite (reform_word src 0 e) by (done || (by right) || lia || (rewrite ?length_overlay; simpl; rewrite ?length_app; simpl; lia)).
    change (! 0) with true. cbv iota. cbn [reform_path]. rewrite overlay_app by lia.
    assert (join [e.2] = SLASH :: e.2) as -> by (unfold join; simpl; by rewrite app_nil_r).
    rewrite <-app_assoc. apply (f_equal (λ k, Some (_, k))). rewrite (length_app (join _)). simpl. rewrite !length_app. simpl. lia.
Qed.

Lemma canonical_index ws pos : join (snd <$> index_words pos ws []) = canonical ws.
Proof.
  rewrite index_words_norm. cbn [fmap list_fmap]. unfold canonical. fold (norm ws). cbn zeta.
  destruct (norm ws) as [|w ws'].
  - destruct (decide (last ws = Some [])); [by rewrite decide_True|]. by rewrite decide_False by (by intros [_ ?]).
  - by rewrite decide_False by (by intros [? _]).
Qed.

Lemma overlay_holds dst s z : holds (s ++ [0]) s → lenZ s + lenZ z ≤ lenZ dst → (∃ z', z = 0 :: z') → holds (overlay dst 0 (s ++ z)) s.
Proof.
  intros [Hs _] Hd [z' ->]. split; [done|]. unfold overlay. simpl. exists (z' ++ drop (length (s ++ 0 :: z')) dst).
  by rewrite <-app_assoc.
Qed.

Lemma join_nonzero ws : Forall word_ok ws → Forall (λ x, x ≠ 0) (join ws).
Proof.
  induction 1 as [|w ws Hw _ IH]; [constructor|]. rewrite join_cons. constructor; [done|]. apply Forall_app_2; [|done].
  eapply Forall_impl; [exact Hw|]. by intros x (? & _).
Qed.

Lemma norm_ok ws : Forall word_ok ws → ∀ st, Forall word_ok st → Forall word_ok (foldl norm_step st ws).
Proof.
  induction 1 as [|w ws Hw _ IH]; intros st Hst; [done|]. simpl. apply IH. unfold norm_step.
  repeat case_decide; auto using Forall_take. apply Forall_app_2; [done|by apply Forall_singleton].
Qed.

Lemma canonical_nonzero ws : Forall word_ok ws → Forall (λ x, x ≠ 0) (canonical ws).
Proof.
  intros H. pose proof (norm_ok ws H [] (Forall_nil_2 _)) as Hn. unfold canonical. fold (norm ws) in Hn.
  destruct (norm ws); [case_decide; [by apply Forall_singleton|constructor]|by apply join_nonzero].
Qed.

(** *** The function on an absolute path *)
Definition path_buffer (src : list Z) (ws : list (list Z)) : Prop :=
  ws ≠ [] ∧ Forall word_ok ws ∧ holds src (join ws) ∧ lenZ (join ws) + 2 ≤ MAX_PATH.

Lemma length_canonical ws : lenZ (canonical ws) ≤ lenZ (join ws).
Proof. pose proof (length_index_words ws 0 []) as Hl. rewrite canonical_index in Hl. simpl in Hl. lia. Qed.

Lemma canonicalize_overlay ws src dst :
  path_buffer src ws → lenZ dst = MAX_PATH →
  ∃ z, (z = [0] ∨ z = [0; 0]) ∧ canonicalize_path_name dst src = Some (OK, overlay dst 0 (canonical ws ++ z)).
Proof.
  intros (Hne & Hok & [_ [r Es]] & Hlen) Hd. pose proof (length_join ws) as Hj. pose proof (length_canonical ws) as Hl.
  unfold canonicalize_path_name. set (st := index_words 0 ws []).
  assert (scan_words (Z.to_nat MAX_PATH) src 0 (-1) [] = Some (inr (fst <$> st))) as ->.
  { replace (Z.to_nat MAX_PATH) with (S (Z.to_nat (MAX_PATH - 1))) by done.
    destruct ws as [|w ws]; [done|]. cbn [scan_words]. assert (array_get src 0 = Some SLASH) as -> by (rewrite Es; by apply (array_get_mid [])).
    rewrite obind. change (SLASH =? BLANK) with false. change (negb (SLASH =? SLASH) && ctrue SLASH) with false.
    change ((-1 =? -1) && ctrue SLASH) with true. cbv iota.
    apply (scan_join (w :: ws) _ src [] r []); [done|done|done|lia|]. unfold MAX_PATH in *. cbn [length] in *. lia. }
  rewrite obind. assert (join (snd <$> st) = canonical ws) as E by apply canonical_index.
  destruct (reform_all src st dst) as (z & Hz & ->); [|rewrite E; lia|].
  { apply (index_words_at ws src [] r []); [done|done|simpl; lia|constructor]. }
  rewrite obind. cbv iota beta. rewrite E in *. assert (lenZ z ≤ 1) by (destruct Hz as [->| ->]; simpl; lia).
  rewrite array_set_overlay by (rewrite length_overlay, length_app by lia; unfold MAX_PATH in *; lia).
  rewrite obind. rewrite <-(Z.add_0_l (lenZ (canonical ws ++ z))), overlay_app, <-app_assoc by lia.
  eexists. split; [|done]. destruct Hz as [->| ->]; auto.
Qed.

Lemma canonicalize_ok ws src dst :
  path_buffer src ws → lenZ dst = MAX_PATH →
  ∃ dst', canonicalize_path_name dst src = Some (OK, dst') ∧ holds dst' (canonical ws) ∧ lenZ dst' = MAX_PATH.
Proof.
  intros Hp Hd. destruct (canonicalize_overlay ws src dst Hp Hd) as (z & Hz & ->). destruct Hp as (Hne & Hok & Hs & Hlen).
  pose proof (length_canonical ws). eexists. split; [done|]. split.
  - apply overlay_holds; [split; [by apply canonical_nonzero|by exists []]| |destruct Hz as [->| ->]; by eexists].
    destruct Hz as [->| ->]; simpl; lia.
  - rewrite length_overlay, length_app by lia. destruct Hz as [->| ->]; simpl; lia.
Qed.

(** *** The canonical path is canonical *)
Definition proper (w : list Z) : Prop := w ≠ [] ∧ w ≠ [DOT] ∧ w ≠ [DOT; DOT].

Definition canonical_words (ws : list (list Z)) : list (list Z) :=
  match norm ws with
  | [] => if decide (last ws = Some []) then [[]] else []
  | ws' => ws'
  end.

Lemma canonical_join ws : canonical ws = join (canonical_words ws).
Proof. unfold canonical, canonical_words. destruct (norm ws); [by case_decide|done]. Qed.

Lemma norm_proper ws st : Forall proper st → Forall proper (foldl norm_step st ws).
Proof.
  revert st. induction ws as [|w ws IH]; intros st Hst; [done|]. simpl. apply IH. unfold norm_step.
  repeat case_decide; auto using Forall_take. apply Forall_app_2; [done|by apply Forall_singleton].
Qed.

Lemma norm_id ws st : Forall proper ws → foldl norm_step st ws = st ++ ws.
Proof.
  intros H. revert st. induction H as [|w ws (H1 & H2 & H3) _ IH]; intros st; [by rewrite app_nil_r|]. simpl.
  assert (norm_step st w = st ++ [w]) as -> by (unfold norm_step; by rewrite !decide_False by done).
  rewrite IH, <-app_assoc. done.
Qed.

Lemma canonical_words_cases ws :
  canonical_words ws = [] ∨ canonical_words ws = [[]] ∨ (canonical_words ws ≠ [] ∧ Forall proper (canonical_words ws)).
Proof.
  pose proof (norm_proper ws [] (Forall_nil_2 _)) as Hn. fold (norm ws) in Hn.
  unfold canonical_words. destruct (norm ws); [case_decide; auto|]. right. right. done.
Qed.

Lemma canonical_idem ws : canonical (canonical_words ws) = canonical ws.
Proof.
  rewrite (canonical_join ws). destruct (canonical_words_cases ws) as [->|[->|[Hne Hp]]]; [done|done|].
  unfold canonical, norm. rewrite norm_id by done. cbn [app]. by destruct (canonical_words ws).
Qed.

Lemma canonical_words_ok ws : Forall word_ok ws → Forall word_ok (canonical_words ws).
Proof.
  intros H. pose proof (norm_ok ws H [] (Forall_nil_2 _)) as Hn. unfold canonical_words. fold (norm ws) in Hn.
  destruct (norm ws); [|done]. case_decide; [apply Forall_singleton; constructor|constructor].
Qed.

(** the empty path *)
Lemma canonicalize_empty dst r : lenZ dst = MAX_PATH → canonicalize_path_name dst (0 :: r) = Some (OK, overlay dst 0 [0]).
Proof.
  intros Hd. unfold canonicalize_path_name. replace (Z.to_nat MAX_PATH) with (S (Z.to_nat (MAX_PATH - 1))) by done.
  cbn [scan_words]. rewrite (array_get_mid [] 0 r : array_get (0 :: r) 0 = _), obind. simpl. rewrite obind. cbn [reform_path].
  rewrite obind. rewrite array_set_overlay by (unfold MAX_PATH in *; lia). done.
Qed.

Lemma canonicalize_idem ws src dst :
  Forall word_ok ws → lenZ (join ws) + 2 ≤ MAX_PATH → holds src (canonical ws) → lenZ dst = MAX_PATH →
  ∃ dst', canonicalize_path_name dst src = Some (OK, dst') ∧ holds dst' (canonical ws).
Proof.
  intros Hok Hlen Hs Hd. pose proof (length_canonical ws). destruct (decide (canonical_words ws = [])) as [E|Hne].
  - rewrite canonical_join, E in Hs |- *. destruct Hs as [_ [r ->]]. simpl. rewrite canonicalize_empty by done.
    eexists. split; [done|]. split; [constructor|]. eexists. unfold overlay. simpl. done.
  - destruct (canonicalize_ok (canonical_words ws) src dst) as (d & Hc & Hh & _); [|done|].
    + split_and!; [done|by apply canonical_words_ok|by rewrite <-canonical_join|rewrite <-canonical_join; lia].
    + exists d. rewrite canonical_idem in Hh. done.
Qed.

(** a blank in the path is an error and leaves [dst] alone *)
Lemma scan_blank s2 n src s1 r word_start st :
  src = s1 ++ s2 ++ BLANK :: r → Forall (λ c, c ≠ 0) s2 → (length s2 < n)%nat → (length st ≤ length s1)%nat →
  lenZ s1 + lenZ s2 < MAX_PATH → -1 ≤ word_start < lenZ s1 →
  scan_words n src (lenZ s1) word_start st = Some (inl (- ERR_INVALID_ARG)).
Proof.
  intros Es Hs. revert n s1 word_start st Es. induction Hs as [|c s2 Hc Hs IH]; intros n s1 word_start st Es Hn Hst Hlen Hws;
    (destruct n as [|n]; [simpl in Hn; lia|]); cbn [scan_words].
  { by assert (array_get src (lenZ s1) = Some BLANK) as -> by (rewrite Es; apply array_get_mid). }
  assert (array_get src (lenZ s1) = Some c) as -> by (rewrite Es; apply array_get_mid). rewrite obind.
  destruct (Z.eqb_spec c BLANK) as [->|Hcb]; [done|]. rewrite (proj2 (ctrue_true c)) by done.
  assert (∀ w st', -1 ≤ w < lenZ s1 + 1 → (length st' ≤ S (length st))%nat →
    scan_words n src (lenZ s1 + 1) w st' = Some (inl (- ERR_INVALID_ARG))) as Hgo.
  { intros w st' Hw Hst'. replace (lenZ s1 + 1) with (lenZ (s1 ++ [c])) in * by (rewrite length_app; simpl; lia).
    apply IH; [by rewrite Es, <-app_assoc|simpl in Hn; lia| | |done]; rewrite length_app; simpl in *; lia. }
  assert (∀ k, 0 ≤ k ≤ lenZ s1 → ∃ x, array_get src k = Some x) as Hget.
  { intros k Hk. destruct (lookup_lt_is_Some_2 src (Z.to_nat k)) as [x Hx]; [rewrite Es, !length_app; simpl; lia|].
    exists x. apply array_get_ok; [done|lia]. }
  assert (push_index st word_start = Some (st ++ [word_start])) as Hpush.
  { unfold push_index. rewrite (proj2 (Nat.ltb_lt _ _)); [done|]. unfold MAX_PATH in *. simpl in Hlen. lia. }
  cbn [negb andb]. rewrite andb_true_r, andb_false_r. destruct (Z.eqb_spec c SLASH) as [->|Hcs]; cbn [negb]; [|apply Hgo; lia].
  destruct (Z.eqb_spec word_start (-1)) as [->|Hw]; cbn [andb]; [apply Hgo; lia|].
  destruct (Z.eqb_spec (lenZ s1 - word_start) 1) as [E1|E1]; [rewrite obind; apply Hgo; lia|].
  destruct (Hget (lenZ s1 - 1)) as [c1 ->]; [lia|]. rewrite obind.
  destruct ((lenZ s1 - word_start =? 2) && (c1 =? DOT)); [rewrite obind; apply Hgo; lia|].
  assert (∃ c2, (if lenZ s1 - word_start =? 3 then array_get src (lenZ s1 - 2) else Some 0) = Some c2) as [c2 ->].
  { destruct (Z.eqb_spec (lenZ s1 - word_start) 3); [apply Hget; lia|by exists 0]. }
  rewrite obind. destruct (_ && _ && _); rewrite ?Hpush, !obind; apply Hgo; try lia;
    rewrite ?length_take, ?length_app; simpl; lia.
Qed.

Lemma canonicalize_blank dst s r :
  Forall (λ c, c ≠ 0) s → lenZ s < MAX_PATH → canonicalize_path_name dst (s ++ BLANK :: r) = Some (- ERR_INVALID_ARG, dst).
Proof.
  intros Hs Hlen. unfold canonicalize_path_name.
  rewrite (scan_blank s _ (s ++ BLANK :: r) [] r (-1) []); [done|done|done|unfold MAX_PATH in *; lia|done|simpl; lia|simpl; lia].
Qed.

(** ** The mount table *)

(** a 256-byte path buffer that was cleared before the string was written *)
Definition padded (s b : list Z) : Prop :=
  Forall (λ x, x ≠ 0) s ∧ lenZ s < MAX_PATH ∧ b = s ++ replicate (Z.to_nat (MAX_PATH - lenZ s)) 0.

Lemma padded_zeros (s : list Z) : lenZ s < MAX_PATH →
  replicate (Z.to_nat (MAX_PATH - lenZ s)) (0 : Z) = 0 :: replicate (Z.to_nat (MAX_PATH - lenZ s - 1)) 0.
Proof. intros H. by replace (Z.to_nat (MAX_PATH - lenZ s)) with (S (Z.to_nat (MAX_PATH - lenZ s - 1))) by lia. Qed.

Lemma padded_holds s b : padded s b → holds b s.
Proof. intros (Hs & Hlen & ->). split; [done|]. rewrite padded_zeros by done. by eexists. Qed.

Lemma padded_text s b : padded s b → text b = s.
Proof. intros H. by apply holds_text, padded_holds. Qed.

Lemma padded_length s b : padded s b → lenZ b = MAX_PATH.
Proof. intros (_ & H & ->). rewrite length_app, length_replicate. lia. Qed.

Lemma zero_path_drop k : 0 ≤ k → drop (Z.to_nat k) zero_path = replicate (Z.to_nat (MAX_PATH - k)) 0.
Proof. intros H. unfold zero_path. rewrite drop_replicate. f_equal. lia. Qed.

Lemma length_zero_path : lenZ zero_path = MAX_PATH.
Proof. unfold zero_path. rewrite length_replicate. unfold MAX_PATH. lia. Qed.

Lemma canonicalize_padded ws src :
  path_buffer src ws → ∃ c, canonicalize_path_name zero_path src = Some (OK, c) ∧ padded (canonical ws) c.
Proof.
  intros Hp. destruct (canonicalize_overlay ws src zero_path Hp length_zero_path) as (z & Hz & ->).
  destruct Hp as (Hne & Hok & _ & Hlen). pose proof (length_canonical ws).
  eexists. split; [done|]. split_and!; [by apply canonical_nonzero|lia|]. unfold overlay. simpl. rewrite <-app_assoc. f_equal.
  replace (length (canonical ws ++ z)) with (Z.to_nat (lenZ (canonical ws) + lenZ z)) by (rewrite length_app; lia).
  rewrite zero_path_drop by lia. destruct Hz as [->| ->].
  - change [0] with (replicate 1 0). rewrite <-replicate_add. f_equal. simpl. lia.
  - change [0; 0] with (replicate 2 0). rewrite <-replicate_add. f_equal. simpl. lia.
Qed.

Definition mount_name (e : mount_entry) : list Z := text (mount_point e).

(** at most one entry per mount point, every one a clean path buffer *)
Definition mounts_ok (es : list mount_entry) : Prop :=
  lenZ es = MOUNT_ENTRY_SIZE ∧
  (∀ i e, es !! i = Some e → mount_valid e = true → padded (mount_name e) (mount_point e)) ∧
  (∀ i j e e', es !! i = Some e → es !! j = Some e' → mount_valid e = true → mount_valid e' = true →
     mount_name e = mount_name e' → i = j).

Lemma nul_index_ok s b n a :
  padded s b → (length a ≤ length s)%nat → a = take (length a) s → (length s - length a < n)%nat →
  nul_index n b (lenZ a) = Some (Some (lenZ s)).
Proof.
  intros (Hs & Hlen & Eb). rewrite padded_zeros in Eb by done. revert a. induction n as [|n IH]; intros a Hle Ha Hn; [lia|].
  cbn [nul_index]. destruct (decide (length a = length s)) as [E|Hne].
  - assert (a = s) as -> by (rewrite Ha, E; by rewrite take_ge by lia). rewrite Eb, array_get_mid. done.
  - destruct (lookup_lt_is_Some_2 s (length a)) as [x Hx]; [lia|].
    assert (array_get b (lenZ a) = Some x) as -> by (apply array_get_ok; [rewrite Nat2Z.id, Eb; by apply lookup_app_l_Some|lia]).
    rewrite obind. rewrite Forall_lookup in Hs. rewrite (proj2 (ctrue_true x)) by eauto. cbn [negb].
    replace (lenZ a + 1) with (lenZ (a ++ [x])) by (rewrite length_app; simpl; lia).
    apply IH; rewrite length_app; cbn [length]; try lia. rewrite Nat.add_1_r. by rewrite (take_S_r _ _ x Hx), <-Ha.
Qed.

(** the candidates for a path are the mount points that are a prefix of it *)
Definition candidate (c : list Z) (e : mount_entry) : Prop := mount_valid e = true ∧ mount_name e `prefix_of` c.

Definition best_fit (c : list Z) (es : list mount_entry) (best : Z) : Prop :=
  (best = -1 ∧ ∀ e, e ∈ es → ¬ candidate c e) ∨
  (∃ e, 0 ≤ best ∧ es !! Z.to_nat best = Some e ∧ candidate c e ∧
        ∀ e', e' ∈ es → candidate c e' → lenZ (mount_name e') ≤ lenZ (mount_name e)).

Lemma search_mount_loop_ok c c_name es pre best deg tmp :
  padded c c_name →
  (∀ e, e ∈ es → mount_valid e = true → padded (mount_name e) (mount_point e)) →
  best_fit c pre best → (∀ e, 0 ≤ best → pre !! Z.to_nat best = Some e → deg = lenZ (mount_name e)) →
  ∃ r, search_mount_loop es (lenZ pre) best deg tmp c_name = Some r ∧ best_fit c (pre ++ es) r.
Proof.
  intros Hc. revert pre best deg tmp. induction es as [|e es IH]; intros pre best deg tmp Hes Hbest Hdeg.
  - exists best. by rewrite app_nil_r.
  - cbn [search_mount_loop]. replace (lenZ pre + 1) with (lenZ (pre ++ [e])) by (rewrite length_app; simpl; lia).
    replace (pre ++ e :: es) with ((pre ++ [e]) ++ es) by (by rewrite <-app_assoc).
    assert (∀ e', e' ∈ es → mount_valid e' = true → padded (mount_name e') (mount_point e')) as Hes' by (intros; apply Hes; [by right|done]).
    assert (∀ best' e', 0 ≤ best' → pre !! Z.to_nat best' = Some e' → (pre ++ [e]) !! Z.to_nat best' = Some e') as Hold
      by (intros; by apply lookup_app_l_Some).
    assert (¬ candidate c e ∨ (candidate c e ∧ ∃ e', 0 ≤ best ∧ pre !! Z.to_nat best = Some e' ∧ lenZ (mount_name e) ≤ lenZ (mount_name e')) →
      ∀ tmp', ∃ r, search_mount_loop es (lenZ (pre ++ [e])) best deg tmp' c_name = Some r ∧ best_fit c ((pre ++ [e]) ++ es) r) as Hskip.
    { intros Hcase tmp'. apply IH; [done| |].
      - destruct Hbest as [[-> Hno]|(e0 & H0 & He0 & Hc0 & Hmax)].
        + destruct Hcase as [Hn|(_ & e' & ? & _)]; [|lia]. left. split; [done|]. intros e'. rewrite elem_of_app, list_elem_of_singleton.
          intros [?| ->]; auto.
        + right. exists e0. split_and!; [done|by apply Hold|done|]. intros e'. rewrite elem_of_app, list_elem_of_singleton.
          intros [?| ->] Hce; [auto|]. destruct Hcase as [?|(_ & e'' & _ & He'' & ?)]; [done|]. congruence.
      - intros e' H0 He'. destruct Hbest as [[-> _]|(e0 & _ & He0 & _)]; [lia|]. rewrite (Hold best e0) in He' by done.
        apply Hdeg; congruence. }
    destruct (mount_valid e) eqn:Hv; cbn [negb]; [|apply Hskip; left; intros [? _]; congruence].
    pose proof (Hes e (list_elem_of_here _ _) Hv) as Hpe.
    destruct (start_with_ok c_name c (mount_point e) (mount_name e)) as (d & -> & Hd); [by apply padded_holds|by apply padded_holds|].
    rewrite obind. destruct (ctrue d) eqn:Ed.
    { apply Hskip. left. intros [_ Hpre]. apply Hd in Hpre. subst d. done. }
    apply ctrue_false in Ed. apply Hd in Ed. assert (candidate c e) as Hce by done.
    rewrite (nul_index_ok (mount_name e) (mount_point e) _ []); [|done|simpl; lia|done|destruct Hpe as (_ & ? & _); unfold MAX_PATH in *; simpl; lia].
    rewrite obind. cbn [default from_option id].
    destruct (Z.eqb_spec best (-1)) as [->|Hb]; cbn [orb].
    + apply IH; [done| |].
      * destruct Hbest as [[_ Hno]|(e0 & ? & _)]; [|lia]. right. exists e. split_and!; [lia|by rewrite Nat2Z.id, list_lookup_middle|done|].
        intros e'. rewrite elem_of_app, list_elem_of_singleton. intros [?| ->] ?; [by edestruct Hno|done].
      * intros e' _ He'. rewrite Nat2Z.id, list_lookup_middle in He' by done. congruence.
    + destruct Hbest as [[? _]|(e0 & H0 & He0 & Hc0 & Hmax)]; [done|]. rewrite (Hdeg e0) in * by done.
      destruct (Z.ltb_spec (lenZ (mount_name e0)) (lenZ (mount_name e))) as [Hlt|Hge].
      * apply IH; [done| |].
        -- right. exists e. split_and!; [lia|by rewrite Nat2Z.id, list_lookup_middle|done|].
           intros e'. rewrite elem_of_app, list_elem_of_singleton. intros [?| ->] ?; [|done]. etrans; [by apply Hmax|lia].
        -- intros e' _ He'. rewrite Nat2Z.id, list_lookup_middle in He' by done. congruence.
      * apply Hskip. right. split; [done|]. exists e0. done.
Qed.

(** *** [resolve_subpath] *)
Lemma common_length_prefix s n a x y :
  common_length (length s + n) (lenZ a) (a ++ s ++ x) (a ++ s ++ y) =
  common_length n (lenZ a + lenZ s) (a ++ s ++ x) (a ++ s ++ y).
Proof.
  revert a. induction s as [|c s IH]; intros a; [by simpl; rewrite Z.add_0_r|]. cbn [length Nat.add common_length app].
  rewrite !array_get_mid, !obind, Z.eqb_refl. cbn [negb].
  replace (a ++ c :: s ++ x) with ((a ++ [c]) ++ s ++ x) by (by rewrite <-app_assoc).
  replace (a ++ c :: s ++ y) with ((a ++ [c]) ++ s ++ y) by (by rewrite <-app_assoc).
  replace (lenZ a + 1) with (lenZ (a ++ [c])) by (rewrite length_app; simpl; lia). rewrite IH. f_equal.
  rewrite length_app. simpl. lia.
Qed.

Lemma common_length_same b : common_length (length b) 0 b b = Some (lenZ b).
Proof.
  pose proof (common_length_prefix b 0 [] [] []) as H. rewrite Nat.add_0_r in H. simpl in H. rewrite app_nil_r in H. exact H.
Qed.

Lemma copy_rest_ok rest src a b n iptr_dst sub :
  src = a ++ rest ++ 0 :: b → Forall (λ x, x ≠ 0) rest → (length rest < n)%nat → 0 ≤ iptr_dst → iptr_dst + lenZ rest ≤ lenZ sub →
  copy_rest n (lenZ a) iptr_dst src sub = Some (overlay sub iptr_dst rest).
Proof.
  intros Es Hr. revert a n iptr_dst sub Es. induction Hr as [|c rest Hc Hr IH]; intros a n iptr_dst sub Es Hn Hi Hs;
    (destruct n as [|n]; [simpl in Hn; lia|]); cbn [copy_rest].
  - assert (array_get src (lenZ a) = Some 0) as -> by (rewrite Es; apply array_get_mid). by rewrite obind, overlay_nil.
  - assert (array_get src (lenZ a) = Some c) as -> by (rewrite Es; apply array_get_mid). rewrite obind.
    rewrite (proj2 (ctrue_true c)) by done. cbn [negb]. simpl in Hs. rewrite array_set_overlay, obind by lia.
    replace (lenZ a + 1) with (lenZ (a ++ [c])) by (rewrite length_app; simpl; lia).
    rewrite IH; [|by rewrite Es, <-app_assoc|simpl in Hn; lia|lia|rewrite length_overlay; simpl; lia].
    replace (iptr_dst + 1) with (iptr_dst + lenZ [c]) by done. rewrite overlay_app by lia. done.
Qed.

Lemma overlay_zero_path s : Forall (λ x, x ≠ 0) s → lenZ s < MAX_PATH → padded s (overlay zero_path 0 s).
Proof.
  intros Hs Hlen. split_and!; [done|done|]. unfold overlay. simpl. f_equal.
  replace (length s) with (Z.to_nat (lenZ s)) at 1 by lia. apply zero_path_drop. lia.
Qed.

Definition rest_path (rest : list Z) : list Z := if decide (rest = []) then [SLASH] else rest.

Lemma resolve_subpath_ok ws path e rest :
  path_buffer path ws → padded (mount_name e) (mount_point e) → canonical ws = mount_name e ++ rest →
  ∃ sub, resolve_subpath zero_path path e = Some sub ∧ padded (rest_path rest) sub.
Proof.
  intros Hp Hm Hr. destruct (canonicalize_padded ws path Hp) as (c & Hcan & Hc). unfold resolve_subpath. rewrite Hcan, obind. cbv iota beta.
  pose proof Hm as (Hs & Hslen & Em). pose proof Hc as (Hcs & Hclen & Ec). unfold rest_path. case_decide as Hrest.
  - subst rest. rewrite app_nil_r in Hr. rewrite Hr in Ec. rewrite <-Em in Ec. subst c.
    replace (Z.to_nat MAX_PATH) with (length (mount_point e)) by (pose proof (padded_length _ _ Hm); lia).
    rewrite common_length_same, obind, (padded_length _ _ Hm), Z.sub_diag.
    change (copy_rest (Z.to_nat 0) MAX_PATH 0 (mount_point e) zero_path) with (Some zero_path). rewrite obind.
    eexists. split; [vm_compute; reflexivity|]. split_and!; [by apply Forall_singleton|done|done].
  - rewrite Hr in Ec, Hcs, Hclen. apply Forall_app in Hcs as [_ Hrs]. rewrite <-app_assoc in Ec.
    rewrite padded_zeros in Em by done. rewrite padded_zeros in Ec by done. rewrite length_app in Hclen.
    destruct rest as [|x rest]; [done|]. apply Forall_cons in Hrs as [Hx Hrs]. set (s := mount_name e) in *.
    assert (common_length (Z.to_nat MAX_PATH) 0 c (mount_point e) = Some (lenZ s)) as ->.
    { transitivity (common_length (Z.to_nat MAX_PATH) (lenZ (@nil Z)) ([] ++ c) ([] ++ mount_point e)); [done|].
      replace (Z.to_nat MAX_PATH) with (length s + S (Z.to_nat (MAX_PATH - lenZ s - 1)))%nat by lia.
      rewrite Ec, Em. rewrite (common_length_prefix s _ []). cbn [app length common_length].
      rewrite Z.add_0_l, !array_get_mid, !obind. by rewrite (proj2 (Z.eqb_neq x 0)). }
    rewrite obind. rewrite (copy_rest_ok (x :: rest) c s _ _ 0 zero_path Ec); [|by constructor|simpl in *; lia|done|rewrite length_zero_path; lia].
    rewrite obind. assert (padded (x :: rest) (overlay zero_path 0 (x :: rest))) as Hpad by (apply overlay_zero_path; [by constructor|lia]).
    replace (array_get (overlay zero_path 0 (x :: rest)) 0) with (Some x) by done. rewrite obind.
    rewrite (proj2 (ctrue_true x)) by done. cbn [negb]. by eexists.
Qed.

(** *** [register_file_system] *)

(** [e] is mounted at the path or below it *)
Definition conflicts (c : list Z) (e : mount_entry) : Prop :=
  mount_valid e = true ∧ (mount_name e = c ∨ (c ++ [SLASH]) `prefix_of` mount_name e).
Definition taken (e : mount_entry) : Prop := mount_valid e = true.
#[global] Instance taken_dec e : Decision (taken e).
Proof. unfold taken. apply _. Defined.

Lemma conflict_byte c e :
  padded (mount_name e) (mount_point e) → c `prefix_of` mount_name e →
  ∃ b, array_get (mount_point e) (lenZ c) = Some b ∧ (b = 0 ∨ b = SLASH ↔ mount_name e = c ∨ (c ++ [SLASH]) `prefix_of` mount_name e).
Proof.
  intros (Hs & Hlen & ->) [r Hr]. rewrite padded_zeros by done. rewrite Hr in *. rewrite <-app_assoc.
  apply Forall_app in Hs as [_ Hs]. destruct r as [|x r]; cbn [app].
  - exists 0. split; [apply array_get_mid|]. rewrite app_nil_r. split; auto.
  - apply Forall_cons in Hs as [Hx _]. exists x. split; [apply array_get_mid|]. split.
    + intros [?| ->]; [done|]. right. exists r. by rewrite <-app_assoc.
    + intros [E|[k Hk]].
      * apply (f_equal length) in E. rewrite length_app in E. simpl in E. lia.
      * rewrite <-app_assoc in Hk. apply app_inv_head in Hk. injection Hk. auto.
Qed.

(** the index of the first free entry, as the loop finds it *)
Definition first_free (idx : Z) (es : list mount_entry) : Z :=
  match list_find (λ e, ¬ taken e) es with Some (k, _) => idx + Z.of_nat k | None => -1 end.

Lemma register_loop_ok c c_name es idx target :
  padded c c_name → 0 ≤ idx →
  (∀ e, e ∈ es → mount_valid e = true → padded (mount_name e) (mount_point e)) →
  (register_loop es idx target c_name = Some (inl (- ERR_INVALID_ARG)) ∧ ∃ e, e ∈ es ∧ conflicts c e) ∨
  (register_loop es idx target c_name = Some (inr (if target =? -1 then first_free idx es else target)) ∧
   ∀ e, e ∈ es → ¬ conflicts c e).
Proof.
  intros Hc. revert idx target. induction es as [|e es IH]; intros idx target Hi Hes.
  { right. split; [cbn; destruct (Z.eqb_spec target (-1)); congruence|]. intros e He. by apply not_elem_of_nil in He. }
  assert (∀ e', e' ∈ es → mount_valid e' = true → padded (mount_name e') (mount_point e')) as Hes' by (intros; apply Hes; [by right|done]).
  cbn [register_loop].
  assert (¬ conflicts c e → ∀ target',
    (if target' =? -1 then first_free (idx + 1) es else target') = (if target =? -1 then first_free idx (e :: es) else target) →
    (register_loop es (idx + 1) target' c_name = Some (inl (- ERR_INVALID_ARG)) ∧ ∃ e', e' ∈ e :: es ∧ conflicts c e') ∨
    (register_loop es (idx + 1) target' c_name = Some (inr (if target =? -1 then first_free idx (e :: es) else target)) ∧
     ∀ e', e' ∈ e :: es → ¬ conflicts c e')) as Hgo.
  { intros Hn target' Ht. destruct (IH (idx + 1) target' ltac:(lia) Hes') as [(-> & e' & He' & Hcf)|(-> & Hno)].
    - left. split; [done|]. exists e'. split; [by right|done].
    - right. split; [by rewrite Ht|]. intros e' [->|He']%elem_of_cons; auto. }
  assert (mount_valid e = true → first_free idx (e :: es) = first_free (idx + 1) es) as Hff.
  { intros Hv. unfold first_free. cbn [list_find]. rewrite decide_False by (intros Hn; by apply Hn).
    destruct (list_find _ es) as [[k ?]|]; simpl; lia. }
  destruct (mount_valid e) eqn:Hv; cbn [negb].
  - pose proof (Hes e (list_elem_of_here _ _) Hv) as Hpe.
    destruct (start_with_ok (mount_point e) (mount_name e) c_name c) as (d & -> & Hd); [by apply padded_holds|by apply padded_holds|].
    rewrite obind. destruct (ctrue d) eqn:Ed.
    { apply Hgo; [|by rewrite Hff]. intros [_ Hcf]. cut (d = 0); [by intros ->|]. apply Hd. destruct Hcf as [->|Hcf]; [done|].
      etrans; [by eexists|exact Hcf]. }
    apply ctrue_false, Hd in Ed. destruct Hc as (Hcs & Hclen & Ec).
    unfold strlen. rewrite (strlen_from_ok _ c) by (done || (apply padded_holds; done) || (unfold MAX_PATH in *; lia)).
    rewrite obind, Z.add_0_l. destruct (conflict_byte c e Hpe Ed) as (b & -> & Hb). rewrite obind.
    destruct (! b || (b =? SLASH)) eqn:Eb.
    + left. split; [done|]. exists e. split; [by left|]. split; [done|]. apply Hb. unfold ctrue in Eb. lia.
    + apply Hgo; [|by rewrite Hff]. intros [_ Hcf]. apply Hb in Hcf. unfold ctrue in Eb. lia.
  - apply Hgo; [by intros [? _]; congruence|].
    assert (first_free idx (e :: es) = idx) as ->.
    { unfold first_free. cbn [list_find]. rewrite decide_True by (unfold taken; congruence). lia. }
    destruct (Z.eqb_spec target (-1)) as [->|Hne]; [rewrite (proj2 (Z.eqb_neq idx (-1))) by lia; done|].
    by rewrite (proj2 (Z.eqb_neq target (-1))) by done.
Qed.

Lemma mounts_ok_entries es e : mounts_ok es → e ∈ es → mount_valid e = true → padded (mount_name e) (mount_point e).
Proof. intros (_ & H & _) [i Hi]%list_elem_of_lookup. eauto. Qed.

Lemma mounts_ok_insert es i c mp fs :
  mounts_ok es → padded c mp → (∀ e, e ∈ es → mount_valid e = true → mount_name e ≠ c) → mounts_ok (<[i := mk_mount mp fs true]> es).
Proof.
  intros (Hlen & Hpad & Hinj) Hmp Hno. assert (mount_name (mk_mount mp fs true) = c) as Hname by (by apply padded_text).
  split_and!.
  - by rewrite length_insert.
  - intros j e [(-> & <- & _)|[_ Hj]]%list_lookup_insert_Some; [by rewrite Hname|]. eauto.
  - intros j k e e' [(-> & <- & _)|[Hj1 Hj]]%list_lookup_insert_Some [(Ek & <- & _)|[Hk1 Hk]]%list_lookup_insert_Some Hv Hv'; [done| | |eauto].
    + rewrite Hname. intros E. edestruct (Hno e'); eauto using list_elem_of_lookup_2.
    + rewrite Hname. intros E. edestruct (Hno e); eauto using list_elem_of_lookup_2.
Qed.

Lemma first_free_spec es :
  (first_free 0 es = -1 ∧ Forall taken es) ∨
  (∃ e, 0 ≤ first_free 0 es < lenZ es ∧ es !! Z.to_nat (first_free 0 es) = Some e ∧ ¬ taken e).
Proof.
  unfold first_free. destruct (list_find (λ e, ¬ taken e) es) as [[k e]|] eqn:E.
  - right. apply list_find_Some in E as (Hk & Hn & _). apply lookup_lt_Some in Hk as Hlt. exists e.
    rewrite Z.add_0_l, Nat2Z.id. split_and!; (done || lia).
  - left. split; [done|]. apply list_find_None in E. eapply Forall_impl; [exact E|]. intros e He. by apply dec_stable.
Qed.

Lemma register_ok ws path fs es :
  path_buffer path ws → mounts_ok es →
  let c := canonical ws in
  ((∃ e, e ∈ es ∧ conflicts c e) ∧ register_file_system path fs es = Ok (- ERR_INVALID_ARG, es)) ∨
  ((∀ e, e ∈ es → ¬ conflicts c e) ∧ Forall taken es ∧ register_file_system path fs es = Ok (- ERR_OUT_OF_RESOURCE, es)) ∨
  ((∀ e, e ∈ es → ¬ conflicts c e) ∧ ∃ i e mp, es !! i = Some e ∧ ¬ taken e ∧ padded c mp ∧
     register_file_system path fs es = Ok (OK, <[i := mk_mount mp fs true]> es)).
Proof.
  intros Hp Hes c. destruct (canonicalize_padded ws path Hp) as (c_name & Hcan & Hc).
  assert (∀ A (k : Z → list Z → M (list mount_entry) A), (('(rc, cn) ← deref (canonicalize_path_name zero_path path); ASSERT (! rc) ;; k rc cn) : M _ A) es
    = k OK c_name es) as Hpre by (intros; by rewrite Hcan).
  unfold register_file_system. rewrite (Hpre _ (λ _ c_name, _)).
  rewrite (bind_ok (gets id) _ es es es) by done.
  destruct (register_loop_ok c c_name es 0 (-1) Hc) as [(-> & Hcf)|(-> & Hno)]; [done|by intros; eapply mounts_ok_entries| |].
  - left. done.
  - right. rewrite (bind_ok _ _ es (inr (first_free 0 es)) es) by done. cbv iota.
    destruct (first_free_spec es) as [[-> Hall]|(e & Hi & He & Hfree)]; [by left|]. right. split; [done|].
    rewrite (proj2 (Z.ltb_ge _ _)) by lia. rewrite (bind_ok _ _ es () es) by (apply ASSERT_true; destruct Hes as [E _]; lia).
    exists (Z.to_nat (first_free 0 es)), e, (overlay zero_path 0 c).
    assert (padded c (overlay zero_path 0 c)) as Hov by (destruct Hc as (? & ? & _); by apply overlay_zero_path).
    split_and!; [done|done|done|]. unfold strcpy_safe.
    assert (strcpy_bytes (Z.to_nat MAX_PATH) zero_path c_name = Some (overlay zero_path 0 c)) as ->; [|done].
    destruct Hov as (_ & Hlen & ->). rewrite (strcpy_bytes_ok _ _ c) by ((by apply padded_holds) || (pose proof length_zero_path; lia)).
    rewrite decide_True by lia. do 2 f_equal. rewrite padded_zeros by done. f_equal.
    replace (S (length c)) with (Z.to_nat (lenZ c + 1)) by lia. rewrite zero_path_drop by lia. f_equal. lia.
Qed.

Lemma search_mount_ok ws path es :
  path_buffer path ws → mounts_ok es → ∃ r, search_mount_entry path es = Ok (r, es) ∧ best_fit (canonical ws) es r.
Proof.
  intros Hp Hes. destruct (canonicalize_padded ws path Hp) as (c_name & Hcan & Hc).
  destruct (search_mount_loop_ok (canonical ws) c_name es [] (-1) 0 0) as (r & Hr & Hb); [done|by intros; eapply mounts_ok_entries| |lia|].
  - left. split; [done|]. intros e He. by apply not_elem_of_nil in He.
  - exists r. split; [|done]. unfold search_mount_entry. rewrite Hcan.
    transitivity (deref (search_mount_loop es 0 (-1) 0 0 c_name) es : result (Z * list mount_entry)); [done|].
    by rewrite (Hr : search_mount_loop es 0 (-1) 0 0 c_name = Some r).
Qed.

Lemma prefix_same_length (a b c : list Z) : a `prefix_of` c → b `prefix_of` c → length a = length b → a = b.
Proof. intros [r1 ->] [r2 E] Hl. by apply app_inj_1 in E as [-> _]. Qed.

Lemma vfs_pre_init_ok : mounts_ok vfs_pre_init.
Proof.
  split_and!; [done|intros i e H; intros|intros i j e e' H; intros].
  - by apply lookup_replicate in H as [-> _].
  - by apply lookup_replicate in H as [-> _].
Qed.

Lemma blank_panics s r es :
  Forall (λ c, c ≠ 0) s → lenZ s < MAX_PATH → search_mount_entry (s ++ BLANK :: r) es = Err AssertFail.
Proof. intros Hs Hlen. unfold search_mount_entry. by rewrite canonicalize_blank. Qed.

(** ** Claims *)

(** C38. On an absolute path (words separated by slashes, any of them empty,
    [.] or [..]) of at most 254 bytes, [canonicalize_path_name] succeeds and
    writes the path obtained by dropping empty words and [.] and letting [..]
    remove the word before it: words that are none of these three, or the root
    alone, or nothing; running it on its own output gives the same path again,
    and every read and write stays inside the two buffers.  A blank anywhere in
    the path makes it return the error and leaves [dst] alone. *)
Theorem canonicalize_correct ws src dst :
  path_buffer src ws → lenZ dst = MAX_PATH →
  (∃ dst', canonicalize_path_name dst src = Some (OK, dst') ∧ holds dst' (canonical ws) ∧ lenZ dst' = MAX_PATH ∧
     ∃ dst2, canonicalize_path_name dst dst' = Some (OK, dst2) ∧ holds dst2 (canonical ws)) ∧
  canonical ws = join (canonical_words ws) ∧
  (canonical_words ws = [] ∨ canonical_words ws = [[]] ∨ Forall proper (canonical_words ws)) ∧
  (∀ s r, Forall (λ c, c ≠ 0) s → lenZ s < MAX_PATH →
     canonicalize_path_name dst (s ++ BLANK :: r) = Some (- ERR_INVALID_ARG, dst)).
Proof.
  intros Hp Hd. split_and!.
  - destruct (canonicalize_ok ws src dst Hp Hd) as (d & Hc & Hh & Hl). exists d. split_and!; [done|done|done|].
    destruct Hp as (_ & Hok & _ & Hlen). by apply canonicalize_idem.
  - apply canonical_join.
  - destruct (canonical_words_cases ws) as [?|[?|[_ ?]]]; auto.
  - intros s r. apply canonicalize_blank.
Qed.


(** C39. [search_mount_entry] finds the mounted file system whose mount point
    is the longest prefix of the canonical path, the only one of that length,
    and none exactly when no mount point is a prefix; [resolve_subpath] then
    gives the rest of the path, or the root when nothing is left. *)
Theorem mount_lookup_correct ws path es :
  path_buffer path ws → mounts_ok es →
  ∃ r, search_mount_entry path es = Ok (r, es) ∧
    ((r = -1 ∧ ∀ e, e ∈ es → ¬ candidate (canonical ws) e) ∨
     ∃ e rest sub, 0 ≤ r ∧ es !! Z.to_nat r = Some e ∧ mount_valid e = true ∧ canonical ws = mount_name e ++ rest ∧
       (∀ i e', es !! i = Some e' → candidate (canonical ws) e' →
          i = Z.to_nat r ∨ lenZ (mount_name e') < lenZ (mount_name e)) ∧
       resolve_subpath zero_path path e = Some sub ∧ padded (rest_path rest) sub).
Proof.
  intros Hp Hes. destruct (search_mount_ok ws path es Hp Hes) as (r & Hr & Hb). exists r. split; [done|].
  destruct Hb as [?|(e & H0 & He & [Hv [rest Hrest]] & Hmax)]; [by left|]. right.
  destruct (resolve_subpath_ok ws path e rest) as (sub & Hsub & Hpad); [done| |done|].
  { eapply mounts_ok_entries; eauto using list_elem_of_lookup_2. }
  exists e, rest, sub. split_and!; try done. intros i e' Hi Hc'. pose proof (Hmax e' (list_elem_of_lookup_2 _ _ _ Hi) Hc') as Hle.
  destruct (decide (length (mount_name e') = length (mount_name e))) as [E|]; [|right; lia]. left.
  destruct Hes as (_ & _ & Hinj), Hc' as [Hv' Hpre]. eapply Hinj; eauto.
  eapply prefix_same_length; [done|by exists rest|done].
Qed.

(** ** [split_path] *)
Definition word_at (path : list Z) (i : Z) (w : list Z) : Prop := 0 ≤ i ∧ holds (drop (Z.to_nat i) path) w.

Lemma word_at_app a b i w : word_at a i w → word_at (a ++ b) i w.
Proof.
  intros [Hi [Hw [r Hr]]]. split; [done|]. split; [done|]. exists (r ++ b).
  assert (Z.to_nat i < length a)%nat. { apply (f_equal length) in Hr. rewrite length_drop, length_app in Hr. simpl in Hr. lia. }
  rewrite drop_app_le by lia. by rewrite Hr, <-app_assoc.
Qed.

Lemma word_at_new a w b : word_ok w → word_at (a ++ w ++ 0 :: b) (lenZ a) w.
Proof.
  intros Hw. split; [lia|]. rewrite Nat2Z.id, drop_app_length. split; [|by exists b].
  eapply Forall_impl; [exact Hw|]. by intros x (? & _).
Qed.

Lemma word_span_ok w n a c b :
  word_ok w → c = SLASH ∨ c = 0 → (length w < n)%nat → word_span n (a ++ w ++ c :: b) (lenZ a) = Some (lenZ a + lenZ w).
Proof.
  intros Hw Hc. revert n a. induction Hw as [|x w (Hx0 & Hxs & _) Hw IH]; intros n a Hn;
    (destruct n as [|n]; [simpl in Hn; lia|]); cbn [word_span app]; rewrite array_get_mid, obind.
  - replace (ctrue c && negb (c =? SLASH)) with false by (by destruct Hc as [->| ->]). by rewrite Z.add_0_r.
  - rewrite (proj2 (ctrue_true x)), (proj2 (Z.eqb_neq x SLASH)) by done. cbn [negb andb].
    replace (a ++ x :: w ++ c :: b) with ((a ++ [x]) ++ w ++ c :: b) by (by rewrite <-app_assoc).
    replace (lenZ a + 1) with (lenZ (a ++ [x])) by (rewrite length_app; simpl; lia).
    rewrite IH by (simpl in Hn; lia). f_equal. rewrite length_app. simpl. lia.
Qed.

Definition nonempty_words (ws : list (list Z)) : list (list Z) := filter (λ w, w ≠ []) ws.

Lemma split_slash n a r array :
  split_loop (S n) (a ++ SLASH :: r) (lenZ a) array = split_loop n ((a ++ [SLASH]) ++ r) (lenZ (a ++ [SLASH])) array.
Proof.
  cbn [split_loop]. rewrite array_get_mid, obind. change (! SLASH) with false. cbv iota.
  assert (word_span (S (length (a ++ SLASH :: r))) (a ++ SLASH :: r) (lenZ a) = Some (lenZ a + lenZ [])) as ->
    by (apply (word_span_ok []); [constructor|by left|simpl; lia]).
  rewrite obind. change (lenZ []) with 0. rewrite (proj2 (Z.eqb_eq (lenZ a + 0 - lenZ a) 0)) by lia.
  rewrite <-app_assoc. f_equal. rewrite length_app. simpl. lia.
Qed.

Lemma split_word n a w c r array :
  word_ok w → w ≠ [] → c = SLASH ∨ c = 0 →
  split_loop (S n) (a ++ w ++ c :: r) (lenZ a) array =
  if ! c then Some (a ++ w ++ c :: r, array ++ [lenZ a])
  else split_loop n ((a ++ w ++ [0]) ++ r) (lenZ (a ++ w ++ [0])) (array ++ [lenZ a]).
Proof.
  intros Hw Hne Hc. cbn [split_loop]. destruct w as [|x w']; [done|]. set (w := x :: w') in *.
  assert (array_get (a ++ w ++ c :: r) (lenZ a) = Some x) as -> by apply array_get_mid. rewrite obind.
  apply Forall_cons in Hw as Hx. destruct Hx as [(Hx & _) _]. rewrite (proj2 (ctrue_true x)) by done. cbn [negb].
  rewrite (word_span_ok w _ a c r) by (done || (rewrite !length_app; simpl; lia)). rewrite obind.
  replace (lenZ a + lenZ w - lenZ a) with (lenZ w) by lia. rewrite (proj2 (Z.eqb_neq (lenZ w) 0)) by (simpl; lia).
  replace (lenZ a + lenZ w) with (lenZ (a ++ w)) by (rewrite length_app; lia).
  assert (array_get (a ++ w ++ c :: r) (lenZ (a ++ w)) = Some c) as -> by (rewrite app_assoc; apply array_get_mid). rewrite obind.
  destruct (! c); [done|]. rewrite array_set_ok by (rewrite !length_app; simpl; lia). rewrite obind. f_equal.
  - rewrite Nat2Z.id, app_assoc. rewrite insert_app_r_alt, Nat.sub_diag by lia. change (<[0%nat := 0]> (c :: r)) with ([0] ++ r).
    by rewrite !app_assoc.
  - rewrite !length_app. simpl. lia.
Qed.

Lemma split_loop_ok ws w0 n a b array words :
  Forall word_ok (w0 :: ws) → (length (w0 ++ join ws) < n)%nat → Forall2 (word_at a) array words →
  ∃ path' array', split_loop n (a ++ w0 ++ join ws ++ 0 :: b) (lenZ a) array = Some (path', array') ∧
    Forall2 (word_at path') array' (words ++ nonempty_words (w0 :: ws)).
Proof.
  assert (∀ a b array words, Forall2 (word_at a) array words → Forall2 (word_at (a ++ b)) array words) as Hmono.
  { intros * H. eapply Forall2_impl; [exact H|]. intros. by apply word_at_app. }
  revert w0 n a array words. induction ws as [|w ws IH]; intros w0 n a array words Hok Hn Harr;
    apply Forall_cons in Hok as [Hw0 Hok]; (destruct n as [|n]; [lia|]); unfold nonempty_words.
  - change (join [] ++ 0 :: b) with (0 :: b). destruct (decide (w0 = [])) as [->|Hne].
    + cbn [split_loop app]. rewrite array_get_mid, obind. eexists _, _. split; [done|]. rewrite app_nil_r. by apply Hmono.
    + rewrite split_word by auto. eexists _, _. split; [done|]. apply Forall2_app; [by apply Hmono|].
      rewrite filter_cons_True by done. constructor; [by apply word_at_new|constructor].
  - rewrite join_cons in *. cbn [app] in *. rewrite <-app_assoc. rewrite length_app in Hn. cbn [length] in Hn.
    destruct (decide (w0 = [])) as [->|Hne].
    + cbn [app]. rewrite split_slash. rewrite filter_cons_False by auto. apply IH; [done|simpl in Hn; lia|by apply Hmono].
    + rewrite split_word by auto. change (! SLASH) with false. cbv iota. rewrite filter_cons_True by done.
      replace (words ++ w0 :: filter (λ w1, w1 ≠ []) (w :: ws)) with ((words ++ [w0]) ++ nonempty_words (w :: ws)) by (by rewrite <-app_assoc).
      apply IH; [done|lia|]. apply Forall2_app; [by apply Hmono|]. constructor; [|constructor]. by apply (word_at_new a w0 []).
Qed.

Lemma split_path_ok w0 ws path :
  Forall word_ok (w0 :: ws) → holds path (w0 ++ join ws) →
  ∃ path' array, split_path path = Some (path', array) ∧ Forall2 (word_at path') array (nonempty_words (w0 :: ws)).
Proof.
  intros Hok [_ [b ->]]. rewrite <-app_assoc. apply (split_loop_ok ws w0 _ [] b [] []); [done|rewrite !length_app; simpl; lia|constructor].
Qed.

Lemma split_path_length path path' array : split_path path = Some (path', array) → length path' = length path.
Proof.
  unfold split_path. generalize (S (length path)) at 1. intros n. generalize 0, (@nil Z). revert path.
  induction n as [|n IH]; intros path ptr arr; [done|]. cbn [split_loop].
  destruct (array_get path ptr) as [c|]; [|done]. rewrite obind. destruct (! c); [by intros [= <- _]|].
  destruct (word_span _ path ptr) as [e|]; [|done]. rewrite obind. destruct (_ =? 0); [apply IH|].
  destruct (array_get path e) as [x|]; [|done]. rewrite obind. destruct (! x); [by intros [= <- _]|].
  unfold array_set. destruct (_ || _); [done|]. rewrite obind. intros ->%IH. by rewrite length_insert.
Qed.

(** [split_path] on a path, absolute or not, finds exactly its non-empty
    words in order: each of the pointers it stores is the start of a
    NUL-terminated word, whatever number of slashes separates them; it ends and
    stays inside the buffer. *)
Theorem split_path_words w0 ws path :
  Forall word_ok (w0 :: ws) → holds path (w0 ++ join ws) →
  ∃ path' array, split_path path = Some (path', array) ∧ Forall2 (word_at path') array (nonempty_words (w0 :: ws)).
Proof.
  apply split_path_ok.
Qed.

(** ** Concrete paths *)
Module PathExample.

Definition ex_words : list (list Z) := [[97]; []; [46; 46]; [46]; [98; 99]; []].
Definition ex_path : list Z := literal "/a//.././bc/".
Definition ex_mounts : list mount_entry := <[0%nat := mk_mount (overlay zero_path 0 [SLASH]) 7 true]> vfs_pre_init.

Lemma ex_path_buffer : path_buffer ex_path ex_words.
Proof.
  split_and!; [done|apply (bool_decide_unpack _); vm_compute; exact I| |done].
  split; [apply (bool_decide_unpack _); vm_compute; exact I|by exists []].
Qed.

Lemma ex_mounts_ok : mounts_ok ex_mounts.
Proof.
  apply (mounts_ok_insert _ _ [SLASH]); [apply vfs_pre_init_ok|apply overlay_zero_path; [by apply Forall_singleton|done]|].
  intros e He Hv. apply elem_of_replicate in He as [-> _]. done.
Qed.

Lemma canonicalize_correct_witness :
  canonical ex_words = removelast (literal "/bc") ∧ canonical ex_words = join (canonical_words ex_words).
Proof. split; [done|]. apply (canonicalize_correct ex_words ex_path zero_path ex_path_buffer length_zero_path). Defined.


Lemma mount_lookup_correct_witness :
  search_mount_entry ex_path ex_mounts = Ok (0, ex_mounts) ∧ resolve_subpath zero_path ex_path (mk_mount (overlay zero_path 0 [SLASH]) 7 true) =
    Some (overlay zero_path 0 (removelast (literal "bc"))) ∧
  ∃ r, search_mount_entry ex_path ex_mounts = Ok (r, ex_mounts).
Proof.
  split; [vm_compute; reflexivity|]. split; [vm_compute; reflexivity|].
  destruct (mount_lookup_correct ex_words ex_path ex_mounts ex_path_buffer ex_mounts_ok) as (r & H & _). exists r. exact H.
Defined.

Lemma split_path_words_witness :
  ∃ path' array, split_path (literal "bc//d") = Some (path', array) ∧ Forall2 (word_at path') array [[98; 99]; [100]].
Proof.
  apply (split_path_words [98; 99] [[]; [100]] (literal "bc//d")).
  - apply (bool_decide_unpack _); vm_compute; exact I.
  - split; [apply (bool_decide_unpack _); vm_compute; exact I|by exists []].
Defined.

(** the limits of the two functions *)
Example root_of_parent : canonical [[97]; [46; 46]] = [] ∧ canonical [[97]; [46; 46]; []] = [SLASH].
Proof. done. Qed.

(** a path of 255 bytes is written one byte behind the buffer *)
Example longest_path_overruns :
  canonicalize_path_name zero_path (SLASH :: replicate 254 97 ++ [0]) = None.
Proof. vm_compute. reflexivity. Qed.

(** the first word of a relative path is lost *)
Example relative_path_loses_word :
  canonicalize_path_name zero_path (literal "foo/bar") = Some (OK, overlay zero_path 0 (removelast (literal "/bar"))).
Proof. vm_compute. reflexivity. Qed.

(** the file system at [/home/jie] serves [/home/jiezheng] *)
Example prefix_is_not_a_directory :
  search_mount_entry (literal "/home/jiezheng") (<[1%nat := mk_mount (overlay zero_path 0 (removelast (literal "/home/jie"))) 3 true]> ex_mounts) =
  Ok (1, <[1%nat := mk_mount (overlay zero_path 0 (removelast (literal "/home/jie"))) 3 true]> ex_mounts).
Proof. vm_compute. reflexivity. Qed.
End PathExample.
