(* ===== verification/FsTree.v ===== *)
(** * Directory trees: lib/generic_tree.c and filesystem/fs_hierarchy.c

    The files of a file system are the nodes of a tree kept as left child and
    right sibling; a node is named by the address of the file it lies in.  The
    first node of every level is a file of type [FILE_TYPE_MARK] without a name.
    Files are allocated on the kernel heap (KHeap) that the contents of files
    live on, too (MemFs).  The intermediate queue of [hierarchy_delete_file] is
    the sequence of its nodes, which is what the lists of lib/list.c refine.

    The specification is the tree [dtree] with the lookup of paths in it
    ([tree_lookup]); [hierarchy] relates it to the files. *)

From Stdlib Require Import ZifyNat.
From stdpp Require Import gmap list strings.
From S2P Require Import Prelude CString Malloc KHeap MemFs Vma Path.
Open Scope Z_scope.
Open Scope zelda_scope.

Definition FILE_TYPE_NONE : Z := 0.
Definition FILE_TYPE_MARK : Z := 1.
Definition FILE_TYPE_REGULAR : Z := 2.
Definition FILE_TYPE_DIR : Z := 3.

(** [struct file] with its [fs_node]; [sizeof(struct file)] is 296 *)
Record file := mk_file {
  name : list Z; type : Z; mode : Z; refer_count : Z; ops : Z; priv : Z;
  parent : Z; left : Z; right : Z }.
Definition SIZEOF_FILE : Z := 296.
Definition zero_file : file := mk_file zero_path 0 0 0 0 0 NULL NULL NULL.

Definition set_name (n : list Z) (f : file) : file := mk_file n (type f) (mode f) (refer_count f) (ops f) (priv f) (parent f) (left f) (right f).
Definition set_type (t : Z) (f : file) : file := mk_file (name f) t (mode f) (refer_count f) (ops f) (priv f) (parent f) (left f) (right f).
Definition set_mode (m : Z) (f : file) : file := mk_file (name f) (type f) m (refer_count f) (ops f) (priv f) (parent f) (left f) (right f).
Definition set_refer_count (n : Z) (f : file) : file := mk_file (name f) (type f) (mode f) n (ops f) (priv f) (parent f) (left f) (right f).
Definition set_ops (o : Z) (f : file) : file := mk_file (name f) (type f) (mode f) (refer_count f) o (priv f) (parent f) (left f) (right f).
Definition set_priv (p : Z) (f : file) : file := mk_file (name f) (type f) (mode f) (refer_count f) (ops f) p (parent f) (left f) (right f).
Definition set_parent (p : Z) (f : file) : file := mk_file (name f) (type f) (mode f) (refer_count f) (ops f) (priv f) p (left f) (right f).
Definition set_left (p : Z) (f : file) : file := mk_file (name f) (type f) (mode f) (refer_count f) (ops f) (priv f) (parent f) p (right f).
Definition set_right (p : Z) (f : file) : file := mk_file (name f) (type f) (mode f) (refer_count f) (ops f) (priv f) (parent f) (left f) p.

Section tree.
Context {A : Type} `{KHeap A}.

Record fstate := mk_fstate { fmem : mstore A; ffiles : gmap Z file }.
Definition fmem_l : lens fstate (mstore A) := Lens fmem (λ x s, mk_fstate x (ffiles s)).
Definition ffiles_l : lens fstate (gmap Z file) := Lens ffiles (λ x s, mk_fstate (fmem s) x).

Definition get_file (a : Z) : M fstate file := zoom ffiles_l (load a).
Definition upd_file (a : Z) (f : file → file) : M fstate () := zoom ffiles_l (update a f).

Definition heap_malloc (len : Z) : M fstate Z := zoom fmem_l (zoom mheap_l (heap_malloc_align len 1)).
Definition heap_release (p : Z) : M fstate () := zoom fmem_l (zoom mheap_l (heap_free p)).

(** [malloc(sizeof(struct file))] and, for a pointer that is not NULL, the
    [memset] that clears it *)
Definition malloc_file : M fstate Z :=
  _file ← heap_malloc SIZEOF_FILE;
  when (ctrue _file) (zoom ffiles_l (modify (<[_file := zero_file]>))) ;;
  mret _file.

(** every loop along the tree visits a file at most once *)
Definition tree_fuel : M fstate nat := gets (λ s, S (base.size (ffiles s))).

(** ** lib/generic_tree.c *)
Definition generic_delete_node (node : Z) : M fstate Z :=
  n ← get_file node;
  ASSERT (ctrue (parent n)) ;;
  p ← get_file (parent n);
  (if left p =? node then
     when (ctrue (right n)) (upd_file (right n) (set_parent (parent n))) ;;
     upd_file (parent n) (set_left (right n))
   else
     ASSERT (right p =? node) ;;
     when (ctrue (right n)) (upd_file (right n) (set_parent (right n))) ;;
     upd_file (parent n) (set_right (right n))) ;;
  upd_file node (set_right NULL) ;;
  upd_file node (set_parent NULL) ;;
  mret OK.

(** [for(; ptr->right; ptr = ptr->right);] *)
Fixpoint last_sibling (fuel : nat) (ptr : Z) : M fstate Z :=
  match fuel with
  | O => fail Diverge
  | S fuel => f ← get_file ptr; if ctrue (right f) then last_sibling fuel (right f) else mret ptr
  end.

Definition add_sibling (current node : Z) : M fstate Z :=
  if ! current then mret (- ERR_INVALID_ARG) else
  fuel ← tree_fuel;
  ptr ← last_sibling fuel current;
  upd_file node (set_parent ptr) ;;
  upd_file ptr (set_right node) ;;
  mret OK.

Definition add_child (current node : Z) : M fstate Z :=
  if ! current then mret (- ERR_INVALID_ARG) else
  c ← get_file current;
  if ! left c then
    upd_file current (set_left node) ;;
    upd_file node (set_parent current) ;;
    mret OK
  else add_sibling (left c) node.

(** the first loop of [FOREACH_SIBLING_NODE_START]: back to the first sibling *)
Fixpoint first_sibling (fuel : nat) (_sibling : Z) : M fstate Z :=
  match fuel with
  | O => fail Diverge
  | S fuel =>
      f ← get_file _sibling;
      if ! parent f then mret _sibling else
      p ← get_file (parent f);
      if right p =? _sibling then first_sibling fuel (parent f) else mret _sibling
  end.

(** ** filesystem/fs_hierarchy.c

    [splitted_path] are the first [iptr] words: the bytes from every word's
    pointer on. *)

(** the body of the loops over siblings: NULL is not found *)
Fixpoint find_sibling (fuel : nat) (_node : Z) (word : list Z) : M fstate Z :=
  match fuel with
  | O => fail Diverge
  | S fuel =>
      if ! _node then mret NULL else
      _file ← get_file _node;
      d ← deref (strcmp (name _file) word);
      if ! d then mret _node else find_sibling fuel (right _file) word
  end.

Definition search_siblings (current_node : Z) (word : list Z) : M fstate Z :=
  fuel ← tree_fuel;
  _sibling ← (if ctrue current_node then first_sibling fuel current_node else mret NULL);
  find_sibling fuel _sibling word.

(** a fresh file with a name, a type and its place at the end of a level *)
Definition fill_file (_file : Z) (word : list Z) (ty current_node : Z) : M fstate () :=
  f ← get_file _file;
  n ← deref (strcpy_safe (name f) word MAX_PATH);
  upd_file _file (set_name n) ;;
  upd_file _file (set_type ty) ;;
  upd_file _file (set_mode 0) ;;
  upd_file _file (set_priv NULL) ;;
  rc ← add_sibling current_node _file;
  ASSERT (! rc).

(** the second half of the loop of [hierarchy_create_directory]: the mark of the
    level below [current_node] *)
Definition add_mark (current_node : Z) : M fstate bool :=
  c ← get_file current_node;
  if ! left c then
    _file_another ← malloc_file;
    if ! _file_another then mret false else
    upd_file _file_another (set_type FILE_TYPE_MARK) ;;
    rc ← add_child current_node _file_another;
    ASSERT (! rc) ;;
    mret true
  else mret true.

(** the first half: the directory [word], found or created, or an error *)
Definition enter_directory (word : list Z) (current_node : Z) : M fstate (Z + Z) :=
  found ← search_siblings current_node word;
  if ctrue found then
    _file ← get_file found;
    mret (if negb (type _file =? FILE_TYPE_DIR) then inl (- ERR_EXIST) else inr found)
  else
    _file ← malloc_file;
    if ! _file then mret (inl (- ERR_OUT_OF_MEMORY)) else
    fill_file _file word FILE_TYPE_DIR current_node ;;
    mret (inr _file).

Fixpoint create_directory_loop (splitted_path : list (list Z)) (current_node : Z) : M fstate Z :=
  match splitted_path with
  | [] => mret OK
  | word :: splitted_path =>
      r ← enter_directory word current_node;
      match r with
      | inl e => mret e
      | inr current_node =>
          ok ← add_mark current_node;
          if negb ok then mret (- ERR_OUT_OF_MEMORY) else
          c ← get_file current_node;
          create_directory_loop splitted_path (left c)
      end
  end.
Definition hierarchy_create_directory (root_node : Z) (splitted_path : list (list Z)) : M fstate Z :=
  create_directory_loop splitted_path root_node.

(** the loop over the directories of a path: NULL may be the level of a file
    that is no directory; [None] is a directory that is not there *)
Fixpoint descend (splitted_path : list (list Z)) (current_node : Z) : M fstate (option Z) :=
  match splitted_path with
  | [] => mret (Some current_node)
  | word :: splitted_path =>
      found ← search_siblings current_node word;
      if ! found then mret None else
      _file ← get_file found;
      descend splitted_path (left _file)
  end.

Definition hierarchy_create_file (root_node : Z) (splitted_path : list (list Z)) : M fstate Z :=
  match last splitted_path with
  | None => mret (- ERR_INVALID_ARG)
  | Some word =>
      o ← descend (removelast splitted_path) root_node;
      match o with
      | None => mret (- ERR_NOT_PRESENT)
      | Some current_node =>
          found ← search_siblings current_node word;
          if ctrue found then mret (- ERR_EXIST) else
          _file ← malloc_file;
          fill_file _file word FILE_TYPE_REGULAR current_node ;;
          mret OK
      end
  end.

Fixpoint search_file_loop (splitted_path : list (list Z)) (current_node _file : Z) : M fstate Z :=
  match splitted_path with
  | [] => mret _file
  | word :: splitted_path =>
      found ← search_siblings current_node word;
      if ! found then mret NULL else
      f ← get_file found;
      search_file_loop splitted_path (left f) found
  end.
Definition hierarchy_search_file (root_node : Z) (splitted_path : list (list Z)) : M fstate Z :=
  search_file_loop splitted_path root_node NULL.

Section delete.
Variable per_file_free : Z → M fstate ().

Fixpoint delete_loop (fuel : nat) (queue : list Z) : M fstate () :=
  match queue with
  | [] => mret ()
  | node :: queue =>
      match fuel with
      | O => fail Diverge
      | S fuel =>
          n ← get_file node;
          let queue := queue ++ (if ctrue (left n) then [left n] else []) ++ (if ctrue (right n) then [right n] else []) in
          per_file_free node ;;
          delete_loop fuel queue
      end
  end.

Definition hierarchy_delete_file (root_node : Z) (splitted_path : list (list Z)) : M fstate Z :=
  file ← hierarchy_search_file root_node splitted_path;
  if ! file then mret (- ERR_NOT_FOUND) else
  generic_delete_node file ;;
  fuel ← tree_fuel;
  delete_loop fuel [file] ;;
  mret OK.
End delete.
End tree.
Arguments fstate : clear implicits.

(** ** The tree of a file system

    A level of the hierarchy, as the code links it: the first sibling, the
    level below it and the siblings behind it.  [ok] says that the parent
    pointer is the one the tree should have; [generic_delete_node] leaves the
    sibling behind a deleted node pointing to itself. *)
Inductive dtree :=
  | DNil
  | DNode (a : Z) (w : list Z) (ty : Z) (ok : bool) (below next : dtree).

Fixpoint addrs (t : dtree) : list Z :=
  match t with DNil => [] | DNode a _ _ _ l r => a :: addrs l ++ addrs r end.

(** [p] points to the level [t], which hangs under or behind [prev] *)
Fixpoint tree_at (σ : gmap Z file) (prev : Z) (t : dtree) (p : Z) : Prop :=
  match t with
  | DNil => p = NULL
  | DNode a w ty ok l r =>
      p = a ∧ a ≠ NULL ∧ ∃ f, σ !! a = Some f ∧ holds (name f) w ∧ type f = ty ∧
        parent f = (if ok then prev else a) ∧ tree_at σ a l (left f) ∧ tree_at σ a r (right f)
  end.

(** the file with the name [w] in a level, and the level below it *)
Fixpoint tree_find (t : dtree) (w : list Z) : option (Z * Z * dtree) :=
  match t with
  | DNil => None
  | DNode a w' ty _ l r => if decide (w' = w) then Some (a, ty, l) else tree_find r w
  end.

(** the level a path leads to, and the file at a path *)
Fixpoint level_at (t : dtree) (p : list (list Z)) : option dtree :=
  match p with
  | [] => Some t
  | w :: p => '(_, _, l) ← tree_find t w; level_at l p
  end.
Fixpoint tree_lookup (t : dtree) (p : list (list Z)) : option (Z * Z) :=
  match p with
  | [] => None
  | [w] => '(a, ty, _) ← tree_find t w; Some (a, ty)
  | w :: p => '(_, _, l) ← tree_find t w; tree_lookup l p
  end.

Lemma tree_at_frame σ σ' prev t p :
  (∀ a, a ∈ addrs t → σ' !! a = σ !! a) → tree_at σ prev t p → tree_at σ' prev t p.
Proof.
  revert prev p. induction t as [|a w ty ok l IHl r IHr]; intros prev p Hσ; [done|]. simpl in *.
  intros (-> & Ha & f & Hf & Hn & Ht & Hp & Hl & Hr). split_and!; [done|done|]. exists f.
  split_and!; [rewrite Hσ; [done|by left]|done|done|done| |].
  - apply IHl; [|done]. intros b Hb. apply Hσ. right. apply elem_of_app. by left.
  - apply IHr; [|done]. intros b Hb. apply Hσ. right. apply elem_of_app. by right.
Qed.

Lemma tree_at_dom σ prev t p : tree_at σ prev t p → ∀ a, a ∈ addrs t → is_Some (σ !! a) ∧ a ≠ NULL.
Proof.
  revert prev p. induction t as [|a w ty ok l IHl r IHr]; intros prev p; simpl; [by intros _ b ?%not_elem_of_nil|].
  intros (-> & Ha & f & Hf & _ & _ & _ & Hl & Hr) b [->|[Hb|Hb]%elem_of_app]%elem_of_cons; [by split| |]; eauto.
Qed.

Lemma addrs_size σ prev t p : tree_at σ prev t p → NoDup (addrs t) → (length (addrs t) ≤ base.size σ)%nat.
Proof.
  intros Ht Hnd. rewrite <-size_dom, <-(size_list_to_set (C := gset Z)) by done. apply subseteq_size.
  intros a Ha%elem_of_list_to_set. apply elem_of_dom. by apply (tree_at_dom _ _ _ _ Ht).
Qed.

Section proofs.
Context {A : Type} `{!KHeap A, !KHeapLaws A}.
Implicit Types s : fstate A.

Lemma get_file_run s a f : ffiles s !! a = Some f → get_file a s = Ok (f, s).
Proof. intros Hf. unfold get_file, zoom. simpl. rewrite (load_ok _ _ _ Hf). by destruct s. Qed.

Definition put_file s (a : Z) (f : file) : fstate A := mk_fstate (fmem s) (<[a := f]> (ffiles s)).

Lemma upd_file_run s a f g : ffiles s !! a = Some f → upd_file a g s = Ok ((), put_file s a (g f)).
Proof. intros Hf. unfold upd_file, zoom. simpl. by rewrite (update_ok _ _ _ _ Hf). Qed.

Lemma find_sibling_ok s t prev p word w n :
  tree_at (ffiles s) prev t p → holds word w → (length (addrs t) < n)%nat →
  find_sibling n p word s = Ok (match tree_find t w with Some (a, _, _) => a | None => NULL end, s).
Proof.
  intros Ht Hw. revert prev p n Ht. induction t as [|a w' ty ok l _ r IH]; intros prev p [|n] Ht Hn; try (simpl in Hn; lia); simpl in Ht.
  - by subst p.
  - destruct Ht as (-> & Ha & f & Hf & Hname & _ & _ & _ & Hr). cbn [find_sibling tree_find].
    rewrite (proj2 (ctrue_true a)) by done. cbn [negb]. rewrite (bind_ok _ _ _ _ _ (get_file_run s a f Hf)).
    destruct (strcmp_ok (name f) w' word w Hname Hw) as (d & Hd & E).
    rewrite (bind_ok _ _ _ d s (deref_ok _ _ _ Hd)). destruct (ctrue d) eqn:Ed; cbn [negb].
    + rewrite decide_False by (intros ?; apply ctrue_true in Ed; by apply Ed, E).
      eapply IH; [done|]. simpl in Hn. rewrite length_app in Hn. lia.
    + by rewrite decide_True by (by apply E, ctrue_false).
Qed.

(** a pointer to the first sibling of a level *)
Definition level_head (σ : gmap Z file) (prev p : Z) : Prop :=
  prev = NULL ∨ p = NULL ∨ ∃ f, σ !! prev = Some f ∧ right f ≠ p.

Lemma search_siblings_ok s t prev p word w :
  tree_at (ffiles s) prev t p → NoDup (addrs t) → level_head (ffiles s) prev p → holds word w →
  search_siblings p word s = Ok (match tree_find t w with Some (a, _, _) => a | None => NULL end, s).
Proof.
  intros Ht Hnd Hh Hw. unfold search_siblings. rewrite (bind_ok tree_fuel _ s _ s) by done.
  pose proof (addrs_size _ _ _ _ Ht Hnd) as Hsz.
  assert ((if ctrue p then first_sibling (S (base.size (ffiles s))) p else mret NULL) s = Ok (p, s)) as Hfirst.
  { destruct t as [|a w' ty ok l r]; simpl in Ht; [by subst p|]. destruct Ht as (-> & Ha & f & Hf & _ & _ & Hp & _ & Hr).
    rewrite (proj2 (ctrue_true a)) by done. cbn [first_sibling]. rewrite (bind_ok _ _ _ _ _ (get_file_run s a f Hf)).
    destruct (ctrue (parent f)) eqn:Epar; cbn [negb]; [|done]. destruct ok.
    - destruct Hh as [->|[?|(fp & Hfp & Hne)]]; [by rewrite Hp in Epar|done|].
      rewrite Hp. rewrite (bind_ok _ _ _ _ _ (get_file_run s prev fp Hfp)). by rewrite (proj2 (Z.eqb_neq _ _)).
    - rewrite Hp. rewrite (bind_ok _ _ _ _ _ (get_file_run s a f Hf)). destruct (Z.eqb_spec (right f) a) as [E|]; [|done].
      exfalso. destruct r as [|b w2 ty2 ok2 l2 r2]; simpl in Hr; [congruence|]. destruct Hr as (E2 & _).
      simpl in Hnd. apply NoDup_cons in Hnd as [Hnin _]. apply Hnin, elem_of_app. right. rewrite <-E, E2. by left. }
  rewrite (bind_ok _ _ _ _ _ Hfirst). eapply find_sibling_ok; [done|done|lia].
Qed.

(** the level below a file found in a level *)
Lemma find_level σ t prev p w a ty l :
  tree_at σ prev t p → NoDup (addrs t) → tree_find t w = Some (a, ty, l) →
  ∃ f, σ !! a = Some f ∧ a ≠ NULL ∧ type f = ty ∧ tree_at σ a l (left f) ∧ level_head σ a (left f) ∧ NoDup (addrs l).
Proof.
  revert prev p. induction t as [|b w' ty' ok l' _ r IHr]; intros prev p; simpl; [done|].
  intros (-> & Ha & f & Hf & _ & Hty & _ & Hl & Hr) Hnd. apply NoDup_cons in Hnd as [_ Hnd].
  apply NoDup_app in Hnd as (Hndl & Hdisj & Hndr). case_decide; [|by eauto]. intros [= -> -> ->]. exists f. split_and!; try done.
  unfold level_head. destruct l as [|c ? ? ? ? ?]; simpl in Hl; [by right; left|]. right. right. exists f. split; [done|].
  destruct Hl as (-> & Hc & _). intros E. destruct r as [|d ? ? ? ? ?]; simpl in Hr; [congruence|]. destruct Hr as (E2 & _).
  apply (Hdisj c); [by left|]. rewrite <-E, E2. by left.
Qed.

Lemma search_file_loop_ok s words ws t prev p acc :
  tree_at (ffiles s) prev t p → NoDup (addrs t) → level_head (ffiles s) prev p → Forall2 holds words ws →
  search_file_loop words p acc s =
  Ok (match ws with [] => acc | _ => match tree_lookup t ws with Some (a, _) => a | None => NULL end end, s).
Proof.
  intros Ht Hnd Hh HF. revert t prev p acc Ht Hnd Hh. induction HF as [|word w words ws Hw HF IH]; intros t prev p acc Ht Hnd Hh; [done|].
  cbn [search_file_loop]. rewrite (bind_ok _ _ _ _ _ (search_siblings_ok s t prev p word w Ht Hnd Hh Hw)).
  destruct (tree_find t w) as [[[a ty] l]|] eqn:Hf.
  - destruct (find_level _ _ _ _ _ _ _ _ Ht Hnd Hf) as (f & Hfa & Ha & _ & Hl & Hhl & Hndl).
    rewrite (proj2 (ctrue_true a)) by done. cbn [negb]. rewrite (bind_ok _ _ _ _ _ (get_file_run s a f Hfa)).
    rewrite (IH l a (left f)) by done. destruct ws as [|w2 ws]; cbn [tree_lookup]; by rewrite Hf, obind.
  - destruct ws as [|w2 ws]; cbn [tree_lookup]; by rewrite Hf.
Qed.

(** *** Changing one level of the tree *)
Fixpoint child_upd (t : dtree) (w : list Z) (l' : dtree) : dtree :=
  match t with
  | DNil => DNil
  | DNode a w' ty ok l r => if decide (w' = w) then DNode a w' ty ok l' r else DNode a w' ty ok l (child_upd r w l')
  end.
Fixpoint tree_upd (t : dtree) (p : list (list Z)) (L' : dtree) : dtree :=
  match p with
  | [] => L'
  | w :: p => match tree_find t w with Some (_, _, l) => child_upd t w (tree_upd l p L') | None => t end
  end.

Lemma child_focus σ t prev ptr w a ty l :
  tree_at σ prev t ptr → NoDup (addrs t) → tree_find t w = Some (a, ty, l) →
  ∃ f, σ !! a = Some f ∧
    (∀ σ' l', (∀ b, b ∈ addrs t → b ∉ addrs l → σ' !! b = σ !! b) → tree_at σ' a l' (left f) → tree_at σ' prev (child_upd t w l') ptr) ∧
    (∀ l', addrs (child_upd t w l') ++ addrs l ≡ₚ addrs t ++ addrs l') ∧ (∀ b, b ∈ addrs l → b ∈ addrs t).
Proof.
  revert prev ptr. induction t as [|b w' ty' ok l0 _ r IHr]; intros prev ptr; simpl; [done|].
  intros (-> & Ha & f & Hf & Hn & Hty & Hp & Hl & Hr) Hnd. apply NoDup_cons in Hnd as [Hb Hnd].
  apply NoDup_app in Hnd as (Hndl & Hdisj & Hndr). case_decide.
  - intros [= -> -> ->]. exists f. split_and!; [done| | |].
    + intros σ' l' Hσ Hl'. simpl. split_and!; [done|done|]. exists f. split_and!; try done.
      * rewrite Hσ; [done|by left|]. intros ?. apply Hb, elem_of_app. by left.
      * eapply tree_at_frame; [|exact Hr]. intros c Hc. apply Hσ; [right; apply elem_of_app; by right|]. intros ?. by apply (Hdisj c).
    + intros l'. simpl. rewrite <-!app_assoc. constructor. rewrite (Permutation_app_comm (addrs l') _), (Permutation_app_comm (addrs l) _).
      rewrite <-!app_assoc. by rewrite (Permutation_app_comm (addrs l) (addrs l')).
    + intros c Hc. right. apply elem_of_app. by left.
  - intros Hfind. destruct (IHr _ _ Hr Hndr Hfind) as (f' & Hf' & Hup & Hperm & Hsub). exists f'. split_and!; [done| | |].
    + intros σ' l' Hσ Hl'. simpl. assert (∀ c, c ∈ addrs l → c ∈ addrs r) as Hs by exact Hsub.
      split_and!; [done|done|]. exists f. split_and!; try done.
      * rewrite Hσ; [done|by left|]. intros ?. apply Hb, elem_of_app. right. auto.
      * eapply tree_at_frame; [|exact Hl]. intros c Hc. apply Hσ; [right; apply elem_of_app; by left|]. intros ?. apply (Hdisj c); auto.
      * apply Hup; [|done]. intros c Hc Hc'. apply Hσ; [right; apply elem_of_app; by right|done].
    + intros l'. simpl. constructor. rewrite <-!app_assoc. by rewrite Hperm.
    + intros c Hc. right. apply elem_of_app. right. auto.
Qed.

(** the level at a path can be replaced by one with the same first sibling *)
Definition focused (σ : gmap Z file) (prev : Z) (t : dtree) (ptr : Z) (p : list (list Z)) (L : dtree) (prev' ptr' : Z) : Prop :=
  tree_at σ prev' L ptr' ∧ NoDup (addrs L) ∧ level_head σ prev' ptr' ∧
  (∀ σ' L', (∀ a, a ∈ addrs t → a ∉ addrs L → σ' !! a = σ !! a) → tree_at σ' prev' L' ptr' → tree_at σ' prev (tree_upd t p L') ptr) ∧
  (∀ L', addrs (tree_upd t p L') ++ addrs L ≡ₚ addrs t ++ addrs L') ∧ (∀ b, b ∈ addrs L → b ∈ addrs t).

Lemma focus s t prev ptr p words L :
  tree_at (ffiles s) prev t ptr → NoDup (addrs t) → level_head (ffiles s) prev ptr → level_at t p = Some L → Forall2 holds words p →
  ∃ prev' ptr', focused (ffiles s) prev t ptr p L prev' ptr' ∧ descend words ptr s = Ok (Some ptr', s).
Proof.
  intros Ht Hnd Hh Hlev HF. revert t prev ptr Ht Hnd Hh Hlev.
  induction HF as [|word w words p Hw HF IH]; intros t prev ptr Ht Hnd Hh Hlev; cbn [level_at] in Hlev.
  - injection Hlev as <-. exists prev, ptr. split; [|done]. split_and!; try done. intros L'. apply Permutation_app_comm.
  - destruct (tree_find t w) as [[[a ty] l]|] eqn:Hf; [|done]. rewrite obind in Hlev.
    destruct (find_level _ _ _ _ _ _ _ _ Ht Hnd Hf) as (f & Hfa & Ha & _ & Hl & Hhl & Hndl).
    destruct (child_focus _ _ _ _ _ _ _ _ Ht Hnd Hf) as (f' & Hfa' & Hup & Hperm & Hsub). rewrite Hfa in Hfa'. injection Hfa' as <-.
    destruct (IH l a (left f) Hl Hndl Hhl Hlev) as (prev' & ptr' & (HtL & HndL & HhL & HupL & HpermL & HsubL) & Hdesc).
    exists prev', ptr'. split.
    + split_and!; [done|done|done| | |by auto].
      * intros σ' L' Hσ HL'. cbn [tree_upd]. rewrite Hf. apply Hup.
        -- intros b Hb Hb'. apply Hσ; [done|]. intros ?. by apply Hb', HsubL.
        -- apply HupL; [|done]. intros b Hb Hb'. apply Hσ; auto.
      * intros L'. cbn [tree_upd]. rewrite Hf. apply (Permutation_app_inv_r (addrs l)).
        rewrite <-!app_assoc, (Permutation_app_comm (addrs L)), app_assoc, Hperm, <-!app_assoc.
        rewrite HpermL. apply Permutation_app_head, Permutation_app_comm.
    + cbn [descend]. rewrite (bind_ok _ _ _ _ _ (search_siblings_ok s t prev ptr word w Ht Hnd Hh Hw)). rewrite Hf.
      rewrite (proj2 (ctrue_true a)) by done. cbn [negb]. by rewrite (bind_ok _ _ _ _ _ (get_file_run s a f Hfa)).
Qed.

Lemma descend_none s t prev ptr p words :
  tree_at (ffiles s) prev t ptr → NoDup (addrs t) → level_head (ffiles s) prev ptr → level_at t p = None → Forall2 holds words p →
  descend words ptr s = Ok (None, s).
Proof.
  intros Ht Hnd Hh Hlev HF. revert t prev ptr Ht Hnd Hh Hlev.
  induction HF as [|word w words p Hw HF IH]; intros t prev ptr Ht Hnd Hh Hlev; cbn [level_at] in Hlev; [done|].
  cbn [descend]. rewrite (bind_ok _ _ _ _ _ (search_siblings_ok s t prev ptr word w Ht Hnd Hh Hw)).
  destruct (tree_find t w) as [[[a ty] l]|] eqn:Hf; [|done]. rewrite obind in Hlev.
  destruct (find_level _ _ _ _ _ _ _ _ Ht Hnd Hf) as (f & Hfa & Ha & _ & Hl & Hhl & Hndl).
  rewrite (proj2 (ctrue_true a)) by done. cbn [negb]. rewrite (bind_ok _ _ _ _ _ (get_file_run s a f Hfa)). by apply (IH l a (left f)).
Qed.

(** *** A new file at the end of a level *)
Fixpoint tree_snoc (t n : dtree) : dtree :=
  match t with DNil => n | DNode a w ty ok l r => DNode a w ty ok l (tree_snoc r n) end.
Fixpoint last_addr (t : dtree) : Z :=
  match t with DNil => NULL | DNode a _ _ _ _ DNil => a | DNode _ _ _ _ _ r => last_addr r end.

(** everything of a file but its links *)
Definition data (f : file) : list Z * Z * Z * Z * Z * Z := (name f, type f, mode f, refer_count f, ops f, priv f).
Definition same_files (σ σ' : gmap Z file) : Prop := ∀ b, data <$> σ' !! b = data <$> σ !! b.

Lemma addrs_snoc t n : addrs (tree_snoc t n) ≡ₚ addrs t ++ addrs n.
Proof. induction t as [|a w ty ok l _ r IH]; [done|]. simpl. constructor. rewrite IH. by rewrite app_assoc. Qed.

Lemma last_addr_elem t : t ≠ DNil → last_addr t ∈ addrs t.
Proof.
  induction t as [|a w ty ok l _ r IH]; intros Hne; [done|]. destruct r as [|b w' ty' ok' l' r']; [by left|].
  right. apply elem_of_app. right. by apply IH.
Qed.

Lemma last_sibling_ok s t prev p n :
  tree_at (ffiles s) prev t p → t ≠ DNil → (length (addrs t) ≤ n)%nat → last_sibling n p s = Ok (last_addr t, s).
Proof.
  revert prev p n. induction t as [|a w ty ok l _ r IH]; intros prev p n Ht Hne Hn; [done|].
  destruct n as [|n]; [simpl in Hn; lia|]. destruct Ht as (-> & Ha & f & Hf & _ & _ & _ & _ & Hr). cbn [last_sibling].
  rewrite (bind_ok _ _ _ _ _ (get_file_run s a f Hf)). destruct r as [|b w' ty' ok' l' r'].
  - simpl in Hr. by rewrite Hr.
  - pose proof Hr as (E & Hb & _). assert (ctrue (right f) = true) as -> by (apply ctrue_true; congruence).
    rewrite (IH a (right f) n); [done|done|done|].
    set (r := DNode b w' ty' ok' l' r') in *. cbn [addrs length] in Hn. rewrite length_app in Hn. lia.
Qed.

Lemma tree_snoc_at σ σ' t prev p a fa w ty l :
  tree_at σ prev t p → t ≠ DNil → NoDup (addrs t) → a ≠ NULL → a ∉ addrs t →
  (∀ b, b ∈ addrs t → b ≠ last_addr t → σ' !! b = σ !! b) →
  (∀ f, σ !! last_addr t = Some f → σ' !! last_addr t = Some (set_right a f)) →
  σ' !! a = Some fa → holds (name fa) w → type fa = ty → parent fa = last_addr t → tree_at σ' a l (left fa) → right fa = NULL →
  tree_at σ' prev (tree_snoc t (DNode a w ty true l DNil)) p.
Proof.
  intros Ht Hne Hnd Ha Hnin Hσ Hlast Hfa Hw Hty Hpar Hleft Hright. revert prev p Ht. induction t as [|b w' ty' ok l' _ r IH]; [done|].
  intros prev p (-> & Hb & f & Hf & Hn & Htf & Hp & Hl & Hr). simpl in Hnd, Hnin. apply NoDup_cons in Hnd as [Hbn Hnd].
  apply NoDup_app in Hnd as (Hndl & Hdisj & Hndr). apply not_elem_of_cons in Hnin as [Hab Hnin]. apply not_elem_of_app in Hnin as [Hnl Hnr].
  cbn [tree_snoc]. destruct r as [|c w2 ty2 ok2 l2 r2].
  - simpl in *. split_and!; [done|done|]. exists (set_right a f). split_and!; try done; [by apply Hlast| |].
    + eapply tree_at_frame; [|exact Hl]. intros x Hx. apply Hσ; [right; apply elem_of_app; by left|]. intros ->. apply Hbn, elem_of_app. by left.
    + exists fa. done.
  - set (r := DNode c w2 ty2 ok2 l2 r2) in *. pose proof (last_addr_elem r ltac:(done)) as Hin.
    change (last_addr (DNode b w' ty' ok l' r)) with (last_addr r) in *.
    assert (b ≠ last_addr r) as Hbne by (intros ->; apply Hbn, elem_of_app; by right).
    split_and!; [done|done|]. exists f. split_and!; try done; [rewrite Hσ; [done|by left|done]| |].
    + eapply tree_at_frame; [|exact Hl]. intros x Hx. apply Hσ; [right; apply elem_of_app; by left|]. intros ->. by apply (Hdisj (last_addr r)).
    + apply IH; [done|done|done| |done|done|done]. intros x Hx Hxne. apply Hσ; [right; apply elem_of_app; by right|done].
Qed.

(** linking a file that is in no tree, with the level [l] below it *)
Lemma add_sibling_ok s t prev p a fa l :
  tree_at (ffiles s) prev t p → t ≠ DNil → NoDup (addrs t) → a ≠ NULL → a ∉ addrs t → ffiles s !! a = Some fa →
  (∀ b, b ∈ addrs l → (b ∉ addrs t) ∧ b ≠ a) → tree_at (ffiles s) a l (left fa) → right fa = NULL →
  ∃ s', add_sibling p a s = Ok (OK, s') ∧ fmem s' = fmem s ∧ same_files (ffiles s) (ffiles s') ∧
    (∀ b, b ∉ addrs t → b ≠ a → ffiles s' !! b = ffiles s !! b) ∧
    ∀ w, holds (name fa) w → tree_at (ffiles s') prev (tree_snoc t (DNode a w (type fa) true l DNil)) p.
Proof.
  intros Ht Hne Hnd Ha Hnin Hfa Hl Hleft Hright. pose proof (addrs_size _ _ _ _ Ht Hnd) as Hsz.
  pose proof (last_addr_elem t Hne) as Hin. destruct (tree_at_dom _ _ _ _ Ht _ Hin) as [[fz Hfz] Hz].
  set (z := last_addr t) in *. assert (z ≠ a) as Hza by congruence.
  set (s1 := put_file s a (set_parent z fa)). set (s2 := put_file s1 z (set_right a fz)).
  assert (ffiles s1 !! z = Some fz) as Hz1 by (cbn; by rewrite lookup_insert_ne).
  exists s2. split.
  - assert (p ≠ NULL) as Hp by (destruct t; [done|]; by destruct Ht as (-> & ? & _)).
    unfold add_sibling. rewrite (proj2 (ctrue_true p) Hp). cbn [negb]. rewrite (bind_ok tree_fuel _ s _ s) by done.
    rewrite (bind_ok _ _ _ _ _ (last_sibling_ok s t prev p (S (base.size (ffiles s))) Ht Hne ltac:(lia))). fold z.
    rewrite (bind_ok _ _ _ _ _ (upd_file_run s a fa (set_parent z) Hfa)). fold s1.
    by rewrite (bind_ok _ _ _ _ _ (upd_file_run s1 z fz (set_right a) Hz1)).
  - split; [done|]. split; [|split].
    + intros b. cbn. destruct (decide (b = z)) as [->|Hbz]; [rewrite lookup_insert_eq, Hfz; done|]. rewrite lookup_insert_ne by done.
      destruct (decide (b = a)) as [->|Hba]; [rewrite lookup_insert_eq, Hfa; done|]. by rewrite lookup_insert_ne.
    + intros b Hb Hba. cbn. assert (b ≠ z) by (by intros ->). by rewrite !lookup_insert_ne by congruence.
    + intros w Hw. apply (tree_snoc_at (ffiles s) _ t prev p a (set_parent z fa)); try done.
      * intros b Hb Hbz. fold z in Hbz. cbn. assert (b ≠ a) by (by intros ->). by rewrite !lookup_insert_ne by congruence.
      * intros f Hf. fold z in Hf |- *. rewrite Hfz in Hf. injection Hf as <-. cbn. by rewrite lookup_insert_eq.
      * cbn. by rewrite lookup_insert_ne, lookup_insert_eq.
      * eapply tree_at_frame; [|exact Hleft]. intros b Hb. cbn. destruct (Hl b Hb) as [Hbt Hba].
        assert (b ≠ z) by (by intros ->). by rewrite !lookup_insert_ne by congruence.
Qed.

(** *** Files on the kernel heap

    The heap holds the files, the headers of their contents and the blocks;
    the root files are static objects below the heap. *)
Record fs_ok_with (s : fstate A) (K : list Z) : Prop := {
  fk_store : store_ok K (fmem s);
  fk_files : ∀ a, is_Some (ffiles s !! a) → a ∈ K ∨ a ≤ KERNEL_HEAP_BOTTOM;
  fk_heads : ∀ a, is_Some (mheads (fmem s) !! a) → a ∈ K;
  fk_apart : ∀ a, is_Some (ffiles s !! a) → mheads (fmem s) !! a = None;
  fk_null : ffiles s !! NULL = None }.
Definition fs_ok s : Prop := ∃ K, fs_ok_with s K.

Definition with_heap s (h : A) : fstate A := mk_fstate (mk_mstore h (mblocks (fmem s)) (mheads (fmem s))) (ffiles s).

Lemma heap_malloc_ok s K len :
  store_ok K (fmem s) → 0 ≤ len < 2147483648 →
  ∃ p h, heap_malloc len s = Ok (p, with_heap s h) ∧ store_ok (if ctrue p then p :: K else K) (fmem (with_heap s h)) ∧
    (p ≠ NULL → (p ∉ K) ∧ KERNEL_HEAP_BOTTOM < p).
Proof.
  intros (L & HL & Hdom) Hlen. destruct (heap_malloc_law (L ++ K) (mheap (fmem s)) len 0 HL) as (p & h & Hr & HL'); [done|lia|].
  exists p, h. split; [|split].
  - unfold heap_malloc. apply (zoom_ok fmem_l _ s p (lset mheap_l h (fmem s))). exact (zoom_ok mheap_l _ (fmem s) p h Hr).
  - exists L. split; [|done]. simpl. destruct (ctrue p); [|done]. eapply heap_live_perm; [|exact HL']. apply Permutation_middle.
  - intros Hp. rewrite (proj2 (ctrue_true p) Hp) in HL'. destruct (heap_live_nodup _ _ HL') as [Hnd _]. apply NoDup_cons in Hnd as [Hn _].
    split; [intros ?; apply Hn, elem_of_app; by right|]. eapply heap_live_above; [exact HL'|by left].
Qed.

Lemma malloc_file_ok s :
  fs_ok s → ∃ p s', malloc_file s = Ok (p, s') ∧ fs_ok s' ∧ mblocks (fmem s') = mblocks (fmem s) ∧ mheads (fmem s') = mheads (fmem s) ∧
    ((p = NULL ∧ ffiles s' = ffiles s) ∨
     (p ≠ NULL ∧ ffiles s !! p = None ∧ KERNEL_HEAP_BOTTOM < p ∧ ffiles s' = <[p := zero_file]> (ffiles s))).
Proof.
  intros (K & [Hst Hf Hh Hap Hnull]). destruct (heap_malloc_ok s K SIZEOF_FILE Hst) as (p & h & Hr & Hst' & Hp); [done|].
  unfold malloc_file. rewrite (bind_ok _ _ _ _ _ Hr). destruct (ctrue p) eqn:Ep; cbn [when].
  - apply ctrue_true in Ep. destruct (Hp Ep) as [HpK Hab].
    assert (ffiles s !! p = None) as Hnone.
    { destruct (ffiles s !! p) eqn:E; [|done]. destruct (Hf p) as [?|?]; [by eexists|done|lia]. }
    exists p, (mk_fstate (fmem (with_heap s h)) (<[p := zero_file]> (ffiles s))). split; [done|]. split_and!; [|done|done|by right].
    exists (p :: K). split; simpl.
    + exact Hst'.
    + intros a [->|[_ Ha]]%lookup_insert_is_Some; [left; by left|]. destruct (Hf a Ha); [left; by right|by right].
    + intros a Ha. right. by apply Hh.
    + intros a [<-|[_ Ha]]%lookup_insert_is_Some; [|by apply Hap]. destruct (mheads (fmem s) !! p) eqn:E; [|done].
      destruct HpK. apply Hh. by eexists.
    + by rewrite lookup_insert_ne.
  - apply ctrue_false in Ep as ->. exists NULL, (with_heap s h). split; [done|]. split_and!; [|done|done|by left]. exists K. by split.
Qed.

Lemma same_files_refl σ : same_files σ σ.
Proof. done. Qed.
Lemma same_files_trans σ1 σ2 σ3 : same_files σ1 σ2 → same_files σ2 σ3 → same_files σ1 σ3.
Proof. intros H1 H2 b. by rewrite H2. Qed.

(** a name of the file system: not empty, and it fits into the file *)
Definition name_ok (w : list Z) : Prop := w ≠ [] ∧ lenZ w < MAX_PATH.

Definition filled (w : list Z) (ty : Z) : file := mk_file (w ++ replicate (Z.to_nat (MAX_PATH - lenZ w)) 0) ty 0 0 0 0 NULL NULL NULL.

Lemma fill_file_ok s t prev p a word w ty :
  tree_at (ffiles s) prev t p → t ≠ DNil → NoDup (addrs t) → a ≠ NULL → (a ∉ addrs t) → ffiles s !! a = Some zero_file →
  holds word w → name_ok w →
  ∃ s', fill_file a word ty p s = Ok ((), s') ∧ fmem s' = fmem s ∧ data <$> ffiles s' !! a = Some (data (filled w ty)) ∧
    (∀ b, b ≠ a → data <$> ffiles s' !! b = data <$> ffiles s !! b) ∧
    (∀ b, (b ∉ addrs t) → b ≠ a → ffiles s' !! b = ffiles s !! b) ∧
    tree_at (ffiles s') prev (tree_snoc t (DNode a w ty true DNil DNil)) p.
Proof.
  intros Ht Hne Hnd Ha Hnin Hz Hw [_ Hlen]. unfold fill_file. rewrite (bind_ok _ _ _ _ _ (get_file_run s a _ Hz)).
  set (n := w ++ replicate (Z.to_nat (MAX_PATH - lenZ w)) 0).
  assert (strcpy_safe (name zero_file) word MAX_PATH = Some n) as Hcpy.
  { unfold strcpy_safe. rewrite (strcpy_bytes_ok _ _ w) by (done || (pose proof length_zero_path; simpl; lia)).
    rewrite decide_True by lia. unfold n. rewrite padded_zeros by done. do 3 f_equal. change (name zero_file) with zero_path.
    replace (S (length w)) with (Z.to_nat (lenZ w + 1)) by lia. rewrite zero_path_drop by lia. f_equal. lia. }
  rewrite (bind_ok _ _ _ n s (deref_ok _ _ _ Hcpy)).
  rewrite (bind_ok _ _ _ _ _ (upd_file_run s a _ (set_name n) Hz)).
  assert (∀ s0 f, ffiles (put_file s0 a f) !! a = Some f) as Hput by (intros; apply lookup_insert_eq).
  rewrite (bind_ok _ _ _ _ _ (upd_file_run _ a _ (set_type ty) (Hput _ _))).
  rewrite (bind_ok _ _ _ _ _ (upd_file_run _ a _ (set_mode 0) (Hput _ _))).
  rewrite (bind_ok _ _ _ _ _ (upd_file_run _ a _ (set_priv NULL) (Hput _ _))).
  unfold put_file at 1. cbn [fmem ffiles put_file]. rewrite !insert_insert_eq.
  set (s1 := mk_fstate (fmem s) (<[a := set_priv NULL (set_mode 0 (set_type ty (set_name n zero_file)))]> (ffiles s))).
  assert (∀ b, b ≠ a → ffiles s1 !! b = ffiles s !! b) as Hs1 by (intros b Hb; cbn; by rewrite lookup_insert_ne).
  destruct (add_sibling_ok s1 t prev p a (filled w ty) DNil) as (s' & Hr & Hm & Hsame & Hout & Htree); try done.
  - eapply tree_at_frame; [|exact Ht]. intros b Hb. apply Hs1. by intros ->.
  - apply lookup_insert_eq.
  - by intros b ?%not_elem_of_nil.
  - exists s'. split; [by rewrite (bind_ok _ _ _ _ _ Hr)|]. split_and!; [done| | | |].
    + rewrite Hsame. cbn. by rewrite lookup_insert_eq.
    + intros b Hb. rewrite Hsame. by rewrite Hs1.
    + intros b Hb Hba. rewrite Hout by done. by apply Hs1.
    + apply Htree. apply padded_holds. split_and!; [by destruct Hw|done|done].
Qed.

(** *** Looking up paths in a changed tree *)
Lemma tree_lookup_cons t w p :
  p ≠ [] → tree_lookup t (w :: p) = '(_, _, l) ← tree_find t w; tree_lookup l p.
Proof. by destruct p. Qed.

Lemma tree_find_snoc t a w ty l w' :
  tree_find (tree_snoc t (DNode a w ty true l DNil)) w' =
  match tree_find t w' with Some x => Some x | None => if decide (w = w') then Some (a, ty, l) else None end.
Proof. induction t as [|b w2 ty2 ok l2 _ r IH]; [done|]. simpl. destruct (decide (w2 = w')); [done|apply IH]. Qed.

Lemma find_child_upd t w a ty l l' w' :
  tree_find t w = Some (a, ty, l) → tree_find (child_upd t w l') w' = if decide (w' = w) then Some (a, ty, l') else tree_find t w'.
Proof.
  induction t as [|b w2 ty2 ok l2 _ r IH]; simpl; [done|]. destruct (decide (w2 = w)) as [->|Ew].
  - intros [= -> -> ->]. simpl. destruct (decide (w = w')) as [->|]; [by rewrite decide_True|]. by rewrite decide_False by congruence.
  - intros Hf. simpl. destruct (decide (w2 = w')) as [->|]; [by rewrite decide_False|]. by apply IH.
Qed.

Lemma lookup_in t p L r : level_at t p = Some L → r ≠ [] → tree_lookup t (p ++ r) = tree_lookup L r.
Proof.
  revert t. induction p as [|w p IH]; intros t Hl Hr; [by injection Hl as ->|]. cbn [level_at app] in *.
  rewrite tree_lookup_cons by (by intros [_ ?]%app_eq_nil). destruct (tree_find t w) as [[[a ty] l]|]; [|done]. rewrite obind in *. by apply IH.
Qed.

Lemma lookup_upd_in t p L L' r : level_at t p = Some L → r ≠ [] → tree_lookup (tree_upd t p L') (p ++ r) = tree_lookup L' r.
Proof.
  revert t. induction p as [|w p IH]; intros t Hl Hr; [done|]. cbn [level_at app tree_upd] in *.
  destruct (tree_find t w) as [[[a ty] l]|] eqn:Hf; [|done]. rewrite obind in Hl.
  rewrite tree_lookup_cons by (by intros [_ ?]%app_eq_nil). rewrite (find_child_upd _ _ _ _ _ _ _ Hf), decide_True by done. by apply IH.
Qed.

Lemma lookup_upd_out t p L L' q :
  level_at t p = Some L → (∀ r, r ≠ [] → q ≠ p ++ r) → tree_lookup (tree_upd t p L') q = tree_lookup t q.
Proof.
  revert t q. induction p as [|w p IH]; intros t q Hl Hq.
  { destruct q as [|w' q]; [by destruct L'|]. exfalso. by apply (Hq (w' :: q)). }
  cbn [level_at tree_upd] in *. destruct (tree_find t w) as [[[a ty] l]|] eqn:Hf; [|done]. rewrite obind in Hl.
  destruct q as [|w' q]; [done|]. destruct (decide (q = [])) as [->|Hqn].
  - simpl. rewrite (find_child_upd _ _ _ _ _ _ _ Hf). case_decide; [subst w'|done]. by rewrite Hf.
  - rewrite !tree_lookup_cons, (find_child_upd _ _ _ _ _ _ _ Hf) by done. case_decide; [subst w'|done]. rewrite Hf. apply IH; [done|].
    intros r Hr ->. by apply (Hq r Hr).
Qed.

Lemma level_upd_in t p L L' r : level_at t p = Some L → level_at (tree_upd t p L') (p ++ r) = level_at L' r.
Proof.
  revert t. induction p as [|w p IH]; intros t Hl; [done|]. cbn [level_at app tree_upd] in *.
  destruct (tree_find t w) as [[[a ty] l]|] eqn:Hf; [|done]. rewrite obind in Hl.
  rewrite (find_child_upd _ _ _ _ _ _ _ Hf), decide_True by done. by apply IH.
Qed.

Lemma path_split (p q : list (list Z)) : (∃ r, r ≠ [] ∧ q = p ++ r) ∨ (∀ r, r ≠ [] → q ≠ p ++ r).
Proof.
  revert q. induction p as [|w p IH]; intros [|w' q].
  - right. intros r Hr E. by destruct Hr.
  - left. by exists (w' :: q).
  - by right.
  - destruct (decide (w = w')) as [<-|]; [|right; intros r _ E; simpl in E; congruence]. destruct (IH q) as [(r & Hr & ->)|Hno]; [left; by exists r|].
    right. intros r Hr E. simpl in E. injection E as ->. by apply (Hno r Hr).
Qed.

(** a file at a new path, in a level that has no such name *)
Lemma lookup_added t p L a w ty q :
  level_at t p = Some L → tree_find L w = None →
  tree_lookup (tree_upd t p (tree_snoc L (DNode a w ty true DNil DNil))) q =
  if decide (q = p ++ [w]) then Some (a, ty) else tree_lookup t q.
Proof.
  intros Hl Hn. destruct (path_split p q) as [(r & Hr & ->)|Hno].
  - rewrite (lookup_upd_in _ _ L), (lookup_in _ _ L) by done. destruct r as [|w' r]; [done|]. destruct (decide (r = [])) as [->|Hrn].
    + simpl. rewrite tree_find_snoc. destruct (decide (w = w')) as [<-|Hw].
      * rewrite Hn. by rewrite decide_True.
      * rewrite decide_False by (intros E%app_inv_head; congruence). by destruct (tree_find L w').
    + rewrite !tree_lookup_cons, tree_find_snoc by done. rewrite (decide_False (P := p ++ w' :: r = p ++ [w])).
      * destruct (tree_find L w') as [[[? ?] ?]|]; [done|]. case_decide; [|done]. simpl. by destruct r as [|? [|? ?]].
      * intros E. apply app_inv_head in E. injection E as _ ->. done.
  - rewrite (lookup_upd_out _ _ L) by done. rewrite decide_False; [done|]. intros ->. by apply (Hno [w]).
Qed.

Lemma level_upd t p L L' : level_at t p = Some L → level_at (tree_upd t p L') p = Some L'.
Proof. intros Hl. rewrite <-(app_nil_r p). by rewrite app_nil_r at 1; rewrite (level_upd_in _ _ L). Qed.

(** *** The shape of a hierarchy

    The first file of a level is the mark, which has no name, and no two files
    of a level have the same name. *)
Definition level_marked (t : dtree) : Prop := match t with DNil => True | DNode _ w _ _ _ _ => w = [] end.
Fixpoint shaped (t : dtree) : Prop :=
  match t with
  | DNil => True
  | DNode _ w _ _ l r => tree_find r w = None ∧ level_marked l ∧ shaped l ∧ shaped r
  end.
Definition shape (t : dtree) : Prop := level_marked t ∧ shaped t.

Lemma tree_find_elem t w a ty l : tree_find t w = Some (a, ty, l) → a ∈ addrs t.
Proof.
  induction t as [|c w2 ty2 ok2 l2 _ r2 IHr]; simpl; [done|]. case_decide; [intros [= -> -> ->]; by left|].
  intros Hf. right. apply elem_of_app. right. by apply IHr.
Qed.

Lemma shaped_below t w a ty l : shaped t → tree_find t w = Some (a, ty, l) → shape l.
Proof.
  induction t as [|b w' ty' ok l' _ r IH]; simpl; [done|]. intros (_ & Hm & Hl & Hr). case_decide; [by intros [= -> -> ->]|by apply IH].
Qed.

Lemma child_upd_none t w l' w' : tree_find t w' = None → tree_find (child_upd t w l') w' = None.
Proof.
  induction t as [|b w2 ty ok l _ r IH]; simpl; [done|]. destruct (decide (w2 = w')) as [->|]; [done|]. intros Hn.
  destruct (decide (w2 = w)); simpl; (rewrite decide_False by done; by auto).
Qed.

Lemma shaped_child_upd t w l' : shaped t → shape l' → shaped (child_upd t w l').
Proof.
  intros Ht [Hm Hl']. induction t as [|b w2 ty ok l _ r IH]; simpl in *; [done|]. destruct Ht as (Hn & Hm2 & Hl & Hr).
  destruct (decide (w2 = w)); simpl; split_and!; auto. by apply child_upd_none.
Qed.

Lemma shape_upd t p L L' : shape t → level_at t p = Some L → shape L' → shape (tree_upd t p L').
Proof.
  intros Ht. revert t Ht. induction p as [|w p IH]; intros t [Hm Ht] Hl HL'; [done|]. cbn [level_at tree_upd] in *.
  destruct (tree_find t w) as [[[a ty] l]|] eqn:Hf; [|done]. rewrite obind in Hl.
  pose proof (shaped_below _ _ _ _ _ Ht Hf) as Hsl. split; [|apply shaped_child_upd; [done|by apply IH]].
  destruct t; [done|]. simpl in *. by case_decide.
Qed.

Lemma shape_level t p L : shape t → level_at t p = Some L → shape L.
Proof.
  intros Ht. revert t Ht. induction p as [|w p IH]; intros t Ht Hl; [by injection Hl as <-|]. cbn [level_at] in Hl.
  destruct (tree_find t w) as [[[a ty] l]|] eqn:Hf; [|done]. rewrite obind in Hl. apply (IH l); [|done]. destruct Ht. by eapply shaped_below.
Qed.

Lemma shape_snoc t a w ty : shape t → t ≠ DNil → tree_find t w = None → shape (tree_snoc t (DNode a w ty true DNil DNil)).
Proof.
  intros [Hm Ht] Hne Hn. split; [by destruct t|]. clear Hm Hne. induction t as [|b w2 ty2 ok l _ r IH]; simpl in *; [done|].
  destruct Ht as (Hn2 & Hm2 & Hl & Hr). destruct (decide (w2 = w)) as [|Hw]; [done|]. split_and!; auto.
  by rewrite tree_find_snoc, Hn2, decide_False.
Qed.

(** ** The operations on a hierarchy *)
Definition hierarchy s (root : Z) (t : dtree) : Prop := 
  tree_at (ffiles s) NULL t root ∧ NoDup (addrs t) ∧ shape t ∧ (∀ a, a ∈ addrs t → a = root ∨ KERNEL_HEAP_BOTTOM < a) ∧ fs_ok s.

(** [s'] is [s] with the new file [a] *)
Record added s s' (a : Z) (w : list Z) (ty : Z) : Prop := {
  ad_fresh : ffiles s !! a = None;
  ad_above : KERNEL_HEAP_BOTTOM < a;
  ad_data : data <$> ffiles s' !! a = Some (data (filled w ty));
  ad_others : ∀ b, b ≠ a → data <$> ffiles s' !! b = data <$> ffiles s !! b;
  ad_blocks : mblocks (fmem s') = mblocks (fmem s);
  ad_heads : mheads (fmem s') = mheads (fmem s) }.

Lemma upd_addrs t p L L' new :
  addrs (tree_upd t p L') ++ addrs L ≡ₚ addrs t ++ addrs L' → addrs L' ≡ₚ addrs L ++ new →
  addrs (tree_upd t p L') ≡ₚ addrs t ++ new.
Proof.
  intros Hp HL. apply (Permutation_app_inv_r (addrs L)). rewrite Hp, HL, <-app_assoc.
  apply Permutation_app_head, Permutation_app_comm.
Qed.

Lemma fresh_not_in s root t a : hierarchy s root t → ffiles s !! a = None → a ∉ addrs t.
Proof. intros (Ht & _) Hn Hin. destruct (tree_at_dom _ _ _ _ Ht _ Hin) as [[f Hf] _]. congruence. Qed.

Lemma fs_ok_data s s' :
  fs_ok s → fmem s' = fmem s → (∀ b, is_Some (ffiles s' !! b) ↔ is_Some (ffiles s !! b)) → fs_ok s'.
Proof.
  intros (K & [Hst Hf Hh Hap Hnull]) E Hsame. exists K. split; rewrite ?E; try done; [intros a Ha%Hsame; auto..|].
  apply eq_None_not_Some. rewrite Hsame, Hnull. by intros [? ?].
Qed.

(** a file appended to a level of the hierarchy *)
(** *** Memory for files *)

Definition allocate : nat → A → option A := heap_allocate SIZEOF_FILE 1.
(** one of the next [n] allocations of a file fails *)
Definition no_memory (n : nat) s : Prop := allocate n (mheap (fmem s)) = None.
(** the heap of [s'] is that of [s] after at most [n] allocations of a file *)
Definition spent (n : nat) s s' : Prop := ∃ k, (k ≤ n)%nat ∧ allocate k (mheap (fmem s)) = Some (mheap (fmem s')).

Lemma no_memory_weaken n m s : no_memory n s → (n ≤ m)%nat → no_memory m s.
Proof. apply allocate_none. Qed.

Lemma spent_weaken n m s s' : spent n s s' → (n ≤ m)%nat → spent m s s'.
Proof. intros (k & Hk & E) Hn. exists k. split; [lia|done]. Qed.
Lemma spent_refl s s' : fmem s' = fmem s → spent 0 s s'.
Proof. intros E. exists 0%nat. split; [lia|]. cbn. by rewrite E. Qed.
Lemma spent_trans n m s1 s2 s3 : spent n s1 s2 → spent m s2 s3 → spent (n + m) s1 s3.
Proof. intros (k & Hk & E) (l & Hl & E'). exists (k + l)%nat. split; [lia|]. unfold allocate in *. by rewrite allocate_add, E. Qed.
Lemma spent_same n s1 s2 s3 : spent n s1 s2 → fmem s3 = fmem s2 → spent n s1 s3.
Proof. intros (k & Hk & E) Em. exists k. by rewrite Em. Qed.
Lemma no_memory_after n m s s' : spent n s s' → no_memory m s' → no_memory (n + m) s.
Proof.
  intros (k & Hk & E) Hm. apply (no_memory_weaken (k + m)); [|lia]. unfold no_memory, allocate in *. by rewrite allocate_add, E.
Qed.

Lemma malloc_file_heap s p s' : malloc_file s = Ok (p, s') → (p = NULL → no_memory 1 s) ∧ (p ≠ NULL → spent 1 s s').
Proof.
  unfold malloc_file, heap_malloc, zoom. intros (a & s1 & E & E')%bind_Ok_inv. cbn [lget lset fmem_l mheap_l] in E. unfold no_memory, spent, allocate.
  destruct (heap_malloc_align SIZEOF_FILE 1 (mheap (fmem s))) as [[a' h]|] eqn:Em; [|done]. injection E as -> <-.
  apply bind_Ok_inv in E' as ([] & s2 & E' & E2). injection E2 as -> ->. pose proof (allocate_one _ _ _ _ _ Em) as Ea. split.
  - intros ->. exact Ea.
  - intros Hp. exists 1%nat. split; [done|]. rewrite Ea. rewrite (proj2 (ctrue_true p) Hp) in *. by injection E' as <-.
Qed.

Lemma append_file_ok s root t p L prev' ptr' word w ty :
  hierarchy s root t → focused (ffiles s) NULL t root p L prev' ptr' → level_at t p = Some L → tree_find L w = None → L ≠ DNil →
  holds word w → name_ok w →
  ∃ a s1, malloc_file s = Ok (a, s1) ∧
    ((a = NULL ∧ ffiles s1 = ffiles s ∧ mblocks (fmem s1) = mblocks (fmem s) ∧ mheads (fmem s1) = mheads (fmem s) ∧ fs_ok s1 ∧ no_memory 1 s) ∨
     (a ≠ NULL ∧ ∃ s', fill_file a word ty ptr' s1 = Ok ((), s') ∧ added s s' a w ty ∧ spent 1 s s' ∧
        hierarchy s' root (tree_upd t p (tree_snoc L (DNode a w ty true DNil DNil))))).
Proof.
  intros Hhier (HtL & HndL & HhL & Hup & Hperm & Hsub) Hl Hnone HneL Hw Hok. pose proof Hhier as (Ht & Hnd & Hsh & Habove & Hfs).
  destruct (malloc_file_ok s Hfs) as (a & s1 & Hr & Hfs1 & Eb & Eh & [[-> Ef]|(Ha & Hfresh & Hab & Ef)]).
  - exists NULL, s1. split; [done|]. left. destruct (malloc_file_heap _ _ _ Hr) as [Hm _]. auto 10.
  - exists a, s1. split; [done|]. right. split; [done|]. pose proof (fresh_not_in _ _ _ _ Hhier Hfresh) as Hnin.
    assert (∀ b, b ≠ a → ffiles s1 !! b = ffiles s !! b) as Hs1 by (intros b Hb; rewrite Ef; by rewrite lookup_insert_ne).
    destruct (fill_file_ok s1 L prev' ptr' a word w ty) as (s' & Hfill & Hm & Hda & Hdo & Hout & Htree); try done.
    { eapply tree_at_frame; [|exact HtL]. intros b Hb. apply Hs1. intros ->. by apply Hnin, Hsub. }
    { intros ?. by apply Hnin, Hsub. }
    { rewrite Ef. apply lookup_insert_eq. }
    exists s'. split; [done|]. split; [|split; [by eapply spent_same; [apply (malloc_file_heap _ _ _ Hr)|]|]].
    + split; try done; [intros b Hb; by rewrite Hdo, Hs1|by rewrite Hm|by rewrite Hm].
    + split_and!.
      * apply Hup; [|done]. intros b Hb HbL. assert (b ≠ a) by (by intros ->). rewrite Hout by done. by apply Hs1.
      * rewrite (upd_addrs t p L _ [a]); [|done|by rewrite addrs_snoc]. apply NoDup_app. split_and!; [done| |apply NoDup_singleton].
        intros b Hb ->%list_elem_of_singleton. done.
      * eapply shape_upd; [done|done|]. apply shape_snoc; [by eapply shape_level|done|done].
      * intros b. rewrite (upd_addrs t p L _ [a]); [|done|by rewrite addrs_snoc]. intros [?| ->%list_elem_of_singleton]%elem_of_app; auto.
      * apply (fs_ok_data s1); [done|done|]. intros b. rewrite <-!(fmap_is_Some data). destruct (decide (b = a)) as [->|Hb].
        -- rewrite Hda, Ef, lookup_insert_eq. split; intros; by eexists.
        -- by rewrite Hdo.
Qed.

Lemma find_some_nonnull s t prev p w a ty l : tree_at (ffiles s) prev t p → NoDup (addrs t) → tree_find t w = Some (a, ty, l) → a ≠ NULL.
Proof. intros Ht Hnd Hf. by destruct (find_level _ _ _ _ _ _ _ _ Ht Hnd Hf) as (f & _ & Ha & _). Qed.

Lemma create_file_ok s root t p w words word :
  hierarchy s root t → Forall2 holds words p → holds word w → name_ok w →
  let run := hierarchy_create_file root (words ++ [word]) s in
  match level_at t p with
  | None => run = Ok (- ERR_NOT_PRESENT, s)
  | Some L =>
      match tree_find L w with
      | Some _ => run = Ok (- ERR_EXIST, s)
      | None => L ≠ DNil → ∃ a s1, malloc_file s = Ok (a, s1) ∧ (a = NULL → run = Err BadAccess ∧ no_memory 1 s) ∧
          (a ≠ NULL → ∃ s', run = Ok (OK, s') ∧ added s s' a w FILE_TYPE_REGULAR ∧ spent 1 s s' ∧
             hierarchy s' root (tree_upd t p (tree_snoc L (DNode a w FILE_TYPE_REGULAR true DNil DNil))))
      end
  end.
Proof.
  intros Hhier HF Hw Hok run. pose proof Hhier as (Ht & Hnd & Hsh & Habove & Hfs).
  assert (level_head (ffiles s) NULL root) as Hh by (by left).
  unfold run, hierarchy_create_file. rewrite last_snoc, removelast_last.
  destruct (level_at t p) as [L|] eqn:Hl.
  2:{ by rewrite (bind_ok _ _ _ _ _ (descend_none s t NULL root p words Ht Hnd Hh Hl HF)). }
  destruct (focus s t NULL root p words L Ht Hnd Hh Hl HF) as (prev' & ptr' & Hfoc & Hdesc).
  rewrite (bind_ok _ _ _ _ _ Hdesc). pose proof Hfoc as (HtL & HndL & HhL & _).
  rewrite (bind_ok _ _ _ _ _ (search_siblings_ok s L prev' ptr' word w HtL HndL HhL Hw)).
  destruct (tree_find L w) as [[[b ty] l]|] eqn:Hf.
  { by rewrite (proj2 (ctrue_true b) (find_some_nonnull _ _ _ _ _ _ _ _ HtL HndL Hf)). }
  intros HneL. change (ctrue NULL) with false. cbv iota.
  destruct (append_file_ok s root t p L prev' ptr' word w FILE_TYPE_REGULAR Hhier Hfoc Hl Hf HneL Hw Hok)
    as (a & s1 & Hr & Hcase); exists a, s1; split; [done|]; rewrite (bind_ok _ _ _ _ _ Hr). split.
  - intros ->. destruct Hcase as [(_ & Ef & _ & _ & _ & Hm)|[? _]]; [|done]. split; [|done]. apply bind_err. unfold fill_file. apply bind_err.
    unfold get_file, zoom, load. simpl. destruct Hfs as (K & Hk). by rewrite Ef, (fk_null _ _ Hk).
  - intros Ha. destruct Hcase as [[? _]|(_ & s' & Hfill & Had & Hsp & Hh')]; [done|]. exists s'.
    split; [by rewrite (bind_ok _ _ _ _ _ Hfill)|done].
Qed.

(** *** [hierarchy_create_directory] *)

(** the files there were are the same, but for their links *)
Record grown s s' : Prop := {
  gr_files : ∀ b, is_Some (ffiles s !! b) → data <$> ffiles s' !! b = data <$> ffiles s !! b;
  gr_new : ∀ b f, ffiles s !! b = None → ffiles s' !! b = Some f → KERNEL_HEAP_BOTTOM < b ∧ priv f = NULL ∧ refer_count f = 0;
  gr_blocks : mblocks (fmem s') = mblocks (fmem s);
  gr_heads : mheads (fmem s') = mheads (fmem s) }.

Lemma grown_refl s : grown s s.
Proof. split; try done. intros b f ->. done. Qed.

Lemma grown_trans s1 s2 s3 : grown s1 s2 → grown s2 s3 → grown s1 s3.
Proof.
  intros [F1 N1 B1 H1] [F2 N2 B2 H2]. split; [| |by rewrite B2|by rewrite H2].
  - intros b Hb. rewrite F2; [by apply F1|]. rewrite <-(fmap_is_Some data), F1 by done. by apply fmap_is_Some.
  - intros b f Hb Hb3. destruct (ffiles s2 !! b) as [g|] eqn:E; [|by apply N2]. destruct (N1 b g Hb E) as (? & Ep & Er).
    specialize (F2 b (mk_is_Some _ _ E)). rewrite Hb3, E in F2. split; [done|]. injection F2. split; congruence.
Qed.

Lemma grown_added s s' a w ty : added s s' a w ty → grown s s'.
Proof.
  intros [Hf Hab Hd Ho Hb Hh]. split; try done.
  - intros b [f Hb']. apply Ho. intros ->. congruence.
  - intros b f Hb' Hb2. destruct (decide (b = a)) as [->|Hne]; [rewrite Hb2 in Hd; by injection Hd|]. exfalso.
    specialize (Ho b Hne). by rewrite Hb2, Hb' in Ho.
Qed.

(** a level for a directory that has none yet *)
Lemma child_new σ σ' t prev p w a ty f l' m :
  tree_at σ prev t p → NoDup (addrs t) → tree_find t w = Some (a, ty, DNil) → σ !! a = Some f →
  (∀ b, b ∈ addrs t → b ≠ a → σ' !! b = σ !! b) → σ' !! a = Some (set_left m f) → tree_at σ' a l' m →
  tree_at σ' prev (child_upd t w l') p.
Proof.
  intros Ht Hnd Hf Hfa Hσ Ha' Hl'. revert prev p Ht Hf. induction t as [|b w' ty' ok l _ r IH]; intros prev p Ht Hf; simpl in *; [done|].
  destruct Ht as (-> & Hb & g & Hg & Hn & Hty & Hp & Hl & Hr). apply NoDup_cons in Hnd as [Hbn Hnd].
  apply NoDup_app in Hnd as (Hndl & Hdisj & Hndr). destruct (decide (w' = w)) as [->|Hne].
  - injection Hf as -> -> ->. rewrite Hfa in Hg. injection Hg as <-. simpl. split_and!; [done|done|]. exists (set_left m f).
    split_and!; try done. eapply tree_at_frame; [|exact Hr]. intros c Hc. apply Hσ; [by right|]. intros ->. by apply Hbn.
  - simpl. pose proof (tree_find_elem _ _ _ _ _ Hf) as Har.
    split_and!; [done|done|]. exists g. split_and!; try done.
    + rewrite Hσ; [done|by left|]. intros ->. apply Hbn, elem_of_app. by right.
    + eapply tree_at_frame; [|exact Hl]. intros c Hc. apply Hσ; [right; apply elem_of_app; by left|]. intros ->. by apply (Hdisj a).
    + apply IH; [done| |done|done]. intros c Hc. apply Hσ. right. apply elem_of_app. by right.
Qed.

Lemma addrs_child_new t w a ty l' : tree_find t w = Some (a, ty, DNil) → addrs (child_upd t w l') ≡ₚ addrs t ++ addrs l'.
Proof.
  induction t as [|b w' ty' ok l _ r IH]; simpl; [done|]. destruct (decide (w' = w)) as [->|Hne].
  - intros [= -> -> ->]. simpl. constructor. apply Permutation_app_comm.
  - intros Hf. simpl. constructor. by rewrite (IH Hf), app_assoc.
Qed.

Definition mark (m : Z) : dtree := DNode m [] FILE_TYPE_MARK true DNil DNil.

(** a path the user can name *)
Definition path_ok (q : list (list Z)) : Prop := Forall (λ w, w ≠ []) q.

Lemma lookup_marked t p L w a ty m q :
  level_at t p = Some L → tree_find L w = Some (a, ty, DNil) → path_ok q →
  tree_lookup (tree_upd t p (child_upd L w (mark m))) q = tree_lookup t q.
Proof.
  intros Hl Hf Hq. destruct (path_split p q) as [(r & Hr & ->)|Hno]; [|by apply (lookup_upd_out _ _ L)].
  rewrite (lookup_upd_in _ _ L), (lookup_in _ _ L) by done. apply Forall_app in Hq as [_ Hq]. destruct r as [|w' r]; [done|].
  destruct (decide (r = [])) as [->|Hrn].
  - simpl. rewrite (find_child_upd _ _ _ _ _ _ _ Hf). case_decide; [subst w'; by rewrite Hf|done].
  - rewrite !tree_lookup_cons, (find_child_upd _ _ _ _ _ _ _ Hf) by done. case_decide; [subst w'; rewrite Hf|done]. rewrite !obind.
    apply Forall_cons in Hq as [_ Hq]. destruct r as [|w2 r]; [done|]. apply Forall_cons in Hq as [Hw2 _].
    destruct r; cbn [tree_lookup tree_find mark]; by rewrite decide_False.
Qed.

(** the pointers of a new mark [m] below the directory [a] *)
Lemma link_mark_ok s1 a f m :
  fs_ok s1 → a ≠ NULL → ffiles s1 !! a = Some f → left f = NULL → m ≠ a → ffiles s1 !! m = Some zero_file →
  ∃ s', (upd_file m (set_type FILE_TYPE_MARK) ;; rc ← add_child a m; ASSERT (! rc) ;; mret true) s1 = Ok (true, s') ∧ fs_ok s' ∧
    fmem s' = fmem s1 ∧ ffiles s' !! m = Some (set_parent a (set_type FILE_TYPE_MARK zero_file)) ∧
    ffiles s' !! a = Some (set_left m f) ∧ ∀ b, b ≠ m → b ≠ a → ffiles s' !! b = ffiles s1 !! b.
Proof.
  intros Hfs Ha Hfa Hleft Hma Hz. rewrite (bind_ok _ _ _ _ _ (upd_file_run s1 m _ (set_type FILE_TYPE_MARK) Hz)).
  set (s2 := put_file s1 m (set_type FILE_TYPE_MARK zero_file)).
  assert (ffiles s2 !! a = Some f) as Hfa2 by (cbn; by rewrite lookup_insert_ne).
  set (s3 := put_file s2 a (set_left m f)). set (s4 := put_file s3 m (set_parent a (set_type FILE_TYPE_MARK zero_file))).
  assert (add_child a m s2 = Ok (OK, s4)) as Hadd.
  { unfold add_child. rewrite (proj2 (ctrue_true a) Ha). cbn [negb]. rewrite (bind_ok _ _ _ _ _ (get_file_run s2 a f Hfa2)).
    rewrite Hleft. change (! NULL) with true. cbv iota.
    rewrite (bind_ok _ _ _ _ _ (upd_file_run s2 a f (set_left m) Hfa2)). fold s3.
    assert (ffiles s3 !! m = Some (set_type FILE_TYPE_MARK zero_file)) as Hm3 by (cbn; rewrite lookup_insert_ne by done; apply lookup_insert_eq).
    by rewrite (bind_ok _ _ _ _ _ (upd_file_run s3 m _ (set_parent a) Hm3)). }
  rewrite (bind_ok _ _ _ _ _ Hadd). exists s4. split; [done|].
  assert (ffiles s4 !! m = Some (set_parent a (set_type FILE_TYPE_MARK zero_file))) as H4m by apply lookup_insert_eq.
  assert (ffiles s4 !! a = Some (set_left m f)) as H4a by (cbn; rewrite lookup_insert_ne by done; apply lookup_insert_eq).
  assert (∀ b, b ≠ m → b ≠ a → ffiles s4 !! b = ffiles s1 !! b) as H4 by (intros; cbn; by rewrite !lookup_insert_ne by congruence).
  split_and!; try done. apply (fs_ok_data s1); [done|done|]. intros b.
  destruct (decide (b = m)) as [->|Hbm]; [rewrite H4m, Hz; split; intros; by eexists|].
  destruct (decide (b = a)) as [->|Hba]; [rewrite H4a, Hfa; split; intros; by eexists|]. by rewrite H4.
Qed.

Lemma add_mark_ok s root t p L w a ty l words :
  hierarchy s root t → level_at t p = Some L → Forall2 holds words p → tree_find L w = Some (a, ty, l) →
  ∃ ok s' t', add_mark a s = Ok (ok, s') ∧ hierarchy s' root t' ∧ grown s s' ∧ (∀ q, path_ok q → tree_lookup t' q = tree_lookup t q) ∧
    (ok = true → ∃ L' l', level_at t' p = Some L' ∧ tree_find L' w = Some (a, ty, l') ∧ l' ≠ DNil) ∧
    (ok = true → spent 1 s s') ∧ (ok = false → no_memory 1 s).
Proof.
  intros Hhier Hl HF Hf. pose proof Hhier as (Ht & Hnd & Hsh & Habove & Hfs). assert (level_head (ffiles s) NULL root) as Hh by (by left).
  destruct (focus s t NULL root p words L Ht Hnd Hh Hl HF) as (prev' & ptr' & (HtL & HndL & _ & Hup & Hperm & Hsub) & _).
  destruct (find_level _ _ _ _ _ _ _ _ HtL HndL Hf) as (f & Hfa & Ha & Hty & Hleft & _).
  unfold add_mark. rewrite (bind_ok _ _ _ _ _ (get_file_run s a f Hfa)).
  destruct l as [|c w2 ty2 ok2 l2 r2].
  2:{ destruct Hleft as (E & Hc & _). assert (ctrue (left f) = true) as -> by (apply ctrue_true; congruence). cbn [negb].
      exists true, s, t. split_and!; [done|done|apply grown_refl|done| |intros _; by eapply spent_weaken; [apply spent_refl|lia]|done]. intros _. eexists L, _. done. }
  simpl in Hleft. assert (ctrue (left f) = false) as -> by (by rewrite Hleft). cbn [negb].
  destruct (malloc_file_ok s Hfs) as (m & s1 & Hr & Hfs1 & Eb & Eh & [[-> Ef]|(Hm & Hfresh & Hab & Ef)]); rewrite (bind_ok _ _ _ _ _ Hr).
  - change (! NULL) with true. cbv iota. exists false, s1, t. split_and!; [done| |split; rewrite ?Ef; try done|done|done|done|intros _; by apply (malloc_file_heap _ _ _ Hr)].
    + split_and!; [by rewrite Ef|done|done..].
    + intros b g ->. done.
  - rewrite (proj2 (ctrue_true m) Hm). cbn [negb]. pose proof (fresh_not_in _ _ _ _ Hhier Hfresh) as Hnin.
    assert (m ≠ a) as Hma by congruence.
    assert (∀ b, b ≠ m → ffiles s1 !! b = ffiles s !! b) as Hs1 by (intros; rewrite Ef; by rewrite lookup_insert_ne).
    destruct (link_mark_ok s1 a f m) as (s4 & Hrun & Hfs4 & Em & H4m & H4a & H4); [done|done|by rewrite Hs1|done|done| |].
    { rewrite Ef. apply lookup_insert_eq. }
    exists true, s4, (tree_upd t p (child_upd L w (mark m))). split_and!; [done| | |by intros q Hq; eapply lookup_marked| |intros _; by eapply spent_same; [apply (malloc_file_heap _ _ _ Hr)|]|done].
    + split_and!; [|rewrite (upd_addrs t p L _ [m]); [|done|by rewrite (addrs_child_new _ _ _ _ _ Hf)]| | |done].
      * apply Hup.
        -- intros b Hb HbL. assert (b ≠ m) by (by intros ->). rewrite H4; [by apply Hs1|done|].
           intros ->. by eapply HbL, tree_find_elem.
        -- eapply (child_new (ffiles s)); [done|done|done|done| |exact H4a|].
           ++ intros b Hb Hba. assert (b ≠ m) by (intros ->; by apply Hnin, Hsub). rewrite H4 by done. by apply Hs1.
           ++ simpl. split_and!; [done|done|]. eexists. split_and!; [exact H4m| |done|done|done|done].
              split; [constructor|]. by eexists.
      * apply NoDup_app. split_and!; [done| |apply NoDup_singleton]. intros b Hb ->%list_elem_of_singleton. done.
      * eapply shape_upd; [done|done|]. destruct (shape_level _ _ _ Hsh Hl) as [HmL HsL]. split; [|by apply shaped_child_upd].
        destruct L; [done|]. simpl in *. by case_decide.
      * intros b. rewrite (upd_addrs t p L _ [m]); [|done|by rewrite (addrs_child_new _ _ _ _ _ Hf)].
        intros [?| ->%list_elem_of_singleton]%elem_of_app; auto.
    + split; [| |by rewrite Em|by rewrite Em].
      * intros b Hb. assert (b ≠ m) by (intros ->; rewrite Hfresh in Hb; by destruct Hb).
        destruct (decide (b = a)) as [->|Hba]; [by rewrite H4a, Hfa|]. rewrite H4 by done. by rewrite Hs1.
      * intros b g Hb Hb4. destruct (decide (b = m)) as [->|Hbm]; [rewrite H4m in Hb4; by injection Hb4 as <-|].
        destruct (decide (b = a)) as [->|Hba]; [congruence|]. rewrite H4, Hs1 in Hb4 by done. congruence.
    + intros _. exists (child_upd L w (mark m)), (mark m).
      split_and!; [|by rewrite (find_child_upd _ _ _ _ _ _ _ Hf), decide_True|done].
      rewrite <-(app_nil_r p) at 2. by apply (level_upd_in _ _ L).
Qed.

Lemma descend_app u v ptr s :
  descend (u ++ v) ptr s = (descend u ptr ≫= λ o, match o with Some q => descend v q | None => mret None end) s.
Proof.
  revert ptr s. induction u as [|word u IH]; intros ptr s; [done|]. cbn [app descend]. rewrite !bind_assoc_run.
  unfold mbind, M_bind. destruct (search_siblings ptr word s) as [[found s1]|]; [|done].
  destruct (! found); [done|]. destruct (get_file found s1) as [[f s2]|]; [|done]. apply IH.
Qed.

Lemma level_snoc t p L w a ty l : level_at t p = Some L → tree_find L w = Some (a, ty, l) → level_at t (p ++ [w]) = Some l.
Proof.
  revert t. induction p as [|w' p IH]; intros t Hl Hf; cbn [app level_at] in *; [injection Hl as ->; by rewrite Hf|].
  destruct (tree_find t w') as [[[a' ty'] l']|]; [|done]. rewrite obind in *. by apply IH.
Qed.

Lemma lookup_snoc t p L w : level_at t p = Some L → tree_lookup t (p ++ [w]) = '(a, ty, _) ← tree_find L w; Some (a, ty).
Proof. intros Hl. by rewrite (lookup_in _ _ L). Qed.

(** the level below a directory, as the loop finds it *)
Lemma descend_snoc s root t p L words word w a ty l :
  hierarchy s root t → level_at t p = Some L → Forall2 holds words p → holds word w → tree_find L w = Some (a, ty, l) →
  ∃ c, ffiles s !! a = Some c ∧ descend (words ++ [word]) root s = Ok (Some (left c), s).
Proof.
  intros (Ht & Hnd & _) Hl HF Hw Hf. assert (level_head (ffiles s) NULL root) as Hh by (by left).
  destruct (focus s t NULL root p words L Ht Hnd Hh Hl HF) as (prev' & ptr' & (HtL & HndL & HhL & _) & Hdesc).
  destruct (find_level _ _ _ _ _ _ _ _ HtL HndL Hf) as (c & Hc & Ha & _). exists c. split; [done|].
  rewrite descend_app, (bind_ok _ _ _ _ _ Hdesc). cbn [descend].
  rewrite (bind_ok _ _ _ _ _ (search_siblings_ok s L prev' ptr' word w HtL HndL HhL Hw)), Hf.
  rewrite (proj2 (ctrue_true a) Ha). cbn [negb]. by rewrite (bind_ok _ _ _ _ _ (get_file_run s a c Hc)).
Qed.

Lemma enter_directory_ok s root t p L words word w ptr :
  hierarchy s root t → level_at t p = Some L → L ≠ DNil → Forall2 holds words p → descend words root s = Ok (Some ptr, s) →
  holds word w → name_ok w →
  ∃ r s' t', enter_directory word ptr s = Ok (r, s') ∧ hierarchy s' root t' ∧ grown s s' ∧
    (∀ q, q ≠ p ++ [w] ∨ is_Some (tree_lookup t q) → tree_lookup t' q = tree_lookup t q) ∧
    match r with
    | inl e => (e = - ERR_EXIST ∧ ∃ a ty, tree_lookup t (p ++ [w]) = Some (a, ty) ∧ ty ≠ FILE_TYPE_DIR) ∨ (e = - ERR_OUT_OF_MEMORY ∧ no_memory 1 s)
    | inr a => spent 1 s s' ∧ ∃ L' l', level_at t' p = Some L' ∧ tree_find L' w = Some (a, FILE_TYPE_DIR, l')
    end.
Proof.
  intros Hhier Hl HneL HF Hdesc Hw Hok. pose proof Hhier as (Ht & Hnd & Hsh & Habove & Hfs). assert (level_head (ffiles s) NULL root) as Hh by (by left).
  destruct (focus s t NULL root p words L Ht Hnd Hh Hl HF) as (prev' & ptr' & Hfoc & Hdesc'). rewrite Hdesc in Hdesc'. injection Hdesc' as <-.
  pose proof Hfoc as (HtL & HndL & HhL & _). unfold enter_directory.
  rewrite (bind_ok _ _ _ _ _ (search_siblings_ok s L prev' ptr word w HtL HndL HhL Hw)).
  destruct (tree_find L w) as [[[a ty] l]|] eqn:Hf.
  - destruct (find_level _ _ _ _ _ _ _ _ HtL HndL Hf) as (f & Hfa & Ha & Hty & _).
    rewrite (proj2 (ctrue_true a) Ha). rewrite (bind_ok _ _ _ _ _ (get_file_run s a f Hfa)), Hty.
    eexists _, s, t. split; [done|]. split; [done|]. split; [apply grown_refl|]. split; [done|].
    destruct (Z.eqb_spec ty FILE_TYPE_DIR) as [->|Hne]; cbn [negb]; [split; [by eapply spent_weaken; [apply spent_refl|lia]|by eexists L, l]|].
    left. split; [done|]. exists a, ty. by rewrite (lookup_snoc _ _ L), Hf.
  - change (ctrue NULL) with false. cbv iota.
    destruct (append_file_ok s root t p L prev' ptr word w FILE_TYPE_DIR Hhier Hfoc Hl Hf HneL Hw Hok) as (a & s1 & Hr & Hcase).
    rewrite (bind_ok _ _ _ _ _ Hr). destruct Hcase as [(-> & Ef & Eb & Eh & Hfs1 & Hm)|(Ha & s' & Hfill & Had & Hsp & Hhier')].
    + change (! NULL) with true. cbv iota. eexists _, s1, t. split; [done|]. split_and!; [split_and!; [by rewrite Ef|done..]| |done|by right].
      split; rewrite ?Ef; try done. intros b f ->. done.
    + rewrite (proj2 (ctrue_true a) Ha). cbn [negb]. rewrite (bind_ok _ _ _ _ _ Hfill). eexists _, s', _. split; [done|].
      split; [done|]. split; [by eapply grown_added|]. split.
      * intros q Hq. rewrite (lookup_added _ _ L) by done. case_decide as E; [|done]. subst q. destruct Hq as [?|[x Hx]]; [done|].
        rewrite (lookup_snoc _ _ L), Hf in Hx by done. done.
      * split; [done|]. eexists _, DNil. split; [by apply (level_upd _ _ L)|]. by rewrite tree_find_snoc, Hf, decide_True.
Qed.

(** [mkdir -p] from the level at [p] on *)
Definition made s root (t : dtree) (p ws : list (list Z)) (rc : Z) s' (t' : dtree) : Prop :=
  hierarchy s' root t' ∧ grown s s' ∧
  (∀ q x, path_ok q → tree_lookup t q = Some x → tree_lookup t' q = Some x) ∧
  (∀ q, path_ok q → (∀ k, q ≠ p ++ take (S k) ws) → tree_lookup t' q = tree_lookup t q) ∧
  ((rc = OK ∧ (∀ k, (k < length ws)%nat → ∃ a, tree_lookup t' (p ++ take (S k) ws) = Some (a, FILE_TYPE_DIR)) ∧
      (∃ l, level_at t' (p ++ ws) = Some l ∧ l ≠ DNil) ∧ spent (2 * length ws) s s') ∨
   (rc = - ERR_EXIST ∧ ∃ k a ty, (k < length ws)%nat ∧ tree_lookup t (p ++ take (S k) ws) = Some (a, ty) ∧ ty ≠ FILE_TYPE_DIR) ∨
   (rc = - ERR_OUT_OF_MEMORY ∧ no_memory (2 * length ws) s)).

Lemma create_directory_loop_ok words2 ws root :
  Forall2 holds words2 ws → Forall name_ok ws → ∀ s t p L words ptr,
  hierarchy s root t → level_at t p = Some L → L ≠ DNil → Forall2 holds words p → path_ok p → descend words root s = Ok (Some ptr, s) →
  ∃ rc s' t', create_directory_loop words2 ptr s = Ok (rc, s') ∧ made s root t p ws rc s' t'.
Proof.
  intros HF2. induction HF2 as [|word w words2 ws Hw HF2 IH]; intros Hok s t p L words ptr Hhier Hl HneL HF Hp Hdesc; cbn [create_directory_loop].
  { exists OK, s, t. split; [done|]. split_and!; [done|apply grown_refl|done|done|]. left. split_and!; [done|intros k Hk; simpl in Hk; lia| |by apply spent_refl].
    exists L. by rewrite app_nil_r. }
  apply Forall_cons in Hok as [Hwok Hok].
  destruct (enter_directory_ok s root t p L words word w ptr Hhier Hl HneL HF Hdesc Hw Hwok)
    as (r & s1 & t1 & Hr & Hhier1 & Hgr1 & Hlk1 & Hcase). rewrite (bind_ok _ _ _ _ _ Hr).
  assert (∀ q, (∀ k, q ≠ p ++ take (S k) (w :: ws)) → q ≠ p ++ [w]) as Hnotw by (intros q Hq; exact (Hq 0%nat)).
  assert (∀ q x, tree_lookup t q = Some x → tree_lookup t1 q = Some x) as Hold1 by (intros q x Hx; rewrite Hlk1; [done|right; by eexists]).
  destruct r as [e|a].
  { exists e, s1, t1. split; [done|]. split_and!; [done|done|by auto|intros q _ Hq; apply Hlk1; left; auto|]. right.
    destruct Hcase as [(-> & a & ty & Ha & Hty)|[-> Hm]]; [left|right; split; [done|apply (no_memory_weaken 1); [done|cbn; lia]]]. split; [done|]. exists 0%nat, a, ty. split; [simpl; lia|done]. }
  destruct Hcase as (Hsp1 & L1 & l1 & Hl1 & Hf1).
  destruct (add_mark_ok s1 root t1 p L1 w a FILE_TYPE_DIR l1 words Hhier1 Hl1 HF Hf1) as (ok & s2 & t2 & Hr2 & Hhier2 & Hgr2 & Hlk2 & Hok2 & Hsp2 & Hmem).
  rewrite (bind_ok _ _ _ _ _ Hr2). destruct ok; cbn [negb].
  2:{ exists (- ERR_OUT_OF_MEMORY), s2, t2. split; [done|]. split_and!; [done|by eapply grown_trans| | |].
      3:{ right. right. split; [done|]. apply (no_memory_weaken (1 + 1)); [|cbn; lia]. apply (no_memory_after _ _ _ _ Hsp1). auto. }
      - intros q x Hq Hx. rewrite Hlk2 by done. by auto.
      - intros q Hq Hn. rewrite Hlk2 by done. apply Hlk1. left. auto. }
  destruct (Hok2 eq_refl) as (L2 & l2 & Hl2 & Hf2 & Hne2). assert (path_ok (p ++ [w])) as Hpw by (apply Forall_app_2; [done|apply Forall_singleton; by destruct Hwok]).
  destruct (descend_snoc s2 root t2 p L2 words word w a FILE_TYPE_DIR l2 Hhier2 Hl2 HF Hw Hf2) as (c & Hc & Hdesc2).
  rewrite (bind_ok _ _ _ _ _ (get_file_run s2 a c Hc)).
  destruct (IH Hok s2 t2 (p ++ [w]) l2 (words ++ [word]) (left c)) as (rc & s3 & t3 & Hr3 & Hhier3 & Hgr3 & Hold3 & Hlk3 & Hrc3);
    [done|by eapply level_snoc|done|by apply Forall2_app; [|constructor]|done|done|].
  assert (∀ k, (p ++ [w]) ++ take (S k) ws = p ++ take (S (S k)) (w :: ws)) as Etake by (intros k; by rewrite <-app_assoc).
  exists rc, s3, t3. split; [done|]. split_and!; [done|by eapply grown_trans; [exact Hgr1|by eapply grown_trans]| | |].
  - intros q x Hq Hx. apply Hold3; [done|]. rewrite Hlk2 by done. auto.
  - intros q Hq Hn. rewrite Hlk3; [|done|intros k; rewrite Etake; apply Hn]. rewrite Hlk2 by done. apply Hlk1. left. auto.
  - pose proof (spent_trans _ _ _ _ _ Hsp1 (Hsp2 eq_refl)) as Hsp.
    destruct Hrc3 as [(-> & Hall & Hlev & Hsp3)|[(-> & k & a' & ty & Hk & Hlk & Hty)|[-> Hm]]]; [left|right; left|right; right].
    3:{ split; [done|]. apply (no_memory_weaken ((1 + 1) + 2 * length ws)); [|cbn; lia]. by eapply no_memory_after. }
    + split_and!; [done| |by rewrite <-app_assoc in Hlev|].
      2:{ apply (spent_weaken ((1 + 1) + 2 * length ws)); [|cbn; lia]. by eapply spent_trans. } intros [|k] Hk; [|rewrite <-Etake; apply Hall; simpl in Hk; lia].
      exists a. apply Hold3; [done|]. change (take 1 (w :: ws)) with [w]. by rewrite (lookup_snoc _ _ L2), Hf2.
    + split; [done|]. exists (S k), a', ty. split_and!; [simpl; lia| |done]. rewrite <-Etake, <-Hlk.
      assert (path_ok ((p ++ [w]) ++ take (S k) ws)) as Hpq.
      { apply Forall_app_2; [done|]. apply Forall_take. eapply Forall_impl; [exact Hok|]. by intros x []. }
      rewrite Hlk2 by done. symmetry. apply Hlk1. left. intros E. apply (f_equal length) in E.
      rewrite length_app, length_take in E. lia.
Qed.

(** *** [generic_delete_node] *)
Definition detach (t : dtree) : dtree :=
  match t with DNil => DNil | DNode a w ty _ l r => DNode a w ty false l r end.
Fixpoint tree_remove (t : dtree) (w : list Z) : dtree :=
  match t with
  | DNil => DNil
  | DNode a w' ty ok l r => if decide (w' = w) then detach r else DNode a w' ty ok l (tree_remove r w)
  end.
(** is the parent pointer of the file [w] the one the tree should have? *)
Fixpoint tree_intact (t : dtree) (w : list Z) : bool :=
  match t with
  | DNil => true
  | DNode _ w' _ ok _ r => if decide (w' = w) then ok else tree_intact r w
  end.
(** the sibling in front of the file [w] *)
Fixpoint tree_pred (b : Z) (t : dtree) (w : list Z) : Z :=
  match t with
  | DNil => b
  | DNode a w' _ _ _ r => if decide (w' = w) then b else tree_pred a r w
  end.

Lemma tree_pred_elem b t w : tree_pred b t w = b ∨ tree_pred b t w ∈ addrs t.
Proof.
  revert b. induction t as [|a w' ty ok l _ r IH]; intros b; simpl; [by left|]. case_decide; [by left|]. right.
  destruct (IH a) as [->|Hin]; [by left|]. right. apply elem_of_app. by right.
Qed.

(** the node [w] and its neighbours, in a level [r] behind the sibling [b] *)
Lemma tree_pred_ok σ r b fb w a ty l :
  b ≠ NULL → σ !! b = Some fb → tree_at σ b r (right fb) → NoDup (b :: addrs r) → (∀ c, c ∈ addrs r → left fb ≠ c) →
  tree_find r w = Some (a, ty, l) →
  ∃ fp fa, σ !! tree_pred b r w = Some fp ∧ right fp = a ∧ left fp ≠ a ∧ σ !! a = Some fa ∧ a ≠ NULL ∧ tree_pred b r w ≠ a ∧
    parent fa = (if tree_intact r w then tree_pred b r w else a) ∧ tree_at σ a l (left fa) ∧ left fa ≠ a ∧ right fa ≠ a ∧ right fa ≠ tree_pred b r w ∧ holds (name fa) w ∧ type fa = ty.
Proof.
  revert b fb. induction r as [|c w' ty' ok l' _ r IH]; intros b fb Hb0 Hb Hr Hnd Hleft; simpl; [done|].
  destruct Hr as (Ec & Hc & fc & Hfc & Hn & Hty & Hpar & Hl & Hr). apply NoDup_cons in Hnd as [Hbn Hnd].
  simpl in Hnd. apply NoDup_cons in Hnd as [Hcn Hnd]. apply NoDup_app in Hnd as (Hndl & Hdisj & Hndr).
  assert (∀ y x t prev, y ≠ NULL → tree_at σ prev t x → (y ∉ addrs t) → x ≠ y) as Hhead.
  { intros y x t prev Hy Ht Hnin ->. destruct t as [|d ? ? ? ? ?]; simpl in Ht; [done|]. destruct Ht as (<- & _). apply Hnin. by left. }
  apply not_elem_of_app in Hcn as [Hcl Hcr]. case_decide as Ew.
  - intros [= -> -> ->]. subst w'. exists fb, fc. split_and!; try done; [by apply Hleft; left|by intros ->; apply Hbn; left|by eapply Hhead|by eapply Hhead|].
    eapply Hhead; [done|exact Hr|]. intros ?. apply Hbn. right. apply elem_of_app. by right.
  - intros Hf. destruct (IH c fc) as (fp & fa & Hall); try done.
    + apply NoDup_cons. done.
    + intros d Hd E. destruct l' as [|e ? ? ? ? ?]; simpl in Hl.
      * assert (d ≠ NULL) by (by apply (tree_at_dom _ _ _ _ Hr)). congruence.
      * destruct Hl as (El & _). apply (Hdisj e); [by left|]. by rewrite <-El, E.
    + exists fp, fa. done.
Qed.

(** what the deletion does to the links *)
Definition unlinked (σ σ' : gmap Z file) (b a : Z) : Prop :=
  ∃ fb fa, σ !! b = Some fb ∧ σ !! a = Some fa ∧
    (∀ x, x ≠ b → x ≠ a → x ≠ right fa ∨ right fa = NULL → σ' !! x = σ !! x) ∧ σ' !! b = Some (set_right (right fa) fb) ∧
    (∀ fc, right fa ≠ NULL → σ !! right fa = Some fc → σ' !! right fa = Some (set_parent (right fa) fc)).

Lemma find_right σ prev r p w a ty l fa :
  tree_at σ prev r p → tree_find r w = Some (a, ty, l) → σ !! a = Some fa → right fa = NULL ∨ right fa ∈ addrs r.
Proof.
  revert prev p. induction r as [|c w' ty' ok l' _ r IH]; intros prev p; simpl; [done|].
  intros (-> & Hc & fc & Hfc & _ & _ & _ & _ & Hr) Hf Hfa. case_decide.
  - injection Hf as -> -> ->. rewrite Hfc in Hfa. injection Hfa as <-. destruct r as [|d ? ? ? ? ?]; simpl in Hr; [by left|].
    destruct Hr as (-> & _). right. right. apply elem_of_app. right. by left.
  - destruct (IH _ _ Hr Hf Hfa) as [?|?]; [by left|]. right. right. apply elem_of_app. by right.
Qed.

Lemma tree_remove_at σ σ' r b fb w a ty l :
  b ≠ NULL → σ !! b = Some fb → tree_at σ b r (right fb) → NoDup (b :: addrs r) → tree_find r w = Some (a, ty, l) →
  unlinked σ σ' (tree_pred b r w) a →
  ∃ fb', σ' !! b = Some fb' ∧ data fb' = data fb ∧ left fb' = left fb ∧ parent fb' = parent fb ∧ tree_at σ' b (tree_remove r w) (right fb').
Proof.
  revert b fb. induction r as [|c w' ty' ok l' _ r IH]; intros b fb Hb0 Hb Hr Hnd; simpl; [done|].
  destruct Hr as (Ec & Hc & fc & Hfc & Hn & Hty & Hpar & Hl & Hr). apply NoDup_cons in Hnd as [Hbn Hnd].
  simpl in Hnd. apply NoDup_cons in Hnd as [Hcn Hnd]. apply NoDup_app in Hnd as (Hndl & Hdisj & Hndr).
  case_decide as Ew.
  - intros [= -> -> ->] (fb1 & fa & Hb1 & Ha1 & Hout & Hb' & Hc'). rewrite Hb in Hb1. injection Hb1 as <-. rewrite Hfc in Ha1. injection Ha1 as <-.
    eexists. split_and!; [exact Hb'|done|done|done|]. cbn [right set_right]. destruct r as [|d w2 ty2 ok2 l2 r2]; [done|].
    destruct Hr as (Ed & Hd & fd & Hfd & Hnd' & Htd & Hpd & Hl2 & Hr2). simpl. split_and!; [done|done|]. exists (set_parent d fd).
    rewrite Ed in Hc'. split_and!; try done; [by apply Hc'| |].
    + eapply tree_at_frame; [|exact Hl2]. intros x Hx. rewrite Ed in Hout. apply Hout.
      * intros ->. apply Hbn. right. apply elem_of_app. right. simpl. right. apply elem_of_app. by left.
      * intros ->. apply Hcn, elem_of_app. right. simpl. right. apply elem_of_app. by left.
      * left. intros ->. simpl in Hndr. apply NoDup_cons in Hndr as [Hdn _]. apply Hdn, elem_of_app. by left.
    + eapply tree_at_frame; [|exact Hr2]. intros x Hx. rewrite Ed in Hout. apply Hout.
      * intros ->. apply Hbn. right. apply elem_of_app. right. simpl. right. apply elem_of_app. by right.
      * intros ->. apply Hcn, elem_of_app. right. simpl. right. apply elem_of_app. by right.
      * left. intros ->. simpl in Hndr. apply NoDup_cons in Hndr as [Hdn _]. apply Hdn, elem_of_app. by right.
  - intros Hf Hun. destruct (IH c fc) as (fc' & Hc' & Hd' & Hl' & Hp' & Ht'); try done.
    { apply NoDup_cons. split; [|done]. intros ?. apply Hcn, elem_of_app. by right. }
    destruct Hun as (fp & fa & Hp & Hfa & Hout & _).
    pose proof (tree_find_elem _ _ _ _ _ Hf) as Har. pose proof (find_right _ _ _ _ _ _ _ _ _ Hr Hf Hfa) as Hright.
    assert (∀ x, x ≠ NULL → x ≠ c → (x ∉ addrs r) → σ' !! x = σ !! x) as Hkeep.
    { intros x Hx0 Hxc Hxr. apply Hout; [|by intros ->|].
      - intros ->. destruct (tree_pred_elem c r w) as [E|?]; [by rewrite E in Hxc|done].
      - left. intros ->. by destruct Hright. }
    exists fb. split_and!; [|done|done|done|].
    { rewrite Hkeep; [done|done|by intros ->; apply Hbn; left|]. intros ?. apply Hbn. right. apply elem_of_app. by right. }
    simpl. split_and!; [done|done|]. exists fc'. injection Hd' as E1 E2 E3 E4 E5 E6. rewrite E1, E2, Hl', Hp'. split_and!; try done.
    eapply tree_at_frame; [|exact Hl]. intros x Hx. apply Hkeep; [by apply (tree_at_dom _ _ _ _ Hl)| |].
    + intros ->. apply Hcn, elem_of_app. by left.
    + intros ?. by apply (Hdisj x).
Qed.

(** the level below the node is not touched *)
Lemma below_apart σ r b p prev w a ty l fa x :
  tree_at σ prev r p → NoDup (b :: addrs r) → tree_find r w = Some (a, ty, l) → σ !! a = Some fa → x ∈ addrs l →
  x ≠ tree_pred b r w ∧ x ≠ a ∧ x ≠ right fa.
Proof.
  revert b prev p. induction r as [|c w' ty' ok l' _ r IH]; intros b prev p; simpl; [done|].
  intros (_ & Hc & fc & Hfc & _ & _ & _ & Hl & Hr) Hnd. apply NoDup_cons in Hnd as [Hbn Hnd].
  apply NoDup_cons in Hnd as [Hcn Hnd]. apply NoDup_app in Hnd as (Hndl & Hdisj & Hndr). case_decide.
  - intros [= -> -> ->] Hfa Hx. rewrite Hfc in Hfa. injection Hfa as <-. split_and!.
    + intros ->. apply Hbn. right. apply elem_of_app. by left.
    + intros ->. apply Hcn, elem_of_app. by left.
    + intros ->. destruct r as [|d ? ? ? ? ?]; simpl in Hr; [by apply (tree_at_dom _ _ _ _ Hl _ Hx)|].
      destruct Hr as (E & _). apply (Hdisj _ Hx). rewrite E. by left.
  - intros Hf Hfa Hx. eapply IH; [exact Hr| |done|done|done]. apply NoDup_cons. split; [|done].
    intros ?. apply Hcn, elem_of_app. by right.
Qed.

(** the code's updates *)
Lemma unlink_run s a fa fp :
  ffiles s !! a = Some fa → parent fa ≠ NULL → ffiles s !! parent fa = Some fp → left fp ≠ a → right fp = a →
  parent fa ≠ a → right fa ≠ a → right fa ≠ parent fa → right fa = NULL ∨ is_Some (ffiles s !! right fa) →
  ∃ s', generic_delete_node a s = Ok (OK, s') ∧ fmem s' = fmem s ∧ same_files (ffiles s) (ffiles s') ∧
    unlinked (ffiles s) (ffiles s') (parent fa) a ∧ ffiles s' !! a = Some (set_parent NULL (set_right NULL fa)).
Proof.
  intros Ha Hz0 Hz Hzl Hzr Hza Hca Hcz Hc. unfold generic_delete_node. rewrite (bind_ok _ _ _ _ _ (get_file_run s a fa Ha)).
  set (z := parent fa) in *. set (c := right fa) in *.
  rewrite (bind_ok _ _ _ () s) by (apply ASSERT_true; by apply ctrue_true).
  rewrite (bind_ok _ _ _ _ _ (get_file_run s z fp Hz)). rewrite (proj2 (Z.eqb_neq _ _) Hzl), Hzr, Z.eqb_refl.
  rewrite bind_assoc_run, (bind_ok _ _ _ () s) by done. rewrite bind_assoc_run.
  assert (∃ s1, when (ctrue c) (upd_file c (set_parent c)) s = Ok ((), s1) ∧ fmem s1 = fmem s ∧
    (∀ x, x ≠ c ∨ c = NULL → ffiles s1 !! x = ffiles s !! x) ∧ same_files (ffiles s) (ffiles s1) ∧
    (∀ fc, c ≠ NULL → ffiles s !! c = Some fc → ffiles s1 !! c = Some (set_parent c fc))) as (s1 & Hr1 & Hm1 & Ho1 & Hs1 & Hc1).
  { destruct (decide (c = NULL)) as [->|Hcn]; [exists s; split_and!; done|]. destruct Hc as [?|[fc Hfc]]; [done|].
    rewrite (proj2 (ctrue_true c) Hcn). exists (put_file s c (set_parent c fc)). split_and!; [by apply upd_file_run|done| | |].
    - intros x [Hx|?]; [|done]. cbn. by rewrite lookup_insert_ne.
    - intros x. cbn. destruct (decide (x = c)) as [->|]; [rewrite lookup_insert_eq, Hfc; done|by rewrite lookup_insert_ne].
    - intros fc' _ Hfc'. cbn. rewrite lookup_insert_eq. congruence. }
  rewrite (bind_ok _ _ _ _ _ Hr1). assert (ffiles s1 !! z = Some fp) as Hz1 by (rewrite Ho1; [done|by left]).
  rewrite (bind_ok _ _ _ _ _ (upd_file_run s1 z fp (set_right c) Hz1)). set (s2 := put_file s1 z (set_right c fp)).
  assert (ffiles s2 !! a = Some fa) as Ha2 by (cbn; rewrite lookup_insert_ne by done; rewrite Ho1; [done|by left]).
  rewrite (bind_ok _ _ _ _ _ (upd_file_run s2 a fa (set_right NULL) Ha2)). set (s3 := put_file s2 a (set_right NULL fa)).
  assert (ffiles s3 !! a = Some (set_right NULL fa)) as Ha3 by apply lookup_insert_eq.
  rewrite (bind_ok _ _ _ _ _ (upd_file_run s3 a _ (set_parent NULL) Ha3)). eexists. split; [done|].
  assert (∀ x, x ≠ a → x ≠ z → ffiles (put_file s3 a (set_parent NULL (set_right NULL fa))) !! x = ffiles s1 !! x) as Ho.
  { intros x Hxa Hxz. cbn. by rewrite !lookup_insert_ne by congruence. }
  split_and!; [done| | |apply lookup_insert_eq].
  - intros x. destruct (decide (x = a)) as [->|Hxa]; [cbn; rewrite lookup_insert_eq, Ha; done|].
    destruct (decide (x = z)) as [->|Hxz]; [|by rewrite Ho]. cbn. rewrite !lookup_insert_ne, lookup_insert_eq, Hz by done. done.
  - exists fp, fa. split_and!; [done|done| | |].
    + intros x Hxz Hxa Hxc. rewrite Ho by done. by apply Ho1.
    + cbn. by rewrite !lookup_insert_ne, lookup_insert_eq by done.
    + intros fc Hcn Hfc. rewrite Ho by done. by apply Hc1.
Qed.

(** the node [a], the file [w] of the level [DNode b _ _ _ _ r], leaves the tree with the level below it *)
Lemma delete_node_ok s prev b wb tb okb lb r w a ty l :
  let L := DNode b wb tb okb lb r in
  tree_at (ffiles s) prev L b → NoDup (addrs L) → tree_find r w = Some (a, ty, l) →
  if tree_intact r w then
    ∃ s', generic_delete_node a s = Ok (OK, s') ∧ fmem s' = fmem s ∧ same_files (ffiles s) (ffiles s') ∧
      (∀ x, (x ∉ addrs L) → ffiles s' !! x = ffiles s !! x) ∧
      tree_at (ffiles s') prev (DNode b wb tb okb lb (tree_remove r w)) b ∧
      tree_at (ffiles s') NULL (DNode a w ty true l DNil) a
  else generic_delete_node a s = Err AssertFail.
Proof.
  intros L (_ & Hb0 & fb & Hb & Hnb & Htb & Hpb & Hlb & Hr) Hnd Hf. simpl in Hnd. apply NoDup_cons in Hnd as [Hbn Hnd].
  apply NoDup_app in Hnd as (Hndl & Hdisj & Hndr). apply not_elem_of_app in Hbn as [Hbl Hbr].
  assert (NoDup (b :: addrs r)) as Hndbr by (by apply NoDup_cons).
  assert (∀ c, c ∈ addrs r → left fb ≠ c) as Hleft.
  { intros c Hc E. destruct lb as [|e ? ? ? ? ?]; simpl in Hlb.
    - assert (c ≠ NULL) by (by apply (tree_at_dom _ _ _ _ Hr)). congruence.
    - destruct Hlb as (El & _). apply (Hdisj e); [by left|]. by rewrite <-El, E. }
  destruct (tree_pred_ok _ _ _ _ _ _ _ _ Hb0 Hb Hr Hndbr Hleft Hf)
    as (fp & fa & Hp & Hpa & Hpl & Hfa & Ha0 & Hpna & Hpar & Hla & Hlna & Hrna & Hrnz & Hna & Hta).
  pose proof (tree_find_elem _ _ _ _ _ Hf) as Har. pose proof (find_right _ _ _ _ _ _ _ _ _ Hr Hf Hfa) as Hright.
  unfold generic_delete_node. destruct (tree_intact r w) eqn:Hint.
  2:{ rewrite (bind_ok _ _ _ _ _ (get_file_run s a fa Hfa)). rewrite Hpar. rewrite (bind_ok _ _ _ () s) by (apply ASSERT_true; by apply ctrue_true).
      rewrite (bind_ok _ _ _ _ _ (get_file_run s a fa Hfa)). apply bind_err. rewrite (proj2 (Z.eqb_neq _ _) Hlna).
      apply bind_err. unfold ASSERT. by rewrite (proj2 (Z.eqb_neq _ _) Hrna). }
  set (z := tree_pred b r w) in *. assert (z ≠ NULL) as Hz0.
  { destruct (tree_pred_elem b r w) as [E|Hin]; unfold z; [by rewrite E|]. by apply (tree_at_dom _ _ _ _ Hr). }
  rewrite <-Hpar in *. destruct (unlink_run s a fa fp) as (s' & Hrun & Hm & Hsame & Hun & Ha'); try done.
  { destruct Hright as [?|?]; [by left|]. right. by apply (tree_at_dom _ _ _ _ Hr). }
  exists s'. rewrite Hpar in Hun. split_and!; [done|done|done| | |].
  - intros x Hx. destruct Hun as (fb1 & fa1 & _ & Hfa1 & Hout & _). rewrite Hfa in Hfa1. injection Hfa1 as <-.
    assert (∀ y, y ∈ addrs r → x ≠ y) as Hxr by (intros y Hy ->; apply Hx; right; apply elem_of_app; by right).
    apply Hout; [|by apply Hxr|].
    + unfold z. destruct (tree_pred_elem b r w) as [->|?]; [intros ->; apply Hx; by left|by apply Hxr].
    + destruct Hright as [?|?]; [by right|left; by apply Hxr].
  - destruct (tree_remove_at _ _ _ _ _ _ _ _ _ Hb0 Hb Hr Hndbr Hf Hun) as (fb' & Hb' & Hd' & Hl' & Hp' & Ht').
    simpl. split_and!; [done|done|]. exists fb'. injection Hd' as E1 E2 E3 E4 E5 E6. rewrite E1, E2, Hl', Hp'. split_and!; try done.
    eapply tree_at_frame; [|exact Hlb]. intros x Hx. destruct Hun as (fb1 & fa1 & _ & Hfa1 & Hout & _). rewrite Hfa in Hfa1. injection Hfa1 as <-.
    assert (∀ y, y ∈ addrs r → x ≠ y) as Hxr by (intros y Hy ->; by apply (Hdisj y)).
    apply Hout; [|by apply Hxr|destruct Hright as [?|?]; [by right|left; by apply Hxr]].
    unfold z. destruct (tree_pred_elem b r w) as [->|?]; [by intros ->|by apply Hxr].
  - simpl. split_and!; [done|done|]. eexists. split_and!; [exact Ha'|done|done|done| |done]. cbn [left set_parent set_right].
    eapply tree_at_frame; [|exact Hla]. intros x Hx. destruct Hun as (fb1 & fa1 & _ & Hfa1 & Hout & _). rewrite Hfa in Hfa1. injection Hfa1 as <-.
    destruct (below_apart _ _ _ _ _ _ _ _ _ _ _ Hr Hndbr Hf Hfa Hx) as (N1 & N2 & N3). apply Hout; auto.
Qed.

(** *** [hierarchy_delete_file] *)
Lemma find_detach t w : tree_find (detach t) w = tree_find t w.
Proof. by destruct t. Qed.

Lemma find_remove t w w' : shaped t → tree_find (tree_remove t w) w' = if decide (w' = w) then None else tree_find t w'.
Proof.
  induction t as [|b w2 ty ok l _ r IH]; simpl; [by case_decide|]. intros (Hn & _ & _ & Hr). destruct (decide (w2 = w)) as [->|Hne].
  - rewrite find_detach. destruct (decide (w' = w)) as [->|]; [done|]. by rewrite decide_False.
  - simpl. destruct (decide (w2 = w')) as [->|]; [by rewrite decide_False|by apply IH].
Qed.

Lemma shaped_remove t w : shaped t → shaped (tree_remove t w).
Proof.
  induction t as [|b w2 ty ok l _ r IH]; simpl; [done|]. intros (Hn & Hm & Hl & Hr). destruct (decide (w2 = w)); [by destruct r|].
  simpl. split_and!; auto. rewrite find_remove by done. by case_decide.
Qed.

Lemma addrs_remove t w a ty l : tree_find t w = Some (a, ty, l) → addrs (tree_remove t w) ++ (a :: addrs l) ≡ₚ addrs t.
Proof.
  induction t as [|b w2 ty2 ok l2 _ r IH]; simpl; [done|]. destruct (decide (w2 = w)).
  - intros [= -> -> ->]. assert (addrs (detach r) = addrs r) as -> by (by destruct r). rewrite Permutation_app_comm. done.
  - intros Hf. simpl. constructor. rewrite <-app_assoc. by rewrite IH.
Qed.

Lemma head_elem σ prev t p : tree_at σ prev t p → p ≠ NULL → p ∈ addrs t.
Proof. destruct t; simpl; [done|]. intros (-> & _) _. by left. Qed.

Lemma lookup_no_level t p w : level_at t p = None → tree_lookup t (p ++ [w]) = None.
Proof.
  revert t. induction p as [|w' p IH]; intros t Hl; [done|]. cbn [app level_at] in *.
  rewrite tree_lookup_cons by (by destruct p). destruct (tree_find t w') as [[[? ?] ?]|]; [|done]. rewrite obind in *. by apply IH.
Qed.

Lemma upd_removed t p L w a ty l :
  addrs (tree_upd t p (tree_remove L w)) ++ addrs L ≡ₚ addrs t ++ addrs (tree_remove L w) → tree_find L w = Some (a, ty, l) →
  addrs (tree_upd t p (tree_remove L w)) ++ (a :: addrs l) ≡ₚ addrs t.
Proof.
  intros Hp Hf. apply (Permutation_app_inv_r (addrs (tree_remove L w))).
  rewrite <-app_assoc, (Permutation_app_comm (a :: addrs l)), (addrs_remove _ _ _ _ _ Hf). done.
Qed.

(** the lookups after a deletion *)
Lemma lookup_removed t p L w q :
  level_at t p = Some L → shaped L → path_ok q →
  tree_lookup (tree_upd t p (tree_remove L w)) q = if decide ((p ++ [w]) `prefix_of` q) then None else tree_lookup t q.
Proof.
  intros Hl HsL Hq. destruct (path_split p q) as [(r & Hr & ->)|Hno].
  - rewrite (lookup_upd_in _ _ L), (lookup_in _ _ L) by done. destruct r as [|w' r]; [done|].
    destruct (decide (w' = w)) as [->|Hne].
    + rewrite decide_True by (exists r; by rewrite <-app_assoc).
      destruct r as [|w2 r]; cbn [tree_lookup]; by rewrite find_remove, decide_True.
    + rewrite decide_False. 2:{ intros [k E]. rewrite <-app_assoc in E. apply app_inv_head in E. simpl in E. congruence. }
      destruct r as [|w2 r]; cbn [tree_lookup]; by rewrite find_remove, decide_False.
  - rewrite (lookup_upd_out _ _ L) by done. rewrite decide_False; [done|]. intros [k ->]. apply (Hno ([w] ++ k)); [done|]. by rewrite <-app_assoc.
Qed.

Lemma removed_apart σ t p L' root a l :
  addrs (tree_upd t p L') ++ (a :: addrs l) ≡ₚ addrs t → NoDup (addrs t) → tree_at σ NULL (tree_upd t p L') root → root ≠ NULL →
  NoDup (addrs (tree_upd t p L')) ∧ NoDup (a :: addrs l) ∧ (∀ x, x ∈ addrs (tree_upd t p L') → x ∉ a :: addrs l) ∧ root ∉ a :: addrs l.
Proof.
  intros Hperm Hnd HT Hr0. rewrite <-Hperm in Hnd. apply NoDup_app in Hnd as (H1 & H2 & H3). split_and!; try done.
  apply H2. by eapply head_elem.
Qed.

Section delete.
Variable per_file_free : Z → M (fstate A) ().
Variable J : fstate A → Prop.
Hypothesis free_one : ∀ s a f, J s → ffiles s !! a = Some f → KERNEL_HEAP_BOTTOM < a →
  ∃ s', per_file_free a s = Ok ((), s') ∧ ffiles s' = delete a (ffiles s) ∧ J s'.

Definition roots (s : fstate A) (ts : list dtree) (queue : list Z) : Prop :=
  Forall2 (λ t p, t ≠ DNil ∧ ∃ prev, tree_at (ffiles s) prev t p) ts queue.
Definition all_addrs (ts : list dtree) : list Z := concat (addrs <$> ts).

Lemma all_addrs_app ts us : all_addrs (ts ++ us) = all_addrs ts ++ all_addrs us.
Proof. unfold all_addrs. by rewrite fmap_app, concat_app. Qed.

Lemma roots_frame s s' ts queue : (∀ a, a ∈ all_addrs ts → ffiles s' !! a = ffiles s !! a) → roots s ts queue → roots s' ts queue.
Proof.
  intros Hσ HF. induction HF as [|t p ts queue (Hne & prev & Ht) HF IH]; [constructor|]. constructor.
  - split; [done|]. exists prev. eapply tree_at_frame; [|exact Ht]. intros a Ha. apply Hσ. apply elem_of_app. by left.
  - apply IH. intros a Ha. apply Hσ. apply elem_of_app. by right.
Qed.

(** one more tree at the end of the queue, unless there is none *)
Definition tree_list (t : dtree) : list dtree := match t with DNil => [] | _ => [t] end.
Lemma roots_one s t prev p : tree_at (ffiles s) prev t p → roots s (tree_list t) (if ctrue p then [p] else []).
Proof.
  intros Ht. destruct t as [|a w ty ok l r]; simpl in *; [subst p; constructor|].
  pose proof Ht as (-> & Ha & _). rewrite (proj2 (ctrue_true a) Ha). constructor; [|constructor]. split; [done|]. by exists prev.
Qed.
Lemma tree_list_addrs t : all_addrs (tree_list t) = addrs t.
Proof. destruct t; [done|]. unfold all_addrs. simpl. by rewrite app_nil_r. Qed.

Lemma delete_loop_ok fuel s ts queue :
  J s → roots s ts queue → NoDup (all_addrs ts) → (∀ a, a ∈ all_addrs ts → KERNEL_HEAP_BOTTOM < a) → (length (all_addrs ts) ≤ fuel)%nat →
  ∃ s', delete_loop per_file_free fuel queue s = Ok ((), s') ∧ J s' ∧
    ∀ x, ffiles s' !! x = if decide (x ∈ all_addrs ts) then None else ffiles s !! x.
Proof.
  revert s ts queue. induction fuel as [|fuel IH]; intros s ts queue HJ HF Hnd Hab Hlen.
  all: destruct HF as [|t p ts queue (Hne & prev & Ht) HF]; [exists s; split_and!; [by destruct queue || done|done|];
    intros x; rewrite decide_False; [done|apply not_elem_of_nil]|]; (destruct t as [|a w ty ok l r]; [done|]).
  { simpl in Hlen. lia. }
  destruct Ht as (-> & Ha & f & Hf & _ & _ & _ & Hl & Hr). cbn [delete_loop]. rewrite (bind_ok _ _ _ _ _ (get_file_run s a f Hf)).
  change (all_addrs (DNode a w ty ok l r :: ts)) with (a :: (addrs l ++ addrs r) ++ all_addrs ts) in *.
  apply NoDup_cons in Hnd as [Han Hnd].
  destruct (free_one s a f HJ Hf) as (s1 & Hr1 & Ef & HJ1); [apply Hab; by left|]. rewrite (bind_ok _ _ _ _ _ Hr1).
  set (us := ts ++ tree_list l ++ tree_list r).
  assert (all_addrs us ≡ₚ (addrs l ++ addrs r) ++ all_addrs ts) as Hperm.
  { unfold us. rewrite !all_addrs_app, !tree_list_addrs. apply Permutation_app_comm. }
  assert (∀ x, x ≠ a → ffiles s1 !! x = ffiles s !! x) as Hs1 by (intros x Hx; rewrite Ef; by rewrite lookup_delete_ne).
  destruct (IH s1 us (queue ++ (if ctrue (left f) then [left f] else []) ++ (if ctrue (right f) then [right f] else []))) as (s2 & Hr2 & HJ2 & Hx2).
  - done.
  - apply (roots_frame s).
    + intros x Hx. apply Hs1. intros ->. rewrite Hperm in Hx. done.
    + apply Forall2_app; [done|]. apply Forall2_app; by eapply roots_one.
  - by rewrite Hperm.
  - intros x Hx. apply Hab. right. by rewrite <-Hperm.
  - rewrite Hperm. simpl in Hlen. lia.
  - exists s2. split_and!; [done|done|]. intros x. rewrite Hx2. destruct (decide (x ∈ all_addrs us)) as [Hin|Hnin]; rewrite Hperm in *.
    + by rewrite decide_True by (by right).
    + destruct (decide (x = a)) as [->|Hxa]; [rewrite decide_True by (by left); by rewrite Ef, lookup_delete_eq|].
      rewrite decide_False by (by intros [?|?]%elem_of_cons). by apply Hs1.
Qed.

Hypothesis J_ok : ∀ s, J s → fs_ok s.
Hypothesis J_links : ∀ s s', J s → fmem s' = fmem s → same_files (ffiles s) (ffiles s') → J s'.

Lemma delete_file_ok s root t p w words word :
  hierarchy s root t → J s → Forall2 holds words p → holds word w → w ≠ [] → path_ok p →
  let run := hierarchy_delete_file per_file_free root (words ++ [word]) s in
  match level_at t p with
  | None => run = Ok (- ERR_NOT_FOUND, s)
  | Some L =>
      match tree_find L w with
      | None => run = Ok (- ERR_NOT_FOUND, s)
      | Some (a, ty, l) =>
          if tree_intact L w then
            ∃ s', run = Ok (OK, s') ∧ hierarchy s' root (tree_upd t p (tree_remove L w)) ∧ J s' ∧
              ∀ x, data <$> ffiles s' !! x = if decide (x ∈ a :: addrs l) then None else data <$> ffiles s !! x
          else run = Err AssertFail
      end
  end.
Proof.
  intros Hhier HJ HF Hw Hwn Hp run. pose proof Hhier as (Ht & Hnd & Hsh & Habove & Hfs).
  assert (level_head (ffiles s) NULL root) as Hh by (by left). unfold run, hierarchy_delete_file.
  assert (Forall2 holds (words ++ [word]) (p ++ [w])) as HF' by (apply Forall2_app; [done|by constructor]).
  assert (hierarchy_search_file root (words ++ [word]) s =
    Ok (match tree_lookup t (p ++ [w]) with Some (a, _) => a | None => NULL end, s)) as Hsearch.
  { unfold hierarchy_search_file. rewrite (search_file_loop_ok s _ _ t NULL root NULL Ht Hnd Hh HF'). by destruct p. }
  rewrite (bind_ok _ _ _ _ _ Hsearch). clear Hsearch run.
  destruct (level_at t p) as [L|] eqn:Hl; [|by rewrite lookup_no_level].
  rewrite (lookup_snoc _ _ L) by done. destruct (tree_find L w) as [[[a ty] l]|] eqn:Hf; [|done]. rewrite obind.
  destruct (focus s t NULL root p words L Ht Hnd Hh Hl HF) as (prev' & ptr' & (HtL & HndL & HhL & Hup & Hperm & Hsub) & _).
  rewrite (proj2 (ctrue_true a) (find_some_nonnull _ _ _ _ _ _ _ _ HtL HndL Hf)). cbn [negb].
  destruct (shape_level _ _ _ Hsh Hl) as [HmL HsL]. pose proof (upd_removed _ _ _ _ _ _ _ (Hperm _) Hf) as Hperm'.
  assert (shape (tree_remove L w)) as Hsh'.
  { split; [|by apply shaped_remove]. destruct L as [|b wb tb okb lb r]; [done|]. simpl in *. by rewrite decide_False by congruence. }
  destruct L as [|b wb tb okb lb r]; [done|]. simpl in HmL. subst wb.
  cbn [tree_find tree_intact tree_remove] in *. rewrite decide_False in Hf by congruence.
  rewrite decide_False in Hperm' by congruence. rewrite decide_False in Hsh' by congruence. rewrite !decide_False by congruence.
  pose proof HtL as (-> & _). pose proof (delete_node_ok s prev' b [] tb okb lb r w a ty l HtL HndL Hf) as Hdel.
  destruct (tree_intact r w); [|by apply bind_err]. destruct Hdel as (s1 & Hr1 & Hm1 & Hs1 & Hout1 & HtL1 & Hta1).
  rewrite (bind_ok _ _ _ _ _ Hr1). rewrite (bind_ok tree_fuel _ s1 _ s1) by done.
  set (L' := DNode b [] tb okb lb (tree_remove r w)) in *.
  assert (tree_at (ffiles s1) NULL (tree_upd t p L') root) as HT1 by (apply Hup; [|done]; intros x _ Hx; by apply Hout1).
  assert (all_addrs [DNode a w ty true l DNil] = a :: addrs l) as Eall by (unfold all_addrs; simpl; by rewrite !app_nil_r).
  destruct (removed_apart (ffiles s1) t p L' root a l) as (HndT & HndS & Hdisj & Hroot); [done|done|done| |].
  { destruct t; [by pose proof (Hsub b (list_elem_of_here _ _)) as ?%not_elem_of_nil|]. by destruct Ht as (-> & ? & _). }
  destruct (delete_loop_ok (S (base.size (ffiles s1))) s1 [DNode a w ty true l DNil] [a]) as (s2 & Hr2 & HJ2 & Hx2); rewrite ?Eall in *.
  - by eapply J_links.
  - constructor; [|constructor]. split; [done|]. by exists NULL.
  - done.
  - intros x Hx. destruct (Habove x) as [->|?]; [rewrite <-Hperm'; apply elem_of_app; by right| |done]. by destruct (Hroot Hx).
  - pose proof (addrs_size _ _ _ _ Hta1) as Hsz. simpl in Hsz. rewrite app_nil_r in Hsz. specialize (Hsz HndS). simpl. lia.
  - rewrite (bind_ok _ _ _ _ _ Hr2). exists s2. split; [done|]. split_and!; [|done|].
    + split_and!; [|done|by eapply shape_upd| |by auto].
      * eapply tree_at_frame; [|exact HT1]. intros x Hx. rewrite Hx2, decide_False; [done|]. intros ?. by apply (Hdisj x).
      * intros x Hx. apply Habove. rewrite <-Hperm'. apply elem_of_app. by left.
    + intros x. rewrite Hx2. case_decide; [done|]. apply Hs1.
Qed.
End delete.

(** ** Claims *)
Lemma search_file_ok s root t words ws :
  hierarchy s root t → Forall2 holds words ws →
  hierarchy_search_file root words s = Ok (match tree_lookup t ws with Some (a, _) => a | None => NULL end, s).
Proof.
  intros (Ht & Hnd & _) HF. unfold hierarchy_search_file.
  rewrite (search_file_loop_ok s words ws t NULL root NULL Ht Hnd); [|by left|done]. by destruct ws as [|? [|? ?]].
Qed.

Lemma create_directory_ok s root t words ws :
  hierarchy s root t → t ≠ DNil → Forall2 holds words ws → Forall name_ok ws →
  ∃ rc s' t', hierarchy_create_directory root words s = Ok (rc, s') ∧ made s root t [] ws rc s' t'.
Proof.
  intros Hh Hne HF Hok. apply (create_directory_loop_ok words ws root HF Hok s t [] t [] root); (done || constructor).
Qed.

(** The directory operations implement a tree of names.  On a hierarchy
    whose levels start with a mark and have no two files of the same name,
    [hierarchy_search_file] returns the file at the path or NULL;
    [hierarchy_create_directory] makes all directories of the path that are
    missing and nothing else, keeps every file there was, and fails only when a
    file of the path is no directory or memory runs out;
    [hierarchy_create_file] refuses a path whose directory is missing and a path
    that exists, and otherwise adds exactly this file; all of them leave the
    hierarchy in order and touch nothing of the other files but their links. *)
Theorem hierarchy_names s root t words p w :
  hierarchy s root t → t ≠ DNil → Forall2 holds words (p ++ [w]) → Forall name_ok (p ++ [w]) →
  hierarchy_search_file root words s = Ok (match tree_lookup t (p ++ [w]) with Some (a, _) => a | None => NULL end, s) ∧
  (∃ rc s' t', hierarchy_create_directory root words s = Ok (rc, s') ∧ made s root t [] (p ++ [w]) rc s' t') ∧
  (level_at t p = None → hierarchy_create_file root words s = Ok (- ERR_NOT_PRESENT, s)) ∧
  (is_Some (tree_lookup t (p ++ [w])) → hierarchy_create_file root words s = Ok (- ERR_EXIST, s)) ∧
  (∀ L, level_at t p = Some L → L ≠ DNil → tree_lookup t (p ++ [w]) = None →
     ∃ a s1, malloc_file s = Ok (a, s1) ∧ (a = NULL → hierarchy_create_file root words s = Err BadAccess) ∧
       (a ≠ NULL → ∃ s' t', hierarchy_create_file root words s = Ok (OK, s') ∧ hierarchy s' root t' ∧
          added s s' a w FILE_TYPE_REGULAR ∧
          ∀ q, tree_lookup t' q = if decide (q = p ++ [w]) then Some (a, FILE_TYPE_REGULAR) else tree_lookup t q)).
Proof.
  intros Hh Hne HF Hok. split; [by apply search_file_ok|]. split; [by apply create_directory_ok|].
  apply Forall2_app_inv_r in HF as (wp & wl & HFp & HFw & ->). apply Forall2_cons_inv_r in HFw as (word & wl' & Hw & HFn & ->).
  apply Forall2_nil_inv_r in HFn as ->. apply Forall_app in Hok as [_ [Hwok _]%Forall_cons].
  pose proof (create_file_ok s root t p w wp word Hh HFp Hw Hwok) as Hc. cbv zeta in Hc. split_and!.
  - intros Hl. by rewrite Hl in Hc.
  - intros [x Hx]. destruct (level_at t p) as [L|] eqn:Hl; [|by rewrite lookup_no_level in Hx].
    rewrite (lookup_snoc _ _ L) in Hx by done. by destruct (tree_find L w).
  - intros L Hl HneL Hx. rewrite Hl in Hc. rewrite (lookup_snoc _ _ L) in Hx by done.
    destruct (tree_find L w) as [[[? ?] ?]|] eqn:Hf; [done|]. destruct (Hc HneL) as (a & s1 & Hr & Hnull & Hsome).
    exists a, s1. split_and!; [done|by intros Ha; apply Hnull|]. intros Ha. destruct (Hsome Ha) as (s' & Hrun & Had & _ & Hh').
    eexists s', _. split_and!; [done|done|done|]. intros q. by apply lookup_added.
Qed.

(** [hierarchy_delete_file] removes the file at the path with everything
    below it: it frees exactly these files, with the function it is given, and
    no other path changes; a path without a file is an error.  It relies on the
    parent pointer of the file, which a deletion of the sibling in front of it
    destroys: then the assertion of [generic_delete_node] stops the kernel. *)
Theorem hierarchy_delete_correct (per_file_free : Z → M (fstate A) ()) (J : fstate A → Prop) s root t p w words :
  (∀ s a f, J s → ffiles s !! a = Some f → KERNEL_HEAP_BOTTOM < a →
     ∃ s', per_file_free a s = Ok ((), s') ∧ ffiles s' = delete a (ffiles s) ∧ J s') →
  (∀ s, J s → fs_ok s) →
  (∀ s s', J s → fmem s' = fmem s → same_files (ffiles s) (ffiles s') → J s') →
  hierarchy s root t → J s → Forall2 holds words (p ++ [w]) → path_ok (p ++ [w]) →
  let run := hierarchy_delete_file per_file_free root words s in
  (tree_lookup t (p ++ [w]) = None → run = Ok (- ERR_NOT_FOUND, s)) ∧
  (∀ L a ty l, level_at t p = Some L → tree_find L w = Some (a, ty, l) →
     (tree_intact L w = true → ∃ s' t', run = Ok (OK, s') ∧ hierarchy s' root t' ∧ J s' ∧
        (∀ q, path_ok q → tree_lookup t' q = if decide ((p ++ [w]) `prefix_of` q) then None else tree_lookup t q) ∧
        ∀ x, data <$> ffiles s' !! x = if decide (x ∈ a :: addrs l) then None else data <$> ffiles s !! x) ∧
     (tree_intact L w = false → run = Err AssertFail)).
Proof.
  intros Hfree Hok Hlinks Hh HJ HF Hp run. apply Forall2_app_inv_r in HF as (wp & wl & HFp & HFw & ->).
  apply Forall2_cons_inv_r in HFw as (word & wl' & Hw & HFn & ->). apply Forall2_nil_inv_r in HFn as ->.
  apply Forall_app in Hp as [Hp [Hwn _]%Forall_cons].
  pose proof (delete_file_ok per_file_free J Hfree Hok Hlinks s root t p w wp word Hh HJ HFp Hw Hwn Hp) as Hd. cbv zeta in Hd. split.
  - intros Hx. destruct (level_at t p) as [L|] eqn:Hl; [|done]. rewrite (lookup_snoc _ _ L) in Hx by done.
    by destruct (tree_find L w) as [[[? ?] ?]|].
  - intros L a ty l Hl Hf. rewrite Hl, Hf in Hd. split; intros Hint; rewrite Hint in Hd; [|done].
    destruct Hd as (s' & Hrun & Hh' & HJ' & Hx). eexists s', _. split_and!; [done|done|done| |done].
    intros q Hq. apply lookup_removed; [done| |done]. destruct Hh as (_ & _ & Hsh & _). by destruct (shape_level _ _ _ Hsh Hl).
Qed.
End proofs.

(** ** Examples *)
Module FsTreeExample.
Import MallocExample MemFsExample.
#[local] Instance kernel_heap : KHeap mstate := malloc_heap bins.
#[local] Instance kernel_heap_laws : KHeapLaws mstate := malloc_heap_laws bins bins_place.

(** an empty file system, with its static root file *)
Definition fs0 : fstate mstate := mk_fstate (mk_mstore booted ∅ ∅) {[0x5000 := set_type FILE_TYPE_MARK zero_file]}.
Definition t0 : dtree := DNode 0x5000 [] FILE_TYPE_MARK true DNil DNil.
Definition forget (a : Z) : M (fstate mstate) () := zoom ffiles_l (modify (delete a)).

Lemma fs0_hierarchy : hierarchy fs0 0x5000 t0.
Proof.
  split_and!.
  - simpl. split_and!; [done|done|]. eexists. split_and!; [apply lookup_singleton_eq| |done..]. split; [constructor|by eexists].
  - apply NoDup_singleton.
  - done.
  - intros a ->%list_elem_of_singleton. by left.
  - exists []. pose proof empty_file_rep as [(L & HL & _) _ _]. split; simpl.
    + exists L. split; [exact HL|]. simpl. intros a. rewrite lookup_empty. by intros [].
    + intros a [f [<- _]%lookup_singleton_Some]. by right.
    + intros a. rewrite lookup_empty. by intros [].
    + intros a _. apply lookup_empty.
    + by rewrite lookup_singleton_ne.
Qed.

Lemma name_ok_short w : w ≠ [] → (length w <= 2)%nat → name_ok w.
Proof. intros. split; [done|]. unfold MAX_PATH. lia. Qed.

Lemma literal_b : holds (literal "b") [98].
Proof. split; [by repeat constructor|by exists []]. Qed.

Lemma hierarchy_names_witness :
  hierarchy_search_file 0x5000 [literal "b"] fs0 = Ok (NULL, fs0) ∧
  ∃ rc s' t', hierarchy_create_directory 0x5000 [literal "b"] fs0 = Ok (rc, s') ∧ made fs0 0x5000 t0 [] [[98]] rc s' t'.
Proof.
  destruct (hierarchy_names fs0 0x5000 t0 [literal "b"] [] [98]) as (H1 & H2 & _); [apply fs0_hierarchy|done| | |by split].
  - constructor; [apply literal_b|constructor].
  - apply Forall_singleton. apply name_ok_short; [done|simpl; lia].
Defined.

Lemma forget_one s a f : fs_ok s → ffiles s !! a = Some f → KERNEL_HEAP_BOTTOM < a →
  ∃ s', forget a s = Ok ((), s') ∧ ffiles s' = delete a (ffiles s) ∧ fs_ok s'.
Proof.
  intros (K & [Hst Hf Hh Hap Hnull]) Ha _. exists (mk_fstate (fmem s) (delete a (ffiles s))). split_and!; [done|done|].
  exists K. split; simpl; [done| |done| |by rewrite lookup_delete_None; right]; intros b [_ Hb]%lookup_delete_is_Some; auto.
Qed.

Lemma forget_links s s' : fs_ok s → fmem s' = fmem s → same_files (ffiles s) (ffiles s') → fs_ok s'.
Proof. intros Hs Hm Hd. apply (fs_ok_data s); [done|done|]. intros b. by rewrite <-!(fmap_is_Some data), Hd. Qed.

Lemma hierarchy_delete_correct_witness :
  ∃ s t s', hierarchy s 0x5000 t ∧ is_Some (tree_lookup t [[98]]) ∧ hierarchy_delete_file forget 0x5000 [literal "b"] s = Ok (OK, s').
Proof.
  destruct (create_file_ok fs0 0x5000 t0 [] [98] [] (literal "b")) as (a & s1 & Hr & _ & Hok); [apply fs0_hierarchy|constructor|apply literal_b| |done|].
  { apply name_ok_short; [done|simpl; lia]. }
  destruct Hok as (s & Hrun & Had & _ & Hh).
  { intros ->. assert (match malloc_file fs0 with Ok (a, _) => ctrue a | Err _ => false end = true) as E by (vm_compute; reflexivity).
    by rewrite Hr in E. }
  set (t := DNode 0x5000 [] FILE_TYPE_MARK true DNil (DNode a [98] FILE_TYPE_REGULAR true DNil DNil)).
  destruct (hierarchy_delete_correct forget fs_ok s 0x5000 t [] [98] [literal "b"] forget_one (λ s H, H) forget_links Hh) as [_ Hdel].
  - by destruct Hh as (_ & _ & _ & _ & ?).
  - constructor; [apply literal_b|constructor].
  - by apply Forall_singleton.
  - destruct (Hdel t a FILE_TYPE_REGULAR DNil eq_refl eq_refl) as [Hd _]. destruct (Hd eq_refl) as (s' & t' & Hrun' & _).
    exists s, t, s'. split; [exact Hh|]. split; [by eexists|exact Hrun'].
Defined.

(** Two files of a directory, deleted in the order in which they were made: the
    second deletion stops the kernel. *)
Theorem delete_two_files_panics :
  (hierarchy_create_file 0x5000 [literal "a"] ;; hierarchy_create_file 0x5000 [literal "b"] ;;
   hierarchy_delete_file forget 0x5000 [literal "a"] ;; hierarchy_delete_file forget 0x5000 [literal "b"]) fs0 = Err AssertFail.
Proof. vm_compute. reflexivity. Qed.
End FsTreeExample.
