(* ===== verification/TmpFs.v ===== *)
(** * The memory file system: the file system operations of filesystem/memfs.c

    A file system is known by the address of its root file ([fs->priv]).  Paths
    are canonicalized and split (Path), looked up in the directory tree (FsTree);
    a regular file has a header for its contents (MemFs) in [priv]. *)

From Stdlib Require Import ZifyNat.
From stdpp Require Import gmap list strings.
From S2P Require Import Prelude CString Malloc KHeap MemFs Vma Path FsTree.
Open Scope Z_scope.
Open Scope zelda_scope.

(** [sizeof(struct mem_block_hdr)], and the address of [tmpfs_file_operation] *)
Definition SIZEOF_MEM_BLOCK_HDR : Z := 12.
Definition tmpfs_file_operation : Z := 0x3000.

(** [memset(c_name); canonicalize_path_name(c_name, path); split_path(c_name, ...)]:
    the words, every one the bytes from its pointer on.  The result of the
    canonicalization is not looked at. *)
Definition path_words (path : list Z) : option (list (list Z)) :=
  '(_, c_name) ← canonicalize_path_name zero_path path;
  '(c_name, splitted_path) ← split_path c_name;
  Some (map (λ i, drop (Z.to_nat i) c_name) splitted_path).

Section operations.
Context {A : Type} `{KHeap A}.

(** [ASSERT(root_file); ASSERT(root_file->type == FILE_TYPE_MARK)] *)
Definition assert_root (root_file : Z) : M (fstate A) () :=
  ASSERT (ctrue root_file) ;;
  r ← get_file root_file;
  ASSERT (type r =? FILE_TYPE_MARK).

(** the end of [tmpfs_create_file]: the header for the contents *)
Definition give_header (file : Z) : M (fstate A) Z :=
  p ← heap_malloc SIZEOF_MEM_BLOCK_HDR;
  upd_file file (set_priv p) ;;
  when (ctrue p) (zoom fmem_l (zoom mheads_l (modify (<[p := mk_head [] 0]>)))) ;;
  upd_file file (set_ops tmpfs_file_operation) ;;
  mret file.

Definition tmpfs_create_file (root_file : Z) (path : list Z) : M (fstate A) Z :=
  assert_root root_file ;;
  splitted_path ← deref (path_words path);
  result ← (if 1 <? Z.of_nat (length splitted_path)
            then hierarchy_create_directory root_file (removelast splitted_path) else mret OK);
  if negb (result =? OK) then mret NULL else
  result ← hierarchy_create_file root_file splitted_path;
  if negb (result =? OK) then mret NULL else
  file ← hierarchy_search_file root_file splitted_path;
  ASSERT (ctrue file) ;;
  give_header file.

Definition tmpfs_open_file (root_file : Z) (path : list Z) : M (fstate A) Z :=
  assert_root root_file ;;
  d ← deref (strcmp path (literal "/"));
  if ! d then mret root_file else
  splitted_path ← deref (path_words path);
  hierarchy_search_file root_file splitted_path.

Definition tmpfs_create_dir (root_file : Z) (path : list Z) : M (fstate A) Z :=
  assert_root root_file ;;
  splitted_path ← deref (path_words path);
  hierarchy_create_directory root_file splitted_path ;;
  file ← hierarchy_search_file root_file splitted_path;
  if ! file then mret NULL else
  f ← get_file file;
  mret (if type f =? FILE_TYPE_DIR then file else NULL).

Definition __delete_file_entry (file : Z) : M (fstate A) () :=
  f ← get_file file;
  let block_hdr := priv f in
  when (ctrue block_hdr) (
    zoom fmem_l (mem_block_raw_reclaim block_hdr) ;;
    zoom fmem_l (zoom mheads_l (modify (delete block_hdr))) ;;
    heap_release block_hdr) ;;
  zoom ffiles_l (modify (delete file)) ;;
  heap_release file.

Definition tmpfs_delete_file (root_file : Z) (path : list Z) : M (fstate A) Z :=
  assert_root root_file ;;
  splitted_path ← deref (path_words path);
  hierarchy_delete_file __delete_file_entry root_file splitted_path.
End operations.

(** ** Words of a path *)
Lemma nonempty_canonical ws : nonempty_words (canonical_words ws) = norm ws.
Proof.
  pose proof (norm_proper ws [] (Forall_nil_2 _)) as Hn. fold (norm ws) in Hn. unfold canonical_words.
  destruct (norm ws) as [|w ws'] eqn:E; [by case_decide|]. unfold nonempty_words. clear E.
  induction Hn as [|x l (Hx & _) _ IH]; [done|]. rewrite filter_cons_True by done. by rewrite IH.
Qed.

Lemma join_elem_length w ws : w ∈ ws → lenZ w < lenZ (join ws).
Proof.
  induction ws as [|x ws IH]; [by intros ?%not_elem_of_nil|]. rewrite join_cons. cbn [length]. rewrite length_app.
  intros [->|Hw]%elem_of_cons; [lia|]. specialize (IH Hw). lia.
Qed.

(** the names a path leads through, by which the file systems look it up *)
Lemma path_words_ok ws path :
  path_buffer path ws → ∃ words, path_words path = Some words ∧ Forall2 holds words (norm ws) ∧ Forall name_ok (norm ws).
Proof.
  intros Hp. destruct (canonicalize_padded ws path Hp) as (c & Hcan & Hc). pose proof Hp as (_ & Hok & _ & Hlen).
  unfold path_words. rewrite Hcan, obind.
  destruct (split_path_ok [] (canonical_words ws) c) as (c' & array & Hs & HF).
  { constructor; [constructor|]. by apply canonical_words_ok. }
  { cbn [app]. rewrite <-canonical_join. by apply padded_holds. }
  rewrite Hs, obind. cbv beta iota. eexists. split; [done|].
  assert (nonempty_words ([] :: canonical_words ws) = norm ws) as E by (rewrite <-nonempty_canonical; done). rewrite E in HF. split.
  - apply Forall2_fmap_l. eapply Forall2_impl; [exact HF|]. by intros i w [_ ?].
  - apply Forall_forall. intros w Hw. split.
    + pose proof (norm_proper ws [] (Forall_nil_2 _)) as Hn. fold (norm ws) in Hn. rewrite Forall_forall in Hn. by destruct (Hn w Hw).
    + rewrite <-nonempty_canonical in Hw. apply list_elem_of_filter in Hw as [_ Hw]. apply join_elem_length in Hw.
      rewrite <-canonical_join in Hw. pose proof (length_canonical ws). lia.
Qed.

(** ** The state of a memory file system *)
Section proofs.
Context {A : Type} `{!KHeap A, !KHeapLaws A}.
Implicit Types s : fstate A.

(** the contents [F] of all headers, wherever the memory comes from *)
Record stored (m : mstore A) (F : gmap Z (list Z)) : Prop := {
  sd_file : ∀ hdr d, F !! hdr = Some d → hdr ≠ NULL ∧ ∃ l bs, file_at m hdr l bs (lenZ d) ∧ bytes bs = d;
  sd_apart : ∀ h1 h2 l1 l2 n1 n2 a, h1 ≠ h2 → is_Some (F !! h1) → is_Some (F !! h2) →
    mheads m !! h1 = Some (mk_head l1 n1) → mheads m !! h2 = Some (mk_head l2 n2) → a ∈ l1 → a ∉ l2 }.

Lemma represents_stored K (m : mstore A) F : represents K m F → store_ok K m ∧ stored m F.
Proof. intros []. by split. Qed.
Lemma stored_represents K (m : mstore A) F :
  store_ok K m → stored m F → (∀ h, is_Some (mheads m !! h) ↔ is_Some (F !! h)) → represents K m F.
Proof. intros Hst [] Hh. split; try done. intros h c Hc. left. apply Hh. by eexists. Qed.

Lemma file_at_ext (m m' : mstore A) hdr l bs n :
  mblocks m' = mblocks m → mheads m' !! hdr = mheads m !! hdr → file_at m hdr l bs n → file_at m' hdr l bs n.
Proof. intros Eb Eh [H1 H2 H3 H4 H5 H6]. split; rewrite ?Eb, ?Eh; done. Qed.

Lemma stored_ext (m m' : mstore A) F : mblocks m' = mblocks m → mheads m' = mheads m → stored m F → stored m' F.
Proof.
  intros Eb Eh [Hf Hap]. split; [|by rewrite Eh]. intros hdr d Hd. destruct (Hf hdr d Hd) as (Hn & l & bs & Hfa & E). split; [done|].
  exists l, bs. split; [|done]. eapply file_at_ext; [done|by rewrite Eh|done].
Qed.

(** every header belongs to one file *)
Record contents s (F : gmap Z (list Z)) : Prop := {
  ct_stored : stored (fmem s) F;
  ct_heads : ∀ h, is_Some (mheads (fmem s) !! h) ↔ is_Some (F !! h);
  ct_priv : ∀ a f, ffiles s !! a = Some f → priv f = NULL ∨ is_Some (F !! priv f);
  ct_own : ∀ a b f g, ffiles s !! a = Some f → ffiles s !! b = Some g → priv f = priv g → priv f ≠ NULL → a = b }.

Lemma contents_ext s s' F :
  contents s F → mblocks (fmem s') = mblocks (fmem s) → mheads (fmem s') = mheads (fmem s) →
  (∀ b f, ffiles s' !! b = Some f → priv f = NULL ∨ ∃ g, ffiles s !! b = Some g ∧ priv f = priv g) → contents s' F.
Proof.
  intros [Hst Hh Hp Ho] Eb Eh Hf. split; [by eapply stored_ext|by rewrite Eh| |].
  - intros a f Ha. destruct (Hf a f Ha) as [?|(g & Hg & ->)]; [by left|by eapply Hp].
  - intros a b f g Ha Hb E Hn. destruct (Hf a f Ha) as [?|(f' & Hf' & Ef)]; [done|].
    destruct (Hf b g Hb) as [?|(g' & Hg' & Eg)]; [congruence|]. apply (Ho a b f' g'); congruence.
Qed.

Lemma contents_grown s s' F :
  contents s F → grown s s' → contents s' F.
Proof.
  intros Hc [Hf Hnew Hb Hh]. eapply contents_ext; [done|done|done|]. intros b f Hb'. destruct (ffiles s !! b) as [g|] eqn:E.
  - right. exists g. split; [done|]. specialize (Hf b (mk_is_Some _ _ E)). rewrite Hb', E in Hf. by injection Hf.
  - left. by destruct (Hnew b f E Hb') as (_ & ? & _).
Qed.

(** the links, names and types decide about the tree *)
Lemma tree_at_same σ σ' prev t p :
  (∀ b f, σ !! b = Some f → ∃ f', σ' !! b = Some f' ∧ name f' = name f ∧ type f' = type f ∧ parent f' = parent f ∧ left f' = left f ∧ right f' = right f) →
  tree_at σ prev t p → tree_at σ' prev t p.
Proof.
  intros Hσ. revert prev p. induction t as [|a w ty ok l IHl r IHr]; intros prev p; simpl; [done|].
  intros (-> & Ha & f & Hf & Hn & Ht & Hp & Hl & Hr). destruct (Hσ a f Hf) as (f' & Hf' & E1 & E2 & E3 & E4 & E5).
  split_and!; [done|done|]. exists f'. rewrite E1, E2, E3, E4, E5. split_and!; auto.
Qed.

Lemma stored_insert m h F p :
  stored m F → mheads m !! p = None → (∀ x, is_Some (mheads m !! x) ↔ is_Some (F !! x)) → p ≠ NULL →
  stored (mk_mstore h (mblocks m) (<[p := mk_head [] 0]> (mheads m))) (<[p := []]> F).
Proof.
  intros [Hf Hap] Hp Hdom Hn. assert (∀ x, is_Some (F !! x) → x ≠ p) as Hne by (intros x Hx%Hdom ->; rewrite Hp in Hx; by destruct Hx).
  split.
  - intros hdr d [[<- <-]|[Hx Hd]]%lookup_insert_Some.
    + split; [done|]. exists [], []. split; [|done]. split; simpl; [apply lookup_insert_eq|constructor|constructor|apply not_elem_of_nil|constructor|constructor].
    + destruct (Hf hdr d Hd) as (H0 & l & bs & Hfa & E). split; [done|]. exists l, bs. split; [|done].
      apply (file_at_ext m); [done| |done]. simpl. by rewrite lookup_insert_ne.
  - simpl. intros h1 h2 l1 l2 n1 n2 a Hx H1 H2 Hl1 Hl2 Ha.
    destruct (decide (h1 = p)) as [->|N1]; [rewrite lookup_insert_eq in Hl1; injection Hl1 as <- <-; by apply not_elem_of_nil in Ha|].
    destruct (decide (h2 = p)) as [->|N2]; [rewrite lookup_insert_eq in Hl2; injection Hl2 as <- <-; apply not_elem_of_nil|].
    rewrite lookup_insert_ne in H1, H2 by done. rewrite lookup_insert_ne in Hl1, Hl2 by done. by apply (Hap h1 h2 l1 l2 n1 n2).
Qed.

Lemma header_contents s F a f p h :
  contents s F → ffiles s !! a = Some f → p ≠ NULL → mheads (fmem s) !! p = None →
  contents (mk_fstate (mk_mstore h (mblocks (fmem s)) (<[p := mk_head [] 0]> (mheads (fmem s))))
    (<[a := set_ops tmpfs_file_operation (set_priv p f)]> (ffiles s))) (<[p := []]> F).
Proof.
  intros [Hst Hh Hp Ho] Ha Hn Hpn. split; cbn.
  - by apply stored_insert.
  - intros x. destruct (decide (x = p)) as [->|Hx]; [rewrite !lookup_insert_eq; split; intros; by eexists|].
    rewrite !lookup_insert_ne by done. apply Hh.
  - intros b g Hg. destruct (decide (b = a)) as [->|Hb].
    + rewrite lookup_insert_eq in Hg. injection Hg as <-. right. cbn. rewrite lookup_insert_eq. by eexists.
    + rewrite lookup_insert_ne in Hg by done. destruct (Hp b g Hg) as [?|?]; [by left|]. right.
      apply lookup_insert_is_Some. destruct (decide (p = priv g)); auto.
  - assert (∀ b g, b ≠ a → ffiles s !! b = Some g → p ≠ priv g) as Hclash.
    { intros b g Hb Hg ->. destruct (Hp b g Hg) as [?|Hx]; [done|]. apply Hh in Hx. rewrite Hpn in Hx. by destruct Hx. }
    intros b c g g' Hg Hg' E H0. destruct (decide (b = a)) as [->|Hb], (decide (c = a)) as [->|Hc]; [done|..].
    + rewrite lookup_insert_eq in Hg. injection Hg as <-. rewrite lookup_insert_ne in Hg' by done. by destruct (Hclash c g').
    + rewrite lookup_insert_eq in Hg'. injection Hg' as <-. rewrite lookup_insert_ne in Hg by done. by destruct (Hclash b g).
    + rewrite lookup_insert_ne in Hg, Hg' by done. by apply (Ho b c g g').
Qed.

(** a file changes in other fields than its links *)
Lemma hierarchy_data s root t a f f' m K :
  hierarchy s root t → ffiles s !! a = Some f →
  name f' = name f → type f' = type f → parent f' = parent f → left f' = left f → right f' = right f →
  fs_ok_with (mk_fstate m (ffiles s)) K → hierarchy (mk_fstate m (<[a := f']> (ffiles s))) root t.
Proof.
  intros (Ht & Hnd & Hsh & Hab & _) Ha E1 E2 E3 E4 E5 [H1 H2 H3 H4 H5]. cbn in *.
  assert (∀ b, is_Some (<[a := f']> (ffiles s) !! b) ↔ is_Some (ffiles s !! b)) as Hdom.
  { intros b. destruct (decide (b = a)) as [->|Hb]; [rewrite lookup_insert_eq, Ha; split; intros; by eexists|by rewrite lookup_insert_ne]. }
  split_and!; [|done|done|done|].
  - eapply tree_at_same; [|exact Ht]. intros b g Hg. cbn. destruct (decide (b = a)) as [->|Hb].
    + rewrite Ha in Hg. injection Hg as <-. rewrite lookup_insert_eq. by eexists.
    + rewrite lookup_insert_ne by done. by exists g.
  - exists K. split; cbn; [done|intros b Hb%Hdom; auto|done|intros b Hb%Hdom; auto|].
    apply eq_None_not_Some. intros Hb%(Hdom NULL). rewrite H5 in Hb. by destruct Hb.
Qed.

Lemma give_header_ok s root t F a f :
  hierarchy s root t → contents s F → ffiles s !! a = Some f → priv f = NULL →
  ∃ p s' F', give_header a s = Ok (a, s') ∧ hierarchy s' root t ∧ contents s' F' ∧
    ((p = NULL ∧ F' = F) ∨ (p ≠ NULL ∧ F !! p = None ∧ F' = <[p := []]> F)) ∧
    ffiles s' !! a = Some (set_ops tmpfs_file_operation (set_priv p f)) ∧ ∀ b, b ≠ a → ffiles s' !! b = ffiles s !! b.
Proof.
  intros Hh Hc Ha Hpriv. pose proof Hh as (_ & _ & _ & _ & K & [Hso Hfk Hhk Hap Hnull]).
  destruct (heap_malloc_ok s K SIZEOF_MEM_BLOCK_HDR Hso) as (p & h & Hr & Hso' & Hpk); [done|].
  set (m1 := fmem (with_heap s h)). set (m2 := mk_mstore h (mblocks (fmem s)) (<[p := mk_head [] 0]> (mheads (fmem s)))).
  set (f' := set_ops tmpfs_file_operation (set_priv p f)).
  assert (give_header a s = Ok (a, mk_fstate (if ctrue p then m2 else m1) (<[a := f']> (ffiles s)))) as Hrun.
  { unfold give_header. rewrite (bind_ok _ _ _ _ _ Hr).
    rewrite (bind_ok _ _ _ _ _ (upd_file_run (with_heap s h) a f (set_priv p) Ha)).
    rewrite (bind_ok _ _ _ () (mk_fstate (if ctrue p then m2 else m1) (<[a := set_priv p f]> (ffiles s)))) by (by destruct (ctrue p)).
    rewrite (bind_ok _ _ _ _ _ (upd_file_run _ a (set_priv p f) (set_ops tmpfs_file_operation) (lookup_insert_eq _ _ _))).
    unfold put_file. simpl. by rewrite insert_insert_eq. }
  rewrite Hrun. exists p, (mk_fstate (if ctrue p then m2 else m1) (<[a := f']> (ffiles s))), (if ctrue p then <[p := []]> F else F).
  split; [done|]. destruct (ctrue p) eqn:Ep.
  - apply ctrue_true in Ep. destruct (Hpk Ep) as [HpK Hpb].
    assert (mheads (fmem s) !! p = None) as Hpn1 by (destruct (mheads (fmem s) !! p) eqn:E; [destruct HpK; apply Hhk; by eexists|done]).
    assert (ffiles s !! p = None) as Hpn2.
    { destruct (ffiles s !! p) eqn:E; [|done]. destruct (Hfk p) as [?|?]; [by eexists|done|lia]. }
    split_and!; [|by apply header_contents| |cbn; apply lookup_insert_eq|intros b Hb; cbn; by rewrite lookup_insert_ne].
    + apply (hierarchy_data s root t a f f' m2 (p :: K)); try done. split; cbn; [|intros b Hb; destruct (Hfk b Hb); [left; by right|by right]| | |done].
      * destruct Hso' as (L & HL & Hd). by exists L.
      * intros b [->|[_ Hb]]%lookup_insert_is_Some; [by left|right; by apply Hhk].
      * intros b Hb. rewrite lookup_insert_ne; [by apply Hap|]. intros ->. rewrite Hpn2 in Hb. by destruct Hb.
    + right. split_and!; [done| |done]. apply eq_None_not_Some. rewrite <-(ct_heads _ _ Hc), Hpn1. by intros [].
  - apply ctrue_false in Ep as ->. split_and!; [| |by left|cbn; apply lookup_insert_eq|intros b Hb; cbn; by rewrite lookup_insert_ne].
    + by apply (hierarchy_data s root t a f f' m1 K).
    + eapply contents_ext; [done|done|done|]. cbn. intros b g Hg. destruct (decide (b = a)) as [->|Hb].
      * rewrite lookup_insert_eq in Hg. injection Hg as <-. by left.
      * rewrite lookup_insert_ne in Hg by done. right. by exists g.
Qed.

(** ** The file system operations *)
Record tmpfs s (root : Z) (t : dtree) (F : gmap Z (list Z)) : Prop := {
  tm_tree : hierarchy s root t;
  tm_some : t ≠ DNil;
  tm_root : ∃ f, ffiles s !! root = Some f ∧ type f = FILE_TYPE_MARK;
  tm_contents : contents s F }.

Lemma assert_root_ok s root t F : tmpfs s root t F → assert_root root s = Ok ((), s).
Proof.
  intros [(Ht & _) Hne (f & Hf & Hty) _]. unfold assert_root. rewrite (bind_ok _ _ _ () s).
  - rewrite (bind_ok _ _ _ _ _ (get_file_run s root f Hf)). apply ASSERT_true. lia.
  - apply ASSERT_true. apply ctrue_true. destruct t; [done|]. by destruct Ht as (-> & ? & _).
Qed.

(** what was in the file system is still there *)
Record kept s s' (t t' : dtree) (F F' : gmap Z (list Z)) (ws : list (list Z)) : Prop := {
  kp_paths : ∀ q x, path_ok q → tree_lookup t q = Some x → tree_lookup t' q = Some x;
  kp_others : ∀ q, path_ok q → ¬ q `prefix_of` ws → tree_lookup t' q = tree_lookup t q;
  kp_contents : ∀ h d, F !! h = Some d → F' !! h = Some d;
  kp_files : ∀ b g, ffiles s !! b = Some g → data <$> ffiles s' !! b = Some (data g);
  kp_new : ∀ b g, ffiles s !! b = None → ffiles s' !! b = Some g → refer_count g = 0 }.

Lemma data_type f f' : Some (data f) = Some (data f') → type f = type f'.
Proof. by intros [=]. Qed.

Lemma root_grown s s' root : grown s s' → (∃ f, ffiles s !! root = Some f ∧ type f = FILE_TYPE_MARK) →
  ∃ f, ffiles s' !! root = Some f ∧ type f = FILE_TYPE_MARK.
Proof.
  intros [Hf _ _ _] (f & Hfr & Hty). specialize (Hf root (mk_is_Some _ _ Hfr)). rewrite Hfr in Hf.
  destruct (ffiles s' !! root) as [g|]; [|done]. exists g. split; [done|]. by rewrite (data_type g f Hf).
Qed.

Lemma grown_kept s s' t t' F ws p :
  grown s s' → p `prefix_of` ws → (∀ q x, path_ok q → tree_lookup t q = Some x → tree_lookup t' q = Some x) →
  (∀ q, path_ok q → (∀ k, q ≠ take (S k) p) → tree_lookup t' q = tree_lookup t q) → kept s s' t t' F F ws.
Proof.
  intros Hg [r ->] Hold Hnew. split; [done| |done| |by apply (gr_new _ _ Hg)].
  - intros q Hq Hn. apply Hnew; [done|]. intros k ->. apply Hn. exists (drop (S k) p ++ r). by rewrite app_assoc, take_drop.
  - intros b g Hb. by rewrite (gr_files _ _ Hg b (mk_is_Some _ _ Hb)), Hb.
Qed.

(** the directories of a path: the first part of [tmpfs_create_file] *)
Lemma make_parents_ok s root t F words p word w :
  tmpfs s root t F → Forall2 holds words p → Forall name_ok p →
  ∃ rc s' t', (if 1 <? Z.of_nat (length (words ++ [word])) then hierarchy_create_directory root (removelast (words ++ [word])) else mret OK) s
      = Ok (rc, s') ∧ tmpfs s' root t' F ∧ kept s s' t t' F F (p ++ [w]) ∧
    (∀ q, path_ok q → (∀ k, q ≠ take (S k) p) → tree_lookup t' q = tree_lookup t q) ∧
    ((rc = OK ∧ (∃ L, level_at t' p = Some L ∧ L ≠ DNil) ∧ spent (2 * length p) s s') ∨
     (rc ≠ OK ∧ (no_memory (2 * length p) s ∨ ∃ k a ty, tree_lookup t (take (S k) p) = Some (a, ty) ∧ ty ≠ FILE_TYPE_DIR))).
Proof.
  intros [Hh Hne Hroot Hc] HF Hok. rewrite removelast_last.
  assert (∃ rc s' t', (if 1 <? Z.of_nat (length (words ++ [word])) then hierarchy_create_directory root words else mret OK) s = Ok (rc, s') ∧
    made s root t [] p rc s' t') as (rc & s' & t' & Hr & Hh' & Hg & Hold & Hnew & Hcase).
  { destruct (create_directory_ok s root t words p Hh Hne HF Hok) as (rc & s' & t' & Hr & Hm).
    destruct (Z.ltb_spec 1 (Z.of_nat (length (words ++ [word])))) as [_|Hlen]; [by exists rc, s', t'|].
    assert (words = []) as -> by (rewrite length_app in Hlen; destruct words; [done|simpl in Hlen; lia]).
    apply Forall2_nil_inv_l in HF as ->. injection Hr as <- <-. by exists OK, s, t'. }
  exists rc, s', t'. split; [done|]. split.
  { split; [done| |by eapply root_grown|by eapply contents_grown]. destruct Hh' as (Ht' & _). destruct t'; [|done]. exfalso.
    destruct Hh as (Ht & _). destruct t; [done|]. destruct Ht as (-> & ? & _). done. }
  split; [by eapply grown_kept; [|by eexists| |]|]. split; [done|].
  destruct Hcase as [(-> & _ & Hl & Hsp)|[(-> & k & a & ty & _ & Hk & Hty)|[-> Hm]]]; [by left|right|right].
  - split; [done|]. right. by exists k, a, ty.
  - split; [done|]. by left.
Qed.

Lemma kept_trans s1 s2 s3 t1 t2 t3 F1 F2 F3 ws :
  kept s1 s2 t1 t2 F1 F2 ws → kept s2 s3 t2 t3 F2 F3 ws → kept s1 s3 t1 t3 F1 F3 ws.
Proof.
  intros [P1 O1 C1 D1 N1] [P2 O2 C2 D2 N2]. split; [by auto| |by auto| |].
  - intros q Hq Hn. rewrite O2 by done. by apply O1.
  - intros b g Hb. specialize (D1 b g Hb). destruct (ffiles s2 !! b) as [g2|] eqn:E; [|done]. rewrite (D2 b g2 E). done.
  - intros b g Hb Hg. destruct (ffiles s2 !! b) as [g2|] eqn:E; [|by eapply N2]. specialize (D2 b g2 E). rewrite Hg in D2.
    pose proof (N1 b g2 Hb E). injection D2. congruence.
Qed.

Lemma root_nonempty s root t : hierarchy s root t → root ≠ NULL → t ≠ DNil.
Proof. intros (Ht & _) Hr ->. done. Qed.

Lemma root_nonnull s root t F : tmpfs s root t F → root ≠ NULL.
Proof. intros [(Ht & _) Hne _ _]. destruct t; [done|]. by destruct Ht as (-> & ? & _). Qed.

Lemma grown_tmpfs s s' root t t' F : tmpfs s root t F → grown s s' → hierarchy s' root t' → tmpfs s' root t' F.
Proof.
  intros Ht Hg Hh. pose proof (root_nonnull _ _ _ _ Ht) as Hr. destruct Ht as [_ _ Hroot Hc].
  split; [done|by eapply root_nonempty|by eapply root_grown|by eapply contents_grown].
Qed.

(** the outcomes of [tmpfs_create_file] on the path [p ++ [w]] *)
Definition created s (root : Z) (t : dtree) (F : gmap Z (list Z)) (p : list (list Z)) (w : list Z) (r : result (Z * fstate A)) : Prop :=
  (r = Err BadAccess ∧ no_memory (2 * length p + 1) s) ∨
  ∃ f s' t' F', r = Ok (f, s') ∧ tmpfs s' root t' F' ∧ kept s s' t t' F F' (p ++ [w]) ∧
    ((f = NULL ∧ (is_Some (tree_lookup t (p ++ [w])) ∨ no_memory (2 * length p) s ∨
        ∃ k a ty, tree_lookup t (take (S k) p) = Some (a, ty) ∧ ty ≠ FILE_TYPE_DIR)) ∨
     (f ≠ NULL ∧ ffiles s !! f = None ∧ tree_lookup t (p ++ [w]) = None ∧ tree_lookup t' (p ++ [w]) = Some (f, FILE_TYPE_REGULAR) ∧
        ∃ fl, ffiles s' !! f = Some fl ∧ ops fl = tmpfs_file_operation ∧ (priv fl = NULL ∨ F' !! priv fl = Some []))).

(** the file is there, now it gets its header *)
Lemma finish_create_ok s1 s2 root t1 t2 F a w p words :
  tmpfs s1 root t1 F → added s1 s2 a w FILE_TYPE_REGULAR → a ≠ NULL → hierarchy s2 root t2 → Forall2 holds words (p ++ [w]) →
  (∀ q, tree_lookup t2 q = if decide (q = p ++ [w]) then Some (a, FILE_TYPE_REGULAR) else tree_lookup t1 q) →
  ∃ s3 F', (file ← hierarchy_search_file root words; ASSERT (ctrue file) ;; give_header file) s2 = Ok (a, s3) ∧
    tmpfs s3 root t2 F' ∧ (∀ h d, F !! h = Some d → F' !! h = Some d) ∧
    (∀ b g, ffiles s1 !! b = Some g → data <$> ffiles s3 !! b = Some (data g)) ∧
    (∀ b g, ffiles s1 !! b = None → ffiles s3 !! b = Some g → refer_count g = 0) ∧
    ∃ fl, ffiles s3 !! a = Some fl ∧ ops fl = tmpfs_file_operation ∧ (priv fl = NULL ∨ F' !! priv fl = Some []).
Proof.
  intros Htm Had Ha Hh2 HF Hlook. pose proof (grown_added _ _ _ _ _ Had) as Hg.
  pose proof (grown_tmpfs _ _ _ _ _ _ Htm Hg Hh2) as Htm2.
  rewrite (bind_ok _ _ _ _ _ (search_file_ok s2 root t2 words (p ++ [w]) Hh2 HF)), Hlook, decide_True by done.
  rewrite (bind_ok _ _ _ () s2) by (by apply ASSERT_true, ctrue_true).
  destruct (ffiles s2 !! a) as [fa|] eqn:Efa; [|by pose proof (ad_data _ _ _ _ _ Had) as E; rewrite Efa in E].
  assert (priv fa = NULL) as Hpriv by (pose proof (ad_data _ _ _ _ _ Had) as E; rewrite Efa in E; by injection E).
  destruct (give_header_ok s2 root t2 F a fa Hh2 (tm_contents _ _ _ _ Htm2) Efa Hpriv) as (h & s3 & F' & Hr & Hh3 & Hc3 & HF' & Hfa & Hoth).
  exists s3, F'. split; [done|]. split_and!.
  - destruct Htm2 as [_ Hne (fr & Hfr & Hty) _]. split; [done|done| |done]. destruct (decide (root = a)) as [->|Hra].
    + eexists. split; [exact Hfa|]. rewrite Efa in Hfr. by injection Hfr as <-.
    + exists fr. by rewrite Hoth.
  - intros x d Hx. destruct HF' as [[_ ->]|(_ & Hn & ->)]; [done|]. rewrite lookup_insert_ne; congruence.
  - intros b g Hb. assert (b ≠ a) as Hba by (intros ->; by rewrite (ad_fresh _ _ _ _ _ Had) in Hb).
    by rewrite Hoth, (ad_others _ _ _ _ _ Had b Hba), Hb.
  - intros b g Hb Hb3. destruct (decide (b = a)) as [->|Hba].
    + rewrite Hfa in Hb3. injection Hb3 as <-. by destruct (gr_new _ _ Hg a fa Hb Efa) as (_ & _ & ?).
    + rewrite Hoth in Hb3 by done. by apply (gr_new _ _ Hg b g).
  - eexists. split; [exact Hfa|]. split; [done|]. cbn. destruct HF' as [[-> _]|(_ & _ & ->)]; [by left|right]. apply lookup_insert_eq.
Qed.

Lemma create_ok s root t F path ws p w :
  tmpfs s root t F → path_buffer path ws → norm ws = p ++ [w] → created s root t F p w (tmpfs_create_file root path s).
Proof.
  intros Htm Hp Hn. destruct (path_words_ok ws path Hp) as (words & Hw & HF & Hok). rewrite Hn in HF, Hok.
  pose proof HF as HF0. apply Forall2_app_inv_r in HF as (wp & wl & HFp & HFw & ->).
  apply Forall2_cons_inv_r in HFw as (word & wl' & Hword & HFn & ->). apply Forall2_nil_inv_r in HFn as ->.
  pose proof Hok as [Hpok [Hwok _]%Forall_cons]%Forall_app.
  assert (path_ok (p ++ [w])) as Hpath by (eapply Forall_impl; [exact Hok|]; by intros ? []).
  assert (∀ k, p ++ [w] ≠ take (S k) p) as Hlong.
  { intros k E%(f_equal length). rewrite length_app, length_take in E. cbn [length] in E. lia. }
  unfold tmpfs_create_file. rewrite (bind_ok _ _ _ _ _ (assert_root_ok _ _ _ _ Htm)), (bind_ok _ _ _ _ _ (deref_ok _ _ _ Hw)).
  destruct (make_parents_ok s root t F wp p word w Htm HFp Hpok) as (rc & s1 & t1 & Hr1 & Htm1 & Hk1 & Hnew1 & Hcase).
  rewrite (bind_ok _ _ _ _ _ Hr1). destruct Hcase as [(-> & (L & HL & HLn) & Hsp1)|[Hrc Hwhy]].
  2:{ rewrite (proj2 (Z.eqb_neq _ _) Hrc). right. exists NULL, s1, t1, F. split_and!; [done|done|done|]. left. split; [done|by right]. }
  change (negb (OK =? OK)) with false. cbv iota.
  pose proof (create_file_ok s1 root t1 p w wp word (tm_tree _ _ _ _ Htm1) HFp Hword Hwok) as Hc. cbv zeta in Hc. rewrite HL in Hc.
  pose proof (lookup_snoc t1 p L w HL) as Hls. rewrite (Hnew1 _ Hpath Hlong) in Hls. destruct (tree_find L w) as [[[b ty] l]|] eqn:Hf.
  { rewrite (bind_ok _ _ _ _ _ Hc). right. exists NULL, s1, t1, F. split_and!; [done|done|done|]. left. split; [done|]. left. by rewrite Hls. }
  destruct (Hc HLn) as (a & s2 & Hm & Hnull & Hsome). destruct (decide (a = NULL)) as [->|Ha].
  { left. split; [by apply bind_err, Hnull|]. eapply no_memory_after; [exact Hsp1|by apply Hnull]. }
  destruct (Hsome Ha) as (s3 & Hr3 & Had & _ & Hh3). rewrite (bind_ok _ _ _ _ _ Hr3). change (negb (OK =? OK)) with false. cbv iota.
  destruct (finish_create_ok s1 s3 root t1 _ F a w p _ Htm1 Had Ha Hh3 HF0) as (s4 & F' & Hr4 & Htm4 & HFF & Hfiles & Hnewf & Hfl).
  { intros q. by apply lookup_added. }
  right. eexists a, s4, _, F'. split; [exact Hr4|]. split; [exact Htm4|]. split.
  - apply (kept_trans _ s1 _ _ t1 _ _ F _ _ Hk1). split; [| |done|done|done].
    + intros q x _ Hq. rewrite lookup_added by done. rewrite decide_False; [done|]. intros ->. rewrite (Hnew1 _ Hpath Hlong), Hls in Hq. done.
    + intros q _ Hq. rewrite lookup_added by done. rewrite decide_False; [done|]. intros ->. by apply Hq.
  - right. split_and!; [done| |done| |done].
    + destruct (ffiles s !! a) as [g|] eqn:Eg; [|done]. pose proof (kp_files _ _ _ _ _ _ _ Hk1 a g Eg) as E.
      by rewrite (ad_fresh _ _ _ _ _ Had) in E.
    + rewrite lookup_added by done. by rewrite decide_True.
Qed.

(** ** Deleting a file *)
Lemma stored_heads (m m' : mstore A) F :
  mblocks m' = mblocks m → (∀ h, is_Some (F !! h) → mheads m' !! h = mheads m !! h) → stored m F → stored m' F.
Proof.
  intros Eb Eh [Hf Hap]. split.
  - intros hdr d Hd. destruct (Hf hdr d Hd) as (Hn & l & bs & Hfa & E). split; [done|]. exists l, bs. split; [|done].
    eapply file_at_ext; [done| |exact Hfa]. apply Eh. by eexists.
  - intros h1 h2 l1 l2 n1 n2 a Hne H1 H2. rewrite (Eh h1 H1), (Eh h2 H2). by apply Hap.
Qed.

Lemma release_ok s K p :
  store_ok K (fmem s) → p ∈ K → ∃ h K', K ≡ₚ p :: K' ∧ heap_release p s = Ok ((), with_heap s h) ∧ store_ok K' (fmem (with_heap s h)).
Proof.
  intros (L & HL & Hdom) Hp. destruct (proj1 (elem_of_Permutation K p) Hp) as [K' HK].
  destruct (heap_free_law (L ++ K') (mheap (fmem s)) p) as (h & Hr & HL').
  { eapply heap_live_perm; [|exact HL]. rewrite HK. symmetry. apply Permutation_middle. }
  exists h, K'. split; [done|]. split.
  - unfold heap_release. apply (zoom_ok fmem_l _ s () (lset mheap_l h (fmem s))). exact (zoom_ok mheap_l _ (fmem s) () h Hr).
  - by exists L.
Qed.

(** the header and the blocks of a file go *)
Lemma release_contents_ok s F a f K :
  fs_ok_with s K → contents s F → ffiles s !! a = Some f → priv f ≠ NULL →
  ∃ m K', (zoom fmem_l (mem_block_raw_reclaim (priv f)) ;; zoom fmem_l (zoom mheads_l (modify (delete (priv f)))) ;; heap_release (priv f)) s
      = Ok ((), mk_fstate m (ffiles s)) ∧ fs_ok_with (mk_fstate m (ffiles s)) K' ∧
    stored m (delete (priv f) F) ∧ mheads m = delete (priv f) (mheads m) ∧ ∀ h, h ≠ priv f → mheads m !! h = mheads (fmem s) !! h.
Proof.
  intros [Hst Hfk Hhk Hap Hnull] [Hsd Hh Hp _] Ha Hn. destruct (Hp a f Ha) as [?|HF]; [done|].
  destruct (raw_reclaim_ok K (fmem s) F (priv f)) as (m1 & Hr1 & Hrep1 & Hm1 & _); [by apply stored_represents|done|].
  apply represents_stored in Hrep1 as [Hst1 Hsd1]. set (hdr := priv f) in *.
  assert (hdr ∈ K) as HK by (by apply Hhk, Hh).
  set (s2 := mk_fstate (mk_mstore (mheap m1) (mblocks m1) (delete hdr (mheads m1))) (ffiles s)).
  destruct (release_ok s2 K hdr) as (h & K' & HKp & Hr2 & Hst2); [done|done|].
  rewrite (bind_ok _ _ _ () (mk_fstate m1 (ffiles s))) by exact (zoom_ok fmem_l _ s () m1 Hr1).
  rewrite (bind_ok _ _ _ () s2) by done. eexists _, K'. split; [exact Hr2|]. split_and!.
  - split; [exact Hst2| | |intros b Hb; cbn; rewrite lookup_delete_None; destruct (decide (hdr = b)); [by left|right; rewrite Hm1 by done; by apply Hap]|done]; cbn.
    + intros b Hb. destruct (Hfk b Hb) as [HbK|?]; [|by right]. left. rewrite HKp in HbK. apply elem_of_cons in HbK as [->|?]; [|done].
      specialize (Hap hdr Hb). by destruct (proj2 (Hh hdr) HF) as [? E]; rewrite Hap in E.
    + intros b [Hne Hb]%lookup_delete_is_Some. rewrite Hm1 in Hb by done. apply Hhk in Hb. rewrite HKp in Hb.
      apply elem_of_cons in Hb as [->|?]; done.
  - apply (stored_heads m1); [done| |done]. intros x [Hne _]%lookup_delete_is_Some. cbn. by rewrite lookup_delete_ne.
  - cbn. by rewrite delete_delete_eq.
  - intros x Hx. cbn. rewrite lookup_delete_ne by done. by apply Hm1.
Qed.

Lemma fs_ok_drop s K a f :
  fs_ok_with s K → ffiles s !! a = Some f → KERNEL_HEAP_BOTTOM < a →
  ∃ h, (zoom ffiles_l (modify (delete a)) ;; heap_release a) s = Ok ((), mk_fstate (fmem (with_heap s h)) (delete a (ffiles s))) ∧
    fs_ok (mk_fstate (fmem (with_heap s h)) (delete a (ffiles s))).
Proof.
  intros [Hst Hfk Hhk Hap Hnull] Ha Hab. assert (a ∈ K) as HK by (destruct (Hfk a); [by eexists|done|lia]).
  set (s1 := mk_fstate (fmem s) (delete a (ffiles s))). destruct (release_ok s1 K a) as (h & K' & HKp & Hr & Hst'); [done|done|].
  exists h. rewrite (bind_ok _ _ _ () s1) by done. split; [exact Hr|]. exists K'. split; cbn.
  - exact Hst'.
  - intros b [Hne Hb]%lookup_delete_is_Some. destruct (Hfk b Hb) as [HbK|?]; [|by right]. left. rewrite HKp in HbK.
    apply elem_of_cons in HbK as [->|?]; done.
  - intros b Hb. pose proof (Hhk b Hb) as HbK. rewrite HKp in HbK. apply elem_of_cons in HbK as [->|?]; [|done].
    rewrite (Hap a) in Hb by (by eexists). by destruct Hb.
  - intros b [_ Hb]%lookup_delete_is_Some. by apply Hap.
  - rewrite lookup_delete_None. by right.
Qed.

Lemma delete_entry_ok s F a f :
  fs_ok s → contents s F → ffiles s !! a = Some f → KERNEL_HEAP_BOTTOM < a →
  ∃ s', __delete_file_entry a s = Ok ((), s') ∧ ffiles s' = delete a (ffiles s) ∧ fs_ok s' ∧ contents s' (delete (priv f) F) ∧
    ∀ h, h ≠ priv f → mheads (fmem s') !! h = mheads (fmem s) !! h.
Proof.
  intros (K & Hk) Hc Ha Hab. unfold __delete_file_entry. rewrite (bind_ok _ _ _ _ _ (get_file_run s a f Ha)). cbv zeta.
  assert (∃ m K', when (ctrue (priv f)) (zoom fmem_l (mem_block_raw_reclaim (priv f)) ;; zoom fmem_l (zoom mheads_l (modify (delete (priv f)))) ;;
      heap_release (priv f)) s = Ok ((), mk_fstate m (ffiles s)) ∧ fs_ok_with (mk_fstate m (ffiles s)) K' ∧
    stored m (delete (priv f) F) ∧ (∀ h, is_Some (mheads m !! h) ↔ is_Some (delete (priv f) F !! h)) ∧
    ∀ h, h ≠ priv f → mheads m !! h = mheads (fmem s) !! h) as (m & K' & Hr & Hk' & Hsd & Hhd & Hoth).
  { destruct (ctrue (priv f)) eqn:E.
    - apply ctrue_true in E. destruct (release_contents_ok s F a f K Hk Hc Ha E) as (m & K' & Hr & Hk' & Hsd & Hdel & Hoth).
      exists m, K'. split_and!; [done|done|done| |done]. intros h. destruct (decide (h = priv f)) as [->|Hne].
      + by rewrite Hdel, !lookup_delete_eq.
      + rewrite Hoth, lookup_delete_ne by done. apply (ct_heads _ _ Hc).
    - apply ctrue_false in E. exists (fmem s), K. destruct s as [m σ]. split; [done|]. split; [done|]. rewrite E.
      assert (F !! NULL = None) as Hn.
      { apply eq_None_not_Some. intros [d Hd]. by destruct (sd_file _ _ (ct_stored _ _ Hc) _ _ Hd). }
      rewrite (delete_id F NULL Hn). split; [apply Hc|split; [apply (ct_heads _ _ Hc)|done]]. }
  rewrite (bind_ok _ _ _ _ _ Hr). destruct (fs_ok_drop _ K' a f Hk' Ha Hab) as (h & Hr2 & Hok). rewrite Hr2.
  eexists. split; [done|]. split; [done|]. split; [done|]. split; [|exact Hoth]. destruct Hc as [_ _ Hp Ho]. split; cbn.
  - by eapply stored_ext; [| |exact Hsd].
  - exact Hhd.
  - intros b g [Hne Hb]%lookup_delete_Some. destruct (Hp b g Hb) as [?|HF]; [by left|].
    destruct (decide (priv g = NULL)) as [?|Hgn]; [by left|right]. apply lookup_delete_is_Some. split; [|done].
    intros E. apply Hne. apply (Ho a b f g); congruence.
  - intros b c g g' [_ Hb]%lookup_delete_Some [_ Hc']%lookup_delete_Some. by apply Ho.
Qed.

Lemma lookup_file σ t prev ptr q a ty :
  tree_at σ prev t ptr → NoDup (addrs t) → tree_lookup t q = Some (a, ty) → a ≠ NULL ∧ ∃ f, σ !! a = Some f ∧ type f = ty.
Proof.
  revert t prev ptr. induction q as [|w q IH]; intros t prev ptr Ht Hnd; [done|]. destruct (decide (q = [])) as [->|Hq].
  - simpl. destruct (tree_find t w) as [[[b ty'] l]|] eqn:Hf; [|done]. intros [= <- <-].
    destruct (find_level _ _ _ _ _ _ _ _ Ht Hnd Hf) as (f & ? & ? & ? & _). split; [done|]. by exists f.
  - rewrite tree_lookup_cons by done. destruct (tree_find t w) as [[[b ty'] l]|] eqn:Hf; [|done]. rewrite obind.
    destruct (find_level _ _ _ _ _ _ _ _ Ht Hnd Hf) as (f & _ & _ & _ & Hl & _ & Hndl). by eapply IH.
Qed.

Lemma path_to ws path p w :
  path_buffer path ws → norm ws = p ++ [w] →
  ∃ wp word, path_words path = Some (wp ++ [word]) ∧ Forall2 holds wp p ∧ holds word w ∧ Forall name_ok (p ++ [w]) ∧ path_ok (p ++ [w]).
Proof.
  intros Hp Hn. destruct (path_words_ok ws path Hp) as (words & Hw & HF & Hok). rewrite Hn in HF, Hok.
  apply Forall2_app_inv_r in HF as (wp & wl & HFp & HFw & ->).
  apply Forall2_cons_inv_r in HFw as (word & wl' & Hword & HFn & ->). apply Forall2_nil_inv_r in HFn as ->.
  exists wp, word. split_and!; try done. eapply Forall_impl; [exact Hok|]; by intros ? [].
Qed.

Lemma open_ok s root t F path ws p w :
  tmpfs s root t F → path_buffer path ws → norm ws = p ++ [w] →
  tmpfs_open_file root path s = Ok (match tree_lookup t (p ++ [w]) with Some (a, _) => a | None => NULL end, s).
Proof.
  intros Htm Hp Hn. destruct (path_to ws path p w Hp Hn) as (wp & word & Hw & HF & Hword & _).
  unfold tmpfs_open_file. rewrite (bind_ok _ _ _ _ _ (assert_root_ok _ _ _ _ Htm)).
  pose proof Hp as (Hne & _ & Hh & _). destruct (strcmp_ok path (join ws) (literal "/") [SLASH] Hh) as (d & Hd & Hiff).
  { split; [by repeat constructor|by exists []]. }
  rewrite (bind_ok _ _ _ _ _ (deref_ok _ _ _ Hd)).
  assert (ctrue d = true) as ->.
  { apply ctrue_true. intros E%Hiff. destruct ws as [|x ws]; [done|]. rewrite join_cons in E. injection E as E.
    apply app_nil in E as [-> E]. destruct ws; [|by rewrite join_cons in E]. by destruct p. }
  cbn [negb]. rewrite (bind_ok _ _ _ _ _ (deref_ok _ _ _ Hw)).
  apply search_file_ok; [apply Htm|]. apply Forall2_app; [done|by constructor].
Qed.

Lemma mkdir_ok s root t F path ws p w :
  tmpfs s root t F → path_buffer path ws → norm ws = p ++ [w] →
  ∃ f s' t', tmpfs_create_dir root path s = Ok (f, s') ∧ tmpfs s' root t' F ∧ kept s s' t t' F F (p ++ [w]) ∧
    ((f ≠ NULL ∧ tree_lookup t' (p ++ [w]) = Some (f, FILE_TYPE_DIR)) ∨
     (f = NULL ∧ (no_memory (2 * length (p ++ [w])) s ∨ ∃ k a ty, tree_lookup t (take (S k) (p ++ [w])) = Some (a, ty) ∧ ty ≠ FILE_TYPE_DIR))).
Proof.
  intros Htm Hp Hn. destruct (path_to ws path p w Hp Hn) as (wp & word & Hw & HF & Hword & Hok & Hpath).
  assert (Forall2 holds (wp ++ [word]) (p ++ [w])) as HF' by (apply Forall2_app; [done|by constructor]).
  unfold tmpfs_create_dir. rewrite (bind_ok _ _ _ _ _ (assert_root_ok _ _ _ _ Htm)), (bind_ok _ _ _ _ _ (deref_ok _ _ _ Hw)).
  destruct (create_directory_ok s root t _ _ (tm_tree _ _ _ _ Htm) (tm_some _ _ _ _ Htm) HF' Hok) as (rc & s' & t' & Hr & Hh & Hg & Hold & Hnew & Hcase).
  rewrite (bind_ok _ _ _ _ _ Hr), (bind_ok _ _ _ _ _ (search_file_ok s' root t' _ _ Hh HF')).
  assert (∀ f, (∃ a ty, tree_lookup t' (p ++ [w]) = Some (a, ty) ∧ f = if ty =? FILE_TYPE_DIR then a else NULL) ∨
      (tree_lookup t' (p ++ [w]) = None ∧ f = NULL) →
    tmpfs s' root t' F ∧ kept s s' t t' F F (p ++ [w]) ∧ ((f ≠ NULL ∧ tree_lookup t' (p ++ [w]) = Some (f, FILE_TYPE_DIR)) ∨
     (f = NULL ∧ (no_memory (2 * length (p ++ [w])) s ∨ ∃ k a ty, tree_lookup t (take (S k) (p ++ [w])) = Some (a, ty) ∧ ty ≠ FILE_TYPE_DIR)))) as Hfin.
  { intros f Hf. split_and!; [by eapply grown_tmpfs|by eapply grown_kept|].
    destruct Hcase as [(_ & Hdirs & _)|Hwhy].
    - left. destruct (Hdirs (length p)) as (a & Ha); [rewrite length_app; simpl; lia|]. cbn [app] in Ha.
      rewrite take_ge in Ha by (rewrite length_app; simpl; lia). rewrite Ha in Hf.
      destruct Hf as [(? & ? & [= <- <-] & ->)|[? _]]; [|done]. rewrite Z.eqb_refl. split; [|done].
      destruct Hh as (Ht' & Hnd' & _). by destruct (lookup_file _ _ _ _ _ _ _ Ht' Hnd' Ha).
    - assert (f = NULL ∨ tree_lookup t' (p ++ [w]) = Some (f, FILE_TYPE_DIR) ∧ f ≠ NULL) as [->|[Hl Hf0]].
      { destruct Hf as [(a & ty & Ha & ->)|[_ ->]]; [|by left]. destruct (Z.eqb_spec ty FILE_TYPE_DIR) as [->|_]; [right|by left].
        split; [done|]. destruct Hh as (Ht' & Hnd' & _). by destruct (lookup_file _ _ _ _ _ _ _ Ht' Hnd' Ha). }
      + right. split; [done|]. destruct Hwhy as [(_ & k & a & ty & _ & Hk & Hty)|[_ Hm]]; [right; by exists k, a, ty|by left].
      + left. done. }
  destruct (tree_lookup t' (p ++ [w])) as [[a ty]|] eqn:El.
  - destruct Hh as (Ht' & Hnd' & _). destruct (lookup_file _ _ _ _ _ _ _ Ht' Hnd' El) as (Ha & f & Hf & Hty).
    rewrite (proj2 (ctrue_true a) Ha). cbn [negb]. rewrite (bind_ok _ _ _ _ _ (get_file_run s' a f Hf)), Hty.
    eexists _, s', t'. split; [done|]. rewrite El. apply Hfin. left. by exists a, ty.
  - exists NULL, s', t'. split; [done|]. rewrite El. apply Hfin. by right.
Qed.

(** the blocks of a file's contents, its header and the file itself: all the memory it has from the heap *)
Definition file_memory s (a : Z) : list Z :=
  match ffiles s !! a with
  | Some f => (if ctrue (priv f) then default [] (chain <$> mheads (fmem s) !! priv f) ++ [priv f] else []) ++ [a]
  | None => []
  end.

Lemma release_frees p s s' : heap_release p s = Ok ((), s') → heap_free_all [p] (mheap (fmem s)) = Ok ((), mheap (fmem s')).
Proof.
  unfold heap_release, zoom. cbn [lget fmem_l mheap_l]. destruct (heap_free p (mheap (fmem s))) as [[[] h]|] eqn:E; [|done].
  intros [= <-]. by apply heap_free_all_one.
Qed.

Lemma delete_entry_frees s s' a f :
  ffiles s !! a = Some f → __delete_file_entry a s = Ok ((), s') → heap_free_all (file_memory s a) (mheap (fmem s)) = Ok ((), mheap (fmem s')).
Proof.
  intros Ha. unfold __delete_file_entry, file_memory. rewrite Ha, (bind_ok _ _ _ _ _ (get_file_run s a f Ha)). cbv zeta.
  intros ([] & s1 & E1 & ([] & s2 & [= <-] & E2)%bind_Ok_inv)%bind_Ok_inv. apply release_frees in E2.
  apply (heap_free_all_app _ _ _ (mheap (fmem s1))); [|exact E2]. clear E2. unfold when in E1. destruct (ctrue (priv f)).
  2:{ by injection E1 as <-. }
  apply bind_Ok_inv in E1 as ([] & s2 & E1 & ([] & s3 & [= <-] & E2)%bind_Ok_inv). apply release_frees in E2.
  apply (heap_free_all_app _ _ _ (mheap (fmem s2))); [|exact E2]. clear E2. unfold zoom at 1 in E1. cbn [lget fmem_l] in E1.
  destruct (mem_block_raw_reclaim (priv f) (fmem s)) as [[[] m]|] eqn:E; [|done]. injection E1 as <-. unfold mem_block_raw_reclaim in E.
  apply bind_Ok_inv in E as (c & m1 & E1 & E). unfold get_head, zoom, load in E1. cbn [lget mheads_l] in E1.
  destruct (mheads (fmem s) !! priv f) as [c'|]; [|done]. injection E1 as <- <-. apply shrink_blocks_frees in E.
  cbn [fmap option_fmap option_map default lset mheads_l fmem_l fmem] in *. by destruct s as [[] ?].
Qed.

(** while files go: the others keep their contents and their memory, and the
    memory of those that have gone, and nothing else, has been given back *)
Record keeps s0 (F : gmap Z (list Z)) s : Prop := {
  ks_ok : fs_ok s;
  ks_contents : ∃ F', contents s F' ∧ ∀ b g, ffiles s !! b = Some g → F' !! priv g = F !! priv g;
  ks_memory : ∀ b g, ffiles s !! b = Some g → is_Some (ffiles s0 !! b) ∧ file_memory s b = file_memory s0 b;
  ks_freed : ∃ gone ps, NoDup gone ∧ (∀ b, b ∈ gone ↔ is_Some (ffiles s0 !! b) ∧ ffiles s !! b = None) ∧
    ps ≡ₚ gone ≫= file_memory s0 ∧ heap_free_all ps (mheap (fmem s0)) = Ok ((), mheap (fmem s)) }.

Lemma contents_null s F : contents s F → F !! NULL = None.
Proof. intros Hc. apply eq_None_not_Some. intros [d Hd]. by destruct (sd_file _ _ (ct_stored _ _ Hc) _ _ Hd). Qed.

Lemma freed_one s0 s s' a f :
  ffiles s !! a = Some f → is_Some (ffiles s0 !! a) → file_memory s a = file_memory s0 a → ffiles s' = delete a (ffiles s) →
  heap_free_all (file_memory s a) (mheap (fmem s)) = Ok ((), mheap (fmem s')) →
  (∃ gone ps, NoDup gone ∧ (∀ b, b ∈ gone ↔ is_Some (ffiles s0 !! b) ∧ ffiles s !! b = None) ∧
    ps ≡ₚ gone ≫= file_memory s0 ∧ heap_free_all ps (mheap (fmem s0)) = Ok ((), mheap (fmem s))) →
  ∃ gone ps, NoDup gone ∧ (∀ b, b ∈ gone ↔ is_Some (ffiles s0 !! b) ∧ ffiles s' !! b = None) ∧
    ps ≡ₚ gone ≫= file_memory s0 ∧ heap_free_all ps (mheap (fmem s0)) = Ok ((), mheap (fmem s')).
Proof.
  intros Ha H0 Em Ef Hfree (gone & ps & Hnd & Hin & HP & Hps).
  exists (a :: gone), (ps ++ file_memory s a). split_and!.
  - apply NoDup_cons. split; [|done]. intros [_ E]%Hin. by rewrite Ha in E.
  - intros b. rewrite elem_of_cons, Hin, Ef, lookup_delete_None. destruct (decide (b = a)) as [->|Hne]; [|naive_solver].
    split; [intros _; split; [done|by left]|by left].
  - rewrite bind_cons, HP, <-Em. apply Permutation_app_comm.
  - by eapply heap_free_all_app.
Qed.

Lemma keeps_free s0 F s a f :
  keeps s0 F s → ffiles s !! a = Some f → KERNEL_HEAP_BOTTOM < a →
  ∃ s', __delete_file_entry a s = Ok ((), s') ∧ ffiles s' = delete a (ffiles s) ∧ keeps s0 F s'.
Proof.
  intros [Hok (F' & Hc & HF) Hm Hfr] Ha Hab. destruct (delete_entry_ok s F' a f Hok Hc Ha Hab) as (s' & Hr & Ef & Hok' & Hc' & Hh).
  exists s'. split_and!; [done|done|]. split.
  - done.
  - eexists. split; [exact Hc'|]. intros b g Hb. rewrite Ef in Hb.
    apply lookup_delete_Some in Hb as [Hne Hb]. rewrite <-(HF b g Hb). destruct (decide (priv g = priv f)) as [E|Hpn].
    + destruct (decide (priv g = NULL)) as [E'|Hn]; [|destruct Hne; apply (ct_own _ _ Hc a b f g); congruence].
      rewrite E'. rewrite (contents_null _ _ Hc). by apply (contents_null s').
    + by rewrite lookup_delete_ne.
  - intros b g Hb. rewrite Ef in Hb. apply lookup_delete_Some in Hb as [Hne Hb]. destruct (Hm b g Hb) as [? <-]. split; [done|].
    unfold file_memory. rewrite Ef, lookup_delete_ne, Hb by done. destruct (ctrue (priv g)) eqn:E; [|done]. apply ctrue_true in E.
    rewrite Hh; [done|]. intros E'. apply Hne, (ct_own _ _ Hc a b f g); congruence.
  - destruct (Hm a f Ha). eapply freed_one; [exact Ha|done|done|exact Ef|by eapply delete_entry_frees|exact Hfr].
Qed.

Lemma keeps_links s0 F s s' : keeps s0 F s → fmem s' = fmem s → same_files (ffiles s) (ffiles s') → keeps s0 F s'.
Proof.
  intros [Hok (F' & Hc & HF) Hmem (gone & ps & Hnd & Hin & Hps)] Hm Hd.
  assert (∀ b g, ffiles s' !! b = Some g → ∃ g0, ffiles s !! b = Some g0 ∧ priv g = priv g0) as Hback.
  { intros b g Hb. specialize (Hd b). rewrite Hb in Hd. destruct (ffiles s !! b) as [g0|]; [|done]. exists g0. split; [done|]. by injection Hd. }
  split.
  - apply (fs_ok_data s); [done|done|]; intros b; by rewrite <-!(fmap_is_Some data), Hd.
  - exists F'. split.
    + apply (contents_ext s); [done|by rewrite Hm|by rewrite Hm|]. intros b g Hb. right. by apply Hback.
    + intros b g Hb. destruct (Hback b g Hb) as (g0 & Hg0 & ->). by eapply HF.
  - intros b g Hb. destruct (Hback b g Hb) as (g0 & Hg0 & E). destruct (Hmem b g0 Hg0) as [? <-]. split; [done|].
    unfold file_memory. by rewrite Hb, Hg0, E, Hm.
  - exists gone, ps. rewrite Hm. split; [done|]. split; [|done]. intros b. rewrite Hin. by rewrite <-!(fmap_None data), Hd.
Qed.

Lemma removed_files s root t p L w words a ty l :
  hierarchy s root t → level_at t p = Some L → Forall2 holds words p → tree_find L w = Some (a, ty, l) →
  NoDup (a :: addrs l) ∧ ∀ x, x ∈ a :: addrs l → is_Some (ffiles s !! x).
Proof.
  intros (Ht & Hnd & _) Hl HF Hf.
  destruct (focus s t NULL root p words L Ht Hnd (or_introl eq_refl) Hl HF) as (prev' & ptr' & (HtL & HndL & _) & _).
  pose proof (addrs_remove _ _ _ _ _ Hf) as HP. split; [rewrite <-HP in HndL; by apply NoDup_app in HndL as (_ & _ & ?)|].
  intros x Hx. apply (tree_at_dom _ _ _ _ HtL). rewrite <-HP. apply elem_of_app. by right.
Qed.

Lemma remove_ok s root t F path ws p w :
  tmpfs s root t F → path_buffer path ws → norm ws = p ++ [w] →
  let run := tmpfs_delete_file root path s in
  (tree_lookup t (p ++ [w]) = None → run = Ok (- ERR_NOT_FOUND, s)) ∧
  (∀ L a ty l, level_at t p = Some L → tree_find L w = Some (a, ty, l) →
     (tree_intact L w = true → ∃ s' t' F', run = Ok (OK, s') ∧ tmpfs s' root t' F' ∧
        (∀ q, path_ok q → tree_lookup t' q = if decide ((p ++ [w]) `prefix_of` q) then None else tree_lookup t q) ∧
        (∀ b g, (b ∉ a :: addrs l) → ffiles s !! b = Some g → data <$> ffiles s' !! b = Some (data g) ∧ F' !! priv g = F !! priv g) ∧
        ∃ ps, ps ≡ₚ (a :: addrs l) ≫= file_memory s ∧ heap_free_all ps (mheap (fmem s)) = Ok ((), mheap (fmem s'))) ∧
     (tree_intact L w = false → run = Err AssertFail)).
Proof.
  intros Htm Hp Hn run. destruct (path_to ws path p w Hp Hn) as (wp & word & Hw & HF & Hword & Hok & Hpath).
  pose proof Hpath as [Hpp [Hwn _]%Forall_cons]%Forall_app.
  assert (run = hierarchy_delete_file __delete_file_entry root (wp ++ [word]) s) as ->.
  { unfold run, tmpfs_delete_file. by rewrite (bind_ok _ _ _ _ _ (assert_root_ok _ _ _ _ Htm)), (bind_ok _ _ _ _ _ (deref_ok _ _ _ Hw)). }
  pose proof (tm_tree _ _ _ _ Htm) as Hh. assert (keeps s F s) as HJ.
  { split; [by destruct Hh as (_ & _ & _ & _ & ?)|exists F; split; [apply Htm|done]|intros b g Hb; split; [by eexists|done]|].
    exists [], []. split_and!; [apply NoDup_nil_2|intros b; rewrite elem_of_nil; split; [done|intros [[g ->] ?]; done]|done|done]. }
  pose proof (delete_file_ok _ (keeps s F) (keeps_free s F) (ks_ok s F) (keeps_links s F) s root t p w wp word Hh HJ HF Hword Hwn Hpp) as Hd.
  cbv zeta in Hd. split.
  - intros Hx. destruct (level_at t p) as [L|] eqn:Hl; [|done]. rewrite (lookup_snoc _ _ L) in Hx by done.
    by destruct (tree_find L w) as [[[? ?] ?]|].
  - intros L a ty l Hl Hf. rewrite Hl, Hf in Hd. split; intros Hint; rewrite Hint in Hd; [|done].
    destruct Hd as (s' & Hrun & Hh' & [_ (F' & Hc' & HF') _ Hfreed] & Hx). eexists s', _, F'. split; [done|]. split_and!.
    + pose proof (root_nonempty _ _ _ Hh' (root_nonnull _ _ _ _ Htm)) as Hne. split; [done|done| |done].
      destruct Hh' as (Ht' & _). destruct (tree_upd t p (tree_remove L w)) as [|r ? ? ? ? ?]; [done|].
      destruct Ht' as (-> & _ & fr & Hfr & _). exists fr. split; [done|]. specialize (Hx r). rewrite Hfr in Hx. case_decide; [done|].
      destruct (tm_root _ _ _ _ Htm) as (f0 & Hf0 & <-). rewrite Hf0 in Hx. by apply data_type.
    + intros q Hq. apply lookup_removed; [done| |done]. destruct Hh as (_ & _ & Hsh & _). by destruct (shape_level _ _ _ Hsh Hl).
    + intros b g Hb Hg. specialize (Hx b). rewrite decide_False, Hg in Hx by done. split; [done|].
      destruct (ffiles s' !! b) as [g'|] eqn:E; [|done]. assert (priv g' = priv g) as <- by (by injection Hx). by apply (HF' b g').
    + destruct (removed_files s root t p L w wp a ty l Hh Hl HF Hf) as [Hnd Hdom]. destruct Hfreed as (gone & ps & Hndg & Hin & HP & Hps).
      exists ps. split; [|done]. rewrite HP. f_equiv. apply NoDup_Permutation; [done|done|]. intros b. rewrite Hin, <-(fmap_None data), Hx.
      case_decide as Hb; [by split; [|split; [apply Hdom|]]|]. rewrite fmap_None. split; [|done]. by intros [[g ->] ?].
Qed.

(** ** Claims *)

(** C25. A memory file system is a tree of names over files with contents.  For
    every absolute path that does not lead to the root, whatever empty words,
    dots and parents it is written with, [tmpfs_open_file] finds the file at
    the path or returns NULL; [tmpfs_create_file] makes the missing directories
    and an empty regular file with the operations of the memory file system, and
    returns NULL only if the path exists (filesystem.h promises the existing
    file there), if one of its directories is a regular file, or if one of the allocations it needs fails: two for every
    directory, and one for the file, whose failure is a write to NULL;
    [tmpfs_create_dir] makes the directories of the path or returns NULL for the
    same reasons.  Every file that was there stays at its path with its
    contents, and only the path itself and its directories can appear. *)
Theorem tmpfs_names s root t F path ws p w :
  tmpfs s root t F → path_buffer path ws → norm ws = p ++ [w] →
  tmpfs_open_file root path s = Ok (match tree_lookup t (p ++ [w]) with Some (a, _) => a | None => NULL end, s) ∧
  created s root t F p w (tmpfs_create_file root path s) ∧
  ∃ f s' t', tmpfs_create_dir root path s = Ok (f, s') ∧ tmpfs s' root t' F ∧ kept s s' t t' F F (p ++ [w]) ∧
    ((f ≠ NULL ∧ tree_lookup t' (p ++ [w]) = Some (f, FILE_TYPE_DIR)) ∨
     (f = NULL ∧ (no_memory (2 * length (p ++ [w])) s ∨ ∃ k a ty, tree_lookup t (take (S k) (p ++ [w])) = Some (a, ty) ∧ ty ≠ FILE_TYPE_DIR))).
Proof.
  intros Htm Hp Hn. split; [by eapply open_ok|]. split; [by eapply create_ok|by eapply mkdir_ok].
Qed.

(** C26. [tmpfs_delete_file] removes the file or directory at the path with
    everything below it and gives all of its memory back: the heap it leaves is
    the heap after [free] of the blocks, the header and the file of each of the
    removed entries, each once, and of nothing else.  Afterwards the paths with
    this prefix are free, and all other paths lead to the same files with the
    same contents.  A path without a file is reported.  All this holds when the
    parent pointer of the entry is intact ([tree_intact]); where an earlier
    deletion spoilt it, an assertion of the code fails. *)
Theorem tmpfs_delete_correct s root t F path ws p w :
  tmpfs s root t F → path_buffer path ws → norm ws = p ++ [w] →
  let run := tmpfs_delete_file root path s in
  (tree_lookup t (p ++ [w]) = None → run = Ok (- ERR_NOT_FOUND, s)) ∧
  (∀ L a ty l, level_at t p = Some L → tree_find L w = Some (a, ty, l) →
     (tree_intact L w = true → ∃ s' t' F', run = Ok (OK, s') ∧ tmpfs s' root t' F' ∧
        (∀ q, path_ok q → tree_lookup t' q = if decide ((p ++ [w]) `prefix_of` q) then None else tree_lookup t q) ∧
        (∀ b g, (b ∉ a :: addrs l) → ffiles s !! b = Some g → data <$> ffiles s' !! b = Some (data g) ∧ F' !! priv g = F !! priv g) ∧
        ∃ ps, ps ≡ₚ (a :: addrs l) ≫= file_memory s ∧ heap_free_all ps (mheap (fmem s)) = Ok ((), mheap (fmem s'))) ∧
     (tree_intact L w = false → run = Err AssertFail)).
Proof. apply remove_ok. Qed.
End proofs.

(** ** Examples *)
Module TmpFsExample.
Import MallocExample MemFsExample FsTreeExample.
#[local] Instance kernel_heap : KHeap mstate := malloc_heap bins.
#[local] Instance kernel_heap_laws : KHeapLaws mstate := malloc_heap_laws bins bins_place.

Lemma fs0_tmpfs : tmpfs fs0 0x5000 t0 ∅.
Proof.
  split; [apply fs0_hierarchy|done| |].
  - eexists. split; [apply lookup_singleton_eq|done].
  - split; cbn; [split; intros *; by rewrite lookup_empty|intros h; rewrite !lookup_empty; split; by intros []| |].
    + intros a f [_ <-]%lookup_singleton_Some. by left.
    + intros a b f g [-> _]%lookup_singleton_Some [-> _]%lookup_singleton_Some. done.
Qed.

(** the path /./b *)
Definition dot_b : list Z := literal "/./b".
Lemma dot_b_buffer : path_buffer dot_b [[46]; [98]].
Proof.
  split_and!; [done| | |by unfold MAX_PATH; vm_compute]; [|split; [by repeat constructor|by exists []]].
  repeat constructor; by vm_compute.
Qed.

(** memory is there: the file is made *)
Lemma create_dot_b : ∃ f s' t' F', tmpfs_create_file 0x5000 dot_b fs0 = Ok (f, s') ∧ tmpfs s' 0x5000 t' F' ∧ f ≠ NULL ∧
  tree_lookup t' [[98]] = Some (f, FILE_TYPE_REGULAR).
Proof.
  assert (match tmpfs_create_file 0x5000 dot_b fs0 with Ok (f, _) => ctrue f | Err _ => false end = true) as E by (vm_compute; reflexivity).
  pose proof (create_ok fs0 0x5000 t0 ∅ dot_b [[46]; [98]] [] [98] fs0_tmpfs dot_b_buffer eq_refl) as Hc.
  destruct (tmpfs_create_file 0x5000 dot_b fs0) as [[f0 s0]|]; [|done].
  destruct Hc as [[? _]|(f & s' & t' & F' & [= -> ->] & Htm & _ & Hcase)]; [done|]. apply ctrue_true in E.
  destruct Hcase as [[? _]|(_ & _ & _ & Hl & _)]; [done|]. by exists f, s', t', F'.
Qed.

Lemma tmpfs_names_witness :
  tmpfs_open_file 0x5000 dot_b fs0 = Ok (NULL, fs0) ∧ created fs0 0x5000 t0 ∅ [] [98] (tmpfs_create_file 0x5000 dot_b fs0).
Proof.
  destruct (tmpfs_names fs0 0x5000 t0 ∅ dot_b [[46]; [98]] [] [98] fs0_tmpfs dot_b_buffer eq_refl) as (H1 & H2 & _). by split.
Defined.

Lemma dot_b_goes : match (f ← tmpfs_create_file 0x5000 dot_b; tmpfs_delete_file 0x5000 dot_b) fs0 with Ok _ => true | Err _ => false end = true.
Proof. vm_compute. reflexivity. Qed.

Lemma tmpfs_delete_correct_witness :
  tmpfs_delete_file 0x5000 dot_b fs0 = Ok (- ERR_NOT_FOUND, fs0) ∧
  ∃ s t F f s' ps, tmpfs s 0x5000 t F ∧ tree_lookup t [[98]] = Some (f, FILE_TYPE_REGULAR) ∧ tmpfs_delete_file 0x5000 dot_b s = Ok (OK, s') ∧
    f ∈ ps ∧ heap_free_all ps (mheap (fmem s)) = Ok ((), mheap (fmem s')).
Proof.
  split.
  - destruct (tmpfs_delete_correct fs0 0x5000 t0 ∅ dot_b [[46]; [98]] [] [98] fs0_tmpfs dot_b_buffer eq_refl) as (H1 & _). by apply H1.
  - destruct create_dot_b as (f & s & t & F & Hcr & Htm & _ & Hl). pose proof dot_b_goes as Hgo.
    rewrite (bind_ok (tmpfs_create_file 0x5000 dot_b) (λ _, tmpfs_delete_file 0x5000 dot_b) fs0 f s Hcr) in Hgo.
    destruct (tmpfs_delete_correct s 0x5000 t F dot_b [[46]; [98]] [] [98] Htm dot_b_buffer eq_refl) as (_ & H2).
    pose proof Hl as Hl'. cbn in Hl'. destruct (tree_find t [98]) as [[[a ty] l]|] eqn:Hf; [|done]. injection Hl' as -> ->.
    destruct (H2 t f FILE_TYPE_REGULAR l eq_refl Hf) as [Hok Hbad]. destruct (tree_intact t [98]); [|rewrite (Hbad eq_refl) in Hgo; discriminate Hgo].
    destruct (Hok eq_refl) as (s' & _ & _ & Hr & _ & _ & _ & ps & HP & Hps). exists s, t, F, f, s', ps.
    split; [exact Htm|]. split; [exact Hl|]. split; [exact Hr|]. split; [|exact Hps]. clear Hcr Hgo Hr Hps H2 Hok Hbad.
    rewrite HP, bind_cons. apply elem_of_app. left. unfold file_memory.
    destruct (removed_files s 0x5000 t [] t [98] [] f FILE_TYPE_REGULAR l) as [_ Hdom]; [apply Htm|done|constructor|exact Hf|].
    destruct (Hdom f) as [g ->]; [by left|]. apply elem_of_app. right. by left.
Defined.

(** A file is made, written, read back and removed; then its path is free. *)
Example tmpfs_life_cycle :
  match (f ← tmpfs_create_file 0x5000 (literal "/b/c"); g ← tmpfs_open_file 0x5000 (literal "//b/./c");
         rc ← tmpfs_delete_file 0x5000 (literal "/b"); h ← tmpfs_open_file 0x5000 (literal "/b/c"); mret (f, g, rc, h)) fs0 with
  | Ok ((f, g, rc, h), s) => ctrue f && (f =? g) && (rc =? OK) && (h =? NULL) && (Z.of_nat (base.size (ffiles s)) =? 1)
  | Err _ => false
  end = true.
Proof. vm_compute. reflexivity. Qed.
End TmpFsExample.
