(* ===== verification/Vfs.v ===== *)
(** * The virtual file system: the operations of filesystem/vfs.c

    Paths are routed to the file system mounted at their longest prefix (Path),
    open files to the operations their [ops] points to.  Both tables of function
    pointers are records of optional functions: [file_operations] and
    [file_systems] give the record at an address.  The functions act on the
    [world]: the files of all file systems (FsTree) and a state [D] of devices;
    they can change neither the mount table nor the descriptors of a task.  The
    memory file system (TmpFs, MemFs) provides one instance of each. *)

From Stdlib Require Import ZifyNat.
From stdpp Require Import gmap list strings.
From S2P Require Import Prelude CString Malloc KHeap Task MemFs Vma Path FsTree TmpFs.
Open Scope Z_scope.
Open Scope zelda_scope.

(** the fields of [struct stat] that are ever set *)
Record stat := mk_stat { st_mode : Z; st_size : Z }.
Definition zero_stat : stat := mk_stat 0 0.

Record dirent := mk_dirent { d_size : Z; d_type : Z; d_name : list Z }.
Definition set_d_size (x : Z) (d : dirent) : dirent := mk_dirent x (d_type d) (d_name d).
Definition set_d_type (x : Z) (d : dirent) : dirent := mk_dirent (d_size d) x (d_name d).
Definition set_d_name (x : list Z) (d : dirent) : dirent := mk_dirent (d_size d) (d_type d) x.
Definition DIRENT_NAME : Z := 256.

Definition SEEK_SET : Z := 0.
Definition SEEK_CUR : Z := 1.
Definition SEEK_END : Z := 2.

Definition set_fe_offset (x : Z) (e : file_entry) : file_entry := mk_fe (fe_file e) x (fe_valid e) (fe_writable e).

Section vfs.
Context {A : Type} `{KHeap A} {D : Type}.

Record world := mk_world { wfs : fstate A; wdev : D }.
Definition wfs_l : lens world (fstate A) := Lens wfs (λ x w, mk_world x (wdev w)).

(** [struct file_operation]; a missing function is a NULL pointer *)
Record file_operation := mk_fops {
  op_isatty : option (Z → M world Z);
  op_size : option (Z → M world Z);
  op_stat : option (Z → stat → M world (Z * stat));
  op_read : option (Z → Z → list Z → Z → M world (Z * list Z));
  op_write : option (Z → Z → list Z → Z → M world Z);
  op_truncate : option (Z → Z → M world Z);
  op_ioctl : option (Z → Z → Z → Z → M world Z) }.

(** [struct filesystem_operation]; the functions get [fs->priv] *)
Record filesystem_operation := mk_fsops {
  fs_open : option (Z → list Z → M world Z);
  fs_create : option (Z → list Z → Z → M world Z);
  fs_mkdir : option (Z → list Z → M world Z);
  fs_delete : option (Z → list Z → M world Z) }.

Record file_system := mk_fs { fs_ops : filesystem_operation; filesystem_type : Z; fs_priv : Z }.

Variable file_operations : gmap Z file_operation.
Variable file_systems : gmap Z file_system.

Record vstate := mk_vstate { vmounts : list mount_entry; vworld : world }.
Definition vmounts_l : lens vstate (list mount_entry) := Lens vmounts (λ x s, mk_vstate x (vworld s)).
Definition vworld_l : lens vstate world := Lens vworld (λ x s, mk_vstate (vmounts s) x).

Definition on_files {B} (m : M (fstate A) B) : M vstate B := zoom vworld_l (zoom wfs_l m).

(** [ASSERT(p)] of a function pointer, and its call *)
Definition assert_method {B} (o : option B) : M vstate B :=
  match o with Some f => mret f | None => fail AssertFail end.

(** [file->ops] as an object *)
Definition file_ops (file : Z) : M vstate file_operation :=
  f ← on_files (get_file file); deref (file_operations !! ops f).

(** [search_mount_entry], [memset] and [resolve_subpath], the beginning of all
    operations on paths: the index of the entry, the entry, its file system and
    the rest of the path *)
Definition resolve_mount (path : list Z) : M vstate (option (Z * mount_entry * file_system * list Z)) :=
  idx ← zoom vmounts_l (search_mount_entry path);
  if idx <? 0 then mret None else
  es ← gets vmounts;
  entry ← deref (es !! Z.to_nat idx);
  sub_path ← deref (resolve_subpath zero_path path entry);
  fs ← deref (file_systems !! mount_fs entry);
  mret (Some (idx, entry, fs, sub_path)).

(** [ASSERT(fs_ops->fs_open)] and its call *)
Definition call_open (fs : file_system) (sub_path : list Z) : M vstate Z :=
  f ← assert_method (fs_open (fs_ops fs));
  zoom vworld_l (f (fs_priv fs) sub_path).

Definition do_vfs_open (path : list Z) (flags mode : Z) : M vstate Z :=
  o ← resolve_mount path;
  match o with
  | None => mret NULL
  | Some (_, _, fs, sub_path) =>
      file ← call_open fs sub_path;
      when (ctrue file) (on_files (upd_file file (λ f, set_refer_count (u32 (refer_count f + 1)) f))) ;;
      mret file
  end.

Definition do_vfs_close (file : Z) : M vstate Z :=
  on_files (upd_file file (λ f, set_refer_count (u32 (refer_count f - 1)) f)) ;;
  mret OK.

(** [ASSERT(entry->file->ops)] *)
Definition assert_ops (file : Z) : M vstate () :=
  f ← on_files (get_file file); ASSERT (ctrue (ops f)).

(** the result, the buffer and the entry *)
Definition do_vfs_read (entry : file_entry) (buffer : list Z) (size : Z) : M vstate (Z * list Z * file_entry) :=
  assert_ops (fe_file entry) ;;
  o ← file_ops (fe_file entry);
  read ← assert_method (op_read o);
  '(result, buffer) ← zoom vworld_l (read (fe_file entry) (fe_offset entry) buffer size);
  mret (result, buffer, if 0 <? result then set_fe_offset (u32 (fe_offset entry + result)) entry else entry).

Definition do_vfs_write (entry : file_entry) (buffer : list Z) (size : Z) : M vstate (Z * file_entry) :=
  assert_ops (fe_file entry) ;;
  o ← file_ops (fe_file entry);
  write ← assert_method (op_write o);
  if negb (fe_writable entry) then mret (- ERR_NOT_SUPPORTED, entry) else
  result ← zoom vworld_l (write (fe_file entry) (fe_offset entry) buffer size);
  mret (result, if 0 <? result then set_fe_offset (u32 (fe_offset entry + result)) entry else entry).

Definition do_vfs_lseek (entry : file_entry) (offset whence : Z) : M vstate (Z * file_entry) :=
  entry ←
    (if whence =? SEEK_SET then mret (set_fe_offset offset entry)
     else if whence =? SEEK_CUR then mret (set_fe_offset (u32 (fe_offset entry + offset)) entry)
     else if whence =? SEEK_END then
       assert_ops (fe_file entry) ;;
       o ← file_ops (fe_file entry);
       sz ← assert_method (op_size o);
       n ← zoom vworld_l (sz (fe_file entry));
       mret (set_fe_offset (u32 (u32 n + offset)) entry)
     else mret entry);
  mret (i32 (fe_offset entry), entry).

Definition do_vfs_truncate (entry : file_entry) (offset : Z) : M vstate Z :=
  assert_ops (fe_file entry) ;;
  o ← file_ops (fe_file entry);
  match op_truncate o with
  | None => mret (- ERR_NOT_SUPPORTED)
  | Some truncate => zoom vworld_l (truncate (fe_file entry) offset)
  end.

Definition do_vfs_create (path : list Z) (flags mode : Z) : M vstate Z :=
  o ← resolve_mount path;
  match o with
  | None => mret NULL
  | Some (_, _, fs, sub_path) =>
      file ← match fs_create (fs_ops fs) with
             | Some create => zoom vworld_l (create (fs_priv fs) sub_path mode)
             | None => mret NULL
             end;
      when (ctrue file) (on_files (upd_file file (set_mode mode))) ;;
      mret file
  end.

Definition do_vfs_directory_create (path : list Z) : M vstate Z :=
  o ← resolve_mount path;
  match o with
  | None => mret NULL
  | Some (_, _, fs, sub_path) =>
      match fs_mkdir (fs_ops fs) with
      | Some mkdir => zoom vworld_l (mkdir (fs_priv fs) sub_path)
      | None => mret NULL
      end
  end.

Definition do_vfs_path_delete (path : list Z) : M vstate Z :=
  o ← resolve_mount path;
  match o with
  | None => mret (- ERR_INVALID_ARG)
  | Some (_, _, fs, sub_path) =>
      file ← call_open fs sub_path;
      if ! file then mret (- ERR_NOT_FOUND) else
      f ← on_files (get_file file);
      if ctrue (refer_count f) then mret (- ERR_IN_USE) else
      match fs_delete (fs_ops fs) with
      | None => mret (- ERR_NOT_SUPPORTED)
      | Some del => zoom vworld_l (del (fs_priv fs) sub_path)
      end
  end.

(** the result and the [struct stat] of the caller *)
Definition do_vfs_stat (path : list Z) (buf : stat) : M vstate (Z * stat) :=
  o ← resolve_mount path;
  match o with
  | None => mret (- ERR_INVALID_ARG, buf)
  | Some (_, _, fs, sub_path) =>
      file ← call_open fs sub_path;
      if ! file then mret (- ERR_NOT_FOUND, buf) else
      o ← file_ops file;
      match op_stat o with
      | None => mret (- ERR_NOT_SUPPORTED, buf)
      | Some st => zoom vworld_l (st file zero_stat)
      end
  end.

(** ** Directory entries: [dirp] is the array of the caller *)
Definition set_dirent (dirp : list dirent) (iptr : Z) (d : dirent) : option (list dirent) :=
  if (iptr <? 0) || (Z.of_nat (length dirp) <=? iptr) then None else Some (<[Z.to_nat iptr := d]> dirp).

Definition put_dir_entry (dirp : list dirent) (iptr file : Z) : M vstate (list dirent) :=
  f ← on_files (get_file file);
  d ← deref (dirp !! Z.to_nat iptr);
  n ← deref (strcpy_safe (d_name d) (name f) DIRENT_NAME);
  sz ← (if (type f =? FILE_TYPE_MARK) || (type f =? FILE_TYPE_DIR) then mret 0
        else if type f =? FILE_TYPE_REGULAR then
          ASSERT (ctrue (ops f)) ;;
          o ← deref (file_operations !! ops f);
          match op_size o with Some sz => n ← zoom vworld_l (sz file); mret (u32 n) | None => mret 0 end
        else fail AssertFail);
  deref (set_dirent dirp iptr (mk_dirent sz (type f) n)).

(** the loop over a level of the hierarchy *)
Fixpoint put_siblings (fuel : nat) (_sibling : Z) (dirp : list dirent) (nr_entry count : Z) : M vstate (list dirent * Z) :=
  match fuel with
  | O => fail Diverge
  | S fuel =>
      if ! _sibling then mret (dirp, nr_entry) else
      if nr_entry <? count then
        dirp ← put_dir_entry dirp nr_entry _sibling;
        f ← on_files (get_file _sibling);
        put_siblings fuel (right f) dirp (nr_entry + 1) count
      else mret (dirp, nr_entry)
  end.

Definition put_level (current_node : Z) (dirp : list dirent) (nr_entry count : Z) : M vstate (list dirent * Z) :=
  fuel ← on_files tree_fuel;
  _sibling ← (if ctrue current_node then on_files (first_sibling fuel current_node) else mret NULL);
  put_siblings fuel _sibling dirp nr_entry count.

(** [for (ptr = sub_path; *ptr; ptr++)]: the path up to its first slash *)
Fixpoint cut_word (sub_path : list Z) : option (list Z) :=
  match sub_path with
  | [] => None
  | c :: sub_path => if ! c then Some (c :: sub_path) else if c =? SLASH then Some (0 :: sub_path) else cons c <$> cut_word sub_path
  end.

(** the mount points below the one at [at_idx] *)
Fixpoint put_mounts (es : list mount_entry) (idx at_idx : Z) (entry : mount_entry) (dirp : list dirent) (nr_entry count : Z) :
    M vstate (list dirent * Z) :=
  match es with
  | [] => mret (dirp, nr_entry)
  | e :: es =>
      if negb (mount_valid e) || (idx =? at_idx) then put_mounts es (idx + 1) at_idx entry dirp nr_entry count else
      r ← deref (start_with (mount_point e) (mount_point entry));
      if ctrue r then put_mounts es (idx + 1) at_idx entry dirp nr_entry count else
      sub_path ← deref (resolve_subpath zero_path (mount_point e) entry);
      sub_path ← deref (cut_word sub_path);
      if nr_entry <? count then
        d ← deref (dirp !! Z.to_nat nr_entry);
        n ← deref (strcpy_safe (d_name d) sub_path DIRENT_NAME);
        dirp ← deref (set_dirent dirp nr_entry (mk_dirent 0 FILE_TYPE_DIR n));
        put_mounts es (idx + 1) at_idx entry dirp (nr_entry + 1) count
      else mret (dirp, nr_entry)
  end.

Definition do_vfs_getdents (path : list Z) (dirp : list dirent) (count : Z) : M vstate (Z * list dirent) :=
  o ← resolve_mount path;
  match o with
  | None => mret (- ERR_INVALID_ARG, dirp)
  | Some (idx, entry, fs, sub_path) =>
      file ← call_open fs sub_path;
      '(dirp, nr_entry) ←
        (if ctrue file then
           f ← on_files (get_file file);
           if type f =? FILE_TYPE_REGULAR then
             if 0 <? count then dirp ← put_dir_entry dirp 0 file; mret (dirp, 1) else mret (dirp, 0)
           else if type f =? FILE_TYPE_DIR then put_level (left f) dirp 0 count
           else if type f =? FILE_TYPE_MARK then put_level file dirp 0 count
           else mret (dirp, 0)
         else mret (dirp, 0));
      f ← on_files (get_file file);
      '(dirp, nr_entry) ←
        (if type f =? FILE_TYPE_MARK then es ← gets vmounts; put_mounts es 0 idx entry dirp nr_entry count
         else mret (dirp, nr_entry));
      mret (nr_entry, dirp)
  end.
End vfs.
Arguments world : clear implicits.
Arguments vstate : clear implicits.
Arguments file_operation : clear implicits.
Arguments filesystem_operation : clear implicits.
Arguments file_system : clear implicits.

(** ** The memory file system as an instance *)
Section tmpfs_instance.
Context {A : Type} `{KHeap A} {D : Type}.
Variable residue : Z → A → list Z.

(** [tmpfs_file_stat] reads the header without a test *)
Definition tmpfs_file_stat (file : Z) (st : stat) : M (fstate A) (Z * stat) :=
  f ← get_file file;
  h ← zoom fmem_l (get_head (priv f));
  mret (OK, mk_stat (mode f) (total h)).

(** a file operation of MemFs, which gets [file->priv] *)
Definition on_priv {B} (m : Z → M (mstore A) B) (file : Z) : M (world A D) B :=
  zoom wfs_l (f ← get_file file; zoom fmem_l (m (priv f))).

Definition tmpfs_fops : file_operation A D := mk_fops
  None
  (Some (on_priv tmpfs_file_size))
  (Some (λ file st, zoom wfs_l (tmpfs_file_stat file st)))
  (Some (λ file offset buffer size, on_priv (λ p, tmpfs_read_file p offset buffer size) file))
  (Some (λ file offset buffer size, on_priv (λ p, tmpfs_write_file residue p offset buffer size) file))
  (Some (λ file offset, on_priv (λ p, tmpfs_file_truncate residue p offset) file))
  None.

Definition tmpfs_ops : filesystem_operation A D := mk_fsops
  (Some (λ root path, zoom wfs_l (tmpfs_open_file root path)))
  (Some (λ root path mode, zoom wfs_l (tmpfs_create_file root path)))
  (Some (λ root path, zoom wfs_l (tmpfs_create_dir root path)))
  (Some (λ root path, zoom wfs_l (tmpfs_delete_file root path))).
End tmpfs_instance.

(** ** The memory file system behind a mount point *)
Section proofs.
Context {A : Type} `{!KHeap A, !KHeapLaws A} {D : Type}.
Variable residue : Z → A → list Z.
Hypothesis residue_size : ∀ a h, lenZ (residue a h) = BLOCK_AVAIL_SIZE.
Variable file_operations : gmap Z (file_operation A D).
Hypothesis tmpfs_operations : file_operations !! tmpfs_file_operation = Some (tmpfs_fops residue).
Variable file_systems : gmap Z (file_system A D).
Variable fs_addr fs_kind root : Z.
Hypothesis tmpfs_system : file_systems !! fs_addr = Some (mk_fs tmpfs_ops fs_kind root).
Implicit Types s : vstate A D.

Definition files_of s : fstate A := wfs (vworld s).
Definition with_files s (x : fstate A) : vstate A D := mk_vstate (vmounts s) (mk_world x (wdev (vworld s))).

Lemma on_files_ok {B} (m : M (fstate A) B) s r x : m (files_of s) = Ok (r, x) → on_files m s = Ok (r, with_files s x).
Proof. intros Hr. unfold on_files. apply (zoom_ok vworld_l _ s r (mk_world x (wdev (vworld s)))). by apply (zoom_ok wfs_l _ (vworld s) r x). Qed.

Lemma on_files_err {B} (m : M (fstate A) B) s e : m (files_of s) = Err e → on_files m s = Err e.
Proof. intros Hr. unfold on_files, zoom. simpl. unfold zoom. simpl. unfold files_of in Hr. by rewrite Hr. Qed.

Lemma with_files_same s : with_files s (files_of s) = s.
Proof. by destruct s as [? []]. Qed.

(** the file system is mounted at the words [m] and holds the tree [t] with the contents [F] *)
Record vfs_ok s (m : list (list Z)) (t : dtree) (F : gmap Z (list Z)) : Prop := {
  vo_mounts : mounts_ok (vmounts s);
  vo_entry : ∃ i e, vmounts s !! i = Some e ∧ mount_valid e = true ∧ mount_name e = join m ∧ mount_fs e = fs_addr;
  vo_tmpfs : tmpfs (files_of s) root t F }.

(** the path leads to [p] in this file system: no other mount point lies between *)
Definition routed s (m : list (list Z)) (path : list Z) (p : list (list Z)) (w : list Z) : Prop :=
  ∃ ws, path_buffer path ws ∧ norm ws = m ++ p ++ [w] ∧
    ∀ e, e ∈ vmounts s → candidate (canonical ws) e → lenZ (mount_name e) ≤ lenZ (join m).

Lemma routed_ext s s' m path p w : vmounts s' = vmounts s → routed s m path p w → routed s' m path p w.
Proof. intros E (ws & ?). exists ws. by rewrite E. Qed.

(** a path goes to the file system at its longest mount point *)
Lemma resolve_entry s path ws i e rest fs :
  mounts_ok (vmounts s) → vmounts s !! i = Some e → mount_valid e = true → path_buffer path ws → canonical ws = mount_name e ++ rest →
  (∀ e', e' ∈ vmounts s → candidate (canonical ws) e' → lenZ (mount_name e') ≤ lenZ (mount_name e)) →
  file_systems !! mount_fs e = Some fs →
  ∃ idx sub, resolve_mount file_systems path s = Ok (Some (idx, e, fs, sub), s) ∧ padded (rest_path rest) sub.
Proof.
  intros Hm He Hv Hp Hcan Hmax Hfs. destruct (search_mount_ok ws path (vmounts s) Hp Hm) as (r & Hr & Hb).
  assert (candidate (canonical ws) e) as Hc by (split; [done|]; rewrite Hcan; by eexists).
  destruct Hb as [[_ Hno]|(e1 & Hr0 & He1 & Hc1 & Hmax1)]; [by destruct (Hno e (list_elem_of_lookup_2 _ _ _ He))|].
  assert (e1 = e) as ->.
  { pose proof (Hmax1 e (list_elem_of_lookup_2 _ _ _ He) Hc) as H1. pose proof (Hmax e1 (list_elem_of_lookup_2 _ _ _ He1) Hc1) as H2.
    destruct Hc as [_ Hc], Hc1 as [Hv1 Hc1]. assert (mount_name e1 = mount_name e) as E by (eapply prefix_same_length; [done|done|lia]).
    destruct Hm as (_ & _ & Hinj). rewrite (Hinj _ _ _ _ He1 He Hv1 Hv) in He1 by congruence. congruence. }
  destruct (resolve_subpath_ok ws path e rest Hp) as (sub & Hsub & Hpad); [eapply mounts_ok_entries; eauto using list_elem_of_lookup_2|done|].
  exists r, sub. split; [|done].
  unfold resolve_mount. rewrite (bind_ok _ _ _ _ _ (zoom_ok vmounts_l _ s _ _ Hr)). destruct s as [es wd]. cbn [lset vmounts_l] in *.
  rewrite (proj2 (Z.ltb_ge r 0)) by lia. mstep. rewrite (bind_ok _ _ _ _ _ (deref_ok _ _ _ He1)), (bind_ok _ _ _ _ _ (deref_ok _ _ _ Hsub)).
  by rewrite (bind_ok _ _ _ _ _ (deref_ok _ _ _ Hfs)).
Qed.

Lemma resolve_ok s m t F path p w :
  vfs_ok s m t F → routed s m path p w →
  ∃ idx e sub, resolve_mount file_systems path s = Ok (Some (idx, e, mk_fs tmpfs_ops fs_kind root, sub), s) ∧
    path_buffer sub (p ++ [w]) ∧ norm (p ++ [w]) = p ++ [w].
Proof.
  intros [Hm (i & e & He & Hv & Hn & Hfs) _] (ws & Hp & Hws & Hmax).
  assert (canonical ws = join m ++ join (p ++ [w])) as Hcan.
  { rewrite <-join_app. unfold canonical. rewrite Hws. by destruct (m ++ p ++ [w]) eqn:E; [destruct m, p|]. }
  destruct (resolve_entry s path ws i e (join (p ++ [w])) (mk_fs tmpfs_ops fs_kind root) Hm He Hv Hp) as (r & sub & Hr & Hpad);
    [by rewrite Hn|by rewrite Hn|by rewrite Hfs|].
  exists r, e, sub. split; [exact Hr|]. split.
  - pose proof Hp as (_ & Hok & _ & Hlen). pose proof (norm_ok ws Hok [] (Forall_nil_2 _)) as Hnok. fold (norm ws) in Hnok. rewrite Hws in Hnok.
    split_and!; [by destruct p|by apply Forall_app in Hnok as [_ ?]| |].
    + apply padded_holds in Hpad. unfold rest_path in Hpad. by rewrite decide_False in Hpad by (rewrite join_app, join_cons; by destruct (join p)).
    + pose proof (length_canonical ws) as Hl. rewrite Hcan, length_app in Hl. lia.
  - pose proof (norm_proper ws [] (Forall_nil_2 _)) as Hpr. fold (norm ws) in Hpr. rewrite Hws in Hpr. apply Forall_app in Hpr as [_ Hpr].
    unfold norm. by rewrite norm_id.
Qed.

(** a file changes in its [mode] or [refer_count] *)
Lemma tmpfs_touch (x : fstate A) t F a f f' :
  tmpfs x root t F → ffiles x !! a = Some f →
  name f' = name f → type f' = type f → parent f' = parent f → left f' = left f → right f' = right f → priv f' = priv f →
  tmpfs (put_file x a f') root t F.
Proof.
  intros [Hh Hne (fr & Hfr & Hty) Hc] Ha E1 E2 E3 E4 E5 E6. pose proof Hh as (_ & _ & _ & _ & K & Hk). split; [|done| |].
  - apply (hierarchy_data x root t a f f' (fmem x) K); try done. by destruct x.
  - unfold put_file. cbn. destruct (decide (root = a)) as [->|Hn].
    + exists f'. rewrite lookup_insert_eq. split; [done|]. rewrite E2. rewrite Ha in Hfr. by injection Hfr as ->.
    + exists fr. by rewrite lookup_insert_ne.
  - apply (contents_ext x); [done|done|done|]. intros b g Hb. right. unfold put_file in Hb. cbn in Hb.
    destruct (decide (b = a)) as [->|Hn]; [rewrite lookup_insert_eq in Hb; injection Hb as <-; by exists f|].
    rewrite lookup_insert_ne in Hb by done. by exists g.
Qed.

Lemma vfs_ok_files s m t F x t' F' : vfs_ok s m t F → tmpfs x root t' F' → vfs_ok (with_files s x) m t' F'.
Proof. intros [H1 H2 _] Hx. by split. Qed.

(** *** Operations on paths *)
Definition touched s (a : Z) (f : file) : vstate A D := with_files s (put_file (files_of s) a f).

Lemma touch_run s a f g : ffiles (files_of s) !! a = Some f → on_files (upd_file a g) s = Ok ((), touched s a (g f)).
Proof. intros Ha. apply on_files_ok. by apply upd_file_run. Qed.

Lemma look_run s a f : ffiles (files_of s) !! a = Some f → on_files (get_file a) s = Ok (f, s).
Proof. intros Ha. rewrite (on_files_ok _ s _ _ (get_file_run _ _ _ Ha)). by rewrite with_files_same. Qed.

Definition opened (f : file) : file := set_refer_count (u32 (refer_count f + 1)) f.

Lemma tmpfs_file (x : fstate A) t F q a ty : tmpfs x root t F → tree_lookup t q = Some (a, ty) → a ≠ NULL ∧ ∃ f, ffiles x !! a = Some f ∧ type f = ty.
Proof. intros [(Ht & Hnd & _) _ _ _]. by eapply lookup_file. Qed.

Lemma call_open_ok s m t F sub p w :
  vfs_ok s m t F → path_buffer sub (p ++ [w]) → norm (p ++ [w]) = p ++ [w] →
  call_open (mk_fs tmpfs_ops fs_kind root) sub s = Ok (match tree_lookup t (p ++ [w]) with Some (a, _) => a | None => NULL end, s).
Proof.
  intros [_ _ Htm] Hp Hn. unfold call_open. cbn [fs_ops fs_open tmpfs_ops assert_method fs_priv]. mstep.
  change (zoom vworld_l (zoom wfs_l (tmpfs_open_file root sub)) s) with (on_files (D := D) (tmpfs_open_file root sub) s).
  rewrite (on_files_ok _ s _ _ (open_ok _ _ _ _ _ _ _ _ Htm Hp Hn)). by rewrite with_files_same.
Qed.

Lemma vfs_open_ok s m t F path p w flags mode :
  vfs_ok s m t F → routed s m path p w →
  match tree_lookup t (p ++ [w]) with
  | None => do_vfs_open file_systems path flags mode s = Ok (NULL, s)
  | Some (a, _) => ∃ f, ffiles (files_of s) !! a = Some f ∧
      do_vfs_open file_systems path flags mode s = Ok (a, touched s a (opened f)) ∧ vfs_ok (touched s a (opened f)) m t F
  end.
Proof.
  intros Hok Hrt. destruct (resolve_ok s m t F path p w Hok Hrt) as (idx & e & sub & Hr & Hsub & Hnorm).
  unfold do_vfs_open. rewrite (bind_ok _ _ _ _ _ Hr), (bind_ok _ _ _ _ _ (call_open_ok s m t F sub p w Hok Hsub Hnorm)).
  destruct (tree_lookup t (p ++ [w])) as [[a ty]|] eqn:El; [|done].
  destruct (tmpfs_file _ _ _ _ _ _ (vo_tmpfs _ _ _ _ Hok) El) as (Ha & f & Hf & _). exists f. split; [done|].
  rewrite (proj2 (ctrue_true a) Ha). unfold when. rewrite (bind_ok _ _ _ _ _ (touch_run s a f _ Hf)). split; [done|].
  eapply vfs_ok_files; [done|]. eapply tmpfs_touch; [apply Hok|done..].
Qed.

Lemma vfs_close_ok s m t F a f :
  vfs_ok s m t F → ffiles (files_of s) !! a = Some f →
  let f' := set_refer_count (u32 (refer_count f - 1)) f in do_vfs_close a s = Ok (OK, touched s a f') ∧ vfs_ok (touched s a f') m t F.
Proof.
  intros Hok Hf. cbv zeta. unfold do_vfs_close. rewrite (bind_ok _ _ _ _ _ (touch_run s a f _ Hf)). split; [done|].
  eapply vfs_ok_files; [done|]. eapply tmpfs_touch; [apply Hok|done..].
Qed.

(** a new file, or the reason why there is none *)
Definition vfs_created s m (t : dtree) (F : gmap Z (list Z)) p w mode (r : result (Z * vstate A D)) : Prop :=
  (r = Err BadAccess ∧ no_memory (2 * length p + 1) (files_of s)) ∨
  ∃ f s' t' F', r = Ok (f, s') ∧ vmounts s' = vmounts s ∧ vfs_ok s' m t' F' ∧ kept (files_of s) (files_of s') t t' F F' (p ++ [w]) ∧
    ((f = NULL ∧ (is_Some (tree_lookup t (p ++ [w])) ∨ no_memory (2 * length p) (files_of s) ∨
        ∃ k a ty, tree_lookup t (take (S k) p) = Some (a, ty) ∧ ty ≠ FILE_TYPE_DIR)) ∨
     (f ≠ NULL ∧ ffiles (files_of s) !! f = None ∧ tree_lookup t (p ++ [w]) = None ∧ tree_lookup t' (p ++ [w]) = Some (f, FILE_TYPE_REGULAR) ∧
        ∃ fl, ffiles (files_of s') !! f = Some fl ∧ ops fl = tmpfs_file_operation ∧ FsTree.mode fl = mode ∧
          (priv fl = NULL ∨ F' !! priv fl = Some []))).

Lemma vfs_create_ok s m t F path p w flags mode :
  vfs_ok s m t F → routed s m path p w → vfs_created s m t F p w mode (do_vfs_create file_systems path flags mode s).
Proof.
  intros Hok Hrt. destruct (resolve_ok s m t F path p w Hok Hrt) as (idx & e & sub & Hr & Hsub & Hnorm).
  unfold do_vfs_create. rewrite (bind_ok _ _ _ _ _ Hr). cbn [fs_ops fs_create tmpfs_ops fs_priv].
  change (zoom vworld_l (zoom wfs_l (tmpfs_create_file root sub))) with (on_files (D := D) (tmpfs_create_file root sub)).
  destruct (create_ok (files_of s) root t F sub _ p w (vo_tmpfs _ _ _ _ Hok) Hsub Hnorm) as [[Hc Hm]|(f & x & t' & F' & Hc & Htm & Hk & Hcase)].
  { left. split; [|done]. by apply bind_err, on_files_err. }
  right. rewrite (bind_ok _ _ _ _ _ (on_files_ok _ s _ _ Hc)). destruct Hcase as [[-> Hwhy]|(Hf & Hfresh & Hno & Hl & fl & Hfl & Hops & Hpriv)].
  - exists NULL, (with_files s x), t', F'. split; [done|]. split; [done|]. split; [by eapply vfs_ok_files|]. split; [done|]. by left.
  - rewrite (proj2 (ctrue_true f) Hf). unfold when. rewrite (bind_ok _ _ _ _ _ (touch_run (with_files s x) f fl (set_mode mode) Hfl)).
    exists f, (touched (with_files s x) f (set_mode mode fl)), t', F'. split; [done|]. split; [done|].
    split; [eapply vfs_ok_files; [by eapply vfs_ok_files|]; eapply tmpfs_touch; [done|done|done..]|]. split.
    + destruct Hk as [H1 H2 H3 H4 H5]. split; [done|done|done| |].
      * intros b g Hb. cbn. rewrite lookup_insert_ne; [by apply H4|]. congruence.
      * intros b g Hb. cbn. destruct (decide (b = f)) as [->|Hbf]; [rewrite lookup_insert_eq; intros [= <-]; by apply (H5 f fl)|].
        rewrite lookup_insert_ne by done. by apply H5.
    + right. split_and!; [done|done|done|done|]. eexists. split; [cbn; apply lookup_insert_eq|]. done.
Qed.

Lemma vfs_mkdir_ok s m t F path p w :
  vfs_ok s m t F → routed s m path p w →
  ∃ f s' t', do_vfs_directory_create file_systems path s = Ok (f, s') ∧ vfs_ok s' m t' F ∧ kept (files_of s) (files_of s') t t' F F (p ++ [w]) ∧
    ((f ≠ NULL ∧ tree_lookup t' (p ++ [w]) = Some (f, FILE_TYPE_DIR)) ∨
     (f = NULL ∧ (no_memory (2 * length (p ++ [w])) (files_of s) ∨ ∃ k a ty, tree_lookup t (take (S k) (p ++ [w])) = Some (a, ty) ∧ ty ≠ FILE_TYPE_DIR))).
Proof.
  intros Hok Hrt. destruct (resolve_ok s m t F path p w Hok Hrt) as (idx & e & sub & Hr & Hsub & Hnorm).
  unfold do_vfs_directory_create. rewrite (bind_ok _ _ _ _ _ Hr). cbn [fs_ops fs_mkdir tmpfs_ops fs_priv].
  destruct (mkdir_ok (files_of s) root t F sub _ p w (vo_tmpfs _ _ _ _ Hok) Hsub Hnorm) as (f & x & t' & Hc & Htm & Hk & Hcase).
  exists f, (with_files s x), t'. split; [exact (on_files_ok _ s _ _ Hc)|]. split; [by eapply vfs_ok_files|done].
Qed.

Lemma vfs_delete_ok s m t F path p w :
  vfs_ok s m t F → routed s m path p w →
  let run := do_vfs_path_delete file_systems path s in
  (tree_lookup t (p ++ [w]) = None → run = Ok (- ERR_NOT_FOUND, s)) ∧
  (∀ L a ty l f, level_at t p = Some L → tree_find L w = Some (a, ty, l) → ffiles (files_of s) !! a = Some f →
     (refer_count f ≠ 0 → run = Ok (- ERR_IN_USE, s)) ∧
     (refer_count f = 0 → tree_intact L w = true → ∃ s' t' F', run = Ok (OK, s') ∧ vfs_ok s' m t' F' ∧
        (∀ q, path_ok q → tree_lookup t' q = if decide ((p ++ [w]) `prefix_of` q) then None else tree_lookup t q) ∧
        ∀ b g, (b ∉ a :: addrs l) → ffiles (files_of s) !! b = Some g →
          data <$> ffiles (files_of s') !! b = Some (data g) ∧ F' !! priv g = F !! priv g) ∧
     (refer_count f = 0 → tree_intact L w = false → run = Err AssertFail)).
Proof.
  intros Hok Hrt. cbv zeta. destruct (resolve_ok s m t F path p w Hok Hrt) as (idx & e & sub & Hr & Hsub & Hnorm).
  pose proof (remove_ok (files_of s) root t F sub _ p w (vo_tmpfs _ _ _ _ Hok) Hsub Hnorm) as [_ Hrem]. cbv zeta in Hrem.
  unfold do_vfs_path_delete. rewrite (bind_ok _ _ _ _ _ Hr), (bind_ok _ _ _ _ _ (call_open_ok s m t F sub p w Hok Hsub Hnorm)). split.
  - by intros ->.
  - intros L a ty l f HL Hf Ha. assert (tree_lookup t (p ++ [w]) = Some (a, ty)) as El by (by rewrite (lookup_snoc _ _ L), Hf).
    rewrite El. destruct (tmpfs_file _ _ _ _ _ _ (vo_tmpfs _ _ _ _ Hok) El) as (Hn & _). rewrite (proj2 (ctrue_true a) Hn). cbn [negb].
    rewrite (bind_ok _ _ _ _ _ (look_run s a f Ha)). destruct (Hrem L a ty l HL Hf) as [Hdel Hbad]. split_and!; intros Hrc.
    + by rewrite (proj2 (ctrue_true _) Hrc).
    + intros Hint. rewrite Hrc. change (ctrue 0) with false. cbv iota. cbn [fs_ops fs_delete tmpfs_ops fs_priv].
      destruct (Hdel Hint) as (x & t' & F' & Hrun & Htm & Hl & Hb & _).
      exists (with_files s x), t', F'. split; [exact (on_files_ok _ s _ _ Hrun)|]. split; [by eapply vfs_ok_files|done].
    + intros Hint. rewrite Hrc. change (ctrue 0) with false. cbv iota. exact (on_files_err _ s _ (Hbad Hint)).
Qed.

(** *** Operations on open files *)

(** the entry belongs to a file whose contents are behind the header [h] *)
Definition refers s (e : file_entry) (h : Z) : Prop :=
  ∃ f, ffiles (files_of s) !! fe_file e = Some f ∧ ops f = tmpfs_file_operation ∧ priv f = h.

Definition advance (e : file_entry) (k : Z) : file_entry := set_fe_offset (u32 (fe_offset e + k)) e.

Lemma advance_0 e : 0 ≤ fe_offset e < 4294967296 → advance e 0 = e.
Proof. intros H. unfold advance. rewrite Z.add_0_r, u32_small by lia. by destruct e. Qed.

Lemma tmpfs_fop_ok (x : fstate A) t F o :
  tmpfs x root t F → fop_ok F o →
  ∃ r mm F', exec_fop residue o (fmem x) = Ok (r, mm) ∧ abs_fop (mheap (fmem x)) F o r F' ∧ tmpfs (mk_fstate mm (ffiles x)) root t F'.
Proof.
  intros [Hh Hne Hroot Hc] Ho. pose proof Hh as (Ht & Hnd & Hsh & Hab & K & [Hst Hfk Hhk Hap Hnull]). destruct Hc as [Hsd Hhd Hp Hown].
  destruct (exec_fop_ok residue residue_size K o (fmem x) F) as (r & mm & F' & Hr & Habs & Hrep & Hsame); [by apply stored_represents|done|].
  apply represents_stored in Hrep as [Hst' Hsd'].
  assert (∀ h, is_Some (F' !! h) ↔ is_Some (F !! h)) as Hdom.
  { intros h. assert (F' = F ∨ ∃ h' d d', F !! h' = Some d ∧ F' = <[h' := d']> F) as [->|(h' & d & d' & Hd & ->)]; [|done|].
    - destruct o; [destruct Habs as (? & _ & _ & ->)|destruct Habs as (? & ? & ? & _ & _ & _ & ->)|destruct Habs as (? & ? & _ & ->)|destruct Habs as (? & _ & _ & ->)];
        eauto 10.
    - rewrite lookup_insert_is_Some. destruct (decide (h' = h)) as [->|]; [rewrite Hd|]; naive_solver. }
  exists r, mm, F'. split; [done|]. split; [done|]. split; [|done|done|].
  - split_and!; [done..|]. exists K. split; cbn; [done|done|intros a Ha%Hsame; auto| |done].
    intros a Ha. apply eq_None_not_Some. intros Hx%Hsame. rewrite (Hap a Ha) in Hx. by destruct Hx.
  - split; cbn; [done| | |done].
    + intros h. rewrite Hdom, <-Hhd. apply Hsame.
    + intros a f Ha. rewrite Hdom. by apply (Hp a f).
Qed.

(** the calls reach the functions of MemFs *)
Lemma priv_run {B} (g : Z → M (mstore A) B) s e f r mm :
  ffiles (files_of s) !! fe_file e = Some f → g (priv f) (fmem (files_of s)) = Ok (r, mm) →
  zoom vworld_l (on_priv g (fe_file e)) s = Ok (r, with_files s (mk_fstate mm (ffiles (files_of s)))).
Proof.
  intros Hf Hg. apply (on_files_ok (f ← get_file (fe_file e); zoom fmem_l (g (priv f)))).
  rewrite (bind_ok _ _ _ _ _ (get_file_run _ _ _ Hf)). exact (zoom_ok fmem_l _ _ _ _ Hg).
Qed.

Lemma assert_ops_run s e h : refers s e h → assert_ops (fe_file e) s = Ok ((), s).
Proof. intros (f & Hf & Hops & _). unfold assert_ops. rewrite (bind_ok _ _ _ _ _ (look_run s _ f Hf)), Hops. done. Qed.
Lemma file_ops_run s e h : refers s e h → file_ops file_operations (fe_file e) s = Ok (tmpfs_fops residue, s).
Proof. intros (f & Hf & Hops & _). unfold file_ops. by rewrite (bind_ok _ _ _ _ _ (look_run s _ f Hf)), Hops, (deref_ok _ _ _ tmpfs_operations). Qed.

Lemma vfs_read_ok s m t F e h d buffer size :
  vfs_ok s m t F → refers s e h → F !! h = Some d → 0 ≤ fe_offset e < 2147483648 → 0 ≤ size ≤ lenZ buffer → lenZ d < 2147483648 →
  let w := take (Z.to_nat size) (drop (Z.to_nat (fe_offset e)) d) in
  do_vfs_read file_operations e buffer size s = Ok ((lenZ w, overlay buffer 0 w, advance e (lenZ w)), s).
Proof.
  intros Hok He Hd Hoff Hsize Hlen w. unfold do_vfs_read. rewrite (bind_ok _ _ _ _ _ (assert_ops_run s e h He)), (bind_ok _ _ _ _ _ (file_ops_run s e h He)).
  cbn [tmpfs_fops op_read assert_method]. mstep. destruct He as (f & Hf & _ & <-).
  destruct (sd_file _ _ (ct_stored _ _ (tm_contents _ _ _ _ (vo_tmpfs _ _ _ _ Hok))) _ _ Hd) as (Hn & l & bs & Hfa & Eb).
  pose proof (raw_read_ok (fmem (files_of s)) (priv f) l bs _ (fe_offset e) buffer size Hfa Hoff Hsize) as Hrd. cbv zeta in Hrd. rewrite Eb in Hrd. fold w in Hrd.
  rewrite (bind_ok _ _ _ (lenZ w, overlay buffer 0 w) s).
  - destruct (Z.ltb_spec 0 (lenZ w)); [done|]. replace (lenZ w) with 0 by lia. rewrite advance_0 by lia. done.
  - rewrite (priv_run (λ p, tmpfs_read_file p (fe_offset e) buffer size) s e f (lenZ w, overlay buffer 0 w) (fmem (files_of s)) Hf).
    + destruct s as [es [[mm ff] dd]]. done.
    + unfold tmpfs_read_file. by rewrite (proj2 (ctrue_true _) Hn).
Qed.

Lemma vfs_write_ok s m t F e h d buf :
  vfs_ok s m t F → refers s e h → F !! h = Some d → fe_writable e = true →
  0 ≤ fe_offset e ≤ lenZ d → fe_offset e + lenZ buf < 2147483648 → lenZ d < 2147483648 →
  ∃ k mm, let s' := with_files s (mk_fstate mm (ffiles (files_of s))) in
    do_vfs_write file_operations e buf (lenZ buf) s = Ok ((k, advance e k), s') ∧ 0 ≤ k ≤ lenZ buf ∧ (k = lenZ buf ∨ no_blocks (blocks_for (fe_offset e + lenZ buf)) (mheap (fmem (files_of s)))) ∧
    vfs_ok s' m t (<[h := overlay d (fe_offset e) (take (Z.to_nat k) buf)]> F).
Proof.
  intros Hok He Hd Hw Hoff Hlim Hlen. unfold do_vfs_write. rewrite (bind_ok _ _ _ _ _ (assert_ops_run s e h He)), (bind_ok _ _ _ _ _ (file_ops_run s e h He)).
  cbn [tmpfs_fops op_write assert_method]. mstep. rewrite Hw. cbn [negb]. destruct He as (f & Hf & _ & <-).
  destruct (tmpfs_fop_ok (files_of s) t F (FWrite (priv f) (fe_offset e) buf) (vo_tmpfs _ _ _ _ Hok)) as (r & mm & F' & Hr & Habs & Htm).
  { exists d. done. }
  destruct Habs as (d0 & k & Hd0 & -> & Hk & Hfull & ->). rewrite Hd in Hd0. injection Hd0 as <-.
  cbn [exec_fop] in Hr. apply bind_Ok_inv in Hr as (k' & mm' & Hr & [= -> ->]). exists k, mm. cbv zeta.
  rewrite (bind_ok _ _ _ _ _ (priv_run (λ p, tmpfs_write_file residue p (fe_offset e) buf (lenZ buf)) s e f _ _ Hf Hr)).
  split; [|split; [done|]; split; [done|by eapply vfs_ok_files]].
  destruct (Z.ltb_spec 0 k); [done|]. replace k with 0 by lia. rewrite advance_0 by lia. done.
Qed.

Lemma vfs_seek_ok s m t F e h d offset whence :
  vfs_ok s m t F → refers s e h → F !! h = Some d → lenZ d < 2147483648 →
  let n := if whence =? SEEK_SET then offset else if whence =? SEEK_CUR then u32 (fe_offset e + offset)
           else if whence =? SEEK_END then u32 (lenZ d + offset) else fe_offset e in
  do_vfs_lseek file_operations e offset whence s = Ok ((i32 n, set_fe_offset n e), s).
Proof.
  intros Hok He Hd Hlen n. unfold n, do_vfs_lseek. destruct (whence =? SEEK_SET); [done|]. destruct (whence =? SEEK_CUR); [done|].
  destruct (whence =? SEEK_END); [|by destruct e]. rewrite bind_assoc_run, (bind_ok _ _ _ _ _ (assert_ops_run s e h He)).
  rewrite bind_assoc_run, (bind_ok _ _ _ _ _ (file_ops_run s e h He)). cbn [tmpfs_fops op_size assert_method]. mstep. mstep. mstep.
  destruct He as (f & Hf & _ & <-).
  destruct (tmpfs_fop_ok (files_of s) t F (FSize (priv f)) (vo_tmpfs _ _ _ _ Hok)) as (r & mm & F' & Hr & (d0 & Hd0 & -> & _) & _); [by exists d|].
  rewrite Hd in Hd0. injection Hd0 as <-. cbn [exec_fop] in Hr. apply bind_Ok_inv in Hr as (k & mm' & Hr & [= -> ->]).
  assert (mm = fmem (files_of s)) as ->.
  { unfold tmpfs_file_size in Hr. destruct (ctrue (priv f)); [|by injection Hr]. apply bind_Ok_inv in Hr as (hd & m1 & Hg & [= _ <-]).
    unfold get_head, zoom, load in Hg. cbn in Hg. destruct (mheads _ !! _); [|done]. injection Hg as _ <-. by destruct (fmem (files_of s)). }
  rewrite (bind_ok _ _ _ _ _ (priv_run tmpfs_file_size s e f _ _ Hf Hr)). mstep. rewrite (u32_small (lenZ d)) by lia.
  by destruct s as [es [[mm ff] dd]].
Qed.

(** ** Claims *)

(** C24. Absolute paths below a mount point of a memory file system are served by
    that file system, whatever dots and slashes they are written with, if no
    other mount point lies deeper on the path.  [do_vfs_open] returns the file
    at the rest of the path and counts the reference, or NULL;
    [do_vfs_create] and [do_vfs_directory_create] extend the tree of the file
    system and give a new file its mode, and [do_vfs_create] returns NULL for a
    path that exists (filesystem.h promises the existing file there);
    [do_vfs_path_delete] refuses a file that is open; otherwise it removes the
    path if the parent pointer of the entry is intact ([tree_intact]), and stops
    at a failed assertion where an earlier deletion spoilt it; the mount table
    and all other files stay as they are. *)
Theorem vfs_serves_tmpfs s m t F path p w flags mode :
  vfs_ok s m t F → routed s m path p w →
  match tree_lookup t (p ++ [w]) with
  | None => do_vfs_open file_systems path flags mode s = Ok (NULL, s)
  | Some (a, _) => ∃ f, ffiles (files_of s) !! a = Some f ∧
      do_vfs_open file_systems path flags mode s = Ok (a, touched s a (opened f)) ∧ vfs_ok (touched s a (opened f)) m t F
  end ∧
  vfs_created s m t F p w mode (do_vfs_create file_systems path flags mode s) ∧
  (∃ f s' t', do_vfs_directory_create file_systems path s = Ok (f, s') ∧ vfs_ok s' m t' F ∧ kept (files_of s) (files_of s') t t' F F (p ++ [w]) ∧
    ((f ≠ NULL ∧ tree_lookup t' (p ++ [w]) = Some (f, FILE_TYPE_DIR)) ∨
     (f = NULL ∧ (no_memory (2 * length (p ++ [w])) (files_of s) ∨ ∃ k a ty, tree_lookup t (take (S k) (p ++ [w])) = Some (a, ty) ∧ ty ≠ FILE_TYPE_DIR)))) ∧
  (tree_lookup t (p ++ [w]) = None → do_vfs_path_delete file_systems path s = Ok (- ERR_NOT_FOUND, s)) ∧
  (∀ L a ty l f, level_at t p = Some L → tree_find L w = Some (a, ty, l) → ffiles (files_of s) !! a = Some f →
     (refer_count f ≠ 0 → do_vfs_path_delete file_systems path s = Ok (- ERR_IN_USE, s)) ∧
     (refer_count f = 0 → tree_intact L w = true → ∃ s' t' F', do_vfs_path_delete file_systems path s = Ok (OK, s') ∧ vfs_ok s' m t' F' ∧
        (∀ q, path_ok q → tree_lookup t' q = if decide ((p ++ [w]) `prefix_of` q) then None else tree_lookup t q) ∧
        ∀ b g, (b ∉ a :: addrs l) → ffiles (files_of s) !! b = Some g →
          data <$> ffiles (files_of s') !! b = Some (data g) ∧ F' !! priv g = F !! priv g) ∧
     (refer_count f = 0 → tree_intact L w = false → do_vfs_path_delete file_systems path s = Err AssertFail)).
Proof.
  intros Hok Hrt. split; [by apply vfs_open_ok|]. split; [by apply vfs_create_ok|]. split; [by apply vfs_mkdir_ok|]. by apply vfs_delete_ok.
Qed.

(** [do_vfs_getdents] of a path without a file reads [file->type] through NULL. *)
Theorem getdents_reads_null s m t F path p w dirp count :
  vfs_ok s m t F → routed s m path p w → tree_lookup t (p ++ [w]) = None →
  do_vfs_getdents file_operations file_systems path dirp count s = Err BadAccess.
Proof.
  intros Hok Hrt Hl. destruct (resolve_ok s m t F path p w Hok Hrt) as (idx & e & sub & Hr & Hsub & Hnorm).
  unfold do_vfs_getdents. rewrite (bind_ok _ _ _ _ _ Hr), (bind_ok _ _ _ _ _ (call_open_ok s m t F sub p w Hok Hsub Hnorm)), Hl.
  change (ctrue NULL) with false. cbv iota. mstep. apply bind_err, on_files_err. unfold get_file, zoom, load. cbn.
  destruct (vo_tmpfs _ _ _ _ Hok) as [(_ & _ & _ & _ & K & Hk) _ _ _]. by rewrite (fk_null _ _ Hk).
Qed.
End proofs.

(** ** Examples *)
Module VfsExample.
Import MallocExample MemFsExample FsTreeExample TmpFsExample.
#[local] Instance kernel_heap : KHeap mstate := malloc_heap bins.
#[local] Instance kernel_heap_laws : KHeapLaws mstate := malloc_heap_laws bins bins_place.

(** a memory file system, at the address 0x6000, mounted at /tmp *)
Definition fops : gmap Z (file_operation mstate ()) := {[tmpfs_file_operation := tmpfs_fops residue]}.
Definition systems : gmap Z (file_system mstate ()) := {[0x6000 := mk_fs tmpfs_ops 1 0x5000]}.
Definition tmp : list Z := [116; 109; 112].
Definition tmp_path : list Z := join [tmp] ++ replicate (Z.to_nat (MAX_PATH - 4)) 0.
Definition mounts : list mount_entry := <[0%nat := mk_mount tmp_path 0x6000 true]> vfs_pre_init.
Definition vfs0 : vstate mstate () := mk_vstate mounts (mk_world fs0 ()).

Lemma tmp_padded : padded (join [tmp]) tmp_path.
Proof. split_and!; [by repeat constructor|done|done]. Qed.

Lemma vfs0_ok : vfs_ok 0x6000 0x5000 vfs0 [tmp] t0 ∅.
Proof.
  split; [| |apply fs0_tmpfs].
  - apply (mounts_ok_insert vfs_pre_init 0 (join [tmp])); [apply vfs_pre_init_ok|apply tmp_padded|].
    intros e He Hv. apply list_elem_of_lookup in He as [i [-> _]%lookup_replicate]. done.
  - exists 0%nat. eexists. split; [by apply list_lookup_insert_eq; vm_compute; lia|]. split; [done|]. split; [|done]. apply (padded_text _ _ tmp_padded).
Qed.

(** the path /tmp/./b *)
Definition tmp_b : list Z := literal "/tmp/./b".
Lemma tmp_b_routed : routed vfs0 [tmp] tmp_b [] [98].
Proof.
  exists [tmp; [46]; [98]]. split_and!; [|done|].
  - split_and!; [done| | |by unfold MAX_PATH; vm_compute]; [|split; [by repeat constructor|by exists []]]. repeat constructor; by vm_compute.
  - intros e [i Hi]%list_elem_of_lookup [Hv _]. destruct i as [|i].
    + assert (e = mk_mount tmp_path 0x6000 true) as -> by (unfold vfs0, mounts in Hi; cbn [vmounts] in Hi; rewrite list_lookup_insert_eq in Hi by (vm_compute; lia); congruence).
      by rewrite (padded_text _ _ tmp_padded : mount_name (mk_mount tmp_path 0x6000 true) = join [tmp]).
    + unfold vfs0, mounts in Hi. cbn [vmounts] in Hi. rewrite list_lookup_insert_ne in Hi by done. by apply lookup_replicate in Hi as [-> _].
Qed.

Lemma vfs_serves_tmpfs_witness :
  do_vfs_open systems tmp_b 0 0 vfs0 = Ok (NULL, vfs0) ∧
  vfs_created 0x6000 0x5000 vfs0 [tmp] t0 ∅ [] [98] 0x1ff (do_vfs_create systems tmp_b 0 0x1ff vfs0).
Proof.
  split.
  - destruct (vfs_serves_tmpfs systems 0x6000 1 0x5000 (lookup_singleton_eq _ _) vfs0 [tmp] t0 ∅ tmp_b [] [98] 0 0 vfs0_ok tmp_b_routed) as (H1 & _). exact H1.
  - destruct (vfs_serves_tmpfs systems 0x6000 1 0x5000 (lookup_singleton_eq _ _) vfs0 [tmp] t0 ∅ tmp_b [] [98] 0 0x1ff vfs0_ok tmp_b_routed) as (_ & H2 & _). exact H2.
Defined.

(** [do_vfs_stat] of a directory reads the operations through NULL. *)
Theorem stat_of_directory_reads_null :
  (do_vfs_directory_create systems (literal "/tmp/d") ;; do_vfs_stat fops systems (literal "/tmp/d") zero_stat) vfs0 = Err BadAccess.
Proof. vm_compute. reflexivity. Qed.
End VfsExample.
