(* ===== verification/FileCalls.v ===== *)
(** * File system calls: the file descriptors of kernel/task_misc.c

    The calls act on the current task, of which they see the descriptor table
    and the working directory, and on the virtual file system (Vfs).  Buffers of
    the caller are lists of bytes. *)

From Stdlib Require Import ZifyNat.
From stdpp Require Import gmap list strings.
From S2P Require Import Prelude CString Printk Malloc KHeap Task MemFs Vma Path FsTree TmpFs Vfs.
Open Scope Z_scope.
Open Scope zelda_scope.

Definition O_WRONLY : Z := 0x1.
Definition O_RDWR : Z := 0x2.
Definition O_CREAT : Z := 0x200.
Definition O_TRUNC : Z := 0x400.

(** [for(; *ptr && *ptr == ' '; ptr++);] *)
Fixpoint skip_blanks (ptr : list Z) : option (list Z) :=
  match ptr with
  | [] => None
  | c :: ptr' => if ctrue c && (c =? BLANK) then skip_blanks ptr' else Some ptr
  end.

(** the new contents of [absolute_path], [None] outside of the buffers *)
Definition compose_absolute_path (cwd absolute_path path : list Z) : option (list Z) :=
  ptr ← skip_blanks path;
  c ← head ptr;
  if negb (c =? SLASH) then snd <$> sprintf absolute_path (literal "%s/%s") [ArgS cwd; ArgS path]
  else strcpy_safe absolute_path path MAX_PATH.

(** [set_work_directory] of kernel/task.c: the new [cwd] *)
Definition set_work_directory (cwd : list Z) : option (list Z) := strcpy_safe zero_path cwd MAX_PATH.

Section calls.
Context {A : Type} `{KHeap A} {D : Type}.
Variable file_operations : gmap Z (file_operation A D).
Variable file_systems : gmap Z (file_system A D).

(** the virtual file system, and [file_entries] and [cwd] of [current] *)
Record cstate := mk_cstate { cvfs : vstate A D; centries : list file_entry; ccwd : list Z }.
Definition cvfs_l : lens cstate (vstate A D) := Lens cvfs (λ x s, mk_cstate x (centries s) (ccwd s)).
Definition set_entries (es : list file_entry) (s : cstate) : cstate := mk_cstate (cvfs s) es (ccwd s).

Fixpoint search_unoccupied (es : list file_entry) (idx : Z) : Z :=
  match es with
  | [] => -1
  | e :: es => if negb (fe_valid e) then idx else search_unoccupied es (idx + 1)
  end.
Definition search_unoccupied_file_descriptor : M cstate Z := es ← gets centries; mret (search_unoccupied es 0).

(** [current->file_entries[fd]] *)
Definition get_entry (fd : Z) : M cstate file_entry :=
  es ← gets centries; if fd <? 0 then fail BadAccess else deref (es !! Z.to_nat fd).
Definition put_entry (fd : Z) (e : file_entry) : M cstate () :=
  get_entry fd ;; modify (λ s, set_entries (<[Z.to_nat fd := e]> (centries s)) s).

(** [fd < 0 || fd >= MAX_FILE_DESCRIPTR_PER_TASK || !file_entries[fd].valid] *)
Definition valid_fd (fd : Z) : M cstate bool :=
  if (fd <? 0) || (MAX_FILE_DESCRIPTR_PER_TASK <=? fd) then mret false else
  e ← get_entry fd; mret (fe_valid e).

Definition absolute (path : list Z) : M cstate (list Z) :=
  cwd ← gets ccwd; deref (compose_absolute_path cwd zero_path path).

Definition call_sys_open (_path : list Z) (flags mode : Z) : M cstate Z :=
  path ← absolute _path;
  fd ← search_unoccupied_file_descriptor;
  if fd <? 0 then mret (- ERR_OUT_OF_RESOURCE) else
  ASSERT ((0 <=? fd) && (fd <? MAX_FILE_DESCRIPTR_PER_TASK)) ;;
  e ← get_entry fd;
  ASSERT (negb (fe_valid e)) ;;
  made ← (if ctrue (Z.land flags O_CREAT)
          then file ← zoom cvfs_l (do_vfs_create file_systems path flags mode); mret (ctrue file)
          else mret true);
  if negb made then mret (- ERR_GENERIC) else
  file ← zoom cvfs_l (do_vfs_open file_systems path flags mode);
  if ! file then mret (- ERR_GENERIC) else
  let writable := ctrue (Z.land flags O_WRONLY) || ctrue (Z.land flags O_RDWR) in
  let e := mk_fe file 0 true writable in
  put_entry fd e ;;
  when (writable && ctrue (Z.land flags O_TRUNC)) (zoom cvfs_l (do_vfs_truncate file_operations e 0) ;; mret ()) ;;
  mret fd.

Definition call_sys_close (fd : Z) : M cstate Z :=
  if (fd <? 0) || (MAX_FILE_DESCRIPTR_PER_TASK <=? fd) then mret (- ERR_INVALID_ARG) else
  e ← get_entry fd;
  if negb (fe_valid e) then mret (- ERR_INVALID_ARG) else
  ret ← zoom cvfs_l (do_vfs_close (fe_file e));
  put_entry fd (mk_fe NULL 0 false false) ;;
  mret ret.

Definition call_sys_read (fd : Z) (buffer : list Z) (size_to_read : Z) : M cstate (Z * list Z) :=
  v ← valid_fd fd;
  if negb v then mret (- ERR_INVALID_ARG, buffer) else
  e ← get_entry fd;
  '(result, buffer, e) ← zoom cvfs_l (do_vfs_read file_operations e buffer size_to_read);
  put_entry fd e ;;
  mret (result, buffer).

Definition call_sys_write (fd : Z) (buffer : list Z) (size_to_write : Z) : M cstate Z :=
  v ← valid_fd fd;
  if negb v then mret (- ERR_INVALID_ARG) else
  e ← get_entry fd;
  '(result, e) ← zoom cvfs_l (do_vfs_write file_operations e buffer size_to_write);
  put_entry fd e ;;
  mret result.

Definition call_sys_lseek (fd offset whence : Z) : M cstate Z :=
  v ← valid_fd fd;
  if negb v then mret (- ERR_INVALID_ARG) else
  e ← get_entry fd;
  '(result, e) ← zoom cvfs_l (do_vfs_lseek file_operations e (u32 offset) (u32 whence));
  put_entry fd e ;;
  mret result.

Definition call_sys_stat (path : list Z) (buf : stat) : M cstate (Z * stat) :=
  zoom cvfs_l (do_vfs_stat file_operations file_systems path buf).

(** the [struct file] of a descriptor, and its operations without a NULL test *)
Definition fd_ops (fd : Z) : M cstate (Z * file_operation A D) :=
  e ← get_entry fd;
  ASSERT (ctrue (fe_file e)) ;;
  o ← zoom cvfs_l (file_ops file_operations (fe_file e));
  mret (fe_file e, o).

Definition call_sys_fstat (fd : Z) (buf : stat) : M cstate (Z * stat) :=
  v ← valid_fd fd;
  if negb v then mret (- ERR_INVALID_ARG, buf) else
  '(file, o) ← fd_ops fd;
  match op_stat o with
  | None => mret (- ERR_NOT_SUPPORTED, buf)
  | Some st => zoom cvfs_l (zoom vworld_l (st file zero_stat))
  end.

Definition call_sys_isatty (fd : Z) : M cstate Z :=
  v ← valid_fd fd;
  if negb v then mret 0 else
  '(file, o) ← fd_ops fd;
  match op_isatty o with
  | None => mret 0
  | Some isatty => zoom cvfs_l (zoom vworld_l (isatty file))
  end.

Definition call_sys_ioctl (fd request foo bar : Z) : M cstate Z :=
  v ← valid_fd fd;
  if negb v then mret (- ERR_INVALID_ARG) else
  '(file, o) ← fd_ops fd;
  match op_ioctl o with
  | None => mret (- ERR_NOT_SUPPORTED)
  | Some ioctl => zoom cvfs_l (zoom vworld_l (ioctl file request foo bar))
  end.

(** the loop of [call_sys_getcwd]: [n] more bytes of [cwd] *)
Fixpoint copy_cwd (n : nat) (cwd ptr : list Z) (idx : Z) : option (list Z * Z) :=
  match n with
  | O => Some (ptr, idx)
  | S n =>
      c ← array_get cwd idx;
      if ! c then Some (ptr, idx) else
      ptr ← array_set ptr idx c;
      copy_cwd n cwd ptr (idx + 1)
  end.

Definition call_sys_getcwd (buffer : list Z) (size : Z) : M cstate (Z * list Z) :=
  cwd ← gets ccwd;
  '(ptr, idx) ← deref (copy_cwd (Z.to_nat (Z.min MAX_PATH size)) cwd buffer 0);
  if idx <? size then ptr ← deref (array_set ptr idx 0); mret (idx + 1, ptr) else mret (idx, ptr).

(** [dir] is what the stack holds for the directory entry *)
Definition call_sys_chdir (dir : dirent) (path : list Z) : M cstate Z :=
  absolute_path ← absolute path;
  '(_, c_name) ← deref (canonicalize_path_name zero_path absolute_path);
  '(n, dirp) ← zoom cvfs_l (do_vfs_getdents file_operations file_systems c_name [dir] 1);
  d ← deref (head dirp);
  if negb (n =? 1) || (negb (d_type d =? FILE_TYPE_DIR) && negb (d_type d =? FILE_TYPE_MARK)) then mret (- ERR_INVALID_ARG) else
  cwd ← deref (set_work_directory c_name);
  modify (λ s, mk_cstate (cvfs s) (centries s) cwd) ;;
  mret OK.

Definition call_sys_getdents (path : list Z) (dirp : list dirent) (count : Z) : M cstate (Z * list dirent) :=
  absolute_path ← absolute path;
  zoom cvfs_l (do_vfs_getdents file_operations file_systems absolute_path dirp count).
End calls.
Arguments cstate : clear implicits.

(** ** References to files *)
Definition refs1 (a : Z) (e : file_entry) : Z := if fe_valid e && (fe_file e =? a) then 1 else 0.
Fixpoint refs (a : Z) (es : list file_entry) : Z := match es with [] => 0 | e :: es => refs1 a e + refs a es end.

Lemma refs_insert a es i e e' : es !! i = Some e → refs a (<[i := e']> es) = refs a es - refs1 a e + refs1 a e'.
Proof.
  revert i. induction es as [|x es IH]; intros [|i] Hi; try done.
  - injection Hi as ->. change (<[0%nat := e']> (e :: es)) with (e' :: es). cbn [refs]. lia.
  - change (<[S i := e']> (x :: es)) with (x :: <[i := e']> es). cbn [refs]. rewrite (IH i Hi). lia.
Qed.

Lemma refs_none a es : (∀ i e, es !! i = Some e → fe_valid e = true → fe_file e ≠ a) → refs a es = 0.
Proof.
  induction es as [|e es IH]; intros H; [done|]. cbn. rewrite IH by (intros i x Hx; exact (H (S i) x Hx)).
  unfold refs1. destruct (fe_valid e) eqn:E; [|done]. rewrite (proj2 (Z.eqb_neq _ _)); [done|]. by apply (H 0%nat e).
Qed.

Lemma search_unoccupied_ok es idx :
  (search_unoccupied es idx = -1 ∧ ∀ i e, es !! i = Some e → fe_valid e = true) ∨
  ∃ i e, search_unoccupied es idx = idx + Z.of_nat i ∧ es !! i = Some e ∧ fe_valid e = false ∧
    ∀ j x, (j < i)%nat → es !! j = Some x → fe_valid x = true.
Proof.
  revert idx. induction es as [|x es IH]; intros idx; cbn [search_unoccupied]; [by left|]. destruct (fe_valid x) eqn:Ex; cbn [negb].
  - destruct (IH (idx + 1)) as [[-> Hall]|(i & e & -> & He & Hv & Hbefore)].
    + left. split; [done|]. intros [|i] e; [by intros [= <-]|apply Hall].
    + right. exists (S i), e. split_and!; [lia|done|done|]. intros [|j] y Hj; [by intros [= <-]|]. apply Hbefore. lia.
  - right. exists 0%nat, x. split_and!; [lia|done|done|]. intros. lia.
Qed.

Lemma u32_add_l a b : u32 (u32 a + b) = u32 (a + b).
Proof. unfold u32. by rewrite Zplus_mod_idemp_l. Qed.
Lemma u32_sub_l a b : u32 (u32 a - b) = u32 (a - b).
Proof. unfold u32. by rewrite Zminus_mod_idemp_l. Qed.

Section proofs.
Context {A : Type} `{!KHeap A, !KHeapLaws A} {D : Type}.
Variable residue : Z → A → list Z.
Hypothesis residue_size : ∀ a h, lenZ (residue a h) = BLOCK_AVAIL_SIZE.
Variable file_operations : gmap Z (file_operation A D).
Hypothesis tmpfs_operations : file_operations !! tmpfs_file_operation = Some (tmpfs_fops residue).
Variable file_systems : gmap Z (file_system A D).
Variable fs_addr fs_kind root : Z.
Hypothesis tmpfs_system : file_systems !! fs_addr = Some (mk_fs tmpfs_ops fs_kind root).
Implicit Types s : cstate A D.

Definition ofiles s : gmap Z file := ffiles (files_of (cvfs s)).

(** every reference count is what the descriptors of the task and the [others] make *)
Record fds_ok (others : Z → Z) s : Prop := {
  fd_length : lenZ (centries s) = MAX_FILE_DESCRIPTR_PER_TASK;
  fd_files : ∀ i e, centries s !! i = Some e → fe_valid e = true → is_Some (ofiles s !! fe_file e);
  fd_counts : ∀ a f, ofiles s !! a = Some f → refer_count f = u32 (others a + refs a (centries s));
  fd_others : ∀ a, ofiles s !! a = None → others a = 0 }.

Lemma fds_ok_refs others s a : fds_ok others s → ofiles s !! a = None → refs a (centries s) = 0.
Proof. intros [_ Hf _ _] Ha. apply refs_none. intros i e He Hv <-. destruct (Hf i e He Hv) as [g Hg]. congruence. Qed.

(** entry [i] changes from [e] to [e'], and the file of both changes its count *)
Lemma fds_ok_step others s i e e' a f n c v :
  fds_ok others s → centries s !! i = Some e → ofiles s !! a = Some f →
  (∀ b, b ≠ a → refs1 b e' = refs1 b e) → n = refs1 a e' - refs1 a e → (fe_valid e' = true → fe_file e' = a) →
  ffiles (files_of v) = <[a := set_refer_count (u32 (refer_count f + n)) f]> (ofiles s) →
  fds_ok others (mk_cstate v (<[i := e']> (centries s)) c).
Proof.
  intros [Hl Hf Hc Ho] Hi Ha Hb -> He' Hv. split; unfold ofiles; cbn; rewrite ?Hv.
  - by rewrite length_insert.
  - intros j x Hj Hx. destruct (decide (i = j)) as [<-|Hij].
    + rewrite list_lookup_insert_eq in Hj by (by eapply lookup_lt_Some). injection Hj as <-. rewrite (He' Hx), lookup_insert_eq. by eexists.
    + rewrite list_lookup_insert_ne in Hj by done. apply lookup_insert_is_Some. destruct (decide (a = fe_file x)); [by left|right].
      split; [done|]. by eapply Hf.
  - intros b g Hg. rewrite (refs_insert _ _ _ _ _ Hi). destruct (decide (b = a)) as [->|Hba].
    + rewrite lookup_insert_eq in Hg. injection Hg as <-. cbn. rewrite (Hc a f Ha), u32_add_l. f_equal. lia.
    + rewrite lookup_insert_ne in Hg by done. rewrite (Hc b g Hg), Hb by done. f_equal. lia.
  - intros b Hg. apply lookup_insert_None in Hg as [Hg _]. by apply Ho.
Qed.

Lemma fds_ok_kept others s v t t' F F' ws :
  fds_ok others s → kept (files_of (cvfs s)) (files_of v) t t' F F' ws → fds_ok others (mk_cstate v (centries s) (ccwd s)).
Proof.
  intros Hs [_ _ _ Hd Hn]. pose proof Hs as [Hl Hf Hc Ho]. split; unfold ofiles; cbn; [done| | |].
  - intros i e Hi He. destruct (Hf i e Hi He) as [g Hg]. specialize (Hd _ _ Hg). destruct (ffiles (files_of v) !! fe_file e); [by eexists|done].
  - intros a g Hg. destruct (ofiles s !! a) as [g0|] eqn:E.
    + specialize (Hd _ _ E). rewrite Hg in Hd. rewrite <-(Hc a g0 E). by injection Hd.
    + rewrite (Hn a g E Hg), (Ho a E), (fds_ok_refs others s a Hs E). done.
  - intros a Ha. apply Ho. destruct (ofiles s !! a) as [g0|] eqn:E; [|done]. specialize (Hd _ _ E). by rewrite Ha in Hd.
Qed.

(** ** Open and close *)
Lemma absolute_run s path apath : compose_absolute_path (ccwd s) zero_path path = Some apath → absolute path s = Ok (apath, s).
Proof. intros Hp. unfold absolute. mstep. by rewrite (deref_ok _ _ _ Hp). Qed.

Lemma get_entry_run s i e : centries s !! i = Some e → get_entry (Z.of_nat i) s = Ok (e, s).
Proof. intros Hi. unfold get_entry. mstep. rewrite (proj2 (Z.ltb_ge _ _)), Nat2Z.id by lia. by rewrite (deref_ok _ _ _ Hi). Qed.

Lemma put_entry_run s i e e' : centries s !! i = Some e → put_entry (Z.of_nat i) e' s = Ok ((), set_entries (<[i := e']> (centries s)) s).
Proof. intros Hi. unfold put_entry. rewrite (bind_ok _ _ _ _ _ (get_entry_run s i e Hi)), Nat2Z.id. done. Qed.

Definition truncates (flags : Z) : bool := (ctrue (Z.land flags O_WRONLY) || ctrue (Z.land flags O_RDWR)) && ctrue (Z.land flags O_TRUNC).
Definition writes (flags : Z) : bool := ctrue (Z.land flags O_WRONLY) || ctrue (Z.land flags O_RDWR).

(** a file that [O_TRUNC] can be applied to *)
Definition truncatable (F : gmap Z (list Z)) (f : file) : Prop :=
  ops f = tmpfs_file_operation ∧ (priv f = NULL ∨ ∃ d, F !! priv f = Some d ∧ lenZ d < 2147483648).

Lemma vfs_truncate_ok v m t F e f :
  vfs_ok fs_addr root v m t F → ffiles (files_of v) !! fe_file e = Some f → truncatable F f →
  ∃ rc mm, let v' := with_files v (mk_fstate mm (ffiles (files_of v))) in
    do_vfs_truncate file_operations e 0 v = Ok (rc, v') ∧ vfs_ok fs_addr root v' m t (alter (λ _, []) (priv f) F).
Proof.
  intros Hok Hf [Hops Hp]. assert (refers v e (priv f)) as He by (by exists f). unfold do_vfs_truncate.
  rewrite (bind_ok _ _ _ _ _ (assert_ops_run v e _ He)), (bind_ok _ _ _ _ _ (file_ops_run residue _ tmpfs_operations v e _ He)). cbn [tmpfs_fops op_truncate].
  destruct Hp as [E|(d & Hd & Hlen)].
  - exists (- ERR_GENERIC), (fmem (files_of v)). cbv zeta.
    rewrite (priv_run (λ p, tmpfs_file_truncate residue p 0) v e f (- ERR_GENERIC) (fmem (files_of v)) Hf) by (by rewrite E).
    split; [done|]. assert (F !! NULL = None) as Hn by (eapply contents_null, tm_contents, vo_tmpfs, Hok).
    rewrite E. replace (alter (λ _, []) NULL F) with F by (symmetry; apply alter_id; congruence).
    destruct v as [es [[mm ff] dd]]. destruct Hok. by split.
  - destruct (tmpfs_fop_ok residue residue_size root (files_of v) t F (FTruncate (priv f) 0) (vo_tmpfs _ _ _ _ _ _ Hok)) as (r & mm & F' & Hr & (d0 & Hd0 & -> & ->) & Htm).
    { exists d. split_and!; (done || lia). }
    rewrite Hd in Hd0. injection Hd0 as <-. cbn [exec_fop] in Hr. apply bind_Ok_inv in Hr as (k & mm' & Hr & [= -> ->]). exists OK, mm. cbv zeta.
    rewrite (priv_run (λ p, tmpfs_file_truncate residue p 0) v e f OK mm Hf Hr). split; [done|]. 
    replace (alter (λ _, []) (priv f) F) with (<[priv f := take (Z.to_nat 0) d]> F); [by eapply vfs_ok_files|].
    apply map_eq. intros h. destruct (decide (h = priv f)) as [->|]; [by rewrite lookup_insert_eq, lookup_alter_eq, Hd|by rewrite lookup_insert_ne, lookup_alter_ne].
Qed.

(** what a call that opens the path [q] did *)
Definition opened_fd (others : Z → Z) s s' m (t : dtree) (F F' : gmap Z (list Z)) q flags (i : nat) (r : Z) : Prop :=
  vfs_ok fs_addr root (cvfs s') m t F' ∧ fds_ok others s' ∧ ccwd s' = ccwd s ∧
  match tree_lookup t q with
  | None => r = - ERR_GENERIC ∧ centries s' = centries s ∧ ofiles s' = ofiles s ∧ F' = F
  | Some (a, _) => ∃ f, ofiles s !! a = Some f ∧ r = Z.of_nat i ∧
      centries s' = <[i := mk_fe a 0 true (writes flags)]> (centries s) ∧ ofiles s' = <[a := opened f]> (ofiles s) ∧
      F' = if truncates flags then alter (λ _, []) (priv f) F else F
  end.

Lemma open_tail_ok others s m t F i e0 apath p w flags mode :
  vfs_ok fs_addr root (cvfs s) m t F → fds_ok others s → routed (cvfs s) m apath p w → centries s !! i = Some e0 → fe_valid e0 = false →
  (∀ a ty f, tree_lookup t (p ++ [w]) = Some (a, ty) → ofiles s !! a = Some f → truncates flags = true → truncatable F f) →
  ∃ r s' F', (file ← zoom cvfs_l (do_vfs_open file_systems apath flags mode);
      if ! file then mret (- ERR_GENERIC) else
      let e := mk_fe file 0 true (writes flags) in
      put_entry (Z.of_nat i) e ;;
      when (truncates flags) (zoom cvfs_l (do_vfs_truncate file_operations e 0) ;; mret ()) ;;
      mret (Z.of_nat i)) s = Ok (r, s') ∧ opened_fd others s s' m t F F' (p ++ [w]) flags i r.
Proof.
  intros Hok Hfd Hrt Hi Hv Htr. pose proof (vfs_open_ok _ _ _ _ tmpfs_system (cvfs s) m t F apath p w flags mode Hok Hrt) as Ho.
  unfold opened_fd. destruct (tree_lookup t (p ++ [w])) as [[a ty]|] eqn:El.
  2:{ rewrite (bind_ok _ _ _ _ _ (zoom_ok cvfs_l _ s _ _ Ho)). exists (- ERR_GENERIC), s, F. destruct s as [v es c]. split; [done|]. split_and!; done. }
  destruct Ho as (f & Hf & Ho & Hok1). rewrite (bind_ok _ _ _ _ _ (zoom_ok cvfs_l _ s _ _ Ho)).
  destruct (tmpfs_file _ _ _ _ _ _ _ (vo_tmpfs _ _ _ _ _ _ Hok) El) as (Ha & _). rewrite (proj2 (ctrue_true a) Ha). cbn [negb]. cbv zeta.
  set (v1 := touched (cvfs s) a (opened f)) in *. set (e := mk_fe a 0 true (writes flags)).
  set (s1 := mk_cstate v1 (centries s) (ccwd s)). change (lset cvfs_l v1 s) with s1.
  rewrite (bind_ok _ _ _ _ _ (put_entry_run s1 i e0 e Hi)). set (s2 := set_entries (<[i := e]> (centries s1)) s1).
  assert (ffiles (files_of v1) = <[a := opened f]> (ofiles s)) as Ev by done.
  assert (∀ v, ffiles (files_of v) = <[a := opened f]> (ofiles s) → fds_ok others (mk_cstate v (<[i := e]> (centries s)) (ccwd s))) as Hfds.
  { intros v Hvf. apply (fds_ok_step others s i e0 e a f 1 (ccwd s) v); try done.
    - intros b Hb. unfold refs1, e. cbn. rewrite Hv. by rewrite (proj2 (Z.eqb_neq a b)).
    - unfold refs1, e. cbn. by rewrite Hv, Z.eqb_refl. }
  destruct (truncates flags) eqn:Et; unfold when.
  - destruct (vfs_truncate_ok v1 m t F e (opened f)) as (rc & mm & Hr & Hok2); [done|rewrite Ev; apply lookup_insert_eq|exact (Htr a ty f eq_refl Hf eq_refl)|].
    cbv zeta in Hok2. rewrite bind_assoc_run, (bind_ok _ _ _ _ _ (zoom_ok cvfs_l _ s2 _ _ Hr)).
    eexists _, _, _. split; [done|]. split; [exact Hok2|]. split; [by apply Hfds|]. split; [done|]. exists f. done.
  - eexists _, _, _. split; [done|]. split; [exact Hok1|]. split; [by apply Hfds|]. split; [done|]. exists f. done.
Qed.

(** descriptors before [i] are in use, [i] is not *)
Definition first_free (es : list file_entry) (i : nat) : Prop :=
  (∃ e, es !! i = Some e ∧ fe_valid e = false) ∧ ∀ j x, (j < i)%nat → es !! j = Some x → fe_valid x = true.

(** the result of [call_sys_open] *)
Definition sys_opened (others : Z → Z) s m (t : dtree) (F : gmap Z (list Z)) p w flags mode (r : result (Z * cstate A D)) : Prop :=
  (r = Ok (- ERR_OUT_OF_RESOURCE, s) ∧ ∀ i e, centries s !! i = Some e → fe_valid e = true) ∨
  ∃ i, first_free (centries s) i ∧
    if ctrue (Z.land flags O_CREAT) then
      (r = Err BadAccess ∧ no_memory (2 * length p + 1) (files_of (cvfs s))) ∨
      (∃ s' t' F', r = Ok (- ERR_GENERIC, s') ∧ vfs_ok fs_addr root (cvfs s') m t' F' ∧ fds_ok others s' ∧
         kept (files_of (cvfs s)) (files_of (cvfs s')) t t' F F' (p ++ [w]) ∧ centries s' = centries s ∧
         (is_Some (tree_lookup t (p ++ [w])) ∨ no_memory (2 * length p) (files_of (cvfs s)) ∨ ∃ k a ty, tree_lookup t (take (S k) p) = Some (a, ty) ∧ ty ≠ FILE_TYPE_DIR)) ∨
      (∃ a fl s' t' F', r = Ok (Z.of_nat i, s') ∧ vfs_ok fs_addr root (cvfs s') m t' F' ∧ fds_ok others s' ∧
         tree_lookup t (p ++ [w]) = None ∧ tree_lookup t' (p ++ [w]) = Some (a, FILE_TYPE_REGULAR) ∧
         centries s' = <[i := mk_fe a 0 true (writes flags)]> (centries s) ∧
         ofiles s' !! a = Some fl ∧ FsTree.mode fl = mode ∧ ops fl = tmpfs_file_operation ∧ (priv fl = NULL ∨ F' !! priv fl = Some []) ∧
         ∀ b g, ofiles s !! b = Some g → data <$> ofiles s' !! b = Some (data g))
    else ∃ r' s' F', r = Ok (r', s') ∧ opened_fd others s s' m t F F' (p ++ [w]) flags i r'.

Lemma sys_open_ok others s m t F path apath p w flags mode :
  vfs_ok fs_addr root (cvfs s) m t F → fds_ok others s →
  compose_absolute_path (ccwd s) zero_path path = Some apath → routed (cvfs s) m apath p w →
  (∀ a ty f, tree_lookup t (p ++ [w]) = Some (a, ty) → ofiles s !! a = Some f → truncates flags = true → truncatable F f) →
  sys_opened others s m t F p w flags mode (call_sys_open file_operations file_systems path flags mode s).
Proof.
  intros Hok Hfd Hp Hrt Htr. unfold call_sys_open. rewrite (bind_ok _ _ _ _ _ (absolute_run s path apath Hp)).
  unfold search_unoccupied_file_descriptor. rewrite bind_assoc_run. mstep. mstep.
  destruct (search_unoccupied_ok (centries s) 0) as [[-> Hall]|(i & e & -> & Hi & Hv & Hbefore)]; [by left|]. right. exists i. split; [by split; [exists e|]|].
  assert (0 ≤ Z.of_nat i < MAX_FILE_DESCRIPTR_PER_TASK) as Hr by (pose proof (fd_length _ _ Hfd); apply lookup_lt_Some in Hi; lia).
  rewrite Z.add_0_l, (proj2 (Z.ltb_ge (Z.of_nat i) 0)) by lia. rewrite (proj2 (Z.leb_le 0 (Z.of_nat i))), (proj2 (Z.ltb_lt _ _ : (Z.of_nat i <? _) = true ↔ _)) by lia.
  mstep. rewrite (bind_ok _ _ _ _ _ (get_entry_run s i e Hi)), Hv. mstep. fold (writes flags). fold (truncates flags).
  destruct (ctrue (Z.land flags O_CREAT)).
  2:{ mstep. cbn [negb]. destruct (open_tail_ok others s m t F i e apath p w flags mode Hok Hfd Hrt Hi Hv Htr) as (r & s' & F' & Hrun & Hdone).
      exists r, s', F'. by split. }
  rewrite bind_assoc_run. destruct (vfs_create_ok _ _ _ _ tmpfs_system (cvfs s) m t F apath p w flags mode Hok Hrt) as [[Hc Hm]|(f & v & t' & F' & Hc & Hmt & Hok1 & Hk & Hcase)].
  { left. split; [|done]. apply bind_err. unfold zoom. cbn. by rewrite Hc. }
  right. rewrite (bind_ok _ _ _ _ _ (zoom_ok cvfs_l _ s _ _ Hc)). mstep. set (s1 := lset cvfs_l v s).
  pose proof (fds_ok_kept others s v t t' F F' _ Hfd Hk) as Hfd1. fold s1 in Hfd1.
  destruct Hcase as [[-> Hwhy]|(Hf & Hfresh & Hno & Hl & fl & Hfl & Hops & Hmode & Hpriv)].
  { left. exists s1, t', F'. done. }
  right. rewrite (proj2 (ctrue_true f) Hf). cbn [negb].
  destruct (open_tail_ok others s1 m t' F' i e apath p w flags mode) as (r & s' & F2 & Hrun & Hok2 & Hfd2 & _ & Hdone); [done|done|by eapply routed_ext|done|done| |].
  { intros a ty g El Hg _. rewrite Hl in El. injection El as <- <-. unfold ofiles in Hg. cbn in Hg. rewrite Hfl in Hg. injection Hg as <-.
    split; [done|]. destruct Hpriv as [?|?]; [by left|right]. by exists []. }
  rewrite Hl in Hdone. destruct Hdone as (g & Hg & -> & Hes & Hfs & HF2). unfold ofiles in Hg. cbn in Hg. rewrite Hfl in Hg. injection Hg as <-.
  exists f, (opened fl), s', t', F2. split; [exact Hrun|]. split; [done|]. split; [done|]. split; [done|]. split; [done|]. split; [done|].
  split; [rewrite Hfs; apply lookup_insert_eq|]. split; [done|]. split; [done|]. split.
  - destruct Hpriv as [?|Hd]; [by left|right]. subst F2. destruct (truncates flags); [|done]. cbn. by rewrite lookup_alter_eq, Hd.
  - intros b x Hb. assert (b ≠ f) by (intros ->; unfold ofiles in Hb; congruence). rewrite Hfs, lookup_insert_ne by done. apply (kp_files _ _ _ _ _ _ _ Hk b x Hb).
Qed.

Lemma sys_close_ok others s m t F fd :
  vfs_ok fs_addr root (cvfs s) m t F → fds_ok others s →
  ∃ r s', call_sys_close fd s = Ok (r, s') ∧ vfs_ok fs_addr root (cvfs s') m t F ∧ fds_ok others s' ∧
    ((r = - ERR_INVALID_ARG ∧ s' = s ∧ ∀ e, 0 ≤ fd → centries s !! Z.to_nat fd = Some e → fe_valid e = false) ∨
     (∃ e, r = OK ∧ 0 ≤ fd ∧ centries s !! Z.to_nat fd = Some e ∧ fe_valid e = true ∧
        centries s' = <[Z.to_nat fd := mk_fe NULL 0 false false]> (centries s) ∧
        ofiles s' = alter (λ f, set_refer_count (u32 (refer_count f - 1)) f) (fe_file e) (ofiles s))).
Proof.
  intros Hok Hfd. unfold call_sys_close. destruct ((fd <? 0) || (MAX_FILE_DESCRIPTR_PER_TASK <=? fd)) eqn:Er.
  { exists (- ERR_INVALID_ARG), s. split; [done|]. split; [done|]. split; [done|]. left. split; [done|]. split; [done|]. intros e Hfd0 He.
    apply lookup_lt_Some in He. pose proof (fd_length _ _ Hfd). lia. }
  destruct (lookup_lt_is_Some_2 (centries s) (Z.to_nat fd)) as [e He]; [pose proof (fd_length _ _ Hfd); lia|].
  assert (Z.of_nat (Z.to_nat fd) = fd) as Efd by lia. pose proof (get_entry_run s _ e He) as Hget. rewrite Efd in Hget.
  rewrite (bind_ok _ _ _ _ _ Hget). destruct (fe_valid e) eqn:Ev; cbn [negb].
  2:{ exists (- ERR_INVALID_ARG), s. split; [done|]. split; [done|]. split; [done|]. left. split; [done|]. split; [done|]. intros e' _ He'. congruence. }
  destruct (fd_files _ _ Hfd _ e He Ev) as [f Hf]. destruct (vfs_close_ok _ _ _ _ tmpfs_system (cvfs s) m t F (fe_file e) f Hok Hf) as [Hc Hok1]. cbv zeta in Hc, Hok1.
  rewrite (bind_ok _ _ _ _ _ (zoom_ok cvfs_l _ s _ _ Hc)). set (v := touched _ _ _) in *. set (s1 := lset cvfs_l v s).
  pose proof (put_entry_run s1 _ e (mk_fe NULL 0 false false) He) as Hput. rewrite Efd in Hput. rewrite (bind_ok _ _ _ _ _ Hput).
  eexists _, _. split; [done|]. split; [exact Hok1|]. split.
  - apply (fds_ok_step others s (Z.to_nat fd) e _ (fe_file e) f (-1) (ccwd s) v); try done.
    + intros b Hb. unfold refs1. cbn. rewrite Ev. by rewrite (proj2 (Z.eqb_neq _ b)) by congruence.
    + unfold refs1. cbn. by rewrite Ev, Z.eqb_refl.
  - right. exists e. split; [done|]. split; [lia|]. split; [done|]. split; [done|]. split; [done|]. unfold ofiles in Hf |- *. cbn.
    apply map_eq. intros b. destruct (decide (b = fe_file e)) as [->|Hb]; [by rewrite lookup_insert_eq, lookup_alter_eq, Hf|by rewrite lookup_insert_ne, lookup_alter_ne].
Qed.

(** ** Read, write and seek *)
Inductive fdop := DRead (fd size : Z) | DWrite (fd : Z) (buf : list Z) | DSeek (fd offset whence : Z).

Definition exec_fdop (o : fdop) : M (cstate A D) fres :=
  match o with
  | DRead fd size =>
      '(k, buf) ← call_sys_read file_operations fd (replicate (Z.to_nat size) 0) size;
      mret (if k <? 0 then RInt k else RData (take (Z.to_nat k) buf))
  | DWrite fd buf => k ← call_sys_write file_operations fd buf (lenZ buf); mret (RInt k)
  | DSeek fd offset whence => k ← call_sys_lseek file_operations fd offset whence; mret (RInt k)
  end.
Fixpoint exec_fdops (os : list fdop) : M (cstate A D) (list fres) :=
  match os with [] => mret [] | o :: os => r ← exec_fdop o; rs ← exec_fdops os; mret (r :: rs) end.

(** the header of the contents of a file *)
Definition header_of s (a : Z) : option Z :=
  f ← ofiles s !! a; if ops f =? tmpfs_file_operation then Some (priv f) else None.

(** the entry of a valid descriptor *)
Definition fd_entry (E : list file_entry) (fd : Z) : option file_entry :=
  if (fd <? 0) || (MAX_FILE_DESCRIPTR_PER_TASK <=? fd) then None else
  e ← E !! Z.to_nat fd; if fe_valid e then Some e else None.

Definition fd_of (o : fdop) : Z := match o with DRead fd _ | DWrite fd _ | DSeek fd _ _ => fd end.

(** what the calls mean: a descriptor is a position in a sequence of bytes that
    other descriptors may share; [heap] is the heap of the kernel *)
Definition abs_fdop (heap : A) (H : Z → option Z) (E : list file_entry) (F : gmap Z (list Z)) (o : fdop) (r : fres) (E' : list file_entry) (F' : gmap Z (list Z)) : Prop :=
  match fd_entry E (fd_of o) with
  | None => r = RInt (- ERR_INVALID_ARG) ∧ E' = E ∧ F' = F
  | Some e =>
      ∃ h d, H (fe_file e) = Some h ∧ F !! h = Some d ∧
      match o with
      | DRead fd size =>
          let w := take (Z.to_nat size) (drop (Z.to_nat (fe_offset e)) d) in
          r = RData w ∧ E' = <[Z.to_nat fd := advance e (lenZ w)]> E ∧ F' = F
      | DWrite fd buf =>
          if fe_writable e then
            ∃ k, r = RInt k ∧ 0 ≤ k ≤ lenZ buf ∧ (k = lenZ buf ∨ no_blocks (blocks_for (fe_offset e + lenZ buf)) heap) ∧
              E' = <[Z.to_nat fd := advance e k]> E ∧ F' = <[h := overlay d (fe_offset e) (take (Z.to_nat k) buf)]> F
          else r = RInt (- ERR_NOT_SUPPORTED) ∧ E' = E ∧ F' = F
      | DSeek fd offset whence =>
          let n := if u32 whence =? SEEK_SET then u32 offset else if u32 whence =? SEEK_CUR then u32 (fe_offset e + u32 offset)
                   else if u32 whence =? SEEK_END then u32 (lenZ d + u32 offset) else fe_offset e in
          r = RInt (i32 n) ∧ E' = <[Z.to_nat fd := set_fe_offset n e]> E ∧ F' = F
      end
  end.

(** inside the contract: the descriptor is of a memory file below 2 GB and its
    position lies below 2 GB, for a write inside the file or at its end *)
Definition fdop_ok (H : Z → option Z) (E : list file_entry) (F : gmap Z (list Z)) (o : fdop) : Prop :=
  ∀ e, fd_entry E (fd_of o) = Some e →
  ∃ h d, H (fe_file e) = Some h ∧ F !! h = Some d ∧ lenZ d < 2147483648 ∧ 0 ≤ fe_offset e < 2147483648 ∧
  match o with
  | DRead fd size => 0 ≤ size
  | DWrite fd buf => fe_writable e = true → fe_offset e ≤ lenZ d ∧ fe_offset e + lenZ buf < 2147483648
  | DSeek _ _ _ => True
  end.
Fixpoint fdops_ok (H : Z → option Z) (E : list file_entry) (F : gmap Z (list Z)) (os : list fdop) : Prop :=
  match os with [] => True | o :: os => fdop_ok H E F o ∧ ∀ heap r E' F', abs_fdop heap H E F o r E' F' → fdops_ok H E' F' os end.
Definition heap_of s : A := mheap (fmem (files_of (cvfs s))).
(** the heap before every call of a program *)
Fixpoint fd_heaps (os : list fdop) s : list A :=
  match os with
  | [] => []
  | o :: os => heap_of s :: match exec_fdop o s with Ok (_, s') => fd_heaps os s' | Err _ => [] end
  end.
Fixpoint abs_fdops (hs : list A) (H : Z → option Z) (E : list file_entry) (F : gmap Z (list Z)) (os : list fdop) (rs : list fres)
    (E' : list file_entry) (F' : gmap Z (list Z)) : Prop :=
  match hs, os, rs with
  | [], [], [] => E' = E ∧ F' = F
  | heap :: hs, o :: os, r :: rs => ∃ E1 F1, abs_fdop heap H E F o r E1 F1 ∧ abs_fdops hs H E1 F1 os rs E' F'
  | _, _, _ => False
  end.

Lemma fd_entry_run s fd : lenZ (centries s) = MAX_FILE_DESCRIPTR_PER_TASK →
  match fd_entry (centries s) fd with
  | None => valid_fd fd s = Ok (false, s)
  | Some e => valid_fd fd s = Ok (true, s) ∧ get_entry fd s = Ok (e, s) ∧ 0 ≤ fd ∧ centries s !! Z.to_nat fd = Some e
  end.
Proof.
  intros Hlen. unfold fd_entry, valid_fd. destruct ((fd <? 0) || (MAX_FILE_DESCRIPTR_PER_TASK <=? fd)) eqn:Er; [done|].
  destruct (lookup_lt_is_Some_2 (centries s) (Z.to_nat fd)) as [e He]; [lia|]. rewrite He, obind.
  pose proof (get_entry_run s _ e He) as Hg. rewrite Z2Nat.id in Hg by lia. rewrite (bind_ok _ _ _ _ _ Hg).
  destruct (fe_valid e) eqn:Ev; [|by rewrite ret_run]. split; [by rewrite ret_run|]. split; [done|]. split; [lia|done].
Qed.

Lemma header_refers s e h : header_of s (fe_file e) = Some h → refers (cvfs s) e h.
Proof.
  unfold header_of. destruct (ofiles s !! fe_file e) as [f|] eqn:Hf; [|done]. rewrite obind.
  destruct (Z.eqb_spec (ops f) tmpfs_file_operation); [|done]. intros [= <-]. by exists f.
Qed.

Lemma put_entry_at s fd e e' : 0 ≤ fd → centries s !! Z.to_nat fd = Some e → put_entry fd e' s = Ok ((), set_entries (<[Z.to_nat fd := e']> (centries s)) s).
Proof. intros Hfd He. pose proof (put_entry_run s _ e e' He) as Hp. by rewrite Z2Nat.id in Hp by done. Qed.

Lemma exec_fdop_ok o s m t F :
  vfs_ok fs_addr root (cvfs s) m t F → lenZ (centries s) = MAX_FILE_DESCRIPTR_PER_TASK → fdop_ok (header_of s) (centries s) F o →
  ∃ r s' F', exec_fdop o s = Ok (r, s') ∧ abs_fdop (heap_of s) (header_of s) (centries s) F o r (centries s') F' ∧
    vfs_ok fs_addr root (cvfs s') m t F' ∧ ofiles s' = ofiles s ∧ lenZ (centries s') = MAX_FILE_DESCRIPTR_PER_TASK.
Proof.
  intros Hok Hlen Hc. unfold abs_fdop. unfold fdop_ok in Hc. pose proof (fd_entry_run s (fd_of o) Hlen) as Hfe.
  destruct (fd_entry (centries s) (fd_of o)) as [e|].
  2:{ exists (RInt (- ERR_INVALID_ARG)), s, F. split; [|done].
      destruct o; cbn [exec_fdop fd_of] in *; unfold call_sys_read, call_sys_write, call_sys_lseek; rewrite bind_assoc_run, (bind_ok _ _ _ _ _ Hfe); done. }
  destruct Hfe as (Hv & Hg & Hfd & He). destruct (Hc e eq_refl) as (h & d & Hh & Hd & Hdl & Hoff & Hctr). pose proof (header_refers s e h Hh) as Href.
  destruct o as [fd size|fd buf|fd offset whence]; cbn [exec_fdop fd_of] in *.
  - unfold call_sys_read. rewrite bind_assoc_run, (bind_ok _ _ _ _ _ Hv). cbn [negb]. rewrite bind_assoc_run, (bind_ok _ _ _ _ _ Hg).
    set (w := take (Z.to_nat size) (drop (Z.to_nat (fe_offset e)) d)).
    assert (do_vfs_read file_operations e (replicate (Z.to_nat size) 0) size (cvfs s) = Ok ((lenZ w, overlay (replicate (Z.to_nat size) 0) 0 w, advance e (lenZ w)), cvfs s)) as Hr.
    { apply (vfs_read_ok residue file_operations tmpfs_operations fs_addr root (cvfs s) m t F e h d); [done|done|done|lia|rewrite length_replicate; lia|lia]. }
    rewrite bind_assoc_run, (bind_ok _ _ _ _ _ (zoom_ok cvfs_l _ s _ _ Hr)). cbv iota beta. set (s1 := lset cvfs_l (cvfs s) s).
    rewrite bind_assoc_run, (bind_ok _ _ _ _ _ (put_entry_at s1 fd e (advance e (lenZ w)) Hfd He)). mstep. mstep.
    eexists _, _, F. split; [done|]. split; [|split; [done|split; [done|by cbn; rewrite length_insert]]]. exists h, d. split; [done|]. split; [done|]. cbv zeta. fold w.
    split; [|done]. rewrite (proj2 (Z.ltb_ge _ _)) by lia. f_equal. unfold overlay. change (Z.to_nat 0) with 0%nat. rewrite Nat2Z.id, take_0. cbn [app]. by rewrite take_app_length.
  - unfold call_sys_write. rewrite bind_assoc_run, (bind_ok _ _ _ _ _ Hv). cbn [negb]. rewrite bind_assoc_run, (bind_ok _ _ _ _ _ Hg).
    destruct (fe_writable e) eqn:Ew.
    + destruct (Hctr eq_refl) as [Hle Hlim].
      destruct (vfs_write_ok residue residue_size file_operations tmpfs_operations fs_addr root (cvfs s) m t F e h d buf) as (k & mm & Hr & Hk & Hfull & Hok'); [done|done|done|done|lia|done|done|].
      rewrite bind_assoc_run, (bind_ok _ _ _ _ _ (zoom_ok cvfs_l _ s _ _ Hr)). cbv iota beta. set (s1 := lset cvfs_l _ s).
      rewrite bind_assoc_run, (bind_ok _ _ _ _ _ (put_entry_at s1 fd e (advance e k) Hfd He)). mstep. mstep.
      eexists _, _, _. split; [done|]. split; [|split; [exact Hok'|split; [done|by cbn; rewrite length_insert]]]. exists h, d. split; [done|]. split; [done|].
      exists k. done.
    + assert (do_vfs_write file_operations e buf (lenZ buf) (cvfs s) = Ok ((- ERR_NOT_SUPPORTED, e), cvfs s)) as Hr.
      { unfold do_vfs_write. rewrite (bind_ok _ _ _ _ _ (assert_ops_run (cvfs s) e h Href)), (bind_ok _ _ _ _ _ (file_ops_run residue _ tmpfs_operations (cvfs s) e h Href)).
        cbn [tmpfs_fops op_write assert_method]. mstep. by rewrite Ew. }
      rewrite bind_assoc_run, (bind_ok _ _ _ _ _ (zoom_ok cvfs_l _ s _ _ Hr)). cbv iota beta. set (s1 := lset cvfs_l (cvfs s) s).
      rewrite bind_assoc_run, (bind_ok _ _ _ _ _ (put_entry_at s1 fd e e Hfd He)). mstep. mstep.
      eexists _, _, F. split; [done|]. split; [|split; [done|split; [done|by cbn; rewrite length_insert]]]. exists h, d. split; [done|]. split; [done|]. cbn.
      by rewrite list_insert_id.
  - unfold call_sys_lseek. rewrite bind_assoc_run, (bind_ok _ _ _ _ _ Hv). cbn [negb]. rewrite bind_assoc_run, (bind_ok _ _ _ _ _ Hg).
    pose proof (vfs_seek_ok residue residue_size file_operations tmpfs_operations fs_addr root (cvfs s) m t F e h d (u32 offset) (u32 whence) Hok Href Hd Hdl) as Hr. cbv zeta in Hr.
    rewrite bind_assoc_run, (bind_ok _ _ _ _ _ (zoom_ok cvfs_l _ s _ _ Hr)). cbv iota beta. set (s1 := lset cvfs_l (cvfs s) s).
    rewrite bind_assoc_run, (bind_ok _ _ _ _ _ (put_entry_at s1 fd e _ Hfd He)). mstep. mstep.
    eexists _, _, F. split; [done|]. split; [|split; [done|split; [done|by cbn; rewrite length_insert]]]. exists h, d. split; [done|]. split; [done|]. done.
Qed.

Lemma exec_fdops_ok os s m t F :
  vfs_ok fs_addr root (cvfs s) m t F → lenZ (centries s) = MAX_FILE_DESCRIPTR_PER_TASK → fdops_ok (header_of s) (centries s) F os →
  ∃ rs s' F', exec_fdops os s = Ok (rs, s') ∧ abs_fdops (fd_heaps os s) (header_of s) (centries s) F os rs (centries s') F' ∧
    vfs_ok fs_addr root (cvfs s') m t F' ∧ ofiles s' = ofiles s.
Proof.
  revert s F. induction os as [|o os IH]; intros s F Hok Hlen Hc; cbn [exec_fdops]; [by exists [], s, F|].
  destruct Hc as [Ho Hc]. destruct (exec_fdop_ok o s m t F Hok Hlen Ho) as (r & s1 & F1 & Hr & Ha & Hok1 & Hf1 & Hlen1).
  assert (header_of s1 = header_of s) as Eh by (unfold header_of; by rewrite Hf1).
  destruct (IH s1 F1 Hok1 Hlen1) as (rs & s2 & F2 & Hrs & Has & Hok2 & Hf2); [rewrite Eh; by eapply Hc|].
  rewrite (bind_ok _ _ _ _ _ Hr), (bind_ok _ _ _ _ _ Hrs). exists (r :: rs), s2, F2. split; [done|]. rewrite Eh in Has.
  cbn [fd_heaps]. rewrite Hr. split; [by exists (centries s1), F1|]. split; [done|]. congruence.
Qed.

(** ** Claims *)

(** C9. Descriptors count references.  When every reference count is the number
    of the task's valid descriptors of the file plus what others hold,
    [call_sys_open] and [call_sys_close] keep it so.  Opening a path below the
    mount point uses the lowest free descriptor, at position 0, writable as the
    flags say, empties the file for [O_TRUNC], and with [O_CREAT] makes a new
    empty file with the mode; it fails, leaving the table alone, when the table
    is full, the file is missing, or with [O_CREAT] exists already (where
    filesystem.h promises the existing file).  Closing takes exactly the valid
    descriptors, frees the entry and drops the reference.  [O_TRUNC] is for
    memory files below 2 GB, not for directories ([truncatable]). *)
Theorem open_close_descriptors others s m t F path apath p w flags mode fd :
  vfs_ok fs_addr root (cvfs s) m t F → fds_ok others s →
  compose_absolute_path (ccwd s) zero_path path = Some apath → routed (cvfs s) m apath p w →
  (∀ a ty f, tree_lookup t (p ++ [w]) = Some (a, ty) → ofiles s !! a = Some f → truncates flags = true → truncatable F f) →
  sys_opened others s m t F p w flags mode (call_sys_open file_operations file_systems path flags mode s) ∧
  ∃ r s', call_sys_close fd s = Ok (r, s') ∧ vfs_ok fs_addr root (cvfs s') m t F ∧ fds_ok others s' ∧
    ((r = - ERR_INVALID_ARG ∧ s' = s ∧ ∀ e, 0 ≤ fd → centries s !! Z.to_nat fd = Some e → fe_valid e = false) ∨
     (∃ e, r = OK ∧ 0 ≤ fd ∧ centries s !! Z.to_nat fd = Some e ∧ fe_valid e = true ∧
        centries s' = <[Z.to_nat fd := mk_fe NULL 0 false false]> (centries s) ∧
        ofiles s' = alter (λ f, set_refer_count (u32 (refer_count f - 1)) f) (fe_file e) (ofiles s))).
Proof. intros Hok Hfd Hp Hrt Htr. split; [by apply (sys_open_ok others s m t F path apath)|by apply sys_close_ok]. Qed.

End proofs.

(** ** Paths relative to the working directory *)
Lemma skip_blanks_id c r : c ≠ BLANK → skip_blanks (c :: r) = Some (c :: r).
Proof. intros Hc. cbn. rewrite (proj2 (Z.eqb_neq c BLANK) Hc). by rewrite andb_false_r. Qed.

(** an absolute path is taken as it is, another one is put behind the working directory *)
Lemma compose_ok cwd cws path ws c :
  holds cwd cws → holds path (c :: ws) → c ≠ BLANK → lenZ cws + lenZ ws + 2 < MAX_PATH →
  ∃ b, compose_absolute_path cwd zero_path path = Some b ∧ holds b (if c =? SLASH then c :: ws else cws ++ SLASH :: c :: ws).
Proof.
  intros Hcwd Hpath Hc Hlen. unfold compose_absolute_path.
  assert (∃ r, path = c :: r) as [r Er] by (destruct Hpath as [_ [r ->]]; by eexists).
  assert (skip_blanks path = Some path) as -> by (rewrite Er; by apply skip_blanks_id). rewrite obind.
  assert (head path = Some c) as -> by (by rewrite Er). rewrite obind. destruct (c =? SLASH); cbn [negb].
  - unfold strcpy_safe. rewrite (strcpy_bytes_ok _ _ (c :: ws)) by (done || (pose proof length_zero_path; simpl; lia)).
    eexists. split; [done|]. rewrite decide_True by (cbn [length]; lia). destruct Hpath as [Hnz _]. split; [done|by eexists].
  - destruct (sprintf_ok zero_path [37; 115; 47; 37; 115] (literal "%s/%s") [ArgS cwd; ArgS path]) as (out & Hr & ->).
    { split; [by repeat constructor|by exists []]. }
    { assert (∀ b t, holds b t → bool_decide (0 ∈ b) = true) as Hz.
      { intros b t [_ [x ->]]. apply bool_decide_true. apply elem_of_app. right. by left. }
      eexists. split; [cbn; by rewrite (Hz _ _ Hcwd)|]. eexists. split; [cbn; by rewrite (Hz _ _ Hpath)|]. done. }
    assert (out = cws ++ SLASH :: c :: ws) as ->.
    { apply renders_s_inv in Hr as (t1 & o1 & Ht1 & -> & Hr). apply renders_char_inv in Hr as (o2 & -> & Hr); [|done].
      apply renders_s_inv in Hr as (t2 & o3 & Ht2 & -> & Hr). apply renders_nil_inv in Hr as ->.
      apply holds_text in Hcwd, Hpath, Ht1, Ht2. rewrite <-Hcwd, Ht1. rewrite Hpath in Ht2. subst t2. by rewrite app_nil_r. }
    pose proof length_zero_path as Hz. rewrite (proj2 (Z.ltb_lt _ _)) by (rewrite length_app; cbn [length]; lia).
    eexists. split; [done|]. destruct Hcwd as [Hc1 _], Hpath as [Hp1 _]. split; [apply Forall_app; split; [done|by constructor]|].
    unfold overlay. change (Z.to_nat 0) with 0%nat. rewrite take_0. cbn [app]. rewrite <-app_assoc. by eexists.
Qed.

(** ** Examples *)
Module FileCallsExample.
Import MallocExample MemFsExample FsTreeExample TmpFsExample VfsExample.
#[local] Instance kernel_heap : KHeap mstate := malloc_heap bins.
#[local] Instance kernel_heap_laws : KHeapLaws mstate := malloc_heap_laws bins bins_place.

(** a task without open files in the directory /tmp *)
Definition no_entry : file_entry := mk_fe NULL 0 false false.
Definition task0 : cstate mstate () := mk_cstate vfs0 (replicate 256 no_entry) (literal "/tmp").

Lemma task0_fds : fds_ok (λ _, 0) task0.
Proof.
  assert (∀ i e, replicate 256 no_entry !! i = Some e → fe_valid e = false) as Hv by (intros i e [-> _]%lookup_replicate; done).
  assert (∀ a, refs a (replicate 256 no_entry) = 0) as Hr by (intros a; apply refs_none; intros i e He; rewrite (Hv i e He); done).
  split; cbn [centries task0].
  - by rewrite length_replicate.
  - intros i e He. by rewrite (Hv i e He).
  - intros a f Hf. rewrite Hr. unfold ofiles in Hf. cbn in Hf. apply lookup_singleton_Some in Hf as [_ <-]. done.
  - done.
Qed.

(** the path b, relative to /tmp *)
Definition path_b : list Z := literal "b".
Lemma path_b_leads : ∃ apath, compose_absolute_path (ccwd task0) zero_path path_b = Some apath ∧ routed (cvfs task0) [tmp] apath [] [98].
Proof.
  destruct (compose_ok (literal "/tmp") (join [tmp]) path_b [] 98) as (b & Hb & Hh).
  { split; [by repeat constructor|by exists []]. } { split; [by repeat constructor|by exists []]. } { done. } { done. }
  exists b. split; [exact Hb|]. destruct tmp_b_routed as (ws & _ & _ & Hmax). exists [tmp; [98]]. split_and!; [|done|].
  - split_and!; [done| |exact Hh|by unfold MAX_PATH; vm_compute]. repeat constructor; by vm_compute.
  - intros e He Hc. destruct tmp_b_routed as (ws' & Hp' & Hn' & Hmax'). apply Hmax'; [done|].
    assert (canonical ws' = join [tmp; [98]]) as -> by (unfold canonical; by rewrite Hn'). exact Hc.
Qed.

Definition flags_new : Z := 0x202.

Lemma open_close_descriptors_witness :
  ∃ r, call_sys_open fops systems path_b flags_new 0x1ff task0 = r ∧ sys_opened 0x6000 0x5000 (λ _, 0) task0 [tmp] t0 ∅ [] [98] flags_new 0x1ff r.
Proof.
  destruct path_b_leads as (apath & Hp & Hrt). eexists. split; [reflexivity|].
  destruct (open_close_descriptors residue residue_size fops (lookup_singleton_eq _ _) systems 0x6000 1 0x5000 (lookup_singleton_eq _ _)
    (λ _, 0) task0 [tmp] t0 ∅ path_b apath [] [98] flags_new 0x1ff 0 vfs0_ok task0_fds Hp Hrt) as [H1 _]; [|exact H1].
  intros a ty f Hl. exfalso. discriminate.
Defined.

(** a new file is open as descriptor 0, with a header *)
Lemma open_b : ∃ (s : cstate mstate ()) t F a fl, vfs_ok 0x6000 0x5000 (cvfs s) [tmp] t F ∧ fds_ok (λ _, 0) s ∧ centries s !! 0%nat = Some (mk_fe a 0 true true) ∧
  ofiles s !! a = Some fl ∧ ops fl = tmpfs_file_operation ∧ F !! priv fl = Some [].
Proof.
  destruct path_b_leads as (apath & Hp & Hrt).
  assert (match call_sys_open fops systems path_b flags_new 0x1ff task0 with
    | Ok (r, s) => (r =? 0) && match centries s !! 0%nat with Some e => match ofiles s !! fe_file e with Some f => ctrue (priv f) | None => false end | None => false end
    | Err _ => false end = true) as E by (vm_compute; reflexivity).
  pose proof (sys_open_ok residue residue_size fops (lookup_singleton_eq _ _) systems 0x6000 1 0x5000 (lookup_singleton_eq _ _)
    (λ _, 0) task0 [tmp] t0 ∅ path_b apath [] [98] flags_new 0x1ff vfs0_ok task0_fds Hp Hrt) as Hopen.
  assert (sys_opened 0x6000 0x5000 (λ _, 0) task0 [tmp] t0 ∅ [] [98] flags_new 0x1ff (call_sys_open fops systems path_b flags_new 0x1ff task0)) as Hs.
  { apply Hopen. intros a ty f Hl. exfalso. discriminate. }
  clear Hopen. destruct (call_sys_open fops systems path_b flags_new 0x1ff task0) as [[r s]|]; [|done].
  apply andb_true_iff in E as [Er E]. apply Z.eqb_eq in Er. subst r. destruct Hs as [[Hs _]|(i & Hfree & Hs)]; [discriminate|].
  change (ctrue (Z.land flags_new O_CREAT)) with true in Hs. cbv iota in Hs.
  destruct Hs as [[Hs _]|[(s' & t' & F' & Hs & _)|(a & fl & s' & t' & F' & [= E0 ->] & Hok & Hfds & _ & _ & Hes & Hfl & _ & Hops & Hpriv & _)]]; [discriminate|discriminate|].
  assert (i = 0%nat) as -> by lia. assert (centries s' !! 0%nat = Some (mk_fe a 0 true true)) as He.
  { rewrite Hes. destruct Hfree as [(e & He & _) _]. apply list_lookup_insert_eq. by eapply lookup_lt_Some. }
  rewrite He in E. cbn [fe_file] in E. rewrite Hfl in E. apply ctrue_true in E. exists s', t', F', a, fl. split_and!; try done. by destruct Hpriv.
Qed.

End FileCallsExample.
