(* ===== verification/Terminal.v ===== *)
(** * Terminals: device/pseudo_terminal.c

    A terminal is a ring of rows that is copied to the video memory while the
    terminal is the current one, with two rings of input bytes: keys for the
    master task (the shell) and what the master passes on to the foreground
    task.  The video memory is shared with the console of Printk.  Ports are a
    log of the bytes written to them; what a port reads is an argument, [inb].
    A function that gives the processor up ends there with [None], and what it
    does when the task runs again is a second definition, as in Task.  [wait] is
    the address of the local wait queue entry. *)

From Stdlib Require Import ZifyNat.
From stdpp Require Import gmap list.
From S2P Require Import Prelude Ring CString Printk PageAlloc Paging Vma TaskPaging Task.
Open Scope Z_scope.
Open Scope zelda_scope.

Definition PTTY_ROWS : Z := 25.
Definition PTTY_COLUMNS : Z := 80.
Definition PSEUDO_BUFFER_SIZE : Z := 64.
Definition MAX_TERMINALS : Z := 6.
Definition CONSOLE_CURSOR_PORT0 : Z := 0x3d4.
Definition CONSOLE_CURSOR_PORT1 : Z := 0x3d5.
Definition PTTY_IOCTL_CLEAR : Z := 0x1.
Definition PTTY_IOCTL_MASTER : Z := 0x2.
Definition PTTY_IOCTL_FOREGROUND : Z := 0x3.
Definition PTTY_IOCTL_SLAVE_WRITE : Z := 0x4.

(** [struct pseudo_terminal_master]; [cells] is its [buffer], [in_ring] and
    [in_wq_head] are its [ring] and [wq_head] *)
Record ptm := mk_ptm {
  master_task_id : Z;
  foreground_task_id : Z;
  in_wq_head : list Z;
  need_scroll : Z;
  row_front : Z;
  row_index : Z;
  col_index : Z;
  cells : list (list Z);
  in_ring : Ring.ring;
  slave_wq_head : list Z;
  slave_ring : Ring.ring }.
Definition set_master_task_id (x : Z) (p : ptm) : ptm :=
  mk_ptm x (foreground_task_id p) (in_wq_head p) (need_scroll p) (row_front p) (row_index p) (col_index p) (cells p) (in_ring p) (slave_wq_head p) (slave_ring p).
Definition set_foreground_task_id (x : Z) (p : ptm) : ptm :=
  mk_ptm (master_task_id p) x (in_wq_head p) (need_scroll p) (row_front p) (row_index p) (col_index p) (cells p) (in_ring p) (slave_wq_head p) (slave_ring p).
Definition set_in_wq_head (x : list Z) (p : ptm) : ptm :=
  mk_ptm (master_task_id p) (foreground_task_id p) x (need_scroll p) (row_front p) (row_index p) (col_index p) (cells p) (in_ring p) (slave_wq_head p) (slave_ring p).
Definition set_need_scroll (x : Z) (p : ptm) : ptm :=
  mk_ptm (master_task_id p) (foreground_task_id p) (in_wq_head p) x (row_front p) (row_index p) (col_index p) (cells p) (in_ring p) (slave_wq_head p) (slave_ring p).
Definition set_row_front (x : Z) (p : ptm) : ptm :=
  mk_ptm (master_task_id p) (foreground_task_id p) (in_wq_head p) (need_scroll p) x (row_index p) (col_index p) (cells p) (in_ring p) (slave_wq_head p) (slave_ring p).
Definition set_row_index (x : Z) (p : ptm) : ptm :=
  mk_ptm (master_task_id p) (foreground_task_id p) (in_wq_head p) (need_scroll p) (row_front p) x (col_index p) (cells p) (in_ring p) (slave_wq_head p) (slave_ring p).
Definition set_col_index (x : Z) (p : ptm) : ptm :=
  mk_ptm (master_task_id p) (foreground_task_id p) (in_wq_head p) (need_scroll p) (row_front p) (row_index p) x (cells p) (in_ring p) (slave_wq_head p) (slave_ring p).
Definition set_cells (x : list (list Z)) (p : ptm) : ptm :=
  mk_ptm (master_task_id p) (foreground_task_id p) (in_wq_head p) (need_scroll p) (row_front p) (row_index p) (col_index p) x (in_ring p) (slave_wq_head p) (slave_ring p).
Definition set_in_ring (x : Ring.ring) (p : ptm) : ptm :=
  mk_ptm (master_task_id p) (foreground_task_id p) (in_wq_head p) (need_scroll p) (row_front p) (row_index p) (col_index p) (cells p) x (slave_wq_head p) (slave_ring p).
Definition set_slave_wq_head (x : list Z) (p : ptm) : ptm :=
  mk_ptm (master_task_id p) (foreground_task_id p) (in_wq_head p) (need_scroll p) (row_front p) (row_index p) (col_index p) (cells p) (in_ring p) x (slave_ring p).
Definition set_slave_ring (x : Ring.ring) (p : ptm) : ptm :=
  mk_ptm (master_task_id p) (foreground_task_id p) (in_wq_head p) (need_scroll p) (row_front p) (row_index p) (col_index p) (cells p) (in_ring p) (slave_wq_head p) x.
(** [sizeof(struct pseudo_terminal_master)] *)
Definition PTM_SIZE : Z := 2272.

Definition ring_l : lens ptm Ring.ring := Lens in_ring set_in_ring.
Definition slave_ring_l : lens ptm Ring.ring := Lens slave_ring set_slave_ring.

(** ** One terminal *)
Definition zero_ring : Ring.ring := mk_ring 0 0 0 (replicate (Z.to_nat PSEUDO_BUFFER_SIZE) 0).
Definition zero_cells : list (list Z) := replicate (Z.to_nat (PTTY_ROWS + 1)) (replicate (Z.to_nat PTTY_COLUMNS) 0).
Definition zero_ptm : ptm := mk_ptm 0 0 [] 0 0 0 0 zero_cells zero_ring [] zero_ring.

Definition set_ring_size (x : Z) (r : Ring.ring) : Ring.ring := mk_ring x (front r) (rear r) (buffer r).

Definition ptty_init : M ptm Z :=
  modify (λ _, zero_ptm) ;;
  zoom ring_l (modify (set_ring_size PSEUDO_BUFFER_SIZE) ;; ring_reset ;; e ← ring_empty; ASSERT e) ;;
  modify (set_in_wq_head initialize_wait_queue_head) ;;
  zoom slave_ring_l (modify (set_ring_size PSEUDO_BUFFER_SIZE) ;; ring_reset ;; e ← ring_empty; ASSERT e) ;;
  modify (set_slave_wq_head initialize_wait_queue_head) ;;
  mret OK.

(** [ptm->buffer[row][idx] = x] *)
Definition put_cell (row idx x : Z) : M ptm () :=
  v ← gets cells;
  v ← deref (set2 v row idx x);
  modify (set_cells v).

Definition ptty_enqueue_byte (value : Z) : M ptm Z :=
  p ← gets id;
  when (negb (value =? NEWLINE)) (put_cell (row_index p) (col_index p) value) ;;
  modify (set_col_index (col_index p + 1)) ;;
  when ((col_index p + 1 =? PTTY_COLUMNS) || (value =? NEWLINE)) (
    modify (set_col_index 0) ;;
    row ← crem (row_index p + 1) (PTTY_ROWS + 1);
    modify (set_row_index row) ;;
    next ← crem (row + 1) (PTTY_ROWS + 1);
    when (next =? row_front p) (
      for_up (Z.to_nat PTTY_COLUMNS) 0 (λ idx, put_cell (row_front p) idx 0) ;;
      front ← crem (row_front p + 1) (PTTY_ROWS + 1);
      modify (set_row_front front))) ;;
  row ← gets row_index;
  modify (λ q, set_need_scroll (Z.lor (need_scroll q) (Z.b2z (negb (row_index p =? row)))) q) ;;
  mret OK.

(** ** The terminals, the screen, the tasks *)
Record tstate := mk_tstate {
  ptms : gmap Z ptm;
  current_ptty : Z;
  tconsole : console;
  ports : list (Z * Z);
  tkernel : kst }.
Definition ptms_l : lens tstate (gmap Z ptm) := Lens ptms (λ x s, mk_tstate x (current_ptty s) (tconsole s) (ports s) (tkernel s)).
Definition current_ptty_l : lens tstate Z := Lens current_ptty (λ x s, mk_tstate (ptms s) x (tconsole s) (ports s) (tkernel s)).
Definition tconsole_l : lens tstate console := Lens tconsole (λ x s, mk_tstate (ptms s) (current_ptty s) x (ports s) (tkernel s)).
Definition ports_l : lens tstate (list (Z * Z)) := Lens ports (λ x s, mk_tstate (ptms s) (current_ptty s) (tconsole s) x (tkernel s)).
Definition tkernel_l : lens tstate kst := Lens tkernel (λ x s, mk_tstate (ptms s) (current_ptty s) (tconsole s) (ports s) x).

(** a function on the terminal at address [a] *)
Definition on_ptm {B} (a : Z) (m : M ptm B) : M tstate B := λ s,
  match ptms s !! a with
  | None => Err BadAccess
  | Some p => match m p with Ok (b, p') => Ok (b, lset ptms_l (<[a := p']> (ptms s)) s) | Err f => Err f end
  end.

Definition outb (port value : Z) : M tstate () := zoom ports_l (modify (λ l, l ++ [(port, value)])).

Section terminals.
(** what the port reads after the writes so far; where the array [ptties] lies;
    the bytes in memory from an address on *)
Variable inb : Z → list (Z * Z) → Z.
Variable ptties : Z.
Variable memory : Z → list Z.

Definition ptty_at (idx : Z) : Z := ptties + idx * PTM_SIZE.

Definition update_cusor (x y : Z) : M tstate () :=
  let pos := u16 (y * PTTY_COLUMNS + x) in
  outb CONSOLE_CURSOR_PORT0 0x0f ;;
  outb CONSOLE_CURSOR_PORT1 (Z.land pos 0xff) ;;
  outb CONSOLE_CURSOR_PORT0 0x0e ;;
  outb CONSOLE_CURSOR_PORT1 (Z.land (Z.shiftr pos 8) 0xff).

Definition disable_cursor : M tstate () :=
  outb CONSOLE_CURSOR_PORT0 0x0a ;;
  outb CONSOLE_CURSOR_PORT1 0x20.

Definition enable_cursor (cursor_start cursor_end : Z) : M tstate () :=
  outb CONSOLE_CURSOR_PORT0 0x0a ;;
  x ← gets (λ s, inb CONSOLE_CURSOR_PORT1 (ports s));
  outb CONSOLE_CURSOR_PORT1 (Z.lor (Z.land x 0xc0) cursor_start) ;;
  outb CONSOLE_CURSOR_PORT0 0x0b ;;
  x ← gets (λ s, inb CONSOLE_CURSOR_PORT1 (ports s));
  outb CONSOLE_CURSOR_PORT1 (Z.lor (Z.land x 0xe0) cursor_end).

(** row [idx_row] of the terminal [p] goes to row [video_row_idx] of the screen *)
Definition copy_row (p : ptm) (idx_row video_row_idx : Z) : M console () :=
  for_up (Z.to_nat PTTY_COLUMNS) 0 (λ idx_col,
    c ← gets id;
    x ← deref (get2 (vga_memory c) video_row_idx idx_col);
    y ← deref (get2 (cells p) idx_row idx_col);
    v ← deref (set2 (vga_memory c) video_row_idx idx_col (Z.lor (Z.land x 0xff00) y));
    modify (set_vga v)).

(** returns the last value of [video_row_idx] *)
Fixpoint copy_rows (fuel : nat) (p : ptm) (idx_row video_row_idx : Z) : M console Z :=
  match fuel with
  | O => fail Diverge
  | S fuel =>
      stop ← crem (row_index p + 1) (PTTY_ROWS + 1);
      if negb (idx_row =? stop) then
        copy_row p idx_row video_row_idx ;;
        idx_row ← crem (idx_row + 1) (PTTY_ROWS + 1);
        copy_rows fuel p idx_row (video_row_idx + 1)
      else mret video_row_idx
  end.

Definition ptty_flush_terminal (ptm : Z) : M tstate Z :=
  p ← on_ptm ptm (gets id);
  (if ! need_scroll p then
     video_row_idx ← crem (row_index p + PTTY_ROWS + 1 - row_front p) (PTTY_ROWS + 1);
     ASSERT (video_row_idx <? PTTY_ROWS) ;;
     zoom tconsole_l (copy_row p (row_index p) video_row_idx) ;;
     update_cusor (col_index p) (video_row_idx + 1)
   else
     video_row_idx ← zoom tconsole_l (copy_rows (Z.to_nat (PTTY_ROWS + 2)) p (row_front p) 0);
     update_cusor (col_index p) video_row_idx) ;;
  on_ptm ptm (modify (set_need_scroll 0)) ;;
  mret OK.

(** ** The operations of the device *)
(** the loop of [ptty_dev_write], [n] bytes from index [idx] on *)
Fixpoint enqueue_bytes (n : nat) (ptr : list Z) (idx : Z) : M ptm () :=
  match n with
  | O => mret ()
  | S n => v ← deref (array_get ptr idx); ptty_enqueue_byte v ;; enqueue_bytes n ptr (idx + 1)
  end.

Definition ptty_dev_write (ptm offset : Z) (buffer : list Z) (size : Z) : M tstate Z :=
  ASSERT (ctrue ptm) ;;
  on_ptm ptm (enqueue_bytes (Z.to_nat size) buffer 0) ;;
  c ← gets current_ptty;
  when (ptm =? c) (ptty_flush_terminal ptm ;; mret ()) ;;
  mret size.

Definition ptty_dev_size : Z := PTTY_ROWS * PTTY_COLUMNS.
Definition ptty_dev_isatty : Z := 1.

Definition ptty_clear (ptm : Z) : M tstate () :=
  on_ptm ptm (modify (set_need_scroll 0) ;; modify (set_row_front 0) ;; modify (set_row_index 0) ;; modify (set_col_index 0) ;;
    modify (set_cells zero_cells)) ;;
  c ← gets current_ptty;
  when (c =? ptm) (zoom tconsole_l reset_video_buffer).

Definition ptty_dev_ioctl (ptm request foo bar : Z) : M tstate Z :=
  if request =? PTTY_IOCTL_CLEAR then ptty_clear ptm ;; mret OK
  else if request =? PTTY_IOCTL_MASTER then on_ptm ptm (modify (set_master_task_id (i32 foo))) ;; mret OK
  else if request =? PTTY_IOCTL_FOREGROUND then
    on_ptm ptm (modify (set_foreground_task_id (i32 foo)) ;; zoom slave_ring_l ring_reset) ;; mret OK
  else if request =? PTTY_IOCTL_SLAVE_WRITE then
    on_ptm ptm (zoom slave_ring_l (write_ring (memory foo) (i32 bar)))
  else mret (- ERR_NOT_PRESENT).

(** [add_wait_queue_entry] and [remove_wait_queue_entry] on the two queues of a terminal *)
Definition join_in (wait : Z) (p : ptm) : ptm := set_in_wq_head (add_wait_queue_entry (in_wq_head p) wait) p.
Definition leave_in (wait : Z) (p : ptm) : ptm := set_in_wq_head (remove_wait_queue_entry (in_wq_head p) wait) p.
Definition join_slave (wait : Z) (p : ptm) : ptm := set_slave_wq_head (add_wait_queue_entry (slave_wq_head p) wait) p.
Definition leave_slave (wait : Z) (p : ptm) : ptm := set_slave_wq_head (remove_wait_queue_entry (slave_wq_head p) wait) p.

(** the loop of [__ptty_master_read] from its test on *)
Definition master_read_loop (ptm wait : Z) (buffer : list Z) (size : Z) : M tstate (option (Z * list Z)) :=
  empty ← on_ptm ptm (zoom ring_l ring_empty);
  if empty : bool then
    zoom tkernel_l (c ← gets current; transit_state c TASK_STATE_INTERRUPTIBLE) ;; mret None
  else
    r ← on_ptm ptm (zoom ring_l (read_ring buffer size));
    on_ptm ptm (modify (leave_in wait)) ;;
    mret (Some r).

Definition __ptty_master_read (ptm wait : Z) (buffer : list Z) (size : Z) : M tstate (option (Z * list Z)) :=
  c ← gets (λ s, current (tkernel s));
  ASSERT (ctrue c) ;;
  ASSERT (ctrue ptm) ;;
  t ← zoom tkernel_l (load_task c);
  p ← on_ptm ptm (gets id);
  ASSERT (task_id t =? u32 (master_task_id p)) ;;
  zoom tkernel_l (initialize_wait_queue_entry wait c) ;;
  on_ptm ptm (modify (join_in wait)) ;;
  master_read_loop ptm wait buffer size.

Definition master_read_resumed (ptm wait : Z) (buffer : list Z) (size : Z) : M tstate (option (Z * list Z)) :=
  t ← zoom tkernel_l (c ← gets current; load_task c);
  if ctrue (signal_pending t) then
    on_ptm ptm (modify (leave_in wait)) ;; mret (Some (- ERR_INTERRUPTED, buffer))
  else master_read_loop ptm wait buffer size.

(** the same for [__ptty_slave_read] *)
Definition slave_read_loop (ptm wait : Z) (buffer : list Z) (size : Z) : M tstate (option (Z * list Z)) :=
  t ← zoom tkernel_l (c ← gets current; load_task c);
  p ← on_ptm ptm (gets id);
  empty ← on_ptm ptm (zoom slave_ring_l ring_empty);
  if negb (u32 (foreground_task_id p) =? task_id t) || empty then
    zoom tkernel_l (c ← gets current; transit_state c TASK_STATE_INTERRUPTIBLE) ;; mret None
  else
    r ← on_ptm ptm (zoom slave_ring_l (read_ring buffer size));
    on_ptm ptm (modify (leave_slave wait)) ;;
    mret (Some r).

Definition __ptty_slave_read (ptm wait : Z) (buffer : list Z) (size : Z) : M tstate (option (Z * list Z)) :=
  zoom tkernel_l (c ← gets current; initialize_wait_queue_entry wait c) ;;
  on_ptm ptm (modify (join_slave wait)) ;;
  slave_read_loop ptm wait buffer size.

Definition slave_read_resumed (ptm wait : Z) (buffer : list Z) (size : Z) : M tstate (option (Z * list Z)) :=
  t ← zoom tkernel_l (c ← gets current; load_task c);
  if ctrue (signal_pending t) then
    on_ptm ptm (modify (leave_slave wait)) ;; mret (Some (- ERR_INTERRUPTED, buffer))
  else slave_read_loop ptm wait buffer size.

Definition ptty_dev_read (ptm wait offset : Z) (buffer : list Z) (size : Z) : M tstate (option (Z * list Z)) :=
  c ← gets (λ s, current (tkernel s));
  if ! c then mret (Some (- ERR_INVALID_ARG, buffer)) else
  t ← zoom tkernel_l (load_task c);
  p ← on_ptm ptm (gets id);
  if u32 (master_task_id p) =? task_id t then __ptty_master_read ptm wait buffer size
  else __ptty_slave_read ptm wait buffer size.

(** ** Shortcuts *)
Definition switch_to_default_console : M tstate () :=
  zoom tconsole_l expose_default_console ;;
  c ← gets current_ptty;
  when (ctrue c) (on_ptm c (zoom ring_l ring_reset)) ;;
  zoom current_ptty_l (modify (λ _, NULL)) ;;
  disable_cursor.

Definition switch_to_pseudo_terminal (arg : Z) : M tstate () :=
  let ptty_index := u32 arg in
  ASSERT ((0 <=? ptty_index) && (ptty_index <? MAX_TERMINALS)) ;;
  zoom tconsole_l hide_default_console ;;
  zoom current_ptty_l (modify (λ _, ptty_at ptty_index)) ;;
  on_ptm (ptty_at ptty_index) (modify (set_need_scroll 1)) ;;
  enable_cursor 0 0 ;;
  ptty_flush_terminal (ptty_at ptty_index) ;;
  on_ptm (ptty_at ptty_index) (zoom ring_l ring_reset).

Definition interrupt_pseudo_terminal : M tstate () :=
  c ← gets current_ptty;
  when (ctrue c) (
    p ← on_ptm c (gets id);
    when (ctrue (master_task_id p)) (
      task ← zoom tkernel_l (search_task_by_id (u32 (master_task_id p)));
      when (ctrue task) (zoom tkernel_l (signal_task task SIGINT) ;; mret ()))).
End terminals.

(** ** Rows: the display of a terminal behaves as the console of Printk *)

(** two programs without a result that do the same on related states *)
Definition matching {S S'} (R : S → S' → Prop) (r : result (() * S)) (r' : result (() * S')) : Prop :=
  match r, r' with Ok (_, s), Ok (_, s') => R s s' | Err f, Err f' => f = f' | _, _ => False end.
Definition sim {S S'} (R : S → S' → Prop) (m : M S ()) (m' : M S' ()) : Prop := ∀ s s', R s s' → matching R (m s) (m' s').

Section sim.
Context {S S' : Type} (R : S → S' → Prop).
Lemma sim_ret : sim R (mret ()) (mret ()).
Proof. by intros s s' Hs. Qed.
Lemma sim_seq (m k : M S ()) (m' k' : M S' ()) : sim R m m' → sim R k k' → sim R (m ;; k) (m' ;; k').
Proof.
  intros Hm Hk s s' Hs. specialize (Hm s s' Hs). unfold mbind, M_bind.
  destruct (m s) as [[[] t]|f], (m' s') as [[[] t']|f']; try done. by apply Hk.
Qed.
Lemma sim_when b (m : M S ()) (m' : M S' ()) : sim R m m' → sim R (when b m) (when b m').
Proof. intros Hm. destruct b; [done|apply sim_ret]. Qed.
Lemma sim_for_up n i (b : Z → M S ()) (b' : Z → M S' ()) : (∀ i, sim R (b i) (b' i)) → sim R (for_up n i b) (for_up n i b').
Proof. intros Hb. revert i. induction n as [|n IH]; intros i; [apply sim_ret|]. apply sim_seq; [apply Hb|apply IH]. Qed.
Lemma sim_modify f f' : (∀ s s', R s s' → R (f s) (f' s')) → sim R (modify f) (modify f').
Proof. intros Hf s s' Hs. by apply Hf. Qed.
Lemma sim_crem a b (k : Z → M S ()) (k' : Z → M S' ()) : (∀ x, sim R (k x) (k' x)) → sim R (x ← crem a b; k x) (x ← crem a b; k' x).
Proof. intros Hk s s' Hs. unfold crem. destruct (b =? 0); [done|]. by apply Hk. Qed.
End sim.

(** a terminal as a console with video memory [v] *)
Definition view (v : list (list Z)) (p : ptm) : console := mk_console 0 (row_front p) (row_index p) (col_index p) (cells p) v false.
Definition viewed (v : list (list Z)) (p : ptm) (c : console) : Prop := c = view v p.

Lemma put_cell_sim v row idx x : sim (viewed v) (put_cell row idx x) (put_shadow row idx x).
Proof.
  intros p c ->. unfold put_cell, put_shadow. do 2 mstep. cbn [vga_shadow_memory view].
  destruct (set2 (cells p) row idx x) as [m|]; by cbn.
Qed.

(** the display part of [ptty_enqueue_byte] *)
Definition display (value : Z) : M ptm () :=
  p ← gets id;
  when (negb (value =? NEWLINE)) (put_cell (row_index p) (col_index p) value) ;;
  modify (set_col_index (col_index p + 1)) ;;
  when ((col_index p + 1 =? PTTY_COLUMNS) || (value =? NEWLINE)) (
    modify (set_col_index 0) ;;
    row ← crem (row_index p + 1) (PTTY_ROWS + 1);
    modify (set_row_index row) ;;
    next ← crem (row + 1) (PTTY_ROWS + 1);
    when (next =? row_front p) (
      for_up (Z.to_nat PTTY_COLUMNS) 0 (λ idx, put_cell (row_front p) idx 0) ;;
      front ← crem (row_front p + 1) (PTTY_ROWS + 1);
      modify (set_row_front front))).

Lemma enqueue_display value p :
  ptty_enqueue_byte value p = (display value ;; row ← gets row_index;
    modify (λ q, set_need_scroll (Z.lor (need_scroll q) (Z.b2z (negb (row_index p =? row)))) q) ;; mret OK) p.
Proof.
  unfold ptty_enqueue_byte, display, mbind, M_bind, gets, modify. cbn [id].
  repeat (case_match; try done; simplify_eq).
Qed.

Lemma display_sim v value : sim (viewed v) (display value) (vga_enqueue_byte value).
Proof.
  intros p c ->. unfold display, vga_enqueue_byte. do 2 mstep. cbn [id view vga_row_idx vga_col_idx vga_row_front].
  change PTTY_COLUMNS with VGA_MAX_COL. change PTTY_ROWS with VGA_MAX_ROW.
  set (m := _ ;; _ : M ptm ()). set (m' := _ ;; _ : M console ()). assert (sim (viewed v) m m') as Hs; [|by apply Hs].
  repeat first [apply sim_seq | apply sim_when | apply sim_crem; intros ? | apply sim_for_up; intros ? | apply put_cell_sim
    | apply sim_modify; intros ? ? ->; done].
Qed.

(** what is not the display stays *)
Record same_input (p q : ptm) : Prop := {
  si_master : master_task_id q = master_task_id p;
  si_foreground : foreground_task_id q = foreground_task_id p;
  si_wq : in_wq_head q = in_wq_head p;
  si_ring : in_ring q = in_ring p;
  si_slave_wq : slave_wq_head q = slave_wq_head p;
  si_slave_ring : slave_ring q = slave_ring p }.

Lemma same_input_trans p1 p2 p3 : same_input p1 p2 → same_input p2 p3 → same_input p1 p3.
Proof. intros [] []. split; congruence. Qed.

(** the steps of [display]: what they keep, and the row they end in *)
Definition moves (row : Z) (m : M ptm ()) : Prop :=
  ∀ p q, m p = Ok ((), q) → same_input p q ∧ need_scroll q = need_scroll p ∧ (row_index p = row → row_index q = row).

Lemma moves_seq row m k : moves row m → moves row k → moves row (m ;; k).
Proof.
  intros Hm Hk p q Hrun. unfold mbind, M_bind in Hrun. destruct (m p) as [[[] p1]|] eqn:E1; [|done].
  apply Hm in E1 as (I1 & N1 & R1). apply Hk in Hrun as (I2 & N2 & R2). split; [by eapply same_input_trans|]. split; [congruence|]. tauto.
Qed.
Lemma moves_when row b m : moves row m → moves row (when b m).
Proof. intros Hm. destruct b; [done|]. intros p q [= <-]. done. Qed.
Lemma moves_for_up row n i b : (∀ i, moves row (b i)) → moves row (for_up n i b).
Proof.
  intros Hb. revert i. induction n as [|n IH]; intros i; [by intros p q [= <-]|]. apply moves_seq; [apply Hb|apply IH].
Qed.
Lemma moves_put_cell row r j x : moves row (put_cell r j x).
Proof.
  intros p q Hrun. unfold put_cell in Hrun. unfold mbind, M_bind, gets in Hrun. destruct (set2 (cells p) r j x); [|done].
  by injection Hrun as <-.
Qed.
Lemma moves_crem row a b (k : Z → M ptm ()) : (∀ x, moves row (k x)) → moves row (x ← crem a b; k x).
Proof. intros Hk p q Hrun. unfold crem, mbind, M_bind in Hrun. destruct (b =? 0); [discriminate Hrun|]. exact (Hk _ p q Hrun). Qed.
Lemma moves_modify row f : (∀ p, same_input p (f p) ∧ need_scroll (f p) = need_scroll p ∧ row_index (f p) = row_index p) → moves row (modify f).
Proof. intros Hf p q [= <-]. destruct (Hf p) as (? & ? & ->). done. Qed.
Ltac moves := repeat first [apply moves_seq | apply moves_when | apply moves_for_up; intros ? | apply moves_put_cell
  | apply moves_crem; intros ? | apply moves_modify; done].

(** a byte goes to the next row exactly when it ends a line *)
Definition feeds (p : ptm) (value : Z) : bool := (col_index p + 1 =? PTTY_COLUMNS) || (value =? NEWLINE).

Lemma display_moves value p q :
  display value p = Ok ((), q) →
  same_input p q ∧ need_scroll q = need_scroll p ∧ row_index q = if feeds p value then Z.rem (row_index p + 1) 26 else row_index p.
Proof.
  unfold display. mstep. cbn [id]. intros ([] & p1 & E1 & Hrun)%bind_Ok_inv. unfold feeds.
  assert (moves (row_index p) (when (negb (value =? NEWLINE)) (put_cell (row_index p) (col_index p) value))) as H1 by moves.
  apply H1 in E1 as (I1 & N1 & R1). specialize (R1 eq_refl). apply bind_Ok_inv in Hrun as ([] & p2 & [= <-] & Hrun).
  destruct ((col_index p + 1 =? PTTY_COLUMNS) || (value =? NEWLINE)).
  2:{ injection Hrun as <-. split; [by destruct I1|]. done. }
  apply bind_Ok_inv in Hrun as ([] & p3 & [= <-] & Hrun). change (PTTY_ROWS + 1) with 26 in Hrun.
  apply bind_Ok_inv in Hrun as (row & p4 & [= <- <-] & Hrun). apply bind_Ok_inv in Hrun as ([] & p5 & [= <-] & Hrun).
  match type of Hrun with ?k _ = _ => assert (moves (Z.rem (row_index p + 1) 26) k) as H2 by moves end.
  apply H2 in Hrun as (I2 & N2 & R2). split; [eapply same_input_trans; [exact I1|by destruct I2]|]. split; [by rewrite N2, <-N1|]. by apply R2.
Qed.

(** the rows of a terminal *)
Definition ptty_rows (p : ptm) (P : list (list Z)) (cur : list Z) : Prop := ring_rows (view [] p) P cur.

Lemma rows_view v v' p P cur : rows (view v p) P cur → rows (view v' p) P cur.
Proof. intros [? ? ? ? ?]. by split. Qed.

Lemma set_need_scroll_rows x p P cur : ptty_rows p P cur → ptty_rows (set_need_scroll x p) P cur.
Proof. intros [[? ? ? ? ?] ?]. by split. Qed.

(** the flag is clear only while the finished lines stay the same *)
Lemma ptty_enqueue_ok p P cur value :
  ptty_rows p (recent P) cur →
  ∃ q, ptty_enqueue_byte value p = Ok (OK, q) ∧ ptty_rows q (recent (put_line (P, cur) value).1) (put_line (P, cur) value).2 ∧ same_input p q ∧
    (need_scroll q = 0 → need_scroll p = 0 ∧ (put_line (P, cur) value).1 = P).
Proof.
  intros Hrows. destruct (enqueue_ok (view [] p) P cur value Hrows) as (c & Hc & Hrows' & _).
  pose proof (display_sim [] value p _ eq_refl) as Hs. rewrite Hc in Hs. unfold matching in Hs.
  destruct (display value p) as [[[] q]|] eqn:Eq; [|done]. red in Hs. subst c. pose proof (display_moves value p q Eq) as (I & N & Hrow).
  rewrite enqueue_display, (bind_ok _ _ _ _ _ Eq). mstep. mstep. eexists. split; [done|]. split; [by apply set_need_scroll_rows|].
  split; [by destruct I|]. cbn. intros [Hn Hb]%Z.lor_eq_0_iff. split; [by rewrite <-N|].
  destruct Hrows as [[_ Hf Hri _ _] [Hcol _]]. cbn in Hf, Hri, Hcol. assert (0 ≤ row_index p < 26) by (rewrite Hri; apply Z.mod_pos_bound; lia).
  assert (feeds p value = false) as Hfe.
  { destruct (feeds p value); [|done]. rewrite Hrow, Z.rem_mod_nonneg in Hb by lia. exfalso.
    destruct (Z.eqb_spec (row_index p) ((row_index p + 1) `mod` 26)); [lia|done]. }
  unfold feeds in Hfe. apply orb_false_iff in Hfe as [Hc80 Hnl]. unfold put_line. cbn [fst snd]. rewrite Hnl, orb_false_r.
  rewrite length_app. cbn [length]. rewrite Hcol in Hc80. change PTTY_COLUMNS with VGA_MAX_COL in Hc80. by replace (lenZ cur + 1) with (Z.of_nat (length cur + 1)) in Hc80 by lia; rewrite Hc80.
Qed.

Lemma enqueue_bytes_ok buf : ∀ n i p P cur,
  ptty_rows p (recent P) cur → 0 ≤ i → i + Z.of_nat n ≤ lenZ buf →
  let W := foldl put_line (P, cur) (take n (drop (Z.to_nat i) buf)) in
  ∃ q, enqueue_bytes n buf i p = Ok ((), q) ∧ ptty_rows q (recent W.1) W.2 ∧ same_input p q ∧ (need_scroll q = 0 → need_scroll p = 0 ∧ W.1 = P).
Proof.
  induction n as [|n IH]; intros i p P cur Hrows Hi Hlen; cbv zeta.
  { exists p. rewrite take_0. done. }
  cbn [enqueue_bytes]. destruct (lookup_lt_is_Some_2 buf (Z.to_nat i)) as [v Hv]; [lia|].
  rewrite (bind_ok _ _ _ _ _ (deref_ok _ _ _ (array_get_ok _ _ _ Hv Hi))).
  destruct (ptty_enqueue_ok p P cur v Hrows) as (q1 & Hr1 & Hrows1 & I1 & N1). rewrite (bind_ok _ _ _ _ _ Hr1).
  rewrite (drop_S _ _ _ Hv). cbn [take foldl]. replace (S (Z.to_nat i)) with (Z.to_nat (i + 1)) by lia.
  destruct (put_line (P, cur) v) as [P1 cur1]. cbn [fst snd] in *.
  destruct (IH (i + 1) q1 P1 cur1 Hrows1) as (q & Hr & Hrows2 & I2 & N2); [lia|lia|]. exists q. split; [done|]. split; [done|].
  split; [by eapply same_input_trans|]. intros Hq. destruct (N2 Hq) as [Hq1 EW]. destruct (N1 Hq1) as [Hp EP]. split; [done|congruence].
Qed.

(** ** The screen *)
#[local] Ltac Zify.zify_post_hook ::= Z.to_euclidean_division_equations.

Lemma copy_row_ok p c idx r :
  dims 25 80 (vga_memory c) → dims 26 80 (cells p) → 0 ≤ idx < 26 → 0 ≤ r < 25 →
  ∃ v, copy_row p idx r c = Ok ((), set_vga v c) ∧ dims 25 80 v ∧
    ∀ i j, 0 ≤ j < 80 → get2 v i j =
      if decide (i = r) then (λ x, mix x (default 0 (get2 (cells p) idx j))) <$> get2 (vga_memory c) i j else get2 (vga_memory c) i j.
Proof.
  intros Hd Hds Hi Hr. unfold copy_row. change PTTY_COLUMNS with VGA_MAX_COL.
  apply (screen_row_ok c r _ (λ j x, mix x (default 0 (get2 (cells p) idx j))) Hd Hr). intros v j x Hdv Hj Hx.
  destruct (get2_some 26 80 _ idx j Hds Hi Hj) as [y Hy]. destruct (set2_ok 25 80 v r j (mix x y)) as (v' & Hset & _); [done..|].
  exists v'. split; [|by rewrite Hy]. mstep. cbn [id]. rewrite (bind_ok _ _ _ _ _ (deref_ok _ _ _ Hx)).
  rewrite (bind_ok _ _ _ _ _ (deref_ok _ _ _ Hy)). by rewrite (bind_ok _ _ _ _ _ (deref_ok _ _ _ Hset)).
Qed.

Lemma copy_rows_ok fuel p c P cur k :
  rows (view [] p) P cur → dims 25 80 (vga_memory c) → 0 ≤ k ≤ lenZ P + 1 → lenZ P + 1 - k < Z.of_nat fuel →
  ∃ v, copy_rows fuel p ((row_front p + k) `mod` 26) k c = Ok (lenZ P + 1, set_vga v c) ∧ dims 25 80 v ∧
    ∀ i j, 0 ≤ j < 80 → get2 v i j =
      if decide (k ≤ i ≤ lenZ P) then (λ x, mix x (cell (P ++ [cur]) i j)) <$> get2 (vga_memory c) i j else get2 (vga_memory c) i j.
Proof.
  revert c k. induction fuel as [|fuel IH]; intros c k Hrows Hd Hk Hfuel; [lia|]. pose proof Hrows as [Hds Hf Hrow Hh Hcells].
  cbn in Hds, Hf, Hrow, Hcells. cbn [copy_rows]. change (PTTY_ROWS + 1) with 26.
  rewrite (bind_ok _ _ _ ((row_index p + 1) `mod` 26) c) by (apply crem_ok; lia).
  destruct (Z.eqb_spec ((row_front p + k) `mod` 26) ((row_index p + 1) `mod` 26)) as [E|E]; cbn [negb].
  - assert (k = lenZ P + 1) as -> by lia. exists (vga_memory c). split; [by destruct c|]. split; [done|]. intros.
    by rewrite decide_False by lia.
  - assert (k ≤ lenZ P) as Hk2 by (destruct (decide (k = lenZ P + 1)) as [->|]; lia).
    destruct (copy_row_ok p c ((row_front p + k) `mod` 26) k) as (v & Hr & Hdv & Hv); [done|done|lia|lia|].
    rewrite (bind_ok _ _ _ _ _ Hr). rewrite (bind_ok _ _ _ ((row_front p + (k + 1)) `mod` 26) (set_vga v c)).
    2:{ rewrite crem_ok by lia. do 2 f_equal. lia. }
    destruct (IH (set_vga v c) (k + 1)) as (v' & Hr' & Hd' & Hv'); [done|done|lia|lia|].
    exists v'. split; [exact Hr'|]. split; [done|]. intros i j Hj. rewrite Hv' by done. cbn. rewrite Hv by done.
    rewrite (Hcells k j) by lia. repeat case_decide; try done; try lia. by subst.
Qed.

(** bytes of text *)
Definition byte (x : Z) : Prop := 0 ≤ x < 256.

Lemma mix_mix x a b : byte a → mix (mix x a) b = mix x b.
Proof.
  intros Ha. unfold mix. f_equal. rewrite Z.land_lor_distr_l, <-Z.land_assoc. change (Z.land 0xff00 0xff00) with 0xff00.
  replace (Z.land a 0xff00) with 0; [by rewrite Z.lor_0_r|]. symmetry. apply Z.bits_inj_iff'. intros n Hn. rewrite Z.land_spec, Z.bits_0.
  destruct (decide (n < 8)) as [H8|H8].
  - apply andb_false_iff. right. assert (n ∈ seqZ 0 8) as Hin by (apply elem_of_seqZ; lia). cbn in Hin.
    repeat (apply elem_of_cons in Hin as [->|Hin]; [done|]). by apply elem_of_nil in Hin.
  - apply andb_false_iff. left. destruct (decide (a = 0)) as [->|]; [apply Z.bits_0|]. apply Z.bits_above_log2; [unfold byte in Ha; lia|].
    apply Z.log2_lt_pow2; [unfold byte in Ha; lia|]. assert (2 ^ 8 ≤ 2 ^ n) by (apply Z.pow_le_mono_r; lia). change (2 ^ 8) with 256 in *. unfold byte in Ha. lia.
Qed.

(** the screen shows the lines [W] in the colours of [v0], and is blank below *)
Definition on_screen (v0 v : list (list Z)) (W : list (list Z)) : Prop :=
  ∀ k j, 0 ≤ k < 25 → 0 ≤ j < 80 → ∃ x, get2 v0 k j = Some x ∧ get2 v k j = Some (mix x (cell W k j)).

Definition text (W : list (list Z)) : Prop := Forall (Forall byte) W.

Lemma cell_byte W k j : text W → byte (cell W k j).
Proof.
  intros HW. unfold cell. destruct (nth_in_or_default (Z.to_nat j) (nth (Z.to_nat k) W []) 0) as [Hin|E0]; [|rewrite E0; unfold byte; lia].
  destruct (nth_in_or_default (Z.to_nat k) W []) as [Hin2|E]; [|by rewrite E in Hin].
  unfold text in HW. rewrite Forall_forall in HW. apply list_elem_of_In in Hin, Hin2. specialize (HW _ Hin2). rewrite Forall_forall in HW. by apply HW.
Qed.

Lemma put_line_text W t : text W.1 → Forall byte W.2 → byte t → text (put_line W t).1 ∧ Forall byte (put_line W t).2.
Proof.
  intros H1 H2 Ht. unfold put_line. assert (Forall byte (if t =? NEWLINE then W.2 else W.2 ++ [t])) as H3.
  { destruct (t =? NEWLINE); [done|]. apply Forall_app. by split; [|constructor]. }
  destruct ((_ =? VGA_MAX_COL) || _); cbn; [|done]. split; [|done]. apply Forall_app. by split; [|constructor].
Qed.

Lemma lines_text log : Forall byte log → text (lines log).1 ∧ Forall byte (lines log).2.
Proof.
  unfold lines. intros Hl. assert (text ([] : list (list Z), [] : list Z).1 ∧ Forall byte ([] : list (list Z), [] : list Z).2) as H0 by (split; apply Forall_nil_2).
  revert H0. generalize ([] : list (list Z), [] : list Z). induction Hl as [|t log Ht _ IH]; intros W HW; [done|].
  cbn [foldl]. apply IH. destruct HW. by apply put_line_text.
Qed.

Lemma window_text log : Forall byte log → text (window log).
Proof. intros [H1 H2]%lines_text. apply Forall_app. split; [by apply Forall_drop|by constructor]. Qed.

Lemma on_screen_refresh v0 v v' W W' (D : Z → Prop) `{!∀ i, Decision (D i)} :
  on_screen v0 v W → text W →
  (∀ i j, 0 ≤ i < 25 → 0 ≤ j < 80 → get2 v' i j = if decide (D i) then (λ x, mix x (cell W' i j)) <$> get2 v i j else get2 v i j) →
  (∀ i j, 0 ≤ i → ¬ D i → cell W' i j = cell W i j) → on_screen v0 v' W'.
Proof.
  intros Hon HW Hv Hrest k j Hk Hj. destruct (Hon k j Hk Hj) as (x & Hx & Hvx). exists x. split; [done|]. rewrite Hv, Hvx by done.
  destruct (decide (D k)) as [Hd|Hd]; cbn; f_equal; [apply mix_mix; by apply cell_byte|]. by rewrite Hrest by (done || lia).
Qed.

(** more output never makes the window smaller *)
Lemma put_line_grows W t : (length W.1 ≤ length (put_line W t).1)%nat.
Proof. unfold put_line. destruct ((_ =? VGA_MAX_COL) || _); cbn; [rewrite length_app; cbn; lia|lia]. Qed.

Lemma lines_grow log out : (length (lines log).1 ≤ length (lines (log ++ out)).1)%nat.
Proof.
  unfold lines. rewrite foldl_app. generalize (foldl put_line ([], []) log). induction out as [|t out IH]; intros W; cbn [foldl]; [lia|].
  etrans; [apply put_line_grows|apply IH].
Qed.

Lemma window_length log : lenZ (window log) = Z.min 24 (lenZ (lines log).1) + 1.
Proof. unfold window, recent. rewrite length_app, length_drop. cbn [length]. lia. Qed.

Lemma window_grows log out k j : lenZ (window (log ++ out)) ≤ k → cell (window (log ++ out)) k j = cell (window log) k j.
Proof. intros Hk. rewrite !cell_beyond; [done| |done]. pose proof (lines_grow log out). rewrite window_length in *. lia. Qed.

Lemma lines_app log out : foldl put_line ((lines log).1, (lines log).2) out = lines (log ++ out).
Proof. unfold lines. rewrite foldl_app. by destruct (foldl put_line ([], []) log). Qed.

(** ** Flushing *)
Definition cursor_bytes (x y : Z) : list (Z * Z) :=
  let pos := u16 (y * PTTY_COLUMNS + x) in
  [(CONSOLE_CURSOR_PORT0, 0x0f); (CONSOLE_CURSOR_PORT1, Z.land pos 0xff); (CONSOLE_CURSOR_PORT0, 0x0e); (CONSOLE_CURSOR_PORT1, Z.land (Z.shiftr pos 8) 0xff)].

Definition flushed (s : tstate) (a : Z) (p : ptm) (v : list (list Z)) (y : Z) : tstate :=
  mk_tstate (<[a := set_need_scroll 0 p]> (ptms s)) (current_ptty s) (set_vga v (tconsole s)) (ports s ++ cursor_bytes (col_index p) y) (tkernel s).

Lemma on_ptm_run {B} a (m : M ptm B) s p b p' :
  ptms s !! a = Some p → m p = Ok (b, p') → on_ptm a m s = Ok (b, lset ptms_l (<[a := p']> (ptms s)) s).
Proof. unfold on_ptm. by intros -> ->. Qed.

Lemma on_ptm_get a s p : ptms s !! a = Some p → on_ptm a (gets id) s = Ok (p, s).
Proof. intros Hp. rewrite (on_ptm_run _ _ _ _ _ _ Hp eq_refl). rewrite insert_id by done. by destruct s. Qed.

Lemma update_cusor_run x y s : update_cusor x y s = Ok ((), lset ports_l (ports s ++ cursor_bytes x y) s).
Proof. unfold update_cusor, outb, mbind, M_bind, zoom, modify, lset, ports_l, cursor_bytes. cbn -[Z.land Z.shiftr u16]. by rewrite <-!app_assoc. Qed.

(** the rows a flush refreshes: all up to the last line [n], or only that one *)
Definition refreshed (n : Z) (all : bool) (i : Z) : Prop := if all then i ≤ n else i = n.
#[local] Instance refreshed_dec n all i : Decision (refreshed n all i).
Proof. unfold refreshed. destruct all; apply _. Defined.

Lemma flush_terminal_ok a p s P cur :
  ptms s !! a = Some p → ptty_rows p P cur → dims 25 80 (vga_memory (tconsole s)) →
  ∃ v, ptty_flush_terminal a s = Ok (OK, flushed s a p v (lenZ P + 1)) ∧ dims 25 80 v ∧
    ∀ i j, 0 ≤ i < 25 → 0 ≤ j < 80 → get2 v i j = if decide (refreshed (lenZ P) (ctrue (need_scroll p)) i)
      then (λ x, mix x (cell (P ++ [cur]) i j)) <$> get2 (vga_memory (tconsole s)) i j else get2 (vga_memory (tconsole s)) i j.
Proof.
  intros Hp [Hrows Hcol] Hd. unfold ptty_flush_terminal. rewrite (bind_ok _ _ _ _ _ (on_ptm_get a s p Hp)).
  pose proof Hrows as [Hds Hf Hri Hh Hcells]. cbn in Hds, Hf, Hri, Hcells. change (PTTY_ROWS + 1) with 26. change PTTY_ROWS with 25.
  destruct (ctrue (need_scroll p)) eqn:En; cbn [negb].
  - destruct (copy_rows_ok (Z.to_nat (25 + 2)) p (tconsole s) P cur 0 Hrows Hd) as (v & Hr & Hdv & Hv); [lia|lia|].
    rewrite Z.add_0_r, (Z.mod_small (row_front p)) in Hr by lia. exists v. rewrite bind_assoc_run, (bind_ok _ _ _ _ _ (zoom_ok tconsole_l _ s _ _ Hr)).
    rewrite (bind_ok _ _ _ _ _ (update_cusor_run _ _ _)). erewrite bind_ok by (eapply on_ptm_run; [exact Hp|reflexivity]).
    split; [done|]. split; [done|]. intros i j Hi Hj. rewrite Hv by done. unfold refreshed in *. repeat case_decide; try done; lia.
  - replace (row_index p + 25 + 1 - row_front p) with (row_index p + 26 - row_front p) by lia.
    rewrite bind_assoc_run, (bind_ok _ _ _ (lenZ P) s). 2:{ rewrite crem_ok by lia. do 2 f_equal. lia. }
    rewrite (proj2 (Z.ltb_lt (lenZ P) 25)) by lia. rewrite bind_assoc_run. mstep.
    destruct (copy_row_ok p (tconsole s) (row_index p) (lenZ P) Hd Hds) as (v & Hr & Hdv & Hv); [lia|lia|]. exists v.
    rewrite bind_assoc_run, (bind_ok _ _ _ _ _ (zoom_ok tconsole_l _ s _ _ Hr)).
    rewrite (bind_ok _ _ _ _ _ (update_cusor_run _ _ _)). erewrite bind_ok by (eapply on_ptm_run; [exact Hp|reflexivity]).
    split; [done|]. split; [done|]. intros i j Hi Hj. rewrite Hv by done. repeat case_decide; unfold refreshed in *; try done. subst i.
    by rewrite Hri, Hcells by lia.
Qed.

(** a terminal has printed [log] *)
Definition ptty_ok (p : ptm) (log : list Z) : Prop := ptty_rows p (recent (lines log).1) (lines log).2 ∧ Forall byte log.

Lemma mix_0 x : mix x 0 = Z.land x 0xff00.
Proof. apply Z.lor_0_r. Qed.

(** the screen after [reset_video_buffer] *)
Lemma reset_blank v0 c W :
  dims 25 80 (vga_memory c) → on_screen v0 (vga_memory c) W → text W →
  ∃ v, reset_video_buffer c = Ok ((), set_vga v c) ∧ dims 25 80 v ∧ on_screen v0 v [].
Proof.
  intros Hd Hon HW. destruct (reset_ok c Hd) as (v & Hr & Hdv & Hv). exists v. split; [done|]. split; [done|].
  intros k j Hk Hj. destruct (Hon k j Hk Hj) as (x & Hx & Hc). exists x. split; [done|]. rewrite Hv, Hc by done.
  rewrite (cell_beyond [] k j) by (cbn; lia). change (Some (Z.land (mix x (cell W k j)) 0xff00) = Some (mix x 0)). f_equal.
  rewrite <-mix_0. apply mix_mix. by apply cell_byte.
Qed.

Lemma window_nil : window [] = [[]].
Proof. done. Qed.

Lemma zero_rows p : row_front p = 0 → row_index p = 0 → col_index p = 0 → cells p = zero_cells → ptty_ok p [].
Proof.
  intros Hf Hr Hc Hz. split; [|done]. split; [|by cbn; rewrite Hc]. split; cbn; rewrite ?Hf, ?Hr, ?Hz; try done.
  - split; [done|]. apply Forall_replicate. done.
  - intros k j Hk Hj. assert (get2 zero_cells ((0 + k) `mod` 26) j = Some 0) as ->.
    { rewrite Z.add_0_l, Z.mod_small by lia. unfold get2. rewrite (proj2 (Z.ltb_ge _ _)) by lia. unfold zero_cells.
      rewrite lookup_replicate_2, obind by (unfold PTTY_ROWS; lia). apply array_get_ok; [|lia]. apply lookup_replicate_2. unfold PTTY_COLUMNS. lia. }
    f_equal. unfold cell. destruct (Z.to_nat k) as [|[|?]]; by destruct (Z.to_nat j).
Qed.

Lemma set_vga_console v c log : console_ok c log → dims 25 80 v → console_ok (set_vga v c) log.
Proof. intros [[[? ? ? ? ?] ?] _] Hd. by split; [split|]. Qed.

Lemma set_hidden_console h c log : console_ok c log → console_ok (set_hidden h c) log.
Proof. intros [[[? ? ? ? ?] ?] ?]. by split; [split|]. Qed.

(** ** Sessions *)
Section session.
Variable inb : Z → list (Z * Z) → Z.
Variable ptties : Z.
Variable memory : Z → list Z.

(** the texts of the terminals, the messages of the kernel, and the terminal
    that is shown, NULL for the console *)
Record ascreen := mk_ascreen { alogs : gmap Z (list Z); amessages : list Z; ashown : Z }.

Inductive top := TWrite (ptm : Z) (buf : list Z) | TClear (ptm : Z) | TSwitch (idx : Z) | TConsole | TPrint (format : list Z) (args : list arg).

Definition exec_top (o : top) : M tstate () :=
  match o with
  | TWrite ptm buf => ptty_dev_write ptm 0 buf (lenZ buf) ;; mret ()
  | TClear ptm => ptty_dev_ioctl memory ptm PTTY_IOCTL_CLEAR 0 0 ;; mret ()
  | TSwitch idx => switch_to_pseudo_terminal inb ptties idx
  | TConsole => switch_to_default_console
  | TPrint format args => zoom tconsole_l (printk format args)
  end.
Fixpoint exec_tops (os : list top) : M tstate () :=
  match os with [] => mret () | o :: os => exec_top o ;; exec_tops os end.

(** what the operations mean *)
Inductive abs_top : ascreen → top → ascreen → Prop :=
| abs_write A ptm buf log : alogs A !! ptm = Some log → abs_top A (TWrite ptm buf) (mk_ascreen (<[ptm := log ++ buf]> (alogs A)) (amessages A) (ashown A))
| abs_clear A ptm : abs_top A (TClear ptm) (mk_ascreen (<[ptm := []]> (alogs A)) (amessages A) (ashown A))
| abs_switch A idx : abs_top A (TSwitch idx) (mk_ascreen (alogs A) (amessages A) (ptty_at ptties idx))
| abs_console A : abs_top A TConsole (mk_ascreen (alogs A) (amessages A) NULL)
| abs_print A b f args out : holds b f → renders f args out → abs_top A (TPrint b args) (mk_ascreen (alogs A) (amessages A ++ out) (ashown A)).
Inductive abs_tops : ascreen → list top → ascreen → Prop :=
| abs_nil A : abs_tops A [] A
| abs_cons A A' A'' o os : abs_top A o A' → abs_tops A' os A'' → abs_tops A (o :: os) A''.

(** inside the contract: the terminals exist, the text consists of bytes *)
Definition top_ok (T : gset Z) (o : top) : Prop :=
  match o with
  | TWrite ptm buf => ptm ∈ T ∧ Forall byte buf
  | TClear ptm => ptm ∈ T
  | TSwitch idx => 0 ≤ idx < MAX_TERMINALS ∧ ptty_at ptties idx ∈ T
  | TConsole => True
  | TPrint b args => ∃ f, holds b f ∧ typed f args ∧ ∀ g out, holds b g → renders g args out → Forall byte out
  end.

Definition shown_lines (A : ascreen) : list (list Z) :=
  window (if ctrue (ashown A) then default [] (alogs A !! ashown A) else amessages A).

(** the terminals and the console hold their texts, and the screen shows the end
    of one of them, in the colours of [v0] *)
Record screen_ok (T : gset Z) (v0 : list (list Z)) (s : tstate) (A : ascreen) : Prop := {
  so_terminals : ∀ a, a ∈ T → ∃ p log, ptms s !! a = Some p ∧ alogs A !! a = Some log ∧ ptty_ok p log;
  so_null : NULL ∉ T;
  so_console : console_ok (tconsole s) (amessages A) ∧ Forall byte (amessages A);
  so_hidden : default_console_hidden (tconsole s) = ctrue (ashown A);
  so_current : current_ptty s = ashown A;
  so_shown : ctrue (ashown A) = true → ashown A ∈ T;
  so_flushed : ∀ p, ctrue (ashown A) = true → ptms s !! ashown A = Some p → need_scroll p = 0;
  so_screen : on_screen v0 (vga_memory (tconsole s)) (shown_lines A) }.

Lemma shown_text T v0 s A : screen_ok T v0 s A → text (shown_lines A).
Proof.
  intros Hs. unfold shown_lines. apply window_text. destruct (ctrue (ashown A)) eqn:E; [|apply (so_console _ _ _ _ Hs)].
  destruct (so_terminals _ _ _ _ Hs _ (so_shown _ _ _ _ Hs E)) as (p & log & _ & -> & _ & Hb). done.
Qed.

Lemma write_ok T v0 s A ptm buf :
  screen_ok T v0 s A → top_ok T (TWrite ptm buf) →
  ∃ s' A', exec_top (TWrite ptm buf) s = Ok ((), s') ∧ abs_top A (TWrite ptm buf) A' ∧ screen_ok T v0 s' A'.
Proof.
  intros Hs [HT Hb]. pose proof Hs as [Hterm Hnull [Hcon Hmb] Hhid Hcur Hshown Hfl Hscr].
  destruct (Hterm ptm HT) as (p & log & Hp & Hlog & Hrows & Hlb). cbn [exec_top]. unfold ptty_dev_write.
  assert (ctrue ptm = true) as Hnz by (apply ctrue_true; intros ->; done). rewrite bind_assoc_run, Hnz. mstep.
  destruct (enqueue_bytes_ok buf (Z.to_nat (lenZ buf)) 0 p _ _ Hrows) as (q & Hr & Hrows' & I & N); [lia|lia|]. cbv zeta in Hrows', N.
  rewrite drop_0, take_ge, lines_app in Hrows', N by lia.
  rewrite bind_assoc_run. erewrite bind_ok by (eapply on_ptm_run; [exact Hp|exact Hr]). set (s1 := lset _ _ s).
  set (A' := mk_ascreen (<[ptm := log ++ buf]> (alogs A)) (amessages A) (ashown A)).
  assert (ptty_ok q (log ++ buf)) as Hq by (split; [exact Hrows'|by apply Forall_app]).
  assert (ptms s1 !! ptm = Some q) as Hp1 by apply lookup_insert_eq.
  assert (∀ q', ptty_ok q' (log ++ buf) → ∀ a, a ∈ T → ∃ p log, <[ptm := q']> (ptms s) !! a = Some p ∧ alogs A' !! a = Some log ∧ ptty_ok p log) as Hall.
  { intros q' Hq' a Ha. cbn. destruct (decide (a = ptm)) as [->|Hne]; [rewrite !lookup_insert_eq; by eauto|].
    rewrite !lookup_insert_ne by done. by apply Hterm. }
  rewrite bind_assoc_run. mstep. change (current_ptty s1) with (current_ptty s). rewrite Hcur. rewrite bind_assoc_run.
  destruct (Z.eqb_spec ptm (ashown A)) as [E|E]; unfold when.
  - destruct (flush_terminal_ok ptm q s1 _ _ Hp1 Hrows') as (v & Hrf & Hdv & Hv); [apply Hcon|]. rewrite bind_assoc_run, (bind_ok _ _ _ _ _ Hrf). mstep. mstep.
    eexists _, A'. split; [done|]. split; [by apply abs_write|]. split; cbn; try done.
    + rewrite insert_insert_eq. apply Hall. destruct Hq. split; [by apply set_need_scroll_rows|done].
    + destruct Hcon as [Hring _]. split; [|done]. split; [|done]. destruct Hring as [[? ? ? ? ?] ?]. by split.
    + rewrite E. intros x _. rewrite <-E, lookup_insert_eq. by intros [= <-].
    + unfold shown_lines in *. cbn. rewrite <-E in *. rewrite Hnz in Hscr |- *. rewrite lookup_insert_eq. rewrite Hlog in Hscr. cbn in Hscr |- *.
      eapply (on_screen_refresh v0 _ v (window log)); [exact Hscr|by apply window_text|exact Hv|].
      intros i j Hi Hn. cbv beta in Hn. destruct (ctrue (need_scroll q)) eqn:En; unfold refreshed in Hn.
      * apply window_grows. unfold window. rewrite length_app. cbn [length]. lia.
      * apply ctrue_false in En. destruct (N En) as [_ EP]. unfold window. rewrite EP. unfold cell.
        destruct (decide (i < lenZ (recent (lines log).1))); [by rewrite !app_nth1 by lia|]. rewrite !(app_nth2 (recent _)) by lia.
        rewrite EP in Hn. destruct (Z.to_nat i - length (recent (lines log).1))%nat as [|[|?]] eqn:Ei; [lia|done|done].
  - mstep. mstep. eexists _, A'. split; [done|]. split; [by apply abs_write|]. split; cbn; try done.
    + by apply Hall.
    + intros x Hsh. rewrite lookup_insert_ne by done. by apply Hfl.
    + unfold shown_lines in *. cbn. destruct (ctrue (ashown A)); [|done]. by rewrite lookup_insert_ne by done.
Qed.

Lemma clear_ok T v0 s A ptm :
  screen_ok T v0 s A → top_ok T (TClear ptm) →
  ∃ s' A', exec_top (TClear ptm) s = Ok ((), s') ∧ abs_top A (TClear ptm) A' ∧ screen_ok T v0 s' A'.
Proof.
  intros Hs HT. pose proof Hs as [Hterm Hnull [Hcon Hmb] Hhid Hcur Hshown Hfl Hscr]. cbn in HT.
  destruct (Hterm ptm HT) as (p & log & Hp & Hlog & Hrows & Hlb). cbn [exec_top]. unfold ptty_dev_ioctl.
  change (PTTY_IOCTL_CLEAR =? PTTY_IOCTL_CLEAR) with true. cbv iota. unfold ptty_clear.
  set (q := set_cells zero_cells (set_col_index 0 (set_row_index 0 (set_row_front 0 (set_need_scroll 0 p))))).
  rewrite !bind_assoc_run. erewrite bind_ok by (eapply (on_ptm_run ptm _ s p () q); [exact Hp|reflexivity]). set (s1 := lset _ _ s).
  rewrite !bind_assoc_run. mstep. change (current_ptty s1) with (current_ptty s). rewrite Hcur.
  assert (ptty_ok q []) as Hq by (by apply zero_rows).
  set (A' := mk_ascreen (<[ptm := []]> (alogs A)) (amessages A) (ashown A)).
  assert (∀ a, a ∈ T → ∃ p log, <[ptm := q]> (ptms s) !! a = Some p ∧ alogs A' !! a = Some log ∧ ptty_ok p log) as Hall.
  { intros a Ha. cbn. destruct (decide (a = ptm)) as [->|Hne]; [rewrite !lookup_insert_eq; by eauto|].
    rewrite !lookup_insert_ne by done. by apply Hterm. }
  destruct (Z.eqb_spec (ashown A) ptm) as [E|E]; unfold when.
  - destruct (reset_blank v0 (tconsole s) _ (proj2 Hcon) Hscr (shown_text _ _ _ _ Hs)) as (v & Hr & Hdv & Hon).
    rewrite (bind_ok _ _ _ _ _ (zoom_ok tconsole_l _ s1 _ _ Hr)). mstep.
    eexists _, A'. split; [done|]. split; [by apply abs_clear|]. split; cbn; try done.
    + split; [by apply set_vga_console|done].
    + intros x _. rewrite E, lookup_insert_eq. by intros [= <-].
    + unfold shown_lines. cbn. rewrite E, lookup_insert_eq, (proj2 (ctrue_true ptm)) by (intros ->; done). cbn.
      intros k j Hk Hj. destruct (Hon k j Hk Hj) as (x & Hx & Hc). exists x. split; [done|]. rewrite Hc. f_equal. f_equal.
      rewrite (cell_beyond []) by (cbn; lia). unfold cell. destruct (Z.to_nat k) as [|[|?]]; by destruct (Z.to_nat j).
  - mstep. mstep. eexists _, A'. split; [done|]. split; [by apply abs_clear|]. split; cbn; try done.
    + intros x Hsh. rewrite lookup_insert_ne by done. by apply Hfl.
    + unfold shown_lines in *. cbn. destruct (ctrue (ashown A)); [|done]. by rewrite lookup_insert_ne by done.
Qed.

Lemma enable_cursor_run a b s : ∃ l, enable_cursor inb a b s = Ok ((), lset ports_l l s).
Proof. eexists. unfold enable_cursor, outb, mbind, M_bind, zoom, modify, gets. cbn. done. Qed.

Lemma switch_ok T v0 s A idx :
  screen_ok T v0 s A → top_ok T (TSwitch idx) →
  ∃ s' A', exec_top (TSwitch idx) s = Ok ((), s') ∧ abs_top A (TSwitch idx) A' ∧ screen_ok T v0 s' A'.
Proof.
  intros Hs [Hidx HT]. pose proof Hs as [Hterm Hnull [Hcon Hmb] Hhid Hcur Hshown Hfl Hscr]. cbn in HT. set (a := ptty_at ptties idx) in *.
  destruct (Hterm a HT) as (p & log & Hp & Hlog & Hrows & Hlb). cbn [exec_top]. unfold switch_to_pseudo_terminal.
  change MAX_TERMINALS with 6 in *. rewrite (u32_small idx) by lia. rewrite (proj2 (Z.leb_le 0 idx)), (proj2 (Z.ltb_lt idx 6)) by lia. mstep. fold a.
  destruct (reset_blank v0 (set_hidden true (tconsole s)) _ (proj2 Hcon) Hscr (shown_text _ _ _ _ Hs)) as (v & Hr & Hdv & Hon).
  erewrite bind_ok. 2:{ apply zoom_ok. unfold hide_default_console. mstep. exact Hr. }
  set (c1 := set_vga v _) in *. set (s1 := lset tconsole_l c1 s).
  erewrite bind_ok by (apply zoom_ok; reflexivity). set (s2 := lset current_ptty_l a s1).
  erewrite bind_ok by (eapply (on_ptm_run a _ s2); [exact Hp|reflexivity]). set (p3 := set_need_scroll 1 p). set (s3 := lset ptms_l _ s2).
  destruct (enable_cursor_run 0 0 s3) as [l Hl]. rewrite (bind_ok _ _ _ _ _ Hl). set (s4 := lset ports_l l s3).
  assert (ptms s4 !! a = Some p3) as Hp4 by apply lookup_insert_eq.
  destruct (flush_terminal_ok a p3 s4 (recent (lines log).1) (lines log).2 Hp4) as (w & Hrf & Hdw & Hw); [by apply set_need_scroll_rows|exact Hdv|].
  rewrite (bind_ok _ _ _ _ _ Hrf). change (ctrue (need_scroll p3)) with true in Hw.
  set (s5 := flushed s4 a p3 w _). assert (ptms s5 !! a = Some (set_need_scroll 0 p3)) as Hp5 by apply lookup_insert_eq.
  set (q := set_in_ring (Ring.set_rear 0 (Ring.set_front 0 (in_ring p))) (set_need_scroll 0 p3)).
  rewrite (on_ptm_run a (zoom ring_l ring_reset) s5 _ () q Hp5 eq_refl).
  eexists _, (mk_ascreen (alogs A) (amessages A) a). split; [done|]. split; [apply abs_switch|].
  assert (ctrue a = true) as Ha by (apply ctrue_true; intros E; rewrite E in HT; done).
  split; cbn; try done.
  - intros b Hb. destruct (decide (b = a)) as [->|Hne].
    + exists q, log. rewrite lookup_insert_eq. split; [done|]. split; [done|]. split; [|done]. destruct Hrows as [[? ? ? ? ?] ?]. by split.
    + rewrite !lookup_insert_ne by done. by apply Hterm.
  - split; [|done]. apply set_vga_console; [|done]. apply set_vga_console; [|done]. by apply set_hidden_console.
  - intros x _. rewrite lookup_insert_eq. by intros [= <-].
  - unfold shown_lines. cbn. rewrite Ha, Hlog. cbn. eapply (on_screen_refresh v0 v w [] _ (λ i, i ≤ lenZ (recent (lines log).1))); [exact Hon|constructor| |].
    + intros i j Hi Hj. rewrite Hw by done. unfold refreshed. done.
    + intros i j Hi Hn. rewrite (cell_beyond []) by (cbn; lia). rewrite cell_beyond; [done|]. unfold window. rewrite length_app. cbn [length]. lia.
Qed.

Lemma console_shown_ok T v0 s A :
  screen_ok T v0 s A → ∃ s' A', exec_top TConsole s = Ok ((), s') ∧ abs_top A TConsole A' ∧ screen_ok T v0 s' A'.
Proof.
  intros Hs. pose proof Hs as [Hterm Hnull [Hcon Hmb] Hhid Hcur Hshown Hfl Hscr]. cbn [exec_top]. unfold switch_to_default_console.
  destruct (expose_ok (tconsole s) (amessages A) Hcon) as (c & Hr & Hcon' & Hh & Hc). rewrite (bind_ok _ _ _ _ _ (zoom_ok tconsole_l _ s _ _ Hr)).
  set (s1 := lset tconsole_l c s). mstep. change (current_ptty s1) with (current_ptty s). rewrite Hcur.
  set (A' := mk_ascreen (alogs A) (amessages A) NULL).
  assert (on_screen v0 (vga_memory c) (window (amessages A))) as Hon.
  { intros k j Hk Hj. destruct (Hscr k j Hk Hj) as (x & Hx & Hv). destruct (Hc k j Hk Hj) as (y & Hy & Hv'). rewrite Hv in Hy. injection Hy as <-.
    exists x. split; [done|]. rewrite Hv', mix_mix; [done|]. apply cell_byte. by eapply shown_text. }
  assert (∃ s2, when (ctrue (ashown A)) (on_ptm (ashown A) (zoom ring_l ring_reset)) s1 = Ok ((), s2) ∧ tconsole s2 = c ∧
    (∀ a, a ∈ T → ∃ p log, ptms s2 !! a = Some p ∧ alogs A !! a = Some log ∧ ptty_ok p log)) as (s2 & Hr2 & Hc2 & Hterm2).
  { destruct (ctrue (ashown A)) eqn:E; [|by exists s1]. destruct (Hterm _ (Hshown eq_refl)) as (p & log & Hp & Hlog & Hrows & Hb).
    set (q := set_in_ring (Ring.set_rear 0 (Ring.set_front 0 (in_ring p))) p). unfold when.
    rewrite (on_ptm_run (ashown A) (zoom ring_l ring_reset) s1 p () q Hp eq_refl). eexists. split; [done|]. split; [done|]. intros a Ha. cbn.
    destruct (decide (a = ashown A)) as [->|Hne]; [rewrite lookup_insert_eq; exists q, log; split_and!; [done..|]|rewrite lookup_insert_ne by done; by apply Hterm].
    split; [|done]. destruct Hrows as [[? ? ? ? ?] ?]. by split. }
  rewrite (bind_ok _ _ _ _ _ Hr2). erewrite bind_ok by (apply zoom_ok; reflexivity).
  eexists _, A'. split; [reflexivity|]. split; [apply abs_console|]. split; cbn; try done; rewrite Hc2; done.
Qed.

Lemma print_ok T v0 s A b args :
  screen_ok T v0 s A → top_ok T (TPrint b args) →
  ∃ s' A', exec_top (TPrint b args) s = Ok ((), s') ∧ abs_top A (TPrint b args) A' ∧ screen_ok T v0 s' A'.
Proof.
  intros Hs (f & Hf & Ht & Hbytes). pose proof Hs as [Hterm Hnull [Hcon Hmb] Hhid Hcur Hshown Hfl Hscr]. cbn [exec_top].
  destruct (printk_ok (tconsole s) (amessages A) b f args Hcon Hf Ht) as (out & c & Hout & Hr & Hcon' & Hh & Hshow).
  rewrite (zoom_ok tconsole_l _ s _ _ Hr). eexists _, _. split; [done|]. split; [by eapply abs_print|].
  specialize (Hbytes f out Hf Hout). split; cbn; try done.
  - split; [done|]. by apply Forall_app.
  - congruence.
  - unfold shown_lines in *. cbn. rewrite Hhid in Hshow. destruct (ctrue (ashown A)); [by rewrite Hshow|].
    eapply (on_screen_refresh v0 _ _ (window (amessages A)) _ (λ i, i < lenZ (window (amessages A ++ out)))); [exact Hscr|by apply window_text| |].
    + intros i j Hi Hj. destruct (Hshow i j Hi Hj) as (x & Hx & Hc). rewrite Hx, Hc. case_decide as Hd.
      * by rewrite (proj2 (Z.ltb_lt _ _) Hd).
      * by rewrite (proj2 (Z.ltb_ge _ _)) by lia.
    + intros i j Hi Hd. apply window_grows. lia.
Qed.

Lemma exec_top_ok T v0 s A o :
  screen_ok T v0 s A → top_ok T o → ∃ s' A', exec_top o s = Ok ((), s') ∧ abs_top A o A' ∧ screen_ok T v0 s' A'.
Proof.
  intros Hs Ho. destruct o; [by apply write_ok|by apply clear_ok|by apply switch_ok|by apply console_shown_ok|by apply print_ok].
Qed.

(** C11. The screen is shared.  Any sequence of writes to terminals, terminal
    clears, switches between terminals and the console, and kernel messages runs
    without a fault, every terminal and the console keep their own text, and at
    the end (so after every operation) the screen shows the last 25 lines of the
    one that is switched to, blank below, in the colours it had.  For a write
    within a line [ptty_flush_terminal] copies one row only; the theorem shows
    that this is enough. *)
Theorem terminals_share_screen T v0 s A os :
  screen_ok T v0 s A → Forall (top_ok T) os →
  ∃ s' A', exec_tops os s = Ok ((), s') ∧ abs_tops A os A' ∧ screen_ok T v0 s' A'.
Proof.
  revert s A. induction os as [|o os IH]; intros s A Hs Hos; [exists s, A; by split; [|split; [constructor|]]|].
  apply Forall_cons_1 in Hos as [Ho Hos]. destruct (exec_top_ok T v0 s A o Hs Ho) as (s1 & A1 & Hr1 & Ha1 & Hs1).
  destruct (IH s1 A1 Hs1 Hos) as (s2 & A2 & Hr2 & Ha2 & Hs2). exists s2, A2. split; [cbn; by rewrite (bind_ok _ _ _ _ _ Hr1)|].
  split; [by econstructor|done].
Qed.
End session.

(** ** Input *)

(** no request of [ioctl] touches a task: a foreground task that waits in
    [__ptty_slave_read] sleeps on after bytes have arrived for it or after it
    has become the foreground task *)
Theorem ioctl_wakes_nobody memory a request foo bar s r s' :
  ptty_dev_ioctl memory a request foo bar s = Ok (r, s') → tkernel s' = tkernel s.
Proof.
  assert (∀ {B} (m : M ptm B) s b s', on_ptm a m s = Ok (b, s') → tkernel s' = tkernel s) as Hp.
  { intros B m s0 b s1. unfold on_ptm. destruct (ptms s0 !! a) as [p|]; [|done]. destruct (m p) as [[b' p']|]; [|done]. by intros [= _ <-]. }
  assert (∀ {B} (m : M ptm B) (x : Z) s b s', (on_ptm a m ;; mret x) s = Ok (b, s') → tkernel s' = tkernel s) as Hpr.
  { intros B m x s0 b s1 (y & s2 & H1 & [= _ <-])%bind_Ok_inv. by eapply Hp. }
  unfold ptty_dev_ioctl. repeat (case_match; [|]).
  - intros ([] & s2 & (y & s3 & H1 & H2)%bind_Ok_inv & [= _ <-])%bind_Ok_inv. rewrite <-(Hp _ _ _ _ _ H1).
    apply bind_Ok_inv in H2 as (c & s4 & [= <- <-] & H2). unfold when in H2. destruct (current_ptty s3 =? a); [|by injection H2 as <-].
    unfold zoom in H2. destruct (reset_video_buffer _) as [[[] ?]|]; [|done]. by injection H2 as <-.
  - apply Hpr.
  - apply Hpr.
  - apply Hp.
  - by intros [= _ <-].
Qed.

Section reading.
Implicit Types s : tstate.

(** the read of the master task when it gets the processor: it takes the bytes
    that are there and leaves the queue, or it sleeps *)
Lemma master_read_loop_ok s ptm wait p buf size t :
  ptms s !! ptm = Some p → ring_wf (in_ring p) → 0 ≤ size ≤ lenZ buf →
  tasks (tkernel s) !! current (tkernel s) = Some t → state t = TASK_STATE_RUNNING →
  if bool_decide (contents (in_ring p) = []) then
    master_read_loop ptm wait buf size s =
      Ok (None, lset tkernel_l (lset tasks_l (<[current (tkernel s) := set_state TASK_STATE_INTERRUPTIBLE t]> (tasks (tkernel s))) (tkernel s)) s)
  else
    let k := Z.min size (ring_len (in_ring p)) in
    ∃ r, ring_wf r ∧ contents r = drop (Z.to_nat k) (contents (in_ring p)) ∧
      master_read_loop ptm wait buf size s =
        Ok (Some (k, take (Z.to_nat k) (contents (in_ring p)) ++ drop (Z.to_nat k) buf), lset ptms_l (<[ptm := leave_in wait (set_in_ring r p)]> (ptms s)) s).
Proof.
  intros Hp Hwf Hsz Ht Hrun. unfold master_read_loop.
  assert (zoom ring_l ring_empty p = Ok (bool_decide (contents (in_ring p) = []), p)) as He.
  { unfold zoom, ring_empty, gets. cbn. assert ((front (in_ring p) =? rear (in_ring p)) = bool_decide (contents (in_ring p) = [])) as ->; [|by destruct p].
    apply eq_true_iff_eq. rewrite Z.eqb_eq, bool_decide_eq_true. pose proof (contents_length _ Hwf) as Hl. destruct Hwf as [Hs Hf Hr _]. unfold ring_len in Hl. split.
    - intros E. apply length_zero_iff_nil. rewrite E, Z.sub_diag, Z.mod_0_l in Hl by lia. lia.
    - intros E. rewrite E in Hl. cbn in Hl. symmetry in Hl. rewrite mod_cases_neg in Hl by lia. destruct (rear _ - front _ <? 0) eqn:E2; lia. }
  rewrite (bind_ok _ _ _ _ _ (on_ptm_run ptm _ s p _ _ Hp He)), insert_id by done.
  replace (lset ptms_l (ptms s) s) with s by (by destruct s). case_bool_decide as E.
  - cbn [contents]. erewrite bind_ok; [done|]. apply zoom_ok. mstep. unfold transit_state, load_task, update_task.
    rewrite (bind_ok _ _ _ _ _ (zoom_ok tasks_l _ (tkernel s) _ _ (load_ok _ _ _ Ht))).
    replace (lset tasks_l (tasks (tkernel s)) (tkernel s)) with (tkernel s) by (by destruct (tkernel s)).
    rewrite (bind_ok _ _ _ _ _ (zoom_ok tasks_l _ (tkernel s) _ _ (update_ok _ _ _ _ Ht))). rewrite Hrun. done.
  - cbv zeta. destruct (read_loop_ok buf (Z.to_nat size) 0 (in_ring p)) as (p' & r & Hr & Hwf' & _ & Hc & Hp'); [done|lia..|].
    rewrite Z2Nat.id in * by lia. exists r. split; [done|]. split; [done|].
    assert (zoom ring_l (read_ring buf size) p = Ok ((Z.min size (ring_len (in_ring p)), p'), set_in_ring r p)) as Hz.
    { unfold zoom, read_ring. cbn [lget ring_l]. by rewrite Hr. }
    rewrite (bind_ok _ _ _ _ _ (on_ptm_run ptm _ s p _ _ Hp Hz)).
    erewrite bind_ok by (eapply on_ptm_run; [apply lookup_insert_eq|reflexivity]). cbn [lset ptms_l ptms]. rewrite insert_insert_eq.
    by rewrite Hp'.
Qed.
End reading.

(** ** Examples *)
Module TerminalExample.
Import PrintkExample TaskExample.
Definition base : Z := 0x100000.
Definition ptty0 : ptm := match ptty_init zero_ptm with Ok (_, p) => p | Err _ => zero_ptm end.
Definition session0 : tstate := mk_tstate {[base := ptty0]} NULL started [] (kernel running).
Definition no_port : Z → list (Z * Z) → Z := λ _ _, 0.
Definition no_memory : Z → list Z := λ _, [].
Definition screen0 : ascreen := mk_ascreen {[base := []]} [] NULL.

Lemma session0_ok : screen_ok {[base]} (vga_memory started) session0 screen0.
Proof.
  split; cbn [session0 screen0 ptms alogs amessages ashown tconsole current_ptty]; try done.
  - intros a ->%elem_of_singleton. exists ptty0, []. rewrite !lookup_singleton_eq. split; [done|]. split; [done|]. apply zero_rows; vm_compute; reflexivity.
  - split; [apply started_ok|done].
  - intros k j Hk Hj. assert (get2 (vga_memory started) k j = Some 0x700) as Hx.
    { change (vga_memory started) with (replicate 25 (replicate 80 0x700)). unfold get2. rewrite (proj2 (Z.ltb_ge _ _)) by lia.
      rewrite lookup_replicate_2, obind by lia. apply array_get_ok; [|lia]. apply lookup_replicate_2. lia. }
    exists 0x700. split; [exact Hx|]. rewrite Hx. unfold shown_lines. cbn [ashown amessages screen0]. change (ctrue NULL) with false. cbv iota.
    rewrite window_nil. f_equal. unfold cell. by destruct (Z.to_nat k) as [|[|?]]; destruct (Z.to_nat j).
Qed.

Definition ops0 : list top := [TSwitch 0; TWrite base [104; 105]; TWrite base [33; 10; 36]; TConsole; TWrite base [32]; TSwitch 0; TClear base].

Lemma terminals_share_screen_witness :
  ∃ s' A', exec_tops no_port base no_memory ops0 session0 = Ok ((), s') ∧ abs_tops base screen0 ops0 A' ∧ screen_ok {[base]} (vga_memory started) s' A'.
Proof.
  apply (terminals_share_screen no_port base no_memory {[base]} (vga_memory started) session0 screen0 ops0 session0_ok).
  repeat (apply Forall_cons; split); try apply Forall_nil_2; cbn [top_ok]; rewrite ?elem_of_singleton; try done; split; try done;
    repeat (apply Forall_cons; split); try apply Forall_nil_2; unfold byte; lia.
Defined.
End TerminalExample.
