(* ===== verification/Interrupt.v ===== *)
(** * Descriptor tables, interrupts and system calls: x86/gdt.c, tss.c,
    interrupt.c and kernel/system_call.c

    The tables are those the processor reads: [pack] gives the words a packed
    struct of bit-fields lies in memory as, and the theorems take them apart the
    way the processor documentation does.  Handlers are addresses of functions;
    [outb] appends to a log of port writes. *)

From Stdlib Require Import ZifyNat.
From stdpp Require Import gmap list.
From S2P Require Import Prelude DList Printk PageAlloc Paging Vma TaskPaging Task.
Open Scope Z_scope.
Open Scope zelda_scope.

Definition NULL_SELECTOR : Z := 0x00.
Definition KERNEL_CODE_SELECTOR : Z := 0x08.
Definition KERNEL_DATA_SELECTOR : Z := 0x10.
Definition TSS0_SELECTOR : Z := 0x28.
Definition SELECTOR_INDEX (sel : Z) : Z := Z.shiftr (u32 sel) 3.

(** a struct of bit-fields, given as (width, value) from the lowest bits on *)
Fixpoint pack (fields : list (nat * Z)) : Z :=
  match fields with
  | [] => 0
  | (w, x) :: fields => Z.lor (Z.land x (Z.ones (Z.of_nat w))) (Z.shiftl (pack fields) (Z.of_nat w))
  end.
(** bits [lo .. lo + n - 1] of a word *)
Definition bits (w lo n : Z) : Z := Z.land (Z.shiftr w lo) (Z.ones n).

(** ** Segments: x86/gdt.c *)
Record gdt_entry := mk_gdt {
  limit_0_15 : Z; base_0_15 : Z; base_16_23 : Z; segment_type : Z; segmet_class : Z; dpl : Z; present : Z;
  limit_16_19 : Z; avail : Z; long_mode : Z; operation_size : Z; granularity : Z; base_24_31 : Z }.
Definition gdt_word (e : gdt_entry) : Z :=
  pack [(16, limit_0_15 e); (16, base_0_15 e); (8, base_16_23 e); (4, segment_type e); (1, segmet_class e); (2, dpl e); (1, present e);
        (4, limit_16_19 e); (1, avail e); (1, long_mode e); (1, operation_size e); (1, granularity e); (8, base_24_31 e)]%nat.

Definition _SEGMENT_BASE : Z := 0x0.
Definition _SEGMENT_LIMIT : Z := -1.
Definition _SEGMENT_TYPE_RW_DATA : Z := 0x2.
Definition _SEGMENT_TYPE_RX_CODE : Z := 0xa.
Definition _SEGMENT_TYPE_TSS : Z := 0x9.

Definition zero_gdt : gdt_entry := mk_gdt 0 0 0 0 0 0 0 0 0 0 0 0 0.
Definition flat (type level : Z) : gdt_entry :=
  mk_gdt _SEGMENT_LIMIT _SEGMENT_BASE _SEGMENT_BASE type 1 level 1 _SEGMENT_LIMIT 0 0 1 1 _SEGMENT_BASE.
(** the initializer of [GDT] *)
Definition GDT : list gdt_entry :=
  [zero_gdt; flat _SEGMENT_TYPE_RX_CODE DPL_0; flat _SEGMENT_TYPE_RW_DATA DPL_0; flat _SEGMENT_TYPE_RX_CODE DPL_3; flat _SEGMENT_TYPE_RW_DATA DPL_3; zero_gdt].

(** the fields of [struct task_state_segment] that are not left zero *)
Record task_state_segment := mk_tss {
  tss_esp0 : Z; tss_ss0 : Z; tss_eip : Z; tss_eflags : Z; tss_esp : Z; tss_es : Z; tss_cs : Z; tss_ss : Z; tss_ds : Z; tss_fs : Z; tss_gs : Z }.
(** [sizeof(struct task_state_segment)] *)
Definition TSS_SIZE : Z := 104.

(** where the linker puts the segment and its two stacks, and the entry function *)
Record tss_place := mk_tss_place { static_tss0 : Z; tss0_stack : Z; tss0_kernel_stack : Z; tss0_entry : Z }.

Definition __initialize_tss (L : tss_place) (code_selector data_selector entry : Z) : task_state_segment :=
  mk_tss (u32 (tss0_kernel_stack L + 1024 * 1024 * 4)) KERNEL_DATA_SELECTOR entry 0 (u32 (tss0_stack L + 8192))
    data_selector code_selector data_selector data_selector data_selector data_selector.
Definition tss_init (L : tss_place) : task_state_segment := __initialize_tss L USER_CODE_SELECTOR USER_DATA_SELECTOR (tss0_entry L).

Definition TSS0_LIMIT : Z := TSS_SIZE - 1.

(** the entry of the task state segment *)
Definition tss_entry (base : Z) : gdt_entry :=
  mk_gdt (Z.land TSS0_LIMIT 0xffff) (Z.land base 0xffff) (Z.land (Z.shiftr base 16) 0xff) _SEGMENT_TYPE_TSS 0 DPL_3 1
    (Z.land (Z.shiftr TSS0_LIMIT 16) 0xf) 0 0 0 0 (Z.land (Z.shiftr base 24) 0xff).

(** the tables of the processor: the segments with the register that points to
    them, the task register, the interrupt gates with their register *)
Record interrupt_gate_entry := mk_gate {
  offset_low : Z; selector : Z; reserved0 : Z; gate_size : Z; gate_DPL : Z; gate_present : Z; offset_high : Z }.
Definition gate_word (g : interrupt_gate_entry) : Z :=
  pack [(16, offset_low g); (16, selector g); (8, reserved0 g); (5, gate_size g); (2, gate_DPL g); (1, gate_present g); (16, offset_high g)]%nat.
Definition IDT_SIZE : Z := 256.
Definition GATE_SIZE_32 : Z := 0x0e.
Definition zero_gate : interrupt_gate_entry := mk_gate 0 0 0 0 0 0 0.

Record linked_handler := mk_lh { lh_handler : Z; lh_blob : Z }.

Record istate := mk_istate {
  gdt : list gdt_entry; gdtr : Z * Z; task_register : Z; tss : task_state_segment;
  idt : list interrupt_gate_entry; idtr : Z * Z;
  handlers : list Z; component_handler_head : list (list Z); linked : gmap Z linked_handler;
  ports : list (Z * Z) }.
Definition set_gdt x s := mk_istate x (gdtr s) (task_register s) (tss s) (idt s) (idtr s) (handlers s) (component_handler_head s) (linked s) (ports s).
Definition set_gdtr x s := mk_istate (gdt s) x (task_register s) (tss s) (idt s) (idtr s) (handlers s) (component_handler_head s) (linked s) (ports s).
Definition set_task_register x s := mk_istate (gdt s) (gdtr s) x (tss s) (idt s) (idtr s) (handlers s) (component_handler_head s) (linked s) (ports s).
Definition set_tss x s := mk_istate (gdt s) (gdtr s) (task_register s) x (idt s) (idtr s) (handlers s) (component_handler_head s) (linked s) (ports s).
Definition set_idt x s := mk_istate (gdt s) (gdtr s) (task_register s) (tss s) x (idtr s) (handlers s) (component_handler_head s) (linked s) (ports s).
Definition set_idtr x s := mk_istate (gdt s) (gdtr s) (task_register s) (tss s) (idt s) x (handlers s) (component_handler_head s) (linked s) (ports s).
Definition set_handlers x s := mk_istate (gdt s) (gdtr s) (task_register s) (tss s) (idt s) (idtr s) x (component_handler_head s) (linked s) (ports s).
Definition set_component x s := mk_istate (gdt s) (gdtr s) (task_register s) (tss s) (idt s) (idtr s) (handlers s) x (linked s) (ports s).
Definition set_ports x s := mk_istate (gdt s) (gdtr s) (task_register s) (tss s) (idt s) (idtr s) (handlers s) (component_handler_head s) (linked s) x.

Definition outb (port value : Z) : M istate () := modify (λ s, set_ports (ports s ++ [(port, value)]) s).

(** [t[i] = x] of an array of objects *)
Definition put {X} (l : list X) (i : Z) (x : X) : option (list X) :=
  if (i <? 0) || (lenZ l <=? i) then None else Some (<[Z.to_nat i := x]> l).
Definition get {X} (l : list X) (i : Z) : option X := if i <? 0 then None else l !! Z.to_nat i.

(** [gdt_address] is where [GDT] lies *)
Definition gdt_init (L : tss_place) (gdt_address : Z) : M istate () :=
  let tss_index := SELECTOR_INDEX TSS0_SELECTOR in
  ASSERT (tss_index =? 5) ;;
  g ← gets gdt;
  g ← deref (put g tss_index (tss_entry (u32 (static_tss0 L))));
  modify (set_gdt g) ;;
  modify (set_tss (tss_init L)) ;;
  modify (set_gdtr (8 * lenZ g - 1, gdt_address)) ;;
  modify (set_task_register TSS0_SELECTOR).

(** ** Gates and handlers: x86/interrupt.c *)
Section interrupts.
(** the entry of a vector in interrupt_entry.s; the address of
    [compound_interrupt_handler]; where [IDT] lies *)
Variable int_entry : Z → Z.
Variable compound : Z.
Variable idt_address : Z.

Definition compound_vectors : list Z := [0xa; 0xb].
Definition PIC_MASTER_COMMAND_PORT : Z := 0x20.
Definition PIC_MASTER_DATA_PORT : Z := 0x21.
Definition PIC_SLAVE_COMMAND_PORT : Z := 0xa0.
Definition PIC_SLAVE_DATA_PORT : Z := 0xa1.

Definition gate_to (entry level : Z) : interrupt_gate_entry :=
  mk_gate (Z.land (u32 entry) 0xffff) KERNEL_CODE_SELECTOR 0 GATE_SIZE_32 level 1 (Z.land (Z.shiftr (u32 entry) 16) 0xffff).
Definition put_gate (vector_number : Z) (g : interrupt_gate_entry) : M istate () :=
  t ← gets idt; t ← deref (put t vector_number g); modify (set_idt t).
Definition set_interrupt_gate (vector_number entry : Z) : M istate () := put_gate vector_number (gate_to entry DPL_0).
Definition set_dpl3_interrupt_gate (vector_number entry : Z) : M istate () := put_gate vector_number (gate_to entry DPL_3).

Definition register_interrupt_handler (vector_number handler : Z) : M istate () :=
  ASSERT ((vector_number <? IDT_SIZE) && (0 <=? vector_number)) ;;
  h ← gets handlers;
  old ← deref (get h vector_number);
  ASSERT (negb (ctrue old)) ;;
  h ← deref (put h vector_number handler);
  modify (set_handlers h).

Definition register_linked_interrupt_handler (vector_number lhandler : Z) : M istate () :=
  ASSERT ((vector_number <? IDT_SIZE) && (0 <=? vector_number)) ;;
  h ← gets handlers;
  old ← deref (get h vector_number);
  ASSERT (old =? compound) ;;
  c ← gets component_handler_head;
  l ← deref (get c vector_number);
  c ← deref (put c vector_number (l ++ [lhandler]));
  modify (set_component c).

Definition setup_compound_interrupt_handler (vector_number : Z) : M istate () :=
  ASSERT ((vector_number <? IDT_SIZE) && (0 <=? vector_number)) ;;
  h ← gets handlers;
  old ← deref (get h vector_number);
  ASSERT (negb (ctrue old) || (old =? compound)) ;;
  when (negb (ctrue old)) (
    register_interrupt_handler vector_number compound ;;
    c ← gets component_handler_head;
    c ← deref (put c vector_number []);
    modify (set_component c)).

(** [call h cpu blob] calls the function at [h] *)
Section calls.
Context {S : Type} (call : Z → Z → Z → M S ()).
Fixpoint run_linked (lhs : list linked_handler) (cpu : Z) : M S () :=
  match lhs with
  | [] => mret ()
  | lh :: lhs => ASSERT (ctrue (lh_handler lh)) ;; call (lh_handler lh) cpu (lh_blob lh) ;; run_linked lhs cpu
  end.
(** with the vector of the frame at [cpu] *)
Definition compound_interrupt_handler (s : istate) (cpu vector : Z) : M S Z :=
  l ← deref (get (component_handler_head s) vector);
  lhs ← deref (mapM (λ a, linked s !! a) l);
  run_linked lhs cpu ;;
  mret cpu.
End calls.

(** [idt_init] sets the gates one by one: all with [set_interrupt_gate] but 135 *)
Definition set_gates : M istate () :=
  for_up 255 0 (λ n, if n =? 135 then set_dpl3_interrupt_gate n (int_entry n) else set_interrupt_gate n (int_entry n)).

Definition remap_pic : M istate () :=
  outb PIC_MASTER_DATA_PORT 0xff ;; outb PIC_SLAVE_DATA_PORT 0xff ;;
  outb PIC_MASTER_COMMAND_PORT 0x11 ;; outb PIC_SLAVE_COMMAND_PORT 0x11 ;;
  outb PIC_MASTER_DATA_PORT 0x20 ;; outb PIC_SLAVE_DATA_PORT 0x28 ;;
  outb PIC_MASTER_DATA_PORT 0x04 ;; outb PIC_SLAVE_DATA_PORT 0x02 ;;
  outb PIC_MASTER_DATA_PORT 0x01 ;; outb PIC_SLAVE_DATA_PORT 0x01 ;;
  outb PIC_MASTER_DATA_PORT 0x00 ;; outb PIC_SLAVE_DATA_PORT 0x00.

Fixpoint setup_compound (vs : list Z) : M istate () :=
  match vs with [] => mret () | v :: vs => setup_compound_interrupt_handler (v + 0x20) ;; setup_compound vs end.

Definition idt_init : M istate () :=
  modify (set_idt (replicate (Z.to_nat IDT_SIZE) zero_gate)) ;;
  modify (set_handlers (replicate (Z.to_nat IDT_SIZE) 0)) ;;
  modify (set_component (replicate (Z.to_nat IDT_SIZE) [])) ;;
  setup_compound compound_vectors ;;
  set_gates ;;
  remap_pic ;;
  modify (set_idtr (8 * IDT_SIZE - 1, idt_address)).
End interrupts.

(** ** System calls: kernel/system_call.c *)
Definition MAX_SYSCALL_NUM : Z := 255.
Definition SYSTEM_CALL_TRAP_VECTOR : Z := 0x87.
Record syscall_entry := mk_sys { sys_valid : Z; nr_args : Z; sys_call : Z }.

Definition SYSCALL_NUM (cpu : x86_cpustate) : Z := eax cpu.
Definition SYSCALL_ARGS (cpu : x86_cpustate) : list Z := [ebx cpu; ecx cpu; edx cpu; esi cpu; edi cpu].
Definition set_SYSCALL_RETURN (x : Z) (f : x86_cpustate) : x86_cpustate :=
  mk_cpu (edi f) (esi f) (ebp f) (ebx f) (edx f) (ecx f) x (gs f) (fs f) (es f) (ds f) (vector f) (errorcode f) (eip f) (cs f) (eflags f) (esp f) (ss f).

Definition register_system_call (call_num nr call : Z) : M (list syscall_entry) () :=
  t ← gets id;
  t ← deref (put t call_num (mk_sys 1 nr call));
  modify (λ _, t).

Definition system_call_init (system_call_handler : Z) : M istate (list syscall_entry) :=
  register_interrupt_handler SYSTEM_CALL_TRAP_VECTOR system_call_handler ;;
  mret (replicate (Z.to_nat MAX_SYSCALL_NUM) (mk_sys 0 0 0)).

Section system_calls.
(** [call f cpu args] calls the function at [f]; the frames are part of the state *)
Context {S : Type} (frames : lens S (gmap Z x86_cpustate)) (call : Z → Z → list Z → M S Z).

Definition system_call_handler (syscall_entries : list syscall_entry) (cpu : Z) : M S Z :=
  f ← zoom frames (load cpu);
  let syscall_num := i32 (SYSCALL_NUM f) in
  syscall_ret ←
    (if (syscall_num <? 0) || (MAX_SYSCALL_NUM <=? syscall_num) then mret (- ERR_GENERIC) else
     e ← deref (get syscall_entries syscall_num);
     if ! sys_valid e then mret (- ERR_GENERIC) else
     if (0 <=? nr_args e) && (nr_args e <=? 5) then call (sys_call e) cpu (take (Z.to_nat (nr_args e)) (SYSCALL_ARGS f))
     else mret (- ERR_GENERIC));
  zoom frames (update cpu (set_SYSCALL_RETURN (u32 syscall_ret))) ;;
  mret cpu.
End system_calls.

(** ** Packed words *)
Lemma land_ones_range x n : 0 ≤ n → 0 ≤ Z.land x (Z.ones n) < 2 ^ n.
Proof. intros Hn. rewrite Z.land_ones by done. apply Z.mod_pos_bound. lia. Qed.

Lemma bits_here w x fs : bits (pack ((w, x) :: fs)) 0 (Z.of_nat w) = Z.land x (Z.ones (Z.of_nat w)).
Proof.
  unfold bits. cbn [pack]. rewrite Z.shiftr_0_r. apply Z.bits_inj_iff'. intros n Hn. rewrite !Z.land_spec, Z.lor_spec, Z.land_spec.
  destruct (decide (n < Z.of_nat w)) as [H|H].
  - rewrite Z.ones_spec_low, Z.shiftl_spec_low by lia. by rewrite !andb_true_r, orb_false_r.
  - rewrite Z.ones_spec_high by lia. by rewrite !andb_false_r.
Qed.

Lemma bits_next w x fs lo n : 0 ≤ lo → bits (pack ((w, x) :: fs)) (Z.of_nat w + lo) n = bits (pack fs) lo n.
Proof.
  intros Hlo. unfold bits. cbn [pack]. f_equal. rewrite Z.shiftr_lor. apply Z.bits_inj_iff'. intros k Hk.
  rewrite Z.lor_spec, !Z.shiftr_spec, Z.land_spec, Z.shiftl_spec by lia. rewrite Z.ones_spec_high by lia.
  rewrite andb_false_r, orb_false_l. f_equal. lia.
Qed.

(** [bits] of a packed struct at a field: a constant offset is split at the widths *)
Ltac bits_field :=
  repeat match goal with
  | |- context [bits (pack ((?w, ?x) :: ?fs)) 0 ?n] => change (bits (pack ((w, x) :: fs)) 0 n) with (bits (pack ((w, x) :: fs)) 0 (Z.of_nat w)); rewrite bits_here
  | |- context [bits (pack ((?w, ?x) :: ?fs)) ?lo ?n] =>
      let lo' := eval compute in (lo - Z.of_nat w) in
      change (bits (pack ((w, x) :: fs)) lo n) with (bits (pack ((w, x) :: fs)) (Z.of_nat w + lo') n); rewrite (bits_next w x fs lo' n) by lia
  end.

(** what the processor reads from a gate: the entry, the segment, the kind of
    gate, the least privileged level that may raise it, whether it is there *)
Definition gate_offset (w : Z) : Z := bits w 0 16 + 65536 * bits w 48 16.
Definition gate_segment (w : Z) : Z := bits w 16 16.
Definition gate_kind (w : Z) : Z := bits w 40 5.
Definition gate_level (w : Z) : Z := bits w 45 2.
Definition gate_there (w : Z) : Z := bits w 47 1.

(** [int n] at privilege level [level] goes through the gate *)
Definition may_raise (level w : Z) : Prop := gate_there w = 1 ∧ level ≤ gate_level w.

Lemma halves x : 0 ≤ x < 4294967296 → Z.land x 0xffff + 65536 * Z.land (Z.shiftr x 16) 0xffff = x.
Proof.
  intros Hx. change 0xffff with (Z.ones 16). rewrite !Z.land_ones, Z.shiftr_div_pow2 by lia. change (2 ^ 16) with 65536.
  rewrite (Z.mod_small (x / 65536)) by (split; [apply Z.div_pos; lia|apply Z.div_lt_upper_bound; lia]).
  pose proof (Z.div_mod x 65536). lia.
Qed.

Lemma gate_word_ok entry level :
  0 ≤ entry < 4294967296 → 0 ≤ level < 4 →
  let w := gate_word (gate_to entry level) in
  gate_offset w = entry ∧ gate_segment w = KERNEL_CODE_SELECTOR ∧ gate_kind w = GATE_SIZE_32 ∧ gate_level w = level ∧ gate_there w = 1.
Proof.
  intros He Hl. cbv zeta. unfold gate_offset, gate_segment, gate_kind, gate_level, gate_there, gate_word. bits_field.
  cbn [gate_to offset_low offset_high selector gate_size gate_DPL gate_present]. rewrite u32_small by done.
  split_and!; try done.
  - change (Z.ones (Z.of_nat 16)) with 0xffff. rewrite <-!Z.land_assoc. change (Z.land 65535 65535) with 65535. by apply halves.
  - change (Z.ones (Z.of_nat 2)) with (Z.ones 2). rewrite Z.land_ones, Z.mod_small by lia. done.
Qed.

Lemma zero_gate_word : gate_there (gate_word zero_gate) = 0.
Proof. reflexivity. Qed.

(** ** Arrays *)
Lemma get_put {X} (l l' : list X) i x j : put l i x = Some l' → get l' j = if decide (j = i) then Some x else get l j.
Proof.
  unfold put, get. intros Hp. destruct ((i <? 0) || (lenZ l <=? i)) eqn:E; [done|]. injection Hp as <-. destruct (Z.ltb_spec j 0); [by rewrite decide_False by lia|].
  destruct (decide (j = i)) as [->|Hne]; [apply list_lookup_insert_eq; lia|apply list_lookup_insert_ne; lia].
Qed.

Lemma put_ok {X} (l : list X) i x : 0 ≤ i < lenZ l → ∃ l', put l i x = Some l' ∧ lenZ l' = lenZ l.
Proof. intros Hi. unfold put. rewrite (proj2 (Z.ltb_ge i 0)), (proj2 (Z.leb_gt _ _)) by lia. eexists. split; [done|]. by rewrite length_insert. Qed.

Lemma get_replicate {X} n (x : X) i : 0 ≤ i < Z.of_nat n → get (replicate n x) i = Some x.
Proof. intros Hi. unfold get. rewrite (proj2 (Z.ltb_ge i 0)) by lia. apply lookup_replicate_2. lia. Qed.

(** ** The tables after start-up *)
Section tables.
Variable int_entry : Z → Z.
Variable compound : Z.
Variable idt_address : Z.
Hypothesis int_entry_range : ∀ v, 0 ≤ int_entry v < 4294967296.
Implicit Types s : istate.

Definition gate_of (v : Z) : interrupt_gate_entry :=
  if v =? 255 then zero_gate else gate_to (int_entry v) (if v =? 135 then DPL_3 else DPL_0).

Lemma set_gates_ok s :
  idt s = replicate (Z.to_nat IDT_SIZE) zero_gate →
  ∃ t, set_gates int_entry s = Ok ((), set_idt t s) ∧ lenZ t = IDT_SIZE ∧ ∀ v, 0 ≤ v < IDT_SIZE → get t v = Some (gate_of v).
Proof.
  intros Hs. destruct (for_up_ok (λ n s', ∃ t, s' = set_idt t s ∧ lenZ t = IDT_SIZE ∧
      ∀ v, 0 ≤ v < IDT_SIZE → get t v = Some (if v <? n then gate_of v else zero_gate)) 255 0
    (λ n, if n =? 135 then set_dpl3_interrupt_gate n (int_entry n) else set_interrupt_gate n (int_entry n)) s) as (s' & Hr & t & -> & Hl & Ht).
  - exists (idt s). split; [by destruct s|]. rewrite Hs. split; [by rewrite length_replicate|]. intros v Hv. rewrite (proj2 (Z.ltb_ge v 0)) by lia.
    by apply get_replicate.
  - intros n s1 Hn (t & -> & Hl & Ht). destruct (put_ok t n (gate_of n)) as (t' & Hp & Hl'); [unfold IDT_SIZE in Hl; lia|].
    exists (set_idt t' s). split.
    + assert (put_gate n (gate_of n) (set_idt t s) = Ok ((), set_idt t' s)) as Hrun.
      { unfold put_gate. mstep. cbn [idt set_idt]. by rewrite (bind_ok _ _ _ _ _ (deref_ok _ _ _ Hp)). }
      rewrite <-Hrun. unfold gate_of. rewrite (proj2 (Z.eqb_neq n 255)) by lia. by destruct (n =? 135).
    + exists t'. split; [done|]. split; [lia|]. intros v Hv. rewrite (get_put _ _ _ _ v Hp). destruct (decide (v = n)) as [->|Hne].
      * by rewrite (proj2 (Z.ltb_lt _ _)) by lia.
      * rewrite Ht by done. by replace (v <? n + 1) with (v <? n) by lia.
  - exists t. split; [exact Hr|]. split; [done|]. intros v Hv. rewrite Ht by done. change (0 + Z.of_nat 255) with 255. destruct (Z.ltb_spec v 255); [done|].
    unfold IDT_SIZE in Hv. unfold gate_of. by rewrite (proj2 (Z.eqb_eq v 255)) by lia.
Qed.

(** a new handler *)
Lemma register_handler_ok s v h old :
  lenZ (handlers s) = IDT_SIZE → 0 ≤ v < IDT_SIZE → get (handlers s) v = Some old →
  if ctrue old then register_interrupt_handler v h s = Err AssertFail else
  ∃ hs, register_interrupt_handler v h s = Ok ((), set_handlers hs s) ∧ lenZ hs = IDT_SIZE ∧ ∀ j, get hs j = if decide (j = v) then Some h else get (handlers s) j.
Proof.
  intros Hl Hv Hold. unfold register_interrupt_handler. rewrite (proj2 (Z.ltb_lt _ _)), (proj2 (Z.leb_le _ _)) by lia. mstep. mstep.
  rewrite (bind_ok _ _ _ _ _ (deref_ok _ _ _ Hold)). destruct (ctrue old); [done|]. cbn [negb]. mstep.
  destruct (put_ok (handlers s) v h) as (hs & Hp & Hl'); [lia|]. rewrite (bind_ok _ _ _ _ _ (deref_ok _ _ _ Hp)).
  eexists. split; [done|]. split; [lia|]. intros j. by apply get_put.
Qed.

Lemma setup_compound_ok s v old :
  lenZ (handlers s) = IDT_SIZE → lenZ (component_handler_head s) = IDT_SIZE → 0 ≤ v < IDT_SIZE → get (handlers s) v = Some old → old = 0 →
  ∃ hs cs, setup_compound_interrupt_handler compound v s = Ok ((), set_component cs (set_handlers hs s)) ∧ lenZ hs = IDT_SIZE ∧ lenZ cs = IDT_SIZE ∧
    (∀ j, get hs j = if decide (j = v) then Some compound else get (handlers s) j) ∧
    (∀ j, get cs j = if decide (j = v) then Some [] else get (component_handler_head s) j).
Proof.
  intros Hl Hc Hv Hold ->. unfold setup_compound_interrupt_handler. rewrite (proj2 (Z.ltb_lt _ _)), (proj2 (Z.leb_le _ _)) by lia. mstep. mstep.
  rewrite (bind_ok _ _ _ _ _ (deref_ok _ _ _ Hold)). mstep. unfold when. change (negb (ctrue 0)) with true. cbv iota.
  destruct (register_handler_ok s v compound 0 Hl Hv Hold) as (hs & Hr & Hl' & Hg). rewrite (bind_ok _ _ _ _ _ Hr). mstep.
  destruct (put_ok (component_handler_head s) v []) as (cs & Hp & Hlc); [lia|]. cbn [component_handler_head set_handlers].
  rewrite (bind_ok _ _ _ _ _ (deref_ok _ _ _ Hp)). exists hs, cs. split; [done|]. split; [done|]. split; [lia|]. split; [done|]. intros j. by apply get_put.
Qed.

Lemma length_table {X} (x : X) : lenZ (replicate (Z.to_nat IDT_SIZE) x) = IDT_SIZE.
Proof. rewrite length_replicate. reflexivity. Qed.

Lemma get_table {X} (x : X) i : 0 ≤ i < IDT_SIZE → get (replicate (Z.to_nat IDT_SIZE) x) i = Some x.
Proof. intros Hi. by apply get_replicate. Qed.

Lemma remap_pic_run s : ∃ l, remap_pic s = Ok ((), set_ports l s).
Proof. eexists. unfold remap_pic, outb, mbind, M_bind, modify. reflexivity. Qed.

Lemma idt_init_ok s :
  ∃ s', idt_init int_entry compound idt_address s = Ok ((), s') ∧
    (∀ v, 0 ≤ v < IDT_SIZE → get (idt s') v = Some (gate_of v)) ∧ idtr s' = (8 * lenZ (idt s') - 1, idt_address) ∧
    (∀ v, 0 ≤ v < IDT_SIZE → get (handlers s') v = Some (if (v =? 42) || (v =? 43) then compound else 0)) ∧
    gdt s' = gdt s ∧ gdtr s' = gdtr s ∧ task_register s' = task_register s ∧ tss s' = tss s.
Proof.
  unfold idt_init. mstep. mstep. mstep. set (s0 := set_component _ _). unfold compound_vectors. cbn [setup_compound].
  destruct (setup_compound_ok s0 (0xa + 0x20) 0) as (h1 & c1 & Hr1 & Hl1 & Hc1 & Hh1 & Hcc1); [exact (length_table 0)|exact (length_table [])|unfold IDT_SIZE; lia|exact (get_table 0 (0xa + 0x20) ltac:(unfold IDT_SIZE; lia))|done|].
  destruct (setup_compound_ok (set_component c1 (set_handlers h1 s0)) (0xb + 0x20) 0) as (h2 & c2 & Hr2 & Hl2 & Hc2 & Hh2 & Hcc2);
    [exact Hl1|exact Hc1|unfold IDT_SIZE; lia| |done|].
  { cbn [handlers set_component set_handlers]. rewrite Hh1, decide_False by lia. exact (get_table 0 (0xb + 0x20) ltac:(unfold IDT_SIZE; lia)). }
  rewrite bind_assoc_run, (bind_ok _ _ _ _ _ Hr1). rewrite bind_assoc_run, (bind_ok _ _ _ _ _ Hr2). mstep. set (s2 := set_component c2 _).
  destruct (set_gates_ok s2) as (t & Hr3 & Hlt & Ht); [reflexivity|]. rewrite (bind_ok _ _ _ _ _ Hr3).
  destruct (remap_pic_run (set_idt t s2)) as [l Hl]. rewrite (bind_ok _ _ _ _ _ Hl).
  exists (set_idtr (8 * IDT_SIZE - 1, idt_address) (set_ports l (set_idt t s2))). split; [reflexivity|]. split; [exact Ht|].
  split; [change (idt _) with t; rewrite Hlt; reflexivity|]. split; [|split_and!; reflexivity].
  change (handlers (set_idtr _ _)) with h2.
  intros v Hv. rewrite Hh2. change (handlers (set_component c1 (set_handlers h1 s0))) with h1. rewrite Hh1.
  destruct (decide (v = 0xb + 0x20)) as [->|]; [reflexivity|]. destruct (decide (v = 0xa + 0x20)) as [->|]; [reflexivity|].
  transitivity (Some 0); [exact (get_table 0 v Hv)|].
  by rewrite (proj2 (Z.eqb_neq v 42)), (proj2 (Z.eqb_neq v 43)) by lia.
Qed.

(** what the processor reads from a segment descriptor *)
Definition segment_base (w : Z) : Z := bits w 16 16 + 65536 * bits w 32 8 + 16777216 * bits w 56 8.
Definition segment_limit (w : Z) : Z := bits w 0 16 + 65536 * bits w 48 4.
Definition segment_access (w : Z) : Z := bits w 40 8.
Definition segment_flags (w : Z) : Z := bits w 52 4.
(** the descriptor a selector names *)
Definition descriptor (s : istate) (sel : Z) : option Z := gdt_word <$> get (gdt s) (SELECTOR_INDEX sel).

(** all of memory in pages, as code or data, at a level *)
Definition flat_segment (w access : Z) : Prop := segment_base w = 0 ∧ segment_limit w = 0xfffff ∧ segment_flags w = 0xc ∧ segment_access w = access.

Lemma gdt_init_ok L gdt_address s :
  gdt s = GDT →
  gdt_init L gdt_address s = Ok ((), set_task_register TSS0_SELECTOR (set_gdtr (47, gdt_address) (set_tss (tss_init L)
    (set_gdt (<[5%nat := tss_entry (u32 (static_tss0 L))]> GDT) s)))).
Proof. intros Hs. unfold gdt_init. mstep. mstep. rewrite Hs. reflexivity. Qed.

Lemma quarters x : 0 ≤ x < 4294967296 → Z.land x 0xffff + 65536 * Z.land (Z.shiftr x 16) 0xff + 16777216 * Z.land (Z.shiftr x 24) 0xff = x.
Proof.
  intros Hx. change 0xffff with (Z.ones 16). change 0xff with (Z.ones 8). rewrite !Z.land_ones, !Z.shiftr_div_pow2 by lia.
  change (2 ^ 16) with 65536. change (2 ^ 8) with 256. change (2 ^ 24) with (65536 * 256). rewrite <-(Z.div_div x 65536 256) by lia.
  pose proof (Z.div_mod x 65536). pose proof (Z.div_mod (x / 65536) 256). assert (0 ≤ x / 65536 < 65536) by (split; [apply Z.div_pos; lia|apply Z.div_lt_upper_bound; lia]).
  rewrite (Z.mod_small (x / 65536 / 256)) by (split; [apply Z.div_pos; lia|apply Z.div_lt_upper_bound; lia]). lia.
Qed.

Lemma tss_entry_word base :
  0 ≤ base < 4294967296 →
  let w := gdt_word (tss_entry base) in segment_base w = base ∧ segment_limit w = TSS_SIZE - 1 ∧ segment_access w = 0xe9.
Proof.
  intros Hb. cbv zeta. split; [|split].
  - unfold segment_base, gdt_word. bits_field. cbn [tss_entry base_0_15 base_16_23 base_24_31]. change (Z.ones (Z.of_nat 16)) with 0xffff. change (Z.ones (Z.of_nat 8)) with 0xff.
    rewrite <-!Z.land_assoc. change (Z.land 0xffff 0xffff) with 0xffff. change (Z.land 0xff 0xff) with 0xff. by apply quarters.
  - unfold segment_limit, gdt_word. bits_field. reflexivity.
  - unfold segment_access, gdt_word. change 40 with (Z.of_nat 16 + (Z.of_nat 16 + (Z.of_nat 8 + 0))). rewrite !bits_next by lia. unfold bits.
    rewrite Z.shiftr_0_r. set (rest := [(4%nat, limit_16_19 _); _; _; _; _; _]). clearbody rest. cbn [tss_entry segment_type segmet_class dpl present pack].
    generalize (pack rest). intros P. change 0xe9 with (Z.land 0xe9 (Z.ones 8)). apply Z.bits_inj_iff'. intros n Hn. rewrite !Z.land_spec.
    destruct (decide (n < 8)) as [H8|H8]; [|by rewrite !(Z.ones_spec_high 8), !andb_false_r by lia]. rewrite Z.ones_spec_low, !andb_true_r by lia.
    rewrite !Z.lor_spec. rewrite !Z.shiftl_lor, !Z.shiftl_shiftl by lia. rewrite !Z.lor_spec. rewrite (Z.shiftl_spec_low P) by lia. rewrite !orb_false_r.
    assert (n ∈ seqZ 0 8) as Hin by (apply elem_of_seqZ; lia). cbn in Hin. repeat (apply elem_of_cons in Hin as [->|Hin]; [reflexivity|]). by apply elem_of_nil in Hin.
Qed.

(** C12. Only the system call is open to user programs.  After [gdt_init] and
    [idt_init] the tables the processor uses say: every vector below 255 enters
    the kernel code segment at its own entry, with interrupts off, and a program
    at privilege level 3 can raise no vector but 0x87.  The kernel and user
    segments span all of memory at their levels, and the task register leads to
    the task state segment, whose stack for level 0 lies in the kernel. *)
Theorem user_raises_system_call_only L gdt_address s :
  gdt s = GDT → 0 ≤ static_tss0 L < 4294967296 →
  ∃ s', (gdt_init L gdt_address ;; idt_init int_entry compound idt_address) s = Ok ((), s') ∧
    (∀ v, 0 ≤ v < IDT_SIZE → ∃ g, get (idt s') v = Some g ∧
       (may_raise DPL_3 (gate_word g) ↔ v = SYSTEM_CALL_TRAP_VECTOR) ∧
       (v < 255 → gate_there (gate_word g) = 1 ∧ gate_kind (gate_word g) = GATE_SIZE_32 ∧ gate_offset (gate_word g) = int_entry v ∧ gate_segment (gate_word g) = KERNEL_CODE_SELECTOR)) ∧
    idtr s' = (8 * lenZ (idt s') - 1, idt_address) ∧ gdtr s' = (8 * lenZ (gdt s') - 1, gdt_address) ∧
    (∃ w, descriptor s' KERNEL_CODE_SELECTOR = Some w ∧ flat_segment w 0x9a) ∧ (∃ w, descriptor s' KERNEL_DATA_SELECTOR = Some w ∧ flat_segment w 0x92) ∧
    (∃ w, descriptor s' USER_CODE_SELECTOR = Some w ∧ flat_segment w 0xfa) ∧ (∃ w, descriptor s' USER_DATA_SELECTOR = Some w ∧ flat_segment w 0xf2) ∧
    (∃ w, descriptor s' (task_register s') = Some w ∧ segment_base w = static_tss0 L ∧ segment_limit w = TSS_SIZE - 1 ∧ segment_access w = 0xe9) ∧
    tss_ss0 (tss s') = KERNEL_DATA_SELECTOR ∧ tss_esp0 (tss s') = u32 (tss0_kernel_stack L + 4194304).
Proof.
  intros Hg HL. rewrite (bind_ok _ _ _ _ _ (gdt_init_ok L gdt_address s Hg)). set (s1 := set_task_register _ _).
  destruct (idt_init_ok s1) as (s' & Hr & Hidt & Hidtr & _ & Egdt & Egdtr & Etr & Etss). exists s'. split; [exact Hr|]. clear Hr.
  split; [|split; [exact Hidtr|]].
  - intros v Hv. exists (gate_of v). split; [by apply Hidt|]. unfold gate_of. destruct (Z.eqb_spec v 255) as [->|Hne].
    + split; [|lia]. split; [intros [Ht _]; by rewrite zero_gate_word in Ht|done].
    + assert (0 ≤ (if v =? 135 then DPL_3 else DPL_0) < 4) as Hl by (unfold DPL_3, DPL_0; destruct (v =? 135); lia).
      destruct (gate_word_ok (int_entry v) _ (int_entry_range v) Hl) as (Ho & Hs & Hk & Hlev & Ht). split; [|done].
      unfold may_raise. rewrite Hlev, Ht. change SYSTEM_CALL_TRAP_VECTOR with 135. destruct (Z.eqb_spec v 135) as [->|Hn]; [done|]. split; [intros [_ H]; by vm_compute in H|done].
  - unfold descriptor. rewrite Egdtr, Egdt, Etr, Etss. split; [reflexivity|].
    split; [eexists; split; [reflexivity|by vm_compute]|]. split; [eexists; split; [reflexivity|by vm_compute]|].
    split; [eexists; split; [reflexivity|by vm_compute]|]. split; [eexists; split; [reflexivity|by vm_compute]|].
    split; [|done]. eexists. split; [reflexivity|]. rewrite (u32_small (static_tss0 L)) by done. by apply tss_entry_word.
Qed.
End tables.

(** ** The system calls of the kernel *)
Inductive sysfn :=
  call_open | call_close | call_read | call_write | call_lseek | call_stat | call_fstat | call_exit | call_sleep | call_signal | call_kill
| call_getpid | call_sbrk | call_isatty | call_ioctl | call_getcwd | call_chdir | call_execve | call_uname | call_wait0 | call_getdents | call_gettaskents.

(** [enum SYSCALL_INDEX], in its order *)
Definition SYSCALL_INDEX : list sysfn :=
  [call_open; call_close; call_read; call_write; call_lseek; call_stat; call_fstat; call_exit; call_sleep; call_signal; call_kill;
   call_getpid; call_sbrk; call_isatty; call_ioctl; call_getcwd; call_chdir; call_execve; call_uname; call_wait0; call_getdents; call_gettaskents].

(** the number of parameters behind [cpu] of the functions [call_sys_*] *)
Definition arity (f : sysfn) : Z :=
  match f with
  | call_getpid => 0
  | call_close | call_exit | call_sleep | call_sbrk | call_isatty | call_chdir | call_uname | call_wait0 => 1
  | call_stat | call_fstat | call_signal | call_kill | call_getcwd | call_gettaskents => 2
  | call_open | call_read | call_write | call_lseek | call_execve | call_getdents => 3
  | call_ioctl => 4
  end.

(** the system calls of [task_misc_init] and of the signals: number, number of
    arguments, function *)
Definition task_misc_calls : list (Z * Z * sysfn) :=
  [(7, 1, call_exit); (8, 1, call_sleep); (10, 2, call_kill); (0, 3, call_open); (1, 1, call_close); (2, 3, call_read); (3, 3, call_write); (4, 3, call_lseek);
   (5, 2, call_stat); (6, 2, call_fstat); (11, 0, call_getpid); (12, 1, call_sbrk); (13, 1, call_isatty); (14, 4, call_ioctl); (15, 2, call_getcwd);
   (16, 1, call_chdir); (17, 3, call_execve); (18, 1, call_uname); (19, 1, call_wait0); (20, 3, call_getdents); (21, 2, call_gettaskents)].
Definition task_signal_calls : list (Z * Z * sysfn) := [(9, 2, call_signal)].

Section dispatch.
Context {S : Type} (frames : lens S (gmap Z x86_cpustate)) `{!LensLaws frames} (call : Z → Z → list Z → M S Z).
(** the addresses of the functions *)
Variable address : sysfn → Z.

Fixpoint register_calls (l : list (Z * Z * sysfn)) : M (list syscall_entry) () :=
  match l with [] => mret () | (n, k, f) :: l => register_system_call n k (address f) ;; register_calls l end.

(** the handler of the yield trap, then the calls; the state is that of the
    interrupts and the table of calls *)
Definition CPU_YIELD_TRAP_VECTOR : Z := 0x88.
Definition interrupts_l : lens (istate * list syscall_entry) istate := Lens fst (λ x s, (x, s.2)).
Definition calls_l : lens (istate * list syscall_entry) (list syscall_entry) := Lens snd (λ x s, (s.1, x)).
Definition task_misc_init (cpu_yield_handler : Z) : M (istate * list syscall_entry) () :=
  zoom interrupts_l (register_interrupt_handler CPU_YIELD_TRAP_VECTOR cpu_yield_handler) ;;
  zoom calls_l (register_calls task_misc_calls).

Definition no_calls : list syscall_entry := replicate (Z.to_nat MAX_SYSCALL_NUM) (mk_sys 0 0 0).

(** the table of all calls *)
Definition entry_of (n : Z) : syscall_entry :=
  match SYSCALL_INDEX !! Z.to_nat n with Some f => mk_sys 1 (arity f) (address f) | None => mk_sys 0 0 0 end.

Lemma register_all : ∃ t, register_calls (task_misc_calls ++ task_signal_calls) no_calls = Ok ((), t) ∧ ∀ n, 0 ≤ n < MAX_SYSCALL_NUM → get t n = Some (entry_of n).
Proof.
  eexists. split; [vm_compute; reflexivity|]. intros n Hn. rewrite <-(Z2Nat.id n) by lia.
  assert (Z.to_nat n < 255)%nat as Hi by (unfold MAX_SYSCALL_NUM in Hn; lia). revert Hi. generalize (Z.to_nat n). intros i Hi.
  do 255 (destruct i as [|i]; [reflexivity|]). lia.
Qed.

(** [task_misc_init] gives the yield trap its handler, once only, and registers its calls. *)
Lemma task_misc_init_ok s yield old :
  lenZ (handlers s) = IDT_SIZE → get (handlers s) CPU_YIELD_TRAP_VECTOR = Some old →
  if ctrue old then task_misc_init yield (s, no_calls) = Err AssertFail else
  ∃ hs t, task_misc_init yield (s, no_calls) = Ok ((), (set_handlers hs s, t)) ∧ register_calls task_misc_calls no_calls = Ok ((), t) ∧
    ∀ j, get hs j = if decide (j = CPU_YIELD_TRAP_VECTOR) then Some yield else get (handlers s) j.
Proof.
  intros Hl Hold. pose proof (register_handler_ok s CPU_YIELD_TRAP_VECTOR yield old Hl) as H.
  unfold task_misc_init. destruct (ctrue old).
  - apply bind_err. unfold zoom. cbn [lget interrupts_l fst]. rewrite H by done. done.
  - destruct H as (hs & Hr & _ & Hg); [done|done|]. assert (∃ t, register_calls task_misc_calls no_calls = Ok ((), t)) as [t Ht] by (eexists; vm_compute; reflexivity).
    exists hs, t. split; [|by split].
    rewrite (bind_ok _ _ _ _ _ (zoom_ok interrupts_l _ (s, no_calls) _ _ Hr)). exact (zoom_ok calls_l _ (set_handlers hs s, no_calls) _ _ Ht).
Qed.

(** C23. System calls reach their functions.  With the registrations of the kernel
    the handler of vector 0x87 calls, for a number of [enum SYSCALL_INDEX] in
    EAX, exactly the function of that name with as many of EBX, ECX, EDX, ESI,
    EDI as it has parameters, and the frame it returns to holds the result in
    EAX and is otherwise as the function left it.  Every other number calls
    nothing, changes nothing but EAX and returns [-ERR_GENERIC]. *)
Theorem system_calls_dispatch cpu f s :
  lget frames s !! cpu = Some f →
  ∃ t, register_calls (task_misc_calls ++ task_signal_calls) no_calls = Ok ((), t) ∧
    let n := i32 (SYSCALL_NUM f) in
    let run ret s' := (zoom frames (update cpu (set_SYSCALL_RETURN (u32 ret))) ;; mret cpu) s' in
    match SYSCALL_INDEX !! Z.to_nat n with
    | Some fn => 0 ≤ n → system_call_handler frames call t cpu s = (ret ← call (address fn) cpu (take (Z.to_nat (arity fn)) (SYSCALL_ARGS f)); run ret) s
    | None => system_call_handler frames call t cpu s = Ok (cpu, lset frames (<[cpu := set_SYSCALL_RETURN (u32 (- ERR_GENERIC)) f]> (lget frames s)) s)
    end ∧
    (n < 0 → system_call_handler frames call t cpu s = Ok (cpu, lset frames (<[cpu := set_SYSCALL_RETURN (u32 (- ERR_GENERIC)) f]> (lget frames s)) s)).
Proof.
  intros Hf. destruct register_all as (t & Ht & Hget). exists t. split; [exact Ht|]. cbv zeta. set (n := i32 (SYSCALL_NUM f)).
  assert (zoom frames (load cpu) s = Ok (f, s)) as Hl.
  { rewrite (zoom_ok frames _ s _ _ (load_ok _ _ _ Hf)). by rewrite lset_lget. }
  assert (∀ ret, (zoom frames (update cpu (set_SYSCALL_RETURN (u32 ret))) ;; mret cpu) s = Ok (cpu, lset frames (<[cpu := set_SYSCALL_RETURN (u32 ret) f]> (lget frames s)) s)) as Hw.
  { intros ret. by rewrite (bind_ok _ _ _ _ _ (zoom_ok frames _ s _ _ (update_ok _ _ _ _ Hf))). }
  unfold system_call_handler. split.
  - destruct (SYSCALL_INDEX !! Z.to_nat n) as [fn|] eqn:Efn.
    + intros Hn. rewrite (bind_ok _ _ _ _ _ Hl). fold n. assert (n < 22) as Hlt by (apply lookup_lt_Some in Efn; change (length SYSCALL_INDEX) with 22%nat in Efn; lia).
      rewrite (proj2 (Z.ltb_ge n 0)), (proj2 (Z.leb_gt MAX_SYSCALL_NUM n)) by (unfold MAX_SYSCALL_NUM; lia). cbn [orb].
      rewrite bind_assoc_run, (bind_ok _ _ _ _ _ (deref_ok _ _ _ (Hget n ltac:(unfold MAX_SYSCALL_NUM; lia)))). unfold entry_of. rewrite Efn. cbn [sys_valid nr_args sys_call].
      change (ctrue 1) with true. cbn [negb]. by replace ((0 <=? arity fn) && (arity fn <=? 5)) with true by (by destruct fn).
    + rewrite (bind_ok _ _ _ _ _ Hl). fold n. destruct ((n <? 0) || (MAX_SYSCALL_NUM <=? n)) eqn:Er; [mstep; apply Hw|].
      rewrite bind_assoc_run, (bind_ok _ _ _ _ _ (deref_ok _ _ _ (Hget n ltac:(lia)))). unfold entry_of. rewrite Efn. cbn [sys_valid]. change (ctrue 0) with false. cbn [negb].
      mstep. apply Hw.
  - intros Hn. rewrite (bind_ok _ _ _ _ _ Hl). fold n. rewrite (proj2 (Z.ltb_lt n 0)) by done. cbn [orb]. mstep. apply Hw.
Qed.
End dispatch.

(** ** Examples *)
Module InterruptExample.
Definition state0 : istate := mk_istate GDT (0, 0) 0 (mk_tss 0 0 0 0 0 0 0 0 0 0 0) [] (0, 0) [] [] ∅ [].
Definition place0 : tss_place := mk_tss_place 0x120000 0x121000 0x130000 0x110000.

Lemma user_raises_system_call_only_witness :
  ∃ s' g, (gdt_init place0 0x10000 ;; idt_init (λ v, 0x100000 + 16 * (v `mod` 256)) 0x111000 0x11000) state0 = Ok ((), s') ∧
    get (idt s') 0x20 = Some g ∧ ¬ may_raise DPL_3 (gate_word g).
Proof.
  destruct (user_raises_system_call_only (λ v, 0x100000 + 16 * (v `mod` 256)) 0x111000 0x11000) with (L := place0) (gdt_address := 0x10000) (s := state0)
    as (s' & Hr & Hg & _).
  - intros v. pose proof (Z.mod_pos_bound v 256). lia.
  - reflexivity.
  - cbn. lia.
  - destruct (Hg 0x20) as (g & Hget & Hiff & _); [unfold IDT_SIZE; lia|]. exists s', g. split; [exact Hr|]. split; [exact Hget|]. intros H. by apply Hiff in H.
Defined.

Definition frame0 : x86_cpustate := mk_cpu 0 0 0 4 0 0 1 0 0 0 0 0x87 0 0 0 0 0 0.
Definition map_lens : lens (gmap Z x86_cpustate) (gmap Z x86_cpustate) := Lens id (λ x _, x).
#[local] Instance map_lens_laws : LensLaws map_lens.
Proof. by split. Qed.

Lemma system_calls_dispatch_witness :
  ∃ t, register_calls (λ _, 0x1000) (task_misc_calls ++ task_signal_calls) no_calls = Ok ((), t) ∧
    system_call_handler map_lens (λ _ _ args, mret (lenZ args)) t 0x8000 {[0x8000 := frame0]} =
      Ok (0x8000, <[0x8000 := set_SYSCALL_RETURN 1 frame0]> {[0x8000 := frame0]}).
Proof.
  destruct (system_calls_dispatch map_lens (λ _ _ args, mret (lenZ args)) (λ _, 0x1000) 0x8000 frame0 {[0x8000 := frame0]}) as (t & Ht & H & _).
  { apply lookup_singleton_eq. }
  exists t. split; [exact Ht|]. cbv zeta in H. change (SYSCALL_INDEX !! Z.to_nat (i32 (SYSCALL_NUM frame0))) with (Some call_close) in H. cbv iota in H.
  rewrite H by done. reflexivity.
Defined.
End InterruptExample.
