(* ===== verification/Keyboard.v ===== *)
(** * The keyboard: device/keyboard.c and the shortcuts of pseudo_terminal.c

    The driver turns scan codes of set 1 into a state of the modifier keys,
    shortcuts and characters, which go to the input ring of the current terminal
    (Terminal).  The values that port 0x60 reads are an argument.  Handlers of
    shortcuts are function pointers: the ones the kernel registers are the
    constructors of [handler]. *)

From Stdlib Require Import ZifyNat.
From stdpp Require Import gmap list strings.
From S2P Require Import Prelude Ring CString Printk PageAlloc Paging Vma TaskPaging Task Terminal Interrupt.
Open Scope Z_scope.
Open Scope zelda_scope.

Definition KEYBOARD_INTERRUPT_VECTOR : Z := 0x20 + 1.
Definition KEY_SPACE_SIZE : Z := 256.
Definition MAX_SHORTCUT_SIZE : Z := 256.
Definition KEY_STATE_PRESSED : Z := 0x1.
Definition KEY_STATE_CONTROLL_PRESSED : Z := 0x2.
Definition KEY_STATE_SHIFT_PRESSED : Z := 0x4.
Definition KEY_STATE_ALT_PRESSED : Z := 0x8.
Definition KEY_STATE_CAPS_LOCKED : Z := 0x10.
Definition SCANCODE_CONTROL : Z := 0x1d.
Definition SCANCODE_LSHIFT : Z := 0x2a.
Definition SCANCODE_RSHIFT : Z := 0x36.
Definition SCANCODE_ALT : Z := 0x38.
Definition SCANCODE_CAPS : Z := 0x3a.
Definition SCANCODE_C : Z := 0x2e.
Definition SCANCODE_BACKSPACE : Z := 0x0e.
Definition SCANCODE_F1 : Z := 0x3b.
Definition SCANCODE_F2 : Z := SCANCODE_F1 + 1.

Inductive handler := CTRL_ALT_DELETE | SWITCH_TO_DEFAULT_CONSOLE | SWITCH_TO_PSEUDO_TERMINAL | INTERRUPT_PSEUDO_TERMINAL.

(** [struct keyboard_shortcut_entry]; no handler is a NULL pointer *)
Record keyboard_shortcut_entry := mk_shortcut { sc_scancode : Z; sc_keystate : Z; sc_handler : option handler; sc_arg : Z }.
Definition zero_shortcut : keyboard_shortcut_entry := mk_shortcut 0 0 None 0.

Record kbd := mk_kbd {
  key_state : Z;
  keycode : list Z;
  keyshift : list Z;
  shortcut_entries : list keyboard_shortcut_entry;
  shortcut_entry_ptr : Z }.
Definition set_key_state (x : Z) (k : kbd) : kbd := mk_kbd x (keycode k) (keyshift k) (shortcut_entries k) (shortcut_entry_ptr k).
Definition set_keycode (x : list Z) (k : kbd) : kbd := mk_kbd (key_state k) x (keyshift k) (shortcut_entries k) (shortcut_entry_ptr k).
Definition set_keyshift (x : list Z) (k : kbd) : kbd := mk_kbd (key_state k) (keycode k) x (shortcut_entries k) (shortcut_entry_ptr k).
Definition set_shortcuts (x : list keyboard_shortcut_entry) (n : Z) (k : kbd) : kbd := mk_kbd (key_state k) (keycode k) (keyshift k) x n.

(** [key_state |= m] and [key_state &= ~m] on the 8-bit state *)
Definition set_flag (m ks : Z) : Z := Z.lor ks m.
Definition clear_flag (m ks : Z) : Z := u8 (Z.land ks (Z.lnot m)).
Definition has (m ks : Z) : bool := ctrue (Z.land ks m).

Definition discard_pressed_bit (scancode : Z) : Z := Z.land scancode 0x7f.

(** the new [key_state] *)
Definition process_scancode (scancode ks : Z) : Z :=
  let ks := if ctrue (Z.land scancode 0x80) then clear_flag KEY_STATE_PRESSED ks else set_flag KEY_STATE_PRESSED ks in
  let scancode := discard_pressed_bit scancode in
  if has KEY_STATE_PRESSED ks then
    if scancode =? SCANCODE_CONTROL then set_flag KEY_STATE_CONTROLL_PRESSED ks
    else if (scancode =? SCANCODE_LSHIFT) || (scancode =? SCANCODE_RSHIFT) then set_flag KEY_STATE_SHIFT_PRESSED ks
    else if scancode =? SCANCODE_ALT then set_flag KEY_STATE_ALT_PRESSED ks
    else if scancode =? SCANCODE_CAPS then
      (if has KEY_STATE_CAPS_LOCKED ks then clear_flag KEY_STATE_CAPS_LOCKED ks else set_flag KEY_STATE_CAPS_LOCKED ks)
    else ks
  else
    if scancode =? SCANCODE_CONTROL then clear_flag KEY_STATE_CONTROLL_PRESSED ks
    else if (scancode =? SCANCODE_LSHIFT) || (scancode =? SCANCODE_RSHIFT) then clear_flag KEY_STATE_SHIFT_PRESSED ks
    else if scancode =? SCANCODE_ALT then clear_flag KEY_STATE_ALT_PRESSED ks
    else ks.

Definition to_ascii (scancode keystate : Z) : M kbd Z :=
  k ← gets id;
  __ascii_code ← deref (array_get (keycode k) scancode);
  if __ascii_code =? 0xff then mret __ascii_code else
  if (97 <=? __ascii_code) && (__ascii_code <=? 122) && (has KEY_STATE_CAPS_LOCKED keystate || has KEY_STATE_SHIFT_PRESSED keystate) then
    mret (u8 (__ascii_code + (65 - 97)))
  else if has KEY_STATE_SHIFT_PRESSED keystate then
    s ← deref (array_get (keyshift k) __ascii_code);
    if negb (s =? 0xff) then mret s else mret __ascii_code
  else mret __ascii_code.

(** the index of the shortcut, the number of entries if there is none *)
Fixpoint find_shortcut (es : list keyboard_shortcut_entry) (n : nat) (idx scancode keystate : Z) : Z :=
  match n, es with
  | S n, e :: es => if (sc_scancode e =? scancode) && (sc_keystate e =? keystate) then idx else find_shortcut es n (idx + 1) scancode keystate
  | _, _ => idx
  end.
Definition search_shortcut (k : kbd) (scancode keystate : Z) : Z :=
  find_shortcut (shortcut_entries k) (Z.to_nat (shortcut_entry_ptr k)) 0 scancode keystate.

Definition register_shortcut_entry (scancode keystate : Z) (h : option handler) (arg : Z) : M kbd Z :=
  let keystate := Z.lor keystate KEY_STATE_PRESSED in
  k ← gets id;
  let idx := search_shortcut k scancode keystate in
  if idx <? shortcut_entry_ptr k then
    e ← deref (get (shortcut_entries k) idx);
    es ← deref (put (shortcut_entries k) idx (mk_shortcut (sc_scancode e) (sc_keystate e) h arg));
    modify (set_shortcuts es (shortcut_entry_ptr k)) ;;
    mret OK
  else if shortcut_entry_ptr k =? MAX_SHORTCUT_SIZE then mret (- ERR_OUT_OF_RESOURCE) else
  es ← deref (put (shortcut_entries k) (shortcut_entry_ptr k) (mk_shortcut scancode keystate h arg));
  modify (set_shortcuts es (shortcut_entry_ptr k + 1)) ;;
  mret OK.

(** [keycode[i] = c] and [keyshift[i] = c] for the pairs of a list *)
Fixpoint assign (l : list Z) (ps : list (Z * Z)) : option (list Z) :=
  match ps with [] => Some l | (i, c) :: ps => l ← array_set l i c; assign l ps end.

Definition keycodes : list (Z * Z) :=
  [(0x02, 49); (0x03, 50); (0x04, 51); (0x05, 52); (0x06, 53); (0x07, 54); (0x08, 55); (0x09, 56); (0x0a, 57); (0x0b, 48); (0x0c, 45); (0x0d, 61);
   (0x10, 113); (0x11, 119); (0x12, 101); (0x13, 114); (0x14, 116); (0x15, 121); (0x16, 117); (0x17, 105); (0x18, 111); (0x19, 112); (0x1a, 91); (0x1b, 93); (0x1c, 10);
   (0x1e, 97); (0x1f, 115); (0x20, 100); (0x21, 102); (0x22, 103); (0x23, 104); (0x24, 106); (0x25, 107); (0x26, 108); (0x27, 59); (0x28, 39); (0x29, 96);
   (0x2b, 92); (0x2c, 122); (0x2d, 120); (0x2e, 99); (0x2f, 118); (0x30, 98); (0x31, 110); (0x32, 109); (0x33, 44); (0x34, 46); (0x35, 47); (0x39, 32)].
Definition keyshifts : list (Z * Z) :=
  [(96, 126); (49, 33); (50, 64); (51, 35); (52, 36); (53, 37); (54, 94); (55, 38); (56, 42); (57, 40); (48, 41); (45, 95); (61, 43); (91, 123); (93, 125);
   (92, 124); (59, 58); (39, 34); (44, 60); (46, 62); (47, 63)].

(** ** With the terminals and the interrupts *)
Record kstate := mk_kstate { kb : kbd; ints : istate; term : tstate }.
Definition kb_l : lens kstate kbd := Lens kb (λ x s, mk_kstate x (ints s) (term s)).
Definition ints_l : lens kstate istate := Lens ints (λ x s, mk_kstate (kb s) x (term s)).
Definition term_l : lens kstate tstate := Lens term (λ x s, mk_kstate (kb s) (ints s) x).

(** [handler_address] is where [keyboard_interrupt_handler] lies *)
Definition keyboard_init (handler_address : Z) : M kstate () :=
  zoom kb_l (
    modify (set_keycode (replicate (Z.to_nat KEY_SPACE_SIZE) 0xff)) ;;
    modify (set_keyshift (replicate (Z.to_nat KEY_SPACE_SIZE) 0xff)) ;;
    modify (λ k, set_shortcuts (replicate (Z.to_nat MAX_SHORTCUT_SIZE) zero_shortcut) (shortcut_entry_ptr k) k) ;;
    register_shortcut_entry SCANCODE_BACKSPACE (Z.lor KEY_STATE_CONTROLL_PRESSED KEY_STATE_ALT_PRESSED) (Some CTRL_ALT_DELETE) NULL ;;
    k ← gets id;
    c ← deref (assign (keycode k) keycodes);
    modify (set_keycode c) ;;
    c ← deref (assign (keyshift k) keyshifts);
    modify (set_keyshift c)) ;;
  zoom ints_l (register_interrupt_handler KEYBOARD_INTERRUPT_VECTOR handler_address).

Section driver.
Variable inb : Z → list (Z * Z) → Z.
Variable ptties : Z.

(** [CTRL_ALT_DELETE] only prints *)
Definition run_handler (h : handler) (arg : Z) : M tstate () :=
  match h with
  | CTRL_ALT_DELETE => mret ()
  | SWITCH_TO_DEFAULT_CONSOLE => switch_to_default_console
  | SWITCH_TO_PSEUDO_TERMINAL => switch_to_pseudo_terminal inb ptties arg
  | INTERRUPT_PSEUDO_TERMINAL => interrupt_pseudo_terminal
  end.

Definition hook_scancode (scancode keystate : Z) : M kstate Z :=
  k ← gets kb;
  let idx := search_shortcut k scancode keystate in
  if idx <? shortcut_entry_ptr k then
    e ← deref (get (shortcut_entries k) idx);
    match sc_handler e with
    | Some h => zoom term_l (run_handler h (sc_arg e)) ;; mret 1
    | None => mret 0
    end
  else mret 0.

(** the first code that is not 0 of those the port reads *)
Fixpoint retrieve_scancode (reads : list Z) : M kstate Z :=
  match reads with
  | [] => fail Diverge
  | code :: reads => if ctrue code then mret code else retrieve_scancode reads
  end.

Definition keyboard_interrupt_handler (reads : list Z) (parg : Z) : M kstate Z :=
  scancode ← retrieve_scancode reads;
  zoom kb_l (modify (λ k, set_key_state (process_scancode scancode (key_state k)) k)) ;;
  let scancode := discard_pressed_bit scancode in
  ks ← gets (λ s, key_state (kb s));
  handled ← hook_scancode scancode ks;
  ks ← gets (λ s, key_state (kb s));
  asciicode ← zoom kb_l (to_ascii scancode ks);
  c ← gets (λ s, current_ptty (term s));
  when (has KEY_STATE_PRESSED ks && negb (asciicode =? 0xff) && negb (ctrue handled)) (
    when (ctrue c) (
      zoom term_l (on_ptm c (zoom ring_l (ring_enqueue asciicode)) ;;
        p ← on_ptm c (gets id);
        zoom tkernel_l (wake_up (in_wq_head p))))) ;;
  mret parg.

(** the shortcuts of [ptty_post_init] *)
Fixpoint register_terminal_shortcuts (n : nat) (idx : Z) : M kbd () :=
  match n with
  | O => mret ()
  | S n =>
      r ← register_shortcut_entry (SCANCODE_F2 + idx) KEY_STATE_ALT_PRESSED (Some SWITCH_TO_PSEUDO_TERMINAL) idx;
      ASSERT (r =? OK) ;;
      register_terminal_shortcuts n (idx + 1)
  end.
Definition register_shortcuts : M kbd () :=
  r ← register_shortcut_entry SCANCODE_F1 KEY_STATE_ALT_PRESSED (Some SWITCH_TO_DEFAULT_CONSOLE) NULL;
  ASSERT (r =? OK) ;;
  register_terminal_shortcuts (Z.to_nat MAX_TERMINALS) 0 ;;
  r ← register_shortcut_entry SCANCODE_C KEY_STATE_CONTROLL_PRESSED (Some INTERRUPT_PSEUDO_TERMINAL) NULL;
  ASSERT (r =? OK).
End driver.

(** ** The layout *)

(** the keys of a US keyboard by rows: the code of the first key, the characters
    without and with shift *)
Definition us_rows : list (Z * list Z * list Z) :=
  [(0x02, literal "1234567890-=", literal "!@#$%^&*()_+");
   (0x10, literal "qwertyuiop[]", literal "QWERTYUIOP{}");
   (0x1c, [10; 0], [10; 0]);
   (0x1e, literal "asdfghjkl;'`", take 10 (literal "ASDFGHJKL:") ++ [34; 126; 0]);
   (0x2b, literal "\zxcvbnm,./", literal "|ZXCVBNM<>?");
   (0x39, literal " ", literal " ")].

Definition key_of_row (scancode : Z) (row : Z * list Z * list Z) : option (Z * Z) :=
  let '(first, plain, shifted) := row in
  c ← array_get plain (scancode - first); d ← array_get shifted (scancode - first);
  if c =? 0 then None else Some (c, d).
Definition key_of (scancode : Z) : option (Z * Z) := head (omap (key_of_row scancode) us_rows).

Definition letter (c : Z) : bool := (97 <=? c) && (c <=? 122).

(** the character of a key on a US keyboard: caps lock turns the meaning of shift round for letters *)
Definition layout (scancode : Z) (shift caps : bool) : option Z :=
  '(c, d) ← key_of scancode;
  Some (if xorb shift (caps && letter c) then d else c).

(** what the driver makes of a key: shift under caps lock gives capitals too *)
Definition driver_layout (scancode : Z) (shift caps : bool) : option Z :=
  '(c, d) ← key_of scancode;
  Some (if shift || (caps && letter c) then d else c).

(** the key of a letter, with shift and caps lock both on *)
Definition capital_clash (scancode : Z) (shift caps : bool) : bool :=
  match key_of scancode with Some (c, _) => letter c && shift && caps | None => false end.

Lemma driver_layout_us scancode shift caps :
  capital_clash scancode shift caps = false → driver_layout scancode shift caps = layout scancode shift caps.
Proof.
  unfold capital_clash, driver_layout, layout. destruct (key_of scancode) as [[c d]|]; [|done]. rewrite !obind.
  by destruct (letter c), shift, caps.
Qed.

(** ** The modifiers *)
Record mods := mk_mods { m_down : bool; m_ctrl : bool; m_shift : bool; m_alt : bool; m_caps : bool }.

(** a code below 128 is a key going down, the others are keys going up *)
Definition mods_step (m : mods) (code : Z) : mods :=
  let down := code <? 128 in
  let key := code `mod` 128 in
  mk_mods down
    (if key =? SCANCODE_CONTROL then down else m_ctrl m)
    (if (key =? SCANCODE_LSHIFT) || (key =? SCANCODE_RSHIFT) then down else m_shift m)
    (if key =? SCANCODE_ALT then down else m_alt m)
    (if down && (key =? SCANCODE_CAPS) then negb (m_caps m) else m_caps m).

Definition encode (m : mods) : Z :=
  Z.b2z (m_down m) + 2 * Z.b2z (m_ctrl m) + 4 * Z.b2z (m_shift m) + 8 * Z.b2z (m_alt m) + 16 * Z.b2z (m_caps m).

Definition all_codes : list Z := seqZ 0 256.
Definition all_mods : list mods :=
  d ← [true; false]; c ← [true; false]; s ← [true; false]; a ← [true; false]; l ← [true; false]; [mk_mods d c s a l].

Lemma all_codes_in code : 0 ≤ code < 256 → code ∈ all_codes.
Proof. intros H. apply elem_of_seqZ. lia. Qed.
Lemma all_mods_in m : m ∈ all_mods.
Proof. destruct m as [[] [] [] [] []]; cbn; set_solver. Qed.

(** a statement about all codes and all modifiers is checked by computation *)
Lemma by_all (f : Z → mods → bool) :
  forallb (λ code, forallb (f code) all_mods) all_codes = true → ∀ code m, 0 ≤ code < 256 → f code m = true.
Proof.
  intros H code m Hc. rewrite forallb_forall in H. specialize (H code ltac:(apply list_elem_of_In, all_codes_in; done)).
  rewrite forallb_forall in H. apply H. apply list_elem_of_In, all_mods_in.
Qed.

Lemma process_scancode_mods code m : 0 ≤ code < 256 → process_scancode code (encode m) = encode (mods_step m code).
Proof.
  intros Hc. apply Z.eqb_eq. revert code m Hc. apply (by_all (λ code m, process_scancode code (encode m) =? encode (mods_step m code))).
  vm_compute. reflexivity.
Qed.

(** the tables as [keyboard_init] leaves them *)
Definition tables_ok (k : kbd) : Prop :=
  assign (replicate (Z.to_nat KEY_SPACE_SIZE) 0xff) keycodes = Some (keycode k) ∧ assign (replicate (Z.to_nat KEY_SPACE_SIZE) 0xff) keyshifts = Some (keyshift k).

Definition code_tables : kbd :=
  mk_kbd 0 (default [] (assign (replicate (Z.to_nat KEY_SPACE_SIZE) 0xff) keycodes)) (default [] (assign (replicate (Z.to_nat KEY_SPACE_SIZE) 0xff) keyshifts)) [] 0.

(** [to_ascii] looks at nothing but the tables *)
Lemma to_ascii_tables k k' sc ks :
  keycode k = keycode k' → keyshift k = keyshift k' →
  to_ascii sc ks k = match to_ascii sc ks k' with Ok (a, _) => Ok (a, k) | Err f => Err f end.
Proof.
  intros E1 E2. unfold to_ascii, mbind, M_bind, gets. cbn [id]. rewrite E1, E2.
  destruct (array_get (keycode k') sc) as [c|]; [|reflexivity]. unfold deref, mret, M_ret. destruct (c =? 0xff); [reflexivity|].
  destruct ((97 <=? c) && (c <=? 122) && _); [reflexivity|]. destruct (has KEY_STATE_SHIFT_PRESSED ks); [|reflexivity].
  destruct (array_get (keyshift k') c) as [d|]; [|reflexivity]. by destruct (negb (d =? 0xff)).
Qed.

Lemma to_ascii_layout k code m :
  tables_ok k → 0 ≤ code < 256 →
  to_ascii (discard_pressed_bit code) (encode m) k = Ok (default 0xff (driver_layout (code `mod` 128) (m_shift m) (m_caps m)), k).
Proof.
  intros [Hc Hs] Hcode. rewrite (to_ascii_tables k code_tables); [|unfold code_tables; by rewrite ?Hc, ?Hs..].
  assert (match to_ascii (discard_pressed_bit code) (encode m) code_tables with Ok (a, _) => a =? default 0xff (driver_layout (code `mod` 128) (m_shift m) (m_caps m)) | Err _ => false end = true) as H.
  { revert code m Hcode. apply (by_all (λ code m, match to_ascii (discard_pressed_bit code) (encode m) code_tables with
      Ok (a, _) => a =? default 0xff (driver_layout (code `mod` 128) (m_shift m) (m_caps m)) | Err _ => false end)). vm_compute. reflexivity. }
  destruct (to_ascii _ _ code_tables) as [[a k']|]; [|discriminate H]. apply Z.eqb_eq in H. by rewrite H.
Qed.

(** ** Typing *)
Definition typed (m : mods) (code : Z) : option Z := if m_down m then driver_layout (code `mod` 128) (m_shift m) (m_caps m) else None.
(** the characters that a sequence of codes types *)
Fixpoint typed_text (m : mods) (codes : list Z) : list Z :=
  match codes with
  | [] => []
  | code :: codes => let m := mods_step m code in match typed m code with Some c => c :: typed_text m codes | None => typed_text m codes end
  end.

(** the characters of a US keyboard for the same codes *)
Fixpoint us_text (m : mods) (codes : list Z) : list Z :=
  match codes with
  | [] => []
  | code :: codes =>
      let m := mods_step m code in
      match (if m_down m then layout (code `mod` 128) (m_shift m) (m_caps m) else None) with Some c => c :: us_text m codes | None => us_text m codes end
  end.

(** no letter is typed with shift while caps lock is on *)
Fixpoint no_clash (m : mods) (codes : list Z) : bool :=
  match codes with
  | [] => true
  | code :: codes => let m := mods_step m code in negb (m_down m && capital_clash (code `mod` 128) (m_shift m) (m_caps m)) && no_clash m codes
  end.

Lemma typed_text_us codes m : no_clash m codes = true → typed_text m codes = us_text m codes.
Proof.
  revert m. induction codes as [|code codes IH]; intros m; [done|]. cbn [no_clash typed_text us_text]. set (m1 := mods_step m code).
  intros [H1 H2]%andb_prop. rewrite (IH m1 H2). unfold typed. destruct (m_down m1); [|done]. cbn [andb] in H1.
  by rewrite driver_layout_us by (by apply negb_true_iff).
Qed.

(** the driver: the tables are set, the modifiers are [m], and all shortcuts need CONTROL or ALT *)
Record kb_ok (k : kbd) (m : mods) : Prop := {
  ko_tables : tables_ok k;
  ko_state : key_state k = encode m;
  ko_ptr : 0 ≤ shortcut_entry_ptr k ≤ lenZ (shortcut_entries k);
  ko_shortcuts : Forall (λ e, has (Z.lor KEY_STATE_CONTROLL_PRESSED KEY_STATE_ALT_PRESSED) (sc_keystate e) = true) (take (Z.to_nat (shortcut_entry_ptr k)) (shortcut_entries k)) }.

(** a code of a key other than CONTROL and ALT *)
Definition plain_code (code : Z) : Prop := 0 < code < 256 ∧ code `mod` 128 ≠ SCANCODE_CONTROL ∧ code `mod` 128 ≠ SCANCODE_ALT.

Lemma find_none es n idx sc ks :
  (n ≤ length es)%nat → Forall (λ e, has (Z.lor KEY_STATE_CONTROLL_PRESSED KEY_STATE_ALT_PRESSED) (sc_keystate e) = true) (take n es) →
  has (Z.lor KEY_STATE_CONTROLL_PRESSED KEY_STATE_ALT_PRESSED) ks = false → find_shortcut es n idx sc ks = idx + Z.of_nat n.
Proof.
  revert n idx. induction es as [|e es IH]; intros [|n] idx Hn HF Hks; cbn in *; try lia. apply Forall_cons_1 in HF as [He HF].
  rewrite (proj2 (Z.eqb_neq (sc_keystate e) ks)), andb_false_r by (intros E; rewrite E in He; congruence). rewrite IH by (done || lia). lia.
Qed.

Lemma layout_char code m c : 0 ≤ code < 256 → driver_layout (code `mod` 128) (m_shift m) (m_caps m) = Some c → c ≠ 0xff.
Proof.
  intros Hcode Hc. assert (match driver_layout (code `mod` 128) (m_shift m) (m_caps m) with Some c => negb (c =? 0xff) | None => true end = true) as H.
  { revert code m Hcode Hc. intros code m Hcode _. revert code m Hcode.
    apply (by_all (λ code m, match driver_layout (code `mod` 128) (m_shift m) (m_caps m) with Some c => negb (c =? 0xff) | None => true end)). vm_compute. reflexivity. }
  rewrite Hc in H. by apply negb_true_iff, Z.eqb_neq in H.
Qed.

Lemma enqueue_char r c :
  ring_wf r → ∃ k r', ring_enqueue c r = Ok (k, r') ∧ ring_wf r' ∧ ring_size r' = ring_size r ∧
    contents r' = take (Z.to_nat (ring_size r - 1)) (contents r ++ [c]).
Proof.
  intros Hwf. unfold ring_enqueue, write_ring. destruct (write_loop_ok [c] (Z.to_nat 1) 0 r) as (r' & Hr & Hwf' & Hsz & Hc); [done|done|cbn; lia|].
  eexists _, r'. split; [exact Hr|]. split; [done|]. split; [done|]. rewrite Hc. pose proof (contents_length r Hwf) as Hl. pose proof (ring_len_bound r Hwf) as Hb.
  unfold ring_room. change (Z.of_nat (Z.to_nat 1)) with 1. rewrite take_app. f_equal.
  - rewrite take_ge; [done|lia].
  - change (Z.to_nat 0) with 0%nat. rewrite drop_0. destruct (decide (ring_size r - 1 - ring_len r = 0)) as [E|E]; [f_equal; lia|].
    rewrite !take_ge by (cbn [length]; lia). done.
Qed.

Section typing.
Variable inb : Z → list (Z * Z) → Z.
Variable ptties : Z.

Fixpoint type_codes (codes : list Z) : M kstate () :=
  match codes with [] => mret () | code :: codes => keyboard_interrupt_handler inb ptties [code] 0 ;; type_codes codes end.

(** the state after keys: the modifiers, the ring of the current terminal, the tasks *)
Definition after_keys (s : kstate) (m : mods) (p : ptm) (r : Ring.ring) (K : kst) : kstate :=
  let t := term s in
  mk_kstate (set_key_state (encode m) (kb s)) (ints s) (mk_tstate (<[current_ptty t := set_in_ring r p]> (ptms t)) (current_ptty t) (tconsole t) (Terminal.ports t) K).

Lemma no_flags m : m_ctrl m = false → m_alt m = false → has (Z.lor KEY_STATE_CONTROLL_PRESSED KEY_STATE_ALT_PRESSED) (encode m) = false.
Proof. destruct m as [[] [] [] [] []]; cbn; done. Qed.

Lemma pressed_flag m : has KEY_STATE_PRESSED (encode m) = m_down m.
Proof. by destruct m as [[] [] [] [] []]. Qed.

(** one key: a character goes to the ring and wakes the waiting tasks *)
Lemma handler_ok s m p code parg :
  kb_ok (kb s) m → m_ctrl m = false → m_alt m = false → plain_code code →
  current_ptty (term s) ≠ NULL → ptms (term s) !! current_ptty (term s) = Some p → ring_wf (in_ring p) → waiting (tkernel (term s)) (in_wq_head p) →
  let m' := mods_step m code in
  ∃ r K, keyboard_interrupt_handler inb ptties [code] parg s = Ok (parg, after_keys s m' p r K) ∧ ring_wf r ∧ ring_size r = ring_size (in_ring p) ∧
    match typed m' code with
    | Some c => contents r = take (Z.to_nat (ring_size r - 1)) (contents (in_ring p) ++ [c]) ∧ woken (waiters (tkernel (term s)) (in_wq_head p)) (tkernel (term s)) K ∧
        ∀ a, a ∈ waiters (tkernel (term s)) (in_wq_head p) → tasks K !! a = roused <$> tasks (tkernel (term s)) !! a
    | None => r = in_ring p ∧ K = tkernel (term s)
    end.
Proof.
  intros Hk Hctrl Halt ([Hc0 Hc256] & Hnc & Hna) Hcur Hp Hwf Hwait. cbv zeta. set (m' := mods_step m code).
  assert (m_ctrl m' = false ∧ m_alt m' = false) as [Hctrl' Halt'].
  { cbn. rewrite (proj2 (Z.eqb_neq _ _) Hnc), (proj2 (Z.eqb_neq _ _) Hna). done. }
  unfold keyboard_interrupt_handler. rewrite (bind_ok _ _ _ code s) by (cbn; by rewrite (proj2 (ctrue_true code)) by lia).
  set (k1 := set_key_state (encode m') (kb s)). set (s1 := lset kb_l k1 s). rewrite (bind_ok _ _ _ () s1).
  2:{ unfold zoom, modify. cbn [lget kb_l]. by rewrite (ko_state _ _ Hk), process_scancode_mods by lia. }
  cbv zeta. mstep. change (key_state (kb s1)) with (encode m').
  assert (hook_scancode inb ptties (discard_pressed_bit code) (encode m') s1 = Ok (0, s1)) as Hh.
  { unfold hook_scancode. mstep. change (kb s1) with k1. unfold search_shortcut. destruct Hk as [_ _ Hptr Hsc].
    rewrite find_none; [|cbn; lia|exact Hsc|by apply no_flags]. cbn [shortcut_entry_ptr set_key_state k1]. by rewrite (proj2 (Z.ltb_ge _ _)) by lia. }
  rewrite (bind_ok _ _ _ _ _ Hh). mstep. change (key_state (kb s1)) with (encode m').
  assert (zoom kb_l (to_ascii (discard_pressed_bit code) (encode m')) s1 = Ok (default 0xff (driver_layout (code `mod` 128) (m_shift m') (m_caps m')), s1)) as Ha.
  { unfold zoom. change (lget kb_l s1) with k1. rewrite to_ascii_layout; [reflexivity|exact (ko_tables _ _ Hk)|lia]. }
  rewrite (bind_ok _ _ _ _ _ Ha). mstep. change (current_ptty (term s1)) with (current_ptty (term s)). rewrite pressed_flag. unfold typed.
  assert (∀ K, K = tkernel (term s) → after_keys s m' p (in_ring p) K = s1) as Hsame.
  { intros K ->. unfold after_keys, s1, k1. replace (set_in_ring (in_ring p) p) with p by (by destruct p). rewrite insert_id by done. destruct s as [? ? []]. done. }
  destruct (m_down m') eqn:Ed; cbn [andb].
  2:{ unfold when. mstep. exists (in_ring p), (tkernel (term s)). by rewrite Hsame. }
  destruct (driver_layout (code `mod` 128) (m_shift m') (m_caps m')) as [c|] eqn:El; cbn [from_option id].
  2:{ change (negb (255 =? 255)) with false. unfold when. cbn [andb]. mstep. exists (in_ring p), (tkernel (term s)). by rewrite Hsame. }
  rewrite (proj2 (Z.eqb_neq c 255)) by (eapply layout_char; [|exact El]; lia). change (negb (ctrue 0)) with true. cbn [negb andb]. unfold when at 1.
  rewrite (proj2 (ctrue_true _) Hcur). unfold when. destruct (enqueue_char (in_ring p) c Hwf) as (n & r & Hr & Hwf' & Hsz & Hcont).
  assert (zoom ring_l (ring_enqueue c) p = Ok (n, set_in_ring r p)) as Hz by (unfold zoom; cbn [lget ring_l]; by rewrite Hr).
  destruct (wake_queue_ok (in_wq_head p) (tkernel (term s)) Hwait) as (K & HK & Hw & Hall).
  erewrite bind_ok; [exists r, K; split; [reflexivity|]|].
  { split; [done|]. split; [done|]. rewrite Hsz. done. }
  unfold zoom at 1. cbn [lget term_l s1 lset kb_l term].
  rewrite (bind_ok _ _ _ _ _ (on_ptm_run (current_ptty (term s)) _ (term s) p _ _ Hp Hz)).
  erewrite bind_ok by (apply on_ptm_get, lookup_insert_eq). rewrite (zoom_ok tkernel_l _ (lset ptms_l _ (term s)) () K HK). done.
Qed.

Lemma kb_ok_step k m m' : kb_ok k m → kb_ok (set_key_state (encode m') k) m'.
Proof. intros [Ht ? ? ?]. split; [exact Ht|reflexivity|assumption|assumption]. Qed.

Lemma plain_step m code : plain_code code → m_ctrl m = false → m_alt m = false → m_ctrl (mods_step m code) = false ∧ m_alt (mods_step m code) = false.
Proof. intros (_ & Hnc & Hna) H1 H2. cbn. by rewrite (proj2 (Z.eqb_neq _ _) Hnc), (proj2 (Z.eqb_neq _ _) Hna). Qed.

Lemma take_take_app {X} n (x y : list X) : take n (take n x ++ y) = take n (x ++ y).
Proof.
  destruct (decide (length x ≤ n)%nat) as [H|H]; [by rewrite (take_ge x)|]. rewrite (take_app_le x) by lia. rewrite take_app_le by (rewrite length_take; lia).
  by rewrite take_take, Nat.min_id.
Qed.

Lemma type_codes_ok codes : ∀ s m p,
  kb_ok (kb s) m → m_ctrl m = false → m_alt m = false → Forall plain_code codes →
  current_ptty (term s) ≠ NULL → ptms (term s) !! current_ptty (term s) = Some p → ring_wf (in_ring p) → waiting (tkernel (term s)) (in_wq_head p) →
  ∃ r K, type_codes codes s = Ok ((), after_keys s (foldl mods_step m codes) p r K) ∧ ring_wf r ∧ ring_size r = ring_size (in_ring p) ∧
    contents r = take (Z.to_nat (ring_size r - 1)) (contents (in_ring p) ++ typed_text m codes) ∧ woken (waiters (tkernel (term s)) (in_wq_head p)) (tkernel (term s)) K.
Proof.
  induction codes as [|code codes IH]; intros s m p Hk H1 H2 Hcs Hcur Hp Hwf Hwait; cbn [type_codes foldl typed_text].
  { exists (in_ring p), (tkernel (term s)). split; [|split; [done|split; [done|split; [|apply woken_refl]]]].
    - unfold after_keys. replace (set_in_ring (in_ring p) p) with p by (by destruct p). rewrite insert_id, <-(ko_state _ _ Hk) by done. by destruct s as [[] ? []].
    - rewrite app_nil_r, take_ge; [done|]. pose proof (contents_length _ Hwf). pose proof (ring_len_bound _ Hwf). lia. }
  apply Forall_cons_1 in Hcs as [Hc Hcs]. destruct (plain_step m code Hc H1 H2) as [H1' H2']. set (m1 := mods_step m code) in *.
  destruct (handler_ok s m p code 0 Hk H1 H2 Hc Hcur Hp Hwf Hwait) as (r1 & K1 & Hr1 & Hwf1 & Hsz1 & Hres). cbv zeta in Hr1, Hres. fold m1 in Hr1, Hres.
  rewrite (bind_ok _ _ _ _ _ Hr1). set (s1 := after_keys s m1 p r1 K1). set (p1 := set_in_ring r1 p). set (K0 := tkernel (term s)) in *.
  assert (woken (waiters K0 (in_wq_head p)) K0 K1) as HK1 by (destruct (typed m1 code); [apply Hres|destruct Hres as [_ ->]; apply woken_refl]).
  destruct (IH s1 m1 p1) as (r & K & Hr & Hwf' & Hsz & Hcont & HK); try done; [by eapply kb_ok_step|apply lookup_insert_eq|by eapply woken_waiting|].
  exists r, K. split.
  { rewrite Hr. unfold after_keys, s1. cbn [term ints kb after_keys current_ptty tconsole Terminal.ports ptms]. rewrite insert_insert_eq. done. }
  split; [done|]. cbn in Hsz, Hcont. split; [congruence|]. split.
  - rewrite Hcont. destruct (typed m1 code) as [c|]; destruct Hres as [Hres _].
    + rewrite Hres, Hsz, Hsz1. set (n := Z.to_nat _). replace (contents (in_ring p) ++ c :: typed_text m1 codes) with ((contents (in_ring p) ++ [c]) ++ typed_text m1 codes) by (by rewrite <-app_assoc).
      apply take_take_app.
    + rewrite Hres. done.
  - eapply woken_trans; [exact HK1|]. destruct HK1 as [E _]. assert (waits K1 = waits K0) as Ew by (rewrite E; done).
    unfold waiters in *. cbn in HK. rewrite Ew in HK. exact HK.
Qed.

(** C22. The keyboard types text.  For any sequence of key codes other than those of
    CONTROL and ALT, in which no letter is typed with shift while caps lock is
    on (there the driver types a capital, [caps_shift_types_capital]), the
    interrupt handler tracks the shift and caps lock keys and appends to the
    input ring of the current terminal exactly the characters of the US layout
    for the keys pressed, as far as the ring has room; it wakes up no task but
    those waiting for input of this terminal, and changes nothing else.  The
    layout is given by the rows of the keyboard; shift lasts until either of
    the two shift keys goes up. *)
Theorem keyboard_types codes s m p :
  kb_ok (kb s) m → m_ctrl m = false → m_alt m = false → Forall plain_code codes → no_clash m codes = true →
  current_ptty (term s) ≠ NULL → ptms (term s) !! current_ptty (term s) = Some p → ring_wf (in_ring p) → waiting (tkernel (term s)) (in_wq_head p) →
  ∃ r K, type_codes codes s = Ok ((), after_keys s (foldl mods_step m codes) p r K) ∧ ring_wf r ∧ ring_size r = ring_size (in_ring p) ∧
    contents r = take (Z.to_nat (ring_size r - 1)) (contents (in_ring p) ++ us_text m codes) ∧ woken (waiters (tkernel (term s)) (in_wq_head p)) (tkernel (term s)) K.
Proof. intros Hk H1 H2 Hcs Hno. rewrite <-(typed_text_us _ _ Hno). by apply type_codes_ok. Qed.

(** On a US keyboard shift under caps lock types small letters; the driver types
    the capital for every letter key. *)
Theorem caps_shift_types_capital k code m c d :
  tables_ok k → 0 ≤ code < 256 → key_of (code `mod` 128) = Some (c, d) → letter c = true → m_shift m = true → m_caps m = true →
  to_ascii (discard_pressed_bit code) (encode m) k = Ok (d, k) ∧ layout (code `mod` 128) (m_shift m) (m_caps m) = Some c.
Proof.
  intros Hk Hcode Hkey Hl Hs Hc. rewrite to_ascii_layout by done. unfold driver_layout, layout. by rewrite Hkey, !obind, Hs, Hc, Hl.
Qed.

(** the entry is not on the queue and the one task that owns it waits *)
(** the state in which the master task sleeps in its read *)
Definition asleep (ts : tstate) (c wait a : Z) (p : ptm) (t : task) : tstate :=
  let K := tkernel ts in
  mk_tstate (<[c := join_in wait p]> (ptms ts)) (current_ptty ts) (tconsole ts) (Terminal.ports ts)
    (put_task (lset waits_l (<[wait := a]> (waits K)) K) a (set_state TASK_STATE_INTERRUPTIBLE t)).

Lemma read_blocks ts c wait offset buf size p a t :
  ptms ts !! c = Some p → c ≠ NULL → ring_wf (in_ring p) → contents (in_ring p) = [] → 0 ≤ size ≤ lenZ buf →
  current (tkernel ts) = a → a ≠ NULL → tasks (tkernel ts) !! a = Some t → state t = TASK_STATE_RUNNING → u32 (master_task_id p) = task_id t →
  ptty_dev_read c wait offset buf size ts = Ok (None, asleep ts c wait a p t).
Proof.
  intros Hp Hc Hwf He Hsz Hcur Ha Ht Hrun Hid. unfold ptty_dev_read. mstep. rewrite Hcur, (proj2 (ctrue_true a) Ha). cbn [negb].
  assert (zoom tkernel_l (load_task a) ts = Ok (t, ts)) as Hl.
  { unfold load_task. rewrite (zoom_ok tkernel_l _ ts _ _ (zoom_ok tasks_l _ (tkernel ts) _ _ (load_ok _ _ _ Ht))). by destruct ts as [? ? ? ? []]. }
  rewrite (bind_ok _ _ _ _ _ Hl), (bind_ok _ _ _ _ _ (on_ptm_get c ts p Hp)), (proj2 (Z.eqb_eq _ _) Hid). unfold __ptty_master_read. mstep.
  rewrite Hcur, (proj2 (ctrue_true a) Ha). mstep. rewrite (proj2 (ctrue_true c) Hc). mstep.
  rewrite (bind_ok _ _ _ _ _ Hl), (bind_ok _ _ _ _ _ (on_ptm_get c ts p Hp)), (proj2 (Z.eqb_eq _ _) (eq_sym Hid)). mstep.
  rewrite (bind_ok _ _ _ _ _ (zoom_ok tkernel_l _ ts () _ eq_refl)). set (ts1 := lset tkernel_l _ ts).
  rewrite (bind_ok _ _ _ _ _ (on_ptm_run c _ ts1 p () (join_in wait p) Hp eq_refl)). set (ts2 := lset ptms_l _ ts1).
  pose proof (master_read_loop_ok ts2 c wait (join_in wait p) buf size t) as Hloop. rewrite bool_decide_true in Hloop by exact He.
  rewrite Hloop; [|apply lookup_insert_eq|exact Hwf|exact Hsz|change (current (tkernel ts2)) with (current (tkernel ts)); rewrite Hcur; exact Ht|exact Hrun].
  change (current (tkernel ts2)) with (current (tkernel ts)). rewrite Hcur. reflexivity.
Qed.

Lemma key_wakes_ok s m c p code ch wait offset buf size a t parg :
  kb_ok (kb s) m → m_ctrl m = false → m_alt m = false → plain_code code → typed (mods_step m code) code = Some ch →
  current_ptty (term s) = c → c ≠ NULL → ptms (term s) !! c = Some p → ring_wf (in_ring p) → contents (in_ring p) = [] → 1 < ring_size (in_ring p) →
  1 ≤ size ≤ lenZ buf → current (tkernel (term s)) = a → a ≠ NULL → tasks (tkernel (term s)) !! a = Some t →
  state t = TASK_STATE_RUNNING → live t → signal_pending t = 0 → u32 (master_task_id p) = task_id t →
  wait ∉ in_wq_head p → waiting (tkernel (term s)) (in_wq_head p) →
  ∃ s1 s2 ts3,
    zoom term_l (ptty_dev_read c wait offset buf size) s = Ok (None, s1) ∧
    tasks (tkernel (term s1)) !! a = Some (set_state TASK_STATE_INTERRUPTIBLE t) ∧
    keyboard_interrupt_handler inb ptties [code] parg s1 = Ok (parg, s2) ∧
    tasks (tkernel (term s2)) !! a = Some t ∧
    master_read_resumed c wait buf size (term s2) = Ok (Some (1, ch :: drop 1 buf), ts3) ∧
    ∃ r, ptms ts3 !! c = Some (set_in_ring r p) ∧ contents r = [].
Proof.
  intros Hk H1 H2 Hpl Hch Hcur Hc Hp Hwf He Hsz Hbuf Ha Hanz Ht Hrun Hlive Hsig Hid Hfresh Hwait.
  assert (set_state TASK_STATE_RUNNING (set_state TASK_STATE_INTERRUPTIBLE t) = t) as Eback by (rewrite <-Hrun at 1; by destruct t).
  set (ts1 := asleep (term s) c wait a p t). set (s1 := lset term_l ts1 s). set (p1 := join_in wait p).
  assert (in_wq_head p1 = in_wq_head p ++ [wait]) as Eq by (by apply add_fresh).
  assert (live (set_state TASK_STATE_INTERRUPTIBLE t)) as Hl1 by (destruct Hlive as [_ Hl]; split; [right; by left|exact Hl]).
  assert (tasks (tkernel ts1) !! a = Some (set_state TASK_STATE_INTERRUPTIBLE t)) as Ht1 by apply lookup_insert_eq.
  assert (waiting (tkernel ts1) (in_wq_head p1)) as Hw1.
  { rewrite Eq. intros e He'. destruct (decide (e = wait)) as [->|Hne]; [exists a, (set_state TASK_STATE_INTERRUPTIBLE t); split_and!; try done; apply lookup_insert_eq|].
    apply elem_of_app in He' as [He'|He']; [|by apply list_elem_of_singleton in He']. destruct (Hwait e He') as (b & u & Hb & Hbnz & Hu & Hlu).
    cbn [waits tasks tkernel ts1 asleep put_task lset tasks_l waits_l lget]. rewrite lookup_insert_ne by done. destruct (decide (b = a)) as [->|Hba].
    - exists a, (set_state TASK_STATE_INTERRUPTIBLE t). rewrite lookup_insert_eq. done.
    - exists b, u. rewrite lookup_insert_ne by done. done. }
  destruct (handler_ok s1 m p1 code parg Hk H1 H2 Hpl) as (r & K & Hr & Hwf' & Hsz' & Hres).
  { cbn. congruence. } { cbn. rewrite Hcur. apply lookup_insert_eq. } { exact Hwf. } { exact Hw1. }
  cbv zeta in Hr, Hres. rewrite Hch in Hres. destruct Hres as (Hcont & HK & Hall).
  assert (tasks K !! a = Some t) as HtK.
  { rewrite Hall. - change (tkernel (term s1)) with (tkernel ts1). rewrite Ht1. cbn. f_equal. exact Eback.
    - unfold waiters. apply list_elem_of_omap. exists wait. rewrite Eq. split; [apply elem_of_app; right; by left|]. apply lookup_insert_eq. }
  destruct HK as [EK _]. assert (current K = a) as EcK by (rewrite EK; exact Ha).
  set (s2 := after_keys s1 (mods_step m code) p1 r K). set (p2 := set_in_ring r p1).
  assert (ptms (term s2) !! c = Some p2) as Hp2 by (cbn; rewrite Hcur; apply lookup_insert_eq).
  assert (contents r = [ch]) as Er.
  { rewrite Hcont, Hsz'. change (in_ring p1) with (in_ring p). rewrite He. cbn [app]. apply take_ge. cbn [length]. lia. }
  assert (ring_len r = 1) as Elen by (pose proof (contents_length r Hwf') as Hl; rewrite Er in Hl; cbn in Hl; lia).
  pose proof (master_read_loop_ok (term s2) c wait p2 buf size t Hp2 Hwf') as Hloop. change (in_ring p2) with r in Hloop. rewrite Er in Hloop. rewrite bool_decide_false in Hloop by done.
  destruct Hloop as (r3 & Hwf3 & Hc3 & Hr3); [lia|change (tkernel (term s2)) with K; rewrite EcK; exact HtK|exact Hrun|].
  rewrite Elen in Hc3, Hr3. rewrite Z.min_r in Hc3, Hr3 by lia. change (Z.to_nat 1) with 1%nat in Hc3, Hr3.
  exists s1, s2. eexists. split; [unfold zoom; cbn [lget term_l]; rewrite (read_blocks (term s) c wait offset buf size p a t) by (done || lia); reflexivity|].
  split; [exact Ht1|]. split; [exact Hr|]. split; [exact HtK|]. split.
  - unfold master_read_resumed. erewrite bind_ok.
    2:{ apply zoom_ok. mstep. change (lget tkernel_l (term s2)) with K. rewrite EcK. unfold load_task. apply zoom_ok, load_ok, HtK. }
    rewrite Hsig. change (ctrue 0) with false. cbv iota.
    replace (lset tkernel_l (lset tasks_l (lget tasks_l K) K) (term s2)) with (term s2); [exact Hr3|]. by destruct K.
  - exists r3. cbn [ptms lset ptms_l]. rewrite lookup_insert_eq. split; [|exact Hc3]. f_equal. unfold leave_in. cbn [in_wq_head p2 set_in_ring]. rewrite Eq, remove_added by done.
    by destruct p.
Qed.

(** C19. A key wakes the reader.  The master task of the current terminal that reads
    from the empty terminal goes to sleep; the next key that types a character
    makes it ready again, and when it runs it returns that character, has left
    the wait queue, and the ring is empty again.  (The task must not have a
    signal pending, and its wait queue entry must be its own.) *)
Theorem key_wakes_reader s m c p code ch wait offset buf size a t parg :
  kb_ok (kb s) m → m_ctrl m = false → m_alt m = false → plain_code code → typed (mods_step m code) code = Some ch →
  current_ptty (term s) = c → c ≠ NULL → ptms (term s) !! c = Some p → ring_wf (in_ring p) → contents (in_ring p) = [] → 1 < ring_size (in_ring p) →
  1 ≤ size ≤ lenZ buf → current (tkernel (term s)) = a → a ≠ NULL → tasks (tkernel (term s)) !! a = Some t →
  state t = TASK_STATE_RUNNING → live t → signal_pending t = 0 → u32 (master_task_id p) = task_id t →
  wait ∉ in_wq_head p → waiting (tkernel (term s)) (in_wq_head p) →
  ∃ s1 s2 ts3,
    zoom term_l (ptty_dev_read c wait offset buf size) s = Ok (None, s1) ∧
    tasks (tkernel (term s1)) !! a = Some (set_state TASK_STATE_INTERRUPTIBLE t) ∧
    keyboard_interrupt_handler inb ptties [code] parg s1 = Ok (parg, s2) ∧
    tasks (tkernel (term s2)) !! a = Some t ∧
    master_read_resumed c wait buf size (term s2) = Ok (Some (1, ch :: drop 1 buf), ts3) ∧
    ∃ r, ptms ts3 !! c = Some (set_in_ring r p) ∧ contents r = [].
Proof. apply key_wakes_ok. Qed.
End typing.

(** ** Examples *)
Module KeyboardExample.
Import PrintkExample TaskExample TerminalExample.
Definition mods0 : mods := mk_mods false false false false false.
Definition ints0 : istate := mk_istate [] (0, 0) 0 (mk_tss 0 0 0 0 0 0 0 0 0 0 0) [] (0, 0) (replicate 256 0) [] ∅ [].
Definition blank_kbd : kbd := mk_kbd 0 [] [] [] 0.

(** the terminal with a shell as master *)
Definition shell_tty : ptm := set_master_task_id 5 ptty0.
Definition terminal0 : tstate := mk_tstate {[base := shell_tty]} base started [] (kernel running).
Definition start : result (() * kstate) := (keyboard_init 0x100000 ;; zoom kb_l register_shortcuts) (mk_kstate blank_kbd ints0 terminal0).
Definition machine0 : kstate := match start with Ok (_, s) => s | Err _ => mk_kstate blank_kbd ints0 terminal0 end.

Lemma machine0_kb : kb_ok (kb machine0) mods0.
Proof.
  split.
  - split; vm_compute; reflexivity.
  - vm_compute; reflexivity.
  - vm_compute. split; discriminate.
  - apply Forall_forall. intros e He. assert (Forall (λ e, has (Z.lor KEY_STATE_CONTROLL_PRESSED KEY_STATE_ALT_PRESSED) (sc_keystate e) = true)
      (take (Z.to_nat (shortcut_entry_ptr (kb machine0))) (shortcut_entries (kb machine0)))) as H by (vm_compute; repeat constructor).
    rewrite Forall_forall in H. by apply H.
Qed.

Definition tty0 : ptm := match ptms (term machine0) !! base with Some p => p | None => shell_tty end.
Lemma tty0_ring : ring_wf (in_ring tty0).
Proof. split; vm_compute; (done || split; done). Qed.

(** shift down, A, shift up, b, A up: the text Ab *)
Lemma keyboard_types_witness :
  ∃ r K, type_codes no_port base [0x2a; 0x1e; 0xaa; 0x30; 0x9e] machine0 = Ok ((), after_keys machine0 (foldl mods_step mods0 [0x2a; 0x1e; 0xaa; 0x30; 0x9e]) tty0 r K) ∧
    contents r = [65; 98].
Proof.
  destruct (keyboard_types no_port base [0x2a; 0x1e; 0xaa; 0x30; 0x9e] machine0 mods0 tty0 machine0_kb) as (r & K & Hr & Hwf & Hsz & Hc & _).
  - reflexivity.
  - reflexivity.
  - repeat (apply Forall_cons; split); try apply Forall_nil_2; (split; [lia|]; split; discriminate).
  - vm_compute. reflexivity.
  - vm_compute. discriminate.
  - vm_compute. reflexivity.
  - apply tty0_ring.
  - intros e He. vm_compute in He. by apply elem_of_nil in He.
  - exists r, K. split; [exact Hr|]. rewrite Hc, Hsz. vm_compute. reflexivity.
Defined.

Lemma key_wakes_reader_witness :
  ∃ s1 s2 ts3, zoom term_l (ptty_dev_read base 0x2000 0 [0] 1) machine0 = Ok (None, s1) ∧
    keyboard_interrupt_handler no_port base [0x1e] 0 s1 = Ok (0, s2) ∧ master_read_resumed base 0x2000 [0] 1 (term s2) = Ok (Some (1, [97]), ts3).
Proof.
  destruct (key_wakes_reader no_port base machine0 mods0 base tty0 0x1e 97 0x2000 0 [0] 1 1 running 0 machine0_kb) as (s1 & s2 & ts3 & H1 & _ & H2 & _ & H3 & _).
  - reflexivity.
  - reflexivity.
  - split; [lia|]. split; discriminate.
  - vm_compute. reflexivity.
  - vm_compute. reflexivity.
  - discriminate.
  - vm_compute. reflexivity.
  - apply tty0_ring.
  - vm_compute. reflexivity.
  - vm_compute. reflexivity.
  - vm_compute. split; discriminate.
  - vm_compute. reflexivity.
  - discriminate.
  - vm_compute. reflexivity.
  - reflexivity.
  - split; [by left|]. vm_compute. reflexivity.
  - reflexivity.
  - vm_compute. reflexivity.
  - intros He. vm_compute in He. by apply elem_of_nil in He.
  - intros e He. vm_compute in He. by apply elem_of_nil in He.
  - exists s1, s2, ts3. split; [exact H1|]. split; [exact H2|exact H3].
Defined.

(** with caps lock on no shortcut works any more: CONTROL and C interrupts the
    terminal, with caps lock it is not found among the shortcuts *)
Theorem caps_lock_disables_shortcuts :
  let k := kb machine0 in let ctrl := mk_mods true true false false false in
  search_shortcut k SCANCODE_C (encode ctrl) < shortcut_entry_ptr k ∧
  search_shortcut k SCANCODE_C (encode (mods_step (mods_step ctrl SCANCODE_CAPS) SCANCODE_C)) = shortcut_entry_ptr k.
Proof. vm_compute. split; reflexivity. Qed.
End KeyboardExample.
