(* ===== verification/Elf.v ===== *)
(** * Programs: kernel/elf.c

    The check of an executable file, the command line of a new task as
    [call_sys_execve] (kernel/task_misc.c) composes it and as it is put on the
    stack of the task.  The file is the list of its bytes; the stack is a map of
    its bytes by address, and a read or write of any other address is a
    fault. *)

From Stdlib Require Import Ascii String.
From stdpp Require Import gmap list.
From S2P Require Import Prelude PageAlloc Paging CString Path Vma.
Open Scope Z_scope.
Open Scope zelda_scope.

(** ** The headers *)
Record elf32_elf_header := mk_elf {
  e_ident : list Z; e_type : Z; e_machine : Z; e_version : Z; e_entry : Z; e_phoff : Z; e_shoff : Z; e_flags : Z;
  e_ehsize : Z; e_phentsize : Z; e_phnum : Z; e_shentsize : Z; e_shnum : Z; e_shstrndx : Z }.
Definition ELF_HEADER_SIZE : Z := 52.

Record elf32_program_header := mk_ph {
  p_type : Z; p_offset : Z; p_vaddr : Z; p_paddr : Z; p_filesz : Z; p_memsz : Z; p_flags : Z; p_align : Z }.
Definition PROGRAM_HEADER_SIZE : Z := 32.

(** [sizeof(struct elf32_section_header)] *)
Definition SECTION_HEADER_SIZE : Z := 40.

Definition EI_NIDENT : Z := 16.
Definition ELF32_IDENTITY_ELF : Z := 0x464c457f.
Definition ELF32_CLASS_ELF32 : Z := 1.
Definition ELF32_ENDIAN_LITTLE : Z := 1.
Definition ELF32_TYPE_EXEC : Z := 2.
Definition ELF32_MACHINE_I386 : Z := 3.
Definition PROGRAM_TYPE_LOAD : Z := 1.
Definition PROGRAM_WRITE : Z := 2.
Definition PROGRAM_EXECUTE : Z := 1.
Definition USERSPACE_STACK_TOP : Z := 0xA0000000.

(** [(struct elf32_elf_header * )mem] *)
Definition elf_header (mem : list Z) : option elf32_elf_header :=
  type ← le16 mem 16; machine ← le16 mem 18; version ← le32 mem 20; entry ← le32 mem 24; phoff ← le32 mem 28;
  shoff ← le32 mem 32; flags ← le32 mem 36; ehsize ← le16 mem 40; phentsize ← le16 mem 42; phnum ← le16 mem 44;
  shentsize ← le16 mem 46; shnum ← le16 mem 48; shstrndx ← le16 mem 50;
  Some (mk_elf (take (Z.to_nat EI_NIDENT) mem) type machine version entry phoff shoff flags ehsize phentsize phnum
    shentsize shnum shstrndx).

(** [(struct elf32_program_header * )(mem + off)] *)
Definition program_header (mem : list Z) (off : Z) : option elf32_program_header :=
  type ← le32 mem off; offset ← le32 mem (off + 4); vaddr ← le32 mem (off + 8); paddr ← le32 mem (off + 12);
  filesz ← le32 mem (off + 16); memsz ← le32 mem (off + 20); flags ← le32 mem (off + 24); align ← le32 mem (off + 28);
  Some (mk_ph type offset vaddr paddr filesz memsz flags align).

(** [mem + elf_hdr->e_phoff + idx * sizeof(struct elf32_program_header)] *)
Definition header_offset (elf_hdr : elf32_elf_header) (idx : Z) : Z := u32 (e_phoff elf_hdr + u32 (idx * PROGRAM_HEADER_SIZE)).

(** ** The check of a file *)

(** the conditions on the ELF header *)
Definition elf_header_ok (elf_hdr : elf32_elf_header) : bool :=
  bool_decide (le32 (e_ident elf_hdr) 0 = Some ELF32_IDENTITY_ELF) &&
  bool_decide (array_get (e_ident elf_hdr) 4 = Some ELF32_CLASS_ELF32) &&
  bool_decide (array_get (e_ident elf_hdr) 5 = Some ELF32_ENDIAN_LITTLE) &&
  (e_type elf_hdr =? ELF32_TYPE_EXEC) &&
  (e_machine elf_hdr =? ELF32_MACHINE_I386) &&
  (e_version elf_hdr =? 1) &&
  (e_ehsize elf_hdr =? ELF_HEADER_SIZE) &&
  (e_phentsize elf_hdr =? PROGRAM_HEADER_SIZE) &&
  (e_shentsize elf_hdr =? SECTION_HEADER_SIZE).

(** the conditions on a program header *)
Definition program_header_ok (program_hdr : elf32_program_header) (length : Z) : bool :=
  (u32 (p_offset program_hdr + p_filesz program_hdr) <? u32 length) &&
  (if p_type program_hdr =? PROGRAM_TYPE_LOAD then
     (USERSPACE_BOTTOM <=? p_vaddr program_hdr) &&
     (u64 (p_vaddr program_hdr + p_memsz program_hdr) <? USERSPACE_STACK_TOP)
   else true).

(** the loop over [n] program headers from [idx] on *)
Fixpoint validate_loop (mem : list Z) (length : Z) (elf_hdr : elf32_elf_header) (n : nat) (idx : Z) : option Z :=
  match n with
  | O => Some OK
  | S n =>
      program_hdr ← program_header mem (header_offset elf_hdr idx);
      if negb (program_header_ok program_hdr length) then Some (- ERR_INVALID_ARG)
      else validate_loop mem length elf_hdr n (idx + 1)
  end.

Definition validate_static_elf32_format (mem : list Z) (length : Z) : option Z :=
  if negb (ELF_HEADER_SIZE <=? u32 length) then Some (- ERR_INVALID_ARG) else
  elf_hdr ← elf_header mem;
  if negb (elf_header_ok elf_hdr) then Some (- ERR_INVALID_ARG) else
  validate_loop mem length elf_hdr (Z.to_nat (e_phnum elf_hdr)) 0.

(** ** The command line *)
Definition QUOTE : Z := 34.
Definition APOSTROPHE : Z := 39.
Definition SPACE : Z := 32.
Definition EQUALS : Z := 61.

(** Memory the kernel reads and writes byte by byte: [*ptr] and [*ptr = b].
    The code below is written against this interface; it runs on a plain map of
    bytes here and on the address space of the new task in Loader. *)
Class ByteMemory (St : Type) := { peek : Z → M St Z; poke : Z → Z → M St () }.

Section commands.
Context {St : Type} `{ByteMemory St}.

(** [memcpy(dst, src, n)], given the bytes at [src] *)
Fixpoint copy_in (dst : Z) (src : list Z) : M St () :=
  match src with [] => mret () | b :: src => poke dst b ;; copy_in (dst + 1) src end.

(** [*(uint32_t * )ptr = v] *)
Definition poke32 (ptr v : Z) : M St () :=
  copy_in ptr [v `mod` 256; (v / 256) `mod` 256; (v / 65536) `mod` 256; (v / 16777216) `mod` 256].

(** [PUSH(esp, val)]: the new [esp] *)
Definition PUSH (esp val : Z) : M St Z := poke32 esp (u32 val) ;; mret (u32 (esp - 4)).

(** [for (; *ptr && *ptr == ' '; ptr++);] *)
Fixpoint skip_spaces (fuel : nat) (ptr : Z) : M St Z :=
  match fuel with
  | O => fail Diverge
  | S fuel => c ← peek ptr; if ctrue c && (c =? SPACE) then skip_spaces fuel (ptr + 1) else mret ptr
  end.

Definition even_counts (quote_count apostrophe_count : Z) : bool :=
  (! Z.land quote_count 1) && (! Z.land apostrophe_count 1).

(** the loop that looks for the end of a word *)
Fixpoint word_end (fuel : nat) (end_ptr quote_count apostrophe_count : Z) : M St Z :=
  match fuel with
  | O => fail Diverge
  | S fuel =>
      c ← peek end_ptr;
      if ! c then mret end_ptr else
      if c =? SPACE then
        if even_counts quote_count apostrophe_count then mret end_ptr
        else word_end fuel (end_ptr + 1) quote_count apostrophe_count
      else if (c =? QUOTE) || (c =? APOSTROPHE) then
        let quote_count := quote_count + (if c =? QUOTE then 1 else 0) in
        let apostrophe_count := apostrophe_count + (if c =? APOSTROPHE then 1 else 0) in
        if even_counts quote_count apostrophe_count then mret end_ptr
        else word_end fuel (end_ptr + 1) quote_count apostrophe_count
      else word_end fuel (end_ptr + 1) quote_count apostrophe_count
  end.

(** [start_stack[stack_ptr] = ...; end_stack[stack_ptr] = ...; stack_ptr++] on arrays of 128 elements *)
Definition STACK_LENGTH : Z := 128.
Definition push_word (words : list (Z * Z)) (w : Z * Z) : M St (list (Z * Z)) :=
  if lenZ words <? STACK_LENGTH then mret (words ++ [w]) else fail BadAccess.

(** [while ( *ptr)]: the start and end of every word *)
Fixpoint find_words (fuel : nat) (ptr : Z) (words : list (Z * Z)) : M St (list (Z * Z)) :=
  match fuel with
  | O => fail Diverge
  | S fuel' =>
      c ← peek ptr;
      if ! c then mret words else
      ptr ← skip_spaces fuel ptr;
      c ← peek ptr;
      if ! c then mret words else
      end_ptr ← word_end fuel ptr 0 0;
      words ← push_word words (ptr, end_ptr);
      find_words fuel' (end_ptr + 1) words
  end.

(** the loop that drops the quotes of a word in place *)
Fixpoint strip_loop (fuel : nat) (ptr ptr_another : Z) : M St Z :=
  match fuel with
  | O => fail Diverge
  | S fuel =>
      c ← peek ptr_another;
      if ! c then mret ptr else
      if (c =? QUOTE) || (c =? APOSTROPHE) then strip_loop fuel ptr (ptr_another + 1)
      else poke ptr c ;; strip_loop fuel (ptr + 1) (ptr_another + 1)
  end.

Fixpoint simplify (fuel : nat) (words : list (Z * Z)) : M St () :=
  match words with
  | [] => mret ()
  | (s, e) :: words =>
      poke e 0 ;;
      ptr ← strip_loop fuel s s;
      poke ptr 0 ;;
      simplify fuel words
  end.

(** [strchr(str, target)] from [idx] on, on the stack *)
Fixpoint strchr_at (fuel : nat) (str idx target : Z) : M St Z :=
  match fuel with
  | O => fail Diverge
  | S fuel =>
      c ← peek (str + idx);
      if ! c then mret (-1) else if c =? target then mret idx else strchr_at fuel str (idx + 1) target
  end.

(** the index of the first word with no '=' from [idx] on, -1 if there is none *)
Fixpoint find_executable (fuel : nat) (words : list (Z * Z)) (idx : Z) : M St Z :=
  match words with
  | [] => mret (-1)
  | (s, _) :: words =>
      i ← strchr_at fuel s 0 EQUALS;
      if i =? -1 then mret idx else find_executable fuel words (idx + 1)
  end.

Fixpoint push_all (esp : Z) (vals : list Z) : M St Z :=
  match vals with [] => mret esp | v :: vals => esp ← PUSH esp v; push_all esp vals end.

(** the environment, the arguments, their address and their number *)
Definition push_arguments (esp : Z) (envp argv : list Z) (argc : Z) : M St Z :=
  esp ← PUSH esp 0;
  esp ← push_all esp envp;
  esp ← PUSH esp 0;
  esp ← push_all esp (rev argv);
  esp ← PUSH esp (esp + 4);
  PUSH esp argc.

(** [resolve_commands(pl3_stack_top, command, &program)]: the new stack
    position and [program]; [command] is the text of the command line and
    [fuel] the fuel of the loops. *)
Definition resolve_commands (fuel : nat) (pl3_stack_top : Z) (command : list Z) : M St (Z * Z) :=
  let length := lenZ command in
  let esp := u32 (pl3_stack_top - (length + 1)) in
  copy_in esp (command ++ [0]) ;;
  c ← peek (esp + length);
  ASSERT (c =? 0) ;;
  let ptr := esp in
  let esp := u32 (esp - esp `mod` 4 - 4) in
  words ← find_words fuel ptr [];
  simplify fuel words ;;
  executable_index ← find_executable fuel words 0;
  program ← deref (if executable_index <? 0 then None else fst <$> (words !! Z.to_nat executable_index));
  let start := Z.to_nat executable_index in
  esp ← push_arguments esp (take start words.*1) (drop start words.*1) (lenZ words - executable_index);
  ASSERT (! Z.land esp 1) ;;
  mret (esp, program).
End commands.

(** a map of bytes *)
Abbreviation ustack := (gmap Z Z).
#[export] Instance ustack_memory : ByteMemory ustack := {| peek ptr := load ptr; poke ptr b := update ptr (λ _, b) |}.

(** ** The command line of [call_sys_execve]: kernel/task_misc.c *)

(** [*ptr++ = c] in the array [commands_line] *)
Definition put_char (line : list Z * Z) (c : Z) : option (list Z * Z) :=
  buf ← array_set line.1 line.2 c; Some (buf, line.2 + 1).

(** [for (; *penv; penv++)] *)
Fixpoint put_variable (line : list Z * Z) (penv : list Z) : option (list Z * Z) :=
  match penv with
  | [] => Some line
  | c :: penv =>
      line ← (if c =? EQUALS then line ← put_char line EQUALS; put_char line APOSTROPHE else put_char line c);
      put_variable line penv
  end.

(** [for (; *parg; parg++)] *)
Fixpoint put_argument (line : list Z * Z) (parg : list Z) : option (list Z * Z) :=
  match parg with [] => Some line | c :: parg => line ← put_char line c; put_argument line parg end.

Fixpoint put_variables (line : list Z * Z) (envp : list (list Z)) : option (list Z * Z) :=
  match envp with
  | [] => Some line
  | penv :: envp =>
      line ← put_variable line penv;
      line ← put_char line APOSTROPHE;
      line ← put_char line SPACE;
      put_variables line envp
  end.

Fixpoint put_arguments (line : list Z * Z) (argv : list (list Z)) : option (list Z * Z) :=
  match argv with
  | [] => Some line
  | parg :: argv =>
      line ← put_char line APOSTROPHE;
      line ← put_argument line parg;
      line ← put_char line APOSTROPHE;
      line ← put_char line SPACE;
      put_arguments line argv
  end.

(** the composed command line; [None] is a write outside [commands_line] *)
Definition compose_commands (envp argv : list (list Z)) : option (list Z) :=
  line ← put_variables (replicate (Z.to_nat MAX_PATH) 0, 0) envp;
  line ← put_arguments line argv;
  Some line.1.

(** ** What the command line means *)

(** the words of a command line: [w] is the word under way, [q] and [a] say
    whether a quote or an apostrophe is open in it.  A word ends at a space
    outside quotes and at the mark that closes the last open pair; the marks
    themselves are dropped. *)
Fixpoint tokens (w : option (list Z)) (q a : bool) (l : list Z) : list (list Z) :=
  match l with
  | [] => match w with Some w => [w] | None => [] end
  | c :: l =>
      match w with
      | None =>
          if c =? SPACE then tokens None false false l
          else if c =? QUOTE then tokens (Some []) true false l
          else if c =? APOSTROPHE then tokens (Some []) false true l
          else tokens (Some [c]) false false l
      | Some w =>
          if c =? SPACE then
            if q || a then tokens (Some (w ++ [c])) q a l else w :: tokens None false false l
          else if c =? QUOTE then
            if negb q || a then tokens (Some w) (negb q) a l else w :: tokens None false false l
          else if c =? APOSTROPHE then
            if q || negb a then tokens (Some w) q (negb a) l else w :: tokens None false false l
          else tokens (Some (w ++ [c])) q a l
      end
  end.
Definition words_of (command : list Z) : list (list Z) := tokens None false false command.

(** whether the last word runs up to the end of the line; [w] says whether a word is under way *)
Fixpoint open_word (w q a : bool) (l : list Z) : bool :=
  match l with
  | [] => w
  | c :: l =>
      if w then
        if c =? SPACE then if q || a then open_word true q a l else open_word false false false l
        else if c =? QUOTE then if negb q || a then open_word true (negb q) a l else open_word false false false l
        else if c =? APOSTROPHE then if q || negb a then open_word true q (negb a) l else open_word false false false l
        else open_word true q a l
      else if c =? SPACE then open_word false false false l
      else if c =? QUOTE then open_word true true false l
      else if c =? APOSTROPHE then open_word true false true l
      else open_word true false false l
  end.
(** every word ends before the end of the line, at a space or a closing mark *)
Definition tidy (command : list Z) : Prop := open_word false false false command = false.

(** plain words with single spaces between them *)
Definition plain (w : list Z) : Prop := w ≠ [] ∧ Forall (λ c, c ≠ SPACE ∧ c ≠ QUOTE ∧ c ≠ APOSTROPHE) w.
Fixpoint spaced (ws : list (list Z)) : list Z :=
  match ws with [] => [] | [w] => w | w :: ws => w ++ SPACE :: spaced ws end.

Lemma tokens_plain_step w v l :
  Forall (λ c, c ≠ SPACE ∧ c ≠ QUOTE ∧ c ≠ APOSTROPHE) v →
  tokens (Some w) false false (v ++ l) = tokens (Some (w ++ v)) false false l.
Proof.
  revert w. induction v as [|c v IH]; intros w Hv; [by rewrite app_nil_r|].
  apply Forall_cons in Hv as [(H1 & H2 & H3) Hv]. simpl.
  rewrite (proj2 (Z.eqb_neq _ _) H1), (proj2 (Z.eqb_neq _ _) H2), (proj2 (Z.eqb_neq _ _) H3).
  rewrite IH by done. by rewrite <-app_assoc.
Qed.

Lemma tokens_start w l :
  plain w → tokens None false false (w ++ l) = tokens (Some w) false false l.
Proof.
  intros [Hne Hw]. destruct w as [|c w]; [done|]. apply Forall_cons in Hw as [(H1 & H2 & H3) Hw]. simpl.
  rewrite (proj2 (Z.eqb_neq _ _) H1), (proj2 (Z.eqb_neq _ _) H2), (proj2 (Z.eqb_neq _ _) H3).
  by rewrite tokens_plain_step.
Qed.

Lemma words_of_spaced ws : Forall plain ws → words_of (spaced ws) = ws.
Proof.
  unfold words_of. induction ws as [|w ws IH]; [done|]. intros [Hw Hws]%Forall_cons. destruct ws as [|w' ws].
  - simpl. rewrite <-(app_nil_r w) at 1. by rewrite tokens_start.
  - change (spaced (w :: w' :: ws)) with (w ++ SPACE :: spaced (w' :: ws)). rewrite tokens_start by done.
    cbn [tokens]. rewrite Z.eqb_refl. cbn [orb]. by rewrite IH.
Qed.

(** ** Bytes on the stack *)
Definition bytes_at (m : ustack) (a : Z) (l : list Z) : Prop := ∀ i x, l !! i = Some x → m !! (a + Z.of_nat i) = Some x.

(** the C string [s] *)
Definition string_at (m : ustack) (a : Z) (s : list Z) : Prop := bytes_at m a (s ++ [0]).

Definition words_at (m : ustack) (a : Z) (l : list Z) : Prop :=
  ∀ i v, l !! i = Some v → bytes_at m (a + 4 * Z.of_nat i) (le_bytes v).

(** [m'] has the addresses of [m] and differs from it in [lo, hi) only *)
Definition differs (lo hi : Z) (m m' : ustack) : Prop :=
  dom m' = dom m ∧ ∀ a, ¬ lo ≤ a < hi → m' !! a = m !! a.

Lemma differs_refl lo hi m : differs lo hi m m.
Proof. done. Qed.

Lemma differs_trans lo hi m1 m2 m3 : differs lo hi m1 m2 → differs lo hi m2 m3 → differs lo hi m1 m3.
Proof. intros [D1 H1] [D2 H2]. split; [congruence|]. intros a Ha. by rewrite H2, H1. Qed.

Lemma differs_mono lo hi lo' hi' m m' : lo' ≤ lo → hi ≤ hi' → differs lo hi m m' → differs lo' hi' m m'.
Proof. intros ? ? [D H]. split; [done|]. intros a Ha. apply H. lia. Qed.

Lemma differs_some lo hi m m' a : differs lo hi m m' → is_Some (m !! a) → is_Some (m' !! a).
Proof. intros [D _]. rewrite <-!elem_of_dom. by rewrite D. Qed.

Lemma differs_bytes lo hi m m' a l :
  differs lo hi m m' → (a + lenZ l ≤ lo ∨ hi ≤ a) → bytes_at m a l → bytes_at m' a l.
Proof.
  intros [_ D] Hd H i x Hi. rewrite D; [by apply H|]. apply lookup_lt_Some in Hi. lia.
Qed.

Lemma differs_words lo hi m m' a l :
  differs lo hi m m' → (a + 4 * lenZ l ≤ lo ∨ hi ≤ a) → words_at m a l → words_at m' a l.
Proof.
  intros D Hd H i v Hi. apply (differs_bytes _ _ _ _ _ _ D); [|by apply H]. apply lookup_lt_Some in Hi.
  unfold le_bytes. cbn [length]. lia.
Qed.

Lemma bytes_at_nil m a : bytes_at m a [].
Proof. done. Qed.

Lemma bytes_at_cons m a x l : bytes_at m a (x :: l) ↔ m !! a = Some x ∧ bytes_at m (a + 1) l.
Proof.
  split.
  - intros H. split; [|intros i y Hi]; [rewrite <-(Z.add_0_r a); by apply (H 0%nat)|].
    replace (a + 1 + Z.of_nat i) with (a + Z.of_nat (S i)) by lia. by apply H.
  - intros [Hx Hl] [|i] y Hi; simpl in Hi.
    + injection Hi as ->. by rewrite Z.add_0_r.
    + replace (a + Z.of_nat (S i)) with (a + 1 + Z.of_nat i) by lia. by apply Hl.
Qed.

Lemma bytes_at_app m a l k : bytes_at m a (l ++ k) ↔ bytes_at m a l ∧ bytes_at m (a + lenZ l) k.
Proof.
  revert a. induction l as [|x l IH]; intros a; simpl app.
  { simpl length. rewrite Z.add_0_r. split; [intros; split; [apply bytes_at_nil|done]|tauto]. }
  rewrite !bytes_at_cons, IH. simpl length. replace (a + 1 + lenZ l) with (a + Z.of_nat (S (length l))) by lia. tauto.
Qed.

Lemma words_at_app m a l k : words_at m a (l ++ k) ↔ words_at m a l ∧ words_at m (a + 4 * lenZ l) k.
Proof.
  split.
  - intros H. split; intros i v Hi.
    + apply H. by apply lookup_app_l_Some.
    + replace (a + 4 * lenZ l + 4 * Z.of_nat i) with (a + 4 * Z.of_nat (length l + i)) by lia. apply H.
      rewrite lookup_app_r by lia. by replace (length l + i - length l)%nat with i by lia.
  - intros [H1 H2] i v Hi. apply lookup_app_Some in Hi as [Hi|[Hge Hi]]; [by apply H1|].
    replace (a + 4 * Z.of_nat i) with (a + 4 * lenZ l + 4 * Z.of_nat (i - length l)) by lia. by apply H2.
Qed.

(** ** Runs *)
Lemma peek_run {A} m a x (k : Z → M ustack A) : m !! a = Some x → mbind k (peek a) m = k x m.
Proof. intros H. by rewrite (bind_ok _ _ _ _ _ (load_ok _ _ _ H)). Qed.

Lemma poke_ok m a b :
  is_Some (m !! a) → ∃ m', poke a b m = Ok ((), m') ∧ m' = <[a := b]> m ∧ differs a (a + 1) m m'.
Proof.
  intros [x Hx]. exists (<[a := b]> m). split_and!; [by apply (update_ok _ _ x)|done|]. split.
  - rewrite dom_insert_L. assert (a ∈ dom m) by (by apply elem_of_dom_2 in Hx). set_solver.
  - intros c Hc. rewrite lookup_insert_ne; [done|lia].
Qed.

Lemma copy_in_ok m a l :
  (∀ c, a ≤ c < a + lenZ l → is_Some (m !! c)) →
  ∃ m', copy_in a l m = Ok ((), m') ∧ bytes_at m' a l ∧ differs a (a + lenZ l) m m'.
Proof.
  revert m a. induction l as [|b l IH]; intros m a H; cbn [copy_in].
  { exists m. split_and!; [done|apply bytes_at_nil|apply differs_refl]. }
  simpl length in *. destruct (poke_ok m a b) as (m1 & H1 & E1 & D1); [apply H; lia|].
  rewrite (bind_ok _ _ _ _ _ H1). destruct (IH m1 (a + 1)) as (m' & Hm & Hb & D).
  { intros c Hc. apply (differs_some _ _ _ _ _ D1), H. lia. }
  exists m'. split_and!; [done| |].
  - apply bytes_at_cons. split; [|done]. rewrite (proj2 D) by lia. subst m1. by rewrite lookup_insert_eq.
  - eapply differs_trans; [|eapply differs_mono, D]; [eapply differs_mono, D1; lia|lia|lia].
Qed.

Lemma push_ok m esp v :
  4 ≤ esp < 4294967296 → 0 ≤ v < 4294967296 → (∀ c, esp ≤ c < esp + 4 → is_Some (m !! c)) →
  ∃ m', PUSH esp v m = Ok (esp - 4, m') ∧ bytes_at m' esp (le_bytes v) ∧ differs esp (esp + 4) m m'.
Proof.
  intros Hesp Hv Hm. unfold PUSH, poke32. rewrite (u32_small v) by lia.
  destruct (copy_in_ok m esp (le_bytes v)) as (m' & Hr & Hb & D); [intros c Hc; apply Hm; simpl in Hc; lia|].
  fold (le_bytes v). exists m'. rewrite (bind_ok _ _ _ _ _ Hr), u32_small by lia. done.
Qed.

Lemma push_all_ok vals m esp :
  4 * lenZ vals ≤ esp < 4294967296 → Forall (λ v, 0 ≤ v < 4294967296) vals →
  (∀ c, esp - 4 * lenZ vals + 4 ≤ c < esp + 4 → is_Some (m !! c)) →
  ∃ m', push_all esp vals m = Ok (esp - 4 * lenZ vals, m') ∧ words_at m' (esp - 4 * lenZ vals + 4) (rev vals) ∧
    differs (esp - 4 * lenZ vals + 4) (esp + 4) m m'.
Proof.
  revert m esp. induction vals as [|v vals IH]; intros m esp Hesp Hv Hm; cbn [push_all].
  { simpl length. rewrite Z.mul_0_r, Z.sub_0_r. exists m. split_and!; [done|done|apply differs_refl]. }
  apply Forall_cons in Hv as [Hv Hvs]. simpl length in *.
  destruct (push_ok m esp v) as (m1 & H1 & B1 & D1); [lia|done|intros c Hc; apply Hm; lia|].
  rewrite (bind_ok _ _ _ _ _ H1). destruct (IH m1 (esp - 4)) as (m' & Hr & Hw & D); [lia|done| |].
  { intros c Hc. apply (differs_some _ _ _ _ _ D1), Hm. lia. }
  replace (esp - 4 - 4 * lenZ vals) with (esp - 4 * Z.of_nat (S (length vals))) in * by lia.
  exists m'. split_and!; [done| |].
  - simpl rev. apply words_at_app. split; [done|]. rewrite length_rev.
    replace (esp - 4 * Z.of_nat (S (length vals)) + 4 + 4 * lenZ vals) with esp by lia. intros [|i] w [= <-].
    rewrite Z.add_0_r. apply (differs_bytes _ _ _ _ _ _ D); [right; lia|done].
  - eapply differs_trans; eapply differs_mono; [| |exact D1| | |exact D]; lia.
Qed.

(** ** The scan for words *)
Definition mark (c : Z) : bool := (c =? QUOTE) || (c =? APOSTROPHE).
Definition unquote (l : list Z) : list Z := filter (λ c, mark c = false) l.

(** how many bytes of [l] belong to the word under way *)
Fixpoint word_length (q a : bool) (l : list Z) : nat :=
  match l with
  | [] => 0
  | c :: l =>
      if c =? SPACE then if q || a then S (word_length q a l) else 0
      else if c =? QUOTE then if negb q || a then S (word_length (negb q) a l) else 0
      else if c =? APOSTROPHE then if q || negb a then S (word_length q (negb a) l) else 0
      else S (word_length q a l)
  end.

(** the words of [l], which starts at [ptr]: where each starts and its bytes, marks included *)
Fixpoint spans (fuel : nat) (ptr : Z) (l : list Z) : list (Z * list Z) :=
  match fuel with
  | O => []
  | S fuel =>
      match l with
      | [] => []
      | c :: l' =>
          if c =? SPACE then spans fuel (ptr + 1) l' else
          let n := word_length false false l in
          (ptr, take n l) :: spans fuel (ptr + Z.of_nat n + 1) (drop (S n) l)
      end
  end.

Lemma unquote_cons c l : unquote (c :: l) = if mark c then unquote l else c :: unquote l.
Proof.
  unfold unquote. destruct (mark c) eqn:E; [rewrite filter_cons_False|rewrite filter_cons_True]; [done|congruence|done|done].
Qed.

Lemma mark_none c : c ≠ QUOTE → c ≠ APOSTROPHE → mark c = false.
Proof. intros H1 H2. unfold mark. by rewrite (proj2 (Z.eqb_neq _ _) H1), (proj2 (Z.eqb_neq _ _) H2). Qed.

(** the word under way ends where [word_length] says *)
Lemma tokens_word w q a l :
  tokens (Some w) q a l =
  (w ++ unquote (take (word_length q a l) l)) :: tokens None false false (drop (S (word_length q a l)) l).
Proof.
  revert w q a. induction l as [|c l IH]; intros w q a; [by rewrite app_nil_r|]. cbn [tokens word_length].
  destruct (c =? SPACE) eqn:Es; [|destruct (c =? QUOTE) eqn:Eq; [|destruct (c =? APOSTROPHE) eqn:Ea]].
  1,2,3: match goal with |- context [if ?b then tokens _ _ _ _ else _] => destruct b end; [|by rewrite app_nil_r].
  all: rewrite IH; cbn [take drop]; rewrite unquote_cons.
  - apply Z.eqb_eq in Es as ->. cbn. by rewrite <-app_assoc.
  - unfold mark. by rewrite Eq.
  - unfold mark. by rewrite Ea, orb_true_r.
  - unfold mark. rewrite Eq, Ea. cbn [orb]. by rewrite <-app_assoc.
Qed.

Lemma spans_tokens fuel ptr l : (length l < fuel)%nat → unquote <$> (spans fuel ptr l).*2 = words_of l.
Proof.
  revert ptr l. induction fuel as [|fuel IH]; intros ptr l Hf; [lia|]. destruct l as [|c l]; [done|].
  unfold words_of. cbn [spans tokens]. destruct (c =? SPACE) eqn:Es; [apply IH; simpl in Hf; lia|].
  rewrite !fmap_cons. cbn [fst snd]. rewrite IH by (rewrite length_drop; simpl in Hf |- *; lia). unfold words_of.
  cbn [word_length]. rewrite Es. cbn [negb orb].
  destruct (c =? QUOTE) eqn:Eq; [|destruct (c =? APOSTROPHE) eqn:Ea];
    rewrite tokens_word; cbn [take drop]; rewrite unquote_cons; unfold mark; rewrite ?Eq, ?Ea; done.
Qed.

(** successive, from [lo] on and up to [hi], each followed by one more byte *)
Fixpoint apart (lo hi : Z) (sp : list (Z * list Z)) : Prop :=
  match sp with [] => True | (s, r) :: sp => lo ≤ s ∧ s + lenZ r < hi ∧ apart (s + lenZ r + 1) hi sp end.

Lemma apart_mono lo lo' hi sp : lo' ≤ lo → apart lo hi sp → apart lo' hi sp.
Proof. destruct sp as [|[s r] sp]; [done|]. simpl. intuition lia. Qed.

Lemma word_length_le q a l : (word_length q a l ≤ length l)%nat.
Proof.
  revert q a. induction l as [|c l IH]; intros q a; simpl; [lia|].
  repeat case_match; try lia; apply le_n_S, IH.
Qed.

Lemma spans_apart fuel ptr l : apart ptr (ptr + lenZ l + 1) (spans fuel ptr l).
Proof.
  revert ptr l. induction fuel as [|fuel IH]; intros ptr l; [done|]. destruct l as [|c l]; [done|]. cbn [spans].
  destruct (c =? SPACE); [eapply apart_mono; [|replace (ptr + lenZ (c :: l) + 1) with (ptr + 1 + lenZ l + 1) by (simpl; lia); apply IH]; lia|].
  set (n := word_length false false (c :: l)). assert (n ≤ length (c :: l))%nat as Hn by apply word_length_le.
  cbn [apart]. rewrite length_take, Nat.min_l by done. split_and!; [lia|lia|].
  destruct (decide (n = length (c :: l))) as [E|Hne].
  - rewrite (drop_ge _ (S n)) by lia. by destruct fuel.
  - specialize (IH (ptr + Z.of_nat n + 1) (drop (S n) (c :: l))). rewrite length_drop in IH.
    replace (ptr + Z.of_nat n + 1 + Z.of_nat (length (c :: l) - S n) + 1) with (ptr + lenZ (c :: l) + 1) in IH by lia. done.
Qed.

Lemma open_word_length q a l :
  open_word true q a l =
  if decide (word_length q a l = length l) then true else open_word false false false (drop (S (word_length q a l)) l).
Proof.
  assert (∀ n k (b : bool), (if decide (S n = S k) then true else b) = if decide (n = k) then true else b) as HS.
  { intros n k b. destruct (decide (n = k)) as [->|]; [by rewrite decide_True|]. rewrite decide_False; [done|congruence]. }
  revert q a. induction l as [|c l IH]; intros q a; [done|]. cbn [open_word word_length length].
  destruct (c =? SPACE); [|destruct (c =? QUOTE); [|destruct (c =? APOSTROPHE)]].
  - destruct (q || a); [rewrite IH, HS; done|]. by rewrite decide_False by lia.
  - destruct (negb q || a); [rewrite IH, HS; done|]. by rewrite decide_False by lia.
  - destruct (q || negb a); [rewrite IH, HS; done|]. by rewrite decide_False by lia.
  - by rewrite IH, HS.
Qed.

(** the command line [l] at [ptr]: its bytes, its end and, unless every word
    ends before it, one more zero *)
Definition line_at (m : ustack) (ptr : Z) (l : list Z) : Prop :=
  string_at m ptr l ∧ (open_word false false false l = true → m !! (ptr + lenZ l + 1) = Some 0).

Lemma string_at_tail m ptr c l : string_at m ptr (c :: l) → m !! ptr = Some c ∧ string_at m (ptr + 1) l.
Proof. intros H. by apply bytes_at_cons in H. Qed.

Lemma string_at_end m ptr : string_at m ptr [] → m !! ptr = Some 0.
Proof. intros H. by apply bytes_at_cons in H as [? _]. Qed.

(** what follows a word of [n] bytes *)
Lemma string_at_drop m ptr l n : string_at m ptr l → (n < length l)%nat → string_at m (ptr + Z.of_nat n + 1) (drop (S n) l).
Proof.
  revert ptr l. induction n as [|n IH]; intros ptr [|c l] H Hn; [simpl in Hn; lia| |simpl in Hn; lia|]; apply string_at_tail in H as [_ H].
  - by rewrite Z.add_0_r.
  - replace (ptr + Z.of_nat (S n) + 1) with (ptr + 1 + Z.of_nat n + 1) by lia. apply IH; [done|simpl in Hn; lia].
Qed.

Lemma line_at_drop m ptr c l :
  let n := word_length false false (c :: l) in c ≠ SPACE → line_at m ptr (c :: l) → line_at m (ptr + Z.of_nat n + 1) (drop (S n) (c :: l)).
Proof.
  intros n Hc [H1 H2]. assert (open_word false false false (c :: l) = open_word true false false (c :: l)) as E.
  { cbn [open_word]. rewrite (proj2 (Z.eqb_neq _ _) Hc). by cbn [orb negb]. }
  rewrite E, open_word_length in H2. fold n in H2. pose proof (word_length_le false false (c :: l)) as Hn. fold n in Hn.
  destruct (decide (n = length (c :: l))) as [En|Hne].
  - rewrite (drop_ge _ (S n)) by lia. split; [|done]. intros [|i] x Hi; [|done]. injection Hi as <-. rewrite <-(H2 eq_refl). f_equal. rewrite En. simpl. lia.
  - split; [apply string_at_drop; [done|lia]|]. intros Ho. rewrite <-(H2 Ho), length_drop. f_equal. lia.
Qed.

Lemma even_counts_odd q a : even_counts q a = negb (Z.odd q || Z.odd a).
Proof.
  unfold even_counts. change 1 with (Z.ones 1). rewrite !Z.land_ones, !Zmod_odd by lia.
  destruct (Z.odd q), (Z.odd a); done.
Qed.

Lemma odd_succ q : Z.odd (q + 1) = negb (Z.odd q).
Proof. rewrite Z.odd_add. by destruct (Z.odd q). Qed.

Lemma word_end_ok fuel m ptr l qc ac :
  string_at m ptr l → Forall (λ c, c ≠ 0) l → (length l < fuel)%nat →
  word_end fuel ptr qc ac m = Ok (ptr + Z.of_nat (word_length (Z.odd qc) (Z.odd ac) l), m).
Proof.
  revert ptr l qc ac. induction fuel as [|fuel IH]; intros ptr l qc ac Hl Hz Hf; [lia|]. cbn [word_end].
  destruct l as [|c l]; [rewrite (peek_run _ _ _ _ (string_at_end _ _ Hl)); simpl; by rewrite Z.add_0_r|].
  apply string_at_tail in Hl as [Hhd Hl]. rewrite (peek_run _ _ _ _ Hhd). apply Forall_cons in Hz as [Hc Hz].
  assert (length l < fuel)%nat as Hf' by (simpl in Hf; lia).
  rewrite (proj2 (ctrue_true c) Hc). cbn [negb word_length].
  assert (∀ n, ptr + 1 + Z.of_nat n = ptr + Z.of_nat (S n)) as Hsucc by lia.
  rewrite !even_counts_odd.
  destruct (c =? SPACE) eqn:Es; [destruct (Z.odd qc || Z.odd ac) eqn:Eo; cbn [negb]|].
  - rewrite (IH _ l) by done. by rewrite Hsucc.
  - by rewrite Z.add_0_r.
  - destruct (c =? QUOTE) eqn:Eq; [|destruct (c =? APOSTROPHE) eqn:Ea]; cbn [orb].
    + assert ((c =? APOSTROPHE) = false) as -> by (apply Z.eqb_eq in Eq as ->; done). rewrite !Z.add_0_r, odd_succ.
      destruct (negb (Z.odd qc) || Z.odd ac) eqn:Eo; cbn [negb]; [|by rewrite Z.add_0_r].
      rewrite (IH _ l) by done. by rewrite odd_succ, Hsucc.
    + rewrite !Z.add_0_r, odd_succ. destruct (Z.odd qc || negb (Z.odd ac)) eqn:Eo; cbn [negb]; [|by rewrite Z.add_0_r].
      rewrite (IH _ l) by done. by rewrite odd_succ, Hsucc.
    + rewrite (IH _ l) by done. by rewrite Hsucc.
Qed.

Definition span_ends (sp : list (Z * list Z)) : list (Z * Z) := (λ p, (p.1, p.1 + lenZ p.2)) <$> sp.

Lemma skip_spaces_ok fuel m ptr l :
  line_at m ptr l → Forall (λ c, c ≠ 0) l → (length l < fuel)%nat →
  ∃ k r, l = replicate k SPACE ++ r ∧ hd_error r ≠ Some SPACE ∧ line_at m (ptr + Z.of_nat k) r ∧
    skip_spaces fuel ptr m = Ok (ptr + Z.of_nat k, m).
Proof.
  revert ptr l. induction fuel as [|fuel IH]; intros ptr l Hl Hz Hf; [lia|]. cbn [skip_spaces].
  destruct l as [|c l].
  { rewrite (peek_run _ _ _ _ (string_at_end _ _ (proj1 Hl))). exists 0%nat, []. rewrite Z.add_0_r. done. }
  pose proof Hl as [Hst Hz0]. apply string_at_tail in Hst as [Hhd Hst]. rewrite (peek_run _ _ _ _ Hhd). apply Forall_cons in Hz as [Hc Hz].
  rewrite (proj2 (ctrue_true c) Hc). cbn [andb]. destruct (Z.eqb_spec c SPACE) as [->|Hne].
  - assert (line_at m (ptr + 1) l) as Hl1 by (split; [done|]; intros Ho; rewrite <-(Hz0 Ho); f_equal; simpl; lia).
    destruct (IH (ptr + 1) l Hl1 Hz) as (k & r & -> & Hr & Hl' & E); [simpl in Hf; lia|].
    exists (S k), r. rewrite E. replace (ptr + Z.of_nat (S k)) with (ptr + 1 + Z.of_nat k) by lia. done.
  - exists 0%nat, (c :: l). rewrite Z.add_0_r. split_and!; [done| |done|done]. simpl. congruence.
Qed.

Lemma spans_spaces k fuel ptr r :
  spans (k + fuel) ptr (replicate k SPACE ++ r) = spans fuel (ptr + Z.of_nat k) r.
Proof.
  revert ptr. induction k as [|k IH]; intros ptr; [by rewrite Z.add_0_r|]. cbn [Nat.add replicate app spans].
  rewrite Z.eqb_refl, IH. f_equal. lia.
Qed.

(** enough fuel is enough *)
Lemma spans_fuel f f' ptr l : (length l < f)%nat → (length l < f')%nat → spans f ptr l = spans f' ptr l.
Proof.
  revert f' ptr l. induction f as [|f IH]; intros [|f'] ptr l H H'; [lia|lia|lia|]. destruct l as [|c l]; [done|].
  cbn [spans]. simpl in H, H'. destruct (c =? SPACE); [apply IH; lia|]. f_equal. apply IH; rewrite length_drop; simpl; lia.
Qed.

Lemma find_words_ok fuel m ptr l acc :
  line_at m ptr l → Forall (λ c, c ≠ 0) l → (length l < fuel)%nat →
  lenZ acc + lenZ (words_of l) ≤ STACK_LENGTH →
  find_words fuel ptr acc m = Ok (acc ++ span_ends (spans fuel ptr l), m).
Proof.
  revert ptr l acc. induction fuel as [|fuel IH]; intros ptr l acc Hl Hz Hf Hn; [lia|].
  cbn [find_words]. destruct l as [|c l].
  { rewrite (peek_run _ _ _ _ (string_at_end _ _ (proj1 Hl))). cbn. by rewrite app_nil_r. }
  rewrite (peek_run _ _ _ _ (proj1 (string_at_tail _ _ _ _ (proj1 Hl)))). pose proof Hz as [Hc _]%Forall_cons.
  rewrite (proj2 (ctrue_true c) Hc). cbn [negb].
  destruct (skip_spaces_ok (S fuel) m ptr (c :: l) Hl Hz Hf) as (k & r & E & Hr & Hl' & Hs).
  rewrite E in Hz, Hf, Hn |- *. rewrite length_app, length_replicate in Hf. rewrite (bind_ok _ _ _ _ _ Hs).
  rewrite (spans_fuel _ (k + S fuel)) by (rewrite length_app, length_replicate; lia). rewrite spans_spaces.
  apply Forall_app in Hz as [_ Hz]. rewrite <-(spans_tokens (k + S fuel) ptr) in Hn by (rewrite length_app, length_replicate; lia).
  rewrite spans_spaces, (spans_tokens (S fuel)) in Hn by lia. clear E Hl Hs. set (p := ptr + Z.of_nat k) in *. clearbody p.
  destruct r as [|d r].
  { rewrite (peek_run _ _ _ _ (string_at_end _ _ (proj1 Hl'))). cbn. by rewrite app_nil_r. }
  rewrite (peek_run _ _ _ _ (proj1 (string_at_tail _ _ _ _ (proj1 Hl')))). pose proof Hz as [Hd _]%Forall_cons.
  rewrite (proj2 (ctrue_true d) Hd). cbn [negb]. rewrite (bind_ok _ _ _ _ _ (word_end_ok (S fuel) m p (d :: r) 0 0 (proj1 Hl') Hz ltac:(lia))).
  change (Z.odd 0) with false. set (n := word_length false false (d :: r)).
  assert (n ≤ length (d :: r))%nat as Hle by apply word_length_le.
  rewrite <-(spans_tokens (S fuel) p) in Hn by lia. cbn [spans] in Hn |- *.
  assert ((d =? SPACE) = false) as Ed by (apply Z.eqb_neq; intros ->; by apply Hr). rewrite Ed in Hn |- *. fold n in Hn |- *.
  rewrite !fmap_cons in Hn. simpl length in Hn. unfold push_word.
  rewrite (proj2 (Z.ltb_lt (lenZ acc) STACK_LENGTH)) by lia. mstep.
  rewrite (IH _ (drop (S n) (d :: r))).
  - rewrite <-app_assoc. unfold span_ends. rewrite fmap_cons. cbn [fst snd app]. rewrite length_take, Nat.min_l by done. done.
  - apply line_at_drop; [by apply Z.eqb_neq|done].
  - by apply Forall_drop.
  - rewrite length_drop. simpl length in *. lia.
  - rewrite length_app, <-(spans_tokens fuel (p + Z.of_nat n + 1)) by (rewrite length_drop; simpl length in *; lia). simpl length. lia.
Qed.

(** ** Dropping the marks *)
Lemma length_unquote l : (length (unquote l) ≤ length l)%nat.
Proof. apply length_filter. Qed.

(** a write that keeps what [bytes_at] says *)
Lemma poke_bytes m m' a c l : differs a (a + 1) m m' → (c + lenZ l ≤ a ∨ a < c) → bytes_at m c l → bytes_at m' c l.
Proof. intros D Hc. apply (differs_bytes _ _ _ _ _ _ D). lia. Qed.

Lemma strip_loop_ok fuel m s p pre rest :
  bytes_at m s pre → string_at m p rest → Forall (λ c, c ≠ 0) rest → s + lenZ pre ≤ p → (length rest < fuel)%nat →
  (∀ c, s ≤ c ≤ p + lenZ rest → is_Some (m !! c)) →
  ∃ m', strip_loop fuel (s + lenZ pre) p m = Ok (s + lenZ (pre ++ unquote rest), m') ∧
    bytes_at m' s (pre ++ unquote rest) ∧ differs s (p + lenZ rest) m m'.
Proof.
  revert m p pre rest. induction fuel as [|fuel IH]; intros m p pre rest Hpre Hrest Hz Hle Hf Hm; [lia|].
  cbn [strip_loop]. destruct rest as [|c rest].
  { apply bytes_at_cons in Hrest as [H0 _]. rewrite (peek_run _ _ _ _ H0). exists m. rewrite app_nil_r.
    split_and!; [done|done|apply differs_refl]. }
  apply bytes_at_cons in Hrest as [Hc Hrest]. apply Forall_cons in Hz as [Hcz Hz]. simpl length in *.
  rewrite (peek_run _ _ _ _ Hc), (proj2 (ctrue_true c) Hcz). cbn [negb]. fold (mark c). rewrite unquote_cons.
  destruct (mark c) eqn:Em.
  - destruct (IH m (p + 1) pre rest) as (m' & E & Hb & D); [done|done|done|lia|lia|intros; apply Hm; lia|].
    exists m'. split_and!; [done|done|]. eapply differs_mono, D; lia.
  - destruct (poke_ok m (s + lenZ pre) c) as (m1 & E1 & Em1 & D1); [apply Hm; lia|].
    rewrite (bind_ok _ _ _ _ _ E1). destruct (IH m1 (p + 1) (pre ++ [c]) rest) as (m' & E & Hb & D).
    + apply bytes_at_app. split; [by apply (poke_bytes _ _ _ _ _ D1); [lia|]|].
      apply bytes_at_cons. split; [|apply bytes_at_nil]. subst m1. apply lookup_insert_eq.
    + apply (poke_bytes _ _ _ _ _ D1); [lia|done].
    + done.
    + rewrite length_app. simpl. lia.
    + lia.
    + intros d Hd. apply (differs_some _ _ _ _ _ D1), Hm. lia.
    + rewrite length_app in E. simpl length in E. rewrite Nat2Z.inj_add, Z.add_assoc in E. change (Z.of_nat 1) with 1 in E. rewrite E.
      exists m'. rewrite <-app_assoc in Hb |- *. split_and!; [done|done|].
      eapply differs_trans; eapply differs_mono; [| |exact D1| | |exact D]; lia.
Qed.

(** one word *)
Lemma strip_word_ok fuel m s raw (k : () → M ustack ()) :
  bytes_at m s raw → is_Some (m !! (s + lenZ raw)) → Forall (λ c, c ≠ 0) raw → (length raw < fuel)%nat →
  ∃ m', (poke (s + lenZ raw) 0 ;; ptr ← strip_loop fuel s s; poke ptr 0 ;; k ()) m = k () m' ∧
    string_at m' s (unquote raw) ∧ differs s (s + lenZ raw + 1) m m'.
Proof.
  intros Hb He Hz Hf. destruct (poke_ok m _ 0 He) as (m1 & E1 & Em1 & D1). rewrite (bind_ok _ _ _ _ _ E1).
  assert (string_at m1 s raw) as Hs.
  { apply bytes_at_app. split; [apply (poke_bytes _ _ _ _ _ D1); [lia|done]|].
    apply bytes_at_cons. split; [|apply bytes_at_nil]. subst m1. apply lookup_insert_eq. }
  destruct (strip_loop_ok fuel m1 s s [] raw) as (m2 & E2 & B2 & D2); [apply bytes_at_nil|done|done|simpl; lia|done| |].
  { intros c Hc. destruct (decide (c = s + lenZ raw)) as [->|]; [by apply (differs_some _ _ _ _ _ D1)|].
    apply (differs_some _ _ _ _ _ D1). destruct (lookup_lt_is_Some_2 raw (Z.to_nat (c - s))) as [x Hx]; [lia|].
    exists x. specialize (Hb _ _ Hx). by replace (s + Z.of_nat (Z.to_nat (c - s))) with c in Hb by lia. }
  simpl in E2. rewrite Z.add_0_r in E2. rewrite (bind_ok _ _ _ _ _ E2). pose proof (length_unquote raw) as Hl.
  destruct (poke_ok m2 (s + lenZ (unquote raw)) 0) as (m3 & E3 & Em3 & D3).
  { apply (differs_some _ _ _ _ _ D2), (differs_some _ _ _ _ _ D1).
    destruct (decide (length (unquote raw) = length raw)) as [->|]; [done|].
    destruct (lookup_lt_is_Some_2 raw (length (unquote raw))) as [x Hx]; [lia|]. exists x. by apply Hb. }
  rewrite (bind_ok _ _ _ _ _ E3). exists m3. split_and!; [done| |].
  - apply bytes_at_app. split; [apply (poke_bytes _ _ _ _ _ D3); [lia|done]|].
    apply bytes_at_cons. split; [|apply bytes_at_nil]. subst m3. apply lookup_insert_eq.
  - eapply differs_trans; [|eapply differs_trans]; (eapply differs_mono; [| |eassumption]); lia.
Qed.

Lemma apart_starts lo hi sp : apart lo hi sp → Forall (λ p, lo ≤ p.1 ∧ p.1 + lenZ p.2 < hi) sp.
Proof.
  revert lo. induction sp as [|[s r] sp IH]; intros lo; [done|]. simpl. intros (? & ? & H). constructor; [simpl; lia|].
  eapply Forall_impl; [by apply IH|]. simpl. intros. lia.
Qed.

Lemma simplify_ok fuel sp m lo hi :
  apart lo hi sp → Forall (λ p, bytes_at m p.1 p.2 ∧ is_Some (m !! (p.1 + lenZ p.2)) ∧ Forall (λ c, c ≠ 0) p.2 ∧ (length p.2 < fuel)%nat) sp →
  ∃ m', simplify fuel (span_ends sp) m = Ok ((), m') ∧ Forall (λ p, string_at m' p.1 (unquote p.2)) sp ∧ differs lo hi m m'.
Proof.
  revert m lo. induction sp as [|[s r] sp IH]; intros m lo Ha H.
  { exists m. split_and!; [done|constructor|apply differs_refl]. }
  apply Forall_cons in H as [(Hb & He & Hz & Hf) H]. simpl in Hb, He, Hz, Hf, Ha. destruct Ha as (Hlo & Hhi & Ha).
  unfold span_ends. rewrite fmap_cons. cbn [simplify fst snd]. fold (span_ends sp).
  destruct (strip_word_ok fuel m s r (λ _, simplify fuel (span_ends sp)) Hb He Hz Hf) as (m1 & E1 & Hs & D1).
  rewrite E1. destruct (IH m1 (s + lenZ r + 1) Ha) as (m' & E & Hall & D).
  { pose proof (apart_starts _ _ _ Ha) as Hst. rewrite Forall_forall in Hst, H |- *. intros p Hp.
    destruct (Hst _ Hp), (H _ Hp) as (? & ? & ? & ?). split_and!; [|by apply (differs_some _ _ _ _ _ D1)|done|done].
    apply (differs_bytes _ _ _ _ _ _ D1); [lia|done]. }
  exists m'. split_and!; [done| |].
  - constructor; [|done]. cbn [fst snd]. apply (differs_bytes _ _ _ _ _ _ D); [|done]. left.
    rewrite length_app. pose proof (length_unquote r). simpl. lia.
  - eapply differs_trans; (eapply differs_mono; [| |eassumption]); lia.
Qed.

(** ** The program among the words *)
Lemma strchr_at_ok fuel m s (pre : list Z) rest t :
  string_at m (s + lenZ pre) rest → Forall (λ c, c ≠ 0) rest → (length rest < fuel)%nat →
  ∃ i, strchr_at fuel s (lenZ pre) t m = Ok (i, m) ∧ (i = -1 ↔ t ∉ rest).
Proof.
  revert pre rest. induction fuel as [|fuel IH]; intros pre rest Hs Hz Hf; [lia|]. cbn [strchr_at].
  destruct rest as [|c rest]; apply bytes_at_cons in Hs as [Hc Hs]; rewrite (peek_run _ _ _ _ Hc).
  { exists (-1). split; [done|]. split; [intros _ H; by apply elem_of_nil in H|done]. }
  apply Forall_cons in Hz as [Hcz Hz]. rewrite (proj2 (ctrue_true c) Hcz). cbn [negb].
  destruct (Z.eqb_spec c t) as [->|Hne].
  { exists (lenZ pre). split; [done|]. split; [lia|]. intros H. exfalso. apply H. by left. }
  destruct (IH (pre ++ [c]) rest) as (i & Ei & Hi).
  - rewrite length_app. simpl. by rewrite Nat2Z.inj_add, Z.add_assoc.
  - done.
  - simpl in Hf. lia.
  - exists i. rewrite length_app in Ei. simpl in Ei. rewrite Nat2Z.inj_add in Ei. change (Z.of_nat 1) with 1 in Ei.
    split; [done|]. rewrite Hi, not_elem_of_cons. intuition congruence.
Qed.

Definition word_ok (m : ustack) (fuel : nat) (p : Z * list Z) : Prop :=
  string_at m p.1 p.2 ∧ Forall (λ c, c ≠ 0) p.2 ∧ (length p.2 < fuel)%nat.

Lemma find_executable_ok fuel m (words : list (Z * Z)) ws idx env prog args :
  Forall (word_ok m fuel) (zip words.*1 ws) → length words = length ws →
  ws = env ++ prog :: args → Forall (λ w, EQUALS ∈ w) env → EQUALS ∉ prog →
  find_executable fuel words idx m = Ok (idx + lenZ env, m).
Proof.
  intros H Hlen -> Henv Hprog. revert idx words H Hlen. induction env as [|w env IH]; intros idx [|[s e] words] H Hlen;
    [done| |done|]; simpl in H, Hlen; apply Forall_cons in H as [(Hs & Hz & Hf) H]; simpl in Hs, Hz, Hf; cbn [find_executable].
  - destruct (strchr_at_ok fuel m s [] prog EQUALS) as (i & E & Hi); [by rewrite Z.add_0_r|done|done|].
    simpl in E. rewrite (bind_ok _ _ _ _ _ E), (proj2 Hi Hprog). rewrite Z.eqb_refl, Z.add_0_r. done.
  - apply Forall_cons in Henv as [Hw Henv]. destruct (strchr_at_ok fuel m s [] w EQUALS) as (i & E & Hi); [by rewrite Z.add_0_r|done|done|].
    simpl in E. rewrite (bind_ok _ _ _ _ _ E). destruct (Z.eqb_spec i (-1)) as [->|]; [by destruct (proj1 Hi eq_refl)|].
    rewrite IH by (done || lia). f_equal. simpl length. f_equal. lia.
Qed.

Lemma spans_bytes fuel m ptr l :
  bytes_at m ptr l → Forall (λ p, bytes_at m p.1 p.2) (spans fuel ptr l).
Proof.
  revert ptr l. induction fuel as [|fuel IH]; intros ptr l H; [constructor|]. destruct l as [|c l]; [constructor|].
  cbn [spans]. destruct (c =? SPACE); [apply IH; by apply bytes_at_cons in H as [_ ?]|].
  set (n := word_length false false (c :: l)). constructor.
  - cbn [fst snd]. rewrite <-(take_drop n) in H. by apply bytes_at_app in H as [? _].
  - apply IH. rewrite <-(take_drop (S n)) in H. apply bytes_at_app in H as [_ H]. rewrite length_take in H.
    intros i x Hi. destruct (decide (S n ≤ length (c :: l))%nat) as [Hle|Hgt].
    + rewrite Nat.min_l in H by done. replace (ptr + Z.of_nat n + 1) with (ptr + Z.of_nat (S n)) by lia. by apply H.
    + rewrite drop_ge in Hi by lia. done.
Qed.

Lemma spans_nonzero (P : Z → Prop) fuel ptr l : Forall P l → Forall (λ p, Forall P p.2) (spans fuel ptr l).
Proof.
  revert ptr l. induction fuel as [|fuel IH]; intros ptr l H; [constructor|]. destruct l as [|c l]; [constructor|].
  cbn [spans]. destruct (c =? SPACE); [apply IH; by apply Forall_cons in H as [_ ?]|].
  constructor; [cbn [snd]; by apply Forall_take|]. apply IH. by apply Forall_drop.
Qed.

Lemma starts_ends sp : (span_ends sp).*1 = sp.*1.
Proof. unfold span_ends. rewrite <-list_fmap_compose. by apply list_fmap_ext. Qed.

(** the words, after the scan and the removal of the marks *)
Lemma read_words_ok fuel m ptr l :
  line_at m ptr l → Forall (λ c, c ≠ 0) l → (length l < fuel)%nat → lenZ (words_of l) ≤ STACK_LENGTH →
  ∃ words m', find_words fuel ptr [] m = Ok (words, m) ∧ simplify fuel words m = Ok ((), m') ∧
    length words = length (words_of l) ∧ Forall (word_ok m' fuel) (zip words.*1 (words_of l)) ∧
    Forall2 (string_at m') words.*1 (words_of l) ∧ Forall (λ s, ptr ≤ s ≤ ptr + lenZ l) words.*1 ∧
    differs ptr (ptr + lenZ l + 1) m m'.
Proof.
  intros Hl Hz Hf Hn. set (sp := spans fuel ptr l). exists (span_ends sp).
  pose proof (spans_apart fuel ptr l) as Hap. fold sp in Hap. pose proof (apart_starts _ _ _ Hap) as Hst.
  assert (bytes_at m ptr l) as Hb by (destruct Hl as [Hs _]; by apply bytes_at_app in Hs as [? _]).
  assert (words_of l = unquote <$> sp.*2) as Ew by (symmetry; by apply spans_tokens).
  assert (Forall (λ p, bytes_at m p.1 p.2 ∧ is_Some (m !! (p.1 + lenZ p.2)) ∧ Forall (λ c, c ≠ 0) p.2 ∧ (length p.2 < fuel)%nat) sp) as Hsp.
  { pose proof (spans_bytes fuel m ptr l Hb) as H1. pose proof (spans_nonzero _ fuel ptr l Hz) as H2. fold sp in H1, H2.
    rewrite Forall_forall in H1, H2, Hst |- *. intros p Hp. destruct (Hst _ Hp) as [Hlo Hhi].
    split_and!; [by apply H1| |by apply H2|lia]. destruct Hl as [Hs _].
    destruct (lookup_lt_is_Some_2 (l ++ [0]) (Z.to_nat (p.1 + lenZ p.2 - ptr))) as [x Hx]; [rewrite length_app; simpl; lia|].
    exists x. specialize (Hs _ _ Hx). by replace (ptr + Z.of_nat (Z.to_nat (p.1 + lenZ p.2 - ptr))) with (p.1 + lenZ p.2) in Hs by lia. }
  destruct (simplify_ok fuel sp m _ _ Hap Hsp) as (m' & Es & Hstr & D). exists m'.
  assert (Forall2 (string_at m') sp.*1 (unquote <$> sp.*2)) as H2.
  { rewrite !Forall2_fmap. clear -Hstr. induction Hstr; constructor; done. }
  rewrite starts_ends, Ew. split_and!.
  - rewrite (find_words_ok _ _ _ l) by done. done.
  - done.
  - unfold span_ends. by rewrite !length_fmap.
  - clear -Hstr Hsp. induction sp as [|[s r] sp IH]; [constructor|]. apply Forall_cons in Hstr as [H1 Hstr], Hsp as [(_ & _ & H3 & H4) Hsp].
    simpl. constructor; [|by apply IH]. split_and!; [done|apply Forall_forall; intros x [_ Hx]%list_elem_of_filter; by eapply Forall_forall in H3|]. pose proof (length_unquote r). simpl in *. lia.
  - done.
  - apply Forall_fmap. eapply Forall_impl; [exact Hst|]. intros p Hp. cbn beta in Hp. unfold compose. lia.
  - done.
Qed.

Lemma Forall2_take_drop {A B} (R : A → B → Prop) l env rest :
  Forall2 R l (env ++ rest) → Forall2 R (take (length env) l) env ∧ Forall2 R (drop (length env) l) rest.
Proof.
  intros H. apply Forall2_app_inv_r in H as (l1 & l2 & H1 & H2 & ->). pose proof (Forall2_length _ _ _ H1) as <-.
  by rewrite take_app_length, drop_app_length.
Qed.

(** the pushes of [resolve_commands]: environment, arguments, their address and their number *)
Lemma push_arguments_ok m esp (envp argv : list Z) :
  esp < 4294967296 → 4 * lenZ envp + 4 * lenZ argv + 16 ≤ esp → argv ≠ [] →
  Forall (λ v, 0 ≤ v < 4294967296) envp → Forall (λ v, 0 ≤ v < 4294967296) argv →
  let esp' := esp - 4 * lenZ envp - 4 * lenZ argv - 16 in
  (∀ c, esp' + 4 ≤ c < esp + 4 → is_Some (m !! c)) →
  ∃ m', push_arguments esp envp argv (lenZ argv) m = Ok (esp', m') ∧
    words_at m' (esp' + 4) ([lenZ argv; esp' + 12] ++ argv ++ [0] ++ rev envp ++ [0]) ∧ differs (esp' + 4) (esp + 4) m m'.
Proof.
  intros Hesp Hroom Hne Henv Harg esp' Hm. unfold push_arguments.
  destruct (push_ok m esp 0) as (m1 & E1 & B1 & D1); [lia|lia|intros; apply Hm; lia|]. rewrite (bind_ok _ _ _ _ _ E1).
  destruct (push_all_ok envp m1 (esp - 4)) as (m2 & E2 & B2 & D2);
    [lia|done|intros c Hc; apply (differs_some _ _ _ _ _ D1), Hm; lia|]. rewrite (bind_ok _ _ _ _ _ E2). set (e2 := esp - 4 - 4 * lenZ envp) in *.
  destruct (push_ok m2 e2 0) as (m3 & E3 & B3 & D3);
    [lia|lia|intros c Hc; apply (differs_some _ _ _ _ _ D2), (differs_some _ _ _ _ _ D1), Hm; lia|]. rewrite (bind_ok _ _ _ _ _ E3).
  destruct (push_all_ok (rev argv) m3 (e2 - 4)) as (m4 & E4 & B4 & D4); rewrite ?length_rev in *;
    [lia|by apply Forall_rev|intros c Hc; apply (differs_some _ _ _ _ _ D3), (differs_some _ _ _ _ _ D2), (differs_some _ _ _ _ _ D1), Hm; lia|].
  rewrite (bind_ok _ _ _ _ _ E4). rewrite rev_involutive in B4. set (e4 := e2 - 4 - 4 * lenZ argv) in *.
  assert (∀ c, esp' + 4 ≤ c < esp + 4 → is_Some (m4 !! c)) as H4.
  { intros c Hc. apply (differs_some _ _ _ _ _ D4), (differs_some _ _ _ _ _ D3), (differs_some _ _ _ _ _ D2), (differs_some _ _ _ _ _ D1), Hm. lia. }
  destruct (push_ok m4 e4 (e4 + 4)) as (m5 & E5 & B5 & D5); [lia|lia|intros c Hc; apply H4; lia|]. rewrite (bind_ok _ _ _ _ _ E5).
  assert (0 < lenZ argv) as Hpos by (destruct argv; [done|simpl; lia]).
  destruct (push_ok m5 (e4 - 4) (lenZ argv)) as (m6 & E6 & B6 & D6); [lia|lia|intros c Hc; apply (differs_some _ _ _ _ _ D5), H4; lia|].
  replace (e4 - 4 - 4) with esp' in * by lia. exists m6. split_and!; [done| |].
  - assert (∀ a v, words_at m6 a [v] ↔ bytes_at m6 a (le_bytes v)) as Hone.
    { intros a v. split; [intros H; rewrite <-(Z.add_0_r a); by apply (H 0%nat)|]. intros H [|i] w Hi; [|done]. injection Hi as <-. by rewrite Z.add_0_r. }
    change ([lenZ argv; esp' + 12] ++ ?x) with ([lenZ argv] ++ [esp' + 12] ++ x).
    rewrite !words_at_app, !Hone, ?length_rev. cbn [length]. split_and!.
    + by replace (esp' + 4) with (e4 - 4) by lia.
    + replace (esp' + 12) with (e4 + 4) by lia. eapply differs_bytes; [exact D6|right; lia|].
      match goal with |- bytes_at _ ?a _ => by replace a with e4 by lia end.
    + do 2 (eapply differs_words; [eassumption|right; lia|]).
      match goal with |- words_at _ ?a _ => by replace a with (e4 + 4) by lia end.
    + do 3 (eapply differs_bytes; [eassumption|right; lia|]).
      match goal with |- bytes_at _ ?a _ => by replace a with e2 by lia end.
    + do 4 (eapply differs_words; [eassumption|right; lia|]).
      match goal with |- words_at _ ?a _ => by replace a with (e2 + 4) by lia end.
    + do 5 (eapply differs_bytes; [eassumption|right; lia|]).
      match goal with |- bytes_at _ ?a _ => by replace a with esp by lia end.
  - repeat (eapply differs_trans; [eapply differs_mono; [| |eassumption]; lia|]). apply differs_refl.
Qed.

Lemma Forall2_keep {A B} (P : A → Prop) (R R' : A → B → Prop) l k :
  (∀ x y, P x → R x y → R' x y) → Forall P l → Forall2 R l k → Forall2 R' l k.
Proof. intros H HP HR. induction HR; [constructor|]. apply Forall_cons in HP as [? ?]. constructor; auto. Qed.

Definition space_for (command : list Z) : Z := lenZ command + 4 * lenZ (words_of command) + 20.

(** what a started program finds on its stack: above [esp] the number of its
    arguments, the address of [argv], [argv] itself and the environment, both
    ended by a null pointer; the pointers lead to the strings [args] and [env].
    Nothing outside [lo, top) has changed. *)
Definition launched (lo top esp program : Z) (env args : list (list Z)) (m m' : ustack) : Prop :=
  ∃ envp argv, esp `mod` 4 = 0 ∧ lo ≤ esp + 4 ∧ hd_error argv = Some program ∧
    words_at m' (esp + 4) ([lenZ argv; esp + 12] ++ argv ++ [0] ++ rev envp ++ [0]) ∧
    Forall2 (string_at m') argv args ∧ Forall2 (string_at m') envp env ∧ differs lo top m m'.

(** room for a command line below [top]; the byte there must be zero unless
    every word of the line ends before the line does *)
Record stack_room (lo top : Z) (command : list Z) (m : ustack) : Prop := {
  sr_lo : 4 ≤ lo;
  sr_top : top < 4294967296;
  sr_mapped : ∀ a, lo ≤ a ≤ top → is_Some (m !! a);
  sr_end : tidy command ∨ m !! top = Some 0;
  sr_space : lo + space_for command ≤ top }.

Lemma resolve_commands_ok fuel lo top m command env prog args :
  stack_room lo top command m →
  Forall (λ c, c ≠ 0) command → (length command < fuel)%nat → lenZ (words_of command) ≤ STACK_LENGTH →
  words_of command = env ++ prog :: args → Forall (λ w, EQUALS ∈ w) env → EQUALS ∉ prog →
  ∃ esp program m', resolve_commands fuel top command m = Ok ((esp, program), m') ∧
    launched lo top esp program env (prog :: args) m m'.
Proof.
  intros [Hlo Htop Hm H0 Hroom] Hz Hf Hn Ew Henv Hprog. unfold space_for in Hroom. unfold resolve_commands.
  set (ptr := top - (lenZ command + 1)). rewrite (u32_small ptr) by lia.
  destruct (copy_in_ok m ptr (command ++ [0])) as (m1 & E1 & B1 & D1).
  { intros c Hc. rewrite length_app in Hc. simpl in Hc. apply Hm. lia. }
  rewrite length_app in D1. change (length [0]) with 1%nat in D1.
  assert (line_at m1 ptr command) as Hline.
  { split; [done|]. intros Ho. destruct H0 as [H0|H0]; [unfold tidy in H0; congruence|].
    replace (ptr + lenZ command + 1) with top by lia. rewrite (proj2 D1) by lia. done. }
  rewrite (bind_ok _ _ _ _ _ E1). assert (m1 !! (ptr + lenZ command) = Some 0) as Hend.
  { apply bytes_at_app in B1 as [_ B1]. by apply bytes_at_cons in B1 as [? _]. }
  rewrite (peek_run _ _ _ _ Hend). mstep. set (esp0 := ptr - ptr `mod` 4 - 4).
  assert (0 ≤ ptr `mod` 4 < 4) as Hmod by (apply Z.mod_pos_bound; lia). rewrite (u32_small esp0) by lia.
  destruct (read_words_ok fuel m1 ptr command Hline Hz Hf Hn) as (words & m2 & E2 & E3 & Hlen & Hok & Hstr & Hst & D2).
  rewrite (bind_ok _ _ _ _ _ E2), (bind_ok _ _ _ _ _ E3).
  rewrite (bind_ok _ _ _ _ _ (find_executable_ok _ _ _ _ 0 _ _ _ Hok Hlen Ew Henv Hprog)). rewrite Z.add_0_l.
  rewrite (proj2 (Z.ltb_ge (lenZ env) 0)) by lia. rewrite Nat2Z.id. rewrite Ew in Hstr, Hlen. rewrite length_app in Hlen. simpl in Hlen.
  destruct (Forall2_take_drop _ _ _ _ Hstr) as [Henvp Hargv]. set (envp := take (length env) words.*1) in *. set (argv := drop (length env) words.*1) in *.
  assert (∃ program, words.*1 !! length env = Some program ∧ hd_error argv = Some program) as (program & Hp & Hhd).
  { destruct (lookup_lt_is_Some_2 words.*1 (length env)) as [x Hx]; [rewrite length_fmap; lia|]. exists x. split; [done|].
    unfold argv. rewrite (drop_S _ _ _ Hx). done. }
  rewrite (bind_ok _ _ _ program m2) by (apply deref_ok; rewrite <-Hp; symmetry; apply list_lookup_fmap).
  assert (lenZ argv = lenZ words - lenZ env) as Hla by (unfold argv; rewrite length_drop, length_fmap; lia).
  assert (lenZ envp = lenZ env) as Hle by (unfold envp; rewrite length_take, length_fmap; lia).
  assert (Forall (λ v, 0 ≤ v < 4294967296) words.*1) as Hwords by (eapply Forall_impl; [exact Hst|]; simpl; lia).
  rewrite Ew, length_app in Hroom. simpl in Hroom.
  destruct (push_arguments_ok m2 esp0 envp argv) as (m3 & E4 & Hwd & D3).
  - lia.
  - lia.
  - intros E. by rewrite E in Hhd.
  - by apply Forall_take.
  - by apply Forall_drop.
  - intros c Hc. apply (differs_some _ _ _ _ _ D2), (differs_some _ _ _ _ _ D1), Hm. lia.
  - rewrite <-Hla. set (esp := esp0 - 4 * lenZ envp - 4 * lenZ argv - 16) in *.
    assert (esp `mod` 4 = 0) as Hal. 
    { unfold esp, esp0. replace (ptr - ptr `mod` 4 - 4 - 4 * lenZ envp - 4 * lenZ argv - 16) with ((ptr / 4 - 1 - lenZ envp - lenZ argv - 4) * 4)
        by (rewrite (Z.div_mod ptr 4) at 2 by lia; lia). apply Z.mod_mul. lia. }
    exists esp, program, m3.
    assert (∀ s w, ptr ≤ s ≤ ptr + lenZ command → string_at m2 s w → string_at m3 s w) as Hkeep.
    { intros s w Hs. apply (differs_bytes _ _ _ _ _ _ D3). right. lia. }
    split; [|exists envp, argv; split_and!; [done|lia|done|done|..]].
    + rewrite (bind_ok _ _ _ _ _ E4). assert (Z.land esp 1 = 0) as ->; [|done].
      change 1 with (Z.ones 1). rewrite Z.land_ones by lia. change (2 ^ 1) with 2.
      rewrite (Z.div_mod esp 4), Hal by lia. replace (4 * (esp / 4) + 0) with (2 * (esp / 4) * 2) by lia. apply Z.mod_mul. lia.
    + eapply Forall2_keep; [exact Hkeep|by apply Forall_drop|done].
    + eapply Forall2_keep; [exact Hkeep|by apply Forall_take|done].
    + eapply differs_trans; [|eapply differs_trans]; (eapply differs_mono; [| |eassumption]); lia.
Qed.

(** [resolve_commands] (kernel/elf.c) puts a command line on the stack of a
    new task.  For a command line of at most 128 words, the first of which
    without '=' is [prog], with room for it below [top], it returns, and the
    program finds [argc], [argv] and the environment above the new stack
    pointer, which is a multiple of 4: the words before [prog] are the
    environment, [prog] and the words after it the arguments, all as C strings
    without their quotes; no byte at or above [top] or below the room is
    written. *)
Theorem commands_on_stack fuel lo top m command env prog args :
  stack_room lo top command m →
  Forall (λ c, c ≠ 0) command → (length command < fuel)%nat → lenZ (words_of command) ≤ STACK_LENGTH →
  words_of command = env ++ prog :: args → Forall (λ w, EQUALS ∈ w) env → EQUALS ∉ prog →
  ∃ esp program m', resolve_commands fuel top command m = Ok ((esp, program), m') ∧
    launched lo top esp program env (prog :: args) m m'.
Proof. apply resolve_commands_ok. Qed.

(** *** What is composed *)

(** the text written for a variable, for an argument and for all of them *)
Definition quoted_variable (penv : list Z) : list Z :=
  (c ← penv; if c =? EQUALS then [EQUALS; APOSTROPHE] else [c]) ++ [APOSTROPHE; SPACE].
Definition quoted_argument (parg : list Z) : list Z := APOSTROPHE :: parg ++ [APOSTROPHE; SPACE].
Definition command_line (envp argv : list (list Z)) : list Z :=
  concat (quoted_variable <$> envp) ++ concat (quoted_argument <$> argv).

(** [commands_line] with [pre] written and [n] bytes left *)
Definition written (pre : list Z) (n : nat) : list Z * Z := (pre ++ replicate n 0, lenZ pre).

Lemma put_char_ok pre n c : (0 < n)%nat → put_char (written pre n) c = Some (written (pre ++ [c]) (n - 1)).
Proof.
  intros Hn. destruct n as [|n]; [lia|]. unfold put_char, written. cbn [fst snd].
  rewrite array_set_ok by (rewrite length_app, length_replicate; lia). rewrite obind, Nat2Z.id, length_app.
  rewrite (insert_app_r_alt _ _ (length pre)), Nat.sub_diag by lia. simpl. rewrite Nat.sub_0_r, <-app_assoc. simpl.
  do 2 f_equal. lia.
Qed.

#[local] Ltac put := first
  [ rewrite put_char_ok by (rewrite ?length_app in *; simpl in *; lia) | rewrite obind
  | rewrite <-!app_assoc ].

Lemma put_argument_ok parg pre n :
  (length parg ≤ n)%nat → put_argument (written pre n) parg = Some (written (pre ++ parg) (n - length parg)).
Proof.
  revert pre n. induction parg as [|c parg IH]; intros pre n Hn; simpl in *; [by rewrite app_nil_r, Nat.sub_0_r|].
  rewrite put_char_ok, obind, IH, <-app_assoc by lia. do 2 f_equal. simpl. lia.
Qed.

Lemma put_variable_ok penv pre n :
  let out := c ← penv; if c =? EQUALS then [EQUALS; APOSTROPHE] else [c] in
  (length out ≤ n)%nat → put_variable (written pre n) penv = Some (written (pre ++ out) (n - length out)).
Proof.
  cbv zeta. revert pre n. induction penv as [|c penv IH]; intros pre n Hn; [by rewrite app_nil_r, Nat.sub_0_r|].
  cbn [put_variable]. rewrite bind_cons, length_app in Hn |- *. destruct (c =? EQUALS); simpl length in *.
  - rewrite put_char_ok, obind, put_char_ok, obind, IH, <-!app_assoc by lia. do 2 f_equal. lia.
  - rewrite put_char_ok, obind, IH, <-!app_assoc by lia. do 2 f_equal. lia.
Qed.

Lemma put_variables_ok envp pre n :
  (length (concat (quoted_variable <$> envp)) ≤ n)%nat →
  put_variables (written pre n) envp =
  Some (written (pre ++ concat (quoted_variable <$> envp)) (n - length (concat (quoted_variable <$> envp)))).
Proof.
  revert pre n. induction envp as [|penv envp IH]; intros pre n Hn; [by rewrite app_nil_r, Nat.sub_0_r|].
  cbn [put_variables]. rewrite fmap_cons in Hn |- *. cbn [concat] in *. set (rest := concat (quoted_variable <$> envp)) in *. unfold quoted_variable in *.
  rewrite !length_app in Hn |- *. simpl length in *.
  rewrite put_variable_ok, obind, put_char_ok, obind, put_char_ok, obind, IH, <-!app_assoc by lia. do 2 f_equal. lia.
Qed.

Lemma put_arguments_ok argv pre n :
  (length (concat (quoted_argument <$> argv)) ≤ n)%nat →
  put_arguments (written pre n) argv =
  Some (written (pre ++ concat (quoted_argument <$> argv)) (n - length (concat (quoted_argument <$> argv)))).
Proof.
  revert pre n. induction argv as [|parg argv IH]; intros pre n Hn; [by rewrite app_nil_r, Nat.sub_0_r|].
  cbn [put_arguments]. rewrite fmap_cons in Hn |- *. cbn [concat] in *. set (rest := concat (quoted_argument <$> argv)) in *. unfold quoted_argument in *.
  simpl length in *. rewrite !length_app in Hn |- *. simpl length in *.
  rewrite put_char_ok, obind, put_argument_ok, obind, put_char_ok, obind, put_char_ok, obind, IH, <-!app_assoc by lia.
  f_equal. f_equal; [simpl; by rewrite <-app_assoc|lia].
Qed.

Lemma compose_commands_ok envp argv :
  lenZ (command_line envp argv) < MAX_PATH → Forall (λ c, c ≠ 0) (command_line envp argv) →
  ∃ buf, compose_commands envp argv = Some buf ∧ text buf = command_line envp argv.
Proof.
  intros Hl Hz. unfold command_line in Hl. rewrite length_app in Hl. unfold compose_commands.
  change (replicate (Z.to_nat MAX_PATH) 0, 0) with (written [] (Z.to_nat MAX_PATH)).
  rewrite put_variables_ok, obind, put_arguments_ok, obind by lia. eexists. split; [done|]. unfold written. cbn [fst].
  rewrite app_nil_l. fold (command_line envp argv). apply holds_text. split; [done|].
  destruct (Z.to_nat MAX_PATH - length (concat (quoted_variable <$> envp)) - length (concat (quoted_argument <$> argv)))%nat as [|n] eqn:E; [lia|].
  by exists (replicate n 0).
Qed.

(** *** The words of the composed line *)
Definition unmarked (c : Z) : Prop := c ≠ QUOTE ∧ c ≠ APOSTROPHE ∧ c ≠ 0.

Lemma tokens_in_quotes w v l :
  Forall unmarked v → tokens (Some w) false true (v ++ APOSTROPHE :: SPACE :: l) = (w ++ v) :: tokens None false false l.
Proof.
  revert w. induction v as [|c v IH]; intros w Hv; [by rewrite app_nil_r|].
  apply Forall_cons in Hv as [(H2 & H3 & _) Hv]. simpl.
  rewrite (proj2 (Z.eqb_neq _ _) H2), (proj2 (Z.eqb_neq _ _) H3), IH by done.
  destruct (c =? SPACE); by rewrite <-app_assoc.
Qed.

(** a variable that survives: a name with no space in it, one '=', a value *)
Definition variable_ok (penv : list Z) : Prop :=
  ∃ k v, penv = k ++ EQUALS :: v ∧ Forall (λ c, unmarked c ∧ c ≠ SPACE ∧ c ≠ EQUALS) k ∧ Forall (λ c, unmarked c ∧ c ≠ EQUALS) v.

Lemma bind_plain (l : list Z) :
  Forall (λ c, c ≠ EQUALS) l → (c ← l; if c =? EQUALS then [EQUALS; APOSTROPHE] else [c]) = l.
Proof.
  induction l as [|c l IH]; [done|]. intros [Hc Hl]%Forall_cons. rewrite bind_cons, IH by done.
  by rewrite (proj2 (Z.eqb_neq _ _) Hc).
Qed.

Lemma quoted_variable_ok k v :
  Forall (λ c, c ≠ EQUALS) k → Forall (λ c, c ≠ EQUALS) v →
  quoted_variable (k ++ EQUALS :: v) = k ++ EQUALS :: APOSTROPHE :: v ++ [APOSTROPHE; SPACE].
Proof.
  intros Hk Hv. unfold quoted_variable. rewrite bind_app, bind_cons, !bind_plain by done.
  rewrite Z.eqb_refl, <-!app_assoc. done.
Qed.

Lemma tokens_variable penv l :
  variable_ok penv → tokens None false false (quoted_variable penv ++ l) = penv :: tokens None false false l.
Proof.
  intros (k & v & -> & Hk & Hv).
  rewrite quoted_variable_ok by (eapply Forall_impl; [eassumption|]; simpl; tauto).
  replace ((k ++ EQUALS :: APOSTROPHE :: v ++ [APOSTROPHE; SPACE]) ++ l)
    with ((k ++ [EQUALS]) ++ APOSTROPHE :: v ++ APOSTROPHE :: SPACE :: l) by (rewrite <-!app_assoc; simpl; by rewrite <-app_assoc).
  rewrite tokens_start.
  - cbn [tokens]. change (APOSTROPHE =? SPACE) with false. change (APOSTROPHE =? QUOTE) with false. rewrite Z.eqb_refl.
    cbn [orb negb]. rewrite tokens_in_quotes by (eapply Forall_impl; [exact Hv|]; simpl; tauto). by rewrite <-app_assoc.
  - split; [by destruct k|]. apply Forall_app. split; [|by repeat constructor].
    eapply Forall_impl; [exact Hk|]. unfold unmarked. simpl. tauto.
Qed.

Lemma tokens_argument parg l :
  Forall unmarked parg → tokens None false false (quoted_argument parg ++ l) = parg :: tokens None false false l.
Proof.
  intros Hp. unfold quoted_argument. cbn [app tokens]. change (APOSTROPHE =? SPACE) with false.
  change (APOSTROPHE =? QUOTE) with false. rewrite Z.eqb_refl, <-app_assoc. simpl app. by rewrite tokens_in_quotes.
Qed.

Lemma words_of_command_line envp argv :
  Forall variable_ok envp → Forall (Forall unmarked) argv → words_of (command_line envp argv) = envp ++ argv.
Proof.
  intros Hv Ha. unfold words_of, command_line. induction Hv as [|penv envp Hp Hv IH].
  - simpl. induction Ha as [|parg argv Hp Ha IH]; [done|]. rewrite fmap_cons. cbn [concat]. by rewrite tokens_argument, IH.
  - rewrite fmap_cons. cbn [concat]. rewrite <-app_assoc, tokens_variable, IH by done. done.
Qed.

(** every word of the composed line ends before it does *)
Lemma open_in_quotes v l : Forall unmarked v → open_word true false true (v ++ APOSTROPHE :: SPACE :: l) = open_word false false false l.
Proof.
  induction v as [|c v IH]; intros Hv; [done|]. apply Forall_cons in Hv as [(H2 & H3 & _) Hv]. cbn [app open_word].
  rewrite (proj2 (Z.eqb_neq _ _) H2), (proj2 (Z.eqb_neq _ _) H3). cbn [orb]. rewrite IH by done. by destruct (c =? SPACE).
Qed.

Lemma open_plain v l :
  Forall (λ c, c ≠ SPACE ∧ c ≠ QUOTE ∧ c ≠ APOSTROPHE) v → open_word true false false (v ++ l) = open_word true false false l.
Proof.
  induction v as [|c v IH]; intros Hv; [done|]. apply Forall_cons in Hv as [(H1 & H2 & H3) Hv]. cbn [app open_word].
  rewrite (proj2 (Z.eqb_neq _ _) H1), (proj2 (Z.eqb_neq _ _) H2), (proj2 (Z.eqb_neq _ _) H3). by apply IH.
Qed.

Lemma open_variable penv l : variable_ok penv → open_word false false false (quoted_variable penv ++ l) = open_word false false false l.
Proof.
  intros (k & v & -> & Hk & Hv).
  rewrite quoted_variable_ok by (eapply Forall_impl; [eassumption|]; simpl; tauto).
  replace ((k ++ EQUALS :: APOSTROPHE :: v ++ [APOSTROPHE; SPACE]) ++ l)
    with ((k ++ [EQUALS]) ++ APOSTROPHE :: v ++ APOSTROPHE :: SPACE :: l) by (rewrite <-!app_assoc; simpl; by rewrite <-app_assoc).
  assert (Forall (λ c, c ≠ SPACE ∧ c ≠ QUOTE ∧ c ≠ APOSTROPHE) (k ++ [EQUALS])) as Hp.
  { apply Forall_app. split; [|by repeat constructor]. eapply Forall_impl; [exact Hk|]. unfold unmarked. simpl. tauto. }
  destruct (k ++ [EQUALS]) as [|c w] eqn:E; [by destruct k|]. pose proof Hp as [(H1 & H2 & H3) Hw]%Forall_cons.
  cbn [app open_word]. rewrite (proj2 (Z.eqb_neq _ _) H1), (proj2 (Z.eqb_neq _ _) H2), (proj2 (Z.eqb_neq _ _) H3), open_plain by done.
  cbn [open_word]. change (APOSTROPHE =? SPACE) with false. change (APOSTROPHE =? QUOTE) with false. rewrite Z.eqb_refl. cbn [orb negb].
  apply open_in_quotes. eapply Forall_impl; [exact Hv|]. simpl. tauto.
Qed.

Lemma open_argument parg l : Forall unmarked parg → open_word false false false (quoted_argument parg ++ l) = open_word false false false l.
Proof.
  intros Hp. unfold quoted_argument. cbn [app open_word]. change (APOSTROPHE =? SPACE) with false.
  change (APOSTROPHE =? QUOTE) with false. rewrite Z.eqb_refl, <-app_assoc. by apply open_in_quotes.
Qed.

Lemma tidy_command_line envp argv : Forall variable_ok envp → Forall (Forall unmarked) argv → tidy (command_line envp argv).
Proof.
  intros Hv Ha. unfold tidy, command_line. induction Hv as [|penv envp Hp Hv IH].
  - simpl. induction Ha as [|parg argv Hp Ha IH]; [done|]. rewrite fmap_cons. cbn [concat]. by rewrite open_argument.
  - rewrite fmap_cons. cbn [concat]. by rewrite <-app_assoc, open_variable.
Qed.

Lemma length_command_line envp argv : 3 * lenZ argv + 2 * lenZ envp ≤ lenZ (command_line envp argv).
Proof.
  unfold command_line. rewrite length_app.
  assert (3 * lenZ argv ≤ lenZ (concat (quoted_argument <$> argv))).
  { induction argv as [|a argv IH]; [done|]. rewrite fmap_cons. cbn [concat]. rewrite length_app. unfold quoted_argument at 1.
    simpl length in *. rewrite length_app. simpl. lia. }
  assert (2 * lenZ envp ≤ lenZ (concat (quoted_variable <$> envp))); [|lia].
  clear. induction envp as [|a envp IH]; [done|]. rewrite fmap_cons. cbn [concat]. rewrite length_app. unfold quoted_variable at 1.
  simpl length in *. rewrite length_app. simpl. lia.
Qed.

Lemma command_line_nonzero envp argv :
  Forall variable_ok envp → Forall (Forall unmarked) argv → Forall (λ c, c ≠ 0) (command_line envp argv).
Proof.
  intros Hv Ha. unfold command_line. apply Forall_app. split; apply Forall_concat, Forall_fmap.
  - eapply Forall_impl; [exact Hv|]. intros ? (k & v & -> & Hk & Hv'). unfold compose.
    rewrite quoted_variable_ok by (eapply Forall_impl; [eassumption|]; simpl; tauto).
    apply Forall_app. split; [eapply Forall_impl; [exact Hk|]; unfold unmarked; simpl; tauto|].
    repeat (constructor; [done|]). apply Forall_app. split; [eapply Forall_impl; [exact Hv'|]; unfold unmarked; simpl; tauto|].
    by repeat constructor.
  - eapply Forall_impl; [exact Ha|]. intros x Hx. unfold compose, quoted_argument. constructor; [done|].
    apply Forall_app. split; [eapply Forall_impl; [exact Hx|]; unfold unmarked; simpl; tauto|by repeat constructor].
Qed.

(** C17. [call_sys_execve] (kernel/task_misc.c) writes the environment and the
    arguments it is given into one command line, and [resolve_commands]
    (kernel/elf.c) takes them apart again on the stack of the new task: as long
    as the line fits into [commands_line], the new program is given exactly
    the environment and the arguments of the call, spaces inside them and empty
    arguments included.  (Each variable is a name, one '=' and a value; no
    string contains a quotation mark, and the program has no '=' in its
    name.) *)
Theorem execve_passes_arguments fuel lo top m envp prog args :
  stack_room lo top (command_line envp (prog :: args)) m → (Z.to_nat MAX_PATH ≤ fuel)%nat →
  lenZ (command_line envp (prog :: args)) < MAX_PATH →
  Forall variable_ok envp → Forall (Forall unmarked) (prog :: args) → EQUALS ∉ prog →
  ∃ buf esp program m', compose_commands envp (prog :: args) = Some buf ∧
    resolve_commands fuel top (text buf) m = Ok ((esp, program), m') ∧
    launched lo top esp program envp (prog :: args) m m'.
Proof.
  intros Hroom Hf Hl Hv Ha Hp. pose proof (command_line_nonzero _ _ Hv Ha) as Hz.
  pose proof (words_of_command_line _ _ Hv Ha) as Hw. pose proof (length_command_line envp (prog :: args)) as Hlen.
  destruct (compose_commands_ok _ _ Hl Hz) as (buf & Hc & Et).
  destruct (resolve_commands_ok fuel lo top m _ envp prog args Hroom Hz) as (esp & program & m' & Hr & HL).
  - lia.
  - rewrite Hw, length_app. unfold STACK_LENGTH, MAX_PATH in *. lia.
  - done.
  - eapply Forall_impl; [exact Hv|]. intros ? (k & v & -> & _). apply elem_of_app. right. by left.
  - done.
  - exists buf, esp, program, m'. by rewrite Et.
Qed.

(** ** Which files are accepted *)
#[local] Ltac field := first [ rewrite obind
  | match goal with |- context [le16 ?m ?o] => destruct (le16_Some m o) as [? ->]; [lia|lia|] end
  | match goal with |- context [le32 ?m ?o] => destruct (le32_Some m o) as [? ->]; [lia|lia|] end ].

Lemma elf_header_Some mem : ELF_HEADER_SIZE ≤ lenZ mem → is_Some (elf_header mem).
Proof. unfold ELF_HEADER_SIZE. intros H. unfold elf_header. repeat field. by eexists. Qed.

Lemma program_header_Some mem off : 0 ≤ off → off + PROGRAM_HEADER_SIZE ≤ lenZ mem → is_Some (program_header mem off).
Proof. unfold PROGRAM_HEADER_SIZE. intros H1 H2. unfold program_header. repeat field. by eexists. Qed.

(** a program header the loader may use: its bytes lie within a file of [len]
    bytes and, if it is to be loaded, its addresses between the kernel and the
    top of the user stack *)
Record segment_ok (ph : elf32_program_header) (len : Z) : Prop := {
  seg_file : p_offset ph + p_filesz ph ≤ len;
  seg_user : p_type ph = PROGRAM_TYPE_LOAD →
    USERSPACE_BOTTOM ≤ p_vaddr ph ∧ p_vaddr ph + p_memsz ph ≤ USERSPACE_STACK_TOP }.

(** it ends exactly with the file or at the top of the user stack *)
Definition flush (ph : elf32_program_header) (len : Z) : Prop :=
  p_offset ph + p_filesz ph = len ∨ p_type ph = PROGRAM_TYPE_LOAD ∧ p_vaddr ph + p_memsz ph = USERSPACE_STACK_TOP.

(** the fields of a header are 32-bit words; [plain_sizes]: its offset and size
    in the file do not overflow together *)
Record plain_sizes (ph : elf32_program_header) : Prop := {
  ps_file : 0 ≤ p_offset ph + p_filesz ph < 4294967296;
  ps_memory : 0 ≤ p_vaddr ph < 4294967296 ∧ 0 ≤ p_memsz ph < 4294967296 }.

Lemma program_header_ok_iff ph len :
  0 ≤ len < 4294967296 → plain_sizes ph → program_header_ok ph len = true ↔ segment_ok ph len ∧ ¬ flush ph len.
Proof.
  intros Hl [Hf Hm]. unfold program_header_ok, flush. rewrite (u32_small len), (u32_small (_ + _)), andb_true_iff, Z.ltb_lt by lia.
  destruct (Z.eqb_spec (p_type ph) PROGRAM_TYPE_LOAD) as [E|E].
  - assert (u64 (p_vaddr ph + p_memsz ph) = p_vaddr ph + p_memsz ph) as -> by (apply Z.mod_small; lia).
    rewrite andb_true_iff, Z.leb_le, Z.ltb_lt. split.
    + intros (? & ? & ?). split; [split; [lia|intros _; lia]|]. lia.
    + intros [[? H] Hn]. specialize (H E). split_and!; [|lia|]; apply Z.le_neq; (split; [lia|]); intros Eq; apply Hn; [by left|right; done].
  - split; [intros [? _]; split; [split; [lia|done]|lia]|]. intros [[? _] Hn]. split; [|done]. lia.
Qed.

(** the [idx]-th program header of the file *)
Definition header_at (mem : list Z) (hdr : elf32_elf_header) (idx : Z) : option elf32_program_header :=
  program_header mem (e_phoff hdr + PROGRAM_HEADER_SIZE * idx).

Lemma le32_range mem off v : Forall (λ b, 0 ≤ b < 256) mem → le32 mem off = Some v → 0 ≤ v < 4294967296.
Proof.
  intros Hb. assert (∀ i x, array_get mem i = Some x → 0 ≤ x < 256) as H8.
  { intros i x. unfold array_get. case_match; [done|]. intros Hx. by eapply Forall_lookup_1 in Hx; [|done]. }
  assert (∀ off v, le16 mem off = Some v → 0 ≤ v < 65536) as H16.
  { intros o w. unfold le16. destruct (array_get mem o) eqn:E1, (array_get mem (o + 1)) eqn:E2; simpl; try done.
    intros [= <-]. apply H8 in E1, E2. lia. }
  unfold le32. destruct (le16 mem off) eqn:E1, (le16 mem (off + 2)) eqn:E2; simpl; try done. intros [= <-]. apply H16 in E1, E2. lia.
Qed.

Lemma header_sizes mem off ph :
  Forall (λ b, 0 ≤ b < 256) mem → program_header mem off = Some ph → p_offset ph + p_filesz ph < 4294967296 → plain_sizes ph.
Proof.
  intros Hb H. unfold program_header in H.
  repeat match type of H with (?o ≫= _) = _ => let E := fresh "E" in destruct o eqn:E; [apply (le32_range _ _ _ Hb) in E|done]; rewrite obind in H end.
  injection H as <-. cbn [p_offset p_filesz p_vaddr p_memsz]. intros. split; cbn [p_offset p_filesz p_vaddr p_memsz]; lia.
Qed.

Lemma validate_loop_ok mem hdr n idx :
  Forall (λ b, 0 ≤ b < 256) mem →
  (∀ i ph, idx ≤ i < idx + Z.of_nat n → header_at mem hdr i = Some ph → p_offset ph + p_filesz ph < 4294967296) →
  0 ≤ e_phoff hdr → 0 ≤ idx → lenZ mem < 2147483648 →
  e_phoff hdr + PROGRAM_HEADER_SIZE * (idx + Z.of_nat n) ≤ lenZ mem →
  ∃ rc, validate_loop mem (lenZ mem) hdr n idx = Some rc ∧ (rc = OK ∨ rc = - ERR_INVALID_ARG) ∧
    (rc = OK ↔ ∀ i, idx ≤ i < idx + Z.of_nat n → ∃ ph, header_at mem hdr i = Some ph ∧ segment_ok ph (lenZ mem) ∧ ¬ flush ph (lenZ mem)).
Proof.
  intros Hb. revert idx. induction n as [|n IH]; intros idx Hsz Hph Hi Hl Ht; cbn [validate_loop].
  { exists OK. split_and!; [done|by left|]. split; [intros _; lia|done]. }
  unfold PROGRAM_HEADER_SIZE in *. unfold header_offset, PROGRAM_HEADER_SIZE. rewrite (u32_small (idx * 32)), (u32_small (_ + _)) by lia.
  replace (e_phoff hdr + idx * 32) with (e_phoff hdr + 32 * idx) by lia.
  destruct (program_header_Some mem (e_phoff hdr + 32 * idx)) as [ph Eph]; [lia|unfold PROGRAM_HEADER_SIZE; lia|].
  rewrite Eph, obind. assert (header_at mem hdr idx = Some ph) as Hat by done.
  assert (plain_sizes ph) as Hps by (apply (header_sizes _ _ _ Hb Eph), (Hsz idx); [lia|done]).
  destruct (program_header_ok ph (lenZ mem)) eqn:Eok; cbn [negb].
  - destruct (IH (idx + 1)) as (rc & E & Hrc & Hiff); [intros i q Hin; apply Hsz; lia|done|lia|lia|lia|]. exists rc. split_and!; [done|done|]. rewrite Hiff. split.
    + intros H i Hin. destruct (decide (i = idx)) as [->|]; [|apply H; lia]. exists ph. split; [done|].
      apply program_header_ok_iff; [lia|done|done].
    + intros H i Hin. apply H. lia.
  - exists (- ERR_INVALID_ARG). split_and!; [done|by right|]. split; [done|]. intros H. exfalso.
    destruct (H idx) as (ph' & E' & Hok); [lia|]. rewrite Hat in E'. injection E' as <-.
    apply program_header_ok_iff in Hok; [congruence|lia|done].
Qed.

(** a 32-bit little-endian i386 executable *)
Record static_elf32 (mem : list Z) (hdr : elf32_elf_header) : Prop := {
  elf_magic : take 6 mem = [0x7f; 69; 76; 70; 1; 1];
  elf_exec : e_type hdr = 2;
  elf_i386 : e_machine hdr = 3;
  elf_version : e_version hdr = 1;
  elf_sizes : e_ehsize hdr = 52 ∧ e_phentsize hdr = 32 ∧ e_shentsize hdr = 40 }.

Lemma elf_header_fields mem hdr :
  elf_header mem = Some hdr → Forall (λ b, 0 ≤ b < 256) mem → e_ident hdr = take 16 mem ∧ 0 ≤ e_phoff hdr ∧ 0 ≤ e_phnum hdr.
Proof.
  intros H Hb.
  assert (∀ i x, array_get mem i = Some x → 0 ≤ x) as H8.
  { intros i x. unfold array_get. case_match; [done|]. intros Hx. eapply Forall_lookup_1 in Hx; [|done]. cbn beta in Hx. lia. }
  assert (∀ off v, le16 mem off = Some v → 0 ≤ v) as H16.
  { intros off v. unfold le16. destruct (array_get mem off) eqn:E1, (array_get mem (off + 1)) eqn:E2; simpl; try done.
    intros [= <-]. apply H8 in E1, E2. lia. }
  assert (∀ off v, le32 mem off = Some v → 0 ≤ v) as H32.
  { intros off v. unfold le32. destruct (le16 mem off) eqn:E1, (le16 mem (off + 2)) eqn:E2; simpl; try done. intros [= <-].
    apply H16 in E1, E2. lia. }
  unfold elf_header in H.
  repeat match type of H with (?o ≫= _) = _ => let E := fresh "E" in destruct o eqn:E; [|done]; rewrite obind in H end.
  injection H as <-. cbn [e_ident e_phoff e_phnum]. split_and!; [done|by eapply H32|by eapply H16].
Qed.

Lemma elf_header_ok_iff mem hdr :
  elf_header mem = Some hdr → Forall (λ b, 0 ≤ b < 256) mem → ELF_HEADER_SIZE ≤ lenZ mem →
  elf_header_ok hdr = true ↔ static_elf32 mem hdr.
Proof.
  intros H Hb Hl. destruct (elf_header_fields _ _ H Hb) as (Eid & _ & _). unfold elf_header_ok. rewrite Eid.
  do 6 (destruct mem as [|? mem]; [done|]). clear H Hl.
  repeat (apply Forall_cons in Hb as [? Hb]).
  assert (take 6 (z :: z0 :: z1 :: z2 :: z3 :: z4 :: mem) = [z; z0; z1; z2; z3; z4]) as Etake by done.
  rewrite !andb_true_iff, !bool_decide_eq_true, !Z.eqb_eq. cbn. split.
  - intros ((((((((E1 & E2) & E3) & E4) & E5) & E6) & E7) & E8) & E9). split; [|done..]. rewrite Etake.
    injection E1 as E1. injection E2 as ->. injection E3 as ->. unfold ELF32_IDENTITY_ELF in E1. do 4 f_equal; [lia..|]. 
    f_equal; lia.
  - intros [E1 E2 E3 E4 (E5 & E6 & E7)]. rewrite Etake in E1. injection E1 as -> -> -> -> -> ->. done.
Qed.

(** C18. [validate_static_elf32_format] (kernel/elf.c) decides which files the
    loader may use.  A file shorter than an ELF header is refused.  For a file
    whose table of program headers lies inside it and whose headers have an
    offset and size that do not overflow together, the check reads nothing
    outside the file, returns [OK] or [-ERR_INVALID_ARG], and returns [OK] if
    and only if the file starts with the ELF magic number, is a 32-bit
    little-endian i386 executable with headers of the sizes the loader uses, and
    every program header describes bytes of the file and, if it is to be loaded,
    addresses of the user part of the address space ([segment_ok]), without
    ending exactly with the file or at the top of the user stack ([flush]): the
    comparisons are strict, so that such a segment is refused too
    ([elf_refuses_segment_at_end]).  The types of the other headers do not
    matter: a dynamically linked executable is accepted
    ([elf_accepts_dynamic]).  What happens without the two conditions is shown by
    [elf_reads_outside_file] and [elf_accepts_wrapped_segment]. *)
Theorem validate_decides mem :
  Forall (λ b, 0 ≤ b < 256) mem → lenZ mem < 2147483648 →
  (lenZ mem < ELF_HEADER_SIZE → validate_static_elf32_format mem (lenZ mem) = Some (- ERR_INVALID_ARG)) ∧
  ∀ hdr, ELF_HEADER_SIZE ≤ lenZ mem → elf_header mem = Some hdr →
    e_phoff hdr + PROGRAM_HEADER_SIZE * e_phnum hdr ≤ lenZ mem →
    (∀ i ph, 0 ≤ i < e_phnum hdr → header_at mem hdr i = Some ph → p_offset ph + p_filesz ph < 4294967296) →
    ∃ rc, validate_static_elf32_format mem (lenZ mem) = Some rc ∧ (rc = OK ∨ rc = - ERR_INVALID_ARG) ∧
      (rc = OK ↔ static_elf32 mem hdr ∧
         ∀ i, 0 ≤ i < e_phnum hdr → ∃ ph, header_at mem hdr i = Some ph ∧ segment_ok ph (lenZ mem) ∧ ¬ flush ph (lenZ mem)).
Proof.
  intros Hb Hl. unfold validate_static_elf32_format. rewrite u32_small by lia. split.
  { intros Hs. by rewrite (proj2 (Z.leb_gt _ _) Hs). }
  intros hdr Hs Hh Ht Hsz. rewrite (proj2 (Z.leb_le _ _) Hs). cbn [negb]. rewrite Hh, obind.
  destruct (elf_header_fields _ _ Hh Hb) as (_ & Hph & Hn). pose proof (elf_header_ok_iff mem hdr Hh Hb Hs) as Hok.
  destruct (elf_header_ok hdr) eqn:Eok; cbn [negb].
  - destruct (validate_loop_ok mem hdr (Z.to_nat (e_phnum hdr)) 0) as (rc & E & Hrc & Hiff);
      [done|rewrite Z.add_0_l, Z2Nat.id; done|done|lia|done|rewrite Z.add_0_l, Z2Nat.id; done|].
    rewrite Z.add_0_l, Z2Nat.id in Hiff by done. exists rc. split_and!; [done|done|]. rewrite Hiff, <-Hok. tauto.
  - exists (- ERR_INVALID_ARG). split_and!; [done|by right|]. split; [done|]. rewrite <-Hok. by intros [? _].
Qed.

Module ElfExample.
Definition le_half (v : Z) : list Z := [v `mod` 256; (v / 256) `mod` 256].

(** a file with one program header and four bytes of text *)
Definition elf_file (phoff offset vaddr filesz memsz : Z) : list Z :=
  [0x7f; 69; 76; 70; 1; 1; 1; 0] ++ replicate 8 0 ++ le_half 2 ++ le_half 3 ++ le_bytes 1 ++ le_bytes 0x40000000 ++
  le_bytes phoff ++ le_bytes 0 ++ le_bytes 0 ++ le_half 52 ++ le_half 32 ++ le_half 1 ++ le_half 40 ++ le_half 0 ++ le_half 0 ++
  le_bytes 1 ++ le_bytes offset ++ le_bytes vaddr ++ le_bytes 0 ++ le_bytes filesz ++ le_bytes memsz ++ le_bytes 5 ++ le_bytes 4096 ++
  [0x90; 0x90; 0xeb; 0xfe; 0].
Definition good : list Z := elf_file 52 84 0x40000000 4 4096.
Definition good_header : elf32_elf_header :=
  mk_elf (take 16 good) 2 3 1 0x40000000 52 0 0 52 32 1 40 0 0.

Lemma good_bytes : Forall (λ b, 0 ≤ b < 256) good.
Proof. apply (bool_decide_unpack _). vm_compute. done. Qed.

(** witness of [validate_decides]: the file is accepted *)
Lemma validate_decides_witness :
  (∃ rc, validate_static_elf32_format good 89 = Some rc ∧ (rc = OK ∨ rc = - ERR_INVALID_ARG) ∧
      (rc = OK ↔ static_elf32 good good_header ∧
         ∀ i, 0 ≤ i < 1 → ∃ ph, header_at good good_header i = Some ph ∧ segment_ok ph 89 ∧ ¬ flush ph 89)) ∧
  validate_static_elf32_format good 89 = Some OK.
Proof.
  split; [|vm_compute; reflexivity].
  apply (proj2 (validate_decides good good_bytes eq_refl) good_header); [done|vm_compute; reflexivity|done|].
  intros i ph Hi. change (e_phnum good_header) with 1 in Hi. assert (i = 0) as -> by lia. intros E. vm_compute in E. by injection E as <-.
Defined.

(** A segment whose file offset and size add up to more than 2^32 is accepted
    although it lies outside the file (89 bytes). *)
Theorem elf_accepts_wrapped_segment :
  validate_static_elf32_format (elf_file 52 0xfffffff0 0x40000000 0x20 0x1000) 89 = Some OK.
Proof. vm_compute. reflexivity. Qed.

(** A segment whose last byte is the last byte of the file (89 bytes) is refused. *)
Theorem elf_refuses_segment_at_end :
  validate_static_elf32_format (elf_file 52 84 0x40000000 5 4096) 89 = Some (- ERR_INVALID_ARG).
Proof. vm_compute. reflexivity. Qed.

(** A program header of type PT_INTERP (3), which names the dynamic linker, is accepted. *)
Theorem elf_accepts_dynamic :
  validate_static_elf32_format (take 52 good ++ le_bytes 3 ++ drop 56 good) 89 = Some OK.
Proof. vm_compute. reflexivity. Qed.

(** The table of program headers itself is not compared with the length of the
    file: the check reads outside it. *)
Theorem elf_reads_outside_file :
  validate_static_elf32_format (elf_file 0x100000 84 0x40000000 4 0x1000) 89 = None.
Proof. vm_compute. reflexivity. Qed.

(** A segment may lie in the area of the user stack, and need not start at a page. *)
Theorem elf_accepts_stack_overlap :
  validate_static_elf32_format (elf_file 52 84 0x9f800001 4 0x7ffffe) 89 = Some OK.
Proof. vm_compute. reflexivity. Qed.

(** ** A command line *)
Definition stack (lo n top b : Z) : ustack :=
  <[top := b]> (list_to_map ((λ i, (lo + Z.of_nat i, 0)) <$> seq 0 (Z.to_nat n))).
Definition line (s : string) : list Z := (λ c, Z.of_N (Ascii.N_of_ascii c)) <$> String.list_ascii_of_string s.

Lemma stack_mapped a : 0x1000 ≤ a < 0x1100 → is_Some (stack 0x1000 256 0x10f0 0 !! a).
Proof.
  assert (Forall (λ a, is_Some (stack 0x1000 256 0x10f0 0 !! a)) (seqZ 0x1000 256)) as H
    by (apply (bool_decide_unpack _); vm_compute; done).
  intros Ha. rewrite Forall_forall in H. apply H, elem_of_seqZ. lia.
Qed.

Lemma example_room command : space_for command ≤ 0xf0 → stack_room 0x1000 0x10f0 command (stack 0x1000 256 0x10f0 0).
Proof.
  intros Hs. split; [done|done|intros a Ha; apply stack_mapped; lia|right; apply lookup_insert_eq|lia].
Qed.

(** witness of [commands_on_stack]: an environment variable, the program and two arguments *)
Lemma commands_on_stack_witness :
  ∃ esp program m',
    resolve_commands 300 0x10f0 (line "tty='a b' /bin/ls -l /etc") (stack 0x1000 256 0x10f0 0) = Ok ((esp, program), m') ∧
    launched 0x1000 0x10f0 esp program [line "tty=a b"] [line "/bin/ls"; line "-l"; line "/etc"] (stack 0x1000 256 0x10f0 0) m'.
Proof.
  apply (commands_on_stack 300 0x1000 0x10f0 (stack 0x1000 256 0x10f0 0) (line "tty='a b' /bin/ls -l /etc") [line "tty=a b"]
           (line "/bin/ls") [line "-l"; line "/etc"]).
  - apply example_room. vm_compute. done.
  - apply (bool_decide_unpack _). vm_compute. done.
  - apply (bool_decide_unpack _). vm_compute. done.
  - vm_compute. done.
  - vm_compute. reflexivity.
  - apply (bool_decide_unpack _). vm_compute. done.
  - apply (bool_decide_unpack _). vm_compute. done.
Defined.

(** witness of [execve_passes_arguments]: an argument with a space and an empty one *)
Lemma execve_passes_arguments_witness :
  ∃ buf esp program m', compose_commands [line "tty=console"] [line "/bin/ls"; line "a b"; []] = Some buf ∧
    resolve_commands 300 0x10f0 (text buf) (stack 0x1000 256 0x10f0 0) = Ok ((esp, program), m') ∧
    launched 0x1000 0x10f0 esp program [line "tty=console"] [line "/bin/ls"; line "a b"; []] (stack 0x1000 256 0x10f0 0) m'.
Proof.
  apply (execve_passes_arguments 300 0x1000 0x10f0 (stack 0x1000 256 0x10f0 0) [line "tty=console"] (line "/bin/ls") [line "a b"; []]).
  - apply example_room. vm_compute. done.
  - apply (bool_decide_unpack _). vm_compute. done.
  - vm_compute. done.
  - constructor; [|constructor]. exists (line "tty"), (line "console"). split; [vm_compute; reflexivity|].
    split; repeat constructor; vm_compute; congruence.
  - repeat constructor; vm_compute; congruence.
  - apply (bool_decide_unpack _). vm_compute. done.
Defined.

(** what is on the stack: the bytes of the word at [a] *)
Definition word (m : ustack) (a : Z) : option Z := le32 (omap (λ i, m !! (a + i)) [0; 1; 2; 3]) 0.

(** The scan for words steps over the end of the command line when the last
    word ends there: a byte left on the page above it is one more argument
    (2 instead of 1). *)
Theorem stale_byte_becomes_argument :
  match resolve_commands 300 0x10f0 (line "/bin/ls") (stack 0x1000 256 0x10f0 88) with
  | Ok ((esp, _), m') => word m' (esp + 4)
  | Err _ => None
  end = Some 2.
Proof. vm_compute. reflexivity. Qed.

(** A command line every word of which contains '=' has no program: the code reads [start_stack[-1]]. *)
Theorem commands_without_program :
  resolve_commands 300 0x10f0 (line "cwd=/") (stack 0x1000 256 0x10f0 0) = Err BadAccess.
Proof. vm_compute. reflexivity. Qed.

(** [call_sys_execve] does not compare the length of its strings with that of
    [commands_line]: with long ones it writes outside the array. *)
Theorem execve_overflows : compose_commands [] [replicate 300 97] = None.
Proof. vm_compute. reflexivity. Qed.
End ElfExample.
