(* ===== verification/Loader.v ===== *)
(** * Loading a program: load_static_elf32 of kernel/elf.c, task creation of kernel/task.c

    The whole loader: the task structure and its kernel stacks, the areas of
    the address space, the page directory, the mapping of the areas, the copy
    of the segments through the new address space, the command line on the new
    stack, the first CPU frame and the registration of the task, with every
    error path.

    The state is that of the task management (Task, Sched) with the page
    tables, and next to it the results the coming calls of [malloc] return
    (Malloc is the allocator; NULL is a failure), the bytes of physical memory
    outside of page tables, the next task id and the names of the tasks.  Bytes
    at user addresses are read and written through the directory in CR3
    ([ByteMemory] of Elf). *)

From Stdlib Require Import Ascii String ZifyNat.
From stdpp Require Import gmap list.
From S2P Require Import Prelude PageAlloc Paging CString Path Printk Vma TaskPaging Space Task Sched Elf.
Open Scope Z_scope.
Open Scope zelda_scope.

Definition DEFAULT_TASK_PRIVILEGED_STACK_SIZE : Z := 2 * 1024 * 1024.
Definition DEFAULT_TASK_NON_PRIVILEGED_STACK_SIZE : Z := 8 * 1024 * 1024.
Definition DEFAULT_TASK_PRIVILEGED_SIGNAL_STACK_SIZE : Z := 512 * 1024.
Definition DEFAULT_TASK_NON_PRIVILEGED_SIGNAL_STACK_SIZE : Z := 1024 * 1024.
Definition KERNELSPACE_TOP : Z := USERSPACE_BOTTOM.

Record lstate := mk_ls {
  lk : kst;
  heap : list Z;
  ram : Z → Z;
  task_seed : Z;
  task_names : gmap Z (list Z) }.
Definition lk_l : lens lstate kst := Lens lk (λ k s, mk_ls k (heap s) (ram s) (task_seed s) (task_names s)).
Definition on_k {A} (m : M kst A) : M lstate A := zoom lk_l m.
Definition on_tp {A} (m : M tpstate A) : M lstate A := on_k (zoom paging_l m).
Definition on_pg {A} (m : M pstate A) : M lstate A := on_tp (on_ps m).

(** [malloc] *)
Definition kmalloc : M lstate Z :=
  λ s, match heap s with
       | [] => Ok (NULL, s)
       | a :: h => Ok (a, mk_ls (lk s) h (ram s) (task_seed s) (task_names s))
       end.

(** ** User memory *)

(** the physical address behind a user address, through the directory in CR3 *)
Definition user_phys (p : pstate) (va : Z) : option Z := (λ e, phys_of e va) <$> translate (mem p) (cr3 p) va.
Definition pages (s : lstate) : pstate := tps (paging (lk s)).

#[export] Instance user_memory : ByteMemory lstate := {|
  peek va := λ s, match user_phys (pages s) va with Some pa => Ok (ram s pa, s) | None => Err BadAccess end;
  poke va b := λ s, match user_phys (pages s) va with
    | Some pa => Ok ((), mk_ls (lk s) (heap s) (λ a, if a =? pa then b else ram s a) (task_seed s) (task_names s))
    | None => Err BadAccess
    end |}.

Section loader.
Variable kernel_bss_end : Z.

(** the loop of [malloc_align_mapped]: the pages of [virt_addr] up to [hi] are mapped in the kernel directory *)
Fixpoint map_heap_loop (fuel : nat) (virt_addr hi : Z) : M pstate () :=
  match fuel with
  | O => fail Diverge
  | S fuel =>
      if virt_addr <? hi then
        pd ← get_kernel_page_directory;
        rc ← page_present pd virt_addr;
        when (negb (rc =? OK)) (
          __addr ← zoom pal_l (get_page kernel_bss_end);
          ASSERT (ctrue __addr) ;;
          kernel_map_page virt_addr __addr PAGE_PERMISSION_READ_WRITE PAGE_WRITEBACK PAGE_CACHE_ENABLED ;;
          rc ← page_present pd virt_addr;
          ASSERT (! rc)) ;;
        map_heap_loop fuel (u32 (virt_addr + PAGE_SIZE)) hi
      else mret ()
  end.

Definition malloc_align_mapped (len : Z) : M lstate Z :=
  addr ← kmalloc;
  if ! addr then mret NULL else
  on_pg (map_heap_loop (frames addr (addr + len)) addr (u32 (addr + len))) ;;
  mret addr.

(** ** The task *)
Definition zero_task (id : Z) : task :=
  mk_task id TASK_STATE_ZOMBIE TASK_STATE_ZOMBIE 0 NULL NULL 0 0 0 0 (replicate (Z.to_nat SIG_MAX) no_signal)
    initialize_wait_queue_head (replicate (Z.to_nat MAX_FILE_DESCRIPTR_PER_TASK) closed_entry) [] NULL 0 NULL NULL 0 0 0.

Definition malloc_task : M lstate Z :=
  _task ← kmalloc;
  if ! _task then mret NULL else
  id ← gets task_seed;
  modify (λ s, mk_ls (lk s) (heap s) (ram s) (u32 (id + 1)) (<[_task := replicate (Z.to_nat MAX_PATH) 0]> (task_names s))) ;;
  on_k (zoom tasks_l (modify (<[_task := zero_task id]>))) ;;
  mret _task.

(** ** The areas *)
Definition area_name (s : string) : list Z := default [] (strcpy_safe (replicate 64 0) (literal s) 64).

(** [_vma = malloc(...)], its fields and [list_append]; false when [malloc] fails *)
Definition add_area (_task : Z) (v : vm_area) : M lstate bool :=
  _vma ← kmalloc;
  if ! _vma then mret false else
  on_tp (zoom tareas_l (modify (<[_vma := v]>))) ;;
  on_k (update_task _task (λ t, set_vma_list (vma_list t ++ [_vma]) t)) ;;
  mret true.

Definition kernel_area : vm_area :=
  mk_area (area_name "kernelspace.vma") 1 0 0 PAGE_PERMISSION_READ_ONLY PAGE_WRITEBACK PAGE_CACHE_ENABLED 0 0 0 KERNELSPACE_TOP.

(** rounding up to pages *)
Definition round_up (x : Z) : Z := if ctrue (Z.land x PAGE_MASK) then Z.land x (Z.lnot PAGE_MASK) + PAGE_SIZE else x.

Definition segment_area (name : list Z) (ph : elf32_program_header) : vm_area :=
  mk_area name 0 1 0 PAGE_PERMISSION_READ_WRITE PAGE_WRITEBACK PAGE_CACHE_ENABLED
    (if ctrue (Z.land (p_flags ph) PROGRAM_EXECUTE) then 1 else 0) (p_vaddr ph) (p_paddr ph) (round_up (p_memsz ph)).

Definition heap_vma (heap_start : Z) : vm_area :=
  mk_area (area_name "userspace.vma.heap") 0 0 0 PAGE_PERMISSION_READ_WRITE PAGE_WRITEBACK PAGE_CACHE_ENABLED 0 heap_start 0 0.

Definition stack_vma : vm_area :=
  mk_area (area_name "userspace.vma.stack") 0 1 0 PAGE_PERMISSION_READ_WRITE PAGE_WRITEBACK PAGE_CACHE_ENABLED 0
    (USERSPACE_STACK_TOP - DEFAULT_TASK_NON_PRIVILEGED_STACK_SIZE) 0 DEFAULT_TASK_NON_PRIVILEGED_STACK_SIZE.

Definition signal_stack_vma : vm_area :=
  mk_area (area_name "userspace.vma.signal_stack") 0 1 0 PAGE_PERMISSION_READ_WRITE PAGE_WRITEBACK PAGE_CACHE_ENABLED 0
    (USERSPACE_SIGNAL_STACK_TOP - DEFAULT_TASK_NON_PRIVILEGED_SIGNAL_STACK_SIZE) 0 DEFAULT_TASK_NON_PRIVILEGED_SIGNAL_STACK_SIZE.

(** the loop over the program headers that makes the text and data areas: the
    start of the heap, or [None] when [malloc] fails *)
Fixpoint segment_areas (mem : list Z) (elf_hdr : elf32_elf_header) (_task : Z) (n : nat) (idx counter heap_start : Z)
    : M lstate (option Z) :=
  match n with
  | O => mret (Some heap_start)
  | S n =>
      program_hdr ← deref (program_header mem (header_offset elf_hdr idx));
      if negb (p_type program_hdr =? PROGRAM_TYPE_LOAD)
      then segment_areas mem elf_hdr _task n (idx + 1) counter heap_start else
      let segment_end := u32 (p_vaddr program_hdr + p_memsz program_hdr) in
      let heap_start := if (! heap_start) || (heap_start <? segment_end) then segment_end else heap_start in
      ASSERT (! Z.land (p_vaddr program_hdr) PAGE_MASK) ;;
      name ← deref (snd <$> sprintf (replicate 64 0) (literal "%s.%d") [ArgS (literal "userspace.vma.text&data"); ArgI counter]);
      name ← deref (strcpy_safe (replicate 64 0) name 64);
      done ← add_area _task (segment_area name program_hdr);
      if negb done then mret None
      else segment_areas mem elf_hdr _task n (idx + 1) (counter + 1) heap_start
  end.

(** all areas; false when [malloc] fails *)
Definition make_areas (mem : list Z) (elf_hdr : elf32_elf_header) (_task : Z) : M lstate bool :=
  done ← add_area _task kernel_area;
  if negb done then mret false else
  heap_start ← segment_areas mem elf_hdr _task (Z.to_nat (e_phnum elf_hdr)) 0 0 0;
  match heap_start with
  | None => mret false
  | Some heap_start =>
      done ← add_area _task (heap_vma (round_up heap_start));
      if negb done then mret false else
      done ← add_area _task stack_vma;
      if negb done then mret false else
      add_area _task signal_stack_vma
  end.

Definition set_write_permission (w : Z) (v : vm_area) : vm_area :=
  mk_area (a_name v) (a_kernel_vma v) (a_pre_map v) (a_exact v) w (a_page_writethrough v) (a_page_cachedisable v)
    (a_executable v) (a_virt_addr v) (a_phy_addr v) (a_length v).

(** the bytes of a segment in the file *)
Definition segment_bytes (mem : list Z) (ph : elf32_program_header) : option (list Z) :=
  if lenZ mem <? p_offset ph + p_filesz ph then None
  else Some (take (Z.to_nat (p_filesz ph)) (drop (Z.to_nat (p_offset ph)) mem)).

(** the loop that copies the segments and gives their areas the final permission *)
Fixpoint copy_segments (mem : list Z) (elf_hdr : elf32_elf_header) (page_directory : Z) (vma_list : list Z) (n : nat) (idx : Z)
    : M lstate () :=
  match n with
  | O => mret ()
  | S n =>
      program_hdr ← deref (program_header mem (header_offset elf_hdr idx));
      if negb (p_type program_hdr =? PROGRAM_TYPE_LOAD) then copy_segments mem elf_hdr page_directory vma_list n (idx + 1) else
      bytes ← deref (segment_bytes mem program_hdr);
      copy_in (p_vaddr program_hdr) bytes ;;
      _vma ← on_tp (zoom tareas_l (search_userspace_vma_by_addr vma_list (p_vaddr program_hdr)));
      ASSERT (ctrue _vma) ;;
      on_tp (zoom tareas_l (update _vma (set_write_permission
        (if ctrue (Z.land (p_flags program_hdr) PROGRAM_WRITE) then PAGE_PERMISSION_READ_WRITE else PAGE_PERMISSION_READ_ONLY)))) ;;
      on_tp (userspace_remap_vm_area page_directory _vma) ;;
      copy_segments mem elf_hdr page_directory vma_list n (idx + 1)
  end.

(** ** The loader *)

(** the task on the CPU again, or the kernel's own space *)
Definition resume (prev_task : Z) : M lstate () :=
  on_k (set_current prev_task) ;;
  if ctrue prev_task then
    t ← on_k (load_task prev_task);
    on_pg (enable_task_paging (page_directory t)) ;; mret ()
  else on_pg enable_kernel_paging.

Definition task_error (_task prev_task ret : Z) : M lstate Z :=
  when (ctrue _task) (
    t ← on_k (load_task _task);
    when (ctrue (privilege_level0_stack t)) (on_k (kfree (privilege_level0_stack t))) ;;
    when (ctrue (signaled_privilege_level0_stack t)) (on_k (kfree (signaled_privilege_level0_stack t))) ;;
    on_k (free_task _task)) ;;
  resume prev_task ;;
  mret ret.

Definition vma_error (_task prev_task ret : Z) : M lstate Z :=
  t ← on_k (load_task _task);
  on_k (free_areas (rev (vma_list t))) ;;
  on_k (update_task _task (set_vma_list [])) ;;
  task_error _task prev_task ret.

Definition page_error (_task prev_task ret : Z) : M lstate Z :=
  on_pg enable_kernel_paging ;;
  t ← on_k (load_task _task);
  on_tp (evict_areas (page_directory t) (vma_list t) (vma_list t)) ;;
  when (ctrue (page_directory t)) (on_pg (zoom pal_l (free_base_page (page_directory t)))) ;;
  vma_error _task prev_task ret.

(** fields the loader sets *)
Definition set_privilege_level (x : Z) (t : task) : task :=
  mk_task (task_id t) (state t) (non_stop_state t) (interrupt_depth t) (cpu t) (signaled_cpu t) (signal_scheduled t)
    (signal_pending t) (schedule_counter t) (exit_code t) (sig_entries t) (wq_termination t) (file_entries t) (vma_list t)
    (page_directory t) x (privilege_level0_stack t) (signaled_privilege_level0_stack t)
    (privilege_level0_stack_top t) (signaled_privilege_level0_stack_top t) (entry t).
Definition set_page_directory (x : Z) (t : task) : task :=
  mk_task (task_id t) (state t) (non_stop_state t) (interrupt_depth t) (cpu t) (signaled_cpu t) (signal_scheduled t)
    (signal_pending t) (schedule_counter t) (exit_code t) (sig_entries t) (wq_termination t) (file_entries t) (vma_list t)
    x (privilege_level t) (privilege_level0_stack t) (signaled_privilege_level0_stack t)
    (privilege_level0_stack_top t) (signaled_privilege_level0_stack_top t) (entry t).
Definition set_privilege_level0_stack (x top : Z) (t : task) : task :=
  mk_task (task_id t) (state t) (non_stop_state t) (interrupt_depth t) (cpu t) (signaled_cpu t) (signal_scheduled t)
    (signal_pending t) (schedule_counter t) (exit_code t) (sig_entries t) (wq_termination t) (file_entries t) (vma_list t)
    (page_directory t) (privilege_level t) x (signaled_privilege_level0_stack t)
    top (signaled_privilege_level0_stack_top t) (entry t).
Definition set_signaled_privilege_level0_stack (x top : Z) (t : task) : task :=
  mk_task (task_id t) (state t) (non_stop_state t) (interrupt_depth t) (cpu t) (signaled_cpu t) (signal_scheduled t)
    (signal_pending t) (schedule_counter t) (exit_code t) (sig_entries t) (wq_termination t) (file_entries t) (vma_list t)
    (page_directory t) (privilege_level t) (privilege_level0_stack t) x
    (privilege_level0_stack_top t) top (entry t).
Definition set_entry (x : Z) (t : task) : task :=
  mk_task (task_id t) (state t) (non_stop_state t) (interrupt_depth t) (cpu t) (signaled_cpu t) (signal_scheduled t)
    (signal_pending t) (schedule_counter t) (exit_code t) (sig_entries t) (wq_termination t) (file_entries t) (vma_list t)
    (page_directory t) (privilege_level t) (privilege_level0_stack t) (signaled_privilege_level0_stack t)
    (privilege_level0_stack_top t) (signaled_privilege_level0_stack_top t) x.

(** the frame of a task that has not run yet: it starts at [eip] with stack pointer [sp] *)
Definition first_frame_of (eip sp : Z) : x86_cpustate :=
  mk_cpu 0 0 0 0 0 0 0 USER_DATA_SELECTOR USER_DATA_SELECTOR USER_DATA_SELECTOR USER_DATA_SELECTOR 0 0 eip USER_CODE_SELECTOR
    (Z.lor (Z.lor EFLAGS_ONE EFLAGS_INTERRUPT) EFLAGS_PL3_IOPL) sp USER_DATA_SELECTOR.

(** the bytes of the C string at a user address, at most [n] of them *)
Fixpoint user_string (n : nat) (va : Z) : M lstate (list Z) :=
  match n with
  | O => mret []
  | S n => c ← peek va; if ! c then mret [0] else l ← user_string n (va + 1); mret (c :: l)
  end.

(** the stack the loops of [resolve_commands] read is a fuel that is never used up *)
Definition command_fuel : nat := Z.to_nat DEFAULT_TASK_NON_PRIVILEGED_STACK_SIZE.

(** parts 4, 5 and 6: the segments, the first frame, the registration.  The
    results here and below are the error code and the variable [*ptask_id]. *)
Definition start_task (mem : list Z) (elf_hdr : elf32_elf_header) (command : list Z) (_task prev_task : Z) : M lstate (Z * Z) :=
  t ← on_k (load_task _task);
  copy_segments mem elf_hdr (page_directory t) (vma_list t) (Z.to_nat (e_phnum elf_hdr)) 0 ;;
  on_k (update_task _task (set_entry (e_entry elf_hdr))) ;;
  _vma ← on_tp (zoom tareas_l (search_userspace_vma (vma_list t) (literal "userspace.vma.stack")));
  ASSERT (ctrue _vma) ;;
  v ← on_tp (zoom tareas_l (load _vma));
  let _cpu := Z.land (u32 (privilege_level0_stack t + DEFAULT_TASK_PRIVILEGED_STACK_SIZE - CPUSTATE_SIZE - 0x40)) (Z.lnot 0xf) in
  '(sp, program_name) ← resolve_commands command_fuel (u32 (a_virt_addr v + a_length v - 0x10)) command;
  ASSERT (! Z.land sp 3) ;;
  name ← user_string (Z.to_nat MAX_PATH) program_name;
  old ← gets (λ s, default [] (task_names s !! _task));
  name ← deref (strcpy_safe old name MAX_PATH);
  modify (λ s, mk_ls (lk s) (heap s) (ram s) (task_seed s) (<[_task := name]> (task_names s))) ;;
  on_k (zoom cpus_l (modify (<[_cpu := first_frame_of (e_entry elf_hdr) sp]>))) ;;
  on_k (update_task _task (set_cpu _cpu)) ;;
  on_k (update_task _task (set_interrupt_depth 1)) ;;
  on_k (task_signal_init _task) ;;
  resume prev_task ;;
  rc ← on_k (register_task_in_task_table _task);
  ASSERT (OK =? rc) ;;
  on_k (task_put _task) ;;
  t ← on_k (load_task _task);
  mret (OK, task_id t).

(** an error leaves the variable alone *)
Definition failed (task_id : Z) (m : M lstate Z) : M lstate (Z * Z) := ret ← m; mret (ret, task_id).

(** parts 1, 2 and 3: the areas, the directory and its pages *)
Definition build_space (mem : list Z) (elf_hdr : elf32_elf_header) (command : list Z) (task_id _task prev_task : Z) : M lstate (Z * Z) :=
  done ← make_areas mem elf_hdr _task;
  if negb done then failed task_id (vma_error _task prev_task (- ERR_OUT_OF_MEMORY)) else
  page_directory ← on_pg (zoom pal_l get_base_page);
  on_k (update_task _task (set_page_directory page_directory)) ;;
  if ! page_directory then failed task_id (page_error _task prev_task (- ERR_OUT_OF_MEMORY)) else
  on_pg (memset_page page_directory) ;;
  t ← on_k (load_task _task);
  rc ← on_tp (premap_areas kernel_bss_end page_directory (vma_list t) (vma_list t));
  if negb (rc =? OK) then failed task_id (page_error _task prev_task rc) else
  on_pg (enable_task_paging page_directory) ;;
  start_task mem elf_hdr command _task prev_task.

(** [load_static_elf32(mem, command, ptask_id)] with the value [task_id] of [*ptask_id] *)
Definition load_static_elf32 (mem : list Z) (command : list Z) (task_id : Z) : M lstate (Z * Z) :=
  elf_hdr ← deref (elf_header mem);
  prev_task ← on_k (gets current);
  _task ← malloc_task;
  if ! _task then failed task_id (task_error NULL prev_task OK) else
  on_k (update_task _task (set_privilege_level DPL_3)) ;;
  on_k (update_task _task (set_state TASK_STATE_RUNNING)) ;;
  on_k (set_current _task) ;;
  stk ← malloc_align_mapped DEFAULT_TASK_PRIVILEGED_STACK_SIZE;
  if ! stk then failed task_id (task_error _task prev_task (- ERR_OUT_OF_MEMORY)) else
  on_k (update_task _task (set_privilege_level0_stack stk (u32 (stk + DEFAULT_TASK_PRIVILEGED_STACK_SIZE - 0x100)))) ;;
  sig ← malloc_align_mapped DEFAULT_TASK_PRIVILEGED_SIGNAL_STACK_SIZE;
  if ! sig then failed task_id (task_error _task prev_task (- ERR_OUT_OF_MEMORY)) else
  on_k (update_task _task (set_signaled_privilege_level0_stack sig (u32 (sig + DEFAULT_TASK_PRIVILEGED_SIGNAL_STACK_SIZE - 0x100)))) ;;
  build_space mem elf_hdr command task_id _task prev_task.
End loader.
(** ** Bytes of the address space *)
Definition with_ram (s : lstate) (r : Z → Z) : lstate := mk_ls (lk s) (heap s) r (task_seed s) (task_names s).

(** [m] is part of the user memory of [s]: different addresses lie at different places *)
Record sees (s : lstate) (m : ustack) : Prop := {
  se_byte : ∀ a b, m !! a = Some b → ∃ pa, user_phys (pages s) a = Some pa ∧ ram s pa = b;
  se_inj : ∀ a a' pa, is_Some (m !! a) → is_Some (m !! a') →
    user_phys (pages s) a = Some pa → user_phys (pages s) a' = Some pa → a = a' }.

(** a run on the map [m] is a run on the user memory it is part of *)
Definition sim {A} (x : M lstate A) (y : M ustack A) : Prop :=
  ∀ s m a m', sees s m → y m = Ok (a, m') → ∃ r, x s = Ok (a, with_ram s r) ∧ sees (with_ram s r) m'.

Lemma sim_mret {A} (a : A) : sim (mret a) (mret a).
Proof. intros s m b m' Hs [= <- <-]. exists (ram s). by destruct s. Qed.

Lemma sim_fail {A} f (x : M lstate A) : sim x (fail f).
Proof. by intros s m b m' Hs E. Qed.

Lemma sim_bind {A B} (x : M lstate A) (y : M ustack A) (k : A → M lstate B) (l : A → M ustack B) :
  sim x y → (∀ a, sim (k a) (l a)) → sim (mbind k x) (mbind l y).
Proof.
  intros Hxy Hkl s m b m' Hs E. destruct (y m) as [[a m1]|] eqn:Ey; [|by rewrite (bind_err _ _ _ _ Ey) in E].
  rewrite (bind_ok _ _ _ _ _ Ey) in E. destruct (Hxy s m a m1 Hs Ey) as (r & Hr & Hs1).
  destruct (Hkl a _ _ _ _ Hs1 E) as (r' & Hr' & Hs'). exists r'. rewrite (bind_ok _ _ _ _ _ Hr). done.
Qed.

Lemma sim_peek va : sim (peek va) (peek va).
Proof.
  intros s m b m' Hs E. cbn in E. unfold load in E. destruct (m !! va) as [x|] eqn:Ex; [|done]. injection E as <- <-.
  destruct (se_byte _ _ Hs va x Ex) as (pa & Hpa & Hr). exists (ram s). cbn. rewrite Hpa, Hr. by destruct s.
Qed.

Lemma sim_poke va b : sim (poke va b) (poke va b).
Proof.
  intros s m u m' Hs E. cbn in E. unfold update in E. destruct (m !! va) as [x|] eqn:Ex; [|done]. injection E as <- <-.
  destruct (se_byte _ _ Hs va x Ex) as (pa & Hpa & Hr). exists (λ a, if a =? pa then b else ram s a). cbn. rewrite Hpa.
  split; [done|]. assert (∀ a, is_Some (<[va := b]> m !! a) → is_Some (m !! a)) as Hdom.
  { intros a [y Hy]. destruct (decide (va = a)) as [<-|]; [by exists x|]. rewrite lookup_insert_ne in Hy by done. by exists y. }
  split.
  - intros a c Ha. destruct (decide (va = a)) as [<-|Hne].
    + rewrite lookup_insert_eq in Ha. injection Ha as <-. exists pa. cbn [ram with_ram]. by rewrite Z.eqb_refl.
    + rewrite lookup_insert_ne in Ha by done. destruct (se_byte _ _ Hs a c Ha) as (pa' & Hpa' & Hr'). exists pa'. split; [done|].
      cbn [ram with_ram]. destruct (Z.eqb_spec pa' pa) as [->|]; [|done]. destruct Hne.
      apply (se_inj _ _ Hs va a pa); [by exists x|by exists c|done|done].
  - intros a a' q Ha Ha' Hq Hq'. apply (se_inj _ _ Hs a a' q); [by apply Hdom|by apply Hdom|done|done].
Qed.

Lemma sim_deref {A} (o : option A) : sim (deref o) (deref o).
Proof. destruct o; [apply sim_mret|apply sim_fail]. Qed.

Lemma sim_assert b : sim (ASSERT b) (ASSERT b).
Proof. destruct b; [apply sim_mret|apply sim_fail]. Qed.

Create HintDb sim.
#[local] Hint Resolve sim_mret sim_fail sim_peek sim_poke sim_deref sim_assert : sim.
#[local] Ltac sim_step :=
  first [ solve [auto with sim]
        | apply sim_bind; [|intros]
        | match goal with |- sim (if ?b then _ else _) _ => destruct b end
        | match goal with |- sim (let '(_, _) := ?p in _) _ => destruct p end ].
#[local] Ltac sim_run := repeat sim_step.

Lemma sim_copy_in src dst : sim (copy_in dst src) (copy_in dst src).
Proof. revert dst. induction src; intros dst; cbn [copy_in]; sim_run. Qed.
#[local] Hint Resolve sim_copy_in : sim.

Lemma sim_PUSH esp v : sim (PUSH esp v) (PUSH esp v).
Proof. unfold PUSH, poke32. sim_run. Qed.
#[local] Hint Resolve sim_PUSH : sim.

Lemma sim_push_all vals esp : sim (push_all esp vals) (push_all esp vals).
Proof. revert esp. induction vals; intros esp; cbn [push_all]; sim_run. Qed.
#[local] Hint Resolve sim_push_all : sim.

Lemma sim_skip_spaces fuel ptr : sim (skip_spaces fuel ptr) (skip_spaces fuel ptr).
Proof. revert ptr. induction fuel; intros ptr; cbn [skip_spaces]; sim_run. Qed.
Lemma sim_word_end fuel ptr q a : sim (word_end fuel ptr q a) (word_end fuel ptr q a).
Proof. revert ptr q a. induction fuel; intros ptr q a; cbn [word_end]; sim_run. Qed.
Lemma sim_push_word words w : sim (push_word words w) (push_word words w).
Proof. unfold push_word. sim_run. Qed.
#[local] Hint Resolve sim_skip_spaces sim_word_end sim_push_word : sim.

Lemma sim_find_words fuel ptr words : sim (find_words fuel ptr words) (find_words fuel ptr words).
Proof. revert ptr words. induction fuel; intros ptr words; cbn [find_words]; sim_run. Qed.
Lemma sim_strip_loop fuel p q : sim (strip_loop fuel p q) (strip_loop fuel p q).
Proof. revert p q. induction fuel; intros p q; cbn [strip_loop]; sim_run. Qed.
#[local] Hint Resolve sim_find_words sim_strip_loop : sim.

Lemma sim_simplify fuel words : sim (simplify fuel words) (simplify fuel words).
Proof. induction words as [|[s e] words]; cbn [simplify]; sim_run. Qed.
Lemma sim_strchr_at fuel str idx t : sim (strchr_at fuel str idx t) (strchr_at fuel str idx t).
Proof. revert idx. induction fuel; intros idx; cbn [strchr_at]; sim_run. Qed.
#[local] Hint Resolve sim_simplify sim_strchr_at : sim.

Lemma sim_find_executable fuel words idx : sim (find_executable fuel words idx) (find_executable fuel words idx).
Proof. revert idx. induction words as [|[s e] words]; intros idx; cbn [find_executable]; sim_run. Qed.
#[local] Hint Resolve sim_find_executable : sim.

(** [resolve_commands] on the user memory does what it does on a map of bytes *)
Lemma sim_resolve_commands fuel top command : sim (resolve_commands fuel top command) (resolve_commands fuel top command).
Proof. unfold resolve_commands, push_arguments. sim_run. Qed.

(** ** States of the loader *)

(** the state with task [tk] being [t], areas [σ], page tables [p], the coming
    results of malloc [h] and memory [r] *)
Definition LS (k0 : kst) (tk : Z) (t : task) (σ : areas) (p : pstate) (h : list Z) (r : Z → Z) (sd : Z) (nm : gmap Z (list Z)) : lstate :=
  mk_ls (lset paging_l (mk_tp p σ) (put_task k0 tk t)) h r sd nm.

Section states.
Context {k0 : kst} {tk : Z} {sd : Z} {nm : gmap Z (list Z)}.
Implicit Types (t : task) (σ : areas) (p : pstate) (h : list Z) (r : Z → Z).

Lemma LS_load_task {A} t σ p h r (k : task → M lstate A) :
  mbind k (on_k (load_task tk)) (LS k0 tk t σ p h r sd nm) = k t (LS k0 tk t σ p h r sd nm).
Proof.
  apply bind_ok. unfold on_k, load_task. apply (zoom_ok lk_l _ (LS k0 tk t σ p h r sd nm) t (lk (LS k0 tk t σ p h r sd nm))).
  apply (zoom_ok tasks_l _ (lk (LS k0 tk t σ p h r sd nm)) t). apply load_ok. cbn. apply lookup_insert_eq.
Qed.

Lemma LS_update_task {A} t σ p h r f (k : () → M lstate A) :
  mbind k (on_k (update_task tk f)) (LS k0 tk t σ p h r sd nm) = k () (LS k0 tk (f t) σ p h r sd nm).
Proof.
  apply bind_ok. unfold on_k, update_task.
  erewrite (zoom_ok lk_l _ (LS k0 tk t σ p h r sd nm) ()); [reflexivity|].
  cbn [lget lk_l lk LS].
  erewrite (zoom_ok tasks_l _ (lset paging_l (mk_tp p σ) (put_task k0 tk t)) ()).
  2: { apply (update_ok _ _ t). cbn. apply lookup_insert_eq. }
  cbn [lget tasks_l]. unfold put_task. cbn. by rewrite insert_insert_eq.
Qed.

Lemma LS_on_tp {A B} t σ p h r (m : M tpstate A) x σ' p' (k : A → M lstate B) :
  m (mk_tp p σ) = Ok (x, mk_tp p' σ') →
  mbind k (on_tp m) (LS k0 tk t σ p h r sd nm) = k x (LS k0 tk t σ' p' h r sd nm).
Proof.
  intros Hm. apply bind_ok. unfold on_tp, on_k.
  rewrite (zoom_ok lk_l _ (LS k0 tk t σ p h r sd nm) x (lset paging_l (mk_tp p' σ') (put_task k0 tk t))); [reflexivity|].
  exact (zoom_ok paging_l m (lset paging_l (mk_tp p σ) (put_task k0 tk t)) x (mk_tp p' σ') Hm).
Qed.

Lemma LS_on_pg {A B} t σ p h r (m : M pstate A) x p' (k : A → M lstate B) :
  m p = Ok (x, p') → mbind k (on_pg m) (LS k0 tk t σ p h r sd nm) = k x (LS k0 tk t σ p' h r sd nm).
Proof. intros Hm. apply LS_on_tp. by apply (zoom_ok tps_l _ (mk_tp p σ)). Qed.

Lemma LS_on_areas {A B} t σ p h r (m : M areas A) x σ' (k : A → M lstate B) :
  m σ = Ok (x, σ') → mbind k (on_tp (zoom tareas_l m)) (LS k0 tk t σ p h r sd nm) = k x (LS k0 tk t σ' p h r sd nm).
Proof. intros Hm. apply LS_on_tp. by apply (zoom_ok tareas_l _ (mk_tp p σ)). Qed.

Lemma LS_malloc {A} t σ p a h r (k : Z → M lstate A) :
  mbind k kmalloc (LS k0 tk t σ p (a :: h) r sd nm) = k a (LS k0 tk t σ p h r sd nm).
Proof. by apply bind_ok. Qed.

Lemma LS_add_area {A} t σ p a h r v (k : bool → M lstate A) :
  a ≠ NULL → mbind k (add_area tk v) (LS k0 tk t σ p (a :: h) r sd nm) =
    k true (LS k0 tk (set_vma_list (vma_list t ++ [a]) t) (<[a := v]> σ) p h r sd nm).
Proof.
  intros Ha. apply bind_ok. unfold add_area. rewrite LS_malloc, (proj2 (ctrue_true a) Ha). cbn [negb].
  erewrite LS_on_areas by reflexivity. by rewrite LS_update_task.
Qed.
End states.

(** ** Names of areas *)
Definition segment_prefix : list Z := removelast (literal "userspace.vma.text&data").
Definition segment_name (name : list Z) : Prop := ∃ rest, holds name (segment_prefix ++ rest).

Lemma value_lower b d ds : 0 ≤ b → 0 ≤ d → Forall (λ d, 0 ≤ d) ds → d * b ^ lenZ ds ≤ value b (d :: ds).
Proof.
  intros Hb Hd. induction ds as [|x ds IH] using rev_ind; intros HF; [unfold value; cbn; rewrite Z.pow_0_r; lia|].
  apply Forall_app in HF as [HF Hx]. apply Forall_cons in Hx as [Hx _]. rewrite app_comm_cons, value_snoc, length_app.
  cbn [length]. rewrite Nat2Z.inj_add, Z.pow_add_r by lia. change (b ^ Z.of_nat 1) with (b ^ 1). rewrite Z.pow_1_r. specialize (IH HF). apply (Z.mul_le_mono_nonneg_r _ _ b) in IH; [|done]. rewrite Z.mul_assoc. lia.
Qed.

Lemma numeral_length n num : numeral decimal n num → n < 65536 → (length num ≤ 5)%nat.
Proof.
  intros (ds & HF & Hv & -> & H0 & H1) Hn. rewrite length_fmap. destruct (decide (n = 0)) as [E|E]; [rewrite (H0 E); simpl; lia|].
  destruct (H1 E) as (d & ds' & -> & Hd). apply Forall_cons in HF as [Hd0 HF]. change (lenZ decimal) with 10 in *.
  assert (d * 10 ^ lenZ ds' ≤ n) as Hle by (rewrite <-Hv; apply value_lower; [lia|lia|eapply Forall_impl; [exact HF|]; simpl; lia]).
  destruct (decide (length ds' ≤ 4)%nat) as [|Hgt]; [simpl; lia|]. exfalso.
  assert (10 ^ 5 ≤ 10 ^ lenZ ds') by (apply Z.pow_le_mono_r; lia). change (10 ^ 5) with 100000 in *.
  assert (1 * 10 ^ lenZ ds' ≤ d * 10 ^ lenZ ds') by (apply Z.mul_le_mono_nonneg_r; lia). lia.
Qed.

Lemma numeral_nonzero n num : numeral decimal n num → Forall (λ c, c ≠ 0) num.
Proof.
  intros (ds & HF & _ & -> & _). apply Forall_fmap. eapply Forall_impl; [exact HF|]. unfold compose. intros d Hd.
  change (lenZ decimal) with 10 in Hd. assert (Forall (λ c, c ≠ 0) decimal) as Hdec by (by repeat constructor).
  rewrite Forall_forall in Hdec. apply Hdec. apply list_elem_of_In, nth_In. change (length decimal) with 10%nat. lia.
Qed.

Lemma renders_name b n out :
  renders [37; 115; 46; 37; 100] [ArgS b; ArgI n] out → 0 ≤ n →
  ∃ s num, holds b s ∧ numeral decimal n num ∧ out = s ++ 46 :: num.
Proof.
  intros H Hn. apply renders_s_inv in H as (s & o1 & Hs & -> & H). apply renders_char_inv in H as (o2 & -> & H); [|done].
  apply renders_d_inv in H as (num & o3 & Hnum & -> & H); [|done]. apply renders_nil_inv in H as ->.
  exists s, num. by rewrite app_nil_r.
Qed.

Lemma make_segment_name {A} counter (k : list Z → M lstate A) s :
  0 ≤ counter < 65536 → ∃ name, segment_name name ∧
    (name ← deref (snd <$> sprintf (replicate 64 0) (literal "%s.%d") [ArgS (literal "userspace.vma.text&data"); ArgI counter]);
     name ← deref (strcpy_safe (replicate 64 0) name 64); k name) s = k name s.
Proof.
  intros Hc. destruct (sprintf_ok (replicate 64 0) [37; 115; 46; 37; 100] (literal "%s.%d")
    [ArgS (literal "userspace.vma.text&data"); ArgI counter]) as (out & Hr & ->).
  { split; [by repeat constructor|by exists []]. }
  { eexists. split; [reflexivity|]. eexists. split; [|done]. cbn. rewrite (proj2 (Z.ltb_lt (-2147483648) counter)), (proj2 (Z.ltb_lt counter 2147483648)) by lia. done. }
  apply renders_name in Hr as (t & num & Ht & Hnum & ->); [|lia].
  assert (holds (literal "userspace.vma.text&data") segment_prefix) as Hp by (split; [by repeat constructor|by exists []]).
  apply holds_text in Ht. rewrite (holds_text _ _ Hp) in Ht. subst t. pose proof (numeral_length _ _ Hnum ltac:(lia)) as Hlen.
  pose proof (numeral_nonzero _ _ Hnum) as Hnz. set (out := segment_prefix ++ 46 :: num).
  assert (length out ≤ 29)%nat as Hout by (unfold out; rewrite length_app; change (length segment_prefix) with 23%nat; simpl; lia).
  rewrite length_replicate, (proj2 (Z.ltb_lt (lenZ out) (Z.of_nat 64))) by lia. cbn [fmap option_fmap option_map snd].
  assert (Forall (λ c, c ≠ 0) out) as Honz by (apply Forall_app; split; [by repeat constructor|by constructor]).
  rewrite (bind_ok _ _ _ (overlay (replicate 64 0) 0 (out ++ [0])) s) by done.
  assert (holds (overlay (replicate 64 0) 0 (out ++ [0])) out) as Hh.
  { split; [done|]. unfold overlay. change (Z.to_nat 0) with 0%nat. rewrite take_0. cbn [app]. rewrite <-app_assoc. by eexists. }
  unfold strcpy_safe. rewrite (strcpy_bytes_ok _ _ _ _ Hh) by (rewrite length_replicate; lia). change (Z.to_nat 64) with 64%nat.
  rewrite decide_True by lia. eexists. split; [|reflexivity]. exists (46 :: num). split; [done|]. by eexists.
Qed.

Lemma segment_name_stack name : segment_name name → ∃ d, strcmp (literal "userspace.vma.stack") name = Some d ∧ d ≠ 0.
Proof.
  intros [rest Hh]. assert (holds (literal "userspace.vma.stack") (removelast (literal "userspace.vma.stack"))) as Hs
    by (split; [by repeat constructor|by exists []]).
  destruct (strcmp_ok _ _ _ _ Hs Hh) as (d & Hd & E). exists d. split; [done|]. intros ->. apply proj1 in E. specialize (E eq_refl).
  apply (f_equal (take 15)) in E. vm_compute in E. discriminate.
Qed.

(** ** The areas of a program *)
Definition loads (headers : list elf32_program_header) : list elf32_program_header :=
  filter (λ ph, p_type ph = PROGRAM_TYPE_LOAD) headers.

Definition heap_after (h : Z) (ph : elf32_program_header) : Z :=
  let e := u32 (p_vaddr ph + p_memsz ph) in if (! h) || (h <? e) then e else h.

(** the area of [ph] is at [a] *)
Definition area_of (σ : areas) (a : Z) (ph : elf32_program_header) : Prop :=
  ∃ name, segment_name name ∧ σ !! a = Some (segment_area name ph).

Lemma bind_cong {St A B} (k : A → M St B) (m m' : M St A) s s' : m s = m' s' → mbind k m s = mbind k m' s'.
Proof. intros E. unfold mbind, M_bind. by rewrite E. Qed.

Section make.
Context {k0 : kst} {tk : Z} {sd : Z} {nm : gmap Z (list Z)}.
Variables (mem : list Z) (hdr : elf32_elf_header).

Definition headers_from (idx : Z) (headers : list elf32_program_header) : Prop :=
  ∀ i ph, headers !! i = Some ph → program_header mem (header_offset hdr (idx + Z.of_nat i)) = Some ph.

Lemma headers_from_cons idx ph headers :
  headers_from idx (ph :: headers) → program_header mem (header_offset hdr idx) = Some ph ∧ headers_from (idx + 1) headers.
Proof.
  intros H. split; [by rewrite <-(Z.add_0_r idx); apply (H 0%nat)|]. intros i p Hi.
  replace (idx + 1 + Z.of_nat i) with (idx + Z.of_nat (S i)) by lia. by apply H.
Qed.

Lemma segment_areas_ok {A} headers t σ p addrs h r idx counter hs (k : option Z → M lstate A) :
  headers_from idx headers → Forall (λ ph, p_vaddr ph mod 4096 = 0) (loads headers) →
  0 ≤ counter → counter + lenZ headers ≤ 65536 →
  length addrs = length (loads headers) → NULL ∉ addrs → NoDup addrs →
  ∃ σ', mbind k (segment_areas mem hdr tk (length headers) idx counter hs) (LS k0 tk t σ p (addrs ++ h) r sd nm) =
    k (Some (foldl heap_after hs (loads headers))) (LS k0 tk (set_vma_list (vma_list t ++ addrs) t) σ' p h r sd nm) ∧
    Forall2 (area_of σ') addrs (loads headers) ∧ (∀ a, a ∉ addrs → σ' !! a = σ !! a).
Proof.
  revert t σ addrs idx counter hs. induction headers as [|ph headers IH]; intros t σ addrs idx counter hs Hh Hal Hc Hn Hlen Hnull Hnd.
  { destruct addrs; [|done]. exists σ. cbn. rewrite app_nil_r. destruct t. split_and!; [done|constructor|done]. }
  apply headers_from_cons in Hh as [Hph Hh]. cbn [segment_areas length]. rewrite bind_assoc_run.
  rewrite (bind_ok _ _ _ ph (LS k0 tk t σ p (addrs ++ h) r sd nm)) by (by rewrite Hph). simpl length in Hn.
  unfold loads in *. destruct (decide (p_type ph = PROGRAM_TYPE_LOAD)) as [Hty|Hty].
  2: { rewrite filter_cons_False in * by done. rewrite (proj2 (Z.eqb_neq _ _) Hty). cbn [negb]. apply IH; (done || lia). }
  rewrite filter_cons_True in * by done. rewrite Hty, Z.eqb_refl. cbn [negb]. destruct addrs as [|a addrs]; [done|].
  apply Forall_cons in Hal as [Hal1 Hal]. apply NoDup_cons in Hnd as [Ha Hnd]. apply not_elem_of_cons in Hnull as [Ha0 Hnull].
  assert (Z.land (p_vaddr ph) PAGE_MASK = 0) as Hmask.
  { change PAGE_MASK with (Z.ones 12). rewrite Z.land_ones by lia. done. }
  rewrite Hmask, bind_assoc_run. mstep.
  match goal with |- context [mbind k (mbind ?f (deref _))] =>
    destruct (make_segment_name counter (λ name, done ← add_area tk (segment_area name ph);
      if negb done then mret None
      else segment_areas mem hdr tk (length headers) (idx + 1) (counter + 1) (heap_after hs ph))
      (LS k0 tk t σ p ((a :: addrs) ++ h) r sd nm)) as (name & Hname & E); [lia|]; rewrite (bind_cong _ _ _ _ _ E) end.
  rewrite bind_assoc_run. cbn [app]. rewrite LS_add_area by done. cbn [negb].
  destruct (IH (set_vma_list (vma_list t ++ [a]) t) (<[a := segment_area name ph]> σ) addrs (idx + 1) (counter + 1) (heap_after hs ph))
    as (σ' & E' & HF & Hout); [done|done|lia|lia|by injection Hlen|done|done|].
  exists σ'. rewrite E'. cbn [foldl]. split_and!.
  - destruct t. cbn. by rewrite <-app_assoc.
  - constructor; [|done]. exists name. split; [done|]. rewrite Hout by done. apply lookup_insert_eq.
  - intros b [Hb Hb']%not_elem_of_cons. rewrite Hout by done. by apply lookup_insert_ne.
Qed.
End make.

(** *** Programs the loader can load *)
Definition STACK_BOTTOM : Z := USERSPACE_STACK_TOP - DEFAULT_TASK_NON_PRIVILEGED_STACK_SIZE.

(** a segment of whole pages between the kernel and the stack whose bytes are in the file *)
Record segment_fits (mem : list Z) (ph : elf32_program_header) : Prop := {
  sf_page : p_vaddr ph mod 4096 = 0;
  sf_low : USERSPACE_BOTTOM ≤ p_vaddr ph;
  sf_high : p_vaddr ph + p_memsz ph ≤ STACK_BOTTOM;
  sf_memsz : 0 < p_memsz ph;
  sf_filesz : 0 ≤ p_filesz ph ≤ p_memsz ph;
  sf_file : 0 ≤ p_offset ph ∧ p_offset ph + p_filesz ph ≤ lenZ mem }.

Record image_ok (mem : list Z) (hdr : elf32_elf_header) (headers : list elf32_program_header) : Prop := {
  im_header : elf_header mem = Some hdr;
  im_number : Z.to_nat (e_phnum hdr) = length headers;
  im_few : lenZ headers ≤ 65535;
  im_headers : headers_from mem hdr 0 headers;
  im_loads : loads headers ≠ [];
  im_fits : ∀ ph, ph ∈ loads headers → segment_fits mem ph;
  im_apart : ∀ i j ph ph', loads headers !! i = Some ph → loads headers !! j = Some ph' → i ≠ j →
    p_vaddr ph + round_up (p_memsz ph) ≤ p_vaddr ph' ∨ p_vaddr ph' + round_up (p_memsz ph') ≤ p_vaddr ph }.

#[local] Ltac Zify.zify_post_hook ::= Z.to_euclidean_division_equations.

Lemma round_up_ok x : 0 ≤ x → round_up x = (x + 4095) / 4096 * 4096.
Proof.
  intros Hx. unfold round_up, PAGE_MASK, PAGE_SIZE. change (4096 - 1) with (Z.ones 12).
  rewrite <-Z.ldiff_land, Z.ldiff_ones_r, Z.land_ones, Z.shiftl_mul_pow2, Z.shiftr_div_pow2 by lia. change (2 ^ 12) with 4096.
  destruct (ctrue (x mod 4096)) eqn:E; [apply ctrue_true in E|apply ctrue_false in E]; lia.
Qed.

Lemma heap_after_bounds phs h :
  0 ≤ h → (∀ ph, ph ∈ phs → 0 < p_vaddr ph + p_memsz ph ≤ STACK_BOTTOM) → h ≤ STACK_BOTTOM →
  h ≤ foldl heap_after h phs ≤ STACK_BOTTOM ∧ ∀ ph, ph ∈ phs → p_vaddr ph + p_memsz ph ≤ foldl heap_after h phs.
Proof.
  revert h. induction phs as [|ph phs IH]; intros h Hh Hall Hs; cbn [foldl].
  { split; [lia|]. intros ph Hph. by apply not_elem_of_nil in Hph. }
  pose proof (Hall ph ltac:(by left)) as Hph. assert (STACK_BOTTOM < 4294967296) as Hsb by done.
  assert (0 ≤ heap_after h ph ≤ STACK_BOTTOM ∧ h ≤ heap_after h ph ∧ p_vaddr ph + p_memsz ph ≤ heap_after h ph) as (H1 & H2 & H3).
  { unfold heap_after. rewrite u32_small by lia. unfold ctrue. destruct (Z.eqb_spec h 0), (Z.ltb_spec h (p_vaddr ph + p_memsz ph)); cbn; lia. }
  destruct (IH (heap_after h ph)) as [H4 H5]; [lia|intros p Hp; apply Hall; by right|lia|]. split; [lia|].
  intros p [->|Hp]%elem_of_cons; [lia|by apply H5].
Qed.

(** the areas of the new task *)
Record program_areas (σ : areas) (l addrs : list Z) (phs : list elf32_program_header) : Prop := {
  pa_list : ∃ ka ha sa ga hs, l = ka :: addrs ++ [ha; sa; ga] ∧ σ !! ka = Some kernel_area ∧ σ !! ha = Some (heap_vma hs) ∧
    σ !! sa = Some stack_vma ∧ σ !! ga = Some signal_stack_vma ∧ hs mod 4096 = 0 ∧ hs ≤ STACK_BOTTOM ∧
    USERSPACE_BOTTOM ≤ hs ∧ ∀ ph, ph ∈ phs → p_vaddr ph + round_up (p_memsz ph) ≤ hs;
  pa_segments : Forall2 (area_of σ) addrs phs }.

Section make2.
Context {k0 : kst} {tk : Z} {sd : Z} {nm : gmap Z (list Z)}.

Lemma make_areas_ok {A} mem hdr headers t σ p ka addrs ha sa ga h r (k : bool → M lstate A) :
  image_ok mem hdr headers → vma_list t = [] →
  length addrs = length (loads headers) → NoDup (ka :: addrs ++ [ha; sa; ga]) → NULL ∉ ka :: addrs ++ [ha; sa; ga] →
  ∃ σ', mbind k (make_areas mem hdr tk) (LS k0 tk t σ p (ka :: addrs ++ ha :: sa :: ga :: h) r sd nm) =
    k true (LS k0 tk (set_vma_list (ka :: addrs ++ [ha; sa; ga]) t) σ' p h r sd nm) ∧
    program_areas σ' (ka :: addrs ++ [ha; sa; ga]) addrs (loads headers) ∧
    (∀ a, a ∉ ka :: addrs ++ [ha; sa; ga] → σ' !! a = σ !! a).
Proof.
  intros Him Hvl Hlen Hnd Hnull. unfold make_areas. rewrite bind_assoc_run.
  rewrite !not_elem_of_cons, not_elem_of_app, !not_elem_of_cons in Hnull. destruct Hnull as (N1 & N2 & N3 & N4 & N5 & _).
  apply NoDup_cons in Hnd as [D1 Hnd]. apply NoDup_app in Hnd as (D2 & D3 & D4).
  rewrite LS_add_area by done. cbn [negb]. rewrite bind_assoc_run, (im_number _ _ _ Him).
  destruct (segment_areas_ok (k0 := k0) (tk := tk) (sd := sd) (nm := nm) mem hdr headers (set_vma_list (vma_list t ++ [ka]) t) (<[ka := kernel_area]> σ) p addrs (ha :: sa :: ga :: h) r 0 0 0
    (λ hs, mbind k match hs with
      | None => mret false
      | Some heap_start =>
          done ← add_area tk (heap_vma (round_up heap_start));
          if negb done then mret false else
          done ← add_area tk stack_vma;
          if negb done then mret false else add_area tk signal_stack_vma
      end)) as (σ1 & E1 & HF & Hout).
  - apply Him.
  - apply Forall_forall. intros ph Hph. apply (im_fits _ _ _ Him ph Hph).
  - done.
  - pose proof (im_few _ _ _ Him). lia.
  - done.
  - done.
  - done.
  - rewrite E1. clear E1. set (hs := round_up (foldl heap_after 0 (loads headers))).
    rewrite bind_assoc_run, LS_add_area by done. cbn [negb]. rewrite bind_assoc_run, LS_add_area by done. cbn [negb].
    rewrite LS_add_area by done. eexists. split; [|split].
    + destruct t. cbn in Hvl. subst. cbn. rewrite <-!app_assoc. reflexivity.
    + assert ((ka ∉ addrs) ∧ ka ≠ ha ∧ ka ≠ sa ∧ ka ≠ ga) as (X1 & X2 & X3 & X4).
      { rewrite not_elem_of_app, !not_elem_of_cons in D1. tauto. }
      rewrite !NoDup_cons, !not_elem_of_cons in D4. destruct D4 as ((Y1 & Y2 & _) & (Y3 & _) & _).
      assert (∀ x, x ∈ addrs → x ≠ ha ∧ x ≠ sa ∧ x ≠ ga) as Z1.
      { intros x Hx. specialize (D3 x Hx). rewrite !not_elem_of_cons in D3. tauto. }
      destruct (heap_after_bounds (loads headers) 0) as [B1 B2]; [lia| |done|].
      { intros ph Hph. destruct (im_fits _ _ _ Him ph Hph). unfold USERSPACE_BOTTOM in *. lia. }
      assert (∀ ph, ph ∈ loads headers → p_vaddr ph + round_up (p_memsz ph) ≤ hs) as B3.
      { intros ph Hph. specialize (B2 ph Hph). destruct (im_fits _ _ _ Him ph Hph). unfold hs. rewrite !round_up_ok by lia. lia. }
      split.
      * exists ka, ha, sa, ga, hs. split_and!; [done|..].
        -- rewrite !lookup_insert_ne by done. rewrite Hout by done. apply lookup_insert_eq.
        -- rewrite !lookup_insert_ne by done. apply lookup_insert_eq.
        -- rewrite !lookup_insert_ne by done. apply lookup_insert_eq.
        -- apply lookup_insert_eq.
        -- unfold hs. rewrite round_up_ok by lia. lia.
        -- unfold hs. rewrite round_up_ok by lia. change STACK_BOTTOM with 2675965952 in *. lia.
        -- destruct (loads headers) as [|ph phs] eqn:El; [by destruct (im_loads _ _ _ Him)|].
           specialize (B3 ph ltac:(by left)). destruct (im_fits _ _ _ Him ph) as [? ? ? ? ? ?]; [rewrite El; by left|].
           rewrite round_up_ok in B3 by lia. lia.
        -- done.
      * eapply Forall2_weaken; [|exact HF]. intros x ph Hx (name & Hname & Hσ). exists name. split; [done|].
        destruct (Z1 x Hx) as (? & ? & ?). by rewrite !lookup_insert_ne by done.
    + intros a Ha. rewrite not_elem_of_cons, not_elem_of_app, !not_elem_of_cons in Ha. destruct Ha as (A1 & A2 & A3 & A4 & A5 & _).
      rewrite !lookup_insert_ne by done. rewrite Hout by done. by apply lookup_insert_ne.
Qed.
End make2.

(** *** The areas are whole pages and do not overlap *)
Lemma segment_area_pages mem name ph : segment_fits mem ph → user_pages (segment_area name ph).
Proof.
  intros [H1 H2 H3 H4 H5 H6]. unfold USERSPACE_BOTTOM in *. change STACK_BOTTOM with 2675965952 in *.
  split; unfold uarea_ok, aligned; cbn [a_virt_addr a_length a_exact segment_area]; rewrite ?round_up_ok by lia; (done || lia).
Qed.

Lemma stack_pages : user_pages stack_vma.
Proof. split; vm_compute; intuition congruence. Qed.
Lemma signal_stack_pages : user_pages signal_stack_vma.
Proof. split; vm_compute; intuition congruence. Qed.

Lemma area_of_lookup σ addrs phs a :
  Forall2 (area_of σ) addrs phs → a ∈ addrs → ∃ i ph name, addrs !! i = Some a ∧ phs !! i = Some ph ∧ σ !! a = Some (segment_area name ph).
Proof.
  intros HF Ha. apply list_elem_of_lookup in Ha as [i Hi]. destruct (Forall2_lookup_l _ _ _ _ _ HF Hi) as (ph & Hph & name & _ & Hσ).
  by exists i, ph, name.
Qed.

(** every area lies below, between or above the segments *)
Lemma program_areas_ok mem hdr headers σ l addrs :
  image_ok mem hdr headers → NoDup l → NULL ∉ l → program_areas σ l addrs (loads headers) → uareas_ok σ l.
Proof.
  intros Him Hnd Hnull [(ka & ha & sa & ga & hs & -> & Hk & Hh & Hs & Hg & Hal & Hhi & Hlo & Hbelow) HF].
  assert (∀ a, a ∈ addrs → ∃ i ph name, addrs !! i = Some a ∧ loads headers !! i = Some ph ∧ σ !! a = Some (segment_area name ph) ∧
    USERSPACE_BOTTOM ≤ p_vaddr ph ∧ 0 < p_memsz ph ∧ p_vaddr ph + round_up (p_memsz ph) ≤ hs ∧ user_pages (segment_area name ph)) as Hseg.
  { intros a Ha. destruct (area_of_lookup _ _ _ _ HF Ha) as (i & ph & name & Hi & Hph & Hσ).
    assert (ph ∈ loads headers) as Hin by (by eapply list_elem_of_lookup_2). pose proof (im_fits _ _ _ Him ph Hin) as Hfit.
    exists i, ph, name. split_and!; [done|done|done|apply Hfit|apply Hfit|by apply Hbelow|by eapply segment_area_pages]. }
  assert (∀ x, x ∈ ka :: addrs ++ [ha; sa; ga] → x = ka ∨ x ∈ addrs ∨ x = ha ∨ x = sa ∨ x = ga) as Hcase.
  { intros x. rewrite elem_of_cons, elem_of_app, !elem_of_cons, elem_of_nil. tauto. }
  unfold USERSPACE_BOTTOM in *. change STACK_BOTTOM with 2675965952 in *.
  split; [done|done| |].
  - intros a [->|[Ha|[->|[->| ->]]]]%Hcase.
    + eexists. split; [done|]. vm_compute. intuition congruence.
    + destruct (Hseg a Ha) as (i & ph & name & _ & _ & Hσ & _ & _ & _ & Hup). eexists. split; [done|]. apply Hup.
    + eexists. split; [done|]. unfold uarea_ok. cbn. lia.
    + eexists. split; [done|]. apply stack_pages.
    + eexists. split; [done|]. apply signal_stack_pages.
  - intros a b v w Ha Hb Hne Hv Hw.
    (* where each area lies *)
    assert (∀ x z, x ∈ ka :: addrs ++ [ha; sa; ga] → σ !! x = Some z →
      (x = ka ∧ a_virt_addr z = 0 ∧ a_length z = 1073741824) ∨
      (x ∈ addrs ∧ 1073741824 ≤ a_virt_addr z ∧ a_virt_addr z + a_length z ≤ hs) ∨
      (x = ha ∧ a_virt_addr z = hs ∧ a_length z = 0) ∨
      (x = sa ∧ a_virt_addr z = 2675965952 ∧ a_length z = 8388608) ∨
      (x = ga ∧ a_virt_addr z = 2684354560)) as Hplace.
    { intros x z [->|[Hx|[->|[->| ->]]]]%Hcase Hz.
      - left. simplify_eq. done.
      - right; left. destruct (Hseg x Hx) as (i & ph & name & _ & _ & Hσ & H1 & H2 & H3 & _). simplify_eq. done.
      - right; right; left. simplify_eq. done.
      - right; right; right; left. simplify_eq. done.
      - right; right; right; right. simplify_eq. done. }
    pose proof (Hplace a v Ha Hv) as Pa. pose proof (Hplace b w Hb Hw) as Pb. unfold disjoint_uareas.
    destruct (decide (a ∈ addrs)) as [Hia|Hia], (decide (b ∈ addrs)) as [Hib|Hib].
    + destruct (Hseg a Hia) as (i & ph & name & Hi & Hph & Hσ & _). destruct (Hseg b Hib) as (j & ph' & name' & Hj & Hph' & Hσ' & _).
      rewrite Hv in Hσ. rewrite Hw in Hσ'. injection Hσ as ->. injection Hσ' as ->. cbn [a_virt_addr a_length segment_area].
      apply (im_apart _ _ _ Him i j ph ph' Hph Hph'). intros ->. congruence.
    + intuition (subst; congruence || lia).
    + intuition (subst; congruence || lia).
    + intuition (subst; congruence || lia).
Qed.

Lemma premapped_program σ l addrs phs :
  program_areas σ l addrs phs →
  ∃ segs, premapped σ l = segs ++ [stack_vma; signal_stack_vma] ∧
    Forall2 (λ a v, σ !! a = Some v) addrs segs ∧ Forall2 (λ v ph, ∃ name, segment_name name ∧ v = segment_area name ph) segs phs.
Proof.
  intros [(ka & ha & sa & ga & hs & -> & Hk & Hh & Hs & Hg & _) HF].
  assert (∃ segs, premapped σ addrs = segs ∧ Forall2 (λ a v, σ !! a = Some v) addrs segs ∧
    Forall2 (λ v ph, ∃ name, segment_name name ∧ v = segment_area name ph) segs phs) as (segs & E & H1 & H2).
  { clear -HF. induction HF as [|a ph addrs phs (name & Hn & Hσ) HF (segs & E & H1 & H2)]; [exists []; split_and!; by constructor|].
    exists (segment_area name ph :: segs). rewrite (premapped_cons _ _ _ _ Hσ). cbn [a_pre_map segment_area]. rewrite E.
    split_and!; [done|by constructor|]. constructor; [by exists name|done]. }
  exists segs. split_and!; [|done|done]. rewrite (premapped_cons _ _ _ _ Hk). cbn [a_pre_map kernel_area].
  change (ctrue 0) with false. cbn iota. unfold premapped in *. rewrite omap_app, E. f_equal. cbn. by rewrite Hh, Hs, Hg.
Qed.

(** the stack is found by its name *)
Definition named (σ : areas) (a : Z) : Prop := ∃ v, σ !! a = Some v ∧ segment_name (a_name v).

Lemma find_stack σ ka addrs ha sa ga hs :
  σ !! ka = Some kernel_area → Forall (named σ) addrs → σ !! ha = Some (heap_vma hs) → σ !! sa = Some stack_vma →
  search_userspace_vma (ka :: addrs ++ [ha; sa; ga]) (literal "userspace.vma.stack") σ = Ok (sa, σ).
Proof.
  intros Hk HF Hh Hs.
  unfold search_userspace_vma. cbn [search_userspace_vma_loop]. rewrite (bind_ok _ _ _ _ _ (load_ok _ _ _ Hk)).
  set (nm := literal "userspace.vma.stack").
  assert (∃ d, strcmp nm (a_name kernel_area) = Some d ∧ d ≠ 0) as (d & Hd & Hd0) by (eexists; split; [vm_compute; reflexivity|done]).
  rewrite (bind_ok _ _ _ d σ) by (by rewrite Hd). rewrite (proj2 (ctrue_true d) Hd0). cbn [negb]. clear Hd.
  assert (∀ last, search_userspace_vma_loop (addrs ++ [ha; sa; ga]) nm last σ = Ok (sa, σ)) as H; [|apply H].
  induction HF as [|a addrs (v & Hσ & Hn) HF IH]; intros last; cbn [app search_userspace_vma_loop].
  - rewrite (bind_ok _ _ _ _ _ (load_ok _ _ _ Hh)).
    assert (∃ d, strcmp nm (a_name (heap_vma hs)) = Some d ∧ d ≠ 0) as (d1 & Hd1 & Hd10) by (eexists; split; [vm_compute; reflexivity|done]).
    rewrite (bind_ok _ _ _ d1 σ) by (by rewrite Hd1). rewrite (proj2 (ctrue_true d1) Hd10). cbn [negb].
    rewrite (bind_ok _ _ _ _ _ (load_ok _ _ _ Hs)).
    rewrite (bind_ok _ _ _ 0 σ); [done|]. assert (strcmp nm (a_name stack_vma) = Some 0) as -> by (vm_compute; reflexivity). done.
  - rewrite (bind_ok _ _ _ _ _ (load_ok _ _ _ Hσ)). destruct (segment_name_stack _ Hn) as (d1 & Hd1 & Hd10).
    rewrite (bind_ok _ _ _ d1 σ) by (fold nm in Hd1; by rewrite Hd1). rewrite (proj2 (ctrue_true d1) Hd10).
    cbn [negb]. apply IH.
Qed.

(** ** The memory of the new task *)

(** the frames no one uses hold zeros *)
Definition blank_frames (p : pstate) (r : Z → Z) : Prop :=
  ∀ f i, occupied (free_page_bitmap (pal p)) f = false → 0 ≤ i < 4096 → r (4096 * f + i) = 0.

(** [b] is what a free frame holds at the place of [a] in its page *)
Definition left_over (p : pstate) (r : Z → Z) (a b : Z) : Prop :=
  ∃ f, occupied (free_page_bitmap (pal p)) f = false ∧ b = r (4096 * f + a mod 4096).

Lemma blank_left_over p r a b : blank_frames p r → left_over p r a b → b = 0.
Proof. intros Hb (f & Hf & ->). apply Hb; [done|]. apply Z.mod_pos_bound. lia. Qed.

Lemma view_exists s (L : list Z) :
  (∀ a, a ∈ L → is_Some (user_phys (pages s) a)) →
  (∀ a a' pa, a ∈ L → a' ∈ L → user_phys (pages s) a = Some pa → user_phys (pages s) a' = Some pa → a = a') →
  ∃ m, sees s m ∧ ∀ a, is_Some (m !! a) ↔ a ∈ L.
Proof.
  intros Hsome Hinj.
  assert (∃ m : ustack, (∀ a b, m !! a = Some b → ∃ pa, user_phys (pages s) a = Some pa ∧ ram s pa = b) ∧ ∀ a, is_Some (m !! a) ↔ a ∈ L)
    as (m & Hm & Hd).
  { clear Hinj. induction L as [|x L IH].
    - exists ∅. split; [done|]. intros a. rewrite lookup_empty, elem_of_nil. split; [intros [? ?]; done|done].
    - destruct IH as (m & Hm & Hd); [intros a Ha; apply Hsome; by right|]. destruct (Hsome x) as [pa Hpa]; [by left|].
      exists (<[x := ram s pa]> m). split.
      + intros a b. destruct (decide (x = a)) as [<-|Hne]; [rewrite lookup_insert_eq; intros [= <-]; by exists pa|].
        rewrite lookup_insert_ne by done. apply Hm.
      + intros a. rewrite lookup_insert_is_Some', elem_of_cons, Hd. naive_solver. }
  exists m. split; [|done]. split; [done|]. intros a a' pa Ha Ha'. apply Hinj; by apply Hd.
Qed.

(** bytes of the areas [vs] *)
Definition area_bytes (vs : list vm_area) (a : Z) : Prop := ∃ v, v ∈ vs ∧ inside v a.

Lemma space_view pd vs p0 pX s :
  (∀ v, v ∈ vs → user_pages v) → space pd vs p0 pX → on_cpu (pages s) pd →
  (∀ va, translate (mem (pages s)) pd va = translate (mem pX) pd va) →
  ∃ m, sees s m ∧ (∀ a, is_Some (m !! a) ↔ area_bytes vs a) ∧
    ∀ a b, m !! a = Some b → left_over p0 (ram s) a b.
Proof.
  intros Hup Hsp Hoc Htr.
  assert (∀ v va, v ∈ vs → inside v va → ∃ f, frame_of pX pd va = Some f ∧ user_phys (pages s) va = Some (4096 * f + va mod 4096)) as Hphys.
  { intros v va Hv Hin. destruct (sp_page _ _ _ _ Hsp v va Hv Hin) as (pa & Hpa & Hp).
    destruct (Hup v Hv) as [(H0 & H1 & H2) Hus _ _ _]. unfold inside in Hin.
    unfold frame_of, user_phys. rewrite (on_cpu_translate _ _ _ Hoc), Htr, Hp by lia. cbn. eexists. split; [done|].
    by rewrite phys_of_frame. }
  set (L := concat ((λ v, seqZ (a_virt_addr v) (a_length v)) <$> vs)).
  assert (∀ a, a ∈ L ↔ area_bytes vs a) as HL.
  { intros a. unfold L, area_bytes. rewrite list_elem_of_In, in_concat. split.
    - intros (l & Hl & Ha). apply list_elem_of_In, list_elem_of_fmap in Hl as (v & -> & Hv). exists v. split; [done|].
      by apply list_elem_of_In, elem_of_seqZ in Ha.
    - intros (v & Hv & Hin). exists (seqZ (a_virt_addr v) (a_length v)). split; apply list_elem_of_In.
      + apply list_elem_of_fmap. by exists v.
      + by apply elem_of_seqZ. }
  destruct (view_exists s L) as (m & Hm & Hd).
  - intros a (v & Hv & Hin)%HL. destruct (Hphys v a Hv Hin) as (f & _ & ->). by eexists.
  - intros a a' pa (v & Hv & Hin)%HL (w & Hw & Hin')%HL. destruct (Hphys v a Hv Hin) as (f & Hf & ->).
    destruct (Hphys w a' Hw Hin') as (f' & Hf' & ->). intros [= <-] [= E].
    assert (f = f') as <- by lia. assert (a / 4096 = a' / 4096) as E' by (by eapply (sp_inj _ _ _ _ Hsp v w)). lia.
  - exists m. split_and!; [done|intros a; by rewrite Hd, HL|]. intros a b Hab.
    destruct (proj1 (HL a) (proj1 (Hd a) ltac:(by exists b))) as (v & Hv & Hin). destruct (Hphys v a Hv Hin) as (f & Hf & Hpa).
    destruct (se_byte _ _ Hm a b Hab) as (pa & Hpa' & <-). rewrite Hpa in Hpa'. injection Hpa' as <-.
    exists f. split; [by eapply (sp_fresh _ _ _ _ Hsp v a)|done].
Qed.

(** [user_phys] depends on the frames only *)
Lemma sees_frames s s' pd (m : ustack) :
  on_cpu (pages s) pd → on_cpu (pages s') pd → ram s' = ram s →
  (∀ va, USERSPACE_BOTTOM ≤ va < 4294967296 → frame_of (pages s') pd va = frame_of (pages s) pd va) →
  (∀ a, is_Some (m !! a) → USERSPACE_BOTTOM ≤ a < 4294967296) → sees s m → sees s' m.
Proof.
  intros Hoc Hoc' Hram Hfr Hdom [Hb Hinj].
  assert (∀ va, USERSPACE_BOTTOM ≤ va < 4294967296 → user_phys (pages s') va = user_phys (pages s) va) as Hp.
  { intros va Hva. unfold user_phys. rewrite !(on_cpu_translate _ _ _ Hoc), !(on_cpu_translate _ _ _ Hoc') by done.
    specialize (Hfr va Hva). unfold frame_of in Hfr.
    destruct (translate (mem (pages s')) pd va) as [e'|], (translate (mem (pages s)) pd va) as [e|];
      cbn [fmap option_fmap option_map] in *; try done. apply (inj Some) in Hfr. by rewrite !phys_of_frame, Hfr. }
  split.
  - intros a b Ha. rewrite Hp by (apply Hdom; by exists b). rewrite Hram. by apply Hb.
  - intros a a' pa Ha Ha'. rewrite !Hp by (by apply Hdom). by apply Hinj.
Qed.

Lemma uareas_ok_perm σ l a v w : uareas_ok σ l → σ !! a = Some v → uareas_ok (<[a := set_write_permission w v]> σ) l.
Proof.
  intros [H1 H2 H3 H4] Ha.
  assert (∀ b z, <[a := set_write_permission w v]> σ !! b = Some z →
    ∃ z', σ !! b = Some z' ∧ a_virt_addr z' = a_virt_addr z ∧ a_length z' = a_length z) as Hback.
  { intros b z. destruct (decide (a = b)) as [<-|Hne]; [rewrite lookup_insert_eq; intros [= <-]; by exists v|].
    rewrite lookup_insert_ne by done. intros Hz. by exists z. }
  split; [done|done| |].
  - intros b Hb. destruct (H3 b Hb) as (z & Hz & Hok). destruct (decide (a = b)) as [<-|Hne].
    + rewrite lookup_insert_eq. eexists. split; [done|]. simplify_eq. done.
    + rewrite lookup_insert_ne by done. by exists z.
  - intros b c z z' Hb Hc Hne Hz Hz'. unfold disjoint_uareas. destruct (Hback _ _ Hz) as (y & Hy & <- & <-). destruct (Hback _ _ Hz') as (y' & Hy' & <- & <-).
    by apply (H4 b c).
Qed.

(** ** Copying the segments *)
Definition apart_segments (ph ph' : elf32_program_header) : Prop :=
  p_vaddr ph + round_up (p_memsz ph) ≤ p_vaddr ph' ∨ p_vaddr ph' + round_up (p_memsz ph') ≤ p_vaddr ph.

Fixpoint pairwise (phs : list elf32_program_header) : Prop :=
  match phs with [] => True | ph :: phs => (∀ q, q ∈ phs → apart_segments ph q) ∧ pairwise phs end.

Lemma pairwise_indices phs :
  (∀ i j ph ph', phs !! i = Some ph → phs !! j = Some ph' → i ≠ j → apart_segments ph ph') → pairwise phs.
Proof.
  induction phs as [|ph phs IH]; intros H; [done|]. split.
  - intros q [j Hj]%list_elem_of_lookup. by apply (H 0%nat (S j)).
  - apply IH. intros i j q q' Hi Hj Hne. apply (H (S i) (S j)); [done|done|lia].
Qed.

Definition final_permission (ph : elf32_program_header) : Z :=
  if ctrue (Z.land (p_flags ph) PROGRAM_WRITE) then PAGE_PERMISSION_READ_WRITE else PAGE_PERMISSION_READ_ONLY.
Definition final_area (name : list Z) (ph : elf32_program_header) : vm_area :=
  set_write_permission (final_permission ph) (segment_area name ph).
Definition segment_data (mem : list Z) (ph : elf32_program_header) : list Z :=
  take (Z.to_nat (p_filesz ph)) (drop (Z.to_nat (p_offset ph)) mem).
Definition in_segment (ph : elf32_program_header) (va : Z) : Prop := p_vaddr ph ≤ va < p_vaddr ph + round_up (p_memsz ph).

Lemma segment_data_ok mem ph :
  segment_fits mem ph → segment_bytes mem ph = Some (segment_data mem ph) ∧ lenZ (segment_data mem ph) = p_filesz ph ∧
    p_filesz ph ≤ round_up (p_memsz ph).
Proof.
  intros [_ _ _ H1 H2 [H3 H4]]. unfold segment_bytes, segment_data. rewrite (proj2 (Z.ltb_ge _ _)) by lia. split; [done|].
  rewrite length_take, length_drop, round_up_ok by lia. lia.
Qed.

(** the segments [phs] are in memory with their permissions; nothing else has changed *)
Record copied (mem : list Z) (pd : Z) (phs : list elf32_program_header) (p : pstate) (m : ustack) (p' : pstate) (m' : ustack) : Prop := {
  cp_cpu : on_cpu p' pd;
  cp_pal : pal p' = pal p;
  cp_kernel : kernel_page_directory p' = kernel_page_directory p;
  cp_words : ∀ a, is_Some (Paging.mem p !! a) → is_Some (Paging.mem p' !! a);
  cp_frames : ∀ va, USERSPACE_BOTTOM ≤ va < 4294967296 → frame_of p' pd va = frame_of p pd va;
  cp_dom : ∀ a, is_Some (m' !! a) ↔ is_Some (m !! a);
  cp_bytes : ∀ ph, ph ∈ phs → bytes_at m' (p_vaddr ph) (segment_data mem ph);
  cp_entries : ∀ ph va, ph ∈ phs → in_segment ph va →
    ∃ name pa, 0 ≤ pa < 4294967296 ∧ translate (Paging.mem p') pd va = Some (user_entry (final_area name ph) pa);
  cp_rest : ∀ a, (∀ ph, ph ∈ phs → ¬ p_vaddr ph ≤ a < p_vaddr ph + p_filesz ph) → m' !! a = m !! a;
  cp_other : ∀ va, 0 ≤ va < 4294967296 → (∀ ph, ph ∈ phs → ¬ in_segment ph va) → translate (Paging.mem p') pd va = translate (Paging.mem p) pd va }.

Lemma copied_nil mem pd p m : on_cpu p pd → copied mem pd [] p m p m.
Proof. intros Hoc. split; try done; intros; by match goal with H : _ ∈ [] |- _ => apply not_elem_of_nil in H end. Qed.

(** one segment, then the others *)
Lemma copied_cons mem pd ph phs p m p1 m1 p' m' :
  segment_fits mem ph → (∀ q, q ∈ phs → segment_fits mem q ∧ apart_segments ph q) →
  copied mem pd [ph] p m p1 m1 → copied mem pd phs p1 m1 p' m' → copied mem pd (ph :: phs) p m p' m'.
Proof.
  intros Hfit Hphs H1 H2.
  destruct (segment_data_ok _ _ Hfit) as (_ & Hlen & Hle). pose proof (sf_low _ _ Hfit) as Hlow. pose proof (sf_high _ _ Hfit) as Hhigh.
  pose proof (sf_memsz _ _ Hfit) as Hmz. pose proof (sf_page _ _ Hfit) as Hpg. unfold USERSPACE_BOTTOM in Hlow. change STACK_BOTTOM with 2675965952 in Hhigh.
  pose proof (round_up_ok (p_memsz ph) ltac:(lia)) as Eru.
  assert (∀ q, q ∈ phs → p_filesz q ≤ round_up (p_memsz q)) as Hq.
  { intros q Hq. destruct (Hphs q Hq) as [Hf _]. by apply segment_data_ok in Hf as (_ & _ & ?). }
  split.
  - apply H2.
  - rewrite (cp_pal _ _ _ _ _ _ _ H2). apply H1.
  - rewrite (cp_kernel _ _ _ _ _ _ _ H2). apply H1.
  - intros a Ha. by apply (cp_words _ _ _ _ _ _ _ H2), (cp_words _ _ _ _ _ _ _ H1).
  - intros va Hva. rewrite (cp_frames _ _ _ _ _ _ _ H2) by done. by apply (cp_frames _ _ _ _ _ _ _ H1).
  - intros a. rewrite (cp_dom _ _ _ _ _ _ _ H2). apply (cp_dom _ _ _ _ _ _ _ H1).
  - intros q [->|Hin]%elem_of_cons; [|by apply (cp_bytes _ _ _ _ _ _ _ H2)].
    intros i x Hi. rewrite (cp_rest _ _ _ _ _ _ _ H2); [apply (cp_bytes _ _ _ _ _ _ _ H1 ph); [by left|done]|].
    intros q' Hq' Hin. destruct (Hphs q' Hq') as [_ Hap]. specialize (Hq q' Hq'). apply lookup_lt_Some in Hi. unfold apart_segments in Hap. lia.
  - intros q va [->|Hin]%elem_of_cons Hva; [|by apply (cp_entries _ _ _ _ _ _ _ H2)].
    rewrite (cp_other _ _ _ _ _ _ _ H2); [apply (cp_entries _ _ _ _ _ _ _ H1 ph); [by left|done]|unfold in_segment in Hva; lia|].
    intros q' Hq' Hin. destruct (Hphs q' Hq') as [_ Hap]. unfold apart_segments, in_segment in *. lia.
  - intros a Ha. rewrite (cp_rest _ _ _ _ _ _ _ H2) by (intros q Hin; apply Ha; by right).
    apply (cp_rest _ _ _ _ _ _ _ H1). intros q ->%list_elem_of_singleton. apply Ha. by left.
  - intros va Hva Hno. rewrite (cp_other _ _ _ _ _ _ _ H2) by (done || (intros q Hin; apply Hno; by right)).
    apply (cp_other _ _ _ _ _ _ _ H1); [done|]. intros q ->%list_elem_of_singleton. apply Hno. by left.
Qed.

(** the area of [ph], remapped with its permission *)
Lemma remap_segment mem pd name ph σ p a :
  segment_fits mem ph → on_cpu p pd → σ !! a = Some (final_area name ph) →
  (∀ va, in_segment ph va → is_Some (translate (Paging.mem p) pd va)) →
  ∃ p', userspace_remap_vm_area pd a (mk_tp p σ) = Ok (OK, mk_tp p' σ) ∧ on_cpu p' pd ∧ pal p' = pal p ∧
    kernel_page_directory p' = kernel_page_directory p ∧ (∀ a, is_Some (Paging.mem p !! a) → is_Some (Paging.mem p' !! a)) ∧
    (∀ va, 0 ≤ va < 4294967296 → frame_of p' pd va = frame_of p pd va) ∧
    (∀ va, in_segment ph va → ∃ pa, 0 ≤ pa < 4294967296 ∧ translate (Paging.mem p') pd va = Some (user_entry (final_area name ph) pa)) ∧
    (∀ va, 0 ≤ va < 4294967296 → ¬ in_segment ph va → translate (Paging.mem p') pd va = translate (Paging.mem p) pd va).
Proof.
  intros Hfit Hoc Ha Hpres. destruct (segment_area_pages mem name ph Hfit) as [Hok Hus Hal Hlen Hown].
  set (v := final_area name ph) in *.
  assert (uarea_ok v) as Hokv by exact Hok. assert (flags_ok v) as Hfl.
  { unfold flags_ok, v, final_area, final_permission, PAGE_PERMISSION_READ_WRITE, PAGE_PERMISSION_READ_ONLY.
    cbn [a_write_permission a_page_writethrough a_page_cachedisable set_write_permission segment_area].
    unfold PAGE_WRITEBACK, PAGE_CACHE_ENABLED. destruct (ctrue (Z.land (p_flags ph) PROGRAM_WRITE)); lia. }
  assert (a_end v = a_virt_addr v + a_length v) as Eend by (by apply a_end_ok).
  destruct (remap_loop_ok (frames (a_virt_addr v) (a_end v)) pd v p (a_virt_addr v)) as (p' & Hr & Hoc' & Hpal & Hk & Htr & Hw); try done.
  { unfold frames, PAGE_SIZE. assert (0 ≤ (a_end v - a_virt_addr v) / 4096); [|lia]. apply Z.div_pos; [|lia].
    destruct Hokv as (? & ? & ?). lia. }
  exists p'. split_and!; [|done|done|done|done|..].
  - unfold userspace_remap_vm_area. rewrite (bind_ok _ _ _ v (mk_tp p σ)) by (apply (zoom_ok tareas_l); by apply load_ok).
    unfold on_ps. by rewrite (bind_ok _ _ _ _ _ (zoom_ok tps_l _ (mk_tp p σ) _ _ Hr)).
  - intros va Hva. unfold frame_of. rewrite Htr by done. case_decide; [|done]. destruct (translate (Paging.mem p) pd va) as [e|]; [|done].
    cbn [fmap option_fmap option_map]. by rewrite (proj2 (reperm_present v e)).
  - intros va Hva. destruct Hokv as (H0 & H1 & H2). assert (0 ≤ va < 4294967296) as Hrng by (unfold in_segment in Hva; cbn in H0, H2; lia).
    rewrite Htr by done. rewrite decide_True by exact Hva. destruct (Hpres va Hva) as [e ->]. cbn [fmap option_fmap option_map].
    eexists. split; [|reflexivity]. pose proof (frame_range e). lia.
  - intros va Hva Hno. rewrite Htr by done. by rewrite decide_False.
Qed.

Section copy.
Context {k0 : kst} {tk : Z} {sd : Z} {nm : gmap Z (list Z)} {t : task} {h : list Z}.

(** a run on a map of bytes, on the memory of the loader's state *)
Lemma LS_sim {A} (x : M lstate A) (y : M ustack A) σ p r m a m' :
  sim x y → sees (LS k0 tk t σ p h r sd nm) m → y m = Ok (a, m') →
  ∃ r', x (LS k0 tk t σ p h r sd nm) = Ok (a, LS k0 tk t σ p h r' sd nm) ∧ sees (LS k0 tk t σ p h r' sd nm) m'.
Proof.
  intros Hsim Hs Hy. destruct (Hsim _ _ _ _ Hs Hy) as (r' & Hr & Hs'). by exists r'.
Qed.

(** one segment *)
Lemma copy_segment_ok {B} mem pd l name ph a σ p r m (k : () → M lstate B) :
  segment_fits mem ph → uareas_ok σ l → a ∈ l → σ !! a = Some (segment_area name ph) → on_cpu p pd →
  sees (LS k0 tk t σ p h r sd nm) m → (∀ a, is_Some (m !! a) → USERSPACE_BOTTOM ≤ a < 4294967296) →
  (∀ va, in_segment ph va → is_Some (m !! va) ∧ is_Some (translate (Paging.mem p) pd va)) →
  ∃ p' r' m', (bytes ← deref (segment_bytes mem ph);
      copy_in (p_vaddr ph) bytes ;;
      _vma ← on_tp (zoom tareas_l (search_userspace_vma_by_addr l (p_vaddr ph)));
      ASSERT (ctrue _vma) ;;
      on_tp (zoom tareas_l (update _vma (set_write_permission (final_permission ph)))) ;;
      on_tp (userspace_remap_vm_area pd _vma) ;; k ()) (LS k0 tk t σ p h r sd nm) =
    k () (LS k0 tk t (<[a := final_area name ph]> σ) p' h r' sd nm) ∧
    copied mem pd [ph] p m p' m' ∧ sees (LS k0 tk t (<[a := final_area name ph]> σ) p' h r' sd nm) m'.
Proof.
  intros Hfit Hua Hal Ha Hoc Hs Hdom Hpres. destruct (segment_data_ok _ _ Hfit) as (Hb & Hlen & Hle). rewrite Hb.
  rewrite (bind_ok _ _ _ (segment_data mem ph) (LS k0 tk t σ p h r sd nm)) by done.
  pose proof (sf_low _ _ Hfit) as Hlow. pose proof (sf_high _ _ Hfit) as Hhigh. pose proof (sf_memsz _ _ Hfit) as Hmz.
  pose proof (sf_page _ _ Hfit) as Hpg. pose proof (round_up_ok (p_memsz ph) ltac:(lia)) as Eru.
  change STACK_BOTTOM with 2675965952 in Hhigh.
  destruct (copy_in_ok m (p_vaddr ph) (segment_data mem ph)) as (m' & Hm & Hbytes & Hd).
  { intros c Hc. apply Hpres. unfold in_segment. lia. }
  destruct (LS_sim (copy_in (p_vaddr ph) (segment_data mem ph)) (copy_in (p_vaddr ph) (segment_data mem ph)) σ p r m () m')
    as (r' & E1 & Hs1); [apply sim_copy_in|exact Hs|exact Hm|]. rewrite (bind_ok _ _ _ _ _ E1). clear E1.
  assert (inside (segment_area name ph) (p_vaddr ph)) as Hin by (unfold inside; cbn [a_virt_addr a_length segment_area]; lia).
  rewrite (LS_on_areas _ _ _ _ _ _ _ _ _ (search_by_addr_unique σ l a _ _ Hua Hal Ha Hin)).
  rewrite (proj2 (ctrue_true a)) by (intros ->; by destruct (ua_null _ _ Hua)). mstep.
  rewrite (LS_on_areas _ _ _ _ _ _ () (<[a := final_area name ph]> σ)) by (by apply (update_ok _ _ (segment_area name ph))).
  set (σ1 := <[a := final_area name ph]> σ).
  destruct (remap_segment mem pd name ph σ1 p a Hfit Hoc) as (p' & Hr & Hoc' & Hpal & Hk & Hw & Hfr & Hent & Hoth);
    [apply lookup_insert_eq|intros va Hva; by apply Hpres|].
  rewrite (LS_on_tp _ _ _ _ _ _ _ _ _ _ Hr). exists p', r', m'. split; [done|].
  assert (∀ a, is_Some (m' !! a) ↔ is_Some (m !! a)) as Hdom'.
  { intros c. rewrite <-!elem_of_dom. by rewrite (proj1 Hd). }
  split.
  - split; try done.
    + intros va Hva. apply Hfr. unfold USERSPACE_BOTTOM in Hva. lia.
    + intros q ->%list_elem_of_singleton. done.
    + intros q va ->%list_elem_of_singleton Hva. destruct (Hent va Hva) as (pa & Hpa & E). by exists name, pa.
    + intros c Hc. apply (proj2 Hd). rewrite Hlen. apply Hc. by apply list_elem_of_singleton.
    + intros va Hva Hno. apply Hoth; [done|]. apply Hno. by apply list_elem_of_singleton.
  - apply (sees_frames (LS k0 tk t σ p h r' sd nm) _ pd); [done|done|done| | |done].
    + intros va Hva. apply Hfr. unfold USERSPACE_BOTTOM in Hva. lia.
    + intros c Hc. apply Hdom. by apply Hdom'.
Qed.

Lemma copy_segments_ok {B} mem hdr headers pd l addrs σ p r m idx (k : () → M lstate B) :
  headers_from mem hdr idx headers → (∀ ph, ph ∈ loads headers → segment_fits mem ph) → pairwise (loads headers) →
  uareas_ok σ l → (∀ a, a ∈ addrs → a ∈ l) → NoDup addrs → Forall2 (area_of σ) addrs (loads headers) → on_cpu p pd →
  sees (LS k0 tk t σ p h r sd nm) m → (∀ a, is_Some (m !! a) → USERSPACE_BOTTOM ≤ a < 4294967296) →
  (∀ ph va, ph ∈ loads headers → in_segment ph va → is_Some (m !! va) ∧ is_Some (translate (Paging.mem p) pd va)) →
  ∃ σ' p' r' m', mbind k (copy_segments mem hdr pd l (length headers) idx) (LS k0 tk t σ p h r sd nm) =
      k () (LS k0 tk t σ' p' h r' sd nm) ∧
    copied mem pd (loads headers) p m p' m' ∧ sees (LS k0 tk t σ' p' h r' sd nm) m' ∧ (∀ a, a ∉ addrs → σ' !! a = σ !! a) ∧
    Forall (named σ') addrs.
Proof.
  revert addrs σ p r m idx. induction headers as [|ph headers IH]; intros addrs σ p r m idx Hh Hfit Hpw Hua Hin Hnd HF Hoc Hs Hdom Hpres.
  { destruct addrs; [|by inversion HF]. exists σ, p, r, m. cbn. split_and!; [done|by apply copied_nil|done|done|constructor]. }
  apply headers_from_cons in Hh as [Hph Hh]. cbn [copy_segments length]. rewrite bind_assoc_run.
  rewrite (bind_ok _ _ _ ph (LS k0 tk t σ p h r sd nm)) by (by rewrite Hph).
  unfold loads in *. destruct (decide (p_type ph = PROGRAM_TYPE_LOAD)) as [Hty|Hty].
  2: { rewrite filter_cons_False in * by done. rewrite (proj2 (Z.eqb_neq _ _) Hty). cbn [negb]. by apply (IH addrs). }
  rewrite filter_cons_True in * by done. rewrite Hty, Z.eqb_refl. cbn [negb]. fold (loads headers) in *.
  destruct addrs as [|a addrs]; [by inversion HF|]. apply Forall2_cons in HF as [(name & Hname & Ha) HF].
  destruct Hpw as [Hap Hpw]. apply NoDup_cons in Hnd as [Hna Hnd].
  assert (segment_fits mem ph) as Hfit1 by (apply Hfit; by left).
  destruct (copy_segment_ok mem pd l name ph a σ p r m
    (λ _, copy_segments mem hdr pd l (length headers) (idx + 1))) as (p1 & r1 & m1 & E1 & Hc1 & Hs1); try done.
  { apply Hin. by left. }
  { intros va Hva. apply (Hpres ph); [by left|done]. }
  fold (final_permission ph). rewrite (bind_cong _ _ (copy_segments mem hdr pd l (length headers) (idx + 1)) _ _ E1). clear E1. set (σ1 := <[a := final_area name ph]> σ) in *.
  destruct (IH addrs σ1 p1 r1 m1 (idx + 1)) as (σ' & p' & r' & m' & E & Hc & Hs' & Hout & Hnm); try done.
  - intros q Hq. apply Hfit. by right.
  - by apply uareas_ok_perm.
  - intros b Hb. apply Hin. by right.
  - eapply Forall2_weaken; [|exact HF]. intros b q Hb (name' & Hn' & Hσ'). exists name'. split; [done|].
    unfold σ1. rewrite lookup_insert_ne; [done|]. by intros ->.
  - apply Hc1.
  - intros c Hc. apply Hdom. by apply (cp_dom _ _ _ _ _ _ _ Hc1).
  - intros q va Hq Hva. destruct (Hpres q va ltac:(by right) Hva) as [Hp1 [e He]]. split; [by apply (cp_dom _ _ _ _ _ _ _ Hc1)|].
    exists e. rewrite (cp_other _ _ _ _ _ _ _ Hc1); [done| |].
    + pose proof (Hfit q ltac:(by right)) as [? ? ? ? ? ?]. unfold in_segment, USERSPACE_BOTTOM in *. change STACK_BOTTOM with 2675965952 in *.
      pose proof (round_up_ok (p_memsz q) ltac:(lia)). lia.
    + intros q' ->%list_elem_of_singleton Hva'. specialize (Hap q Hq). unfold apart_segments, in_segment in *. lia.
  - exists σ', p', r', m'. split_and!; [done| |done| |].
    + apply (copied_cons _ _ _ _ _ _ p1 m1); [done| |done|done]. intros q Hq. split; [apply Hfit; by right|by apply Hap].
    + intros b [Hb Hb']%not_elem_of_cons. rewrite Hout by done. unfold σ1. by apply lookup_insert_ne.
    + constructor; [|done]. exists (final_area name ph). split; [|done]. rewrite Hout by done. apply lookup_insert_eq.
Qed.
End copy.

(** ** Kernel pages *)

(** the kernel directory is well formed and there is memory for [n] pages *)
Record machine_ok (bss : Z) (n : nat) (p : pstate) : Prop := {
  mo_dir : dir_ok p (kernel_page_directory p);
  mo_base : base_ok (pal p);
  mo_pal : palloc_ok (pal p);
  mo_spare : spare bss n p }.

(** [p'] is [p] with more pages in the kernel directory *)
Record grown_pages (p p' : pstate) : Prop := {
  gp_kernel : kernel_page_directory p' = kernel_page_directory p;
  gp_words : ∀ a, is_Some (mem p !! a) → is_Some (mem p' !! a);
  gp_frames : ∀ f, occupied (free_page_bitmap (pal p)) f = true → occupied (free_page_bitmap (pal p')) f = true }.

Lemma grown_pages_refl p : grown_pages p p.
Proof. by split. Qed.

Lemma grown_pages_trans p1 p2 p3 : grown_pages p1 p2 → grown_pages p2 p3 → grown_pages p1 p3.
Proof. intros [K1 W1 F1] [K2 W2 F2]. split; [congruence|auto|auto]. Qed.

Lemma grown_blank p p' r : grown_pages p p' → blank_frames p r → blank_frames p' r.
Proof.
  intros Hg Hb f i Hf. apply Hb. destruct (occupied (free_page_bitmap (pal p)) f) eqn:E; [|done].
  by rewrite (gp_frames _ _ Hg f E) in Hf.
Qed.

Lemma machine_weaken bss n n' p : (n' ≤ n)%nat → machine_ok bss n p → machine_ok bss n' p.
Proof. intros Hn [? ? ? Hs]. split; try done. by eapply spare_weaken. Qed.

Section kernel_pages.
Variable bss : Z.
Hypothesis bss_place : 0 < bss ≤ PAGE_SPACE_BOTTOM.

(** mapping a kernel page takes a frame and at most one page table *)
Lemma kernel_map_page_spare n p va pa :
  dir_ok p (kernel_page_directory p) → base_ok (pal p) → palloc_ok (pal p) →
  at_least n (free_frame_at bss p) → at_least (S n) (free_base_at p) → 0 ≤ pa < 4294967296 →
  ∃ p', kernel_map_page va pa PAGE_PERMISSION_READ_WRITE PAGE_WRITEBACK PAGE_CACHE_ENABLED p = Ok ((), p') ∧
    machine_ok bss n p' ∧ grown_pages p p' ∧ is_Some (translate (mem p') (kernel_page_directory p) va).
Proof.
  intros Hdir Hbase Hpal Hsf Hsb Hpa. unfold kernel_map_page, get_kernel_page_directory. mstep.
  set (pd := kernel_page_directory p) in *.
  destruct (page_table_of_ok p pd va PAGE_PERMISSION_SUPERVISOR Hdir Hbase) as (r & s1 & Hr & Hb1 & Hctl & _ & Huse & _ & Hcase).
  pose proof (page_table_of_extends _ _ _ _ _ _ Hdir Hbase Hr) as Hext. rewrite (bind_ok _ _ _ _ _ Hr).
  destruct Hcase as [(-> & _ & Hall)|(t & -> & Hdir1 & Ht & _)].
  { destruct (at_least_some _ _ Hsb) as (j & Hj & Hf). rewrite (Hall j Hj) in Hf. done. }
  destruct (put_entry_ok s1 pd va pa t PAGE_PERMISSION_READ_WRITE PAGE_PERMISSION_SUPERVISOR PAGE_WRITEBACK PAGE_CACHE_ENABLED Hdir1 Ht Hpa)
    as (Hp & Hdir2 & Htr2 & _). destruct Hctl as (C1 & C2 & C3 & C4 & C5).
  destruct (do_table _ _ Hdir1 _ _ (proj1 (index_range va)) Ht) as [(j0 & Ej & _) _].
  eexists. split; [exact Hp|]. split_and!.
  - split; cbn [pal mem set_word kernel_page_directory]; [by rewrite C1|done|by apply (palloc_ok_same (pal p))|]. split.
    + eapply at_least_weaken; [|..|exact Hsf]; [lia|]. intros f. unfold free_frame_at. cbn [pal set_word]. by rewrite C3, C5.
    + apply (at_least_spoil n _ _ j0 Hsb). intros j [H1 H2] Hne. split; [done|]. cbn [pal set_word].
      destruct (base_used (pal s1) j) eqn:E; [|done]. destruct (Huse j E) as [?|[= E']]; [congruence|].
      exfalso. apply Hne. apply base_page_inj. congruence.
  - split; cbn [pal mem set_word kernel_page_directory]; [done| |by rewrite C3].
    intros a Ha. apply lookup_insert_is_Some'. right. by apply (ex_words _ _ _ Hext).
  - rewrite Htr2. eauto.
Qed.

(** one round of the loop: a page that is not there gets a frame *)
Lemma kernel_page_ok {A} n p va (k : () → M pstate A) :
  machine_ok bss (S n) p →
  ∃ p', (rc ← page_present (kernel_page_directory p) va;
         when (negb (rc =? OK)) (
           __addr ← zoom pal_l (get_page bss);
           ASSERT (ctrue __addr) ;;
           kernel_map_page va __addr PAGE_PERMISSION_READ_WRITE PAGE_WRITEBACK PAGE_CACHE_ENABLED ;;
           rc ← page_present (kernel_page_directory p) va;
           ASSERT (! rc)) ;; k ()) p = k () p' ∧ machine_ok bss n p' ∧ grown_pages p p'.
Proof.
  intros Hm. pose proof Hm as [Hdir Hbase Hpal Hsp]. rewrite (bind_ok _ _ _ _ _ (page_present_ok p _ va Hdir)).
  destruct (translate (mem p) (kernel_page_directory p) va) as [e|] eqn:Htr.
  { exists p. split_and!; [done|by eapply machine_weaken; [|exact Hm]; lia|apply grown_pages_refl]. }
  change (negb (u32 (- ERR_NOT_PRESENT) =? OK)) with true. unfold when. cbv iota.
  destruct (frame_for_ok bss bss_place no_area p va Hpal) as (pa & q & Hpa & Hq & (Eb & Ef & El) & Hrng & Hframe).
  change (! a_exact no_area) with true in Hpa, Hframe. cbn [andb] in Hframe. rewrite bind_assoc_run, (bind_ok _ _ _ _ _ Hpa).
  destruct (ctrue pa) eqn:Epa; cbn [negb] in Hframe.
  2: { destruct Hframe as [_ Hall]. destruct (at_least_some _ _ (proj1 Hsp)) as (f & Hf1 & Hf2 & Hf3). rewrite Hall in Hf3; done. }
  destruct Hframe as [(Hfree & _ & Hocc) _]. set (q1 := mk_pstate q (mem p) (kernel_page_directory p) (cr3 p)).
  assert (at_least n (free_frame_at bss q1)) as Hsf.
  { apply (at_least_spoil n _ _ (pa / 4096) (proj1 Hsp)). intros f (H1 & H2 & H3) Hne. split_and!; [done|cbn [q1 pal]; by rewrite El|].
    cbn [q1 pal]. rewrite Hocc, H3, orb_false_r. by apply Z.eqb_neq. }
  assert (at_least (S n) (free_base_at q1)) as Hsb.
  { eapply at_least_weaken; [|..|exact (proj2 Hsp)]; [lia|]. intros j [H1 H2]. split; [done|]. unfold base_used in *. cbn [q1 pal]. by rewrite Eb. }
  assert (dir_ok q1 (kernel_page_directory q1)) as Hdir1 by (apply dir_ok_pal; [intros j; unfold base_used; by rewrite Eb|done]).
  destruct (kernel_map_page_spare n q1 va pa Hdir1) as (p' & Hmap & Hm' & Hg & e & He); [|done|done|done|done|]; cbn [q1 kernel_page_directory] in *.
  { unfold q1, base_ok, base_cursor in *. cbn [pal]. by rewrite Ef. }
  mstep. mstep. rewrite bind_assoc_run, (bind_ok _ _ _ _ _ Hmap).
  pose proof (mo_dir _ _ _ Hm') as Hd'. rewrite (gp_kernel _ _ Hg) in Hd'.
  pose proof (page_present_ok p' (kernel_page_directory p) va) as Hpp. rewrite He in Hpp.
  exists p'. split_and!; [|done|].
  - rewrite bind_assoc_run. rewrite (bind_ok _ _ _ _ _ (Hpp Hd')). done.
  - eapply grown_pages_trans; [|exact Hg]. split; [done|done|]. intros f Hf. cbn [q1 pal]. rewrite Hocc, Hf. apply orb_true_r.
Qed.
End kernel_pages.

(** ** The parts of the loader *)
Section parts.
Context {k0 : kst} {tk : Z} {sd : Z} {nm : gmap Z (list Z)} {t : task} {σ : areas} {h : list Z}.
Implicit Types (p : pstate) (r : Z → Z).

Lemma LS_set_current {A} p r x (k : () → M lstate A) :
  mbind k (on_k (set_current x)) (LS k0 tk t σ p h r sd nm) = k () (LS (lset current_l x k0) tk t σ p h r sd nm).
Proof. apply bind_ok. reflexivity. Qed.

Lemma LS_set_cpu {A} p r c f (k : () → M lstate A) :
  mbind k (on_k (zoom cpus_l (modify (<[c := f]>)))) (LS k0 tk t σ p h r sd nm) =
  k () (LS (lset cpus_l (<[c := f]> (cpus k0)) k0) tk t σ p h r sd nm).
Proof. apply bind_ok. reflexivity. Qed.

Lemma LS_set_names {A} p r f (k : () → M lstate A) :
  mbind k (modify (λ s, mk_ls (lk s) (heap s) (ram s) (task_seed s) (f (task_names s)))) (LS k0 tk t σ p h r sd nm) =
  k () (LS k0 tk t σ p h r sd (f nm)).
Proof. apply bind_ok. reflexivity. Qed.

(** the pages [malloc_align_mapped] may have to map for a block of [len] bytes *)
Definition heap_pages (len : Z) : nat := Z.to_nat ((len + 4095) / 4096).
(** a block that ends before the last page of the address space *)
Definition block_ok (addr len : Z) : Prop := 0 < addr ∧ 0 ≤ len ∧ addr + len < 4294967296 - 4096.

Lemma map_heap_loop_ok bss fuel n p va hi :
  0 < bss ≤ PAGE_SPACE_BOTTOM → machine_ok bss (n + heap_pages (hi - va)) p → 0 < va → hi < 4294967296 - 4096 →
  (hi - va) / 4096 + 1 < Z.of_nat fuel → 0 < Z.of_nat fuel →
  ∃ p', map_heap_loop bss fuel va hi p = Ok ((), p') ∧ machine_ok bss n p' ∧ grown_pages p p'.
Proof.
  intros Hbss. revert va p. induction fuel as [|fuel IH]; intros va p Hm Hva Hhi Hf Hpos; [lia|]. cbn [map_heap_loop].
  destruct (Z.ltb_spec va hi) as [Hlt|Hge].
  2: { exists p. split_and!; [done|eapply machine_weaken; [|exact Hm]; lia|apply grown_pages_refl]. }
  unfold get_kernel_page_directory. mstep.
  assert (machine_ok bss (S (n + heap_pages (hi - (va + 4096)))) p) as Hm1.
  { eapply machine_weaken; [|exact Hm]. unfold heap_pages. lia. }
  destruct (kernel_page_ok bss Hbss _ p va (λ _, map_heap_loop bss fuel (u32 (va + PAGE_SIZE)) hi) Hm1) as (p1 & E & Hm2 & Hg).
  destruct (IH (va + 4096) p1) as (p' & Hr & Hm' & Hg'); [done|lia|done|lia|lia|].
  exists p'. split_and!; [|done|by eapply grown_pages_trans]. etransitivity; [exact E|]. unfold PAGE_SIZE. by rewrite u32_small by lia.
Qed.

Lemma LS_kernel_stack {A} bss n p r a len (k : Z → M lstate A) :
  0 < bss ≤ PAGE_SPACE_BOTTOM → machine_ok bss (n + heap_pages len) p → block_ok a len →
  ∃ p', mbind k (malloc_align_mapped bss len) (LS k0 tk t σ p (a :: h) r sd nm) = k a (LS k0 tk t σ p' h r sd nm) ∧
    machine_ok bss n p' ∧ grown_pages p p'.
Proof.
  intros Hbss Hm (Ha & Hl & Hhi). destruct (map_heap_loop_ok bss (frames a (a + len)) n p a (a + len)) as (p' & E & Hm' & Hg);
    [done|by replace (a + len - a) with len by lia|done|done|unfold frames, PAGE_SIZE; lia|unfold frames; lia|].
  exists p'. split_and!; [|done|done]. apply bind_ok. unfold malloc_align_mapped. rewrite LS_malloc.
  rewrite (proj2 (ctrue_true a)) by lia. cbn [negb]. rewrite (u32_small (a + len)) by lia.
  by rewrite (LS_on_pg _ _ _ _ _ _ _ _ _ E).
Qed.
End parts.

(** the new directory *)
Definition fresh_directory (p : pstate) (pd : Z) (p1 : pstate) : Prop :=
  dir_ok p1 pd ∧ base_ok (pal p1) ∧ palloc_ok (pal p1) ∧ (∀ k, 0 ≤ k < 1024 → table (Paging.mem p1) pd k = None) ∧
  (∃ j, pd = base_page j ∧ base_used (pal p) j = false) ∧ (∀ j, base_used (pal p) j = true → base_used (pal p1) j = true) ∧
  (∀ a, is_Some (Paging.mem p !! a) → is_Some (Paging.mem p1 !! a)) ∧ kernel_page_directory p1 = kernel_page_directory p ∧
  free_page_bitmap (pal p1) = free_page_bitmap (pal p).

Lemma new_directory_ok bss n p :
  base_ok (pal p) → palloc_ok (pal p) → spare bss (S n) p →
  ∃ pd q p1, get_base_page (pal p) = Ok (pd, q) ∧ pd ≠ NULL ∧
    memset_page pd (mk_pstate q (Paging.mem p) (kernel_page_directory p) (cr3 p)) = Ok ((), p1) ∧ fresh_directory p pd p1 ∧ spare bss n p1.
Proof.
  intros Hb Hp [Hsf Hsb]. destruct (get_base_page_ok (pal p) Hb) as (r & q & Hr & Hbq & Hcase).
  destruct Hcase as [(-> & _ & Hall)|(j & -> & Hj & Hun & Hbits & E1 & E2 & E3)].
  { destruct (at_least_some _ _ Hsb) as (j & Hj & Hf). rewrite (Hall j Hj) in Hf. done. }
  destruct (base_page_range j Hj) as [[Hlo _] _].
  assert (∀ k, 0 ≤ k < 1024 → table (clear_page (Paging.mem p) (base_page j)) (base_page j) k = None) as Htab.
  { intros k Hk. unfold table. by rewrite clear_page_in. }
  exists (base_page j), q. eexists. split_and!; [done|unfold PAGE_SPACE_BOTTOM in Hlo; lia|reflexivity|..].
  - split_and!; cbn [pal Paging.mem kernel_page_directory].
    + split; cbn [Paging.mem].
      * exists j. split_and!; [done|lia|lia|cbn [pal]; by rewrite Hbits, Z.eqb_refl|]. intros k Hk. cbn [Paging.mem]. rewrite clear_page_in by done. by eexists.
      * intros k t Hk. by rewrite Htab.
      * intros k1 k2 t Hk1 _. by rewrite Htab.
    + done.
    + by apply (palloc_ok_same (pal p)).
    + done.
    + by exists j.
    + intros i Hi. rewrite Hbits, Hi. apply orb_true_r.
    + intros a. apply is_Some_clear_page.
    + done.
    + done.
  - split.
    + eapply at_least_weaken; [|..|exact Hsf]; [lia|]. intros f (H1 & H2 & H3). unfold free_frame_at. cbn [pal]. by rewrite E3, E1.
    + apply (at_least_spoil n _ _ j Hsb). intros i [H1 H2] Hne. split; [done|]. cbn [pal]. rewrite Hbits, H2, orb_false_r. by apply Z.eqb_neq.
Qed.

(** ** Reading the new task's memory from outside *)

(** the byte at [va] through the directory [pd] *)
Definition task_byte (p : pstate) (r : Z → Z) (pd va : Z) : option Z := (λ e, r (phys_of e va)) <$> translate (Paging.mem p) pd va.

Lemma sees_byte s pd (m : ustack) a b :
  on_cpu (pages s) pd → sees s m → USERSPACE_BOTTOM ≤ a < 4294967296 → m !! a = Some b → task_byte (pages s) (ram s) pd a = Some b.
Proof.
  intros Hoc Hs Ha Hb. destruct (se_byte _ _ Hs a b Hb) as (pa & Hpa & <-). unfold user_phys in Hpa.
  rewrite (on_cpu_translate _ _ _ Hoc Ha) in Hpa. unfold task_byte. destruct (translate _ pd a); [|done]. cbn in *. congruence.
Qed.

Lemma user_string_ok s (m : ustack) w n va :
  sees s m → string_at m va w → Forall (λ c, c ≠ 0) w → (length w < n)%nat → user_string n va s = Ok (w ++ [0], s).
Proof.
  intros Hs. revert n va. induction w as [|c w IH]; intros n va Hw Hz Hn; (destruct n as [|n]; [simpl in Hn; lia|]); cbn [user_string].
  - apply bytes_at_cons in Hw as [H0 _]. destruct (se_byte _ _ Hs _ _ H0) as (pa & Hpa & Hb). erewrite bind_ok.
    2: { cbn [peek user_memory]. rewrite Hpa, Hb. reflexivity. } done.
  - apply bytes_at_cons in Hw as [H0 Hw]. inversion Hz; subst. destruct (se_byte _ _ Hs _ _ H0) as (pa & Hpa & Hb). erewrite bind_ok.
    2: { cbn [peek user_memory]. rewrite Hpa, Hb. reflexivity. }
    rewrite (proj2 (ctrue_true c)) by done. cbn [negb]. rewrite (bind_ok _ _ _ _ _ (IH n (va + 1) Hw ltac:(done) ltac:(simpl in Hn; lia))). done.
Qed.

(** the name of the task *)
Lemma task_name_ok w : Forall (λ c, c ≠ 0) w → lenZ w < MAX_PATH →
  ∃ name, strcpy_safe (replicate (Z.to_nat MAX_PATH) 0) (w ++ [0]) MAX_PATH = Some name ∧ holds name w.
Proof.
  intros Hz Hl. unfold strcpy_safe. rewrite (strcpy_bytes_ok _ _ w).
  - rewrite decide_True by lia. eexists. split; [done|]. split; [done|]. by eexists.
  - split; [done|]. by exists [].
  - by rewrite length_replicate.
Qed.

(** ** The end of the loader *)
Section finish.
Context {k0 : kst} {tk : Z} {sd : Z} {nm : gmap Z (list Z)} {t : task} {σ : areas} {h : list Z} {r : Z → Z}.

(** the task that runs the loader *)
Definition caller_ok (k : kst) (p : pstate) (tk prev : Z) : Prop :=
  prev ≠ NULL → prev ≠ tk ∧ ∃ t0, tasks k !! prev = Some t0 ∧ copyable p (page_directory t0).

Lemma caller_kept k p p' prev :
  kernel_page_directory p' = kernel_page_directory p → (∀ a, is_Some (Paging.mem p !! a) → is_Some (Paging.mem p' !! a)) →
  caller_ok k p tk prev → caller_ok k p' tk prev.
Proof.
  intros Ek Hw Hc Hp. destruct (Hc Hp) as (Hne & t0 & Ht & Hcp). split; [done|]. exists t0. split; [done|].
  destruct Hcp as [?|(H1 & H2 & H3)]; [by left|]. right. split_and!; [done|by rewrite Ek|]. intros i Hi. by apply Hw, H3.
Qed.

Definition outside_kernel (p : pstate) (m' : gmap Z Z) : Prop :=
  (∀ a, (∀ k, 256 ≤ k < 1024 → a ≠ kernel_page_directory p + 4 * k) → m' !! a = Paging.mem p !! a) ∧
  ∀ a, is_Some (Paging.mem p !! a) → is_Some (m' !! a).

Lemma LS_resume {A} p prev (k : () → M lstate A) :
  kernel_words p → caller_ok k0 p tk prev →
  ∃ m', mbind k (resume prev) (LS k0 tk t σ p h r sd nm) =
      k () (LS (lset current_l prev k0) tk t σ (mk_pstate (pal p) m' (kernel_page_directory p) (kernel_page_directory p)) h r sd nm) ∧
    outside_kernel p m'.
Proof.
  intros Hk Hc. unfold resume. destruct (decide (prev = NULL)) as [->|Hp].
  - destruct (enable_kernel_paging_run p Hk) as (m' & E & H1 & H2). exists m'. split; [|done].
    rewrite bind_assoc_run, LS_set_current. change (ctrue NULL) with false. cbv iota. by rewrite (LS_on_pg _ _ _ _ _ _ _ _ _ E).
  - destruct (Hc Hp) as (Hne & t0 & Ht & Hcp). destruct (enable_task_paging_run p _ Hk Hcp) as (m' & E & _ & H1 & H2).
    exists m'. split; [|done]. rewrite bind_assoc_run, LS_set_current. rewrite (proj2 (ctrue_true prev) Hp).
    rewrite bind_assoc_run. erewrite (bind_ok _ _ _ t0).
    2: { apply (zoom_ok lk_l _ _ t0). apply (zoom_ok tasks_l _ _ t0). apply load_ok. cbn. by rewrite lookup_insert_ne. }
    change (lset lk_l _ _) with (LS (lset current_l prev k0) tk t σ p h r sd nm). rewrite bind_assoc_run.
    rewrite (LS_on_pg _ _ _ _ _ _ _ _ _ E). done.
Qed.

Lemma LS_register {A} p (k : Z → M lstate A) :
  task_table k0 !! task_id t = None →
  mbind k (on_k (register_task_in_task_table tk)) (LS k0 tk t σ p h r sd nm) =
  k OK (LS (lset task_table_l (<[task_id t := tk]> (task_table k0)) k0) tk t σ p h r sd nm).
Proof.
  intros Hn. apply bind_ok. unfold on_k. erewrite (zoom_ok lk_l _ (LS k0 tk t σ p h r sd nm) OK); [reflexivity|].
  unfold register_task_in_task_table. erewrite load_task_run by (cbn; apply lookup_insert_eq). mstep. cbn.
  rewrite Hn. reflexivity.
Qed.

Lemma LS_task_put p :
  tk ∉ queued k0 → on_k (task_put tk) (LS k0 tk t σ p h r sd nm) =
  Ok ((), LS (lset run_queue_l (run_queue k0 ++ [tk]) k0) tk t σ p h r sd nm).
Proof.
  intros Hq. unfold on_k. erewrite (zoom_ok lk_l _ (LS k0 tk t σ p h r sd nm) ()); [reflexivity|].
  unfold task_put, append_to. by rewrite bool_decide_eq_false_2.
Qed.
End finish.

(** ** The memory of a loaded task *)
Lemma tokens_nonzero l w q a :
  Forall (λ c, c ≠ 0) l → Forall (λ c, c ≠ 0) (default [] w) → Forall (Forall (λ c, c ≠ 0)) (tokens w q a l).
Proof.
  intros Hl. revert w q a. induction Hl as [|c l Hc Hl IH]; intros w q a Hw; [by destruct w; repeat constructor|].
  cbn [tokens]. destruct w as [w|]; cbn [default] in Hw; repeat case_match;
    repeat match goal with |- Forall _ (_ :: _) => constructor; [done|] end; apply IH; cbn [default id]; try done;
    try (apply Forall_app; split; [done|]); by repeat constructor.
Qed.

(** a command line that starts [prog] with arguments [args] and environment [env] *)
Record command_ok (command : list Z) (env : list (list Z)) (prog : list Z) (args : list (list Z)) : Prop := {
  co_nonzero : Forall (λ c, c ≠ 0) command;
  co_few : lenZ (words_of command) ≤ STACK_LENGTH;
  co_words : words_of command = env ++ prog :: args;
  co_env : Forall (λ w, EQUALS ∈ w) env;
  co_prog : EQUALS ∉ prog;
  co_name : lenZ prog < MAX_PATH;
  co_space : space_for command + 16 ≤ DEFAULT_TASK_NON_PRIVILEGED_STACK_SIZE }.

(** the segments of the file with their permissions, and the command line on
    the stack.  Nothing clears the bytes of a segment beyond those in the file:
    they are what was left over in the frames, before the load, of [p0] and [r0]. *)
Record task_memory (p0 : pstate) (r0 : Z → Z) (mem : list Z) (phs : list elf32_program_header) (env args : list (list Z)) (sp pd : Z) (p : pstate) (r : Z → Z) : Prop := {
  tm_file : ∀ ph i b, ph ∈ phs → segment_data mem ph !! i = Some b → task_byte p r pd (p_vaddr ph + Z.of_nat i) = Some b;
  tm_rest : ∀ ph va, ph ∈ phs → in_segment ph va → p_vaddr ph + p_filesz ph ≤ va →
    ∃ b, task_byte p r pd va = Some b ∧ left_over p0 r0 va b;
  tm_entry : ∀ ph va, ph ∈ phs → in_segment ph va →
    ∃ name pa, 0 ≤ pa < 4294967296 ∧ translate (Paging.mem p) pd va = Some (user_entry (final_area name ph) pa);
  tm_stack : ∃ (m m' : ustack) program, (∀ a b, m' !! a = Some b → task_byte p r pd a = Some b) ∧
    launched STACK_BOTTOM (USERSPACE_STACK_TOP - 16) sp program env args m m' }.

Lemma in_segment_place mem ph va : segment_fits mem ph → in_segment ph va → USERSPACE_BOTTOM ≤ va < STACK_BOTTOM.
Proof.
  intros [H1 H2 H3 H4 _ _]. unfold in_segment. rewrite round_up_ok by lia.
  change STACK_BOTTOM with (4096 * (STACK_BOTTOM / 4096)) in *. lia.
Qed.

Lemma image_apart mem hdr headers ph q :
  image_ok mem hdr headers → ph ∈ loads headers → q ∈ loads headers → ph = q ∨ apart_segments ph q.
Proof.
  intros Him [i Hi]%list_elem_of_lookup [j Hj]%list_elem_of_lookup. destruct (decide (i = j)) as [->|Hne]; [left; congruence|].
  right. by eapply (im_apart _ _ _ Him i j).
Qed.

(** the new task's memory before it has been filled *)
Record new_space (p0 : pstate) (r0 : Z → Z) (phs : list elf32_program_header) (m : ustack) : Prop := {
  bs_user : ∀ a, is_Some (m !! a) → USERSPACE_BOTTOM ≤ a < 4294967296;
  bs_rest : ∀ a b, m !! a = Some b → left_over p0 r0 a b;
  bs_segment : ∀ ph va, ph ∈ phs → in_segment ph va → is_Some (m !! va);
  bs_stack : ∀ a, STACK_BOTTOM ≤ a < USERSPACE_STACK_TOP → is_Some (m !! a) }.

Lemma blank_byte p0 r0 phs m a : new_space p0 r0 phs m → blank_frames p0 r0 → is_Some (m !! a) → m !! a = Some 0.
Proof. intros Hb Hz [b E]. by rewrite E, (blank_left_over _ _ _ _ Hz (bs_rest _ _ _ _ Hb _ _ E)). Qed.

Lemma task_memory_ok p0 r0 mem hdr headers env args sp program pd p m p1 m1 s m2 :
  image_ok mem hdr headers → new_space p0 r0 (loads headers) m → copied mem pd (loads headers) p m p1 m1 → sees s m2 → pages s = p1 →
  launched STACK_BOTTOM (USERSPACE_STACK_TOP - 16) sp program env args m1 m2 →
  task_memory p0 r0 mem (loads headers) env args sp pd p1 (ram s).
Proof.
  intros Him Hbl Hc Hs <- HL. pose proof HL as (envp & argv & _ & _ & _ & _ & _ & _ & Hdom & Hsame).
  assert (∀ a, is_Some (m2 !! a) → USERSPACE_BOTTOM ≤ a < 4294967296) as Huser.
  { intros a Ha. apply (bs_user _ _ _ _ Hbl), (cp_dom _ _ _ _ _ _ _ Hc). apply elem_of_dom. rewrite <-Hdom. by apply elem_of_dom. }
  assert (∀ a b, m2 !! a = Some b → task_byte (pages s) (ram s) pd a = Some b) as Hbyte.
  { intros a b Hab. eapply sees_byte; [exact (cp_cpu _ _ _ _ _ _ _ Hc)|exact Hs| |done]. apply Huser. by exists b. }
  split.
  - intros ph i b Hph Hb. apply Hbyte. rewrite Hsame; [by apply (cp_bytes _ _ _ _ _ _ _ Hc ph Hph)|].
    pose proof (im_fits _ _ _ Him ph Hph) as Hf. destruct (segment_data_ok _ _ Hf) as (_ & H1 & H2). apply lookup_lt_Some in Hb.
    pose proof (in_segment_place mem ph (p_vaddr ph + Z.of_nat i) Hf ltac:(unfold in_segment; lia)). lia.
  - intros ph va Hph Hin Hva. pose proof (in_segment_place _ _ _ (im_fits _ _ _ Him ph Hph) Hin).
    assert (m2 !! va = m !! va) as E. 2: { destruct (bs_segment _ _ _ _ Hbl ph va Hph Hin) as [b Hb]. exists b. split; [apply Hbyte; by rewrite E|by apply (bs_rest _ _ _ _ Hbl)]. }
    rewrite Hsame by lia. rewrite (cp_rest _ _ _ _ _ _ _ Hc); [done|].
    intros q Hq Hin'. destruct (image_apart _ _ _ ph q Him Hph Hq) as [<-|Ha]; [lia|].
    destruct (segment_data_ok _ _ (im_fits _ _ _ Him q Hq)) as (_ & _ & ?). unfold apart_segments, in_segment in *. lia.
  - apply (cp_entries _ _ _ _ _ _ _ Hc).
  - by exists m1, m2, program.
Qed.

(** going back to the kernel's or the caller's space *)
Lemma task_memory_kept p0 r0 mem phs env args sp pd p r m' c :
  separate p pd → outside_kernel p m' → task_memory p0 r0 mem phs env args sp pd p r →
  task_memory p0 r0 mem phs env args sp pd (mk_pstate (pal p) m' (kernel_page_directory p) c) r.
Proof.
  intros Hsep [H1 H2] [T1 T2 T3 T4]. destruct (separate_kept p pd m' c Hsep H1 H2) as (_ & _ & Htr).
  assert (∀ va, task_byte (mk_pstate (pal p) m' (kernel_page_directory p) c) r pd va = task_byte p r pd va) as Hb.
  { intros va. unfold task_byte. cbn [Paging.mem]. by rewrite Htr. }
  split; cbn [Paging.mem].
  - intros. rewrite Hb. by eapply T1.
  - intros. rewrite Hb. by eapply T2.
  - intros ph va. rewrite Htr. by apply T3.
  - destruct T4 as (m & m2 & program & H & HL). exists m, m2, program. split; [|done]. intros. rewrite Hb. by apply H.
Qed.

Section start.
Context {k0 : kst} {tk : Z} {sd : Z} {nm : gmap Z (list Z)} {t : task} {σ : areas} {h : list Z} {r : Z → Z}.

(** the place of the first frame on the kernel stack *)
Definition frame_at (t : task) : Z :=
  Z.land (u32 (privilege_level0_stack t + DEFAULT_TASK_PRIVILEGED_STACK_SIZE - CPUSTATE_SIZE - 0x40)) (Z.lnot 0xf).
(** the task as it is first scheduled *)
Definition ready_task (t : task) (eip : Z) : task :=
  set_sig_entries initial_signals (set_interrupt_depth 1 (set_cpu (frame_at t) (set_entry eip t))).
(** the queues, the table and the CPU frames afterwards *)
Definition registered (k : kst) (tk : Z) (t : task) (eip sp prev : Z) : kst :=
  let k := lset current_l prev (lset cpus_l (<[frame_at t := first_frame_of eip sp]> (cpus k)) k) in
  let k := lset task_table_l (<[task_id t := tk]> (task_table k)) k in
  lset run_queue_l (run_queue k ++ [tk]) k.

Lemma stack_of_program addrs l phs :
  program_areas σ l addrs phs → NoDup l → NULL ∉ l → ∀ σ', (∀ a, a ∉ addrs → σ' !! a = σ !! a) → Forall (named σ') addrs →
  ∃ sa, sa ≠ NULL ∧ search_userspace_vma l (literal "userspace.vma.stack") σ' = Ok (sa, σ') ∧ σ' !! sa = Some stack_vma.
Proof.
  intros [(ka & ha & sa & ga & hs & -> & Hka & Hha & Hsa & Hga & _) _] Hnd Hnull σ' Hout Hnamed.
  apply NoDup_cons in Hnd as [Hk Hnd]. apply NoDup_app in Hnd as (_ & Hdis & _).
  assert (∀ a, a ∈ [ha; sa; ga] → σ' !! a = σ !! a) as Hsame by (intros a Ha; apply Hout; intros Hin; by apply (Hdis a)).
  assert (σ' !! sa = Some stack_vma) as Hs by (rewrite Hsame; [done|set_solver]).
  exists sa. split_and!; [set_solver| |done]. eapply find_stack; [|done| |done].
  - rewrite Hout; [done|set_solver].
  - rewrite Hsame; [done|set_solver].
Qed.

(** the command line is put on the stack that was found *)
Lemma commands_ok p0 r0 phs command env prog args m m1 σ1 p1 r1 t1 :
  command_ok command env prog args → tidy command ∨ blank_frames p0 r0 → new_space p0 r0 phs m → (∀ a, is_Some (m1 !! a) ↔ is_Some (m !! a)) →
  (∀ a, STACK_BOTTOM ≤ a → m1 !! a = m !! a) → sees (LS k0 tk t1 σ1 p1 h r1 sd nm) m1 →
  ∃ sp program r2 m2, resolve_commands command_fuel (USERSPACE_STACK_TOP - 16) command (LS k0 tk t1 σ1 p1 h r1 sd nm) =
      Ok ((sp, program), LS k0 tk t1 σ1 p1 h r2 sd nm) ∧ sees (LS k0 tk t1 σ1 p1 h r2 sd nm) m2 ∧
    launched STACK_BOTTOM (USERSPACE_STACK_TOP - 16) sp program env (prog :: args) m1 m2 ∧
    user_string (Z.to_nat MAX_PATH) program (LS k0 tk t1 σ1 p1 h r2 sd nm) = Ok (prog ++ [0], LS k0 tk t1 σ1 p1 h r2 sd nm) ∧
    Forall (λ c, c ≠ 0) prog.
Proof.
  intros [C1 C2 C3 C4 C5 C6 C7] Hend Hbl Hdom Hsame Hs.
  assert (STACK_BOTTOM + DEFAULT_TASK_NON_PRIVILEGED_STACK_SIZE = USERSPACE_STACK_TOP) as Etop by done.
  assert (4 ≤ STACK_BOTTOM ∧ USERSPACE_STACK_TOP < 4294967296) as Hplace by done.
  assert (16 < DEFAULT_TASK_NON_PRIVILEGED_STACK_SIZE) as Hsz by done.
  assert (∀ a, STACK_BOTTOM ≤ a < USERSPACE_STACK_TOP → is_Some (m1 !! a)) as Hst.
  { intros a Ha. rewrite Hsame by lia. by apply (bs_stack _ _ _ _ Hbl). }
  assert (tidy command ∨ m1 !! (USERSPACE_STACK_TOP - 16) = Some 0) as Hz.
  { destruct Hend as [|Hb]; [by left|right]. rewrite Hsame by lia. eapply blank_byte; [done|done|]. apply (bs_stack _ _ _ _ Hbl). lia. }
  destruct (resolve_commands_ok command_fuel STACK_BOTTOM (USERSPACE_STACK_TOP - 16) m1 command env prog args)
    as (sp & program & m2 & E & HL); [|done|unfold command_fuel, space_for in *; lia|done..|].
  { split; [lia|lia|intros a Ha; apply Hst; lia|exact Hz|lia]. }
  destruct (LS_sim _ _ _ _ _ _ _ _ (sim_resolve_commands _ _ _) Hs E) as (r2 & E2 & Hs2).
  assert (Forall (λ c, c ≠ 0) prog) as Hnz.
  { pose proof (tokens_nonzero command None false false C1 ltac:(constructor)) as Ht. fold (words_of command) in Ht. rewrite C3 in Ht.
    apply Forall_app in Ht as [_ Ht]. by inversion Ht. }
  exists sp, program, r2, m2. split_and!; [done|done|done| |done].
  pose proof HL as (envp & argv & _ & _ & Hhd & _ & Hargs & _). inversion Hargs; subst. injection Hhd as ->.
  eapply user_string_ok; [done|done|done|lia].
Qed.

Lemma start_task_ok p0 r0 mem hdr headers command env prog args l addrs pd p m prev :
  image_ok mem hdr headers → command_ok command env prog args → tidy command ∨ blank_frames p0 r0 →
  vma_list t = l → page_directory t = pd → program_areas σ l addrs (loads headers) → uareas_ok σ l → NoDup l → NULL ∉ l →
  on_cpu p pd → sees (LS k0 tk t σ p h r sd nm) m → new_space p0 r0 (loads headers) m →
  (∀ ph va, ph ∈ loads headers → in_segment ph va → is_Some (translate (Paging.mem p) pd va)) →
  caller_ok k0 p tk prev → task_table k0 !! task_id t = None → tk ∉ queued k0 → nm !! tk = Some (replicate (Z.to_nat MAX_PATH) 0) →
  ∃ sp σ' p' r' name, start_task mem hdr command tk prev (LS k0 tk t σ p h r sd nm) =
      Ok ((OK, task_id t), LS (registered k0 tk t (e_entry hdr) sp prev) tk (ready_task t (e_entry hdr)) σ' p' h r' sd (<[tk := name]> nm)) ∧
    holds name prog ∧ task_memory p0 r0 mem (loads headers) env (prog :: args) sp pd p' r'.
Proof.
  intros Him Hco Hend Hl Hpd Hpa Hua Hnd Hnull Hoc Hs Hbl Htr Hcall Htab Hq Hnm. unfold start_task. rewrite LS_load_task, Hl, Hpd.
  rewrite (im_number _ _ _ Him).
  assert ((∀ a, a ∈ addrs → a ∈ l) ∧ NoDup addrs) as [Hin Hnda].
  { destruct (pa_list _ _ _ _ Hpa) as (ka & ha & sa & ga & hs & -> & _). split; [set_solver|].
    apply NoDup_cons in Hnd as [_ Hnd]. by apply NoDup_app in Hnd as (? & _). }
  match goal with |- context [mbind ?k (copy_segments _ _ _ _ _ _) _] =>
    destruct (copy_segments_ok mem hdr headers pd l addrs σ p r m 0 k (im_headers _ _ _ Him) (im_fits _ _ _ Him)
      (pairwise_indices _ (im_apart _ _ _ Him)) Hua Hin Hnda (pa_segments _ _ _ _ Hpa) Hoc Hs (bs_user _ _ _ _ Hbl))
      as (σ1 & p1 & r1 & m1 & E & Hc & Hs1 & Hout & Hnamed) end.
  { intros ph va Hph Hva. split; [by apply (bs_segment _ _ _ _ Hbl ph)|by apply (Htr ph)]. }
  rewrite E, LS_update_task. clear E. destruct (stack_of_program addrs l _ Hpa Hnd Hnull σ1 Hout Hnamed) as (sa & Hsa0 & Es & Hsa).
  rewrite (LS_on_areas _ _ _ _ _ _ _ _ _ Es), (proj2 (ctrue_true sa) Hsa0). mstep.
  rewrite (LS_on_areas _ _ _ _ _ _ _ _ _ (load_ok _ _ _ Hsa)).
  change (u32 (a_virt_addr stack_vma + a_length stack_vma - 16)) with (USERSPACE_STACK_TOP - 16).
  destruct (commands_ok p0 r0 (loads headers) command env prog args m m1 σ1 p1 r1 (set_entry (e_entry hdr) t) Hco Hend Hbl
    (cp_dom _ _ _ _ _ _ _ Hc)) as (sp & program & r2 & m2 & Er & Hs2 & HL & Eu & Hnz).
  { intros a Ha. apply (cp_rest _ _ _ _ _ _ _ Hc). intros ph Hph Ha'. destruct (im_fits _ _ _ Him ph Hph). lia. }
  { destruct Hs1 as [H1 H2]. split; [exact H1|exact H2]. }
  rewrite (bind_ok _ _ _ _ _ Er). pose proof HL as (_ & _ & Hal & _).
  assert (Z.land sp 3 = 0) as Hal' by (change 3 with (Z.ones 2); rewrite Z.land_ones by lia; exact Hal). rewrite Hal'. change (! 0) with true. mstep.
  rewrite (bind_ok _ _ _ _ _ Eu). mstep. cbn [task_names LS]. rewrite Hnm. cbn [default id].
  destruct (task_name_ok prog Hnz (co_name _ _ _ _ Hco)) as (name & En & Hname). rewrite En. rewrite (bind_ok (deref (Some name)) _ _ name _ eq_refl).
  rewrite LS_set_names, LS_set_cpu, !LS_update_task. unfold task_signal_init. rewrite LS_update_task.
  destruct (LS_resume (k0 := lset cpus_l (<[frame_at t := first_frame_of (e_entry hdr) sp]> (cpus k0)) k0) (tk := tk) (sd := sd)
    (nm := <[tk := name]> nm) (t := ready_task t (e_entry hdr)) (σ := σ1) (h := h) (r := r2) p1 prev
    (λ _, rc ← on_k (register_task_in_task_table tk); ASSERT (OK =? rc) ;; on_k (task_put tk) ;; t ← on_k (load_task tk); mret (OK, task_id t))) as (m' & E' & Hm').
  { apply (sep_kernel _ _ (oc_sep _ _ (cp_cpu _ _ _ _ _ _ _ Hc))). }
  { eapply caller_kept; [exact (cp_kernel _ _ _ _ _ _ _ Hc)|exact (cp_words _ _ _ _ _ _ _ Hc)|]. exact Hcall. }
  eexists sp, σ1, _, r2, name. split; [|split; [exact Hname|]].
  - etransitivity; [exact E'|]. rewrite LS_register by done. mstep. erewrite bind_ok by (apply LS_task_put; exact Hq). by rewrite LS_load_task.
  - apply task_memory_kept; [exact (oc_sep _ _ (cp_cpu _ _ _ _ _ _ _ Hc))|exact Hm'|].
    exact (task_memory_ok _ _ _ _ _ _ _ _ _ _ _ _ _ _ _ _ Him Hbl Hc Hs2 eq_refl HL).
Qed.
End start.

(** ** Building the address space *)

(** the pages of a program, its stack and its signal stack *)
Definition program_pages (phs : list elf32_program_header) : nat :=
  sum_list ((λ ph, Z.to_nat (round_up (p_memsz ph) / 4096)) <$> phs) +
  (Z.to_nat (DEFAULT_TASK_NON_PRIVILEGED_STACK_SIZE / 4096) + Z.to_nat (DEFAULT_TASK_NON_PRIVILEGED_SIGNAL_STACK_SIZE / 4096)).

Lemma kernel_words_of p : dir_ok p (kernel_page_directory p) → kernel_words p.
Proof. intros [(j & E & _ & _ & Hp) _ _]. split; [by exists j|done]. Qed.

Lemma fresh_separate p pd p1 vs p2 :
  dir_ok p (kernel_page_directory p) → fresh_directory p pd p1 → space pd vs p1 p2 → separate p2 pd.
Proof.
  intros Hdir (_ & _ & _ & Hnone & (j & Ej & Hj) & Hmono & Hw & Ek & _) Hsp.
  pose proof (Space.sp_kernel _ _ _ _ Hsp) as Ek2. destruct (kernel_words_of _ Hdir) as [Hi Hhas]. destruct Hdir as [(i & Ei & _ & Hused & _) _ _].
  split.
  - apply (Space.sp_dir _ _ _ _ Hsp).
  - unfold kernel_words. rewrite Ek2, Ek. split; [done|]. intros k Hk. by apply (ex_words _ _ _ (Space.sp_ext _ _ _ _ Hsp)), Hw, Hhas.
  - rewrite Ek2, Ek, Ei, Ej. intros E. unfold base_page in E. assert (i = j) as -> by lia. congruence.
  - intros k t Hk Ht. rewrite Ek2, Ek, Ei. destruct (ex_tables _ _ _ (Space.sp_ext _ _ _ _ Hsp) k t Hk Ht) as [H|(j' & -> & Hj')].
    + by rewrite Hnone in H.
    + intros E. unfold base_page in E. assert (j' = i) as -> by lia. rewrite Hmono in Hj'; done.
Qed.

Lemma program_vma_pages mem hdr headers segs :
  image_ok mem hdr headers → Forall2 (λ v ph, ∃ name, segment_name name ∧ v = segment_area name ph) segs (loads headers) →
  ∀ v, v ∈ segs ++ [stack_vma; signal_stack_vma] → user_pages v.
Proof.
  intros Him HF v [Hv|Hv]%elem_of_app.
  - apply list_elem_of_lookup in Hv as [i Hi]. destruct (Forall2_lookup_l _ _ _ _ _ HF Hi) as (ph & Hph & name & _ & ->).
    eapply segment_area_pages, (im_fits _ _ _ Him). by eapply list_elem_of_lookup_2.
  - apply elem_of_cons in Hv as [->|Hv]; [apply stack_pages|]. apply list_elem_of_singleton in Hv as ->. apply signal_stack_pages.
Qed.

Lemma program_page_count segs phs :
  Forall2 (λ v ph, ∃ name, segment_name name ∧ v = segment_area name ph) segs phs →
  sum_list (page_count <$> segs ++ [stack_vma; signal_stack_vma]) = program_pages phs.
Proof.
  intros HF. unfold program_pages. induction HF as [|v ph segs phs (name & _ & ->) HF IH].
  - unfold page_count. cbn [app fmap list_fmap sum_list_with id a_length stack_vma signal_stack_vma]. lia.
  - cbn [app]. rewrite !fmap_cons. cbn [sum_list_with id]. rewrite IH. unfold page_count at 1. cbn [a_length segment_area]. lia.
Qed.

Section map.
Context {k0 : kst} {tk : Z} {sd : Z} {nm : gmap Z (list Z)} {σ : areas} {h : list Z} {r : Z → Z}.
Variable bss : Z.
Hypothesis bss_place : 0 < bss ≤ PAGE_SPACE_BOTTOM.

(** the areas mapped and the new directory on the CPU *)
Lemma map_program_ok mem hdr headers l addrs p pd p1 :
  image_ok mem hdr headers → dir_ok p (kernel_page_directory p) → fresh_directory p pd p1 → spare bss (program_pages (loads headers)) p1 →
  program_areas σ l addrs (loads headers) → uareas_ok σ l → NoDup l →
  ∃ p2 p3 m, premap_areas bss pd l l (mk_tp p1 σ) = Ok (OK, mk_tp p2 σ) ∧ enable_task_paging pd p2 = Ok (OK, p3) ∧ on_cpu p3 pd ∧
    (∀ t', sees (LS k0 tk t' σ p3 h r sd nm) m) ∧ new_space p r (loads headers) m ∧
    (∀ ph va, ph ∈ loads headers → in_segment ph va → is_Some (translate (Paging.mem p3) pd va)) ∧
    kernel_page_directory p3 = kernel_page_directory p ∧ (∀ a, is_Some (Paging.mem p !! a) → is_Some (Paging.mem p3 !! a)).
Proof.
  intros Him Hdir Hfr Hsp Hpa Hua Hnd. destruct (premapped_program _ _ _ _ Hpa) as (segs & Epre & _ & HF).
  pose proof (program_vma_pages _ _ _ _ Him HF) as Hup. pose proof Hfr as (Hd1 & Hb1 & Hp1 & _ & _ & _ & Hw1 & Ek1 & Ebm).
  destruct (premap_areas_ok bss σ pd l l [] p1 p1 0) as (p2 & E2 & Hspace & _); [done|done|done|done| | | | | |].
  { rewrite Epre. exact Hup. }
  { intros v w Hv. by apply not_elem_of_nil in Hv. }
  { intros v Hv. by apply not_elem_of_nil in Hv. }
  { by apply space_nil. }
  { rewrite Epre, (program_page_count _ _ HF). exact Hsp. }
  rewrite Epre in Hspace. cbn [app] in Hspace. pose proof (fresh_separate _ _ _ _ _ Hdir Hfr Hspace) as Hsep.
  destruct (task_switch_ok p2 pd Hsep) as (p3 & E3 & Hoc & _ & Ek3 & Htr & Hw3).
  destruct (space_view pd _ p1 p2 (LS k0 tk (zero_task 0) σ p3 h r sd nm) Hup Hspace Hoc Htr) as (m & Hs & Hdom & Hzero).
  assert (∀ a b, m !! a = Some b → left_over p r a b) as Hrest by (intros a b Hab; destruct (Hzero a b Hab) as (f & Hf & E); exists f; by rewrite Ebm in Hf).
  assert (∀ ph va, ph ∈ loads headers → in_segment ph va → ∃ v, v ∈ segs ++ [stack_vma; signal_stack_vma] ∧ inside v va) as Hseg.
  { intros ph va [i Hi]%list_elem_of_lookup Hva. destruct (Forall2_lookup_r _ _ _ _ _ HF Hi) as (v & Hv & name & _ & ->).
    exists (segment_area name ph). split; [|done]. apply elem_of_app. left. by eapply list_elem_of_lookup_2. }
  exists p2, p3, m. split_and!; [done|done|done| | | | |].
  - intros t'. destruct Hs as [H1 H2]. split; [exact H1|exact H2].
  - split; [|done| |].
    + intros a Ha. apply Hdom in Ha as (v & Hv & Hin). destruct (Hup v Hv) as [(H0 & H1 & H2) H3 _ _ _]. unfold inside in Hin. lia.
    + intros ph va Hph Hva. apply Hdom. by apply (Hseg ph).
    + intros a Ha. apply Hdom. exists stack_vma. split; [set_solver|exact Ha].
  - intros ph va Hph Hva. rewrite Htr. destruct (Hseg ph va Hph Hva) as (v & Hv & Hin).
    destruct (sp_page _ _ _ _ Hspace v va Hv Hin) as (pa & _ & ->). by eexists.
  - by rewrite Ek3, (Space.sp_kernel _ _ _ _ Hspace).
  - intros a Ha. by apply Hw3, (ex_words _ _ _ (Space.sp_ext _ _ _ _ Hspace)), Hw1.
Qed.

End map.

Section build.
Context {k0 : kst} {tk : Z} {sd : Z} {nm : gmap Z (list Z)} {t : task} {σ : areas} {h : list Z} {r : Z → Z}.
Variable bss : Z.
Hypothesis bss_place : 0 < bss ≤ PAGE_SPACE_BOTTOM.

Lemma build_space_ok mem hdr headers command env prog args ka addrs ha sa ga p id0 prev :
  let l := ka :: addrs ++ [ha; sa; ga] in
  image_ok mem hdr headers → command_ok command env prog args → machine_ok bss (S (program_pages (loads headers))) p →
  tidy command ∨ blank_frames p r →
  vma_list t = [] → length addrs = length (loads headers) → NoDup l → NULL ∉ l →
  caller_ok k0 p tk prev → task_table k0 !! task_id t = None → tk ∉ queued k0 → nm !! tk = Some (replicate (Z.to_nat MAX_PATH) 0) →
  ∃ pd sp σ' p' r' name, let t' := set_page_directory pd (set_vma_list l t) in
    build_space bss mem hdr command id0 tk prev (LS k0 tk t σ p (ka :: addrs ++ ha :: sa :: ga :: h) r sd nm) =
      Ok ((OK, task_id t), LS (registered k0 tk t' (e_entry hdr) sp prev) tk (ready_task t' (e_entry hdr)) σ' p' h r' sd (<[tk := name]> nm)) ∧
    pd ≠ NULL ∧ holds name prog ∧ task_memory p r mem (loads headers) env (prog :: args) sp pd p' r'.
Proof.
  intros l Him Hco [Hdir Hbase Hpal Hspare] Hend Hl Hlen Hnd Hnull Hcall Htab Hq Hnm. unfold build_space.
  match goal with |- context [mbind ?k (make_areas _ _ _) _] =>
    destruct (make_areas_ok (k0 := k0) (tk := tk) (sd := sd) (nm := nm) mem hdr headers t σ p ka addrs ha sa ga h r k Him Hl Hlen Hnd Hnull) as (σ1 & E1 & Hpa & _) end.
  fold l in E1, Hpa. pose proof (program_areas_ok _ _ _ _ _ _ Him Hnd Hnull Hpa) as Hua.
  destruct (new_directory_ok bss _ p Hbase Hpal Hspare) as (pd & q & p1 & Eg & Hpd & Em & Hfr & Hsp).
  destruct (map_program_ok (k0 := k0) (tk := tk) (sd := sd) (nm := nm) (h := h) (r := r) bss bss_place mem hdr headers l addrs p pd p1 Him Hdir Hfr Hsp Hpa Hua Hnd)
    as (p2 & p3 & m & E2 & E3 & Hoc & Hs & Hbl & Htr & Ek & Hw).
  destruct (start_task_ok (t := set_page_directory pd (set_vma_list l t)) p r mem hdr headers command env prog args l addrs pd p3 m prev Him Hco Hend
    eq_refl eq_refl Hpa Hua Hnd Hnull Hoc (Hs _) Hbl Htr (caller_kept _ _ _ _ Ek Hw Hcall) Htab Hq Hnm) as (sp & σ' & p' & r' & name & Es & Hn & Htm).
  exists pd, sp, σ', p', r', name. cbv zeta. split_and!; [|done|done|done].
  rewrite E1. cbn [negb]. rewrite (LS_on_pg _ _ _ _ _ _ _ _ _ (zoom_ok pal_l _ p _ _ Eg)), LS_update_task.
  rewrite (proj2 (ctrue_true pd) Hpd). cbn [negb]. rewrite (LS_on_pg _ _ _ _ _ _ _ _ _ Em), LS_load_task.
  rewrite (LS_on_tp _ _ _ _ _ _ _ _ _ _ E2). change (negb (OK =? OK)) with false. cbv iota. rewrite (LS_on_pg _ _ _ _ _ _ _ _ _ E3). exact Es.
Qed.
End build.

(** ** The loader *)

(** the pages the loader needs: the program's, its directory, and its kernel stacks' *)
Definition load_pages (phs : list elf32_program_header) : nat :=
  S (program_pages phs) + heap_pages DEFAULT_TASK_PRIVILEGED_SIGNAL_STACK_SIZE + heap_pages DEFAULT_TASK_PRIVILEGED_STACK_SIZE.

(** a state in which the loader can work: [malloc] returns [tk] for the task,
    [stk] and [sig] for its kernel stacks and [l] for its areas, and [extra]
    more pages are free than it needs *)
Record can_load (bss : Z) (extra : nat) (headers : list elf32_program_header) (s : lstate) (tk stk sig : Z) (l : list Z) : Prop := {
  cl_task : tk ≠ NULL ∧ tk ∉ queued (lk s);
  cl_id : task_table (lk s) !! task_seed s = None;
  cl_stack : block_ok stk DEFAULT_TASK_PRIVILEGED_STACK_SIZE;
  cl_signal : block_ok sig DEFAULT_TASK_PRIVILEGED_SIGNAL_STACK_SIZE;
  cl_areas : length l = (length (loads headers) + 4)%nat ∧ NoDup l ∧ NULL ∉ l;
  cl_heap : ∃ h, heap s = tk :: stk :: sig :: l ++ h;
  cl_machine : machine_ok bss (extra + load_pages (loads headers)) (pages s);
  cl_caller : caller_ok (lk s) (pages s) tk (current (lk s)) }.

(** what the loader has done: the task [tk] with its own memory waits to be run *)
Record loaded (mem : list Z) (hdr : elf32_elf_header) (headers : list elf32_program_header) (env : list (list Z)) (prog : list Z)
    (args : list (list Z)) (tk : Z) (s s' : lstate) : Prop := {
  lo_current : current (lk s') = current (lk s);
  lo_queue : run_queue (lk s') = run_queue (lk s) ++ [tk];
  lo_table : task_table (lk s') = <[task_seed s := tk]> (task_table (lk s));
  lo_others : ∀ a, a ≠ tk → tasks (lk s') !! a = tasks (lk s) !! a;
  lo_task : ∃ t sp name, tasks (lk s') !! tk = Some t ∧ task_id t = task_seed s ∧ state t = TASK_STATE_RUNNING ∧
    privilege_level t = DPL_3 ∧ entry t = e_entry hdr ∧ sig_entries t = initial_signals ∧ length (vma_list t) = (length (loads headers) + 4)%nat ∧
    cpus (lk s') !! cpu t = Some (first_frame_of (e_entry hdr) sp) ∧ task_names s' !! tk = Some name ∧ holds name prog ∧
    task_memory (pages s) (ram s) mem (loads headers) env (prog :: args) sp (page_directory t) (pages s') (ram s') }.

(** the areas: one for the kernel, the segments', the heap's and the stacks' *)
Lemma area_list n (l : list Z) : length l = (n + 4)%nat → ∃ ka addrs ha sa ga, l = ka :: addrs ++ [ha; sa; ga] ∧ length addrs = n.
Proof.
  intros Hl. destruct l as [|ka l]; [simpl in Hl; lia|]. exists ka, (take n l). simpl in Hl.
  assert (length (drop n l) = 3%nat) as Hd by (rewrite length_drop; lia).
  destruct (drop n l) as [|ha [|sa [|ga [|]]]] eqn:E; try done. exists ha, sa, ga. rewrite <-E, take_drop, length_take. split; [done|lia].
Qed.

Lemma task_memory_grown p0 p1 r0 mem phs env args sp pd p r :
  grown_pages p0 p1 → task_memory p1 r0 mem phs env args sp pd p r → task_memory p0 r0 mem phs env args sp pd p r.
Proof.
  intros Hg [T1 T2 T3 T4]. split; [exact T1| |exact T3|exact T4]. intros ph va Hph Hin Hva. destruct (T2 ph va Hph Hin Hva) as (b & Hb & f & Hf & E).
  exists b. split; [done|]. exists f. split; [|done]. destruct (occupied (free_page_bitmap (pal p0)) f) eqn:E0; [|done]. by rewrite (gp_frames _ _ Hg f E0) in Hf.
Qed.

Lemma load_static_elf32_ok bss mem hdr headers command id0 env prog args s tk stk sig l :
  0 < bss ≤ PAGE_SPACE_BOTTOM → image_ok mem hdr headers → command_ok command env prog args → can_load bss 0 headers s tk stk sig l →
  tidy command ∨ blank_frames (pages s) (ram s) →
  ∃ s', load_static_elf32 bss mem command id0 s = Ok ((OK, task_seed s), s') ∧ loaded mem hdr headers env prog args tk s s'.
Proof.
  intros Hbss Him Hco [[Htk Hq] Hid Hs Hg (Hlen & Hnd & Hnull) [h Hh] Hm Hc] Hend.
  destruct (area_list _ _ Hlen) as (ka & addrs & ha & sa & ga & -> & Hla). rewrite <-app_comm_cons, <-app_assoc in Hh. cbn [app] in Hh.
  destruct s as [k hp r sd nm]. cbn [lk heap ram task_seed task_names] in *. subst hp. unfold pages in Hm, Hc, Hend. cbn [lk ram] in Hm, Hc, Hend.
  unfold load_static_elf32, pages. rewrite (im_header _ _ _ Him). rewrite (bind_ok (deref (Some hdr)) _ _ hdr _ eq_refl). cbn [lk ram].
  destruct (paging k) as [p σ] eqn:Ep. cbn [tps] in *.
  set (nm1 := <[tk := replicate (Z.to_nat MAX_PATH) 0]> nm).
  rewrite (bind_ok (on_k (gets current)) _ _ (current k) (mk_ls k (tk :: stk :: sig :: ka :: addrs ++ ha :: sa :: ga :: h) r sd nm)) by (by destruct k).
  rewrite (bind_ok malloc_task _ _ tk (LS k tk (zero_task sd) σ p (stk :: sig :: ka :: addrs ++ ha :: sa :: ga :: h) r (u32 (sd + 1)) nm1)).
  2: { unfold malloc_task. erewrite (bind_ok kmalloc) by reflexivity.
       rewrite (proj2 (ctrue_true tk) Htk). cbn [negb]. mstep. mstep. unfold LS. rewrite <-Ep. by destruct k. }
  rewrite (proj2 (ctrue_true tk) Htk). cbn [negb]. rewrite !LS_update_task, LS_set_current.
  match goal with |- context [mbind ?f (malloc_align_mapped bss DEFAULT_TASK_PRIVILEGED_STACK_SIZE) (LS ?a ?b ?c ?d ?e (stk :: ?g) ?i ?j ?n)] =>
    destruct (LS_kernel_stack (k0 := a) (tk := b) (t := c) (σ := d) (h := g) (sd := j) (nm := n) bss _ e i stk _ f Hbss Hm Hs) as (p1 & E1 & Hm1 & Hg1) end.
  rewrite E1. clear E1. rewrite (proj2 (ctrue_true stk)) by (destruct Hs; lia). cbn [negb]. rewrite LS_update_task.
  match goal with |- context [mbind ?f (malloc_align_mapped bss DEFAULT_TASK_PRIVILEGED_SIGNAL_STACK_SIZE) (LS ?a ?b ?c ?d ?e (sig :: ?g) ?i ?j ?n)] =>
    destruct (LS_kernel_stack (k0 := a) (tk := b) (t := c) (σ := d) (h := g) (sd := j) (nm := n) bss _ e i sig _ f Hbss Hm1 Hg) as (p2 & E2 & Hm2 & Hg2) end.
  rewrite E2. clear E2. rewrite (proj2 (ctrue_true sig)) by (destruct Hg; lia). cbn [negb]. rewrite LS_update_task.
  pose proof (grown_pages_trans _ _ _ Hg1 Hg2) as Hg12.
  match goal with |- context [build_space _ _ _ _ _ _ _ (LS ?a ?b ?c ?d ?e _ ?i ?j ?n)] =>
    destruct (build_space_ok (k0 := a) (tk := b) (t := c) (σ := d) (h := h) (r := i) (sd := j) (nm := n) bss Hbss
      mem hdr headers command env prog args ka addrs ha sa ga e id0 (current k) Him Hco Hm2) as (pd & sp & σ' & p' & r' & name & E & Hpd & Hname & Htm);
      [destruct Hend as [?|?]; [by left|right; by eapply grown_blank]|done|done|done|done| |done|done|apply lookup_insert_eq|] end.
  { eapply caller_kept; [exact (gp_kernel _ _ Hg12)|exact (gp_words _ _ Hg12)|exact Hc]. }
  eexists. split; [exact E|].
  split; try done.
  - intros a Ha. cbn. by rewrite lookup_insert_ne.
  - eexists _, sp, name. split; [cbn; apply lookup_insert_eq|]. split_and!; try done.
    + apply lookup_insert_eq.
    + apply lookup_insert_eq.
    + eapply task_memory_grown; [|exact Htm]. unfold pages. cbn [lk]. by rewrite Ep.
Qed.

(** C3. The loader: for an image whose segments are whole pages between the
    kernel and the stack, apart from each other and within the file, and a
    command line that names a program, [load_static_elf32] returns OK and the id
    of the new task.  There must be memory: [malloc] succeeds, and frames and
    page tables are free for the program, its stacks and those pages of its two
    kernel stacks that are not mapped yet ([can_load], [load_pages]).  The task
    that ran runs on, the structures of all other tasks are as they were, and
    the new task is registered under the next task id and waits at the end of
    the run queue: in user mode at the image's entry point, with the default
    signal actions; through its own page directory every byte the file has for
    a segment is there, on a page with the segment's write permission, and its
    stack holds the environment and the arguments of the command line, argc and
    argv at the initial stack pointer.
    Nothing clears the frames.  So the bytes of a segment beyond those in the
    file (.bss) are what a free frame held there before ([left_over]), zero only
    if the free frames hold zeros ([blank_left_over]); and a command line whose
    last word runs up to its end is read correctly only if the frames hold
    zeros ([blank_frames]); one that ends in a space or a closing quotation
    mark, as [execve] composes it, needs no such condition ([tidy]). *)
Theorem program_loaded bss mem hdr headers command id0 env prog args s tk stk sig l :
  0 < bss ≤ PAGE_SPACE_BOTTOM → image_ok mem hdr headers → command_ok command env prog args → can_load bss 0 headers s tk stk sig l →
  tidy command ∨ blank_frames (pages s) (ram s) →
  ∃ s', load_static_elf32 bss mem command id0 s = Ok ((OK, task_seed s), s') ∧ loaded mem hdr headers env prog args tk s s'.
Proof. apply load_static_elf32_ok. Qed.

(** ** Examples *)
Module LoaderExample.
Import ElfExample.

(** base page 0 is the kernel directory, base page 1 its only table (the heap
    at 0x10000000, of which no page is mapped yet), base page 2 the empty directory of the task that runs *)
Definition heap_page : Z := 0.
Definition words : gmap Z Z :=
  foldr (λ k m, <[base_page 1 + 4 * k := heap_page]> m)
    (<[base_page 0 + 4 * 64 := create_pde32 1 0 0 0 (base_page 1)]> (clear_page (clear_page ∅ (base_page 0)) (base_page 2))) (seqZ 0 1024).
Definition memory : pstate := mk_pstate (mk_palloc ∅ {[0 := 7]} 0 0 0x8000000) words (base_page 0) (base_page 0).
Definition caller : task := set_page_directory (base_page 2) (zero_task 3).
Definition before : lstate :=
  mk_ls (mk_kst {[5 := caller]} [] [] [] [] 5 1 1 ∅ 0 ∅ ∅ {[3 := 5]} ∅ [] (mk_tp memory ∅))
    [0x100; 0x10000000; 0x10200000; 0x200; 0x201; 0x202; 0x203; 0x204] (λ _, 0) 4 ∅.

Lemma words_checked :
  Forall (λ k, table words (base_page 0) k = (if decide (k = 64) then Some (base_page 1) else None) ∧
    is_Some (words !! (base_page 0 + 4 * k)) ∧ words !! (base_page 1 + 4 * k) = Some heap_page ∧ is_Some (words !! (base_page 2 + 4 * k)))
    (seqZ 0 1024).
Proof. apply (bool_decide_unpack _). vm_compute. done. Qed.

Lemma words_ok k :
  0 ≤ k < 1024 → table words (base_page 0) k = (if decide (k = 64) then Some (base_page 1) else None) ∧
    is_Some (words !! (base_page 0 + 4 * k)) ∧ words !! (base_page 1 + 4 * k) = Some heap_page ∧ is_Some (words !! (base_page 2 + 4 * k)).
Proof. intros Hk. pose proof words_checked as H. rewrite Forall_forall in H. apply H, elem_of_seqZ. lia. Qed.

#[local] Opaque words.

Lemma memory_dir : dir_ok memory (base_page 0).
Proof.
  split.
  - exists 0. split_and!; [done|done|done|done|]. intros k Hk. change (Paging.mem memory) with words. apply (proj1 (proj2 (words_ok k Hk))).
  - intros k t Hk. change (Paging.mem memory) with words. rewrite (proj1 (words_ok k Hk)). destruct (decide (k = 64)); [|done]. intros [= <-]. split; [|done].
    exists 1. split_and!; [done|done|done|done|]. change (Paging.mem memory) with words. intros i Hi. destruct (words_ok i Hi) as (_ & _ & H & _). by exists heap_page.
  - intros k1 k2 t Hk1 Hk2. change (Paging.mem memory) with words. rewrite (proj1 (words_ok k1 Hk1)), (proj1 (words_ok k2 Hk2)).
    destruct (decide (k1 = 64)), (decide (k2 = 64)); congruence.
Qed.

Definition good_segment : elf32_program_header := mk_ph 1 84 0x40000000 0 4 4096 5 4096.

Lemma good_image : image_ok good good_header [good_segment].
Proof.
  split.
  - vm_compute. reflexivity.
  - reflexivity.
  - done.
  - intros [|i] ph; [|done]. intros [= <-]. vm_compute. reflexivity.
  - done.
  - intros ph Hph. apply list_elem_of_filter in Hph as [_ Hph]. apply list_elem_of_singleton in Hph as ->. by split.
  - intros [|i] [|j] ph ph'; done.
Qed.

Lemma example_memory : machine_ok 0x140000 (8 + load_pages [good_segment]) memory.
Proof.
  split.
  - exact memory_dir.
  - by left.
  - by vm_compute.
  - split.
    + exists (seqZ 0x4000 4000). split_and!; [apply NoDup_seqZ|rewrite length_seqZ; apply (bool_decide_unpack _); vm_compute; done|].
      intros f Hf%elem_of_seqZ. split_and!; [change (first_frame 0x140000) with 320; lia|cbn [pal memory physical_memory_length]; lia|].
      unfold occupied, byte_at. cbn [pal memory free_page_bitmap]. rewrite lookup_empty. apply Z.bits_0.
    + exists (seqZ 8 4000). split_and!; [apply NoDup_seqZ|rewrite length_seqZ; apply (bool_decide_unpack _); vm_compute; done|].
      intros f Hf%elem_of_seqZ. split; [change BASE_PAGES with 16384; lia|]. unfold base_used, occupied, byte_at. cbn [pal memory free_base_page_bitmap].
      rewrite lookup_singleton_ne by lia. apply Z.bits_0.
Qed.

Lemma example_ready extra : (extra ≤ 8)%nat → can_load 0x140000 extra [good_segment] before 0x100 0x10000000 0x10200000 [0x200; 0x201; 0x202; 0x203; 0x204].
Proof.
  intros Hextra. split.
  - split; [done|]. by apply (bool_decide_unpack _).
  - done.
  - done.
  - done.
  - split_and!; [done|by apply (bool_decide_unpack _)|by apply (bool_decide_unpack _)].
  - by exists [].
  - change (loads [good_segment]) with [good_segment]. apply (machine_weaken _ (8 + load_pages [good_segment])); [|exact example_memory].
    apply Nat.add_le_mono_r. exact Hextra.
  - intros _. split; [done|]. exists caller. split; [done|]. right. split_and!; [by exists 2|done|].
    intros k Hk. change (Paging.mem (tps (paging (lk before)))) with words. apply (proj2 (proj2 (proj2 (words_ok k Hk)))).
Qed.

(** witness of [program_loaded]: a program of one segment, started by task 5 *)
Lemma program_loaded_witness :
  ∃ s', load_static_elf32 0x140000 good (line "tty=console /bin/ls -l") (-1) before = Ok ((OK, 4), s') ∧
    loaded good good_header [good_segment] [line "tty=console"] (line "/bin/ls") [line "-l"] 0x100 before s'.
Proof.
  apply (program_loaded 0x140000 good good_header [good_segment] (line "tty=console /bin/ls -l") (-1) [line "tty=console"] (line "/bin/ls")
    [line "-l"] before 0x100 0x10000000 0x10200000 [0x200; 0x201; 0x202; 0x203; 0x204]).
  - done.
  - exact good_image.
  - split; try (apply (bool_decide_unpack _); vm_compute; done).
  - apply example_ready. lia.
  - right. intros f i Hf Hi. reflexivity.
Defined.
#[local] Transparent words.

(** what the loader returns and frees with the given results of [malloc] *)
Definition outcome (h : list Z) : option (Z * Z * list Z * list Z) :=
  match load_static_elf32 0x140000 good (line "/bin/ls") (-1) (mk_ls (lk before) h (ram before) (task_seed before) (task_names before)) with
  | Ok ((rc, id), s) => Some (rc, id, run_queue (lk s), heap_frees (lk s))
  | Err _ => None
  end.

#[local] Opaque words.
(** The bytes of a segment beyond those in the file are not cleared: with sevens
    in the free frames the new task finds a seven in its .bss. *)
Theorem bss_not_cleared :
  ∃ s' t, load_static_elf32 0x140000 good (line "/bin/ls ") (-1) (mk_ls (lk before) (heap before) (λ _, 7) 4 ∅) = Ok ((OK, 4), s') ∧
    tasks (lk s') !! 0x100 = Some t ∧ task_byte (pages s') (ram s') (page_directory t) (p_vaddr good_segment + p_filesz good_segment) = Some 7.
Proof.
  destruct (load_static_elf32_ok 0x140000 good good_header [good_segment] (line "/bin/ls ") (-1) [] (line "/bin/ls") []
    (mk_ls (lk before) (heap before) (λ _, 7) 4 ∅) 0x100 0x10000000 0x10200000 [0x200; 0x201; 0x202; 0x203; 0x204]) as (s' & Hr & Hl).
  - done.
  - exact good_image.
  - split; try (apply (bool_decide_unpack _); vm_compute; done).
  - destruct (example_ready 0 ltac:(lia)). by split.
  - by left.
  - destruct (lo_task _ _ _ _ _ _ _ _ _ Hl) as (t & sp & name & Ht & _ & _ & _ & _ & _ & _ & _ & _ & _ & Htm).
    destruct (tm_rest _ _ _ _ _ _ _ _ _ _ Htm good_segment (p_vaddr good_segment + p_filesz good_segment)) as (b & Hb & f & _ & ->);
      [change (loads [good_segment]) with [good_segment]; apply list_elem_of_singleton; reflexivity|split; vm_compute; congruence|vm_compute; congruence|].
    exists s', t. split; [exact Hr|]. split; [exact Ht|exact Hb].
Qed.
#[local] Transparent words.

(** When there is no memory for the task structure the loader returns OK
    although no task was made. *)
Theorem load_reports_success : outcome [] = Some (OK, -1, [], []).
Proof. vm_compute. reflexivity. Qed.

(** When there is no memory for the stack of the signal handlers the kernel
    stack is freed twice: by the loader and by [free_task]. *)
Theorem load_frees_twice : outcome [0x100; 0x10000000] = Some (- ERR_OUT_OF_MEMORY, -1, [], [0x10000000; 0x10000000; 0x100]).
Proof. vm_compute. reflexivity. Qed.
End LoaderExample.
