(* ===== verification/Packet.v ===== *)
(** * Network packets: network/net_packet.c

    A packet is half a page: a header, and behind it the payload, which grows
    and shrinks on both sides.  Packets that nobody uses wait in a pool, the
    sequence of their addresses (an operation outside the contract of the list
    operations, see DList, is a fault). *)

From Stdlib Require Import ZifyNat.
From stdpp Require Import gmap list.
From S2P Require Import Prelude PageAlloc Paging.
Open Scope Z_scope.
Open Scope zelda_scope.

Definition NET_PACKET_TOTAL_SIZE : Z := 2048.
Definition DEFAULT_NET_PACKET_AMOUNT : Z := 1024 * 8.

(** [struct packet], without the list element *)
Record packet := mk_packet {
  packet_paddr : Z;
  payload_offset : Z;
  payload_length : Z;
  pkt_paddr : Z;
  pkt_len : Z;
  device_index : Z }.

Definition PACKET_HEADER_SIZE : Z := 28.
Definition INITIAL_HEADER_ROOM_SIZE : Z := PACKET_HEADER_SIZE + 0x80.
Definition MINIMAL_HEADER_ROOM_SIZE : Z := PACKET_HEADER_SIZE.

Record pool_state := mk_pool {
  packets : gmap Z packet;
  packet_pool_head : list Z;
  ppaging : pstate }.
Definition packets_l : lens pool_state (gmap Z packet) := Lens packets (λ x s, mk_pool x (packet_pool_head s) (ppaging s)).
Definition pool_l : lens pool_state (list Z) := Lens packet_pool_head (λ x s, mk_pool (packets s) x (ppaging s)).
Definition ppaging_l : lens pool_state pstate := Lens ppaging (λ x s, mk_pool (packets s) (packet_pool_head s) x).

Definition load_packet (pkt : Z) : M pool_state packet := zoom packets_l (load pkt).
Definition update_packet (pkt : Z) (f : packet → packet) : M pool_state () := zoom packets_l (update pkt f).

(** ** The payload *)
Definition set_payload (offset length : Z) (p : packet) : packet :=
  mk_packet (packet_paddr p) offset length (pkt_paddr p) (pkt_len p) (device_index p).
Definition set_packet_paddr (x : Z) (p : packet) : packet :=
  mk_packet x (payload_offset p) (payload_length p) (pkt_paddr p) (pkt_len p) (device_index p).

Definition packet_reset (pkt : Z) : M pool_state () :=
  kernel_page_directory ← zoom ppaging_l get_kernel_page_directory;
  paddr ← zoom ppaging_l (virt2phy kernel_page_directory pkt);
  update_packet pkt (set_packet_paddr paddr) ;;
  update_packet pkt (set_payload INITIAL_HEADER_ROOM_SIZE 0).

Definition packet_extend_left (pkt nr_room : Z) : M pool_state Z :=
  p ← load_packet pkt;
  let target_payload_offset := u32 (payload_offset p - nr_room) in
  if target_payload_offset <? MINIMAL_HEADER_ROOM_SIZE then mret (- ERR_INVALID_ARG) else
  update_packet pkt (set_payload (u32 (payload_offset p - nr_room)) (u32 (payload_length p + nr_room))) ;;
  mret OK.

Definition packet_extend_right (pkt nr_room : Z) : M pool_state Z :=
  p ← load_packet pkt;
  let target_payload_length := u32 (payload_length p + nr_room) in
  let target_payload_boundary := u32 (payload_offset p + target_payload_length) in
  if target_payload_boundary >? NET_PACKET_TOTAL_SIZE then mret (- ERR_INVALID_ARG) else
  update_packet pkt (set_payload (payload_offset p) (u32 (payload_length p + nr_room))) ;;
  mret OK.

(** the comparison is between unsigned integers *)
Definition packet_shrink_left (pkt nr_room : Z) : M pool_state Z :=
  p ← load_packet pkt;
  if u32 nr_room >? payload_length p then mret (- ERR_INVALID_ARG) else
  update_packet pkt (set_payload (u32 (payload_offset p + nr_room)) (u32 (payload_length p - nr_room))) ;;
  mret OK.

Definition packet_shrink_right (pkt nr_room : Z) : M pool_state Z :=
  p ← load_packet pkt;
  if u32 nr_room >? payload_length p then mret (- ERR_INVALID_ARG) else
  update_packet pkt (set_payload (payload_offset p) (u32 (payload_length p - nr_room))) ;;
  mret OK.

(** ** The pool *)

(** [list_append(&packet_pool_head, &pkt->list)] of a packet that is on no list *)
Definition pool_append (pkt : Z) : M pool_state () :=
  λ s, if bool_decide (pkt ∈ packet_pool_head s) then Err BadAccess
       else Ok ((), lset pool_l (packet_pool_head s ++ [pkt]) s).

Definition get_packet : M pool_state Z :=
  l ← gets packet_pool_head;
  match l with
  | [] => mret NULL
  | pkt :: l =>
      zoom pool_l (modify (λ _, l)) ;;
      packet_reset pkt ;;
      mret pkt
  end.

Definition put_packet (pkt : Z) : M pool_state () :=
  present ← gets (λ s, bool_decide (pkt ∈ packet_pool_head s));
  when (negb present) (pool_append pkt).

(** the loop of [packet_pool_init]: the [n] packets from [pkt] on *)
Definition zero_packet : packet := mk_packet 0 0 0 0 0 0.
Fixpoint pool_init_loop (n : nat) (pkt : Z) : M pool_state () :=
  match n with
  | O => mret ()
  | S n =>
      zoom packets_l (modify (<[pkt := zero_packet]>)) ;;
      packet_reset pkt ;;
      pool_append pkt ;;
      pool_init_loop n (pkt + NET_PACKET_TOTAL_SIZE)
  end.

(** [packet_pool_init], where [malloc_align_mapped] has returned [packet_pool_base] *)
Definition packet_pool_init (packet_pool_base : Z) : M pool_state () :=
  ASSERT (ctrue packet_pool_base) ;;
  zoom pool_l (modify (λ _, [])) ;;
  pool_init_loop (Z.to_nat DEFAULT_NET_PACKET_AMOUNT) packet_pool_base.

(** ** Lemmas *)

(** the payload lies between the header and the end of the packet *)
Definition packet_ok (p : packet) : Prop :=
  PACKET_HEADER_SIZE ≤ payload_offset p ∧ 0 ≤ payload_length p ∧ payload_offset p + payload_length p ≤ NET_PACKET_TOTAL_SIZE.

Definition put_in (s : pool_state) (pkt : Z) (p : packet) : pool_state := lset packets_l (<[pkt := p]> (packets s)) s.

Lemma load_packet_ok s pkt p : packets s !! pkt = Some p → load_packet pkt s = Ok (p, s).
Proof.
  intros Hp. unfold load_packet. rewrite (zoom_ok packets_l _ _ p (packets s)); [by destruct s|by apply load_ok].
Qed.

Lemma load_packet_run {A} s pkt p (k : packet → M pool_state A) :
  packets s !! pkt = Some p → mbind k (load_packet pkt) s = k p s.
Proof. intros Hp. apply bind_ok. by apply load_packet_ok. Qed.

Lemma update_packet_ok s pkt p f : packets s !! pkt = Some p → update_packet pkt f s = Ok ((), put_in s pkt (f p)).
Proof. intros Hp. unfold update_packet. erewrite zoom_ok by (by apply update_ok). done. Qed.

Lemma update_packet_run {A} s pkt p f (k : () → M pool_state A) :
  packets s !! pkt = Some p → mbind k (update_packet pkt f) s = k () (put_in s pkt (f p)).
Proof. intros Hp. apply bind_ok. by apply update_packet_ok. Qed.

Lemma put_in_put s pkt p q : put_in (put_in s pkt p) pkt q = put_in s pkt q.
Proof. unfold put_in. simpl. by rewrite insert_insert_eq. Qed.

(** the physical address of a packet, 0 if it is not mapped *)
Definition paddr_of (p : pstate) (va : Z) : Z :=
  match translate (mem p) (kernel_page_directory p) va with Some e => phys_of e va | None => 0 end.

(** a fresh packet *)
Definition fresh_packet (s : pool_state) (pkt : Z) (p : packet) : packet :=
  set_payload INITIAL_HEADER_ROOM_SIZE 0 (set_packet_paddr (paddr_of (ppaging s) pkt) p).

Lemma packet_reset_ok s pkt p :
  dir_ok (ppaging s) (kernel_page_directory (ppaging s)) → packets s !! pkt = Some p →
  packet_reset pkt s = Ok ((), put_in s pkt (fresh_packet s pkt p)).
Proof.
  intros Hd Hp. unfold packet_reset. rewrite (bind_ok _ _ s (kernel_page_directory (ppaging s)) s) by (by destruct s).
  erewrite (bind_ok _ _ s).
  2: { erewrite (zoom_ok ppaging_l _ s) by (by apply virt2phy_ok). destruct s. reflexivity. }
  rewrite (update_packet_run _ _ p) by done. erewrite update_packet_ok by (apply lookup_insert_eq). by rewrite put_in_put.
Qed.

(** ** The payload never leaves the packet *)
Inductive payload_op := ExtendLeft | ExtendRight | ShrinkLeft | ShrinkRight.
Definition run_payload (o : payload_op) : Z → Z → M pool_state Z :=
  match o with ExtendLeft => packet_extend_left | ExtendRight => packet_extend_right
             | ShrinkLeft => packet_shrink_left | ShrinkRight => packet_shrink_right end.

(** is there room, and what are the offset and the length afterwards *)
Definition payload_room (o : payload_op) (p : packet) : Z :=
  match o with
  | ExtendLeft => payload_offset p - PACKET_HEADER_SIZE
  | ExtendRight => NET_PACKET_TOTAL_SIZE - (payload_offset p + payload_length p)
  | ShrinkLeft | ShrinkRight => payload_length p
  end.
Definition payload_after (o : payload_op) (n : Z) (p : packet) : packet :=
  match o with
  | ExtendLeft => set_payload (payload_offset p - n) (payload_length p + n) p
  | ExtendRight => set_payload (payload_offset p) (payload_length p + n) p
  | ShrinkLeft => set_payload (payload_offset p + n) (payload_length p - n) p
  | ShrinkRight => set_payload (payload_offset p) (payload_length p - n) p
  end.

Lemma run_payload_ok o n s pkt p :
  packets s !! pkt = Some p → packet_ok p → 0 ≤ n < 2147483648 → (o = ExtendLeft → n ≤ payload_offset p) →
  run_payload o pkt n s = (if n <=? payload_room o p then Ok (OK, put_in s pkt (payload_after o n p)) else Ok (- ERR_INVALID_ARG, s)) ∧
  (n ≤ payload_room o p → packet_ok (payload_after o n p)).
Proof.
  intros Hp (H1 & H2 & H3) Hn Hleft. unfold NET_PACKET_TOTAL_SIZE, PACKET_HEADER_SIZE in *.
  split; [|destruct o; unfold packet_ok; cbn; unfold NET_PACKET_TOTAL_SIZE, PACKET_HEADER_SIZE in *; lia].
  destruct o; cbn [run_payload payload_room payload_after];
    unfold packet_extend_left, packet_extend_right, packet_shrink_left, packet_shrink_right, MINIMAL_HEADER_ROOM_SIZE, NET_PACKET_TOTAL_SIZE, PACKET_HEADER_SIZE in *;
    rewrite (load_packet_run _ _ p) by done.
  - specialize (Hleft eq_refl). rewrite !u32_small by lia.
    destruct (Z.ltb_spec (payload_offset p - n) 28), (Z.leb_spec n (payload_offset p - 28)); try lia; [done|]. by rewrite (update_packet_run _ _ p).
  - rewrite (u32_small (payload_length p + n)), u32_small by lia.
    destruct (Z.gtb_spec (payload_offset p + (payload_length p + n)) 2048), (Z.leb_spec n (2048 - (payload_offset p + payload_length p))); try lia; [done|].
    by rewrite (update_packet_run _ _ p).
  - rewrite (u32_small n) by lia. destruct (Z.gtb_spec n (payload_length p)), (Z.leb_spec n (payload_length p)); try lia; [done|].
    rewrite !u32_small by lia. by rewrite (update_packet_run _ _ p).
  - rewrite (u32_small n) by lia. destruct (Z.gtb_spec n (payload_length p)), (Z.leb_spec n (payload_length p)); try lia; [done|].
    rewrite !u32_small by lia. by rewrite (update_packet_run _ _ p).
Qed.

(** a sequence of operations on a packet *)
Fixpoint run_ops (pkt : Z) (l : list (payload_op * Z)) : M pool_state (list Z) :=
  match l with
  | [] => mret []
  | (o, n) :: l => rc ← run_payload o pkt n; rcs ← run_ops pkt l; mret (rc :: rcs)
  end.
Definition payload_step (o : payload_op) (n : Z) (p : packet) : packet := if n <=? payload_room o p then payload_after o n p else p.
(** what they do: the codes and the packet *)
Fixpoint ops_spec (p : packet) (l : list (payload_op * Z)) : list Z * packet :=
  match l with
  | [] => ([], p)
  | (o, n) :: l =>
      let r := ops_spec (payload_step o n p) l in ((if n <=? payload_room o p then OK else - ERR_INVALID_ARG) :: r.1, r.2)
  end.
(** no request is negative, and none to the left is larger than the offset *)
Fixpoint ops_sane (p : packet) (l : list (payload_op * Z)) : Prop :=
  match l with
  | [] => True
  | (o, n) :: l => 0 ≤ n < 2147483648 ∧ (o = ExtendLeft → n ≤ payload_offset p) ∧ ops_sane (payload_step o n p) l
  end.

Lemma put_in_same s pkt p : packets s !! pkt = Some p → put_in s pkt p = s.
Proof. intros Hp. unfold put_in. destruct s. cbn in *. by rewrite insert_id. Qed.

Lemma payload_step_ok o n s pkt p :
  packets s !! pkt = Some p → packet_ok p → 0 ≤ n < 2147483648 → (o = ExtendLeft → n ≤ payload_offset p) →
  run_payload o pkt n s = Ok (if n <=? payload_room o p then OK else - ERR_INVALID_ARG, put_in s pkt (payload_step o n p)) ∧
  packet_ok (payload_step o n p).
Proof.
  intros Hp Hok Hn Hl. destruct (run_payload_ok o n s pkt p Hp Hok Hn Hl) as [E Hafter]. rewrite E. unfold payload_step.
  destruct (Z.leb_spec n (payload_room o p)); [by split; [|apply Hafter]|]. by rewrite put_in_same.
Qed.

(** C36. Whatever sequence of extensions and reductions a packet undergoes, its
    payload stays between the header and the end of the packet; an operation is
    carried out if and only if there is room for it, moves exactly the edge it
    names by the requested number of bytes, and a refused one changes nothing;
    no other packet is touched.  Requests are at least 0 and below 2 GB, and no
    request to extend to the left is larger than the payload offset of that
    moment ([ops_sane]): there the offset wraps around and the payload lands in
    front of the packet ([extend_left_wraps]). *)
Theorem payload_stays_inside l s pkt p :
  packets s !! pkt = Some p → packet_ok p → ops_sane p l →
  run_ops pkt l s = Ok ((ops_spec p l).1, put_in s pkt (ops_spec p l).2) ∧ packet_ok (ops_spec p l).2.
Proof.
  revert s p. induction l as [|[o n] l IH]; intros s p Hp Hok Hs.
  { cbn [run_ops ops_spec fst snd]. by rewrite put_in_same. }
  destruct Hs as (Hn & Hl & Hs). destruct (payload_step_ok o n s pkt p Hp Hok Hn Hl) as [E Hok']. cbn [run_ops ops_spec fst snd].
  rewrite (bind_ok _ _ _ _ _ E). destruct (IH (put_in s pkt (payload_step o n p)) _ (lookup_insert_eq _ _ _) Hok' Hs) as [E' ?].
  rewrite (bind_ok _ _ _ _ _ E'), put_in_put. done.
Qed.

(** ** The pool *)

Lemma get_packet_ok s pkt l p :
  dir_ok (ppaging s) (kernel_page_directory (ppaging s)) → packet_pool_head s = pkt :: l → packets s !! pkt = Some p →
  get_packet s = Ok (pkt, put_in (lset pool_l l s) pkt (fresh_packet s pkt p)).
Proof.
  intros Hd Hl Hp. unfold get_packet. mstep. rewrite Hl. rewrite (bind_ok _ _ s () (lset pool_l l s)) by reflexivity.
  by rewrite (bind_ok _ _ _ _ _ (packet_reset_ok (lset pool_l l s) pkt p Hd Hp)).
Qed.

Lemma get_packet_none s : packet_pool_head s = [] → get_packet s = Ok (NULL, s).
Proof. intros Hl. unfold get_packet. mstep. by rewrite Hl. Qed.

Lemma put_packet_ok s pkt : pkt ∉ packet_pool_head s → put_packet pkt s = Ok ((), lset pool_l (packet_pool_head s ++ [pkt]) s).
Proof.
  intros Hn. unfold put_packet. mstep. rewrite bool_decide_eq_false_2 by done. change (negb false) with true.
  change (when true (pool_append pkt) s) with (pool_append pkt s). unfold pool_append. by rewrite bool_decide_eq_false_2.
Qed.

(** the addresses of [n] packets *)
Definition packet_addrs (base : Z) (n : nat) : list Z := (λ i, base + NET_PACKET_TOTAL_SIZE * Z.of_nat i) <$> seq 0 n.

Lemma packet_addrs_cons base n : packet_addrs base (S n) = base :: packet_addrs (base + NET_PACKET_TOTAL_SIZE) n.
Proof.
  unfold packet_addrs. rewrite <-cons_seq, fmap_cons, <-fmap_S_seq, <-list_fmap_compose. f_equal; [lia|].
  apply list_fmap_ext. intros i x _. cbn. lia.
Qed.

Lemma pool_init_loop_ok n s pkt :
  dir_ok (ppaging s) (kernel_page_directory (ppaging s)) → (∀ a, a ∈ packet_pool_head s → a < pkt) →
  ∃ s', pool_init_loop n pkt s = Ok ((), s') ∧ packet_pool_head s' = packet_pool_head s ++ packet_addrs pkt n ∧ ppaging s' = ppaging s ∧
    (∀ a, packets s' !! a = if bool_decide (a ∈ packet_addrs pkt n) then Some (fresh_packet s a zero_packet) else packets s !! a).
Proof.
  revert s pkt. induction n as [|n IH]; intros s pkt Hd Hlt.
  { exists s. cbn. rewrite app_nil_r. split_and!; try done. }
  cbn [pool_init_loop]. erewrite (bind_ok (zoom packets_l _)) by reflexivity. cbn [packets_l lget].
  set (s1 := lset packets_l (<[pkt := zero_packet]> (packets s)) s).
  rewrite (bind_ok _ _ _ _ _ (packet_reset_ok s1 pkt zero_packet Hd (lookup_insert_eq _ _ _))).
  set (s2 := put_in s1 pkt (fresh_packet s1 pkt zero_packet)).
  assert (pkt ∉ packet_pool_head s) as Hnew by (intros Hin; specialize (Hlt _ Hin); lia).
  rewrite (bind_ok (pool_append pkt) _ s2 () (lset pool_l (packet_pool_head s ++ [pkt]) s2)).
  2: { unfold pool_append. by rewrite bool_decide_eq_false_2. }
  destruct (IH (lset pool_l (packet_pool_head s ++ [pkt]) s2) (pkt + NET_PACKET_TOTAL_SIZE)) as (s' & E & Hpool & Hpg & Hpk); [done|..].
  { intros a [Ha|Ha%list_elem_of_singleton]%elem_of_app; unfold NET_PACKET_TOTAL_SIZE; [specialize (Hlt _ Ha)|]; lia. }
  exists s'. rewrite E, packet_addrs_cons. split_and!; [done|rewrite Hpool; cbn; by rewrite <-app_assoc|done|].
  intros a. rewrite Hpk. cbn [packets lset pool_l s2 s1 put_in packets_l]. rewrite insert_insert_eq.
  destruct (decide (a ∈ packet_addrs (pkt + NET_PACKET_TOTAL_SIZE) n)) as [Hin|Hin].
  - rewrite !bool_decide_eq_true_2 by set_solver. done.
  - rewrite (bool_decide_eq_false_2 _ Hin). destruct (decide (a = pkt)) as [->|Hne].
    + rewrite lookup_insert_eq, bool_decide_eq_true_2 by set_solver. done.
    + rewrite lookup_insert_ne, bool_decide_eq_false_2 by set_solver. done.
Qed.

(** ** Examples *)
Module PacketExample.
Definition one : pool_state := mk_pool {[0x800 := mk_packet 0x9800 156 0 0 0 0]} [] (mk_pstate (mk_palloc ∅ ∅ 0 0 0) ∅ 0 0).

(** witness of [payload_stays_inside]: a frame of 100 bytes, a header in front of it, one request too many *)
Lemma payload_stays_inside_witness :
  run_ops 0x800 [(ExtendRight, 100); (ExtendLeft, 14); (ExtendLeft, 120); (ShrinkRight, 4)] one =
    Ok ([OK; OK; - ERR_INVALID_ARG; OK], put_in one 0x800 (mk_packet 0x9800 142 110 0 0 0)) ∧
  packet_ok (mk_packet 0x9800 142 110 0 0 0).
Proof.
  apply (payload_stays_inside [(ExtendRight, 100); (ExtendLeft, 14); (ExtendLeft, 120); (ShrinkRight, 4)] one 0x800
    (mk_packet 0x9800 156 0 0 0 0)); [reflexivity|by vm_compute|by vm_compute].
Defined.

(** The offset is compared as an unsigned number after the subtraction, so a
    request to the left that is larger than the offset passes the check: the
    payload then starts before the packet. *)
Theorem extend_left_wraps :
  packet_extend_left 0x800 0x1000 one = Ok (OK, put_in one 0x800 (mk_packet 0x9800 (u32 (156 - 0x1000)) 0x1000 0 0 0)).
Proof. vm_compute. reflexivity. Qed.
End PacketExample.
