(* ===== verification/VirtioNet.v ===== *)
(** * The network card: network/virtio_net.c

    The driver shares three queues with the card.  A queue has a table of
    descriptors, a ring of descriptors made available to the card and a ring of
    descriptors the card has used; the driver keeps the numbers of the free
    descriptors in a byte ring (Ring), two bytes each, and next to every
    descriptor the packet (Packet) it was filled with.

    The rings are indexed by 16 bit counters that wrap around.  Ports are
    write-only here: [notified] is the sequence of the values written to the
    notification port.  A call of the driver runs without the card in between;
    what the card does between calls is [step] in NetDriver. *)

From Stdlib Require Import ZifyNat.
From stdpp Require Import gmap list.
From S2P Require Import Prelude Ring PageAlloc Paging Packet.
Open Scope Z_scope.
Open Scope zelda_scope.

Definition VIRTQ_DESC_F_WRITE : Z := 0x2.
Definition VIRTQ_AVAIL_F_NO_INTERRUPT : Z := 0x1.
Definition VIRTQ_USED_F_NO_NOTIFY : Z := 0x1.
Definition MAX_VIRTIO_NET_VQ_PAIRS : Z := 1.
Definition ONESHOT_RECLAIM_SENT_PACKET_LENGTH : Z := 64.
Definition ONESHORT_PACKET_LENGTH : Z := 64.
Definition MAXIMUM_PACKETS_TO_SEND : Z := 64.
Definition ONESHOT_RECEIVE_LENGTH : Z := 64.
(** [sizeof(struct virtio_net_hdr)] *)
Definition VIRTIO_NET_HDR_SIZE : Z := 12.

Record virtq_desc := mk_desc { addr : Z; len : Z; dflags : Z; dnext : Z }.
Record virt_used_elem := mk_used { id : Z; ulen : Z }.

(** a queue with the rings it points to *)
Record virtqueue := mk_vq {
  queue_size : Z;
  last_used_idx : Z;
  vq_desc : list virtq_desc;
  avail_flags : Z;
  avail_idx : Z;
  avail_ring : list Z;
  used_flags : Z;
  used_idx : Z;
  used_ring : list virt_used_elem;
  free_desc_ring : Ring.ring;
  opaque : list Z }.
Definition free_desc_l : lens virtqueue Ring.ring := Lens free_desc_ring (λ x q,
  mk_vq (queue_size q) (last_used_idx q) (vq_desc q) (avail_flags q) (avail_idx q) (avail_ring q) (used_flags q) (used_idx q) (used_ring q) x (opaque q)).
Definition set_last_used_idx (x : Z) (q : virtqueue) : virtqueue :=
  mk_vq (queue_size q) x (vq_desc q) (avail_flags q) (avail_idx q) (avail_ring q) (used_flags q) (used_idx q) (used_ring q) (free_desc_ring q) (opaque q).
Definition set_avail_flags (x : Z) (q : virtqueue) : virtqueue :=
  mk_vq (queue_size q) (last_used_idx q) (vq_desc q) x (avail_idx q) (avail_ring q) (used_flags q) (used_idx q) (used_ring q) (free_desc_ring q) (opaque q).
Definition set_avail_idx (x : Z) (q : virtqueue) : virtqueue :=
  mk_vq (queue_size q) (last_used_idx q) (vq_desc q) (avail_flags q) x (avail_ring q) (used_flags q) (used_idx q) (used_ring q) (free_desc_ring q) (opaque q).
(** the descriptor, its packet and the entry of the ring of available descriptors *)
Definition set_buffers (o : list Z) (d : list virtq_desc) (a : list Z) (q : virtqueue) : virtqueue :=
  mk_vq (queue_size q) (last_used_idx q) d (avail_flags q) (avail_idx q) a (used_flags q) (used_idx q) (used_ring q) (free_desc_ring q) o.

(** the number of this device, the devices marked for the receivers and how
    often their work queue was notified (Task models the notification) *)
Record rx_state := mk_rx { ifaceid : Z; eth_dev_rx_mask : list Z; rx_notified : Z }.
Definition set_mask (x : list Z) (r : rx_state) : rx_state := mk_rx (ifaceid r) x (rx_notified r).

(** [struct virtio_net] and the pool of packets *)
Record netst := mk_net {
  virtqueues : list virtqueue;
  mtu : Z;
  npool : pool_state;
  notified : list Z;
  receivers : rx_state }.
Definition npool_l : lens netst pool_state := Lens npool (λ x s, mk_net (virtqueues s) (mtu s) x (notified s) (receivers s)).

(** an operation on queue [vq_index] *)
Definition on_queue {A} (vq_index : Z) (m : M virtqueue A) : M netst A :=
  λ s, match array_get (virtqueues s) vq_index with
       | None => Err BadAccess
       | Some q =>
           match m q with
           | Err f => Err f
           | Ok (a, q') => Ok (a, mk_net (<[Z.to_nat vq_index := q']> (virtqueues s)) (mtu s) (npool s) (notified s) (receivers s))
           end
       end.

(** ** Interrupts *)
Definition valid_queue (vq_index : Z) : bool := vq_index <? MAX_VIRTIO_NET_VQ_PAIRS * 2 + 1.
Definition virtio_net_device_virtqueue_disable_interrupt (vq_index : Z) : M netst () :=
  ASSERT (valid_queue vq_index) ;;
  on_queue vq_index (modify (λ q, set_avail_flags (Z.lor (avail_flags q) VIRTQ_AVAIL_F_NO_INTERRUPT) q)).
Definition virtio_net_device_virtqueue_enable_interrupt (vq_index : Z) : M netst () :=
  ASSERT (valid_queue vq_index) ;;
  on_queue vq_index (modify (λ q, set_avail_flags (u16 (Z.land (avail_flags q) (Z.lnot VIRTQ_AVAIL_F_NO_INTERRUPT))) q)).

(** ** Sending *)

(** the 32 bit integer in four bytes *)
Definition int_of_bytes (l : list Z) : Z :=
  match l with [a; b; c; d] => i32 (a + 256 * b + 65536 * c + 16777216 * d) | _ => 0 end.

(** the loop of [virtio_net_device_raw_send] *)
Fixpoint send_loop (descs : list virtq_desc) (opaques : list Z) (nr_added : Z) : M virtqueue Z :=
  match descs, opaques with
  | d :: descs, o :: opaques =>
      empty ← zoom free_desc_l ring_empty;
      if empty : bool then mret nr_added else
      '(n, bytes) ← zoom free_desc_l (read_ring [0; 0; 0; 0] 2);
      ASSERT (n =? 2) ;;
      let free_desc_index := int_of_bytes bytes in
      q ← gets (λ q, q);
      ASSERT ((free_desc_index <? queue_size q) && (0 <=? free_desc_index)) ;;
      os ← deref (array_set (opaque q) free_desc_index o);
      ds ← deref (array_set (vq_desc q) free_desc_index (mk_desc (addr d) (len d) (dflags d) 0));
      slot ← crem (avail_idx q + nr_added) (queue_size q);
      av ← deref (array_set (avail_ring q) slot (u16 free_desc_index));
      modify (set_buffers os ds av) ;;
      send_loop descs opaques (nr_added + 1)
  | _, _ => mret nr_added
  end.

Definition virtio_net_device_raw_send (vq_index : Z) (descs : list virtq_desc) (opaques : list Z) : M netst Z :=
  ASSERT (valid_queue vq_index) ;;
  nr_added ← on_queue vq_index (send_loop descs opaques 0);
  on_queue vq_index (modify (λ q, set_avail_idx (u16 (avail_idx q + nr_added)) q)) ;;
  flags ← on_queue vq_index (gets used_flags);
  when (! Z.land flags VIRTQ_USED_F_NO_NOTIFY)
    (modify (λ s, mk_net (virtqueues s) (mtu s) (npool s) (notified s ++ [vq_index]) (receivers s))) ;;
  mret nr_added.

(** ** Receiving *)

(** the two low bytes of an integer *)
Definition low_bytes (x : Z) : list Z := [x `mod` 256; (x / 256) `mod` 256].

(** the loop of [virtio_net_device_raw_receive]; the packets received *)
Fixpoint receive_loop (vq_index : Z) (packet_setup : option (Z → virtq_desc → virt_used_elem → M netst ())) (nr_left : nat)
    (latest_used_index : Z) : M netst (list Z * Z) :=
  match nr_left with
  | O => mret ([], latest_used_index)
  | S nr_left =>
      q ← on_queue vq_index (gets (λ q, q));
      if latest_used_index =? used_idx q then mret ([], latest_used_index) else
      used_elem_index ← crem latest_used_index (queue_size q);
      used_item ← deref (array_get (used_ring q) used_elem_index);
      ASSERT (id used_item <? queue_size q) ;;
      desc ← deref (array_get (vq_desc q) (id used_item));
      pkt ← deref (array_get (opaque q) (id used_item));
      match packet_setup with Some f => f pkt desc used_item | None => mret () end ;;
      n ← on_queue vq_index (zoom free_desc_l (write_ring (low_bytes (id used_item)) 2));
      ASSERT (n =? 2) ;;
      '(pkts, latest) ← receive_loop vq_index packet_setup nr_left (u16 (latest_used_index + 1));
      mret (pkt :: pkts, latest)
  end.

Definition virtio_net_device_raw_receive (vq_index nr_buffer : Z)
    (packet_setup : option (Z → virtq_desc → virt_used_elem → M netst ())) : M netst (list Z) :=
  latest ← on_queue vq_index (gets last_used_idx);
  '(pkts, latest) ← receive_loop vq_index packet_setup (Z.to_nat nr_buffer) latest;
  on_queue vq_index (modify (set_last_used_idx latest)) ;;
  mret pkts.

Definition set_pkt (paddr length : Z) (p : packet) : packet :=
  mk_packet (packet_paddr p) (payload_offset p) (payload_length p) paddr length (device_index p).
Definition __virtio_net_device_packet_setup (pkt : Z) (desc : virtq_desc) (used_item : virt_used_elem) : M netst () :=
  zoom npool_l (update_packet pkt (set_pkt (u32 (addr desc)) (u16 (ulen used_item)))) ;;
  p ← zoom npool_l (load_packet pkt);
  ASSERT (pkt_paddr p =? u32 (packet_paddr p + payload_offset p)) ;;
  ASSERT (pkt_len p <=? payload_length p).

(** ** The operations of the device *)

Fixpoint put_packets (pkts : list Z) : M netst () :=
  match pkts with [] => mret () | pkt :: pkts => zoom npool_l (put_packet pkt) ;; put_packets pkts end.

Definition virtio_net_dev_reclaim_sent_packet : M netst Z :=
  pkts ← virtio_net_device_raw_receive 1 ONESHOT_RECLAIM_SENT_PACKET_LENGTH None;
  put_packets pkts ;;
  mret (Z.of_nat (length pkts)).

(** up to [n] packets of the pool *)
Fixpoint get_packets (n : nat) : M netst (list Z) :=
  match n with
  | O => mret []
  | S n =>
      pkt ← zoom npool_l get_packet;
      if ! pkt then mret [] else pkts ← get_packets n; mret (pkt :: pkts)
  end.

(** the receive buffers of packets *)
Fixpoint receive_buffers (pkts : list Z) : M netst (list virtq_desc) :=
  match pkts with
  | [] => mret []
  | pkt :: pkts =>
      mtu ← gets mtu;
      rc ← zoom npool_l (packet_extend_right pkt (mtu + VIRTIO_NET_HDR_SIZE));
      ASSERT (! rc) ;;
      p ← zoom npool_l (load_packet pkt);
      descs ← receive_buffers pkts;
      mret (mk_desc (u32 (packet_paddr p + payload_offset p)) (payload_length p) VIRTQ_DESC_F_WRITE 0 :: descs)
  end.

Definition virtio_net_dev_supply_packet : M netst Z :=
  free_descriptor_num ← on_queue 0 (zoom free_desc_l ring_length);
  ASSERT (! Z.land free_descriptor_num 1) ;;
  let nr_packets_to_supply := Z.min ONESHORT_PACKET_LENGTH (Z.shiftr free_descriptor_num 1) in
  ASSERT (0 <=? nr_packets_to_supply) ;;
  if ! nr_packets_to_supply then mret 0 else
  pkts ← get_packets (Z.to_nat nr_packets_to_supply);
  let nr_packets_to_supply := Z.of_nat (length pkts) in
  if ! nr_packets_to_supply then mret 0 else
  descs ← receive_buffers pkts;
  n ← virtio_net_device_raw_send 0 descs pkts;
  ASSERT (nr_packets_to_supply =? n) ;;
  mret nr_packets_to_supply.

Fixpoint transmit_buffers (pkts : list Z) : M netst (list virtq_desc) :=
  match pkts with
  | [] => mret []
  | pkt :: pkts =>
      p ← zoom npool_l (load_packet pkt);
      descs ← transmit_buffers pkts;
      mret (mk_desc (u32 (packet_paddr p + payload_offset p)) (payload_length p) 0 0 :: descs)
  end.

Definition virtio_net_dev_transmit (pkts : list Z) (nr_pkt : Z) : M netst Z :=
  let nr_to_send := Z.min nr_pkt MAXIMUM_PACKETS_TO_SEND in
  descs ← transmit_buffers (take (Z.to_nat nr_to_send) pkts);
  virtio_net_device_raw_send 1 descs (take (Z.to_nat nr_to_send) pkts).

Definition virtio_net_dev_receive (nr_pkt : Z) : M netst (list Z) :=
  pkts ← virtio_net_device_raw_receive 0 nr_pkt (Some __virtio_net_device_packet_setup);
  virtio_net_dev_supply_packet ;;
  mret pkts.

(** [while(virtio_net_dev_supply_packet(pdev));] *)
Fixpoint supply_loop (fuel : nat) : M netst () :=
  match fuel with
  | O => fail Diverge
  | S fuel => n ← virtio_net_dev_supply_packet; if ! n then mret () else supply_loop fuel
  end.

Definition virtio_net_dev_start : M netst Z :=
  fuel ← gets (λ s, S (length (packet_pool_head (npool s))));
  supply_loop fuel ;;
  virtio_net_device_virtqueue_enable_interrupt 0 ;;
  virtio_net_device_virtqueue_enable_interrupt 1 ;;
  virtio_net_device_virtqueue_enable_interrupt 2 ;;
  mret OK.

Definition virtio_net_dev_stop : M netst Z :=
  virtio_net_device_virtqueue_disable_interrupt 0 ;;
  virtio_net_device_virtqueue_disable_interrupt 1 ;;
  virtio_net_device_virtqueue_disable_interrupt 2 ;;
  mret OK.

(** ** The receivers: network/ethernet_rx.c *)
Definition MAX_NR_ETHERNET_DEVCIES : Z := 256.
Definition set_receivers (f : rx_state → rx_state) (s : netst) : netst := mk_net (virtqueues s) (mtu s) (npool s) (notified s) (f (receivers s)).

Definition netdev_rx (device_index : Z) : M netst () :=
  ASSERT ((0 <=? device_index) && (device_index <? MAX_NR_ETHERNET_DEVCIES)) ;;
  r ← gets receivers;
  mask ← deref (array_set (eth_dev_rx_mask r) device_index 1);
  modify (set_receivers (λ r, mk_rx (ifaceid r) mask (rx_notified r + 1))).

Definition virtio_device_interrupt_handler (isr : Z) : M netst Z :=
  when (ctrue isr) (
    q0 ← on_queue 0 (gets (λ q, q));
    when (negb (last_used_idx q0 =? used_idx q0)) (r ← gets receivers; netdev_rx (ifaceid r)) ;;
    q1 ← on_queue 1 (gets (λ q, q));
    when (negb (last_used_idx q1 =? used_idx q1)) (virtio_net_dev_reclaim_sent_packet ;; mret ())) ;;
  mret OK.

(** [__do_ethernet_dev_receive] of network/ethernet_rx.c *)
Fixpoint __do_ethernet_dev_receive (fuel : nat) : M netst () :=
  match fuel with
  | O => fail Diverge
  | S fuel =>
      pkts ← virtio_net_dev_receive ONESHOT_RECEIVE_LENGTH;
      match pkts with
      | [] => mret ()
      | _ => put_packets pkts ;; __do_ethernet_dev_receive fuel
      end
  end.

(** the devices marked; [search_ethernet_device_by_id] finds this device under
    its number and no other *)
Fixpoint do_rx_loop (fuel : nat) (l : list Z) : M netst () :=
  match l with
  | [] => mret ()
  | idx :: l =>
      r ← gets receivers;
      marked ← deref (array_get (eth_dev_rx_mask r) idx);
      (if ! marked then mret ()
       else if idx =? ifaceid r then __do_ethernet_dev_receive fuel
       else mask ← deref (array_set (eth_dev_rx_mask r) idx 0); modify (set_receivers (set_mask mask))) ;;
      do_rx_loop fuel l
  end.
Definition ethernet_do_rx (fuel : nat) : M netst () := do_rx_loop fuel (seqZ 0 MAX_NR_ETHERNET_DEVCIES).

(** ** Setting a queue up *)

Definition VIRTIO_SIZE_ROUND (a : Z) : Z := u32 (Z.land (u32 (a + PAGE_MASK)) (Z.lnot PAGE_MASK)).

(** the areas of a queue of [queue_size] descriptors, with the offsets of the
    last two from its base *)
Record queue_layout := mk_layout {
  size_virt_desc : Z; size_queue_avail : Z; size_queue_used : Z; size_virtq : Z; avail_offset : Z; used_offset : Z }.
Definition layout_of (queue_size : Z) : queue_layout :=
  let size_virt_desc := u32 (16 * queue_size) in
  let size_queue_avail := u32 (2 * u32 (queue_size + 3)) in
  let size_queue_used := u32 (8 * queue_size + 2 * 3) in
  let rounded := VIRTIO_SIZE_ROUND (u32 (size_virt_desc + size_queue_avail)) in
  mk_layout size_virt_desc size_queue_avail size_queue_used (u32 (rounded + VIRTIO_SIZE_ROUND size_queue_used)) size_virt_desc rounded.

Definition LOW_BYTE (word : Z) : Z := u8 (Z.land word 0xff).
Definition HIGH_BYTE (word : Z) : Z := u8 (Z.land (Z.shiftr word 8) 0xff).

(** filling the ring of the free descriptors *)
Fixpoint fill_free_ring (n : nat) (idx : Z) : M Ring.ring () :=
  match n with
  | O => mret ()
  | S n =>
      rc ← ring_enqueue (LOW_BYTE idx);
      ASSERT (ctrue rc) ;;
      rc ← ring_enqueue (HIGH_BYTE idx);
      ASSERT (ctrue rc) ;;
      fill_free_ring n (idx + 1)
  end.

(** the last part of [virtio_net_device_virt_queue_setup]: the ring of free
    descriptors, in memory [mem] of the heap, is filled and the array [opaque]
    cleared.  The result is the queue this leaves in [virtqueues[vq_index]],
    whose areas are zero from the [memset] before it; the pages of the areas,
    their mapping and its check, the heap blocks and the port accesses are not
    part of it. *)
Definition new_queue (queue_size : Z) (mem : Ring.ring) : result virtqueue :=
  let n := Z.to_nat queue_size in
  match (ring_reset ;; fill_free_ring n 0) (mk_ring (queue_size * 2 + 1) (front mem) (rear mem) (buffer mem)) with
  | Err f => Err f
  | Ok (_, r) =>
      Ok (mk_vq queue_size 0 (replicate n (mk_desc 0 0 0 0)) 0 0 (replicate n 0) 0 0 (replicate n (mk_used 0 0)) r (replicate n 0))
  end.

(** ** Windows of a ring *)

(** [l] is the part of the ring of [n] entries that starts at index [start] *)
Definition window {A} (ring : list A) (n start : Z) (l : list A) : Prop :=
  ∀ i x, l !! i = Some x → ring !! Z.to_nat ((start + Z.of_nat i) `mod` n) = Some x.

Lemma mod_apart n a b : 0 < n → a `mod` n = b `mod` n → -n < a - b < n → a = b.
Proof. intros Hn Hm Hd. pose proof (Z_div_mod_eq_full a n). pose proof (Z_div_mod_eq_full b n).
  assert (a - b = n * (a / n - b / n)) by lia. assert (a / n - b / n = 0) by nia. lia.
Qed.

Lemma window_snoc {A} (ring : list A) n start l x :
  0 < n → length ring = Z.to_nat n → lenZ l < n → window ring n start l →
  window (<[Z.to_nat ((start + lenZ l) `mod` n) := x]> ring) n start (l ++ [x]).
Proof.
  intros Hn Hr Hl Hw i y Hi. pose proof (Z.mod_pos_bound (start + lenZ l) n Hn) as Hb.
  apply lookup_app_Some in Hi as [Hi|[Hge Hi]].
  - pose proof (lookup_lt_Some _ _ _ Hi) as Hlt. rewrite list_lookup_insert_ne; [by apply Hw|].
    pose proof (Z.mod_pos_bound (start + Z.of_nat i) n Hn) as Hb'. intros E. assert ((start + lenZ l) `mod` n = (start + Z.of_nat i) `mod` n) as E' by lia.
    apply mod_apart in E'; lia.
  - destruct (i - length l)%nat as [|k] eqn:E; [|done]. injection Hi as ->. assert (i = length l) as -> by lia.
    apply list_lookup_insert_eq. lia.
Qed.

Lemma window_tail {A} (ring : list A) n start x l : window ring n start (x :: l) → window ring n (start + 1) l.
Proof. intros Hw i y Hi. rewrite <-(Hw (S i) y Hi). do 2 f_equal. f_equal. lia. Qed.

Lemma window_head {A} (ring : list A) n start x l : window ring n start (x :: l) → ring !! Z.to_nat (start `mod` n) = Some x.
Proof. intros Hw. rewrite <-(Hw 0%nat x eq_refl). do 2 f_equal. f_equal. lia. Qed.

Lemma u16_mod n a b : 0 < n → (n | 65536) → (u16 a + b) `mod` n = (a + b) `mod` n.
Proof.
  intros Hn Hd. unfold u16. rewrite <-Zplus_mod_idemp_l, Z.mod_mod_divide by done.
  apply Zplus_mod_idemp_l.
Qed.

Lemma u16_u16 a b : u16 (u16 a + b) = u16 (a + b).
Proof. apply Zplus_mod_idemp_l. Qed.

Lemma window_u16 {A} (ring : list A) n start l : 0 < n → (n | 65536) → window ring n (u16 start) l ↔ window ring n start l.
Proof. intros Hn Hd. unfold window. by setoid_rewrite u16_mod. Qed.


(** ** The state of a queue *)

(** the numbers in two bytes each *)
Definition in_bytes (ids : list Z) : list Z := ids ≫= low_bytes.

(** the descriptors of a queue: free, pending (made available but not yet taken
    by the card, which has taken [taken] so far), held by the card, and used;
    [late] of the pending ones are not announced yet, and the used ones start at [last] *)
Record queue_ids (q : virtqueue) (taken last late : Z) (F P D : list Z) (U : list virt_used_elem) : Prop := {
  qi_size : 0 < queue_size q ≤ 32768 ∧ (queue_size q | 65536);
  qi_lengths : lenZ (vq_desc q) = queue_size q ∧ lenZ (avail_ring q) = queue_size q ∧ lenZ (used_ring q) = queue_size q ∧
    lenZ (opaque q) = queue_size q;
  qi_ring : ring_wf (free_desc_ring q) ∧ ring_size (free_desc_ring q) = 2 * queue_size q + 1 ∧
    contents (free_desc_ring q) = in_bytes F;
  qi_avail : avail_idx q = u16 (taken + lenZ P - late) ∧ window (avail_ring q) (queue_size q) taken P;
  qi_used : used_idx q = u16 (last + lenZ U) ∧ window (used_ring q) (queue_size q) last U;
  qi_index : 0 ≤ taken < 65536 ∧ 0 ≤ last < 65536 ∧ 0 ≤ late;
  qi_all : F ++ P ++ D ++ (id <$> U) ≡ₚ seqZ 0 (queue_size q) }.

Section queue.
Context {q : virtqueue} {taken last late : Z} {F P D : list Z} {U : list virt_used_elem}.
Hypothesis Hq : queue_ids q taken last late F P D U.

Lemma queue_nodup : NoDup (F ++ P ++ D ++ (id <$> U)).
Proof. rewrite (qi_all _ _ _ _ _ _ _ _ Hq). apply NoDup_seqZ. Qed.

Lemma queue_id_range i : i ∈ F ++ P ++ D ++ (id <$> U) → 0 ≤ i < queue_size q.
Proof. rewrite (qi_all _ _ _ _ _ _ _ _ Hq). rewrite elem_of_seqZ. lia. Qed.

Lemma queue_count : lenZ F + lenZ P + lenZ D + lenZ U = queue_size q.
Proof.
  pose proof (Permutation_length (qi_all _ _ _ _ _ _ _ _ Hq)) as H. rewrite !length_app, length_fmap, length_seqZ in H.
  destruct (qi_size _ _ _ _ _ _ _ _ Hq) as [? _]. lia.
Qed.

Lemma in_bytes_length (l : list Z) : lenZ (in_bytes l) = 2 * lenZ l.
Proof. unfold in_bytes. induction l as [|x l IH]; [done|]. rewrite bind_cons, length_app. cbn [low_bytes length]. lia. Qed.

Lemma free_ring_length : ring_len (free_desc_ring q) = 2 * lenZ F ∧ ring_room (free_desc_ring q) = 2 * (queue_size q - lenZ F).
Proof.
  destruct (qi_ring _ _ _ _ _ _ _ _ Hq) as (Hwf & Hs & Hc). pose proof (contents_length _ Hwf) as H. rewrite Hc in H.
  pose proof (in_bytes_length F) as H'. unfold ring_room. lia.
Qed.

(** the card takes a descriptor *)
Lemma take_ids x P' :
  late = 0 → P = x :: P' → queue_ids q (u16 (taken + 1)) last 0 F P' (D ++ [x]) U.
Proof.
  intros -> ->. destruct Hq as [Hs Hl Hr [Ha Hw] Hu Hi Hp]. split; try done.
  - split.
    + rewrite Ha. rewrite Z.sub_0_r, Z.sub_0_r, u16_u16. f_equal. cbn [length]. lia.
    + apply window_u16; [lia|apply Hs|]. by eapply window_tail.
  - split; [apply Z.mod_pos_bound; lia|]. split; [apply Hi|lia].
  - rewrite <-Hp. solve_Permutation.
Qed.

(** the card has used a descriptor *)
Definition with_used (q : virtqueue) (u : virt_used_elem) : virtqueue :=
  mk_vq (queue_size q) (last_used_idx q) (vq_desc q) (avail_flags q) (avail_idx q) (avail_ring q) (used_flags q) (u16 (used_idx q + 1))
    (<[Z.to_nat (used_idx q `mod` queue_size q) := u]> (used_ring q)) (free_desc_ring q) (opaque q).

Lemma complete_ids x l D' :
  D ≡ₚ x :: D' → queue_ids (with_used q (mk_used x l)) taken last late F P D' (U ++ [mk_used x l]).
Proof.
  intros HD. pose proof queue_count as Hcount. destruct Hq as [Hs Hl Hr Ha [Hu Hw] Hi Hp]. split; try done; cbn [with_used queue_size vq_desc avail_ring used_ring opaque used_idx].
  - rewrite length_insert. done.
  - split.
    + rewrite Hu, u16_u16, length_app. cbn [length]. f_equal. lia.
    + pose proof (Permutation_length HD) as Hlen. cbn [length] in Hlen.
      replace (used_idx q `mod` queue_size q) with ((last + lenZ U) `mod` queue_size q).
      * apply window_snoc; [lia|lia|lia|done].
      * rewrite Hu, <-(Z.add_0_r (u16 _)), u16_mod by (lia || apply Hs). f_equal. lia.
  - rewrite fmap_app, HD in *. cbn [fmap list_fmap id]. rewrite <-Hp. solve_Permutation.
Qed.
End queue.


(** ** Sending into a queue *)

Lemma low_bytes_value f : 0 ≤ f < 65536 → int_of_bytes (low_bytes f ++ [0; 0]) = f ∧ low_bytes f = [f `mod` 256; f / 256].
Proof.
  intros Hf. unfold low_bytes. cbn [app int_of_bytes]. assert ((f / 256) `mod` 256 = f / 256) as -> by (apply Z.mod_small; lia).
  split; [|done]. pose proof (Z_div_mod_eq_full f 256). rewrite i32_small by lia. lia.
Qed.

Section send.
Context {q : virtqueue} {taken last late : Z} {F P D : list Z} {U : list virt_used_elem}.

Lemma read_free f :
  queue_ids q taken last late (f :: F) P D U →
  ∃ r, read_ring [0; 0; 0; 0] 2 (free_desc_ring q) = Ok ((2, low_bytes f ++ [0; 0]), r) ∧ ring_wf r ∧
    ring_size r = ring_size (free_desc_ring q) ∧ contents r = in_bytes F.
Proof.
  intros Hq. destruct (free_ring_length Hq) as [Hlen _]. destruct (qi_ring _ _ _ _ _ _ _ _ Hq) as (Hwf & _ & Hc).
  destruct (read_loop_ok [0; 0; 0; 0] 2 0 _ Hwf) as (ptr & r & E & Hwf' & Hs & Hc' & ->); [lia|cbn; lia|].
  cbn [length] in Hlen. rewrite Z.min_l in E, Hc' by lia. exists r. rewrite Hc in *. split_and!; try done.
Qed.

(** one buffer *)
Definition with_buffer (q : virtqueue) (r : Ring.ring) (f slot o : Z) (d : virtq_desc) : virtqueue :=
  set_buffers (<[Z.to_nat f := o]> (opaque q)) (<[Z.to_nat f := mk_desc (addr d) (len d) (dflags d) 0]> (vq_desc q))
    (<[Z.to_nat slot := u16 f]> (avail_ring q)) (lset free_desc_l r q).

Lemma send_step f d o ds os :
  queue_ids q taken last late (f :: F) P D U →
  ∃ r slot, send_loop (d :: ds) (o :: os) late q = send_loop ds os (late + 1) (with_buffer q r f slot o d) ∧
    queue_ids (with_buffer q r f slot o d) taken last (late + 1) F (P ++ [f]) D U.
Proof.
  intros Hq. destruct (read_free f Hq) as (r & Er & Hwf & Hrs & Hc). pose proof (queue_count Hq) as Hcount. cbn [length] in Hcount.
  pose proof (queue_id_range Hq f ltac:(by left)) as Hf. pose proof (free_ring_length Hq) as [Hlen _]. cbn [length] in Hlen.
  destruct Hq as [[Hs Hdiv] (L1 & L2 & L3 & L4) (Hwf0 & Hr & Hc0) [Ha Hw] Hu (Hi1 & Hi2 & Hi3) Hp].
  destruct (low_bytes_value f) as [Hv _]; [lia|].
  set (slot := (taken + lenZ P) `mod` queue_size q). exists r, slot.
  assert (0 ≤ slot < queue_size q) as Hslot by (apply Z.mod_pos_bound; lia).
  assert (0 ≤ avail_idx q < 65536) as Hav by (rewrite Ha; apply Z.mod_pos_bound; lia).
  split.
  - cbn [send_loop]. rewrite (bind_ok (zoom free_desc_l ring_empty) _ q false q).
    2: { unfold ring_empty. rewrite (zoom_ok free_desc_l _ q false (free_desc_ring q)); [by destruct q|]. unfold gets. cbn [free_desc_l lget]. do 2 f_equal.
         apply Z.eqb_neq. intros E. unfold ring_len in Hlen. rewrite E, Z.sub_diag, Z.mod_0_l in Hlen; lia. }
    cbv iota. rewrite (bind_ok _ _ q _ _ (zoom_ok free_desc_l _ q _ _ Er)). cbv iota beta. change (2 =? 2) with true. mstep.
    rewrite Hv. mstep. cbn [lset free_desc_l queue_size opaque vq_desc avail_ring avail_idx].
    rewrite (proj2 (Z.ltb_lt f (queue_size q))), (proj2 (Z.leb_le 0 f)) by lia. cbn [andb]. mstep.
    rewrite !array_set_ok by lia. rewrite (bind_ok (deref (Some _)) _ _ _ _ eq_refl), (bind_ok (deref (Some _)) _ _ _ _ eq_refl).
    rewrite (bind_ok (crem (avail_idx q + late) (queue_size q)) _ _ slot (lset free_desc_l r q)).
    2: { rewrite crem_ok by lia. do 2 f_equal. unfold slot. rewrite Ha, u16_mod by (lia || done). f_equal. lia. }
    rewrite array_set_ok by lia. rewrite (bind_ok (deref (Some _)) _ _ _ _ eq_refl). mstep. done.
  - split; cbn [with_buffer set_buffers lset free_desc_l queue_size vq_desc avail_ring used_ring opaque avail_idx used_idx free_desc_ring].
    + done.
    + rewrite !length_insert. done.
    + split_and!; [done|congruence|done].
    + split; [rewrite Ha, length_app; cbn [length]; f_equal; lia|]. assert (u16 f = f) as -> by (apply Z.mod_small; lia).
      apply window_snoc; [lia|lia|lia|done].
    + done.
    + split_and!; lia.
    + rewrite <-Hp. solve_Permutation.
Qed.
End send.


(** ** The packets in a queue *)
Section packets.
Variables (K : packet → Prop) (flags : Z).

(** a descriptor for the payload of packet [p] *)
Definition describes (pk : gmap Z packet) (d : virtq_desc) (p : Z) : Prop :=
  ∃ r, pk !! p = Some r ∧ K r ∧ d = mk_desc (u32 (packet_paddr r + payload_offset r)) (payload_length r) flags 0.
(** descriptor [i] of the queue is filled with packet [p] *)
Definition filled (pk : gmap Z packet) (q : virtqueue) (i p : Z) : Prop :=
  0 ≤ i ∧ opaque q !! Z.to_nat i = Some p ∧ ∃ d, vq_desc q !! Z.to_nat i = Some d ∧ describes pk d p.

Lemma filled_other pk q r f slot o d i p : filled pk q i p → 0 ≤ f → i ≠ f → filled pk (with_buffer q r f slot o d) i p.
Proof.
  intros (Hi & Ho & d' & Hd & Hr) Hf Hne. split; [done|]. cbn [with_buffer set_buffers opaque vq_desc].
  rewrite !list_lookup_insert_ne by lia. eauto.
Qed.

Lemma filled_others pk q r f slot o d (ids ps : list Z) :
  Forall2 (filled pk q) ids ps → 0 ≤ f → f ∉ ids → Forall2 (filled pk (with_buffer q r f slot o d)) ids ps.
Proof.
  intros HF Hf Hn. induction HF as [|i p ids ps Hi HF IH]; constructor.
  - apply filled_other; [done|done|set_solver].
  - apply IH. set_solver.
Qed.

Lemma filled_same_queue pk q q' i p : opaque q' = opaque q → vq_desc q' = vq_desc q → filled pk q i p → filled pk q' i p.
Proof. intros E1 E2. unfold filled. by rewrite E1, E2. Qed.

Lemma filled_packets pk pk' q (ids ps : list Z) :
  (∀ p, p ∈ ps → pk' !! p = pk !! p) → Forall2 (filled pk q) ids ps → Forall2 (filled pk' q) ids ps.
Proof.
  intros Hpk HF. induction HF as [|i p ids ps Hi HF IH]; constructor.
  - destruct Hi as (H0 & Ho & d & Hd & r & Hr & H). split; [done|]. split; [done|]. exists d. split; [done|]. exists r.
    by rewrite Hpk by (by left).
  - apply IH. intros p' Hp'. apply Hpk. by right.
Qed.

(** ** Sending several buffers *)
Record sent (pk : gmap Z packet) (q q' : virtqueue) (taken last late : Z) (F P D : list Z) (U : list virt_used_elem) (new : list Z) : Prop := {
  sn_ids : queue_ids q' taken last (late + lenZ new) (drop (length new) F) (P ++ take (length new) F) D U;
  sn_new : Forall2 (filled pk q') (take (length new) F) new;
  sn_old : ∀ ids ps, Forall2 (filled pk q) ids ps → (∀ i, i ∈ ids → i ∉ F) → Forall2 (filled pk q') ids ps;
  sn_rest : queue_size q' = queue_size q ∧ last_used_idx q' = last_used_idx q ∧ avail_flags q' = avail_flags q ∧ avail_idx q' = avail_idx q ∧
    used_flags q' = used_flags q }.

Lemma send_loop_ok pk descs pkts q taken last late F P D U :
  queue_ids q taken last late F P D U → Forall2 (describes pk) descs pkts →
  ∃ q', let new := take (length F) pkts in send_loop descs pkts late q = Ok (late + lenZ new, q') ∧ sent pk q q' taken last late F P D U new.
Proof.
  intros Hq HF. revert q late F P Hq. induction HF as [|d p descs pkts Hd HF IH]; intros q late F P Hq.
  { exists q. rewrite take_nil. cbn [send_loop length]. rewrite Z.add_0_r. split; [done|].
    split; cbn [length]; rewrite ?Z.add_0_r, ?drop_0, ?take_0, ?app_nil_r; try done. }
  destruct F as [|f F].
  { exists q. cbn [take length]. rewrite Z.add_0_r. split.
    - cbn [send_loop]. rewrite (bind_ok (zoom free_desc_l ring_empty) _ q true q); [done|].
      unfold ring_empty. rewrite (zoom_ok free_desc_l _ q true (free_desc_ring q)); [by destruct q|]. unfold gets. cbn [free_desc_l lget]. do 2 f_equal.
      apply Z.eqb_eq. destruct (free_ring_length Hq) as [Hlen _]. destruct (qi_ring _ _ _ _ _ _ _ _ Hq) as ([? ? ? _] & _). cbn [length] in Hlen.
      unfold ring_len in Hlen. apply (mod_apart (ring_size (free_desc_ring q))); [lia| |lia].
      rewrite (Z.mod_small (front _)), (Z.mod_small (rear _)) by lia. destruct (Z.eq_dec (front (free_desc_ring q)) (rear (free_desc_ring q))); [done|].
      rewrite mod_cases_neg in Hlen by lia. case_match; lia.
    - split; cbn [length take drop]; rewrite ?Z.add_0_r, ?app_nil_r; try done. }
  destruct (send_step f d p descs pkts Hq) as (r & slot & E & Hq'). pose proof (queue_nodup Hq) as Hnd.
  pose proof (queue_id_range Hq f ltac:(by left)) as Hf. destruct (qi_lengths _ _ _ _ _ _ _ _ Hq) as (L1 & _ & _ & L4).
  destruct (IH _ _ _ _ Hq') as (q' & E' & [S1 S2 S3 S4]). exists q'. cbn [length take] in *. cbv zeta.
  rewrite E, E'. split; [do 2 f_equal; lia|].
  assert (f ∉ F) as HfF by (cbn [app] in Hnd; apply NoDup_cons in Hnd as [Hnf _]; set_solver).
  split; cbn [length take drop].
  - rewrite <-app_assoc in S1. replace (late + Z.of_nat (S (length (take (length F) pkts)))) with (late + 1 + lenZ (take (length F) pkts)) by lia. exact S1.
  - constructor; [|exact S2]. assert (Forall2 (filled pk (with_buffer q r f slot p d)) [f] [p]) as H1.
    { constructor; [|constructor]. split; [lia|]. cbn [with_buffer set_buffers opaque vq_desc].
      split; [apply list_lookup_insert_eq; cbn; lia|]. eexists. split; [apply list_lookup_insert_eq; cbn; lia|].
      destruct Hd as (rr & Hr & HK & ->). exists rr. done. }
    apply S3 in H1; [by inversion H1|]. set_solver.
  - intros ids ps His Hn. apply S3; [|set_solver]. apply filled_others; [done|lia|]. intros Hin. apply (Hn f Hin). by left.
  - exact S4.
Qed.
End packets.


(** ** What a queue holds *)

(** the packets the card has not taken yet, those it works on and those it is
    done with, with the lengths it has written *)
Record aqueue := mk_aq { pend : list Z; hold : list Z; finished : list (Z * Z) }.
Definition members (a : aqueue) : list Z := pend a ++ hold a ++ (finished a).*1.

(** the card: how many descriptors it has taken, and those it works on *)
Record card := mk_card { taken : Z; holding : list Z }.

Section rep.
Variables (K : packet → Prop) (flags : Z).

Definition queue_rep (pk : gmap Z packet) (q : virtqueue) (c : card) (a : aqueue) : Prop :=
  ∃ F P U, queue_ids q (taken c) (last_used_idx q) 0 F P (holding c) U ∧
    Forall2 (filled K flags pk q) P (pend a) ∧ Forall2 (filled K flags pk q) (holding c) (hold a) ∧
    Forall2 (filled K flags pk q) (id <$> U) (finished a).*1 ∧ ulen <$> U = (finished a).*2.

(** descriptors left *)
Definition room (q : virtqueue) (a : aqueue) : Z := queue_size q - lenZ (members a).

Lemma queue_rep_packets pk pk' q c a :
  (∀ p, p ∈ members a → pk' !! p = pk !! p) → queue_rep pk q c a → queue_rep pk' q c a.
Proof.
  unfold members. intros Hpk (F & P & U & Hq & H1 & H2 & H3 & H4). exists F, P, U.
  split_and!; [done| | | |done]; (eapply filled_packets; [|eassumption]); intros p Hp; apply Hpk; rewrite !elem_of_app; auto.
Qed.

Lemma room_free pk q c a F P U :
  queue_ids q (taken c) (last_used_idx q) 0 F P (holding c) U → Forall2 (filled K flags pk q) P (pend a) →
  Forall2 (filled K flags pk q) (holding c) (hold a) → Forall2 (filled K flags pk q) (id <$> U) (finished a).*1 → lenZ F = room q a.
Proof.
  intros Hq H1 H2 H3. pose proof (queue_count Hq). apply Forall2_length in H1, H2, H3. rewrite length_fmap in H3.
  unfold room, members. rewrite !length_app. lia.
Qed.

Lemma rep_room pk q c a : queue_rep pk q c a → 0 ≤ room q a ≤ 32768.
Proof.
  intros (F & P & U & Hq & H1 & H2 & H3 & _). rewrite <-(room_free pk q c a F P U) by done.
  pose proof (queue_count Hq). pose proof (qi_size _ _ _ _ _ _ _ _ Hq). lia.
Qed.

(** sending *)
Definition send_queue (new : list Z) (a : aqueue) : aqueue := mk_aq (pend a ++ new) (hold a) (finished a).

Lemma queue_send pk q c a descs pkts :
  queue_rep pk q c a → Forall2 (describes K flags pk) descs pkts →
  ∃ q', let new := take (Z.to_nat (room q a)) pkts in
    send_loop descs pkts 0 q = Ok (lenZ new, q') ∧ used_flags q' = used_flags q ∧ queue_size q' = queue_size q ∧
    queue_rep pk (set_avail_idx (u16 (avail_idx q' + lenZ new)) q') c (send_queue new a).
Proof.
  intros (F & P & U & Hq & H1 & H2 & H3 & H4) HF. destruct (send_loop_ok K flags pk descs pkts q _ _ _ _ _ _ _ Hq HF) as (q' & E & [S1 S2 S3 S4]).
  pose proof (room_free pk q c a F P U Hq H1 H2 H3) as Hroom. exists q'. cbv zeta. rewrite <-Hroom, Nat2Z.id in *.
  set (new := take (length F) pkts) in *. split; [exact E|]. destruct S4 as (E1 & E2 & E3 & E4 & E5). split; [done|]. split; [done|].
  pose proof (queue_nodup Hq) as Hnd. apply NoDup_app in Hnd as (_ & Hdis & _).
  assert (∀ ids ps, Forall2 (filled K flags pk q) ids ps → (∀ i, i ∈ ids → i ∈ P ++ holding c ++ (id <$> U)) → Forall2 (filled K flags pk q') ids ps) as Hold.
  { intros ids ps Hids Hin. apply S3; [done|]. intros i Hi HiF. apply (Hdis i HiF). by apply Hin. }
  exists (drop (length new) F), (P ++ take (length new) F), U. cbn [set_avail_idx last_used_idx pend hold finished send_queue].
  split; [|split_and!].
  - destruct S1 as [T1 T2 T3 [T4 T4'] T5 T6 T7]. rewrite E2. split; cbn [set_avail_idx queue_size vq_desc avail_ring used_ring opaque avail_idx used_idx free_desc_ring]; try done.
    + split; [|done]. rewrite T4, u16_u16. f_equal. lia.
    + split_and!; try apply T6; lia.
  - apply Forall2_app; [apply Hold; [done|]; intros; rewrite !elem_of_app; auto|done].
  - apply Hold; [done|]. intros; rewrite !elem_of_app; auto.
  - apply Hold; [done|]. intros; rewrite !elem_of_app; auto.
  - done.
Qed.
End rep.

(** ** The driver's operations on queues *)
Definition with_queue (s : netst) (i : Z) (q : virtqueue) : netst :=
  mk_net (<[Z.to_nat i := q]> (virtqueues s)) (mtu s) (npool s) (notified s) (receivers s).
Definition with_pool (s : netst) (p : pool_state) : netst := mk_net (virtqueues s) (mtu s) p (notified s) (receivers s).
Definition queue_at (s : netst) (i : Z) (q : virtqueue) : Prop := 0 ≤ i < 3 ∧ virtqueues s !! Z.to_nat i = Some q.

Lemma on_queue_ok {A} s i q (m : M virtqueue A) a q' :
  queue_at s i q → m q = Ok (a, q') → on_queue i m s = Ok (a, with_queue s i q').
Proof. intros [Hi Hq] E. unfold on_queue. rewrite (array_get_ok _ _ q) by (done || lia). by rewrite E. Qed.

Lemma with_queue_same s i q : queue_at s i q → with_queue s i q = s.
Proof. intros [Hi Hq]. unfold with_queue. rewrite list_insert_id by done. by destruct s. Qed.

Lemma on_queue_gets {A B} s i q (f : virtqueue → A) (k : A → M netst B) :
  queue_at s i q → mbind k (on_queue i (gets f)) s = k (f q) s.
Proof. intros Hq. apply bind_ok. rewrite (on_queue_ok s i q _ (f q) q Hq eq_refl). by rewrite with_queue_same. Qed.

Lemma queue_at_with s i q q' : queue_at s i q → queue_at (with_queue s i q') i q'.
Proof. intros [Hi Hq]. split; [done|]. apply list_lookup_insert_eq. by eapply lookup_lt_Some. Qed.

Lemma with_queue_twice s i q q' : with_queue (with_queue s i q) i q' = with_queue s i q'.
Proof. unfold with_queue. cbn. by rewrite list_insert_insert_eq. Qed.

Definition notify (b : bool) (i : Z) (s : netst) : netst :=
  mk_net (virtqueues s) (mtu s) (npool s) (notified s ++ (if b then [i] else [])) (receivers s).

Lemma raw_send_ok K flags s i q c a descs pkts :
  queue_at s i q → queue_rep K flags (packets (npool s)) q c a → Forall2 (describes K flags (packets (npool s))) descs pkts →
  ∃ q' b, let new := take (Z.to_nat (room q a)) pkts in
    virtio_net_device_raw_send i descs pkts s = Ok (lenZ new, notify b i (with_queue s i q')) ∧ queue_size q' = queue_size q ∧
    queue_rep K flags (packets (npool s)) q' c (send_queue new a).
Proof.
  intros Hat Hrep HF. destruct (queue_send K flags _ q c a descs pkts Hrep HF) as (q' & E & Ef & Es & Hrep'). cbv zeta in *.
  exists (set_avail_idx (u16 (avail_idx q' + lenZ (take (Z.to_nat (room q a)) pkts))) q'), (! Z.land (used_flags q) VIRTQ_USED_F_NO_NOTIFY).
  split; [|done]. unfold virtio_net_device_raw_send, valid_queue, MAX_VIRTIO_NET_VQ_PAIRS.
  rewrite (proj2 (Z.ltb_lt i (1 * 2 + 1))) by (destruct Hat; lia). mstep.
  rewrite (bind_ok _ _ _ _ _ (on_queue_ok s i q _ _ _ Hat E)).
  pose proof (queue_at_with s i q q' Hat) as Hat'. rewrite (bind_ok _ _ _ _ _ (on_queue_ok _ i q' (modify _) () _ Hat' eq_refl)), with_queue_twice.
  erewrite on_queue_gets by (eapply queue_at_with; exact Hat). cbn [set_avail_idx used_flags]. rewrite Ef.
  destruct (! Z.land (used_flags q) VIRTQ_USED_F_NO_NOTIFY); unfold notify.
  - mstep. mstep. done.
  - mstep. cbn. by rewrite app_nil_r.
Qed.


(** ** Receiving *)

(** the part of a packet the driver leaves alone when it notes the length *)
Definition same_payload (r r' : packet) : Prop :=
  packet_paddr r' = packet_paddr r ∧ payload_offset r' = payload_offset r ∧ payload_length r' = payload_length r.
Definition noted (l : Z) (r : packet) : packet := set_pkt (u32 (packet_paddr r + payload_offset r)) (u16 l) r.

(** the packets [l] have been received; with [b] their lengths are noted *)
Record received (b : bool) (l : list (Z * Z)) (pk pk' : gmap Z packet) : Prop := {
  re_other : ∀ p, p ∉ l.*1 → pk' !! p = pk !! p;
  re_kept : ∀ p r, pk !! p = Some r → ∃ r', pk' !! p = Some r' ∧ same_payload r r';
  re_dom : ∀ p, is_Some (pk' !! p) → is_Some (pk !! p);
  re_noted : b = true → NoDup l.*1 → ∀ p n, (p, n) ∈ l → ∃ r', pk' !! p = Some r' ∧ pkt_len r' = u16 n }.

Lemma received_nil b pk : received b [] pk pk.
Proof. split; [done| |done|]. { intros p r Hp. by exists r. } intros _ _ p n Hn. by apply not_elem_of_nil in Hn. Qed.

Lemma received_cons b p n r l pk pk' :
  pk !! p = Some r → received b l (<[p := if b then noted n r else r]> pk) pk' → received b ((p, n) :: l) pk pk'.
Proof.
  intros Hp [R1 R2 R3 R4]. assert (same_payload r (if b then noted n r else r)) as Hs by (by destruct b). split; cbn [fmap list_fmap fst].
  - intros p' [Hne Hn]%not_elem_of_cons. rewrite R1 by done. by apply lookup_insert_ne.
  - intros p' r' Hp'. destruct (decide (p' = p)) as [->|Hne].
    + destruct (R2 p (if b then noted n r else r)) as (r2 & H1 & H2); [apply lookup_insert_eq|]. rewrite Hp in Hp'. injection Hp' as <-.
      exists r2. split; [done|]. unfold same_payload in *. intuition congruence.
    + apply R2. by rewrite lookup_insert_ne.
  - intros p' Hp'. apply R3 in Hp'. destruct (decide (p' = p)) as [->|Hne]; [by eexists|]. by rewrite lookup_insert_ne in Hp'.
  - intros -> [Hn Hnd]%NoDup_cons p' n' [[= -> ->]|Hin]%elem_of_cons; [|by apply R4].
    exists (noted n r). rewrite R1 by done. split; [apply lookup_insert_eq|done].
Qed.

Section receive.
Variables (K : packet → Prop) (flags : Z).
Hypothesis K_payload : ∀ r r', same_payload r r' → K r → K r'.

Lemma describes_received b l pk pk' d p : received b l pk pk' → describes K flags pk d p → describes K flags pk' d p.
Proof.
  intros HR (r & Hr & HK & ->). destruct (re_kept _ _ _ _ HR p r Hr) as (r' & Hr' & Hs). exists r'. split; [done|]. split; [by eapply K_payload|].
  destruct Hs as (-> & -> & ->). done.
Qed.

Lemma filled_received b l pk pk' q ids ps :
  received b l pk pk' → Forall2 (filled K flags pk q) ids ps → Forall2 (filled K flags pk' q) ids ps.
Proof.
  intros HR HF. eapply Forall2_impl; [exact HF|]. intros i p (H0 & H1 & d & H2 & H3). split_and!; [done|done|]. exists d. split; [done|].
  by eapply describes_received.
Qed.

(** the number of a used descriptor is free again *)
Lemma write_free q tk last F P D u U :
  queue_ids q tk last 0 F P D (u :: U) →
  ∃ r, write_ring (low_bytes (id u)) 2 (free_desc_ring q) = Ok (2, r) ∧ ∀ x,
    queue_ids (set_last_used_idx x (lset free_desc_l r q)) tk (u16 (last + 1)) 0 (F ++ [id u]) P D U.
Proof.
  intros Hq. pose proof (queue_count Hq) as Hcount. cbn [length] in Hcount. destruct (free_ring_length Hq) as [_ Hroom].
  destruct Hq as [Hs HL (Hwf & Hr & Hc) Ha [Hu Hw] Hi Hp].
  destruct (write_loop_ok (low_bytes (id u)) 2 0 _ Hwf) as (r & E & Hwf' & Hs' & Hc'); [lia|cbn; lia|].
  rewrite Z.min_l in E, Hc' by lia. exists r. split; [exact E|]. intros x.
  split; cbn [set_last_used_idx lset free_desc_l queue_size vq_desc avail_ring used_ring opaque avail_idx used_idx free_desc_ring]; try done.
  - split_and!; [done|congruence|]. rewrite Hc', Hc. unfold in_bytes. rewrite bind_app. f_equal.
  - split.
    + rewrite Hu, u16_u16. cbn [length]. f_equal. lia.
    + apply window_u16; [lia|apply Hs|]. by eapply window_tail.
  - split_and!; [apply Hi..|apply Z.mod_pos_bound; lia|apply Z.mod_pos_bound; lia|lia].
  - rewrite <-Hp. cbn [fmap list_fmap]. solve_Permutation.
Qed.

Definition setup (b : bool) : option (Z → virtq_desc → virt_used_elem → M netst ()) :=
  if b then Some __virtio_net_device_packet_setup else None.

Lemma setup_ok b s p d u r :
  packets (npool s) !! p = Some r → d = mk_desc (u32 (packet_paddr r + payload_offset r)) (payload_length r) flags 0 →
  (b = true → 0 ≤ ulen u ≤ payload_length r) →
  match setup b with Some f => f p d u | None => mret () end s =
    Ok ((), with_pool s (put_in (npool s) p (if b then noted (ulen u) r else r))).
Proof.
  intros Hp -> Hl. destruct b; cbn [setup].
  - specialize (Hl eq_refl). unfold __virtio_net_device_packet_setup. cbn [addr].
    assert (u32 (u32 (packet_paddr r + payload_offset r)) = u32 (packet_paddr r + payload_offset r)) as -> by (apply Zmod_mod).
    rewrite (bind_ok _ _ s () _ (zoom_ok npool_l _ s () _ (update_packet_ok _ _ _ _ Hp))).
    rewrite (bind_ok (zoom npool_l (load_packet p)) _ _ (noted (ulen u) r) (with_pool s (put_in (npool s) p (noted (ulen u) r)))).
    2: { erewrite zoom_ok; [|unfold load_packet; erewrite zoom_ok by (apply load_ok, lookup_insert_eq); reflexivity]. reflexivity. }
    cbn [noted set_pkt pkt_paddr packet_paddr payload_offset pkt_len payload_length]. rewrite Z.eqb_refl. mstep.
    rewrite ASSERT_true; [done|]. apply Z.leb_le. unfold u16. etransitivity; [apply Z.mod_le|]; lia.
  - rewrite put_in_same by done. by destruct s.
Qed.

(** the queue afterwards *)
Record taken_out (q q' : virtqueue) : Prop := {
  to_size : queue_size q' = queue_size q;
  to_opaque : opaque q' = opaque q;
  to_desc : vq_desc q' = vq_desc q;
  to_last : last_used_idx q' = last_used_idx q }.

Lemma receive_loop_ok b n s i q tk last F P D U ps cap :
  queue_at s i q → queue_ids q tk last 0 F P D U → Forall2 (filled K flags (packets (npool s)) q) (id <$> U) ps →
  (b = true → (∀ r, K r → payload_length r = cap) ∧ Forall (λ u, 0 ≤ ulen u ≤ cap) U) →
  ∃ q' pool', receive_loop i (setup b) n last s =
      Ok ((take n ps, u16 (last + lenZ (take n ps))), with_queue (with_pool s pool') i q') ∧
    queue_ids q' tk (u16 (last + lenZ (take n ps))) 0 (F ++ (id <$> take n U)) P D (drop n U) ∧ taken_out q q' ∧
    received b (zip (take n ps) (ulen <$> take n U)) (packets (npool s)) (packets pool') ∧
    packet_pool_head pool' = packet_pool_head (npool s) ∧ ppaging pool' = ppaging (npool s).
Proof.
  revert s q last F U ps. induction n as [|n IH]; intros s q last F U ps Hat Hq HF Hb.
  { exists q, (npool s). cbn [receive_loop take drop zip_with fmap list_fmap length]. rewrite Z.add_0_r, app_nil_r.
    destruct (qi_index _ _ _ _ _ _ _ _ Hq) as (_ & Hl & _). assert (u16 last = last) as -> by (apply Z.mod_small; lia).
    split_and!; try done; [|apply received_nil]. rewrite <-(with_queue_same s i q Hat) at 1. by destruct s. }
  cbn [receive_loop]. rewrite (on_queue_gets s i q (λ q, q)) by done. destruct (qi_index _ _ _ _ _ _ _ _ Hq) as (_ & Hl & _).
  destruct (qi_size _ _ _ _ _ _ _ _ Hq) as [Hs Hdiv]. destruct (qi_used _ _ _ _ _ _ _ _ Hq) as [Hui Hw].
  destruct (qi_lengths _ _ _ _ _ _ _ _ Hq) as (L1 & _ & L3 & L4). pose proof (queue_count Hq) as Hcount.
  destruct U as [|u U].
  { apply Forall2_nil_inv_l in HF as ->. exists q, (npool s). cbn [take drop zip_with fmap list_fmap length] in *. rewrite Z.add_0_r in *. rewrite app_nil_r.
    assert (u16 last = last) as E by (apply Z.mod_small; lia). rewrite E in *. rewrite Hui, Z.eqb_refl.
    split_and!; try done; [|apply received_nil]. rewrite <-(with_queue_same s i q Hat) at 1. by destruct s. }
  destruct ps as [|p ps]; [by apply Forall2_nil_inv_r in HF|]. apply Forall2_cons in HF as [Hf HF]. cbn [length] in Hcount, Hui.
  rewrite (proj2 (Z.eqb_neq last (used_idx q))).
  2: { rewrite Hui. unfold u16. intros E. assert ((last + 0) `mod` 65536 = (last + Z.of_nat (S (length U))) `mod` 65536) as E' by (rewrite Z.add_0_r, <-E; apply Z.mod_small; lia).
       apply mod_apart in E'; lia. }
  destruct Hf as (Hid & Ho & d & Hd & r & Hr & HK & Ed). pose proof (queue_id_range Hq (id u)) as Hrange.
  rewrite fmap_cons in Hrange. specialize (Hrange ltac:(set_solver)).
  assert (0 ≤ last `mod` queue_size q < queue_size q) as Hslot by (apply Z.mod_pos_bound; lia).
  rewrite (bind_ok (crem last (queue_size q)) _ _ (last `mod` queue_size q) s) by (rewrite crem_ok by lia; done).
  rewrite (array_get_ok _ _ u); [|by eapply window_head|lia]. rewrite (bind_ok (deref (Some u)) _ _ u _ eq_refl).
  rewrite (proj2 (Z.ltb_lt (id u) (queue_size q))) by lia. mstep.
  rewrite (array_get_ok _ _ d) by (done || lia). rewrite (bind_ok (deref (Some d)) _ _ d _ eq_refl).
  rewrite (array_get_ok _ _ p) by (done || lia). rewrite (bind_ok (deref (Some p)) _ _ p _ eq_refl).
  erewrite (bind_ok (match setup b with Some _ => _ | None => _ end)).
  2: { apply (setup_ok b s p d u r Hr Ed). intros Eb. destruct (Hb Eb) as [Hcap Hl']. apply Forall_cons in Hl' as [Hl' _]. by rewrite (Hcap r HK). }
  set (r' := if b then noted (ulen u) r else r). set (s1 := with_pool s (put_in (npool s) p r')).
  destruct (write_free q tk last F P D u U Hq) as (rr & Ew & Hq'). specialize (Hq' (last_used_idx q)).
  set (q1 := lset free_desc_l rr q). assert (set_last_used_idx (last_used_idx q) q1 = q1) as E1 by done. fold q1 in Hq'. rewrite E1 in Hq'.
  assert (queue_at s1 i q) as Hat1 by exact Hat.
  rewrite (bind_ok _ _ _ _ _ (on_queue_ok s1 i q _ _ _ Hat1 (zoom_ok free_desc_l _ q _ _ Ew))). change (2 =? 2) with true. mstep. fold q1.
  destruct (IH (with_queue s1 i q1) q1 (u16 (last + 1)) (F ++ [id u]) U ps) as (q' & pool' & E & Hids & Ht & HR & Hh & Hpg).
  - by eapply queue_at_with.
  - exact Hq'.
  - cbn [npool with_queue with_pool s1]. eapply (Forall2_impl (filled K flags (packets (npool s)) q)); [exact HF|].
    intros j pj (Hj0 & Hj1 & dj & Hj2 & Hj3). split_and!; [done|exact Hj1|]. exists dj. split; [exact Hj2|].
    eapply (describes_received b [(p, ulen u)]); [|exact Hj3]. eapply received_cons; [exact Hr|]. apply received_nil.
  - intros Eb. destruct (Hb Eb) as [Hcap Hl']. split; [done|]. by apply Forall_cons in Hl' as [_ ?].
  - rewrite (bind_ok _ _ _ _ _ E). exists q', pool'. cbn [take drop zip_with fmap list_fmap length] in *.
    rewrite !u16_u16 in *. replace (last + 1 + lenZ (take n ps)) with (last + Z.of_nat (S (length (take n ps)))) in * by lia.
    split_and!; [| | | |done|done].
    + mstep. do 2 f_equal. unfold with_queue, with_pool. cbn. by rewrite list_insert_insert_eq.
    + by rewrite <-app_assoc in Hids.
    + destruct Ht as [T1 T2 T3 T4]. by split.
    + eapply received_cons; [exact Hr|]. exact HR.
Qed.
End receive.


Definition receive_queue (n : nat) (a : aqueue) : aqueue := mk_aq (pend a) (hold a) (drop n (finished a)).

Lemma zip_fst_snd_take {A B} n (l : list (A * B)) : zip (take n l.*1) (take n l.*2) = take n l.
Proof. revert n. induction l as [|[x y] l IH]; intros [|n]; cbn; try done. by rewrite IH. Qed.

Section raw_receive.
Variables (K : packet → Prop) (flags : Z).
Hypothesis K_payload : ∀ r r', same_payload r r' → K r → K r'.

Lemma raw_receive_ok b s i q c a n cap :
  queue_at s i q → queue_rep K flags (packets (npool s)) q c a → 0 ≤ n →
  (b = true → (∀ r, K r → payload_length r = cap) ∧ Forall (λ x, 0 ≤ x.2 ≤ cap) (finished a)) →
  ∃ q' pool', virtio_net_device_raw_receive i n (setup b) s =
      Ok (take (Z.to_nat n) (finished a).*1, with_queue (with_pool s pool') i q') ∧ queue_size q' = queue_size q ∧
    queue_rep K flags (packets pool') q' c (receive_queue (Z.to_nat n) a) ∧
    received b (take (Z.to_nat n) (finished a)) (packets (npool s)) (packets pool') ∧
    packet_pool_head pool' = packet_pool_head (npool s) ∧ ppaging pool' = ppaging (npool s).
Proof.
  intros Hat (F & P & U & Hq & H1 & H2 & H3 & H4) Hn Hb. set (k := Z.to_nat n).
  destruct (receive_loop_ok K flags K_payload b k s i q _ _ _ _ _ _ _ cap Hat Hq H3) as (q' & pool' & E & Hids & [T1 T2 T3 T4] & HR & Hh & Hp).
  { intros Eb. destruct (Hb Eb) as [Hcap Hl]. split; [done|]. rewrite Forall_forall in Hl. apply Forall_forall. intros u Hu.
    assert (ulen u ∈ (finished a).*2) as Hin by (rewrite <-H4; by apply list_elem_of_fmap_2).
    apply list_elem_of_fmap in Hin as (x & -> & Hx). by apply Hl. }
  set (L := u16 (last_used_idx q + lenZ (take k (finished a).*1))) in *.
  exists (set_last_used_idx L q'), pool'. split_and!; [|done| | |done|done].
  - unfold virtio_net_device_raw_receive. rewrite (on_queue_gets s i q last_used_idx) by done. fold k. rewrite (bind_ok _ _ _ _ _ E).
    cbv beta iota. erewrite (bind_ok (on_queue i (modify _))).
    2: { eapply on_queue_ok; [|reflexivity]. exact (queue_at_with (with_pool s pool') i q q' Hat). }
    rewrite with_queue_twice. done.
  - exists (F ++ (id <$> take k U)), P, (drop k U). cbn [set_last_used_idx last_used_idx pend hold finished receive_queue].
    assert (∀ ids ps, Forall2 (filled K flags (packets (npool s)) q) ids ps → Forall2 (filled K flags (packets pool') (set_last_used_idx L q')) ids ps) as Hf.
    { intros ids ps Hids'. eapply (filled_received K flags K_payload) in Hids'; [|exact HR]. eapply Forall2_impl; [exact Hids'|].
      intros j pj. apply filled_same_queue; cbn; congruence. }
    split_and!.
    + by destruct Hids.
    + by apply Hf.
    + by apply Hf.
    + rewrite !fmap_drop. by apply Hf, Forall2_drop.
    + by rewrite !fmap_drop, H4.
  - rewrite fmap_take, H4, zip_fst_snd_take in HR. exact HR.
Qed.
End raw_receive.

(** ** A new queue *)

Lemma size_round a : 0 ≤ a < 4294963200 → VIRTIO_SIZE_ROUND a = PAGE_SIZE * ((a + 4095) / PAGE_SIZE).
Proof.
  intros H. unfold VIRTIO_SIZE_ROUND, PAGE_MASK, PAGE_SIZE. cbn [Z.sub Z.opp Z.add Z.pos_sub]. rewrite (u32_small (a + _)) by (cbn; lia).
  change (Z.lnot (4096 - 1)) with (Z.lnot (Z.ones 12)). rewrite <-Z.ldiff_land, Z.ldiff_ones_r by lia.
  rewrite Z.shiftr_div_pow2, Z.shiftl_mul_pow2 by lia. change (2 ^ 12) with 4096. change (4096 - 1) with 4095.
  pose proof (Z_div_mod_eq_full (a + 4095) 4096). pose proof (Z.mod_pos_bound (a + 4095) 4096). rewrite u32_small; lia.
Qed.

(** the three areas of a queue follow each other and fit in its pages *)
Lemma layout_ok n :
  0 < n ≤ 32768 → let l := layout_of n in
  size_virt_desc l = 16 * n ∧ avail_offset l = 16 * n ∧ avail_offset l + 2 * n + 6 ≤ used_offset l ∧
  used_offset l + 8 * n + 6 ≤ size_virtq l ∧ (PAGE_SIZE | used_offset l) ∧ size_virtq l = VIRTIO_SIZE_ROUND (size_virtq l) ∧
  0 < size_virtq l < 2 ^ 21.
Proof.
  intros Hn l. unfold l, layout_of. cbn [size_virt_desc avail_offset used_offset size_virtq].
  rewrite (u32_small (16 * n)), (u32_small (n + 3)), (u32_small (2 * (n + 3))), (u32_small (8 * n + 2 * 3)), (u32_small (16 * n + 2 * (n + 3))) by lia.
  rewrite (size_round (16 * n + 2 * (n + 3))), (size_round (8 * n + 2 * 3)) by lia. unfold PAGE_SIZE.
  set (x := (16 * n + 2 * (n + 3) + 4095) / 4096). set (y := (8 * n + 2 * 3 + 4095) / 4096).
  assert (4096 * x ≤ 16 * n + 2 * (n + 3) + 4095 < 4096 * x + 4096 ∧ 4096 * y ≤ 8 * n + 2 * 3 + 4095 < 4096 * y + 4096) as [Hx Hy].
  { unfold x, y. pose proof (Z_div_mod_eq_full (16 * n + 2 * (n + 3) + 4095) 4096). pose proof (Z.mod_pos_bound (16 * n + 2 * (n + 3) + 4095) 4096).
    pose proof (Z_div_mod_eq_full (8 * n + 2 * 3 + 4095) 4096). pose proof (Z.mod_pos_bound (8 * n + 2 * 3 + 4095) 4096). lia. }
  clearbody x y. rewrite (u32_small (4096 * x + 4096 * y)) by lia. rewrite size_round by lia. unfold PAGE_SIZE.
  replace (4096 * x + 4096 * y + 4095) with (4095 + (x + y) * 4096) by lia. rewrite Z.div_add by lia. change (4095 / 4096) with 0.
  split_and!; try lia. by exists x; lia.
Qed.

Lemma low_high f : 0 ≤ f < 65536 → [LOW_BYTE f; HIGH_BYTE f] = low_bytes f.
Proof.
  intros H. unfold LOW_BYTE, HIGH_BYTE, low_bytes. change 0xff with (Z.ones 8). rewrite !Z.land_ones, Z.shiftr_div_pow2 by lia.
  change (2 ^ 8) with 256. unfold u8. by rewrite !Z.mod_mod by lia.
Qed.

Lemma room_after r r' l :
  ring_wf r → ring_wf r' → ring_size r' = ring_size r → contents r' = contents r ++ l → ring_room r' = ring_room r - lenZ l.
Proof.
  intros Hwf Hwf' Hs Hc. pose proof (contents_length _ Hwf) as H. pose proof (contents_length _ Hwf') as H'.
  rewrite Hc, length_app in H'. unfold ring_room. lia.
Qed.

Lemma fill_free_ring_ok n r idx F :
  ring_wf r → contents r = in_bytes F → 2 * Z.of_nat n ≤ ring_room r → 0 ≤ idx → idx + Z.of_nat n ≤ 65536 →
  ∃ r', fill_free_ring n idx r = Ok ((), r') ∧ ring_wf r' ∧ ring_size r' = ring_size r ∧ contents r' = in_bytes (F ++ seqZ idx (Z.of_nat n)).
Proof.
  revert r idx F. induction n as [|n IH]; intros r idx F Hwf Hc Hr Hi Hn.
  { exists r. rewrite seqZ_nil, app_nil_r by lia. done. }
  cbn [fill_free_ring]. unfold ring_enqueue, write_ring.
  destruct (write_loop_ok [LOW_BYTE idx] 1 0 r Hwf) as (r1 & E1 & Hwf1 & Hs1 & Hc1); [lia|cbn; lia|].
  rewrite Z.min_l in E1, Hc1 by lia. change (Z.to_nat 1) with 1%nat.
  assert (ring_room r1 = ring_room r - 1) as Hr1 by (by apply (room_after r r1 [LOW_BYTE idx])).
  destruct (write_loop_ok [HIGH_BYTE idx] 1 0 r1 Hwf1) as (r2 & E2 & Hwf2 & Hs2 & Hc2); [lia|cbn; lia|].
  rewrite Z.min_l in E2, Hc2 by lia.
  assert (ring_room r2 = ring_room r1 - 1) as Hr2 by (by apply (room_after r1 r2 [HIGH_BYTE idx])).
  rewrite (bind_ok _ _ _ _ _ E1). change (ctrue (0 + Z.of_nat 1)) with true. mstep. rewrite (bind_ok _ _ _ _ _ E2). change (ctrue (0 + Z.of_nat 1)) with true. mstep.
  destruct (IH r2 (idx + 1) (F ++ [idx]) Hwf2) as (r3 & E3 & Hwf3 & Hs3 & Hc3); [|lia..|].
  { rewrite Hc2, Hc1, Hc. unfold in_bytes. rewrite bind_app, bind_cons. cbn [mbind list_bind]. rewrite <-low_high by lia.
    cbn. by rewrite <-app_assoc. }
  exists r3. split_and!; [done|done|congruence|]. rewrite Hc3, <-app_assoc. f_equal. f_equal. rewrite (seqZ_cons idx) by lia. cbn. do 2 f_equal; lia.
Qed.

(** the empty queue of a card that has not started *)
Definition no_packets : aqueue := mk_aq [] [] [].
Definition idle_card : card := mk_card 0 [].

Lemma new_queue_ok n mem :
  0 < n ≤ 32768 → (n | 65536) → lenZ (buffer mem) = 2 * n + 1 →
  ∃ q, new_queue n mem = Ok q ∧ queue_size q = n ∧ contents (free_desc_ring q) = in_bytes (seqZ 0 n) ∧
    ∀ K flags pk, queue_rep K flags pk q idle_card no_packets.
Proof.
  intros Hn Hd Hm. unfold new_queue. set (r := mk_ring (n * 2 + 1) 0 0 (buffer mem)).
  assert (ring_wf r) as Hwf by (split; cbn; lia).
  assert (ring_len r = 0) as Hl by (unfold ring_len; cbn; by rewrite Z.mod_0_l by lia).
  destruct (fill_free_ring_ok (Z.to_nat n) r 0 [] Hwf) as (r' & E & Hwf' & Hs & Hc); [|unfold ring_room; rewrite Hl; cbn; lia|lia|lia|].
  { unfold contents. by rewrite Hl. }
  change ((ring_reset ;; fill_free_ring (Z.to_nat n) 0) (mk_ring (n * 2 + 1) (front mem) (rear mem) (buffer mem))) with (fill_free_ring (Z.to_nat n) 0 r).
  rewrite E. eexists. split; [reflexivity|]. split; [done|]. split; [cbn; by rewrite Hc, Z2Nat.id by lia|]. intros K flags pk. exists (seqZ 0 n), [], []. cbn [taken holding idle_card pend hold finished no_packets].
  split_and!; [|constructor..|done]. split; cbn [queue_size vq_desc avail_ring used_ring opaque free_desc_ring avail_idx used_idx last_used_idx].
  - done.
  - rewrite !length_replicate. lia.
  - split_and!; [done|rewrite Hs; cbn; lia|]. rewrite Hc, Z2Nat.id by lia. done.
  - split; [done|]. intros i x Hi. by rewrite lookup_nil in Hi.
  - split; [done|]. intros i x Hi. by rewrite lookup_nil in Hi.
  - lia.
  - cbn. by rewrite app_nil_r.
Qed.

(** C37. Setting up a queue of a power of two of descriptors: the descriptor
    table, the ring of available and the ring of used descriptors lie one after
    the other inside the pages allocated for the queue, the last on a page
    boundary, without any of the size computations wrapping around; every
    descriptor is put into the ring of free descriptors, whatever memory that
    ring was given, and the queue obtained is a well-formed queue without
    packets. *)
Theorem queue_setup_ready n mem :
  0 < n ≤ 32768 → (n | 65536) → lenZ (buffer mem) = 2 * n + 1 → let l := layout_of n in
  (16 * n ≤ avail_offset l ∧ avail_offset l + 2 * n + 6 ≤ used_offset l ∧ used_offset l + 8 * n + 6 ≤ size_virtq l ∧
   (PAGE_SIZE | used_offset l) ∧ size_virtq l = VIRTIO_SIZE_ROUND (size_virtq l)) ∧
  ∃ q, new_queue n mem = Ok q ∧ queue_size q = n ∧ contents (free_desc_ring q) = in_bytes (seqZ 0 n) ∧
    ∀ K flags pk, queue_rep K flags pk q idle_card no_packets.
Proof.
  intros Hn Hd Hm l. destruct (layout_ok n Hn) as (_ & H1 & H2 & H3 & H4 & H5 & _). fold l in H1, H2, H3, H4, H5. split; [split_and!; [lia|done..]|].
  destruct (new_queue_ok n mem Hn Hd Hm) as (q & E & Hq). by exists q.
Qed.

(** ** Examples *)
Module QueueExample.
Lemma queue_setup_ready_witness :
  let l := layout_of 256 in let mem := mk_ring 0 3 5 (replicate 513 0xff) in
  (16 * 256 ≤ avail_offset l ∧ avail_offset l + 2 * 256 + 6 ≤ used_offset l ∧ used_offset l + 8 * 256 + 6 ≤ size_virtq l ∧
   (PAGE_SIZE | used_offset l) ∧ size_virtq l = VIRTIO_SIZE_ROUND (size_virtq l)) ∧
  ∃ q, new_queue 256 mem = Ok q ∧ queue_size q = 256 ∧ contents (free_desc_ring q) = in_bytes (seqZ 0 256) ∧
    ∀ K flags pk, queue_rep K flags pk q idle_card no_packets.
Proof. apply (queue_setup_ready 256 (mk_ring 0 3 5 (replicate 513 0xff))); [lia|by exists 256|reflexivity]. Defined.
End QueueExample.
