(* ===== verification/NetDriver.v ===== *)
(** * The driver of the network card and the card: network/virtio_net.c, network/ethernet_rx.c

    The operations of VirtioNet against queues of packets: every packet is in
    the pool, in one of the two queues or in the hands of a caller of the
    driver.  [step] interleaves calls of the driver, interrupts and the steps of
    the card; [a_step] does the same on the queues of packets. *)

From Stdlib Require Import ZifyNat.
From stdpp Require Import gmap list.
From S2P Require Import Prelude Ring PageAlloc Paging Packet VirtioNet.
Open Scope Z_scope.
Open Scope zelda_scope.

(** ** The whole driver *)

(** packets in the pool, in the receive queue, in the transmit queue and owned by callers of the driver *)
Record anet := mk_an { apool : list Z; arx : aqueue; atx : aqueue; aown : list Z }.
Definition places (a : anet) : list Z := apool a ++ aown a ++ members (arx a) ++ members (atx a).

Definition rx_packet (mtu : Z) (r : packet) : Prop := payload_length r = mtu + VIRTIO_NET_HDR_SIZE.
Definition tx_packet (r : packet) : Prop := True.

Definition rx_ok (r : rx_state) : Prop := 0 ≤ ifaceid r < MAX_NR_ETHERNET_DEVCIES ∧ lenZ (eth_dev_rx_mask r) = MAX_NR_ETHERNET_DEVCIES.

(** the state of the driver with the two cards' ends of the queues of [n0] and [n1] descriptors *)
Record net_rep (m n0 n1 : Z) (s : netst) (c0 c1 : card) (a : anet) : Prop := {
  nr_queues : ∃ q0 q1 q2, virtqueues s = [q0; q1; q2] ∧ queue_size q0 = n0 ∧ queue_size q1 = n1 ∧
    queue_rep (rx_packet m) VIRTQ_DESC_F_WRITE (packets (npool s)) q0 c0 (arx a) ∧
    queue_rep tx_packet 0 (packets (npool s)) q1 c1 (atx a);
  nr_pool : packet_pool_head (npool s) = apool a;
  nr_lengths : Forall (λ x, 0 ≤ x.2 ≤ m + VIRTIO_NET_HDR_SIZE) (finished (arx a));
  nr_mtu : mtu s = m ∧ 0 ≤ m ≤ 1880;
  nr_rx : rx_ok (receivers s);
  nr_dir : dir_ok (ppaging (npool s)) (kernel_page_directory (ppaging (npool s)));
  nr_places : NoDup (places a);
  nr_known : ∀ p, p ∈ places a → p ≠ NULL ∧ is_Some (packets (npool s) !! p) }.

Lemma rx_payload mtu r r' : same_payload r r' → rx_packet mtu r → rx_packet mtu r'.
Proof. intros (_ & _ & E). unfold rx_packet. by rewrite E. Qed.
Lemma tx_payload r r' : same_payload r r' → tx_packet r → tx_packet r'.
Proof. done. Qed.

(** *** Packets from the pool *)

(** [pk'] is [pk] except for the packets [l], which have the records [f] *)
Definition renewed (l : list Z) (f : Z → packet → packet) (pk pk' : gmap Z packet) : Prop :=
  ∀ p, pk' !! p = if bool_decide (p ∈ l) then f p <$> pk !! p else pk !! p.

Lemma get_packets_ok n s :
  dir_ok (ppaging (npool s)) (kernel_page_directory (ppaging (npool s))) → NoDup (packet_pool_head (npool s)) →
  (∀ p, p ∈ packet_pool_head (npool s) → p ≠ NULL ∧ is_Some (packets (npool s) !! p)) →
  ∃ pk', let new := take n (packet_pool_head (npool s)) in
    get_packets n s = Ok (new, with_pool s (mk_pool pk' (drop n (packet_pool_head (npool s))) (ppaging (npool s)))) ∧
    renewed new (λ p, fresh_packet (npool s) p) (packets (npool s)) pk'.
Proof.
  revert s. induction n as [|n IH]; intros s Hd Hnd Hk.
  { exists (packets (npool s)). cbn [get_packets take drop]. split; [by destruct s as [? ? [] ? ?]|]. intros p. by rewrite bool_decide_eq_false_2 by apply not_elem_of_nil. }
  cbn [get_packets]. destruct (packet_pool_head (npool s)) as [|p l] eqn:El.
  { exists (packets (npool s)). cbn [take drop]. rewrite (bind_ok (zoom npool_l get_packet) _ s NULL s).
    2: { rewrite (zoom_ok npool_l _ s NULL (npool s)); [by destruct s|]. by apply get_packet_none. }
    change (! NULL) with true. cbv iota. split; [rewrite <-El; by destruct s as [? ? [] ? ?]|]. intros p. by rewrite bool_decide_eq_false_2 by apply not_elem_of_nil. }
  destruct (Hk p ltac:(by left)) as [Hp0 [r Hr]]. apply NoDup_cons in Hnd as [Hpn Hnd].
  rewrite (bind_ok _ _ _ _ _ (zoom_ok npool_l _ s _ _ (get_packet_ok (npool s) p l r Hd El Hr))).
  rewrite (proj2 (ctrue_true p) Hp0). cbn [negb].
  set (s1 := lset npool_l (put_in (lset pool_l l (npool s)) p (fresh_packet (npool s) p r)) s).
  destruct (IH s1) as (pk' & E & HR); [done|done| |].
  { intros p' Hp'. destruct (Hk p' ltac:(by right)) as [H0 H1]. split; [done|]. cbn. rewrite lookup_insert_ne; [done|]. intros ->. done. }
  exists pk'. cbn [take drop]. cbv zeta in *. rewrite (bind_ok _ _ _ _ _ E). split; [done|]. intros p'. rewrite (HR p'). cbn.
  destruct (decide (p' = p)) as [->|Hne].
  - rewrite (bool_decide_eq_false_2 (p ∈ take n l)), (bool_decide_eq_true_2 (p ∈ p :: take n l)).
    + by rewrite lookup_insert_eq, Hr.
    + by left.
    + intros Hin. apply Hpn. rewrite <-(take_drop n l). apply elem_of_app. by left.
  - rewrite lookup_insert_ne by done. destruct (decide (p' ∈ take n l)) as [Hin|Hin].
    + rewrite !bool_decide_eq_true_2; [done|by right|done].
    + rewrite !bool_decide_eq_false_2; [done|set_solver|done].
Qed.

(** *** Receive buffers *)
Definition rx_ready (s : netst) (p : Z) (r : packet) : packet :=
  set_payload INITIAL_HEADER_ROOM_SIZE (mtu s + VIRTIO_NET_HDR_SIZE) r.

Lemma receive_buffers_ok pkts s :
  0 ≤ mtu s ≤ 1880 → NoDup pkts →
  (∀ p, p ∈ pkts → ∃ r, packets (npool s) !! p = Some r ∧ payload_offset r = INITIAL_HEADER_ROOM_SIZE ∧ payload_length r = 0) →
  ∃ descs pk', receive_buffers pkts s = Ok (descs, with_pool s (mk_pool pk' (packet_pool_head (npool s)) (ppaging (npool s)))) ∧
    renewed pkts (rx_ready s) (packets (npool s)) pk' ∧ Forall2 (describes (rx_packet (mtu s)) VIRTQ_DESC_F_WRITE pk') descs pkts.
Proof.
  revert s. induction pkts as [|p pkts IH]; intros s Hm Hnd Hk.
  { exists [], (packets (npool s)). split_and!; [by destruct s as [? ? [] ? ?]| |constructor]. intros p. by rewrite bool_decide_eq_false_2 by apply not_elem_of_nil. }
  apply NoDup_cons in Hnd as [Hpn Hnd]. destruct (Hk p ltac:(by left)) as (r & Hr & Ho & Hl). cbn [receive_buffers]. mstep.
  set (n := mtu s + VIRTIO_NET_HDR_SIZE). unfold VIRTIO_NET_HDR_SIZE in n.
  destruct (run_payload_ok ExtendRight n (npool s) p r Hr) as [E _].
  { unfold packet_ok. rewrite Ho, Hl. by vm_compute. }
  { lia. }
  { done. }
  cbn [run_payload payload_room payload_after] in E. rewrite Ho, Hl in E. change (INITIAL_HEADER_ROOM_SIZE + 0) with 156 in E. change (NET_PACKET_TOTAL_SIZE - 156) with 1892 in E.
  rewrite (proj2 (Z.leb_le n 1892)) in E by lia. rewrite Z.add_0_l in E.
  set (r1 := set_payload INITIAL_HEADER_ROOM_SIZE n r) in *.
  rewrite (bind_ok _ _ _ _ _ (zoom_ok npool_l _ s _ _ E)). change (! OK) with true. mstep.
  set (s1 := lset npool_l (put_in (npool s) p r1) s).
  rewrite (bind_ok (zoom npool_l (load_packet p)) _ s1 r1 s1).
  2: { rewrite (zoom_ok npool_l _ s1 r1 (npool s1)); [done|]. unfold load_packet. by erewrite zoom_ok by (apply load_ok, lookup_insert_eq). }
  destruct (IH s1) as (descs & pk' & E' & HR & HF); [done|done| |].
  { intros p' Hp'. destruct (Hk p' ltac:(by right)) as (r' & Hr' & H). exists r'. split; [|done]. cbn. rewrite lookup_insert_ne; [done|]. intros ->. done. }
  eexists (_ :: descs), pk'. rewrite (bind_ok _ _ _ _ _ E'). split_and!; [done| |].
  - intros p'. rewrite (HR p'). cbn. destruct (decide (p' = p)) as [->|Hne].
    + rewrite (bool_decide_eq_false_2 _ Hpn), bool_decide_eq_true_2 by (by left). by rewrite lookup_insert_eq, Hr.
    + rewrite lookup_insert_ne by done. destruct (decide (p' ∈ pkts)); [rewrite !bool_decide_eq_true_2|rewrite !bool_decide_eq_false_2]; set_solver.
  - constructor; [|done]. exists r1. split_and!; [|done|done]. rewrite (HR p), (bool_decide_eq_false_2 _ Hpn). cbn. apply lookup_insert_eq.
Qed.


(** *** Supplying the receive queue *)
Definition a_room (n : Z) (a : aqueue) : Z := n - lenZ (members a).
Definition supply_count (n0 : Z) (a : anet) : nat :=
  Z.to_nat (Z.min ONESHORT_PACKET_LENGTH (Z.min (a_room n0 (arx a)) (lenZ (apool a)))).
Definition a_supply (n0 : Z) (a : anet) : anet :=
  let k := supply_count n0 a in mk_an (drop k (apool a)) (send_queue (take k (apool a)) (arx a)) (atx a) (aown a).

Lemma renewed_known l f pk pk' p : renewed l f pk pk' → is_Some (pk !! p) → is_Some (pk' !! p).
Proof. intros HR [r Hr]. rewrite (HR p). case_bool_decide; rewrite Hr; by eexists. Qed.
Lemma renewed_other l f pk pk' p : renewed l f pk pk' → p ∉ l → pk' !! p = pk !! p.
Proof. intros HR Hp. by rewrite (HR p), bool_decide_eq_false_2. Qed.

(** a state with the same queues and pool but for what is given *)
Lemma net_rep_intro m n0 n1 s c0 c1 a q0 q1 q2 :
  virtqueues s = [q0; q1; q2] → queue_size q0 = n0 → queue_size q1 = n1 →
  queue_rep (rx_packet m) VIRTQ_DESC_F_WRITE (packets (npool s)) q0 c0 (arx a) → queue_rep tx_packet 0 (packets (npool s)) q1 c1 (atx a) →
  packet_pool_head (npool s) = apool a → Forall (λ x, 0 ≤ x.2 ≤ m + VIRTIO_NET_HDR_SIZE) (finished (arx a)) → mtu s = m ∧ 0 ≤ m ≤ 1880 → rx_ok (receivers s) →
  dir_ok (ppaging (npool s)) (kernel_page_directory (ppaging (npool s))) → NoDup (places a) →
  (∀ p, p ∈ places a → p ≠ NULL ∧ is_Some (packets (npool s) !! p)) → net_rep m n0 n1 s c0 c1 a.
Proof. intros. split; try done. by exists q0, q1, q2. Qed.

Lemma supply_places n0 a : places (a_supply n0 a) ≡ₚ places a.
Proof.
  unfold a_supply, places, members. cbn [apool arx atx aown send_queue pend hold finished]. set (k := supply_count n0 a).
  rewrite <-(take_drop k (apool a)) at 3. solve_Permutation.
Qed.

Lemma a_supply_none n0 a : supply_count n0 a = 0%nat → a_supply n0 a = a.
Proof. intros E. unfold a_supply. rewrite E. cbn [take drop]. destruct a as [? [] ? ?]. unfold send_queue. cbn. by rewrite app_nil_r. Qed.

(** the packets of a queue are not in the pool *)
Lemma places_apart a p : NoDup (places a) → p ∈ apool a → (p ∉ members (arx a)) ∧ (p ∉ members (atx a)) ∧ p ∉ aown a.
Proof. unfold places. intros Hnd Hp. apply NoDup_app in Hnd as (_ & Hd & _). specialize (Hd p Hp). set_solver. Qed.

(** the packets the driver takes from the pool, as receive buffers *)
Lemma take_buffers_ok n s :
  0 ≤ mtu s ≤ 1880 → dir_ok (ppaging (npool s)) (kernel_page_directory (ppaging (npool s))) → NoDup (packet_pool_head (npool s)) →
  (∀ p, p ∈ packet_pool_head (npool s) → p ≠ NULL ∧ is_Some (packets (npool s) !! p)) →
  let pkts := take n (packet_pool_head (npool s)) in
  ∃ s1 descs s2, get_packets n s = Ok (pkts, s1) ∧ receive_buffers pkts s1 = Ok (descs, s2) ∧
    virtqueues s2 = virtqueues s ∧ mtu s2 = mtu s ∧ receivers s2 = receivers s ∧ ppaging (npool s2) = ppaging (npool s) ∧
    packet_pool_head (npool s2) = drop n (packet_pool_head (npool s)) ∧
    Forall2 (describes (rx_packet (mtu s)) VIRTQ_DESC_F_WRITE (packets (npool s2))) descs pkts ∧
    (∀ p, p ∉ pkts → packets (npool s2) !! p = packets (npool s) !! p) ∧
    (∀ p, is_Some (packets (npool s) !! p) → is_Some (packets (npool s2) !! p)).
Proof.
  intros Hm Hd Hnd Hk pkts. destruct (get_packets_ok n s Hd Hnd Hk) as (pk1 & E1 & R1). fold pkts in E1, R1. cbv zeta in R1.
  set (s1 := with_pool s (mk_pool pk1 (drop n (packet_pool_head (npool s))) (ppaging (npool s)))) in *.
  assert (∀ p, p ∈ pkts → p ∈ packet_pool_head (npool s)) as Hin by (intros p Hp; rewrite <-(take_drop n); apply elem_of_app; by left).
  assert (NoDup pkts) as Hndp by (rewrite <-(take_drop n (packet_pool_head (npool s))) in Hnd; by apply NoDup_app in Hnd as (? & _)).
  destruct (receive_buffers_ok pkts s1 Hm Hndp) as (descs & pk2 & E2 & R2 & HF).
  { intros p Hp. destruct (Hk p (Hin p Hp)) as [_ [r Hr]]. exists (fresh_packet (npool s) p r). split; [|done].
    etransitivity; [exact (R1 p)|]. rewrite bool_decide_eq_true_2 by done. by rewrite Hr. }
  exists s1, descs, (with_pool s1 (mk_pool pk2 (packet_pool_head (npool s1)) (ppaging (npool s1)))).
  split_and!; try done.
  - intros p Hp. cbn [npool with_pool packets]. rewrite (renewed_other _ _ _ _ _ R2 Hp). exact (renewed_other _ _ _ _ _ R1 Hp).
  - intros p Hp. cbn [npool with_pool packets]. eapply renewed_known; [exact R2|]. by eapply renewed_known.
Qed.

Lemma supply_count_take n0 a :
  0 ≤ a_room n0 (arx a) → let n := Z.to_nat (Z.min ONESHORT_PACKET_LENGTH (a_room n0 (arx a))) in
  length (take n (apool a)) = supply_count n0 a ∧ take n (apool a) = take (supply_count n0 a) (apool a) ∧
  drop n (apool a) = drop (supply_count n0 a) (apool a).
Proof.
  intros Hr n. unfold supply_count, ONESHORT_PACKET_LENGTH in *. rewrite length_take. split; [lia|].
  destruct (decide (n ≤ length (apool a))%nat).
  - replace (Z.to_nat (Z.min 64 (Z.min (a_room n0 (arx a)) (lenZ (apool a))))) with n by lia. done.
  - rewrite !take_ge, !drop_ge by lia. done.
Qed.

Lemma supply_ok m n0 n1 s c0 c1 a :
  net_rep m n0 n1 s c0 c1 a →
  ∃ s', virtio_net_dev_supply_packet s = Ok (Z.of_nat (supply_count n0 a), s') ∧ net_rep m n0 n1 s' c0 c1 (a_supply n0 a) ∧
    mtu s' = mtu s ∧ (∀ p, p ∉ apool a → packets (npool s') !! p = packets (npool s) !! p).
Proof.
  intros Hrep. pose proof Hrep as [(q0 & q1 & q2 & Eq & E0 & E1 & R0 & R1) Hpool Hlen [Em Hmtu] Hrx Hdir Hnd Hk]. subst m.
  pose proof (rep_room _ _ _ _ _ _ R0) as Hroom. unfold room in Hroom. rewrite E0 in Hroom. fold (a_room n0 (arx a)) in Hroom.
  assert (queue_at s 0 q0) as Hat by (split; [lia|by rewrite Eq]).
  assert (on_queue 0 (zoom free_desc_l ring_length) s = Ok (2 * a_room n0 (arx a), s)) as El.
  { pose proof R0 as (F & P & U & Hq & H1 & H2 & H3 & _). pose proof (room_free _ _ _ q0 c0 (arx a) F P U Hq H1 H2 H3) as HF.
    unfold room in HF. rewrite E0 in HF. fold (a_room n0 (arx a)) in HF. destruct (qi_ring _ _ _ _ _ _ _ _ Hq) as (Hwf & _).
    destruct (free_ring_length Hq) as [Hrl _]. rewrite HF in Hrl.
    rewrite (on_queue_ok s 0 q0 _ _ _ Hat (zoom_ok free_desc_l _ q0 _ _ (ring_length_ok _ Hwf))), Hrl.
    replace (lset free_desc_l (free_desc_ring q0) q0) with q0 by (by destruct q0). by rewrite with_queue_same. }
  unfold virtio_net_dev_supply_packet. rewrite (bind_ok _ _ _ _ _ El).
  assert (Z.land (2 * a_room n0 (arx a)) 1 = 0) as -> by (change 1 with (Z.ones 1); rewrite Z.land_ones by lia; change (2 ^ 1) with 2; lia).
  assert (Z.shiftr (2 * a_room n0 (arx a)) 1 = a_room n0 (arx a)) as -> by (rewrite Z.shiftr_div_pow2 by lia; change (2 ^ 1) with 2; lia).
  change (! 0) with true. mstep. destruct (supply_count_take n0 a ltac:(lia)) as (Hc1 & Hc2 & Hc3). cbv zeta in Hc1, Hc2, Hc3.
  set (k0 := Z.min ONESHORT_PACKET_LENGTH (a_room n0 (arx a))) in *. rewrite (proj2 (Z.leb_le 0 k0)) by (unfold k0, ONESHORT_PACKET_LENGTH; lia). mstep.
  destruct (decide (supply_count n0 a = 0%nat)) as [Hz|Hz].
  - (* nothing to do *)
    exists s. rewrite a_supply_none by done. rewrite Hz. split; [|done]. destruct (ctrue k0) eqn:Em; [|done]. cbn [negb].
    apply ctrue_true in Em. assert (apool a = []) as Hnil.
    { apply length_zero_iff_nil. unfold supply_count, k0, ONESHORT_PACKET_LENGTH in *. lia. }
    destruct (Z.to_nat k0) as [|k] eqn:Ek; [unfold k0, ONESHORT_PACKET_LENGTH in *; lia|].
    rewrite (bind_ok (get_packets (S k)) _ s [] s); [done|]. cbn [get_packets].
    rewrite (bind_ok (zoom npool_l get_packet) _ s NULL s); [done|].
    rewrite (zoom_ok npool_l _ s NULL (npool s)); [by destruct s|]. apply get_packet_none. by rewrite Hpool.
  - assert (k0 ≠ 0) as Hm0 by (unfold supply_count, k0, ONESHORT_PACKET_LENGTH in *; lia). rewrite (proj2 (ctrue_true k0) Hm0). cbn [negb].
    destruct (take_buffers_ok (Z.to_nat k0) s Hmtu Hdir) as (s1 & descs & s2 & Eg & Eb & V2 & M2 & X2 & G2 & P2 & HF & Hoth & Hkn).
    { rewrite Hpool. by apply NoDup_app in Hnd as (? & _). }
    { rewrite Hpool. intros p Hp. apply Hk. apply elem_of_app. by left. }
    rewrite Hpool in *. rewrite Hc2, Hc3 in *. set (new := take (supply_count n0 a) (apool a)) in *.
    rewrite (bind_ok _ _ _ _ _ Eg), Hc1. rewrite (proj2 (ctrue_true (Z.of_nat (supply_count n0 a)))) by lia. cbn [negb].
    rewrite (bind_ok _ _ _ _ _ Eb).
    assert (∀ p, p ∈ new → p ∈ apool a) as Hin by (intros p Hp; rewrite <-(take_drop (supply_count n0 a)); apply elem_of_app; by left).
    assert (∀ p, p ∈ members (arx a) ∨ p ∈ members (atx a) → packets (npool s2) !! p = packets (npool s) !! p) as Hsame.
    { intros p Hp. apply Hoth. intros Hn. destruct (places_apart a p Hnd (Hin p Hn)) as (? & ? & _). naive_solver. }
    assert (queue_rep (rx_packet (mtu s)) VIRTQ_DESC_F_WRITE (packets (npool s2)) q0 c0 (arx a)) as R0'.
    { eapply queue_rep_packets; [|exact R0]. intros p Hp. apply Hsame. by left. }
    assert (queue_at s2 0 q0) as Hat2 by (split; [lia|by rewrite V2, Eq]).
    destruct (raw_send_ok _ _ s2 0 q0 c0 (arx a) descs new Hat2 R0' HF) as (q' & b & Es & Esz & R0''). cbv zeta in *.
    assert (take (Z.to_nat (room q0 (arx a))) new = new) as Hall.
    { apply take_ge. unfold room. rewrite E0. fold (a_room n0 (arx a)). rewrite Hc1. unfold supply_count. lia. }
    rewrite Hall in *. rewrite (bind_ok _ _ _ _ _ Es), Hc1, Z.eqb_refl. mstep.
    eexists. split; [reflexivity|]. split; [|split; [done|intros p Hp; cbn; rewrite Hoth; [done|intros Hn; by apply Hp, Hin]]].
    apply (net_rep_intro (mtu s) n0 n1 _ c0 c1 (a_supply n0 a) q' q1 q2); cbn [virtqueues mtu npool notify with_queue].
    + by rewrite V2, Eq.
    + congruence.
    + done.
    + exact R0''.
    + eapply queue_rep_packets; [|exact R1]. intros p Hp. apply Hsame. by right.
    + done.
    + done.
    + done.
    + cbn [receivers notify with_queue]. by rewrite X2.
    + by rewrite G2.
    + by rewrite supply_places.
    + intros p. rewrite supply_places. intros Hp. destruct (Hk p Hp). split; [done|by apply Hkn].
Qed.


(** *** The operations *)
Definition a_take_rx (n : nat) (a : anet) : anet :=
  mk_an (apool a) (receive_queue n (arx a)) (atx a) (aown a ++ (take n (finished (arx a))).*1).
Definition a_receive (n0 : Z) (n : nat) (a : anet) : anet := a_supply n0 (a_take_rx n a).
Definition sent_now (n1 : Z) (a : anet) (pkts : list Z) : list Z :=
  take (Z.to_nat (a_room n1 (atx a))) (take (Z.to_nat MAXIMUM_PACKETS_TO_SEND) pkts).
Definition a_transmit (n1 : Z) (pkts : list Z) (a : anet) : anet :=
  let new := sent_now n1 a pkts in mk_an (apool a) (arx a) (send_queue new (atx a)) (filter (λ p, p ∉ new) (aown a)).
Definition a_reclaim (a : anet) : anet :=
  let n := Z.to_nat ONESHOT_RECLAIM_SENT_PACKET_LENGTH in
  mk_an (apool a ++ (take n (finished (atx a))).*1) (arx a) (receive_queue n (atx a)) (aown a).
Definition a_put (pkts : list Z) (a : anet) : anet := mk_an (apool a ++ pkts) (arx a) (atx a) (filter (λ p, p ∉ pkts) (aown a)).

Lemma members_receive n a : members a ≡ₚ members (receive_queue n a) ++ (take n (finished a)).*1.
Proof.
  unfold members, receive_queue. cbn [pend hold finished]. rewrite <-(take_drop n (finished a)) at 1. rewrite fmap_app. solve_Permutation.
Qed.

Lemma take_rx_places n a : places (a_take_rx n a) ≡ₚ places a.
Proof. unfold places. cbn [apool arx atx aown a_take_rx]. rewrite (members_receive n (arx a)). solve_Permutation. Qed.

Lemma reclaim_places a : places (a_reclaim a) ≡ₚ places a.
Proof. unfold places. cbn [apool arx atx aown a_reclaim]. rewrite (members_receive (Z.to_nat ONESHOT_RECLAIM_SENT_PACKET_LENGTH) (atx a)). solve_Permutation. Qed.

Lemma filter_out (own l : list Z) : NoDup own → NoDup l → (∀ p, p ∈ l → p ∈ own) → l ++ filter (λ p, p ∉ l) own ≡ₚ own.
Proof.
  intros Hn Hl Hin. apply NoDup_Permutation; [|done|].
  - apply NoDup_app. split_and!; [done| |by apply NoDup_filter]. intros p Hp [Hf _]%list_elem_of_filter. done.
  - intros p. rewrite elem_of_app, list_elem_of_filter. destruct (decide (p ∈ l)); naive_solver.
Qed.

Lemma own_nodup a : NoDup (places a) → NoDup (aown a).
Proof. unfold places. intros Hnd. apply NoDup_app in Hnd as (_ & _ & Hnd). by apply NoDup_app in Hnd as (? & _). Qed.

Lemma transmit_places n1 pkts a :
  NoDup (places a) → NoDup pkts → (∀ p, p ∈ pkts → p ∈ aown a) → places (a_transmit n1 pkts a) ≡ₚ places a.
Proof.
  intros Hnd Hn Hin. unfold places, a_transmit. cbn [apool arx atx aown]. set (new := sent_now n1 a pkts).
  assert (new ++ filter (λ p, p ∉ new) (aown a) ≡ₚ aown a) as Hp.
  { assert (∀ k (l : list Z), NoDup l → NoDup (take k l) ∧ ∀ p, p ∈ take k l → p ∈ l) as Ht.
    { intros k l Hl. rewrite <-(take_drop k l) in Hl. apply NoDup_app in Hl as (? & _). split; [done|].
      intros p Hp. rewrite <-(take_drop k l). apply elem_of_app. by left. }
    unfold new, sent_now. destruct (Ht (Z.to_nat MAXIMUM_PACKETS_TO_SEND) pkts Hn) as [H1 H2].
    destruct (Ht (Z.to_nat (a_room n1 (atx a))) _ H1) as [H3 H4]. apply filter_out; [by apply own_nodup|done|]. intros p Hp. by apply Hin, H2, H4. }
  rewrite <-Hp at 2. unfold members, send_queue. cbn [pend hold finished]. solve_Permutation.
Qed.

Lemma put_places pkts a : NoDup (places a) → NoDup pkts → (∀ p, p ∈ pkts → p ∈ aown a) → places (a_put pkts a) ≡ₚ places a.
Proof.
  intros Hnd Hn Hin. unfold places, a_put. cbn [apool arx atx aown]. rewrite <-(filter_out (aown a) pkts) at 2; [|by apply own_nodup|done|done].
  solve_Permutation.
Qed.

(** taking finished packets out of the receive queue *)
Lemma take_rx_ok m n0 n1 s c0 c1 a n :
  net_rep m n0 n1 s c0 c1 a → 0 ≤ n → ∃ s', virtio_net_device_raw_receive 0 n (setup true) s = Ok ((take (Z.to_nat n) (finished (arx a))).*1, s') ∧
    net_rep m n0 n1 s' c0 c1 (a_take_rx (Z.to_nat n) a) ∧
    (∀ p l, (p, l) ∈ take (Z.to_nat n) (finished (arx a)) → ∃ r, packets (npool s') !! p = Some r ∧ pkt_len r = l).
Proof.
  intros Hrep Hn. destruct Hrep as [(q0 & q1 & q2 & Eq & E0 & E1 & R0 & R1) Hpool Hlen [Em Hmtu] Hrx Hdir Hnd Hk]. subst m.
  assert (queue_at s 0 q0) as Hat by (split; [lia|by rewrite Eq]).
  destruct (raw_receive_ok _ _ (rx_payload (mtu s)) true s 0 q0 c0 (arx a) n (mtu s + VIRTIO_NET_HDR_SIZE) Hat R0 Hn) as (q' & pool' & E & Es & R0' & HR & Hh & Hp).
  { intros _. split; [done|exact Hlen]. }
  eexists. rewrite fmap_take. split; [exact E|]. split.
  - apply (net_rep_intro (mtu s) n0 n1 _ c0 c1 (a_take_rx (Z.to_nat n) a) q' q1 q2);
      cbn [virtqueues mtu npool with_queue with_pool apool arx atx aown a_take_rx]; try done.
    + by rewrite Eq.
    + congruence.
    + destruct R1 as (F & P & U & Hq & H1 & H2 & H3 & H4). exists F, P, U.
      split_and!; [done| | | |done]; eapply (filled_received _ _ tx_payload); by try exact HR.
    + congruence.
    + cbn [receive_queue finished]. rewrite <-(take_drop (Z.to_nat n) (finished (arx a))) in Hlen. by apply Forall_app in Hlen as [_ ?].
    + by rewrite Hp.
    + by rewrite take_rx_places.
    + intros p. rewrite take_rx_places. intros Hin. destruct (Hk p Hin) as [H0 [r Hr]]. split; [done|].
      destruct (re_kept _ _ _ _ HR p r Hr) as (r' & -> & _). by eexists.
  - intros p l Hin. destruct (re_noted _ _ _ _ HR eq_refl) with p l as (r' & Hr' & Hl); [|done|].
    + assert (NoDup (members (arx a))) as Hm.
      { unfold places in Hnd. apply NoDup_app in Hnd as (_ & _ & Hnd). apply NoDup_app in Hnd as (_ & _ & Hnd). by apply NoDup_app in Hnd as (? & _). }
      rewrite (members_receive (Z.to_nat n)) in Hm. by apply NoDup_app in Hm as (_ & _ & ?).
    + exists r'. split; [done|]. rewrite Hl. apply Z.mod_small. rewrite Forall_forall in Hlen.
      assert ((p, l) ∈ finished (arx a)) as Hin' by (rewrite <-(take_drop (Z.to_nat n)); apply elem_of_app; by left).
      specialize (Hlen _ Hin'). cbn in Hlen. unfold VIRTIO_NET_HDR_SIZE in Hlen. lia.
Qed.
Lemma receive_ok m n0 n1 s c0 c1 a n :
  net_rep m n0 n1 s c0 c1 a → 0 ≤ n →
  ∃ s', virtio_net_dev_receive n s = Ok ((take (Z.to_nat n) (finished (arx a))).*1, s') ∧ net_rep m n0 n1 s' c0 c1 (a_receive n0 (Z.to_nat n) a) ∧
    (∀ p l, (p, l) ∈ take (Z.to_nat n) (finished (arx a)) → ∃ r, packets (npool s') !! p = Some r ∧ pkt_len r = l).
Proof.
  intros Hrep Hn. destruct (take_rx_ok _ _ _ _ _ _ _ n Hrep Hn) as (s1 & E1 & Hrep1 & Hl1). destruct (supply_ok _ _ _ _ _ _ _ Hrep1) as (s2 & E2 & Hrep2 & _ & Hsame).
  exists s2. unfold virtio_net_dev_receive. change (Some __virtio_net_device_packet_setup) with (setup true).
  rewrite (bind_ok _ _ _ _ _ E1), (bind_ok _ _ _ _ _ E2). split_and!; [done|exact Hrep2|]. intros p l Hin. destruct (Hl1 p l Hin) as (r & Hr & Hl).
  exists r. split; [|done]. rewrite Hsame; [done|]. cbn [apool a_take_rx]. intros Hp.
  destruct (places_apart a p (nr_places _ _ _ _ _ _ _ Hrep) Hp) as (Hm & _). apply Hm. rewrite (members_receive (Z.to_nat n)). apply elem_of_app. right.
  apply list_elem_of_fmap. by exists (p, l).
Qed.


Lemma transmit_buffers_ok s pkts :
  (∀ p, p ∈ pkts → is_Some (packets (npool s) !! p)) →
  ∃ descs, transmit_buffers pkts s = Ok (descs, s) ∧ Forall2 (describes tx_packet 0 (packets (npool s))) descs pkts.
Proof.
  induction pkts as [|p pkts IH]; intros Hk; [by exists []; split; [|constructor]|]. destruct (Hk p ltac:(by left)) as [r Hr].
  destruct IH as (descs & E & HF); [intros p' Hp'; apply Hk; by right|]. eexists (_ :: descs). cbn [transmit_buffers].
  rewrite (bind_ok (zoom npool_l (load_packet p)) _ s r s).
  2: { rewrite (zoom_ok npool_l _ s r (npool s)); [by destruct s|]. by apply load_packet_ok. }
  rewrite (bind_ok _ _ _ _ _ E). split; [done|]. constructor; [|done]. by exists r.
Qed.

Lemma transmit_ok m n0 n1 s c0 c1 a pkts :
  net_rep m n0 n1 s c0 c1 a → NoDup pkts → (∀ p, p ∈ pkts → p ∈ aown a) →
  ∃ s', virtio_net_dev_transmit pkts (lenZ pkts) s = Ok (lenZ (sent_now n1 a pkts), s') ∧ net_rep m n0 n1 s' c0 c1 (a_transmit n1 pkts a).
Proof.
  intros Hrep Hn Hin. pose proof Hrep as [(q0 & q1 & q2 & Eq & E0 & E1 & R0 & R1) Hpool Hlen [Em Hmtu] Hrx Hdir Hnd Hk]. subst m.
  assert (queue_at s 1 q1) as Hat by (split; [lia|by rewrite Eq]). unfold virtio_net_dev_transmit.
  assert (take (Z.to_nat (Z.min (lenZ pkts) MAXIMUM_PACKETS_TO_SEND)) pkts = take (Z.to_nat MAXIMUM_PACKETS_TO_SEND) pkts) as ->.
  { unfold MAXIMUM_PACKETS_TO_SEND. destruct (decide (lenZ pkts ≤ 64)); [rewrite !take_ge by lia|f_equal; lia]. done. }
  set (l := take (Z.to_nat MAXIMUM_PACKETS_TO_SEND) pkts).
  destruct (transmit_buffers_ok s l) as (descs & Ed & HF).
  { intros p Hp. apply Hk. unfold places. rewrite !elem_of_app. right. left. apply Hin.
    rewrite <-(take_drop (Z.to_nat MAXIMUM_PACKETS_TO_SEND)). apply elem_of_app. by left. }
  rewrite (bind_ok _ _ _ _ _ Ed). destruct (raw_send_ok _ _ s 1 q1 c1 (atx a) descs l Hat R1 HF) as (q' & b & Es & Esz & R1'). cbv zeta in *.
  assert (take (Z.to_nat (room q1 (atx a))) l = sent_now n1 a pkts) as Hnew by (unfold room, sent_now, a_room; by rewrite E1).
  rewrite Hnew in *. eexists. split; [exact Es|].
  apply (net_rep_intro (mtu s) n0 n1 _ c0 c1 (a_transmit n1 pkts a) q0 q' q2);
    cbn [virtqueues mtu npool with_queue notify apool arx atx aown a_transmit]; try done.
  - by rewrite Eq.
  - congruence.
  - by rewrite transmit_places.
  - intros p. rewrite transmit_places by done. apply Hk.
Qed.

Lemma put_packets_ok pkts s :
  NoDup pkts → (∀ p, p ∈ pkts → p ∉ packet_pool_head (npool s)) →
  put_packets pkts s = Ok ((), with_pool s (mk_pool (packets (npool s)) (packet_pool_head (npool s) ++ pkts) (ppaging (npool s)))).
Proof.
  revert s. induction pkts as [|p pkts IH]; intros s Hnd Hn.
  { cbn [put_packets]. rewrite app_nil_r. by destruct s as [? ? [] ? ?]. }
  apply NoDup_cons in Hnd as [Hp Hnd]. cbn [put_packets].
  rewrite (bind_ok _ _ _ _ _ (zoom_ok npool_l _ s _ _ (put_packet_ok (npool s) p (Hn p ltac:(by left))))).
  rewrite IH; [|done|].
  - cbn. by rewrite <-app_assoc.
  - intros p' Hp'. cbn. rewrite elem_of_app, list_elem_of_singleton. intros [H|E]; [by apply (Hn p' ltac:(by right))|subst; done].
Qed.

Lemma put_back_ok m n0 n1 s c0 c1 a pkts :
  net_rep m n0 n1 s c0 c1 a → NoDup pkts → (∀ p, p ∈ pkts → p ∈ aown a) →
  ∃ s', put_packets pkts s = Ok ((), s') ∧ net_rep m n0 n1 s' c0 c1 (a_put pkts a).
Proof.
  intros Hrep Hn Hin. pose proof Hrep as [(q0 & q1 & q2 & Eq & E0 & E1 & R0 & R1) Hpool Hlen [Em Hmtu] Hrx Hdir Hnd Hk]. subst m.
  eexists. split.
  - apply put_packets_ok; [done|]. intros p Hp. rewrite Hpool. intros Hp'. destruct (places_apart a p Hnd Hp') as (_ & _ & H). apply H. by apply Hin.
  - apply (net_rep_intro (mtu s) n0 n1 _ c0 c1 (a_put pkts a) q0 q1 q2); cbn [virtqueues mtu npool with_pool packets packet_pool_head ppaging apool arx atx aown a_put]; try done.
    + by rewrite Hpool.
    + by rewrite put_places.
    + intros p. rewrite put_places by done. apply Hk.
Qed.

Lemma reclaim_ok m n0 n1 s c0 c1 a :
  net_rep m n0 n1 s c0 c1 a →
  ∃ s', virtio_net_dev_reclaim_sent_packet s = Ok (lenZ (take (Z.to_nat ONESHOT_RECLAIM_SENT_PACKET_LENGTH) (finished (atx a))), s') ∧
    net_rep m n0 n1 s' c0 c1 (a_reclaim a) ∧ receivers s' = receivers s.
Proof.
  intros Hrep. pose proof Hrep as [(q0 & q1 & q2 & Eq & E0 & E1 & R0 & R1) Hpool Hlen [Em Hmtu] Hrx Hdir Hnd Hk]. subst m.
  assert (queue_at s 1 q1) as Hat by (split; [lia|by rewrite Eq]). set (n := ONESHOT_RECLAIM_SENT_PACKET_LENGTH).
  destruct (raw_receive_ok _ _ tx_payload false s 1 q1 c1 (atx a) n 0 Hat R1 ltac:(done) ltac:(done)) as (q' & pool' & E & Es & R1' & HR & Hh & Hp).
  assert (NoDup (take (Z.to_nat n) (finished (atx a))).*1 ∧ ∀ p, p ∈ (take (Z.to_nat n) (finished (atx a))).*1 → p ∈ members (atx a)) as [Hnd' Hmem].
  { split; [|intros p Hp'; rewrite (members_receive (Z.to_nat n)); apply elem_of_app; by right]. assert (NoDup (members (atx a))) as Hm.
    { unfold places in Hnd. apply NoDup_app in Hnd as (_ & _ & Hnd). apply NoDup_app in Hnd as (_ & _ & Hnd). by apply NoDup_app in Hnd as (_ & _ & ?). }
    rewrite (members_receive (Z.to_nat n)) in Hm. by apply NoDup_app in Hm as (_ & _ & ?). }
  unfold virtio_net_dev_reclaim_sent_packet. change None with (setup false). rewrite (bind_ok _ _ _ _ _ E), <-fmap_take.
  erewrite bind_ok.
  2: { apply put_packets_ok; [done|]. cbn [npool with_queue with_pool]. rewrite Hh, Hpool. intros p Hp1 Hp2.
       destruct (places_apart a p Hnd Hp2) as (_ & H & _). by apply H, Hmem. }
  rewrite length_fmap. eexists. split; [reflexivity|]. split; [|done].
  apply (net_rep_intro (mtu s) n0 n1 _ c0 c1 (a_reclaim a) q0 q' q2);
    cbn [virtqueues mtu npool with_queue with_pool packets packet_pool_head ppaging apool arx atx aown a_reclaim]; try done.
  - by rewrite Eq.
  - congruence.
  - destruct R0 as (F & P & U & Hq & H1 & H2 & H3 & H4). exists F, P, U.
    split_and!; [done| | | |done]; eapply (filled_received _ _ (rx_payload (mtu s))); by try exact HR.
  - by rewrite Hh, Hpool.
  - by rewrite Hp.
  - by rewrite reclaim_places.
  - intros p. rewrite reclaim_places. intros Hin. destruct (Hk p Hin) as [H0 [r Hr]]. split; [done|].
    destruct (re_kept _ _ _ _ HR p r Hr) as (r' & -> & _). by eexists.
Qed.


(** ** Driver and card *)

(** the driver, and the card's end of the receive and the transmit queue *)
Record sys := mk_sys { driver : netst; crx : card; ctx : card }.

Inductive event :=
  | CardTakes (rx : bool)
  | CardFinishes (rx : bool) (j : nat) (l : Z)
  | Receive (n : Z)
  | Transmit (pkts : list Z)
  | Reclaim
  | Put (pkts : list Z)
  | Interrupt (isr : Z).
Inductive outcome := Done | Count (n : Z) | Packets (l : list (Z * Z)).

(** the card takes the next descriptor that was made available *)
Definition card_takes (q : virtqueue) (c : card) : option card :=
  if taken c =? avail_idx q then None else
  x ← avail_ring q !! Z.to_nat (taken c `mod` queue_size q);
  Some (mk_card (u16 (taken c + 1)) (holding c ++ [x])).
(** the card returns the [j]-th descriptor it holds, having written [l] bytes *)
Definition card_finishes (q : virtqueue) (c : card) (j : nat) (l : Z) : option (virtqueue * card) :=
  x ← holding c !! j;
  Some (with_used q (mk_used x l), mk_card (taken c) (delete j (holding c))).

(** what the receiver of a packet reads in it *)
Definition length_of (s : netst) (p : Z) : Z := match packets (npool s) !! p with Some r => pkt_len r | None => 0 end.
Definition counted {A} (r : result (A * netst)) (f : A → netst → outcome) (y : sys) : option (outcome * sys) :=
  match r with Ok (x, s) => Some (f x s, mk_sys s (crx y) (ctx y)) | Err _ => None end.

Definition step (y : sys) (e : event) : option (outcome * sys) :=
  match e with
  | CardTakes rx =>
      q ← virtqueues (driver y) !! (if rx then 0%nat else 1%nat);
      c ← card_takes q (if rx then crx y else ctx y);
      Some (Done, if rx then mk_sys (driver y) c (ctx y) else mk_sys (driver y) (crx y) c)
  | CardFinishes rx j l =>
      q ← virtqueues (driver y) !! (if rx then 0%nat else 1%nat);
      qc ← card_finishes q (if rx then crx y else ctx y) j l;
      let s := with_queue (driver y) (if rx then 0 else 1) qc.1 in
      Some (Done, if rx then mk_sys s qc.2 (ctx y) else mk_sys s (crx y) qc.2)
  | Receive n => counted (virtio_net_dev_receive n (driver y)) (λ pkts s, Packets ((λ p, (p, length_of s p)) <$> pkts)) y
  | Transmit pkts => counted (virtio_net_dev_transmit pkts (lenZ pkts) (driver y)) (λ n _, Count n) y
  | Reclaim => counted (virtio_net_dev_reclaim_sent_packet (driver y)) (λ n _, Count n) y
  | Put pkts => counted (put_packets pkts (driver y)) (λ _ _, Done) y
  | Interrupt isr => counted (virtio_device_interrupt_handler isr (driver y)) (λ _ _, Done) y
  end.

(** the same events on queues of packets *)
Definition a_takes (q : aqueue) : option aqueue :=
  match pend q with [] => None | p :: l => Some (mk_aq l (hold q ++ [p]) (finished q)) end.
Definition a_finishes (q : aqueue) (j : nat) (l : Z) : option aqueue :=
  p ← hold q !! j; Some (mk_aq (pend q) (delete j (hold q)) (finished q ++ [(p, l)])).
Definition on_side (rx : bool) (f : aqueue → option aqueue) (a : anet) : option anet :=
  if rx then q ← f (arx a); Some (mk_an (apool a) q (atx a) (aown a)) else q ← f (atx a); Some (mk_an (apool a) (arx a) q (aown a)).
Definition owned (a : anet) (pkts : list Z) : bool := bool_decide (NoDup pkts) && bool_decide (Forall (λ p, p ∈ aown a) pkts).

Definition a_step (m n0 n1 : Z) (a : anet) (e : event) : option (outcome * anet) :=
  match e with
  | CardTakes rx => a ← on_side rx a_takes a; Some (Done, a)
  | CardFinishes rx j l =>
      if (0 <=? l) && (l <=? m + VIRTIO_NET_HDR_SIZE) then a ← on_side rx (λ q, a_finishes q j l) a; Some (Done, a) else None
  | Receive n => if 0 <=? n then Some (Packets (take (Z.to_nat n) (finished (arx a))), a_receive n0 (Z.to_nat n) a) else None
  | Transmit pkts => if owned a pkts then Some (Count (lenZ (sent_now n1 a pkts)), a_transmit n1 pkts a) else None
  | Reclaim => Some (Count (lenZ (take (Z.to_nat ONESHOT_RECLAIM_SENT_PACKET_LENGTH) (finished (atx a)))), a_reclaim a)
  | Put pkts => if owned a pkts then Some (Done, a_put pkts a) else None
  | Interrupt isr => Some (Done, if ctrue isr then a_reclaim a else a)
  end.

Fixpoint run {S} (f : S → event → option (outcome * S)) (y : S) (es : list event) : option (list outcome * S) :=
  match es with
  | [] => Some ([], y)
  | e :: es => '(o, y) ← f y e; '(os, y) ← run f y es; Some (o :: os, y)
  end.

Definition sys_rep (m n0 n1 : Z) (y : sys) (a : anet) : Prop := net_rep m n0 n1 (driver y) (crx y) (ctx y) a.

(** *** The card *)
Lemma queue_takes K flags pk q c a a' :
  queue_rep K flags pk q c a → a_takes a = Some a' → ∃ c', card_takes q c = Some c' ∧ queue_rep K flags pk q c' a'.
Proof.
  intros (F & P & U & Hq & H1 & H2 & H3 & H4). unfold a_takes. destruct (pend a) as [|p l] eqn:Ep; [done|]. intros [= <-].
  inversion H1 as [|x p' P' l' Hx H1']; subst. pose proof (queue_count Hq) as Hcount. cbn [length] in Hcount.
  destruct (qi_avail _ _ _ _ _ _ _ _ Hq) as [Ha Hw]. destruct (qi_index _ _ _ _ _ _ _ _ Hq) as (Hi & _). destruct (qi_size _ _ _ _ _ _ _ _ Hq) as [Hs _].
  eexists. split.
  - unfold card_takes. rewrite (proj2 (Z.eqb_neq (taken c) (avail_idx q))).
    + by rewrite (window_head _ _ _ _ _ Hw).
    + rewrite Ha. unfold u16. cbn [length]. intros E.
      assert ((taken c + 0) `mod` 65536 = (taken c + Z.of_nat (S (length P')) - 0) `mod` 65536) as E' by (rewrite <-E, Z.add_0_r; apply Z.mod_small; lia).
      apply mod_apart in E'; lia.
  - exists F, P', U. cbn [taken holding pend hold finished]. split_and!; [|done| |done|done].
    + by apply (take_ids Hq x P').
    + apply Forall2_app; [done|]. by constructor.
Qed.

Lemma queue_finishes K flags pk q c a a' j l :
  queue_rep K flags pk q c a → a_finishes a j l = Some a' →
  ∃ q' c', card_finishes q c j l = Some (q', c') ∧ queue_size q' = queue_size q ∧ queue_rep K flags pk q' c' a'.
Proof.
  intros (F & P & U & Hq & H1 & H2 & H3 & H4). unfold a_finishes, card_finishes. destruct (hold a !! j) as [p|] eqn:Ep; [|done]. intros [= <-].
  destruct (Forall2_lookup_r _ _ _ _ _ H2 Ep) as (x & Hx & Hf). rewrite Hx. eexists _, _. split; [reflexivity|]. split; [done|].
  assert (∀ ids ps, Forall2 (filled K flags pk q) ids ps → Forall2 (filled K flags pk (with_used q (mk_used x l))) ids ps) as Hold.
  { intros ids ps H. eapply Forall2_impl; [exact H|]. intros i pi. by apply filled_same_queue. }
  exists F, P, (U ++ [mk_used x l]). cbn [taken holding pend hold finished with_used last_used_idx]. split_and!.
  - apply (complete_ids Hq). by apply delete_Permutation.
  - by apply Hold.
  - apply Hold. rewrite !delete_take_drop. apply Forall2_app; [by apply Forall2_take|by apply Forall2_drop].
  - rewrite !fmap_app. apply Hold, Forall2_app; [done|]. constructor; [exact Hf|constructor].
  - rewrite !fmap_app, H4. done.
Qed.

Lemma a_takes_members q q' : a_takes q = Some q' → members q' ≡ₚ members q ∧ finished q' = finished q.
Proof.
  unfold a_takes. destruct (pend q) as [|p l] eqn:E; [done|]. intros [= <-]. unfold members. cbn [pend hold finished]. rewrite E. split; [|done].
  solve_Permutation.
Qed.

Lemma a_finishes_members q q' j l : a_finishes q j l = Some q' → members q' ≡ₚ members q ∧ ∃ p, finished q' = finished q ++ [(p, l)].
Proof.
  unfold a_finishes. destruct (hold q !! j) as [p|] eqn:E; [|done]. intros [= <-]. unfold members. cbn [pend hold finished].
  split; [|by exists p]. rewrite (delete_Permutation _ _ _ E) at 2. rewrite fmap_app. cbn. solve_Permutation.
Qed.

(** the card's side of a step *)
Lemma net_rep_side m n0 n1 s c0 c1 a (rx : bool) q a' c' q' (f : aqueue → option aqueue) :
  net_rep m n0 n1 s c0 c1 a → virtqueues s !! (if rx then 0%nat else 1%nat) = Some q → on_side rx f a = Some a' →
  (∀ b b', f b = Some b' → members b' ≡ₚ members b ∧ (finished b' = finished b ∨ ∃ x, finished b' = finished b ++ [x] ∧ 0 ≤ x.2 ≤ m + VIRTIO_NET_HDR_SIZE)) →
  queue_size q' = queue_size q →
  (∀ K flags pk b b', queue_rep K flags pk q (if rx then c0 else c1) b → f b = Some b' → queue_rep K flags pk q' c' b') →
  net_rep m n0 n1 (with_queue s (if rx then 0 else 1) q') (if rx then c' else c0) (if rx then c1 else c') a'.
Proof.
  intros [(q0 & q1 & q2 & Eq & E0 & E1 & R0 & R1) Hpool Hlen Hm Hrx Hdir Hnd Hk] Hq Hf Hmem Hsz Hrep. unfold on_side in Hf.
  destruct rx; rewrite Eq in Hq; cbn in Hq; injection Hq as <-.
  - destruct (f (arx a)) as [b|] eqn:Eb; [|done]. injection Hf as <-. destruct (Hmem _ _ Eb) as [Hp Hfin].
    assert (places (mk_an (apool a) b (atx a) (aown a)) ≡ₚ places a) as Hpl by (unfold places; cbn; by rewrite Hp).
    apply (net_rep_intro m n0 n1 _ c' c1 _ q' q1 q2); cbn [virtqueues mtu npool with_queue arx atx apool]; try done.
    + by rewrite Eq.
    + congruence.
    + by eapply Hrep.
    + destruct Hfin as [->|(x & -> & Hx)]; [done|]. apply Forall_app. by split; [|constructor].
    + by rewrite Hpl.
    + intros p. rewrite Hpl. apply Hk.
  - destruct (f (atx a)) as [b|] eqn:Eb; [|done]. injection Hf as <-. destruct (Hmem _ _ Eb) as [Hp _].
    assert (places (mk_an (apool a) (arx a) b (aown a)) ≡ₚ places a) as Hpl by (unfold places; cbn; by rewrite Hp).
    apply (net_rep_intro m n0 n1 _ c0 c' _ q0 q' q2); cbn [virtqueues mtu npool with_queue arx atx apool]; try done.
    + by rewrite Eq.
    + congruence.
    + by eapply Hrep.
    + by rewrite Hpl.
    + intros p. rewrite Hpl. apply Hk.
Qed.


Lemma queue_idle K flags pk q c a : queue_rep K flags pk q c a → (last_used_idx q =? used_idx q) = bool_decide (finished a = []).
Proof.
  intros (F & P & U & Hq & H1 & H2 & H3 & H4). pose proof (queue_count Hq). destruct (qi_used _ _ _ _ _ _ _ _ Hq) as [Hu _].
  destruct (qi_index _ _ _ _ _ _ _ _ Hq) as (_ & Hi & _). destruct (qi_size _ _ _ _ _ _ _ _ Hq) as [? _]. rewrite Hu.
  apply Forall2_length in H3. rewrite !length_fmap in H3. destruct (finished a) as [|x l]; cbn [length] in H3.
  - rewrite H3. cbn. apply Z.eqb_eq. unfold u16. rewrite Z.add_0_r. symmetry. apply Z.mod_small. lia.
  - rewrite bool_decide_eq_false_2 by done. apply Z.eqb_neq. unfold u16. intros E.
    assert ((last_used_idx q + 0) `mod` 65536 = (last_used_idx q + lenZ U) `mod` 65536) as E' by (rewrite <-E, Z.add_0_r; apply Z.mod_small; lia).
    apply mod_apart in E'; lia.
Qed.

Lemma a_reclaim_none a : finished (atx a) = [] → a_reclaim a = a.
Proof. intros E. unfold a_reclaim, receive_queue. rewrite E, take_nil, drop_nil. cbn. rewrite app_nil_r, <-E. by destruct a as [? ? [] ?]. Qed.

(** the receivers have this device marked *)
Definition marked (s : netst) : Prop := ∃ v, eth_dev_rx_mask (receivers s) !! Z.to_nat (ifaceid (receivers s)) = Some v ∧ v ≠ 0.

Lemma set_receivers_rep m n0 n1 s c0 c1 a f :
  net_rep m n0 n1 s c0 c1 a → rx_ok (f (receivers s)) → net_rep m n0 n1 (set_receivers f s) c0 c1 a.
Proof. by intros []. Qed.

(** marking the device *)
Lemma netdev_rx_ok m n0 n1 s c0 c1 a :
  net_rep m n0 n1 s c0 c1 a →
  ∃ s', netdev_rx (ifaceid (receivers s)) s = Ok ((), s') ∧ net_rep m n0 n1 s' c0 c1 a ∧ virtqueues s' = virtqueues s ∧ marked s'.
Proof.
  intros Hrep. destruct (nr_rx _ _ _ _ _ _ _ Hrep) as [Hi Hl]. unfold netdev_rx.
  rewrite (proj2 (Z.leb_le 0 _)), (proj2 (Z.ltb_lt _ MAX_NR_ETHERNET_DEVCIES)) by lia. do 2 mstep.
  erewrite bind_ok by (apply deref_ok, array_set_ok; lia). cbn beta. eexists. split; [reflexivity|]. split; [|split; [done|]].
  - apply set_receivers_rep; [done|]. split; [done|]. cbn [eth_dev_rx_mask]. by rewrite length_insert.
  - exists 1. split; [|done]. apply list_lookup_insert_eq. lia.
Qed.

Lemma interrupt_ok m n0 n1 s c0 c1 a isr :
  net_rep m n0 n1 s c0 c1 a →
  ∃ s', virtio_device_interrupt_handler isr s = Ok (OK, s') ∧ net_rep m n0 n1 s' c0 c1 (if ctrue isr then a_reclaim a else a) ∧
    (ctrue isr = true → finished (arx a) ≠ [] → marked s').
Proof.
  intros Hrep. unfold virtio_device_interrupt_handler. destruct (ctrue isr) eqn:Ei; [|by exists s].
  pose proof (nr_queues _ _ _ _ _ _ _ Hrep) as (q0 & q1 & q2 & Eq & E0 & E1 & R0 & R1).
  change (when true ?m) with m. rewrite bind_assoc_run.
  rewrite (on_queue_gets s 0 q0 (λ q, q)) by (split; [lia|by rewrite Eq]). rewrite (queue_idle _ _ _ _ _ _ R0). rewrite bind_assoc_run.
  assert (∃ s1, when (negb (bool_decide (finished (arx a) = []))) (r ← gets receivers; netdev_rx (ifaceid r)) s = Ok ((), s1) ∧ net_rep m n0 n1 s1 c0 c1 a ∧
    virtqueues s1 = virtqueues s ∧ (finished (arx a) ≠ [] → marked s1)) as (s1 & Es1 & Hrep1 & V1 & Hm).
  { case_bool_decide; [by exists s|]. destruct (netdev_rx_ok _ _ _ _ _ _ _ Hrep) as (s1 & E & Hrep1 & V1 & Hm). exists s1.
    change (when (negb false) ?m) with m. mstep. done. }
  rewrite (bind_ok _ _ _ _ _ Es1), bind_assoc_run.
  rewrite (on_queue_gets s1 1 q1 (λ q, q)) by (split; [lia|by rewrite V1, Eq]). rewrite (queue_idle _ _ _ _ _ _ R1).
  destruct (decide (finished (atx a) = [])) as [Hf|Hf]; [rewrite bool_decide_eq_true_2 by done|rewrite bool_decide_eq_false_2 by done].
  - exists s1. change (negb true) with false. mstep. split; [done|]. rewrite a_reclaim_none by done. auto.
  - destruct (reclaim_ok _ _ _ _ _ _ _ Hrep1) as (s2 & E2 & Hrep2 & Er). exists s2. change (when (negb false) ?m) with m. rewrite bind_assoc_run.
    rewrite (bind_ok _ _ _ _ _ E2). split; [done|]. split; [done|]. unfold marked. rewrite Er. auto.
Qed.

Lemma owned_spec a pkts : owned a pkts = true → NoDup pkts ∧ ∀ p, p ∈ pkts → p ∈ aown a.
Proof. unfold owned. rewrite andb_true_iff, !bool_decide_eq_true, Forall_forall. done. Qed.

(** every event does on the driver and the card what it does on the queues of packets *)
Lemma step_ok m n0 n1 y a e o a' :
  sys_rep m n0 n1 y a → a_step m n0 n1 a e = Some (o, a') → ∃ y', step y e = Some (o, y') ∧ sys_rep m n0 n1 y' a'.
Proof.
  unfold sys_rep. intros Hrep. pose proof (nr_queues _ _ _ _ _ _ _ Hrep) as (q0 & q1 & q2 & Eq & E0 & E1 & R0 & R1).
  destruct e as [rx|rx j l|n|pkts| |pkts|isr]; cbn [a_step step].
  - destruct (on_side rx a_takes a) as [b|] eqn:Eb; [|done]. intros [= <- <-].
    assert (∃ q, virtqueues (driver y) !! (if rx then 0%nat else 1%nat) = Some q ∧ queue_at (driver y) (if rx then 0 else 1) q ∧
      ∃ c', card_takes q (if rx then crx y else ctx y) = Some c') as (q & Hq & Hat & c' & Hc).
    { unfold on_side in Eb. destruct rx; [exists q0|exists q1]; unfold queue_at; rewrite Eq; (split; [done|]); (split; [split; [lia|done]|]).
      - destruct (a_takes (arx a)) as [b'|] eqn:E; [|done]. destruct (queue_takes _ _ _ _ _ _ _ R0 E) as (c' & ? & _). by exists c'.
      - destruct (a_takes (atx a)) as [b'|] eqn:E; [|done]. destruct (queue_takes _ _ _ _ _ _ _ R1 E) as (c' & ? & _). by exists c'. }
    rewrite Hq, obind, Hc, obind. cbn [fst snd]. eexists. split; [done|].
    pose proof (net_rep_side m n0 n1 _ _ _ a rx q b c' q a_takes Hrep Hq Eb) as H. rewrite with_queue_same in H by done.
    destruct rx; apply H; try done; try (intros ? ? [? ?]%a_takes_members; auto);
      intros ? ? ? ? ? HR Ht; destruct (queue_takes _ _ _ _ _ _ _ HR Ht) as (c2 & Hc2 & ?); congruence.
  - destruct ((0 <=? l) && (l <=? m + VIRTIO_NET_HDR_SIZE)) eqn:El; [|done]. apply andb_true_iff in El as [El1%Z.leb_le El2%Z.leb_le].
    destruct (on_side rx (λ q, a_finishes q j l) a) as [b|] eqn:Eb; [|done]. intros [= <- <-].
    assert (∃ q, virtqueues (driver y) !! (if rx then 0%nat else 1%nat) = Some q ∧
      ∃ q' c', card_finishes q (if rx then crx y else ctx y) j l = Some (q', c') ∧ queue_size q' = queue_size q) as (q & Hq & q' & c' & Hc & Hs).
    { unfold on_side in Eb. destruct rx; [exists q0|exists q1]; rewrite Eq; (split; [done|]).
      - destruct (a_finishes (arx a) j l) as [b'|] eqn:E; [|done]. destruct (queue_finishes _ _ _ _ _ _ _ _ _ R0 E) as (q' & c' & ? & ? & _). by exists q', c'.
      - destruct (a_finishes (atx a) j l) as [b'|] eqn:E; [|done]. destruct (queue_finishes _ _ _ _ _ _ _ _ _ R1 E) as (q' & c' & ? & ? & _). by exists q', c'. }
    rewrite Hq, obind, Hc, obind. cbn [fst snd]. eexists. split; [done|].
    pose proof (net_rep_side m n0 n1 _ _ _ a rx q b c' q' (λ q, a_finishes q j l) Hrep Hq Eb) as H.
    destruct rx; apply H; try done; try (intros ? ? [? [p ?]]%a_finishes_members; split; [done|]; right; exists (p, l); split; [done|split; cbn; lia]);
      intros ? ? ? ? ? HR Ht; destruct (queue_finishes _ _ _ _ _ _ _ _ _ HR Ht) as (q3 & c3 & Hc3 & _ & ?); congruence.
  - destruct (Z.leb_spec 0 n); [|done]. intros [= <- <-]. destruct (receive_ok _ _ _ _ _ _ _ n Hrep) as (s' & E & Hrep' & Hl); [done|].
    rewrite E. exists (mk_sys s' (crx y) (ctx y)). split; [|exact Hrep']. cbn [counted]. do 3 f_equal. rewrite <-list_fmap_compose. rewrite <-(list_fmap_id (take _ _)) at 2.
    apply list_fmap_ext. intros i [p k] Hi. apply list_elem_of_lookup_2 in Hi. destruct (Hl p k Hi) as (r & Hr & Hk). cbn. unfold length_of. by rewrite Hr, Hk.
  - destruct (owned a pkts) eqn:Eo; [|done]. apply owned_spec in Eo as [Hn Hin]. intros [= <- <-].
    destruct (transmit_ok _ _ _ _ _ _ _ pkts Hrep Hn Hin) as (s' & E & Hrep'). rewrite E. by exists (mk_sys s' (crx y) (ctx y)).
  - intros [= <- <-]. destruct (reclaim_ok _ _ _ _ _ _ _ Hrep) as (s' & E & Hrep' & _). rewrite E. by exists (mk_sys s' (crx y) (ctx y)).
  - destruct (owned a pkts) eqn:Eo; [|done]. apply owned_spec in Eo as [Hn Hin]. intros [= <- <-].
    destruct (put_back_ok _ _ _ _ _ _ _ pkts Hrep Hn Hin) as (s' & E & Hrep'). rewrite E. by exists (mk_sys s' (crx y) (ctx y)).
  - intros [= <- <-]. destruct (interrupt_ok _ _ _ _ _ _ _ isr Hrep) as (s' & E & Hrep' & _). rewrite E. by exists (mk_sys s' (crx y) (ctx y)).
Qed.


Lemma run_ok m n0 n1 es y a os a' :
  sys_rep m n0 n1 y a → run (a_step m n0 n1) a es = Some (os, a') → ∃ y', run step y es = Some (os, y') ∧ sys_rep m n0 n1 y' a'.
Proof.
  revert y a os a'. induction es as [|e es IH]; intros y a os a' Hrep.
  { intros [= <- <-]. by exists y. }
  cbn [run]. destruct (a_step m n0 n1 a e) as [[o b]|] eqn:E; [|done]. rewrite obind.
  destruct (run (a_step m n0 n1) b es) as [[os' b']|] eqn:E'; [|done]. rewrite obind. intros [= <- <-].
  destruct (step_ok _ _ _ _ _ _ _ _ Hrep E) as (y1 & -> & Hrep1). rewrite obind.
  destruct (IH _ _ _ _ Hrep1 E') as (y2 & -> & Hrep2). rewrite obind. by exists y2.
Qed.

(** C5. The driver and the card work as two queues of packets: whatever the
    order in which packets are received, transmitted, reclaimed and put back,
    interrupts arrive, and the card takes and returns buffers of either queue
    (in any order, with any lengths the buffers allow), every call of the
    driver succeeds, none of its assertions fails, 16-bit indices wrapping
    around included; receiving returns the packets the card has filled, in its
    order and with its lengths, and every packet is at all times in exactly one
    place: the pool, a queue or a caller's hands. *)
Theorem driver_refines_queues m n0 n1 es y a os a' :
  sys_rep m n0 n1 y a → run (a_step m n0 n1) a es = Some (os, a') →
  ∃ y', run step y es = Some (os, y') ∧ sys_rep m n0 n1 y' a' ∧ NoDup (places a').
Proof.
  intros Hrep E. destruct (run_ok _ _ _ _ _ _ _ _ Hrep E) as (y' & Hy & Hrep'). exists y'. split_and!; [done|done|].
  apply (nr_places _ _ _ _ _ _ _ Hrep').
Qed.

(** ** Loops of the driver *)

Lemma queue_rep_flags K flags pk q c a x : queue_rep K flags pk q c a → queue_rep K flags pk (set_avail_flags x q) c a.
Proof.
  intros (F & P & U & Hq & H1 & H2 & H3 & H4). exists F, P, U. split_and!; [|done..]. by destruct Hq.
Qed.

(** switching the interrupts of a queue *)
Lemma flags_ok m n0 n1 s c0 c1 a i f :
  net_rep m n0 n1 s c0 c1 a → 0 ≤ i < 3 →
  ∃ s', on_queue i (modify (λ q, set_avail_flags (f q) q)) s = Ok ((), s') ∧ net_rep m n0 n1 s' c0 c1 a.
Proof.
  intros [(q0 & q1 & q2 & Eq & E0 & E1 & R0 & R1) Hpool Hlen Hm Hrx Hdir Hnd Hk] Hi.
  assert (∃ q, queue_at s i q ∧ (i = 0 ∧ q = q0 ∨ i = 1 ∧ q = q1 ∨ i = 2 ∧ q = q2)) as (q & Hat & Hcase).
  { destruct (decide (i = 0)) as [->|]; [exists q0|destruct (decide (i = 1)) as [->|]; [exists q1|exists q2; assert (i = 2) as -> by lia]];
      unfold queue_at; rewrite Eq; auto 10 with lia. }
  eexists. split; [by eapply on_queue_ok|].
  destruct Hcase as [[-> ->]|[[-> ->]|[-> ->]]].
  - apply (net_rep_intro m n0 n1 _ c0 c1 a (set_avail_flags (f q0) q0) q1 q2); cbn [virtqueues npool mtu with_queue]; try done; [by rewrite Eq|].
    by apply queue_rep_flags.
  - apply (net_rep_intro m n0 n1 _ c0 c1 a q0 (set_avail_flags (f q1) q1) q2); cbn [virtqueues npool mtu with_queue]; try done; [by rewrite Eq|].
    by apply queue_rep_flags.
  - apply (net_rep_intro m n0 n1 _ c0 c1 a q0 q1 (set_avail_flags (f q2) q2)); cbn [virtqueues npool mtu with_queue]; try done. by rewrite Eq.
Qed.

(** supplying until nothing can be supplied *)
Lemma supply_loop_ok fuel m n0 n1 s c0 c1 a :
  net_rep m n0 n1 s c0 c1 a → (length (apool a) < fuel)%nat →
  ∃ s' a', supply_loop fuel s = Ok ((), s') ∧ net_rep m n0 n1 s' c0 c1 a' ∧ supply_count n0 a' = 0%nat ∧
    aown a' = aown a ∧ atx a' = atx a ∧ finished (arx a') = finished (arx a).
Proof.
  revert s a. induction fuel as [|fuel IH]; intros s a Hrep Hf; [lia|]. destruct (supply_ok _ _ _ _ _ _ _ Hrep) as (s1 & E & Hrep1 & _).
  cbn [supply_loop]. rewrite (bind_ok _ _ _ _ _ E). destruct (decide (supply_count n0 a = 0%nat)) as [Hz|Hz].
  - rewrite Hz. rewrite a_supply_none in Hrep1 by done. exists s1, a. done.
  - rewrite (proj2 (ctrue_true _)) by lia. cbn [negb]. destruct (IH s1 (a_supply n0 a) Hrep1) as (s2 & a2 & E2 & Hrep2 & Hc & H1 & H2 & H3).
    { cbn [apool a_supply]. rewrite length_drop. unfold supply_count in *. lia. }
    exists s2, a2. done.
Qed.

(** starting the device hands the card every packet the receive queue has room for *)
Lemma start_ok m n0 n1 s c0 c1 a :
  net_rep m n0 n1 s c0 c1 a →
  ∃ s' a', virtio_net_dev_start s = Ok (OK, s') ∧ net_rep m n0 n1 s' c0 c1 a' ∧ supply_count n0 a' = 0%nat ∧
    aown a' = aown a ∧ atx a' = atx a ∧ finished (arx a') = finished (arx a).
Proof.
  intros Hrep. unfold virtio_net_dev_start, virtio_net_device_virtqueue_enable_interrupt. mstep. rewrite (nr_pool _ _ _ _ _ _ _ Hrep).
  destruct (supply_loop_ok (S (length (apool a))) _ _ _ _ _ _ _ Hrep ltac:(lia)) as (s1 & a1 & E1 & Hrep1 & H).
  rewrite (bind_ok _ _ _ _ _ E1).
  destruct (flags_ok _ _ _ _ _ _ _ 0 (λ q, u16 (Z.land (avail_flags q) (Z.lnot VIRTQ_AVAIL_F_NO_INTERRUPT))) Hrep1 ltac:(lia)) as (s2 & E2 & Hrep2).
  destruct (flags_ok _ _ _ _ _ _ _ 1 (λ q, u16 (Z.land (avail_flags q) (Z.lnot VIRTQ_AVAIL_F_NO_INTERRUPT))) Hrep2 ltac:(lia)) as (s3 & E3 & Hrep3).
  destruct (flags_ok _ _ _ _ _ _ _ 2 (λ q, u16 (Z.land (avail_flags q) (Z.lnot VIRTQ_AVAIL_F_NO_INTERRUPT))) Hrep3 ltac:(lia)) as (s4 & E4 & Hrep4).
  exists s4, a1. split; [|done].
  rewrite bind_assoc_run, (bind_ok (ASSERT (valid_queue 0)) _ _ () _ eq_refl), (bind_ok _ _ _ _ _ E2).
  rewrite bind_assoc_run, (bind_ok (ASSERT (valid_queue 1)) _ _ () _ eq_refl), (bind_ok _ _ _ _ _ E3).
  rewrite bind_assoc_run, (bind_ok (ASSERT (valid_queue 2)) _ _ () _ eq_refl), (bind_ok _ _ _ _ _ E4). done.
Qed.

(** no more packets are finished than the queue has descriptors *)
Lemma finished_few m n0 n1 s c0 c1 a : net_rep m n0 n1 s c0 c1 a → lenZ (finished (arx a)) ≤ n0.
Proof.
  intros Hrep. destruct (nr_queues _ _ _ _ _ _ _ Hrep) as (q0 & q1 & q2 & _ & E0 & _ & R0 & _).
  pose proof (rep_room _ _ _ _ _ _ R0) as H. unfold room, members in H. rewrite !length_app, length_fmap in H. lia.
Qed.

Lemma filter_nothing (l k : list Z) : (∀ p, p ∈ l → p ∈ k) → filter (λ p, p ∉ k) l = [].
Proof.
  induction l as [|x l IH]; [done|]. intros H. rewrite filter_cons, decide_False by (intros Hx; apply Hx, H; by left).
  apply IH. intros p Hp. apply H. by right.
Qed.
Lemma filter_put (own l : list Z) : (∀ p, p ∈ own → p ∉ l) → filter (λ p, p ∉ l) (own ++ l) = own.
Proof.
  intros H. rewrite filter_app, (filter_nothing l l), app_nil_r by done. induction own as [|x own IH]; [done|].
  rewrite filter_cons, decide_True by (apply H; by left). f_equal. apply IH. intros p Hp. apply H. by right.
Qed.

(** one turn of the receiver: the packets received go back to the pool *)
Lemma receive_turn m n0 n1 s c0 c1 a :
  net_rep m n0 n1 s c0 c1 a → let pkts := (take 64 (finished (arx a))).*1 in
  ∃ s' a', virtio_net_dev_receive ONESHOT_RECEIVE_LENGTH s = Ok (pkts, s') ∧ ∃ s'', put_packets pkts s' = Ok ((), s'') ∧
    net_rep m n0 n1 s'' c0 c1 a' ∧ finished (arx a') = drop 64 (finished (arx a)) ∧ aown a' = aown a ∧ atx a' = atx a ∧
    hold (arx a') = hold (arx a) ∧ places a' ≡ₚ places a.
Proof.
  intros Hrep pkts. destruct (receive_ok _ _ _ _ _ _ _ ONESHOT_RECEIVE_LENGTH Hrep ltac:(done)) as (s1 & E1 & Hrep1 & _).
  set (b := a_receive n0 (Z.to_nat ONESHOT_RECEIVE_LENGTH) a) in *.
  assert (aown b = aown a ++ pkts) as Ho by done.
  pose proof (own_nodup b (nr_places _ _ _ _ _ _ _ Hrep1)) as Hnd. rewrite Ho in Hnd. apply NoDup_app in Hnd as (Hna & Hap & Hnp).
  assert (∀ p, p ∈ pkts → p ∈ aown b) as Hin by (intros p Hp; rewrite Ho; apply elem_of_app; by right).
  destruct (put_back_ok _ _ _ _ _ _ _ pkts Hrep1 Hnp Hin) as (s2 & E2 & Hrep2). exists s1, (a_put pkts b). split; [exact E1|].
  exists s2. split_and!; [exact E2|exact Hrep2|done| |done|done|].
  - cbn [aown a_put]. rewrite Ho. by apply filter_put.
  - rewrite put_places by (done || apply (nr_places _ _ _ _ _ _ _ Hrep1)). unfold b, a_receive. by rewrite supply_places, take_rx_places.
Qed.

Lemma receiver_ok fuel m n0 n1 s c0 c1 a :
  net_rep m n0 n1 s c0 c1 a → (length (finished (arx a)) < fuel)%nat →
  ∃ s' a', __do_ethernet_dev_receive fuel s = Ok ((), s') ∧ net_rep m n0 n1 s' c0 c1 a' ∧ finished (arx a') = [] ∧
    aown a' = aown a ∧ atx a' = atx a ∧ hold (arx a') = hold (arx a) ∧ places a' ≡ₚ places a.
Proof.
  revert s a. induction fuel as [|fuel IH]; intros s a Hrep Hf; [lia|]. cbn [__do_ethernet_dev_receive].
  destruct (receive_turn _ _ _ _ _ _ _ Hrep) as (s1 & a1 & E1 & s2 & E2 & Hrep2 & Hfin & Ho & Ht & Hh & Hp).
  rewrite (bind_ok _ _ _ _ _ E1). destruct (finished (arx a)) as [|x l] eqn:El.
  - cbn [take fmap list_fmap] in *. injection E2 as <-. by exists s1, a1.
  - destruct (take 64 (x :: l)).*1 as [|p pkts] eqn:Ep; [done|]. rewrite (bind_ok _ _ _ _ _ E2).
    destruct (IH s2 a1 Hrep2) as (s3 & a3 & E3 & Hrep3 & H1 & H2 & H3 & H4 & H5).
    { rewrite Hfin. cbn [drop length] in *. rewrite length_drop. lia. }
    exists s3, a3. split_and!; [done|done|done|congruence|congruence|congruence|by rewrite H5].
Qed.

(** the turn of the receivers over the devices [l] *)
Lemma do_rx_loop_ok fuel l m n0 n1 s c0 c1 a :
  net_rep m n0 n1 s c0 c1 a → (Z.to_nat n0 < fuel)%nat → Forall (λ i, 0 ≤ i < MAX_NR_ETHERNET_DEVCIES) l →
  ∃ s' a', do_rx_loop fuel l s = Ok ((), s') ∧ net_rep m n0 n1 s' c0 c1 a' ∧
    (finished (arx a) = [] ∨ marked s ∧ ifaceid (receivers s) ∈ l → finished (arx a') = []) ∧
    aown a' = aown a ∧ atx a' = atx a ∧ hold (arx a') = hold (arx a) ∧ places a' ≡ₚ places a.
Proof.
  intros Hrep Hf Hl. revert s a Hrep. induction Hl as [|i l Hi Hl IH]; intros s a Hrep.
  { exists s, a. split_and!; try done. by intros [?|[_ []%not_elem_of_nil]]. }
  destruct (nr_rx _ _ _ _ _ _ _ Hrep) as [Hid Hlen]. cbn [do_rx_loop]. mstep.
  destruct (lookup_lt_is_Some_2 (eth_dev_rx_mask (receivers s)) (Z.to_nat i)) as [v Hv]; [lia|].
  erewrite bind_ok by (apply deref_ok, array_get_ok; [exact Hv|lia]). cbn beta.
  assert (∀ s1 a1, net_rep m n0 n1 s1 c0 c1 a1 →
    (finished (arx a) = [] ∨ marked s ∧ ifaceid (receivers s) ∈ i :: l → finished (arx a1) = [] ∨ marked s1 ∧ ifaceid (receivers s1) ∈ l) →
    aown a1 = aown a → atx a1 = atx a → hold (arx a1) = hold (arx a) → places a1 ≡ₚ places a →
    ∃ s' a', do_rx_loop fuel l s1 = Ok ((), s') ∧ net_rep m n0 n1 s' c0 c1 a' ∧
    (finished (arx a) = [] ∨ marked s ∧ ifaceid (receivers s) ∈ i :: l → finished (arx a') = []) ∧
    aown a' = aown a ∧ atx a' = atx a ∧ hold (arx a') = hold (arx a) ∧ places a' ≡ₚ places a) as Hnext.
  { intros s1 a1 Hrep1 Hg H1 H2 H3 H4. destruct (IH s1 a1 Hrep1) as (s2 & a2 & E2 & Hrep2 & Hg2 & G1 & G2 & G3 & G4).
    exists s2, a2. split_and!; [done|done|auto|congruence|congruence|congruence|by rewrite G4]. }
  destruct (decide (v = 0)) as [->|Hv0]; [|rewrite (proj2 (ctrue_true v)) by done; cbn [negb]; destruct (Z.eqb_spec i (ifaceid (receivers s))) as [Hii|Hii]].
  - change (! 0) with true. cbv iota. mstep. apply (Hnext s a); try done. intros [?|[(x & Hx & Hx0) [Hin|Hin]%elem_of_cons]]; [by left| |right; split; [by exists x|done]].
    exfalso. rewrite Hin in Hx. congruence.
  - destruct (receiver_ok fuel _ _ _ _ _ _ _ Hrep) as (s1 & a1 & E1 & Hrep1 & Hfin & H1 & H2 & H3 & H4).
    { pose proof (finished_few _ _ _ _ _ _ _ Hrep). lia. }
    rewrite (bind_ok _ _ _ _ _ E1). apply (Hnext s1 a1); try done. by left.
  - rewrite bind_assoc_run. erewrite bind_ok by (apply deref_ok, array_set_ok; lia). cbn beta. mstep. apply (Hnext _ a); try done.
    + apply set_receivers_rep; [done|]. split; [done|]. cbn [eth_dev_rx_mask set_mask]. by rewrite length_insert.
    + intros [?|[(x & Hx & Hx0) [Hin|Hin]%elem_of_cons]]; [by left|by rewrite Hin in Hii|right]. split; [|done].
      exists x. split; [|done]. cbn. by rewrite list_lookup_insert_ne by lia.
Qed.

(** C35. The loops of the driver terminate.  Starting the device ends with the
    pool empty or the receive queue full (at most 64 packets are supplied at a
    time).  After an interrupt of the card the receivers, given one turn more
    than the receive queue has descriptors, empty the queue of the packets the
    card has filled: the interrupt marks the device and reclaims sent packets;
    each packet is back in the pool or in the queue as a new buffer, and what
    callers hold and the buffers the card is filling are untouched.  Every call
    on the way succeeds. *)
Theorem driver_loops_terminate fuel isr m n0 n1 s c0 c1 a :
  net_rep m n0 n1 s c0 c1 a → (Z.to_nat n0 < fuel)%nat → isr ≠ 0 →
  (∃ s' a', virtio_net_dev_start s = Ok (OK, s') ∧ net_rep m n0 n1 s' c0 c1 a' ∧ (apool a' = [] ∨ a_room n0 (arx a') = 0) ∧
    aown a' = aown a ∧ atx a' = atx a ∧ finished (arx a') = finished (arx a)) ∧
  (∃ s' a', (virtio_device_interrupt_handler isr ;; ethernet_do_rx fuel) s = Ok ((), s') ∧ net_rep m n0 n1 s' c0 c1 a' ∧
    finished (arx a') = [] ∧ aown a' = aown a ∧ atx a' = atx (a_reclaim a) ∧ hold (arx a') = hold (arx a) ∧ places a' ≡ₚ places a).
Proof.
  intros Hrep Hf Hisr. split.
  - destruct (start_ok _ _ _ _ _ _ _ Hrep) as (s' & a' & E & Hrep' & Hc & H). exists s', a'. split_and!; [done|done| |apply H..].
    destruct (nr_queues _ _ _ _ _ _ _ Hrep') as (q0 & q1 & q2 & _ & E0 & _ & R0 & _). pose proof (rep_room _ _ _ _ _ _ R0) as Hr.
    unfold room in Hr. unfold supply_count, ONESHORT_PACKET_LENGTH, a_room in *. rewrite E0 in Hr.
    destruct (apool a'); [by left|right]. cbn [length] in Hc. lia.
  - destruct (interrupt_ok _ _ _ _ _ _ _ isr Hrep) as (s1 & E1 & Hrep1 & Hm). rewrite (proj2 (ctrue_true isr)) in Hrep1, Hm by done.
    destruct (do_rx_loop_ok fuel (seqZ 0 MAX_NR_ETHERNET_DEVCIES) _ _ _ _ _ _ _ Hrep1 Hf) as (s2 & a2 & E2 & Hrep2 & Hfin & H1 & H2 & H3 & H4).
    { apply Forall_forall. intros i. rewrite elem_of_seqZ. lia. }
    exists s2, a2. rewrite (bind_ok _ _ _ _ _ E1). split_and!; [exact E2|done| |done|done|done|by rewrite H4, reclaim_places].
    apply Hfin. destruct (decide (finished (arx a) = [])) as [He|He]; [by left|right]. split; [by apply Hm|].
    destruct (nr_rx _ _ _ _ _ _ _ Hrep1). apply elem_of_seqZ. lia.
Qed.

(** ** Examples *)
Module NetExample.
#[local] Opaque PagingExample.start clear_page base_page.
Definition pool : list Z := [0x1000; 0x1800; 0x2000; 0x2800; 0x3000; 0x3800].
Definition records : gmap Z packet := list_to_map ((λ p, (p, mk_packet (0x100000 + p) 0 0 0 0 0)) <$> pool).
Definition queue4 : virtqueue :=
  match new_queue 4 (mk_ring 0 0 0 (replicate 9 7)) with Ok q => q | Err _ => mk_vq 0 0 [] 0 0 [] 0 0 [] (mk_ring 0 0 0 []) [] end.
Definition net : netst := mk_net [queue4; queue4; queue4] 1514 (mk_pool records pool PagingExample.start) [] (mk_rx 2 (replicate 256 0) 0).
Definition idle : anet := mk_an pool no_packets no_packets [].

Lemma queue4_rep K flags pk : queue_rep K flags pk queue4 idle_card no_packets.
Proof.
  destruct (new_queue_ok 4 (mk_ring 0 0 0 (replicate 9 7))) as (q & E & _ & _ & H); [lia|by exists 16384|done|].
  unfold queue4. rewrite E. apply H.
Qed.

Lemma net_idle : net_rep 1514 4 4 net idle_card idle_card idle.
Proof.
  apply (net_rep_intro 1514 4 4 net idle_card idle_card idle queue4 queue4 queue4); try reflexivity.
  - apply queue4_rep.
  - apply queue4_rep.
  - constructor.
  - cbn [mtu net]. lia.
  - split; [by vm_compute|reflexivity].
  - apply (PagingExample.start_dir 0). by left.
  - apply (bool_decide_unpack _). by vm_compute.
  - change (places idle) with pool. assert (Forall (λ p, p ≠ NULL ∧ is_Some (records !! p)) pool) as H.
    { apply (bool_decide_unpack _). by vm_compute. }
    intros p Hp. by apply (proj1 (Forall_forall _ _) H).
Qed.

(** the card is given four buffers, takes two and fills the second; the packet
    is received, sent, reclaimed by an interrupt and back in the pool *)
Definition events : list event :=
  [Receive 0; CardTakes true; CardTakes true; CardFinishes true 1 60; Receive 8; Transmit [0x1800]; CardTakes false; CardFinishes false 0 0; Interrupt 1].

Lemma driver_refines_queues_witness :
  ∃ y', run step (mk_sys net idle_card idle_card) events =
      Some ([Packets []; Done; Done; Done; Packets [(0x1800, 60)]; Count 1; Done; Done; Done], y') ∧
    sys_rep 1514 4 4 y' (mk_an [0x3800; 0x1800] (mk_aq [0x2000; 0x2800; 0x3000] [0x1000] []) no_packets []) ∧
    NoDup (places (mk_an [0x3800; 0x1800] (mk_aq [0x2000; 0x2800; 0x3000] [0x1000] []) no_packets [])).
Proof.
  apply (driver_refines_queues 1514 4 4 events (mk_sys net idle_card idle_card) idle); [exact net_idle|vm_compute; reflexivity].
Defined.

Lemma driver_loops_terminate_witness :
  (∃ s' a', virtio_net_dev_start net = Ok (OK, s') ∧ net_rep 1514 4 4 s' idle_card idle_card a' ∧ (apool a' = [] ∨ a_room 4 (arx a') = 0) ∧
    aown a' = aown idle ∧ atx a' = atx idle ∧ finished (arx a') = finished (arx idle)) ∧
  (∃ s' a', (virtio_device_interrupt_handler 1 ;; ethernet_do_rx 5) net = Ok ((), s') ∧ net_rep 1514 4 4 s' idle_card idle_card a' ∧
    finished (arx a') = [] ∧ aown a' = aown idle ∧ atx a' = atx (a_reclaim idle) ∧ hold (arx a') = hold (arx idle) ∧ places a' ≡ₚ places idle).
Proof. apply (driver_loops_terminate 5 1 1514 4 4 net idle_card idle_card idle); [exact net_idle|cbn; lia|done]. Defined.
End NetExample.
