(* ===== verification/ZeldaFs.v ===== *)
(** * The boot image and the device nodes: filesystem/zeldafs.c, devfs.c and dummyfs.c

    The boot loader leaves an image in memory between [_zelda_drive_start] and
    [_zelda_drive_end]: for every file its path in 256 bytes, its length, room
    for the links of a list, and its contents, as ZeldaDrive/hyrule.py writes
    them.  [zeldafs_init] walks over the image, builds a directory tree (FsTree)
    whose files point into the image, and mounts it at the root of the virtual
    file system (Vfs).  The device file system has no image: the drivers put
    their nodes into its tree with [register_dev_node]. *)

From Stdlib Require Import ZifyNat.
From stdpp Require Import gmap list strings.
From S2P Require Import Prelude CString Malloc KHeap Task MemFs Vma Path FsTree TmpFs Vfs.
Open Scope Z_scope.
Open Scope zelda_scope.

(** offsets in the packed [struct zelda_file], and its size *)
Definition OFFSET_LENGTH : Z := 256.
Definition OFFSET_CONTENT : Z := 268.
Definition SIZEOF_ZELDA_FILE : Z := 268.

(** the address of [zeldafs_file_ops] *)
Definition zeldafs_file_ops : Z := 0x3100.

Section zeldafs.
Context {A : Type} `{KHeap A} {D : Type}.

(** the bytes of the image and its place; the static root file; the address of
    the object [zeldafs] *)
Variable zelda_drive : list Z.
Variable zelda_drive_start zelda_root_node zeldafs : Z.
Definition zelda_drive_end : Z := u32 (zelda_drive_start + Z.of_nat (length zelda_drive)).

(** the memory from an address of the image on *)
Definition at_drive (a : Z) : option (list Z) :=
  if (a <? zelda_drive_start) || (zelda_drive_start + Z.of_nat (length zelda_drive) <? a) then None
  else Some (drop (Z.to_nat (a - zelda_drive_start)) zelda_drive).

(** [_file->length] *)
Definition zelda_file_length (_file : Z) : option Z :=
  m ← at_drive _file; le32 m OFFSET_LENGTH.

(** the loop of [enumerate_files_in_zelda_drive]; [head] is the list of the
    files found so far (DList: [list_append] adds at its end) *)
Fixpoint enumerate_loop {T} (fuel : nat) (iptr : Z) (head : list Z) : M T (list Z) :=
  match fuel with
  | O => fail Diverge
  | S fuel =>
      if iptr <? zelda_drive_end then
        length ← deref (zelda_file_length iptr);
        enumerate_loop fuel (u32 (iptr + u32 (SIZEOF_ZELDA_FILE + length))) (head ++ [iptr])
      else mret head
  end.
Definition enumerate_files_in_zelda_drive {T} (head : list Z) : M T (list Z) :=
  enumerate_loop (S (length zelda_drive)) zelda_drive_start head.

(** *** Files *)
Definition zeldafs_file_read (file offset : Z) (buffer : list Z) (size : Z) : M (fstate A) (Z * list Z) :=
  f ← get_file file;
  ASSERT (ctrue (priv f)) ;;
  length ← deref (zelda_file_length (priv f));
  let length_available := u32 (length - offset) in
  if i32 length_available <=? 0 then mret (0, buffer) else
  let length_available := MIN length_available (u32 size) in
  if ctrue length_available then
    content ← deref (at_drive (u32 (u32 (priv f + OFFSET_CONTENT) + offset)));
    buffer ← deref (memcpy buffer content length_available);
    mret (i32 length_available, buffer)
  else mret (i32 length_available, buffer).

Definition zeldafs_file_write (file offset : Z) (buffer : list Z) (size : Z) : M (fstate A) Z :=
  mret (- ERR_NOT_SUPPORTED).

Definition zeldafs_file_size (file : Z) : M (fstate A) Z :=
  f ← get_file file;
  ASSERT (ctrue (priv f)) ;;
  length ← deref (zelda_file_length (priv f));
  mret (i32 length).

Definition zeldafs_file_stat (file : Z) (buf : stat) : M (fstate A) (Z * stat) :=
  f ← get_file file;
  ASSERT (ctrue (priv f)) ;;
  length ← deref (zelda_file_length (priv f));
  mret (OK, mk_stat (mode f) length).

Definition zeldafs_fops : file_operation A D := mk_fops
  None
  (Some (λ file, zoom wfs_l (zeldafs_file_size file)))
  (Some (λ file buf, zoom wfs_l (zeldafs_file_stat file buf)))
  (Some (λ file offset buffer size, zoom wfs_l (zeldafs_file_read file offset buffer size)))
  (Some (λ file offset buffer size, zoom wfs_l (zeldafs_file_write file offset buffer size)))
  None
  None.

(** [search_zelda_file]: the file of the image with exactly this path *)
Fixpoint search_zelda_file (head : list Z) (name : list Z) : option Z :=
  match head with
  | [] => Some NULL
  | _file :: head =>
      path ← at_drive _file;
      d ← strcmp path name;
      if ! d then Some _file else search_zelda_file head name
  end.

(** *** The tree *)
Definition zeldafs_create_directory (splitted_path : list (list Z)) : M (fstate A) Z :=
  hierarchy_create_directory zelda_root_node splitted_path.
Definition zeldafs_create_file (splitted_path : list (list Z)) : M (fstate A) Z :=
  hierarchy_create_file zelda_root_node splitted_path.
Definition zeldafs_search_file (splitted_path : list (list Z)) : M (fstate A) Z :=
  hierarchy_search_file zelda_root_node splitted_path.

(** the words [split_path] found, every one the bytes from its pointer on *)
Definition split_words (c_name : list Z) (splitted_path : list Z) : list (list Z) :=
  map (λ i, drop (Z.to_nat i) c_name) splitted_path.

(** the loop of [construct_zelda_drive_hierarchy].  The buffer [c_name] is
    neither cleared nor is the result of the canonicalization looked at: a path
    that is refused leaves the words of the file before. *)
Fixpoint construct_loop (head : list Z) (c_name : list Z) : M (fstate A) () :=
  match head with
  | [] => mret ()
  | _file :: head =>
      path ← deref (at_drive _file);
      '(_, c_name) ← deref (canonicalize_path_name c_name path);
      '(c_name, splitted_path) ← deref (split_path c_name);
      let words := split_words c_name splitted_path in
      zeldafs_create_directory (removelast words) ;;
      zeldafs_create_file words ;;
      file ← zeldafs_search_file words;
      when (ctrue file) (upd_file file (set_priv _file) ;; upd_file file (set_ops zeldafs_file_ops)) ;;
      construct_loop head c_name
  end.
(** [c_name] is what the stack holds *)
Definition construct_zelda_drive_hierarchy (head c_name : list Z) : M (fstate A) () := construct_loop head c_name.

Definition zelda_fs_open (path : list Z) : M (fstate A) Z :=
  d ← deref (strcmp path (literal "/"));
  if ! d then mret zelda_root_node else
  c_name ← deref (strcpy_safe zero_path path MAX_PATH);
  '(c_name, splitted_path) ← deref (split_path c_name);
  zeldafs_search_file (split_words c_name splitted_path).

Definition zeldafs_ops : filesystem_operation A D := mk_fsops
  (Some (λ _ path, zoom wfs_l (zelda_fs_open path))) None None None.

(** the result is the list of the files *)
Definition zeldafs_init (c_name : list Z) : M (vstate A D) (list Z) :=
  on_files (zoom ffiles_l (modify (<[zelda_root_node := set_type FILE_TYPE_MARK zero_file]>))) ;;
  head ← enumerate_files_in_zelda_drive [];
  on_files (construct_zelda_drive_hierarchy head c_name) ;;
  rc ← zoom vmounts_l (register_file_system (literal "/") zeldafs);
  ASSERT (! rc) ;;
  mret head.
End zeldafs.

(** ** Device nodes *)
Section devfs.
Context {A : Type} `{KHeap A} {D : Type}.
(** the static root file of the device file system, and the address of [dev_fs] *)
Variable devfs_root_file dev_fs : Z.

(** [devfs_pre_init] *)
Definition devfs_pre_init : M (fstate A) () :=
  zoom ffiles_l (modify (<[devfs_root_file := set_type FILE_TYPE_MARK zero_file]>)).

(** the file system is given by [fs->priv] *)
Definition register_dev_node (root_file : Z) (path : list Z) (mode file_ops file_priv : Z) : M (fstate A) Z :=
  assert_root root_file ;;
  splitted_path ← deref (path_words path);
  result ← (if 1 <? Z.of_nat (length splitted_path)
            then hierarchy_create_directory root_file (removelast splitted_path) else mret OK);
  if negb (result =? OK) then mret NULL else
  result ← hierarchy_create_file root_file splitted_path;
  if negb (result =? OK) then mret NULL else
  file ← hierarchy_search_file root_file splitted_path;
  ASSERT (ctrue file) ;;
  upd_file file (set_priv file_priv) ;;
  upd_file file (set_ops file_ops) ;;
  mret file.

Definition devfs_open_file (root_file : Z) (path : list Z) : M (fstate A) Z :=
  assert_root root_file ;;
  d ← deref (strcmp path (literal "/"));
  if ! d then mret devfs_root_file else
  splitted_path ← deref (path_words path);
  hierarchy_search_file root_file splitted_path.

Definition devfs_ops : filesystem_operation A D := mk_fsops
  (Some (λ root path, zoom wfs_l (devfs_open_file root path))) None None None.

Definition devfs_init : M (vstate A D) () :=
  rc ← zoom vmounts_l (register_file_system (literal "/dev") dev_fs);
  ASSERT (! rc).

(** filesystem/dummyfs.c: a file system without files *)
Definition dummy_fs_open (path : list Z) : M (fstate A) Z := mret NULL.
Definition dummyfs_ops : filesystem_operation A D := mk_fsops
  (Some (λ _ path, zoom wfs_l (dummy_fs_open path))) None None None.
Definition dummyfs_init (dummyfs : Z) : M (vstate A D) () :=
  rc ← zoom vmounts_l (register_file_system (literal "/dummy") dummyfs);
  ASSERT (! rc).
End devfs.

(** ** A file put into a tree *)

(** [priv] and [ops] of files, and their names *)
Abbreviation entries := (list ((Z * Z) * list (list Z))).

Section insertion.
Context {A : Type} `{!KHeap A, !KHeapLaws A}.
Implicit Types s : fstate A.

(** [s'] and [t'] have the new regular file [b] at [n] and the directories above it *)
Record inserted s s' (root : Z) (t t' : dtree) (n : list (list Z)) (b : Z) : Prop := {
  in_tree : hierarchy s' root t';
  in_grown : grown s s';
  in_spent : spent (2 * length n) s s';
  in_file : tree_lookup t' n = Some (b, FILE_TYPE_REGULAR);
  in_fresh : ffiles s !! b = None;
  in_dirs : ∀ q x, path_ok q → tree_lookup t' q = Some x → tree_lookup t q = Some x ∨ (q = n ∧ x = (b, FILE_TYPE_REGULAR)) ∨
    (q `prefix_of` n ∧ q ≠ n ∧ x.2 = FILE_TYPE_DIR);
  in_kept : ∀ q x, path_ok q → tree_lookup t q = Some x → tree_lookup t' q = Some x }.

(** the name is free, and what is above it are directories *)
Definition insertable (t : dtree) (n : list (list Z)) : Prop :=
  n ≠ [] ∧ Forall name_ok n ∧ tree_lookup t n = None ∧
  ∀ q a ty, q `prefix_of` n → tree_lookup t q = Some (a, ty) → ty = FILE_TYPE_DIR.

(** memory is there, as a test *)
Lemma memory_there n s : (if allocate n (mheap (fmem s)) is Some _ then true else false) = true → ¬ no_memory n s.
Proof. unfold no_memory. intros H E. by rewrite E in H. Qed.

Lemma name_path n : Forall name_ok n → path_ok n.
Proof. intros H. eapply Forall_impl; [exact H|]. by intros ? []. Qed.

Lemma insert_file_ok s root t words n :
  hierarchy s root t → t ≠ DNil → Forall2 holds words n → insertable t n → ¬ no_memory (2 * length n) s →
  ∃ s1 s2 t2 b, hierarchy_create_directory root (removelast words) s = Ok (OK, s1) ∧
    hierarchy_create_file root words s1 = Ok (OK, s2) ∧ hierarchy_search_file root words s2 = Ok (b, s2) ∧
    b ≠ NULL ∧ inserted s s2 root t t2 n b.
Proof.
  intros Hh Hne HF (Hn & Hok & Hfree & Hdirs) Hmem. pose proof HF as HF0. destruct (exists_last Hn) as (p & w & ->).
  apply Forall2_app_inv_r in HF as (wp & wl & HFp & HFw & ->).
  apply Forall2_cons_inv_r in HFw as (word & wl' & Hword & HFn & ->). apply Forall2_nil_inv_r in HFn as ->.
  rewrite removelast_last. pose proof Hok as [Hpok [Hwok _]%Forall_cons]%Forall_app. pose proof (name_path _ Hok) as Hpath.
  rewrite length_app in Hmem. cbn [length] in Hmem.
  destruct (create_directory_ok s root t wp p Hh Hne HFp Hpok) as (rc & s1 & t1 & Hr1 & Hh1 & Hg1 & Hold1 & Hnew1 & Hcase).
  cbn [app] in Hnew1, Hcase. destruct Hcase as [(-> & Hdir1 & (L & HL & HLn) & Hsp1)|[(_ & k & a & ty & _ & Hk & Hty)|[_ Hm]]].
  2:{ destruct Hty. eapply Hdirs; [|exact Hk]. exists (drop (S k) p ++ [w]). by rewrite app_assoc, take_drop. }
  2:{ destruct Hmem. eapply no_memory_weaken; [exact Hm|lia]. }
  assert (∀ k, p ++ [w] ≠ take (S k) p) as Hlong.
  { intros k E%(f_equal length). rewrite length_app, length_take in E. cbn [length] in E. lia. }
  pose proof (create_file_ok s1 root t1 p w wp word Hh1 HFp Hword Hwok) as Hc. cbv zeta in Hc. rewrite HL in Hc.
  pose proof (lookup_snoc t1 p L w HL) as Hls. rewrite (Hnew1 _ Hpath Hlong), Hfree in Hls.
  destruct (tree_find L w) as [[[? ?] ?]|] eqn:Hf; [done|]. destruct (Hc HLn) as (b & sm & _ & Hnull & Hsome).
  destruct (decide (b = NULL)) as [->|Hb].
  { destruct Hmem. destruct (Hnull eq_refl) as [_ Hm]. eapply no_memory_weaken; [eapply no_memory_after; [exact Hsp1|exact Hm]|lia]. }
  destruct (Hsome Hb) as (s2 & Hr2 & Had & Hsp2 & Hh2). set (t2 := tree_upd t1 p _) in Hh2.
  assert (∀ q, tree_lookup t2 q = if decide (q = p ++ [w]) then Some (b, FILE_TYPE_REGULAR) else tree_lookup t1 q) as Hlook.
  { intros q. unfold t2. by rewrite lookup_added. }
  exists s1, s2, t2, b. split_and!; [done|done| |done|].
  { rewrite (search_file_ok s2 root t2 _ _ Hh2 HF0), Hlook, decide_True by done. done. }
  split.
  - done.
  - eapply grown_trans; [done|by eapply grown_added].
  - eapply spent_weaken; [by eapply spent_trans|]. rewrite length_app. simpl. lia.
  - by rewrite Hlook, decide_True.
  - destruct (ffiles s !! b) as [g|] eqn:E; [|done]. pose proof (gr_files _ _ Hg1 b (mk_is_Some _ _ E)) as Ed.
    by rewrite (ad_fresh _ _ _ _ _ Had), E in Ed.
  - intros q x Hq. rewrite Hlook. case_decide as Eq; [intros [= <-]; right; by left|]. intros Hx.
    destruct (decide (Exists (λ k, q = take (S k) p) (seq 0 (length p)))) as [(k & Hk & ->)%Exists_exists|Hno].
    + apply elem_of_seq in Hk. right. right. split_and!; [|done|].
      * exists (drop (S k) p ++ [w]). by rewrite app_assoc, take_drop.
      * destruct (Hdir1 k) as [a Ha]; [lia|]. rewrite Ha in Hx. by injection Hx as <-.
    + left. rewrite <-Hx. symmetry. apply Hnew1; [done|]. intros k ->. apply Hno, Exists_exists.
      destruct (decide (k < length p)%nat) as [Hk|Hk]; [exists k; split; [apply elem_of_seq; lia|done]|].
      destruct p as [|x0 p0]; [by rewrite take_nil in Hx|]. exists (length p0). split; [apply elem_of_seq; simpl; lia|].
      by rewrite !take_ge by (simpl in *; lia).
  - intros q x Hq Hx. rewrite Hlook, decide_False by (intros ->; by rewrite Hfree in Hx). by apply Hold1.
Qed.

(** a file gets its data and its operations *)
Lemma equip_ok s root t b f p o :
  hierarchy s root t → ffiles s !! b = Some f →
  let s' := put_file s b (set_ops o (set_priv p f)) in
  (upd_file b (set_priv p) ;; upd_file b (set_ops o)) s = Ok ((), s') ∧ hierarchy s' root t.
Proof.
  intros Hh Hb. cbv zeta. split.
  - rewrite (bind_ok _ _ _ _ _ (upd_file_run s b f _ Hb)), (upd_file_run _ b (set_priv p f)) by apply lookup_insert_eq.
    unfold put_file. cbn [fmem ffiles]. by rewrite insert_insert_eq.
  - pose proof Hh as (_ & _ & _ & _ & K & Hk). apply (hierarchy_data s root t b f _ (fmem s) K); try done. by destruct s.
Qed.

(** ** A tree of files with data: [E] gives [priv] and [ops] of every name *)
Record tree_of s (root : Z) (t : dtree) (E : entries) : Prop := {
  to_tree : hierarchy s root t;
  to_some : t ≠ DNil;
  to_root : ∃ f, ffiles s !! root = Some f ∧ type f = FILE_TYPE_MARK;
  to_ok : ∀ x n, (x, n) ∈ E → path_ok n;
  to_files : ∀ x n, (x, n) ∈ E → ∃ b f, tree_lookup t n = Some (b, FILE_TYPE_REGULAR) ∧ ffiles s !! b = Some f ∧ (priv f, ops f) = x;
  to_names : ∀ q y, path_ok q → tree_lookup t q = Some y → ∃ x n, (x, n) ∈ E ∧ q `prefix_of` n ∧ (q ≠ n → y.2 = FILE_TYPE_DIR) }.

(** no name leads through another *)
Definition apart (E : entries) (n : list (list Z)) : Prop :=
  ∀ x m, (x, m) ∈ E → ¬ m `prefix_of` n ∧ ¬ n `prefix_of` m.

Lemma apart_insertable s root t E n : tree_of s root t E → n ≠ [] → Forall name_ok n → apart E n → insertable t n.
Proof.
  intros [_ _ _ _ _ Hnames] Hn Hok Hap. pose proof (name_path _ Hok) as Hpath. split_and!; [done|done| |].
  - destruct (tree_lookup t n) as [x|] eqn:E1; [|done]. destruct (Hnames n x Hpath E1) as (p & m & Hm & Hpre & _). by destruct (Hap p m Hm).
  - intros q a ty Hq Hx. assert (path_ok q) as Hqok by (destruct Hq as [r ->]; by apply Forall_app in Hpath as [? _]).
    destruct (Hnames q _ Hqok Hx) as (p & m & Hm & Hpre & Hty). apply Hty. intros ->. by destruct (Hap p m Hm).
Qed.

Lemma tree_of_insert s s2 root t t2 E n b p o f :
  tree_of s root t E → inserted s s2 root t t2 n b → path_ok n → ffiles s2 !! b = Some f → root ≠ b →
  let s' := put_file s2 b (set_ops o (set_priv p f)) in hierarchy s' root t2 → tree_of s' root t2 (E ++ [((p, o), n)]).
Proof.
  intros [Hh Hne Hroot Hok Hfiles Hnames] [Hh2 Hg Hsp Hfile Hfresh Hdirs Hkept] Hpn Hb Hrb s' Hh'. split; [done| | | | |].
  - intros ->. by destruct n as [|w [|]].
  - destruct (root_grown _ _ _ Hg Hroot) as (fr & Hfr & Hty). exists fr. split; [|done]. cbn. by rewrite lookup_insert_ne.
  - intros x m [Hm|[= -> ->]%list_elem_of_singleton]%elem_of_app; [by eapply Hok|done].
  - intros x m [Hm|[= -> ->]%list_elem_of_singleton]%elem_of_app.
    + destruct (Hfiles x m Hm) as (c & g & Hc & Hg' & <-). pose proof (gr_files _ _ Hg c (mk_is_Some _ _ Hg')) as Ed.
      assert (c ≠ b) as Hcb by (intros ->; congruence). rewrite Hg' in Ed. destruct (ffiles s2 !! c) as [g2|] eqn:E2; [|done].
      exists c, g2. split_and!; [by apply Hkept; [eapply Hok|]|cbn; by rewrite lookup_insert_ne|]. injection Ed. congruence.
    + exists b, (set_ops o (set_priv p f)). split_and!; [done|cbn; apply lookup_insert_eq|done].
  - intros q y Hq Hy. destruct (Hdirs q y Hq Hy) as [Hy'|[[-> _]|(Hpre & Hqn & Hty)]].
    + destruct (Hnames q y Hq Hy') as (x & m & Hm & ?). exists x, m. split; [apply elem_of_app; by left|done].
    + eexists _, n. split; [apply elem_of_app; right; by apply list_elem_of_singleton|done].
    + eexists _, n. split; [apply elem_of_app; right; by apply list_elem_of_singleton|done].
Qed.

(** the calls by which both file systems make a file *)
Lemma put_node_ok s root t E words n p o :
  tree_of s root t E → Forall2 holds words n → n ≠ [] → Forall name_ok n → apart E n → ¬ no_memory (2 * length n) s →
  ∃ s1 s2 b s' t', hierarchy_create_directory root (removelast words) s = Ok (OK, s1) ∧
    hierarchy_create_file root words s1 = Ok (OK, s2) ∧ hierarchy_search_file root words s2 = Ok (b, s2) ∧ b ≠ NULL ∧
    (upd_file b (set_priv p) ;; upd_file b (set_ops o)) s2 = Ok ((), s') ∧
    tree_of s' root t' (E ++ [((p, o), n)]) ∧ spent (2 * length n) s s' ∧ tree_lookup t' n = Some (b, FILE_TYPE_REGULAR).
Proof.
  intros Ht HF Hn Hok Hap Hmem. pose proof (apart_insertable _ _ _ _ _ Ht Hn Hok Hap) as Hins.
  destruct (insert_file_ok s root t words n) as (s1 & s2 & t2 & b & H1 & H2 & H3 & Hb & Hi); [apply Ht|apply Ht|done|done|done|].
  pose proof (in_tree _ _ _ _ _ _ _ Hi) as Hh2. pose proof Hh2 as (Ht2 & Hnd2 & _).
  destruct (lookup_file _ _ _ _ _ _ _ Ht2 Hnd2 (in_file _ _ _ _ _ _ _ Hi)) as (_ & f & Hf & _).
  destruct (equip_ok s2 root t2 b f p o Hh2 Hf) as [Hr Hh']. exists s1, s2, b, (put_file s2 b (set_ops o (set_priv p f))), t2.
  split_and!; try done.
  - eapply tree_of_insert; [done|done|by apply name_path|done| |done]. intros <-.
    destruct (to_root _ _ _ _ Ht) as (g & Hg & _). by rewrite (in_fresh _ _ _ _ _ _ _ Hi) in Hg.
  - eapply spent_same; [apply Hi|done].
  - apply Hi.
Qed.

(** an empty tree below a static root file *)
Lemma fresh_root s root :
  fs_ok s → root ≠ NULL → root ≤ KERNEL_HEAP_BOTTOM →
  tree_of (put_file s root (set_type FILE_TYPE_MARK zero_file)) root (mark root) [].
Proof.
  intros (K & [Hst Hf Hh Hap Hnull]) Hr Hb. split; [|done| |by intros ? ? ?%not_elem_of_nil|by intros ? ? ?%not_elem_of_nil|].
  - split_and!.
    + simpl. split_and!; [done|done|]. eexists. split_and!; [apply lookup_insert_eq| |done..]. split; [constructor|by eexists].
    + apply NoDup_singleton.
    + done.
    + intros a ->%list_elem_of_singleton. by left.
    + exists K. split; cbn; [done| |done| |by rewrite lookup_insert_ne].
      * intros a [<-|[_ Ha]]%lookup_insert_is_Some; [by right|auto].
      * intros a [<-|[_ Ha]]%lookup_insert_is_Some; [|auto]. apply eq_None_not_Some. intros Hx%Hh.
        destruct Hst as (L & HL & _). apply Z.le_ngt in Hb. apply Hb. eapply heap_live_above; [exact HL|]. apply elem_of_app. by right.
  - eexists. split; [apply lookup_insert_eq|done].
  - intros q y Hq. destruct q as [|w [|w2 q]]; [done|..]; apply Forall_cons in Hq as [Hw _]; cbn; by rewrite decide_False by done.
Qed.

End insertion.

(** ** The image *)

(** [write_drive_file] of ZeldaDrive/hyrule.py: the path given by its words, and the contents *)
Definition write_drive_file (f : list (list Z) * list Z) : list Z :=
  join f.1 ++ replicate (Z.to_nat (MAX_PATH - lenZ (join f.1))) 0 ++ le_bytes (lenZ f.2) ++ le_bytes 0 ++ le_bytes 0 ++ f.2.
Definition drive_image (files : list (list (list Z) * list Z)) : list Z := concat (write_drive_file <$> files).

(** where the files of an image lie that starts at [a] *)
Fixpoint places (a : Z) (files : list (list (list Z) * list Z)) : list Z :=
  match files with
  | [] => []
  | f :: files => a :: places (a + SIZEOF_ZELDA_FILE + lenZ f.2) files
  end.

(** a file with a path the tree can be built from *)
Definition image_file (f : list (list Z) * list Z) : Prop :=
  f.1 ≠ [] ∧ Forall word_ok f.1 ∧ lenZ (join f.1) + 2 ≤ MAX_PATH ∧ norm f.1 ≠ [].

Lemma length_write f : lenZ (join f.1) + 2 ≤ MAX_PATH → lenZ (write_drive_file f) = SIZEOF_ZELDA_FILE + lenZ f.2.
Proof.
  intros H. unfold write_drive_file. rewrite !length_app, length_replicate. change (length (le_bytes (lenZ f.2))) with 4%nat.
  change (length (le_bytes 0)) with 4%nat. unfold MAX_PATH, SIZEOF_ZELDA_FILE in *. lia.
Qed.

Lemma write_path f m : image_file f → path_buffer (write_drive_file f ++ m) f.1.
Proof.
  intros (Hne & Hok & Hlen & _). split_and!; [done|done| |done]. split; [by apply join_nonzero|].
  unfold write_drive_file. rewrite padded_zeros by lia. cbn [app]. rewrite <-app_assoc. by eexists.
Qed.

(** no name of the image leads through another *)
Definition prefix_free (ns : list (list (list Z))) : Prop :=
  ∀ i j n m, ns !! i = Some n → ns !! j = Some m → n `prefix_of` m → i = j.

(** the allocations for the files and their directories *)
Definition needed (files : list (list (list Z) * list Z)) : nat := sum_list ((λ f, 2 * length (norm f.1))%nat <$> files).

(** the name and the place of every file of the image *)
Definition image_entries (a : Z) (files : list (list (list Z) * list Z)) : entries :=
  zip_with (λ a f, ((a, zeldafs_file_ops), norm f.1)) (places a files) files.

Lemma prefix_free_apart (E : entries) n ns : prefix_free (E.*2 ++ n :: ns) → apart E n.
Proof.
  intros H x m [i Hi]%list_elem_of_lookup. assert (E.*2 !! i = Some m) as Hm by (by rewrite list_lookup_fmap, Hi).
  assert ((E.*2 ++ n :: ns) !! i = Some m) as H1 by (by apply lookup_app_l_Some).
  assert ((E.*2 ++ n :: ns) !! length E.*2 = Some n) as H2 by (by apply list_lookup_middle).
  apply lookup_lt_Some in Hm. split; intros Hp.
  - specialize (H _ _ _ _ H1 H2 Hp). lia.
  - specialize (H _ _ _ _ H2 H1 Hp). lia.
Qed.

Lemma nonempty_proper ws : Forall proper ws → nonempty_words ws = ws.
Proof. unfold nonempty_words. induction 1 as [|x l (Hx & _) _ IH]; [done|]. rewrite filter_cons_True by done. by rewrite IH. Qed.

(** the words of a canonical path *)
Lemma split_canonical ws c :
  Forall word_ok ws → holds c (canonical ws) →
  ∃ c' array, split_path c = Some (c', array) ∧ Forall2 holds (split_words c' array) (norm ws).
Proof.
  intros Hok Hc. destruct (split_path_ok [] (canonical_words ws) c) as (c' & array & Hs & HF).
  { constructor; [constructor|]. by apply canonical_words_ok. } { cbn [app]. by rewrite <-canonical_join. }
  exists c', array. split; [done|]. rewrite <-nonempty_canonical. apply Forall2_fmap_l. eapply Forall2_impl; [exact HF|]. by intros i w [_ ?].
Qed.

Lemma strcpy_padded c b : padded c b → strcpy_safe zero_path b MAX_PATH = Some b.
Proof.
  intros Hp. pose proof Hp as (Hs & Hlen & Eb). unfold strcpy_safe.
  rewrite (strcpy_bytes_ok _ _ c) by ((by apply padded_holds) || (pose proof length_zero_path; lia)).
  rewrite decide_True by lia. f_equal. rewrite Eb, padded_zeros by done. f_equal. f_equal.
  replace (S (length c)) with (Z.to_nat (lenZ c + 1)) by lia. rewrite zero_path_drop by lia. f_equal. lia.
Qed.

Section image.
Context {A : Type} `{!KHeap A, !KHeapLaws A} {D : Type}.
Variable files : list (list (list Z) * list Z).
Variable zelda_drive_start zelda_root_node zeldafs : Z.
Hypothesis files_ok : Forall image_file files.
Hypothesis drive_place : 0 < zelda_drive_start ∧ zelda_drive_start + lenZ (drive_image files) < 2147483648.
Implicit Types s : fstate A.
Abbreviation drive := (drive_image files).
Abbreviation at_image := (at_drive drive zelda_drive_start).
Abbreviation image_length := (zelda_file_length drive zelda_drive_start).

Lemma at_image_ok pre post : drive = pre ++ post → at_image (zelda_drive_start + lenZ pre) = Some post.
Proof.
  intros E. unfold at_drive. rewrite E, length_app.
  rewrite (proj2 (Z.ltb_ge _ _)), (proj2 (Z.ltb_ge _ _)) by lia. cbn [orb].
  replace (Z.to_nat _) with (length pre) by lia. by rewrite drop_app_length.
Qed.

(** what is in memory at the place of a file *)
Lemma file_at_image f m a : image_file f → lenZ f.2 < 4294967296 → at_image a = Some (write_drive_file f ++ m) → image_length a = Some (lenZ f.2).
Proof.
  intros (_ & _ & Hlen & _) Hl E. unfold zelda_file_length. rewrite E, obind. unfold write_drive_file.
  rewrite app_assoc, <-!app_assoc, (app_assoc (join f.1)).
  replace OFFSET_LENGTH with (lenZ (join f.1 ++ replicate (Z.to_nat (MAX_PATH - lenZ (join f.1))) (0 : Z))).
  - apply le32_bytes. lia.
  - rewrite length_app, length_replicate. unfold MAX_PATH, OFFSET_LENGTH in *. lia.
Qed.

Lemma content_at_image pre f post :
  image_file f → drive = pre ++ write_drive_file f ++ post →
  at_image (zelda_drive_start + lenZ pre + OFFSET_CONTENT) = Some (f.2 ++ post).
Proof.
  intros (_ & _ & Hlen & _) E. unfold write_drive_file in E. rewrite <-!app_assoc, !(app_assoc (join f.1)), !app_assoc in E.
  rewrite <-(app_assoc _ f.2 post) in E. apply at_image_ok in E. rewrite <-E. f_equal.
  rewrite !length_app, length_replicate. change (length (le_bytes (lenZ f.2))) with 4%nat. change (length (le_bytes 0)) with 4%nat.
  unfold MAX_PATH, OFFSET_CONTENT in *. lia.
Qed.

Lemma drive_image_cons f fs : drive_image (f :: fs) = write_drive_file f ++ drive_image fs.
Proof. done. Qed.

(** [enumerate_files_in_zelda_drive] finds the files and ends *)
Lemma enumerate_loop_ok {T} (s : T) fs fuel pre head :
  drive = pre ++ drive_image fs → Forall image_file fs → (length (drive_image fs) < fuel)%nat →
  enumerate_loop drive zelda_drive_start fuel (zelda_drive_start + lenZ pre) head s
  = Ok (head ++ places (zelda_drive_start + lenZ pre) fs, s).
Proof.
  intros E Hfs. revert fuel pre head E. induction Hfs as [|f fs Hf Hfs IH]; intros fuel pre head E Hfuel; (destruct fuel as [|fuel]; [simpl in Hfuel; lia|]);
    cbn [enumerate_loop places]; unfold zelda_drive_end; rewrite u32_small by lia.
  - rewrite E, length_app. change (lenZ (drive_image [])) with 0. rewrite (proj2 (Z.ltb_ge _ _)) by (simpl; lia). by rewrite app_nil_r.
  - pose proof Hf as (_ & _ & Hlen & _). pose proof (length_write f Hlen) as Hw. rewrite drive_image_cons in E, Hfuel. rewrite length_app in Hfuel.
    assert (lenZ drive = lenZ pre + lenZ (write_drive_file f) + lenZ (drive_image fs)) as Hd by (rewrite E, !length_app; lia).
    assert (SIZEOF_ZELDA_FILE = 268) as Es by done. rewrite (proj2 (Z.ltb_lt _ _)) by lia.
    assert (image_length (zelda_drive_start + lenZ pre) = Some (lenZ f.2)) as Hl.
    { apply (file_at_image f (drive_image fs)); [done|lia|by apply at_image_ok]. }
    rewrite (bind_ok _ _ _ _ _ (deref_ok _ _ _ Hl)). rewrite (u32_small (SIZEOF_ZELDA_FILE + _)) by lia. rewrite u32_small by lia.
    replace (zelda_drive_start + lenZ pre + (SIZEOF_ZELDA_FILE + lenZ f.2)) with (zelda_drive_start + lenZ (pre ++ write_drive_file f))
      by (rewrite length_app; lia).
    rewrite IH; [|by rewrite E, app_assoc|lia]. rewrite <-app_assoc. cbn [app]. do 5 f_equal. rewrite length_app. lia.
Qed.

Lemma enumerate_ok {T} (s : T) :
  enumerate_files_in_zelda_drive drive zelda_drive_start [] s = Ok (places zelda_drive_start files, s).
Proof.
  unfold enumerate_files_in_zelda_drive. pose proof (enumerate_loop_ok s files (S (length drive)) [] [] eq_refl files_ok) as H.
  change (lenZ []) with 0 in H. rewrite Z.add_0_r in H. apply H. lia.
Qed.

(** one file of the image *)
Lemma construct_step_ok s t E c_name f a m rest :
  image_file f → at_image a = Some (write_drive_file f ++ m) → tree_of s zelda_root_node t E → lenZ c_name = MAX_PATH →
  apart E (norm f.1) → ¬ no_memory (2 * length (norm f.1)) s →
  ∃ c_name' s' t', construct_loop drive zelda_drive_start zelda_root_node (a :: rest) c_name s
      = construct_loop drive zelda_drive_start zelda_root_node rest c_name' s' ∧ lenZ c_name' = MAX_PATH ∧
    tree_of s' zelda_root_node t' (E ++ [((a, zeldafs_file_ops), norm f.1)]) ∧ spent (2 * length (norm f.1)) s s'.
Proof.
  intros Hf Ha Ht Hc Hap Hmem. pose proof (write_path f m Hf) as Hp. pose proof Hf as (_ & Hok & _ & Hn).
  destruct (canonicalize_ok f.1 _ c_name Hp Hc) as (c1 & Hcan & Hh & Hl1). destruct (path_words_ok _ _ Hp) as (_ & _ & _ & Hnames).
  destruct (split_canonical f.1 c1 Hok Hh) as (c2 & array & Hs & HF).
  destruct (put_node_ok s zelda_root_node t E _ _ a zeldafs_file_ops Ht HF Hn Hnames Hap Hmem)
    as (s1 & s2 & b & s' & t' & H1 & H2 & H3 & Hb & H4 & Ht' & Hsp & _).
  exists c2, s', t'. split_and!; [|pose proof (split_path_length _ _ _ Hs); lia|done|done].
  cbn [construct_loop]. rewrite (bind_ok _ _ _ _ _ (deref_ok _ _ _ Ha)), (bind_ok _ _ _ _ _ (deref_ok _ _ _ Hcan)). cbv beta iota.
  rewrite (bind_ok _ _ _ _ _ (deref_ok _ _ _ Hs)). cbv beta iota zeta. unfold zeldafs_create_directory, zeldafs_create_file, zeldafs_search_file.
  rewrite (bind_ok _ _ _ _ _ H1), (bind_ok _ _ _ _ _ H2), (bind_ok _ _ _ _ _ H3), (proj2 (ctrue_true b) Hb). unfold when.
  by rewrite (bind_ok _ _ _ _ _ H4).
Qed.

Lemma next_place f pre : image_file f →
  zelda_drive_start + lenZ pre + SIZEOF_ZELDA_FILE + lenZ f.2 = zelda_drive_start + lenZ (pre ++ write_drive_file f).
Proof. intros (_ & _ & Hlen & _). rewrite length_app. pose proof (length_write f Hlen). lia. Qed.

Lemma construct_ok fs pre s t E c_name :
  drive = pre ++ drive_image fs → Forall image_file fs → tree_of s zelda_root_node t E → lenZ c_name = MAX_PATH →
  prefix_free (E.*2 ++ ((norm ∘ fst) <$> fs)) → ¬ no_memory (needed fs) s →
  ∃ s' t', construct_loop drive zelda_drive_start zelda_root_node (places (zelda_drive_start + lenZ pre) fs) c_name s = Ok ((), s') ∧
    tree_of s' zelda_root_node t' (E ++ image_entries (zelda_drive_start + lenZ pre) fs).
Proof.
  intros Ed Hfs. revert pre s t E c_name Ed. induction Hfs as [|f fs Hf Hfs IH]; intros pre s t E c_name Ed Ht Hc Hfree Hmem.
  { exists s, t. split; [done|]. cbn. by rewrite app_nil_r. }
  rewrite drive_image_cons in Ed. cbn [places]. change (needed (f :: fs)) with (2 * length (norm f.1) + needed fs)%nat in Hmem.
  destruct (construct_step_ok s t E c_name f (zelda_drive_start + lenZ pre) (drive_image fs)
    (places (zelda_drive_start + lenZ pre + SIZEOF_ZELDA_FILE + lenZ f.2) fs)) as (c' & s1 & t1 & -> & Hc' & Ht1 & Hsp); [done|by apply at_image_ok|done|done| | |].
  { by eapply prefix_free_apart. } { intros Hm. apply Hmem. eapply no_memory_weaken; [exact Hm|lia]. }
  rewrite next_place by done.
  destruct (IH (pre ++ write_drive_file f) s1 t1 (E ++ [((zelda_drive_start + lenZ pre, zeldafs_file_ops), norm f.1)]) c') as (s' & t' & Hr & Ht'); [by rewrite Ed, app_assoc|exact Ht1|done| | |].
  { rewrite fmap_app, <-app_assoc. exact Hfree. } { intros Hm. apply Hmem. by eapply no_memory_after. }
  exists s', t'. split; [done|]. rewrite <-app_assoc in Ht'. unfold image_entries in *. cbn [places zip_with].
  by rewrite next_place.
Qed.
(** *** Opening a path *)
Lemma zelda_open_ok s t E c w0 ws :
  tree_of s zelda_root_node t E → padded (w0 ++ join ws) c → Forall word_ok (w0 :: ws) → Forall proper (w0 :: ws) →
  zelda_fs_open zelda_root_node c s = Ok (match tree_lookup t (w0 :: ws) with Some (b, _) => b | None => NULL end, s).
Proof.
  intros Ht Hc Hok Hpr. unfold zelda_fs_open. pose proof (padded_holds _ _ Hc) as Hh.
  destruct (strcmp_ok c _ (literal "/") [SLASH] Hh) as (d & Hd & Hiff); [split; [by repeat constructor|by exists []]|].
  rewrite (bind_ok _ _ _ _ _ (deref_ok _ _ _ Hd)). assert (ctrue d = true) as ->.
  { apply ctrue_true. intros E'%Hiff. apply Forall_cons in Hpr as [(Hw0 & _) _]. apply Forall_cons in Hok as [Hw _].
    destruct w0 as [|x w0]; [done|]. injection E' as -> _. apply Forall_cons in Hw as [(_ & ? & _) _]. done. }
  cbn [negb]. rewrite (bind_ok _ _ _ _ _ (deref_ok _ _ _ (strcpy_padded _ _ Hc))).
  destruct (split_path_ok w0 ws c Hok Hh) as (c' & array & Hs & HF). rewrite (bind_ok _ _ _ _ _ (deref_ok _ _ _ Hs)). cbv beta iota.
  apply search_file_ok; [apply Ht|]. rewrite nonempty_proper in HF by done. apply Forall2_fmap_l. eapply Forall2_impl; [exact HF|]. by intros i w [_ ?].
Qed.

(** *** Reading *)
Lemma at_image_skip a m k : at_image a = Some m → 0 ≤ k ≤ lenZ m → at_image (a + k) = Some (drop (Z.to_nat k) m).
Proof.
  unfold at_drive. destruct (Z.ltb_spec a zelda_drive_start) as [?|Ha]; [done|].
  destruct (Z.ltb_spec (zelda_drive_start + lenZ drive) a) as [?|Ha2]; [done|]. intros [= <-] Hk. rewrite length_drop in Hk.
  rewrite (proj2 (Z.ltb_ge _ _)), (proj2 (Z.ltb_ge _ _)) by lia. cbn [orb]. rewrite drop_drop. do 2 f_equal. lia.
Qed.

(** the file of the image [f] is at [a] *)
Definition placed (a : Z) (f : list (list Z) * list Z) : Prop :=
  ∃ pre post, drive = pre ++ write_drive_file f ++ post ∧ a = zelda_drive_start + lenZ pre.

Lemma placed_length a f : image_file f → placed a f → image_length a = Some (lenZ f.2) ∧ 0 < a ∧ a + SIZEOF_ZELDA_FILE + lenZ f.2 < 2147483648.
Proof.
  intros Hf (pre & post & Ed & ->). pose proof Hf as (_ & _ & Hl & _). pose proof (length_write f Hl) as Hw.
  assert (lenZ drive = lenZ pre + lenZ (write_drive_file f) + lenZ post) as El by (rewrite Ed, !length_app; lia).
  unfold SIZEOF_ZELDA_FILE in *. split; [|lia].
  apply (file_at_image f post); [done|lia|]. by apply at_image_ok.
Qed.

(** the part of the file a read of [size] bytes at [offset] returns *)
Definition read_count (f : list (list Z) * list Z) (offset size : Z) : Z := Z.max 0 (Z.min size (lenZ f.2 - offset)).
Definition read_bytes (f : list (list Z) * list Z) (offset size : Z) : list Z :=
  take (Z.to_nat (read_count f offset size)) (drop (Z.to_nat offset) f.2).

Lemma zelda_read_ok s b fl f offset buffer size :
  image_file f → ffiles s !! b = Some fl → placed (priv fl) f → 0 ≤ offset < 2147483648 → 0 ≤ size ≤ lenZ buffer → size < 2147483648 →
  zeldafs_file_read drive zelda_drive_start b offset buffer size s
  = Ok ((read_count f offset size, overlay buffer 0 (read_bytes f offset size)), s).
Proof.
  intros Hf Hb Hpl Ho Hs Hs2. destruct (placed_length _ _ Hf Hpl) as (Hl & Ha & Hend). unfold SIZEOF_ZELDA_FILE in Hend.
  unfold zeldafs_file_read. rewrite (bind_ok _ _ _ _ _ (get_file_run s b fl Hb)).
  rewrite (bind_ok _ _ _ () s) by (apply ASSERT_true, ctrue_true; lia). rewrite (bind_ok _ _ _ _ _ (deref_ok _ _ _ Hl)). cbv zeta.
  assert (i32 (u32 (lenZ f.2 - offset)) = lenZ f.2 - offset) as ->.
  { unfold i32. rewrite (u32_small (u32 _)) by apply u32_range. apply i32_small. lia. }
  unfold read_bytes, read_count.
  destruct (Z.leb_spec (lenZ f.2 - offset) 0) as [Hz|Hpos].
  { rewrite Z.max_l by lia. by rewrite take_0. }
  rewrite (u32_small (lenZ f.2 - offset)) by lia. rewrite (u32_small size) by lia. unfold MIN. rewrite !u32_small by lia.
  assert ((if lenZ f.2 - offset <? size then lenZ f.2 - offset else size) = Z.min size (lenZ f.2 - offset)) as ->
    by (destruct (Z.ltb_spec (lenZ f.2 - offset) size); lia).
  rewrite Z.max_r by lia. set (n := Z.min _ _). destruct (ctrue n) eqn:En.
  2:{ apply ctrue_false in En. rewrite En. done. }
  destruct Hpl as (pre & post & Ed & Ea). pose proof (content_at_image pre f post Hf Ed) as Hc. rewrite <-Ea in Hc.
  apply (at_image_skip _ _ offset) in Hc; [|rewrite length_app; lia].
  unfold OFFSET_CONTENT in *. rewrite (u32_small (priv fl + 268)), u32_small by lia. rewrite (bind_ok _ _ _ _ _ (deref_ok _ _ _ Hc)).
  unfold memcpy. erewrite bind_ok by (apply deref_ok, memcpy_bytes_ok; rewrite ?length_drop, ?length_app; lia). rewrite ret_run.
  rewrite i32_small by lia. do 3 f_equal. unfold overlay. simpl.
  rewrite drop_app_le by lia. rewrite take_app_le by (rewrite length_drop; lia). do 2 f_equal. rewrite length_take, length_drop. lia.
Qed.
End image.

(** ** The image behind the virtual file system *)
Section mounted.
Context {A : Type} `{!KHeap A, !KHeapLaws A} {D : Type}.
Variable files : list (list (list Z) * list Z).
Variable zelda_drive_start zelda_root_node zeldafs : Z.
Hypothesis files_ok : Forall image_file files.
Hypothesis drive_place : 0 < zelda_drive_start ∧ zelda_drive_start + lenZ (drive_image files) < 2147483648.
Hypothesis names_free : prefix_free ((norm ∘ fst) <$> files).
Hypothesis root_place : 0 < zelda_root_node ≤ KERNEL_HEAP_BOTTOM.
Variable file_operations : gmap Z (file_operation A D).
Hypothesis image_operations :
  file_operations !! zeldafs_file_ops = Some (zeldafs_fops (drive_image files) zelda_drive_start).
Variable file_systems : gmap Z (file_system A D).
Variable kind fs_data : Z.
Hypothesis image_system : file_systems !! zeldafs = Some (mk_fs (zeldafs_ops zelda_root_node) kind fs_data).
Implicit Types s : vstate A D.
Abbreviation init := (zeldafs_init (D := D) (drive_image files) zelda_drive_start zelda_root_node zeldafs).
Abbreviation image := (image_entries zelda_drive_start files).

(** the place of every file of the image *)
Lemma image_elem x n : (x, n) ∈ image → ∃ f, f ∈ files ∧ n = norm f.1 ∧ x.2 = zeldafs_file_ops ∧ placed files zelda_drive_start x.1 f.
Proof.
  assert (∀ fs pre, drive_image files = pre ++ drive_image fs → Forall image_file fs →
    (x, n) ∈ image_entries (zelda_drive_start + lenZ pre) fs →
    ∃ f, f ∈ fs ∧ n = norm f.1 ∧ x.2 = zeldafs_file_ops ∧ placed files zelda_drive_start x.1 f) as Hgen.
  { induction fs as [|f fs IH]; intros pre Ed Hfs; [by intros ?%not_elem_of_nil|]. apply Forall_cons in Hfs as [Hf Hfs].
    unfold image_entries. cbn [places zip_with]. intros [[= -> ->]|Hx]%elem_of_cons.
    - exists f. split_and!; [by left|done|done|]. exists pre, (drive_image fs). done.
    - destruct (IH (pre ++ write_drive_file f)) as (g & Hg & ?); [by rewrite Ed, drive_image_cons, app_assoc|done| |exists g; split; [by right|done]].
      unfold image_entries. by rewrite <-next_place. }
  intros Hx. apply (Hgen files []); [done|done|]. change (lenZ []) with 0. by rewrite Z.add_0_r.
Qed.

Lemma image_has f : f ∈ files → ∃ x, (x, norm f.1) ∈ image.
Proof.
  unfold image_entries. generalize zelda_drive_start. clear. induction files as [|g fs IH]; intros a; [by intros ?%not_elem_of_nil|].
  cbn [places zip_with]. intros [->|Hf]%elem_of_cons; [eexists; by left|]. destruct (IH (a + SIZEOF_ZELDA_FILE + lenZ g.2) Hf) as [x Hx].
  exists x. by right.
Qed.

(** [search_zelda_file] compares the paths as they are written *)
Definition found_by (name : list Z) (a : Z) : Prop :=
  (a = NULL ∧ ∀ f, f ∈ files → join f.1 ≠ name) ∨ ∃ f, f ∈ files ∧ join f.1 = name ∧ placed files zelda_drive_start a f.

Lemma search_zelda_file_ok name b :
  holds b name → ∃ a, search_zelda_file (drive_image files) zelda_drive_start (places zelda_drive_start files) b = Some a ∧ found_by name a.
Proof.
  intros Hb. assert (∀ fs pre, drive_image files = pre ++ drive_image fs → Forall image_file fs → (∀ f, f ∈ fs → f ∈ files) →
    ∃ a, search_zelda_file (drive_image files) zelda_drive_start (places (zelda_drive_start + lenZ pre) fs) b = Some a ∧
      ((a = NULL ∧ ∀ f, f ∈ fs → join f.1 ≠ name) ∨ ∃ f, f ∈ files ∧ join f.1 = name ∧ placed files zelda_drive_start a f)) as Hgen.
  { induction fs as [|f fs IH]; intros pre Ed Hfs Hsub.
    { exists NULL. split; [done|]. left. split; [done|]. by intros f ?%not_elem_of_nil. }
    apply Forall_cons in Hfs as [Hf Hfs]. rewrite drive_image_cons in Ed. cbn [places search_zelda_file].
    rewrite (at_image_ok files _ pre _ Ed), obind. destruct (write_path f (drive_image fs) Hf) as (_ & _ & Hh & _).
    destruct (strcmp_ok _ _ _ _ Hh Hb) as (d & -> & Hiff). rewrite obind. destruct (ctrue d) eqn:Ec; cbn [negb].
    - rewrite next_place by done. destruct (IH (pre ++ write_drive_file f)) as (a & Ha & Hcase); [by rewrite Ed, app_assoc|done|intros g Hg; apply Hsub; by right|].
      exists a. split; [done|]. destruct Hcase as [[-> Hno]|?]; [left|by right]. split; [done|]. intros g [->|Hg]%elem_of_cons; [|by apply Hno].
      intros E. apply Hiff in E. by apply ctrue_true in Ec.
    - apply ctrue_false, Hiff in Ec. eexists. split; [done|]. right. exists f. split; [apply Hsub; by left|]. split; [done|].
      by exists pre, (drive_image fs). }
  destruct (Hgen files [] eq_refl files_ok) as (a & Ha & Hcase); [done|]. change (lenZ []) with 0 in Ha. rewrite Z.add_0_r in Ha. by exists a.
Qed.

(** [zeldafs_init] builds the tree of the image and mounts it *)
Record mounted s s' (t : dtree) : Prop := {
  mo_tree : tree_of (files_of s') zelda_root_node t image;
  mo_mounts : mounts_ok (vmounts s');
  mo_entry : ∃ i e, vmounts s' = <[i := e]> (vmounts s) ∧ vmounts s' !! i = Some e ∧ mount_valid e = true ∧
    mount_name e = [SLASH] ∧ mount_fs e = zeldafs }.

Lemma slash_buffer : path_buffer (literal "/") [[]].
Proof. split_and!; [done|by repeat constructor|split; [by repeat constructor|by exists []]|done]. Qed.

Lemma zeldafs_init_ok s c_name :
  fs_ok (files_of s) → lenZ c_name = MAX_PATH → ¬ no_memory (needed files) (files_of s) → mounts_ok (vmounts s) →
  (∀ e, e ∈ vmounts s → ¬ conflicts [SLASH] e) → ¬ Forall taken (vmounts s) →
  ∃ s' t, init c_name s = Ok (places zelda_drive_start files, s') ∧ mounted s s' t.
Proof.
  intros Hfs Hc Hmem Hm Hno Hfull. unfold zeldafs_init.
  set (x0 := put_file (files_of s) zelda_root_node (set_type FILE_TYPE_MARK zero_file)).
  rewrite (bind_ok _ _ _ () (with_files s x0)) by (by apply on_files_ok).
  rewrite (bind_ok _ _ _ (places zelda_drive_start files) (with_files s x0)) by (by apply enumerate_ok).
  pose proof (fresh_root (files_of s) zelda_root_node Hfs ltac:(lia) ltac:(lia)) as Ht0. fold x0 in Ht0.
  destruct (construct_ok files zelda_drive_start zelda_root_node files [] x0 _ [] c_name eq_refl files_ok Ht0 Hc)
    as (x & t & Hr & Ht); [done|done|]. change (lenZ []) with 0 in Hr, Ht. rewrite Z.add_0_r in Hr, Ht.
  rewrite (bind_ok _ _ _ () (with_files s x)) by (by apply (on_files_ok _ (with_files s x0))).
  destruct (register_ok [[]] (literal "/") zeldafs (vmounts s) slash_buffer Hm) as [[(e & He & Hcf) _]|[(_ & Hall & _)|(_ & i & e & mp & He & _ & Hmp & Hrun)]];
    [by destruct (Hno e He)|done|].
  rewrite (bind_ok _ _ _ _ _ (zoom_ok vmounts_l _ (with_files s x) _ _ Hrun)). mstep.
  eexists _, t. split; [done|]. split; cbn; [exact Ht| |].
  - eapply mounts_ok_insert; [done|exact Hmp|]. intros e' He' Hv E. apply (Hno e' He'). split; [done|by left].
  - eexists i, _. split; [done|]. split; [apply list_lookup_insert_eq; by eapply lookup_lt_Some|]. split; [done|].
    split; [|done]. by apply padded_text.
Qed.

(** the path is below no other mount point *)
Definition own_path s (path : list Z) (ws : list (list Z)) : Prop :=
  path_buffer path ws ∧ norm ws ≠ [] ∧ ∀ e, e ∈ vmounts s → ¬ candidate (canonical ws) e.

Lemma image_resolve s s' t path ws :
  mounted s s' t → own_path s path ws →
  ∃ idx e sub, resolve_mount file_systems path s' = Ok (Some (idx, e, mk_fs (zeldafs_ops zelda_root_node) kind fs_data, sub), s') ∧
    call_open (mk_fs (zeldafs_ops zelda_root_node) kind fs_data) sub s'
    = Ok (match tree_lookup t (norm ws) with Some (b, _) => b | None => NULL end, s').
Proof.
  intros [Ht Hm (i & e & Ei & He & Hv & Hn & Hfs)] (Hp & Hne & Hno). destruct (norm ws) as [|w0 ws'] eqn:En; [done|].
  assert (canonical ws = [SLASH] ++ w0 ++ join ws') as Hcan by (unfold canonical; by rewrite En).
  destruct (resolve_entry file_systems s' path ws i e (w0 ++ join ws')
    (mk_fs (zeldafs_ops zelda_root_node) kind fs_data) Hm He Hv Hp) as (idx & sub & Hr & Hpad);
    [by rewrite Hn| |by rewrite Hfs|].
  { intros e' He' Hc'. rewrite Ei in He'. apply list_elem_of_lookup in He' as [j Hj].
    apply list_lookup_insert_Some in Hj as [(_ & <- & _)|[_ Hj]]; [done|]. by destruct (Hno e' (list_elem_of_lookup_2 _ _ _ Hj)). }
  exists idx, e, sub. split; [exact Hr|]. unfold call_open. cbn [fs_ops fs_open zeldafs_ops assert_method]. mstep.
  pose proof Hp as (_ & Hok & _ & _). pose proof (norm_ok ws Hok [] (Forall_nil_2 _)) as Hnok. fold (norm ws) in Hnok.
  pose proof (norm_proper ws [] (Forall_nil_2 _)) as Hpr. fold (norm ws) in Hpr. rewrite En in Hnok, Hpr.
  assert (padded (w0 ++ join ws') sub) as Hsub.
  { unfold rest_path in Hpad. rewrite decide_False in Hpad; [done|]. apply Forall_cons in Hpr as [(? & _) _]. by destruct w0. }
  change (zoom vworld_l (zoom wfs_l (zelda_fs_open zelda_root_node sub)) s') with (on_files (D := D) (zelda_fs_open zelda_root_node sub) s').
  rewrite (on_files_ok _ s' _ _ (zelda_open_ok _ _ _ _ _ _ _ Ht Hsub Hnok Hpr)). by rewrite with_files_same.
Qed.

(** what a descriptor of the file [f] of the image gives, at any position *)
Definition serves s (b : Z) (f : list (list Z) * list Z) : Prop :=
  ∀ e buffer size, fe_file e = b → 0 ≤ fe_offset e < 2147483648 → 0 ≤ size ≤ lenZ buffer → size < 2147483648 →
    do_vfs_read file_operations e buffer size s
    = Ok ((read_count f (fe_offset e) size, overlay buffer 0 (read_bytes f (fe_offset e) size), advance e (read_count f (fe_offset e) size)), s) ∧
    do_vfs_write file_operations e buffer size s = Ok ((- ERR_NOT_SUPPORTED, e), s).

Lemma image_serves s b fl f :
  image_file f → ffiles (files_of s) !! b = Some fl → placed files zelda_drive_start (priv fl) f → ops fl = zeldafs_file_ops → serves s b f.
Proof.
  intros Hf Hb Hpl Hops e buffer size <- Ho Hs Hs2.
  assert (∀ T (k : file_operation A D → M (vstate A D) T), (assert_ops (fe_file e) ;; o ← file_ops file_operations (fe_file e); k o) s
    = k (zeldafs_fops (drive_image files) zelda_drive_start) s) as Hpre.
  { intros T k. unfold assert_ops, file_ops. rewrite bind_assoc_run, (bind_ok _ _ _ _ _ (look_run s _ fl Hb)), Hops.
    rewrite (bind_ok _ _ _ () s) by done. rewrite bind_assoc_run, (bind_ok _ _ _ _ _ (look_run s _ fl Hb)), Hops.
    by rewrite (bind_ok _ _ _ _ _ (deref_ok _ _ _ image_operations)). }
  split.
  - unfold do_vfs_read. rewrite Hpre. cbn [op_read zeldafs_fops assert_method]. rewrite (bind_ok _ _ _ _ _ (ret_run _ s)).
    pose proof (zelda_read_ok files zelda_drive_start drive_place (files_of s) _ fl f (fe_offset e) buffer size Hf Hb Hpl Ho Hs Hs2) as Hr.
    match goal with |- context [zoom vworld_l (zoom wfs_l ?m)] => change (zoom vworld_l (zoom wfs_l m)) with (on_files (D := D) m) end.
    rewrite (bind_ok _ _ _ _ _ (on_files_ok _ s _ _ Hr)), with_files_same. cbv beta iota. rewrite ret_run. do 3 f_equal.
    assert (0 ≤ read_count f (fe_offset e) size) by (unfold read_count; lia).
    destruct (Z.ltb_spec 0 (read_count f (fe_offset e) size)); [done|].
    replace (read_count f (fe_offset e) size) with 0 by lia. rewrite advance_0 by lia. done.
  - unfold do_vfs_write. rewrite Hpre. cbn [op_write zeldafs_fops assert_method]. rewrite (bind_ok _ _ _ _ _ (ret_run _ s)).
    destruct (negb (fe_writable e)); [done|]. unfold zeldafs_file_write. by destruct s as [? []].
Qed.

(** a file changes in its [mode] or [refer_count] *)
Lemma mounted_touch s s' t b fl fl' :
  mounted s s' t → ffiles (files_of s') !! b = Some fl →
  name fl' = name fl → type fl' = type fl → parent fl' = parent fl → left fl' = left fl → right fl' = right fl →
  priv fl' = priv fl → ops fl' = ops fl → mounted s (touched s' b fl') t.
Proof.
  intros [[Hh Hne (fr & Hfr & Hty) Hok Hfiles Hnames] Hm He] Hb E1 E2 E3 E4 E5 E6 E7. split; [|done|done].
  pose proof Hh as (_ & _ & _ & _ & K & Hk). split; [|done| |done| |done].
  - apply (hierarchy_data (files_of s') zelda_root_node t b fl fl' (fmem (files_of s')) K); try done. by destruct (files_of s').
  - cbn. destruct (decide (b = zelda_root_node)) as [->|Hn]; [|exists fr; by rewrite lookup_insert_ne].
    exists fl'. rewrite lookup_insert_eq. split; [done|]. rewrite Hb in Hfr. injection Hfr as ->. congruence.
  - intros x n Hx. destruct (Hfiles x n Hx) as (c & g & Hc & Hg & Ex). destruct (decide (c = b)) as [->|Hn].
    + exists b, fl'. rewrite Hb in Hg. injection Hg as ->. cbn. rewrite lookup_insert_eq. split_and!; [done|done|congruence].
    + exists c, g. cbn. by rewrite lookup_insert_ne.
Qed.

(** opening a file of the image *)
Lemma image_open_ok s s' t path ws f :
  mounted s s' t → own_path s path ws → f ∈ files → norm f.1 = norm ws →
  ∃ b fl, (∀ flags mode, do_vfs_open file_systems path flags mode s' = Ok (b, touched s' b (opened fl))) ∧ b ≠ NULL ∧
    ffiles (files_of s') !! b = Some fl ∧ type fl = FILE_TYPE_REGULAR ∧ ops fl = zeldafs_file_ops ∧
    placed files zelda_drive_start (priv fl) f ∧ tree_lookup t (norm ws) = Some (b, FILE_TYPE_REGULAR).
Proof.
  intros Hmo Hp Hf En. destruct (image_resolve s s' t path ws Hmo Hp) as (idx & e & sub & Hres & Hopen).
  destruct (image_has f Hf) as [x Hx]. rewrite En in Hx.
  destruct (to_files _ _ _ _ (mo_tree _ _ _ Hmo) _ _ Hx) as (b & fl & Hb & Hfl & Ex).
  destruct (to_tree _ _ _ _ (mo_tree _ _ _ Hmo)) as (Hat & Hnd & _).
  destruct (lookup_file _ _ _ _ _ _ _ Hat Hnd Hb) as (Hbn & fl' & Hfl' & Hty). rewrite Hfl in Hfl'. injection Hfl' as <-.
  destruct (image_elem _ _ Hx) as (g & Hg & Eg & Ho & Hpl). assert (g = f) as ->.
  { apply list_elem_of_lookup in Hg as [i Hi]. apply list_elem_of_lookup in Hf as [j Hj].
    assert (i = j) as <-; [|congruence]. eapply names_free; [by rewrite list_lookup_fmap, Hi|by rewrite list_lookup_fmap, Hj|].
    cbn. by rewrite En, Eg. }
  exists b, fl. rewrite <-Ex in Ho, Hpl. cbn in Ho, Hpl. split_and!; try done. intros flags mode.
  unfold do_vfs_open. rewrite (bind_ok _ _ _ _ _ Hres), (bind_ok _ _ _ _ _ Hopen), Hb, (proj2 (ctrue_true b) Hbn).
  unfold when. by rewrite (bind_ok _ _ _ _ _ (touch_run s' b fl _ Hfl)).
Qed.

Lemma image_stat_ok s s' t path ws f b fl :
  mounted s s' t → own_path s path ws → image_file f → tree_lookup t (norm ws) = Some (b, FILE_TYPE_REGULAR) → b ≠ NULL →
  ffiles (files_of s') !! b = Some fl → ops fl = zeldafs_file_ops → placed files zelda_drive_start (priv fl) f →
  do_vfs_stat file_operations file_systems path zero_stat s' = Ok ((OK, mk_stat (FsTree.mode fl) (lenZ f.2)), s').
Proof.
  intros Hmo Hp Hf Hl Hbn Hfl Hops Hpl. destruct (image_resolve s s' t path ws Hmo Hp) as (idx & e & sub & Hres & Hopen).
  destruct (placed_length files zelda_drive_start drive_place _ _ Hf Hpl) as (Hlen & Ha & _).
  unfold do_vfs_stat. rewrite (bind_ok _ _ _ _ _ Hres), (bind_ok _ _ _ _ _ Hopen), Hl, (proj2 (ctrue_true b) Hbn). cbn [negb].
  unfold file_ops. rewrite bind_assoc_run, (bind_ok _ _ _ _ _ (look_run s' b fl Hfl)), Hops.
  rewrite (bind_ok _ _ _ _ _ (deref_ok _ _ _ image_operations)). cbn [op_stat zeldafs_fops].
  match goal with |- context [zoom vworld_l (zoom wfs_l ?m)] => change (zoom vworld_l (zoom wfs_l m)) with (on_files (D := D) m) end.
  rewrite (on_files_ok _ s' (OK, mk_stat (FsTree.mode fl) (lenZ f.2)) (files_of s')); [by rewrite with_files_same|].
  unfold zeldafs_file_stat. rewrite (bind_ok _ _ _ _ _ (get_file_run _ b fl Hfl)).
  rewrite (bind_ok _ _ _ () (files_of s')) by (apply ASSERT_true, ctrue_true; lia). by rewrite (bind_ok _ _ _ _ _ (deref_ok _ _ _ Hlen)).
Qed.

(** what lies above a file is there *)
Lemma lookup_prefix q : ∀ t n, is_Some (tree_lookup t n) → q `prefix_of` n → q ≠ [] → is_Some (tree_lookup t q).
Proof.
  induction q as [|w q IH]; intros t n Hn [r ->] Hq; [done|]. destruct (decide (q = [])) as [->|Hqn].
  - cbn [app tree_lookup] in *. destruct (tree_find t w) as [[[a ty] l]|]; [by eexists|]. by destruct r, Hn.
  - rewrite tree_lookup_cons by done. cbn [app] in Hn. rewrite tree_lookup_cons in Hn by (by intros [? _]%app_eq_nil).
    destruct (tree_find t w) as [[[a ty] l]|]; [|by destruct Hn]. rewrite obind in *. eapply IH; [exact Hn|by exists r|done].
Qed.

(** a path above files of the image opens as a directory *)
Lemma image_directory_ok s s' t path ws f :
  mounted s s' t → own_path s path ws → f ∈ files → norm ws `prefix_of` norm f.1 → norm ws ≠ norm f.1 →
  ∃ b fl, (∀ flags mode, do_vfs_open file_systems path flags mode s' = Ok (b, touched s' b (opened fl))) ∧ b ≠ NULL ∧
    ffiles (files_of s') !! b = Some fl ∧ type fl = FILE_TYPE_DIR.
Proof.
  intros Hmo Hp Hf Hpre Hne. destruct (image_resolve s s' t path ws Hmo Hp) as (idx & e & sub & Hres & Hopen).
  destruct (image_has f Hf) as [x Hx]. destruct (to_files _ _ _ _ (mo_tree _ _ _ Hmo) _ _ Hx) as (c & fc & Hc & _).
  destruct (lookup_prefix (norm ws) t (norm f.1)) as [[b ty] Hb]; [by eexists|done|apply Hp|].
  pose proof (norm_proper ws [] (Forall_nil_2 _)) as Hpr. fold (norm ws) in Hpr.
  assert (path_ok (norm ws)) as Hpath by (eapply Forall_impl; [exact Hpr|]; by intros ? []).
  destruct (to_names _ _ _ _ (mo_tree _ _ _ Hmo) _ _ Hpath Hb) as (y & n & Hn & _ & Hdir). cbn in Hdir.
  destruct (to_tree _ _ _ _ (mo_tree _ _ _ Hmo)) as (Hat & Hnd & _).
  destruct (lookup_file _ _ _ _ _ _ _ Hat Hnd Hb) as (Hbn & fl & Hfl & Hty). exists b, fl. split_and!; [|done|done|].
  - intros flags mode. unfold do_vfs_open. rewrite (bind_ok _ _ _ _ _ Hres), (bind_ok _ _ _ _ _ Hopen), Hb, (proj2 (ctrue_true b) Hbn).
    unfold when. by rewrite (bind_ok _ _ _ _ _ (touch_run s' b fl _ Hfl)).
  - rewrite Hty. apply Hdir. intros E. destruct (image_elem _ _ Hn) as (g & Hg & Eg & _).
    apply list_elem_of_lookup in Hg as [i Hi]. apply list_elem_of_lookup in Hf as [j Hj].
    assert (i = j) as <-; [|congruence]. eapply names_free; [by rewrite list_lookup_fmap, Hi|by rewrite list_lookup_fmap, Hj|].
    cbn. by rewrite <-Eg, <-E.
Qed.

(** C14. The kernel serves the image it was booted with.  The image is what
    ZeldaDrive/hyrule.py writes for files with absolute paths of at most 254
    bytes without blanks, none of which leads through another or to the root (a
    name with a blank takes the place of another file:
    [blank_name_replaces_file]).  From any state with memory for the tree and a
    free mount entry, and whatever is on the stack, [zeldafs_init] ends, finds
    every file at its place and mounts the tree at the root.  Then a path,
    however it is spelt with empty words, dots and parents, that is below no
    other mount point and does not lead to the root itself opens exactly the
    file of the image it names: reading at a position returns the bytes of the
    file from there on, as many as are asked for and left, and moves the
    position; writing is refused.  A path above files of the image opens a
    directory, and every other path opens nothing.  In the list of the files
    [search_zelda_file] finds the one with exactly the given path. *)
Theorem image_served s c_name :
  fs_ok (files_of s) → lenZ c_name = MAX_PATH → ¬ no_memory (needed files) (files_of s) → mounts_ok (vmounts s) →
  (∀ e, e ∈ vmounts s → ¬ conflicts [SLASH] e) → ¬ Forall taken (vmounts s) →
  (∀ b name, holds b name →
     ∃ a, search_zelda_file (drive_image files) zelda_drive_start (places zelda_drive_start files) b = Some a ∧ found_by name a) ∧
  ∃ s', init c_name s = Ok (places zelda_drive_start files, s') ∧
    ∀ path ws flags mode, own_path s path ws →
      (∀ f, f ∈ files → norm f.1 = norm ws → ∃ b s2, do_vfs_open file_systems path flags mode s' = Ok (b, s2) ∧ b ≠ NULL ∧ serves s2 b f) ∧
      (∀ f, f ∈ files → norm ws `prefix_of` norm f.1 → norm ws ≠ norm f.1 → ∃ b s2 fl, do_vfs_open file_systems path flags mode s' = Ok (b, s2) ∧
         b ≠ NULL ∧ ffiles (files_of s2) !! b = Some fl ∧ type fl = FILE_TYPE_DIR) ∧
      ((∀ f, f ∈ files → ¬ norm ws `prefix_of` norm f.1) → do_vfs_open file_systems path flags mode s' = Ok (NULL, s')).
Proof.
  intros Hfs Hc Hmem Hm Hno Hfull. split; [intros b name; apply search_zelda_file_ok|].
  destruct (zeldafs_init_ok s c_name Hfs Hc Hmem Hm Hno Hfull) as (s' & t & Hr & Hmo).
  exists s'. split; [done|]. intros path ws flags mode Hp. split_and!.
  - intros f Hf En. destruct (image_open_ok s s' t path ws f Hmo Hp Hf En) as (b & fl & Ho & Hbn & Hfl & _ & Hops & Hpl & _).
    exists b. eexists. split; [apply Ho|]. split; [done|].
    eapply image_serves; [by eapply Forall_forall|cbn; apply lookup_insert_eq|done|done].
  - intros f Hf Hpre Hne. destruct (image_directory_ok s s' t path ws f Hmo Hp Hf Hpre Hne) as (b & fl & Ho & Hbn & Hfl & Hty).
    exists b. eexists _, (opened fl). split; [apply Ho|]. split; [done|]. split; [cbn; apply lookup_insert_eq|exact Hty].
  - intros Hnone. destruct (image_resolve s s' t path ws Hmo Hp) as (idx & e & sub & Hres & Hopen).
    pose proof (norm_proper ws [] (Forall_nil_2 _)) as Hpr. fold (norm ws) in Hpr.
    assert (path_ok (norm ws)) as Hpath by (eapply Forall_impl; [exact Hpr|]; by intros ? []).
    unfold do_vfs_open. rewrite (bind_ok _ _ _ _ _ Hres), (bind_ok _ _ _ _ _ Hopen).
    destruct (tree_lookup t (norm ws)) as [[b ty]|] eqn:El; [|done]. exfalso.
    destruct (to_names _ _ _ _ (mo_tree _ _ _ Hmo) _ _ Hpath El) as (x & n & Hn & Hpre & _).
    destruct (image_elem _ _ Hn) as (g & Hg & -> & _). by eapply Hnone.
Qed.
End mounted.

(** ** Device nodes behind their file system *)
Section nodes.
Context {A : Type} `{!KHeap A, !KHeapLaws A}.
Variable root : Z.
Implicit Types s : fstate A.

Lemma tree_root_ok s t E : tree_of s root t E → assert_root root s = Ok ((), s).
Proof.
  intros Ht. destruct (to_root _ _ _ _ Ht) as (f & Hf & Hty). destruct (to_tree _ _ _ _ Ht) as (Hat & _). unfold assert_root.
  rewrite (bind_ok _ _ _ () s).
  - rewrite (bind_ok _ _ _ _ _ (get_file_run s root f Hf)). apply ASSERT_true. lia.
  - apply ASSERT_true, ctrue_true. destruct t as [|? ? ? ? ? ?]; [by destruct (to_some _ _ _ _ Ht)|]. by destruct Hat as (-> & ? & _).
Qed.

(** the test on the number of words saves a call that does nothing *)
Lemma parents_run words s :
  (if 1 <? Z.of_nat (length words) then hierarchy_create_directory root (removelast words) else mret OK) s
  = hierarchy_create_directory root (removelast words) s.
Proof. destruct words as [|w [|w' words]]; [done|done|]. cbn [length]. by rewrite (proj2 (Z.ltb_lt _ _)) by lia. Qed.

Lemma devfs_open_ok s t E path ws :
  tree_of s root t E → path_buffer path ws → norm ws ≠ [] →
  devfs_open_file root root path s = Ok (match tree_lookup t (norm ws) with Some (b, _) => b | None => NULL end, s).
Proof.
  intros Ht Hp Hn. destruct (path_words_ok ws path Hp) as (words & Hw & HF & Hok). unfold devfs_open_file.
  rewrite (bind_ok _ _ _ _ _ (tree_root_ok _ _ _ Ht)). pose proof Hp as (Hne & _ & Hh & _).
  destruct (strcmp_ok path (join ws) (literal "/") [SLASH] Hh) as (d & Hd & Hiff); [split; [by repeat constructor|by exists []]|].
  rewrite (bind_ok _ _ _ _ _ (deref_ok _ _ _ Hd)). assert (ctrue d = true) as ->.
  { apply ctrue_true. intros E'%Hiff. destruct ws as [|x ws]; [done|]. rewrite join_cons in E'. injection E' as E'.
    apply app_nil in E' as [-> E']. destruct ws; [|by rewrite join_cons in E']. by destruct Hn. }
  cbn [negb]. rewrite (bind_ok _ _ _ _ _ (deref_ok _ _ _ Hw)). by apply search_file_ok; [apply Ht|].
Qed.

(** [register_dev_node] adds the node it is given; afterwards
    [devfs_open_file] finds every node under any spelling of its path, with the
    data and the operations of its driver, and the directories above the nodes,
    and nothing else. *)
Theorem dev_nodes_found s t E path ws mode p o :
  tree_of s root t E → path_buffer path ws → norm ws ≠ [] → apart E (norm ws) → ¬ no_memory (2 * length (norm ws)) s →
  ∃ b s' t', register_dev_node root path mode o p s = Ok (b, s') ∧ b ≠ NULL ∧
    tree_of s' root t' (E ++ [((p, o), norm ws)]) ∧
    ∀ path' ws', path_buffer path' ws' → norm ws' ≠ [] →
      ∃ c, devfs_open_file root root path' s' = Ok (c, s') ∧
        (∀ x, (x, norm ws') ∈ E ++ [((p, o), norm ws)] → ∃ f, ffiles s' !! c = Some f ∧ (priv f, ops f) = x) ∧
        ((∀ x m, (x, m) ∈ E ++ [((p, o), norm ws)] → ¬ norm ws' `prefix_of` m) → c = NULL).
Proof.
  intros Ht Hp Hn Hap Hmem. destruct (path_words_ok ws path Hp) as (words & Hw & HF & Hok).
  destruct (put_node_ok s root t E words (norm ws) p o Ht HF Hn Hok Hap Hmem) as (s1 & s2 & b & s' & t' & H1 & H2 & H3 & Hb & H4 & Ht' & _).
  exists b, s', t'. split_and!; [|done|done|].
  - unfold register_dev_node. rewrite (bind_ok _ _ _ _ _ (tree_root_ok _ _ _ Ht)), (bind_ok _ _ _ _ _ (deref_ok _ _ _ Hw)).
    rewrite (bind_ok _ _ _ OK s1) by (by rewrite parents_run). change (negb (OK =? OK)) with false. cbv iota.
    rewrite (bind_ok _ _ _ _ _ H2). change (negb (OK =? OK)) with false. cbv iota. rewrite (bind_ok _ _ _ _ _ H3).
    rewrite (bind_ok _ _ _ () s2) by (by apply ASSERT_true, ctrue_true).
    transitivity (((upd_file b (set_priv p) ;; upd_file b (set_ops o)) ;; mret b) s2); [by rewrite bind_assoc_run|].
    by rewrite (bind_ok _ _ _ _ _ H4).
  - intros path' ws' Hp' Hn'. eexists. split; [by eapply devfs_open_ok|]. split.
    + intros x Hx. destruct (to_files _ _ _ _ Ht' _ _ Hx) as (c & f & Hc & Hf & Ex). rewrite Hc. by exists f.
    + intros Hno. destruct (tree_lookup t' (norm ws')) as [[c ty]|] eqn:El; [|done]. exfalso.
      assert (path_ok (norm ws')) as Hpath.
      { pose proof (norm_proper ws' [] (Forall_nil_2 _)) as Hpr. fold (norm ws') in Hpr. eapply Forall_impl; [exact Hpr|]; by intros ? []. }
      destruct (to_names _ _ _ _ Ht' _ _ Hpath El) as (x & m & Hm & Hpre & _). by eapply Hno.
Qed.
End nodes.

(** ** Examples *)
Module ZeldaFsExample.
Import MallocExample MemFsExample FsTreeExample.
#[local] Instance kernel_heap : KHeap mstate := malloc_heap bins.
#[local] Instance kernel_heap_laws : KHeapLaws mstate := malloc_heap_laws bins bins_place.

(** the files /a/b and /c *)
Definition some_files : list (list (list Z) * list Z) := [([[97]; [98]], [1; 2; 3]); ([[99]], [7])].
Definition image_base : Z := 0x200000.
Definition node : Z := 0x6000.
Definition fs_object : Z := 0x7000.
Definition boot : vstate mstate () := mk_vstate vfs_pre_init (mk_world fs0 ()).
Definition all_fops files : gmap Z (file_operation mstate ()) := {[zeldafs_file_ops := zeldafs_fops (drive_image files) image_base]}.
Definition all_fs : gmap Z (file_system mstate ()) := {[fs_object := mk_fs (zeldafs_ops node) 0 0]}.

Lemma no_entries e : e ∈ vfs_pre_init → mount_valid e = false.
Proof. intros [i Hi]%list_elem_of_lookup. by apply lookup_replicate in Hi as [-> _]. Qed.

Lemma some_files_ok : Forall image_file some_files.
Proof. repeat constructor; by vm_compute. Qed.

Lemma some_names_free : prefix_free ((norm ∘ fst) <$> some_files).
Proof.
  change ((norm ∘ fst) <$> some_files) with [[[97]; [98]]; [[99 : Z]]].
  intros [|[|i]] [|[|j]]; cbn; intros n m Hn Hm; simplify_eq; try done; intros [k Hk]; discriminate.
Qed.

(** the path /x/../a//b *)
Definition spelling : list Z := literal "/x/../a//b".
Lemma spelling_own : own_path boot spelling [[120]; [46; 46]; [97]; []; [98]].
Proof.
  split_and!; [split_and!; [done| | |by vm_compute]|by vm_compute|].
  - repeat constructor; by vm_compute.
  - split; [by repeat constructor|by exists []].
  - intros e He [Hv _]. by rewrite (no_entries e He) in Hv.
Qed.

Lemma image_served_witness :
  ∃ s' b s2, zeldafs_init (drive_image some_files) image_base node fs_object (replicate 256 5) boot = Ok ([0x200000; 0x20010f], s') ∧
    do_vfs_open all_fs spelling 0 0 s' = Ok (b, s2) ∧ b ≠ NULL ∧
    serves (all_fops some_files) s2 b ([[97]; [98]], [1; 2; 3]).
Proof.
  destruct (image_served some_files image_base node fs_object some_files_ok ltac:(by vm_compute) some_names_free ltac:(by vm_compute)
    (all_fops some_files) (lookup_singleton_eq _ _) all_fs 0 0 (lookup_singleton_eq _ _) boot (replicate 256 5)) as (_ & s' & Hr & Hopen).
  - by destruct fs0_hierarchy as (_ & _ & _ & _ & ?).
  - done.
  - apply memory_there. vm_compute. reflexivity.
  - apply vfs_pre_init_ok.
  - intros e He [Hv _]. by rewrite (no_entries e He) in Hv.
  - intros Hall. apply (Forall_lookup_1 _ _ 0 no_mount) in Hall; done.
  - destruct (Hopen spelling _ 0 0 spelling_own) as [Hfile _].
    destruct (Hfile ([[97]; [98]], [1; 2; 3])) as (b & s2 & Ho & Hb & Hs); [by left|done|].
    exists s', b, s2. split_and!; [exact Hr|done|done|done].
Defined.

Lemma dev_nodes_found_witness :
  ∃ b s' t', register_dev_node 0x5000 (literal "/pts/0") 0 7 9 fs0 = Ok (b, s') ∧ tree_of s' 0x5000 t' [((9, 7), [[112; 116; 115]; [48]])].
Proof.
  assert (tree_of fs0 0x5000 (mark 0x5000) []) as Ht.
  { assert (put_file fs0 0x5000 (set_type FILE_TYPE_MARK zero_file) = fs0) as <- by (unfold put_file, fs0; cbn; by rewrite insert_singleton_eq).
    apply fresh_root; [by destruct fs0_hierarchy as (_ & _ & _ & _ & ?)|done|done]. }
  destruct (dev_nodes_found 0x5000 fs0 (mark 0x5000) [] (literal "/pts/0") [[112; 116; 115]; [48]] 0 9 7 Ht) as (b & s' & t' & Hr & _ & Ht' & _).
  - split_and!; [done| | |by vm_compute]; [repeat constructor; by vm_compute|split; [by repeat constructor|by exists []]].
  - by vm_compute.
  - by intros ? ? ?%not_elem_of_nil.
  - apply memory_there. vm_compute. reflexivity.
  - exists b, s', t'. split; [exact Hr|exact Ht'].
Defined.

(** the files /a with one byte 1, and "/b c" with one byte 2 *)
Definition blank_files : list (list (list Z) * list Z) := [([[97]], [1]); ([[98; 32; 99]], [2])].
Definition entry_of (b : Z) : file_entry := mk_fe b 0 true false.

(** A blank in the path of a file of the image makes the canonicalization
    fail, which [construct_zelda_drive_hierarchy] does not look at: the path of
    the file before is still in [c_name], and its file gets the contents.
    Reading /a returns the byte of the other file. *)
Theorem blank_name_replaces_file :
  match (zeldafs_init (drive_image blank_files) image_base node fs_object (replicate 256 5) ;;
         b ← do_vfs_open all_fs (literal "/a") 0 0;
         do_vfs_read (all_fops blank_files) (entry_of b) [0] 1) boot with
  | Ok ((n, buffer, _), _) => n = 1 ∧ buffer = [2]
  | Err _ => False
  end.
Proof. vm_compute. done. Qed.
End ZeldaFsExample.
