(* ===== verification/Exec.v ===== *)
(** * Running a program from a file: call_sys_execve of kernel/task_misc.c

    The whole call: the path of the program and its command line are composed
    (FileCalls, Elf), the file is read into kernel memory through the virtual
    file system (Vfs), checked (Elf) and loaded as a new task (Loader).  The
    state has the files with the working directory of the caller, and the tasks
    and memory of the loader; the buffer for the file comes from the [malloc] of
    Loader, and its bytes are a list. *)

From Stdlib Require Import ZifyNat.
From stdpp Require Import gmap list strings.
From S2P Require Import Prelude CString Malloc KHeap PageAlloc Paging Printk Task Sched MemFs Vma TaskPaging Space Path FsTree TmpFs Vfs ZeldaFs FileCalls Elf Loader.
Open Scope Z_scope.
Open Scope zelda_scope.

Definition O_RDONLY : Z := 0.

Section exec.
Context {A : Type} `{KHeap A} {D : Type}.
Variable file_operations : gmap Z (file_operation A D).
Variable file_systems : gmap Z (file_system A D).
Variable kernel_bss_end : Z.
(** what is in memory that [malloc] returns *)
Variable residue : Z → Z → list Z.

Record estate := mk_es { evfs : vstate A D; eload : lstate; ecwd : list Z }.
Definition evfs_l : lens estate (vstate A D) := Lens evfs (λ x s, mk_es x (eload s) (ecwd s)).
Definition eload_l : lens estate lstate := Lens eload (λ x s, mk_es (evfs s) x (ecwd s)).

(** the loop of [load_file_into_memory]: the buffer and what is left; [rc] is
    unsigned, so that only 0 ends the loop early *)
Fixpoint read_file_loop (fuel : nat) (entry : file_entry) (buffer : list Z) (index left : Z) : M (vstate A D) (list Z * Z) :=
  match fuel with
  | O => fail Diverge
  | S fuel =>
      if 0 <? left then
        if Z.of_nat (length buffer) <? index then fail BadAccess else
        '(rc, chunk, entry) ← do_vfs_read file_operations entry (drop (Z.to_nat index) buffer) (i32 left);
        let buffer := take (Z.to_nat index) buffer ++ chunk in
        let rc := u32 rc in
        if rc <=? 0 then mret (buffer, left)
        else read_file_loop fuel entry buffer (u32 (index + rc)) (u32 (left - rc))
      else mret (buffer, left)
  end.

(** the end of [load_file_into_memory] at [error_file] *)
Definition error_file (file : Z) : M estate (Z * list Z) :=
  rc ← zoom evfs_l (do_vfs_close file);
  ASSERT (! rc) ;;
  mret (NULL, []).

(** the buffer and its bytes, of which there are [*file_length] *)
Definition load_file_into_memory (path : list Z) : M estate (Z * list Z) :=
  file ← zoom evfs_l (do_vfs_open file_systems path O_RDONLY 0);
  if ! file then mret (NULL, []) else
  f ← zoom evfs_l (on_files (get_file file));
  if negb (type f =? FILE_TYPE_REGULAR) then error_file file else
  '(rc, _stat) ← zoom evfs_l (do_vfs_stat file_operations file_systems path zero_stat);
  if ctrue rc then error_file file else
  if st_size _stat <=? 0 then error_file file else
  buffer ← zoom eload_l (malloc_align_mapped kernel_bss_end (st_size _stat));
  if ! buffer then error_file file else
  '(bytes, left) ← zoom evfs_l (read_file_loop (S (Z.to_nat (st_size _stat))) (mk_fe file 0 false false)
                                  (residue buffer (st_size _stat)) 0 (st_size _stat));
  if 0 <? left then
    zoom eload_l (on_k (kfree buffer)) ;;
    error_file file
  else mret (buffer, bytes).

(** [error_out] of [call_sys_execve] *)
Definition execve_error (file_memory : Z) : M estate Z :=
  when (ctrue file_memory) (zoom eload_l (on_k (kfree file_memory))) ;;
  mret (- ERR_GENERIC).

Definition call_sys_execve (filename : list Z) (argv envp : list (list Z)) : M estate Z :=
  cur ← zoom eload_l (on_k (gets current));
  ASSERT (ctrue cur) ;;
  cwd ← gets ecwd;
  absolute_path ← deref (compose_absolute_path cwd zero_path filename);
  commands_line ← deref (compose_commands envp argv);
  '(file_memory, bytes) ← load_file_into_memory absolute_path;
  if ! file_memory then execve_error NULL else
  rc ← deref (validate_static_elf32_format bytes (Z.of_nat (length bytes)));
  if ctrue rc then execve_error file_memory else
  '(rc, task_id) ← zoom eload_l (load_static_elf32 kernel_bss_end bytes (text commands_line) (-1));
  if ctrue rc then execve_error file_memory else
  ASSERT (0 <=? task_id) ;;
  zoom eload_l (on_k (kfree file_memory)) ;;
  mret task_id.
End exec.
Arguments estate : clear implicits.

(** ** Reading the file *)
Section proofs.
Context {A : Type} `{!KHeap A, !KHeapLaws A} {D : Type}.
Variable file_operations : gmap Z (file_operation A D).
Variable file_systems : gmap Z (file_system A D).
Variable bss : Z.
Hypothesis bss_place : 0 < bss ≤ PAGE_SPACE_BOTTOM.
Variable residue : Z → Z → list Z.
Hypothesis residue_size : ∀ a n, 0 ≤ n → lenZ (residue a n) = n.
Implicit Types s : estate A D.

(** what [load_file_into_memory] needs of the file system behind a path: an open
    regular file [b] with the bytes [d] *)
Record readable (v : vstate A D) (path d : list Z) (b : Z) (v1 : vstate A D) : Prop := {
  rd_open : do_vfs_open file_systems path O_RDONLY 0 v = Ok (b, v1);
  rd_file : b ≠ NULL ∧ ∃ f, ffiles (files_of v1) !! b = Some f ∧ type f = FILE_TYPE_REGULAR;
  rd_stat : ∃ m, do_vfs_stat file_operations file_systems path zero_stat v1 = Ok ((OK, mk_stat m (lenZ d)), v1);
  rd_read : ∀ e buffer, fe_file e = b → fe_offset e = 0 → lenZ buffer = lenZ d →
    do_vfs_read file_operations e buffer (lenZ d) v1 = Ok ((lenZ d, d, advance e (lenZ d)), v1) }.

(** the memory after [malloc_align_mapped]: fewer blocks and more kernel pages *)
Definition with_pages (l : lstate) (h : list Z) (p : pstate) : lstate :=
  mk_ls (lset paging_l (mk_tp p (tareas (paging (lk l)))) (lk l)) h (ram l) (task_seed l) (task_names l).

Lemma malloc_mapped_ok (l : lstate) a h n len :
  heap l = a :: h → block_ok a len → machine_ok bss (n + heap_pages len) (pages l) →
  ∃ p, malloc_align_mapped bss len l = Ok (a, with_pages l h p) ∧ machine_ok bss n p ∧ grown_pages (pages l) p.
Proof.
  intros Eh (Ha & Hl & Hhi) Hm. destruct (map_heap_loop_ok bss (frames a (a + len)) n (pages l) a (a + len)) as (p & E & Hm' & Hg);
    [done|by replace (a + len - a) with len by lia|done|done|unfold frames, PAGE_SIZE; lia|unfold frames; lia|].
  exists p. split_and!; [|done|done]. unfold malloc_align_mapped, kmalloc.
  rewrite (bind_ok _ _ _ a (mk_ls (lk l) h (ram l) (task_seed l) (task_names l))) by (by rewrite Eh).
  rewrite (proj2 (ctrue_true a)) by lia. cbn [negb]. rewrite (u32_small (a + len)) by lia.
  rewrite (bind_ok _ _ _ () (with_pages l h p)); [done|]. unfold on_pg, on_tp, on_k, on_ps.
  exact (zoom_ok lk_l _ (mk_ls (lk l) h (ram l) (task_seed l) (task_names l)) () _ (zoom_ok paging_l _ (lk l) () _ (zoom_ok tps_l _ (paging (lk l)) () _ E))).
Qed.

Lemma read_file_loop_ok v1 b d buffer :
  (∀ e buf, fe_file e = b → fe_offset e = 0 → lenZ buf = lenZ d →
     do_vfs_read file_operations e buf (lenZ d) v1 = Ok ((lenZ d, d, advance e (lenZ d)), v1)) →
  0 < lenZ d < 2147483648 → lenZ buffer = lenZ d →
  read_file_loop file_operations (S (Z.to_nat (lenZ d))) (mk_fe b 0 false false) buffer 0 (lenZ d) v1 = Ok ((d, 0), v1).
Proof.
  intros Hrd Hd Hb. destruct (Z.to_nat (lenZ d)) as [|n] eqn:En; [lia|]. cbn [read_file_loop].
  rewrite (proj2 (Z.ltb_lt 0 (lenZ d))) by lia. rewrite (proj2 (Z.ltb_ge (lenZ buffer) 0)) by lia.
  change (drop (Z.to_nat 0) buffer) with buffer. rewrite i32_small by lia.
  rewrite (bind_ok _ _ _ _ _ (Hrd (mk_fe b 0 false false) buffer eq_refl eq_refl Hb)). cbv beta iota zeta.
  rewrite (u32_small (lenZ d)) by lia. rewrite (proj2 (Z.leb_gt (lenZ d) 0)) by lia. rewrite Z.sub_diag. by rewrite Z.ltb_irrefl.
Qed.

Lemma load_file_ok s path d b v1 fm h n :
  readable (evfs s) path d b v1 → 0 < lenZ d < 2147483648 →
  heap (eload s) = fm :: h → block_ok fm (lenZ d) → machine_ok bss (n + heap_pages (lenZ d)) (pages (eload s)) →
  ∃ p, load_file_into_memory file_operations file_systems bss residue path s = Ok ((fm, d), mk_es v1 (with_pages (eload s) h p) (ecwd s)) ∧
    machine_ok bss n p ∧ grown_pages (pages (eload s)) p.
Proof.
  intros [Ho (Hb & f & Hf & Hty) [m Hst] Hrd] Hd Eh Hfm Hm. destruct (malloc_mapped_ok _ _ _ n _ Eh Hfm Hm) as (p & Hma & Hmp & Hg).
  exists p. split_and!; [|done|done]. destruct Hfm as (Hfm & _). clear Hm Hg. destruct s as [v l cwd]. cbn [evfs eload ecwd] in *.
  unfold load_file_into_memory. rewrite (bind_ok _ _ _ _ _ (zoom_ok evfs_l _ (mk_es v l cwd) b v1 Ho)), (proj2 (ctrue_true b) Hb). cbn [negb].
  rewrite (bind_ok _ _ _ _ _ (zoom_ok evfs_l _ (mk_es v1 l cwd) f v1 (look_run v1 b f Hf))). rewrite Hty, Z.eqb_refl. cbn [negb].
  rewrite (bind_ok _ _ _ _ _ (zoom_ok evfs_l _ (mk_es v1 l cwd) _ v1 Hst)). cbv beta iota. change (ctrue OK) with false. cbn [st_size].
  rewrite (proj2 (Z.leb_gt (lenZ d) 0)) by lia.
  rewrite (bind_ok _ _ _ _ _ (zoom_ok eload_l _ (mk_es v1 l cwd) _ _ Hma)).
  rewrite (proj2 (ctrue_true fm)) by lia. cbn [negb].
  pose proof (read_file_loop_ok v1 b d (residue fm (lenZ d)) Hrd Hd (residue_size fm (lenZ d) ltac:(lia))) as Hl.
  by rewrite (bind_ok _ _ _ _ _ (zoom_ok evfs_l _ (mk_es v1 (with_pages l h p) cwd) _ v1 Hl)).
Qed.

(** ** The call *)

(** the strings of a call that a command line can hold *)
Record request_ok (envp : list (list Z)) (prog : list Z) (args : list (list Z)) : Prop := {
  rq_length : lenZ (command_line envp (prog :: args)) < MAX_PATH;
  rq_env : Forall variable_ok envp;
  rq_args : Forall (Forall unmarked) (prog :: args);
  rq_prog : EQUALS ∉ prog }.

Lemma request_command envp prog args :
  request_ok envp prog args →
  ∃ buf, compose_commands envp (prog :: args) = Some buf ∧ command_ok (text buf) envp prog args ∧ tidy (text buf).
Proof.
  intros [Hl Hv Ha Hp]. pose proof (tidy_command_line _ _ Hv Ha) as Htidy. pose proof (command_line_nonzero _ _ Hv Ha) as Hz. pose proof (words_of_command_line _ _ Hv Ha) as Hw.
  pose proof (length_command_line envp (prog :: args)) as Hlen. destruct (compose_commands_ok _ _ Hl Hz) as (buf & Hc & Et).
  exists buf. split; [done|]. rewrite Et. assert (lenZ (words_of (command_line envp (prog :: args))) ≤ 127) as Hn.
  { rewrite Hw, length_app. unfold MAX_PATH in Hl. lia. }
  assert (lenZ prog ≤ lenZ (command_line envp (prog :: args))) as Hpl.
  { unfold command_line. rewrite fmap_cons, length_app. cbn [concat]. rewrite length_app. unfold quoted_argument at 1. cbn [length].
    rewrite length_app. lia. }
  split; [|done]. split; [done|unfold STACK_LENGTH; lia|done| |done|lia|].
  - eapply Forall_impl; [exact Hv|]. intros ? (k & v & -> & _). apply elem_of_app. right. by left.
  - unfold space_for, DEFAULT_TASK_NON_PRIVILEGED_STACK_SIZE, MAX_PATH in *. lia.
Qed.

(** the results of [malloc] are the rest [h] *)
Definition with_mallocs (l : lstate) (h : list Z) : lstate := mk_ls (lk l) h (ram l) (task_seed l) (task_names l).

(** the loader can still work when the file is in memory *)
Lemma can_load_file l headers n h p tk stk sig areas :
  can_load bss n headers (with_mallocs l h) tk stk sig areas → grown_pages (pages l) p → machine_ok bss (load_pages (loads headers)) p →
  can_load bss 0 headers (with_pages l h p) tk stk sig areas.
Proof.
  intros [H1 H2 H3 H4 H5 H6 _ H8] Hg Hm. split; try done.
  eapply caller_kept; [exact (gp_kernel _ _ Hg)|exact (gp_words _ _ Hg)|exact H8].
Qed.

Lemma loaded_grown mem hdr headers env prog args tk l l1 l' :
  grown_pages (pages l) (pages l1) → current (lk l1) = current (lk l) → run_queue (lk l1) = run_queue (lk l) →
  task_table (lk l1) = task_table (lk l) → tasks (lk l1) = tasks (lk l) → task_seed l1 = task_seed l → ram l1 = ram l →
  loaded mem hdr headers env prog args tk l1 l' → loaded mem hdr headers env prog args tk l l'.
Proof.
  intros Hg E1 E2 E3 E4 E5 E6 [H1 H2 H3 H4 (t & sp & name & H5)]. split; [congruence|congruence|congruence|intros a Ha; rewrite <-E4; by apply H4|].
  exists t, sp, name. rewrite <-E5, <-E6. repeat (split; [apply H5|]). eapply task_memory_grown; [exact Hg|apply H5].
Qed.

Lemma execve_ok s filename apath d b v1 hdr headers envp prog args fm h tk stk sig l :
  compose_absolute_path (ecwd s) zero_path filename = Some apath → readable (evfs s) apath d b v1 → lenZ d < 2147483648 →
  validate_static_elf32_format d (lenZ d) = Some OK → image_ok d hdr headers → request_ok envp prog args →
  current (lk (eload s)) ≠ NULL → 0 ≤ task_seed (eload s) →
  heap (eload s) = fm :: h → block_ok fm (lenZ d) → can_load bss (heap_pages (lenZ d)) headers (with_mallocs (eload s) h) tk stk sig l →
  ∃ s', call_sys_execve file_operations file_systems bss residue filename (prog :: args) envp s = Ok (task_seed (eload s), s') ∧
    evfs s' = v1 ∧ loaded d hdr headers envp prog args tk (eload s) (eload s').
Proof.
  intros Hpath Hrd Hd Hval Him Hrq Hcur Hid Eh Hfm Hcan. destruct (request_command _ _ _ Hrq) as (buf & Hc & Hcmd & Htidy).
  assert (0 < lenZ d) as Hpos by (pose proof (im_header _ _ _ Him) as E; destruct d; [done|simpl; lia]).
  pose proof (cl_machine _ _ _ _ _ _ _ _ Hcan) as Hm. rewrite Nat.add_comm in Hm.
  destruct (load_file_ok s apath d b v1 fm h _ Hrd ltac:(lia) Eh Hfm Hm) as (p & Hlf & Hmp & Hg).
  pose proof (can_load_file _ _ _ _ _ _ _ _ _ Hcan Hg Hmp) as Hcan1.
  destruct (load_static_elf32_ok bss d hdr headers (text buf) (-1) envp prog args _ tk stk sig l bss_place Him Hcmd Hcan1 (or_introl Htidy))
    as (l' & Hld & Hloaded). destruct Hfm as (Hfm & _).
  destruct s as [v ld cwd]. cbn [evfs eload ecwd] in *. unfold call_sys_execve.
  rewrite (bind_ok _ _ _ (current (lk ld)) (mk_es v ld cwd)) by (by destruct ld).
  rewrite (proj2 (ctrue_true _) Hcur). mstep. mstep. cbn [ecwd].
  rewrite (bind_ok _ _ _ _ _ (deref_ok _ _ _ Hpath)), (bind_ok _ _ _ _ _ (deref_ok _ _ _ Hc)), (bind_ok _ _ _ _ _ Hlf). cbv beta iota.
  rewrite (proj2 (ctrue_true fm)) by lia. cbn [negb]. rewrite (bind_ok _ _ _ _ _ (deref_ok _ _ _ Hval)). change (ctrue OK) with false. cbv iota.
  rewrite (bind_ok _ _ _ _ _ (zoom_ok eload_l _ (mk_es v1 (with_pages ld h p) cwd) _ l' Hld)). cbv beta iota. change (ctrue OK) with false. cbv iota.
  change (task_seed (with_pages ld h p)) with (task_seed ld). rewrite (proj2 (Z.leb_le 0 (task_seed ld)) Hid). mstep.
  eexists. split; [by destruct l' as [[] ? ? ? ?]|]. cbn [evfs eload]. split; [done|].
  apply (loaded_grown _ _ _ _ _ _ _ _ (with_pages ld h p)); [done..|]. destruct Hloaded as [H1 H2 H3 H4 H5].
  destruct l' as [[] ? ? ? ?]. split; [exact H1|exact H2|exact H3|exact H4|exact H5].
Qed.
End proofs.

(** ** Programs of the boot image *)
Section image.
Context {A : Type} `{!KHeap A, !KHeapLaws A} {D : Type}.
Variable files : list (list (list Z) * list Z).
Variable zelda_drive_start zelda_root_node zeldafs : Z.
Hypothesis files_ok : Forall image_file files.
Hypothesis drive_place : 0 < zelda_drive_start ∧ zelda_drive_start + lenZ (drive_image files) < 2147483648.
Hypothesis names_free : prefix_free ((norm ∘ fst) <$> files).
Variable file_operations : gmap Z (file_operation A D).
Hypothesis image_operations :
  file_operations !! zeldafs_file_ops = Some (zeldafs_fops (drive_image files) zelda_drive_start).
Variable file_systems : gmap Z (file_system A D).
Variable kind fs_data : Z.
Hypothesis image_system : file_systems !! zeldafs = Some (mk_fs (zeldafs_ops zelda_root_node) kind fs_data).
Variable bss : Z.
Hypothesis bss_place : 0 < bss ≤ PAGE_SPACE_BOTTOM.
Variable residue : Z → Z → list Z.
Hypothesis residue_size : ∀ a n, 0 ≤ n → lenZ (residue a n) = n.
Implicit Types s : estate A D.

Lemma image_readable v0 v t path ws f :
  mounted files zelda_drive_start zelda_root_node zeldafs v0 v t → own_path v0 path ws → f ∈ files → norm f.1 = norm ws → 
  ∃ b fl, lenZ f.2 < 2147483648 ∧ ffiles (files_of v) !! b = Some fl ∧
    readable file_operations file_systems v path f.2 b (touched v b (opened fl)) ∧
    mounted files zelda_drive_start zelda_root_node zeldafs v0 (touched v b (opened fl)) t.
Proof.
  intros Hmo Hp Hf En. assert (image_file f) as Hif by (by eapply Forall_forall).
  destruct (image_open_ok files zelda_drive_start zelda_root_node zeldafs files_ok names_free file_systems kind fs_data image_system
    v0 v t path ws f Hmo Hp Hf En) as (b & fl & Ho & Hbn & Hfl & Hty & Hops & Hpl & Hl).
  destruct (placed_length files zelda_drive_start drive_place _ _ Hif Hpl) as (_ & Ha & Hend). unfold SIZEOF_ZELDA_FILE in Hend.
  assert (mounted files zelda_drive_start zelda_root_node zeldafs v0 (touched v b (opened fl)) t) as Hmo1
    by (eapply mounted_touch; [done|exact Hfl|done..]).
  assert (ffiles (files_of (touched v b (opened fl))) !! b = Some (opened fl)) as Hfl1 by apply lookup_insert_eq.
  exists b, fl. split; [lia|]. split; [done|]. split; [|done]. split.
  - apply Ho.
  - split; [done|]. exists (opened fl). split; [done|exact Hty].
  - eexists. by eapply (image_stat_ok files zelda_drive_start zelda_root_node zeldafs).
  - intros e buffer He Hoff Hlen.
    destruct (image_serves files zelda_drive_start drive_place file_operations image_operations (touched v b (opened fl)) b (opened fl) f Hif Hfl1 Hpl Hops
      e buffer (lenZ f.2) He) as [Hr _]; [lia|lia|lia|].
    assert (read_count f (fe_offset e) (lenZ f.2) = lenZ f.2) as Ec by (unfold read_count; rewrite Hoff; lia).
    rewrite Ec in Hr. rewrite Hr. do 4 f_equal. unfold read_bytes. rewrite Ec, Hoff. change (drop (Z.to_nat 0) f.2) with f.2.
    rewrite take_ge by lia. unfold overlay. simpl. rewrite drop_ge by lia. by rewrite app_nil_r.
Qed.


(** [load_file_into_memory] closes the file only on its error paths: after
    every program that was read the file has one reference more, which nothing
    ever takes back. *)
Theorem program_file_stays_open v0 t s path ws f fm h :
  mounted files zelda_drive_start zelda_root_node zeldafs v0 (evfs s) t → own_path v0 path ws → f ∈ files → norm f.1 = norm ws →
  0 < lenZ f.2 → heap (eload s) = fm :: h → block_ok fm (lenZ f.2) → machine_ok bss (heap_pages (lenZ f.2)) (pages (eload s)) →
  ∃ b fl s', load_file_into_memory file_operations file_systems bss residue path s = Ok ((fm, f.2), s') ∧
    ffiles (files_of (evfs s)) !! b = Some fl ∧
    ffiles (files_of (evfs s')) !! b = Some (set_refer_count (u32 (refer_count fl + 1)) fl).
Proof.
  intros Hmo Hown Hf En Hpos Eh Hfm Hm. destruct (image_readable v0 (evfs s) t path ws f Hmo Hown Hf En) as (b & fl & Hlen & Hfl & Hrd & _).
  destruct (load_file_ok file_operations file_systems bss bss_place residue residue_size s path f.2 b _ fm h 0 Hrd ltac:(lia) Eh Hfm Hm) as (p & Hr & _).
  eexists b, fl, _. split; [exact Hr|]. split; [done|]. apply lookup_insert_eq.
Qed.
End image.

(** ** Examples *)
Module ExecExample.
Import MallocExample MemFsExample FsTreeExample ZeldaFsExample ElfExample LoaderExample.
#[local] Instance kernel_heap : KHeap mstate := malloc_heap bins.
#[local] Instance kernel_heap_laws : KHeapLaws mstate := malloc_heap_laws bins bins_place.

(** the program of ElfExample as /bin/ls *)
Definition program_files : list (list (list Z) * list Z) := [([line "bin"; line "ls"], good)].
Definition zeros (_ n : Z) : list Z := replicate (Z.to_nat n) 0.
Definition bin_ls : list Z := literal "/bin//ls".

Lemma bin_ls_own : own_path boot (bin_ls ++ replicate 247 0) [line "bin"; []; line "ls"].
Proof.
  split_and!; [split_and!; [done| | |by vm_compute]|by vm_compute|].
  - repeat constructor; by vm_compute.
  - split; [by repeat constructor|by eexists].
  - intros e He [Hv _]. by rewrite (no_entries e He) in Hv.
Qed.

Lemma program_files_ok : Forall image_file program_files.
Proof. repeat constructor; by vm_compute. Qed.

Lemma program_names_free : prefix_free ((norm ∘ fst) <$> program_files).
Proof. intros [|i] [|j]; done. Qed.

(** the image is mounted, and task 5 runs *)
Definition starting (v : vstate mstate ()) : estate mstate () :=
  mk_es v (mk_ls (lk before) (0x10300000 :: heap before) (ram before) (task_seed before) (task_names before)) (literal "/").

Lemma program_mounted : ∃ v t, mounted program_files image_base node fs_object boot v t.
Proof.
  destruct (zeldafs_init_ok program_files image_base node fs_object program_files_ok ltac:(by vm_compute) program_names_free ltac:(by vm_compute)
    boot (replicate 256 5)) as (v & t & _ & Hm).
  - by destruct fs0_hierarchy as (_ & _ & _ & _ & ?).
  - done.
  - apply memory_there. vm_compute. reflexivity.
  - apply vfs_pre_init_ok.
  - intros e He [Hv _]. by rewrite (no_entries e He) in Hv.
  - intros Hall. apply (Forall_lookup_1 _ _ 0 no_mount) in Hall; done.
  - by exists v, t.
Qed.


(** a file whose reads fail with -1 *)
Definition failing : gmap Z (file_operation mstate ()) :=
  {[9 := mk_fops None None None (Some (λ _ _ buffer _, mret (-1, buffer))) None None None]}.
Definition failing_file : vstate mstate () :=
  mk_vstate [] (mk_world (mk_fstate (fmem fs0) {[3 := set_ops 9 zero_file]}) ()).

(** [rc] in [load_file_into_memory] is unsigned and the test [rc <= 0] does not
    see errors: the loop goes on and writes in front of the buffer. *)
Theorem read_error_ignored : read_file_loop failing 5 (mk_fe 3 0 false false) [0; 0] 0 2 failing_file = Err BadAccess.
Proof. vm_compute. reflexivity. Qed.

(** When memory is enough for the file but not for the task structure, the
    loader reports success without a task, and [execve] halts the machine. *)
Theorem execve_panics_without_memory :
  match zeldafs_init (drive_image program_files) image_base node fs_object (replicate 256 5) boot with
  | Ok (_, v) =>
      call_sys_execve (all_fops program_files) all_fs 0x140000 zeros bin_ls [line "/bin/ls"] []
        (mk_es v (mk_ls (lk before) [0x10300000] (ram before) (task_seed before) (task_names before)) (literal "/")) = Err AssertFail
  | Err _ => False
  end.
Proof. vm_compute. reflexivity. Qed.
End ExecExample.
