(* ===== verification/Sleep.v ===== *)
(** * Sleeping tasks: sleep of kernel/task_misc.c and the clock of x86/pit.c

    [sleep] puts a timer on its stack (Timer), makes the task interruptible
    (Task) and gives up the processor; it is split there.  The clock interrupt
    counts the time, fires the timers whose time has come, and every second time
    switches tasks (Sched).  The callback of the timers wakes the task up.  A
    callback that halts the machine makes the world of Timer an error. *)

From Stdlib Require Import ZifyNat.
From stdpp Require Import gmap list.
From S2P Require Import Prelude DList HeapSort Timer PageAlloc Task Sched Interrupt.
Open Scope Z_scope.
Open Scope zelda_scope.

(** the address of [sleep_callback] *)
Definition SLEEP_CALLBACK : Z := 0x3200.

Definition sleep_callback (timer priv : Z) : M kst () := raw_task_wake_up priv.

(** the call through [timer->callback] *)
Definition call_callback (callback timer priv : Z) (w : result kst) : result kst :=
  match w with
  | Err e => Err e
  | Ok k =>
      if callback =? SLEEP_CALLBACK then
        match sleep_callback timer priv k with Ok (_, k) => Ok k | Err e => Err e end
      else Err BadAccess
  end.

(** ** Starting the clock *)
Definition HZ : Z := 1000.
Definition TIMER_RESOLUTION_HZ : Z := HZ.
Definition OSCILLATPR_CHIP_FREQUENCY : Z := 1193182.
Definition PIT_CHANNEL0_PORT : Z := 0x40.
Definition PIT_CONTROL_PORT : Z := 0x43.
Definition PIT_CHANNEL0_INTERRUPT_VECTOR : Z := 0x20 + 0.

Definition refresh_pit_channel0 : M istate () :=
  let divisor := OSCILLATPR_CHIP_FREQUENCY / TIMER_RESOLUTION_HZ in
  outb PIT_CONTROL_PORT (Z.lor 0x6 0x30) ;;
  outb PIT_CHANNEL0_PORT (Z.land divisor 0xff) ;;
  outb PIT_CHANNEL0_PORT (Z.land (Z.shiftr divisor 8) 0xff).

(** [pit_handler]: the address of the handler below *)
Definition pit_init (pit_handler : Z) : M istate () :=
  register_interrupt_handler PIT_CHANNEL0_INTERRUPT_VECTOR pit_handler ;;
  refresh_pit_channel0.

(** The chip is given the divisor in two bytes, low byte first; its rate is
    within one in a thousand of HZ. *)
Lemma pit_programmed s old h :
  lenZ (handlers s) = IDT_SIZE → get (handlers s) PIT_CHANNEL0_INTERRUPT_VECTOR = Some old → old = 0 →
  ∃ s' lo hi, pit_init h s = Ok ((), s') ∧ get (handlers s') PIT_CHANNEL0_INTERRUPT_VECTOR = Some h ∧
    ports s' = ports s ++ [(PIT_CONTROL_PORT, 0x36); (PIT_CHANNEL0_PORT, lo); (PIT_CHANNEL0_PORT, hi)] ∧
    0 ≤ lo < 256 ∧ 0 ≤ hi < 256 ∧
    1000 * Z.abs (OSCILLATPR_CHIP_FREQUENCY - HZ * (lo + 256 * hi)) < OSCILLATPR_CHIP_FREQUENCY.
Proof.
  intros Hlen Hold ->. destruct (register_handler_ok s PIT_CHANNEL0_INTERRUPT_VECTOR h 0 Hlen) as (hs & Hr & _ & Hget);
    [split; [done|reflexivity]|done|].
  unfold pit_init. rewrite (bind_ok _ _ _ _ _ Hr). unfold refresh_pit_channel0, outb. do 2 mstep.
  eexists _, 0xa9, 4. split_and!; [reflexivity| |cbn; by rewrite <-!app_assoc|lia..|reflexivity]. cbn. rewrite Hget. by rewrite decide_True.
Qed.

(** ** Waking up *)

Lemma roused_abs t : live t → abs (roused t) = mk_abs (stopped (abs t)) true (pending (abs t)).
Proof. intros [Hst _]. unfold roused, abs. by destruct Hst as [Hst|[Hst|[Hst _]]]; rewrite Hst; cbn; rewrite ?Hst. Qed.

Lemma roused_rest t : page_directory (roused t) = page_directory t ∧ signal_pending (roused t) = signal_pending t.
Proof. unfold roused. by destruct (Task.state t). Qed.

(** all tasks of [ps] woken up *)
Definition wake_tasks (ps : list Z) (σ : gmap Z task) : gmap Z task := foldl (λ σ p, alter roused p σ) σ ps.
Definition wake_all (ps : list Z) (k : kst) : kst := lset tasks_l (wake_tasks ps (tasks k)) k.

Lemma wake_tasks_lookup ps : ∀ σ p, wake_tasks ps σ !! p = (if decide (p ∈ ps) then roused else id) <$> σ !! p.
Proof.
  unfold wake_tasks. induction ps as [|q ps IH]; intros σ p; cbn [foldl].
  { rewrite decide_False by apply not_elem_of_nil. by rewrite option_fmap_id. }
  rewrite IH. destruct (decide (p = q)) as [->|Hne].
  - rewrite lookup_alter_eq, (decide_True (P := q ∈ q :: ps)) by by left.
    destruct (decide (q ∈ ps)), (σ !! q); cbn; by rewrite ?roused_idem.
  - rewrite lookup_alter_ne by done. repeat case_decide; try done; exfalso; rewrite elem_of_cons in *; tauto.
Qed.

(** the task a timer wakes up *)
Definition sleeper (ts : gmap Z timer_entry) (a : Z) : Z := from_option priv 0 (ts !! a).

Definition wakeable (ts : gmap Z timer_entry) (k : kst) (a : Z) : Prop :=
  ∃ e t, ts !! a = Some e ∧ callback e = SLEEP_CALLBACK ∧ tasks k !! priv e = Some t ∧ live t.

Lemma fire_wakes ts ds : ∀ k, (∀ a, a ∈ ds → wakeable ts k a) →
  foldl (fire call_callback ts) (Ok k) ds = Ok (wake_all (sleeper ts <$> ds) k).
Proof.
  induction ds as [|a ds IH]; intros k Hds; [by destruct k|].
  destruct (Hds a) as (e & t & He & Hcb & Ht & Hl); [by left|]. cbn [foldl fmap list_fmap].
  assert (sleeper ts a = priv e) as Hsl by (unfold sleeper; by rewrite He).
  assert (fire call_callback ts (Ok k) a = Ok (put_task k (priv e) (roused t))) as ->.
  { unfold fire. rewrite He. unfold call_callback, sleep_callback. rewrite Hcb, Z.eqb_refl. by rewrite (raw_wake_ok _ _ t). }
  rewrite IH.
  - f_equal. unfold wake_all, wake_tasks, put_task. cbn. rewrite Hsl. do 2 f_equal.
    apply map_eq. intros q. destruct (decide (q = priv e)) as [->|]; [by rewrite lookup_insert_eq, lookup_alter_eq, Ht|].
    by rewrite lookup_insert_ne, lookup_alter_ne.
  - intros b Hb. destruct (Hds b) as (e' & t' & He' & Hcb' & Ht' & Hl'); [by right|]. exists e'.
    destruct (decide (priv e' = priv e)) as [E|Hne].
    + exists (roused t). split_and!; [done|done| |by apply roused_live]. rewrite E. apply put_task_lookup.
    + exists t'. split_and!; try done. cbn. by rewrite lookup_insert_ne.
Qed.

Section sleep.
(** the local queue head of the heap searches *)
Variable queue : Z.

Record sstate := mk_ss { theap : hstate; tentries : gmap Z timer_entry; now : Z; pit_ticks : Z; kern : kst }.
Definition kern_l : lens sstate kst := Lens kern (λ k s, mk_ss (theap s) (tentries s) (now s) (pit_ticks s) k).
Definition clock (s : sstate) : tstate (result kst) := mk_tstate (theap s) (tentries s) (now s) (Ok (kern s)).

(** a function of Timer *)
Definition on_timers {B} (m : M (tstate (result kst)) B) : M sstate B :=
  λ s, match m (clock s) with
       | Ok (r, t) =>
           match world t with
           | Ok k => Ok (r, mk_ss (timer_heap t) (timers t) (jiffies t) (pit_ticks s) k)
           | Err e => Err e
           end
       | Err e => Err e
       end.

(** [memset(&timer, 0x0, sizeof(timer))] of the variable at [timer] *)
Definition clear_timer (timer : Z) (s : sstate) : sstate :=
  mk_ss (mk_hstate (heap (theap s)) (<[timer := mk_bt 0 0 0]> (nodes (theap s))) (<[list_of timer := mk_elem 0 0]> (lists (theap s))))
    (<[timer := mk_timer timer_state_idle 0 0 0]> (tentries s)) (now s) (pit_ticks s) (kern s).

(** [sleep] up to [yield_cpu] *)
Definition sleep_start (timer milisecond : Z) : M sstate () :=
  modify (clear_timer timer) ;;
  c ← zoom kern_l (gets current);
  ASSERT (ctrue c) ;;
  jiffies ← gets now;
  modify (λ s, mk_ss (theap s) (<[timer := mk_timer timer_state_idle (u64 (jiffies + milisecond)) SLEEP_CALLBACK c]> (tentries s))
                 (now s) (pit_ticks s) (kern s)) ;;
  on_timers (register_timer queue timer) ;;
  zoom kern_l (transit_state c TASK_STATE_INTERRUPTIBLE).

(** [sleep] from there on, when the task runs again *)
Definition sleep_resumed (timer : Z) : M sstate Z :=
  c ← zoom kern_l (gets current);
  t ← zoom kern_l (load_task c);
  ret ← (if ctrue (signal_pending t) then
           on_timers (cancel_timer queue timer) ;;
           mret (- ERR_INTERRUPTED)
         else mret OK);
  detached ← on_timers (timer_detached timer);
  ASSERT detached ;;
  mret ret.

(** [pit_handler] up to [schedule_timer] *)
Definition pit_tick : M sstate () :=
  modify (λ s, mk_ss (theap s) (tentries s) (u64 (now s + 1)) (u32 (pit_ticks s + 1)) (kern s)) ;;
  on_timers (schedule_timer call_callback queue).

Definition pit_handler (_cpu : Z) : M sstate Z :=
  pit_tick ;;
  ticks ← gets pit_ticks;
  ready_to_schedule ← zoom kern_l (gets __ready_to_schedule);
  if (ticks mod 2 =? 0) && ctrue ready_to_schedule then zoom kern_l (schedule _cpu) else mret _cpu.

(** ** What holds of the sleeping tasks *)

(** the timers [xs] of the heap belong to different tasks, which can be woken up *)
Record sleepers (s : sstate) (P xs : list Z) : Prop := {
  sl_timers : timers_ok queue (clock s) P xs;
  sl_task : ∀ a, a ∈ xs → wakeable (tentries s) (kern s) a;
  sl_once : NoDup (sleeper (tentries s) <$> xs) }.

Lemma on_timers_ok {B} (m : M (tstate (result kst)) B) s r t k :
  m (clock s) = Ok (r, t) → world t = Ok k → on_timers m s = Ok (r, mk_ss (timer_heap t) (timers t) (jiffies t) (pit_ticks s) k).
Proof. intros Hm Hw. unfold on_timers. by rewrite Hm, Hw. Qed.

(** a variable on a kernel stack joins the pool *)
Lemma heap_ok_fresh h P xs a n :
  heap_ok queue h P xs → a ≠ 0 → (a ∉ P) → list_of a ≠ 0 → queue ≠ list_of a →
  heap_ok queue (mk_hstate (heap h) (<[a := mk_bt 0 0 0]> (nodes h)) (<[list_of a := n]> (lists h))) (a :: P) xs.
Proof.
  intros [[Hr Hn Hnd Hnn Hnull] Hsub [L1 L2 L3 L4] Hdet Hz] Ha Hfresh Hl Hq.
  assert (∀ b, b ∈ xs → b ≠ a) as Hne by (intros b Hb ->; by apply Hfresh, Hsub). split; [split|..]; cbn.
  - done.
  - intros i b Hb. rewrite lookup_insert_ne; [by apply Hn|]. apply not_eq_sym, Hne. by eapply list_elem_of_lookup_2.
  - done.
  - done.
  - by rewrite lookup_insert_ne.
  - intros b Hb. right. by apply Hsub.
  - split; cbn.
    + intros b [->|Hb]%elem_of_cons; [rewrite lookup_insert_eq; by eexists|]. apply lookup_insert_is_Some'. right. by apply L1.
    + by rewrite lookup_insert_ne.
    + intros b [->|Hb]%elem_of_cons; auto.
    + intros b [->|Hb]%elem_of_cons; auto.
  - intros b [->|Hb]%elem_of_cons Hx; [apply lookup_insert_eq|]. rewrite lookup_insert_ne; [by apply Hdet|]. by intros ->.
  - apply not_elem_of_cons. done.
Qed.

(** ** A tick *)
Lemma pit_tick_ok s P xs :
  sleepers s P xs →
  ∃ h ds xs', let n := u64 (now s + 1) in
    let s' := mk_ss h (tentries s) n (u32 (pit_ticks s + 1)) (wake_all (sleeper (tentries s) <$> ds) (kern s)) in
    pit_tick s = Ok ((), s') ∧ sleepers s' P xs' ∧ xs ≡ₚ ds ++ xs' ∧
    Forall (λ a, expiry (tentries s) a ≤ n) ds ∧ Forall (λ a, n < expiry (tentries s) a) xs'.
Proof.
  intros [Ht Hs Hn]. unfold pit_tick. mstep. set (s0 := mk_ss _ _ _ _ (kern s)).
  destruct (schedule_timer_ok call_callback queue (clock s0) P xs) as ([h ts j w] & ds & xs' & Hr & Hok & HP & Hle & Hgt & _ & Et & Ej & Ew).
  { destruct Ht. by split. }
  cbn in Et, Ej, Ew. subst ts j. assert (∀ a, a ∈ ds → wakeable (tentries s) (kern s) a) as Hds.
  { intros a Ha. apply Hs. rewrite HP. apply elem_of_app. by left. }
  rewrite fire_wakes in Ew by done. subst w. exists h, ds, xs'. cbn zeta. split_and!; [|split|done|done|done].
  - by rewrite (on_timers_ok _ _ _ _ _ Hr eq_refl).
  - done.
  - intros a Ha. destruct (Hs a) as (e & t & He & Hcb & Htk & Hl); [rewrite HP; apply elem_of_app; by right|].
    exists e. cbn. setoid_rewrite wake_tasks_lookup. rewrite Htk.
    destruct (decide (priv e ∈ sleeper (tentries s) <$> ds)); eexists; split_and!; try done. by apply roused_live.
  - rewrite HP, fmap_app in Hn. by apply NoDup_app in Hn as (_ & _ & ?).
Qed.

(** ** Falling asleep *)

(** [timer] is memory no timer of the pool uses *)
Definition fresh (timer : Z) (P : list Z) : Prop :=
  timer ≠ 0 ∧ (timer ∉ P) ∧ list_of timer ≠ 0 ∧ queue ≠ list_of timer.

Lemma heap_ordered_ext (f g : Z → Z) xs : (∀ a, a ∈ xs → f a = g a) → heap_ordered f xs → heap_ordered g xs.
Proof.
  intros E Ho j Hj Hl. specialize (Ho j Hj Hl). unfold rk in *. rewrite <-!E; [done|apply at0_elem; lia..].
Qed.

Lemma timers_ok_fresh s P xs a e :
  sleepers s P xs → fresh a P →
  timers_ok queue (clock (mk_ss (theap (clear_timer a s)) (<[a := e]> (tentries s)) (now s) (pit_ticks s) (kern s))) (a :: P) xs.
Proof.
  intros [[Hh Ho He Hs] _ _] (Ha & Hfresh & Hl & Hq).
  assert (∀ b, b ∈ xs → b ≠ a) as Hne by (intros b Hb ->; by apply Hfresh, (ho_sub _ _ _ _ Hh)).
  split; cbn in *.
  - by apply heap_ok_fresh.
  - eapply heap_ordered_ext; [|exact Ho]. intros b Hb. unfold expiry. rewrite lookup_insert_ne; [done|]. by apply not_eq_sym, Hne.
  - intros b [->|Hb]%elem_of_cons; [rewrite lookup_insert_eq; by eexists|]. apply lookup_insert_is_Some'. right. by apply He.
  - intros b t Hb. rewrite lookup_insert_ne by (by apply not_eq_sym, Hne). by apply Hs.
Qed.

Lemma sleeper_other (ts : gmap Z timer_entry) a e (xs : list Z) : (a ∉ xs) → sleeper (<[a := e]> ts) <$> xs = sleeper ts <$> xs.
Proof.
  intros Ha. apply list_fmap_ext. intros i b Hb. unfold sleeper. rewrite lookup_insert_ne; [done|].
  intros ->. apply Ha. by eapply list_elem_of_lookup_2.
Qed.

Lemma sleep_start_ok s P xs timer ms t :
  sleepers s P xs → fresh timer P → current (kern s) ≠ 0 →
  tasks (kern s) !! current (kern s) = Some t → live t → Task.state t = TASK_STATE_RUNNING →
  current (kern s) ∉ sleeper (tentries s) <$> xs →
  ∃ h xs', let c := current (kern s) in
    let s1 := mk_ss h (<[timer := mk_timer timer_state_scheduled (u64 (now s + ms)) SLEEP_CALLBACK c]> (tentries s)) (now s) (pit_ticks s)
                (put_task (kern s) c (Task.set_state TASK_STATE_INTERRUPTIBLE t)) in
    sleep_start timer ms s = Ok ((), s1) ∧ sleepers s1 (timer :: P) xs' ∧ xs' ≡ₚ timer :: xs.
Proof.
  intros Hsl Hfr Hc Ht Hl Hrun Honce. set (c := current (kern s)) in *. pose proof Hfr as (_ & Hfresh & _).
  assert (timer ∉ xs) as Hx by (intros Hx; by apply Hfresh, (ho_sub _ _ _ _ (to_heap _ _ _ _ (sl_timers _ _ _ Hsl)))).
  set (e := mk_timer timer_state_idle (u64 (now s + ms)) SLEEP_CALLBACK c).
  pose proof (timers_ok_fresh s P xs timer e Hsl Hfr) as Hok. set (s0 := mk_ss _ _ _ _ _) in Hok.
  destruct (register_timer_ok queue (clock s0) (timer :: P) xs timer e Hok) as (h & xs' & Hr & Hok' & HP);
    [by left|done|apply lookup_insert_eq|done|].
  exists h, xs'. cbn in Hr, Hok'. rewrite insert_insert_eq in Hr, Hok'. cbn zeta. split_and!; [|split|done].
  - unfold sleep_start. mstep. rewrite (bind_ok _ _ _ c (clear_timer timer s)) by (by destruct s).
    rewrite (proj2 (ctrue_true c) Hc). do 3 mstep. cbn [now clear_timer theap tentries pit_ticks kern].
    rewrite insert_insert_eq. fold e.
    erewrite bind_ok by (apply (on_timers_ok _ s0 _ _ (kern s) Hr); reflexivity). cbn [timer_heap timers jiffies].
    exact (zoom_ok kern_l _ (mk_ss _ _ _ _ (kern s)) _ _ (transit_ok (kern s) c t TASK_STATE_INTERRUPTIBLE Ht ltac:(by rewrite Hrun))).
  - destruct Hok'. by split.
  - intros a Ha. unfold wakeable. cbn. destruct (decide (a = timer)) as [->|Hne].
    + rewrite lookup_insert_eq. eexists _, _. split_and!; [done|done|apply lookup_insert_eq|]. split; [by right; left|by destruct Hl].
    + rewrite lookup_insert_ne by done. rewrite HP in Ha. apply elem_of_cons in Ha as [?|Ha]; [done|].
      destruct (sl_task _ _ _ Hsl a Ha) as (e' & t' & He' & Hcb & Ht' & Hl'). exists e'. destruct (decide (c = priv e')) as [E|].
      * rewrite E, lookup_insert_eq. eexists. split_and!; try done. split; [by right; left|by destruct Hl].
      * rewrite lookup_insert_ne by done. by exists t'.
  - cbn. rewrite HP. cbn. apply NoDup_cons. unfold sleeper at 1. rewrite lookup_insert_eq. cbn.
    rewrite sleeper_other by done. split; [done|apply Hsl].
Qed.

(** ** Waiting *)

(** task [c] waits in [sleep] for [timer], which expires at [d]; the clock
    interrupt that wakes it up is the one at time [w] *)
Record sleeping (c timer d w : Z) (s : sstate) (P xs : list Z) (t : task) : Prop := {
  wt_sleepers : sleepers s P xs;
  wt_pool : timer ∈ P;
  wt_heap : timer ∈ xs ↔ now s < w;
  wt_entry : tentries s !! timer = Some (mk_timer timer_state_scheduled d SLEEP_CALLBACK c);
  wt_task : tasks (kern s) !! c = Some t;
  wt_live : live t;
  wt_stopped : stopped (abs t) = false;
  wt_ready : ready (abs t) = bool_decide (w ≤ now s);
  wt_signal : signal_pending t = 0 }.

(** what the rest of the kernel may do meanwhile: it leaves the task and its
    timer alone and keeps the other timers in order *)
Record rely (c timer : Z) (s s' : sstate) : Prop := {
  re_now : now s' = now s;
  re_entry : tentries s' !! timer = tentries s !! timer;
  re_task : ∀ t, tasks (kern s) !! c = Some t → live t →
    ∃ t', tasks (kern s') !! c = Some t' ∧ live t' ∧ abs t' = abs t ∧ signal_pending t' = signal_pending t;
  re_sleepers : ∀ P xs, sleepers s P xs → timer ∈ P →
    ∃ P' xs', sleepers s' P' xs' ∧ timer ∈ P' ∧ (timer ∈ xs' ↔ timer ∈ xs) }.

(** [n] clock interrupts while task [c] waits *)
Inductive run (c timer : Z) : nat → sstate → sstate → Prop :=
  | run_start s : run c timer 0 s s
  | run_tick n s s1 s2 : run c timer n s s1 → pit_tick s1 = Ok ((), s2) → run c timer (S n) s s2
  | run_rest n s s1 s2 : run c timer n s s1 → rely c timer s1 s2 → run c timer n s s2.

Lemma waiting_rely c timer d w s s' P xs t :
  sleeping c timer d w s P xs t → rely c timer s s' → ∃ P' xs' t', sleeping c timer d w s' P' xs' t'.
Proof.
  intros [Hs HP Hx He Ht Hl Hst Hr Hsig] [Rn Re Rt Rs]. destruct (Rt t Ht Hl) as (t' & Ht' & Hl' & Ea & Es).
  destruct (Rs P xs Hs HP) as (P' & xs' & Hs' & HP' & Hx'). exists P', xs', t'.
  split; rewrite ?Rn, ?Re, ?Ea, ?Es; try done. by rewrite Hx'.
Qed.

Lemma waiting_tick c timer d w s P xs t :
  sleeping c timer d w s P xs t → 0 ≤ now s < 2 ^ 64 - 1 → (d ≤ now s + 1 ↔ w ≤ now s + 1) →
  ∃ s' xs' t', pit_tick s = Ok ((), s') ∧ now s' = now s + 1 ∧ sleeping c timer d w s' P xs' t'.
Proof.
  intros [Hs HP Hx He Ht Hl Hst Hr Hsig] Hnow Hd.
  destruct (pit_tick_ok s P xs Hs) as (h & ds & xs' & Hrun & Hs' & Hperm & Hle & Hgt).
  assert (u64 (now s + 1) = now s + 1) as En by (apply Z.mod_small; lia). rewrite En in *.
  assert (expiry (tentries s) timer = d) as Hexp by (unfold expiry; by rewrite He).
  assert (sleeper (tentries s) timer = c) as Hown by (unfold sleeper; by rewrite He).
  rewrite Forall_forall in Hle, Hgt.
  assert (timer ∈ xs' → now s + 1 < w) as Hkept by (intros Hin; specialize (Hgt _ Hin); lia).
  assert (timer ∈ ds → w ≤ now s + 1) as Hfired by (intros Hin; specialize (Hle _ Hin); lia).
  assert (timer ∈ xs ↔ timer ∈ ds ∨ timer ∈ xs') as Hsplit by (by rewrite Hperm, elem_of_app).
  eexists _, xs', ((if decide (c ∈ sleeper (tentries s) <$> ds) then roused else id) t). split_and!; [exact Hrun|done|].
  assert (w ≤ now s + 1 → now s < w → c ∈ sleeper (tentries s) <$> ds) as Hwoken.
  { intros ??. rewrite <-Hown. apply list_elem_of_fmap_2. destruct Hsplit as [Hsp _]. destruct Hsp as [?|?]; [by apply Hx|done|lia]. }
  assert (c ∈ sleeper (tentries s) <$> ds → w ≤ now s + 1) as Hawake.
  { intros Hc. destruct (decide (w ≤ now s + 1)) as [|Hlt]; [done|]. pose proof (sl_once _ _ _ Hs) as Hnd.
    rewrite Hperm, fmap_app in Hnd. apply NoDup_app in Hnd as (_ & Hnd & _). destruct (Hnd c Hc).
    rewrite <-Hown. apply list_elem_of_fmap_2. destruct Hsplit as [Hsp _]. destruct Hsp as [?|?]; [apply Hx; lia|by apply Hfired in H|done]. }
  split; try done; cbn [now kern tentries].
  - split; [done|]. intros ?. destruct Hsplit as [Hsp _]. destruct Hsp as [?|?]; [apply Hx; lia|apply Hfired in H0; lia|done].
  - unfold wake_all. cbn. by rewrite wake_tasks_lookup, Ht.
  - destruct (decide (c ∈ _)); [by apply roused_live|done].
  - destruct (decide (c ∈ _)); [by rewrite roused_abs|done].
  - destruct (decide (c ∈ _)) as [Hc|Hc]; [rewrite roused_abs by done; cbn; by rewrite bool_decide_eq_true_2 by auto|]. cbn [id]. rewrite Hr.
    apply bool_decide_ext. split; [lia|]. intros Hw. destruct (decide (w ≤ now s)); [done|]. destruct Hc. apply Hwoken; lia.
  - destruct (decide (c ∈ _)); [by rewrite (proj2 (roused_rest t))|done].
Qed.

Lemma run_waiting c timer d w n0 n s1 s2 :
  run c timer n s1 s2 → now s1 = n0 → 0 ≤ n0 → (d = w ∨ d = n0 ∧ w = n0 + 1) → n0 + Z.of_nat n < 2 ^ 64 →
  (∃ P xs t, sleeping c timer d w s1 P xs t) → now s2 = n0 + Z.of_nat n ∧ ∃ P xs t, sleeping c timer d w s2 P xs t.
Proof.
  intros Hrun Hn Hpos Hdw. induction Hrun as [s|n s s1 s2 Hrun IH Htick|n s s1 s2 Hrun IH Hrely]; intros Hmax Hw.
  - split; [lia|done].
  - destruct IH as (En & P & xs & t & Hw1); [done|lia|done|].
    destruct (waiting_tick _ _ _ _ _ _ _ _ Hw1) as (s' & xs' & t' & Ht' & En' & Hw'); [lia|lia|].
    rewrite Ht' in Htick. injection Htick as <-. split; [lia|by eauto].
  - destruct IH as (En & P & xs & t & Hw1); [done|lia|done|]. split; [|by eapply waiting_rely].
    rewrite (re_now _ _ _ _ Hrely). lia.
Qed.

(** ** Back from [yield_cpu] *)
Lemma resumed_ok c timer d w s P xs t :
  sleeping c timer d w s P xs t → w ≤ now s → current (kern s) = c → sleep_resumed timer s = Ok (OK, s).
Proof.
  intros [[[Hh _ _ _] _ _] HP Hx _ Ht _ _ _ Hsig] Hw Hc. unfold sleep_resumed.
  rewrite (bind_ok _ _ _ c s) by (unfold zoom, gets; cbn; rewrite Hc; by destruct s).
  rewrite (bind_ok _ _ _ t s) by (unfold zoom, load_task; cbn; unfold zoom; cbn; rewrite (load_ok _ _ _ Ht); by destruct s as [? ? ? ? []]).
  rewrite Hsig, (bind_ok (if ctrue 0 then _ else _) _ s OK s) by done. assert (timer ∉ xs) as Hnin by (rewrite Hx; lia).
  pose proof (timer_detached_ok queue (clock s) P xs timer Hh HP Hnin) as Hdet.
  rewrite (bind_ok _ _ _ _ _ (on_timers_ok _ s _ _ (kern s) Hdet eq_refl)). by destruct s.
Qed.

(** a signal ended the wait: the timer is taken out of the heap if it is still there *)
Lemma resumed_interrupted s P xs timer e t :
  heap_ok queue (theap s) P xs → timer ∈ P → tentries s !! timer = Some e →
  tasks (kern s) !! current (kern s) = Some t → signal_pending t ≠ 0 →
  ∃ h xs', sleep_resumed timer s = Ok (- ERR_INTERRUPTED,
      mk_ss h (<[timer := Timer.set_state timer_state_idle e]> (tentries s)) (now s) (pit_ticks s) (kern s)) ∧
    heap_ok queue h P xs' ∧ (timer ∉ xs') ∧ ((timer ∈ xs ∧ xs ≡ₚ timer :: xs') ∨ ((timer ∉ xs) ∧ xs' = xs ∧ h = theap s)).
Proof.
  intros Hh HP He Ht Hsig. destruct (cancel_timer_ok queue (clock s) P xs timer e Hh HP He) as (h & xs' & Hr & Hh' & Hnin & Hcase).
  exists h, xs'. split_and!; try done. unfold sleep_resumed.
  rewrite (bind_ok _ _ _ (current (kern s)) s) by (by destruct s).
  rewrite (bind_ok _ _ _ t s) by (unfold zoom, load_task; cbn; unfold zoom; cbn; rewrite (load_ok _ _ _ Ht); by destruct s as [? ? ? ? []]).
  rewrite (proj2 (ctrue_true _) Hsig), bind_assoc_run.
  rewrite (bind_ok _ _ _ _ _ (on_timers_ok _ s _ _ (kern s) Hr eq_refl)). mstep. cbn [timer_heap timers jiffies clock].
  set (s' := mk_ss _ _ _ _ _).
  pose proof (timer_detached_ok queue (clock s') P xs' timer Hh' HP Hnin) as Hdet.
  by rewrite (bind_ok _ _ _ _ _ (on_timers_ok _ s' _ _ (kern s) Hdet eq_refl)).
Qed.

(** ** Steps of the rest of the kernel *)

(** another task falls asleep *)
Lemma rely_sleep c timer s s' P xs timer' ms t :
  sleepers s P xs → timer ∈ P → fresh timer' P → current (kern s) ≠ 0 → current (kern s) ≠ c →
  tasks (kern s) !! current (kern s) = Some t → live t → Task.state t = TASK_STATE_RUNNING →
  current (kern s) ∉ sleeper (tentries s) <$> xs →
  sleep_start timer' ms s = Ok ((), s') → rely c timer s s'.
Proof.
  intros Hs HP Hfr Hc Hne Ht Hl Hrun Honce Hr.
  destruct (sleep_start_ok s P xs timer' ms t) as (h & xs' & Hr' & Hs' & HP'); [done..|]. rewrite Hr' in Hr. injection Hr as <-.
  assert (timer ≠ timer') as Hnt by (intros ->; by destruct Hfr as (_ & ? & _)). split; cbn.
  - done.
  - by rewrite lookup_insert_ne.
  - intros u Hu Hlu. rewrite lookup_insert_ne by done. eauto.
  - intros P2 xs2 Hs2 _. exists (timer' :: P), xs'. split_and!; [done|by right|].
    rewrite (harr_unique _ _ _ (ho_arr _ _ _ _ (to_heap _ _ _ _ (sl_timers _ _ _ Hs2))) (ho_arr _ _ _ _ (to_heap _ _ _ _ (sl_timers _ _ _ Hs)))).
    rewrite HP', elem_of_cons. tauto.
Qed.

(** the scheduler switches to another task *)
Lemma rely_switch c timer s k a t v :
  tasks (kern s) !! a = Some t → tasks k = <[a := set_schedule_counter v t]> (tasks (kern s)) →
  rely c timer s (mk_ss (theap s) (tentries s) (now s) (pit_ticks s) k).
Proof.
  intros Ha Ek. assert (∀ p u, tasks (kern s) !! p = Some u → live u →
    ∃ u', tasks k !! p = Some u' ∧ live u' ∧ abs u' = abs u ∧ signal_pending u' = signal_pending u) as Hk.
  { intros p u Hu Hl. rewrite Ek. destruct (decide (a = p)) as [<-|]; [|rewrite lookup_insert_ne by done; eauto].
    rewrite lookup_insert_eq. rewrite Ha in Hu. injection Hu as <-. by eexists. }
  split; cbn; [done|done|exact (Hk c)|]. intros P xs [Ht Htk Hn] HP. exists P, xs. split_and!; [|done|done]. split; cbn.
  - destruct Ht. by split.
  - intros b Hb. destruct (Htk b Hb) as (e & u & He & Hcb & Hu & Hl). destruct (Hk _ _ Hu Hl) as (u' & ? & ? & _). by exists e, u'.
  - done.
Qed.

Lemma sched_ok_wake ps k : sched_ok k → sched_ok (wake_all ps k).
Proof.
  intros [Hn Ht Hi [Hz Hs]]. split; try done.
  - intros a Ha. destruct (Ht a Ha) as [? [t Hta]]. split; [done|]. cbn. rewrite wake_tasks_lookup, Hta. by eexists.
  - split; [done|]. cbn. rewrite wake_tasks_lookup. by destruct Hs as [t ->].
Qed.

Lemma spaces_ok_wake ps k : spaces_ok k → spaces_ok (wake_all ps k).
Proof.
  intros [Hk Hw Ht]. split; [done..|]. intros a t. cbn. rewrite wake_tasks_lookup, fmap_Some. intros (u & Hu & ->).
  replace (page_directory _) with (page_directory u); [by apply (Ht a)|].
  destruct (decide _); [by rewrite (proj1 (roused_rest u))|done].
Qed.

(** the clock interrupt, which may switch tasks, is one tick of a sleeping task *)
Lemma pit_handler_run c timer s P xs cpu0 :
  sleepers s P xs → sched_ok (kern s) → spaces_ok (kern s) → exit_queue (kern s) = [] →
  ∃ esp s', pit_handler cpu0 s = Ok (esp, s') ∧ run c timer 1 s s'.
Proof.
  intros Hs Hsc Hsp Hex. destruct (pit_tick_ok s P xs Hs) as (h & ds & xs' & Htick & _). set (s1 := mk_ss _ _ _ _ _) in Htick.
  unfold pit_handler. rewrite (bind_ok _ _ _ _ _ Htick). mstep.
  rewrite (bind_ok _ _ _ (__ready_to_schedule (kern s1)) s1) by done.
  pose proof (run_tick c timer 0 s s s1 (run_start _ _ _) Htick) as Hrun.
  destruct ((pit_ticks s1 mod 2 =? 0) && _); [|by eexists _, _].
  destruct (schedule_no_exits (kern s1) cpu0) as (a & t & k & Hr & Ha & Ek);
    [by apply sched_ok_wake|by apply spaces_ok_wake|done|].
  eexists _, _. split; [exact (zoom_ok kern_l _ s1 _ _ Hr)|]. eapply run_rest; [exact Hrun|].
  exact (rely_switch c timer s1 k a t _ Ha Ek).
Qed.


(** A signal ends the wait early: [sleep] then returns -ERR_INTERRUPTED, and
    its timer is out of the heap and idle whether it had fired or not. *)
Theorem sleep_interrupted c timer d w s P xs t :
  sleeping c timer d w s P xs t →
  ∀ k u, current k = c → tasks k !! c = Some u → signal_pending u ≠ 0 →
  ∃ h xs', sleep_resumed timer (mk_ss (theap s) (tentries s) (now s) (pit_ticks s) k) = Ok (- ERR_INTERRUPTED,
      mk_ss h (<[timer := mk_timer timer_state_idle d SLEEP_CALLBACK c]> (tentries s)) (now s) (pit_ticks s) k) ∧
    heap_ok queue h P xs' ∧ (timer ∉ xs') ∧ (now s < w → xs ≡ₚ timer :: xs') ∧ (w ≤ now s → xs' = xs).
Proof.
  intros [[[Hh _ _ _] _ _] HP Hx He _ _ _ _ _] k u Hc Hu Hsig. subst c.
  destruct (resumed_interrupted (mk_ss (theap s) (tentries s) (now s) (pit_ticks s) k) P xs timer _ u Hh HP He Hu Hsig)
    as (h & xs' & Hr & Hh' & Hnin & Hcase).
  exists h, xs'. split_and!; [exact Hr|done|done|..]; intros Hw; destruct Hcase as [[Hin ?]|(? & ? & _)]; try done.
  - by apply Hx in Hw.
  - apply Hx in Hin. lia.
Qed.
End sleep.

(** ** Example: three sleeping tasks, and task 5 goes to sleep *)
Module SleepExample.
Import SchedExample.
Definition timer_of (a p : Z) : Z * timer_entry := (a, mk_timer timer_state_scheduled (10 * a) SLEEP_CALLBACK p).
Definition start : sstate :=
  mk_ss HeapExample.three
    (list_to_map ([timer_of 10 6; timer_of 20 7; timer_of 30 1; timer_of 40 0; timer_of 50 0; timer_of 60 0; timer_of 70 0]))
    100 0 machine.

Lemma task_live id st pd : st = TASK_STATE_RUNNING ∨ st = TASK_STATE_INTERRUPTIBLE → live (a_task id st pd [] []).
Proof. intros Hst. split; [cbn; tauto|reflexivity]. Qed.

Lemma start_sleepers : sleepers HeapExample.queue start HeapExample.pool [10; 20; 30].
Proof.
  assert (∀ Q : Z → Prop, Forall Q HeapExample.pool → ∀ a, a ∈ HeapExample.pool → Q a) as Hall.
  { intros Q H. by apply Forall_forall. }
  split; [split|..].
  - apply HeapExample.three_ok.
  - intros [|[|[|j]]] H1 H2; [lia|vm_compute; done|vm_compute; done|simpl in H2; lia].
  - apply Hall. repeat (apply Forall_cons; split; [by eexists; vm_compute|]); apply Forall_nil_2.
  - intros a t Ha. assert (a ∈ HeapExample.pool) as Hp by (unfold HeapExample.pool; set_solver).
    clear Ha. revert t. pattern a. apply Hall; [|done]. clear.
    repeat (apply Forall_cons; split; [intros t Ht; vm_compute in Ht; by simplify_eq|]); apply Forall_nil_2.
  - intros a Ha. unfold wakeable. rewrite !elem_of_cons, elem_of_nil in Ha. destruct Ha as [->|[->|[->|[]]]].
    1: exists (snd (timer_of 10 6)), (a_task 6 TASK_STATE_INTERRUPTIBLE 0 [] []).
    2: exists (snd (timer_of 20 7)), (a_task 7 TASK_STATE_RUNNING 0 [] []).
    3: exists (snd (timer_of 30 1)), (a_task 0 TASK_STATE_RUNNING 0 [] []).
    all: split_and!; [reflexivity|reflexivity|reflexivity|apply task_live; auto].
  - change (NoDup [6; 7; 1]). repeat constructor; rewrite ?elem_of_cons, ?elem_of_nil; lia.
Qed.


(** the task's state after [sleep(5)] and [n] clock interrupts *)
Definition state_after (n : nat) : option task_state :=
  match sleep_start HeapExample.queue 80 5 start with
  | Err _ => None
  | Ok (_, s) =>
      match Nat.iter n (λ m, m ;; pit_tick HeapExample.queue) (mret ()) s with
      | Ok (_, s) => Task.state <$> tasks (kern s) !! 5
      | Err _ => None
      end
  end.

Example sleeps_five_ticks :
  state_after <$> [0; 1; 4; 5; 6]%nat =
  Some <$> [TASK_STATE_INTERRUPTIBLE; TASK_STATE_INTERRUPTIBLE; TASK_STATE_INTERRUPTIBLE; TASK_STATE_RUNNING; TASK_STATE_RUNNING].
Proof. vm_compute. reflexivity. Qed.
End SleepExample.
