(* ===== verification/Pci.v ===== *)
(** * The PCI bus: device/pci.c and device/include/pci.h

    The bus is hardware: a register of 32 bits at every configuration address.
    The kernel selects an address through one port and reads or writes the
    register through another ([outl], [inl], [outw]).  [enumerate_pci_devices]
    looks at all functions of all devices of all buses, and [pci_post_init] gives
    every device the first driver that is registered for it.  The private data
    of a driver ([priv] of the device) belong to the rest of the kernel,
    [others]; [attach] of a driver may act on the whole state. *)

From Stdlib Require Import ZifyNat.
From stdpp Require Import gmap list.
From S2P Require Import Prelude Malloc KHeap.
Open Scope Z_scope.
Open Scope zelda_scope.

(** the registers behind the configuration ports *)
Class ConfigSpace (hw : Type) := {
  config : hw → Z → Z;
  put_config : Z → Z → hw → hw;
  put_config_word : Z → Z → hw → hw }.

(** a register that holds the base address of a region of a function *)
Definition bar_register (a : Z) : Prop := 0x10 ≤ a mod 256 ≤ 0x24.

(** the base register [v] of a memory region is the lower half of a 64-bit address *)
Definition wide (v : Z) : Prop := Z.odd v = false ∧ v / 2 mod 4 = 2.

(** the function of the register is there (it answers with a vendor), has a
    header of type 0, as devices that are not bridges have, and no 64-bit region *)
Definition plain {hw} `{ConfigSpace hw} (h : hw) (a : Z) : Prop :=
  let f := a - a mod 256 in
  config h f mod 2 ^ 16 ≠ 0xffff ∧ config h (f + 0xc) / 2 ^ 16 mod 2 ^ 7 = 0 ∧ ∀ i, 0 ≤ i < 6 → ¬ wide (config h (f + 0x10 + 4 * i)).

(** what the PCI specification says of the base registers of such functions: a
    region of [2 ^ n] bytes ignores the lowest [n] bits that are written, of which
    at most the two (I/O) or four (memory) that give its kind are not zero; no
    other register changes *)
Class ConfigLaws (hw : Type) `{ConfigSpace hw} := {
  region_bits : Z → Z;
  config_range : ∀ h a, 0 ≤ config h a < 2 ^ 32;
  put_config_bar : ∀ h a v, bar_register a → plain h a → 0 ≤ v < 2 ^ 32 →
    config (put_config a v h) a = v - v mod 2 ^ region_bits a + config h a mod 2 ^ region_bits a;
  put_config_other : ∀ h a b v, bar_register a → plain h a → a ≠ b → config (put_config a v h) b = config h b;
  bar_kind : ∀ h a, bar_register a → plain h a → config h a ≠ 0 →
    (if Z.odd (config h a) then 2 ≤ region_bits a ∧ config h a mod 2 ^ region_bits a < 4
     else 4 ≤ region_bits a ∧ config h a mod 2 ^ region_bits a < 16) ∧ region_bits a ≤ 31 }.

(** ** Data *)
Record pci_driver := mk_driver {
  vendor_id : Z; device_id : Z; class : Z; subclass : Z; attach : Z }.

Record pci_device := mk_device {
  bus : Z; device : Z; function : Z; bar : list Z; bar_size : list Z; bar_ioaddr : list Z; driver : Z }.
Definition set_bar (i v : Z) (d : pci_device) : pci_device :=
  mk_device (bus d) (device d) (function d) (<[Z.to_nat i := v]> (bar d)) (bar_size d) (bar_ioaddr d) (driver d).
Definition set_bar_size (i v : Z) (d : pci_device) : pci_device :=
  mk_device (bus d) (device d) (function d) (bar d) (<[Z.to_nat i := v]> (bar_size d)) (bar_ioaddr d) (driver d).
Definition set_bar_ioaddr (i v : Z) (d : pci_device) : pci_device :=
  mk_device (bus d) (device d) (function d) (bar d) (bar_size d) (<[Z.to_nat i := v]> (bar_ioaddr d)) (driver d).
Definition set_driver (v : Z) (d : pci_device) : pci_device :=
  mk_device (bus d) (device d) (function d) (bar d) (bar_size d) (bar_ioaddr d) v.
(** [memset(_device, 0x0, sizeof(struct pci_device))], then its place *)
Definition zero_device : pci_device := mk_device 0 0 0 (replicate 6 0) (replicate 6 0) (replicate 6 0) 0.
Definition set_place (b d f : Z) (x : pci_device) : pci_device :=
  mk_device (u8 b) (u8 d) (u8 f) (bar x) (bar_size x) (bar_ioaddr x) (driver x).
(** [d->bar[i]] *)
Definition pci_bar (d : pci_device) (i : Z) : option Z := bar d !! Z.to_nat i.
Definition SIZEOF_PCI_DEVICE : Z := 92.

Definition PCI_OCNFIG_ADDRESS : Z := 0xcf8.
Definition PCI_CONFIG_DATA : Z := 0xcfc.
Definition PCI_DEVICE_VENDOR_ID_OFFSET : Z := 0x0.
Definition PCI_DEVICE_DEVICE_ID_OFFSET : Z := 0x2.
Definition PCI_DEVICE_COMMAND_OFFSET : Z := 0x4.
Definition PCI_DEVICE_STATUS_OFFSET : Z := 0x6.
Definition PCI_DEVICE_REVISION_ID_OFFSET : Z := 0x8.
Definition PCI_DEVICE_PROGRAM_IF_OFFSET : Z := 0x9.
Definition PCI_DEVICE_SUBCLASS_OFFSET : Z := 0xa.
Definition PCI_DEVICE_CLASS_OFFSET : Z := 0xb.
Definition PCI_DEVICE_HEADER_TYPE_OFFSET : Z := 0xe.
Definition PCI_DEVICE_BAR0_OFFSET : Z := 0x10.
Definition PCI_DEVICE_BAR5_OFFSET : Z := 0x24.
Definition PCI_DEVICE_SUB_VENDOR_ID_OFFSET : Z := 0x2c.
Definition PCI_DEVICE_SUBSYSTEM_ID_OFFSET : Z := 0x2e.
Definition PCI_DEVICE_CAPABILITIES_OFFSET : Z := 0x34.
Definition PCI_DEVICE_INTERRUPT_LINE_OFFSET : Z := 0x3c.
Definition PCI_DEVICE_INTERRUPT_PIN_OFFSET : Z := 0x3d.
Definition PCI_COMMAND_INTERRUPT_ENABLE_BIT : Z := 0x400.

(** the word written to PCI_OCNFIG_ADDRESS *)
Definition config_address_of (bus device function offset : Z) : Z :=
  let addr := 0 in
  let addr := Z.lor addr (Z.shiftl bus 16) in
  let addr := Z.lor addr (Z.shiftl (Z.land device 0x1f) 11) in
  let addr := Z.lor addr (Z.shiftl (Z.land function 0x7) 8) in
  let addr := Z.lor addr (Z.land offset 0xfc) in
  Z.lor addr 0x80000000.

(** [for (x = 0; x < n; x++)] *)
Fixpoint for_each {S X} (l : list X) (body : X → M S ()) : M S () :=
  match l with
  | [] => mret ()
  | x :: l => body x ;; for_each l body
  end.

(** ** Loops *)
Lemma for_each_app {S X} (l l' : list X) (body : X → M S ()) s :
  for_each (l ++ l') body s = (for_each l body ;; for_each l' body) s.
Proof.
  revert s. induction l as [|x l IH]; intros s; [done|]. cbn [for_each app]. rewrite bind_assoc_run.
  unfold mbind, M_bind. destruct (body x s) as [[[] s']|]; [apply IH|done].
Qed.

(** nested loops are one loop *)
Lemma for_each_nested {S X Y} (l : list X) (g : X → list Y) (body : Y → M S ()) s :
  for_each l (λ x, for_each (g x) body) s = for_each (l ≫= g) body s.
Proof.
  revert s. induction l as [|x l IH]; intros s; [done|]. cbn [for_each]. rewrite bind_cons, for_each_app.
  unfold mbind, M_bind. destruct (for_each (g x) body s) as [[[] s']|]; [apply IH|done].
Qed.

Lemma for_each_fmap {S X Y} (l : list X) (g : X → Y) (body : Y → M S ()) s : for_each (g <$> l) body s = for_each l (λ x, body (g x)) s.
Proof.
  revert s. induction l as [|x l IH]; intros s; [done|]. cbn [for_each fmap list_fmap].
  unfold mbind, M_bind. destruct (body (g x) s) as [[[] s']|]; [apply IH|done].
Qed.

Lemma for_each_ext {S X} (l : list X) (body body' : X → M S ()) s : (∀ x s, body x s = body' x s) → for_each l body s = for_each l body' s.
Proof.
  intros E. revert s. induction l as [|x l IH]; intros s; [done|]. cbn [for_each]. unfold mbind, M_bind. rewrite E.
  destruct (body' x s) as [[[] s']|]; [apply IH|done].
Qed.

(** an invariant of the part of the list that is done *)
Lemma for_each_ok {S X} (I : list X → S → Prop) (body : X → M S ()) l0 l : ∀ s,
  I l0 s → (∀ pre x post s, l = pre ++ x :: post → I (l0 ++ pre) s → ∃ s', body x s = Ok ((), s') ∧ I (l0 ++ pre ++ [x]) s') →
  ∃ s', for_each l body s = Ok ((), s') ∧ I (l0 ++ l) s'.
Proof.
  revert l0. induction l as [|x l IH]; intros l0 s Hs Hstep; cbn [for_each].
  { exists s. by rewrite app_nil_r. }
  destruct (Hstep [] x l s) as (s1 & Hr & H1); [done|by rewrite app_nil_r|]. rewrite (bind_ok _ _ _ _ _ Hr).
  destruct (IH (l0 ++ [x]) s1) as (s' & Hr' & H'); [done| |].
  { intros pre y post t E Ht. destruct (Hstep (x :: pre) y post t) as (t' & ? & Ht'); [by rewrite E|by rewrite <-app_assoc in Ht|].
    exists t'. split; [done|]. by rewrite <-app_assoc. }
  exists s'. split; [done|]. by rewrite <-app_assoc in H'.
Qed.

(** ** Addresses and masks *)
#[local] Ltac Zify.zify_post_hook ::= Z.to_euclidean_division_equations.

Lemma lor_low x y n : 0 ≤ n → x mod 2 ^ n = 0 → 0 ≤ y < 2 ^ n → Z.lor x y = x + y.
Proof.
  intros Hn Hx Hy. assert (Z.land x y = 0) as Hl.
  { apply Z.bits_inj'. intros i Hi. rewrite Z.land_spec, Z.bits_0. destruct (decide (i < n)).
    - replace (Z.testbit x i) with false; [done|]. symmetry. rewrite <-(Z.mod_pow2_bits_low x n i) by lia. by rewrite Hx, Z.bits_0.
    - rewrite andb_comm. replace (Z.testbit y i) with false; [done|]. symmetry.
      rewrite <-(Z.mod_small y (2 ^ n)) by done. apply Z.mod_pow2_bits_high. lia. }
  rewrite <-Z.lxor_lor by done. symmetry. by apply Z.add_nocarry_lxor.
Qed.

Lemma land_high x w n : 0 ≤ n → n ≤ w → 0 ≤ x < 2 ^ w → Z.land x (Z.ldiff (Z.ones w) (Z.ones n)) = x - x mod 2 ^ n.
Proof.
  intros Hn Hw Hx. assert (Z.land x (Z.ones w) = x) as E by (rewrite Z.land_ones by lia; by apply Z.mod_small).
  assert (Z.land x (Z.ldiff (Z.ones w) (Z.ones n)) = Z.ldiff (Z.land x (Z.ones w)) (Z.ones n)) as ->.
  { apply Z.bits_inj'. intros i Hi. rewrite Z.land_spec, !Z.ldiff_spec, Z.land_spec. by rewrite andb_assoc. }
  rewrite E, Z.ldiff_ones_r, Z.shiftr_div_pow2, Z.shiftl_mul_pow2 by lia.
  pose proof (Z.div_mod x (2 ^ n) ltac:(apply Z.pow_nonzero; lia)). lia.
Qed.

Lemma config_address_eq b d f o :
  0 ≤ b < 256 → 0 ≤ d < 32 → 0 ≤ f < 8 → 0 ≤ o < 256 →
  config_address_of b d f o = 2147483648 + 65536 * b + 2048 * d + 256 * f + (o - o mod 4).
Proof.
  intros Hb Hd Hf Ho. unfold config_address_of.
  assert (Z.land d 0x1f = d) as -> by (change 0x1f with (Z.ones 5); rewrite Z.land_ones by lia; by apply Z.mod_small).
  assert (Z.land f 0x7 = f) as -> by (change 0x7 with (Z.ones 3); rewrite Z.land_ones by lia; by apply Z.mod_small).
  assert (Z.land o 0xfc = o - o mod 4) as -> by (apply (land_high o 8 2); lia).
  rewrite Z.lor_0_l, !Z.shiftl_mul_pow2 by lia.
  rewrite (lor_low (b * 2 ^ 16) _ 16), (lor_low _ (f * 2 ^ 8) 11), (lor_low _ (o - _) 8), Z.lor_comm, (lor_low _ _ 31) by lia. lia.
Qed.

Lemma config_address_inj b d f o b' d' f' o' :
  0 ≤ b < 256 → 0 ≤ d < 32 → 0 ≤ f < 8 → 0 ≤ o < 256 → 0 ≤ b' < 256 → 0 ≤ d' < 32 → 0 ≤ f' < 8 → 0 ≤ o' < 256 →
  config_address_of b d f o = config_address_of b' d' f' o' ↔ b = b' ∧ d = d' ∧ f = f' ∧ o / 4 = o' / 4.
Proof. intros. rewrite !config_address_eq by done. lia. Qed.

Section pci.
Context {hw : Type} `{ConfigSpace hw} {A : Type} `{KHeap A} {W : Type}.
Record pci_state := mk_pci {
  selected : Z;
  registers : hw;
  kernel_heap : A;
  devices : gmap Z pci_device;
  pci_device_list : list Z;
  drivers : gmap Z pci_driver;
  pci_driver_list : list Z;
  others : W }.

Definition with_bus (a : Z) (h : hw) (s : pci_state) : pci_state :=
  mk_pci a h (kernel_heap s) (devices s) (pci_device_list s) (drivers s) (pci_driver_list s) (others s).
Definition kernel_heap_l : lens pci_state A := Lens kernel_heap (λ x s,
  mk_pci (selected s) (registers s) x (devices s) (pci_device_list s) (drivers s) (pci_driver_list s) (others s)).
Definition devices_l : lens pci_state (gmap Z pci_device) := Lens devices (λ x s,
  mk_pci (selected s) (registers s) (kernel_heap s) x (pci_device_list s) (drivers s) (pci_driver_list s) (others s)).
Definition pci_device_list_l : lens pci_state (list Z) := Lens pci_device_list (λ x s,
  mk_pci (selected s) (registers s) (kernel_heap s) (devices s) x (drivers s) (pci_driver_list s) (others s)).
Definition drivers_l : lens pci_state (gmap Z pci_driver) := Lens drivers (λ x s,
  mk_pci (selected s) (registers s) (kernel_heap s) (devices s) (pci_device_list s) x (pci_driver_list s) (others s)).
Definition pci_driver_list_l : lens pci_state (list Z) := Lens pci_driver_list (λ x s,
  mk_pci (selected s) (registers s) (kernel_heap s) (devices s) (pci_device_list s) (drivers s) x (others s)).

(** [attach_call f pdev]: the function at [f], called with a device *)
Variable attach_call : Z → Z → M pci_state ().

(** ** Ports *)
Definition outl (port value : Z) : M pci_state () :=
  modify (λ s, if port =? PCI_OCNFIG_ADDRESS then with_bus value (registers s) s
               else if port =? PCI_CONFIG_DATA then with_bus (selected s) (put_config (selected s) value (registers s)) s else s).
Definition outw (port value : Z) : M pci_state () :=
  modify (λ s, if port =? PCI_CONFIG_DATA then with_bus (selected s) (put_config_word (selected s) value (registers s)) s else s).
Definition inl (port : Z) : M pci_state Z :=
  gets (λ s, if port =? PCI_CONFIG_DATA then config (registers s) (selected s) else 0xffffffff).

Definition pci_config_read_dword (bus device function offset : Z) : M pci_state Z :=
  outl PCI_OCNFIG_ADDRESS (config_address_of bus device function offset) ;;
  inl PCI_CONFIG_DATA.
Definition pci_config_read_word (bus device function offset : Z) : M pci_state Z :=
  dword ← pci_config_read_dword bus device function offset;
  mret (Z.land (Z.shiftr dword (Z.land offset 0x3 * 8)) 0xffff).
Definition pci_config_read_byte (bus device function offset : Z) : M pci_state Z :=
  dword ← pci_config_read_dword bus device function offset;
  mret (Z.land (Z.shiftr dword (Z.land offset 0x3 * 8)) 0xff).
Definition pci_config_write_dword (bus device function offset data : Z) : M pci_state () :=
  outl PCI_OCNFIG_ADDRESS (config_address_of bus device function offset) ;;
  outl PCI_CONFIG_DATA data.
Definition pci_config_write_word (bus device function offset data : Z) : M pci_state () :=
  outl PCI_OCNFIG_ADDRESS (config_address_of bus device function offset) ;;
  outw PCI_CONFIG_DATA data.

(** ** The header of a device *)
Definition load_device (pdev : Z) : M pci_state pci_device := zoom devices_l (load pdev).
Definition update_device (pdev : Z) (f : pci_device → pci_device) : M pci_state () := zoom devices_l (update pdev f).
Definition at_device {X} (pdev : Z) (access : Z → Z → Z → M pci_state X) : M pci_state X :=
  d ← load_device pdev; access (bus d) (device d) (function d).

Definition pci_device_vendor_id (pdev : Z) := at_device pdev (λ b d f, pci_config_read_word b d f PCI_DEVICE_VENDOR_ID_OFFSET).
Definition pci_device_device_id (pdev : Z) := at_device pdev (λ b d f, pci_config_read_word b d f PCI_DEVICE_DEVICE_ID_OFFSET).
Definition pci_device_command (pdev : Z) := at_device pdev (λ b d f, pci_config_read_word b d f PCI_DEVICE_COMMAND_OFFSET).
Definition pci_device_status (pdev : Z) := at_device pdev (λ b d f, pci_config_read_word b d f PCI_DEVICE_STATUS_OFFSET).
Definition pci_device_revision_id (pdev : Z) := at_device pdev (λ b d f, pci_config_read_byte b d f PCI_DEVICE_REVISION_ID_OFFSET).
Definition pci_device_prog_if (pdev : Z) := at_device pdev (λ b d f, pci_config_read_byte b d f PCI_DEVICE_PROGRAM_IF_OFFSET).
Definition pci_device_subclass (pdev : Z) := at_device pdev (λ b d f, pci_config_read_byte b d f PCI_DEVICE_SUBCLASS_OFFSET).
Definition pci_device_class (pdev : Z) := at_device pdev (λ b d f, pci_config_read_byte b d f PCI_DEVICE_CLASS_OFFSET).
Definition pci_device_header_type (pdev : Z) := at_device pdev (λ b d f, pci_config_read_byte b d f PCI_DEVICE_HEADER_TYPE_OFFSET).
Definition pci_device_subsystem_vendor_id (pdev : Z) := at_device pdev (λ b d f, pci_config_read_word b d f PCI_DEVICE_SUB_VENDOR_ID_OFFSET).
Definition pci_device_subsystem_id (pdev : Z) := at_device pdev (λ b d f, pci_config_read_word b d f PCI_DEVICE_SUBSYSTEM_ID_OFFSET).
Definition pci_device_capabilities_pointer (pdev : Z) := at_device pdev (λ b d f, pci_config_read_byte b d f PCI_DEVICE_CAPABILITIES_OFFSET).
Definition pci_device_interrupt_pin (pdev : Z) := at_device pdev (λ b d f, pci_config_read_byte b d f PCI_DEVICE_INTERRUPT_PIN_OFFSET).
Definition pci_device_interrupt_line (pdev : Z) := at_device pdev (λ b d f, pci_config_read_byte b d f PCI_DEVICE_INTERRUPT_LINE_OFFSET).

Definition pci_device_bar (pdev bar : Z) : M pci_state Z :=
  if (bar <? 0) || (bar >? 5) then mret 0 else
  at_device pdev (λ b d f, pci_config_read_dword b d f (PCI_DEVICE_BAR0_OFFSET + 4 * bar)).

Definition pci_device_bar_size (pdev bar : Z) : M pci_state Z :=
  if (bar <? 0) || (bar >? 5) then mret 0 else
  let offset := PCI_DEVICE_BAR0_OFFSET + 4 * bar in
  original_bar_data ← at_device pdev (λ b d f, pci_config_read_dword b d f offset);
  if ! original_bar_data then mret 0 else
  at_device pdev (λ b d f, pci_config_write_dword b d f offset 0xffffffff) ;;
  bar_size ← at_device pdev (λ b d f, pci_config_read_dword b d f offset);
  let bar_size := Z.land bar_size (if ctrue (Z.land bar_size 0x1) then 0xfffffffc else 0xfffffff0) in
  let bar_size := u32 (Z.lnot bar_size) in
  let bar_size := u32 (bar_size + 1) in
  at_device pdev (λ b d f, pci_config_write_dword b d f offset original_bar_data) ;;
  mret bar_size.

Definition pci_device_enable_interrupt_line (pdev : Z) : M pci_state () :=
  command ← pci_device_command pdev;
  at_device pdev (λ b d f, pci_config_write_word b d f PCI_DEVICE_COMMAND_OFFSET (u16 (Z.land command (Z.lnot PCI_COMMAND_INTERRUPT_ENABLE_BIT)))).

(** ** Finding the devices *)
Definition cache_bar (_device bar : Z) : M pci_state () :=
  v ← pci_device_bar _device bar;
  update_device _device (set_bar bar v) ;;
  size ← pci_device_bar_size _device bar;
  update_device _device (set_bar_size bar size) ;;
  d ← load_device _device;
  base ← deref (pci_bar d bar);
  update_device _device (set_bar_ioaddr bar (if ctrue (Z.land base 1) then Z.land base 0xfffffffc else Z.land base 0xfffffff0)).

Definition probe_function (bus device function : Z) : M pci_state () :=
  vendor_id ← pci_config_read_word bus device function PCI_DEVICE_VENDOR_ID_OFFSET;
  if vendor_id =? 0xffff then mret () else
  _device ← zoom kernel_heap_l (heap_malloc_align SIZEOF_PCI_DEVICE 1);
  if ! _device then fail BadAccess else
  zoom devices_l (modify (<[_device := set_place bus device function zero_device]>)) ;;
  for_each (seqZ 0 6) (cache_bar _device) ;;
  zoom pci_device_list_l (modify (λ l, l ++ [_device])).

Definition enumerate_pci_devices : M pci_state () :=
  for_each (seqZ 0 256) (λ bus,
    for_each (seqZ 0 32) (λ device,
      for_each (seqZ 0 8) (λ function, probe_function bus device function))).

Definition pci_pre_init : M pci_state () :=
  zoom pci_device_list_l (modify (λ _, [])) ;; zoom pci_driver_list_l (modify (λ _, [])).

(** [dump_pci_devices] only prints *)
Definition pci_init : M pci_state () := enumerate_pci_devices.

(** ** Drivers *)
Definition register_pci_device_driver (driver : Z) : M pci_state () :=
  zoom pci_driver_list_l (modify (λ l, l ++ [driver])).

Fixpoint probe_loop (vendor device cls subcls : Z) (l : list Z) : M pci_state Z :=
  match l with
  | [] => mret 0
  | pdriver :: l =>
      p ← zoom drivers_l (load pdriver);
      if (vendor_id p =? vendor) && (device_id p =? device) && (class p =? cls) && (subclass p =? subcls) then mret pdriver
      else probe_loop vendor device cls subcls l
  end.

Definition pci_device_probe_driver (pdev : Z) : M pci_state Z :=
  vendor_id ← pci_device_vendor_id pdev;
  device_id ← pci_device_device_id pdev;
  class ← pci_device_class pdev;
  subclass ← pci_device_subclass pdev;
  l ← gets pci_driver_list;
  probe_loop vendor_id device_id class subclass l.

Definition bind_device (pdev : Z) : M pci_state () :=
  d ← load_device pdev;
  if ctrue (driver d) then mret () else
  target_driver ← pci_device_probe_driver pdev;
  if ! target_driver then mret () else
  update_device pdev (set_driver target_driver) ;;
  t ← zoom drivers_l (load target_driver);
  when (ctrue (attach t)) (attach_call (attach t) pdev).

Definition pci_post_init : M pci_state () :=
  l ← gets pci_device_list;
  for_each l bind_device.

(** ** What is on the bus *)
Context `{!ConfigLaws hw, !KHeapLaws A}.

Definition same_registers (h h' : hw) : Prop := ∀ a, config h a = config h' a.

#[local] Instance same_registers_equiv : Equivalence same_registers.
Proof. split; [done|intros h h' E a; by rewrite E|]. intros h1 h2 h3 E1 E2 a. by rewrite E1, E2. Qed.

(** a function of a device: its bus, device and number *)
Definition slot : Type := Z * Z * Z.
Definition slot_ok (x : slot) : Prop := let '(b, d, f) := x in 0 ≤ b < 256 ∧ 0 ≤ d < 32 ∧ 0 ≤ f < 8.
Definition header (h : hw) (x : slot) (offset : Z) : Z := let '(b, d, f) := x in config h (config_address_of b d f offset).
Definition field (h : hw) (x : slot) (offset size : Z) : Z := header h x offset / 2 ^ (offset mod 4 * 8) mod 2 ^ size.

Definition present (h : hw) (x : slot) : bool := negb (field h x 0 16 =? 0xffff).

Fixpoint found (h : hw) (l : list slot) : list slot :=
  match l with
  | [] => []
  | x :: l => if present h x then x :: found h l else found h l
  end.

Definition region_base (v : Z) : Z := if Z.odd v then v - v mod 4 else v - v mod 16.
Definition region_size (h : hw) (x : slot) (i : Z) : Z :=
  let '(b, d, f) := x in
  if header h x (0x10 + 4 * i) =? 0 then 0 else 2 ^ region_bits (config_address_of b d f (0x10 + 4 * i)).

Definition device_at (h : hw) (x : slot) : pci_device :=
  let '(b, d, f) := x in
  mk_device b d f ((λ i, header h x (0x10 + 4 * i)) <$> seqZ 0 6) (region_size h x <$> seqZ 0 6)
    ((λ i, region_base (header h x (0x10 + 4 * i))) <$> seqZ 0 6) 0.

Definition slots : list slot := b ← seqZ 0 256; d ← seqZ 0 32; (λ f, (b, d, f)) <$> seqZ 0 8.

(** ** Reading and writing registers *)
Lemma read_dword_run {X} b d f o (k : Z → M pci_state X) s :
  mbind k (pci_config_read_dword b d f o) s =
  k (config (registers s) (config_address_of b d f o)) (with_bus (config_address_of b d f o) (registers s) s).
Proof. done. Qed.

Lemma write_dword_run {X} b d f o v (k : () → M pci_state X) s :
  mbind k (pci_config_write_dword b d f o v) s =
  k () (with_bus (config_address_of b d f o) (put_config (config_address_of b d f o) v (registers s)) s).
Proof. done. Qed.

Lemma at_device_run {X Y} p d (access : Z → Z → Z → M pci_state X) (k : X → M pci_state Y) s :
  devices s !! p = Some d → mbind k (at_device p access) s = mbind k (access (bus d) (device d) (function d)) s.
Proof.
  intros Hd. unfold at_device. rewrite bind_assoc_run, (bind_ok _ _ _ d s); [done|]. unfold load_device.
  rewrite (zoom_ok devices_l _ _ _ _ (load_ok (devices s) p d Hd)). by destruct s.
Qed.

Lemma shift_field x o w : 0 ≤ w → Z.land (Z.shiftr x (Z.land o 0x3 * 8)) (Z.ones w) = x / 2 ^ (o mod 4 * 8) mod 2 ^ w.
Proof.
  intros Hw. change 3 with (Z.ones 2). rewrite !Z.land_ones, Z.shiftr_div_pow2 by (rewrite ?Z.land_ones; lia). done.
Qed.

Lemma config_word_run {X} b d f o (k : Z → M pci_state X) s :
  mbind k (pci_config_read_word b d f o) s = k (field (registers s) (b, d, f) o 16) (with_bus (config_address_of b d f o) (registers s) s).
Proof. unfold field. cbn [header]. rewrite <-shift_field by lia. done. Qed.

Lemma config_byte_run {X} b d f o (k : Z → M pci_state X) s :
  mbind k (pci_config_read_byte b d f o) s = k (field (registers s) (b, d, f) o 8) (with_bus (config_address_of b d f o) (registers s) s).
Proof. unfold field. cbn [header]. rewrite <-shift_field by lia. done. Qed.

Lemma bar_register_at b d f i : 0 ≤ b < 256 → 0 ≤ d < 32 → 0 ≤ f < 8 → 0 ≤ i < 6 → bar_register (config_address_of b d f (0x10 + 4 * i)).
Proof. intros. unfold bar_register. rewrite config_address_eq by lia. lia. Qed.

(** the size of a region, from the register that was given all ones *)
Lemma ones_high n : 0 ≤ n ≤ 32 → 0xffffffff - 0xffffffff mod 2 ^ n = 2 ^ 32 - 2 ^ n.
Proof.
  intros Hn. assert (2 ^ 32 = 2 ^ n * 2 ^ (32 - n)) as E by (rewrite <-Z.pow_add_r by lia; f_equal; lia).
  pose proof (Z.pow_pos_nonneg 2 n). rewrite <-(Z.mod_unique_pos 0xffffffff (2 ^ n) (2 ^ (32 - n) - 1) (2 ^ n - 1)); lia.
Qed.

Lemma mask_clears m n r :
  0 ≤ m → m ≤ n → n ≤ 31 → 0 ≤ r < 2 ^ m → let x := 2 ^ 32 - 2 ^ n + r in
  u32 (u32 (Z.lnot (Z.land x (Z.ldiff (Z.ones 32) (Z.ones m)))) + 1) = 2 ^ n.
Proof.
  intros Hm Hn Hmax Hr x. assert (2 ^ n = 2 ^ m * 2 ^ (n - m)) as E by (rewrite <-Z.pow_add_r by lia; f_equal; lia).
  assert (2 ^ 32 = 2 ^ m * 2 ^ (32 - m)) as E' by (rewrite <-Z.pow_add_r by lia; f_equal; lia).
  pose proof (Z.pow_le_mono_r 2 n 31 ltac:(lia) Hmax). pose proof (Z.pow_pos_nonneg 2 n ltac:(lia) ltac:(lia)).
  pose proof (Z.pow_le_mono_r 2 m n ltac:(lia) Hn).
  rewrite land_high by (unfold x; lia).
  replace (x mod 2 ^ m) with r by (apply (Z.mod_unique_pos _ _ (2 ^ (32 - m) - 2 ^ (n - m))); [lia|unfold x; lia]).
  replace (x - r) with (2 ^ 32 - 2 ^ n) by (unfold x; lia). unfold Z.lnot, u32. lia.
Qed.

Lemma size_of_mask v n :
  0 ≤ v → (if Z.odd v then 2 ≤ n ∧ v mod 2 ^ n < 4 else 4 ≤ n ∧ v mod 2 ^ n < 16) → n ≤ 31 →
  let x := 0xffffffff - 0xffffffff mod 2 ^ n + v mod 2 ^ n in
  u32 (u32 (Z.lnot (Z.land x (if ctrue (Z.land x 0x1) then 0xfffffffc else 0xfffffff0))) + 1) = 2 ^ n.
Proof.
  intros Hv Hk Hn x. assert (2 ≤ n) as Hn2 by (destruct (Z.odd v); lia).
  assert (2 ^ n = 2 * 2 ^ (n - 1)) as E by (rewrite <-(Z.pow_add_r 2 1) by lia; f_equal; lia).
  pose proof (Z.pow_pos_nonneg 2 n ltac:(lia) ltac:(lia)). set (r := v mod 2 ^ n) in *. assert (0 ≤ r) as Hr by (apply Z.mod_pos_bound; lia).
  assert (ctrue (Z.land x 0x1) = Z.odd v) as ->.
  { change 1 with (Z.ones 1). rewrite Z.land_ones by lia. rewrite Zodd_mod. unfold x. rewrite ones_high by lia. fold r.
    assert ((2 ^ 32 - 2 ^ n + r) mod 2 ^ 1 = v mod 2) as ->; [|unfold ctrue; pose proof (Z.mod_pos_bound v 2); destruct (decide (v mod 2 = 0)) as [->|]; [done|]; assert (v mod 2 = 1) as -> by lia; done].
    unfold r. rewrite (Z.div_mod v (2 ^ n)) at 2 by lia. rewrite E. lia. }
  unfold x. rewrite ones_high by lia. fold r. destruct (Z.odd v).
  - apply (mask_clears 2 n r); lia.
  - apply (mask_clears 4 n r); lia.
Qed.

(** the kind of a region does not change *)
Lemma low_kept v r k n : 0 ≤ k → k ≤ n → ∃ m, v - v mod 2 ^ n + r mod 2 ^ n = r + 2 ^ k * m.
Proof.
  intros Hk Hn. assert (2 ^ n = 2 ^ k * 2 ^ (n - k)) as E by (rewrite <-Z.pow_add_r by lia; f_equal; lia).
  exists (2 ^ (n - k) * (v / 2 ^ n - r / 2 ^ n)). rewrite Z.mul_assoc, <-E.
  pose proof (Z.div_mod v (2 ^ n) ltac:(apply Z.pow_nonzero; lia)). pose proof (Z.div_mod r (2 ^ n) ltac:(apply Z.pow_nonzero; lia)).
  rewrite Z.mul_sub_distr_l. generalize dependent (2 ^ n * (v / 2 ^ n)). generalize dependent (2 ^ n * (r / 2 ^ n)).
  generalize (v mod 2 ^ n), (r mod 2 ^ n). clear. intros. lia.
Qed.

Lemma odd_low v n r : 1 ≤ n → Z.odd (v - v mod 2 ^ n + r mod 2 ^ n) = Z.odd r.
Proof. intros Hn. destruct (low_kept v r 1 n) as [m ->]; [lia|lia|]. change (2 ^ 1) with 2. apply Z.odd_add_mul_2. Qed.

Lemma wide_low v n r : 4 ≤ n → (v - v mod 2 ^ n + r mod 2 ^ n) / 2 mod 4 = r / 2 mod 4.
Proof. intros Hn. destruct (low_kept v r 4 n) as [m ->]; [lia|lia|]. change (2 ^ 4) with 16. clear. lia. Qed.

Lemma plain_put h a v : bar_register a → plain h a → config h a ≠ 0 → 0 ≤ v < 2 ^ 32 → plain (put_config a v h) a.
Proof.
  intros Ha Hpl Hnz Hv. pose proof Hpl as (H1 & H2 & H3). unfold plain. unfold bar_register in Ha.
  rewrite !(put_config_other h a) by (done || lia). split_and!; [done|done|]. intros i Hi.
  destruct (decide (a = a - a mod 256 + 0x10 + 4 * i)) as [E|Hne]; [|rewrite put_config_other by done; by apply H3].
  specialize (H3 i Hi). rewrite <-E in H3 |- *. rewrite put_config_bar by done.
  pose proof (config_range h a). destruct (bar_kind h a Ha Hpl Hnz) as [Hk _]. unfold wide in *.
  assert (0 < region_bits a) as Hn by (destruct (Z.odd (config h a)); lia). rewrite odd_low by lia.
  destruct (Z.odd (config h a)); [by intros [? _]|]. rewrite wide_low by lia. exact H3.
Qed.

(** the functions that are there are plain *)
Definition plain_bus (h : hw) : Prop := ∀ b d f, slot_ok (b, d, f) → present h (b, d, f) = true → plain h (config_address_of b d f 0).

Lemma plain_present h b d f i :
  plain_bus h → slot_ok (b, d, f) → 0 ≤ i < 6 → present h (b, d, f) = true → plain h (config_address_of b d f (0x10 + 4 * i)).
Proof.
  intros Hbus Hok Hi Hp. pose proof (Hbus b d f Hok Hp) as Hpl. destruct Hok as (?&?&?). unfold plain in *.
  replace (config_address_of b d f (0x10 + 4 * i) - config_address_of b d f (0x10 + 4 * i) mod 256)
    with (config_address_of b d f 0 - config_address_of b d f 0 mod 256) by (rewrite !config_address_eq by lia; lia). exact Hpl.
Qed.

Lemma present_same h h' x : same_registers h h' → present h x = present h' x.
Proof. intros E. unfold present, field. destruct x as [[b d] f]. cbn [header]. by rewrite E. Qed.

Lemma plain_bus_same h h' : same_registers h h' → plain_bus h → plain_bus h'.
Proof.
  intros E Hbus b d f Hok Hp. rewrite <-(present_same _ _ _ E) in Hp. destruct (Hbus b d f Hok Hp) as (H1 & H2 & H3).
  unfold plain. rewrite <-!E. split_and!; [done|done|]. intros i Hi. rewrite <-E. by apply H3.
Qed.

(** sizing a region puts its register back *)
Lemma restored h a v :
  bar_register a → plain h a → v = config h a → v ≠ 0 →
  same_registers h (put_config a v (put_config a 0xffffffff h)).
Proof.
  intros Ha Hans Hv Hnz b. destruct (decide (a = b)) as [<-|Hne].
  2: { rewrite !put_config_other; try done. apply plain_put; (done || lia || congruence). }
  pose proof (config_range h a). destruct (bar_kind h a Ha Hans) as [Hk _]; [congruence|].
  assert (0 < 2 ^ region_bits a) as Hp by (apply Z.pow_pos_nonneg; [lia|destruct (Z.odd _); lia]).
  rewrite !put_config_bar by (done || lia || (apply plain_put; (done || lia || congruence))). rewrite <-Hv. set (n := 2 ^ region_bits a) in *.
  assert (0xffffffff - 0xffffffff mod n + v mod n = v mod n + n * (0xffffffff / n)) as -> by (pose proof (Z.div_mod 0xffffffff n); lia).
  rewrite (Z.mul_comm n), Z.mod_add, Z.mod_mod by lia. lia.
Qed.

Lemma bar_size_ok p d x i s :
  devices s !! p = Some d → (bus d, device d, function d) = x → slot_ok x → present (registers s) x = true → plain_bus (registers s) → 0 ≤ i < 6 →
  ∃ a h, pci_device_bar_size p i s = Ok (region_size (registers s) x i, with_bus a h s) ∧ same_registers (registers s) h.
Proof.
  intros Hd <- Hok Hp Hbus Hi. pose proof Hok as (Hb & Hdv & Hf). unfold pci_device_bar_size.
  assert ((i <? 0) || (i >? 5) = false) as -> by lia.
  set (a := config_address_of (bus d) (device d) (function d) (0x10 + 4 * i)).
  assert (bar_register a) as Ha by (by apply bar_register_at).
  assert (plain (registers s) a) as Hans by (by apply plain_present).
  rewrite (at_device_run _ d), read_dword_run by done. change (PCI_DEVICE_BAR0_OFFSET + 4 * i) with (0x10 + 4 * i). fold a.
  unfold region_size. cbn [header]. fold a. set (v := config (registers s) a).
  destruct (Z.eqb_spec v 0) as [Hv|Hv].
  { rewrite Hv. exists a, (registers s). done. }
  rewrite (proj2 (ctrue_true v) Hv). cbn [negb].
  rewrite (at_device_run _ d), write_dword_run by done. fold a.
  rewrite (at_device_run _ d), read_dword_run by done. fold a.
  rewrite (at_device_run _ d), write_dword_run by done. fold a. cbn [registers with_bus].
  pose proof (config_range (registers s) a) as Hr. destruct (bar_kind (registers s) a Ha Hans Hv) as [Hk Hn].
  rewrite put_config_bar by (done || lia). rewrite size_of_mask by (fold v in Hr, Hk; lia || done).
  eexists a, _. split; [reflexivity|]. by apply restored.
Qed.

Lemma base_of_bar v : 0 ≤ v < 2 ^ 32 → (if ctrue (Z.land v 1) then Z.land v 0xfffffffc else Z.land v 0xfffffff0) = region_base v.
Proof.
  intros Hv. unfold region_base. rewrite Zodd_mod. change 1 with (Z.ones 1) at 1. rewrite Z.land_ones by lia.
  change (2 ^ 1) with 2. assert (v mod 2 = 0 ∨ v mod 2 = 1) as [-> | ->] by lia.
  - exact (land_high v 32 4 ltac:(lia) ltac:(lia) Hv).
  - exact (land_high v 32 2 ltac:(lia) ltac:(lia) Hv).
Qed.

Definition cached (h : hw) (x : slot) (i : Z) (d : pci_device) : pci_device :=
  let v := header h x (0x10 + 4 * i) in
  set_bar_ioaddr i (region_base v) (set_bar_size i (region_size h x i) (set_bar i v d)).

Lemma cached_same h h' x i d : same_registers h h' → cached h x i d = cached h' x i d.
Proof.
  intros E. unfold cached, region_size. destruct x as [[b dv] f]. cbn [header]. by rewrite !E.
Qed.

Lemma update_device_run {X} p d g (k : () → M pci_state X) s :
  devices s !! p = Some d → mbind k (update_device p g) s = k () (lset devices_l (<[p := g d]> (devices s)) s).
Proof.
  intros Hd. apply bind_ok. unfold update_device. by rewrite (zoom_ok devices_l _ _ _ _ (update_ok (devices s) p d g Hd)).
Qed.

Lemma cache_bar_ok p d x i s :
  devices s !! p = Some d → (bus d, device d, function d) = x → length (bar d) = 6%nat → slot_ok x → present (registers s) x = true →
  plain_bus (registers s) → 0 ≤ i < 6 →
  ∃ a h, cache_bar p i s = Ok ((), lset devices_l (<[p := cached (registers s) x i d]> (devices s)) (with_bus a h s)) ∧
         same_registers (registers s) h.
Proof.
  intros Hd Hx Hlen Hok Hpres Hbus Hi. unfold cache_bar, pci_device_bar.
  assert ((i <? 0) || (i >? 5) = false) as -> by lia.
  rewrite (at_device_run _ d), read_dword_run by done. change (PCI_DEVICE_BAR0_OFFSET + 4 * i) with (0x10 + 4 * i).
  set (a := config_address_of _ _ _ _). set (v := config (registers s) a). assert (v = header (registers s) x (0x10 + 4 * i)) as Hv by (by subst x).
  rewrite (update_device_run _ d) by done. set (s1 := lset devices_l _ _).
  destruct (bar_size_ok p (set_bar i v d) x i s1) as (a2 & h & Hr & Hh); [apply lookup_insert_eq|done..|].
  rewrite (bind_ok _ _ _ _ _ Hr). set (s2 := with_bus a2 h s1).
  rewrite (update_device_run _ (set_bar i v d)) by apply lookup_insert_eq. set (s3 := lset devices_l _ _).
  set (d3 := set_bar_size i (region_size (registers s1) x i) (set_bar i v d)).
  assert (devices s3 !! p = Some d3) as Hd3 by apply lookup_insert_eq.
  rewrite (bind_ok _ _ _ d3 s3) by (unfold load_device; rewrite (zoom_ok devices_l _ _ _ _ (load_ok (devices s3) p d3 Hd3)); done).
  rewrite (bind_ok _ _ _ v s3) by (apply deref_ok; unfold pci_bar; cbn; apply list_lookup_insert_eq; lia).
  unfold update_device. rewrite (zoom_ok devices_l _ _ _ _ (update_ok (devices s3) p d3 _ Hd3)).
  rewrite base_of_bar by apply config_range. exists a2, h. split; [|done]. do 2 f_equal. unfold s3, s2, s1. cbn.
  rewrite !insert_insert_eq. unfold cached. by rewrite <-Hv.
Qed.

Lemma cache_bars_ok p x l : ∀ d s,
  devices s !! p = Some d → (bus d, device d, function d) = x → length (bar d) = 6%nat → slot_ok x → present (registers s) x = true →
  plain_bus (registers s) → Forall (λ i, 0 ≤ i < 6) l →
  ∃ a h, for_each l (cache_bar p) s =
      Ok ((), lset devices_l (<[p := foldl (λ d i, cached (registers s) x i d) d l]> (devices s)) (with_bus a h s)) ∧
    same_registers (registers s) h.
Proof.
  induction l as [|i l IH]; intros d s Hd Hx Hlen Hok Hp Hbus Hl; cbn [for_each foldl].
  { exists (selected s), (registers s). split; [|done]. rewrite insert_id by done. by destruct s. }
  apply Forall_cons in Hl as [Hi Hl]. destruct (cache_bar_ok p d x i s) as (a1 & h1 & Hr & Hh1); [done..|].
  rewrite (bind_ok _ _ _ _ _ Hr). set (s1 := lset devices_l _ _).
  destruct (IH (cached (registers s) x i d) s1) as (a & h & Hr' & Hh); [apply lookup_insert_eq|done| |done| | |done|].
  { cbn. by rewrite length_insert. }
  { by rewrite <-(present_same _ _ _ Hh1). }
  { by apply (plain_bus_same _ _ Hh1). }
  rewrite Hr'. exists a, h. split; [|by transitivity h1]. do 2 f_equal. unfold s1. cbn. rewrite insert_insert_eq. do 2 f_equal.
  clear -Hh1. generalize (cached (registers s) x i d). induction l as [|j l IH]; intros e; [done|]. cbn. by rewrite IH, (cached_same _ _ _ _ _ Hh1).
Qed.

Lemma slots_cached h x : slot_ok x →
  foldl (λ d i, cached h x i d) (let '(b, d, f) := x in set_place b d f zero_device) (seqZ 0 6) = device_at h x.
Proof. destruct x as [[b d] f]. intros (Hb & Hd & Hf). unfold set_place, u8. by rewrite !Z.mod_small by lia. Qed.

(** ** The enumeration *)

(** [s] after the functions [done_] were looked at, starting from [s0] *)
Record enumerated (s0 : pci_state) (L : list Z) (done_ : list slot) (s : pci_state) : Prop := {
  en_bus : same_registers (registers s0) (registers s);
  en_heap : heap_allocate SIZEOF_PCI_DEVICE 1 (length (pci_device_list s)) (kernel_heap s0) = Some (kernel_heap s);
  en_live : heap_live (pci_device_list s ++ L) (kernel_heap s);
  en_devices : Forall2 (λ p x, devices s !! p = Some (device_at (registers s0) x)) (pci_device_list s) (found (registers s0) done_);
  en_drivers : drivers s = drivers s0 ∧ pci_driver_list s = pci_driver_list s0 ∧ others s = others s0 }.

Lemma found_app h l l' : found h (l ++ l') = found h l ++ found h l'.
Proof. induction l as [|x l IH]; [done|]. cbn [found app]. rewrite IH. by destruct (present h x). Qed.
Lemma found_snoc h l x : found h (l ++ [x]) = found h l ++ if present h x then [x] else [].
Proof. rewrite found_app. cbn [found]. by destruct (present h x). Qed.

Lemma device_at_same h h' x : same_registers h h' → device_at h x = device_at h' x.
Proof.
  intros E. destruct x as [[b d] f]. unfold device_at. f_equal; apply list_fmap_ext; intros; unfold region_size; cbn [header]; by rewrite !E.
Qed.

(** one more descriptor, when the heap has room for it *)
Lemma next_descriptor L l h0 h :
  heap_allocate SIZEOF_PCI_DEVICE 1 (length l) h0 = Some h → heap_live (l ++ L) h →
  is_Some (heap_allocate SIZEOF_PCI_DEVICE 1 (S (length l)) h0) →
  ∃ p h', heap_malloc_align SIZEOF_PCI_DEVICE 1 h = Ok (p, h') ∧ p ≠ 0 ∧ (p ∉ l) ∧
    heap_allocate SIZEOF_PCI_DEVICE 1 (S (length l)) h0 = Some h' ∧ heap_live ((l ++ [p]) ++ L) h'.
Proof.
  intros Ha Hl [h2 Hroom]. destruct (heap_malloc_law (l ++ L) h SIZEOF_PCI_DEVICE 0 Hl) as (p & h' & Hm & Hl'); [by split|lia|].
  change (2 ^ Z.of_nat 0) with 1 in Hm. rewrite <-Nat.add_1_r, allocate_add, Ha in Hroom. change (heap_allocate SIZEOF_PCI_DEVICE 1 1 h = Some h2) in Hroom.
  rewrite (allocate_one _ _ _ _ _ Hm) in Hroom. destruct (ctrue p) eqn:Hp; [|done]. injection Hroom as ->.
  exists p, h2. pose proof (heap_live_nodup _ _ Hl') as [Hnd _]. apply NoDup_cons in Hnd as [Hnin _].
  split_and!; [done|by apply ctrue_true|set_solver| |].
  - rewrite <-Nat.add_1_r, allocate_add, Ha. change (heap_allocate SIZEOF_PCI_DEVICE 1 1 h = Some h2). by rewrite (allocate_one _ _ _ _ _ Hm), Hp.
  - eapply heap_live_perm; [|exact Hl']. rewrite <-app_assoc. apply Permutation_middle.
Qed.

Lemma Forall2_insert_ne (F : slot → pci_device) (σ : gmap Z pci_device) p e l xs :
  (p ∉ l) → Forall2 (λ q x, σ !! q = Some (F x)) l xs → Forall2 (λ q x, <[p := e]> σ !! q = Some (F x)) l xs.
Proof.
  intros Hp H2. induction H2 as [|q x l xs Hq _ IH]; [constructor|]. apply not_elem_of_cons in Hp as [Hne Hp].
  constructor; [by rewrite lookup_insert_ne|by apply IH].
Qed.

Lemma probe_function_ok s0 L done_ b d f s :
  enumerated s0 L done_ s → slot_ok (b, d, f) → plain_bus (registers s0) →
  is_Some (heap_allocate SIZEOF_PCI_DEVICE 1 (length (found (registers s0) (done_ ++ [(b, d, f)]))) (kernel_heap s0)) →
  ∃ s', probe_function b d f s = Ok ((), s') ∧ enumerated s0 L (done_ ++ [(b, d, f)]) s'.
Proof.
  intros [Hb Hh Hl Hd (Hdr & Hdl & Ho)] Hx Hbus Hroom. unfold probe_function. rewrite config_word_run.
  set (x := (b, d, f)) in *. assert ((field (registers s) x PCI_DEVICE_VENDOR_ID_OFFSET 16 =? 0xffff) = negb (present (registers s0) x)) as ->.
  { rewrite (present_same _ _ _ Hb). unfold present. by rewrite negb_involutive. }
  rewrite found_snoc in Hroom. destruct (present (registers s0) x) eqn:Hp; cbn [negb].
  2: { eexists. split; [reflexivity|]. split; try done. rewrite found_snoc, Hp, app_nil_r. exact Hd. }
  rewrite length_app, <-(Forall2_length _ _ _ Hd), Nat.add_1_r in Hroom.
  destruct (next_descriptor L _ _ _ Hh Hl Hroom) as (p & h' & Hm & Hp0 & Hnin & Hh' & Hl').
  set (s1 := with_bus _ _ s). rewrite (bind_ok _ _ _ _ _ (zoom_ok kernel_heap_l _ s1 _ _ Hm)).
  rewrite (proj2 (ctrue_true p) Hp0). cbn [negb].
  set (s2 := mk_pci (selected s1) (registers s) h' (<[p := set_place b d f zero_device]> (devices s)) (pci_device_list s) (drivers s) (pci_driver_list s) (others s)).
  rewrite (bind_ok _ _ _ () s2) by done.
  destruct (cache_bars_ok p x (seqZ 0 6) (set_place b d f zero_device) s2) as (a & h2 & Hr & Hh2);
    [apply lookup_insert_eq| |done|done| |by apply (plain_bus_same _ _ Hb)| |].
  { destruct Hx as (?&?&?). unfold set_place, u8. cbn [bus device function]. by rewrite !Z.mod_small by lia. }
  { cbn [registers s2]. by rewrite <-(present_same _ _ _ Hb). }
  { apply Forall_forall. intros i Hi%elem_of_seqZ. lia. }
  rewrite (bind_ok _ _ _ _ _ Hr). rewrite (slots_cached _ x Hx).
  eexists. split; [reflexivity|]. split; cbn [registers kernel_heap devices pci_device_list drivers pci_driver_list others lset kernel_heap_l devices_l pci_device_list_l with_bus lget];
    [by transitivity (registers s)| |done| |done].
  - rewrite length_app, Nat.add_1_r. exact Hh'.
  - rewrite found_snoc, Hp. apply Forall2_app.
    + apply Forall2_insert_ne; [done|]. apply Forall2_insert_ne; [done|exact Hd].
    + constructor; [|constructor]. rewrite lookup_insert_eq. f_equal. symmetry. by apply device_at_same.
Qed.

Lemma enumerate_flat s : enumerate_pci_devices s = for_each slots (λ '(b, d, f), probe_function b d f) s.
Proof.
  unfold enumerate_pci_devices, slots. rewrite <-for_each_nested. apply for_each_ext. intros b s1.
  rewrite <-for_each_nested. apply for_each_ext. intros d s2. by rewrite for_each_fmap.
Qed.

Lemma slots_ok x : x ∈ slots → slot_ok x.
Proof.
  unfold slots. intros (b & Hx & Hb%elem_of_seqZ)%list_elem_of_bind. apply list_elem_of_bind in Hx as (d & Hx & Hd%elem_of_seqZ).
  apply list_elem_of_fmap in Hx as (f & -> & Hf%elem_of_seqZ). cbn. lia.
Qed.

#[local] Opaque slots.

Lemma found_prefix h l l' : (length (found h l) ≤ length (found h (l ++ l')))%nat.
Proof. rewrite found_app, length_app. lia. Qed.

Lemma enumerate_pci_ok s L :
  heap_live L (kernel_heap s) → pci_device_list s = [] → plain_bus (registers s) →
  is_Some (heap_allocate SIZEOF_PCI_DEVICE 1 (length (found (registers s) slots)) (kernel_heap s)) →
  ∃ s', enumerate_pci_devices s = Ok ((), s') ∧ enumerated s L slots s'.
Proof.
  intros Hl Hnil Hbus [h Hroom]. rewrite enumerate_flat.
  apply (for_each_ok (enumerated s L) _ [] slots).
  - by split; rewrite ?Hnil.
  - intros pre [[b d] f] post s1 E Hs1. apply (probe_function_ok s L pre); [done|apply slots_ok; rewrite E; set_solver|done|].
    destruct (heap_allocate SIZEOF_PCI_DEVICE 1 (length (found (registers s) (pre ++ [(b, d, f)]))) (kernel_heap s)) eqn:Ha; [done|].
    rewrite (allocate_none _ _ _ (length (found (registers s) slots)) _ Ha) in Hroom; [done|].
    rewrite E. change (pre ++ (b, d, f) :: post) with (pre ++ [(b, d, f)] ++ post). rewrite app_assoc. apply found_prefix.
Qed.

(** ** Drivers and devices *)
Definition drives (h : hw) (x : slot) (p : pci_driver) : bool :=
  (vendor_id p =? field h x 0 16) && (device_id p =? field h x 2 16) && (class p =? field h x 0xb 8) && (subclass p =? field h x 0xa 8).

(** the first driver of the list for a function, 0 when there is none *)
Fixpoint first_driver (σ : gmap Z pci_driver) (l : list Z) (h : hw) (x : slot) : Z :=
  match l with
  | [] => 0
  | p :: l => if default false (drives h x <$> σ !! p) then p else first_driver σ l h x
  end.

(** the calls of [attach] for the devices [ds] of the functions [xs] *)
Fixpoint attachments (σ : gmap Z pci_driver) (l : list Z) (h : hw) (ds : list Z) (xs : list slot) : list (Z * Z) :=
  match ds, xs with
  | d :: ds, x :: xs =>
      (match (if first_driver σ l h x =? 0 then None else σ !! first_driver σ l h x) with
       | Some t => if ctrue (attach t) then [(attach t, d)] else []
       | None => []
       end) ++ attachments σ l h ds xs
  | _, _ => []
  end.

(** the registers that identify a function *)
Definition same_ids (h h' : hw) : Prop := ∀ x o, o ∈ [0; 2; 0xa; 0xb] → header h x o = header h' x o.

Definition drivers_ok (s : pci_state) : Prop := ∀ p, p ∈ pci_driver_list s → p ≠ 0 ∧ is_Some (drivers s !! p).

Lemma drives_same h h' x p : same_ids h h' → drives h x p = drives h' x p.
Proof. intros E. unfold drives, field. rewrite !(E x) by set_solver. done. Qed.

Lemma first_driver_same σ l h h' x : same_ids h h' → first_driver σ l h x = first_driver σ l h' x.
Proof.
  intros E. induction l as [|p l IH]; [done|]. cbn [first_driver]. rewrite IH. destruct (σ !! p) as [t|]; cbn; [|done]. by rewrite (drives_same _ _ _ _ E).
Qed.

Lemma attachments_same σ l h h' ds xs : same_ids h h' → attachments σ l h ds xs = attachments σ l h' ds xs.
Proof.
  intros E. revert xs. induction ds as [|d ds IH]; intros [|x xs]; try done. cbn [attachments]. by rewrite IH, (first_driver_same _ _ _ _ _ E).
Qed.

Lemma probe_loop_ok s h x l :
  (∀ p, p ∈ l → is_Some (drivers s !! p)) →
  probe_loop (field h x 0 16) (field h x 2 16) (field h x 0xb 8) (field h x 0xa 8) l s = Ok (first_driver (drivers s) l h x, s).
Proof.
  induction l as [|p l IH]; intros Hl; [done|]. destruct (Hl p) as [t Ht]; [by left|]. cbn [probe_loop first_driver].
  rewrite (bind_ok _ _ _ t s) by (rewrite (zoom_ok drivers_l _ _ _ _ (load_ok (drivers s) p t Ht)); by destruct s).
  rewrite Ht. cbn [fmap option_fmap option_map default]. fold (drives h x t). unfold id.
  destruct (drives h x t); [done|]. apply IH. intros q Hq. apply Hl. by right.
Qed.

Lemma probe_driver_ok p d x s :
  devices s !! p = Some d → (bus d, device d, function d) = x → drivers_ok s →
  ∃ a, pci_device_probe_driver p s = Ok (first_driver (drivers s) (pci_driver_list s) (registers s) x, with_bus a (registers s) s).
Proof.
  intros Hd <- Hok. unfold pci_device_probe_driver, pci_device_vendor_id, pci_device_device_id, pci_device_class, pci_device_subclass.
  rewrite (at_device_run _ d), config_word_run by done. rewrite (at_device_run _ d), config_word_run by done.
  rewrite (at_device_run _ d), config_byte_run by done. rewrite (at_device_run _ d), config_byte_run by done. mstep.
  eexists. erewrite probe_loop_ok; [reflexivity|]. intros q Hq. by apply Hok.
Qed.

Lemma first_driver_in σ l h x : first_driver σ l h x = 0 ∨ first_driver σ l h x ∈ l.
Proof.
  induction l as [|p l IH]; [by left|]. cbn [first_driver]. destruct (default false _); [right; by left|].
  destruct IH; [by left|right; by right].
Qed.

(** the interrupts of a device are enabled by clearing one bit of its command word *)
Lemma enable_interrupt_ok p d s :
  devices s !! p = Some d → slot_ok (bus d, device d, function d) →
  let cmd := field (registers s) (bus d, device d, function d) PCI_DEVICE_COMMAND_OFFSET 16 in
  let a := config_address_of (bus d) (device d) (function d) PCI_DEVICE_COMMAND_OFFSET in
  pci_device_enable_interrupt_line p s = Ok ((), with_bus a (put_config_word a (Z.clearbit cmd 10) (registers s)) s).
Proof.
  intros Hd Hok cmd a. unfold pci_device_enable_interrupt_line, pci_device_command.
  rewrite (at_device_run _ d), config_word_run by done. fold cmd a.
  assert (u16 (Z.land cmd (Z.lnot PCI_COMMAND_INTERRUPT_ENABLE_BIT)) = Z.clearbit cmd 10) as ->.
  { unfold Z.clearbit. change (Z.shiftl 1 10) with PCI_COMMAND_INTERRUPT_ENABLE_BIT. rewrite Z.ldiff_land.
    assert (0 ≤ cmd < 2 ^ 16) as Hr by (apply Z.mod_pos_bound; lia). change (u16 ?x) with (x mod 2 ^ 16).
    rewrite <-Z.land_ones, <-Z.land_assoc, (Z.land_comm (Z.lnot _)), Z.land_assoc, (Z.land_ones cmd), Z.mod_small by lia. done. }
  unfold at_device. rewrite (bind_ok _ _ _ d (with_bus a (registers s) s)); [done|].
  exact (zoom_ok devices_l _ (with_bus a (registers s) s) _ _ (load_ok (devices s) p d Hd)).
Qed.

(** The word of the upper half of a register cannot be written: it goes to the
    lower half, so that writing the status word changes the command word. *)
Theorem write_word_hits_low_half b d f v s :
  pci_config_write_word b d f PCI_DEVICE_STATUS_OFFSET v s = pci_config_write_word b d f PCI_DEVICE_COMMAND_OFFSET v s.
Proof. done. Qed.

(** The result of [malloc] is used without a check. *)
Theorem no_memory_for_device b d f s h :
  present (registers s) (b, d, f) = true → heap_malloc_align SIZEOF_PCI_DEVICE 1 (kernel_heap s) = Ok (NULL, h) →
  probe_function b d f s = Err BadAccess.
Proof.
  intros Hp%negb_true_iff Hm. unfold probe_function. rewrite config_word_run. unfold PCI_DEVICE_VENDOR_ID_OFFSET. rewrite Hp.
  by rewrite (bind_ok _ _ _ _ _ (zoom_ok kernel_heap_l _ (with_bus _ _ s) _ _ Hm)).
Qed.

(** What [attach] may do: it returns, may use the bus, the heap and the rest of
    the kernel, and leaves alone the descriptors, the lists and the drivers, the
    registers that identify functions and the heap blocks in use.  [log] is any
    record of the calls in the rest of the kernel. *)
Variable log : W → list (Z * Z).
Hypothesis attach_law : ∀ f p s L, is_Some (devices s !! p) → heap_live L (kernel_heap s) →
  ∃ s' M, attach_call f p s = Ok ((), s') ∧ heap_live (M ++ L) (kernel_heap s') ∧ devices s' = devices s ∧
    pci_device_list s' = pci_device_list s ∧ drivers s' = drivers s ∧ pci_driver_list s' = pci_driver_list s ∧
    same_ids (registers s) (registers s') ∧ log (others s') = log (others s) ++ [(f, p)].

(** [s'] is [s] with drivers bound and attached *)
Record bound (s : pci_state) (L : list Z) (calls : list (Z * Z)) (s' : pci_state) : Prop := {
  bo_lists : pci_device_list s' = pci_device_list s ∧ drivers s' = drivers s ∧ pci_driver_list s' = pci_driver_list s;
  bo_heap : ∃ M, heap_live (M ++ L) (kernel_heap s');
  bo_ids : same_ids (registers s) (registers s');
  bo_log : log (others s') = log (others s) ++ calls }.

Lemma bound_trans s1 s2 s3 L M c1 c2 :
  bound s1 L c1 s2 → bound s2 (M ++ L) c2 s3 → bound s1 L (c1 ++ c2) s3.
Proof.
  intros [(A1 & A2 & A3) _ A5 A6] [(B1 & B2 & B3) [N B4] B5 B6]. split.
  - split_and!; congruence.
  - exists (N ++ M). by rewrite <-app_assoc.
  - intros x o Ho. by rewrite A5, B5.
  - by rewrite B6, A6, app_assoc.
Qed.

Lemma bind_device_ok p d x s L :
  devices s !! p = Some d → (bus d, device d, function d) = x → driver d = 0 → drivers_ok s → heap_live L (kernel_heap s) →
  let t := first_driver (drivers s) (pci_driver_list s) (registers s) x in
  ∃ s', bind_device p s = Ok ((), s') ∧ devices s' = <[p := set_driver t d]> (devices s) ∧
    bound s L (attachments (drivers s) (pci_driver_list s) (registers s) [p] [x]) s'.
Proof.
  intros Hd Hx Hdr Hok Hl t. unfold bind_device.
  rewrite (bind_ok _ _ _ d s) by (unfold load_device; rewrite (zoom_ok devices_l _ _ _ _ (load_ok (devices s) p d Hd)); by destruct s).
  rewrite Hdr. destruct (probe_driver_ok p d x s Hd Hx Hok) as (a & Hp). fold t in Hp.
  change (ctrue 0) with false. cbv iota. rewrite (bind_ok _ _ _ _ _ Hp). cbn [attachments]. fold t. rewrite app_nil_r.
  destruct (Z.eqb_spec t 0) as [Ht|Ht].
  { rewrite Ht. eexists. split; [done|]. split.
    - cbn. rewrite insert_id; [done|]. rewrite Hd. f_equal. destruct d. cbn in *. by subst.
    - split; [done|by exists []|done|by rewrite app_nil_r]. }
  rewrite (proj2 (ctrue_true t) Ht). cbn [negb]. rewrite (update_device_run _ d) by done. set (s1 := lset devices_l _ _).
  destruct (first_driver_in (drivers s) (pci_driver_list s) (registers s) x) as [|Hin]; [done|]. destruct (Hok t Hin) as [_ [r Hr]].
  rewrite (bind_ok _ _ _ r s1) by (rewrite (zoom_ok drivers_l _ s1 _ _ (load_ok (drivers s) t r Hr)); done). rewrite Hr.
  destruct (ctrue (attach r)); unfold when.
  - destruct (attach_law (attach r) p s1 L) as (s' & M & E & HM & E1 & E2 & E3 & E4 & E5 & E6); [by eexists; apply lookup_insert_eq|done|].
    exists s'. split_and!; [done|done|]. split; [done|by exists M|done|done].
  - eexists. split; [done|]. split; [done|]. split; [done|by exists []|done|by rewrite app_nil_r].
Qed.

Lemma bind_loop_ok h0 ds xs : ∀ s L,
  Forall2 (λ p x, devices s !! p = Some (device_at h0 x)) ds xs → NoDup ds → drivers_ok s → heap_live L (kernel_heap s) →
  let driven x := set_driver (first_driver (drivers s) (pci_driver_list s) (registers s) x) (device_at h0 x) in
  ∃ s', for_each ds bind_device s = Ok ((), s') ∧
    Forall2 (λ p x, devices s' !! p = Some (driven x)) ds xs ∧ (∀ q, q ∉ ds → devices s' !! q = devices s !! q) ∧
    bound s L (attachments (drivers s) (pci_driver_list s) (registers s) ds xs) s'.
Proof.
  revert xs. induction ds as [|p ds IH]; intros xs s L H2 Hnd Hok Hl driven; cbn [for_each].
  { apply Forall2_nil_inv_l in H2 as ->. exists s. split_and!; [done|constructor|done|]. split; [done|by exists []|done|by rewrite app_nil_r]. }
  apply Forall2_cons_inv_l in H2 as (x & xs' & Hp & H2 & ->). apply NoDup_cons in Hnd as [Hnin Hnd].
  destruct (bind_device_ok p (device_at h0 x) x s L) as (s1 & Hr & Ed & Hb); [done|by destruct x as [[b d] f]|by destruct x as [[b d] f]|done|done|].
  rewrite (bind_ok _ _ _ _ _ Hr). destruct (bo_lists _ _ _ _ Hb) as (E1 & E2 & E3). destruct (bo_heap _ _ _ _ Hb) as [M HM].
  pose proof (bo_ids _ _ _ _ Hb) as Hid.
  destruct (IH xs' s1 (M ++ L)) as (s' & Hr' & Hσ & Hrest & Hb'); [rewrite Ed; by apply Forall2_insert_ne|done| |done|].
  { intros q. rewrite E2, E3. apply Hok. }
  exists s'. split_and!; [exact Hr'| | |].
  - constructor.
    + rewrite Hrest, Ed by done. apply lookup_insert_eq.
    + eapply Forall2_impl; [exact Hσ|]. intros q y ->. unfold driven. by rewrite E2, E3, (first_driver_same _ _ _ _ _ Hid).
  - intros q Hq. apply not_elem_of_cons in Hq as [Hne Hq]. rewrite Hrest, Ed by done. by rewrite lookup_insert_ne.
  - rewrite E2, E3, <-(attachments_same _ _ (registers s) (registers s1) ds xs' Hid) in Hb'.
    pose proof (bound_trans _ _ _ _ _ _ _ Hb Hb') as Hbb. cbn [attachments] in Hbb |- *. by rewrite app_nil_r in Hbb.
Qed.

End pci.

(** ** Example: a bus with one network card *)
Module PciExample.
Import MallocExample.
#[local] Instance pci_heap : KHeap mstate := malloc_heap bins.
#[local] Instance pci_heap_laws : KHeapLaws mstate := malloc_heap_laws bins bins_place.

(** function 0 of device 3 has 32 ports and a page of memory; the state of the
    card is where they are *)
Definition card : Z := 0x80001800.
Definition card_config (h : Z * Z) (a : Z) : Z :=
  if a =? card then 0x10001af4
  else if a =? card + 0x8 then 0x02000000
  else if a =? card + 0x10 then 32 * (h.1 mod 2 ^ 27) + 1
  else if a =? card + 0x14 then 4096 * (h.2 mod 2 ^ 20)
  else if (card <=? a) && (a <? card + 256) then 0
  else 0xffffffff.
#[local] Instance card_space : ConfigSpace (Z * Z) := {|
  config := card_config;
  put_config a v h := if a =? card + 0x10 then (v / 32, h.2) else if a =? card + 0x14 then (h.1, v / 4096) else h;
  put_config_word a v h := h |}.
Definition card_bits (a : Z) : Z := if a =? card + 0x10 then 5 else if a =? card + 0x14 then 12 else 32.

Lemma card_answers h a : bar_register a → plain h a → card ≤ a < card + 256.
Proof.
  unfold bar_register, plain. cbn [config card_space]. unfold card_config, card. intros Ha [Hans _].
  destruct (decide (0x80001800 ≤ a < 0x80001800 + 256)); [done|]. exfalso. apply Hans.
  rewrite !(proj2 (Z.eqb_neq _ _)) by lia.
  assert ((0x80001800 <=? a - a mod 256) && (a - a mod 256 <? 0x80001800 + 256) = false) as -> by lia. done.
Qed.

#[local] Instance card_laws : ConfigLaws (Z * Z).
Proof.
  refine {| region_bits := card_bits |}.
  - intros [v0 v1] a. cbn. unfold card_config. cbn. repeat case_match; lia.
  - intros [v0 v1] a v Ha Hans%card_answers Hv; [|done]. unfold bar_register, card in *. cbn. unfold card_config, card_bits, card. cbn.
    repeat (case_match; try lia); cbn in *; lia.
  - intros [v0 v1] a b v Ha _ Hne. cbn. unfold card_config, card in *. cbn. repeat (case_match; try lia); cbn in *; try done; lia.
  - intros [v0 v1] a Ha Hans%card_answers Hnz; [|done]. unfold bar_register, card in *. cbn in *. unfold card_config, card_bits, card in *. cbn in *.
    repeat (case_match; try lia).
Defined.

Definition booted : mstate := match malloc_init bins (boot 0xF000E2C3) with Ok (_, s) => s | Err _ => boot 0 end.
Lemma booted_live : heap_live [] booted.
Proof.
  destruct (malloc_init_ok bins bins_place (boot 0xF000E2C3) (mk_hdr 0 0 0xF000E2C3 0 false 0)) as (s1 & Hr & Hinv);
    [reflexivity|by vm_compute|].
  unfold booted. rewrite Hr. eexists _, _. split; [exact Hinv|].
  exists []. split_and!; [apply NoDup_nil_2|by intros ? ?%not_elem_of_nil|constructor].
Qed.

(** [attach] takes a block of memory, when there is one, and is noted; there is a
    driver for another card and one for this one *)
Abbreviation state := (pci_state (hw := Z * Z) (A := mstate) (W := list (Z * Z))).
Definition note (f p : Z) : M state () :=
  zoom kernel_heap_l (heap_malloc_align 64 1) ;;
  modify (λ s, mk_pci (selected s) (registers s) (kernel_heap s) (devices s) (pci_device_list s) (drivers s) (pci_driver_list s) (others s ++ [(f, p)])).
Definition start : state :=
  mk_pci 0 (0x600, 0xfebc0) booted ∅ [] {[0x100 := mk_driver 0x8086 0x100e 2 0 0x5000; 0x200 := mk_driver 0x1af4 0x1000 2 0 0x6000]} [0x100; 0x200] [].

Lemma note_law f p (s : state) L : is_Some (devices s !! p) → heap_live L (kernel_heap s) →
  ∃ s' M, note f p s = Ok ((), s') ∧ heap_live (M ++ L) (kernel_heap s') ∧ devices s' = devices s ∧
    pci_device_list s' = pci_device_list s ∧ drivers s' = drivers s ∧ pci_driver_list s' = pci_driver_list s ∧
    same_ids (registers s) (registers s') ∧ others s' = others s ++ [(f, p)].
Proof.
  intros _ Hl. destruct (heap_malloc_law L (kernel_heap s) 64 0 Hl) as (b & h & Hm & Hb); [by split|lia|]. change (2 ^ Z.of_nat 0) with 1 in Hm.
  unfold note. rewrite (bind_ok _ _ _ _ _ (zoom_ok kernel_heap_l _ s _ _ Hm)). eexists. exists (if ctrue b then [b] else []).
  split; [reflexivity|]. cbn [kernel_heap devices pci_device_list drivers pci_driver_list registers others lset kernel_heap_l].
  split_and!; try done. by destruct (ctrue b).
Qed.

(** there is one function, and nothing beyond bus 0 *)
Lemma found_none {hw} `{ConfigSpace hw} (h : hw) l : (∀ x, x ∈ l → present h x = false) → found h l = [].
Proof. induction l as [|x l IH]; intros Hl; [done|]. cbn [found]. rewrite Hl by by left. apply IH. intros y Hy. apply Hl. by right. Qed.

Lemma card_alone : found (registers start) slots = [(0, 3, 0)].
Proof.
  unfold slots. rewrite (seqZ_cons 0 256), bind_cons, found_app by lia. match goal with |- _ ++ ?r = _ => assert (r = []) as -> end; [|by vm_compute].
  apply found_none. intros x (b & Hx & Hb%elem_of_seqZ)%list_elem_of_bind. apply list_elem_of_bind in Hx as (d & Hx & Hd%elem_of_seqZ).
  apply list_elem_of_fmap in Hx as (f & -> & Hf%elem_of_seqZ). unfold present, field. cbn [header config card_space registers start].
  rewrite config_address_eq by lia. match goal with |- context [card_config _ ?x] => set (a := x) end.
  assert (card_config (0x600, 0xfebc0) a = 0xffffffff) as ->; [|done].
  unfold card_config, card. assert (0x80010000 ≤ a) as Ha by (unfold a; lia). clearbody a. repeat case_match; lia.
Qed.

Example card_regions :
  device_at (registers start) (0, 3, 0) =
  mk_device 0 3 0 [0xc001; 0xfebc0000; 0; 0; 0; 0] [32; 4096; 0; 0; 0; 0] [0xc000; 0xfebc0000; 0; 0; 0; 0] 0.
Proof. vm_compute. reflexivity. Qed.

Lemma found_elem {hw} `{ConfigSpace hw} (h : hw) x l : x ∈ l → present h x = true → x ∈ found h l.
Proof.
  intros Hx Hp. induction l as [|y l IH]; [by apply elem_of_nil in Hx|]. cbn [found]. apply elem_of_cons in Hx as [->|Hx]; [rewrite Hp; by left|].
  destruct (present h y); [right|]; by apply IH.
Qed.

Lemma start_plain : plain_bus (registers start).
Proof.
  intros b d f Hok Hp. assert ((b, d, f) ∈ found (registers start) slots) as Hin.
  { apply found_elem; [|done]. destruct Hok as (Hb & Hd & Hf). apply list_elem_of_bind. exists b. split; [|apply elem_of_seqZ; lia].
    apply list_elem_of_bind. exists d. split; [|apply elem_of_seqZ; lia]. apply list_elem_of_fmap. exists f. split; [done|apply elem_of_seqZ; lia]. }
  rewrite card_alone in Hin. apply list_elem_of_singleton in Hin. injection Hin as -> -> ->. split_and!; [by vm_compute|by vm_compute|].
  intros i Hi. assert (i ∈ seqZ 0 6) as Hi' by (apply elem_of_seqZ; lia). clear Hi. revert i Hi'. apply Forall_forall.
  repeat (apply Forall_cons; split; [by intros [? ?]|]). apply Forall_nil_2.
Qed.

(** a bridge: the upper half of its register 0x1c is the secondary status, whose
    bits are cleared by writing ones *)
#[local] Instance bridge_space : ConfigSpace Z := {|
  config h a := if a =? card + 0x1c then h else if a =? card + 0xc then 0x10000 else 0;
  put_config a v h := if a =? card + 0x1c then Z.ldiff h v else h;
  put_config_word a v h := h |}.

(** Looking for the size of "region 3" of a bridge clears its secondary status. *)
Theorem bridge_status_cleared :
  match pci_device_bar_size 0x500 3 (mk_pci 0 0x20000000 booted {[0x500 := set_place 0 3 0 zero_device]} [] ∅ [] ()) with
  | Ok (_, s) => registers s = 0
  | Err _ => False
  end.
Proof. vm_compute. reflexivity. Qed.
End PciExample.
